(* ===== verification/_CoqProject ===== *)
-Q . S2P
Prelude.v
SmModel.v
SmCore.v
SmInv.v
SmTrace.v
SmBound.v
SmSafety.v
SmCascade.v
SmDispatch.v
SmWalk.v
SmBehave.v
Timer.v
BootWalk.v
Board.v
Driver.v
DriverRun.v
Bytes.v
MctpWire.v
MctpServer.v
MctpDispatch.v
MctpStack.v
I2cWire.v
I2cServer.v
I2cClient.v
I2cRuntime.v
MctpI2c.v
Pldm.v
Swmbx.v
SwmbxRun.v
Usart.v
UsartClient.v
Flash.v
RegMonad.v
Spim.v
SpimRun.v
SpimLock.v
Soc.v
SocRun.v
Smc.v
SpimBoard.v
Otp.v
OtpRun.v
OtpProg.v
OtpData.v
OtpConf.v
OtpStraps.v
SmcRun.v
NorFlash.v
NorChip.v
SmcInit.v
NorUpdate.v
SpiTxn.v
AstI2c.v
AstI2cSlave.v
AstI2cTiming.v
AstI2cRun.v
AstI2cMaster.v
AstI2cXfer.v
AstI2cHal.v
AstI2cDma.v
AstI2cChip.v
AstI2cServe.v
Sha2.v
Hace.v
HaceRun.v
HaceDigest.v
HaceMac.v
HaceAes.v
HaceCorrect.v
I3cConfig.v
I3cIbi.v
I3cRegs.v
I3cDev.v
I3cCtl.v
I3cBook.v
I3cInv.v
I3cBus.v
I3cCorrect.v
I3cEngine.v
I3cDaa.v
