(* ===== verification/Prelude.v ===== *)
(** * OpenPRoT: the boot orchestrator and its services, verified

    OpenPRoT is firmware for an external root of trust (eRoT).  This library
    models and verifies the parts of it with the most logic of their own:

    - the boot orchestrator ([src/services/orchestrator]), which holds the
      platform's components in reset, verifies their firmware in the order of a
      chain of trust, releases them, watches them boot, recovers or isolates
      the ones that fail, supervises updates, and locks the platform down when
      anything it relies on fails;
    - the MCTP service ([src/services/mctp]), which multiplexes an MCTP endpoint
      between client processes over a binary IPC protocol, with the facade its
      clients program against, the echo application and the I2C binding;
    - the I2C service ([src/services/i2c]): client, wire protocol, server and
      the loop that owns the buses;
    - the PLDM firmware device ([src/services/pldm]) and the latch through which
      it tells the orchestrator of an update request;
    - the USART service ([src/drivers/usart]), the software mailbox of the
      AST10x0 ([src/target/ast10x0/pfr/swmbx_ctrl.rs]) and the blocking flash
      ([src/hal/blocking/flash]);
    - the SPI monitors of the AST10x0 ([src/target/ast10x0/peripherals/spimonitor]),
      which filter what a host may do to its flash, with the control unit that
      routes them ([peripherals/scu]) and the board code that wires them
      ([board/src]);
    - the one-time programmable memory of the AST10x0
      ([src/target/ast10x0/peripherals/otp]): data, configuration, straps,
      protections;
    - the flash controllers of the AST10x0 and the SPI NOR flashes on them
      ([src/target/ast10x0/peripherals/smc]), with transactions through a monitor;
    - the I2C controllers of the AST10x0 ([src/target/ast10x0/peripherals/i2c]) and
      the backend that puts the I2C service on them
      ([src/target/ast10x0/backend/i2c]);
    - the hash and crypto engine of the AST10x0
      ([src/target/ast10x0/peripherals/hace]): SHA-2, HMAC and AES, with the
      clocks, resets and data cache of the control unit it needs;
    - the I3C controllers of the AST10x0 ([src/target/ast10x0/peripherals/i3c]):
      addresses, transfers, command codes, dynamic address assignment, in-band
      interrupts and their queues.

    ** How the parts of the program fit together

    Events reach [Orchestrator::dispatch_with] ([sm/src/lib.rs]).  It steps a
    pure state machine ([Rot::handle], [handle_supervising], [entry_action]),
    which appends effects to a bounded buffer; each effect is executed by the
    [Platform], which may return a further event; emitted and returned events go
    through a queue of eight; a failed effect latches [EffectFailed] in front of
    it.  The platform of a product is [PlatformDriver] ([driver/src/driver.rs]),
    which routes effects to the board's capabilities (image sources, verifier,
    reset lines, boot walks, anti-rollback floors, report sink), and whose poll
    turns boot-walk verdicts into events.  Watchdog timers ([timer], [server])
    supply the timeouts.  Board tables ([config]) declare the checkpoints the
    walks ([adapters/walk]) judge.

    An MCTP client ([client-ipc]) encodes a request ([api/src/wire.rs]) into a
    kernel channel; the server process decodes and dispatches it
    ([server/src/dispatch.rs]) to the server ([server/src/server.rs]), which
    keeps the outstanding receives over the router of [mctp-lib].  Applications
    use the facade ([api/src/stack.rs]) over any [MctpClient]: the echo loop
    ([echo]) and the PLDM transport ([pldm/src/transport.rs]), on which the
    firmware device interleaves its own requests with the Update Agent's
    commands.  Below the router, a message leaves as fragments, each framed and
    written to the bus by [transport-i2c] through an I2C client.

    An I2C client ([i2c/client]) encodes a whole transaction into one request;
    [i2c/server] replays it on the bus it owns; [i2c/server-runtime] serves one
    channel per bus, latches what a master writes to the bus's target address and
    signals the client.  On the AST10x0 the bus is a controller driven by
    [peripherals/i2c], which moves bytes one at a time, through a pool of 32 bytes
    or by DMA, and answers as a target.  The USART client and server have the same shape, with
    one read that may be parked until the receive interrupt.

    At start-up the board wires each SPI monitor ([board/src/spim_wiring.rs]):
    pins and routing in the control unit, the flash multiplexers, then the
    monitor's policy, which it locks until reset.  A flash controller ([smc])
    decodes a window of memory per chip select; the flash ([smc/device]) reads
    through the window and sends its commands in user mode, one bus transaction
    each; [SpiTransaction] wraps a transfer in the routing of its monitor.

    The hash engine ([hace]) works on memory: the driver stages a message in a
    static context, writes descriptors, starts a command and polls its status
    between cleaning and invalidating the cache.  A digest session, a keyed one and
    a cipher session own the one context in turn.

    An I3C controller ([i3c/controller.rs], [ccc.rs]) keeps a book of addresses and
    a table of attached devices ([config.rs]), and calls a hardware interface
    ([hardware.rs]) that keeps the device address table of the block in step,
    queues commands to it and waits for its interrupt.  The interrupt routine
    completes the transfer, and puts in-band interrupts and what happens to a
    target on a ring per bus ([ibi.rs]) that a consumer drains.

    ** Files

    - [Prelude]: results, machine integers, bounded vectors, the state-and-log
      monad with its weakest preconditions, and relations a computation
      respects.
    - [SmModel]: [sm/src/model.rs]: components, events, effects, states, and
      [Chain::try_from].
    - [SmCore]: [sm/src/lib.rs] up to [Orchestrator::step]: the storage [Rot],
      one definition per handler and helper, the entry actions, the step.  A
      handler is a computation in the monad [M]: it may read and change the
      storage and emit effects, and never reads the effects back.
    - [SmInv], [SmTrace], [SmBound]: well-formed storage and what every step
      keeps of it; a monitor over the effect trace, per component; the number of
      effects of one step.
    - [SmSafety]: verify before release, verify at rest, final isolation, the
      effect buffer, well-formedness: over every run from power-on.
    - [SmCascade]: [cascade_hold] against the transitive dependents.
    - [SmDispatch]: [dispatch_with] over the type class [Platform]: trace safety
      on any platform, and fail-closed.
    - [SmWalk]: one verdict step by step, quiescence of a dispatch on a platform
      that returns nothing but verdicts ([VerdictPlatform]), the cold boot.
    - [SmBehave]: milestones, the commit window, attestation, corruption, the
      retry cap, exhaustion, lockdown; and the two situations the code does not
      handle as its comments intend.
    - [Timer]: [timer/src/lib.rs] refined to a finite map, and
      [server/src/runtime.rs].
    - [BootWalk]: [config/src/lib.rs] and [adapters/walk/src/walk.rs].
    - [Board]: the traits of [driver/src/board.rs] and [capabilities/src] as type
      classes; the contracts [BootWatchLaws] and [SvnFloorLaws], discharged by
      the checkpoint walk and by the fuse bank of [test/otp.rs]; the HAL
      adapters.
    - [Driver], [DriverRun]: [driver/src/driver.rs], executor by executor, and
      over runs of effects and polls: containment, boot events, floors, reports,
      and the driver as the platform of a dispatch ([driver_verdicts] discharges
      [VerdictPlatform]).
    - [Bytes]: little-endian integers, slices and the accesses that panic out of
      range, shared by the protocols below.
    - [MctpWire]: [api/src/wire.rs], [api/src/error.rs].
    - [MctpServer]: [server/src/server.rs] over the type class [Router].
    - [MctpDispatch]: [server/src/dispatch.rs], [client-ipc/src/lib.rs], and the
      two composed: a client call is the server's call.
    - [MctpStack]: [api/src/stack.rs] over the type class [MctpClient] (with the
      IPC client as an instance) and [echo/src/lib.rs]: request channels
      alternate, the echo goes back to the sender through the whole service.
    - [I2cWire]: [i2c/api/src/protocol.rs] and the two error mappings.
    - [I2cServer]: [i2c/server/src/lib.rs], [slave.rs], over the type class
      [I2c].
    - [I2cClient]: [i2c/client/src/lib.rs], [i2c/server/src/loopback.rs]: a
      client transaction is the bus's.
    - [I2cRuntime]: [i2c/server-runtime/src/lib.rs], one turn of its loop, and
      the client over a channel it serves: bus isolation, delivery of received
      bytes, recovery.
    - [MctpI2c]: [transport-i2c/src/sender.rs], [receiver.rs], over the type
      class [MctpLib]: what a message becomes on the bus, through the I2C client
      and server.
    - [Pldm]: [pldm/src/transport.rs], [firmware_device.rs] over the type class
      [CmdInterface], and [adapters/pldm/src/lib.rs]: handles, who is served,
      what the orchestrator hears.
    - [Swmbx], [SwmbxRun]: [swmbx_ctrl.rs] over the type class [Queue]: no panic,
      protection, the FIFOs, the protection bitmap.
    - [Usart], [UsartClient]: [drivers/usart]: the server over the type class
      [UsartBackend], one answer per request; the client as the backend, and the
      parked read.
    - [Flash]: [hal/blocking/flash/flash.rs] over the type class [FlashDriver]:
      reads and aligned programs against the flash as a list of bytes.
    - [RegMonad]: drivers over hardware registers: a monad with errors and
      panics, and weakest preconditions for total correctness.
    - [Spim]: [spimonitor/*.rs] over the type class [Spipf]: commands, policies,
      registers, the operations of the controller.
    - [SpimRun], [SpimLock]: what the registers do ([SpipfLaws]); a policy is
      applied whole or not at all; regions as updates of a bitmap; the command
      table as a set; a locked monitor enforces its policy for good.
    - [Soc], [SocRun]: [scu/*.rs] over the type class [Soc] with [SocLaws]: pins,
      routing, clocks, resets, cache; pin groups change exactly their bits, pins
      handed over for a transaction are taken back.
    - [Smc]: [smc/types.rs], [interrupts.rs], [helpers.rs], [registers.rs],
      [controller.rs] over the type class [SmcHw]; the clock divider and the
      calibration point.
    - [SpimBoard]: [board/src/spim_wiring.rs], [spi_monitor.rs],
      over both: a wired monitor is routed, multiplexed and locked to its policy,
      the others are as they were; multiplexers read back; resets in order; and
      where the status the board reports is not the monitor's.
    - [Otp]: [otp/mod.rs], [otp/common.rs] over the type class [Secure].
    - [OtpRun]: what fuses do ([SecureLaws]) and the driver's commands
      on them; a concrete part that discharges the laws.
    - [OtpProg], [OtpData], [OtpConf], [OtpStraps]: words, data and configuration
      regions, the lock and the straps: only bits that were asked for are
      burned, success means the fuses read as asked, what cannot be done is
      refused; and the calls that do not do what they are for.
    - [SmcRun], [SmcInit]: what the controllers do ([SmcLaws]): a user-mode
      transfer is one transaction on the SPI bus, the window reads the flash;
      start-up decodes each flash at its window.
    - [NorFlash]: [smc/device/flash.rs], [block_device.rs], [fmc.rs],
      [spi/spi.rs], and the command set ([NorLaws]) they rely on.
    - [NorChip], [NorUpdate]: a controller with two flashes that discharges both
      classes of laws; erase, program, verify, update and the block device as
      updates of an array of bytes.
    - [SpiTxn]: [smc/spi/spi_transaction.rs] over [Soc] and [Smc]: a transfer
      through a monitor is routed where the topology asks for it, made once, and
      the route and the pins are given back.
    - [AstI2c], [AstI2cSlave]: [peripherals/i2c/*.rs] and
      [backend/i2c/src/lib.rs] over the type class [I2cHw]: timing, the three
      transfer modes, the DMA guard, recovery, target mode.
    - [AstI2cTiming]: the divider is found and the bus clock is at most 33/32 of
      the speed asked for.
    - [AstI2cRun], [AstI2cMaster], [AstI2cXfer], [AstI2cHal]: what a packet command
      does to the bus ([I2cCtl], [I2cCtlLaws]); every transfer mode makes the same
      transfer, and a transaction is its operations on the wires.
    - [AstI2cDma]: on any hardware with a reset that stops the engine
      ([DmaEngineLaws]), no transfer is running when a call returns.
    - [AstI2cChip], [AstI2cServe]: a controller with a target on
      its bus that discharges the laws; the backend as the driver of the I2C
      server, so that a client's read or write is the transfer on the wires; what a
      remote master writes is what the server latches.
    - [Sha2]: FIPS 180-4 and RFC 2104 as executable functions, with the published
      test vectors: the reference for the next files.
    - [Hace], [HaceAes]: [peripherals/hace/*.rs] over the type class [HaceHw].
    - [HaceRun], [HaceDigest], [HaceMac]: what a hash command does ([HaceEngine],
      [HaceLaws]); what is staged and what is absorbed are the message so far.
    - [HaceCorrect]: an engine that discharges the laws; a digest is
      the standard's however the message is split, an HMAC is RFC 2104's, no hash
      command outlives its call, AES over payloads in ordinary SRAM is computed or
      refused and its sessions decrypt what they encrypted.
    - [I3cConfig]: [i3c/constants.rs], [error.rs], [config.rs]: the address book, the
      attached devices, the configuration.
    - [I3cIbi]: [i3c/ibi.rs]: each ring is a queue of sixteen that drops its oldest
      item and says so.
    - [I3cRegs]: [i3c/types.rs], [registers.rs] over the type class [I3cHw].
    - [I3cDev]: [i3c/hardware.rs]: the interrupt routine and the driver, as an
      instance of the type class [HardwareInterface].
    - [I3cCtl]: [i3c/ccc.rs], [controller.rs] over any [HardwareInterface].
    - [I3cBook]: the invariant of a configuration, kept by every operation of
      [config.rs].
    - [I3cInv]: what the hardware side leaves alone ([InterfaceLaws], discharged by
      the driver on any hardware), and against it the invariant for every call.
    - [I3cBus]: targets on a bus, what assignment commands do to them, whichever
      target wins the arbitration ([DaaBus], [DaaLaws]), and a controller block with a bus on it.
    - [I3cCorrect]: every history of calls keeps the books.
    - [I3cEngine]: a command the driver issues on that block is executed once, its
      response handed over by the interrupt routine, the block quiet again: the driver
      has the laws.
    - [I3cDaa]: address assignment succeeds within its budget, each device at its own
      address.

    ** Conventions

    An unsigned integer is a [Z] kept in its range by well-formedness; a [usize]
    that only indexes memory is a [nat]; narrowing casts are written out
    ([as_u8], [as_u16], [as_u32], [as_u64]).  [heapless::Vec] and arrays are lists with
    their capacity explicit.  [None] is a panic (an assertion, an index out of
    range); theorems about such functions show it does not happen.  State behind
    [&mut self] is threaded explicitly; a buffer behind [&mut [u8]] is passed in
    and returned.  Traits are type classes; code outside the repository (the
    kernel's clock and channels, the router, fragmenter and framing of
    [mctp-lib], the command engine of [pldm_interface], [heapless]'s queue,
    hardware behind HAL traits) is a parameter, and every hypothesis on it is
    documented behaviour, in a class of laws ([I2cLaws], [I2cDriverLaws],
    [UsartBackendLaws], [ClientLaws], [QueueLaws], [FlashReadLaws],
    [FlashProgramLaws], [SpipfLaws], [SocLaws], [SecureLaws], [SmcLaws], [NorLaws],
    [I2cCtlLaws], [DmaEngineLaws], [HaceLaws], [AesLaws], [InterfaceLaws],
    [DaaLaws]) that a concrete instance discharges for the witnesses.

    A server loop is modelled by one turn: what the kernel woke it with goes in,
    the system calls it makes come out, in order.

    ** Bounds and fuel

    [dispatch] takes fuel: [dispatch_quiesces] shows [chain.len() + 11] rounds
    are enough on a platform that returns only verdicts, [dispatch_fail_closed]
    that nine rounds are enough after a failure, [exhausted_required_locks]
    that twelve are.  [cascade_hold] gives its loop [N + 1] rounds, one more than
    [cascade_loop_terminates] shows to be enough.  [drain_boot_walks] takes one
    round per watched walk and one more; the timers' [drain] one round per armed
    watchdog.  [send_vectored] needs one round more than there are fragments.
    The flash loops have a round per byte and one more, [drain_queue] a round per
    queued byte and one more, a region of the SPI monitor a round per block and
    one more; their theorems show no call runs out.  The OTP driver's polls and
    retries are the source's own, 1000 and 20, the flash's status polls its own
    million.  The loops over a flash region have a round per byte or per sector and
    one more, and their specifications show that is enough; the wait for the DMA
    arbiter, which the code does not bound, is given a number of polls and does not
    return when they run out.  The I2C driver's waits are its own counts of polls,
    a million for a transfer and ten thousand for an abort; its chunk loop has a
    round per byte ([chunk_loop_total]), its copy loops a round per byte and the
    divider search 32, the width of the ratio it halves.  The hash driver's polls
    are its own, its update loop has a turn per byte of input, and
    [drain_engine], which the code does not bound, is given a number of status
    reads of which the engine's latency and one more are enough.  The I3C
    driver's polls, waits and assignment rounds are its own counts, and eight rounds a
    waiting device and one a stranger are enough ([bus_daa_assigns]); the search for a
    free address has a round per address, clearing a queue one per entry and two
    more; its interrupt routine runs where the driver yields.  The
    endless loops ([peer_run], [run_steps], [run_turns]) run for a given number
    of turns or over a given list of wake-ups.

    ** What is not modelled

    SPDM, storage and telemetry bind third-party stacks; the other HAL drivers,
    targets and third-party code are register-level or vendored.  Of the board the
    start-up sequence is left out; delays do nothing, but for the yields of the I2C and
    I3C drivers, during which the hardware runs.  Of the I2C
    driver, [target_adapter.rs] is left out: no module declares it.  The orchestrator's
    capabilities that no driver composes yet are declarations only.  Log output,
    [Display] implementations and the [Error] source chains are left out
    everywhere. *)

From stdpp Require Import base tactics list numbers strings gmap.
Local Open Scope Z_scope.

(** ** Results *)

(** Rust's [Result<T, E>]. *)
Inductive result (A E : Type) : Type :=
| Ok (a : A)
| Err (e : E).
Arguments Ok {A E} a.
Arguments Err {A E} e.

Definition map_err {A E F} (f : E → F) (r : result A E) : result A F :=
  match r with Ok a => Ok a | Err e => Err (f e) end.

Definition map_ok {A B E} (f : A → B) (r : result A E) : result B E :=
  match r with Ok a => Ok (f a) | Err e => Err e end.

Definition ok_or {A E} (o : option A) (e : E) : result A E :=
  match o with Some a => Ok a | None => Err e end.

Definition unwrap_or {A E} (r : result A E) (d : A) : A :=
  match r with Ok a => a | Err _ => d end.

#[export] Instance result_ret E : MRet (λ A, result A E) := λ A a, Ok a.

#[export] Instance result_eq_dec {A E} `{EqDecision A, EqDecision E} :
  EqDecision (result A E).
Proof. solve_decision. Defined.

(** ** Machine integers

    An unsigned [w]-bit integer is a [Z] in [0 .. 2^w); [usize] quantities that
    only index memory are [nat]. *)

Definition u8_MAX : Z := 255.
Definition u16_MAX : Z := 65535.
Definition u32_MAX : Z := 4294967295.
Definition u64_MAX : Z := 18446744073709551615.

Definition in_u8 (z : Z) : Prop := 0 ≤ z ≤ u8_MAX.
Definition in_u16 (z : Z) : Prop := 0 ≤ z ≤ u16_MAX.
Definition in_u32 (z : Z) : Prop := 0 ≤ z ≤ u32_MAX.
Definition in_u64 (z : Z) : Prop := 0 ≤ z ≤ u64_MAX.

(** [x as u8], [x as u16], [x as u64]: truncation. *)
Definition as_u8 (z : Z) : Z := z mod 256.
Definition as_u16 (z : Z) : Z := z mod 65536.
Definition as_u64 (z : Z) : Z := z mod 18446744073709551616.

(** [a.saturating_add(b)] at a width whose greatest value is [m]. *)
Definition saturating_add (m a b : Z) : Z := Z.min m (a + b).

(** [x as usize] of an unsigned value. *)
Definition as_usize (z : Z) : nat := Z.to_nat z.

Lemma as_u8_small z : in_u8 z → as_u8 z = z.
Proof. unfold in_u8, u8_MAX, as_u8. intros. apply Z.mod_small. lia. Qed.

Lemma as_u8_range z : in_u8 (as_u8 z).
Proof. unfold in_u8, u8_MAX, as_u8. pose proof (Z.mod_pos_bound z 256). lia. Qed.

Lemma as_usize_as_u8 (n : nat) :
  (n ≤ 255)%nat → as_usize (as_u8 (Z.of_nat n)) = n.
Proof.
  intros. unfold as_usize. rewrite as_u8_small; [lia|].
  unfold in_u8, u8_MAX. lia.
Qed.

Lemma as_usize_of_nat (n : nat) : as_usize (Z.of_nat n) = n.
Proof. apply Nat2Z.id. Qed.

(** ** Sequences: [heapless::Vec], slices, iterator searches *)

(** [heapless::Vec<T, CAP>::push] whose [Err] is ignored. *)
Definition vec_push {A} (cap : nat) (v : list A) (x : A) : list A :=
  if decide (length v < cap)%nat then v ++ [x] else v.

(** [l[i] = x]. *)
Definition index_set {A} (l : list A) (i : nat) (x : A) : option (list A) :=
  if (i <? length l)%nat then Some (<[i := x]> l) else None.

Lemma index_set_Some {A} (l : list A) i x :
  (i < length l)%nat → index_set l i x = Some (<[i := x]> l).
Proof. intros Hi. unfold index_set. by rewrite (proj2 (Nat.ltb_lt _ _) Hi). Qed.

(** [iter().position(p)]. *)
Fixpoint position {A} (p : A → bool) (l : list A) : option nat :=
  match l with
  | [] => None
  | x :: l' => if p x then Some 0%nat else S <$> position p l'
  end.

Section position.
Context {A : Type} (p : A → bool).
Implicit Types l : list A.

Lemma position_Some l i :
  position p l = Some i →
  ∃ x, l !! i = Some x ∧ p x = true ∧
       ∀ j y, (j < i)%nat → l !! j = Some y → p y = false.
Proof.
  revert i. induction l as [|x l IH]; intros i; simpl; [done|].
  destruct (p x) eqn:Hx.
  - intros [= <-]. exists x. repeat split; try done. intros; lia.
  - destruct (position p l) as [k|]; intros [= <-].
    destruct (IH k eq_refl) as (y & Hy & Hp & Hlt).
    exists y. repeat split; try done.
    intros [|j] z Hj Hz; simpl in *; [congruence|].
    apply (Hlt j z); [lia|done].
Qed.

Lemma position_lt l i : position p l = Some i → (i < length l)%nat.
Proof.
  intros (x & Hx & _)%position_Some. by apply lookup_lt_Some in Hx.
Qed.

Lemma position_None l : position p l = None ↔ ∀ x, x ∈ l → p x = false.
Proof.
  induction l as [|x l IH]; simpl.
  - split; [|done]. intros _ x Hx. by apply elem_of_nil in Hx.
  - destruct (p x) eqn:Hx.
    + split; [done|]. intros H. rewrite H in Hx; [done|left].
    + rewrite fmap_None, IH. split.
      * intros H y [->|Hy]%elem_of_cons; auto.
      * intros H y Hy. apply H. by right.
Qed.

Lemma position_is_Some l x : x ∈ l → p x = true → is_Some (position p l).
Proof.
  intros Hx Hp. destruct (position p l) eqn:E; [eauto|].
  rewrite position_None in E. rewrite E in Hp by done. done.
Qed.
End position.

Lemma vec_push_fits {A} cap (v : list A) x :
  (length v < cap)%nat → vec_push cap v x = v ++ [x].
Proof. intros. unfold vec_push. by rewrite decide_True. Qed.

Lemma vec_push_length {A} cap (v : list A) x :
  (length v ≤ cap)%nat → (length (vec_push cap v x) ≤ cap)%nat.
Proof.
  intros. unfold vec_push. case_decide; rewrite ?length_app; simpl; lia.
Qed.

(** Pushing a run of elements into a bounded vector keeps the first [cap]. *)
Lemma foldl_vec_push {A} cap (l v : list A) :
  (length v ≤ cap)%nat → foldl (vec_push cap) v l = take cap (v ++ l).
Proof.
  revert v. induction l as [|x l IH]; intros v Hv; simpl.
  - rewrite app_nil_r, take_ge; [done|lia].
  - rewrite IH by (by apply vec_push_length).
    unfold vec_push. case_decide as Hc.
    + by rewrite <- app_assoc.
    + rewrite !take_app_le by lia. done.
Qed.

Lemma filter_ext_elem {A} (P Q : A → Prop)
    `{!∀ x, Decision (P x), !∀ x, Decision (Q x)} (l : list A) :
  (∀ x, x ∈ l → P x ↔ Q x) → filter P l = filter Q l.
Proof.
  induction l as [|x l IH]; intros Hiff; [done|]. rewrite !filter_cons.
  assert (P x ↔ Q x) as Hx by (apply Hiff; left).
  rewrite IH by (intros; apply Hiff; by right).
  destruct (decide (P x)), (decide (Q x)); tauto.
Qed.

Lemma filter_all {A} (P : A → Prop) `{!∀ x, Decision (P x)} (l : list A) :
  (∀ x, x ∈ l → P x) → filter P l = l.
Proof.
  induction l as [|x l IH]; intros Hall; [done|]. rewrite filter_cons, decide_True by (apply Hall; left).
  f_equal. apply IH. intros y Hy. apply Hall. by right.
Qed.

(** [heapless::Vec::swap_remove]: the last element takes the place of the
    removed one. *)
Definition swap_remove {A} (i : nat) (l : list A) : list A :=
  match last l with
  | Some x => take (length l - 1) (<[i := x]> l)
  | None => l
  end.

Lemma swap_remove_perm {A} i (l : list A) x :
  l !! i = Some x → l ≡ₚ x :: swap_remove i l.
Proof.
  intros Hi. unfold swap_remove.
  destruct l as [|y l _] using rev_ind; [done|].
  rewrite last_snoc, length_app. simpl. rewrite Nat.add_sub.
  destruct (decide (i < length l)%nat) as [Hlt|Hge].
  - rewrite lookup_app_l in Hi by done.
    rewrite insert_app_l by done. rewrite take_app_le by (by rewrite length_insert).
    rewrite take_ge by (by rewrite length_insert).
    rewrite <- (take_drop_middle l i x Hi) at 1.
    rewrite insert_take_drop by done.
    rewrite <- app_assoc. simpl. rewrite (Permutation_app_comm (take i l)). simpl.
    constructor. rewrite (Permutation_app_comm (take i l) (y :: _)). simpl.
    rewrite <- app_assoc. simpl. rewrite <- (Permutation_middle (drop (S i) l)).
    constructor. done.
  - assert (i = length l) as ->.
    { apply lookup_lt_Some in Hi. rewrite length_app in Hi. simpl in Hi. lia. }
    rewrite lookup_app_r, Nat.sub_diag in Hi by lia. simpl in Hi. simplify_eq.
    rewrite insert_app_r_alt, Nat.sub_diag by lia. simpl.
    rewrite take_app_length. by rewrite Permutation_app_comm.
Qed.

(** ** A state-and-log monad

    The pure core of the orchestrator mutates its own storage and pushes effects
    into a buffer it never reads back: [S] is the storage, [W] the type of the
    logged effects. *)

Definition sw (S W A : Type) : Type := S → A * S * list W.

#[export] Instance sw_ret S W : MRet (sw S W) := λ A a s, (a, s, []).
#[export] Instance sw_bind S W : MBind (sw S W) := λ A B f m s,
  let '(a, s1, l1) := m s in
  let '(b, s2, l2) := f a s1 in
  (b, s2, l1 ++ l2).

Definition sw_get {S W} : sw S W S := λ s, (s, s, []).
Definition sw_modify {S W} (f : S → S) : sw S W unit := λ s, ((), f s, []).
Definition sw_tell {S W} (l : list W) : sw S W unit := λ s, ((), s, l).

(** [for x in l { f(x) }] *)
Fixpoint sw_for {S W A} (l : list A) (f : A → sw S W unit) : sw S W unit :=
  match l with
  | [] => mret ()
  | x :: l' => f x ;; sw_for l' f
  end.

(** Weakest precondition: [Q] holds of the value, the final storage and the
    effects logged by [m] started in [s]. *)
Definition wp {S W A} (m : sw S W A) (Q : A → S → list W → Prop) (s : S) : Prop :=
  let '(a, s', l) := m s in Q a s' l.

Section wp.
Context {S W : Type}.

Lemma wp_ret {A} (a : A) (Q : A → S → list W → Prop) s :
  Q a s [] → wp (mret a) Q s.
Proof. done. Qed.

Lemma wp_bind {A B} (m : sw S W A) (f : A → sw S W B) Q s :
  wp m (λ a s' l, wp (f a) (λ b s'' l', Q b s'' (l ++ l')) s') s →
  wp (m ≫= f) Q s.
Proof.
  unfold wp, mbind, sw_bind.
  destruct (m s) as [[a s1] l1]. destruct (f a s1) as [[b s2] l2]. done.
Qed.

Lemma wp_get (Q : S → S → list W → Prop) s : Q s s [] → wp sw_get Q s.
Proof. done. Qed.

Lemma wp_modify f (Q : unit → S → list W → Prop) s :
  Q () (f s) [] → wp (sw_modify f) Q s.
Proof. done. Qed.

Lemma wp_tell l (Q : unit → S → list W → Prop) s :
  Q () s l → wp (sw_tell l) Q s.
Proof. done. Qed.

Lemma wp_mono {A} (m : sw S W A) (P Q : A → S → list W → Prop) s :
  wp m P s → (∀ a s' l, P a s' l → Q a s' l) → wp m Q s.
Proof. unfold wp. destruct (m s) as [[a s'] l]. eauto. Qed.

Lemma wp_run {A} (m : sw S W A) (Q : A → S → list W → Prop) s a s' l :
  wp m Q s → m s = (a, s', l) → Q a s' l.
Proof. unfold wp. intros HQ E. by rewrite E in HQ. Qed.

Lemma wp_true {A} (m : sw S W A) s : wp m (λ _ _ _, True) s.
Proof. unfold wp. by destruct (m s) as [[a s'] l]. Qed.

Lemma wp_and {A} (m : sw S W A) (P Q : A → S → list W → Prop) s :
  wp m P s → wp m Q s → wp m (λ a s' l, P a s' l ∧ Q a s' l) s.
Proof. unfold wp. by destruct (m s) as [[a s'] l]. Qed.

(** A postcondition that only matters under an assumption on the start. *)
Lemma wp_assuming {A} (P : Prop) (m : sw S W A) (Q Q' : A → S → list W → Prop) s :
  (P → wp m Q s) → (∀ a s' l, (P → Q a s' l) → Q' a s' l) → wp m Q' s.
Proof. unfold wp. destruct (m s) as [[a s'] l]. auto. Qed.

(** Loop rule: an invariant over the effects logged so far. *)
Lemma wp_for {A} (I : list A → S → list W → Prop) (l : list A)
    (f : A → sw S W unit) s :
  I [] s [] →
  (∀ done x s' w, I done s' w → x ∈ l →
     wp (f x) (λ _ s'' w', I (done ++ [x]) s'' (w ++ w')) s') →
  wp (sw_for l f) (λ _ s' w, I l s' w) s.
Proof.
  intros H0 Hstep.
  cut (∀ done s' w, I done s' w →
    wp (sw_for l f) (λ _ s'' w', I (done ++ l) s'' (w ++ w')) s').
  { intros H. exact (H [] s [] H0). }
  clear H0. revert Hstep.
  induction l as [|x l IH]; intros Hstep d s' w HI; simpl.
  - apply wp_ret. by rewrite !app_nil_r.
  - apply wp_bind. eapply wp_mono; [apply Hstep; [done|left]|].
    intros [] s1 w1 H1; simpl in *. eapply wp_mono.
    { apply IH; [|exact H1]. intros. apply Hstep; [done|by right]. }
    intros [] s2 w2; simpl. by rewrite <- !app_assoc.
Qed.
End wp.

Ltac wp_step :=
  lazymatch goal with
  | |- wp (mbind _ _) _ _ => apply wp_bind
  | |- wp (mret _) _ _ => apply wp_ret
  | |- wp sw_get _ _ => apply wp_get
  | |- wp (sw_modify _) _ _ => apply wp_modify
  | |- wp (sw_tell _) _ _ => apply wp_tell
  end; cbn beta.
Ltac wp_steps := repeat wp_step.

(** ** Relations between the start, the log and the end of a computation

    A relation that is reflexive on the empty log and transitive along
    concatenation of logs holds of a computation as soon as it holds of its
    primitive steps. *)

Class LogPreorder {S W} (R : S → list W → S → Prop) : Prop := {
  log_refl s : R s [] s;
  log_trans s1 l1 s2 l2 s3 : R s1 l1 s2 → R s2 l2 s3 → R s1 (l1 ++ l2) s3;
}.

Definition respects {S W A} (R : S → list W → S → Prop) (m : sw S W A) : Prop :=
  ∀ s, wp m (λ _ s' l, R s l s') s.

Section respects.
Context {S W : Type} (R : S → list W → S → Prop) `{!LogPreorder R}.

Lemma respects_ret {A} (a : A) : respects R (mret a).
Proof. intros s. apply log_refl. Qed.

Lemma respects_get : respects R sw_get.
Proof. intros s. apply log_refl. Qed.

Lemma respects_bind {A B} (m : sw S W A) (f : A → sw S W B) :
  respects R m → (∀ a, respects R (f a)) → respects R (m ≫= f).
Proof.
  intros Hm Hf s. apply wp_bind. eapply wp_mono; [apply Hm|].
  intros a s1 l1 H1; simpl in *. eapply wp_mono; [apply Hf|].
  intros b s2 l2 H2; simpl in *. by eapply log_trans.
Qed.

(** A computation that first reads the storage may use what it read. *)
Lemma respects_get_bind {A} (f : S → sw S W A) :
  (∀ s, wp (f s) (λ _ s' l, R s l s') s) → respects R (sw_get ≫= f).
Proof. intros Hf s. apply wp_bind, wp_get. apply Hf. Qed.

Lemma respects_modify (f : S → S) :
  (∀ s, R s [] (f s)) → respects R (sw_modify f).
Proof. intros H s. apply H. Qed.

Lemma respects_tell (l : list W) :
  (∀ s, R s l s) → respects R (sw_tell l).
Proof. intros H s. apply H. Qed.

Lemma respects_for {A} (l : list A) (f : A → sw S W unit) :
  (∀ x, x ∈ l → respects R (f x)) → respects R (sw_for l f).
Proof.
  intros Hf. induction l as [|x l IH]; simpl.
  - apply respects_ret.
  - apply respects_bind; [apply Hf; left|]. intros _. apply IH.
    intros y Hy. apply Hf. by right.
Qed.
End respects.
