(* ===== verification/SmModel.v ===== *)
(** * Vocabulary of the orchestrator state machine

    [services/orchestrator/sm/src/model.rs]: component identifiers and
    attributes, events, effects, states, and the validated [Chain] of trust.
    The theorems characterise [Chain::try_from]: which vectors it accepts, and
    what each of its errors means. *)

From S2P Require Import Prelude.
From stdpp Require Import base tactics list numbers strings countable.
Local Open Scope Z_scope.

(** ** Components *)

(** An opaque [u8] identifier. *)
Record ComponentId := mkComponentId { ComponentId_get : Z }.

Definition ComponentId_new (id : Z) : ComponentId := mkComponentId id.

#[export] Instance ComponentId_eq_dec : EqDecision ComponentId.
Proof. solve_decision. Defined.

#[export] Instance ComponentId_countable : Countable ComponentId.
Proof.
  refine (inj_countable' ComponentId_get mkComponentId _). by intros [].
Defined.

#[export] Instance ComponentId_inhabited : Inhabited ComponentId :=
  populate (mkComponentId 0).

Inductive ComponentKind := Active | Passive.
#[export] Instance ComponentKind_eq_dec : EqDecision ComponentKind.
Proof. solve_decision. Defined.

Inductive FailurePolicy := Required | Isolable | Cascading.
#[export] Instance FailurePolicy_eq_dec : EqDecision FailurePolicy.
Proof. solve_decision. Defined.

Record RegionId := mkRegionId { RegionId_get : Z }.

Definition RegionId_new (id : Z) : RegionId := mkRegionId id.

#[export] Instance RegionId_eq_dec : EqDecision RegionId.
Proof. solve_decision. Defined.

Record ComponentAttrs := mkAttrs {
  kind : ComponentKind;
  failure_policy : FailurePolicy;
  recovery_region : RegionId;
  depends_on : option ComponentId;
}.
#[export] Instance ComponentAttrs_eq_dec : EqDecision ComponentAttrs.
Proof. solve_decision. Defined.

Definition active_required : ComponentAttrs :=
  {| kind := Active; failure_policy := Required;
     recovery_region := RegionId_new 0; depends_on := None |}.
Definition passive_required : ComponentAttrs :=
  {| kind := Passive; failure_policy := Required;
     recovery_region := RegionId_new 0; depends_on := None |}.
Definition active_isolable : ComponentAttrs :=
  {| kind := Active; failure_policy := Isolable;
     recovery_region := RegionId_new 0; depends_on := None |}.
Definition passive_isolable : ComponentAttrs :=
  {| kind := Passive; failure_policy := Isolable;
     recovery_region := RegionId_new 0; depends_on := None |}.
Definition active_cascading : ComponentAttrs :=
  {| kind := Active; failure_policy := Cascading;
     recovery_region := RegionId_new 0; depends_on := None |}.
Definition passive_cascading : ComponentAttrs :=
  {| kind := Passive; failure_policy := Cascading;
     recovery_region := RegionId_new 0; depends_on := None |}.

Definition with_region (a : ComponentAttrs) (region : RegionId) : ComponentAttrs :=
  {| kind := kind a; failure_policy := failure_policy a;
     recovery_region := region; depends_on := depends_on a |}.

Definition with_depends_on (a : ComponentAttrs) (dependency : ComponentId) :
    ComponentAttrs :=
  {| kind := kind a; failure_policy := failure_policy a;
     recovery_region := recovery_region a; depends_on := Some dependency |}.

(** ** Events, effects, states *)

Inductive PowerOnResult := Provisioned | Unprovisioned | SelfVerificationFailed.
#[export] Instance PowerOnResult_eq_dec : EqDecision PowerOnResult.
Proof. solve_decision. Defined.

Inductive BootFailureKind := TimedOut | DeviceRetriable | DeviceFatal.
#[export] Instance BootFailureKind_eq_dec : EqDecision BootFailureKind.
Proof. solve_decision. Defined.

Inductive Event :=
| PowerGood (r : PowerOnResult)
| VerificationPassed (id : ComponentId)
| VerificationFailed (id : ComponentId)
| ComponentReady (id : ComponentId)
| Booted (id : ComponentId)
| AttestationChallenge
| UpdateRequest
| UpdateVerified
| UpdateRejected
| BootConfirmed (id : ComponentId)
| CorruptionDetected (id : ComponentId)
| Restored (id : ComponentId)
| RecoveryUnavailable (id : ComponentId)
| RecoveryFailed
| BootFailed (id : ComponentId) (checkpoint : string) (k : BootFailureKind)
| Timeout (id : ComponentId)
| CommitTimeout
| EffectFailed.
#[export] Instance Event_eq_dec : EqDecision Event.
Proof. solve_decision. Defined.

(** [Event::component_id]: the component an event names. *)
Definition component_id (e : Event) : option ComponentId :=
  match e with
  | VerificationPassed id | VerificationFailed id | ComponentReady id
  | Booted id | BootConfirmed id | CorruptionDetected id | Restored id
  | RecoveryUnavailable id | BootFailed id _ _ | Timeout id => Some id
  | PowerGood _ | AttestationChallenge | UpdateRequest | UpdateVerified
  | UpdateRejected | RecoveryFailed | CommitTimeout | EffectFailed => None
  end.

Inductive Effect :=
| ReadFirmware (id : ComponentId)
| VerifyFirmware (id : ComponentId)
| ReleaseReset (id : ComponentId)
| AssertReset (id : ComponentId)
| SignAttestation
| AuthenticateUpdate
| StageUpdate
| ActivateUpdate
| DiscardStaged
| CommitSvnFloor (id : ComponentId)
| RecoverComponent (id : ComponentId) (attempt : Z)
| ReportIsolated (id : ComponentId)
| ReportRecoveryFailed (id : ComponentId)
| ReportBootFailed (id : ComponentId) (checkpoint : string) (k : BootFailureKind)
| ReportUpdateDeferred
| ReportUpdateAborted
| LatchLockdown
| Emit (e : Event).
#[export] Instance Effect_eq_dec : EqDecision Effect.
Proof. solve_decision. Defined.

Inductive State :=
| PowerOnReset
| PreSupervision
| AwaitingReady (awaiting : option ComponentId)
| Ready
| Updating
| Recovering (failed : ComponentId)
| Locked.
#[export] Instance State_eq_dec : EqDecision State.
Proof. solve_decision. Defined.

(** ** The chain of trust *)

Abbreviation entry := (ComponentId * ComponentAttrs)%type.

Record Chain := mkChain { entries : list entry }.

Inductive ChainError :=
| ChainError_Empty
| ChainError_TooLong
| DuplicateId (id : ComponentId)
| UnknownDependency (component dep : ComponentId)
| ForwardDependency (component dep : ComponentId).
#[export] Instance ChainError_eq_dec : EqDecision ChainError.
Proof. solve_decision. Defined.

Definition into_entries (c : Chain) : list entry := entries c.

(** First loop of [try_from]: [seen] is [entries[..i]]. *)
Fixpoint check_unique (seen rest : list entry) : result unit ChainError :=
  match rest with
  | [] => Ok tt
  | (id, a) :: rest' =>
      if existsb (λ prev, bool_decide (prev.1 = id)) seen
      then Err (DuplicateId id)
      else check_unique (seen ++ [(id, a)]) rest'
  end.

(** Second loop: [rest] is [all[i..]]. *)
Fixpoint check_deps (all : list entry) (i : nat) (rest : list entry) :
    result unit ChainError :=
  match rest with
  | [] => Ok tt
  | (id, a) :: rest' =>
      match depends_on a with
      | None => check_deps all (S i) rest'
      | Some dep =>
          match position (λ e, bool_decide (e.1 = dep)) all with
          | None => Err (UnknownDependency id dep)
          | Some j =>
              if (i <=? j)%nat then Err (ForwardDependency id dep)
              else check_deps all (S i) rest'
          end
      end
  end.

(** [Chain::try_from]. *)
Definition try_from (es : list entry) : result Chain ChainError :=
  if (length es =? 0)%nat then Err ChainError_Empty
  else if (255 <? length es)%nat then Err ChainError_TooLong
  else match check_unique [] es with
       | Err e => Err e
       | Ok _ =>
           match check_deps es 0 es with
           | Err e => Err e
           | Ok _ => Ok {| entries := es |}
           end
       end.

(** ** What a valid chain is *)

(** Every dependency names a component strictly earlier in the chain. *)
Definition deps_backward (es : list entry) : Prop :=
  ∀ i id a dep, es !! i = Some (id, a) → depends_on a = Some dep →
    ∃ j, (j < i)%nat ∧ (fst <$> es) !! j = Some dep.

Definition chain_valid (es : list entry) : Prop :=
  es ≠ [] ∧ (length es ≤ 255)%nat ∧ NoDup es.*1 ∧ deps_backward es.

(** ** Lemmas *)

Lemma position_id (es : list entry) id j :
  position (λ e, bool_decide (e.1 = id)) es = Some j → es.*1 !! j = Some id.
Proof.
  intros (x & Hx & Hp & _)%position_Some.
  apply bool_decide_eq_true in Hp. by rewrite list_lookup_fmap, Hx, <- Hp.
Qed.

Lemma position_id_None (es : list entry) id :
  position (λ e, bool_decide (e.1 = id)) es = None ↔ id ∉ es.*1.
Proof.
  rewrite position_None. split.
  - intros H (e & -> & He)%list_elem_of_fmap.
    specialize (H e He). by apply bool_decide_eq_false in H.
  - intros H e He. apply bool_decide_eq_false. intros <-.
    apply H, list_elem_of_fmap. eauto.
Qed.

Lemma position_id_iff (es : list entry) id j :
  NoDup es.*1 →
  position (λ e, bool_decide (e.1 = id)) es = Some j ↔ es.*1 !! j = Some id.
Proof.
  intros Hnd. split; [apply position_id|]. intros Hj.
  destruct (position _ es) as [k|] eqn:E.
  - f_equal. apply position_id in E. by eapply NoDup_lookup.
  - apply position_id_None in E. destruct E. by eapply list_elem_of_lookup_2.
Qed.

Lemma existsb_seen (seen : list entry) id :
  existsb (λ prev, bool_decide (prev.1 = id)) seen = true ↔ id ∈ seen.*1.
Proof.
  rewrite existsb_exists, list_elem_of_fmap. split.
  - intros (e & He & Hid%bool_decide_eq_true).
    exists e. split; [done|]. by apply list_elem_of_In.
  - intros (e & -> & He). exists e. split; [by apply list_elem_of_In|].
    by apply bool_decide_eq_true.
Qed.

Lemma check_unique_spec seen rest :
  NoDup seen.*1 →
  match check_unique seen rest with
  | Ok _ => NoDup (seen ++ rest).*1
  | Err e => ∃ i j id, e = DuplicateId id ∧ (i < j)%nat ∧
      (seen ++ rest).*1 !! i = Some id ∧ (seen ++ rest).*1 !! j = Some id
  end.
Proof.
  revert seen. induction rest as [|[id a] rest IH]; intros seen Hnd; simpl.
  - by rewrite app_nil_r.
  - destruct (existsb _ seen) eqn:E.
    + apply existsb_seen, list_elem_of_lookup in E as [i Hi].
      exists i, (length seen), id. rewrite !fmap_app.
      pose proof (lookup_lt_Some _ _ _ Hi) as Hlt. rewrite length_fmap in Hlt.
      repeat split; [done| |].
      * by rewrite lookup_app_l by (rewrite length_fmap; lia).
      * rewrite lookup_app_r by (rewrite length_fmap; lia).
        by rewrite length_fmap, Nat.sub_diag.
    + assert (NoDup (seen ++ [(id, a)]).*1) as Hnd'.
      { rewrite fmap_app. apply list.NoDup_app. repeat split; [done| |apply NoDup_singleton].
        intros x Hx. simpl. rewrite list_elem_of_singleton. intros ->.
        apply existsb_seen in Hx. congruence. }
      specialize (IH _ Hnd'). by rewrite <- app_assoc in IH.
Qed.

Lemma check_deps_spec pre rest :
  NoDup (pre ++ rest).*1 →
  match check_deps (pre ++ rest) (length pre) rest with
  | Ok _ => ∀ i id a dep, (length pre ≤ i)%nat →
      (pre ++ rest) !! i = Some (id, a) → depends_on a = Some dep →
      ∃ j, (j < i)%nat ∧ (pre ++ rest).*1 !! j = Some dep
  | Err e => ∃ i id a dep, (pre ++ rest) !! i = Some (id, a) ∧
      depends_on a = Some dep ∧
      ((e = UnknownDependency id dep ∧ dep ∉ (pre ++ rest).*1) ∨
       (e = ForwardDependency id dep ∧
        ∃ j, (i ≤ j)%nat ∧ (pre ++ rest).*1 !! j = Some dep))
  end.
Proof.
  revert pre. induction rest as [|[id a] rest IH]; intros pre Hnd; simpl.
  - intros i id a dep Hi. rewrite lookup_ge_None_2; [done|].
    rewrite length_app; simpl; lia.
  - assert ((pre ++ (id, a) :: rest) !! length pre = Some (id, a)) as Hhere.
    { by rewrite lookup_app_r, Nat.sub_diag by lia. }
    assert (pre ++ (id, a) :: rest = (pre ++ [(id, a)]) ++ rest) as Hassoc
      by (by rewrite <- app_assoc).
    specialize (IH (pre ++ [(id, a)])). rewrite <- Hassoc in IH.
    rewrite length_app in IH. simpl in IH. rewrite Nat.add_1_r in IH.
    specialize (IH Hnd).
    assert (∀ (ok : ∀ dep, depends_on a = Some dep →
       ∃ j, (j < length pre)%nat ∧ (pre ++ (id, a) :: rest).*1 !! j = Some dep),
      match check_deps (pre ++ (id, a) :: rest) (S (length pre)) rest with
      | Ok _ => ∀ i id' a' dep, (length pre ≤ i)%nat →
          (pre ++ (id, a) :: rest) !! i = Some (id', a') → depends_on a' = Some dep →
          ∃ j, (j < i)%nat ∧ (pre ++ (id, a) :: rest).*1 !! j = Some dep
      | Err _ => True end) as Hok.
    { intros ok. destruct (check_deps _ _ rest); [|done].
      intros i id' a' dep Hi Hlk Hdep.
      destruct (decide (i = length pre)) as [->|].
      - rewrite Hhere in Hlk. simplify_eq. eauto.
      - eapply (IH i id' a' dep); eauto. lia. }
    destruct (depends_on a) as [dep|] eqn:Hdep.
    + destruct (position _ _) as [j|] eqn:Hpos.
      * pose proof (position_id _ _ _ Hpos) as Hj.
        destruct (length pre <=? j)%nat eqn:Hle.
        -- apply Nat.leb_le in Hle. exists (length pre), id, a, dep.
           repeat split; [done|done|]. right. eauto.
        -- apply Nat.leb_gt in Hle.
           specialize (Hok ltac:(intros ? [= <-]; eauto)).
           by destruct (check_deps _ _ rest).
      * exists (length pre), id, a, dep. repeat split; [done|done|]. left.
        split; [done|]. by apply position_id_None.
    + specialize (Hok ltac:(done)). by destruct (check_deps _ _ rest).
Qed.

Lemma try_from_Ok es c : try_from es = Ok c → chain_valid es ∧ entries c = es.
Proof.
  unfold try_from. destruct (length es =? 0)%nat eqn:E0; [done|].
  destruct (255 <? length es)%nat eqn:E1; [done|].
  pose proof (check_unique_spec [] es (NoDup_nil_2)) as Hu.
  destruct (check_unique [] es); [|done]. simpl in Hu.
  pose proof (check_deps_spec [] es Hu) as Hd. simpl in Hd.
  destruct (check_deps es 0 es); intros [= <-].
  apply Nat.eqb_neq in E0. apply Nat.ltb_ge in E1. repeat split; auto.
  - intros ->. done.
  - intros i id b dep Hi Hb. eapply Hd; eauto. lia.
Qed.

(** The defect an error of [try_from] reports is really in the input. *)
Definition chain_error_describes (es : list entry) (e : ChainError) : Prop :=
  match e with
  | ChainError_Empty => es = []
  | ChainError_TooLong => (length es > 255)%nat
  | DuplicateId id => ∃ i j, (i < j)%nat ∧
      es.*1 !! i = Some id ∧ es.*1 !! j = Some id
  | UnknownDependency c dep => (dep ∉ (es.*1)) ∧
      ∃ a, (c, a) ∈ es ∧ depends_on a = Some dep
  | ForwardDependency c dep => ∃ i j a, (i ≤ j)%nat ∧
      es !! i = Some (c, a) ∧ depends_on a = Some dep ∧ es.*1 !! j = Some dep
  end.

Lemma try_from_Err es e : try_from es = Err e → chain_error_describes es e.
Proof.
  unfold try_from. destruct (length es =? 0)%nat eqn:E0.
  { intros [= <-]. by apply Nat.eqb_eq, nil_length_inv in E0. }
  destruct (255 <? length es)%nat eqn:E1.
  { intros [= <-]. apply Nat.ltb_lt in E1. simpl. lia. }
  pose proof (check_unique_spec [] es (NoDup_nil_2)) as Hu. simpl in Hu.
  destruct (check_unique [] es).
  - pose proof (check_deps_spec [] es Hu) as Hd. simpl in Hd.
    destruct (check_deps es 0 es); intros [= <-].
    destruct Hd as (i & id & b & dep & Hi & Hb & [[-> H]|[-> (j & Hij & Hj)]]); simpl.
    + split; [done|]. exists b. split; [by eapply list_elem_of_lookup_2|done].
    + eauto 10.
  - intros [= <-]. destruct Hu as (i & j & id & -> & ?). simpl. eauto.
Qed.

Lemma chain_error_invalid es e : chain_error_describes es e → ¬ chain_valid es.
Proof.
  destruct e; simpl; intros H (Hne & Hlen & Hnd & Hdep).
  - done.
  - lia.
  - destruct H as (i & j & Hij & Hi & Hj).
    pose proof (NoDup_lookup _ _ _ _ Hnd Hi Hj). lia.
  - destruct H as (Hnin & a & [i Hi]%list_elem_of_lookup & Ha).
    destruct (Hdep _ _ _ _ Hi Ha) as (j & _ & Hj).
    apply Hnin. by eapply list_elem_of_lookup_2.
  - destruct H as (i & j & a & Hij & Hi & Ha & Hj).
    destruct (Hdep _ _ _ _ Hi Ha) as (k & Hk & Hk').
    pose proof (NoDup_lookup _ _ _ _ Hnd Hj Hk'). lia.
Qed.

Lemma try_from_valid es : chain_valid es → try_from es = Ok {| entries := es |}.
Proof.
  intros Hv. destruct (try_from es) as [c|e] eqn:E.
  - apply try_from_Ok in E as [_ E]. f_equal. destruct c. by simpl in *; subst.
  - by apply try_from_Err, chain_error_invalid in E.
Qed.

(** ** Properties *)

(** [Chain::try_from] accepts exactly the well-formed vectors (non-empty, at
    most 255 long, unique identifiers, every dependency strictly earlier) and
    returns them unchanged; on any other vector its error names a defect that
    is really there. *)
Theorem try_from_characterised (es : list entry) :
  match try_from es with
  | Ok c => chain_valid es ∧ into_entries c = es
  | Err e => ¬ chain_valid es ∧ chain_error_describes es e
  end.
Proof.
  destruct (try_from es) as [c|e] eqn:E.
  - by apply try_from_Ok.
  - apply try_from_Err in E. split; [by eapply chain_error_invalid|done].
Qed.
