(* ===== verification/SmCore.v ===== *)
(** * The orchestrator's decision core

    [services/orchestrator/sm/src/lib.rs]: the shared storage [Rot], its helper
    operations, the per-state handlers, the supervising handler, the entry
    actions and [Orchestrator::step].

    A handler mutates [Rot] and calls [Sink::emit]; it never reads the buffer
    back.  So a handler is a computation of the state-and-log monad of the
    prelude over [Rot] and [Effect], and the [Sink] of capacity [E] is the fold
    of its push over the logged calls ([Sink_effects]).  [N] is the chain
    capacity.  [statuses[i]] is a total lookup here; [SmInv] proves that every
    index the machine uses is in range, so that the source never panics. *)

From S2P Require Import Prelude SmModel.
From stdpp Require Import base tactics list numbers strings.
Local Open Scope Z_scope.

(** ** Storage *)

Inductive ComponentLifecycle := Nominal | Isolated.
#[export] Instance ComponentLifecycle_eq_dec : EqDecision ComponentLifecycle.
Proof. solve_decision. Defined.

Record ComponentStatus := mkStatus {
  lifecycle : ComponentLifecycle;
  retry : Z;
  awaiting_boot : bool;
  released : bool;
}.

Definition ComponentStatus_default : ComponentStatus :=
  {| lifecycle := Nominal; retry := 0; awaiting_boot := false; released := false |}.

#[export] Instance ComponentStatus_inhabited : Inhabited ComponentStatus :=
  populate ComponentStatus_default.

Record Rot := mkRot {
  chain : list entry;
  cursor : Z;
  statuses : list ComponentStatus;
  max_retry : Z;
  pending_commit : bool;
}.

Inductive Outcome :=
| Handled
| Transition (target : State)
| Super.

Inductive Gating := Gated | NotGated.

(** The monad of the handlers. *)
Abbreviation M := (sw Rot Effect).

(** [Sink::emit], and the buffer the emitted effects end up in. *)
Definition emit (e : Effect) : M unit := sw_tell [e].

Definition Sink_effects (E : nat) (emits : list Effect) : list Effect :=
  foldl (vec_push E) [] emits.

(** Field assignments. *)
Definition set_cursor (c : Z) (r : Rot) : Rot :=
  {| chain := chain r; cursor := c; statuses := statuses r;
     max_retry := max_retry r; pending_commit := pending_commit r |}.
Definition set_statuses (ss : list ComponentStatus) (r : Rot) : Rot :=
  {| chain := chain r; cursor := cursor r; statuses := ss;
     max_retry := max_retry r; pending_commit := pending_commit r |}.
Definition set_pending_commit (b : bool) (r : Rot) : Rot :=
  {| chain := chain r; cursor := cursor r; statuses := statuses r;
     max_retry := max_retry r; pending_commit := b |}.

Definition set_lifecycle (l : ComponentLifecycle) (s : ComponentStatus) :=
  {| lifecycle := l; retry := retry s;
     awaiting_boot := awaiting_boot s; released := released s |}.
Definition set_retry (n : Z) (s : ComponentStatus) :=
  {| lifecycle := lifecycle s; retry := n;
     awaiting_boot := awaiting_boot s; released := released s |}.
Definition set_awaiting_boot (b : bool) (s : ComponentStatus) :=
  {| lifecycle := lifecycle s; retry := retry s;
     awaiting_boot := b; released := released s |}.
Definition set_released (b : bool) (s : ComponentStatus) :=
  {| lifecycle := lifecycle s; retry := retry s;
     awaiting_boot := awaiting_boot s; released := b |}.

(** [self.statuses[i]], read and updated in place. *)
Definition status_at (r : Rot) (i : nat) : ComponentStatus := statuses r !!! i.
Definition update_status (i : nat) (f : ComponentStatus → ComponentStatus)
    (r : Rot) : Rot :=
  set_statuses (alter f i (statuses r)) r.

Section core.
Context (N : nat).

(** [Rot::new]. *)
Definition Rot_new (c : Chain) (max_retry : Z) : Rot :=
  let es := into_entries c in
  {| chain := es;
     cursor := 0;
     statuses := foldl (vec_push N) []
                   (replicate (length es) ComponentStatus_default);
     max_retry := max_retry;
     pending_commit := false |}.

(** ** Queries *)

Definition attrs_of (r : Rot) (id : ComponentId) : option ComponentAttrs :=
  snd <$> List.find (λ e, bool_decide (e.1 = id)) (chain r).

Definition status_index (r : Rot) (id : ComponentId) : option nat :=
  position (λ e, bool_decide (e.1 = id)) (chain r).

Definition in_chain (r : Rot) (id : ComponentId) : bool :=
  match status_index r id with Some _ => true | None => false end.

Definition is_gated (r : Rot) (id : ComponentId) : bool :=
  match status_index r id with
  | Some i => bool_decide (lifecycle (status_at r i) = Isolated)
  | None => false
  end.

Definition is_awaiting_boot (r : Rot) (id : ComponentId) : bool :=
  match status_index r id with
  | Some i => awaiting_boot (status_at r i)
  | None => false
  end.

(** [self.chain.get(self.cursor as usize)]. *)
Definition cursor_entry (r : Rot) : option entry :=
  chain r !! as_usize (cursor r).

(** ** Helper operations *)

(** [if let Some(i) = self.status_index(id) { f(self.statuses[i]) }]. *)
Definition with_status (id : ComponentId)
    (f : ComponentStatus → ComponentStatus) (r : Rot) : Rot :=
  match status_index r id with
  | Some i => update_status i f r
  | None => r
  end.

Definition gate_status (s : ComponentStatus) : ComponentStatus :=
  set_released false (set_awaiting_boot false (set_lifecycle Isolated s)).

Definition gate_one (id : ComponentId) : M bool :=
  r ← sw_get;
  if is_gated r id then mret false
  else
    emit (AssertReset id);;
    emit (ReportIsolated id);;
    sw_modify (with_status id gate_status);;
    mret true.

Definition bump_retry (id : ComponentId) : M Z :=
  r ← sw_get;
  match status_index r id with
  | Some i =>
      let n := saturating_add u8_MAX (retry (status_at r i)) 1 in
      sw_modify (update_status i (set_retry n));;
      mret n
  | None => mret 0
  end.

Definition clear_retry (id : ComponentId) : M unit :=
  sw_modify (with_status id (set_retry 0)).

Definition mark_released (id : ComponentId) : M unit :=
  sw_modify (with_status id (λ s, set_released true (set_awaiting_boot true s))).

Definition clear_awaiting_boot (id : ComponentId) : M unit :=
  sw_modify (with_status id (set_awaiting_boot false)).

(** The loop of [advance_to_next_ungated]; [rest] is [self.chain[idx..]]. *)
Fixpoint advance_loop (rest : list entry) (idx : nat) : M bool :=
  match rest with
  | [] =>
      r ← sw_get;
      sw_modify (set_cursor (as_u8 (Z.of_nat (length (chain r)))));;
      mret false
  | (id, _) :: rest' =>
      r ← sw_get;
      if negb (is_gated r id) then
        sw_modify (set_cursor (as_u8 (Z.of_nat idx)));;
        emit (ReadFirmware id);;
        emit (VerifyFirmware id);;
        mret true
      else advance_loop rest' (S idx)
  end.

Definition advance_to_next_ungated (start_idx : nat) : M bool :=
  r ← sw_get;
  advance_loop (drop start_idx (chain r)) start_idx.

Definition quiesce_one (ie : nat * entry) : M unit :=
  let '(i, (id, _)) := ie in
  r ← sw_get;
  if negb (released (status_at r i)) then mret ()
  else
    emit (AssertReset id);;
    sw_modify (update_status i (λ s, set_awaiting_boot false (set_released false s))).

Definition quiesce_all : M unit :=
  r ← sw_get;
  sw_for (imap pair (chain r)) quiesce_one.

(** The dependents of [holder] that are not on the frontier yet. *)
Definition dependents_of (es : list entry) (frontier : list ComponentId)
    (holder : ComponentId) : list ComponentId :=
  foldl (λ ds e,
    if bool_decide (depends_on e.2 = Some holder) && negb (bool_decide (e.1 ∈ frontier))
    then vec_push N ds e.1 else ds) [] es.

Fixpoint gate_dependents (ds frontier : list ComponentId) : M (list ComponentId) :=
  match ds with
  | [] => mret frontier
  | id :: ds' => gate_one id;; gate_dependents ds' (vec_push N frontier id)
  end.

(** The breadth-first loop of [cascade_hold]; [None] if the fuel runs out. *)
Fixpoint cascade_loop (fuel : nat) (i : nat) (frontier : list ComponentId) :
    M (option (list ComponentId)) :=
  match frontier !! i with
  | None => mret (Some frontier)
  | Some holder =>
      match fuel with
      | O => mret None
      | S fuel' =>
          r ← sw_get;
          frontier' ← gate_dependents (dependents_of (chain r) frontier holder) frontier;
          cascade_loop fuel' (S i) frontier'
      end
  end.

Definition cascade_hold (root : ComponentId) : M unit :=
  gate_one root;;
  cascade_loop (S N) 0 (vec_push N [] root);;
  mret ().

Definition gate_by_policy (id : ComponentId) : M Gating :=
  r ← sw_get;
  match failure_policy <$> attrs_of r id with
  | Some Cascading => cascade_hold id;; mret Gated
  | Some Isolable => gate_one id;; mret Gated
  | _ => mret NotGated
  end.

Definition exhaust_recovery (failed : ComponentId) : M Outcome :=
  g ← gate_by_policy failed;
  match g with
  | Gated =>
      clear_retry failed;;
      mret (Transition PreSupervision)
  | NotGated =>
      emit (ReportRecoveryFailed failed);;
      emit (Emit RecoveryFailed);;
      mret Handled
  end.

Definition handle_corruption (id : ComponentId) : M Outcome :=
  r ← sw_get;
  if is_gated r id then mret Handled
  else
    g ← gate_by_policy id;
    match g with
    | Gated => mret Handled
    | NotGated => mret (Transition (Recovering id))
    end.

Definition handle_corruption_advancing (id : ComponentId) : M Outcome :=
  outcome ← handle_corruption id;
  r ← sw_get;
  let cursor_gated :=
    match cursor_entry r with Some (c, _) => is_gated r c | None => false end in
  match outcome with
  | Handled =>
      if cursor_gated then
        found ← advance_to_next_ungated (as_usize (cursor r) + 1)%nat;
        if found : bool then mret Handled else mret (Transition Ready)
      else mret outcome
  | _ => mret outcome
  end.

(** ** The per-state handlers *)

Definition handle_power_on_reset (event : Event) : M Outcome :=
  match event with
  | PowerGood Provisioned => mret (Transition PreSupervision)
  | PowerGood Unprovisioned => mret (Transition Locked)
  | PowerGood SelfVerificationFailed => mret (Transition Locked)
  | EffectFailed => mret (Transition Locked)
  | _ => mret Super
  end.

Definition handle_pre_supervision (event : Event) : M Outcome :=
  match event with
  | VerificationPassed id =>
      r ← sw_get;
      if bool_decide (fst <$> cursor_entry r = Some id) then
        clear_retry id;;
        emit (ReleaseReset id);;
        mark_released id;;
        r ← sw_get;
        let current_kind := kind ∘ snd <$> cursor_entry r in
        found ← advance_to_next_ungated (as_usize (cursor r) + 1)%nat;
        if found : bool then
          match current_kind with
          | Some Active => mret (Transition (AwaitingReady (Some id)))
          | _ => mret Handled
          end
        else mret (Transition Ready)
      else mret Handled
  | VerificationFailed id =>
      r ← sw_get;
      if is_gated r id then mret Handled
      else mret (Transition (Recovering id))
  | CorruptionDetected id => handle_corruption_advancing id
  | Booted id => clear_awaiting_boot id;; mret Handled
  | Timeout id =>
      r ← sw_get;
      if is_awaiting_boot r id then mret (Transition (Recovering id))
      else mret Handled
  | BootFailed id checkpoint k =>
      r ← sw_get;
      if negb (is_awaiting_boot r id) then mret Handled
      else
        emit (ReportBootFailed id checkpoint k);;
        if bool_decide (k = DeviceFatal) then handle_corruption_advancing id
        else mret (Transition (Recovering id))
  | EffectFailed => mret (Transition Locked)
  | _ => mret Super
  end.

Definition handle_awaiting_ready (awaiting : option ComponentId) (event : Event) :
    M Outcome :=
  match event with
  | ComponentReady id =>
      clear_awaiting_boot id;;
      if bool_decide (awaiting = Some id) then
        r ← sw_get;
        if (length (chain r) <=? as_usize (cursor r))%nat
        then mret (Transition Ready)
        else mret (Transition (AwaitingReady None))
      else mret Handled
  | VerificationPassed id =>
      r ← sw_get;
      if bool_decide (fst <$> cursor_entry r = Some id) then
        clear_retry id;;
        emit (ReleaseReset id);;
        mark_released id;;
        r ← sw_get;
        found ← advance_to_next_ungated (as_usize (cursor r) + 1)%nat;
        if found : bool then mret Handled else mret (Transition Ready)
      else mret Handled
  | VerificationFailed id =>
      r ← sw_get;
      if is_gated r id then mret Handled
      else mret (Transition (Recovering id))
  | CorruptionDetected id => handle_corruption_advancing id
  | BootFailed id checkpoint DeviceFatal =>
      r ← sw_get;
      if is_awaiting_boot r id then
        emit (ReportBootFailed id checkpoint DeviceFatal);;
        handle_corruption_advancing id
      else mret Super
  | _ => mret Super
  end.

Definition handle_ready (event : Event) : M Outcome :=
  match event with
  | UpdateRequest => mret (Transition Updating)
  | BootConfirmed id =>
      emit (CommitSvnFloor id);;
      sw_modify (set_pending_commit false);;
      mret Handled
  | CommitTimeout =>
      r ← sw_get;
      if pending_commit r then mret (Transition Locked) else mret Handled
  | _ => mret Super
  end.

Definition handle_updating (event : Event) : M Outcome :=
  match event with
  | UpdateVerified =>
      emit ActivateUpdate;;
      sw_modify (set_pending_commit true);;
      mret (Transition Ready)
  | UpdateRejected =>
      emit DiscardStaged;;
      mret (Transition Ready)
  | CorruptionDetected id =>
      outcome ← handle_corruption id;
      match outcome with
      | Transition (Recovering _) =>
          emit DiscardStaged;;
          emit ReportUpdateAborted;;
          mret outcome
      | _ => mret outcome
      end
  | _ => mret Super
  end.

Definition handle_recovering (failed : ComponentId) (event : Event) : M Outcome :=
  match event with
  | Restored id =>
      if bool_decide (id = failed) then
        attempts ← bump_retry failed;
        r ← sw_get;
        if attempts <? max_retry r then mret (Transition PreSupervision)
        else exhaust_recovery failed
      else mret Handled
  | RecoveryUnavailable id =>
      if bool_decide (id = failed) then exhaust_recovery failed
      else mret Handled
  | RecoveryFailed => mret (Transition Locked)
  | _ => mret Super
  end.

(** [Rot::handle]. *)
Definition handle (state : State) (event : Event) : M Outcome :=
  match state with
  | PowerOnReset => handle_power_on_reset event
  | PreSupervision => handle_pre_supervision event
  | AwaitingReady awaiting => handle_awaiting_ready awaiting event
  | Ready => handle_ready event
  | Updating => handle_updating event
  | Recovering failed => handle_recovering failed event
  | Locked => mret Super
  end.

(** [Rot::handle_supervising]. *)
Definition handle_supervising (event : Event) : M Outcome :=
  match event with
  | AttestationChallenge => emit SignAttestation;; mret Handled
  | CorruptionDetected id => handle_corruption id
  | ComponentReady id | Booted id => clear_awaiting_boot id;; mret Handled
  | Timeout id =>
      r ← sw_get;
      if is_awaiting_boot r id then mret (Transition (Recovering id))
      else mret Handled
  | BootFailed id checkpoint k =>
      r ← sw_get;
      if negb (is_awaiting_boot r id) then mret Handled
      else
        emit (ReportBootFailed id checkpoint k);;
        if bool_decide (k = DeviceFatal) then handle_corruption id
        else mret (Transition (Recovering id))
  | UpdateRequest => emit ReportUpdateDeferred;; mret Handled
  | EffectFailed => mret (Transition Locked)
  | _ => mret Super
  end.

(** [Rot::entry_action]. *)
Definition entry_action (state : State) : M unit :=
  match state with
  | PreSupervision =>
      quiesce_all;;
      advance_to_next_ungated 0;;
      mret ()
  | Updating =>
      sw_modify (set_pending_commit false);;
      emit AuthenticateUpdate;;
      emit StageUpdate
  | Recovering failed =>
      sw_modify (set_pending_commit false);;
      clear_awaiting_boot failed;;
      r ← sw_get;
      attempt ←
        (match status_index r failed with
         | Some i =>
             sw_modify (update_status i (set_released false));;
             mret (retry (status_at r i))
         | None => mret 0
         end : M Z);
      emit (RecoverComponent failed attempt)
  | Locked => emit LatchLockdown
  | Ready => sw_modify (λ r, set_statuses (set_retry 0 <$> statuses r) r)
  | _ => mret ()
  end.

(** ** The engine *)

Record Orchestrator := mkOrchestrator { rot : Rot; state : State }.

Definition Orchestrator_new (c : Chain) (max_retry : Z) : Orchestrator :=
  {| rot := Rot_new c max_retry; state := PowerOnReset |}.

Definition is_supervised (s : State) : bool :=
  match s with
  | AwaitingReady _ | Ready | Updating | Recovering _ => true
  | _ => false
  end.

(** The three phases of [Orchestrator::step] once the event passed the
    membership check: the leaf handler, the supervisor on [Super], and the
    entry action of a transition; the result is the next state. *)
Definition step_body (st : State) (event : Event) : M State :=
  outcome0 ← handle st event;
  outcome ←
    (match outcome0 with
     | Super => if is_supervised st then handle_supervising event else mret Super
     | _ => mret outcome0
     end : M Outcome);
  match outcome with
  | Transition target => entry_action target;; mret target
  | _ => mret st
  end.

(** [Orchestrator::step]: the new orchestrator and the calls to [emit]. *)
Definition step_emits (o : Orchestrator) (event : Event) :
    Orchestrator * list Effect :=
  let dropped :=
    match component_id event with
    | Some id => negb (in_chain (rot o) id)
    | None => false
    end in
  if dropped then (o, [])
  else
    let '(st, r, emits) := step_body (state o) event (rot o) in
    ({| rot := r; state := st |}, emits).

(** ... and with the buffer of capacity [E] the effects end up in. *)
Definition step (E : nat) (o : Orchestrator) (event : Event) :
    Orchestrator * list Effect :=
  let '(o', emits) := step_emits o event in (o', Sink_effects E emits).

End core.
