(* ===== verification/SmInv.v ===== *)
(** * Well-formedness of the orchestrator's storage

    The per-component records as a partial map [status_of] from identifiers,
    how each operation of [SmCore] acts on it, the structural invariant
    [rot_wf] of [Rot] (parallel arrays, cursor and counters in range) and the
    frame [rot_le] that every operation stays within: the chain and the retry
    budget never change and an isolated component stays isolated. *)

From S2P Require Import Prelude SmModel SmCore.
From stdpp Require Import base tactics list numbers strings sets.
Local Open Scope Z_scope.

(** ** The status map *)

Definition status_of (r : Rot) (id : ComponentId) : option ComponentStatus :=
  status_index r id ≫= λ i, statuses r !! i.

Lemma status_at_of r id i :
  status_index r id = Some i →
  status_at r i = default ComponentStatus_default (status_of r id).
Proof.
  intros Hi. unfold status_at, status_of. rewrite Hi. simpl.
  by rewrite list_lookup_total_alt.
Qed.

Lemma is_gated_alt r id :
  is_gated r id =
    match status_of r id with
    | Some s => bool_decide (lifecycle s = Isolated)
    | None => false
    end.
Proof.
  unfold is_gated. destruct (status_index r id) as [i|] eqn:Hi.
  - rewrite (status_at_of _ _ _ Hi). by destruct (status_of r id).
  - unfold status_of. by rewrite Hi.
Qed.

Lemma is_gated_true r id :
  is_gated r id = true ↔ ∃ s, status_of r id = Some s ∧ lifecycle s = Isolated.
Proof.
  rewrite is_gated_alt. destruct (status_of r id) as [s|].
  - rewrite bool_decide_eq_true. naive_solver.
  - naive_solver.
Qed.

Lemma is_gated_false r id s :
  status_of r id = Some s → is_gated r id = false ↔ lifecycle s = Nominal.
Proof.
  intros Hs. rewrite is_gated_alt, Hs, bool_decide_eq_false.
  by destruct (lifecycle s).
Qed.

Lemma is_awaiting_boot_alt r id :
  is_awaiting_boot r id =
    match status_of r id with Some s => awaiting_boot s | None => false end.
Proof.
  unfold is_awaiting_boot. destruct (status_index r id) as [i|] eqn:Hi.
  - rewrite (status_at_of _ _ _ Hi). by destruct (status_of r id).
  - unfold status_of. by rewrite Hi.
Qed.

Lemma is_awaiting_boot_true r id :
  is_awaiting_boot r id = true ↔
  ∃ s, status_of r id = Some s ∧ awaiting_boot s = true.
Proof.
  rewrite is_awaiting_boot_alt. destruct (status_of r id); naive_solver.
Qed.

Lemma status_index_inj r id1 id2 i :
  status_index r id1 = Some i → status_index r id2 = Some i → id1 = id2.
Proof. intros H1%position_id H2%position_id. congruence. Qed.

Lemma status_index_chain r r' id :
  chain r = chain r' → status_index r id = status_index r' id.
Proof. unfold status_index. by intros ->. Qed.

Lemma status_of_with_status r id f id' :
  status_of (with_status id f r) id' =
    if decide (id = id') then f <$> status_of r id' else status_of r id'.
Proof.
  unfold with_status. destruct (status_index r id) as [i|] eqn:Hi.
  - unfold status_of at 1.
    rewrite (status_index_chain _ r) by done. unfold status_of. simpl.
    case_decide as Heq; [subst; rewrite Hi; simpl; apply list_lookup_alter_eq|].
    destruct (status_index r id') as [j|] eqn:Hj; [simpl|done].
    apply list_lookup_alter_ne. intros ->.
    apply Heq. by eapply status_index_inj.
  - case_decide as Heq; [subst|done].
    unfold status_of. by rewrite Hi.
Qed.

Lemma with_status_fields id f r :
  chain (with_status id f r) = chain r ∧ cursor (with_status id f r) = cursor r ∧
  max_retry (with_status id f r) = max_retry r ∧
  pending_commit (with_status id f r) = pending_commit r ∧
  length (statuses (with_status id f r)) = length (statuses r).
Proof.
  unfold with_status. destruct (status_index r id); simpl; [|done].
  by rewrite length_alter.
Qed.

Lemma with_status_chain id f r : chain (with_status id f r) = chain r.
Proof. apply with_status_fields. Qed.
Lemma with_status_cursor id f r : cursor (with_status id f r) = cursor r.
Proof. apply with_status_fields. Qed.
Lemma with_status_max_retry id f r : max_retry (with_status id f r) = max_retry r.
Proof. apply with_status_fields. Qed.
Lemma with_status_pending id f r :
  pending_commit (with_status id f r) = pending_commit r.
Proof. apply with_status_fields. Qed.
Lemma with_status_length id f r :
  length (statuses (with_status id f r)) = length (statuses r).
Proof. apply with_status_fields. Qed.
Lemma with_status_entry id f r : cursor_entry (with_status id f r) = cursor_entry r.
Proof. unfold cursor_entry. by rewrite with_status_chain, with_status_cursor. Qed.

Create Rewrite HintDb rot.
#[export] Hint Rewrite with_status_chain with_status_cursor with_status_max_retry
  with_status_pending with_status_length with_status_entry : rot.

Lemma status_of_set_cursor c r id : status_of (set_cursor c r) id = status_of r id.
Proof. done. Qed.
Lemma status_of_set_pending b r id :
  status_of (set_pending_commit b r) id = status_of r id.
Proof. done. Qed.
#[export] Hint Rewrite status_of_set_cursor status_of_set_pending : rot.

Lemma status_of_map_statuses f r id :
  status_of (set_statuses (f <$> statuses r) r) id = f <$> status_of r id.
Proof.
  unfold status_of. rewrite (status_index_chain _ r) by done.
  destruct (status_index r id) as [i|]; simpl; [|done].
  apply list_lookup_fmap.
Qed.

(** ** Structural well-formedness *)

Record rot_wf (N : nat) (r : Rot) : Prop := {
  wf_chain : chain_valid (chain r);
  wf_cap : (length (chain r) ≤ N)%nat;
  wf_statuses : length (statuses r) = length (chain r);
  wf_cursor : 0 ≤ cursor r ≤ Z.of_nat (length (chain r));
  wf_max_retry : in_u8 (max_retry r);
  wf_retry id s : status_of r id = Some s → in_u8 (retry s);
}.

Lemma wf_len N r : rot_wf N r → (length (chain r) ≤ 255)%nat.
Proof. intros [(_ & ? & _) _ _ _ _ _]. done. Qed.

Lemma wf_NoDup N r : rot_wf N r → NoDup (chain r).*1.
Proof. intros [(_ & _ & ? & _) _ _ _ _ _]. done. Qed.

Lemma status_index_iff r id i :
  NoDup (chain r).*1 → status_index r id = Some i ↔ (chain r).*1 !! i = Some id.
Proof. apply position_id_iff. Qed.

Lemma in_chain_iff r id : in_chain r id = true ↔ id ∈ (chain r).*1.
Proof.
  unfold in_chain, status_index.
  destruct (position _ _) eqn:E.
  - apply position_id in E. split; [|done]. intros _. by eapply list_elem_of_lookup_2.
  - apply position_id_None in E. naive_solver.
Qed.

Lemma status_of_is_Some N r id :
  rot_wf N r → is_Some (status_of r id) ↔ id ∈ (chain r).*1.
Proof.
  intros Hwf. rewrite <- in_chain_iff. unfold in_chain, status_of.
  destruct (status_index r id) as [i|] eqn:Hi; simpl.
  - split; [done|]. intros _. apply lookup_lt_is_Some_2.
    rewrite (wf_statuses _ _ Hwf). by eapply position_lt.
  - split; [intros []|]; done.
Qed.

(** Every status index the machine computes is in range: [self.statuses[i]]
    never panics. *)
Lemma status_index_in_range N r id i :
  rot_wf N r → status_index r id = Some i → (i < length (statuses r))%nat.
Proof. intros Hwf Hi. rewrite (wf_statuses _ _ Hwf). by eapply position_lt. Qed.

Lemma status_of_lookup N r i id a :
  rot_wf N r → chain r !! i = Some (id, a) →
  status_of r id = statuses r !! i.
Proof.
  intros Hwf Hi. unfold status_of.
  rewrite (proj2 (status_index_iff _ _ i (wf_NoDup _ _ Hwf))); [done|].
  by rewrite list_lookup_fmap, Hi.
Qed.

Lemma attrs_of_lookup N r i id a :
  rot_wf N r → chain r !! i = Some (id, a) → attrs_of r id = Some a.
Proof.
  intros Hwf Hi. unfold attrs_of.
  pose proof (wf_NoDup _ _ Hwf) as Hnd. revert i Hi Hnd.
  generalize (chain r) as es. induction es as [|[id' a'] es IH]; [done|].
  intros [|i] Hi Hnd; simpl in *.
  - simplify_eq. by rewrite bool_decide_true by done.
  - apply NoDup_cons in Hnd as [Hn Hnd]. rewrite bool_decide_false.
    { by eapply IH. }
    intros ->. apply Hn, list_elem_of_lookup. exists i.
    by rewrite list_lookup_fmap, Hi.
Qed.

Lemma Rot_new_wf N c max_retry :
  chain_valid (entries c) → (length (entries c) ≤ N)%nat → in_u8 max_retry →
  rot_wf N (Rot_new N c max_retry) ∧
  ∀ id s, status_of (Rot_new N c max_retry) id = Some s → s = ComponentStatus_default.
Proof.
  intros Hv Hlen Hmr.
  assert (foldl (vec_push N) [] (replicate (length (entries c)) ComponentStatus_default)
          = replicate (length (entries c)) ComponentStatus_default) as Hst.
  { rewrite foldl_vec_push by (simpl; lia). simpl.
    apply take_ge. by rewrite length_replicate. }
  assert (∀ id s, status_of (Rot_new N c max_retry) id = Some s →
            s = ComponentStatus_default) as Hdef.
  { intros id s. unfold status_of. simpl. unfold into_entries. rewrite Hst.
    destruct (status_index _ id) as [i|]; [simpl|done].
    intros [? _]%lookup_replicate. done. }
  split; [|done]. constructor; simpl; unfold into_entries.
  - done.
  - done.
  - by rewrite Hst, length_replicate.
  - lia.
  - done.
  - intros id s ->%Hdef. unfold in_u8, u8_MAX. simpl. lia.
Qed.

(** ** Specifications of the composite operations *)

Lemma dependents_of_subset N es frontier holder id :
  id ∈ dependents_of N es frontier holder → id ∈ es.*1.
Proof.
  unfold dependents_of.
  cut (∀ l acc, (∀ x, x ∈ acc → x ∈ es.*1) → l ⊆ es →
    ∀ x, x ∈ foldl (λ ds e, if bool_decide (depends_on e.2 = Some holder)
        && negb (bool_decide (e.1 ∈ frontier)) then vec_push N ds e.1 else ds) acc l →
    x ∈ es.*1).
  { intros H. apply (H es []); [|done]. by intros x ?%elem_of_nil. }
  intros l. induction l as [|e l IH]; intros acc Hacc Hl; simpl; [done|].
  apply IH; [|set_solver]. intros x.
  destruct (_ && _); [|auto]. unfold vec_push. case_decide; [|auto].
  rewrite elem_of_app, list_elem_of_singleton. intros [?| ->]; [auto|].
  apply list_elem_of_fmap_2. set_solver.
Qed.

Lemma attrs_of_in_chain r id a : attrs_of r id = Some a → id ∈ (chain r).*1.
Proof.
  unfold attrs_of. destruct (List.find _ _) as [e|] eqn:Hf; [|done]. intros _.
  apply List.find_some in Hf as [Hin Hid%bool_decide_eq_true]. subst id.
  apply list_elem_of_fmap_2. by apply list_elem_of_In.
Qed.

(** A relation that keeps the chain and holds of gating one component of it
    holds of every operation that only gates. *)
Section gating.
Context (N : nat) (R : Rot → list Effect → Rot → Prop) `{!LogPreorder R}.
Hypothesis Rchain : ∀ r l r', R r l r' → chain r' = chain r.
Hypothesis Hgate : ∀ id r, id ∈ (chain r).*1 →
  wp (gate_one id) (λ _ r' l, R r l r') r.

Lemma gate_dependents_respects ds frontier r :
  (∀ id, id ∈ ds → id ∈ (chain r).*1) →
  wp (gate_dependents N ds frontier) (λ _ r' l, R r l r') r.
Proof.
  revert r frontier. induction ds as [|id ds IH]; intros r frontier Hds; simpl.
  - apply wp_ret, log_refl.
  - apply wp_bind. eapply wp_mono; [apply Hgate, Hds; left|].
    intros b r1 l1 H1; simpl in *. eapply wp_mono.
    { apply IH. intros x Hx. rewrite (Rchain _ _ _ H1). apply Hds. by right. }
    simpl. intros _ r2 l2 H2. by eapply log_trans.
Qed.

Lemma cascade_loop_respects fuel i frontier :
  respects R (cascade_loop N fuel i frontier).
Proof.
  revert i frontier. induction fuel as [|fuel IH]; intros i frontier; simpl;
    (destruct (frontier !! i); [|by apply respects_ret]).
  - by apply respects_ret.
  - intros r. wp_steps. eapply wp_mono.
    { apply gate_dependents_respects. intros id. apply dependents_of_subset. }
    simpl. intros f r1 l1 H1. eapply wp_mono; [apply IH|].
    simpl. intros _ r2 l2 H2. by eapply log_trans.
Qed.

Lemma gate_by_policy_respects id : respects R (gate_by_policy N id).
Proof.
  intros r. unfold gate_by_policy, cascade_hold. wp_steps.
  destruct (attrs_of r id) as [a|] eqn:Ha; cbn [fmap option_fmap option_map];
    [|apply wp_ret, log_refl].
  apply attrs_of_in_chain in Ha.
  destruct (failure_policy a); [apply wp_ret, log_refl|..]; wp_steps.
  - eapply wp_mono; [by apply Hgate|]. simpl. intros b r1 l1 H1. wp_steps.
    by rewrite app_nil_r.
  - eapply wp_mono; [by apply Hgate|]. cbn beta. intros b r1 l1 H1. wp_steps.
    eapply wp_mono; [apply cascade_loop_respects|].
    simpl. intros _ r2 l2 H2. wp_steps. rewrite !app_nil_r. by eapply log_trans.
Qed.

Lemma handle_corruption_respects id : respects R (handle_corruption N id).
Proof.
  unfold handle_corruption.
  apply respects_bind; [done|by apply respects_get|]. intros r.
  destruct (is_gated r id); [by apply respects_ret|].
  apply respects_bind; [done|apply gate_by_policy_respects|].
  intros []; by apply respects_ret.
Qed.
End gating.

(** Only a component whose policy is not [Required] is gated. *)
Lemma gate_by_policy_outcome N id r :
  wp (gate_by_policy N id) (λ b r' l,
    (b = Gated ∧ ∃ a, attrs_of r id = Some a ∧ failure_policy a ≠ Required) ∨
    (b = NotGated ∧ r' = r ∧ l = [] ∧
     ∀ a, attrs_of r id = Some a → failure_policy a = Required)) r.
Proof.
  unfold gate_by_policy. wp_steps.
  destruct (attrs_of r id) as [a|] eqn:Ha; cbn [fmap option_fmap option_map].
  - destruct (failure_policy a) eqn:Hp.
    + wp_steps. right. repeat split; try done. naive_solver.
    + wp_steps. eapply wp_mono; [apply (wp_true (gate_one id))|]. intros. wp_steps.
      left. split; [done|]. exists a. by rewrite Hp.
    + wp_steps. eapply wp_mono; [apply (wp_true (cascade_hold N id))|]. intros. wp_steps.
      left. split; [done|]. exists a. by rewrite Hp.
  - wp_steps. right. by repeat split.
Qed.

(** What [handle_corruption] answers. *)
Lemma handle_corruption_outcome N id r :
  wp (handle_corruption N id) (λ o r' l,
    o = Handled ∨ o = Transition (Recovering id) ∧ r' = r ∧ l = [] ∧
                  is_gated r id = false) r.
Proof.
  unfold handle_corruption. wp_steps.
  destruct (is_gated r id) eqn:Hg; wp_steps; [by left|].
  eapply wp_mono; [apply gate_by_policy_outcome|].
  intros b r' l [[-> _]|(-> & -> & -> & _)]; wp_steps; [by left|by right].
Qed.

(** [advance_to_next_ungated] stops at the first ungated component from
    [start] on, or moves the cursor past the end. *)
Lemma wp_advance_loop N r rest idx (Q : bool → Rot → list Effect → Prop) :
  rot_wf N r → rest = drop idx (chain r) →
  (∀ i id a, (idx ≤ i)%nat → chain r !! i = Some (id, a) → is_gated r id = false →
     (∀ j id' a', (idx ≤ j < i)%nat → chain r !! j = Some (id', a') →
        is_gated r id' = true) →
     Q true (set_cursor (Z.of_nat i) r) [ReadFirmware id; VerifyFirmware id]) →
  ((∀ j id a, (idx ≤ j)%nat → chain r !! j = Some (id, a) → is_gated r id = true) →
     Q false (set_cursor (Z.of_nat (length (chain r))) r) []) →
  wp (advance_loop rest idx) Q r.
Proof.
  intros Hwf. pose proof (wf_len _ _ Hwf) as Hlen.
  revert idx. induction rest as [|[id a] rest IH]; intros idx Hrest Hfound Hdone.
  - simpl. wp_steps. simpl. rewrite as_u8_small by (unfold in_u8, u8_MAX; lia).
    apply Hdone. intros j id a Hj Hlk.
    assert (drop idx (chain r) !! (j - idx)%nat = Some (id, a)) as Hd.
    { rewrite lookup_drop. by replace (idx + (j - idx))%nat with j by lia. }
    by rewrite <- Hrest in Hd.
  - assert (chain r !! idx = Some (id, a)) as Hidx.
    { replace idx with (idx + 0)%nat by lia. by rewrite <- lookup_drop, <- Hrest. }
    pose proof (lookup_lt_Some _ _ _ Hidx).
    simpl. wp_steps. destruct (is_gated r id) eqn:Hg; simpl.
    + apply IH.
      * rewrite (drop_S _ _ _ Hidx) in Hrest. by simplify_eq.
      * intros i id' a' Hi Hlk Hg' Hlt. eapply Hfound; eauto; [lia|].
        intros j id'' a'' Hj Hlk''. destruct (decide (j = idx)) as [->|].
        -- by simplify_eq.
        -- eapply Hlt; [|done]. lia.
      * intros Hall. apply Hdone. intros j id' a' Hj Hlk.
        destruct (decide (j = idx)) as [->|]; [by simplify_eq|].
        eapply Hall; [|done]. lia.
    + unfold emit. wp_steps. simpl.
      rewrite as_u8_small by (unfold in_u8, u8_MAX; lia).
      eapply Hfound; eauto; lia.
Qed.

Lemma wp_advance N r start (Q : bool → Rot → list Effect → Prop) :
  rot_wf N r →
  (∀ i id a, (start ≤ i)%nat → chain r !! i = Some (id, a) → is_gated r id = false →
     (∀ j id' a', (start ≤ j < i)%nat → chain r !! j = Some (id', a') →
        is_gated r id' = true) →
     Q true (set_cursor (Z.of_nat i) r) [ReadFirmware id; VerifyFirmware id]) →
  ((∀ j id a, (start ≤ j)%nat → chain r !! j = Some (id, a) → is_gated r id = true) →
     Q false (set_cursor (Z.of_nat (length (chain r))) r) []) →
  wp (advance_to_next_ungated start) Q r.
Proof. intros. unfold advance_to_next_ungated. wp_steps. by eapply wp_advance_loop. Qed.

(** [quiesce_all] holds exactly the live components, in chain order. *)
Definition quiesce_status (s : ComponentStatus) : ComponentStatus :=
  if released s then set_awaiting_boot false (set_released false s) else s.

Definition live_ids (es : list entry) (ss : list ComponentStatus) : list ComponentId :=
  fst ∘ fst <$> filter (λ p, Is_true (released p.2)) (zip es ss).

Definition quiesced (r : Rot) : Rot := set_statuses (quiesce_status <$> statuses r) r.

Lemma wp_quiesce_loop es k pre ss r (Q : unit → Rot → list Effect → Prop) :
  statuses r = pre ++ ss → length pre = k → length ss = length es →
  Q () (set_statuses (pre ++ (quiesce_status <$> ss)) r) (AssertReset <$> live_ids es ss) →
  wp (sw_for (imap (λ i e, (k + i, e)%nat) es) quiesce_one) Q r.
Proof.
  revert k pre ss r Q. induction es as [|[id a] es IH];
    intros k pre ss r Q Hst Hk Hlen HQ; destruct ss as [|s ss]; try done.
  - simpl in *. apply wp_ret. rewrite app_nil_r in *. rewrite <- Hst in HQ.
    by destruct r.
  - rewrite imap_cons. simpl. rewrite Nat.add_0_r. apply wp_bind.
    assert (status_at r k = s) as Hs.
    { unfold status_at. rewrite Hst, <- Hk. by apply list_lookup_total_middle. }
    assert (statuses r = (pre ++ [s]) ++ ss) as Hst' by (by rewrite <- app_assoc).
    assert (imap ((λ i e, ((k + i)%nat, e)) ∘ S) es
            = imap (λ i (e : entry), ((S k + i)%nat, e)) es) as Himap.
    { apply imap_ext. intros i x _. simpl. f_equal. lia. }
    rewrite Himap. wp_steps. rewrite Hs. unfold live_ids in HQ. simpl in HQ.
    rewrite filter_cons in HQ. simpl in HQ. unfold quiesce_status in HQ at 1.
    destruct (released s) eqn:Hrel; simpl in *.
    + unfold emit. wp_steps.
      eapply (IH (S k) (pre ++ [quiesce_status s]) ss).
      * simpl. rewrite Hst, <- Hk, alter_app_r_alt by lia.
        rewrite Nat.sub_diag. simpl. rewrite <- app_assoc. simpl.
        unfold quiesce_status. by rewrite Hrel.
      * rewrite length_app. simpl. lia.
      * lia.
      * rewrite <- app_assoc. unfold quiesce_status at 1. rewrite Hrel. exact HQ.
    + wp_steps. eapply (IH (S k) (pre ++ [s]) ss); [done| |lia|].
      * rewrite length_app. simpl. lia.
      * rewrite <- app_assoc. exact HQ.
Qed.

Lemma wp_quiesce_all N r (Q : unit → Rot → list Effect → Prop) :
  rot_wf N r →
  Q () (quiesced r) (AssertReset <$> live_ids (chain r) (statuses r)) →
  wp quiesce_all Q r.
Proof.
  intros Hwf HQ. unfold quiesce_all. wp_steps.
  assert (imap pair (chain r) = imap (λ i (e : entry), ((0 + i)%nat, e)) (chain r)) as ->
    by done.
  eapply (wp_quiesce_loop _ 0%nat [] (statuses r)); [done|done| |done].
  by eapply wf_statuses.
Qed.

(** ** The frame of every operation *)

Record rot_le (r r' : Rot) : Prop := {
  le_chain : chain r' = chain r;
  le_max_retry : max_retry r' = max_retry r;
  le_gated id : is_gated r id = true → is_gated r' id = true;
}.

#[export] Instance rot_le_preorder : PreOrder rot_le.
Proof.
  split.
  - by intros r.
  - intros r1 r2 r3 [] []. constructor; [congruence..|]. eauto.
Qed.

Section frame.
Context (N : nat).

(** Well-formedness is kept and the frame holds, whatever is logged. *)
Definition rot_keeps (r : Rot) (_ : list Effect) (r' : Rot) : Prop :=
  rot_wf N r → rot_wf N r' ∧ rot_le r r'.

#[export] Instance rot_keeps_log_preorder : LogPreorder rot_keeps.
Proof.
  split.
  - intros r Hwf. done.
  - intros r1 l1 r2 l2 r3 H12 H23 Hwf.
    destruct (H12 Hwf) as [Hwf2 Hle]. destruct (H23 Hwf2) as [Hwf3 Hle'].
    split; [done|]. by etrans.
Qed.

Lemma keeps_assuming_wf {A} (m : M A) :
  (∀ r, rot_wf N r → wp m (λ _ r' l, rot_keeps r l r') r) → respects rot_keeps m.
Proof.
  intros H r. eapply wp_assuming; [apply (H r)|].
  simpl. intros a r' l Hk Hwf. by apply Hk.
Qed.

Lemma keeps_with_status id f r l :
  (∀ s, status_of r id = Some s → in_u8 (retry s) → in_u8 (retry (f s))) →
  (∀ s, lifecycle s = Isolated → lifecycle (f s) = Isolated) →
  rot_keeps r l (with_status id f r).
Proof.
  intros Hretry Hiso Hwf. split.
  - destruct Hwf. constructor; autorewrite with rot; [done..|].
    intros id' s. rewrite status_of_with_status.
    case_decide; [subst|eauto]. intros (s' & ? & ->)%fmap_Some. eauto.
  - constructor; autorewrite with rot; [done..|].
    intros id' Hg. rewrite is_gated_alt, status_of_with_status.
    apply is_gated_true in Hg as (s & -> & Hl).
    case_decide; simpl; rewrite bool_decide_true; auto.
Qed.

Lemma keeps_same_statuses r l r' :
  chain r' = chain r → statuses r' = statuses r → max_retry r' = max_retry r →
  0 ≤ cursor r' ≤ Z.of_nat (length (chain r)) → rot_keeps r l r'.
Proof.
  intros Hc Hs Hm Hcur Hwf.
  assert (∀ id, status_of r' id = status_of r id) as Hso.
  { intros id. unfold status_of. by rewrite (status_index_chain r' r), Hs. }
  split.
  - destruct Hwf. constructor; rewrite ?Hc, ?Hs, ?Hm; auto.
    intros id s. rewrite Hso. eauto.
  - constructor; [done..|]. intros id. by rewrite !is_gated_alt, Hso.
Qed.

Lemma keeps_emit e : respects rot_keeps (emit e).
Proof. intros r Hwf. done. Qed.

Lemma gate_one_keeps id : respects rot_keeps (gate_one id).
Proof.
  unfold gate_one. apply respects_get_bind. intros r.
  destruct (is_gated r id); [by apply wp_ret|].
  unfold emit. wp_steps. by apply keeps_with_status.
Qed.

(** The same relation, with the chain kept unconditionally. *)
Definition rot_keeps_chain (r : Rot) (l : list Effect) (r' : Rot) : Prop :=
  chain r' = chain r ∧ rot_keeps r l r'.

#[export] Instance rot_keeps_chain_log_preorder : LogPreorder rot_keeps_chain.
Proof.
  split.
  - intros r. split; [done|apply log_refl].
  - intros r1 l1 r2 l2 r3 [H1 H1'] [H2 H2']. split; [congruence|].
    by eapply log_trans.
Qed.

Lemma gate_one_keeps_chain id r : wp (gate_one id) (λ _ r' l, rot_keeps_chain r l r') r.
Proof.
  unfold gate_one. wp_steps. destruct (is_gated r id); [by apply wp_ret|].
  unfold emit. wp_steps. split; [by autorewrite with rot|]. by apply keeps_with_status.
Qed.

Lemma respects_keeps_chain {A} (m : M A) :
  respects rot_keeps_chain m → respects rot_keeps m.
Proof. intros H r. eapply wp_mono; [apply H|]. by intros a r' l []. Qed.

Lemma gate_by_policy_keeps id : respects rot_keeps (gate_by_policy N id).
Proof.
  apply respects_keeps_chain, gate_by_policy_respects.
  - apply _.
  - by intros r l r' [].
  - intros. apply gate_one_keeps_chain.
Qed.

Lemma handle_corruption_keeps id : respects rot_keeps (handle_corruption N id).
Proof.
  apply respects_keeps_chain, handle_corruption_respects.
  - apply _.
  - by intros r l r' [].
  - intros. apply gate_one_keeps_chain.
Qed.

Lemma with_status_index id f i r :
  status_index r id = Some i → update_status i f r = with_status id f r.
Proof. intros Hi. unfold with_status. by rewrite Hi. Qed.

Lemma bump_retry_keeps id : respects rot_keeps (bump_retry id).
Proof.
  unfold bump_retry. apply respects_get_bind. intros r.
  destruct (status_index r id) as [i|] eqn:Hi; [|by apply wp_ret].
  wp_steps. rewrite (with_status_index id) by done.
  apply keeps_with_status; [|done]. intros s Hs. simpl.
  rewrite (status_at_of _ _ _ Hi), Hs. simpl.
  unfold saturating_add, in_u8, u8_MAX. lia.
Qed.

Lemma clear_retry_keeps id : respects rot_keeps (clear_retry id).
Proof.
  apply respects_modify. intros r. apply keeps_with_status; [|done].
  intros. simpl. unfold in_u8, u8_MAX. lia.
Qed.

Lemma mark_released_keeps id : respects rot_keeps (mark_released id).
Proof. apply respects_modify. intros r. by apply keeps_with_status. Qed.

Lemma clear_awaiting_boot_keeps id : respects rot_keeps (clear_awaiting_boot id).
Proof. apply respects_modify. intros r. by apply keeps_with_status. Qed.

Lemma set_pending_keeps b : respects rot_keeps (sw_modify (set_pending_commit b)).
Proof.
  apply respects_modify. intros r Hwf.
  by apply (keeps_same_statuses r []); [..|apply (wf_cursor _ _ Hwf)|].
Qed.

Lemma advance_keeps start : respects rot_keeps (advance_to_next_ungated start).
Proof.
  apply keeps_assuming_wf. intros r Hwf. eapply wp_advance; [done|..].
  - intros i id a _ Hi _ _. apply keeps_same_statuses; [done..|].
    apply lookup_lt_Some in Hi. simpl. lia.
  - intros _. apply keeps_same_statuses; [done..|]. simpl. lia.
Qed.

Lemma quiesce_keeps : respects rot_keeps quiesce_all.
Proof.
  apply keeps_assuming_wf. intros r Hwf. eapply wp_quiesce_all; [done|]. intros _.
  assert (∀ id, status_of (quiesced r) id = quiesce_status <$> status_of r id) as Hso
    by (intros; apply status_of_map_statuses).
  assert (∀ s, lifecycle (quiesce_status s) = lifecycle s ∧
               retry (quiesce_status s) = retry s) as Hq.
  { intros s. unfold quiesce_status. by destruct (released s). }
  split.
  - destruct Hwf. constructor; simpl; rewrite ?length_fmap; auto.
    intros id s. rewrite Hso. intros (s' & ? & ->)%fmap_Some.
    rewrite (proj2 (Hq s')). eauto.
  - constructor; [done..|]. intros id. rewrite !is_gated_alt, Hso.
    destruct (status_of r id) as [s|]; simpl; [|done].
    by rewrite (proj1 (Hq s)).
Qed.

Lemma quiesced_wf r : rot_wf N r → rot_wf N (quiesced r).
Proof.
  intros Hwf. pose proof (quiesce_keeps r) as Hk.
  assert (wp quiesce_all (λ _ r' _, r' = quiesced r) r) as Hq
    by (by eapply wp_quiesce_all).
  unfold wp in Hk, Hq. destruct (quiesce_all r) as [[a r'] l]. subst. by apply Hk.
Qed.

Lemma reset_retries_keeps :
  respects rot_keeps (sw_modify (λ r, set_statuses (set_retry 0 <$> statuses r) r)).
Proof.
  apply respects_modify. intros r Hwf. split.
  - destruct Hwf. constructor; simpl; rewrite ?length_fmap; auto.
    intros id s. rewrite status_of_map_statuses.
    intros (s' & ? & ->)%fmap_Some. simpl. unfold in_u8, u8_MAX. lia.
  - constructor; [done..|]. intros id. rewrite !is_gated_alt, status_of_map_statuses.
    by destruct (status_of r id).
Qed.

Lemma update_released_keeps i b : respects rot_keeps (sw_modify (update_status i (set_released b))).
Proof.
  apply respects_modify. intros r Hwf.
  assert (∀ id, status_of (update_status i (set_released b) r) id
     = (if decide (status_index r id = Some i) then set_released b else (λ s, s))
         <$> status_of r id) as Hso.
  { intros id. unfold status_of, update_status.
    rewrite (status_index_chain _ r) by done. simpl.
    destruct (status_index r id) as [j|]; simpl; [|done].
    case_decide; simplify_eq; [apply list_lookup_alter_eq|].
    rewrite list_lookup_alter_ne by congruence. by destruct (statuses r !! j). }
  split.
  - destruct Hwf. constructor; simpl; rewrite ?length_alter; auto.
    intros id s. rewrite Hso. intros (s' & Hs' & ->)%fmap_Some.
    case_decide; simpl; eauto.
  - constructor; [done..|]. intros id. rewrite !is_gated_alt, Hso.
    destruct (status_of r id); simpl; [|done]. by case_decide.
Qed.

Local Ltac keeps_auto :=
  repeat (intros; first
    [ apply respects_ret, _ | apply respects_get, _
    | apply keeps_emit | apply gate_one_keeps | apply bump_retry_keeps
    | apply clear_retry_keeps | apply mark_released_keeps
    | apply clear_awaiting_boot_keeps | apply set_pending_keeps
    | apply advance_keeps | apply quiesce_keeps | apply reset_retries_keeps
    | apply update_released_keeps
    | apply gate_by_policy_keeps | apply handle_corruption_keeps
    | lazymatch goal with |- respects _ (mbind _ _) => apply respects_bind; [apply _| |] end
    | progress cbv zeta | case_match ]).

Lemma handle_corruption_advancing_keeps id :
  respects rot_keeps (handle_corruption_advancing N id).
Proof. unfold handle_corruption_advancing. keeps_auto. Qed.

Lemma exhaust_recovery_keeps id : respects rot_keeps (exhaust_recovery N id).
Proof. unfold exhaust_recovery. keeps_auto. Qed.

Lemma handle_keeps st ev : respects rot_keeps (handle N st ev).
Proof.
  destruct st; simpl;
    unfold handle_power_on_reset, handle_pre_supervision, handle_awaiting_ready,
      handle_ready, handle_updating, handle_recovering;
    destruct ev; keeps_auto;
    intros; first [apply handle_corruption_advancing_keeps | apply exhaust_recovery_keeps].
Qed.

Lemma handle_supervising_keeps ev : respects rot_keeps (handle_supervising N ev).
Proof. unfold handle_supervising. destruct ev; keeps_auto. Qed.

Lemma entry_action_keeps st : respects rot_keeps (entry_action st).
Proof. destruct st; simpl; keeps_auto. Qed.

Lemma step_body_keeps st ev : respects rot_keeps (step_body N st ev).
Proof.
  unfold step_body. keeps_auto;
    intros; first [apply handle_keeps | apply handle_supervising_keeps | apply entry_action_keeps].
Qed.
End frame.

(** One step keeps well-formedness and stays within the frame. *)
Lemma step_emits_keeps N o ev o' l :
  step_emits N o ev = (o', l) → rot_wf N (rot o) →
  rot_wf N (rot o') ∧ rot_le (rot o) (rot o').
Proof.
  unfold step_emits. case_match; [by intros [= <- <-]|].
  intros Heq Hwf. pose proof (step_body_keeps N (state o) ev (rot o)) as Hk.
  unfold wp in Hk. destruct (step_body N (state o) ev (rot o)) as [[st r] emits].
  simplify_eq/=. by apply Hk.
Qed.
