(* ===== verification/SmTrace.v ===== *)
(** * Effect traces of the state machine

    A monitor that follows every component through the effects the machine
    emits -- held in reset, being checked, live, isolated -- and rejects a trace
    that releases an unchecked component, checks or reads a live one, or touches
    an isolated one.  Every run of the machine is accepted ([SmSafety] draws the
    consequences); the monitor's state is also what the machine's own records
    ([released], [lifecycle]) agree with. *)

From S2P Require Import Prelude SmModel SmCore SmInv.
From stdpp Require Import base tactics list numbers strings sets.
Local Open Scope Z_scope.

(** ** The monitor *)

Inductive phase := PHeld | PChecking | PLive | PIsolated.
#[export] Instance phase_eq_dec : EqDecision phase.
Proof. solve_decision. Defined.

Definition mon : Type := ComponentId → phase.

(** Power-on: every component is held. *)
Definition mon_init : mon := λ _, PHeld.

Definition mon_set (id : ComponentId) (p : phase) (g : mon) : mon :=
  λ x, if decide (x = id) then p else g x.

Definition monitor (g : mon) (e : Effect) : option mon :=
  match e with
  | ReadFirmware id =>
      match g id with PHeld | PChecking => Some g | _ => None end
  | VerifyFirmware id =>
      match g id with
      | PHeld | PChecking => Some (mon_set id PChecking g)
      | _ => None
      end
  | ReleaseReset id =>
      match g id with PChecking => Some (mon_set id PLive g) | _ => None end
  | AssertReset id | RecoverComponent id _ =>
      match g id with PIsolated => None | _ => Some (mon_set id PHeld g) end
  | ReportIsolated id =>
      match g id with PHeld => Some (mon_set id PIsolated g) | _ => None end
  | _ => Some g
  end.

Fixpoint monitors (g : mon) (l : list Effect) : option mon :=
  match l with
  | [] => Some g
  | e :: l' => match monitor g e with Some g' => monitors g' l' | None => None end
  end.

Lemma mon_set_eq id p g : mon_set id p g id = p.
Proof. unfold mon_set. by rewrite decide_True. Qed.
Lemma mon_set_ne id id' p g : id' ≠ id → mon_set id p g id' = g id'.
Proof. intros. unfold mon_set. by rewrite decide_False. Qed.

Lemma monitors_app g l1 l2 :
  monitors g (l1 ++ l2) = monitors g l1 ≫= λ g', monitors g' l2.
Proof.
  revert g. induction l1 as [|e l1 IH]; intros g; simpl; [done|].
  by destruct (monitor g e).
Qed.

(** ** Agreement between the monitor and the storage *)

Record status_agrees (p : phase) (s : ComponentStatus) : Prop := {
  agrees_isolated : lifecycle s = Isolated ↔ p = PIsolated;
  agrees_released : released s = true ↔ p = PLive;
  agrees_awaiting : awaiting_boot s = true → released s = true;
}.

Lemma agrees_nominal p s : status_agrees p s → lifecycle s = Nominal → p ≠ PIsolated.
Proof. intros [H _ _] Hn Hp. apply H in Hp. congruence. Qed.

Definition agree (g : mon) (r : Rot) : Prop :=
  ∀ id s, status_of r id = Some s → status_agrees (g id) s.

Lemma agree_gated g r id :
  agree g r → id ∈ (chain r).*1 → is_Some (status_of r id) →
  is_gated r id = true ↔ g id = PIsolated.
Proof.
  intros Hag _ [s Hs]. rewrite is_gated_alt, Hs, bool_decide_eq_true.
  apply (agrees_isolated _ _ (Hag _ _ Hs)).
Qed.

Lemma agree_with_status g r id f :
  agree g r → (∀ s, status_agrees (g id) s → status_agrees (g id) (f s)) →
  agree g (with_status id f r).
Proof.
  intros Hag Hf id' s. rewrite status_of_with_status.
  case_decide; [subst|apply Hag]. intros (s' & Hs & ->)%fmap_Some. eauto.
Qed.

Lemma agree_update g g' r id f :
  agree g r → (∀ id', id' ≠ id → g' id' = g id') →
  (∀ s, status_of r id = Some s → status_agrees (g' id) (f s)) →
  agree g' (with_status id f r).
Proof.
  intros Hag Hg Hf id' s. rewrite status_of_with_status. case_decide; [subst|].
  - intros (s' & Hs & ->)%fmap_Some. eauto.
  - rewrite Hg by done. apply Hag.
Qed.

(** ** Gating *)

(** Gating operations: what they log is accepted, agreement is kept, nothing
    goes live, and a component under check either stays so or is isolated. *)
Definition gate_accepted (r : Rot) (l : list Effect) (r' : Rot) : Prop :=
  chain r' = chain r ∧ cursor r' = cursor r ∧
  (length (statuses r) = length (statuses r')) ∧
  (∀ id, is_gated r id = true → is_gated r' id = true) ∧
  (length (statuses r) = length (chain r) → NoDup (chain r).*1 →
   ∀ g, agree g r → ∃ g', monitors g l = Some g' ∧ agree g' r' ∧
     (∀ id, g' id = PLive → g id = PLive) ∧
     (∀ id, g id = PChecking → g' id = PChecking ∨ is_gated r' id = true)).

#[export] Instance gate_accepted_log_preorder : LogPreorder gate_accepted.
Proof.
  split.
  - intros r. repeat split; eauto 10.
  - intros r1 l1 r2 l2 r3 (Hc1 & Hcu1 & Hl1 & Hg1 & H1) (Hc2 & Hcu2 & Hl2 & Hg2 & H2).
    split; [congruence|]. split; [congruence|]. split; [congruence|].
    split; [auto|]. intros Hlen Hnd g Hag.
    destruct (H1 Hlen Hnd g Hag) as (g1 & Hm1 & Hag1 & Hlive1 & Hchk1).
    destruct (H2 ltac:(congruence) ltac:(by rewrite Hc1) g1 Hag1)
      as (g2 & Hm2 & Hag2 & Hlive2 & Hchk2).
    exists g2. rewrite monitors_app, Hm1. simpl. split; [done|]. split; [done|].
    split; [eauto|].
    intros id Hid. destruct (Hchk1 id Hid) as [H|H]; auto.
Qed.

Lemma status_of_in_chain r id :
  length (statuses r) = length (chain r) → id ∈ (chain r).*1 →
  is_Some (status_of r id).
Proof.
  intros Hlen Hin%in_chain_iff. unfold in_chain, status_of in *.
  destruct (status_index r id) as [i|] eqn:Hi; [simpl|done].
  apply lookup_lt_is_Some_2. rewrite Hlen. by eapply position_lt.
Qed.

Lemma gate_status_agrees s : status_agrees PIsolated (gate_status s).
Proof. by split. Qed.

Lemma gate_one_accepted id r :
  id ∈ (chain r).*1 → wp (gate_one id) (λ _ r' l, gate_accepted r l r') r.
Proof.
  intros Hin. unfold gate_one. wp_steps.
  destruct (is_gated r id) eqn:Hg; [apply wp_ret, log_refl|].
  unfold emit. wp_steps. simpl.
  split; [by autorewrite with rot|]. split; [by autorewrite with rot|].
  split; [by autorewrite with rot|].
  assert (∀ id', is_gated r id' = true →
    is_gated (with_status id gate_status r) id' = true) as Hmono.
  { intros id'. rewrite !is_gated_alt, status_of_with_status.
    case_decide; [|done]. by destruct (status_of r id'). }
  split; [done|]. intros Hlen Hnd g Hag.
  destruct (status_of_in_chain _ _ Hlen Hin) as [s Hs].
  pose proof (proj1 (is_gated_false _ _ _ Hs) Hg) as Hnom.
  pose proof (agrees_nominal _ _ (Hag _ _ Hs) Hnom) as Hni.
  assert (∀ id', id' ≠ id →
    mon_set id PIsolated (mon_set id PHeld g) id' = g id') as Hne.
  { intros. by rewrite !mon_set_ne. }
  exists (mon_set id PIsolated (mon_set id PHeld g)). simpl. split; [|split; [|split]].
  - destruct (g id); [..|done]; simpl; by rewrite mon_set_eq.
  - eapply agree_update; [done..|]. intros. rewrite mon_set_eq. apply gate_status_agrees.
  - intros id'. destruct (decide (id' = id)) as [->|]; [by rewrite mon_set_eq|].
    by rewrite Hne.
  - intros id'. destruct (decide (id' = id)) as [->|]; [|rewrite Hne; auto].
    intros _. right. by rewrite is_gated_alt, status_of_with_status, decide_True, Hs.
Qed.

(** ** The walk *)

Definition walking (st : State) : bool :=
  match st with PreSupervision | AwaitingReady _ => true | _ => false end.

(** While the walk runs, the component at the cursor is under check and nothing
    from the cursor on is live. *)
Record walk (g : mon) (r : Rot) : Prop := {
  walk_checking id a : cursor_entry r = Some (id, a) → g id = PChecking;
  walk_at_rest i id : (as_usize (cursor r) ≤ i)%nat →
    (chain r).*1 !! i = Some id → g id ≠ PLive;
}.

Record inv (N : nat) (g : mon) (o : Orchestrator) : Prop := {
  inv_wf : rot_wf N (rot o);
  inv_agree : agree g (rot o);
  inv_walk : walking (state o) = true → walk g (rot o);
}.

Section walk.
Context (N : nat).

(** Postcondition of a piece of the machine run from monitor state [g]. *)
Definition accepted (g : mon) (l : list Effect) (Q : mon → Prop) : Prop :=
  ∃ g', monitors g l = Some g' ∧ Q g'.

Lemma accepted_nil g (Q : mon → Prop) : Q g → accepted g [] Q.
Proof. intros. by exists g. Qed.

Lemma accepted_app g l1 l2 (Q : mon → Prop) :
  accepted g l1 (λ g1, accepted g1 l2 Q) → accepted g (l1 ++ l2) Q.
Proof.
  intros (g1 & H1 & g2 & H2 & HQ). exists g2. by rewrite monitors_app, H1.
Qed.

Lemma advance_accepted g r start :
  rot_wf N r → agree g r →
  (∀ i id, (start ≤ i)%nat → (chain r).*1 !! i = Some id → g id ≠ PLive) →
  wp (advance_to_next_ungated start) (λ found r' l,
    accepted g l (λ g', rot_wf N r' ∧ agree g' r' ∧ walk g' r' ∧
      statuses r' = statuses r ∧ chain r' = chain r)) r.
Proof.
  intros Hwf Hag Hrest.
  assert (∀ c, 0 ≤ c ≤ Z.of_nat (length (chain r)) → rot_wf N (set_cursor c r)) as Hwfc.
  { intros c Hc. by apply (keeps_same_statuses N r []). }
  eapply wp_advance; [done|..].
  - intros i id a Hi Hlk Hg _.
    pose proof (lookup_lt_Some _ _ _ Hlk) as Hlt.
    assert ((chain r).*1 !! i = Some id) as Hid by (by rewrite list_lookup_fmap, Hlk).
    assert (id ∈ (chain r).*1) as Hin by (by eapply list_elem_of_lookup_2).
    destruct (proj2 (status_of_is_Some _ _ id Hwf) Hin) as [s Hs].
    pose proof (Hag _ _ Hs) as Hags.
    pose proof (Hrest _ _ Hi Hid) as Hnl.
    pose proof (proj1 (is_gated_false _ _ _ Hs) Hg) as Hnom.
    pose proof (agrees_nominal _ _ Hags Hnom) as Hni.
    assert (agree (mon_set id PChecking g) r) as Hag'.
    { intros id' s' Hs'. destruct (decide (id' = id)) as [->|];
        [rewrite mon_set_eq|rewrite mon_set_ne by done; by apply Hag].
      rewrite Hs in Hs'. simplify_eq. destruct Hags as [H1 H2 H3].
      split; [|rewrite H2|done]; split; congruence. }
    exists (mon_set id PChecking g). simpl. split; [|split; [|split; [|split]]].
    + destruct (g id) eqn:E; rewrite ?E; done.
    + apply Hwfc. lia.
    + done.
    + split.
      * intros id' a'. unfold cursor_entry, as_usize. simpl.
        rewrite Nat2Z.id, Hlk. intros [= <- <-]. by rewrite mon_set_eq.
      * intros j id' Hj Hlk'. simpl in *. unfold as_usize in Hj.
        destruct (decide (id' = id)) as [->|]; [by rewrite mon_set_eq|].
        rewrite mon_set_ne by done. eapply Hrest; [|done]. lia.
    + done.
  - intros _. apply accepted_nil. split; [apply Hwfc; lia|]. split; [done|].
    split; [|done]. split.
    + intros id a. unfold cursor_entry, as_usize. simpl. rewrite Nat2Z.id.
      rewrite lookup_ge_None_2; [done|lia].
    + intros i id Hi Hlk. simpl in *. unfold as_usize in Hi.
      apply lookup_lt_Some in Hlk. rewrite length_fmap in Hlk. lia.
Qed.

Lemma walk_ext g r r' :
  cursor r' = cursor r → chain r' = chain r → walk g r → walk g r'.
Proof.
  intros Hcu Hc [H1 H2]. unfold cursor_entry in *. split; unfold cursor_entry;
    rewrite ?Hcu, ?Hc; eauto.
Qed.

(** *** Quiescing *)

Lemma monitors_assert L g :
  (∀ id, id ∈ L → g id ≠ PIsolated) →
  accepted g (AssertReset <$> L) (λ g', ∀ id,
    g' id = if decide (id ∈ L) then PHeld else g id).
Proof.
  revert g. induction L as [|id L IH]; intros g HL; simpl.
  { by apply accepted_nil. }
  assert (g id ≠ PIsolated) as Hid by (apply HL; left).
  destruct (IH (mon_set id PHeld g)) as (g' & Hm & Hg').
  { intros id' Hin. destruct (decide (id' = id)) as [->|]; [by rewrite mon_set_eq|].
    rewrite mon_set_ne by done. apply HL. by right. }
  exists g'. split; [simpl; by destruct (g id)|].
  intros id'. rewrite Hg'. destruct (decide (id' = id)) as [->|].
  - rewrite mon_set_eq. repeat case_decide; set_solver.
  - rewrite mon_set_ne by done. case_decide; case_decide; set_solver.
Qed.

Lemma elem_of_live_ids r id :
  rot_wf N r →
  id ∈ live_ids (chain r) (statuses r) ↔
  ∃ s, status_of r id = Some s ∧ released s = true.
Proof.
  intros Hwf. unfold live_ids. rewrite list_elem_of_fmap. split.
  - intros ([[id' a] s] & -> & [Hrel [i Hi]%list_elem_of_lookup]%list_elem_of_filter).
    apply lookup_zip_Some in Hi as [Hc Hs]. simpl in *.
    exists s. rewrite (status_of_lookup _ _ _ _ _ Hwf Hc). split; [done|].
    by apply Is_true_eq_true.
  - intros (s & Hs & Hrel).
    assert (id ∈ (chain r).*1) as Hin by (eapply status_of_is_Some; eauto).
    apply list_elem_of_fmap in Hin as ([id' a] & -> & [i Hi]%list_elem_of_lookup).
    simpl in Hs. rewrite (status_of_lookup _ _ _ _ _ Hwf Hi) in Hs.
    exists (id', a, s). split; [done|]. apply list_elem_of_filter. simpl.
    split; [by apply Is_true_eq_left|]. apply list_elem_of_lookup. exists i.
    by apply lookup_zip_Some.
Qed.

Lemma quiesce_status_agrees p s :
  status_agrees p s →
  status_agrees (if released s then PHeld else p) (quiesce_status s).
Proof.
  unfold quiesce_status. intros [H1 H2 H3]. destruct (released s) eqn:Hr; [|by split; rewrite ?Hr].
  split; simpl; [|done|done]. rewrite H1. destruct H2 as [H2 _].
  rewrite (H2 eq_refl). done.
Qed.

Lemma quiesce_accepted g r :
  rot_wf N r → agree g r →
  wp quiesce_all (λ _ r' l, accepted g l (λ g', rot_wf N r' ∧ agree g' r' ∧
    ∀ id, id ∈ (chain r').*1 → g' id ≠ PLive)) r.
Proof.
  intros Hwf Hag.
  pose proof (quiesced_wf N r Hwf) as Hwf'.
  eapply wp_quiesce_all; [done|].
  destruct (monitors_assert (live_ids (chain r) (statuses r)) g) as (g' & Hm & Hg').
  { intros id (s & Hs & Hrel)%elem_of_live_ids; [|done].
    pose proof (Hag _ _ Hs) as [_ Hr _]. by rewrite (proj1 Hr Hrel). }
  exists g'. split; [done|]. split; [done|].
  assert (∀ id s, status_of r id = Some s →
    g' id = if released s then PHeld else g id) as Hg''.
  { intros id s Hs. rewrite Hg'. destruct (released s) eqn:Hrel.
    - rewrite decide_True; [done|]. apply elem_of_live_ids; eauto.
    - rewrite decide_False; [done|]. intros (s' & ? & ?)%elem_of_live_ids; [|done].
      congruence. }
  split.
  - intros id s'. unfold quiesced. rewrite status_of_map_statuses.
    intros (s & Hs & ->)%fmap_Some. rewrite (Hg'' _ _ Hs).
    apply quiesce_status_agrees, Hag, Hs.
  - simpl. intros id Hin. apply (status_of_is_Some _ _ _ Hwf) in Hin as [s Hs].
    rewrite (Hg'' _ _ Hs). destruct (released s) eqn:Hrel; [done|].
    rewrite <- (agrees_released _ _ (Hag _ _ Hs)). by rewrite Hrel.
Qed.

(** *** Entry actions *)

(** What a handler must establish for the entry action of [target]. *)
Definition entry_pre (g : mon) (r : Rot) (target : State) : Prop :=
  match target with
  | Recovering id => is_gated r id = false ∧ id ∈ (chain r).*1
  | AwaitingReady _ => walk g r
  | _ => True
  end.

Lemma agree_nonisolated g r id :
  rot_wf N r → agree g r → id ∈ (chain r).*1 → is_gated r id = false →
  g id ≠ PIsolated.
Proof.
  intros Hwf Hag Hin Hg. apply (status_of_is_Some _ _ _ Hwf) in Hin as [s Hs].
  eapply agrees_nominal; [by apply Hag|]. by eapply is_gated_false.
Qed.

(** Recovering: the component is taken back into custody. *)
Lemma recovering_entry_accepted g r id :
  rot_wf N r → agree g r → is_gated r id = false → id ∈ (chain r).*1 →
  wp (entry_action (Recovering id)) (λ _ r' l, accepted g l (λ g', agree g' r')) r.
Proof.
  intros Hwf Hag Hg Hin. simpl. unfold clear_awaiting_boot. wp_steps.
  set (r1 := with_status id (set_awaiting_boot false) (set_pending_commit false r)).
  assert (agree g r1) as Hag1.
  { apply agree_with_status; [done|]. intros s [H1 H2 H3]. by split. }
  assert (status_index r1 id = status_index r id) as Hidx.
  { apply status_index_chain. subst r1. by autorewrite with rot. }
  apply in_chain_iff in Hin as Hin'. unfold in_chain in Hin'.
  rewrite Hidx. destruct (status_index r id) as [i|]; [|done].
  unfold emit. wp_steps. simpl.
  pose proof (agree_nonisolated _ _ _ Hwf Hag Hin Hg) as Hni.
  exists (mon_set id PHeld g). split; [simpl; by destruct (g id)|].
  rewrite (with_status_index id) by done.
  eapply agree_update; [done|intros; by apply mon_set_ne|].
  intros s Hs. rewrite mon_set_eq. subst r1.
  rewrite status_of_with_status, decide_True, status_of_set_pending in Hs by done.
  apply fmap_Some in Hs as (s' & Hs' & ->).
  split; simpl; [|done|done].
  rewrite (proj1 (is_gated_false _ _ _ Hs') Hg). done.
Qed.

Lemma entry_accepted g r target :
  rot_wf N r → agree g r → entry_pre g r target →
  wp (entry_action target) (λ _ r' l,
    accepted g l (λ g', inv N g' {| rot := r'; state := target |})) r.
Proof.
  intros Hwf Hag Hpre.
  pose proof (entry_action_keeps N target r) as Hk.
  assert (wp (entry_action target) (λ _ r' l, accepted g l (λ g', agree g' r' ∧
    (walking target = true → walk g' r'))) r) as Hacc.
  { destruct target; simpl in Hpre.
    - by apply accepted_nil.
    - simpl. wp_steps. eapply wp_mono; [by apply quiesce_accepted|].
      intros [] r1 l1 (g1 & Hm1 & Hwf1 & Hag1 & Hrest); cbn beta. wp_steps.
      eapply wp_mono; [apply (advance_accepted g1); try done|].
      { intros i id _ Hi. apply Hrest. by eapply list_elem_of_lookup_2. }
      intros b r2 l2 (g2 & Hm2 & Hwf2 & Hag2 & Hw2 & _); cbn beta. wp_steps.
      rewrite app_nil_r. apply accepted_app. exists g1. split; [done|]. exists g2. done.
    - by apply accepted_nil.
    - simpl. wp_steps. apply accepted_nil. split; [|done].
      intros id s. rewrite status_of_map_statuses.
      intros (s' & Hs' & ->)%fmap_Some. pose proof (Hag _ _ Hs') as [H1 H2 H3]. by split.
    - simpl. unfold emit. wp_steps. exists g. done.
    - eapply wp_mono; [by apply recovering_entry_accepted; destruct Hpre|].
      intros _ r' l (g' & Hm & Hag'). by exists g'.
    - exists g. done. }
  eapply wp_mono; [apply wp_and; [exact Hk|exact Hacc]|].
  intros [] r' l [Hk' (g' & Hm & Hag' & Hw)]. exists g'. split; [done|].
  split; [by apply Hk'|done|done].
Qed.

(** *** Corruption *)

Lemma corruption_accepted g r id :
  rot_wf N r → agree g r → id ∈ (chain r).*1 →
  wp (handle_corruption N id) (λ oc r' l, accepted g l (λ g',
    rot_wf N r' ∧ agree g' r' ∧ cursor r' = cursor r ∧ chain r' = chain r ∧
    (∀ id, g' id = PLive → g id = PLive) ∧
    (∀ id, g id = PChecking → g' id = PChecking ∨ is_gated r' id = true) ∧
    (oc = Handled ∨ oc = Transition (Recovering id) ∧ is_gated r' id = false))) r.
Proof.
  intros Hwf Hag Hin.
  eapply wp_mono; [apply wp_and; [apply handle_corruption_outcome|]|].
  { apply wp_and; [apply (handle_corruption_keeps N)|].
    apply (handle_corruption_respects N gate_accepted).
    - by intros ??? [].
    - intros. by apply gate_one_accepted. }
  intros oc r' l (Hoc & Hk & Hc & Hcu & Hlen & Hmono & Hacc); cbn beta.
  destruct (Hk Hwf) as [Hwf' _].
  destruct (Hacc (wf_statuses _ _ Hwf) (wf_NoDup _ _ Hwf) g Hag)
    as (g' & Hm & Hag' & Hlive & Hchk).
  exists g'. split; [done|]. repeat (split; [done|]).
  destruct Hoc as [?|(? & -> & _ & ?)]; auto.
Qed.

(** What a handler establishes. *)
Definition handled (st : State) (g : mon) (oc : Outcome) (r : Rot) : Prop :=
  rot_wf N r ∧ agree g r ∧
  match oc with
  | Transition target => entry_pre g r target
  | _ => walking st = true → walk g r
  end.

Lemma corruption_handled st g r id :
  rot_wf N r → agree g r → id ∈ (chain r).*1 → walking st = false →
  wp (handle_corruption N id) (λ oc r' l, accepted g l (λ g', handled st g' oc r')) r.
Proof.
  intros Hwf Hag Hin Hst. eapply wp_mono; [by apply corruption_accepted|].
  intros oc r' l (g' & Hm & Hwf' & Hag' & Hcu & Hc & _ & _ & Hoc); cbn beta.
  exists g'. split; [done|]. split; [done|]. split; [done|].
  destruct Hoc as [->|[-> ?]]; simpl; [congruence|]. by rewrite Hc.
Qed.

Lemma corruption_advancing_handled st g r id :
  rot_wf N r → agree g r → walk g r → id ∈ (chain r).*1 →
  wp (handle_corruption_advancing N id) (λ oc r' l,
    accepted g l (λ g', handled st g' oc r')) r.
Proof.
  intros Hwf Hag Hw Hin. unfold handle_corruption_advancing. wp_steps.
  eapply wp_mono; [by apply corruption_accepted|].
  intros oc r1 l1 (g1 & Hm1 & Hwf1 & Hag1 & Hcu & Hc & Hlive & Hchk & Hoc); cbn beta.
  wp_steps. destruct Hoc as [->|[-> Hng]]; cycle 1.
  { wp_steps. rewrite app_nil_r. exists g1. split; [done|].
    split; [done|]. split; [done|]. simpl. by rewrite Hc. }
  assert (∀ i id', (as_usize (cursor r1) ≤ i)%nat →
    (chain r1).*1 !! i = Some id' → g1 id' ≠ PLive) as Hrest.
  { intros i id' Hi Hlk Hl. rewrite Hcu in Hi. rewrite Hc in Hlk.
    eapply (walk_at_rest _ _ Hw); eauto. }
  case_match eqn:Hcg.
  - wp_steps. eapply wp_mono; [apply (advance_accepted g1); try done|].
    { intros i id' Hi. apply Hrest. lia. }
    intros found r2 l2 (g2 & Hm2 & Hwf2 & Hag2 & Hw2 & _); cbn beta.
    assert (∀ oc, oc = Handled ∨ oc = Transition Ready →
      accepted g (l1 ++ [] ++ l2 ++ []) (λ g', handled st g' oc r2)) as Hfin.
    { intros oc Hoc. rewrite app_nil_r. apply accepted_app. exists g1. split; [done|].
      exists g2. split; [done|]. split; [done|]. split; [done|].
      by destruct Hoc as [->| ->]. }
    destruct found; wp_steps; auto.
  - wp_steps. rewrite app_nil_r. exists g1. split; [done|]. split; [done|].
    split; [done|]. intros _. split; [|done].
    intros id' a Hent. rewrite Hent in Hcg.
    assert (cursor_entry r = Some (id', a)) as Hent'.
    { unfold cursor_entry in *. by rewrite <- Hc, <- Hcu. }
    destruct (Hchk id' (walk_checking _ _ Hw _ _ Hent')) as [?|?]; congruence.
Qed.

(** *** Release *)

Lemma cursor_entry_id r id :
  fst <$> cursor_entry r = Some id →
  ∃ a, cursor_entry r = Some (id, a) ∧
       chain r !! as_usize (cursor r) = Some (id, a) ∧ id ∈ (chain r).*1.
Proof.
  unfold cursor_entry. intros ([id' a] & Hlk & ->)%fmap_Some. exists a.
  split; [done|]. split; [done|].
  apply list_elem_of_fmap. exists (id', a). split; [done|].
  by eapply list_elem_of_lookup_2.
Qed.

(** [clear_retry(id); emit(ReleaseReset(id)); mark_released(id)] and the advance
    that follows, for the component at the cursor. *)
Lemma release_accepted g r id (K : Rot → bool → M Outcome) (Q : Outcome → Rot → list Effect → Prop) :
  rot_wf N r → agree g r → walk g r → fst <$> cursor_entry r = Some id →
  (∀ r1 found r2 l g2, cursor_entry r1 = cursor_entry r → rot_wf N r2 → agree g2 r2 →
     walk g2 r2 → monitors g l = Some g2 → wp (K r1 found) (λ oc r3 l3, Q oc r3 (l ++ l3)) r2) →
  wp (clear_retry id;; emit (ReleaseReset id);; mark_released id;;
      r' ← sw_get;
      found ← advance_to_next_ungated (as_usize (cursor r') + 1)%nat;
      K r' found) Q r.
Proof.
  intros Hwf Hag Hw Hcur HK.
  destruct (cursor_entry_id _ _ Hcur) as (a & Hent & Hlk & Hin).
  unfold clear_retry, mark_released, emit. wp_steps.
  set (r1 := with_status id _ (with_status id (set_retry 0) r)).
  assert (rot_wf N r1) as Hwf1.
  { apply (keeps_with_status N id _ _ []); [done|done|].
    apply (keeps_with_status N id _ _ []); [|done|done].
    intros s _ _. simpl. unfold in_u8, u8_MAX. lia. }
  assert (chain r1 = chain r ∧ cursor r1 = cursor r) as [Hc1 Hcu1]
    by (subst r1; by autorewrite with rot).
  assert (g id = PChecking) as Hchk by (by eapply (walk_checking _ _ Hw)).
  assert (agree (mon_set id PLive g) r1) as Hag1.
  { assert (agree g (with_status id (set_retry 0) r)) as Hag0.
    { apply agree_with_status; [done|]. by intros s []. }
    eapply agree_update; [exact Hag0|intros; by apply mon_set_ne|].
    intros s Hs. rewrite mon_set_eq. pose proof (Hag0 _ _ Hs) as [H1 _ _].
    split; simpl; [|done|done]. rewrite H1, Hchk. done. }
  eapply wp_mono; [apply (advance_accepted (mon_set id PLive g) r1); try done|].
  - intros i id' Hi Hlk'. rewrite Hcu1 in Hi. rewrite Hc1 in Hlk'.
    assert (id' ≠ id) as Hne.
    { intros ->. assert ((chain r).*1 !! as_usize (cursor r) = Some id) as Hlk2
        by (by rewrite list_lookup_fmap, Hlk).
      pose proof (NoDup_lookup _ _ _ _ (wf_NoDup _ _ Hwf) Hlk' Hlk2). lia. }
    rewrite mon_set_ne by done. eapply (walk_at_rest _ _ Hw); [|done]. lia.
  - intros found r2 l (g2 & Hm & Hwf2 & Hag2 & Hw2 & _); cbn beta.
    eapply wp_mono; [eapply (HK r1 found r2 ([ReleaseReset id] ++ l) g2); try done|].
    + subst r1. by autorewrite with rot.
    + simpl. by rewrite Hchk.
    + intros oc r3 l3 HQ. cbn beta in *. simpl in *. exact HQ.
Qed.

(** *** The handlers *)

Lemma handled_same st g r r' oc :
  rot_wf N r' → agree g r' → cursor r' = cursor r → chain r' = chain r →
  (walking st = true → walk g r) → oc = Handled ∨ oc = Super → handled st g oc r'.
Proof.
  intros Hwf Hag Hcu Hc Hw Hoc. split; [done|]. split; [done|].
  assert (walking st = true → walk g r') by eauto using walk_ext.
  by destruct Hoc as [->| ->].
Qed.

Lemma clear_awaiting_wf_agree g r id :
  rot_wf N r → agree g r →
  rot_wf N (with_status id (set_awaiting_boot false) r) ∧
  agree g (with_status id (set_awaiting_boot false) r).
Proof.
  intros Hwf Hag. split.
  - by apply (keeps_with_status N id _ _ []).
  - apply agree_with_status; [done|]. intros s [H1 H2 H3]. by split.
Qed.

Lemma awaiting_not_gated g r id :
  agree g r → is_awaiting_boot r id = true → is_gated r id = false.
Proof.
  intros Hag (s & Hs & Ha)%is_awaiting_boot_true. eapply is_gated_false; [done|].
  destruct (Hag _ _ Hs) as [H1 H2 H3]. apply H3, H2 in Ha.
  destruct (lifecycle s) eqn:Hl; [done|]. rewrite Ha in H1. by pose proof (proj1 H1 eq_refl).
Qed.

Lemma pre_supervision_handled g r ev :
  rot_wf N r → agree g r → walk g r →
  (∀ id, component_id ev = Some id → id ∈ (chain r).*1) →
  wp (handle_pre_supervision N ev) (λ oc r' l,
    accepted g l (λ g', handled PreSupervision g' oc r')) r.
Proof.
  intros Hwf Hag Hw Hin.
  assert (handled PreSupervision g Handled r) as Hsame by (by eapply handled_same; eauto).
  destruct ev as [| id | id | | id | | | | | | id | | | | id c k | id | |]; simpl;
    try (by apply accepted_nil);
    specialize (Hin _ eq_refl).
  - wp_steps. case_bool_decide as Hcur; [|by apply accepted_nil].
    eapply (release_accepted g r id (λ r1 found, if found : bool then
        match kind ∘ snd <$> cursor_entry r1 with
        | Some Active => mret (Transition (AwaitingReady (Some id)))
        | _ => mret Handled end else mret (Transition Ready))); [done..|].
    intros r1 found r2 l g2 _ Hwf2 Hag2 Hw2 Hm.
    destruct found; [destruct (kind ∘ snd <$> cursor_entry r1) as [[]|]|];
      wp_steps; rewrite app_nil_r; by exists g2.
  - wp_steps. destruct (is_gated r id) eqn:Hg; by apply accepted_nil.
  - unfold clear_awaiting_boot. wp_steps. apply accepted_nil.
    destruct (clear_awaiting_wf_agree g r id Hwf Hag).
    eapply (handled_same _ g r); autorewrite with rot; auto.
  - by apply corruption_advancing_handled.
  - wp_steps. destruct (is_awaiting_boot r id) eqn:Haw; simpl; [|by apply accepted_nil].
    wp_steps. unfold emit. wp_steps. case_bool_decide.
    + eapply wp_mono; [by apply (corruption_advancing_handled PreSupervision g)|].
      intros oc r' l (g' & Hm & Hh). by exists g'.
    + wp_steps. exists g. split; [done|]. split; [done|]. split; [done|]. simpl.
      by split; [eapply awaiting_not_gated|].
  - wp_steps. destruct (is_awaiting_boot r id) eqn:Haw; apply accepted_nil; [|done].
    split; [done|]. split; [done|]. by split; [eapply awaiting_not_gated|].
Qed.

Lemma awaiting_ready_handled g r aw ev :
  rot_wf N r → agree g r → walk g r →
  (∀ id, component_id ev = Some id → id ∈ (chain r).*1) →
  wp (handle_awaiting_ready N aw ev) (λ oc r' l,
    accepted g l (λ g', handled (AwaitingReady aw) g' oc r')) r.
Proof.
  intros Hwf Hag Hw Hin.
  assert (∀ oc, oc = Handled ∨ oc = Super → handled (AwaitingReady aw) g oc r) as Hsame
    by (intros; by eapply handled_same; eauto).
  destruct ev as [| id | id | id | | | | | | | id | | | | id c k | | |]; simpl;
    try (apply accepted_nil; by auto);
    specialize (Hin _ eq_refl).
  - wp_steps. case_bool_decide as Hcur; [|apply accepted_nil; by auto].
    eapply (release_accepted g r id (λ _ found, if found : bool then
        mret Handled else mret (Transition Ready))); [done..|].
    intros r1 found r2 l g2 _ Hwf2 Hag2 Hw2 Hm.
    destruct found; wp_steps; rewrite app_nil_r; by exists g2.
  - wp_steps. destruct (is_gated r id) eqn:Hg; apply accepted_nil; by auto.
  - unfold clear_awaiting_boot. wp_steps.
    destruct (clear_awaiting_wf_agree g r id Hwf Hag) as [Hwf' Hag'].
    assert (walk g (with_status id (set_awaiting_boot false) r)) as Hw'
      by (eapply walk_ext; [..|done]; by autorewrite with rot).
    case_bool_decide; [|apply accepted_nil; by split].
    wp_steps. case_match; apply accepted_nil; by split.
  - by apply corruption_advancing_handled.
  - destruct k; try (apply accepted_nil; by auto). wp_steps.
    destruct (is_awaiting_boot r id) eqn:Haw; simpl; [|apply accepted_nil; by auto].
    unfold emit. wp_steps.
    eapply wp_mono; [by apply (corruption_advancing_handled (AwaitingReady aw) g)|].
    intros oc r' l (g' & Hm & Hh). by exists g'.
Qed.

Lemma gate_by_policy_accepted g r id :
  rot_wf N r → agree g r →
  wp (gate_by_policy N id) (λ _ r' l, accepted g l (λ g', rot_wf N r' ∧ agree g' r')) r.
Proof.
  intros Hwf Hag. eapply wp_mono.
  { apply wp_and; [apply (gate_by_policy_keeps N)|].
    apply (gate_by_policy_respects N gate_accepted).
    - by intros ??? [].
    - intros. by apply gate_one_accepted. }
  intros b r' l (Hk & Hc & Hcu & Hlen & Hmono & Hacc); cbn beta.
  destruct (Hacc (wf_statuses _ _ Hwf) (wf_NoDup _ _ Hwf) g Hag) as (g' & Hm & Hag' & _).
  exists g'. split; [done|]. split; [by apply Hk|done].
Qed.

Lemma agree_set_retry g r id n :
  agree g r → agree g (with_status id (set_retry n) r).
Proof. intros Hag. apply agree_with_status; [done|]. by intros s []. Qed.

Lemma exhaust_handled g r st id :
  rot_wf N r → agree g r → walking st = false →
  wp (exhaust_recovery N id) (λ oc r' l, accepted g l (λ g', handled st g' oc r')) r.
Proof.
  intros Hwf Hag Hst. unfold exhaust_recovery. wp_steps.
  eapply wp_mono; [by apply gate_by_policy_accepted|].
  intros b r1 l1 (g1 & Hm & Hwf1 & Hag1); cbn beta.
  destruct b; unfold clear_retry, emit; wp_steps.
  - rewrite app_nil_r. exists g1. split; [done|]. split; [|split; [|done]].
    + apply (keeps_with_status N id _ _ []); [|done|done].
      intros s _ _. simpl. unfold in_u8, u8_MAX. lia.
    + by apply agree_set_retry.
  - apply accepted_app. exists g1. split; [done|]. exists g1. split; [done|].
    split; [done|]. split; [done|]. congruence.
Qed.

Lemma recovering_handled g r failed ev :
  rot_wf N r → agree g r →
  wp (handle_recovering N failed ev) (λ oc r' l,
    accepted g l (λ g', handled (Recovering failed) g' oc r')) r.
Proof.
  intros Hwf Hag. destruct ev; simpl; try (by apply accepted_nil).
  - case_bool_decide; [subst|by apply accepted_nil].
    wp_steps. eapply wp_mono.
    { apply wp_and; [apply (bump_retry_keeps N)|].
      instantiate (1 := λ _ r' l, l = [] ∧ agree g r'). unfold bump_retry. wp_steps.
      destruct (status_index r failed) as [i|] eqn:Hi; wp_steps; [|done].
      split; [done|]. rewrite (with_status_index failed) by done.
      by apply agree_set_retry. }
    intros n r1 l1 (Hk & -> & Hag1); cbn beta. destruct (Hk Hwf) as [Hwf1 _].
    wp_steps. case_match; [by apply accepted_nil|]. simpl.
    by apply (exhaust_handled g r1).
  - case_bool_decide; [|by apply accepted_nil]. by apply exhaust_handled.
Qed.

Lemma supervising_handled g r st ev :
  rot_wf N r → agree g r → (walking st = true → walk g r) →
  (∀ id, component_id ev = Some id → id ∈ (chain r).*1) →
  (walking st = true → ∀ id, ev ≠ CorruptionDetected id) →
  (walking st = true → ∀ id c, ev = BootFailed id c DeviceFatal →
     is_awaiting_boot r id = false) →
  wp (handle_supervising N ev) (λ oc r' l,
    accepted g l (λ g', handled st g' oc r')) r.
Proof.
  intros Hwf Hag Hw Hin Hnc Hnf.
  assert (∀ oc, oc = Handled ∨ oc = Super → handled st g oc r) as Hsame
    by (intros; by eapply handled_same).
  assert (∀ id, wp (clear_awaiting_boot id;; mret Handled) (λ oc r' l,
    accepted g l (λ g', handled st g' oc r')) r) as Hclear.
  { intros id. unfold clear_awaiting_boot. wp_steps. apply accepted_nil.
    destruct (clear_awaiting_wf_agree g r id Hwf Hag).
    eapply (handled_same _ g r); autorewrite with rot; auto. }
  destruct ev as [| | | id | id | | | | | | id | | | | id c k | id | |]; simpl;
    try (apply accepted_nil; by auto);
    try (unfold emit; wp_steps; exists g; by auto);
    specialize (Hin _ eq_refl).
  - apply Hclear.
  - apply Hclear.
  - apply corruption_handled; try done. destruct (walking st); [|done].
    by destruct (Hnc eq_refl id).
  - wp_steps. destruct (is_awaiting_boot r id) eqn:Haw; simpl;
      [|apply accepted_nil; by auto].
    unfold emit. wp_steps. case_bool_decide as Hk.
    + subst k. eapply wp_mono; [apply (corruption_handled st g); try done|].
      { destruct (walking st); [|done]. specialize (Hnf eq_refl _ _ eq_refl). congruence. }
      intros oc r' l (g' & Hm & Hh). by exists g'.
    + wp_steps. exists g. split; [done|]. split; [done|]. split; [done|]. simpl.
      by split; [eapply awaiting_not_gated|].
  - wp_steps. destruct (is_awaiting_boot r id) eqn:Haw; apply accepted_nil; [|by auto].
    split; [done|]. split; [done|]. by split; [eapply awaiting_not_gated|].
Qed.

(** A leaf handler that defers to the supervisor has done nothing yet. *)
Definition deferred (st : State) (ev : Event) (r : Rot) (oc : Outcome) (r' : Rot)
    (l : list Effect) : Prop :=
  oc = Super → r' = r ∧ l = [] ∧
  (walking st = true → ∀ id, ev ≠ CorruptionDetected id) ∧
  (walking st = true → is_supervised st = true → ∀ id c,
     ev = BootFailed id c DeviceFatal → is_awaiting_boot r id = false).

Lemma corruption_advancing_not_super id r :
  wp (handle_corruption_advancing N id) (λ oc _ _, oc ≠ Super) r.
Proof.
  unfold handle_corruption_advancing. wp_steps.
  eapply wp_mono; [apply handle_corruption_outcome|].
  intros oc r1 l1 [->|(-> & _)]; cbn beta; wp_steps; [|done].
  case_match; wp_steps; [|done].
  eapply wp_mono; [apply wp_true|]. intros [] r2 l2 _; by wp_steps.
Qed.

Lemma exhaust_not_super id r : wp (exhaust_recovery N id) (λ oc _ _, oc ≠ Super) r.
Proof.
  unfold exhaust_recovery. wp_steps. eapply wp_mono; [apply wp_true|].
  intros [] r1 l1 _; cbn beta; unfold clear_retry, emit; by wp_steps.
Qed.

Local Ltac not_super :=
  repeat first
    [ wp_step | progress unfold emit, clear_retry, mark_released, clear_awaiting_boot, bump_retry
    | (intros [=]; fail) | done
    | lazymatch goal with
      | |- wp (advance_to_next_ungated _) _ _ =>
          eapply wp_mono; [apply wp_true|intros [] ? ? _; cbn beta]
      | |- wp (handle_corruption_advancing _ _) _ _ =>
          eapply wp_mono; [apply corruption_advancing_not_super|by intros ??? ? [=]]
      | |- wp (exhaust_recovery _ _) _ _ =>
          eapply wp_mono; [apply exhaust_not_super|by intros ??? ? [=]]
      end
    | case_match ].

Lemma handle_deferred st ev r :
  wp (handle N st ev) (λ oc r' l, deferred st ev r oc r' l) r.
Proof.
  unfold deferred. destruct st as [| |aw| | |failed|]; simpl.
  - destruct ev as [[]| | | | | | | | | | | | | | | | |]; by apply wp_ret.
  - destruct ev; simpl; not_super.
  - destruct ev as [| | | | | | | | | | | | | | id c k | | |]; simpl; not_super.
    subst. intros _. repeat split; try done. intros _ _ id' c' [= <- <-]. done.
  - destruct ev; simpl; not_super.
  - destruct ev; simpl; not_super.
    eapply wp_mono; [apply handle_corruption_outcome|].
    intros oc r1 l1 [->|(-> & _)]; cbn beta; unfold emit; by wp_steps.
  - destruct ev; simpl; not_super.
  - apply wp_ret. by intros _.
Qed.

Lemma handle_handled g st ev r :
  rot_wf N r → agree g r → (walking st = true → walk g r) →
  (∀ id, component_id ev = Some id → id ∈ (chain r).*1) →
  wp (handle N st ev) (λ oc r' l, accepted g l (λ g', handled st g' oc r')) r.
Proof.
  intros Hwf Hag Hw Hin.
  assert (∀ oc, oc = Handled ∨ oc = Super → handled st g oc r) as Hsame
    by (intros; by eapply handled_same).
  destruct st as [| |aw| | |failed|]; simpl.
  - destruct ev as [[]| | | | | | | | | | | | | | | | |]; by apply accepted_nil.
  - by apply pre_supervision_handled; auto.
  - by apply awaiting_ready_handled; auto.
  - destruct ev; simpl; try (by apply accepted_nil).
    + unfold emit. wp_steps. exists g. split; [done|]. split; [|split; done].
      by apply (set_pending_keeps N false).
    + wp_steps. case_match; by apply accepted_nil.
  - destruct ev; simpl; try (by apply accepted_nil).
    + unfold emit. wp_steps. exists g. split; [done|]. split; [|split; done].
      by apply (set_pending_keeps N true).
    + wp_steps. eapply wp_mono; [apply wp_and; [apply handle_corruption_outcome|];
        apply (corruption_handled Updating g); auto|].
      intros oc r1 l1 [Hoc (g1 & Hm & Hh)]; cbn beta.
      destruct Hoc as [->|(-> & -> & -> & _)]; unfold emit; wp_steps.
      * rewrite app_nil_r. by exists g1.
      * simpl in *. simplify_eq. by exists g1.
  - by apply recovering_handled.
  - by apply accepted_nil.
Qed.

Lemma step_body_accepted g st ev r :
  rot_wf N r → agree g r → (walking st = true → walk g r) →
  (∀ id, component_id ev = Some id → id ∈ (chain r).*1) →
  wp (step_body N st ev) (λ st' r' l,
    accepted g l (λ g', inv N g' {| rot := r'; state := st' |})) r.
Proof.
  intros Hwf Hag Hw Hin. unfold step_body. wp_steps.
  eapply wp_mono; [apply wp_and; [by apply (handle_handled g)|apply handle_deferred]|].
  intros oc0 r0 l0 [(g0 & Hm0 & Hh0) Hdef]; cbn beta. wp_steps.
  assert (wp (match oc0 with
     | Super => if is_supervised st then handle_supervising N ev else mret Super
     | _ => mret oc0 end) (λ oc r' l, accepted g0 l (λ g', handled st g' oc r')) r0) as Hsup.
  { destruct oc0; try (by apply accepted_nil).
    destruct (is_supervised st) eqn:Hs; [|by apply accepted_nil].
    destruct (Hdef eq_refl) as (-> & -> & Hd1 & Hd2).
    destruct Hh0 as (Hwf0 & Hag0 & Hw0). simpl in Hw0. apply supervising_handled; eauto. }
  eapply wp_mono; [exact Hsup|].
  intros oc r1 l1 (g1 & Hm1 & Hwf1 & Hag1 & Hw1); cbn beta.
  assert (∀ l2 (Q : mon → Prop), accepted g1 l2 Q → accepted g (l0 ++ l1 ++ l2) Q) as Hcat.
  { intros l2 Q HQ. apply accepted_app. exists g0. split; [done|].
    apply accepted_app. by exists g1. }
  destruct oc as [|target|]; wp_steps.
  - by apply Hcat, accepted_nil.
  - eapply wp_mono; [by apply (entry_accepted g1)|]. cbn beta.
    intros [] r2 l2 H2. wp_steps. apply Hcat. by rewrite app_nil_r.
  - by apply Hcat, accepted_nil.
Qed.

(** The invariant is kept by every step, whose effects the monitor accepts. *)
Lemma step_emits_inv g o ev o' l :
  step_emits N o ev = (o', l) → inv N g o → accepted g l (λ g', inv N g' o').
Proof.
  unfold step_emits. intros Hstep [Hwf Hag Hw].
  destruct (match component_id ev with Some id => _ | None => _ end) eqn:Hdrop.
  { simplify_eq. by apply accepted_nil. }
  assert (∀ id, component_id ev = Some id → id ∈ (chain (rot o)).*1) as Hin.
  { intros id Hid. rewrite Hid in Hdrop. apply negb_false_iff in Hdrop.
    by apply in_chain_iff. }
  pose proof (step_body_accepted g (state o) ev (rot o) Hwf Hag Hw Hin) as Hb.
  unfold wp in Hb. destruct (step_body N (state o) ev (rot o)) as [[st r] l'].
  by simplify_eq.
Qed.

Lemma init_inv c max_retry :
  chain_valid (entries c) → (length (entries c) ≤ N)%nat → in_u8 max_retry →
  inv N mon_init (Orchestrator_new N c max_retry).
Proof.
  intros Hv Hlen Hmr. destruct (Rot_new_wf N c max_retry Hv Hlen Hmr) as [Hwf Hdef].
  split; [done| |done]. simpl. intros id s Hs. apply Hdef in Hs as ->. by split.
Qed.
End walk.
