(* ===== verification/SmBound.v ===== *)
(** * The effect buffer

    How many effects one event can push into its [Sink]: at most
    [2 * chain.len() + 1].  [Rot::EFFECT_CAP_OK] asks for [E >= 2 * N + 2], so
    no [push] of [Sink::emit] ever fails ([step_buffer]).  Gating pays two
    effects for each component that stops being in service, quiescing one for
    each component that is live, and a component is never both. *)

From S2P Require Import Prelude SmModel SmCore SmInv SmTrace.
From stdpp Require Import base tactics list numbers strings sets.
Local Open Scope nat_scope.

(** The components still in service. *)
Definition in_service (r : Rot) : nat :=
  length (filter (λ e : entry, is_gated r e.1 = false) (chain r)).

Lemma in_service_le r : in_service r ≤ length (chain r).
Proof. apply length_filter. Qed.

Lemma in_service_ext r r' :
  chain r' = chain r → (∀ id, is_gated r' id = is_gated r id) →
  in_service r' = in_service r.
Proof.
  intros Hc Hg. unfold in_service. rewrite Hc. f_equal.
  apply list_filter_iff. intros [id a]. by rewrite Hg.
Qed.

Lemma filter_length_strict {A} (P Q : A → Prop)
    `{!∀ x, Decision (P x), !∀ x, Decision (Q x)} (l : list A) x :
  (∀ y, P y → Q y) → x ∈ l → Q x → ¬ P x →
  length (filter P l) < length (filter Q l).
Proof.
  intros HPQ Hx HQ HP. induction l as [|y l IH]; [by apply not_elem_of_nil in Hx|].
  assert (length (filter P l) ≤ length (filter Q l)) as Hle.
  { clear -HPQ. induction l as [|z l IH]; [done|]. rewrite !filter_cons.
    destruct (decide (P z)), (decide (Q z)); simpl; try lia. naive_solver. }
  rewrite !filter_cons. apply elem_of_cons in Hx as [->|Hx].
  - rewrite decide_False, decide_True by done. simpl. lia.
  - specialize (IH Hx). destruct (decide (P y)), (decide (Q y)); simpl; try lia.
    naive_solver.
Qed.

(** ** Gating *)

Definition gate_paid (r : Rot) (l : list Effect) (r' : Rot) : Prop :=
  chain r' = chain r ∧ length (statuses r') = length (statuses r) ∧
  (length (statuses r) = length (chain r) →
   length l + 2 * in_service r' ≤ 2 * in_service r).

#[export] Instance gate_paid_log_preorder : LogPreorder gate_paid.
Proof.
  split.
  - intros r. by repeat split.
  - intros r1 l1 r2 l2 r3 (Hc1 & Hl1 & H1) (Hc2 & Hl2 & H2).
    repeat split; [congruence..|]. intros Hlen.
    specialize (H1 Hlen). specialize (H2 ltac:(congruence)).
    rewrite length_app. lia.
Qed.

Lemma gate_one_paid id r :
  id ∈ (chain r).*1 → wp (gate_one id) (λ _ r' l, gate_paid r l r') r.
Proof.
  intros Hin. unfold gate_one. wp_steps.
  destruct (is_gated r id) eqn:Hg; [apply wp_ret, log_refl|].
  unfold emit. wp_steps. repeat split; [by autorewrite with rot..|].
  intros Hlen. destruct (status_of_in_chain _ _ Hlen Hin) as [s Hs].
  apply list_elem_of_fmap in Hin as ([id' a] & Heq & Hin'). simpl in Heq. subst id'.
  assert (in_service (with_status id gate_status r) < in_service r)%nat; [|simpl; lia].
  unfold in_service. rewrite with_status_chain.
  eapply (filter_length_strict _ _ _ (id, a)); [|done|done|].
  - intros [id' a']. simpl. rewrite !is_gated_alt, status_of_with_status.
    case_decide; [|done]. by destruct (status_of r id').
  - simpl. rewrite is_gated_alt, status_of_with_status, decide_True, Hs by done. done.
Qed.

Section bound.
Context (N : nat).

Lemma gate_by_policy_paid id : respects gate_paid (gate_by_policy N id).
Proof.
  apply gate_by_policy_respects; [apply _|by intros ??? []|].
  intros. by apply gate_one_paid.
Qed.

Lemma handle_corruption_paid id : respects gate_paid (handle_corruption N id).
Proof.
  apply handle_corruption_respects; [apply _|by intros ??? []|].
  intros. by apply gate_one_paid.
Qed.

(** ** The walk *)

Lemma in_service_pos r i id a :
  chain r !! i = Some (id, a) → is_gated r id = false → 1 ≤ in_service r.
Proof.
  intros Hi Hg. unfold in_service.
  assert ((id, a) ∈ filter (λ e : entry, is_gated r e.1 = false) (chain r)) as Hin.
  { apply list_elem_of_filter. split; [done|]. by eapply list_elem_of_lookup_2. }
  destruct (filter _ _); [by apply not_elem_of_nil in Hin|simpl; lia].
Qed.

Lemma advance_cost r start :
  rot_wf N r →
  wp (advance_to_next_ungated start) (λ found _ l,
    length l ≤ 2 ∧ (1 ≤ length l → 1 ≤ in_service r)) r.
Proof.
  intros Hwf. eapply wp_advance; [done|..].
  - intros i id a _ Hi Hg _. simpl. split; [done|]. intros _. by eapply in_service_pos.
  - intros _. simpl. lia.
Qed.

Lemma live_le_in_service g r :
  rot_wf N r → agree g r → length (live_ids (chain r) (statuses r)) ≤ in_service r.
Proof.
  intros Hwf Hag. unfold live_ids, in_service. rewrite length_fmap.
  assert (∀ es ss, (∀ i e s, es !! i = Some e → ss !! i = Some s →
      released s = true → is_gated r e.1 = false) →
    length (filter (λ p : entry * ComponentStatus, Is_true (released p.2)) (zip es ss)) ≤
    length (filter (λ e : entry, is_gated r e.1 = false) es)) as Hgen.
  { induction es as [|e es IH]; intros [|s ss] H; simpl; try lia.
    specialize (IH ss (λ i, H (S i))). rewrite !filter_cons. simpl.
    pose proof (H 0 e s eq_refl eq_refl) as H0.
    destruct (decide (Is_true (released s))) as [Hr|];
      destruct (decide (is_gated r e.1 = false)); simpl; try lia.
    apply Is_true_eq_true in Hr. naive_solver. }
  apply Hgen. intros i [id a] s Hc Hs Hrel. simpl.
  pose proof (status_of_lookup _ _ _ _ _ Hwf Hc) as Hso. rewrite Hs in Hso.
  eapply is_gated_false; [done|]. destruct (Hag _ _ Hso) as [H1 H2 _].
  apply H2 in Hrel. rewrite Hrel in H1. destruct (lifecycle s); [done|].
  by pose proof (proj1 H1 eq_refl).
Qed.

Lemma quiesced_in_service r : in_service (quiesced r) = in_service r.
Proof.
  apply in_service_ext; [done|]. intros id.
  rewrite !is_gated_alt. unfold quiesced. rewrite status_of_map_statuses.
  destruct (status_of r id) as [s|]; simpl; [|done].
  unfold quiesce_status. by destruct (released s).
Qed.

(** ** What a handler leaves for the entry action *)

Definition handler_cost (r : Rot) (oc : Outcome) (r' : Rot) (l : list Effect) : Prop :=
  match oc with
  | Transition PreSupervision => length l + 2 * in_service r' ≤ 2 * length (chain r)
  | Transition Updating => l = []
  | Transition (Recovering _) | Transition Locked => length l ≤ 2
  | _ => length l ≤ 2 * length (chain r) + 1
  end.

Lemma wf_nonempty r : rot_wf N r → 1 ≤ length (chain r).
Proof. intros [(H & _) _ _ _ _ _]. destruct (chain r); [done|simpl; lia]. Qed.

Lemma entry_cost g r0 r l target :
  rot_wf N r → agree g r → chain r = chain r0 → handler_cost r0 (Transition target) r l →
  wp (entry_action target) (λ _ _ l', length (l ++ l') ≤ 2 * length (chain r0) + 1) r.
Proof.
  intros Hwf Hag Hc Hcost. pose proof (wf_nonempty _ Hwf) as Hne. rewrite Hc in Hne.
  destruct target; simpl in Hcost; simpl;
    try (unfold emit; wp_steps; rewrite length_app; simpl; lia).
  - wp_steps. eapply wp_quiesce_all; [done|].
    pose proof (live_le_in_service _ _ Hwf Hag) as Hlive. wp_steps.
    pose proof (quiesced_wf N r Hwf) as Hwf'.
    eapply wp_mono; [by apply advance_cost|]. intros b r' l' [H1 H2]; cbn beta.
    wp_steps. rewrite quiesced_in_service in H2.
    rewrite !length_app, length_fmap. simpl. lia.
  - subst l. unfold emit. wp_steps. simpl. lia.
  - unfold clear_awaiting_boot, emit. wp_steps. case_match; wp_steps;
      rewrite length_app; simpl; lia.
Qed.

Lemma corruption_cost id r :
  rot_wf N r →
  wp (handle_corruption N id) (λ oc r' l,
    length l + 2 * in_service r' ≤ 2 * length (chain r) ∧
    (oc = Handled ∨ oc = Transition (Recovering id) ∧ l = [])) r.
Proof.
  intros Hwf. eapply wp_mono.
  { apply wp_and; [apply handle_corruption_paid|apply handle_corruption_outcome]. }
  intros oc r' l [(_ & _ & Hp) Hoc]; cbn beta.
  specialize (Hp (wf_statuses _ _ Hwf)). pose proof (in_service_le r).
  split; [lia|]. naive_solver.
Qed.

Lemma corruption_advancing_cost id r :
  rot_wf N r →
  wp (handle_corruption_advancing N id) (λ oc r' l,
    length l ≤ 2 * length (chain r) ∧
    (oc = Handled ∨ oc = Transition Ready ∨ oc = Transition (Recovering id) ∧ l = [])) r.
Proof.
  intros Hwf. unfold handle_corruption_advancing. wp_steps. eapply wp_mono.
  { apply wp_and; [by apply corruption_cost|apply (handle_corruption_keeps N)]. }
  intros oc r1 l1 [[Hl Hoc] Hk]; cbn beta. destruct (Hk Hwf) as [Hwf1 _]. wp_steps.
  destruct Hoc as [->|[-> ->]]; [|wp_steps; simpl; split; [lia|auto]].
  case_match; [|wp_steps; rewrite app_nil_r; split; [lia|auto]].
  wp_steps. eapply wp_mono; [by apply advance_cost|].
  intros found r2 l2 [H1 H2]; cbn beta.
  destruct found; wp_steps; rewrite !length_app; simpl; split; auto; lia.
Qed.

Lemma exhaust_cost id r :
  rot_wf N r → wp (exhaust_recovery N id) (λ oc r' l, handler_cost r oc r' l) r.
Proof.
  intros Hwf. pose proof (wf_nonempty _ Hwf). pose proof (in_service_le r).
  unfold exhaust_recovery. wp_steps. eapply wp_mono.
  { apply wp_and; [apply gate_by_policy_paid|apply gate_by_policy_outcome]. }
  intros b r1 l1 [(_ & _ & Hp) [[-> _]|(-> & -> & -> & _)]]; cbn beta;
    unfold clear_retry, emit; wp_steps; simpl; [|lia].
  specialize (Hp (wf_statuses _ _ Hwf)). rewrite app_nil_r.
  rewrite (in_service_ext r1); [lia|by autorewrite with rot|].
  intros id'. rewrite !is_gated_alt, status_of_with_status.
  case_decide; [|done]. by destruct (status_of r1 id').
Qed.

Lemma bump_retry_silent id r :
  wp (bump_retry id) (λ _ r' l, l = [] ∧ in_service r' = in_service r) r.
Proof.
  unfold bump_retry. wp_steps.
  destruct (status_index r id) as [i|] eqn:Hi; wp_steps; [|done]. split; [done|].
  rewrite (with_status_index id) by done.
  apply in_service_ext; [by autorewrite with rot|]. intros id'.
  rewrite !is_gated_alt, status_of_with_status.
  case_decide; [|done]. by destruct (status_of r id').
Qed.

Local Ltac cost_auto :=
  repeat first
    [ wp_step | progress unfold emit, clear_retry, mark_released, clear_awaiting_boot
    | (simpl; try rewrite !length_app; simpl; lia) | done
    | lazymatch goal with
      | |- wp (handle_corruption_advancing _ ?i) _ ?r =>
          eapply wp_mono; [by apply (corruption_advancing_cost i r)
            | intros ? ? ? [? [->|[->|[-> ->]]]]; cbn beta]
      | |- wp (handle_corruption _ ?i) _ ?r =>
          eapply wp_mono; [by apply (corruption_cost i r)
            | intros ? ? ? [? [->|[-> ->]]]; cbn beta]
      | |- wp (exhaust_recovery _ _) _ _ => by apply exhaust_cost
      end
    | case_match ].

(** The advance after a release. *)
Lemma release_cost r id (K : Rot → bool → M Outcome) :
  rot_wf N r →
  (∀ r1 found r2, wp (K r1 found) (λ oc _ l,
     l = [] ∧ (oc = Handled ∨ oc = Transition Ready ∨
               ∃ aw, oc = Transition (AwaitingReady aw))) r2) →
  wp (clear_retry id;; emit (ReleaseReset id);; mark_released id;;
      r' ← sw_get;
      found ← advance_to_next_ungated (as_usize (cursor r') + 1)%nat;
      K r' found) (λ oc r' l, handler_cost r oc r' l) r.
Proof.
  intros Hwf HK. pose proof (wf_nonempty _ Hwf).
  unfold clear_retry, mark_released, emit. wp_steps.
  set (r1 := with_status id _ (with_status id (set_retry 0) r)).
  assert (rot_wf N r1) as Hwf1.
  { apply (keeps_with_status N id _ _ []); [done|done|].
    apply (keeps_with_status N id _ _ []); [|done|done].
    intros s _ _. simpl. unfold in_u8, u8_MAX. lia. }
  eapply wp_mono; [by apply advance_cost|]. intros found r2 l2 [Hl _]; cbn beta.
  eapply wp_mono; [apply HK|]. cbn beta.
  intros oc r3 l3 [-> Hoc]. simpl.
  destruct Hoc as [->|[->|[aw ->]]]; simpl; rewrite app_nil_r; lia.
Qed.

Lemma handle_cost st ev r :
  rot_wf N r → wp (handle N st ev) (λ oc r' l, handler_cost r oc r' l) r.
Proof.
  intros Hwf. pose proof (wf_nonempty _ Hwf). pose proof (in_service_le r).
  destruct st as [| |aw| | |failed|]; simpl.
  - destruct ev as [[]| | | | | | | | | | | | | | | | |]; simpl; cost_auto.
  - destruct ev; simpl; try (cost_auto; fail).
    wp_steps. case_bool_decide; [|cost_auto].
    apply (release_cost r id (λ r1 found, if found : bool then
        match kind ∘ snd <$> cursor_entry r1 with
        | Some Active => mret (Transition (AwaitingReady (Some id)))
        | _ => mret Handled end else mret (Transition Ready))); [done|].
    intros r1 found r2. destruct found; [|wp_steps; eauto].
    destruct (kind ∘ snd <$> cursor_entry r1) as [[]|]; wp_steps; eauto 6.
  - destruct ev; simpl; try (cost_auto; fail).
    wp_steps. case_bool_decide; [|cost_auto].
    apply (release_cost r id (λ _ found, if found : bool then
        mret Handled else mret (Transition Ready))); [done|].
    intros r1 found r2. destruct found; wp_steps; eauto.
  - destruct ev; simpl; cost_auto.
  - destruct ev; simpl; cost_auto.
  - destruct ev; simpl; try (cost_auto; fail).
    case_bool_decide; [|cost_auto]. wp_steps.
    eapply wp_mono; [apply wp_and; [apply (bump_retry_keeps N)|apply bump_retry_silent]|].
    intros n r1 l1 (Hk & -> & Hsv); cbn beta.
    destruct (Hk Hwf) as [Hwf1 Hle]. pose proof (le_chain _ _ Hle) as Hc.
    wp_steps. case_match; wp_steps; simpl; [lia|].
    eapply wp_mono; [by apply exhaust_cost|]. intros oc r2 l2. unfold handler_cost.
    by rewrite Hc.
  - cost_auto.
Qed.

Lemma supervising_cost ev r :
  rot_wf N r → wp (handle_supervising N ev) (λ oc r' l, handler_cost r oc r' l) r.
Proof.
  intros Hwf. pose proof (wf_nonempty _ Hwf). pose proof (in_service_le r).
  destruct ev; simpl; cost_auto.
Qed.

Lemma step_body_bound g st ev r :
  rot_wf N r → agree g r → (walking st = true → walk g r) →
  (∀ id, component_id ev = Some id → id ∈ (chain r).*1) →
  wp (step_body N st ev) (λ _ _ l, length l ≤ 2 * length (chain r) + 1) r.
Proof.
  intros Hwf Hag Hw Hin.
  unfold step_body. wp_steps.
  eapply wp_mono; [apply wp_and; [by apply (handle_handled N g)|]; apply wp_and;
    [apply handle_deferred|]; apply wp_and; [by apply handle_cost|apply (handle_keeps N)]|].
  intros oc0 r0 l0 ((g0 & Hm0 & Hh0) & Hdef & Hcost & Hk); cbn beta. wp_steps.
  destruct (Hk Hwf) as [_ [Hc _ _]].
  assert (wp (match oc0 with
     | Super => if is_supervised st then handle_supervising N ev else mret Super
     | _ => mret oc0 end) (λ oc r' l', chain r' = chain r ∧
       accepted g0 l' (λ g', handled N st g' oc r') ∧
       handler_cost r oc r' (l0 ++ l')) r0) as Hsup.
  { destruct oc0; try (wp_steps; rewrite app_nil_r;
      split; [done|]; split; [by apply accepted_nil|done]).
    destruct (Hdef eq_refl) as (-> & -> & Hd1 & Hd2).
    destruct (is_supervised st) eqn:Hs;
      [|wp_steps; split; [done|]; split; [by apply accepted_nil|done]].
    destruct Hh0 as (Hwf0 & Hag0 & Hw0). simpl in Hw0. eapply wp_mono.
    { apply wp_and; [by apply (supervising_cost ev)|]. apply wp_and;
        [apply (handle_supervising_keeps N)|].
      apply (supervising_handled N g0 r st); eauto. }
    intros oc r' l' (H1 & H2 & H3); cbn beta. destruct (H2 Hwf0) as [_ [? _ _]]. auto. }
  eapply wp_mono; [exact Hsup|].
  intros oc r1 l1 (Hc1 & (g1 & Hm1 & Hwf1 & Hag1 & Hw1) & Hcost1); cbn beta.
  destruct oc as [|target|]; wp_steps; rewrite ?app_nil_r; try done.
  eapply wp_mono; [by eapply (entry_cost g1 r r1 (l0 ++ l1))|]. cbn beta.
  intros [] r2 l2 H2. wp_steps. by rewrite app_nil_r, app_assoc.
Qed.

(** One event emits at most [2 * chain.len() + 1] effects. *)
Lemma step_emits_bound g o ev o' l :
  step_emits N o ev = (o', l) → inv N g o → length l ≤ 2 * length (chain (rot o)) + 1.
Proof.
  unfold step_emits. intros Hstep [Hwf Hag Hw].
  destruct (match component_id ev with Some id => _ | None => _ end) eqn:Hdrop.
  { simplify_eq. simpl. lia. }
  assert (∀ id, component_id ev = Some id → id ∈ (chain (rot o)).*1) as Hin.
  { intros id Hid. rewrite Hid in Hdrop. apply negb_false_iff in Hdrop.
    by apply in_chain_iff. }
  pose proof (step_body_bound g _ ev _ Hwf Hag Hw Hin) as Hb.
  unfold wp in Hb. destruct (step_body N (state o) ev (rot o)) as [[st r] l'].
  by simplify_eq.
Qed.
End bound.

(** With the capacity [EFFECT_CAP_OK] asks for, the buffer holds every effect. *)
Lemma step_buffer N E g o ev :
  E ≥ 2 * N + 2 → inv N g o → step N E o ev = step_emits N o ev.
Proof.
  intros HE Hinv. unfold step. destruct (step_emits N o ev) as [o' l] eqn:Hs.
  pose proof (step_emits_bound N g o ev o' l Hs Hinv) as Hl.
  pose proof (wf_cap _ _ (inv_wf _ _ _ Hinv)).
  f_equal. unfold Sink_effects. rewrite foldl_vec_push by (simpl; lia).
  simpl. apply take_ge. lia.
Qed.
