(* ===== verification/SmSafety.v ===== *)
(** * Safety of every run

    Runs of the machine from power-on under any sequence of events, and what
    acceptance of their effects by the monitor of [SmTrace] means in terms of
    the effects alone: no release without a fresh check, no check of a live
    component, isolation for good. *)

From S2P Require Import Prelude SmModel SmCore SmInv SmTrace SmBound.
From stdpp Require Import base tactics list numbers strings sets.
Local Open Scope Z_scope.

(** What the types and the build-time assertion give a board: the chain came
    out of [Chain::try_from] on a [heapless::Vec] of capacity [N],
    [E >= 2 * N + 2], and the retry budget is a [u8]. *)
Record board_ok (N E : nat) (c : Chain) (max_retry : Z) : Prop := {
  board_chain : ∃ es, (length es ≤ N)%nat ∧ try_from es = Ok c;
  board_effect_cap : (E ≥ 2 * N + 2)%nat;
  board_max_retry : in_u8 max_retry;
}.

(** Feed a sequence of events to the machine, one [step] each. *)
Fixpoint run (N E : nat) (o : Orchestrator) (evs : list Event) :
    Orchestrator * list Effect :=
  match evs with
  | [] => (o, [])
  | ev :: evs' =>
      let '(o1, l1) := step N E o ev in
      let '(o2, l2) := run N E o1 evs' in
      (o2, l1 ++ l2)
  end.

Lemma board_init_inv N E c max_retry :
  board_ok N E c max_retry → inv N mon_init (Orchestrator_new N c max_retry).
Proof.
  intros [(es & Hlen & Htry) HE Hmr]. apply try_from_Ok in Htry as [Hv Hes].
  apply init_inv; by rewrite ?Hes.
Qed.

Lemma step_inv N E g o ev o' l :
  (E ≥ 2 * N + 2)%nat → inv N g o → step N E o ev = (o', l) →
  accepted g l (λ g', inv N g' o').
Proof.
  intros HE Hinv Hs. rewrite (step_buffer N E g) in Hs by done.
  by eapply step_emits_inv.
Qed.

Lemma run_inv_from N E g o evs o' l :
  (E ≥ 2 * N + 2)%nat → inv N g o → run N E o evs = (o', l) →
  accepted g l (λ g', inv N g' o').
Proof.
  intros HE. revert g o l. induction evs as [|ev evs IH]; intros g o l Hinv Hrun; simpl in *.
  { simplify_eq. by apply accepted_nil. }
  destruct (step N E o ev) as [o1 l1] eqn:Hs. destruct (run N E o1 evs) as [o2 l2] eqn:Hr.
  simplify_eq. destruct (step_inv _ _ _ _ _ _ _ HE Hinv Hs) as (g1 & Hm1 & Hinv1).
  apply accepted_app. exists g1. split; [done|]. by eapply IH.
Qed.

Lemma run_inv N E c max_retry evs o l :
  board_ok N E c max_retry → run N E (Orchestrator_new N c max_retry) evs = (o, l) →
  accepted mon_init l (λ g, inv N g o).
Proof.
  intros Hb. eapply run_inv_from; [by destruct Hb|by eapply board_init_inv].
Qed.

(** The states a board can be in. *)
Definition reachable (N E : nat) (c : Chain) (max_retry : Z) (o : Orchestrator) : Prop :=
  ∃ evs l, run N E (Orchestrator_new N c max_retry) evs = (o, l).

Lemma reachable_inv N E c max_retry o :
  board_ok N E c max_retry → reachable N E c max_retry o → ∃ g, inv N g o.
Proof. intros Hb (evs & l & Hrun). destruct (run_inv _ _ _ _ _ _ _ Hb Hrun) as (g & _ & ?). eauto. Qed.

Lemma reachable_step N E c max_retry o ev :
  board_ok N E c max_retry → reachable N E c max_retry o →
  step N E o ev = step_emits N o ev.
Proof.
  intros Hb Hr. destruct (reachable_inv _ _ _ _ _ Hb Hr) as [g Hinv].
  eapply step_buffer; [by destruct Hb|done].
Qed.

(** Induction over the reachable states. *)
Lemma reachable_ind_inv N E c max_retry (Q : Orchestrator → Prop) o :
  board_ok N E c max_retry →
  Q (Orchestrator_new N c max_retry) →
  (∀ g o ev o' l, inv N g o → Q o → step_emits N o ev = (o', l) → Q o') →
  reachable N E c max_retry o → Q o.
Proof.
  intros Hb H0 Hstep (evs & l & Hrun). revert l H0 Hrun.
  pose proof (board_init_inv _ _ _ _ Hb) as Hinv. revert Hinv.
  generalize mon_init (Orchestrator_new N c max_retry).
  induction evs as [|ev evs IH]; intros g o0 Hinv l H0 Hrun; simpl in Hrun; [by simplify_eq|].
  destruct (step N E o0 ev) as [o1 l1] eqn:Hs.
  destruct (run N E o1 evs) as [o2 l2] eqn:Hr. simplify_eq.
  rewrite (step_buffer N E g) in Hs by (done || by destruct Hb).
  destruct (step_emits_inv _ _ _ _ _ _ Hs Hinv) as (g1 & _ & Hinv1). eauto.
Qed.

(** ** What acceptance means *)

(** Effects after which an earlier check of [id] no longer counts. *)
Definition voids_check (id : ComponentId) (e : Effect) : bool :=
  match e with
  | ReleaseReset id' | AssertReset id' | ReportIsolated id' | RecoverComponent id' _ =>
      bool_decide (id' = id)
  | _ => false
  end.

(** Effects that put [id] back into custody. *)
Definition takes_custody (id : ComponentId) (e : Effect) : bool :=
  match e with
  | AssertReset id' | RecoverComponent id' _ => bool_decide (id' = id)
  | _ => false
  end.

(** Effects that read, verify, release, hold or recover [id] or report it isolated:
    what an isolated component must never see again. *)
Definition handles_component (id : ComponentId) (e : Effect) : bool :=
  match e with
  | ReadFirmware id' | VerifyFirmware id' | ReleaseReset id' | AssertReset id'
  | ReportIsolated id' | RecoverComponent id' _ => bool_decide (id' = id)
  | _ => false
  end.

Definition checked_fresh (id : ComponentId) (pre : list Effect) : Prop :=
  ∃ pre1 pre2, pre = pre1 ++ VerifyFirmware id :: pre2 ∧
    Forall (λ e, voids_check id e = false) pre2.

Definition at_rest (id : ComponentId) (pre : list Effect) : Prop :=
  ReleaseReset id ∉ pre ∨
  ∃ pre1 e pre2, pre = pre1 ++ e :: pre2 ∧ takes_custody id e = true ∧
    ReleaseReset id ∉ pre2.

Lemma monitors_snoc g l e g' :
  monitors g (l ++ [e]) = Some g' ↔
  ∃ g1, monitors g l = Some g1 ∧ monitor g1 e = Some g'.
Proof.
  rewrite monitors_app, bind_Some. simpl. split.
  - intros (g1 & H1 & H2). exists g1. split; [done|]. by destruct (monitor g1 e).
  - intros (g1 & H1 & H2). exists g1. by rewrite H2.
Qed.

Lemma monitors_split g pre e post g' :
  monitors g (pre ++ e :: post) = Some g' →
  ∃ g1 g2, monitors g pre = Some g1 ∧ monitor g1 e = Some g2 ∧ monitors g2 post = Some g'.
Proof.
  rewrite monitors_app, bind_Some. simpl. intros (g1 & H1 & H2).
  destruct (monitor g1 e) as [g2|] eqn:He; [|done]. eauto.
Qed.

(** How one effect moves the phase of one component. *)
Lemma monitor_phase g e g' id :
  monitor g e = Some g' →
  (g' id = g id ∧ voids_check id e = false ∧ e ≠ VerifyFirmware id) ∨
  (e = VerifyFirmware id ∧ g' id = PChecking ∧ (g id = PHeld ∨ g id = PChecking)) ∨
  (e = ReleaseReset id ∧ g' id = PLive ∧ g id = PChecking) ∨
  (takes_custody id e = true ∧ g' id = PHeld ∧ g id ≠ PIsolated ∧ e ≠ ReleaseReset id) ∨
  (e = ReportIsolated id ∧ g' id = PIsolated ∧ g id = PHeld).
Proof.
  intros Hm. destruct e; simpl in Hm;
    try (simplify_eq; left; simpl; done).
  all: destruct (decide (id0 = id)) as [->|Hne];
    [|left; destruct (g id0) eqn:E; simplify_eq; simpl; rewrite ?bool_decide_false by done;
      rewrite ?mon_set_ne by done; (split; [done|split; [done|congruence]])].
  - left. assert (g' = g) as -> by (by destruct (g id); simplify_eq). done.
  - right; left. destruct (g id) eqn:E; simplify_eq; rewrite mon_set_eq; auto.
  - do 2 right; left. destruct (g id) eqn:E; simplify_eq; by rewrite mon_set_eq.
  - do 3 right; left. simpl. rewrite bool_decide_true by done.
    destruct (g id) eqn:E; simplify_eq; by rewrite mon_set_eq.
  - do 3 right; left. simpl. rewrite bool_decide_true by done.
    destruct (g id) eqn:E; simplify_eq; by rewrite mon_set_eq.
  - do 4 right. destruct (g id) eqn:E; simplify_eq; by rewrite mon_set_eq.
Qed.

Lemma checking_is_fresh l g id :
  monitors mon_init l = Some g → g id = PChecking → checked_fresh id l.
Proof.
  revert g. induction l as [|e l IH] using rev_ind; intros g Hm Hg.
  { simpl in Hm. simplify_eq. }
  apply monitors_snoc in Hm as (g1 & Hm1 & He).
  destruct (monitor_phase _ _ _ id He)
    as [(H1 & H2 & _)|[(-> & _)|[(_ & H & _)|[(_ & H & _)|(_ & H & _)]]]]; try congruence.
  - destruct (IH g1 Hm1) as (p1 & p2 & -> & Hp2); [congruence|].
    exists p1, (p2 ++ [e]). split; [by rewrite <- app_assoc|].
    apply Forall_app. by split; [|apply Forall_singleton].
  - exists l, []. done.
Qed.

Lemma not_live_at_rest l g id :
  monitors mon_init l = Some g → g id ≠ PLive → at_rest id l.
Proof.
  revert g. induction l as [|e l IH] using rev_ind; intros g Hm Hg.
  { left. apply not_elem_of_nil. }
  apply monitors_snoc in Hm as (g1 & Hm1 & He).
  assert (takes_custody id e = true ∨ e ≠ ReleaseReset id ∧ g1 id ≠ PLive) as Hcase.
  { destruct (monitor_phase _ _ _ id He)
      as [(H1 & H2 & _)|[(-> & _ & Hg1)|[(_ & H & _)|[(H & _)|(-> & _ & Hg1)]]]].
    - right. split; [|congruence]. intros ->. simpl in H2.
      by apply bool_decide_eq_false in H2.
    - right. split; [done|]. destruct Hg1 as [-> | ->]; done.
    - done.
    - by left.
    - right. split; [done|]. by rewrite Hg1. }
  destruct Hcase as [Hc|[Hne Hnl]].
  { right. exists l, e, []. split; [done|]. split; [done|]. apply not_elem_of_nil. }
  destruct (IH g1 Hm1 Hnl) as [Hn|(p1 & c & p2 & -> & Hc & Hn)].
  - left. rewrite elem_of_app, list_elem_of_singleton. by intros [?|<-].
  - right. exists p1, c, (p2 ++ [e]). split; [by rewrite <- app_assoc|]. split; [done|].
    rewrite elem_of_app, list_elem_of_singleton. by intros [?|<-].
Qed.

Lemma isolated_for_good l g g' id :
  monitors g l = Some g' → g id = PIsolated →
  Forall (λ e, handles_component id e = false) l ∧ g' id = PIsolated.
Proof.
  revert g. induction l as [|e l IH]; intros g Hm Hg; simpl in Hm.
  { by simplify_eq. }
  destruct (monitor g e) as [g1|] eqn:He; [|done].
  assert (handles_component id e = false ∧ g1 id = PIsolated) as [H1 H2].
  { destruct e; simpl in *; try (by simplify_eq);
      (destruct (decide (id0 = id)) as [->|];
       [by rewrite Hg in He|rewrite bool_decide_false by done];
       destruct (g id0); simplify_eq; by rewrite ?mon_set_ne). }
  destruct (IH g1 Hm H2) as [H3 H4]. split; [by constructor|done].
Qed.

(** ** An example board

    Three components: [ex_A] is active and cascades, [ex_B] is required and
    depends on [ex_A], [ex_C] can be isolated. *)

Definition ex_A : ComponentId := ComponentId_new 0.
Definition ex_B : ComponentId := ComponentId_new 1.
Definition ex_C : ComponentId := ComponentId_new 2.

Definition ex_entries : list entry :=
  [(ex_A, active_cascading);
   (ex_B, with_depends_on passive_required ex_A);
   (ex_C, passive_isolable)].

Definition ex_chain : Chain := {| entries := ex_entries |}.

Lemma ex_board_ok : board_ok 3 8 ex_chain 2.
Proof.
  split; [|lia|unfold in_u8, u8_MAX; lia]. exists ex_entries. split; [simpl; lia|done].
Qed.

Definition ex_start : Orchestrator := Orchestrator_new 3 ex_chain 2.

(** ** Properties *)

(** C1: Verify before release.  In every run from power-on, under any sequence
    of events, a [ReleaseReset] of a component is preceded by a
    [VerifyFirmware] of the same component, and between the two there is no
    other release, hold, recovery or isolation of it: each release is paid for
    by a check of its own. *)
Theorem release_needs_fresh_check N E c max_retry evs o pre id post :
  board_ok N E c max_retry →
  run N E (Orchestrator_new N c max_retry) evs = (o, pre ++ ReleaseReset id :: post) →
  checked_fresh id pre.
Proof.
  intros Hb Hrun. destruct (run_inv _ _ _ _ _ _ _ Hb Hrun) as (g & Hm & _).
  apply monitors_split in Hm as (g1 & g2 & Hm1 & He & _).
  eapply checking_is_fresh; [done|]. simpl in He. by destruct (g1 id).
Qed.

Lemma release_needs_fresh_check_witness :
  checked_fresh ex_B [ReadFirmware ex_A; VerifyFirmware ex_A; ReleaseReset ex_A;
                      ReadFirmware ex_B; VerifyFirmware ex_B].
Proof.
  eapply (release_needs_fresh_check 3 8 ex_chain 2
    [PowerGood Provisioned; VerificationPassed ex_A; VerificationPassed ex_B]
    (run 3 8 ex_start
      [PowerGood Provisioned; VerificationPassed ex_A; VerificationPassed ex_B]).1
    _ ex_B [ReadFirmware ex_C; VerifyFirmware ex_C]); [apply ex_board_ok|].
  vm_compute. reflexivity.
Defined.

(** C24: Verification at rest.  In every run, whenever the machine asks for the
    firmware of a component to be verified, that component was never released,
    or it was taken back into custody (held in reset, or handed to recovery)
    after its last release: no running component is ever re-verified. *)
Theorem check_only_at_rest N E c max_retry evs o pre id post :
  board_ok N E c max_retry →
  run N E (Orchestrator_new N c max_retry) evs = (o, pre ++ VerifyFirmware id :: post) →
  at_rest id pre.
Proof.
  intros Hb Hrun. destruct (run_inv _ _ _ _ _ _ _ Hb Hrun) as (g & Hm & _).
  apply monitors_split in Hm as (g1 & g2 & Hm1 & He & _).
  eapply not_live_at_rest; [done|]. simpl in He. by destruct (g1 id).
Qed.

Lemma check_only_at_rest_witness :
  at_rest ex_A [ReadFirmware ex_A; VerifyFirmware ex_A; ReleaseReset ex_A;
                ReadFirmware ex_B; VerifyFirmware ex_B; RecoverComponent ex_B 0;
                AssertReset ex_A; ReadFirmware ex_A].
Proof.
  eapply (check_only_at_rest 3 8 ex_chain 2
    [PowerGood Provisioned; VerificationPassed ex_A; VerificationFailed ex_B; Restored ex_B]
    (run 3 8 ex_start [PowerGood Provisioned; VerificationPassed ex_A;
                       VerificationFailed ex_B; Restored ex_B]).1
    _ ex_A []); [apply ex_board_ok|].
  vm_compute. reflexivity.
Defined.

(** C25: Isolation is final.  Once a component was reported isolated, no later
    effect of the run reads, verifies, releases, holds or recovers it or reports
    it isolated again, and the machine still has it isolated at the end.
    ([CommitSvnFloor] and [ReportRecoveryFailed] may still name it.) *)
Theorem isolation_is_final N E c max_retry evs o pre id post :
  board_ok N E c max_retry →
  run N E (Orchestrator_new N c max_retry) evs = (o, pre ++ ReportIsolated id :: post) →
  Forall (λ e, handles_component id e = false) post ∧
  (id ∈ (chain (rot o)).*1 → is_gated (rot o) id = true).
Proof.
  intros Hb Hrun. destruct (run_inv _ _ _ _ _ _ _ Hb Hrun) as (g & Hm & Hinv).
  apply monitors_split in Hm as (g1 & g2 & Hm1 & He & Hm2).
  assert (g2 id = PIsolated) as Hg2.
  { simpl in He. destruct (g1 id); simplify_eq. by rewrite mon_set_eq. }
  destruct (isolated_for_good _ _ _ _ Hm2 Hg2) as [Hpost Hg]. split; [done|].
  intros Hin. destruct Hinv as [Hwf Hag _].
  eapply agree_gated; eauto. by eapply status_of_is_Some.
Qed.

Lemma isolation_is_final_witness :
  Forall (λ e, handles_component ex_C e = false) [AssertReset ex_A; ReportIsolated ex_A;
    AssertReset ex_B; ReportIsolated ex_B].
Proof.
  eapply (isolation_is_final 3 8 ex_chain 2
    [PowerGood Provisioned; VerificationPassed ex_A; VerificationPassed ex_B;
     VerificationPassed ex_C; CorruptionDetected ex_C; CorruptionDetected ex_A]
    (run 3 8 ex_start [PowerGood Provisioned; VerificationPassed ex_A;
      VerificationPassed ex_B; VerificationPassed ex_C; CorruptionDetected ex_C;
      CorruptionDetected ex_A]).1
    [ReadFirmware ex_A; VerifyFirmware ex_A; ReleaseReset ex_A; ReadFirmware ex_B;
     VerifyFirmware ex_B; ReleaseReset ex_B; ReadFirmware ex_C; VerifyFirmware ex_C;
     ReleaseReset ex_C; AssertReset ex_C]); [apply ex_board_ok|].
  vm_compute. reflexivity.
Defined.

(** C33: The effect buffer never overflows.  From every reachable state one
    event emits at most [2 * chain.len() + 1] effects, so with the
    [E >= 2 * N + 2] the build asserts the dead [Err] arm of [Sink::emit] is
    dead: the buffer holds every emitted effect, in order. *)
Theorem effect_buffer_never_overflows N E c max_retry o ev :
  board_ok N E c max_retry → reachable N E c max_retry o →
  step N E o ev = step_emits N o ev ∧
  (length (step_emits N o ev).2 ≤ 2 * length (chain (rot o)) + 1)%nat.
Proof.
  intros Hb Hr. split; [by eapply reachable_step|].
  destruct (reachable_inv _ _ _ _ _ Hb Hr) as [g Hinv].
  destruct (step_emits N o ev) as [o' l] eqn:Hs. by eapply step_emits_bound.
Qed.

Lemma effect_buffer_never_overflows_witness :
  step 3 8 ex_start (PowerGood Provisioned) = step_emits 3 ex_start (PowerGood Provisioned).
Proof.
  apply (effect_buffer_never_overflows 3 8 ex_chain 2 ex_start (PowerGood Provisioned)).
  - apply ex_board_ok.
  - exists [], []. reflexivity.
Defined.

(** C34: The storage stays well-formed.  In every reachable state the status
    records parallel the chain, the cursor is within [0 ..= chain.len()], retry
    counts are [u8]s, the configured chain and retry budget are untouched, and
    every index the machine looks a status up with is in range: the indexing
    [self.statuses[i]] never panics. *)
Theorem reachable_storage_well_formed N E c max_retry o :
  board_ok N E c max_retry → reachable N E c max_retry o →
  rot_wf N (rot o) ∧ chain (rot o) = entries c ∧
  (∀ id i, status_index (rot o) id = Some i → (i < length (statuses (rot o)))%nat).
Proof.
  intros Hb Hr. destruct (reachable_inv _ _ _ _ _ Hb Hr) as [g [Hwf _ _]].
  split; [done|]. split; [|intros; by eapply status_index_in_range].
  eapply (reachable_ind_inv N E c max_retry (λ o, chain (rot o) = entries c)); try done.
  intros g0 o0 ev o' l Hinv Hc Hs.
  destruct (step_emits_keeps _ _ _ _ _ Hs (inv_wf _ _ _ Hinv)) as [_ Hle].
  by rewrite (le_chain _ _ Hle).
Qed.

Lemma reachable_storage_well_formed_witness : rot_wf 3 (rot ex_start).
Proof.
  apply (reachable_storage_well_formed 3 8 ex_chain 2 ex_start ex_board_ok).
  exists [], []. reflexivity.
Defined.
