(* ===== verification/SmCascade.v ===== *)
(** * The cascade

    [Rot::cascade_hold] against its specification: it isolates exactly the
    components that depend, directly or through others, on the root and were
    still in service; each gets one [AssertReset] followed by one
    [ReportIsolated]; nothing else changes.  The breadth-first loop runs at
    most [N] rounds. *)

From S2P Require Import Prelude SmModel SmCore SmInv SmTrace SmSafety.
From stdpp Require Import base tactics list numbers strings sets.
Local Open Scope nat_scope.

(** ** Specification *)

(** The components a hold of [root] reaches along [depends_on]. *)
Inductive reached (es : list entry) (root : ComponentId) : ComponentId → Prop :=
| reached_root : reached es root root
| reached_dependent id a holder :
    (id, a) ∈ es → depends_on a = Some holder → reached es root holder →
    reached es root id.

Definition gate_effects (L : list ComponentId) : list Effect :=
  L ≫= λ id, [AssertReset id; ReportIsolated id].

Definition in_service_of (r : Rot) (id : ComponentId) : Prop := is_gated r id = false.

#[export] Instance in_service_of_dec r id : Decision (in_service_of r id).
Proof. unfold in_service_of. apply _. Defined.

(** [r'] is [r] with exactly the components [L] newly isolated, [l] the log. *)
Record gated_exactly (r : Rot) (L : list ComponentId) (r' : Rot) (l : list Effect) :
    Prop := {
  ge_log : l = gate_effects L;
  ge_chain : chain r' = chain r;
  ge_cursor : cursor r' = cursor r;
  ge_max_retry : max_retry r' = max_retry r;
  ge_pending : pending_commit r' = pending_commit r;
  ge_status id : status_of r' id =
    if decide (id ∈ L) then gate_status <$> status_of r id else status_of r id;
}.

(** ** Gating a list of components *)

Lemma gated_exactly_refl r : gated_exactly r [] r [].
Proof. split; try done. Qed.

Lemma gated_exactly_gated r L r' l id :
  gated_exactly r L r' l → id ∉ L → is_gated r' id = is_gated r id.
Proof. intros H Hn. by rewrite !is_gated_alt, (ge_status _ _ _ _ H), decide_False. Qed.

Lemma gated_exactly_trans r1 L1 r2 l1 L2 r3 l2 :
  gated_exactly r1 L1 r2 l1 → gated_exactly r2 L2 r3 l2 → (∀ id, id ∈ L1 → id ∉ L2) →
  gated_exactly r1 (L1 ++ L2) r3 (l1 ++ l2).
Proof.
  intros [] [] Hdisj. split; [|congruence..|].
  - subst. unfold gate_effects. by rewrite bind_app.
  - intros id. rewrite ge_status1, ge_status0.
    repeat case_decide; set_solver.
Qed.

Lemma gate_one_exactly id r :
  wp (gate_one id) (λ _ r' l,
    gated_exactly r (filter (in_service_of r) [id]) r' l) r.
Proof.
  unfold gate_one. wp_steps. rewrite filter_cons, filter_nil.
  destruct (decide (in_service_of r id)) as [Hs|Hs]; unfold in_service_of in Hs.
  - rewrite Hs. unfold emit. wp_steps.
    split; autorewrite with rot; try done. intros id'.
    rewrite status_of_with_status. repeat case_decide; set_solver.
  - apply not_false_iff_true in Hs. rewrite Hs. wp_steps. apply gated_exactly_refl.
Qed.

Section cascade.
Context (N : nat).

Lemma gate_dependents_exactly ds frontier r :
  NoDup ds → length (frontier ++ ds) ≤ N →
  wp (gate_dependents N ds frontier) (λ f r' l,
    f = frontier ++ ds ∧ gated_exactly r (filter (in_service_of r) ds) r' l) r.
Proof.
  revert frontier r. induction ds as [|id ds IH]; intros frontier r Hnd Hlen; simpl.
  { wp_steps. rewrite app_nil_r. split; [done|]. apply gated_exactly_refl. }
  apply NoDup_cons in Hnd as [Hid Hnd]. rewrite length_app in Hlen. simpl in Hlen.
  wp_steps. eapply wp_mono; [apply gate_one_exactly|].
  intros b r1 l1 H1; cbn beta in *. eapply wp_mono.
  { apply IH; [done|]. rewrite vec_push_fits by lia. rewrite !length_app. simpl. lia. }
  intros f r2 l2 [-> H2]; cbn beta. split.
  { rewrite vec_push_fits by lia. by rewrite <- app_assoc. }
  assert (filter (in_service_of r1) ds = filter (in_service_of r) ds) as Hf.
  { apply filter_ext_elem. intros x Hx. unfold in_service_of.
    rewrite (gated_exactly_gated _ _ _ _ _ H1); [done|].
    rewrite list_elem_of_filter, list_elem_of_singleton. by intros [_ ->]. }
  rewrite Hf in H2.
  replace (filter (in_service_of r) (id :: ds))
    with (filter (in_service_of r) [id] ++ filter (in_service_of r) ds)
    by (by rewrite <- filter_app).
  eapply gated_exactly_trans; [done..|]. intros x.
  rewrite !list_elem_of_filter, list_elem_of_singleton. naive_solver.
Qed.

(** The dependents found in one round, while the bounded vector has room. *)
Lemma dependents_of_eq es frontier holder :
  length es ≤ N →
  dependents_of N es frontier holder =
    (filter (λ e, depends_on e.2 = Some holder ∧ e.1 ∉ frontier) es).*1.
Proof.
  intros Hlen. unfold dependents_of.
  cut (∀ acc, length acc + length es ≤ N →
    foldl (λ ds e, if bool_decide (depends_on e.2 = Some holder)
        && negb (bool_decide (e.1 ∈ frontier)) then vec_push N ds e.1 else ds) acc es
    = acc ++ (filter (λ e, depends_on e.2 = Some holder ∧ e.1 ∉ frontier) es).*1).
  { intros H. by rewrite (H []). }
  clear Hlen. induction es as [|e es IH]; intros acc Hlen; simpl in *.
  { by rewrite app_nil_r. }
  rewrite filter_cons. destruct (decide _) as [[Hd Hf]|Hn].
  - rewrite bool_decide_true, bool_decide_false by done. simpl.
    rewrite vec_push_fits by lia. rewrite IH by (rewrite length_app; simpl; lia).
    by rewrite <- app_assoc.
  - rewrite <- IH by lia. f_equal.
    repeat case_bool_decide; simpl; try done. naive_solver.
Qed.

(** ** The breadth-first loop *)

(** [frontier] holds reached components only, and the first [i] of them have
    all their dependents on it. *)
Record frontier_ok (es : list entry) (root : ComponentId) (i : nat)
    (frontier : list ComponentId) : Prop := {
  fr_NoDup : NoDup frontier;
  fr_chain id : id ∈ frontier → id ∈ es.*1;
  fr_reached id : id ∈ frontier → reached es root id;
  fr_root : root ∈ frontier;
  fr_closed j holder id a : j < i → frontier !! j = Some holder →
    (id, a) ∈ es → depends_on a = Some holder → id ∈ frontier;
}.

Lemma frontier_length es root i frontier :
  frontier_ok es root i frontier → length frontier ≤ length es.
Proof.
  intros []. rewrite <- (length_fmap fst es). apply submseteq_length.
  by apply NoDup_submseteq.
Qed.

(** At the end of the loop the frontier is everything the root reaches. *)
Lemma frontier_complete es root i frontier :
  frontier_ok es root i frontier → frontier !! i = None →
  ∀ id, id ∈ frontier ↔ reached es root id.
Proof.
  intros Hok Hnone id. split; [apply (fr_reached _ _ _ _ Hok)|].
  apply lookup_ge_None in Hnone.
  induction 1 as [|id a holder Hin Hdep _ IH]; [apply (fr_root _ _ _ _ Hok)|].
  apply list_elem_of_lookup in IH as [j Hj].
  eapply (fr_closed _ _ _ _ Hok); eauto.
  apply lookup_lt_Some in Hj. lia.
Qed.

(** One round. *)
Lemma frontier_round es root i frontier holder :
  NoDup es.*1 → length es ≤ N → frontier_ok es root i frontier →
  frontier !! i = Some holder →
  let ds := dependents_of N es frontier holder in
  NoDup (frontier ++ ds) ∧ frontier_ok es root (S i) (frontier ++ ds).
Proof.
  intros Hnd Hlen Hok Hi. simpl. rewrite dependents_of_eq by done.
  set (ds := (filter _ es).*1).
  assert (∀ id, id ∈ ds ↔ (id ∉ frontier) ∧ ∃ a, (id, a) ∈ es ∧ depends_on a = Some holder)
    as Hds.
  { intros id. subst ds. rewrite list_elem_of_fmap. split.
    - intros ([id' a] & -> & [[Hd Hf] Hin]%list_elem_of_filter). simpl in *. eauto.
    - intros (Hf & a & Hin & Hd). exists (id, a). split; [done|].
      by apply list_elem_of_filter. }
  assert (NoDup ds) as Hndds.
  { subst ds. eapply sublist_NoDup; [exact Hnd|]. apply fmap_sublist, sublist_filter. }
  assert (NoDup (frontier ++ ds)) as Hndf.
  { apply list.NoDup_app. split; [apply (fr_NoDup _ _ _ _ Hok)|]. split; [|done].
    intros id Hid [? _]%Hds. done. }
  split; [done|]. split; [done|..].
  - intros id [Hid|(_ & a & Hin & _)%Hds]%elem_of_app.
    + by apply (fr_chain _ _ _ _ Hok).
    + apply list_elem_of_fmap. by exists (id, a).
  - intros id [Hid|(_ & a & Hin & Hd)%Hds]%elem_of_app.
    + by apply (fr_reached _ _ _ _ Hok).
    + eapply reached_dependent; eauto. apply (fr_reached _ _ _ _ Hok).
      by eapply list_elem_of_lookup_2.
  - apply elem_of_app. left. apply (fr_root _ _ _ _ Hok).
  - intros j h id a Hj Hlk Hin Hd. apply elem_of_app.
    destruct (decide (id ∈ frontier)) as [|Hnf]; [by left|]. right. apply Hds.
    split; [done|]. exists a. split; [done|].
    pose proof (lookup_lt_Some _ _ _ Hi) as Hlt.
    rewrite lookup_app_l in Hlk by lia.
    destruct (decide (j = i)) as [->|]; [congruence|].
    destruct Hnf. eapply (fr_closed _ _ _ _ Hok j h); eauto. lia.
Qed.

Lemma cascade_loop_exactly root fuel i frontier r0 r l0 :
  rot_wf N r0 → frontier_ok (chain r0) root i frontier →
  gated_exactly r0 (filter (in_service_of r0) frontier) r l0 →
  N ≤ fuel + i →
  wp (cascade_loop N fuel i frontier) (λ res r' l, ∃ f, res = Some f ∧ NoDup f ∧
    (∀ id, id ∈ f ↔ reached (chain r0) root id) ∧
    gated_exactly r0 (filter (in_service_of r0) f) r' (l0 ++ l)) r.
Proof.
  intros Hwf. revert i frontier r l0.
  induction fuel as [|fuel IH]; intros i frontier r l0 Hok Hge Hfuel; simpl;
    destruct (frontier !! i) as [holder|] eqn:Hi; wp_steps;
    try (exists frontier; rewrite app_nil_r; split; [done|];
         split; [apply (fr_NoDup _ _ _ _ Hok)|]; split; [by eapply frontier_complete|done]).
  - pose proof (frontier_length _ _ _ _ Hok). pose proof (wf_cap _ _ Hwf).
    apply lookup_lt_Some in Hi. lia.
  - rewrite (ge_chain _ _ _ _ Hge).
    destruct (frontier_round (chain r0) root i frontier holder) as [Hnd Hok'];
      [by eapply wf_NoDup|by eapply wf_cap|done|done|].
    set (ds := dependents_of N (chain r0) frontier holder) in *.
    pose proof (frontier_length _ _ _ _ Hok') as Hlen. pose proof (wf_cap _ _ Hwf).
    pose proof Hnd as (_ & Hdisj & Hndds)%list.NoDup_app.
    eapply wp_mono; [apply gate_dependents_exactly; [done|lia]|].
    intros f r1 l1 [-> H1]; cbn beta.
    eapply wp_mono; [eapply (IH (S i) (frontier ++ ds) r1 (l0 ++ l1)); [done| |lia]|].
    + rewrite filter_app. eapply gated_exactly_trans; [done| |].
      * erewrite filter_ext_elem; [exact H1|]. intros id Hid. unfold in_service_of.
        rewrite (gated_exactly_gated _ _ _ _ _ Hge); [done|].
        rewrite list_elem_of_filter. intros [_ ?]. by apply (Hdisj id).
      * intros id. rewrite !list_elem_of_filter. intros [_ ?] [_ ?]. by apply (Hdisj id).
    + intros res r2 l2 (f & -> & ?). cbn beta in *. exists f. simpl. by rewrite app_assoc.
Qed.

(** [cascade_hold] isolates exactly what the root reaches. *)
Lemma cascade_hold_exactly root r :
  rot_wf N r → root ∈ (chain r).*1 →
  wp (cascade_hold N root) (λ _ r' l, ∃ L, NoDup L ∧
    (∀ id, id ∈ L ↔ reached (chain r) root id ∧ is_gated r id = false) ∧
    gated_exactly r L r' l) r.
Proof.
  intros Hwf Hin. unfold cascade_hold. wp_steps.
  eapply wp_mono; [apply gate_one_exactly|]. intros b r1 l1 H1; cbn beta in *. wp_steps.
  assert (vec_push N [] root = [root]) as ->.
  { rewrite vec_push_fits; [done|]. simpl. apply list_elem_of_lookup in Hin as [i Hi].
    apply lookup_lt_Some in Hi. rewrite length_fmap in Hi.
    pose proof (wf_cap _ _ Hwf). lia. }
  eapply wp_mono; [eapply (cascade_loop_exactly root (S N) 0 [root] r r1 l1)|]; [done| |done|lia|].
  { split; [apply NoDup_singleton|..].
    - by intros id ->%list_elem_of_singleton.
    - intros id ->%list_elem_of_singleton. constructor.
    - by apply list_elem_of_singleton.
    - intros; lia. }
  intros res r2 l2 (f & -> & Hnd & Hf & H2); cbn beta. wp_steps. rewrite app_nil_r.
  exists (filter (in_service_of r) f). split; [by apply NoDup_filter|]. split; [|done].
  intros id. rewrite list_elem_of_filter, Hf. unfold in_service_of. tauto.
Qed.
End cascade.

(** ** Properties *)

(** C27: The cascade isolates exactly the dependents.  [cascade_hold] on a
    component of the chain isolates exactly the components that name it in
    [depends_on], transitively, together with itself, and that were still in
    service -- through components that were isolated before, too; each of them
    gets its [AssertReset] and [ReportIsolated], once, and no other component,
    the cursor or any other field changes. *)
Theorem cascade_isolates_exactly_the_dependents N r root :
  rot_wf N r → root ∈ (chain r).*1 →
  let '(_, r', l) := cascade_hold N root r in
  ∃ L, NoDup L ∧
    (∀ id, id ∈ L ↔ reached (chain r) root id ∧ is_gated r id = false) ∧
    gated_exactly r L r' l.
Proof. exact (cascade_hold_exactly N root r). Qed.

Lemma cascade_isolates_exactly_the_dependents_witness :
  let '(_, r', l) := cascade_hold 3 ex_A (rot ex_start) in
  ∃ L, NoDup L ∧
    (∀ id, id ∈ L ↔ reached ex_entries ex_A id ∧ is_gated (rot ex_start) id = false) ∧
    gated_exactly (rot ex_start) L r' l.
Proof.
  apply (cascade_isolates_exactly_the_dependents 3 (rot ex_start) ex_A).
  - apply (inv_wf _ _ _ (board_init_inv _ _ _ _ ex_board_ok)).
  - vm_compute. left.
Defined.

(** The cascade terminates on its own.  [N] rounds are enough for the
    breadth-first loop: with any larger bound it ends with the same frontier,
    which lists every component the root reaches exactly once (so neither
    bounded vector of the loop ever drops a push). *)
Theorem cascade_loop_terminates N fuel r root :
  rot_wf N r → root ∈ (chain r).*1 → is_gated r root = true → (N ≤ fuel)%nat →
  ∃ f, (cascade_loop N fuel 0 [root] r).1.1 = Some f ∧ NoDup f ∧
    ∀ id, id ∈ f ↔ reached (chain r) root id.
Proof.
  intros Hwf Hin Hg Hfuel.
  pose proof (cascade_loop_exactly N root fuel 0 [root] r r [] Hwf) as H. unfold wp in H.
  destruct (cascade_loop N fuel 0 [root] r) as [[res r'] l].
  destruct H as (f & -> & Hnd & Hf & _); [| |lia|by exists f].
  - split; [apply NoDup_singleton|..|intros; lia].
    + by intros id ->%list_elem_of_singleton.
    + intros id ->%list_elem_of_singleton. constructor.
    + by apply list_elem_of_singleton.
  - rewrite filter_cons, filter_nil, decide_False; [apply gated_exactly_refl|].
    unfold in_service_of. by rewrite Hg.
Qed.

(** The example board with [ex_A] already held. *)
Definition ex_held : Rot := with_status ex_A gate_status (rot ex_start).

Lemma cascade_loop_terminates_witness :
  ∃ f, (cascade_loop 3 3 0 [ex_A] ex_held).1.1 = Some f ∧ NoDup f ∧
    ∀ id, id ∈ f ↔ reached ex_entries ex_A id.
Proof.
  apply (cascade_loop_terminates 3 3 ex_held ex_A).
  - apply (keeps_with_status 3 ex_A gate_status _ []); [done|done|].
    apply (inv_wf _ _ _ (board_init_inv _ _ _ _ ex_board_ok)).
  - vm_compute. left.
  - vm_compute. reflexivity.
  - lia.
Defined.
