(* ===== verification/SmDispatch.v ===== *)
(** * Dispatch: the machine and its platform

    [Orchestrator::dispatch_with] ([sm/src/lib.rs]): one outside event is
    settled together with every follow-up ([Effect::Emit]) and every event the
    platform returns, through a queue of [PENDING_CAP] events; a failed effect
    or a full queue latches [EffectFailed] at the front.  The platform is the
    interface [Platform], a type class; nothing is assumed of it for safety.

    The outer loop takes fuel and says whether it reached quiescence
    ([d_done]). *)

From S2P Require Import Prelude SmModel SmCore SmInv SmTrace SmBound SmSafety.
From stdpp Require Import base tactics list numbers strings sets.
Local Open Scope nat_scope.

Definition PENDING_CAP : nat := 8.

Inductive EffectError := mkEffectError.

(** The trait [Platform], with its state threaded explicitly. *)
Class Platform (P : Type) : Type :=
  execute : P → Effect → P * result (option Event) EffectError.

(** [Deque::push_back]: [None] when the queue is full. *)
Definition push_back (pending : list Event) (ev : Event) : option (list Event) :=
  if length pending <? PENDING_CAP then Some (pending ++ [ev]) else None.

(** The nested function [latch]. *)
Definition latch (pending : list Event) : list Event :=
  EffectFailed ::
    (if length pending =? PENDING_CAP then removelast pending else pending).

Section dispatch.
Context (N E : nat) {P : Type} `{Platform P}.

(** What the effects of one batch did: the platform, the queue, the [failed]
    flag, and the calls to [on_effect] with whether they succeeded. *)
Record BatchResult := mkBatch {
  b_platform : P;
  b_pending : list Event;
  b_failed : bool;
  b_trace : list (Effect * bool);
}.

Definition b_prepend (tr : list (Effect * bool)) (b : BatchResult) : BatchResult :=
  {| b_platform := b_platform b; b_pending := b_pending b;
     b_failed := b_failed b; b_trace := tr ++ b_trace b |}.

(** The loop over [buf.effects()]. *)
Fixpoint run_batch (effects : list Effect) (p : P) (pending : list Event)
    (failed : bool) : BatchResult :=
  match effects with
  | [] => {| b_platform := p; b_pending := pending; b_failed := failed; b_trace := [] |}
  | effect :: rest =>
      (* queue the follow-up, then the rest of the batch *)
      let continue p follow_up tr :=
        match follow_up with
        | None => b_prepend tr (run_batch rest p pending failed)
        | Some next =>
            match push_back pending next with
            | Some pending' => b_prepend tr (run_batch rest p pending' failed)
            | None =>
                if failed then b_prepend tr (run_batch rest p pending failed)
                else {| b_platform := p; b_pending := latch pending;
                        b_failed := true; b_trace := tr |}
            end
        end in
      match effect with
      | Emit internal => continue p (Some internal) []
      | external =>
          match execute p external with
          | (p', Ok follow_up) => continue p' follow_up [(external, true)]
          | (p', Err _) =>
              {| b_platform := p';
                 b_pending := if failed then pending else latch pending;
                 b_failed := true; b_trace := [(external, false)] |}
          end
      end
  end.

Record DispatchResult := mkDispatch {
  d_done : bool;
  d_orch : Orchestrator;
  d_platform : P;
  d_trace : list (Effect * bool);
}.

(** The [while let Some(ev) = pending.pop_front()] loop. *)
Fixpoint dispatch_loop (fuel : nat) (o : Orchestrator) (p : P)
    (pending : list Event) (failed : bool) : DispatchResult :=
  match pending with
  | [] => {| d_done := true; d_orch := o; d_platform := p; d_trace := [] |}
  | ev :: pending' =>
      match fuel with
      | O => {| d_done := false; d_orch := o; d_platform := p; d_trace := [] |}
      | S fuel' =>
          let '(o', effects) := step N E o ev in
          let b := run_batch effects p pending' failed in
          let d := dispatch_loop fuel' o' (b_platform b) (b_pending b) (b_failed b) in
          {| d_done := d_done d; d_orch := d_orch d; d_platform := d_platform d;
             d_trace := b_trace b ++ d_trace d |}
      end
  end.

(** [Orchestrator::dispatch]: [dispatch_with] on a platform. *)
Definition dispatch (fuel : nat) (o : Orchestrator) (p : P) (event : Event) :
    DispatchResult :=
  dispatch_loop fuel o p [event] false.

(** A board's event loop: one dispatch per outside event. *)
Fixpoint dispatch_all (fuel : nat) (o : Orchestrator) (p : P) (evs : list Event) :
    DispatchResult :=
  match evs with
  | [] => {| d_done := true; d_orch := o; d_platform := p; d_trace := [] |}
  | ev :: evs' =>
      let d := dispatch fuel o p ev in
      if d_done d then
        let d' := dispatch_all fuel (d_orch d) (d_platform d) evs' in
        {| d_done := d_done d'; d_orch := d_orch d'; d_platform := d_platform d';
           d_trace := d_trace d ++ d_trace d' |}
      else d
  end.

(** The effects handed to the platform, whether they succeeded or not. *)
Definition attempted (tr : list (Effect * bool)) : list Effect := tr.*1.

(** ** One batch *)

Definition is_external (e : Effect) : bool :=
  match e with Emit _ => false | _ => true end.

(** The calls of a batch are a prefix of its external effects; it ends early
    only on a failure, which is then the last call and has latched. *)
Record batch_ok (effects : list Effect) (pending : list Event) (failed : bool)
    (b : BatchResult) : Prop := {
  bo_prefix : ∃ ran rest, effects = ran ++ rest ∧
    attempted (b_trace b) = filter (λ e, is_external e = true) ran ∧
    (b_failed b = false → rest = []);
  bo_failed : failed = true → b_failed b = true;
  bo_pending : failed = b_failed b → ∃ more, b_pending b = pending ++ more;
  bo_latched : failed = false → b_failed b = true →
    head (b_pending b) = Some EffectFailed;
  bo_failure_last pre e post : b_trace b = pre ++ (e, false) :: post →
    post = [] ∧ b_failed b = true;
  bo_cap : length pending ≤ PENDING_CAP → length (b_pending b) ≤ PENDING_CAP;
}.

Lemma latch_cap pending :
  length pending ≤ PENDING_CAP → length (latch pending) ≤ PENDING_CAP.
Proof.
  intros Hle. unfold latch. simpl. destruct (length pending =? PENDING_CAP) eqn:Hl.
  - apply Nat.eqb_eq in Hl. destruct pending as [|ev pending _] using rev_ind; [done|].
    rewrite removelast_last. rewrite length_app in Hl. simpl in Hl. lia.
  - apply Nat.eqb_neq in Hl. lia.
Qed.

Lemma batch_ok_stop pending (failed : bool) p e rest :
  is_external e = true →
  batch_ok (e :: rest) pending failed
    {| b_platform := p; b_pending := if failed then pending else latch pending;
       b_failed := true; b_trace := [(e, false)] |}.
Proof.
  intros He. split; simpl.
  - exists [e], rest. split; [done|]. split; [|done].
    unfold attempted. simpl. by rewrite filter_cons, filter_nil, decide_True.
  - done.
  - intros ->. exists []. by rewrite app_nil_r.
  - by intros -> _.
  - intros [|? [|]] e' post [= ]; simplify_eq; done.
  - destruct failed; [done|]. apply latch_cap.
Qed.

Lemma batch_ok_cons e rest pending pending' failed tr b :
  batch_ok rest pending' failed b →
  tr = (if is_external e then [(e, true)] else []) →
  (∃ more, pending' = pending ++ more) →
  (length pending ≤ PENDING_CAP → length pending' ≤ PENDING_CAP) →
  batch_ok (e :: rest) pending failed (b_prepend tr b).
Proof.
  intros Hb -> [more ->] Hcap.
  destruct Hb as [(ran & rest' & Hrest & Hran & Hend) Hf Hp Hl Hlast Hc]. split; simpl.
  - exists (e :: ran), rest'. split; [by rewrite Hrest|]. split; [|done].
    unfold attempted in *. rewrite fmap_app, Hran, filter_cons.
    by destruct (is_external e).
  - done.
  - intros Heq. destruct (Hp Heq) as [more' ->]. exists (more ++ more'). by rewrite app_assoc.
  - done.
  - intros pre e' post Htr. destruct (is_external e); [|by eapply Hlast].
    destruct pre as [|x pre]; simpl in Htr; simplify_eq. by eapply Hlast.
  - auto.
Qed.

Lemma batch_ok_full e rest pending p tr :
  tr = (if is_external e then [(e, true)] else []) →
  batch_ok (e :: rest) pending false
    {| b_platform := p; b_pending := latch pending; b_failed := true; b_trace := tr |}.
Proof.
  intros ->. split; simpl; try done.
  - exists [e], rest. split; [done|]. split; [|done].
    unfold attempted. rewrite filter_cons, filter_nil. by destruct (is_external e).
  - intros pre e' post Htr. destruct (is_external e); [|by destruct pre].
    by destruct pre as [|? [|]]; simplify_eq/=.
  - apply latch_cap.
Qed.

Lemma run_batch_ok effects p pending failed :
  batch_ok effects pending failed (run_batch effects p pending failed).
Proof.
  revert p pending failed. induction effects as [|e rest IH]; intros p pending failed.
  { split; simpl; try done.
    - by exists [], [].
    - intros _. exists []. by rewrite app_nil_r.
    - naive_solver.
    - by intros [|? ?] ? ?. }
  assert (∀ p follow tr, tr = (if is_external e then [(e, true)] else []) →
    batch_ok (e :: rest) pending failed
      match follow with
      | None => b_prepend tr (run_batch rest p pending failed)
      | Some next =>
          match push_back pending next with
          | Some pending' => b_prepend tr (run_batch rest p pending' failed)
          | None => if failed then b_prepend tr (run_batch rest p pending failed)
              else {| b_platform := p; b_pending := latch pending;
                      b_failed := true; b_trace := tr |}
          end
      end) as Hcont.
  { intros p0 follow tr Htr.
    assert (∃ more, pending = pending ++ more) by (exists []; by rewrite app_nil_r).
    destruct follow as [next|]; [|by eapply batch_ok_cons].
    unfold push_back. destruct (length pending <? PENDING_CAP) eqn:Hlt.
    - eapply batch_ok_cons; [done|done|eauto|].
      intros _. apply Nat.ltb_lt in Hlt. rewrite length_app. simpl. lia.
    - destruct failed; [by eapply batch_ok_cons|by apply batch_ok_full]. }
  destruct e; simpl;
    try (destruct (execute p _) as [p' [follow|err]];
         [by apply Hcont|by apply batch_ok_stop]).
  by apply (Hcont p (Some e)).
Qed.

(** ** Steps that matter to the latch *)

Lemma step_locked r ev :
  step N E {| rot := r; state := Locked |} ev = ({| rot := r; state := Locked |}, []).
Proof.
  unfold step, step_emits.
  destruct (component_id ev) as [id|]; [destruct (negb _)|]; done.
Qed.

Lemma step_effect_failed o :
  E ≥ 1 →
  step N E o EffectFailed =
    ({| rot := rot o; state := Locked |},
     if decide (state o = Locked) then [] else [LatchLockdown]).
Proof.
  intros HE. destruct o as [r st].
  assert (Sink_effects E [LatchLockdown] = [LatchLockdown]) as Hsink
    by (unfold Sink_effects; simpl; by rewrite vec_push_fits by (simpl; lia)).
  assert (step_emits N {| rot := r; state := st |} EffectFailed =
    ({| rot := r; state := Locked |},
     if decide (st = Locked) then [] else [LatchLockdown])) as Hs by (by destruct st).
  unfold step. rewrite Hs. simpl. by case_decide; rewrite ?Hsink.
Qed.

(** ** The monitor and the executed effects *)

Lemma monitors_external g l :
  monitors g (filter (λ e, is_external e = true) l) = monitors g l.
Proof.
  revert g. induction l as [|e l IH]; intros g; [done|].
  rewrite filter_cons. destruct e; simpl; try (by case_match); try apply IH.
Qed.

Lemma accepted_prefix g l1 l2 (Q : mon → Prop) :
  accepted g (l1 ++ l2) Q → accepted g l1 (λ g1, accepted g1 l2 Q).
Proof.
  intros (g2 & Hm & HQ). rewrite monitors_app, bind_Some in Hm.
  destruct Hm as (g1 & Hm1 & Hm2). exists g1. split; [done|]. by exists g2.
Qed.

(** The loop invariant: monitor and machine agree until something failed; from
    then on the machine is locked, or locks with the very next event. *)
Definition in_sync (g : mon) (o : Orchestrator) (pending : list Event)
    (failed : bool) : Prop :=
  ∃ g1, inv N g1 o ∧
    (failed = false ∧ g1 = g ∨
     failed = true ∧ (state o = Locked ∨ head pending = Some EffectFailed)).

Lemma attempted_latch_only effects p pending failed :
  effects = [] ∨ effects = [LatchLockdown] →
  ∀ g, monitors g (attempted (b_trace (run_batch effects p pending failed))) = Some g.
Proof.
  intros [->| ->] g; [done|]. simpl.
  destruct (execute p LatchLockdown) as [p' [[next|]|]]; simpl; try done.
  destruct (push_back pending next); [done|]. by destruct failed.
Qed.

(** Once something failed, one round leaves the machine locked. *)
Lemma failed_round o ev pending p o' effects :
  E ≥ 1 → state o = Locked ∨ head (ev :: pending) = Some EffectFailed →
  step N E o ev = (o', effects) →
  rot o' = rot o ∧ state o' = Locked ∧ (effects = [] ∨ effects = [LatchLockdown]) ∧
  b_failed (run_batch effects p pending true) = true.
Proof.
  intros HE Hor Hs.
  assert (b_failed (run_batch effects p pending true) = true) as Hf
    by (by apply (bo_failed _ _ _ _ (run_batch_ok effects p pending true))).
  destruct Hor as [Hl|[= ->]].
  - destruct o as [r st]. simpl in Hl. subst st. rewrite step_locked in Hs. simplify_eq. auto.
  - rewrite step_effect_failed in Hs by done. simplify_eq.
    repeat split; try done. case_decide; auto.
Qed.

Lemma inv_locked g o : rot_wf N (rot o) → agree g (rot o) → state o = Locked → inv N g o.
Proof. intros Hwf Hag Hl. split; [done|done|]. by rewrite Hl. Qed.

Lemma dispatch_loop_sync fuel g o p pending failed :
  E ≥ 2 * N + 2 → in_sync g o pending failed →
  let d := dispatch_loop fuel o p pending failed in
  accepted g (attempted (d_trace d)) (λ g', ∃ g1, inv N g1 (d_orch d) ∧
    (d_done d = true → g1 = g' ∨ state (d_orch d) = Locked)).
Proof.
  intros HE. revert g o p pending failed.
  induction fuel as [|fuel IH]; intros g o p pending failed (g1 & Hinv & Hcase);
    (destruct pending as [|ev pending];
      [simpl; apply accepted_nil; exists g1; split; [done|]; naive_solver|]); simpl.
  { apply accepted_nil. by exists g1. }
  destruct (step N E o ev) as [o' effects] eqn:Hs. simpl.
  pose proof (run_batch_ok effects p pending failed) as Hb.
  unfold attempted. rewrite fmap_app. apply accepted_app.
  destruct Hcase as [[-> ->]|[-> Hlk]].
  - destruct (step_inv _ _ _ _ _ _ _ HE Hinv Hs) as (g2 & Hm2 & Hinv2).
    destruct (bo_prefix _ _ _ _ Hb) as (ran & rest & Heff & Hran & Hend).
    destruct (accepted_prefix g ran rest (λ g', g' = g2)) as (g3 & Hm3 & g4 & Hm4 & ->).
    { rewrite <- Heff. by exists g2. }
    exists g3. unfold attempted in Hran. rewrite Hran, monitors_external. split; [done|].
    apply IH. exists g2. split; [done|].
    destruct (b_failed (run_batch effects p pending false)) eqn:Hf.
    + right. split; [done|]. right. by apply (bo_latched _ _ _ _ Hb).
    + left. split; [done|]. rewrite (Hend eq_refl) in Hm4. by simplify_eq/=.
  - destruct (failed_round o ev pending p o' effects) as (Hr & Hl & Heff & Hf);
      [lia|done|done|].
    exists g. split; [by apply attempted_latch_only|]. apply IH. exists g1. split.
    + destruct Hinv. apply inv_locked; by rewrite ?Hr.
    + right. split; [done|by left].
Qed.

Lemma in_sync_start g o p ev g1 :
  inv N g1 o → g1 = g ∨ state o = Locked →
  ∀ fuel, E ≥ 2 * N + 2 →
  let d := dispatch fuel o p ev in
  accepted g (attempted (d_trace d)) (λ g', ∃ g1, inv N g1 (d_orch d) ∧
    (d_done d = true → g1 = g' ∨ state (d_orch d) = Locked)).
Proof.
  intros Hinv [->|Hl] fuel HE.
  - apply dispatch_loop_sync; [done|]. exists g. auto.
  - unfold dispatch. destruct o as [r st]. simpl in Hl. subst st.
    destruct fuel as [|[|fuel]]; simpl; try rewrite step_locked; simpl;
      apply accepted_nil; exists g1; auto.
Qed.

(** Whatever the platform answers, the effects it was handed since power-on are
    accepted by the monitor. *)
Lemma dispatch_all_accepted fuel g o p evs g1 :
  E ≥ 2 * N + 2 → inv N g1 o → g1 = g ∨ state o = Locked →
  accepted g (attempted (d_trace (dispatch_all fuel o p evs))) (λ _, True).
Proof.
  intros HE. revert g g1 o p. induction evs as [|ev evs IH]; intros g g1 o p Hinv Hor.
  { by apply accepted_nil. }
  pose proof (in_sync_start g o p ev g1 Hinv Hor fuel HE) as (g' & Hm & g2 & Hinv2 & Hor2).
  simpl. destruct (d_done (dispatch fuel o p ev)) eqn:Hd.
  - simpl. unfold attempted. rewrite fmap_app. apply accepted_app. exists g'.
    split; [done|]. eapply IH; [done|]. auto.
  - by exists g'.
Qed.

(** ** Fail closed, fail fast *)

Lemma locked_drains fuel r p pending failed :
  length pending ≤ fuel →
  dispatch_loop fuel {| rot := r; state := Locked |} p pending failed =
    {| d_done := true; d_orch := {| rot := r; state := Locked |};
       d_platform := p; d_trace := [] |}.
Proof.
  revert fuel. induction pending as [|ev pending IH]; intros fuel Hf.
  { by destruct fuel. }
  destruct fuel as [|fuel]; [simpl in Hf; lia|].
  cbn [dispatch_loop]. rewrite step_locked. simpl. rewrite IH; [done|]. simpl in Hf. lia.
Qed.

Lemma locked_silent fuel r p pending failed :
  d_trace (dispatch_loop fuel {| rot := r; state := Locked |} p pending failed) = [].
Proof.
  revert pending. induction fuel as [|fuel IH]; intros [|ev pending]; try done.
  cbn [dispatch_loop]. rewrite step_locked. simpl. apply IH.
Qed.

(** The only call that may follow a failed one. *)
Definition latch_call_only (tr : list (Effect * bool)) : Prop :=
  tr = [] ∨ ∃ ok, tr = [(LatchLockdown, ok)].

(** With [EffectFailed] at the front of the queue the machine locks, hands the
    platform nothing but [LatchLockdown], and drains its queue. *)
Lemma latched_finishes fuel o p pending :
  E ≥ 1 → length pending ≤ PENDING_CAP → head pending = Some EffectFailed →
  S PENDING_CAP ≤ fuel →
  let d := dispatch_loop fuel o p pending true in
  d_done d = true ∧ state (d_orch d) = Locked ∧ latch_call_only (d_trace d).
Proof.
  intros HE Hcap Hhead Hfuel.
  destruct pending as [|ev pending]; [done|]. simpl in Hhead. simplify_eq.
  destruct fuel as [|fuel]; [lia|]. cbn [dispatch_loop].
  rewrite step_effect_failed by done.
  set (effects := if decide (state o = Locked) then [] else [LatchLockdown]).
  pose proof (run_batch_ok effects p pending true) as Hb.
  rewrite locked_drains.
  - simpl. split; [done|]. split; [done|]. rewrite app_nil_r. subst effects.
    unfold latch_call_only. case_decide; [by left|]. right. simpl.
    destruct (execute p LatchLockdown) as [p' [[next|]|err]]; simpl; [|eauto..].
    destruct (push_back pending next); simpl; eauto.
  - etrans; [apply (bo_cap _ _ _ _ Hb)|]; simpl in *; lia.
Qed.

(** ... and its trace does not depend on the fuel. *)
Lemma latched_trace fuel fuel' o p pending :
  E ≥ 1 → head pending = Some EffectFailed → 1 ≤ fuel → 1 ≤ fuel' →
  d_trace (dispatch_loop fuel o p pending true) =
  d_trace (dispatch_loop fuel' o p pending true).
Proof.
  intros HE Hhead Hf Hf'. destruct pending as [|ev pending]; [done|].
  simpl in Hhead. simplify_eq. destruct fuel as [|fuel], fuel' as [|fuel']; try lia.
  cbn [dispatch_loop]. rewrite step_effect_failed by done. simpl.
  by rewrite !locked_silent.
Qed.

Lemma run_batch_failed_trace effects p pending failed pre e post :
  b_trace (run_batch effects p pending failed) = pre ++ (e, false) :: post →
  b_failed (run_batch effects p pending failed) = true ∧ post = [].
Proof. intros H'. by destruct (bo_failure_last _ _ _ _ (run_batch_ok effects p pending failed) _ _ _ H'). Qed.

(** A failed call seen with some fuel: nine more rounds settle the dispatch. *)
Lemma dispatch_loop_fail_closed fuel fuel' o p pending e :
  E ≥ 1 → length pending ≤ PENDING_CAP →
  (e, false) ∈ d_trace (dispatch_loop fuel o p pending false) →
  fuel + S PENDING_CAP ≤ fuel' →
  let d := dispatch_loop fuel' o p pending false in
  d_done d = true ∧ state (d_orch d) = Locked ∧
  ∃ pre e' post, d_trace d = pre ++ (e', false) :: post ∧ latch_call_only post ∧
    Forall (λ c, c.2 = true) pre.
Proof.
  intros HE. revert fuel' o p pending.
  induction fuel as [|fuel IH]; intros fuel' o p pending Hcap Hin Hfuel;
    (destruct pending as [|ev pending]; [by apply not_elem_of_nil in Hin|]).
  { by apply not_elem_of_nil in Hin. }
  destruct fuel' as [|fuel']; [lia|]. cbn [dispatch_loop] in *.
  destruct (step N E o ev) as [o' effects]. simpl in Hin |- *. simpl in Hcap.
  pose proof (run_batch_ok effects p pending false) as Hb.
  assert (length (b_pending (run_batch effects p pending false)) ≤ PENDING_CAP) as Hcap'
    by (apply (bo_cap _ _ _ _ Hb); lia).
  pose proof (run_batch_failed_trace effects p pending false) as Hfl.
  destruct (decide (Exists (λ c, c.2 = false) (b_trace (run_batch effects p pending false))))
    as [Hex|Hnex].
  - apply Exists_exists in Hex as ([e' ok] & Hin' & Hok). simpl in Hok. subst ok.
    apply list_elem_of_split in Hin' as (pre & post & Htr).
    destruct (Hfl _ _ _ Htr) as [Hf ->].
    assert (Forall (λ c, c.2 = true) pre) as Hpre.
    { apply Forall_forall. intros [e1 []] H1; [done|]. exfalso.
      apply list_elem_of_split in H1 as (p1 & p2 & ->).
      rewrite <- app_assoc in Htr. simpl in Htr.
      destruct (Hfl _ _ _ Htr) as [_ Hnil]. by destruct p2. }
    rewrite Hf, Htr.
    destruct (latched_finishes fuel' o' (b_platform (run_batch effects p pending false))
      (b_pending (run_batch effects p pending false))) as (H1 & H2 & H3);
      [done|done|by apply (bo_latched _ _ _ _ Hb)|lia|].
    split; [done|]. split; [done|]. exists pre, e', (d_trace
      (dispatch_loop fuel' o' (b_platform (run_batch effects p pending false))
        (b_pending (run_batch effects p pending false)) true)).
    by rewrite <- app_assoc.
  - apply not_Exists_Forall in Hnex; [|apply _].
    assert (Forall (λ c, c.2 = true) (b_trace (run_batch effects p pending false))) as Hall.
    { eapply Forall_impl; [exact Hnex|]. intros [? []]; simpl; congruence. }
    apply elem_of_app in Hin as [Hin|Hin].
    { rewrite Forall_forall in Hall. by apply Hall in Hin. }
    destruct (b_failed (run_batch effects p pending false)) eqn:Hf.
    + (* latched by a full queue: the failed call is [LatchLockdown] *)
      pose proof (bo_latched _ _ _ _ Hb eq_refl Hf) as Hhead.
      destruct fuel as [|fuel].
      { exfalso. revert Hin. simpl. destruct (b_pending _); apply not_elem_of_nil. }
      rewrite (latched_trace _ fuel') in Hin by (done || lia).
      edestruct (latched_finishes fuel' o') as (H1 & H2 & H3);
        [exact HE|exact Hcap'|exact Hhead|lia|].
      split; [exact H1|]. split; [exact H2|].
      destruct H3 as [H3|[ok H3]]; rewrite H3 in Hin |- *;
        [by apply not_elem_of_nil in Hin|].
      apply list_elem_of_singleton in Hin. simplify_eq.
      eexists _, LatchLockdown, []. split; [reflexivity|]. split; [by left|done].
    + destruct (IH fuel' o' _ _ Hcap' Hin) as (H1 & H2 & pre & e' & post & Htr & H3 & H4);
        [lia|].
      split; [done|]. split; [done|].
      exists (b_trace (run_batch effects p pending false) ++ pre), e', post.
      rewrite Htr, <- app_assoc. split; [done|]. split; [done|]. by apply Forall_app.
Qed.

(** What every execution preserves of the platform, a dispatch preserves. *)
Lemma run_batch_platform (I : P → Prop) effects p pending failed :
  (∀ p e, I p → I (execute p e).1) → I p →
  I (b_platform (run_batch effects p pending failed)).
Proof.
  intros Hex. revert p pending failed.
  induction effects as [|e effects IH]; intros p pending failed Hp; simpl; [done|].
  assert (∀ p follow tr, I p → I (b_platform
    match follow with
    | None => b_prepend tr (run_batch effects p pending failed)
    | Some next =>
        match push_back pending next with
        | Some pending' => b_prepend tr (run_batch effects p pending' failed)
        | None => if failed then b_prepend tr (run_batch effects p pending failed)
            else {| b_platform := p; b_pending := latch pending;
                    b_failed := true; b_trace := tr |}
        end
    end)) as Hcont.
  { intros p0 [next|] tr Hp0; [|by apply IH].
    destruct (push_back pending next); [by apply IH|]. destruct failed; [by apply IH|done]. }
  assert (∀ p' r, execute p e = (p', r) → I p') as Hp'.
  { intros p' r Hx. specialize (Hex p e Hp). by rewrite Hx in Hex. }
  destruct e; try exact (Hcont p (Some _) [] Hp);
    (destruct (execute p _) as [p' [follow|]] eqn:Hx; specialize (Hp' _ _ eq_refl);
     [by apply Hcont|done]).
Qed.

Lemma dispatch_platform (I : P → Prop) fuel o p pending failed :
  (∀ p e, I p → I (execute p e).1) → I p →
  I (d_platform (dispatch_loop fuel o p pending failed)).
Proof.
  intros Hex. revert o p pending failed.
  induction fuel as [|fuel IH]; intros o p [|ev pending] failed Hp; try done.
  cbn [dispatch_loop]. destruct (step N E o ev) as [o' effects].
  apply IH. by apply run_batch_platform.
Qed.
End dispatch.

(** ** Properties *)

(** A platform that carries out every effect and returns nothing; [unit] needs
    no state. *)
Definition silent_execute (p : unit) (_ : Effect) : unit * result (option Event) EffectError :=
  (p, Ok None).

(** A platform that fails on [VerifyFirmware]. *)
Definition broken_execute (p : unit) (e : Effect) : unit * result (option Event) EffectError :=
  match e with VerifyFirmware _ => (p, Err mkEffectError) | _ => (p, Ok None) end.

(** C26: Safety with any platform.  Whatever the platform answers -- failures,
    stale, misordered or forged events, queue overflows -- the effects handed to
    it since power-on, failed ones included, satisfy the three trace properties:
    releases are preceded by a fresh verification, verifications are of
    components at rest, isolated components are left alone. *)
Theorem dispatch_trace_safe (N E : nat) (P : Type) (plat : Platform P) c max_retry p fuel evs :
  board_ok N E c max_retry →
  let tr := attempted (d_trace
    (dispatch_all N E fuel (Orchestrator_new N c max_retry) p evs)) in
  (∀ pre id post, tr = pre ++ ReleaseReset id :: post → checked_fresh id pre) ∧
  (∀ pre id post, tr = pre ++ VerifyFirmware id :: post → at_rest id pre) ∧
  (∀ pre id post, tr = pre ++ ReportIsolated id :: post →
     Forall (λ e, handles_component id e = false) post).
Proof.
  intros Hb tr.
  destruct (dispatch_all_accepted N E fuel mon_init (Orchestrator_new N c max_retry) p evs
    mon_init) as (g & Hm & _);
    [by destruct Hb|by eapply board_init_inv|by left|]. fold tr in Hm.
  split; [|split]; intros pre id post Heq; rewrite Heq in Hm;
    apply monitors_split in Hm as (g1 & g2 & Hm1 & He & Hm2); simpl in He.
  - eapply checking_is_fresh; [done|]. by destruct (g1 id).
  - eapply not_live_at_rest; [done|]. by destruct (g1 id).
  - eapply isolated_for_good; [done|]. destruct (g1 id); simplify_eq. by rewrite mon_set_eq.
Qed.

Lemma dispatch_trace_safe_witness :
  checked_fresh ex_A [ReadFirmware ex_A; VerifyFirmware ex_A].
Proof.
  pose proof (dispatch_trace_safe 3 8 unit silent_execute ex_chain 2 () 5
    [PowerGood Provisioned; VerificationPassed ex_A] ex_board_ok) as [Hrel _].
  apply (Hrel [ReadFirmware ex_A; VerifyFirmware ex_A] ex_A
    [ReadFirmware ex_B; VerifyFirmware ex_B]).
  vm_compute. reflexivity.
Defined.

(** C2: Fail closed, fail fast.  If any call to the platform fails during a
    dispatch, the machine is in [Locked] when the dispatch is over, every call
    before the first failure had succeeded, and the only call the platform can
    still see after it is one [LatchLockdown]; the dispatch is over at the
    latest nine rounds after the failure. *)
Theorem dispatch_fail_closed (N E : nat) (P : Type) (plat : Platform P) fuel fuel' o p ev e :
  (E ≥ 1)%nat →
  (e, false) ∈ d_trace (dispatch N E fuel o p ev) →
  (fuel + S PENDING_CAP ≤ fuel')%nat →
  let d := dispatch N E fuel' o p ev in
  d_done d = true ∧ state (d_orch d) = Locked ∧
  ∃ pre e' post, d_trace d = pre ++ (e', false) :: post ∧ latch_call_only post ∧
    Forall (λ c, c.2 = true) pre.
Proof.
  intros HE Hin Hf. eapply (dispatch_loop_fail_closed N E fuel); [done| |done|done].
  unfold PENDING_CAP. simpl. lia.
Qed.

Lemma dispatch_fail_closed_witness :
  state (d_orch (dispatch 3 8 (H := broken_execute) 11 ex_start () (PowerGood Provisioned)))
    = Locked.
Proof.
  apply (dispatch_fail_closed 3 8 unit broken_execute 2 11 ex_start () (PowerGood Provisioned)
    (VerifyFirmware ex_A)).
  - lia.
  - vm_compute. right. left.
  - unfold PENDING_CAP. lia.
Defined.
