(* ===== verification/SmWalk.v ===== *)
(** * The chain walk, step by step

    What one verdict does to the machine, exactly; that a batch of effects
    carries at most one effect a follow-up can come from, and carries it last;
    that a dispatch reaches quiescence on every platform that returns nothing
    but verification verdicts ([VerdictPlatform], the interface
    [PlatformDriver] implements); and the cold boot, from power-good to
    [Ready], as one dispatch. *)

From S2P Require Import Prelude SmModel SmCore SmInv SmTrace SmBound SmSafety SmDispatch.
From stdpp Require Import base tactics list numbers strings sets.
Local Open Scope nat_scope.

(** ** Verdicts *)

(** The storage after the component at the cursor was released. *)
Definition released_rot (id : ComponentId) (r : Rot) : Rot :=
  with_status id (λ s, set_released true (set_awaiting_boot true s))
    (with_status id (set_retry 0%Z) r).

(** The state after a pass that found another component to check. *)
Definition state_after_pass (st : State) (id : ComponentId) (k : ComponentKind) : State :=
  match st, k with
  | PreSupervision, Active => AwaitingReady (Some id)
  | _, _ => st
  end.

Definition clear_retries (r : Rot) : Rot :=
  set_statuses (set_retry 0%Z <$> statuses r) r.

Section walk.
Context (N : nat).

Lemma released_rot_wf id r : rot_wf N r → rot_wf N (released_rot id r).
Proof.
  intros Hwf. apply (keeps_with_status N id _ _ []); [done|done|].
  apply (keeps_with_status N id _ _ []); [|done|done].
  intros s _ _. simpl. unfold in_u8, u8_MAX. lia.
Qed.

Lemma released_rot_gated id r id' :
  is_gated (released_rot id r) id' = is_gated r id'.
Proof.
  unfold released_rot. rewrite !is_gated_alt, !status_of_with_status.
  case_decide; [|done]. by destruct (status_of r id').
Qed.

Lemma released_rot_chain id r : chain (released_rot id r) = chain r.
Proof. unfold released_rot. by autorewrite with rot. Qed.

Lemma released_rot_cursor id r : cursor (released_rot id r) = cursor r.
Proof. unfold released_rot. by autorewrite with rot. Qed.

(** A pass for the component at the cursor releases it and moves on. *)
Inductive pass_outcome (r : Rot) (st : State) (id : ComponentId) (a : ComponentAttrs) :
    Orchestrator → list Effect → Prop :=
| pass_next i nid na :
    as_usize (cursor r) < i → chain r !! i = Some (nid, na) → is_gated r nid = false →
    (∀ j id' a', as_usize (cursor r) < j < i → chain r !! j = Some (id', a') →
       is_gated r id' = true) →
    pass_outcome r st id a
      {| rot := set_cursor (Z.of_nat i) (released_rot id r);
         state := state_after_pass st id (kind a) |}
      [ReleaseReset id; ReadFirmware nid; VerifyFirmware nid]
| pass_last :
    (∀ j id' a', as_usize (cursor r) < j → chain r !! j = Some (id', a') →
       is_gated r id' = true) →
    pass_outcome r st id a
      {| rot := clear_retries
           (set_cursor (Z.of_nat (length (chain r))) (released_rot id r));
         state := Ready |}
      [ReleaseReset id].

Lemma pass_step r st id a :
  rot_wf N r → walking st = true → cursor_entry r = Some (id, a) →
  wp (step_body N st (VerificationPassed id)) (λ st' r' l,
    pass_outcome r st id a {| rot := r'; state := st' |} l) r.
Proof.
  intros Hwf Hst Hcur.
  assert (bool_decide (fst <$> cursor_entry r = Some id) = true) as Hbd
    by (rewrite Hcur; by apply bool_decide_true).
  assert (cursor_entry (released_rot id r) = Some (id, a)) as Hcur'.
  { unfold cursor_entry. by rewrite released_rot_chain, released_rot_cursor. }
  unfold step_body. wp_steps.
  destruct st; try done; simpl; wp_steps; rewrite Hbd;
    unfold clear_retry, mark_released, emit; wp_steps; fold (released_rot id r);
    (eapply wp_advance; [by apply released_rot_wf|..];
     rewrite ?released_rot_chain, ?released_rot_cursor).
  - intros i nid na Hi Hlk Hg Hbet. rewrite Hcur'. simpl.
    rewrite released_rot_gated in Hg.
    assert (∀ j id' a', as_usize (cursor r) < j < i → chain r !! j = Some (id', a') →
       is_gated r id' = true) as Hbet'.
    { intros j id' a' Hj Hlk'. rewrite <- (released_rot_gated id).
      eapply Hbet; [|done]. lia. }
    destruct (kind a) eqn:Hk; wp_steps; simpl;
      [replace (AwaitingReady (Some id)) with (state_after_pass PreSupervision id (kind a))
         by (by rewrite Hk)
      |replace PreSupervision with (state_after_pass PreSupervision id (kind a)) at 2
         by (by rewrite Hk)];
      (eapply pass_next; [lia|done..]).
  - intros Hall. wp_steps. apply pass_last. intros j id' a' Hj Hlk'.
    rewrite <- (released_rot_gated id). eapply Hall; [|done]. lia.
  - intros i nid na Hi Hlk Hg Hbet. rewrite released_rot_gated in Hg. wp_steps. simpl.
    replace (AwaitingReady awaiting)
      with (state_after_pass (AwaitingReady awaiting) id (kind a)) at 2 by done.
    eapply pass_next; [lia|done..|].
    intros j id' a' Hj Hlk'. rewrite <- (released_rot_gated id).
    eapply Hbet; [|done]. lia.
  - intros Hall. wp_steps. apply pass_last. intros j id' a' Hj Hlk'.
    rewrite <- (released_rot_gated id). eapply Hall; [|done]. lia.
Qed.

Lemma step_emits_in_chain o ev id :
  component_id ev = Some id → in_chain (rot o) id = true →
  step_emits N o ev =
    let '(st, r, l) := step_body N (state o) ev (rot o) in ({| rot := r; state := st |}, l).
Proof. unfold step_emits. by intros -> ->. Qed.

Lemma step_pass o id :
  rot_wf N (rot o) →
  step_emits N o (VerificationPassed id) = (o, []) ∨
  ∃ a o' l, walking (state o) = true ∧ cursor_entry (rot o) = Some (id, a) ∧
    step_emits N o (VerificationPassed id) = (o', l) ∧
    pass_outcome (rot o) (state o) id a o' l.
Proof.
  intros Hwf. destruct o as [r st]; simpl in *.
  destruct (in_chain r id) eqn:Hin; [|left; unfold step_emits; simpl; by rewrite Hin].
  rewrite (step_emits_in_chain _ _ id) by done. simpl.
  destruct (walking st) eqn:Hw; [|by left; destruct st].
  destruct (decide (fst <$> cursor_entry r = Some id)) as [Hc|Hc].
  - right. destruct (cursor_entry_id _ _ Hc) as (a & Hent & _).
    pose proof (pass_step r st id a Hwf Hw Hent) as Hp. unfold wp in Hp.
    destruct (step_body N st (VerificationPassed id) r) as [[st' r'] l].
    exists a, {| rot := r'; state := st' |}, l. done.
  - left. unfold step_body. destruct st; try done; simpl;
      unfold mbind, sw_bind; simpl; by rewrite bool_decide_false.
Qed.

Lemma recovering_entry id r :
  wp (entry_action (Recovering id)) (λ _ _ l, ∃ n, l = [RecoverComponent id n]) r.
Proof.
  simpl. unfold clear_awaiting_boot, emit. wp_steps. case_match; wp_steps; simpl; eauto.
Qed.

Lemma step_verification_failed o id :
  step_emits N o (VerificationFailed id) = (o, []) ∨
  ∃ r' n, walking (state o) = true ∧
    step_emits N o (VerificationFailed id) =
      ({| rot := r'; state := Recovering id |}, [RecoverComponent id n]).
Proof.
  destruct o as [r st]. unfold step_emits. simpl.
  destruct (in_chain r id) eqn:Hin; [simpl|by left].
  destruct (walking st) eqn:Hw; [|by left; destruct st].
  cut (wp (step_body N st (VerificationFailed id)) (λ st' r' l,
    (st' = st ∧ r' = r ∧ l = []) ∨
    (st' = Recovering id ∧ ∃ n, l = [RecoverComponent id n])) r).
  { unfold wp. destruct (step_body N st (VerificationFailed id) r) as [[st' r'] l].
    intros [(-> & -> & ->)|(-> & n & ->)]; eauto 10. }
  unfold step_body. wp_steps.
  destruct st; try done; cbn [handle handle_pre_supervision handle_awaiting_ready];
    wp_steps; destruct (is_gated r id); wp_steps; try (by left);
    (eapply wp_mono; [apply recovering_entry|]; intros [] r' l [n ->]; cbn beta;
     wp_steps; right; simpl; eauto).
Qed.

Lemma step_recovery_failed o :
  step_emits N o RecoveryFailed = (o, []) ∨
  step_emits N o RecoveryFailed = ({| rot := rot o; state := Locked |}, [LatchLockdown]).
Proof. destruct o as [r []]; auto. Qed.

(** ** Where follow-ups come from *)

(** The effects after which a verdict-only platform or the engine itself
    queues an event. *)
Definition is_source (e : Effect) : bool :=
  match e with VerifyFirmware _ | Emit _ => true | _ => false end.

Definition no_source (l : list Effect) : Prop := Forall (λ e, is_source e = false) l.

(** The only event the machine emits to itself is [RecoveryFailed]. *)
Definition source_last (l : list Effect) : Prop :=
  no_source l ∨ ∃ l0 e, l = l0 ++ [e] ∧ no_source l0 ∧
    ((∃ id, e = VerifyFirmware id) ∨ e = Emit RecoveryFailed).

Definition silent (_ : Rot) (l : list Effect) (_ : Rot) : Prop := no_source l.

#[export] Instance silent_log_preorder : LogPreorder silent.
Proof.
  split; unfold silent, no_source; [by constructor|]. intros. by apply Forall_app.
Qed.

Lemma gate_one_silent id r : wp (gate_one id) (λ _ r' l, no_source l ∧ chain r' = chain r) r.
Proof.
  unfold gate_one. wp_steps. destruct (is_gated r id); wp_steps; [by split; [constructor|]|].
  unfold emit. wp_steps. split; [|by autorewrite with rot].
  unfold no_source. simpl. by repeat constructor.
Qed.

Definition silent_chain (r : Rot) (l : list Effect) (r' : Rot) : Prop :=
  no_source l ∧ chain r' = chain r.

#[export] Instance silent_chain_log_preorder : LogPreorder silent_chain.
Proof.
  split; unfold silent_chain, no_source; [intros; split; [constructor|done]|].
  intros ????? [] []. split; [by apply Forall_app|congruence].
Qed.

Lemma gate_by_policy_silent id : respects silent (gate_by_policy N id).
Proof.
  intros r. eapply wp_mono; [apply (gate_by_policy_respects N silent_chain)|].
  - by intros ??? [].
  - intros. apply gate_one_silent.
  - by intros ??? [].
Qed.

Lemma handle_corruption_silent id : respects silent (handle_corruption N id).
Proof.
  intros r. eapply wp_mono; [apply (handle_corruption_respects N silent_chain)|].
  - by intros ??? [].
  - intros. apply gate_one_silent.
  - by intros ??? [].
Qed.

Lemma advance_source start : ∀ r,
  wp (advance_to_next_ungated start) (λ _ _ l, source_last l) r.
Proof.
  intros r. unfold advance_to_next_ungated. wp_steps. simpl.
  generalize (drop start (chain r)) as rest. intros rest.
  revert start. induction rest as [|[id a] rest IH]; intros start; simpl; wp_steps.
  - left. constructor.
  - destruct (negb (is_gated r id)); unfold emit; wp_steps; simpl; [|apply IH].
    right. exists [ReadFirmware id], (VerifyFirmware id).
    repeat split; [by repeat constructor|eauto].
Qed.

Lemma source_last_app l1 l2 : no_source l1 → source_last l2 → source_last (l1 ++ l2).
Proof.
  intros H1 [H2|(l0 & e & -> & H2 & He)].
  - left. by apply Forall_app.
  - right. exists (l1 ++ l0), e. rewrite app_assoc. repeat split; [by apply Forall_app|done].
Qed.

Lemma source_last_none l : no_source l → source_last l.
Proof. by left. Qed.

Definition handler_sources (oc : Outcome) (l : list Effect) : Prop :=
  match oc with
  | Transition (PreSupervision | Updating | Recovering _ | Locked) => no_source l
  | _ => source_last l
  end.

Lemma corruption_sources id r :
  wp (handle_corruption N id) (λ oc _ l, no_source l ∧
    (oc = Handled ∨ oc = Transition (Recovering id))) r.
Proof.
  eapply wp_mono; [apply wp_and; [apply handle_corruption_silent|
    apply handle_corruption_outcome]|]. intros oc r' l [H Hoc]. cbn beta.
  split; [done|]. destruct Hoc as [?|[? _]]; auto.
Qed.

Lemma corruption_advancing_sources id r :
  wp (handle_corruption_advancing N id) (λ oc _ l,
    ((oc = Handled ∨ oc = Transition Ready) ∧ source_last l) ∨
    (oc = Transition (Recovering id) ∧ no_source l)) r.
Proof.
  unfold handle_corruption_advancing. wp_steps.
  eapply wp_mono; [apply corruption_sources|]. intros oc r1 l1 [H1 Hoc]; cbn beta.
  wp_steps. destruct Hoc as [->| ->].
  - case_match.
    + wp_steps. eapply wp_mono; [apply advance_source|]. intros b r2 l2 H2; cbn beta.
      destruct b; wp_steps; rewrite app_nil_r; left;
        (split; [auto|by apply source_last_app]).
    + wp_steps. rewrite app_nil_r. left. split; [auto|by left].
  - wp_steps. rewrite app_nil_r. by right.
Qed.

Lemma exhaust_sources id r :
  wp (exhaust_recovery N id) (λ oc _ l, handler_sources oc l) r.
Proof.
  unfold exhaust_recovery. wp_steps. eapply wp_mono; [apply gate_by_policy_silent|].
  intros b r1 l1 H1; cbn beta. destruct b; unfold clear_retry, emit; wp_steps; simpl.
  - by rewrite app_nil_r.
  - apply source_last_app; [done|]. right.
    exists [ReportRecoveryFailed id], (Emit RecoveryFailed).
    repeat split; [by repeat constructor|auto].
Qed.

Lemma handler_sources_cons e oc l :
  is_source e = false → handler_sources oc l → handler_sources oc (e :: l).
Proof.
  intros He Hl. assert (no_source [e]) as H1 by (by repeat constructor).
  unfold handler_sources in *. repeat case_match;
    first [by apply (source_last_app [e]) | by constructor].
Qed.

Local Ltac sources_auto :=
  repeat first
    [ wp_step
    | progress unfold emit, clear_retry, mark_released, clear_awaiting_boot, bump_retry
    | (simpl; left; by repeat constructor) | (simpl; by repeat constructor)
    | lazymatch goal with
      | |- wp (handle_corruption_advancing _ _) _ _ =>
          eapply wp_mono; [apply corruption_advancing_sources
            | intros ? ? ? [[[->| ->] ?]|[-> ?]]; cbn beta; simpl;
              first [by apply (source_last_app [_]); [repeat constructor|]
                    | by constructor | done]]
      | |- wp (handle_corruption _ _) _ _ =>
          eapply wp_mono; [apply corruption_sources
            | intros ? ? ? [? [->| ->]]; cbn beta]
      | |- wp (advance_to_next_ungated _) _ _ =>
          eapply wp_mono; [apply advance_source|intros [] ? ? ?; cbn beta]
      | |- wp (exhaust_recovery _ _) _ _ => apply exhaust_sources
      | |- source_last (?e :: ?l ++ []) =>
          rewrite app_nil_r; apply (source_last_app [e]); [by repeat constructor|done]
      | |- handler_sources _ (_ :: _) => apply handler_sources_cons; [done|]
      | |- handler_sources _ (_ ++ []) => rewrite app_nil_r
      | |- handler_sources _ ([] ++ _) => simpl
      end
    | done | (simpl; by left) | case_match ].

Lemma handle_sources st ev r : wp (handle N st ev) (λ oc _ l, handler_sources oc l) r.
Proof.
  destruct st as [| |aw| | |failed|]; simpl.
  - destruct ev as [[]| | | | | | | | | | | | | | | | |]; sources_auto.
  - destruct ev; simpl; sources_auto.
  - destruct ev; simpl; sources_auto.
  - destruct ev; simpl; sources_auto.
  - destruct ev; simpl; sources_auto. simpl.
    apply Forall_app. split; [done|by repeat constructor].
  - destruct ev; simpl; sources_auto.
  - sources_auto.
Qed.

Lemma supervising_sources ev r :
  wp (handle_supervising N ev) (λ oc _ l, handler_sources oc l) r.
Proof. destruct ev; simpl; sources_auto. Qed.

Lemma quiesce_silent : respects silent quiesce_all.
Proof.
  unfold quiesce_all. apply respects_bind; [apply _|apply respects_get, _|].
  intros r. apply respects_for; [apply _|]. intros [i [id a]] _. simpl.
  apply respects_bind; [apply _|apply respects_get, _|]. intros r'.
  case_match; [apply respects_ret, _|].
  apply respects_bind; [apply _|apply respects_tell|intros; apply respects_modify];
    intros; unfold silent, no_source; by repeat constructor.
Qed.

Lemma entry_sources target oc l r :
  oc = Transition target → handler_sources oc l →
  wp (entry_action target) (λ _ _ l', source_last (l ++ l')) r.
Proof.
  intros -> Hl. destruct target; simpl in *;
    try (unfold emit; wp_steps; simpl;
         first [by rewrite app_nil_r
               |left; apply Forall_app; split; [done|by repeat constructor]]).
  - wp_steps. eapply wp_mono; [apply quiesce_silent|]. intros [] r1 l1 H1; cbn beta.
    wp_steps. eapply wp_mono; [apply advance_source|]. intros b r2 l2 H2; cbn beta.
    wp_steps. rewrite app_nil_r. apply source_last_app; [done|]. by apply source_last_app.
  - unfold clear_awaiting_boot, emit. wp_steps. case_match; wp_steps; simpl;
      (left; apply Forall_app; split; [done|by repeat constructor]).
Qed.

(** One event's effects carry at most one source, as the last effect. *)
Lemma step_source_last o ev o' l :
  step_emits N o ev = (o', l) → source_last l.
Proof.
  unfold step_emits. intros Hs.
  destruct (match component_id ev with Some id => _ | None => _ end).
  { simplify_eq. left. constructor. }
  cut (wp (step_body N (state o) ev) (λ _ _ l, source_last l) (rot o)).
  { unfold wp. destruct (step_body N (state o) ev (rot o)) as [[st r] l']. by simplify_eq. }
  unfold step_body. wp_steps.
  eapply wp_mono; [apply wp_and; [apply handle_sources|apply handle_deferred]|].
  intros oc0 r0 l0 [H0 Hdef]; cbn beta. wp_steps.
  assert (wp (match oc0 with
     | Super => if is_supervised (state o) then handle_supervising N ev else mret Super
     | _ => mret oc0 end) (λ oc _ l', handler_sources oc (l0 ++ l')) r0) as Hsup.
  { destruct oc0; try (wp_steps; by rewrite app_nil_r).
    destruct (Hdef eq_refl) as (-> & -> & _). destruct (is_supervised (state o)).
    - apply supervising_sources.
    - wp_steps. by left; constructor. }
  eapply wp_mono; [exact Hsup|]. intros oc r1 l1 H1; cbn beta.
  destruct oc as [|target|]; wp_steps; rewrite ?app_nil_r; try done.
  eapply wp_mono; [by eapply (entry_sources target _ (l0 ++ l1))|]. cbn beta.
  intros [] r2 l2 H2. wp_steps. by rewrite app_nil_r, app_assoc.
Qed.
End walk.

(** ** Quiescence on verdict-only platforms *)

(** A platform whose only feedback is the verdict of a verification, about the
    component it was asked to verify. *)
Class VerdictPlatform (P : Type) `{Platform P} : Prop :=
  verdict_only p e p' ev : execute p e = (p', Ok (Some ev)) →
    ∃ id, e = VerifyFirmware id ∧
          (ev = VerificationPassed id ∨ ev = VerificationFailed id).

Section quiescence.
Context (N E : nat) {P : Type} `{VerdictPlatform P}.

(** What a batch leaves in an empty queue. *)
Definition quiet_pending (pending : list Event) (failed : bool) : Prop :=
  (failed = false ∧
   (pending = [] ∨ pending = [RecoveryFailed] ∨
    ∃ id, pending = [VerificationPassed id] ∨ pending = [VerificationFailed id])) ∨
  (failed = true ∧ head pending = Some EffectFailed ∧ length pending ≤ PENDING_CAP).

Lemma batch_no_source l p :
  no_source l →
  (∃ p' tr, run_batch l p [] false =
     {| b_platform := p'; b_pending := []; b_failed := false; b_trace := tr |}) ∨
  (∃ p' tr, run_batch l p [] false =
     {| b_platform := p'; b_pending := [EffectFailed]; b_failed := true; b_trace := tr |}).
Proof.
  revert p. induction l as [|e l IH]; intros p Hl; [left; simpl; eauto|].
  apply Forall_cons in Hl as [He Hl].
  assert (∀ p' tr, (∃ q t, b_prepend tr (run_batch l p' [] false) =
       {| b_platform := q; b_pending := []; b_failed := false; b_trace := t |}) ∨
     (∃ q t, b_prepend tr (run_batch l p' [] false) =
       {| b_platform := q; b_pending := [EffectFailed]; b_failed := true; b_trace := t |}))
    as Hcont.
  { intros p' tr. destruct (IH p' Hl) as [(q & t & ->)|(q & t & ->)]; unfold b_prepend; simpl;
      [left|right]; eauto. }
  destruct e; try done; simpl;
    (destruct (execute p _) as [p' [[ev|]|err]] eqn:Hx;
      [by destruct (verdict_only _ _ _ _ Hx) as (? & [=] & _)
      |apply Hcont|right; eauto]).
Qed.

Lemma batch_quiet l p :
  source_last l →
  quiet_pending (b_pending (run_batch l p [] false)) (b_failed (run_batch l p [] false)).
Proof.
  unfold quiet_pending. intros [Hl|(l0 & e & -> & Hl0 & He)].
  { destruct (batch_no_source l p Hl) as [(? & ? & ->)|(? & ? & ->)]; simpl; [left|right].
    - auto.
    - split; [done|]. split; [done|]. unfold PENDING_CAP. lia. }
  revert p. induction l0 as [|e0 l0 IH]; intros p; simpl.
  - destruct He as [[id ->]| ->]; simpl.
    + destruct (execute p _) as [p' [[ev|]|err]] eqn:Hx; simpl.
      * destruct (verdict_only _ _ _ _ Hx) as (id' & [= <-] & [->| ->]); left; eauto 10.
      * left. auto.
      * right. split; [done|]. split; [done|]. unfold PENDING_CAP. lia.
    + left. auto.
  - apply Forall_cons in Hl0 as [He0 Hl0]. specialize (IH Hl0).
    destruct e0; try done; simpl;
      (destruct (execute p _) as [p' [[ev|]|err]] eqn:Hx; simpl;
        [by destruct (verdict_only _ _ _ _ Hx) as (? & [=] & _)
        |apply IH
        |right; split; [done|]; split; [done|]; unfold PENDING_CAP; lia]).
Qed.

(** Fuel that settles a queue. *)
Definition settles (k : nat) (o : Orchestrator) (pending : list Event) (failed : bool) : Prop :=
  ∀ fuel p, k ≤ fuel → d_done (dispatch_loop N E fuel o p pending failed) = true.

Lemma settles_empty k o failed : settles k o [] failed.
Proof. intros fuel p _. by destruct fuel. Qed.

Lemma settles_mono k k' o pending failed :
  k ≤ k' → settles k o pending failed → settles k' o pending failed.
Proof. intros Hle Hs fuel p Hf. apply Hs. lia. Qed.

Lemma settles_latched o pending :
  E ≥ 1 → head pending = Some EffectFailed → length pending ≤ PENDING_CAP →
  settles (S PENDING_CAP) o pending true.
Proof.
  intros HE Hh Hc fuel p Hf. by edestruct (latched_finishes N E fuel o p pending) as (? & _).
Qed.

(** One round: it is enough that whatever the batch leaves settles. *)
Lemma settles_round k g o ev o' l :
  E ≥ 2 * N + 2 → inv N g o → step_emits N o ev = (o', l) →
  S PENDING_CAP ≤ k →
  (∀ pending, quiet_pending pending false → source_last l →
     (no_source l → pending = []) → 
     settles k o' pending false) →
  settles (S k) o [ev] false.
Proof.
  intros HE Hinv Hs Hk Hnext fuel p Hf. destruct fuel as [|fuel]; [lia|].
  simpl. rewrite (step_buffer N E g) by done. rewrite Hs.
  pose proof (step_source_last N o ev o' l Hs) as Hsl.
  pose proof (batch_quiet l p Hsl) as Hq. simpl.
  destruct (b_failed (run_batch l p [] false)) eqn:Hfail.
  - destruct Hq as [[? _]|(_ & Hh & Hc)]; [done|].
    eapply settles_latched; [lia|done|done|lia].
  - apply Hnext; [done|done| |lia]. intros Hns.
    destruct (batch_no_source l p Hns) as [(? & ? & Hb)|(? & ? & Hb)];
      rewrite Hb in *; done.
Qed.

Lemma settles_no_source g o ev o' l :
  E ≥ 2 * N + 2 → inv N g o → step_emits N o ev = (o', l) → no_source l →
  settles (S (S PENDING_CAP)) o [ev] false.
Proof.
  intros HE Hinv Hs Hl. eapply settles_round; [done..|].
  intros pending _ _ Hp. rewrite (Hp Hl). apply settles_empty.
Qed.

Lemma settles_follow_up g o :
  E ≥ 2 * N + 2 → inv N g o →
  settles (S (S PENDING_CAP)) o [RecoveryFailed] false ∧
  ∀ id, settles (S (S PENDING_CAP)) o [VerificationFailed id] false.
Proof.
  intros HE Hinv. split; [|intros id].
  - destruct (step_recovery_failed N o) as [Hs|Hs];
      eapply settles_no_source; try done; by repeat constructor.
  - destruct (step_verification_failed N o id) as [Hs|(r' & n & _ & Hs)];
      eapply settles_no_source; try done; by repeat constructor.
Qed.

(** A pass advances the cursor, so there are at most [chain.len()] of them. *)
Lemma settles_passed m g o id :
  E ≥ 2 * N + 2 → inv N g o →
  length (chain (rot o)) - as_usize (cursor (rot o)) ≤ m →
  settles (m + S (S PENDING_CAP)) o [VerificationPassed id] false.
Proof.
  intros HE. revert g o id. induction m as [|m IH]; intros g o id Hinv Hm;
    (destruct (step_pass N o id (inv_wf _ _ _ Hinv))
      as [Hs|(a & o' & l & Hw & Hcur & Hs & Hout)];
     [eapply settles_mono; [|eapply settles_no_source; [done..|constructor]]; lia|]).
  { unfold cursor_entry in Hcur. apply lookup_lt_Some in Hcur. lia. }
  rewrite Nat.add_succ_l. eapply settles_round; [done..|lia|]. intros pending Hq Hsl Hns.
  destruct (step_emits_inv N g o _ o' l Hs Hinv) as (g' & _ & Hinv').
  destruct (settles_follow_up g' o' HE Hinv') as [Hrf Hvf].
  assert (pending = [] ∨
    length (chain (rot o')) - as_usize (cursor (rot o')) ≤ m) as [->|Hm'].
  { destruct Hout as [i nid na Hi Hlk _ _|_].
    - right. simpl. rewrite released_rot_chain. unfold as_usize in *. rewrite Nat2Z.id. lia.
    - left. apply Hns. by repeat constructor. }
  { apply settles_empty. }
  destruct Hq as [[_ [->|[->|[id' [->| ->]]]]]|[? _]]; [..|done].
  - apply settles_empty.
  - eapply settles_mono; [|done]. lia.
  - by eapply IH.
  - eapply settles_mono; [|done]. lia.
Qed.

(** Any event is settled within [chain.len() + 11] rounds. *)
Lemma settles_event g o ev :
  E ≥ 2 * N + 2 → inv N g o →
  settles (length (chain (rot o)) + S (S (S PENDING_CAP))) o [ev] false.
Proof.
  intros HE Hinv. destruct (step_emits N o ev) as [o' l] eqn:Hs.
  destruct (step_emits_inv N g o _ o' l Hs Hinv) as (g' & _ & Hinv').
  destruct (step_emits_keeps N o ev o' l Hs (inv_wf _ _ _ Hinv)) as [_ Hle].
  rewrite Nat.add_succ_r. eapply settles_round; [done..|lia|].
  intros pending Hq Hsl Hns. destruct (settles_follow_up g' o' HE Hinv') as [Hrf Hvf].
  destruct Hq as [[_ [->|[->|[id' [->| ->]]]]]|[? _]]; [..|done].
  - apply settles_empty.
  - eapply settles_mono; [|done]. lia.
  - eapply settles_passed; [done..|]. rewrite (le_chain _ _ Hle). lia.
  - eapply settles_mono; [|done]. lia.
Qed.

Lemma settles_reachable c max_retry o p ev fuel :
  board_ok N E c max_retry → reachable N E c max_retry o →
  length (entries c) + 11 ≤ fuel →
  d_done (dispatch N E fuel o p ev) = true.
Proof.
  intros Hb Hr Hf. destruct (reachable_inv _ _ _ _ _ Hb Hr) as [g Hinv].
  assert (chain (rot o) = entries c) as Hc.
  { eapply (reachable_ind_inv N E c max_retry (λ o, chain (rot o) = entries c)); try done.
    intros g0 o0 ev0 o' l Hinv0 Hc Hs.
    destruct (step_emits_keeps _ _ _ _ _ Hs (inv_wf _ _ _ Hinv0)) as [_ Hle].
    by rewrite (le_chain _ _ Hle). }
  eapply (settles_event g); [by destruct Hb|done|]. rewrite Hc. unfold PENDING_CAP. lia.
Qed.
End quiescence.

(** ** Cold boot *)

(** What a platform answers when every image verifies and nothing fails. *)
Definition all_pass (e : Effect) : option Event :=
  match e with VerifyFirmware id => Some (VerificationPassed id) | _ => None end.

Definition walk_effects (es : list entry) : list Effect :=
  es ≫= λ e, [ReadFirmware e.1; VerifyFirmware e.1; ReleaseReset e.1].

Section cold_boot.
Context (N E : nat) {P : Type} `{Platform P}.

(** The platform, run over [es] on its own, performs every effect and passes
    every image. *)
Inductive runs_clean : P → list Effect → P → Prop :=
| runs_clean_nil p : runs_clean p [] p
| runs_clean_cons p e p' es p'' :
    execute p e = (p', Ok (all_pass e)) → runs_clean p' es p'' →
    runs_clean p (e :: es) p''.

Lemma runs_clean_app p l1 l2 q :
  runs_clean p (l1 ++ l2) q ↔ ∃ m, runs_clean p l1 m ∧ runs_clean m l2 q.
Proof.
  revert p. induction l1 as [|e l1 IH]; intros p; simpl.
  - split; [intros Hr; exists p; split; [constructor|done]|].
    intros (m & Hm & Hr). by inversion Hm; subst.
  - split.
    + inversion 1 as [|? ? p' ? ? Hx Hr]; subst. apply IH in Hr as (m & Hm & Hr).
      exists m. split; [by econstructor|done].
    + intros (m & Hm & Hr). inversion Hm as [|? ? p' ? ? Hx Hr']; subst.
      econstructor; [done|]. apply IH. eauto.
Qed.

Lemma batch_passes l e p q :
  Forall (λ e, is_external e = true ∧ all_pass e = None) l → is_external e = true →
  runs_clean p (l ++ [e]) q →
  run_batch (l ++ [e]) p [] false =
    {| b_platform := q; b_pending := option_list (all_pass e); b_failed := false;
       b_trace := (., true) <$> l ++ [e] |}.
Proof.
  intros Hl He. revert p. induction Hl as [|e0 l [He0 Hn] Hl IH]; intros p Hr;
    inversion Hr as [|? ? p' ? ? Hx Hr']; subst.
  - inversion Hr'; subst. destruct e; try done; simpl in *; rewrite Hx; simpl; done.
  - specialize (IH p' Hr'). rewrite Hn in Hx.
    destruct e0; try done; simpl in *; rewrite Hx; rewrite IH; done.
Qed.

Lemma attempted_true l : attempted ((., true) <$> l) = l.
Proof.
  unfold attempted. rewrite <- list_fmap_compose. simpl.
  induction l as [|e l IH]; simpl; [done|]. by f_equal.
Qed.

Lemma walk_from rest g o p q id a fuel :
  E ≥ 2 * N + 2 → inv N g o → walking (state o) = true →
  drop (as_usize (cursor (rot o))) (chain (rot o)) = (id, a) :: rest →
  (∀ id', is_gated (rot o) id' = false) → length rest < fuel →
  runs_clean p (ReleaseReset id :: walk_effects rest) q →
  let d := dispatch_loop N E fuel o p [VerificationPassed id] false in
  d_done d = true ∧ state (d_orch d) = Ready ∧ d_platform d = q ∧
  attempted (d_trace d) = ReleaseReset id :: walk_effects rest.
Proof.
  intros HE. revert g o p id a fuel.
  induction rest as [|[nid na] rest IH]; intros g o p id a fuel Hinv Hw Hdrop Hng Hfuel Hclean;
    (destruct fuel as [|fuel]; [simpl in Hfuel; lia|]);
    assert (cursor_entry (rot o) = Some (id, a)) as Hcur
      by (unfold cursor_entry; rewrite <- (Nat.add_0_r (as_usize _)), <- lookup_drop;
          by rewrite Hdrop);
    assert (in_chain (rot o) id = true) as Hin
      by (apply in_chain_iff, list_elem_of_fmap; exists (id, a); split; [done|];
          by eapply list_elem_of_lookup_2);
    cbn [dispatch_loop]; rewrite (step_buffer N E g) by done;
    pose proof (pass_step N (rot o) (state o) id a (inv_wf _ _ _ Hinv) Hw Hcur) as Hp;
    rewrite (step_emits_in_chain N _ _ id) by done; unfold wp in Hp;
    destruct (step_body N (state o) (VerificationPassed id) (rot o)) as [[st' r'] l] eqn:Hsb.
  - inversion Hp as [i nid na Hi Hlk _ _|Hall]; subst.
    { assert (drop (as_usize (cursor (rot o))) (chain (rot o))
        !! (i - as_usize (cursor (rot o))) = Some (nid, na)) as Hlk'.
      { rewrite lookup_drop. by replace (_ + (_ - _)) with i by lia. }
      rewrite Hdrop in Hlk'. destruct (i - as_usize (cursor (rot o))) eqn:Hd; [lia|done]. }
    pose proof (batch_passes [] (ReleaseReset id) p q ltac:(constructor) eq_refl Hclean) as Hb.
    simpl app in Hb. rewrite Hb. simpl.
    destruct fuel; done.
  - assert (chain (rot o) !! S (as_usize (cursor (rot o))) = Some (nid, na)) as Hnext.
    { rewrite <- Nat.add_1_r, <- lookup_drop. by rewrite Hdrop. }
    inversion Hp as [i nid' na' Hi Hlk _ Hbet|Hall]; subst; cycle 1.
    { specialize (Hall _ _ _ (Nat.lt_succ_diag_r _) Hnext). by rewrite Hng in Hall. }
    assert (i = S (as_usize (cursor (rot o)))) as ->.
    { destruct (decide (i = S (as_usize (cursor (rot o))))) as [|Hne]; [done|].
      specialize (Hbet (S (as_usize (cursor (rot o)))) nid na ltac:(lia) Hnext).
      by rewrite Hng in Hbet. }
    assert ((nid', na') = (nid, na)) as [= -> ->] by congruence.
    assert (step_emits N o (VerificationPassed id) = ({|
      rot := set_cursor (Z.of_nat (S (as_usize (cursor (rot o))))) (released_rot id (rot o));
      state := state_after_pass (state o) id (kind a) |},
      [ReleaseReset id; ReadFirmware nid; VerifyFirmware nid])) as Hs
      by (rewrite (step_emits_in_chain N _ _ id) by done; by rewrite Hsb).
    destruct (step_emits_inv N g o _ _ _ Hs Hinv) as (g' & _ & Hinv').
    apply (runs_clean_app p [ReleaseReset id; ReadFirmware nid; VerifyFirmware nid])
      in Hclean as (m & Hm & Hclean).
    pose proof (batch_passes [ReleaseReset id; ReadFirmware nid] (VerifyFirmware nid) p m)
      as Hb; simpl app in Hb. rewrite Hb; [|by repeat constructor|done|done]. clear Hb.
    cbn [b_platform b_pending b_failed b_trace all_pass option_list].
    edestruct (IH g' {| rot := set_cursor (Z.of_nat (S (as_usize (cursor (rot o)))))
        (released_rot id (rot o)); state := state_after_pass (state o) id (kind a) |}
      m nid na fuel) as (H1 & H2 & H3 & H4); [done|..].
    + simpl. by destruct (state o), (kind a).
    + cbn [rot chain set_cursor cursor]. rewrite released_rot_chain, as_usize_of_nat.
      rewrite (drop_S _ _ _ Hcur) in Hdrop. by simplify_eq.
    + intros id'. simpl. rewrite is_gated_alt, status_of_set_cursor, <- is_gated_alt.
      by rewrite released_rot_gated.
    + simpl in Hfuel. lia.
    + exact Hclean.
    + cbn [d_done d_orch d_platform d_trace]. split; [exact H1|]. split; [exact H2|].
      split; [exact H3|].
      change (option_list (Some (VerificationPassed nid))) with [VerificationPassed nid].
      unfold attempted in *. by rewrite fmap_app, H4.
Qed.

(** The power-on step: nothing is live and nothing is gated, so the walk starts
    at the head of the chain. *)
Lemma power_on_step c max_retry id a rest :
  board_ok N E c max_retry → entries c = (id, a) :: rest →
  step_emits N (Orchestrator_new N c max_retry) (PowerGood Provisioned) =
    ({| rot := set_cursor 0%Z (quiesced (Rot_new N c max_retry));
        state := PreSupervision |}, [ReadFirmware id; VerifyFirmware id]).
Proof.
  intros Hb Hes. pose proof (inv_wf _ _ _ (board_init_inv _ _ _ _ Hb)) as Hwf.
  simpl in Hwf. destruct Hb as [(es & Hlen & Htry) HE Hmr].
  apply try_from_Ok in Htry as [Hv Hee].
  destruct (Rot_new_wf N c max_retry) as [_ Hdef]; [by rewrite Hee..|done|].
  set (r0 := Rot_new N c max_retry) in *.
  assert (live_ids (chain r0) (statuses r0) = []) as Hlive.
  { destruct (live_ids (chain r0) (statuses r0)) as [|x L] eqn:HL; [done|].
    assert (x ∈ live_ids (chain r0) (statuses r0)) as Hx by (rewrite HL; left).
    apply (elem_of_live_ids N) in Hx as (s & Hs & Hrel); [|done].
    apply Hdef in Hs. by subst s. }
  assert (rot_wf N (quiesced r0)) as Hwfq by (by apply (quiesced_wf N)).
  cut (wp (step_body N PowerOnReset (PowerGood Provisioned)) (λ st r l,
    st = PreSupervision ∧ r = set_cursor 0%Z (quiesced r0) ∧
    l = [ReadFirmware id; VerifyFirmware id]) r0).
  { unfold wp, step_emits, Orchestrator_new. cbn [component_id rot state].
    fold r0. destruct (step_body N PowerOnReset _ r0) as [[st r] l].
    by intros (-> & -> & ->). }
  unfold step_body. wp_steps. cbn [handle handle_power_on_reset]. wp_steps.
  unfold entry_action. wp_steps.
  eapply wp_quiesce_all; [done|]. rewrite Hlive. wp_steps.
  assert (∀ id', is_gated (quiesced r0) id' = false) as Hng.
  { intros id'. rewrite is_gated_alt. unfold quiesced. rewrite status_of_map_statuses.
    destruct (status_of r0 id') as [s|] eqn:Hs; [|done]. by rewrite (Hdef _ _ Hs). }
  eapply wp_advance; [done|..].
  - intros i nid na _ Hlk _ Hbet. wp_steps. simpl.
    destruct i as [|i]; cycle 1.
    { specialize (Hbet 0 id a). rewrite Hng in Hbet. discriminate Hbet; [lia|].
      simpl. unfold into_entries. by rewrite Hes. }
    simpl in Hlk. unfold into_entries in Hlk. rewrite Hes in Hlk. by simplify_eq/=.
  - intros Hall. specialize (Hall 0 id a). rewrite Hng in Hall. discriminate Hall; [lia|].
    simpl. unfold into_entries. by rewrite Hes.
Qed.

Lemma cold_boot_trace c max_retry p q fuel :
  board_ok N E c max_retry → length (entries c) < fuel →
  runs_clean p (walk_effects (entries c)) q →
  let d := dispatch N E fuel (Orchestrator_new N c max_retry) p (PowerGood Provisioned) in
  d_done d = true ∧ state (d_orch d) = Ready ∧ d_platform d = q ∧
  attempted (d_trace d) = walk_effects (entries c).
Proof.
  intros Hb Hfuel Hclean. pose proof (board_init_inv _ _ _ _ Hb) as Hinv.
  destruct (entries c) as [|[id a] rest] eqn:Hes.
  { destruct Hb as [(es & _ & Htry) _ _]. apply try_from_Ok in Htry as [[Hne _] <-]. done. }
  pose proof (power_on_step _ _ _ _ _ Hb Hes) as Hs.
  destruct (step_emits_inv N _ _ _ _ _ Hs Hinv) as (g & _ & Hinv').
  destruct fuel as [|fuel]; [lia|]. unfold dispatch. cbn [dispatch_loop].
  rewrite (step_buffer N E mon_init), Hs by (done || by destruct Hb).
  apply (runs_clean_app p [ReadFirmware id; VerifyFirmware id])
    in Hclean as (m & Hm & Hclean).
  pose proof (batch_passes [ReadFirmware id] (VerifyFirmware id) p m) as Hbt.
  simpl app in Hbt. rewrite Hbt; [|by repeat constructor|done|done]. clear Hbt.
  cbn [b_platform b_pending b_failed b_trace all_pass option_list].
  edestruct (walk_from rest g {| rot := set_cursor 0%Z (quiesced (Rot_new N c max_retry));
    state := PreSupervision |} m q id a fuel) as (H1 & H2 & H3 & H4);
    [by destruct Hb|exact Hinv'|..].
  - done.
  - simpl. unfold into_entries. by rewrite Hes.
  - intros id'. cbn [rot]. rewrite is_gated_alt, status_of_set_cursor.
    unfold quiesced. rewrite status_of_map_statuses.
    destruct (status_of (Rot_new N c max_retry) id') as [s|] eqn:Hst; [|done].
    destruct Hb as [(es & Hlen & Htry) HE Hmr]. apply try_from_Ok in Htry as [Hv Hee].
    destruct (Rot_new_wf N c max_retry) as [_ Hdef]; [by rewrite Hee..|done|].
    by rewrite (Hdef _ _ Hst).
  - simpl in Hfuel. lia.
  - exact Hclean.
  - cbn [d_done d_orch d_platform d_trace]. split; [exact H1|]. split; [exact H2|].
    split; [exact H3|].
    change (option_list (Some (VerificationPassed id))) with [VerificationPassed id].
    unfold attempted in *. by rewrite fmap_app, H4.
Qed.
End cold_boot.

(** ** Properties *)

(** A platform on which every image verifies. *)
Definition passing_execute (p : unit) (e : Effect) : unit * result (option Event) EffectError :=
  (p, Ok (all_pass e)).

Lemma passing_verdicts : VerdictPlatform unit (H := passing_execute).
Proof.
  intros p e p' ev [= -> Hev]. destruct e; try done. simpl in Hev. simplify_eq. eauto.
Qed.

(** C28: Dispatch quiesces.  On every platform whose only feedback is the verdict
    of the verification it was asked for -- failures allowed anywhere -- a
    dispatch of any event from any reachable state runs to quiescence within
    [chain.len() + 11] rounds of its loop. *)
Theorem dispatch_quiesces (N E : nat) (P : Type) (plat : Platform P)
    (verdicts : VerdictPlatform P) c max_retry o p ev fuel :
  board_ok N E c max_retry → reachable N E c max_retry o →
  length (entries c) + 11 ≤ fuel →
  d_done (dispatch N E fuel o p ev) = true.
Proof.
  intros. by eapply settles_reachable.
Qed.

Lemma dispatch_quiesces_witness :
  d_done (dispatch 3 8 (H := passing_execute) 14 ex_start () (PowerGood Provisioned)) = true.
Proof.
  apply (dispatch_quiesces 3 8 unit passing_execute passing_verdicts ex_chain 2 ex_start ()
    (PowerGood Provisioned) 14).
  - apply ex_board_ok.
  - exists [], []. reflexivity.
  - simpl. lia.
Defined.

(** Cold boot.  If the platform, run on its own over read, verify, release of
    each component in chain order, performs every effect and passes every image,
    then the single dispatch of power-good performs exactly those effects in
    that order, ends in [Ready], and leaves the platform in the state that run
    leaves it in. *)
Theorem cold_boot_reaches_ready (N E : nat) (P : Type) (plat : Platform P)
    c max_retry p q fuel :
  board_ok N E c max_retry →
  runs_clean p (walk_effects (entries c)) q →
  length (entries c) < fuel →
  let d := dispatch N E fuel (Orchestrator_new N c max_retry) p (PowerGood Provisioned) in
  d_done d = true ∧ state (d_orch d) = Ready ∧ d_platform d = q ∧
  attempted (d_trace d) = walk_effects (entries c).
Proof. intros Hb Hpass Hf. by apply cold_boot_trace. Qed.

Lemma cold_boot_reaches_ready_witness :
  state (d_orch (dispatch 3 8 (H := passing_execute) 4 ex_start () (PowerGood Provisioned)))
    = Ready.
Proof.
  apply (cold_boot_reaches_ready 3 8 unit passing_execute ex_chain 2 () () 4).
  - apply ex_board_ok.
  - repeat (eapply runs_clean_cons; [reflexivity|]). apply runs_clean_nil.
  - simpl. lia.
Defined.
