(* ===== verification/SmBehave.v ===== *)
(** * What the machine does on each event

    Functional behaviour of [Orchestrator::step] beyond safety: which event
    releases a component, the update/commit window, attestation and corruption
    under supervision, the retry cap, the terminal state, and the places where
    the walk parts from its documentation. *)

From S2P Require Import Prelude SmModel SmCore SmInv SmTrace SmBound SmSafety SmDispatch SmWalk.
From stdpp Require Import base tactics list numbers strings sets.
Local Open Scope nat_scope.

(** ** Milestones

    Releasing a component, activating an update and committing the
    anti-rollback floor each happen in one place, on one event; everything else
    leaves the commit window alone or closes it. *)

Definition is_milestone (e : Effect) : bool :=
  match e with ReleaseReset _ | ActivateUpdate | CommitSvnFloor _ => true | _ => false end.

Definition is_milestone_event (ev : Event) : bool :=
  match ev with
  | VerificationPassed _ | UpdateVerified | BootConfirmed _ => true
  | _ => false
  end.

Definition no_milestone (l : list Effect) : Prop :=
  Forall (λ e, is_milestone e = false) l.

Definition quiet (r : Rot) (l : list Effect) (r' : Rot) : Prop :=
  chain r' = chain r ∧ pending_commit r' = pending_commit r ∧ no_milestone l.

#[export] Instance quiet_log_preorder : LogPreorder quiet.
Proof.
  split; unfold quiet, no_milestone; [intros; repeat split; constructor|].
  intros ????? (? & ? & ?) (? & ? & ?). repeat split; [congruence..|by apply Forall_app].
Qed.

Section behave.
Context (N : nat).

Lemma quiet_emit e : is_milestone e = false → respects quiet (emit e).
Proof. intros He r. repeat split. by repeat constructor. Qed.

Lemma quiet_with_status id f : respects quiet (sw_modify (with_status id f)).
Proof. intros r. repeat split; [by autorewrite with rot..|constructor]. Qed.

Lemma quiet_modify f :
  (∀ r, chain (f r) = chain r) → (∀ r, pending_commit (f r) = pending_commit r) →
  respects quiet (sw_modify f).
Proof. intros Hf Hp r. repeat split; [apply Hf|apply Hp|constructor]. Qed.

Lemma gate_one_quiet id : respects quiet (gate_one id).
Proof.
  unfold gate_one. apply respects_bind; [apply _|apply respects_get, _|]. intros r.
  case_match; [apply respects_ret, _|].
  repeat (apply respects_bind; [apply _| |intros _]);
    first [by apply quiet_emit|apply quiet_with_status|apply respects_ret, _].
Qed.

Lemma advance_quiet start : respects quiet (advance_to_next_ungated start).
Proof.
  unfold advance_to_next_ungated. apply respects_bind; [apply _|apply respects_get, _|].
  intros r. generalize (drop start (chain r)). intros rest.
  revert start. induction rest as [|[id a] rest IH]; intros start; simpl;
    (apply respects_bind; [apply _|apply respects_get, _|]); intros r'.
  - apply respects_bind; [apply _|by apply quiet_modify|]. intros; apply respects_ret, _.
  - case_match; [|apply IH].
    repeat (apply respects_bind; [apply _| |intros _]);
      first [by apply quiet_emit|by apply quiet_modify|apply respects_ret, _].
Qed.

Local Ltac quiet_auto :=
  repeat (intros; first
    [ apply respects_ret, _ | apply respects_get, _
    | by apply quiet_emit | apply gate_one_quiet
    | apply quiet_with_status | by apply quiet_modify
    | apply advance_quiet
    | apply gate_by_policy_respects; [apply _|by intros ??? []|intros; apply gate_one_quiet]
    | apply handle_corruption_respects; [apply _|by intros ??? []|intros; apply gate_one_quiet]
    | lazymatch goal with |- respects _ (mbind _ _) => apply respects_bind; [apply _| |] end
    | progress unfold clear_retry, mark_released, clear_awaiting_boot, bump_retry
    | progress cbv zeta | case_match ]).

Lemma corruption_advancing_quiet id : respects quiet (handle_corruption_advancing N id).
Proof. unfold handle_corruption_advancing. quiet_auto. Qed.

Lemma exhaust_quiet id : respects quiet (exhaust_recovery N id).
Proof. unfold exhaust_recovery. quiet_auto. Qed.

Lemma handle_quiet st ev :
  is_milestone_event ev = false → respects quiet (handle N st ev).
Proof.
  intros Hev.
  destruct st as [| |aw| | |failed|]; simpl;
    unfold handle_power_on_reset, handle_pre_supervision, handle_awaiting_ready,
      handle_ready, handle_updating, handle_recovering;
    destruct ev; try discriminate Hev; quiet_auto;
    intros; first [apply corruption_advancing_quiet | apply exhaust_quiet].
Qed.

Lemma supervising_quiet ev : respects quiet (handle_supervising N ev).
Proof. unfold handle_supervising. destruct ev; quiet_auto. Qed.

(** Entering [Updating] or [Recovering] voids the commit window. *)
Definition voids_window (st : State) : bool :=
  match st with Updating | Recovering _ => true | _ => false end.

Lemma entry_quiet st r :
  wp (entry_action st) (λ _ r' l, no_milestone l ∧ pending_commit r' =
    if voids_window st then false else pending_commit r) r.
Proof.
  assert (∀ st', voids_window st' = false → respects quiet (entry_action st')) as Hq.
  { intros st'. destruct st'; try done; intros _; simpl; quiet_auto.
    unfold quiesce_all. apply respects_bind; [apply _|apply respects_get, _|].
    intros r'. apply respects_for; [apply _|]. intros [i [id a]] _. simpl. quiet_auto. }
  destruct (voids_window st) eqn:Hv; [|eapply wp_mono; [by apply Hq|];
    intros _ r' l (_ & ? & ?); done].
  destruct st; try done; simpl; unfold clear_awaiting_boot, emit; wp_steps.
  - split; [by repeat constructor|done].
  - case_match; wp_steps; simpl; (split; [by repeat constructor|]);
      by autorewrite with rot.
Qed.

(** A step on any other event: no milestone, and the window survives unless the
    machine enters [Updating] or [Recovering]. *)
Lemma step_quiet o ev o' l :
  is_milestone_event ev = false → step_emits N o ev = (o', l) →
  no_milestone l ∧
  (pending_commit (rot o') = pending_commit (rot o) ∨
   pending_commit (rot o') = false ∧ voids_window (state o') = true).
Proof.
  intros Hev Hs. unfold step_emits in Hs.
  destruct (match component_id ev with Some id => _ | None => _ end).
  { simplify_eq. split; [constructor|by left]. }
  cut (wp (step_body N (state o) ev) (λ st r l, no_milestone l ∧
    (pending_commit r = pending_commit (rot o) ∨
     pending_commit r = false ∧ voids_window st = true)) (rot o)).
  { unfold wp. destruct (step_body N (state o) ev (rot o)) as [[st r] l'].
    by simplify_eq. }
  unfold step_body. wp_steps. eapply wp_mono; [by apply handle_quiet|].
  intros oc0 r0 l0 (_ & Hp0 & Hl0); cbn beta. wp_steps.
  assert (respects quiet (match oc0 with
     | Super => if is_supervised (state o) then handle_supervising N ev else mret Super
     | _ => mret oc0 end)) as Hsup.
  { destruct oc0; quiet_auto. apply supervising_quiet. }
  eapply wp_mono; [apply Hsup|]. intros oc r1 l1 (_ & Hp1 & Hl1); cbn beta.
  destruct oc as [|target|]; wp_steps.
  - split; [rewrite app_nil_r; by apply Forall_app|left; congruence].
  - eapply wp_mono; [apply entry_quiet|]. intros [] r2 l2 [Hl2 Hp2]; cbn beta. wp_steps.
    rewrite app_nil_r. split; [by repeat (apply Forall_app; split)|].
    destruct (voids_window target); [by right|left; congruence].
  - split; [rewrite app_nil_r; by apply Forall_app|left; congruence].
Qed.

Lemma step_update_verified o :
  step_emits N o UpdateVerified = (o, []) ∨
  state o = Updating ∧ step_emits N o UpdateVerified =
    ({| rot := clear_retries (set_pending_commit true (rot o)); state := Ready |},
     [ActivateUpdate]).
Proof. destruct o as [r []]; auto. Qed.

Lemma step_boot_confirmed o id :
  step_emits N o (BootConfirmed id) = (o, []) ∨
  state o = Ready ∧ step_emits N o (BootConfirmed id) =
    ({| rot := set_pending_commit false (rot o); state := Ready |}, [CommitSvnFloor id]).
Proof.
  destruct o as [r st]. unfold step_emits. simpl.
  destruct (in_chain r id); simpl; [|by left]. destruct st; auto.
Qed.

Lemma step_pass_pending o id o' l :
  rot_wf N (rot o) → step_emits N o (VerificationPassed id) = (o', l) →
  pending_commit (rot o') = pending_commit (rot o).
Proof.
  intros Hwf Hs. destruct (step_pass N o id Hwf) as [Heq|(a & o'' & l' & _ & _ & Heq & Hout)];
    rewrite Hs in Heq; simplify_eq; [done|].
  destruct Hout; simpl; unfold released_rot; by autorewrite with rot.
Qed.

(** Each milestone answers its own event. *)
Lemma step_milestones o ev o' l :
  rot_wf N (rot o) → step_emits N o ev = (o', l) →
  (∀ id, ReleaseReset id ∈ l → ev = VerificationPassed id ∧ walking (state o) = true ∧
     fst <$> cursor_entry (rot o) = Some id) ∧
  (ActivateUpdate ∈ l → ev = UpdateVerified ∧ state o = Updating) ∧
  (∀ id, CommitSvnFloor id ∈ l → ev = BootConfirmed id ∧ state o = Ready).
Proof.
  intros Hwf Hs. destruct (is_milestone_event ev) eqn:Hev; cycle 1.
  { apply (step_quiet o ev o' l Hev) in Hs as [Hl _].
    unfold no_milestone in Hl. rewrite Forall_forall in Hl.
    split; [|split]; intros; exfalso;
      match goal with H : _ ∈ l |- _ => by apply Hl in H end. }
  destruct ev; try discriminate Hev.
  - destruct (step_pass N o id Hwf) as [Heq|(a & o'' & l' & Hw & Hcur & Heq & Hout)];
      rewrite Hs in Heq; simplify_eq; [set_solver|].
    rewrite Hcur. destruct Hout; (split; [|split]);
      set_solver.
  - destruct (step_update_verified o) as [Heq|[Hst Heq]]; rewrite Hs in Heq; simplify_eq;
      set_solver.
  - destruct (step_boot_confirmed o id) as [Heq|[Hst Heq]]; rewrite Hs in Heq; simplify_eq;
      set_solver.
Qed.

(** ** The commit window *)

(** Where a step from [Ready] can go. *)
Lemma ready_targets ev r :
  wp (step_body N Ready ev) (λ st _ l,
    st = Ready ∨ voids_window st = true ∨ st = Locked ∧ l = [LatchLockdown]) r.
Proof.
  unfold step_body. wp_steps.
  assert (∀ id, wp (handle_corruption N id) (λ oc _ _, oc = Handled ∨
    oc = Transition (Recovering id)) r) as Hc.
  { intros id. eapply wp_mono; [apply handle_corruption_outcome|].
    intros oc r' l [?|[? _]]; auto. }
  destruct ev; cbn [handle handle_ready handle_supervising is_supervised];
    unfold emit, clear_awaiting_boot; wp_steps; try (by left);
    try (by right; right);
    try (eapply wp_mono; [apply wp_true|]; intros; wp_steps; by auto).
  - eapply wp_mono; [apply Hc|]. intros oc r' l [->| ->]; cbn beta; wp_steps; [by left|].
    eapply wp_mono; [apply wp_true|]. intros. wp_steps. auto.
  - destruct (is_awaiting_boot r id); cbn [negb]; wp_steps; [|by left].
    unfold emit. wp_steps. case_bool_decide.
    + eapply wp_mono; [apply Hc|]. intros oc r' l [->| ->]; cbn beta; wp_steps; [by left|].
      eapply wp_mono; [apply wp_true|]. intros. wp_steps. auto.
    + wp_steps. eapply wp_mono; [apply wp_true|]. intros. wp_steps. auto.
  - destruct (is_awaiting_boot r id); wp_steps; [|by left].
    eapply wp_mono; [apply wp_true|]. intros. wp_steps. auto.
  - destruct (pending_commit r); wp_steps; [|by left]. right; right. done.
Qed.

Lemma commit_timeout_locks r :
  pending_commit r = true → wp (step_body N Ready CommitTimeout) (λ st _ _, st = Locked) r.
Proof.
  intros Hp. unfold step_body. wp_steps. cbn [handle handle_ready]. wp_steps. rewrite Hp.
  wp_steps. eapply wp_mono; [apply wp_true|]. intros. by wp_steps.
Qed.

(** Entering a state that voids the window leaves it closed. *)
Lemma entry_voids ev r :
  wp (step_body N Ready ev) (λ st r' _, voids_window st = true → pending_commit r' = false) r.
Proof.
  unfold step_body. wp_steps. eapply wp_mono; [apply wp_true|]. intros oc0 r0 l0 _.
  cbn beta. wp_steps. eapply wp_mono; [apply wp_true|]. intros oc r1 l1 _. cbn beta.
  destruct oc as [|target|]; wp_steps; try done.
  eapply wp_mono; [apply entry_quiet|]. intros [] r2 l2 [_ Hp]. cbn beta. wp_steps.
  intros Hv. by rewrite Hv in Hp.
Qed.

(** The window is open only in [Ready] (or in the terminal state). *)
Definition window_ok (o : Orchestrator) : Prop :=
  pending_commit (rot o) = true → state o = Ready ∨ state o = Locked.

Lemma step_window_ok o ev o' l :
  rot_wf N (rot o) → window_ok o → step_emits N o ev = (o', l) → window_ok o'.
Proof.
  intros Hwf Hok Hs Hp. destruct (is_milestone_event ev) eqn:Hev.
  - destruct ev; try discriminate Hev.
    + rewrite (step_pass_pending _ _ _ _ Hwf Hs) in Hp.
      destruct (step_pass N o id Hwf) as [Heq|(a & o'' & l' & Hw & _ & Heq & _)];
        rewrite Hs in Heq; simplify_eq; [by apply Hok|].
      destruct (Hok Hp) as [Hst|Hst]; rewrite Hst in Hw; done.
    + destruct (step_update_verified o) as [Heq|[Hst Heq]]; rewrite Hs in Heq;
        simplify_eq; [by apply Hok|by left].
    + destruct (step_boot_confirmed o id) as [Heq|[Hst Heq]]; rewrite Hs in Heq;
        simplify_eq; by apply Hok.
  - pose proof (step_quiet o ev o' l Hev Hs) as [_ [Hsame|[? _]]]; [|congruence].
    rewrite Hsame in Hp. destruct (Hok Hp) as [Hst|Hst].
    + pose proof (ready_targets ev (rot o)) as Ht. unfold step_emits in Hs.
      destruct (match component_id ev with Some id => _ | None => _ end).
      { simplify_eq. by left. }
      rewrite Hst in Hs. unfold wp in Ht.
      pose proof (entry_voids ev (rot o)) as Hvoid. unfold wp in Hvoid.
      destruct (step_body N Ready ev (rot o)) as [[st r] l'] eqn:Hb. simplify_eq/=.
      destruct Ht as [->|[Hv|[-> _]]]; auto. specialize (Hvoid Hv). congruence.
    + destruct o as [r st]. simpl in Hst. subst st.
      unfold step_emits in Hs.
      destruct (match component_id ev with Some id => _ | None => _ end);
        [|cbn in Hs]; injection Hs as <- <-; by right.
Qed.

(** ** Corruption *)

Lemma wp_step o ev id (Q : Orchestrator → list Effect → Prop) :
  component_id ev = Some id → in_chain (rot o) id = true →
  wp (step_body N (state o) ev) (λ st r l, Q {| rot := r; state := st |} l) (rot o) →
  Q (step_emits N o ev).1 (step_emits N o ev).2.
Proof.
  intros Hid Hin. rewrite (step_emits_in_chain N o ev id) by done. unfold wp.
  by destruct (step_body N (state o) ev (rot o)) as [[st r] l].
Qed.

(** The states in which components may be running. *)
Definition running (st : State) : bool :=
  match st with PowerOnReset | Locked => false | _ => true end.

Lemma wp_corruption_required id r a (Q : Outcome → Rot → list Effect → Prop) :
  attrs_of r id = Some a → failure_policy a = Required → is_gated r id = false →
  Q (Transition (Recovering id)) r [] → wp (handle_corruption N id) Q r.
Proof.
  intros Ha Hp Hg HQ. unfold handle_corruption, gate_by_policy. wp_steps. rewrite Hg.
  wp_steps. rewrite Ha. cbn [fmap option_fmap option_map]. rewrite Hp. wp_steps. done.
Qed.

Lemma corruption_required_step o id a :
  attrs_of (rot o) id = Some a → failure_policy a = Required →
  is_gated (rot o) id = false → running (state o) = true →
  state (step_emits N o (CorruptionDetected id)).1 = Recovering id ∧
  ∃ n, (step_emits N o (CorruptionDetected id)).2 =
    (if decide (state o = Updating) then [DiscardStaged; ReportUpdateAborted] else []) ++
    [RecoverComponent id n].
Proof.
  intros Ha Hp Hg Hrun.
  apply (wp_step o _ id (λ o' l, state o' = Recovering id ∧ ∃ n, l = _ ++ [RecoverComponent id n]));
    [done|by apply in_chain_iff, (attrs_of_in_chain _ _ a)|].
  destruct o as [r st]; simpl in *. unfold step_body. wp_steps.
  destruct st; try done;
    cbn [handle handle_pre_supervision handle_awaiting_ready handle_ready handle_updating
         handle_recovering handle_supervising is_supervised];
    unfold handle_corruption_advancing; wp_steps;
    (eapply wp_corruption_required; [done..|]; unfold emit; wp_steps);
    (eapply wp_mono; [apply recovering_entry|]; intros [] r' l' [n ->]; cbn beta;
     wp_steps; split; [done|by exists n]).
Qed.

(** Gating reaches the component itself. *)
Lemma gate_one_gates id r :
  id ∈ (chain r).*1 → length (statuses r) = length (chain r) →
  wp (gate_one id) (λ _ r' l, is_gated r' id = true ∧ chain r' = chain r ∧
    (is_gated r id = false → AssertReset id ∈ l)) r.
Proof.
  intros Hin Hlen. unfold gate_one. wp_steps.
  destruct (is_gated r id) eqn:Hg; [by wp_steps|]. unfold emit. wp_steps. simpl.
  destruct (status_of_in_chain _ _ Hlen Hin) as [s Hs].
  split; [by rewrite is_gated_alt, status_of_with_status, decide_True, Hs|].
  split; [by autorewrite with rot|]. intros _. left.
Qed.

Lemma gate_by_policy_gates id r a :
  rot_wf N r → attrs_of r id = Some a → failure_policy a ≠ Required →
  wp (gate_by_policy N id) (λ b r' l, b = Gated ∧ is_gated r' id = true ∧
    (is_gated r id = false → AssertReset id ∈ l)) r.
Proof.
  intros Hwf Ha Hp. pose proof (attrs_of_in_chain _ _ _ Ha) as Hin.
  pose proof (wf_statuses _ _ Hwf) as Hlen.
  unfold gate_by_policy. wp_steps. rewrite Ha. cbn [fmap option_fmap option_map].
  destruct (failure_policy a); [done|..]; wp_steps.
  - eapply wp_mono; [by apply gate_one_gates|].
    intros b r1 l1 (H1 & _ & H2); cbn beta. wp_steps. simpl. by rewrite app_nil_r.
  - unfold cascade_hold. wp_steps.
    eapply wp_mono; [apply wp_and; [by apply gate_one_gates|apply (gate_one_keeps N)]|].
    intros b r1 l1 ((H1 & _ & H2) & Hk); cbn beta. destruct (Hk Hwf) as [Hwf1 _]. wp_steps.
    eapply wp_mono; [apply (cascade_loop_respects N (rot_keeps_chain N));
      [by intros ??? []|intros; apply gate_one_keeps_chain]|].
    intros res r2 l2 [_ Hk2]; cbn beta. wp_steps.
    destruct (Hk2 Hwf1) as [_ [_ _ Hmono]]. split; [done|]. split; [by apply Hmono|].
    intros Hg. rewrite !app_nil_r. simpl. apply elem_of_app. left. by apply H2.
Qed.

Lemma is_gated_clear_retries r id : is_gated (clear_retries r) id = is_gated r id.
Proof.
  rewrite !is_gated_alt. unfold clear_retries. rewrite status_of_map_statuses.
  by destruct (status_of r id).
Qed.

Lemma corruption_gating_step o id a :
  rot_wf N (rot o) → attrs_of (rot o) id = Some a → failure_policy a ≠ Required →
  is_gated (rot o) id = false → running (state o) = true →
  is_gated (rot (step_emits N o (CorruptionDetected id)).1) id = true ∧
  AssertReset id ∈ (step_emits N o (CorruptionDetected id)).2 ∧
  (state (step_emits N o (CorruptionDetected id)).1 = state o ∨
   state (step_emits N o (CorruptionDetected id)).1 = Ready).
Proof.
  intros Hwf Ha Hp Hg Hrun.
  apply (wp_step o _ id (λ o' l, is_gated (rot o') id = true ∧ AssertReset id ∈ l ∧
    (state o' = state o ∨ state o' = Ready)));
    [done|by apply in_chain_iff, (attrs_of_in_chain _ _ a)|].
  assert (wp (handle_corruption N id) (λ oc r' l, oc = Handled ∧ rot_wf N r' ∧
    is_gated r' id = true ∧ AssertReset id ∈ l) (rot o)) as Hcorr.
  { unfold handle_corruption. wp_steps. rewrite Hg. wp_steps.
    eapply wp_mono; [apply wp_and; [by eapply gate_by_policy_gates
      |apply (gate_by_policy_keeps N)]|].
    intros b r' l ((-> & H1 & H2) & Hk); cbn beta. wp_steps. simpl. rewrite app_nil_r.
    split; [done|]. split; [by apply Hk|]. split; [done|by apply H2]. }
  destruct o as [r st]; simpl in *. unfold step_body. wp_steps.
  assert (∀ st', state {| rot := r; state := st |} = st' →
    wp (handle_corruption_advancing N id) (λ oc r' l,
      (oc = Handled ∨ oc = Transition Ready) ∧ is_gated r' id = true ∧ AssertReset id ∈ l) r)
    as Hadv.
  { intros _ _. unfold handle_corruption_advancing. wp_steps. eapply wp_mono; [exact Hcorr|].
    intros oc r1 l1 (-> & Hwf1 & H1 & H2); cbn beta. wp_steps.
    case_match; wp_steps; [|rewrite app_nil_r; auto].
    eapply wp_mono; [apply wp_and; [apply (advance_keeps N)|apply wp_true]|].
    intros found r2 l2 [Hk _]; cbn beta. destruct (Hk Hwf1) as [_ [_ _ Hm]].
    destruct found; wp_steps; (split; [auto|]; split; [by apply Hm|]);
      apply elem_of_app; by left. }
  destruct st; try done;
    cbn [handle handle_pre_supervision handle_awaiting_ready handle_ready handle_updating
         handle_recovering handle_supervising is_supervised]; wp_steps.
  - eapply wp_mono; [by eapply Hadv|]. intros oc r' l ([->| ->] & H1 & H2); cbn beta; wp_steps.
    + rewrite app_nil_r. auto.
    + cbn [entry_action]. wp_steps. rewrite !app_nil_r. split; [|auto].
      cbn [rot]. fold (clear_retries r'). by rewrite is_gated_clear_retries.
  - eapply wp_mono; [by eapply Hadv|]. intros oc r' l ([->| ->] & H1 & H2); cbn beta; wp_steps.
    + rewrite app_nil_r. auto.
    + cbn [entry_action]. wp_steps. rewrite !app_nil_r. split; [|auto].
      cbn [rot]. fold (clear_retries r'). by rewrite is_gated_clear_retries.
  - eapply wp_mono; [exact Hcorr|]. intros oc r' l (-> & _ & H1 & H2); cbn beta; wp_steps.
    rewrite app_nil_r. auto.
  - eapply wp_mono; [exact Hcorr|]. intros oc r' l (-> & _ & H1 & H2); cbn beta; wp_steps.
    rewrite !app_nil_r. auto.
  - eapply wp_mono; [exact Hcorr|]. intros oc r' l (-> & _ & H1 & H2); cbn beta; wp_steps.
    rewrite app_nil_r. auto.
Qed.

(** ** The retry cap *)

(** The count a successful restore leaves: one more, saturating at [u8::MAX]. *)
Definition next_retry (s : ComponentStatus) : Z := saturating_add u8_MAX (retry s) 1.

Lemma wp_bump_retry id r s (Q : Z → Rot → list Effect → Prop) :
  status_of r id = Some s →
  Q (next_retry s) (with_status id (set_retry (next_retry s)) r) [] →
  wp (bump_retry id) Q r.
Proof.
  intros Hs HQ. unfold bump_retry. wp_steps.
  destruct (status_index r id) as [i|] eqn:Hi.
  - wp_steps. rewrite (status_at_of _ _ _ Hi), Hs. simpl.
    by rewrite (with_status_index id).
  - unfold status_of in Hs. by rewrite Hi in Hs.
Qed.

Lemma presupervision_entry_keeps_retry id s r :
  rot_wf N r → status_of r id = Some s →
  wp (entry_action PreSupervision) (λ _ r' _, ∃ s', status_of r' id = Some s' ∧
    retry s' = retry s ∧ lifecycle s' = lifecycle s) r.
Proof.
  intros Hwf Hs. cbn [entry_action]. wp_steps. eapply wp_quiesce_all; [done|]. wp_steps.
  assert (∃ s', status_of (quiesced r) id = Some s' ∧ retry s' = retry s ∧
    lifecycle s' = lifecycle s) as Hq.
  { unfold quiesced. rewrite status_of_map_statuses, Hs. simpl.
    exists (quiesce_status s). unfold quiesce_status. by destruct (released s). }
  eapply wp_advance; [by apply quiesced_wf|..].
  - intros i nid na _ _ _ _. by wp_steps.
  - intros _. by wp_steps.
Qed.

Lemma exhaust_required id r a :
  attrs_of r id = Some a → failure_policy a = Required →
  exhaust_recovery N id r = (Handled, r, [ReportRecoveryFailed id; Emit RecoveryFailed]).
Proof.
  intros Ha Hp. unfold exhaust_recovery, gate_by_policy, mbind, sw_bind. simpl.
  rewrite Ha. cbn [fmap option_fmap option_map]. by rewrite Hp.
Qed.

Lemma restored_step o id s a :
  rot_wf N (rot o) → state o = Recovering id → status_of (rot o) id = Some s →
  attrs_of (rot o) id = Some a →
  let o' := (step_emits N o (Restored id)).1 in
  let l := (step_emits N o (Restored id)).2 in
  if (next_retry s <? max_retry (rot o))%Z then
    state o' = PreSupervision ∧
    ∃ s', status_of (rot o') id = Some s' ∧ retry s' = next_retry s
  else if decide (failure_policy a = Required) then
    o' = {| rot := with_status id (set_retry (next_retry s)) (rot o);
            state := Recovering id |} ∧
    l = [ReportRecoveryFailed id; Emit RecoveryFailed]
  else state o' = PreSupervision ∧ is_gated (rot o') id = true.
Proof.
  intros Hwf Hst Hs Ha.
  apply (wp_step o _ id (λ o' l, if (next_retry s <? max_retry (rot o))%Z then
    state o' = PreSupervision ∧
    ∃ s', status_of (rot o') id = Some s' ∧ retry s' = next_retry s
  else if decide (failure_policy a = Required) then
    o' = {| rot := with_status id (set_retry (next_retry s)) (rot o);
            state := Recovering id |} ∧
    l = [ReportRecoveryFailed id; Emit RecoveryFailed]
  else state o' = PreSupervision ∧ is_gated (rot o') id = true));
    [done|by apply in_chain_iff, (attrs_of_in_chain _ _ a)|].
  destruct o as [r st]; simpl in *; subst st. unfold step_body. wp_steps.
  cbn [handle handle_recovering]. rewrite bool_decide_true by done. wp_steps.
  eapply wp_bump_retry; [done|]. wp_steps.
  set (r1 := with_status id (set_retry (next_retry s)) r).
  assert (rot_wf N r1) as Hwf1.
  { apply (keeps_with_status N id _ _ []); [|done|done].
    intros s' Hs' _. simpl. unfold next_retry, saturating_add, in_u8, u8_MAX.
    pose proof (wf_retry _ _ Hwf _ _ Hs). unfold in_u8, u8_MAX in *. lia. }
  assert (max_retry r1 = max_retry r) as -> by apply with_status_max_retry.
  assert (attrs_of r1 id = Some a) as Ha1.
  { unfold attrs_of in *. subst r1. by rewrite with_status_chain. }
  destruct (next_retry s <? max_retry r)%Z.
  - wp_steps. eapply wp_mono; [apply (presupervision_entry_keeps_retry id
      (set_retry (next_retry s) s)); [done|]|].
    + subst r1. by rewrite status_of_with_status, decide_True, Hs.
    + intros [] r' l (s' & H1 & H2 & _); cbn beta. wp_steps. split; [done|]. by exists s'.
  - case_decide as Hpol.
    + unfold wp at 1. rewrite (exhaust_required id r1 a) by done. by wp_steps.
    + unfold exhaust_recovery. wp_steps.
      eapply wp_mono; [apply wp_and; [by eapply gate_by_policy_gates
        |apply (gate_by_policy_keeps N)]|].
      intros b r2 l2 ((-> & Hg & _) & Hk); cbn beta. destruct (Hk Hwf1) as [Hwf2 _].
      unfold clear_retry. wp_steps. 
      eapply wp_mono; [apply (entry_action_keeps N PreSupervision)|].
      intros [] r3 l3 Hk3; cbn beta. wp_steps. split; [done|].
      destruct Hk3 as [_ [_ _ Hm]].
      * apply (keeps_with_status N id _ _ []); [|done|done].
        intros s' _ _. simpl. unfold in_u8, u8_MAX. lia.
      * apply Hm. rewrite is_gated_alt, status_of_with_status, decide_True by done.
        apply is_gated_true in Hg as (s2 & -> & Hl). simpl. by rewrite bool_decide_true.
Qed.

(** ** Exhaustion of a required component *)

(** Recovery of [id] is exhausted: one more restore reaches the cap. *)
Record exhausted (o : Orchestrator) (id : ComponentId) : Prop := {
  ex_state : state o = Recovering id;
  ex_required : ∃ a, attrs_of (rot o) id = Some a ∧ failure_policy a = Required;
  ex_count : ∃ s, status_of (rot o) id = Some s ∧ (max_retry (rot o) ≤ next_retry s)%Z;
}.

Definition recovering_or_locked (st : State) : Prop :=
  (∃ x, st = Recovering x) ∨ st = Locked.

Lemma recovering_targets id ev r :
  wp (step_body N (Recovering id) ev) (λ st _ _,
    recovering_or_locked st ∨ ev = Restored id ∨ ev = RecoveryUnavailable id) r.
Proof.
  assert (∀ x, recovering_or_locked (Recovering x)) as Hrec by (intros; left; eauto).
  assert (recovering_or_locked Locked) as Hlk by (by right).
  assert (∀ id, wp (handle_corruption N id) (λ oc _ _, oc = Handled ∨
    oc = Transition (Recovering id)) r) as Hc.
  { intros id'. eapply wp_mono; [apply handle_corruption_outcome|].
    intros oc r' l [?|[? _]]; auto. }
  unfold step_body. wp_steps.
  destruct ev; cbn [handle handle_recovering handle_supervising is_supervised];
    unfold emit, clear_awaiting_boot; wp_steps; try (by auto);
    try (eapply wp_mono; [apply wp_true|]; intros; wp_steps; by auto).
  - eapply wp_mono; [apply Hc|]. intros oc r' l [->| ->]; cbn beta; wp_steps; [by auto|].
    eapply wp_mono; [apply wp_true|]. intros. wp_steps. auto.
  - case_bool_decide; [subst|wp_steps; by auto].
    eapply wp_mono; [apply wp_true|]. intros oc r' l _; cbn beta. wp_steps.
    eapply wp_mono; [apply wp_true|]. intros oc' r'' l' _; cbn beta.
    destruct oc'; wp_steps; auto. eapply wp_mono; [apply wp_true|]. intros. wp_steps. auto.
  - case_bool_decide; [subst|wp_steps; by auto].
    eapply wp_mono; [apply wp_true|]. intros oc r' l _; cbn beta. wp_steps.
    eapply wp_mono; [apply wp_true|]. intros oc' r'' l' _; cbn beta.
    destruct oc'; wp_steps; auto. eapply wp_mono; [apply wp_true|]. intros. wp_steps. auto.
  - destruct (is_awaiting_boot r id0); cbn [negb]; wp_steps; [|by auto].
    unfold emit. wp_steps. case_bool_decide.
    + eapply wp_mono; [apply Hc|]. intros oc r' l [->| ->]; cbn beta; wp_steps; [by auto|].
      eapply wp_mono; [apply wp_true|]. intros. wp_steps. auto.
    + wp_steps. eapply wp_mono; [apply wp_true|]. intros. wp_steps. auto.
  - destruct (is_awaiting_boot r id0); wp_steps; [|by auto].
    eapply wp_mono; [apply wp_true|]. intros. wp_steps. auto.
Qed.

Lemma exhausted_restored o id :
  rot_wf N (rot o) → exhausted o id →
  exhausted (step_emits N o (Restored id)).1 id ∧
  (step_emits N o (Restored id)).2 = [ReportRecoveryFailed id; Emit RecoveryFailed].
Proof.
  intros Hwf [Hst (a & Ha & Hp) (s & Hs & Hn)].
  pose proof (restored_step o id s a Hwf Hst Hs Ha) as H. simpl in H.
  destruct (next_retry s <? max_retry (rot o))%Z eqn:Hlt; [apply Z.ltb_lt in Hlt; lia|].
  rewrite decide_True in H by done. destruct H as [-> ->]. split; [|done].
  split; cbn [rot state].
  - done.
  - exists a. split; [|done]. unfold attrs_of in *. by rewrite with_status_chain.
  - exists (set_retry (next_retry s) s).
    rewrite status_of_with_status, decide_True, Hs, with_status_max_retry by done.
    split; [done|]. pose proof (wf_max_retry _ _ Hwf).
    unfold next_retry, saturating_add, in_u8, u8_MAX in *. simpl. lia.
Qed.

Lemma exhausted_targets o id ev :
  rot_wf N (rot o) → exhausted o id →
  recovering_or_locked (state (step_emits N o ev).1).
Proof.
  intros Hwf Hex. pose proof Hex as [Hst (a & Ha & Hp) _].
  assert (recovering_or_locked (state o)) as Hstay by (left; eauto).
  destruct (decide (ev = Restored id)) as [->|Hnr].
  { destruct (exhausted_restored o id Hwf Hex) as [[-> _ _] _]. left. eauto. }
  destruct (decide (ev = RecoveryUnavailable id)) as [->|Hnu].
  { apply (wp_step o _ id (λ o' _, recovering_or_locked (state o')));
      [done|by apply in_chain_iff, (attrs_of_in_chain _ _ a)|].
    rewrite Hst. unfold step_body. wp_steps. cbn [handle handle_recovering].
    rewrite bool_decide_true by done. unfold wp at 1.
    rewrite (exhaust_required id (rot o) a) by done. wp_steps. left. eauto. }
  unfold step_emits.
  destruct (match component_id ev with Some id => _ | None => _ end); [done|].
  rewrite Hst. pose proof (recovering_targets id ev (rot o)) as Ht. unfold wp in Ht.
  destruct (step_body N (Recovering id) ev (rot o)) as [[st r] l]. simpl.
  by destruct Ht as [?|[?|?]].
Qed.
End behave.

Section exhaustion.
Context (N E : nat) {P : Type} `{Platform P}.

Lemma locked_settles fuel r p pending failed :
  length pending ≤ PENDING_CAP → PENDING_CAP ≤ fuel →
  let d := dispatch_loop N E fuel {| rot := r; state := Locked |} p pending failed in
  d_done d = true ∧ state (d_orch d) = Locked.
Proof. intros Hp Hf. rewrite locked_drains by lia. done. Qed.

(** [RecoveryFailed] at the front of the queue locks the machine. *)
Lemma recovery_failed_settles fuel o p more :
  E ≥ 1 → recovering_or_locked (state o) → length (RecoveryFailed :: more) ≤ PENDING_CAP →
  2 + PENDING_CAP ≤ fuel →
  let d := dispatch_loop N E fuel o p (RecoveryFailed :: more) false in
  d_done d = true ∧ state (d_orch d) = Locked.
Proof.
  intros HE Hst Hcap Hfuel. destruct fuel as [|fuel]; [lia|]. cbn [dispatch_loop].
  assert (∃ l, step N E o RecoveryFailed = ({| rot := rot o; state := Locked |}, l)) as [l ->].
  { destruct o as [r st]. simpl in *. destruct Hst as [[x ->]| ->]; eexists; by unfold step. }
  pose proof (run_batch_ok l p more false) as Hb. simpl in Hcap |- *.
  assert (length (b_pending (run_batch l p more false)) ≤ PENDING_CAP) as Hc
    by (apply (bo_cap _ _ _ _ Hb); lia).
  apply locked_settles; [done|lia].
Qed.

(** When a required component runs out of restores, the dispatch that learns of
    it locks the platform, whatever the platform answers. *)
Lemma exhausted_settles fuel o p id g :
  E ≥ 2 * N + 2 → inv N g o → exhausted o id → 4 + PENDING_CAP ≤ fuel →
  let d := dispatch N E fuel o p (Restored id) in
  d_done d = true ∧ state (d_orch d) = Locked.
Proof.
  intros HE Hinv Hex Hfuel. pose proof (inv_wf _ _ _ Hinv) as Hwf.
  destruct fuel as [|fuel]; [lia|]. unfold dispatch. cbn [dispatch_loop].
  rewrite (step_buffer N E g) by done.
  destruct (exhausted_restored N o id Hwf Hex) as [Hex1 Hl1].
  destruct (step_emits N o (Restored id)) as [o1 l1] eqn:Hs1. simpl in Hex1, Hl1. subst l1.
  destruct (step_emits_inv N g o _ _ _ Hs1 Hinv) as (g1 & _ & Hinv1).
  assert (recovering_or_locked (state o1)) as Hrl by (destruct Hex1 as [-> _ _]; left; eauto).
  simpl. destruct (execute p (ReportRecoveryFailed id)) as [p' [[ev|]|err]]; simpl.
  - (* an event ahead of [RecoveryFailed] *)
    destruct fuel as [|fuel]; [lia|]. cbn [dispatch_loop].
    rewrite (step_buffer N E g1) by done.
    pose proof (exhausted_targets N o1 id ev (inv_wf _ _ _ Hinv1) Hex1) as Ht.
    destruct (step_emits N o1 ev) as [o2 l2]. simpl in Ht |- *.
    pose proof (run_batch_ok l2 p' [RecoveryFailed] false) as Hb.
    assert (length (b_pending (run_batch l2 p' [RecoveryFailed] false)) ≤ PENDING_CAP) as Hc.
    { apply (bo_cap _ _ _ _ Hb). unfold PENDING_CAP. simpl. lia. }
    destruct (b_failed (run_batch l2 p' [RecoveryFailed] false)) eqn:Hf.
    + edestruct (latched_finishes N E fuel o2) as (H1 & H2 & _);
        [lia|exact Hc|by apply (bo_latched _ _ _ _ Hb)|lia|]. by rewrite H1, H2.
    + destruct (bo_pending _ _ _ _ Hb) as [more Hmore]; [by rewrite Hf|].
      rewrite Hmore in Hc |- *. apply recovery_failed_settles; try done; lia.
  - apply recovery_failed_settles; try done; [lia| |lia]. unfold PENDING_CAP. simpl. lia.
  - edestruct (latched_finishes N E fuel o1) as (H1 & H2 & _); [lia| | |lia|];
      [..|by rewrite H1, H2]; [|done]. unfold PENDING_CAP. simpl. lia.
Qed.
End exhaustion.

(** ** Properties *)

Lemma reachable_window_ok N E c max_retry o :
  board_ok N E c max_retry → reachable N E c max_retry o → window_ok o.
Proof.
  intros Hb. apply (reachable_ind_inv N E c max_retry window_ok); [done|by intros [=]|].
  intros g o0 ev o' l Hinv Hok Hs. eapply step_window_ok; [by destruct Hinv|done|done].
Qed.

(** Every milestone answers its own event.  From every reachable state, a
    component is released only by the [VerificationPassed] that names it, while
    the walk runs and the cursor is on it; an update is activated only by
    [UpdateVerified] in [Updating]; the anti-rollback floor is committed only
    by [BootConfirmed], in [Ready], for the component the event names. *)
Theorem milestones_answer_their_event N E c max_retry o ev o' l :
  board_ok N E c max_retry → reachable N E c max_retry o → step N E o ev = (o', l) →
  (∀ id, ReleaseReset id ∈ l → ev = VerificationPassed id ∧ walking (state o) = true ∧
     fst <$> cursor_entry (rot o) = Some id) ∧
  (ActivateUpdate ∈ l → ev = UpdateVerified ∧ state o = Updating) ∧
  (∀ id, CommitSvnFloor id ∈ l → ev = BootConfirmed id ∧ state o = Ready).
Proof.
  intros Hb Hr Hs. rewrite (reachable_step _ _ _ _ _ _ Hb Hr) in Hs.
  destruct (reachable_inv _ _ _ _ _ Hb Hr) as [g [Hwf _ _]]. by eapply step_milestones.
Qed.

Definition ex_booting : Orchestrator := (run 3 8 ex_start [PowerGood Provisioned]).1.

Lemma milestones_answer_their_event_witness :
  VerificationPassed ex_A = VerificationPassed ex_A ∧ walking (state ex_booting) = true ∧
  fst <$> cursor_entry (rot ex_booting) = Some ex_A.
Proof.
  apply (milestones_answer_their_event 3 8 ex_chain 2 ex_booting (VerificationPassed ex_A)
    (step 3 8 ex_booting (VerificationPassed ex_A)).1
    (step 3 8 ex_booting (VerificationPassed ex_A)).2).
  - apply ex_board_ok.
  - exists [PowerGood Provisioned], [ReadFirmware ex_A; VerifyFirmware ex_A]. reflexivity.
  - reflexivity.
  - vm_compute. left.
Defined.

(** C31: Commit or lock.  In every reachable state an activated but uncommitted
    update ([pending_commit]) exists only in [Ready] (or after lockdown), and
    from there every event keeps the window open, closes it by committing the
    floor of the confirmed component, locks the platform (the commit watchdog
    always does), or voids the window by a new update or a recovery; the floor
    moves in the second case only. *)
Theorem commit_or_lock N E c max_retry o :
  board_ok N E c max_retry → reachable N E c max_retry o →
  pending_commit (rot o) = true →
  (state o = Ready ∨ state o = Locked) ∧
  (state o = Ready → ∀ ev o' l, step N E o ev = (o', l) →
     (∃ id, ev = BootConfirmed id ∧ l = [CommitSvnFloor id] ∧ state o' = Ready ∧
        pending_commit (rot o') = false) ∨
     (∀ id, CommitSvnFloor id ∉ l) ∧
     (state o' = Ready ∧ pending_commit (rot o') = true ∧ ev ≠ CommitTimeout ∨
      state o' = Locked ∧ l = [LatchLockdown] ∨
      voids_window (state o') = true ∧ pending_commit (rot o') = false)).
Proof.
  intros Hb Hr Hp. destruct (reachable_inv _ _ _ _ _ Hb Hr) as [g Hinv].
  pose proof (inv_wf _ _ _ Hinv) as Hwf.
  split; [by eapply reachable_window_ok|]. intros Hst ev o' l Hs.
  rewrite (reachable_step _ _ _ _ _ _ Hb Hr) in Hs.
  destruct (step_milestones N o ev o' l Hwf Hs) as (_ & _ & Hcommit).
  destruct (is_milestone_event ev) eqn:Hev.
  - destruct ev; try discriminate Hev.
    + right. split; [intros id' Hin; by destruct (Hcommit _ Hin)|]. left.
      destruct (step_pass N o id Hwf) as [Heq|(a & o'' & l' & Hw & _)];
        [|by rewrite Hst in Hw]. rewrite Hs in Heq. by simplify_eq.
    + right. split; [intros id' Hin; by destruct (Hcommit _ Hin)|]. left.
      destruct (step_update_verified N o) as [Heq|[Hst' _]]; [|congruence].
      rewrite Hs in Heq. by simplify_eq.
    + destruct (step_boot_confirmed N o id) as [Heq|[_ Heq]]; rewrite Hs in Heq; simplify_eq.
      * right. split; [set_solver|]. left. done.
      * left. by exists id.
  - right. split; [intros id' Hin; by destruct (Hcommit _ Hin) as [-> _]|].
    pose proof (step_quiet N o ev o' l Hev Hs) as [_ Hpend].
    pose proof (ready_targets N ev (rot o)) as Ht.
    pose proof (entry_voids N ev (rot o)) as Hv. unfold wp in Ht, Hv.
    unfold step_emits in Hs.
    destruct (match component_id ev with Some id => _ | None => _ end) eqn:Hd.
    { simplify_eq. left. repeat split; try done. intros ->. by simpl in Hd. }
    rewrite Hst in Hs. destruct (step_body N Ready ev (rot o)) as [[st r] l'] eqn:Hbody.
    simplify_eq/=. destruct Ht as [->|[Hvw|[-> ->]]]; [|by right; right; auto|by auto].
    left. split; [done|]. destruct Hpend as [->|[_ ?]]; [|done]. split; [done|].
    intros ->. pose proof (commit_timeout_locks N (rot o) Hp) as Hl.
    unfold wp in Hl. by rewrite Hbody in Hl.
Qed.

(** The example board with an update activated and not yet confirmed. *)
Definition ex_updated_events : list Event :=
  [PowerGood Provisioned; VerificationPassed ex_A; VerificationPassed ex_B;
   VerificationPassed ex_C; UpdateRequest; UpdateVerified].
Definition ex_updated : Orchestrator := (run 3 8 ex_start ex_updated_events).1.

Lemma commit_or_lock_witness : state ex_updated = Ready ∨ state ex_updated = Locked.
Proof.
  apply (commit_or_lock 3 8 ex_chain 2 ex_updated).
  - apply ex_board_ok.
  - exists ex_updated_events, (run 3 8 ex_start ex_updated_events).2. reflexivity.
  - vm_compute. reflexivity.
Defined.

(** Attestation.  A challenge is answered with exactly one
    [SignAttestation] in the four supervised states, changing nothing, and is
    discarded in the others (before the walk has released an active component,
    and after lockdown). *)
Theorem attestation_answered_iff_supervised N E o :
  (E ≥ 1)%nat →
  step N E o AttestationChallenge =
    (o, if is_supervised (state o) then [SignAttestation] else []).
Proof.
  intros HE. destruct o as [r st]. unfold step.
  assert (Sink_effects E [SignAttestation] = [SignAttestation]) as Hsink
    by (unfold Sink_effects; simpl; by rewrite vec_push_fits by (simpl; lia)).
  assert (step_emits N {| rot := r; state := st |} AttestationChallenge =
    ({| rot := r; state := st |}, if is_supervised st then [SignAttestation] else [])) as ->
    by (by destruct st).
  simpl. by destruct (is_supervised st); rewrite ?Hsink.
Qed.

Lemma attestation_answered_iff_supervised_witness :
  step 3 8 ex_updated AttestationChallenge = (ex_updated, [SignAttestation]).
Proof. apply (attestation_answered_iff_supervised 3 8 ex_updated). lia. Defined.

(** Corruption is contained.  When a component in service is reported
    corrupt while components may be running, a required one always enters
    recovery ([RecoverComponent] is the last effect, after the staged image of
    an interrupted update is discarded and its requester told), and any other is
    held in reset and isolated at once, without recovery. *)
Theorem corruption_is_contained N E c max_retry o id a :
  board_ok N E c max_retry → reachable N E c max_retry o →
  attrs_of (rot o) id = Some a → is_gated (rot o) id = false → running (state o) = true →
  let o' := (step N E o (CorruptionDetected id)).1 in
  let l := (step N E o (CorruptionDetected id)).2 in
  if decide (failure_policy a = Required) then
    state o' = Recovering id ∧
    ∃ n, l = (if decide (state o = Updating) then [DiscardStaged; ReportUpdateAborted]
              else []) ++ [RecoverComponent id n]
  else is_gated (rot o') id = true ∧ AssertReset id ∈ l ∧
       (state o' = state o ∨ state o' = Ready).
Proof.
  intros Hb Hr Ha Hg Hrun. rewrite (reachable_step _ _ _ _ _ _ Hb Hr). simpl.
  destruct (reachable_inv _ _ _ _ _ Hb Hr) as [g [Hwf _ _]].
  case_decide; [by eapply corruption_required_step|by eapply corruption_gating_step].
Qed.

Lemma corruption_is_contained_witness :
  state (step 3 8 ex_updated (CorruptionDetected ex_B)).1 = Recovering ex_B.
Proof.
  apply (corruption_is_contained 3 8 ex_chain 2 ex_updated ex_B
    (with_depends_on passive_required ex_A)).
  - apply ex_board_ok.
  - exists ex_updated_events, (run 3 8 ex_start ex_updated_events).2. reflexivity.
  - vm_compute. reflexivity.
  - vm_compute. reflexivity.
  - vm_compute. reflexivity.
Defined.

(** The retry cap.  A restore of the component under recovery adds one
    (saturating) to its own count; below [max_retry] the platform is re-walked
    with the new count on record, at the cap a component that may be lost is
    isolated and the platform re-walked, and a required one is reported and
    [RecoveryFailed] is emitted, with no further recovery attempt. *)
Theorem retry_cap_enforced N E c max_retry o id s a :
  board_ok N E c max_retry → reachable N E c max_retry o →
  state o = Recovering id → status_of (rot o) id = Some s → attrs_of (rot o) id = Some a →
  let o' := (step N E o (Restored id)).1 in
  let l := (step N E o (Restored id)).2 in
  if (next_retry s <? SmCore.max_retry (rot o))%Z then
    state o' = PreSupervision ∧
    ∃ s', status_of (rot o') id = Some s' ∧ retry s' = next_retry s
  else if decide (failure_policy a = Required) then
    o' = {| rot := with_status id (set_retry (next_retry s)) (rot o);
            state := Recovering id |} ∧
    l = [ReportRecoveryFailed id; Emit RecoveryFailed]
  else state o' = PreSupervision ∧ is_gated (rot o') id = true.
Proof.
  intros Hb Hr Hst Hs Ha. rewrite (reachable_step _ _ _ _ _ _ Hb Hr).
  destruct (reachable_inv _ _ _ _ _ Hb Hr) as [g [Hwf _ _]]. by apply restored_step.
Qed.

Definition ex_recovering_events : list Event :=
  [PowerGood Provisioned; VerificationPassed ex_A; VerificationFailed ex_B; Restored ex_B;
   VerificationPassed ex_A; VerificationFailed ex_B].
Definition ex_recovering : Orchestrator := (run 3 8 ex_start ex_recovering_events).1.

Lemma ex_recovering_reachable : reachable 3 8 ex_chain 2 ex_recovering.
Proof. exists ex_recovering_events, (run 3 8 ex_start ex_recovering_events).2. reflexivity. Qed.

Lemma retry_cap_enforced_witness :
  (step 3 8 ex_recovering (Restored ex_B)).2 =
    [ReportRecoveryFailed ex_B; Emit RecoveryFailed].
Proof.
  apply (retry_cap_enforced 3 8 ex_chain 2 ex_recovering ex_B
    {| lifecycle := Nominal; retry := 1; awaiting_boot := false; released := false |}
    (with_depends_on passive_required ex_A) ex_board_ok ex_recovering_reachable);
    vm_compute; reflexivity.
Defined.

(** C30: Exhaustion of a required component locks the platform.  When the restore
    that reaches the cap of a required component is dispatched, the machine is
    in [Locked] at the end of that dispatch, on every platform: no answer the
    platform gives to [ReportRecoveryFailed], and no effect of an event it
    returns, can get ahead of the lockdown; twelve rounds are enough. *)
Theorem exhausted_required_locks (N E : nat) (P : Type) (plat : Platform P)
    c max_retry o p id fuel :
  board_ok N E c max_retry → reachable N E c max_retry o → exhausted o id →
  (12 ≤ fuel)%nat →
  let d := dispatch N E fuel o p (Restored id) in
  d_done d = true ∧ state (d_orch d) = Locked.
Proof.
  intros Hb Hr Hex Hf. destruct (reachable_inv _ _ _ _ _ Hb Hr) as [g Hinv].
  eapply exhausted_settles; [by destruct Hb|done|done|done].
Qed.

Lemma exhausted_required_locks_witness :
  state (d_orch (dispatch 3 8 (H := passing_execute) 12 ex_recovering () (Restored ex_B)))
    = Locked.
Proof.
  apply (exhausted_required_locks 3 8 unit passing_execute ex_chain 2 ex_recovering () ex_B 12
    ex_board_ok ex_recovering_reachable); [|lia].
  split; [vm_compute; reflexivity| |].
  - exists (with_depends_on passive_required ex_A). split; vm_compute; reflexivity.
  - exists {| lifecycle := Nominal; retry := 1; awaiting_boot := false; released := false |}.
    split; [vm_compute; reflexivity|vm_compute; discriminate].
Defined.

(** [Locked] is terminal.  No sequence of events, [EffectFailed] included,
    moves a locked machine, changes its storage or makes it emit anything. *)
Theorem locked_is_terminal N E o evs :
  state o = Locked → run N E o evs = (o, []).
Proof.
  destruct o as [r st]. simpl. intros ->. induction evs as [|ev evs IH]; [done|].
  simpl. rewrite step_locked. by rewrite IH.
Qed.

Lemma locked_is_terminal_witness :
  run 3 8 {| rot := rot ex_start; state := Locked |} [PowerGood Provisioned; EffectFailed] =
    ({| rot := rot ex_start; state := Locked |}, []).
Proof.
  apply (locked_is_terminal 3 8 {| rot := rot ex_start; state := Locked |}). reflexivity.
Defined.

(** *** A walk with nothing left to walk *)

(** In [PreSupervision] with every component isolated, nothing happens. *)
Lemma all_isolated_step N g o ev :
  inv N g o → state o = PreSupervision →
  (∀ id, id ∈ (chain (rot o)).*1 → is_gated (rot o) id = true) → ev ≠ EffectFailed →
  ∃ r', step_emits N o ev = ({| rot := r'; state := PreSupervision |}, []).
Proof.
  intros [Hwf Hag Hw] Hst Hall Hev. destruct o as [r st]. simpl in *. subst st.
  specialize (Hw eq_refl).
  assert (cursor_entry r = None) as Hcur.
  { destruct (cursor_entry r) as [[id a]|] eqn:Hc; [|done].
    pose proof (walk_checking _ _ Hw _ _ Hc) as Hchk.
    destruct (cursor_entry_id r id) as (_ & _ & _ & Hin); [by rewrite Hc|].
    pose proof (proj1 (agree_gated g r id Hag Hin (proj2 (status_of_is_Some N r id Hwf) Hin))
      (Hall id Hin)). congruence. }
  assert (∀ id, id ∈ (chain r).*1 → is_awaiting_boot r id = false) as Haw.
  { intros id Hin. destruct (is_awaiting_boot r id) eqn:Ha; [|done].
    apply (awaiting_not_gated g r id Hag) in Ha. by rewrite Hall in Ha. }
  unfold step_emits. simpl.
  assert (∀ id, component_id ev = Some id → in_chain r id = true → id ∈ (chain r).*1) as Hin
    by (intros; by apply in_chain_iff).
  cut ((∀ id, component_id ev = Some id → id ∈ (chain r).*1) →
    wp (step_body N PreSupervision ev) (λ st _ l, st = PreSupervision ∧ l = []) r).
  { intros Hcut. unfold wp in Hcut.
    destruct (component_id ev) as [id|] eqn:Hid; [destruct (in_chain r id) eqn:Hic; simpl|];
      [..|by exists r|];
      (destruct (step_body N PreSupervision ev r) as [[st r'] l];
       destruct Hcut as [-> ->]; [naive_solver|eauto]). }
  clear Hin. intros Hin. unfold step_body. wp_steps.
  destruct ev; cbn [handle handle_pre_supervision is_supervised component_id] in *;
    unfold clear_awaiting_boot; wp_steps; try done; specialize (Hin _ eq_refl).
  - rewrite Hcur. rewrite bool_decide_false by done. by wp_steps.
  - rewrite (Hall _ Hin). by wp_steps.
  - unfold handle_corruption_advancing, handle_corruption. wp_steps.
    rewrite (Hall _ Hin). wp_steps. rewrite Hcur. by wp_steps.
  - rewrite (Haw _ Hin). by wp_steps.
  - rewrite (Haw _ Hin). by wp_steps.
Qed.

Lemma all_isolated_run N E g o evs :
  (E ≥ 2 * N + 2)%nat → inv N g o → state o = PreSupervision →
  (∀ id, id ∈ (chain (rot o)).*1 → is_gated (rot o) id = true) → EffectFailed ∉ evs →
  ∃ r', run N E o evs = ({| rot := r'; state := PreSupervision |}, []).
Proof.
  intros HE. revert g o. induction evs as [|ev evs IH]; intros g o Hinv Hst Hall Hne.
  { exists (rot o). destruct o. simpl in *. by subst. }
  apply not_elem_of_cons in Hne as [Hne Hnes].
  destruct (all_isolated_step N g o ev Hinv Hst Hall) as [r' Hs]; [congruence|].
  simpl. rewrite (step_buffer N E g) by done. rewrite Hs.
  destruct (step_emits_inv _ _ _ _ _ _ Hs Hinv) as (g' & _ & Hinv').
  destruct (step_emits_keeps _ _ _ _ _ Hs (inv_wf _ _ _ Hinv)) as [_ [Hc _ Hm]].
  edestruct (IH g') as [r'' Hrun]; [exact Hinv'|done| |done|].
  - simpl in *. intros id. rewrite Hc. auto.
  - rewrite Hrun. by exists r''.
Qed.

(** A walk with every component isolated never ends.  If the machine is in
    [PreSupervision] and every component of the chain is isolated, then no
    sequence of events short of [EffectFailed] makes it leave that state or
    emit an effect: it never reaches [Ready], and attestation challenges stay
    unanswered for good.  (The entry action ignores that
    [advance_to_next_ungated] found nothing to verify.) *)
Theorem all_isolated_walk_never_ends N E c max_retry o evs :
  board_ok N E c max_retry → reachable N E c max_retry o →
  state o = PreSupervision →
  (∀ id, id ∈ (chain (rot o)).*1 → is_gated (rot o) id = true) →
  EffectFailed ∉ evs →
  state (run N E o evs).1 = PreSupervision ∧ (run N E o evs).2 = [].
Proof.
  intros Hb Hr Hst Hall Hne. destruct (reachable_inv _ _ _ _ _ Hb Hr) as [g Hinv].
  destruct (all_isolated_run N E g o evs) as [r' ->]; try done. by destruct Hb.
Qed.

(** A board with a single component that can be isolated, after its recovery
    source ran dry. *)
Definition ex_solo : Chain := {| entries := [(ex_C, passive_isolable)] |}.
Definition ex_solo_events : list Event :=
  [PowerGood Provisioned; VerificationFailed ex_C; RecoveryUnavailable ex_C].
Definition ex_solo_lost : Orchestrator :=
  (run 1 4 (Orchestrator_new 1 ex_solo 2) ex_solo_events).1.

Lemma all_isolated_walk_never_ends_witness :
  state (run 1 4 ex_solo_lost
    [AttestationChallenge; CorruptionDetected ex_C; PowerGood Provisioned]).1 = PreSupervision.
Proof.
  apply (all_isolated_walk_never_ends 1 4 ex_solo 2 ex_solo_lost).
  - split; [|lia|unfold in_u8, u8_MAX; lia]. exists [(ex_C, passive_isolable)].
    split; [simpl; lia|reflexivity].
  - exists ex_solo_events, (run 1 4 (Orchestrator_new 1 ex_solo 2) ex_solo_events).2.
    reflexivity.
  - vm_compute. reflexivity.
  - intros id Hin. apply list_elem_of_singleton in Hin. subst id. vm_compute. reflexivity.
  - intros Hin. repeat (apply elem_of_cons in Hin as [Hin|Hin]; [discriminate|]).
    by apply not_elem_of_nil in Hin.
Defined.

(** A contained cascade can still lock the platform.  A required component
    that a cascade isolated while it was under recovery is held and reported
    like any other; but when its recovery source then reports it has nothing
    left, the machine still escalates to [RecoveryFailed] (and so to lockdown)
    for a component it has already taken out of service. *)
Theorem isolated_required_still_escalates N E c max_retry o id a :
  board_ok N E c max_retry → reachable N E c max_retry o →
  state o = Recovering id → attrs_of (rot o) id = Some a → failure_policy a = Required →
  is_gated (rot o) id = true →
  step N E o (RecoveryUnavailable id) =
    (o, [ReportRecoveryFailed id; Emit RecoveryFailed]).
Proof.
  intros Hb Hr Hst Ha Hp _. rewrite (reachable_step _ _ _ _ _ _ Hb Hr).
  rewrite (step_emits_in_chain N o _ id) by (done || by apply in_chain_iff, (attrs_of_in_chain _ _ a)).
  destruct o as [r st]. simpl in *. subst st.
  unfold step_body, mbind, sw_bind. simpl. rewrite bool_decide_true by done.
  by rewrite (exhaust_required N id r a).
Qed.

Definition ex_cascaded_events : list Event :=
  [PowerGood Provisioned; VerificationPassed ex_A; VerificationFailed ex_B;
   CorruptionDetected ex_A].
Definition ex_cascaded : Orchestrator := (run 3 8 ex_start ex_cascaded_events).1.

Lemma isolated_required_still_escalates_witness :
  step 3 8 ex_cascaded (RecoveryUnavailable ex_B) =
    (ex_cascaded, [ReportRecoveryFailed ex_B; Emit RecoveryFailed]).
Proof.
  apply (isolated_required_still_escalates 3 8 ex_chain 2 ex_cascaded ex_B
    (with_depends_on passive_required ex_A)).
  - apply ex_board_ok.
  - exists ex_cascaded_events, (run 3 8 ex_start ex_cascaded_events).2. reflexivity.
  - vm_compute. reflexivity.
  - vm_compute. reflexivity.
  - vm_compute. reflexivity.
  - vm_compute. reflexivity.
Defined.
