(* ===== verification/Timer.v ===== *)
(** * Watchdog timers

    [services/orchestrator/timer/src/lib.rs] ([TimerManager]) and its binding to
    the kernel clock, [services/orchestrator/server/src/runtime.rs]
    ([BootWatchdogs]).  The manager's vector of armed boot watchdogs is refined
    to a finite map from identifiers to deadlines; deadlines are integers (the
    code asks for [Copy + Ord] only). *)

From S2P Require Import Prelude SmModel.
From stdpp Require Import base tactics list numbers gmap fin_maps.
Local Open Scope Z_scope.

Inductive Full := mkFull.

Inductive Expired (Id : Type) := Boot (id : Id) | Commit.
Arguments Boot {Id} id.
Arguments Commit {Id}.

Section timer.
Context {Id : Type} `{Countable Id} (N : nat).

Record BootDeadline := mkBootDeadline { bd_id : Id; bd_at : Z }.

Record TimerManager := mkTimerManager {
  boot : list BootDeadline;
  commit : option Z;
}.

Definition TimerManager_new : TimerManager := {| boot := []; commit := None |}.

Definition has_id (id : Id) (d : BootDeadline) : bool := bool_decide (bd_id d = id).

(** [iter_mut().find(|d| d.id == id)] followed by [d.at = deadline], or a push. *)
Definition arm_boot (t : TimerManager) (id : Id) (deadline : Z) :
    TimerManager * result unit Full :=
  match position (has_id id) (boot t) with
  | Some i =>
      ({| boot := alter (λ d, {| bd_id := bd_id d; bd_at := deadline |}) i (boot t);
          commit := commit t |}, Ok ())
  | None =>
      if decide (length (boot t) < N)%nat then
        ({| boot := boot t ++ [{| bd_id := id; bd_at := deadline |}];
            commit := commit t |}, Ok ())
      else (t, Err mkFull)
  end.

Definition cancel_boot (t : TimerManager) (id : Id) : TimerManager :=
  match position (has_id id) (boot t) with
  | Some i => {| boot := swap_remove i (boot t); commit := commit t |}
  | None => t
  end.

Definition arm_commit (t : TimerManager) (deadline : Z) : TimerManager :=
  {| boot := boot t; commit := Some deadline |}.

Definition cancel_commit (t : TimerManager) : TimerManager :=
  {| boot := boot t; commit := None |}.

(** [iter().min()]. *)
Definition list_min (l : list Z) : option Z :=
  match l with [] => None | x :: l' => Some (foldl Z.min x l') end.

Definition next_deadline (t : TimerManager) : option Z :=
  match list_min (bd_at <$> boot t), commit t with
  | Some b, Some c => Some (Z.min b c)
  | Some b, None => Some b
  | None, c => c
  end.

(** [min_by] keeps the first of equal minima. *)
Definition min_step (best : option (nat * BootDeadline)) (x : nat * BootDeadline) :=
  match best with
  | None => Some x
  | Some b => if bd_at b.2 <=? bd_at x.2 then Some b else Some x
  end.

Definition earliest_boot (t : TimerManager) (now : Z) : option (nat * BootDeadline) :=
  foldl min_step None (filter (λ x, bd_at x.2 ≤ now) (imap pair (boot t))).

Definition poll (t : TimerManager) (now : Z) : TimerManager * option (Expired Id) :=
  let commit_due :=
    match commit t with Some c => if c <=? now then Some c else None | None => None end in
  let fire_boot i d :=
    ({| boot := swap_remove i (boot t); commit := commit t |}, Some (Boot (bd_id d))) in
  let fire_commit := ({| boot := boot t; commit := None |}, Some Commit) in
  match earliest_boot t now, commit_due with
  | Some (i, d), Some c => if bd_at d <=? c then fire_boot i d else fire_commit
  | None, Some _ => fire_commit
  | Some (i, d), None => fire_boot i d
  | None, None => (t, None)
  end.

(** ** Specification *)

(** The armed boot watchdogs as a map. *)
Definition armed (t : TimerManager) : gmap Id Z :=
  list_to_map ((λ d, (bd_id d, bd_at d)) <$> boot t).

Record timer_wf (t : TimerManager) : Prop := {
  tw_NoDup : NoDup (bd_id <$> boot t);
  tw_cap : (length (boot t) ≤ N)%nat;
}.

(** A deadline outstanding in [t]. *)
Definition outstanding (t : TimerManager) (d : Z) : Prop :=
  (∃ id, armed t !! id = Some d) ∨ commit t = Some d.

(** ** Lemmas *)

Lemma armed_lookup t id at_ :
  timer_wf t →
  armed t !! id = Some at_ ↔ {| bd_id := id; bd_at := at_ |} ∈ boot t.
Proof.
  intros [Hnd _]. unfold armed. rewrite <- elem_of_list_to_map.
  - rewrite list_elem_of_fmap. split.
    + intros ([id' a'] & [= -> ->] & Hin). done.
    + intros Hin. eexists. split; [|exact Hin]. done.
  - rewrite <- list_fmap_compose. exact Hnd.
Qed.

Lemma armed_lookup_None t id :
  timer_wf t → armed t !! id = None ↔ position (has_id id) (boot t) = None.
Proof.
  intros Hwf. rewrite position_None. unfold has_id. split.
  - intros Hn [id' a'] Hin. apply bool_decide_eq_false. simpl. intros ->.
    apply (armed_lookup t id a' Hwf) in Hin. congruence.
  - intros Hn. destruct (armed t !! id) as [a|] eqn:E; [|done].
    apply armed_lookup, Hn in E; [|done]. simpl in E.
    by apply bool_decide_eq_false in E.
Qed.

Lemma position_has_id l id i :
  position (has_id id) l = Some i → ∃ a, l !! i = Some {| bd_id := id; bd_at := a |}.
Proof.
  intros ([id' a] & Hi & Hid & _)%position_Some.
  unfold has_id in Hid. apply bool_decide_eq_true in Hid. simpl in Hid. subst. eauto.
Qed.

(** Removing an armed watchdog. *)
Lemma remove_armed t i id a c :
  timer_wf t → boot t !! i = Some {| bd_id := id; bd_at := a |} →
  timer_wf {| boot := swap_remove i (boot t); commit := c |} ∧
  armed {| boot := swap_remove i (boot t); commit := c |} = delete id (armed t) ∧
  S (length (swap_remove i (boot t))) = length (boot t).
Proof.
  intros [Hnd Hcap] Hi. pose proof (swap_remove_perm _ _ _ Hi) as Hperm.
  pose proof Hnd as Hnd'. rewrite Hperm in Hnd'. simpl in Hnd'.
  apply NoDup_cons in Hnd' as [Hnin Hnd'].
  pose proof (Permutation_length Hperm) as Hlen. simpl in Hlen.
  split; [split; simpl; [done|lia]|]. split; [|done].
  unfold armed. simpl.
  rewrite (list_to_map_proper ((λ d, (bd_id d, bd_at d)) <$> boot t)
    ((id, a) :: ((λ d, (bd_id d, bd_at d)) <$> swap_remove i (boot t)))).
  - simpl. rewrite delete_insert_id; [done|].
    apply not_elem_of_list_to_map_1. rewrite <- list_fmap_compose. exact Hnin.
  - rewrite <- list_fmap_compose. exact Hnd.
  - exact (Permutation_map (λ d, (bd_id d, bd_at d)) Hperm).
Qed.

Lemma arm_boot_spec t id deadline :
  timer_wf t →
  match arm_boot t id deadline with
  | (t', Ok _) => timer_wf t' ∧ armed t' = <[id := deadline]> (armed t) ∧ commit t' = commit t
  | (t', Err _) => t' = t ∧ armed t !! id = None ∧ length (boot t) = N
  end.
Proof.
  intros Hwf. pose proof Hwf as [Hnd Hcap]. unfold arm_boot.
  destruct (position (has_id id) (boot t)) as [i|] eqn:Hpos.
  - destruct (position_has_id _ _ _ Hpos) as [a Hi].
    assert (bd_id <$> alter (λ d, {| bd_id := bd_id d; bd_at := deadline |}) i (boot t)
      = bd_id <$> boot t) as Hids.
    { apply list_eq. intros j. rewrite !list_lookup_fmap.
      destruct (decide (j = i)) as [->|];
        [rewrite list_lookup_alter_eq|by rewrite list_lookup_alter_ne].
      by destruct (boot t !! i). }
    set (t' := {| boot := alter _ i (boot t); commit := commit t |}).
    assert (timer_wf t') as Hwf' by (split; simpl; [by rewrite Hids|by rewrite length_alter]).
    split; [done|]. split; [|done].
    apply map_eq. intros id'. destruct (decide (id' = id)) as [->|Hne].
    + rewrite lookup_insert_eq. apply armed_lookup; [done|].
      apply list_elem_of_lookup. exists i. simpl. by rewrite list_lookup_alter_eq, Hi.
    + rewrite lookup_insert_ne by done. apply option_eq. intros a'.
      rewrite !armed_lookup by done.
      simpl. rewrite !list_elem_of_lookup. split; intros [j Hj]; exists j;
        (destruct (decide (j = i)) as [->|Hji];
         [rewrite list_lookup_alter_eq in * || idtac; rewrite Hi in Hj; simpl in Hj; by simplify_eq
         |by rewrite list_lookup_alter_ne in *]).
  - case_decide as Hlt.
    + assert (id ∉ (bd_id <$> boot t)) as Hnin.
      { rewrite list_elem_of_fmap. intros ([id' a] & -> & Hin).
        rewrite position_None in Hpos. apply Hpos in Hin. simpl in Hin.
        unfold has_id in Hin. by apply bool_decide_eq_false in Hin. }
      assert (NoDup (bd_id <$> boot t ++ [{| bd_id := id; bd_at := deadline |}])) as Hnd'.
      { rewrite fmap_app. apply list.NoDup_app. split; [done|].
        split; [|apply NoDup_singleton].
        intros x Hx. simpl. rewrite list_elem_of_singleton. by intros ->. }
      split; [split; simpl; [done|rewrite length_app; simpl; lia]|split; [|done]].
      unfold armed. simpl. rewrite fmap_app. simpl.
      rewrite (list_to_map_proper _
        ((id, deadline) :: ((λ d, (bd_id d, bd_at d)) <$> boot t))); [done| |].
      * rewrite fmap_app, <- list_fmap_compose. rewrite fmap_app in Hnd'. exact Hnd'.
      * by rewrite Permutation_app_comm.
    + split; [done|]. split; [by apply armed_lookup_None|lia].
Qed.

Lemma foldl_min_le l x : foldl Z.min x l ≤ x ∧ ∀ y, y ∈ l → foldl Z.min x l ≤ y.
Proof.
  revert x. induction l as [|z l IH]; intros x; simpl.
  - split; [lia|]. by intros y ?%elem_of_nil.
  - destruct (IH (Z.min x z)) as [H1 H2]. split; [lia|].
    intros y [->|Hy]%elem_of_cons; [lia|auto].
Qed.

Lemma foldl_min_in l x : foldl Z.min x l = x ∨ foldl Z.min x l ∈ l.
Proof.
  revert x. induction l as [|z l IH]; intros x; simpl; [by left|].
  destruct (IH (Z.min x z)) as [->|Hin]; [|right; by right].
  destruct (Z.min_spec x z) as [[_ ->]|[_ ->]]; [by left|right; left].
Qed.

Lemma list_min_spec l :
  match list_min l with
  | Some m => m ∈ l ∧ ∀ x, x ∈ l → m ≤ x
  | None => l = []
  end.
Proof.
  destruct l as [|x l]; simpl; [done|]. destruct (foldl_min_le l x) as [H1 H2].
  split.
  - destruct (foldl_min_in l x) as [->|Hin]; [left|by right].
  - intros y [->|Hy]%elem_of_cons; auto.
Qed.

Lemma boot_deadline_elem t d :
  timer_wf t → d ∈ (bd_at <$> boot t) ↔ ∃ id, armed t !! id = Some d.
Proof.
  intros Hwf. rewrite list_elem_of_fmap. split.
  - intros ([id a] & -> & Hin). exists id. by apply armed_lookup.
  - intros [id Hid%armed_lookup]; [|done]. eexists. split; [|exact Hid]. done.
Qed.

Lemma next_deadline_spec t :
  timer_wf t →
  match next_deadline t with
  | Some d => outstanding t d ∧ ∀ d', outstanding t d' → d ≤ d'
  | None => ∀ d, ¬ outstanding t d
  end.
Proof.
  intros Hwf. unfold next_deadline, outstanding.
  pose proof (list_min_spec (bd_at <$> boot t)) as Hm.
  destruct (list_min (bd_at <$> boot t)) as [b|].
  - destruct Hm as [Hin Hle]. rewrite boot_deadline_elem in Hin by done.
    setoid_rewrite boot_deadline_elem in Hle; [|done].
    destruct (commit t) as [c|].
    + split.
      * destruct (Z.min_spec b c) as [[_ ->]|[_ ->]]; auto.
      * intros d' [Hd|[= <-]]; [|lia]. specialize (Hle _ Hd). lia.
    + split; [auto|]. intros d' [Hd|?]; [auto|done].
  - assert (∀ d, ¬ ∃ id, armed t !! id = Some d) as Hnone.
    { intros d. rewrite <- boot_deadline_elem by done. rewrite Hm. apply not_elem_of_nil. }
    destruct (commit t) as [c|].
    + split; [auto|]. intros d' [Hd|[= <-]]; [by destruct (Hnone d')|lia].
    + intros d [Hd|?]; [by destruct (Hnone d)|done].
Qed.

Lemma foldl_min_step l best :
  match foldl min_step best l with
  | Some x => (best = Some x ∨ x ∈ l) ∧
      (∀ b, best = Some b → bd_at x.2 ≤ bd_at b.2) ∧
      (∀ y, y ∈ l → bd_at x.2 ≤ bd_at y.2)
  | None => best = None ∧ l = []
  end.
Proof.
  revert best. induction l as [|z l IH]; intros best; simpl.
  - destruct best as [b|]; [|done]. split; [by left|]. split; [by intros ? [= <-]|].
    by intros y ?%elem_of_nil.
  - specialize (IH (min_step best z)).
    assert (∃ w, min_step best z = Some w ∧ (best = Some w ∨ w = z) ∧
      (∀ b, best = Some b → bd_at w.2 ≤ bd_at b.2) ∧ bd_at w.2 ≤ bd_at z.2)
      as (w & Hw & Hor & Hb & Hz).
    { unfold min_step. destruct best as [b|].
      - destruct (bd_at b.2 <=? bd_at z.2) eqn:Hle.
        + apply Z.leb_le in Hle. exists b. split; [done|]. split; [by left|].
          split; [by intros ? [= <-]|done].
        + apply Z.leb_gt in Hle. exists z. split; [done|]. split; [by right|].
          split; [intros ? [= <-]; lia|lia].
      - exists z. split; [done|]. split; [by right|]. split; [done|lia]. }
    rewrite Hw in IH |- *. destruct (foldl min_step (Some w) l) as [x|];
      [|by destruct IH].
    destruct IH as (H1 & H2 & H3). specialize (H2 w eq_refl).
    split; [|split].
    + destruct H1 as [[= <-]|?]; [|right; by right].
      destruct Hor as [?| ->]; [by left|right; left].
    + intros b Hbb. specialize (Hb b Hbb). lia.
    + intros y [->|Hy]%elem_of_cons; [lia|auto].
Qed.

Lemma earliest_boot_spec t now :
  match earliest_boot t now with
  | Some (i, d) => boot t !! i = Some d ∧ bd_at d ≤ now ∧
      ∀ d', d' ∈ boot t → bd_at d ≤ bd_at d'
  | None => ∀ d, d ∈ boot t → now < bd_at d
  end.
Proof.
  unfold earliest_boot.
  pose proof (foldl_min_step (filter (λ x, bd_at x.2 ≤ now) (imap pair (boot t))) None) as Hf.
  assert (∀ i d, (i, d) ∈ filter (λ x, bd_at x.2 ≤ now) (imap pair (boot t)) ↔
    boot t !! i = Some d ∧ bd_at d ≤ now) as Hin.
  { intros i d. rewrite list_elem_of_filter. simpl.
    assert ((i, d) ∈ imap pair (boot t) ↔ boot t !! i = Some d) as ->; [|tauto].
    rewrite list_elem_of_lookup. setoid_rewrite list_lookup_imap.
    setoid_rewrite fmap_Some. split.
    - by intros (j & y & Hy & [= -> ->]).
    - intros Hd. exists i, d. done. }
  destruct (foldl min_step None _) as [[i d]|].
  - destruct Hf as ([?|Hx] & _ & Hmin); [done|]. apply Hin in Hx as [Hi Hd].
    split; [done|]. split; [done|]. intros d' [j Hj]%list_elem_of_lookup.
    destruct (decide (bd_at d' ≤ now)) as [Hle|]; [|lia].
    apply (Hmin (j, d')). by apply Hin.
  - destruct Hf as [_ Hnil]. intros d [j Hj]%list_elem_of_lookup.
    destruct (decide (bd_at d ≤ now)) as [Hle|]; [|lia]. exfalso.
    assert ((j, d) ∈ filter (λ x, bd_at x.2 ≤ now) (imap pair (boot t))) as Hx by (by apply Hin).
    rewrite Hnil in Hx. by apply not_elem_of_nil in Hx.
Qed.

(** What one [poll] does. *)
Definition poll_result (t : TimerManager) (now : Z) (t' : TimerManager)
    (e : option (Expired Id)) : Prop :=
  match e with
  | Some (Boot id) => ∃ d, armed t !! id = Some d ∧ d ≤ now ∧
      (∀ d', outstanding t d' → d ≤ d') ∧
      armed t' = delete id (armed t) ∧ commit t' = commit t ∧
      S (length (boot t')) = length (boot t)
  | Some Commit => ∃ c, commit t = Some c ∧ c ≤ now ∧
      (∀ id d, armed t !! id = Some d → c < d) ∧
      boot t' = boot t ∧ commit t' = None
  | None => t' = t ∧ ∀ d, outstanding t d → now < d
  end.

Lemma poll_spec t now :
  timer_wf t →
  timer_wf (poll t now).1 ∧ poll_result t now (poll t now).1 (poll t now).2.
Proof.
  intros Hwf. unfold poll.
  pose proof (earliest_boot_spec t now) as He.
  assert (∀ id d, armed t !! id = Some d → {| bd_id := id; bd_at := d |} ∈ boot t) as Hel
    by (intros ? ? ?; by apply armed_lookup).
  destruct (earliest_boot t now) as [[i [id a]]|].
  - destruct He as (Hi & Ha & Hmin). simpl in *.
    assert (armed t !! id = Some a) as Harm
      by (apply armed_lookup; [done|]; by eapply list_elem_of_lookup_2).
    assert (∀ id' d, armed t !! id' = Some d → a ≤ d) as Hmin'
      by (intros id' d Hd; apply (Hmin _ (Hel _ _ Hd))).
    destruct (remove_armed t i id a (commit t) Hwf Hi) as (Hwf' & Hdel & Hlen).
    assert (∀ (Hc : ∀ c, commit t = Some c → a ≤ c),
      timer_wf {| boot := swap_remove i (boot t); commit := commit t |} ∧
      poll_result t now {| boot := swap_remove i (boot t); commit := commit t |}
        (Some (Boot id))) as Hboot.
    { intros Hc. split; [done|]. exists a. repeat split; try done.
      intros d' [[id' Hd']|Hd']; eauto. }
    destruct (commit t) as [c|] eqn:Hcm; [|by apply Hboot].
    destruct (c <=? now) eqn:Hcn; [apply Z.leb_le in Hcn|apply Z.leb_gt in Hcn].
    + destruct (a <=? c) eqn:Hac; [apply Z.leb_le in Hac|apply Z.leb_gt in Hac].
      * apply Hboot. intros ? [= <-]. done.
      * split; [by destruct Hwf|]. exists c. repeat split; try done.
        intros id' d Hd. specialize (Hmin' _ _ Hd). lia.
    + apply Hboot. intros ? [= <-]. lia.
  - assert (∀ id d, armed t !! id = Some d → now < d) as He'
      by (intros id d Hd; apply (He _ (Hel _ _ Hd))).
    destruct (commit t) as [c|] eqn:Hcm.
    + destruct (c <=? now) eqn:Hcn; [apply Z.leb_le in Hcn|apply Z.leb_gt in Hcn].
      * split; [by destruct Hwf|]. exists c. repeat split; try done.
        intros id d Hd. specialize (He' _ _ Hd). lia.
      * split; [done|]. split; [done|]. intros d [[id Hd]|Hd]; [by eapply He'|congruence].
    + split; [done|]. split; [done|]. intros d [[id Hd]|Hd]; [by eapply He'|congruence].
Qed.

(** "Call in a loop until [None]": the caller's drain. *)
Fixpoint drain (fuel : nat) (t : TimerManager) (now : Z) :
    TimerManager * list (Expired Id) :=
  match fuel with
  | O => (t, [])
  | S fuel' =>
      match poll t now with
      | (t', None) => (t', [])
      | (t', Some e) => let '(t'', es) := drain fuel' t' now in (t'', e :: es)
      end
  end.

(** The watchdog [e] is due at [now]. *)
Definition due (t : TimerManager) (now : Z) (e : Expired Id) : Prop :=
  match e with
  | Boot id => ∃ d, armed t !! id = Some d ∧ d ≤ now
  | Commit => ∃ c, commit t = Some c ∧ c ≤ now
  end.

Definition load (t : TimerManager) : nat :=
  (length (boot t) + match commit t with Some _ => 1 | None => 0 end)%nat.

Lemma poll_due t now t' e :
  timer_wf t → poll t now = (t', Some e) →
  timer_wf t' ∧ due t now e ∧ S (load t') = load t ∧
  ∀ e', due t' now e' ↔ due t now e' ∧ e' ≠ e.
Proof.
  intros Hwf Hp. pose proof (poll_spec t now Hwf) as [Hwf' Hres].
  rewrite Hp in Hwf', Hres. simpl in *. split; [done|]. destruct e as [id|]; simpl in Hres.
  - destruct Hres as (d & Hd & Hle & _ & Harm & Hc & Hlen).
    split; [by exists d|]. split; [unfold load; rewrite Hc; lia|].
    intros [id'|]; simpl; rewrite ?Harm, ?Hc; [|naive_solver].
    setoid_rewrite lookup_delete_Some. naive_solver.
  - destruct Hres as (c & Hc & Hle & _ & Hb & Hc').
    split; [by exists c|]. split; [unfold load; rewrite Hb, Hc, Hc'; simpl; lia|].
    unfold due, armed. rewrite Hb, Hc'. intros [id'|]; naive_solver.
Qed.

Lemma drain_spec fuel t now :
  timer_wf t → (load t < fuel)%nat →
  let '(t', es) := drain fuel t now in
  timer_wf t' ∧ NoDup es ∧ (∀ e, e ∈ es ↔ due t now e) ∧ (∀ e, ¬ due t' now e).
Proof.
  revert t. induction fuel as [|fuel IH]; intros t Hwf Hload; [lia|]. simpl.
  destruct (poll t now) as [t1 [e|]] eqn:Hp.
  - destruct (poll_due _ _ _ _ Hwf Hp) as (Hwf1 & Hdue & Hl & Hiff).
    specialize (IH t1 Hwf1 ltac:(lia)). destruct (drain fuel t1 now) as [t2 es].
    destruct IH as (Hwf2 & Hnd & Hin & Hnone). split; [done|]. split; [|split; [|done]].
    + apply NoDup_cons. split; [|done]. rewrite Hin, Hiff. naive_solver.
    + intros e'. rewrite elem_of_cons, Hin, Hiff.
      assert (e' = e ∨ e' ≠ e) as [->|Hne]; [|naive_solver|naive_solver].
      destruct e as [id|], e' as [id'|]; [|by right|by right|by left].
      destruct (decide (id' = id)) as [->|]; [by left|right; congruence].
  - pose proof (poll_spec t now Hwf) as [_ Hres]. rewrite Hp in Hres. simpl in Hres.
    destruct Hres as [-> Hnone].
    assert (∀ e, ¬ due t now e) as Hnd.
    { intros [id|] (d & Hd & Hle); [specialize (Hnone d (or_introl (ex_intro _ id Hd)))
        |specialize (Hnone d (or_intror Hd))]; lia. }
    split; [done|]. split; [constructor|]. split; [|done].
    intros e. rewrite elem_of_nil. split; [done|]. by apply Hnd.
Qed.
End timer.

(** ** The kernel-clock binding *)

Section watchdogs.
(** [userspace::time]: instants and durations are counts of clock ticks; the
    addition is the kernel's and may overflow. *)
Context (N : nat) (instant_max : Z) (checked_add_duration : Z → Z → option Z).

Abbreviation BootWatchdogs := (@TimerManager ComponentId).

Definition BootWatchdogs_new : BootWatchdogs := TimerManager_new.

(** [now] is what [SystemClock::now()] returned. *)
Definition deadline_in (now after : Z) : Z :=
  default instant_max (checked_add_duration now after).

Definition wd_arm_boot (w : BootWatchdogs) (now : Z) (id : ComponentId) (after : Z) :
    BootWatchdogs * result unit Full :=
  arm_boot N w id (deadline_in now after).

Definition wd_cancel_boot (w : BootWatchdogs) (id : ComponentId) : BootWatchdogs :=
  cancel_boot w id.

Definition wd_arm_commit (w : BootWatchdogs) (now after : Z) : BootWatchdogs :=
  arm_commit w (deadline_in now after).

Definition wd_cancel_commit (w : BootWatchdogs) : BootWatchdogs := cancel_commit w.

Definition wait_deadline (w : BootWatchdogs) : Z := default instant_max (next_deadline w).

Definition poll_expired (w : BootWatchdogs) (now : Z) : BootWatchdogs * option Event :=
  let '(w', expired) := poll w now in
  (w', (λ e, match e with Boot id => Timeout id | Commit => CommitTimeout end) <$> expired).
End watchdogs.

(** ** Properties *)

(** The timer manager is a map from components to deadlines.  On a
    well-formed manager (distinct identifiers, at most [N] entries) arming
    sets the component's single deadline, keeping the others, and fails with
    [Full] exactly when the component is new and [N] are armed already, leaving
    the manager as it was; cancelling deletes the component's deadline and
    nothing else; well-formedness is kept. *)
Theorem timer_operations_refine_map {Id} `{Countable Id} (N : nat) (t : @TimerManager Id)
    (id : Id) (deadline : Z) :
  timer_wf N t →
  (match arm_boot N t id deadline with
   | (t', Ok _) => timer_wf N t' ∧ armed t' = <[id := deadline]> (armed t) ∧
                   commit t' = commit t
   | (t', Err _) => t' = t ∧ armed t !! id = None ∧ length (boot t) = N
   end) ∧
  timer_wf N (cancel_boot t id) ∧ armed (cancel_boot t id) = delete id (armed t) ∧
  commit (cancel_boot t id) = commit t.
Proof.
  intros Hwf. split; [by apply arm_boot_spec|]. unfold cancel_boot.
  destruct (position (has_id id) (boot t)) as [i|] eqn:Hpos.
  - destruct (position_has_id _ _ _ Hpos) as [a Hi].
    by destruct (remove_armed N t i id a (commit t) Hwf Hi) as (? & ? & _).
  - split; [done|]. split; [|done]. symmetry. apply delete_id.
    by apply (armed_lookup_None N).
Qed.

Definition ex_timers : @TimerManager Z :=
  {| boot := [{| bd_id := 1; bd_at := 50 |}; {| bd_id := 2; bd_at := 20 |}];
     commit := Some 20 |}.

Lemma ex_timers_wf : timer_wf 2 ex_timers.
Proof.
  split; [|simpl; lia]. simpl.
  repeat (constructor; [rewrite ?elem_of_cons, ?elem_of_nil; lia|]). constructor.
Qed.

Lemma timer_operations_refine_map_witness :
  armed (cancel_boot ex_timers 1) = delete 1 (armed ex_timers).
Proof. apply (timer_operations_refine_map 2 ex_timers 1 0 ex_timers_wf). Defined.

(** The wait deadline and the poll agree.  [next_deadline] is the earliest
    outstanding deadline (none exactly when nothing is armed); [poll] fires a
    watchdog exactly when that deadline has passed, the fired watchdog's
    deadline is the earliest one, a boot watchdog wins a tie with the commit
    watchdog, and the fired watchdog alone is disarmed. *)
Theorem poll_fires_the_next_deadline {Id} `{Countable Id} (N : nat) (t : @TimerManager Id)
    (now : Z) :
  timer_wf N t →
  (match next_deadline t with
   | Some d => outstanding t d ∧ ∀ d', outstanding t d' → d ≤ d'
   | None => ∀ d, ¬ outstanding t d
   end) ∧
  ((∃ e, (poll t now).2 = Some e) ↔ ∃ d, next_deadline t = Some d ∧ d ≤ now) ∧
  timer_wf N (poll t now).1 ∧ poll_result t now (poll t now).1 (poll t now).2.
Proof.
  intros Hwf. pose proof (next_deadline_spec N t Hwf) as Hnext.
  pose proof (poll_spec N t now Hwf) as [Hwf' Hres].
  split; [done|]. split; [|done]. destruct (poll t now) as [t' e]. simpl in *.
  assert ((∃ x, e = Some x) ↔ ∃ d, outstanding t d ∧ d ≤ now) as Hdue.
  { destruct e as [[id|]|]; simpl in Hres.
    - destruct Hres as (d & Hd & Hle & _). split; [|eauto]. intros _. exists d.
      split; [left; eauto|done].
    - destruct Hres as (c & Hc & Hle & _). split; [|eauto]. intros _. exists c.
      split; [by right|done].
    - destruct Hres as [_ Hnone]. split; [by intros [? [=]]|]. intros (d & Hd & Hle).
      specialize (Hnone d Hd). lia. }
  rewrite Hdue. destruct (next_deadline t) as [d|].
  - destruct Hnext as [Hd Hmin]. split.
    + intros (d' & Hd' & Hle). exists d. split; [done|]. specialize (Hmin _ Hd'). lia.
    + intros (d' & [= <-] & Hle). eauto.
  - split; [|by intros (? & [=] & _)]. intros (d & Hd & _). by destruct (Hnext d).
Qed.

Lemma poll_fires_the_next_deadline_witness :
  poll_result ex_timers 30 (poll ex_timers 30).1 (poll ex_timers 30).2.
Proof. apply (poll_fires_the_next_deadline 2 ex_timers 30 ex_timers_wf). Defined.

(** Draining fires exactly the due watchdogs.  Polling until [None] ends
    after at most one call per armed watchdog plus one, fires each watchdog
    whose deadline has passed exactly once and no other, and leaves nothing
    due. *)
Theorem drain_fires_exactly_the_due {Id} `{Countable Id} (N fuel : nat)
    (t : @TimerManager Id) (now : Z) :
  timer_wf N t → (load t < fuel)%nat →
  let '(t', es) := drain fuel t now in
  timer_wf N t' ∧ NoDup es ∧ (∀ e, e ∈ es ↔ due t now e) ∧ (∀ e, ¬ due t' now e).
Proof. apply drain_spec. Qed.

Lemma drain_fires_exactly_the_due_witness :
  NoDup (drain 4 ex_timers 30).2.
Proof.
  pose proof (drain_fires_exactly_the_due 2 4 ex_timers 30 ex_timers_wf) as Hd.
  destruct (drain 4 ex_timers 30) as [t' es]. apply Hd. unfold load. simpl. lia.
Defined.

(** A boot watchdog never fires early.  After [arm_boot] at time [now] with
    a window [after], the loop's wait deadline is at most the watchdog's, and a
    later poll reports this component's [Timeout] only once the window has
    elapsed (or, when the addition overflows, at [Instant::MAX]); the state
    machine's event carries the same component. *)
Theorem boot_watchdog_never_early (N : nat) (instant_max : Z)
    (checked_add_duration : Z → Z → option Z) (w w' : @TimerManager ComponentId)
    (now now' after : Z) (id : ComponentId)
    (checked_add_adds : ∀ a b d, checked_add_duration a b = Some d → d = a + b) :
  timer_wf N w →
  wd_arm_boot N instant_max checked_add_duration w now id after = (w', Ok ()) →
  wait_deadline instant_max w' ≤ deadline_in instant_max checked_add_duration now after ∧
  ((poll_expired w' now').2 = Some (Timeout id) →
   match checked_add_duration now after with
   | Some _ => now + after ≤ now'
   | None => instant_max ≤ now'
   end).
Proof.
  intros Hwf Harm. unfold wd_arm_boot in Harm.
  pose proof (arm_boot_spec N w id (deadline_in instant_max checked_add_duration now after) Hwf)
    as Hspec. rewrite Harm in Hspec. destruct Hspec as (Hwf' & Harmed & _).
  set (d := deadline_in instant_max checked_add_duration now after) in *.
  assert (armed w' !! id = Some d) as Hid by (rewrite Harmed; apply lookup_insert_eq).
  split.
  - unfold wait_deadline. pose proof (next_deadline_spec N w' Hwf') as Hn.
    destruct (next_deadline w') as [d'|]; simpl.
    + apply Hn. left. eauto.
    + destruct (Hn d). left. eauto.
  - unfold poll_expired. pose proof (poll_spec N w' now' Hwf') as [_ Hres].
    destruct (poll w' now') as [w'' [[id'|]|]]; simpl in *; try done.
    intros [= ->]. destruct Hres as (d' & Hd' & Hle & _).
    assert (d' = d) as -> by congruence. subst d. unfold deadline_in in Hle.
    destruct (checked_add_duration now after) as [x|] eqn:Hx; simpl in Hle; [|done].
    apply checked_add_adds in Hx. lia.
Qed.

(** An addition that overflows at [u64::MAX]. *)
Definition ex_checked_add (a b : Z) : option Z :=
  if a + b <=? u64_MAX then Some (a + b) else None.

Definition ex_watchdogs : @TimerManager ComponentId :=
  (wd_arm_boot 2 u64_MAX ex_checked_add BootWatchdogs_new 10 (ComponentId_new 7) 90).1.

Lemma boot_watchdog_never_early_witness :
  wait_deadline u64_MAX ex_watchdogs ≤ deadline_in u64_MAX ex_checked_add 10 90.
Proof.
  refine (proj1 (boot_watchdog_never_early 2 u64_MAX ex_checked_add BootWatchdogs_new
    ex_watchdogs 10 0 90 (ComponentId_new 7) _ _ _)).
  - intros a b d. unfold ex_checked_add. destruct (a + b <=? u64_MAX); [|done].
    by intros [= <-].
  - split; simpl; [constructor|lia].
  - vm_compute. reflexivity.
Defined.
