(* ===== verification/BootWalk.v ===== *)
(** * Board tables and boot walks

    [services/orchestrator/config/src/lib.rs] (checkpoints, device entries and
    their build-time checks), the seam types of
    [services/orchestrator/capabilities/src/{evidence,boot_watch}.rs] and the
    walk itself, [services/orchestrator/adapters/walk/src/walk.rs].

    A failed [assert!] and an index out of range are [None]: the theorems show
    that a walk over a declared device never panics. *)

From Stdlib Require Import Ascii String.
From S2P Require Import Prelude SmModel.
From stdpp Require Import base tactics list numbers strings.
Local Open Scope Z_scope.

(** ** Board configuration *)

(** [core::time::Duration]: whole seconds and the nanoseconds below one. *)
Record Duration := mkDuration { secs : Z; nanos : Z }.

Definition as_millis (d : Duration) : Z := secs d * 1000 + nanos d / 1000000.

Definition duration_ok (d : Duration) : Prop :=
  in_u64 (secs d) ∧ 0 ≤ nanos d < 1000000000.

(** [str::as_bytes]. *)
Definition as_bytes (s : string) : list ascii := list_ascii_of_string s.

(** The byte loop of [str_eq]: [n] bytes from [i] on. *)
Fixpoint str_eq_loop (a b : list ascii) (n i : nat) : bool :=
  match n with
  | O => true
  | S n' =>
      if bool_decide (a !! i = b !! i) then str_eq_loop a b n' (S i) else false
  end.

Definition str_eq (a b : string) : bool :=
  let a := as_bytes a in
  let b := as_bytes b in
  if negb (length a =? length b)%nat then false
  else str_eq_loop a b (length a) 0.

Section config.
Context {P R : Type}.

Record BootCheckpoint := mkCheckpoint {
  cp_name : string;
  cp_probe : P;
  cp_timeout : Duration;
}.

(** [BootCheckpoint::new]. *)
Definition BootCheckpoint_new (name : string) (probe : P) (timeout : Duration) :
    option BootCheckpoint :=
  if (length (as_bytes name) =? 0)%nat then None
  else if negb (1 <=? as_millis timeout) then None
  else Some {| cp_name := name; cp_probe := probe; cp_timeout := timeout |}.

Record DeviceConfig := mkDeviceConfig {
  dc_name : string;
  reset_signal : R;
  checkpoints : list BootCheckpoint;
}.

(** Inner loop of [DeviceConfig::new]: no later checkpoint has this name. *)
Fixpoint name_is_fresh (name : string) (rest : list BootCheckpoint) : bool :=
  match rest with
  | [] => true
  | c :: rest' => if str_eq name (cp_name c) then false else name_is_fresh name rest'
  end.

(** Outer loop. *)
Fixpoint names_unique (cs : list BootCheckpoint) : bool :=
  match cs with
  | [] => true
  | c :: cs' => if name_is_fresh (cp_name c) cs' then names_unique cs' else false
  end.

(** [DeviceConfig::new]. *)
Definition DeviceConfig_new (name : string) (reset : R) (cs : list BootCheckpoint) :
    option DeviceConfig :=
  if (length (as_bytes name) =? 0)%nat then None
  else if (length cs =? 0)%nat then None
  else if names_unique cs then
    Some {| dc_name := name; reset_signal := reset; checkpoints := cs |}
  else None.
End config.
Arguments BootCheckpoint P : clear implicits.
Arguments DeviceConfig P R : clear implicits.

(** ** Evidence and verdicts *)

Inductive BootStatus := Booting | BootedStatus | FailedRetriable | FailedFatal.

Inductive FailureCause := CauseTimedOut | CauseDeviceRetriable | CauseDeviceFatal.

Inductive WalkVerdict :=
| Waiting (deadline_millis : Z)
| Complete
| Failed (checkpoint : string) (cause : FailureCause).

(** The trait [EvidenceReader], its state threaded explicitly. *)
Class EvidenceReader (R P E : Type) : Type :=
  read_evidence : R → P → R * result BootStatus E.

(** ** The walk *)

Inductive Phase := Idle | Armed | Walking (cursor : nat) (deadline_millis : Z).

Section walk.
Context {R P E S : Type} `{EvidenceReader R P E}.

Record CheckpointWalk := mkWalk {
  cw_reader : R;
  cw_checkpoints : list (BootCheckpoint P);
  cw_phase : Phase;
}.

Definition CheckpointWalk_new (reader : R) (device : DeviceConfig P S) : CheckpointWalk :=
  {| cw_reader := reader; cw_checkpoints := checkpoints device; cw_phase := Idle |}.

Definition set_phase (ph : Phase) (w : CheckpointWalk) : CheckpointWalk :=
  {| cw_reader := cw_reader w; cw_checkpoints := cw_checkpoints w; cw_phase := ph |}.

(** [BootWatch::arm]. *)
Definition arm (w : CheckpointWalk) : CheckpointWalk := set_phase Armed w.

Definition timeout_millis (c : BootCheckpoint P) : Z := as_u64 (as_millis (cp_timeout c)).

(** The first block of [poll]: an armed walk starts at its first checkpoint. *)
Definition start_if_armed (w : CheckpointWalk) (now_millis : Z) : option CheckpointWalk :=
  match cw_phase w with
  | Armed =>
      c ← cw_checkpoints w !! 0%nat;
      Some (set_phase (Walking 0 (saturating_add u64_MAX now_millis (timeout_millis c))) w)
  | _ => Some w
  end.

(** The rest of [poll] at checkpoint [cursor], with the window still open: one
    read, and what it means. *)
Definition judge (w : CheckpointWalk) (now_millis : Z) (cursor : nat) (deadline : Z)
    (c : BootCheckpoint P) : option (CheckpointWalk * WalkVerdict * list (P * BootStatus)) :=
  let '(reader, evidence) := read_evidence (cw_reader w) (cp_probe c) in
  let w := {| cw_reader := reader; cw_checkpoints := cw_checkpoints w;
              cw_phase := cw_phase w |} in
  let status := unwrap_or evidence Booting in
  let log := [(cp_probe c, status)] in
  match status with
  | Booting => Some (w, Waiting deadline, log)
  | BootedStatus =>
      let next := Datatypes.S cursor in
      if (next =? length (cw_checkpoints w))%nat then
        Some (set_phase Idle w, Complete, log)
      else
        c' ← cw_checkpoints w !! next;
        let new_deadline := saturating_add u64_MAX now_millis (timeout_millis c') in
        Some (set_phase (Walking next new_deadline) w, Waiting new_deadline, log)
  | FailedRetriable =>
      Some (set_phase Idle w, Failed (cp_name c) CauseDeviceRetriable, log)
  | FailedFatal => Some (set_phase Idle w, Failed (cp_name c) CauseDeviceFatal, log)
  end.

(** [BootWatch::poll]; the last component lists the evidence it read. *)
Definition poll (w : CheckpointWalk) (now_millis : Z) :
    option (CheckpointWalk * WalkVerdict * list (P * BootStatus)) :=
  w ← start_if_armed w now_millis;
  match cw_phase w with
  | Walking cursor deadline =>
      c ← cw_checkpoints w !! cursor;
      if deadline <=? now_millis then
        Some (set_phase Idle w, Failed (cp_name c) CauseTimedOut, [])
      else judge w now_millis cursor deadline c
  | _ => Some (w, Waiting u64_MAX, [])
  end.

(** A run of polls, until the first verdict that is not [Waiting]. *)
Fixpoint polls (w : CheckpointWalk) (nows : list Z) :
    option (CheckpointWalk * option WalkVerdict * list (P * BootStatus)) :=
  match nows with
  | [] => Some (w, None, [])
  | now :: nows' =>
      '(w', v, log) ← poll w now;
      match v with
      | Waiting _ =>
          '(w'', v', log') ← polls w' nows';
          Some (w'', v', log ++ log')
      | _ => Some (w', Some v, log)
      end
  end.
End walk.

(** ** Lemmas on the tables *)

Lemma str_eq_loop_spec a b n i :
  str_eq_loop a b n i = true ↔ ∀ j, (i ≤ j < i + n)%nat → a !! j = b !! j.
Proof.
  revert i. induction n as [|n IH]; intros i; simpl.
  - split; [intros _ j Hj; lia|done].
  - case_bool_decide as Hi.
    + rewrite IH. split; intros Hall j Hj.
      * destruct (decide (j = i)) as [->|]; [done|]. apply Hall. lia.
      * apply Hall. lia.
    + split; [done|]. intros Hall. destruct Hi. apply Hall. lia.
Qed.

Lemma str_eq_iff a b : str_eq a b = true ↔ a = b.
Proof.
  unfold str_eq. split.
  - destruct (length (as_bytes a) =? length (as_bytes b))%nat eqn:Hlen; [simpl|done].
    apply Nat.eqb_eq in Hlen. intros Hall. rewrite str_eq_loop_spec in Hall.
    rewrite <- (string_of_list_ascii_of_string a), <- (string_of_list_ascii_of_string b).
    f_equal. apply list_eq. intros j. unfold as_bytes in *.
    destruct (decide (j < length (list_ascii_of_string a))%nat); [apply Hall; lia|].
    rewrite !lookup_ge_None_2; [done|lia..].
  - intros ->. rewrite Nat.eqb_refl. simpl. by apply str_eq_loop_spec.
Qed.

Lemma names_unique_iff {P} (cs : list (BootCheckpoint P)) :
  names_unique cs = true ↔ NoDup (cp_name <$> cs).
Proof.
  assert (∀ name (rest : list (BootCheckpoint P)),
    name_is_fresh name rest = true ↔ name ∉ (cp_name <$> rest)) as Hfresh.
  { intros name rest. induction rest as [|c rest IH]; simpl.
    - split; [intros _; apply not_elem_of_nil|done].
    - rewrite not_elem_of_cons. destruct (str_eq name (cp_name c)) eqn:E.
      + apply str_eq_iff in E. naive_solver.
      + rewrite IH. split; [|tauto]. intros Hn. split; [|done].
        intros Heq. apply str_eq_iff in Heq. congruence. }
  induction cs as [|c cs IH]; simpl.
  - split; [constructor|done].
  - rewrite NoDup_cons, <- Hfresh, <- IH.
    destruct (name_is_fresh (cp_name c) cs); naive_solver.
Qed.

Lemma device_config_entries {P R} name (reset : R) (cs : list (BootCheckpoint P)) d :
  DeviceConfig_new name reset cs = Some d → checkpoints d = cs ∧ cs ≠ [].
Proof.
  unfold DeviceConfig_new. intros Hd. repeat case_match; simplify_eq.
  split; [done|]. by destruct cs.
Qed.

(** ** Lemmas on the walk *)

Section walk_lemmas.
Context {R P E S : Type} `{EvidenceReader R P E}.
Implicit Types w : @CheckpointWalk R P.

Record walk_wf w : Prop := {
  ww_nonempty : cw_checkpoints w ≠ [];
  ww_cursor cursor deadline : cw_phase w = Walking cursor deadline →
    (cursor < length (cw_checkpoints w))%nat;
}.

(** The walk awaits checkpoint [k]. *)
Definition awaits w (k : nat) : Prop :=
  (∃ deadline, cw_phase w = Walking k deadline) ∨ (cw_phase w = Armed ∧ k = 0%nat).

Definition booted_probes (log : list (P * BootStatus)) : list P :=
  omap (λ x, match x.2 with BootedStatus => Some x.1 | _ => None end) log.

Lemma booted_probes_app l1 l2 :
  booted_probes (l1 ++ l2) = booted_probes l1 ++ booted_probes l2.
Proof. apply omap_app. Qed.

(** What a poll of a walk awaiting checkpoint [k] can answer. *)
Inductive poll_answer w (k : nat) : CheckpointWalk → WalkVerdict →
    list (P * BootStatus) → Prop :=
| answer_wait w' d log :
    cw_phase w' = Walking k d → booted_probes log = [] →
    cw_checkpoints w' = cw_checkpoints w → poll_answer w k w' (Waiting d) log
| answer_next w' d c :
    cw_checkpoints w !! k = Some c → (Datatypes.S k < length (cw_checkpoints w))%nat →
    cw_phase w' = Walking (Datatypes.S k) d → cw_checkpoints w' = cw_checkpoints w →
    poll_answer w k w' (Waiting d) [(cp_probe c, BootedStatus)]
| answer_complete w' c :
    cw_checkpoints w !! k = Some c → Datatypes.S k = length (cw_checkpoints w) →
    cw_phase w' = Idle → cw_checkpoints w' = cw_checkpoints w →
    poll_answer w k w' Complete [(cp_probe c, BootedStatus)]
| answer_failed w' c cause log :
    cw_checkpoints w !! k = Some c → booted_probes log = [] →
    cw_phase w' = Idle → cw_checkpoints w' = cw_checkpoints w →
    poll_answer w k w' (Failed (cp_name c) cause) log.

Lemma start_awaits w now k :
  walk_wf w → awaits w k →
  ∃ w1 d c, start_if_armed w now = Some w1 ∧ cw_phase w1 = Walking k d ∧
    cw_checkpoints w1 = cw_checkpoints w ∧ cw_reader w1 = cw_reader w ∧
    cw_checkpoints w !! k = Some c ∧
    (cw_phase w = Armed → d = saturating_add u64_MAX now (timeout_millis c)) ∧
    (∀ d', cw_phase w = Walking k d' → d = d').
Proof.
  intros [Hne Hcur] [[d Hd]|[Ha ->]]; unfold start_if_armed.
  - rewrite Hd. apply Hcur in Hd as Hlt. apply lookup_lt_is_Some in Hlt as [c Hc].
    exists w, d, c. repeat split; try done. congruence.
  - rewrite Ha. destruct (cw_checkpoints w) as [|c cs] eqn:Hcs; [done|]. simpl.
    eexists _, _, c. repeat split; try done.
Qed.

Lemma poll_answers w now k :
  walk_wf w → awaits w k →
  ∃ w' v log, poll w now = Some (w', v, log) ∧ poll_answer w k w' v log.
Proof.
  intros Hwf Hk.
  destruct (start_awaits w now k Hwf Hk) as (w1 & d & c & Hs & Hph & Hcs & Hr & Hc & _ & _).
  unfold poll. rewrite Hs. simpl. rewrite Hph, Hcs, Hc. simpl.
  destruct (d <=? now).
  { eexists _, _, _. split; [done|]. eapply answer_failed; done. }
  unfold judge. destruct (read_evidence (cw_reader w1) (cp_probe c)) as [r' ev].
  pose proof (lookup_lt_Some _ _ _ Hc) as Hlt.
  destruct (unwrap_or ev Booting); cbn [cw_checkpoints].
  - eexists _, _, _. split; [done|]. eapply answer_wait; simpl; done.
  - rewrite Hcs. destruct (Datatypes.S k =? length (cw_checkpoints w))%nat eqn:Hl.
    + apply Nat.eqb_eq in Hl. eexists _, _, _. split; [done|]. eapply answer_complete; simpl; done.
    + apply Nat.eqb_neq in Hl.
      destruct (cw_checkpoints w !! Datatypes.S k) as [c'|] eqn:Hc'; simpl.
      * eexists _, _, _. split; [done|]. eapply answer_next; try done. lia.
      * apply lookup_ge_None in Hc'. lia.
  - eexists _, _, _. split; [done|]. eapply answer_failed; simpl; done.
  - eexists _, _, _. split; [done|]. eapply answer_failed; simpl; done.
Qed.

Lemma answer_wf w k w' v log :
  walk_wf w → awaits w k → poll_answer w k w' v log → walk_wf w'.
Proof.
  intros [Hne Hcur] Hk Ha.
  assert (k < length (cw_checkpoints w))%nat as Hlt.
  { destruct Hk as [[d Hd]|[_ ->]]; [by eapply Hcur|]. destruct (cw_checkpoints w); [done|simpl; lia]. }
  destruct Ha; split; congruence || (intros cu de Hph; simplify_eq; rewrite ?H2, ?H3 in *; try congruence; lia).
Qed.

(** The outcome of a run of polls from checkpoint [k]: the probes that answered
    [Booted] are those of the checkpoints passed, in order. *)
Definition polls_outcome w (k : nat) (w' : CheckpointWalk) (v : option WalkVerdict)
    (log : list (P * BootStatus)) : Prop :=
  let probes := cp_probe <$> cw_checkpoints w in
  cw_checkpoints w' = cw_checkpoints w ∧
  match v with
  | Some Complete => cw_phase w' = Idle ∧ booted_probes log = drop k probes
  | Some (Failed name cause) => cw_phase w' = Idle ∧ ∃ k' c, (k ≤ k')%nat ∧
      cw_checkpoints w !! k' = Some c ∧ name = cp_name c ∧
      booted_probes log = take (k' - k) (drop k probes)
  | Some (Waiting _) => False
  | None => ∃ k', (k ≤ k')%nat ∧ awaits w' k' ∧
      booted_probes log = take (k' - k) (drop k probes)
  end.

Lemma polls_outcome_step w w1 k w' v log c :
  cw_checkpoints w1 = cw_checkpoints w → cw_checkpoints w !! k = Some c →
  polls_outcome w1 (Datatypes.S k) w' v log →
  polls_outcome w k w' v ([(cp_probe c, BootedStatus)] ++ log).
Proof.
  intros Hcs Hc. unfold polls_outcome. rewrite Hcs, booted_probes_app. simpl.
  assert (drop k (cp_probe <$> cw_checkpoints w)
    = cp_probe c :: drop (Datatypes.S k) (cp_probe <$> cw_checkpoints w)) as Hdrop.
  { apply drop_S. by rewrite list_lookup_fmap, Hc. }
  rewrite Hdrop. intros [Hw Hv]. split; [done|].
  assert (∀ k' l, (Datatypes.S k ≤ k')%nat →
    take (k' - k) (cp_probe c :: l) = cp_probe c :: take (k' - Datatypes.S k) l) as Htake.
  { intros k' l Hk'. by replace (k' - k)%nat with (Datatypes.S (k' - Datatypes.S k)) by lia. }
  destruct v as [[| |name cause]|].
  - done.
  - destruct Hv as [? ->]. done.
  - destruct Hv as (? & k' & c' & Hk' & ? & ? & ->). split; [done|]. exists k', c'.
    rewrite Htake by done. repeat split; try done. lia.
  - destruct Hv as (k' & Hk' & ? & ->). exists k'. rewrite Htake by done.
    repeat split; try done. lia.
Qed.

Lemma polls_spec w nows k :
  walk_wf w → awaits w k →
  ∃ w' v log, polls w nows = Some (w', v, log) ∧ polls_outcome w k w' v log.
Proof.
  revert w k. induction nows as [|now nows IH]; intros w k Hwf Hk; simpl.
  { exists w, None, []. split; [done|]. split; [done|]. exists k. by rewrite Nat.sub_diag. }
  destruct (poll_answers w now k Hwf Hk) as (w1 & v & log & -> & Ha). simpl.
  pose proof (answer_wf _ _ _ _ _ Hwf Hk Ha) as Hwf1.
  inversion Ha as [? d ? Hph Hlog Hcs|? d c Hc Hlt Hph Hcs|? c Hc Hlen Hph Hcs
                  |? c cause ? Hc Hlog Hph Hcs]; subst.
  - destruct (IH w1 k Hwf1) as (w2 & v2 & log2 & -> & Ho); [left; eauto|]. simpl.
    eexists _, _, _. split; [done|]. unfold polls_outcome in *.
    by rewrite booted_probes_app, Hlog, Hcs in *.
  - destruct (IH w1 (Datatypes.S k) Hwf1) as (w2 & v2 & log2 & -> & Ho); [left; eauto|].
    simpl. eexists _, _, _. split; [done|]. by eapply polls_outcome_step.
  - eexists _, _, _. split; [done|]. split; [done|]. split; [done|]. simpl.
    rewrite (drop_S _ (cp_probe c)) by (by rewrite list_lookup_fmap, Hc).
    rewrite drop_ge; [done|]. rewrite length_fmap. lia.
  - eexists _, _, _. split; [done|]. split; [done|]. split; [done|].
    exists k, c. by rewrite Nat.sub_diag.
Qed.

(** A device that says nothing, within and past the window. *)
Lemma silent_poll w now k d c :
  walk_wf w → cw_phase w = Walking k d → cw_checkpoints w !! k = Some c →
  (∀ r p, ∃ r' ev, read_evidence r p = (r', ev) ∧ unwrap_or ev Booting = Booting) →
  if d <=? now then
    ∃ w' log, poll w now = Some (w', Failed (cp_name c) CauseTimedOut, log)
  else ∃ w' log, poll w now = Some (w', Waiting d, log) ∧ walk_wf w' ∧
    cw_phase w' = Walking k d ∧ cw_checkpoints w' = cw_checkpoints w.
Proof.
  intros [Hne Hcur] Hph Hc Hsilent. unfold poll, start_if_armed. rewrite Hph. simpl.
  rewrite Hph, Hc. simpl. destruct (d <=? now); [eauto|].
  unfold judge. destruct (Hsilent (cw_reader w) (cp_probe c)) as (r' & ev & -> & Hev).
  rewrite Hev. eexists _, _. split; [done|]. split; [|done].
  split; simpl; [done|]. intros cu de Hd. by eapply Hcur.
Qed.

Lemma silent_polls w nows k d c last :
  walk_wf w → cw_phase w = Walking k d → cw_checkpoints w !! k = Some c →
  (∀ r p, ∃ r' ev, read_evidence r p = (r', ev) ∧ unwrap_or ev Booting = Booting) →
  Forall (λ now, now < d) nows → d ≤ last →
  ∃ w' log, polls w (nows ++ [last]) = Some (w', Some (Failed (cp_name c) CauseTimedOut), log).
Proof.
  intros Hwf Hph Hc Hsilent Hall Hlast. revert w Hwf Hph Hc.
  induction Hall as [|now nows Hnow _ IH]; intros w Hwf Hph Hc; simpl.
  - pose proof (silent_poll w last k d c Hwf Hph Hc Hsilent) as Hp.
    rewrite (proj2 (Z.leb_le d last) Hlast) in Hp. destruct Hp as (w' & log & ->). simpl. eauto.
  - pose proof (silent_poll w now k d c Hwf Hph Hc Hsilent) as Hp.
    rewrite (proj2 (Z.leb_gt d now) Hnow) in Hp.
    destruct Hp as (w1 & log & -> & Hwf1 & Hph1 & Hcs1). simpl.
    destruct (IH w1 Hwf1 Hph1) as (w2 & log2 & ->); [by rewrite Hcs1|]. simpl. eauto.
Qed.
End walk_lemmas.

(** ** Properties *)

(** The build-time checks accept exactly the sound tables.  A device entry
    is accepted exactly when its name is not empty, it declares a checkpoint,
    and no two checkpoints share a name; the hand-written byte comparison
    decides equality of names. *)
Theorem device_config_checked {P R} name (reset : R) (cs : list (BootCheckpoint P)) d :
  DeviceConfig_new name reset cs = Some d ↔
    name ≠ EmptyString ∧ cs ≠ [] ∧ NoDup (cp_name <$> cs) ∧
    d = {| dc_name := name; reset_signal := reset; checkpoints := cs |}.
Proof.
  unfold DeviceConfig_new. rewrite <- names_unique_iff.
  destruct name as [|ch name]; [naive_solver|]. simpl.
  destruct cs as [|c cs]; [naive_solver|]. cbn [length Nat.eqb].
  destruct (names_unique (c :: cs)); split; try naive_solver.
Qed.

(** A boot walk judges every checkpoint, in order.  A freshly armed walk of a
    declared device never panics, whatever the polling times and whatever the
    evidence reader answers; it reports [Complete] only after every checkpoint's
    probe answered [Booted], each once and in declaration order; a failure names
    the first checkpoint not passed; and after either verdict the walk is
    idle. *)
Theorem walk_judges_every_checkpoint {R P E S} (reader_impl : EvidenceReader R P E)
    name (reset : S) cs (d : DeviceConfig P S) reader nows :
  DeviceConfig_new name reset cs = Some d →
  ∃ w' v log, polls (arm (CheckpointWalk_new reader d)) nows = Some (w', v, log) ∧
  match v with
  | Some Complete => cw_phase w' = Idle ∧ booted_probes log = cp_probe <$> checkpoints d
  | Some (Failed name cause) => cw_phase w' = Idle ∧ ∃ k c, checkpoints d !! k = Some c ∧
      name = cp_name c ∧ booted_probes log = take k (cp_probe <$> checkpoints d)
  | Some (Waiting _) => False
  | None => ∃ k, awaits w' k ∧ booted_probes log = take k (cp_probe <$> checkpoints d)
  end.
Proof.
  intros Hd. assert (checkpoints d ≠ []) as Hne.
  { by destruct (device_config_entries _ _ _ _ Hd) as [-> ?]. }
  destruct (polls_spec (arm (CheckpointWalk_new reader d)) nows 0) as (w' & v & log & Hp & Ho).
  - split; [done|]. simpl. done.
  - by right.
  - exists w', v, log. split; [done|]. destruct Ho as [_ Ho]. simpl in Ho.
    destruct v as [[d'| |nm cause]|].
    + done.
    + by rewrite drop_0 in Ho.
    + destruct Ho as (? & k & c & _ & ? & ? & Hb). split; [done|]. exists k, c.
      by rewrite Nat.sub_0_r, drop_0 in Hb.
    + destruct Ho as (k & _ & ? & Hb). exists k. by rewrite Nat.sub_0_r, drop_0 in Hb.
Qed.

(** A reader over a script of answers; an exhausted script is a bus error. *)
Definition script_read (r : list BootStatus) (_ : nat) :
    list BootStatus * result BootStatus unit :=
  match r with s :: r' => (r', Ok s) | [] => ([], Err ()) end.

Definition ex_checkpoints : list (BootCheckpoint nat) :=
  [{| cp_name := "bl1"; cp_probe := 4%nat; cp_timeout := {| secs := 0; nanos := 5000000 |} |};
   {| cp_name := "kernel"; cp_probe := 5%nat; cp_timeout := {| secs := 2; nanos := 0 |} |}].

Definition ex_device : DeviceConfig nat nat :=
  {| dc_name := "bmc"; reset_signal := 1%nat; checkpoints := ex_checkpoints |}.

Lemma walk_judges_every_checkpoint_witness :
  ∃ w' v log, polls (H := script_read)
    (arm (CheckpointWalk_new [Booting; BootedStatus; BootedStatus] ex_device)) [10; 12; 14]
    = Some (w', v, log) ∧
  match v with
  | Some Complete => cw_phase w' = Idle ∧ booted_probes log = [4%nat; 5%nat]
  | Some (Failed name cause) => cw_phase w' = Idle ∧ ∃ k c, ex_checkpoints !! k = Some c ∧
      name = cp_name c ∧ booted_probes log = take k [4%nat; 5%nat]
  | Some (Waiting _) => False
  | None => ∃ k, awaits w' k ∧ booted_probes log = take k [4%nat; 5%nat]
  end.
Proof.
  apply (walk_judges_every_checkpoint script_read "bmc" 1%nat ex_checkpoints ex_device
    [Booting; BootedStatus; BootedStatus] [10; 12; 14]).
  reflexivity.
Defined.

(** A silent device times out, and not before.  If the evidence reader never
    reports anything (or only errors), a walk armed before the poll at [t0]
    keeps waiting while polled before [t0] plus the first checkpoint's window
    (saturating), and the first poll at or after that instant fails that
    checkpoint with [TimedOut]; the time between arming and the first poll does
    not count. *)
Theorem silent_device_times_out {R P E S} (reader_impl : EvidenceReader R P E)
    name (reset : S) c cs (d : DeviceConfig P S) reader t0 nows last :
  DeviceConfig_new name reset (c :: cs) = Some d →
  (∀ r p, ∃ r' ev, read_evidence r p = (r', ev) ∧ unwrap_or ev Booting = Booting) →
  let deadline := saturating_add u64_MAX t0 (timeout_millis c) in
  t0 < deadline → Forall (λ now, now < deadline) nows → deadline ≤ last →
  ∃ w' log, polls (arm (CheckpointWalk_new reader d)) (t0 :: nows ++ [last]) =
    Some (w', Some (Failed (cp_name c) CauseTimedOut), log).
Proof.
  intros Hd Hsilent deadline Ht0 Hnows Hlast.
  assert (checkpoints d = c :: cs) as Hcs.
  { by apply device_config_entries in Hd as [? _]. }
  set (w0 := arm (CheckpointWalk_new reader d)).
  assert (poll w0 t0 = poll (set_phase (Walking 0 deadline) w0) t0) as Hpoll.
  { unfold poll, start_if_armed, w0, CheckpointWalk_new. simpl. by rewrite Hcs. }
  set (w1 := set_phase (Walking 0 deadline) w0).
  assert (cw_checkpoints w1 = c :: cs) as Hcs1 by done.
  destruct (silent_polls w1 (t0 :: nows) 0 deadline c last) as (w' & log & Hp); try done.
  - split; [by rewrite Hcs1|]. simpl. intros ? ? [= <- <-]. rewrite Hcs. simpl. lia.
  - by rewrite Hcs1.
  - by constructor.
  - exists w', log. cbn [polls app] in Hp |- *. by rewrite Hpoll.
Qed.

(** A reader whose bus always fails. *)
Definition silent_read (r : unit) (_ : nat) : unit * result BootStatus unit := (r, Err ()).

Lemma silent_device_times_out_witness :
  ∃ w' log, polls (H := silent_read) (arm (CheckpointWalk_new () ex_device)) [10; 12; 15]
    = Some (w', Some (Failed "bl1" CauseTimedOut), log).
Proof.
  apply (silent_device_times_out silent_read "bmc" 1%nat
    {| cp_name := "bl1"; cp_probe := 4%nat; cp_timeout := {| secs := 0; nanos := 5000000 |} |}
    (tail ex_checkpoints) ex_device () 10 [12] 15).
  - reflexivity.
  - intros r p. by exists r, (Err ()).
  - reflexivity.
  - repeat constructor.
  - vm_compute. discriminate.
Defined.
