(* ===== verification/Board.v ===== *)
(** * The board seam: capability traits and their adapters

    [services/orchestrator/driver/src/board.rs] and
    [services/orchestrator/capabilities/src/*.rs]: what a board supplies to the
    driver, each trait a type class with its state threaded explicitly.  The
    two contracts the driver's theorems lean on are classes of laws,
    [BootWatchLaws] and [SvnFloorLaws], discharged here by the checkpoint walk
    ([adapters/walk]) and by the fuse bank of the mock board ([test/otp.rs]).
    The HAL adapters ([adapters/hal]) are modelled over an arbitrary reset
    controller and GPIO port. *)

From S2P Require Import Prelude SmModel BootWalk.
From stdpp Require Import base tactics list numbers strings.
Local Open Scope Z_scope.

(** ** Traits *)

(** [Svn], a [u32]. *)
Record Svn := mkSvn { Svn_get : Z }.
#[export] Instance Svn_eq_dec : EqDecision Svn.
Proof. solve_decision. Defined.

Class ImageSource (S E : Type) : Type := {
  src_open : S → S * result unit E;
  src_size : S → result nat E;
  src_read_at : S → nat → nat → S * result (list Z) E;
}.

Inductive Verdict := Authenticated (svn : Svn) | Rejected.
#[export] Instance Verdict_eq_dec : EqDecision Verdict.
Proof. solve_decision. Defined.

Class Verifier (V S E : Type) : Type :=
  verify : V → ComponentId → S → V * S * result Verdict E.

Class BootControl (B E : Type) : Type := {
  hold_in_reset : B → B * result unit E;
  release : B → B * result unit E;
}.

(** [None] is a panic. *)
Class BootWatch (W : Type) : Type := {
  watch_arm : W → W;
  watch_poll : W → Z → option (W * WalkVerdict);
}.

(** [floor] reads through [&self], but an implementor may hold its state in a
    [Cell]. *)
Class SvnFloor (F E : Type) : Type := {
  floor : F → F * result Svn E;
  advance : F → Svn → F * result unit E;
}.

Inductive Report :=
| Report_Isolated (id : ComponentId)
| Report_RecoveryFailed (id : ComponentId)
| Report_BootFailed (id : ComponentId) (checkpoint : string) (k : BootFailureKind)
| Report_UpdateDeferred
| Report_UpdateAborted.
#[export] Instance Report_eq_dec : EqDecision Report.
Proof. solve_decision. Defined.

Class ReportSink (S : Type) : Type := sink_report : S → Report → S.

(** [impl ReportSink for ()]: drops every report. *)
#[export] Instance unit_sink : ReportSink unit := λ s _, s.

(** Who keeps a component's anti-rollback floor. *)
Inductive SvnFloorBinding (F : Type) := Erot (f : F) | SelfManaged.
Arguments Erot {F} f.
Arguments SelfManaged {F}.

(** ** Contracts *)

(** A boot watch whose polls do not panic. *)
Class BootWatchLaws (W : Type) `{BootWatch W} : Type := {
  watch_ok : W → Prop;
  watch_arm_ok w : watch_ok w → watch_ok (watch_arm w);
  watch_poll_ok w now : watch_ok w →
    ∃ w' v, watch_poll w now = Some (w', v) ∧ watch_ok w';
}.

(** The documented contract of [SvnFloor], with [level] the stored floor: an
    [advance] that returns [Ok] leaves the greater of the floor and the target,
    a failed one never lowers it, and a read does not move it. *)
Class SvnFloorLaws (F E : Type) `{SvnFloor F E} : Type := {
  level : F → Z;
  floor_level f : level (floor f).1 = level f;
  advance_level f to f' r : advance f to = (f', r) →
    match r with
    | Ok _ => level f' = Z.max (level f) (Svn_get to)
    | Err _ => level f ≤ level f'
    end;
}.

(** ** The checkpoint walk as a boot watch *)

Section walk_watch.
Context {R P E : Type} `{EvidenceReader R P E}.

#[export] Instance walk_watch : BootWatch (@CheckpointWalk R P) := {
  watch_arm := BootWalk.arm;
  watch_poll := λ w now, fst <$> BootWalk.poll w now;
}.
End walk_watch.

(** ** HAL adapters *)

Section hal.
Context {C ResetId E : Type}.
Context (reset_assert reset_deassert : C → ResetId → C * result unit E).

Record HalBootControl := mkHalBootControl { controller : C; reset_id : ResetId }.

Definition HalBootControl_new (controller : C) (reset_id : ResetId) : HalBootControl :=
  {| controller := controller; reset_id := reset_id |}.

(** [BootError], the wrapper [?] converts into. *)
Inductive BootError := mkBootError (e : E).

Definition hal_hold_in_reset (b : HalBootControl) : HalBootControl * result unit BootError :=
  let '(c, r) := reset_assert (controller b) (reset_id b) in
  ({| controller := c; reset_id := reset_id b |}, map_err mkBootError r).

Definition hal_release (b : HalBootControl) : HalBootControl * result unit BootError :=
  let '(c, r) := reset_deassert (controller b) (reset_id b) in
  ({| controller := c; reset_id := reset_id b |}, map_err mkBootError r).

#[export] Instance hal_boot_control : BootControl HalBootControl BootError := {
  hold_in_reset := hal_hold_in_reset;
  release := hal_release;
}.
End hal.

Inductive ActivePolarity := ActiveHigh | ActiveLow.

(** The port is borrowed: reading it changes nothing the monitor owns.  The
    port's mask type brings [PinMask::contains] and [PinMask::is_empty]. *)
Section gpio.
Context {Port Mask E : Type} (read_input : Port → result Mask E).
Context (mask_contains : Mask → Mask → bool) (mask_is_empty : Mask → bool).

Record GpioBootMonitor := mkMonitor {
  port : Port;
  ready_pin : Mask;
  active : ActivePolarity;
}.

(** [None] is a failed assertion. *)
Definition GpioBootMonitor_new (port : Port) (ready_pin : Mask) (active : ActivePolarity) :
    option GpioBootMonitor :=
  if mask_is_empty ready_pin then None
  else Some {| port := port; ready_pin := ready_pin; active := active |}.

Inductive MonitorError := mkMonitorError (e : E).

Definition boot_status (m : GpioBootMonitor) : result BootStatus MonitorError :=
  match read_input (port m) with
  | Err e => Err (mkMonitorError e)
  | Ok lines =>
      let high := mask_contains lines (ready_pin m) in
      let booted := match active m with ActiveHigh => high | ActiveLow => negb high end in
      Ok (if booted then BootedStatus else Booting)
  end.
End gpio.

(** ** The mock board's fuse bank *)

Inductive MockFloorError := Exhausted | Injected.
#[export] Instance MockFloorError_eq_dec : EqDecision MockFloorError.
Proof. solve_decision. Defined.

Record MockOtpFloor := mkOtp { burnt : nat; otp_fail_next : bool }.

Section otp.
Context (FUSES : nat).

Definition MockOtpFloor_new : MockOtpFloor := {| burnt := 0; otp_fail_next := false |}.

(** [None] is a failed assertion. *)
Definition seed (f : MockOtpFloor) (s : Svn) : option MockOtpFloor :=
  let target := as_usize (Svn_get s) in
  if negb (target <=? FUSES)%nat then None
  else if negb (burnt f <=? target)%nat then None
  else Some {| burnt := target; otp_fail_next := otp_fail_next f |}.

Definition fail_next (f : MockOtpFloor) : MockOtpFloor :=
  {| burnt := burnt f; otp_fail_next := true |}.

(** [Cell::take] leaves [false]. *)
Definition otp_check (f : MockOtpFloor) : MockOtpFloor * result unit MockFloorError :=
  ({| burnt := burnt f; otp_fail_next := false |},
   if otp_fail_next f then Err Injected else Ok ()).

Definition otp_floor (f : MockOtpFloor) : MockOtpFloor * result Svn MockFloorError :=
  match otp_check f with
  | (f, Err e) => (f, Err e)
  | (f, Ok _) => (f, Ok (mkSvn (Z.of_nat (burnt f) mod 2 ^ 32)))
  end.

Definition otp_advance (f : MockOtpFloor) (to : Svn) :
    MockOtpFloor * result unit MockFloorError :=
  match otp_check f with
  | (f, Err e) => (f, Err e)
  | (f, Ok _) =>
      let target := as_usize (Svn_get to) in
      if (target <=? burnt f)%nat then (f, Ok ())
      else if (FUSES <? target)%nat then (f, Err Exhausted)
      else ({| burnt := target; otp_fail_next := otp_fail_next f |}, Ok ())
  end.

#[export] Instance otp_svn_floor : SvnFloor MockOtpFloor MockFloorError := {
  floor := otp_floor;
  advance := otp_advance;
}.
End otp.

(** ** The contracts, discharged *)

#[export] Instance walk_watch_laws {R P E} `{EvidenceReader R P E} :
  BootWatchLaws (@CheckpointWalk R P).
Proof.
  refine {| watch_ok := walk_wf |}.
  - intros w [Hne _]. by split.
  - intros w now Hwf. simpl. destruct (cw_phase w) as [| |k d] eqn:Hph.
    + exists w, (Waiting u64_MAX). unfold BootWalk.poll, start_if_armed.
      rewrite Hph. simpl. by rewrite Hph.
    + destruct (poll_answers w now 0 Hwf (or_intror (conj Hph eq_refl)))
        as (w' & v & log & -> & Ha). exists w', v. split; [done|].
      by eapply answer_wf; [..|done]; [|right].
    + assert (awaits w k) as Hk by (left; eauto).
      destruct (poll_answers w now k Hwf Hk) as (w' & v & log & -> & Ha).
      exists w', v. split; [done|]. by eapply answer_wf.
Defined.

#[export] Instance otp_floor_laws FUSES :
  SvnFloorLaws MockOtpFloor MockFloorError (H := otp_svn_floor FUSES).
Proof.
  refine {| level := λ f, Z.of_nat (burnt f) |}.
  - intros [b []]; reflexivity.
  - intros [b fl] [to] f' r. simpl. unfold otp_advance, otp_check, as_usize. simpl.
    destruct fl; [intros [= <- <-]; simpl; lia|].
    destruct (Z.to_nat to <=? b)%nat eqn:Hle; [intros [= <- <-]; apply Nat.leb_le in Hle; simpl; lia|].
    apply Nat.leb_gt in Hle.
    destruct (FUSES <? Z.to_nat to)%nat; intros [= <- <-]; simpl; lia.
Defined.

(** ** Properties *)

(** The fuse bank keeps the anti-rollback contract exactly.  On a bank within
    its capacity, an [advance] at or below the floor changes nothing, one within
    capacity is read back by the next [floor], one beyond capacity is
    [Exhausted] and burns nothing; an injected fault fails one operation, burns
    nothing, and is gone; and the bank stays within its capacity. *)
Theorem otp_fuse_bank FUSES f to :
  (burnt f ≤ FUSES)%nat → (Z.of_nat FUSES < 2 ^ 32) → in_u32 (Svn_get to) →
  let '(f', r) := otp_advance FUSES f to in
  (burnt f' ≤ FUSES)%nat ∧ otp_fail_next f' = false ∧
  (if otp_fail_next f then r = Err Injected ∧ burnt f' = burnt f
   else if Svn_get to <=? Z.of_nat (burnt f) then r = Ok () ∧ f' = f
   else if Svn_get to <=? Z.of_nat FUSES then r = Ok () ∧ otp_floor f' = (f', Ok to)
   else r = Err Exhausted ∧ f' = f).
Proof.
  destruct f as [b fl], to as [to]. unfold in_u32, otp_advance, otp_check, as_usize.
  simpl. intros Hb HF Hto. destruct fl; simpl; [done|].
  destruct (Z.to_nat to <=? b)%nat eqn:Hle, (to <=? Z.of_nat b) eqn:Hle';
    rewrite ?Nat.leb_le, ?Nat.leb_gt, ?Z.leb_le, ?Z.leb_gt in *; simpl; try lia; [done|].
  destruct (FUSES <? Z.to_nat to)%nat eqn:Hlt, (to <=? Z.of_nat FUSES) eqn:Hlt';
    rewrite ?Nat.ltb_lt, ?Nat.ltb_ge, ?Z.leb_le, ?Z.leb_gt in *; simpl; try lia; [done|].
  repeat split; [lia|]. unfold otp_floor, otp_check. simpl.
  rewrite Z2Nat.id, Z.mod_small by lia. done.
Qed.

Lemma otp_fuse_bank_witness :
  otp_advance 8 {| burnt := 3; otp_fail_next := false |} (mkSvn 5) =
    ({| burnt := 5; otp_fail_next := false |}, Ok ()) ∧
  otp_floor {| burnt := 5; otp_fail_next := false |} =
    ({| burnt := 5; otp_fail_next := false |}, Ok (mkSvn 5)).
Proof.
  split; [reflexivity|].
  apply (otp_fuse_bank 8 {| burnt := 3; otp_fail_next := false |} (mkSvn 5)); simpl.
  - lia.
  - lia.
  - unfold in_u32, u32_MAX. lia.
Defined.
