(* ===== verification/Driver.v ===== *)
(** * The platform driver

    [services/orchestrator/driver/src/driver.rs]: one executor per effect over
    the board's capabilities, the boot-walk poll that turns verdicts into
    events, and [PlatformDriver] as the [Platform] the state machine is
    dispatched on.

    Arrays [[T; N]] are lists; [None] is a panic (an index out of range, or a
    capability that panics), and [driver_wf] -- every array has [N] entries --
    rules it out.  The [Platform] interface has no panic: there the instance
    answers [Err], an answer [execute_contained] shows a well-formed driver
    never gives for that reason. *)

From Stdlib Require Import Ascii String.
From S2P Require Import Prelude SmModel SmCore SmInv SmSafety SmDispatch SmWalk BootWalk Board.
From stdpp Require Import base tactics list numbers strings.
Local Open Scope Z_scope.

Inductive DriverError :=
| UnknownComponent | ImageUnavailable | NotStaged | VerifierFault
| BootControlFault | NoVerifiedImage | SvnFloorFault.
#[export] Instance DriverError_eq_dec : EqDecision DriverError.
Proof. solve_decision. Defined.

(** [id.get() as usize]. *)
Definition id_index (id : ComponentId) : nat := as_usize (ComponentId_get id).

(** One [poll_boot_walks] round. *)
Record BootWalkPoll := mkBootWalkPoll {
  event : option Event;
  next_deadline_millis : option Z;
}.

Section driver.
Context {Image Vf BC BW SF RS : Type} {EI EV EB EF : Type}.
Context `{!ImageSource Image EI, !Verifier Vf Image EV, !BootControl BC EB,
  !BootWatch BW, !SvnFloor SF EF, !ReportSink RS}.

Record Board := mkBoard {
  images : list Image;
  verifier : Vf;
  boot_controls : list BC;
  boot_watches : list BW;
  component_kinds : list ComponentKind;
  svn_floors : list (SvnFloorBinding SF);
  report_sink : RS;
}.

Record PlatformDriver := mkDriver {
  board : Board;
  staged : option ComponentId;
  watching : list bool;
  verified_svn : list (option Svn);
}.

Definition PlatformDriver_new (N : nat) (b : Board) : PlatformDriver :=
  {| board := b; staged := None; watching := replicate N false;
     verified_svn := replicate N None |}.

(** Field updates. *)
Definition set_images x b :=
  {| images := x; verifier := verifier b; boot_controls := boot_controls b;
     boot_watches := boot_watches b; component_kinds := component_kinds b;
     svn_floors := svn_floors b; report_sink := report_sink b |}.
Definition set_verifier x b :=
  {| images := images b; verifier := x; boot_controls := boot_controls b;
     boot_watches := boot_watches b; component_kinds := component_kinds b;
     svn_floors := svn_floors b; report_sink := report_sink b |}.
Definition set_boot_controls x b :=
  {| images := images b; verifier := verifier b; boot_controls := x;
     boot_watches := boot_watches b; component_kinds := component_kinds b;
     svn_floors := svn_floors b; report_sink := report_sink b |}.
Definition set_boot_watches x b :=
  {| images := images b; verifier := verifier b; boot_controls := boot_controls b;
     boot_watches := x; component_kinds := component_kinds b;
     svn_floors := svn_floors b; report_sink := report_sink b |}.
Definition set_svn_floors x b :=
  {| images := images b; verifier := verifier b; boot_controls := boot_controls b;
     boot_watches := boot_watches b; component_kinds := component_kinds b;
     svn_floors := x; report_sink := report_sink b |}.
Definition set_report_sink x b :=
  {| images := images b; verifier := verifier b; boot_controls := boot_controls b;
     boot_watches := boot_watches b; component_kinds := component_kinds b;
     svn_floors := svn_floors b; report_sink := x |}.
Definition set_board x d :=
  {| board := x; staged := staged d; watching := watching d;
     verified_svn := verified_svn d |}.
Definition set_staged x d :=
  {| board := board d; staged := x; watching := watching d;
     verified_svn := verified_svn d |}.
Definition set_watching x d :=
  {| board := board d; staged := staged d; watching := x;
     verified_svn := verified_svn d |}.
Definition set_verified_svn x d :=
  {| board := board d; staged := staged d; watching := watching d;
     verified_svn := x |}.

(** ** Executors *)

Definition source (imgs : list Image) (id : ComponentId) : result Image DriverError :=
  ok_or (imgs !! id_index id) UnknownComponent.

Definition stage_firmware (d : PlatformDriver) (id : ComponentId) :
    PlatformDriver * result unit DriverError :=
  let d := set_staged None d in
  match source (images (board d)) id with
  | Err e => (d, Err e)
  | Ok src =>
      let '(src', r) := src_open src in
      let d := set_board (set_images (<[id_index id := src']> (images (board d))) (board d)) d in
      match r with
      | Err _ => (d, Err ImageUnavailable)
      | Ok _ => (set_staged (Some id) d, Ok ())
      end
  end.

Definition verify_firmware (d : PlatformDriver) (id : ComponentId) :
    option (PlatformDriver * result Event DriverError) :=
  match source (images (board d)) id with
  | Err e => Some (d, Err e)
  | Ok src =>
      if negb (bool_decide (staged d = Some id)) then Some (d, Err NotStaged)
      else
        let '(v', src', r) := verify (verifier (board d)) id src in
        let d := set_board (set_verifier v'
          (set_images (<[id_index id := src']> (images (board d))) (board d))) d in
        match r with
        | Err _ => Some (d, Err VerifierFault)
        | Ok verdict =>
            let idx := id_index id in
            match verdict with
            | Authenticated svn =>
                vs ← index_set (verified_svn d) idx (Some svn);
                Some (set_verified_svn vs d, Ok (VerificationPassed id))
            | Rejected =>
                vs ← index_set (verified_svn d) idx None;
                Some (set_verified_svn vs d, Ok (VerificationFailed id))
            end
        end
  end.

Definition commit_svn_floor (d : PlatformDriver) (id : ComponentId) :
    option (PlatformDriver * result unit DriverError) :=
  let idx := id_index id in
  match svn_floors (board d) !! idx with
  | None => Some (d, Err UnknownComponent)
  | Some SelfManaged => Some (d, Ok ())
  | Some (Erot f) =>
      verified ← verified_svn d !! idx;
      match verified with
      | None => Some (d, Err NoVerifiedImage)
      | Some svn =>
          let '(f', r) := advance f svn in
          let d := set_board
            (set_svn_floors (<[idx := Erot f']> (svn_floors (board d))) (board d)) d in
          Some (d, map_err (λ _, SvnFloorFault) r)
      end
  end.

Definition boot_control (d : PlatformDriver) (id : ComponentId) : result BC DriverError :=
  ok_or (boot_controls (board d) !! id_index id) UnknownComponent.

Definition release_reset (d : PlatformDriver) (id : ComponentId) :
    option (PlatformDriver * result unit DriverError) :=
  match boot_control d id with
  | Err e => Some (d, Err e)
  | Ok bc =>
      let '(bc', r) := release bc in
      let idx := id_index id in
      let d := set_board
        (set_boot_controls (<[idx := bc']> (boot_controls (board d))) (board d)) d in
      match r with
      | Err _ => Some (d, Err BootControlFault)
      | Ok _ =>
          w ← boot_watches (board d) !! idx;
          let d := set_board
            (set_boot_watches (<[idx := watch_arm w]> (boot_watches (board d))) (board d)) d in
          ws ← index_set (watching d) idx true;
          Some (set_watching ws d, Ok ())
      end
  end.

Definition assert_reset (d : PlatformDriver) (id : ComponentId) :
    option (PlatformDriver * result unit DriverError) :=
  match boot_control d id with
  | Err e => Some (d, Err e)
  | Ok bc =>
      let '(bc', r) := hold_in_reset bc in
      let idx := id_index id in
      let d := set_board
        (set_boot_controls (<[idx := bc']> (boot_controls (board d))) (board d)) d in
      match r with
      | Err _ => Some (d, Err BootControlFault)
      | Ok _ =>
          ws ← index_set (watching d) idx false;
          Some (set_watching ws d, Ok ())
      end
  end.

Definition report (d : PlatformDriver) (r : Report) : PlatformDriver :=
  set_board (set_report_sink (sink_report (report_sink (board d)) r) (board d)) d.

(** ** Polling the boot walks *)

Definition failure_kind (cause : FailureCause) : BootFailureKind :=
  match cause with
  | CauseTimedOut => TimedOut
  | CauseDeviceRetriable => DeviceRetriable
  | CauseDeviceFatal => DeviceFatal
  end.

(** [n] components from [idx] on. *)
Fixpoint poll_walks_from (n idx : nat) (d : PlatformDriver) (now_millis : Z)
    (next : option Z) : option (PlatformDriver * BootWalkPoll) :=
  match n with
  | O => Some (d, {| event := None; next_deadline_millis := next |})
  | S n' =>
      watched ← watching d !! idx;
      if negb watched then poll_walks_from n' (S idx) d now_millis next
      else
        let id := ComponentId_new (as_u8 (Z.of_nat idx)) in
        w ← boot_watches (board d) !! idx;
        '(w', verdict) ← watch_poll w now_millis;
        let d := set_board
          (set_boot_watches (<[idx := w']> (boot_watches (board d))) (board d)) d in
        match verdict with
        | Waiting deadline_millis =>
            let next := Some (match next with
                              | Some dl => Z.min dl deadline_millis
                              | None => deadline_millis
                              end) in
            poll_walks_from n' (S idx) d now_millis next
        | Complete =>
            ws ← index_set (watching d) idx false;
            kind ← component_kinds (board d) !! idx;
            let ev := match kind with
                      | Active => ComponentReady id
                      | Passive => Booted id
                      end in
            Some (set_watching ws d, {| event := Some ev; next_deadline_millis := next |})
        | Failed checkpoint cause =>
            ws ← index_set (watching d) idx false;
            Some (set_watching ws d,
              {| event := Some (BootFailed id checkpoint (failure_kind cause));
                 next_deadline_millis := next |})
        end
  end.

Definition poll_boot_walks (N : nat) (d : PlatformDriver) (now_millis : Z) :
    option (PlatformDriver * BootWalkPoll) :=
  poll_walks_from N 0 d now_millis None.

(** The caller's drain: poll until a round brings no event. *)
Fixpoint drain_boot_walks (N fuel : nat) (d : PlatformDriver) (now_millis : Z) :
    option (PlatformDriver * list Event * option Z) :=
  match fuel with
  | O => None
  | S fuel' =>
      '(d', p) ← poll_boot_walks N d now_millis;
      match event p with
      | None => Some (d', [], next_deadline_millis p)
      | Some ev =>
          '(d'', evs, next) ← drain_boot_walks N fuel' d' now_millis;
          Some (d'', ev :: evs, next)
      end
  end.

(** ** [impl Platform] *)

(** [.map(f)] and the closing [.map_err(|_| EffectError)]. *)
Definition answer {A} (f : A → option Event) (r : result A DriverError) :
    result (option Event) EffectError :=
  map_err (λ _, mkEffectError) (map_ok f r).

Definition driver_execute (d : PlatformDriver) (effect : Effect) :
    option (PlatformDriver * result (option Event) EffectError) :=
  match effect with
  | ReadFirmware id =>
      let '(d, r) := stage_firmware d id in Some (d, answer (λ _, None) r)
  | VerifyFirmware id =>
      '(d, r) ← verify_firmware d id; Some (d, answer Some r)
  | ReleaseReset id =>
      '(d, r) ← release_reset d id; Some (d, answer (λ _, None) r)
  | AssertReset id =>
      '(d, r) ← assert_reset d id; Some (d, answer (λ _, None) r)
  | CommitSvnFloor id =>
      '(d, r) ← commit_svn_floor d id; Some (d, answer (λ _, None) r)
  | ReportIsolated id => Some (report d (Report_Isolated id), Ok None)
  | ReportRecoveryFailed id => Some (report d (Report_RecoveryFailed id), Ok None)
  | ReportUpdateDeferred => Some (report d Report_UpdateDeferred, Ok None)
  | ReportUpdateAborted => Some (report d Report_UpdateAborted, Ok None)
  | ReportBootFailed id checkpoint kind =>
      Some (report d (Report_BootFailed id checkpoint kind), Ok None)
  | RecoverComponent _ _ | AuthenticateUpdate | StageUpdate | ActivateUpdate
  | DiscardStaged | SignAttestation | LatchLockdown => Some (d, Err mkEffectError)
  | Emit _ => Some (d, Err mkEffectError)
  end.

#[export] Instance driver_platform : Platform PlatformDriver := λ d e,
  match driver_execute d e with
  | Some r => r
  | None => (d, Err mkEffectError)
  end.
End driver.

(** ** Well-formed drivers *)

Section driver_lemmas.
Context {Image Vf BC BW SF RS : Type} {EI EV EB EF : Type}.
Context `{!ImageSource Image EI, !Verifier Vf Image EV, !BootControl BC EB,
  !BootWatch BW, !BootWatchLaws BW, !SvnFloor SF EF, !ReportSink RS}.
Context (N : nat).

Abbreviation driver := (@PlatformDriver Image Vf BC BW SF RS).
Implicit Types (d : driver) (b : @Board Image Vf BC BW SF RS).

(** Every array has its [N] entries, ids fit their [u8], and no walk panics. *)
Record board_wf b : Prop := {
  bw_cap : (N ≤ 256)%nat;
  bw_images : length (images b) = N;
  bw_controls : length (boot_controls b) = N;
  bw_watches : length (boot_watches b) = N;
  bw_kinds : length (component_kinds b) = N;
  bw_floors : length (svn_floors b) = N;
  bw_walks : Forall watch_ok (boot_watches b);
}.

Record driver_wf d : Prop := {
  dw_board : board_wf (board d);
  dw_watching : length (watching d) = N;
  dw_verified : length (verified_svn d) = N;
}.

(** The two drivers agree on everything that belongs to component [j]. *)
Record same_at (j : nat) d d' : Prop := {
  sa_images : images (board d') !! j = images (board d) !! j;
  sa_controls : boot_controls (board d') !! j = boot_controls (board d) !! j;
  sa_watches : boot_watches (board d') !! j = boot_watches (board d) !! j;
  sa_kinds : component_kinds (board d') !! j = component_kinds (board d) !! j;
  sa_floors : svn_floors (board d') !! j = svn_floors (board d) !! j;
  sa_watching : watching d' !! j = watching d !! j;
  sa_verified : verified_svn d' !! j = verified_svn d !! j;
}.

Lemma driver_new_wf b : board_wf b → driver_wf (PlatformDriver_new N b).
Proof. intros Hb. split; simpl; [done|apply length_replicate..]. Qed.

(** The component an executor works on. *)
Definition effect_index (e : Effect) : option nat :=
  match e with
  | ReadFirmware id | VerifyFirmware id | ReleaseReset id | AssertReset id
  | CommitSvnFloor id => Some (id_index id)
  | _ => None
  end.

(** What every executor guarantees about the component at [i]. *)
Definition contained (i : nat) d d' {A} (r : result A DriverError) : Prop :=
  driver_wf d' ∧ (∀ j, j ≠ i → same_at j d d') ∧
  ((N ≤ i)%nat → r = Err UnknownComponent).

Local Ltac contained_done :=
  split; [split; [split|..]|split];
    [simpl in *; rewrite ?length_insert; first [done|lia|by apply Forall_insert] ..
    |intros; split; simpl; rewrite ?list_lookup_insert_ne by done; done
    |try lia].

Lemma lookup_id {A} (l : list A) i : length l = N → (i < N)%nat → ∃ x, l !! i = Some x.
Proof. intros Hl Hi. apply lookup_lt_is_Some_2. lia. Qed.

Lemma lookup_bound {A} (l : list A) i x : length l = N → l !! i = Some x → (i < N)%nat.
Proof. intros <- Hi. by eapply lookup_lt_Some. Qed.

Lemma lookup_unknown {A} (l : list A) i : length l = N → l !! i = None → (N ≤ i)%nat.
Proof. intros <- Hi. by apply lookup_ge_None. Qed.

Lemma stage_contained d id d' r :
  driver_wf d → stage_firmware d id = (d', r) → contained (id_index id) d d' r.
Proof.
  intros [[] ? ?] Hs. unfold stage_firmware, source in Hs. simpl in Hs.
  destruct (images (board d) !! id_index id) as [src|] eqn:Hi; simpl in Hs.
  - apply lookup_bound in Hi; [|done]. destruct (src_open src) as [src' []];
      simplify_eq; contained_done.
  - simplify_eq. contained_done. done.
Qed.

Lemma verify_contained d id :
  driver_wf d → ∃ d' r, verify_firmware d id = Some (d', r) ∧
    contained (id_index id) d d' r ∧
    (∀ ev, r = Ok ev → ev = VerificationPassed id ∨ ev = VerificationFailed id).
Proof.
  intros [[] ? ?]. unfold verify_firmware, source.
  destruct (images (board d) !! id_index id) as [src|] eqn:Hi; simpl.
  - apply lookup_bound in Hi; [|done]. destruct (negb _).
    { eexists _, _. split; [done|]. split; [contained_done|naive_solver]. }
    destruct (verify _ id src) as [[v' src'] [[svn|]|]]; simpl;
      rewrite ?index_set_Some by lia; simpl;
      (eexists _, _; split; [done|]; split; [contained_done|naive_solver]).
  - eexists _, _. split; [done|]. split; [contained_done; done|naive_solver].
Qed.

Lemma commit_contained d id :
  driver_wf d → ∃ d' r, commit_svn_floor d id = Some (d', r) ∧
    contained (id_index id) d d' r.
Proof.
  intros [[] ? ?]. unfold commit_svn_floor.
  destruct (svn_floors (board d) !! id_index id) as [[f|]|] eqn:Hi; simpl.
  - apply lookup_bound in Hi; [|done].
    destruct (lookup_id (verified_svn d) (id_index id)) as [[svn|] ->]; [done..| |]; simpl.
    + destruct (advance f svn) as [f' r']. eexists _, _. split; [done|]. contained_done.
    + eexists _, _. split; [done|]. contained_done.
  - apply lookup_bound in Hi; [|done]. eexists _, _. split; [done|]. contained_done.
  - eexists _, _. split; [done|]. contained_done; done.
Qed.

Lemma release_contained d id :
  driver_wf d → ∃ d' r, release_reset d id = Some (d', r) ∧
    contained (id_index id) d d' r.
Proof.
  intros [[] ? ?]. unfold release_reset, boot_control.
  destruct (boot_controls (board d) !! id_index id) as [bc|] eqn:Hi; simpl.
  - apply lookup_bound in Hi; [|done]. destruct (release bc) as [bc' []]; cycle 1.
    { eexists _, _. split; [done|]. contained_done. }
    simpl. destruct (lookup_id (boot_watches (board d)) (id_index id)) as [w Hw]; [done..|].
    rewrite Hw. simpl. rewrite index_set_Some by lia. simpl.
    eexists _, _. split; [done|].
    assert (watch_ok (watch_arm w)).
    { apply watch_arm_ok. by eapply Forall_lookup_1. }
    contained_done.
  - eexists _, _. split; [done|]. contained_done; done.
Qed.

Lemma assert_contained d id :
  driver_wf d → ∃ d' r, assert_reset d id = Some (d', r) ∧
    contained (id_index id) d d' r.
Proof.
  intros [[] ? ?]. unfold assert_reset, boot_control.
  destruct (boot_controls (board d) !! id_index id) as [bc|] eqn:Hi; simpl.
  - apply lookup_bound in Hi; [|done]. destruct (hold_in_reset bc) as [bc' []]; simpl;
      rewrite ?index_set_Some by lia; simpl;
      (eexists _, _; split; [done|]; contained_done).
  - eexists _, _. split; [done|]. contained_done; done.
Qed.

(** All executors together: no panic, the driver stays well-formed, and only
    the named component is touched. *)
Lemma execute_ok d e :
  driver_wf d → ∃ d' r, driver_execute d e = Some (d', r) ∧ driver_wf d' ∧
    (∀ j, effect_index e ≠ Some j → same_at j d d') ∧
    (∀ i, effect_index e = Some i → (N ≤ i)%nat → r = Err mkEffectError) ∧
    (∀ ev, r = Ok (Some ev) → ∃ id, e = VerifyFirmware id ∧
       (ev = VerificationPassed id ∨ ev = VerificationFailed id)).
Proof.
  intros Hwf.
  assert (∀ i d' {A} (r : result A DriverError) f, contained i d d' r →
    driver_wf d' ∧ (∀ j, Some i ≠ Some j → same_at j d d') ∧
    (∀ i', Some i = Some i' → (N ≤ i')%nat → answer f r = Err mkEffectError)) as Hc.
  { intros i d' A r f (? & Hs & Hu). split; [done|]. split.
    - intros j Hj. apply Hs. congruence.
    - intros ? [= <-] ?. by rewrite Hu. }
  assert (∀ {A} (r : result A DriverError) (ev : Event),
    answer (λ _, None) r = Ok (Some ev) → False) as Hn by (by intros A []).
  destruct e; simpl;
    try (eexists _, _; split; [done|]; split; [destruct Hwf as [[] ? ?]; by repeat split|];
         split; [intros; by split|]; done).
  - destruct (stage_firmware d id) as [d' r] eqn:Hs. eexists _, _. split; [done|].
    destruct (Hc _ _ _ r (λ _, None) (stage_contained _ _ _ _ Hwf Hs)) as (? & ? & ?).
    split_and!; try done. intros ev Hev. by apply Hn in Hev.
  - destruct (verify_contained d id Hwf) as (d' & r & -> & Hcon & Hev).
    eexists _, _. split; [done|]. destruct (Hc _ _ _ r Some Hcon) as (? & ? & ?).
    split_and!; try done. intros ev. destruct r as [ev'|]; [|done]. intros [= <-]. eauto.
  - destruct (release_contained d id Hwf) as (d' & r & -> & Hcon).
    eexists _, _. split; [done|]. destruct (Hc _ _ _ r (λ _, None) Hcon) as (? & ? & ?).
    split_and!; try done. intros ev Hev. by apply Hn in Hev.
  - destruct (assert_contained d id Hwf) as (d' & r & -> & Hcon).
    eexists _, _. split; [done|]. destruct (Hc _ _ _ r (λ _, None) Hcon) as (? & ? & ?).
    split_and!; try done. intros ev Hev. by apply Hn in Hev.
  - destruct (commit_contained d id Hwf) as (d' & r & -> & Hcon).
    eexists _, _. split; [done|]. destruct (Hc _ _ _ r (λ _, None) Hcon) as (? & ? & ?).
    split_and!; try done. intros ev Hev. by apply Hn in Hev.
Qed.

(** ** Runs

    A run of the driver: effects from the state machine and polls from the
    run loop, in any order, with what each of them answered. *)

Inductive DriverOp := OpExec (e : Effect) | OpPoll (now_millis : Z).

Inductive Obs :=
| ObsExec (e : Effect) (r : result (option Event) EffectError)
| ObsPoll (ev : option Event).

Definition run_op (d : driver) (op : DriverOp) : option (driver * Obs) :=
  match op with
  | OpExec e => '(d', r) ← driver_execute d e; Some (d', ObsExec e r)
  | OpPoll now => '(d', p) ← poll_boot_walks N d now; Some (d', ObsPoll (event p))
  end.

Fixpoint run_ops (d : driver) (ops : list DriverOp) : option (driver * list Obs) :=
  match ops with
  | [] => Some (d, [])
  | op :: ops' =>
      '(d', o) ← run_op d op;
      '(d'', tr) ← run_ops d' ops';
      Some (d'', o :: tr)
  end.

(** ** One poll round *)

(** A walk event for the component at [i], as the component's kind has it. *)
Definition walk_event (k : ComponentKind) (i : nat) (v : WalkVerdict) : option Event :=
  let id := ComponentId_new (Z.of_nat i) in
  match v with
  | Waiting _ => None
  | Complete => Some (match k with Active => ComponentReady id | Passive => Booted id end)
  | Failed checkpoint cause => Some (BootFailed id checkpoint (failure_kind cause))
  end.

(** Component [i]'s walk, if watched, was polled and answered [v]. *)
Definition polled d d' (now : Z) (i : nat) (v : WalkVerdict) : Prop :=
  ∃ w w', boot_watches (board d) !! i = Some w ∧ watch_poll w now = Some (w', v) ∧
    boot_watches (board d') !! i = Some w'.

Definition min_deadline (next : option Z) (dl : Z) : option Z :=
  Some (match next with Some m => Z.min m dl | None => dl end).

(** Polling changes nothing but the watches and the watch bits. *)
Definition poll_frame d d' : Prop :=
  staged d' = staged d ∧ verified_svn d' = verified_svn d ∧
  images (board d') = images (board d) ∧ verifier (board d') = verifier (board d) ∧
  boot_controls (board d') = boot_controls (board d) ∧
  component_kinds (board d') = component_kinds (board d) ∧
  svn_floors (board d') = svn_floors (board d) ∧
  report_sink (board d') = report_sink (board d).

(** What a round over the components in [[lo, hi)] did, from the deadline
    [next] on: either every watched walk is waiting, or the first one that is
    not has stopped being watched and nothing behind it was polled. *)
Inductive poll_round (lo hi : nat) d now (next : option Z) d' : BootWalkPoll → Prop :=
| round_waiting dls :
    watching d' = watching d →
    (∀ i, (lo ≤ i < hi)%nat → watching d !! i = Some true →
       ∃ dl, polled d d' now i (Waiting dl) ∧ dl ∈ dls) →
    (∀ dl, dl ∈ dls → ∃ i, (lo ≤ i < hi)%nat ∧ watching d !! i = Some true ∧
       polled d d' now i (Waiting dl)) →
    poll_round lo hi d now next d'
      {| event := None; next_deadline_millis := foldl min_deadline next dls |}
| round_event i k v ev next' :
    (lo ≤ i < hi)%nat → watching d !! i = Some true →
    component_kinds (board d) !! i = Some k → polled d d' now i v →
    walk_event k i v = Some ev → watching d' = <[i := false]> (watching d) →
    (∀ j, (lo ≤ j < i)%nat → watching d !! j = Some true →
       ∃ dl, polled d d' now j (Waiting dl)) →
    (∀ j, (i < j)%nat → boot_watches (board d') !! j = boot_watches (board d) !! j) →
    poll_round lo hi d now next d' {| event := Some ev; next_deadline_millis := next' |}.

Definition watch_update d (i : nat) (w : BW) : driver :=
  set_board (set_boot_watches (<[i := w]> (boot_watches (board d))) (board d)) d.

Lemma watch_update_wf d i w : driver_wf d → watch_ok w → driver_wf (watch_update d i w).
Proof.
  intros [[] ? ?] Hw. split; [split|..]; simpl; rewrite ?length_insert; try done.
  by apply Forall_insert.
Qed.

Lemma polled_update d d' now i j w v :
  j ≠ i → polled (watch_update d i w) d' now j v → polled d d' now j v.
Proof.
  intros Hj (w0 & w1 & Hw0 & Hp & Hw1). exists w0, w1. simpl in Hw0.
  by rewrite list_lookup_insert_ne in Hw0.
Qed.

Lemma round_skip lo hi d now next d' p :
  watching d !! lo = Some false →
  poll_round (S lo) hi d now next d' p → poll_round lo hi d now next d' p.
Proof.
  intros Hlo Hr. assert (∀ i, watching d !! i = Some true → i ≠ lo) by congruence.
  destruct Hr as [dls Hw Hall Hmem|i k v ev next' Hi Hw Hk Hp Hev Hw' Hbef Haft].
  - apply round_waiting; [done|..].
    + intros i Hi Hwi. apply Hall; [|done]. specialize (H i Hwi). lia.
    + intros dl Hdl. destruct (Hmem dl Hdl) as (i & Hi & ?). exists i. split; [lia|done].
  - eapply (round_event _ _ _ _ _ _ i); try done; [lia|].
    intros j Hj Hwj. apply Hbef; [|done]. specialize (H j Hwj). lia.
Qed.

Lemma round_waits lo hi d now next d' p w w' dl :
  watching d !! lo = Some true → (lo < hi)%nat → boot_watches (board d) !! lo = Some w →
  watch_poll w now = Some (w', Waiting dl) → boot_watches (board d') !! lo = Some w' →
  poll_round (S lo) hi (watch_update d lo w') now (min_deadline next dl) d' p →
  poll_round lo hi d now next d' p.
Proof.
  intros Hlo Hlt Hw Hpoll Hw' Hr.
  assert (polled d d' now lo (Waiting dl)) as Hplo by (by exists w, w').
  destruct Hr as [dls Hwt Hall Hmem|i k v ev next' Hi Hwi Hk Hp Hev Hwt Hbef Haft];
    cbn [watching watch_update set_board board set_boot_watches component_kinds] in *.
  - apply (round_waiting _ _ _ _ _ _ (dl :: dls)); [done|..].
    + intros i Hi Hwi. destruct (decide (i = lo)) as [->|Hne].
      * exists dl. split; [done|left].
      * destruct (Hall i) as (dl' & Hp & Hin); [lia|done|]. exists dl'.
        split; [by eapply polled_update|by right].
    + intros dl' [->|Hin]%elem_of_cons; [exists lo; split; [lia|done]|].
      destruct (Hmem dl' Hin) as (i & Hi & Hwi & Hp). exists i. split; [lia|].
      split; [done|]. eapply polled_update; [|done]. lia.
  - eapply (round_event _ _ _ _ _ _ i); try done; [lia|..].
    + eapply polled_update; [|done]. lia.
    + intros j Hj Hwj. destruct (decide (j = lo)) as [->|Hne]; [eauto|].
      destruct (Hbef j) as (dl' & Hp'); [lia|done|]. exists dl'. by eapply polled_update.
    + intros j Hj. rewrite Haft by lia. simpl. rewrite list_lookup_insert_ne; [done|lia].
Qed.

Lemma poll_from_ok n idx d now next :
  driver_wf d → (idx + n = N)%nat →
  ∃ d' p, poll_walks_from n idx d now next = Some (d', p) ∧ driver_wf d' ∧
    poll_frame d d' ∧
    (∀ j, (j < idx)%nat → boot_watches (board d') !! j = boot_watches (board d) !! j) ∧
    poll_round idx N d now next d' p.
Proof.
  revert idx d next. induction n as [|n IH]; intros idx d next Hwf Hidx.
  { exists d, {| event := None; next_deadline_millis := next |}.
    split_and!; try done. apply (round_waiting _ _ _ _ _ _ []); [done|lia|].
    intros dl Hdl. by apply elem_of_nil in Hdl. }
  pose proof Hwf as [Hb Hwt _]. cbn [poll_walks_from].
  destruct (lookup_id (watching d) idx) as [b Hwi]; [done|lia|]. rewrite Hwi. simpl.
  destruct b; simpl; cycle 1.
  { destruct (IH (S idx) d next Hwf) as (d' & p & -> & ? & ? & Hbef & Hr); [lia|].
    exists d', p. split_and!; try done; [|by apply round_skip].
    intros j Hj. apply Hbef. lia. }
  destruct (lookup_id (boot_watches (board d)) idx) as [w Hw]; [by destruct Hb|lia|].
  rewrite Hw. simpl.
  destruct (watch_poll_ok w now) as (w' & v & Hp & Hok).
  { eapply Forall_lookup_1; [by destruct Hb|done]. }
  rewrite Hp. simpl. fold (watch_update d idx w').
  pose proof (watch_update_wf d idx w' Hwf Hok) as Hwf1.
  assert (as_u8 (Z.of_nat idx) = Z.of_nat idx) as Hid.
  { apply as_u8_small. unfold in_u8, u8_MAX. destruct Hb. lia. }
  assert (boot_watches (board (watch_update d idx w')) !! idx = Some w') as Hw1.
  { simpl. apply list_lookup_insert_eq. destruct Hb. lia. }
  destruct v as [dl| |cp cause].
  - destruct (IH (S idx) (watch_update d idx w') (min_deadline next dl) Hwf1)
      as (d' & p & Hd' & Hwf' & Hfr & Hbef & Hr); [lia|].
    exists d', p. split_and!; try done.
    + intros j Hj. rewrite Hbef by lia. simpl. apply list_lookup_insert_ne. lia.
    + eapply round_waits; try done; [lia|]. by rewrite Hbef by lia.
  - rewrite index_set_Some by (rewrite Hwt; lia). simpl.
    destruct (lookup_id (component_kinds (board d)) idx) as [k Hk]; [by destruct Hb|lia|].
    rewrite Hk. simpl. eexists _, _. split; [done|]. split; [|split; [done|split]].
    + destruct Hwf1. split; simpl in *; rewrite ?length_insert; done.
    + intros j Hj. simpl. apply list_lookup_insert_ne. lia.
    + eapply (round_event _ _ _ _ _ _ idx k Complete); try done; [lia|by exists w, w'|..].
      * simpl. by rewrite Hid.
      * lia.
      * intros j Hj. simpl. apply list_lookup_insert_ne. lia.
  - rewrite index_set_Some by (rewrite Hwt; lia). simpl.
    destruct (lookup_id (component_kinds (board d)) idx) as [k Hk]; [by destruct Hb|lia|].
    eexists _, _. split; [done|]. split; [|split; [done|split]].
    + destruct Hwf1. split; simpl in *; rewrite ?length_insert; done.
    + intros j Hj. simpl. apply list_lookup_insert_ne. lia.
    + eapply (round_event _ _ _ _ _ _ idx k (Failed cp cause)); try done;
        [lia|by exists w, w'|..].
      * simpl. by rewrite Hid.
      * lia.
      * intros j Hj. simpl. apply list_lookup_insert_ne. lia.
Qed.

Lemma poll_ok d now :
  driver_wf d → ∃ d' p, poll_boot_walks N d now = Some (d', p) ∧ driver_wf d' ∧
    poll_frame d d' ∧ poll_round 0 N d now None d' p.
Proof.
  intros Hwf. destruct (poll_from_ok N 0 d now None Hwf eq_refl)
    as (d' & p & ? & ? & ? & _ & ?). eauto 10.
Qed.

Lemma min_deadlines dls next :
  match foldl min_deadline next dls with
  | None => next = None ∧ dls = []
  | Some m => (next = Some m ∨ m ∈ dls) ∧ (∀ n, next = Some n → m ≤ n) ∧
      ∀ dl, dl ∈ dls → m ≤ dl
  end.
Proof.
  revert next. induction dls as [|dl dls IH]; intros next; simpl.
  { destruct next; split_and!; try done; [by left|naive_solver|].
    intros dl Hdl. by apply elem_of_nil in Hdl. }
  specialize (IH (min_deadline next dl)).
  destruct (foldl min_deadline (min_deadline next dl) dls) as [m|]; [|by destruct IH].
  destruct IH as (Hm & Hn & Hall). specialize (Hn _ eq_refl).
  split_and!.
  - destruct Hm as [Hm|?]; [|by right; right]. destruct next as [n|]; injection Hm as <-.
    + destruct (Z.min_spec n dl) as [[_ ->]|[_ ->]]; [by left|right; left].
    + right; left.
  - intros n ->. simpl in Hn. lia.
  - intros dl' [->|?]%elem_of_cons; [|auto]. destruct next; simpl in Hn; lia.
Qed.

(** ** Draining *)

Definition watched_count d : nat := length (filter (λ w, w = true) (watching d)).

Lemma watched_count_clear (l : list bool) i :
  l !! i = Some true →
  length (filter (λ w, w = true) l) =
    S (length (filter (λ w, w = true) (<[i := false]> l))).
Proof.
  revert i. induction l as [|b l IH]; intros [|i] Hi; simplify_eq/=.
  - done.
  - specialize (IH i Hi). destruct b; [|exact IH]. simpl. by f_equal.
Qed.

(** The component a boot event names. *)
Definition event_index (ev : Event) : option nat := id_index <$> component_id ev.

Lemma walk_event_index k i v ev : walk_event k i v = Some ev → event_index ev = Some i.
Proof.
  unfold event_index, id_index. destruct v; [done|destruct k|]; intros [= <-]; simpl;
    by rewrite as_usize_of_nat.
Qed.

Lemma drain_ok fuel d now :
  driver_wf d → (watched_count d < fuel)%nat →
  ∃ d' evs next, drain_boot_walks N fuel d now = Some (d', evs, next) ∧ driver_wf d' ∧
    (length evs ≤ watched_count d)%nat ∧ NoDup (event_index <$> evs) ∧
    (∀ i, watching d' !! i = Some true ↔
       watching d !! i = Some true ∧ Some i ∉ (event_index <$> evs)) ∧
    (∀ ev, ev ∈ evs → ∃ i, event_index ev = Some i ∧ watching d !! i = Some true) ∧
    (∀ i, watching d' !! i = Some true → ∃ m dl w w', next = Some m ∧ m ≤ dl ∧
       watch_poll w now = Some (w', Waiting dl) ∧ boot_watches (board d') !! i = Some w').
Proof.
  revert d. induction fuel as [|fuel IH]; intros d Hwf Hf; [lia|]. cbn [drain_boot_walks].
  destruct (poll_ok d now Hwf) as (d1 & p & -> & Hwf1 & Hfr & Hr). simpl.
  destruct Hr as [dls Hw Hall Hmem|i k v ev next' Hi Hwi Hk Hp Hev Hw Hbef Haft]; simpl.
  - exists d1, [], (foldl min_deadline None dls). split_and!; try done.
    + simpl. lia.
    + constructor.
    + intros i. rewrite Hw. split; [|tauto]. intros ?. split; [done|].
      simpl. apply not_elem_of_nil.
    + intros ev Hev. by apply elem_of_nil in Hev.
    + intros i Hwi. rewrite Hw in Hwi.
      destruct (Hall i) as (dl & (w & w' & Hlk & Hpoll & Hlk') & Hin);
        [apply lookup_lt_Some in Hwi; destruct Hwf; lia|done|].
      pose proof (min_deadlines dls None) as Hmin.
      destruct (foldl min_deadline None dls) as [m|].
      * destruct Hmin as (_ & _ & Hmin). exists m, dl, w, w'. split_and!; auto.
      * destruct Hmin as [_ ->]. by apply elem_of_nil in Hin.
  - assert (watched_count d = S (watched_count d1)) as Hcount.
    { unfold watched_count. rewrite Hw. by apply watched_count_clear. }
    destruct (IH d1 Hwf1) as (d' & evs & next & -> & ? & Hlen & Hnd & Hbits & Hsub & Hdl);
      [lia|]. simpl.
    assert (∀ ev', ev' ∈ evs → event_index ev' ≠ Some i) as Hfresh.
    { intros ev' Hin Heq. destruct (Hsub _ Hin) as (i' & Hi' & Hwi').
      rewrite Heq in Hi'. simplify_eq. rewrite Hw in Hwi'.
      rewrite list_lookup_insert_eq in Hwi'; [done|]. by eapply lookup_lt_Some. }
    pose proof (walk_event_index _ _ _ _ Hev) as Hidx.
    exists d', (ev :: evs), next. split_and!; try done.
    + simpl. lia.
    + simpl. constructor; [|done]. rewrite Hidx.
      intros (ev' & Heq & Hin)%list_elem_of_fmap. by eapply Hfresh.
    + intros j. rewrite Hbits, Hw. simpl. rewrite not_elem_of_cons, Hidx.
      destruct (decide (j = i)) as [->|Hne].
      * rewrite list_lookup_insert_eq by (by eapply lookup_lt_Some). naive_solver.
      * rewrite list_lookup_insert_ne by done. naive_solver.
    + intros ev' [->|Hin]%elem_of_cons; [eauto|].
      destruct (Hsub _ Hin) as (j & Hj & Hwj). exists j. split; [done|].
      rewrite Hw in Hwj. apply list_lookup_insert_Some in Hwj. naive_solver.
Qed.

(** ** What an effect changes *)

Local Ltac execute_cases :=
  repeat match goal with
  | H : driver_execute _ ?e = Some _ |- _ => destruct e; simpl in H
  | H : Some _ = Some _ |- _ => injection H as H; subst
  | H : (_, _) = (_, _) |- _ => injection H as H; subst
  | H : (match ?x with _ => _ end) = _ |- _ => destruct x eqn:?; simpl in H; try done
  | H : (match ?x with _ => _ end) ≫= _ = _ |- _ => destruct x eqn:?; simpl in H; try done
  | H : ?x ≫= _ = Some _ |- _ => destruct x eqn:?; simpl in H; try done
  end; simpl in *; try done.

Local Ltac execute_split :=
  unfold driver_execute, stage_firmware, verify_firmware, release_reset, assert_reset,
    commit_svn_floor, boot_control, source, index_set; intros; execute_cases.

Definition watch_after (e : Effect) (r : result (option Event) EffectError)
    (ws : list bool) : list bool :=
  match e, r with
  | ReleaseReset id, Ok _ => <[id_index id := true]> ws
  | AssertReset id, Ok _ => <[id_index id := false]> ws
  | _, _ => ws
  end.

Lemma execute_watching d e d' r :
  driver_execute d e = Some (d', r) → watching d' = watch_after e r (watching d).
Proof. execute_split. Qed.

Lemma execute_kinds d e d' r :
  driver_execute d e = Some (d', r) →
  component_kinds (board d') = component_kinds (board d).
Proof. execute_split. Qed.

(** Only a verification consults the verifier or moves the SVN on record. *)
Lemma execute_unjudged d e d' r :
  driver_execute d e = Some (d', r) → (∀ id, e ≠ VerifyFirmware id) →
  verified_svn d' = verified_svn d ∧ verifier (board d') = verifier (board d).
Proof. execute_split; naive_solver. Qed.

(** The only feedback is the verdict that was asked for. *)
Lemma execute_feedback d e d' r ev :
  driver_execute d e = Some (d', r) → r = Ok (Some ev) → ∃ id, e = VerifyFirmware id ∧
    (ev = VerificationPassed id ∨ ev = VerificationFailed id).
Proof.
  execute_split; unfold answer in *; simplify_eq/=; try naive_solver.
  by match goal with r : result unit EF |- _ => destruct r end.
Qed.

(** A floor moves only on a commit, and only to the SVN on record. *)
Lemma execute_floors d e d' r :
  driver_execute d e = Some (d', r) →
  svn_floors (board d') = svn_floors (board d) ∨
  ∃ id f svn, e = CommitSvnFloor id ∧
    svn_floors (board d) !! id_index id = Some (Erot f) ∧
    verified_svn d !! id_index id = Some (Some svn) ∧
    svn_floors (board d') =
      <[id_index id := Erot (advance f svn).1]> (svn_floors (board d)) ∧
    ((∃ x, r = Ok x) ↔ ∃ x, (advance f svn).2 = Ok x).
Proof.
  execute_split; try (by left).
  right. eexists _, _, _. split_and!; [done..| |].
  - by erewrite (surjective_pairing (advance _ _)) in *; simplify_eq.
  - match goal with H : advance _ _ = (_, ?r) |- _ => rewrite H; destruct r end;
      simpl; split; intros [x Hx]; try done; eauto.
Qed.

(** The report an effect carries outward. *)
Definition report_of (e : Effect) : option Report :=
  match e with
  | ReportIsolated id => Some (Report_Isolated id)
  | ReportRecoveryFailed id => Some (Report_RecoveryFailed id)
  | ReportBootFailed id checkpoint k => Some (Report_BootFailed id checkpoint k)
  | ReportUpdateDeferred => Some Report_UpdateDeferred
  | ReportUpdateAborted => Some Report_UpdateAborted
  | _ => None
  end.

Lemma execute_reports d e d' r :
  driver_execute d e = Some (d', r) →
  report_sink (board d') =
    foldl sink_report (report_sink (board d)) (option_list (report_of e)) ∧
  (is_Some (report_of e) → r = Ok None).
Proof. execute_split; split; by try intros []. Qed.

(** ** Runs of the driver *)

Lemma run_op_ok d op :
  driver_wf d → ∃ d' o, run_op d op = Some (d', o) ∧ driver_wf d'.
Proof.
  intros Hwf. destruct op as [e|now]; simpl.
  - destruct (execute_ok d e Hwf) as (d' & r & -> & ? & _). simpl. eauto.
  - destruct (poll_ok d now Hwf) as (d' & p & -> & ? & _). simpl. eauto.
Qed.

Lemma run_ops_ok d ops :
  driver_wf d → ∃ d' tr, run_ops d ops = Some (d', tr) ∧ driver_wf d'.
Proof.
  revert d. induction ops as [|op ops IH]; intros d Hwf; simpl; [eauto|].
  destruct (run_op_ok d op Hwf) as (d1 & o & -> & Hwf1). simpl.
  destruct (IH d1 Hwf1) as (d2 & tr & -> & ?). simpl. eauto.
Qed.

(** Induction over runs. *)
Lemma run_ops_ind (I : driver → list Obs → Prop) d ops d' tr :
  driver_wf d → I d [] →
  (∀ d tr op d' o, driver_wf d → I d tr → run_op d op = Some (d', o) →
     I d' (tr ++ [o])) →
  run_ops d ops = Some (d', tr) → I d' tr.
Proof.
  intros Hwf Hinit Hstep Hrun.
  cut (∀ ops d pre tr, driver_wf d → I d pre → run_ops d ops = Some (d', tr) → I d' (pre ++ tr)).
  { intros Hc. by apply (Hc ops d []). }
  clear - Hstep. induction ops as [|op ops IH]; intros d pre tr Hwf Hi Hrun; simpl in Hrun.
  - simplify_eq. by rewrite app_nil_r.
  - destruct (run_op_ok d op Hwf) as (d1 & o & Hop & Hwf1). rewrite Hop in Hrun. simpl in Hrun.
    destruct (run_ops d1 ops) as [[d2 tr']|] eqn:Hr; [|done]. simplify_eq/=.
    rewrite cons_middle, app_assoc. eapply IH; [done| |done].
    exact (Hstep d pre op d1 o Hwf Hi Hop).
Qed.

(** Whether component [i]'s walk is in flight after a trace: released since the
    last hold and the last event for it. *)
Definition armed_by (i : nat) (armed : bool) (o : Obs) : bool :=
  match o with
  | ObsExec (ReleaseReset id) (Ok _) => if decide (id_index id = i) then true else armed
  | ObsExec (AssertReset id) (Ok _) => if decide (id_index id = i) then false else armed
  | ObsPoll (Some ev) => if decide (event_index ev = Some i) then false else armed
  | _ => armed
  end.

Definition in_flight (i : nat) (tr : list Obs) : bool := foldl (armed_by i) false tr.

Lemma in_flight_snoc i tr o : in_flight i (tr ++ [o]) = armed_by i (in_flight i tr) o.
Proof. unfold in_flight. by rewrite foldl_app. Qed.

Lemma bits_insert (ws : list bool) (f : nat → bool) i x :
  (∀ j, (j < length ws)%nat → ws !! j = Some (f j)) → ∀ j, (j < length ws)%nat →
  <[i := x]> ws !! j = Some (if decide (i = j) then x else f j).
Proof.
  intros Hws j Hj. case_decide as Hd; [subst; by apply list_lookup_insert_eq|].
  rewrite list_lookup_insert_ne by done. auto.
Qed.

(** The watch bits are exactly the walks in flight, and every boot event is for
    one of them. *)
Lemma run_op_in_flight d tr op d' o :
  driver_wf d → (∀ i, (i < N)%nat → watching d !! i = Some (in_flight i tr)) →
  run_op d op = Some (d', o) →
  (∀ i, (i < N)%nat → watching d' !! i = Some (in_flight i (tr ++ [o]))) ∧
  component_kinds (board d') = component_kinds (board d) ∧
  (∀ ev, o = ObsPoll (Some ev) → ∃ i k v, in_flight i tr = true ∧
     component_kinds (board d) !! i = Some k ∧ walk_event k i v = Some ev).
Proof.
  intros Hwf Hbits Hop. pose proof (dw_watching _ Hwf) as Hlen. rewrite <- Hlen in *.
  destruct op as [e|now]; simpl in Hop.
  - destruct (driver_execute d e) as [[d1 r]|] eqn:Hx; [|done]. simplify_eq/=.
    split_and!; [|by eapply execute_kinds|done].
    intros i Hi. rewrite in_flight_snoc, (execute_watching _ _ _ _ Hx). simpl.
    destruct e; try by apply Hbits. all: destruct r; [|by apply Hbits]; simpl.
    all: rewrite (bits_insert _ (λ i, in_flight i tr)) by done; done.
  - destruct (poll_ok d now Hwf) as (d1 & p & Hp & _ & Hfr & Hr). rewrite Hp in Hop.
    simplify_eq/=. split_and!; [|by apply Hfr|].
    + intros i Hi. rewrite in_flight_snoc.
      destruct Hr as [dls Hw _ _|j k v ev next' _ Hwj _ _ Hev Hw _ _]; rewrite Hw; simpl.
      * by apply Hbits.
      * rewrite (bits_insert _ (λ i, in_flight i tr)) by done.
        rewrite (walk_event_index _ _ _ _ Hev). repeat case_decide; congruence.
    + intros ev [= Hev]. destruct Hr as [|j k v ev' next' _ Hwj Hk _ Hev' _ _ _]; [done|].
      simplify_eq/=. exists j, k, v. split_and!; try done.
      apply lookup_lt_Some in Hwj as Hj. rewrite (Hbits j Hj) in Hwj. congruence.
Qed.
End driver_lemmas.
