(* ===== verification/DriverRun.v ===== *)
(** * Runs of the platform driver

    The driver of [Driver.v] over whole runs of effects and polls: the verdicts
    a floor commit may trust, the driver as the platform of a dispatch, the cold
    boot of a healthy board, and the driver's properties, with a concrete
    board. *)

From Stdlib Require Import Ascii String.
From S2P Require Import Prelude SmModel SmCore SmInv SmSafety SmDispatch SmWalk BootWalk Board Driver.
From stdpp Require Import base tactics list numbers strings.
Local Open Scope Z_scope.

(** ** Verdicts on record

    The verifier wrapped to keep a log of the verdicts it returned: the driver
    is parametric in its verifier, so the log sees everything the driver does. *)

Abbreviation verdict_log := (list (ComponentId * Verdict)).

Definition logging_verify {V S E} `{!Verifier V S E} : Verifier (V * verdict_log) S E :=
  λ '(v, log) id src,
    let '(v', src', r) := verify v id src in
    ((v', log ++ match r with Ok verdict => [(id, verdict)] | Err _ => [] end), src', r).

Lemma logging_verify_eq {V S E} `{!Verifier V S E} v log id src :
  @verify _ _ _ logging_verify (v, log) id src =
    let '(v', src', r) := verify v id src in
    ((v', log ++ match r with Ok verdict => [(id, verdict)] | Err _ => [] end), src', r).
Proof. done. Qed.

(** The verdicts on the component at [i], oldest first. *)
Definition judgments (i : nat) (log : verdict_log) : list Verdict :=
  snd <$> filter (λ p, id_index p.1 = i) log.

(** The SVN a commit may trust: that of the last verdict, if it authenticated. *)
Definition trusted_svn (i : nat) (log : verdict_log) : option Svn :=
  match last (judgments i log) with Some (Authenticated s) => Some s | _ => None end.

Lemma trusted_svn_snoc i log id v :
  trusted_svn i (log ++ [(id, v)]) =
    if decide (id_index id = i) then
      match v with Authenticated s => Some s | Rejected => None end
    else trusted_svn i log.
Proof.
  unfold trusted_svn, judgments. rewrite filter_app, fmap_app, filter_cons, filter_nil. simpl.
  case_decide; simpl; [by rewrite last_snoc|]. by rewrite app_nil_r.
Qed.

Section judged.
Context {Image V BC BW SF RS : Type} {EI EV EB EF : Type}.
Context `{!ImageSource Image EI, !Verifier V Image EV, !BootControl BC EB,
  !BootWatch BW, !BootWatchLaws BW, !SvnFloor SF EF, !ReportSink RS}.
Context (N : nat).

Abbreviation driver := (@PlatformDriver Image (V * verdict_log) BC BW SF RS).
Implicit Types d : driver.
#[local] Existing Instance logging_verify.

Definition judged d : Prop :=
  ∀ i, (i < N)%nat → verified_svn d !! i = Some (trusted_svn i (verifier (board d)).2).

Lemma judged_same d d' :
  judged d → verified_svn d' = verified_svn d → verifier (board d') = verifier (board d) →
  judged d'.
Proof. intros Hj Hs Hv i Hi. rewrite Hs, Hv. auto. Qed.

Lemma verify_judged d id d' r :
  driver_wf N d → judged d → verify_firmware d id = Some (d', r) → judged d'.
Proof.
  intros Hwf Hj. pose proof (dw_verified _ _ Hwf) as Hlen. unfold verify_firmware, source.
  destruct (images (board d) !! id_index id) as [src|] eqn:Hsrc; simpl;
    [|intros; by simplify_eq].
  destruct (negb _); [intros; by simplify_eq|].
  assert (id_index id < N)%nat as Hid.
  { apply lookup_lt_Some in Hsrc. destruct Hwf as [[] ? ?]. lia. }
  destruct (verifier (board d)) as [v log] eqn:Hv. rewrite logging_verify_eq.
  destruct (verify v id src) as [[v' src'] r0]; simpl.
  assert (∀ x verdict, x = match verdict with Authenticated s => Some s | Rejected => None end →
    ∀ i, (i < N)%nat → <[id_index id := x]> (verified_svn d) !! i =
      Some (trusted_svn i (log ++ [(id, verdict)]))) as Hset.
  { intros x verdict -> i Hi. rewrite trusted_svn_snoc. case_decide as Hd.
    - subst i. apply list_lookup_insert_eq. lia.
    - rewrite list_lookup_insert_ne by done. rewrite (Hj i Hi), Hv. done. }
  destruct r0 as [[svn|]|]; rewrite ?index_set_Some by lia; simpl; intros; simplify_eq.
  - exact (Hset (Some svn) (Authenticated svn) eq_refl).
  - exact (Hset None Rejected eq_refl).
  - intros i Hi. simpl. rewrite app_nil_r, (Hj i Hi), Hv. done.
Qed.

Lemma run_op_judged d op d' o :
  driver_wf N d → judged d → run_op N d op = Some (d', o) → judged d'.
Proof.
  intros Hwf Hj. destruct op as [e|now]; simpl.
  - destruct (driver_execute d e) as [[d1 r]|] eqn:Hx; [|done]. intros; simplify_eq/=.
    assert ((∀ id, e ≠ VerifyFirmware id) ∨ ∃ id, e = VerifyFirmware id) as [Hne|[id ->]]
      by (destruct e; eauto).
    + destruct (execute_unjudged _ _ _ _ Hx Hne). by eapply judged_same.
    + simpl in Hx. destruct (verify_firmware d id) as [[d2 r']|] eqn:Hv; [|done].
      simplify_eq/=. by eapply verify_judged.
  - destruct (poll_ok N d now Hwf) as (d1 & p & -> & _ & Hfr & _). intros; simplify_eq/=.
    destruct Hfr as (_ & ? & _ & ? & _). by eapply judged_same.
Qed.

Lemma new_judged b : (verifier b).2 = [] → judged (PlatformDriver_new N b).
Proof. intros Hb i Hi. simpl. rewrite Hb. by apply lookup_replicate_2. Qed.
End judged.

(** ** The driver as a platform *)

Section platform.
Context {Image Vf BC BW SF RS : Type} {EI EV EB EF : Type}.
Context `{!ImageSource Image EI, !Verifier Vf Image EV, !BootControl BC EB,
  !BootWatch BW, !BootWatchLaws BW, !SvnFloor SF EF, !ReportSink RS}.
Context (N : nat).

Abbreviation driver := (@PlatformDriver Image Vf BC BW SF RS).
Implicit Types d : driver.

(** Its only feedback is the verdict it was asked for. *)
#[export] Instance driver_verdicts : VerdictPlatform driver.
Proof.
  intros d e d' ev. unfold execute, driver_platform.
  destruct (driver_execute d e) as [[d1 r]|] eqn:Hx; [|done]. intros; simplify_eq.
  by eapply execute_feedback.
Qed.
End platform.

(** ** Cold boot on a healthy board *)

Section cold_boot.
Context {Image Vf BC BW SF RS : Type} {EI EV EB EF : Type}.
Context `{!ImageSource Image EI, !Verifier Vf Image EV, !BootControl BC EB,
  !BootWatch BW, !BootWatchLaws BW, !SvnFloor SF EF, !ReportSink RS}.
Context (N : nat).

Abbreviation driver := (@PlatformDriver Image Vf BC BW SF RS).
Implicit Types d : driver.

(** Every source opens, every image authenticates, every reset releases. *)
Record healthy : Prop := {
  healthy_open (s : Image) : ∃ s', src_open s = (s', Ok ());
  healthy_verify (v : Vf) id (s : Image) :
    ∃ v' s' svn, verify v id s = (v', s', Ok (Authenticated svn));
  healthy_release (c : BC) : ∃ c', release c = (c', Ok ());
}.

(** What read, verify and release of [id] leave behind. *)
Record brought_up (id : ComponentId) d d' : Prop := {
  up_wf : driver_wf N d';
  up_watching : watching d' = <[id_index id := true]> (watching d);
  up_verified : ∃ svn, verified_svn d' = <[id_index id := Some svn]> (verified_svn d);
}.

Lemma healthy_bring_up d id :
  healthy → driver_wf N d → (id_index id < N)%nat →
  ∃ d', runs_clean d [ReadFirmware id; VerifyFirmware id; ReleaseReset id] d' ∧
    brought_up id d d'.
Proof.
  intros [Hopen Hver Hrel] Hwf Hid.
  destruct (execute_ok N d (ReadFirmware id) Hwf) as (d1 & r1 & H1 & Hwf1 & _).
  destruct (execute_ok N d1 (VerifyFirmware id) Hwf1) as (d2 & r2 & H2 & Hwf2 & _).
  destruct (execute_ok N d2 (ReleaseReset id) Hwf2) as (d3 & r3 & H3 & Hwf3 & _).
  assert (r1 = Ok None ∧ staged d1 = Some id ∧ watching d1 = watching d ∧
    verified_svn d1 = verified_svn d) as (-> & Hst & Hw1 & Hv1).
  { simpl in H1. unfold stage_firmware, source in H1. simpl in H1.
    destruct (lookup_id N (images (board d)) (id_index id)) as [s Hs];
      [by destruct Hwf as [[] ? ?]|done|]. rewrite Hs in H1. simpl in H1.
    destruct (Hopen s) as [s' Ho]. rewrite Ho in H1. by simplify_eq/=. }
  assert (r2 = Ok (Some (VerificationPassed id)) ∧ watching d2 = watching d1 ∧
    ∃ svn, verified_svn d2 = <[id_index id := Some svn]> (verified_svn d1)) as (-> & Hw2 & Hv2).
  { simpl in H2. unfold verify_firmware, source in H2.
    destruct (lookup_id N (images (board d1)) (id_index id)) as [s Hs];
      [by destruct Hwf1 as [[] ? ?]|done|]. rewrite Hs in H2. simpl in H2.
    rewrite bool_decide_true in H2 by done. simpl in H2.
    destruct (Hver (verifier (board d1)) id s) as (v' & s' & svn & Hv). rewrite Hv in H2.
    simpl in H2. rewrite index_set_Some in H2 by (destruct Hwf1; lia).
    simplify_eq/=. eauto. }
  assert (r3 = Ok None ∧ watching d3 = <[id_index id := true]> (watching d2) ∧
    verified_svn d3 = verified_svn d2) as (-> & Hw3 & Hv3).
  { simpl in H3. unfold release_reset, boot_control in H3.
    destruct (lookup_id N (boot_controls (board d2)) (id_index id)) as [c Hc];
      [by destruct Hwf2 as [[] ? ?]|done|]. rewrite Hc in H3. simpl in H3.
    destruct (Hrel c) as [c' Hr]. rewrite Hr in H3. simpl in H3.
    destruct (lookup_id N (boot_watches (board d2)) (id_index id)) as [w Hw];
      [by destruct Hwf2 as [[] ? ?]|done|]. rewrite Hw in H3. simpl in H3.
    rewrite index_set_Some in H3 by (destruct Hwf2; lia). by simplify_eq/=. }
  exists d3. split.
  - unfold execute, driver_platform in *.
    eapply runs_clean_cons; [unfold execute, driver_platform; by rewrite H1|].
    eapply runs_clean_cons; [unfold execute, driver_platform; by rewrite H2|].
    eapply runs_clean_cons; [unfold execute, driver_platform; by rewrite H3|].
    apply runs_clean_nil.
  - split; [done|by rewrite Hw3, Hw2, Hw1|].
    destruct Hv2 as [svn Hv2]. exists svn. by rewrite Hv3, Hv2, Hv1.
Qed.

Lemma healthy_walk es d :
  healthy → driver_wf N d → Forall (λ e, (id_index e.1 < N)%nat) es →
  ∃ q, runs_clean d (walk_effects es) q ∧ driver_wf N q ∧
    (∀ i, i ∈ (id_index ∘ fst <$> es) ∨ watching d !! i = Some true →
       watching q !! i = Some true) ∧
    (∀ i, i ∈ (id_index ∘ fst <$> es) ∨ (∃ s, verified_svn d !! i = Some (Some s)) →
       ∃ s, verified_svn q !! i = Some (Some s)).
Proof.
  intros Hh Hwf Hall. revert d Hwf. induction Hall as [|[id a] es Hid _ IH]; intros d Hwf.
  { exists d. split; [apply runs_clean_nil|]. split; [done|]. simpl.
    split; intros i [[]%elem_of_nil|?]; done. }
  simpl in Hid. destruct (healthy_bring_up d id Hh Hwf Hid) as (d1 & Hr & [Hwf1 Hw1 [s1 Hv1]]).
  destruct (IH d1 Hwf1) as (q & Hq & Hwfq & Hwq & Hvq). exists q. split_and!.
  - change (walk_effects ((id, a) :: es)) with
      ([ReadFirmware id; VerifyFirmware id; ReleaseReset id] ++ walk_effects es).
    apply runs_clean_app. eauto.
  - done.
  - intros i Hi. apply Hwq. rewrite fmap_cons, elem_of_cons, Hw1 in *. simpl in Hi.
    destruct (decide (i = id_index id)) as [->|Hne].
    + right. apply list_lookup_insert_eq. destruct Hwf. lia.
    + destruct Hi as [[?|?]|?]; [done|by left|right]. by rewrite list_lookup_insert_ne.
  - intros i Hi. apply Hvq. rewrite fmap_cons, elem_of_cons, Hv1 in *. simpl in Hi.
    destruct (decide (i = id_index id)) as [->|Hne].
    + right. exists s1. apply list_lookup_insert_eq. destruct Hwf. lia.
    + destruct Hi as [[?|?]|[s ?]]; [done|by left|right]. exists s.
      by rewrite list_lookup_insert_ne.
Qed.
End cold_boot.

(** ** Properties *)

Section properties.
Context {Image Vf BC BW SF RS : Type} {EI EV EB EF : Type}.
Context `{!ImageSource Image EI, !Verifier Vf Image EV, !BootControl BC EB,
  !BootWatch BW, !BootWatchLaws BW, !SvnFloor SF EF, !ReportSink RS}.

Abbreviation driver := (@PlatformDriver Image Vf BC BW SF RS).

(** Executing an effect never panics and touches one component.  On a
    well-formed driver every effect is executed without a panic and leaves the
    driver well-formed; everything that belongs to a component the effect does
    not name is unchanged; and an effect for an unknown component fails. *)
Theorem execute_contained N (d : driver) e :
  driver_wf N d →
  ∃ d' r, driver_execute d e = Some (d', r) ∧ driver_wf N d' ∧
    (∀ j, effect_index e ≠ Some j → same_at j d d') ∧
    (∀ i, effect_index e = Some i → (N ≤ i)%nat → r = Err mkEffectError).
Proof.
  intros Hwf. destruct (execute_ok N d e Hwf) as (d' & r & ? & ? & ? & ? & _). eauto 10.
Qed.

(** Draining the boot walks terminates and delivers each verdict once.  Polling
    until a round brings no event takes at most one round per watched walk and
    one more; every event is for a walk that was watched, no component gets two;
    the walks still watched are exactly those without an event, and the deadline
    the last round returns is no later than that of any of them. *)
Theorem drain_delivers_each_verdict_once N (d : driver) now :
  driver_wf N d →
  ∃ d' evs next,
    drain_boot_walks N (S (watched_count d)) d now = Some (d', evs, next) ∧
    driver_wf N d' ∧ NoDup (event_index <$> evs) ∧
    (∀ ev, ev ∈ evs → ∃ i, event_index ev = Some i ∧ watching d !! i = Some true) ∧
    (∀ i, watching d' !! i = Some true ↔
       watching d !! i = Some true ∧ Some i ∉ (event_index <$> evs)) ∧
    (∀ i, watching d' !! i = Some true → ∃ m dl w w', next = Some m ∧ m ≤ dl ∧
       watch_poll w now = Some (w', Waiting dl) ∧ boot_watches (board d') !! i = Some w').
Proof.
  intros Hwf. destruct (drain_ok N (S (watched_count d)) d now Hwf ltac:(lia))
    as (d' & evs & next & ? & ? & _ & ? & ? & ? & ?). exists d', evs, next. by split_and!.
Qed.

(** C32: Every boot event answers a release.  In every run of effects and polls from
    bring-up, an event the polls deliver is for a component whose reset was
    released, and neither held again nor already answered, since; a completed
    walk is [ComponentReady] for an active and [Booted] for a passive
    component. *)
Theorem boot_events_answer_a_release N (b : @Board Image Vf BC BW SF RS) ops :
  board_wf N b →
  ∃ d tr, run_ops N (PlatformDriver_new N b) ops = Some (d, tr) ∧
    ∀ pre ev post, tr = pre ++ ObsPoll (Some ev) :: post →
      ∃ i k v, in_flight i pre = true ∧ component_kinds b !! i = Some k ∧
        walk_event k i v = Some ev.
Proof.
  intros Hb. pose proof (driver_new_wf N b Hb) as Hwf.
  destruct (run_ops_ok N _ ops Hwf) as (d & tr & Hrun & _). exists d, tr. split; [done|].
  pose (I := λ (d : driver) (tr : list Obs),
    (∀ i, (i < N)%nat → watching d !! i = Some (in_flight i tr)) ∧
    component_kinds (board d) = component_kinds b ∧
    ∀ pre ev post, tr = pre ++ ObsPoll (Some ev) :: post →
      ∃ i k v, in_flight i pre = true ∧ component_kinds b !! i = Some k ∧
        walk_event k i v = Some ev).
  cut (I d tr); [by intros (_ & _ & ?)|].
  eapply (run_ops_ind N I); [exact Hwf| | |exact Hrun].
  - split_and!; [|done|by intros [] ? ?]. intros i Hi. by apply lookup_replicate_2.
  - intros d0 tr0 op d1 o Hwf0 (Hbits & Hk & Hev) Hop.
    destruct (run_op_in_flight N d0 tr0 op d1 o Hwf0 Hbits Hop) as (? & Hk1 & Hnew).
    split_and!; [done|by rewrite Hk1|]. intros pre ev post Htr.
    destruct post as [|o' post _] using rev_ind.
    + apply app_inj_tail in Htr as [-> ->].
      destruct (Hnew ev eq_refl) as (i & k & v & ? & ? & ?). rewrite Hk in *. eauto 10.
    + rewrite app_comm_cons, app_assoc in Htr. apply app_inj_tail in Htr as [Htr _]. eauto.
Qed.

(** Reports reach the sink in order and never fail.  In every run the board's
    sink receives exactly the reports of the effects, in the order they were
    executed, whatever else fails; and executing a report always succeeds. *)
Theorem reports_in_order N (d : driver) ops :
  driver_wf N d →
  ∃ d' tr, run_ops N d ops = Some (d', tr) ∧
    report_sink (board d') = foldl sink_report (report_sink (board d))
      (omap (λ op, match op with OpExec e => report_of e | OpPoll _ => None end) ops) ∧
    (∀ e r, ObsExec e r ∈ tr → is_Some (report_of e) → r = Ok None).
Proof.
  revert d. induction ops as [|op ops IH]; intros d Hwf; simpl.
  { eexists _, _. split_and!; try done. by intros e r []%elem_of_nil. }
  destruct (run_op_ok N d op Hwf) as (d1 & o & Hop & Hwf1).
  destruct (IH d1 Hwf1) as (d' & tr & Hrun & Hsink & Hok). rewrite Hop. simpl. rewrite Hrun.
  eexists _, _. split; [done|]. rewrite Hsink. destruct op as [e|now]; simpl in Hop |- *.
  - destruct (driver_execute d e) as [[d2 r2]|] eqn:Hx; [|done]. simplify_eq/=.
    destruct (execute_reports _ _ _ _ Hx) as [-> Hr2]. split.
    + by destruct (report_of e).
    + intros e' r' [[= -> ->]|?]%elem_of_cons; eauto.
  - destruct (poll_ok N d now Hwf) as (d2 & p & Hp & _ & Hfr & _). rewrite Hp in Hop.
    simplify_eq/=. destruct Hfr as (_ & _ & _ & _ & _ & _ & _ & ->). split; [done|].
    intros e' r' [?|?]%elem_of_cons; [done|eauto].
Qed.

(** The state machine settles on the driver.  On every well-formed driver a
    dispatch of any event from any reachable machine state runs to quiescence
    within [chain.len() + 11] rounds, and leaves the driver well-formed: no
    effect of it panicked. *)
Theorem dispatch_settles_on_driver N E c max_retry o (d : driver) ev fuel :
  board_ok N E c max_retry → reachable N E c max_retry o → driver_wf N d →
  (length (entries c) + 11 ≤ fuel)%nat →
  let r := dispatch N E fuel o d ev in
  d_done r = true ∧ driver_wf N (d_platform r).
Proof.
  intros Hb Hr Hwf Hf. split; [eapply (settles_reachable N E c max_retry o d ev fuel); done|].
  apply (dispatch_platform N E (driver_wf N)); [|done]. intros p e Hp. unfold execute, driver_platform.
  destruct (execute_ok N p e Hp) as (p' & r & -> & ? & _). done.
Qed.

(** Power-good on a healthy board, whatever the kinds of the components: an
    [Active] one does not gate the walk, which never waits for its
    [ComponentReady]. *)
Lemma walk_reaches_ready N E c max_retry (b : @Board Image Vf BC BW SF RS) fuel :
  board_ok N E c max_retry → board_wf N b → healthy (Image := Image) (Vf := Vf) (BC := BC) →
  Forall (λ e, (id_index e.1 < N)%nat) (entries c) → (length (entries c) < fuel)%nat →
  let r := dispatch N E fuel (Orchestrator_new N c max_retry) (PlatformDriver_new N b)
    (PowerGood Provisioned) in
  d_done r = true ∧ state (d_orch r) = Ready ∧
  attempted (d_trace r) = walk_effects (entries c) ∧
  ∀ e, e ∈ entries c → watching (d_platform r) !! id_index e.1 = Some true ∧
    ∃ s, verified_svn (d_platform r) !! id_index e.1 = Some (Some s).
Proof.
  intros Hb Hbw Hh Hids Hf. pose proof (driver_new_wf N b Hbw) as Hwf.
  destruct (healthy_walk N (entries c) _ Hh Hwf Hids) as (q & Hq & _ & Hw & Hv).
  destruct (cold_boot_trace N E c max_retry _ q fuel Hb Hf Hq) as (H1 & H2 & H3 & H4).
  split_and!; try done. intros e He.
  assert (id_index e.1 ∈ (id_index ∘ fst <$> entries c)).
  { apply list_elem_of_fmap. by exists e. }
  rewrite H3. split; [apply Hw|apply Hv]; by left.
Qed.

(** C29: Cold boot on a healthy board whose chain is of [Passive] components
    (the kind [model.rs] documents as advancing without waiting; an [Active] one
    is documented to gate the walk).  When every source opens, every image
    authenticates and every reset line releases, the one dispatch of power-good
    brings the machine to [Ready], having read, verified and released each
    component in chain order and done nothing else; every chain component has
    its boot walk in flight and the SVN of its verified image on record. *)
Theorem cold_boot_on_healthy_board N E c max_retry (b : @Board Image Vf BC BW SF RS) fuel :
  board_ok N E c max_retry → board_wf N b → healthy (Image := Image) (Vf := Vf) (BC := BC) →
  Forall (λ e, (id_index e.1 < N)%nat ∧ kind e.2 = Passive) (entries c) →
  (length (entries c) < fuel)%nat →
  let r := dispatch N E fuel (Orchestrator_new N c max_retry) (PlatformDriver_new N b)
    (PowerGood Provisioned) in
  d_done r = true ∧ state (d_orch r) = Ready ∧
  attempted (d_trace r) = walk_effects (entries c) ∧
  ∀ e, e ∈ entries c → watching (d_platform r) !! id_index e.1 = Some true ∧
    ∃ s, verified_svn (d_platform r) !! id_index e.1 = Some (Some s).
Proof. intros Hb Hbw Hh [Hids _]%Forall_and. by apply walk_reaches_ready. Qed.
End properties.

(** The effect commits the floor of the component at [i]. *)
Definition commits (e : Effect) (i : nat) : bool :=
  match e with CommitSvnFloor id => bool_decide (id_index id = i) | _ => false end.

Section floor_properties.
Context {Image V BC BW SF RS : Type} {EI EV EB EF : Type}.
Context `{!ImageSource Image EI, !Verifier V Image EV, !BootControl BC EB,
  !BootWatch BW, !BootWatchLaws BW, !SvnFloor SF EF, !ReportSink RS}.

(** C3: A floor follows the last verdict.  After any run from bring-up, executing
    one more effect moves a component's floor only if the effect commits that
    component and the verifier's last verdict on it authenticated an image, and
    then the floor is advanced to exactly that image's SVN; a commit with no such
    verdict fails.  (The verifier is wrapped to log what it answers.) *)
Theorem floor_follows_last_verdict N
    (b : @Board Image (V * verdict_log) BC BW SF RS) ops e :
  board_wf N b → (verifier b).2 = [] →
  ∃ d tr d' r, run_ops (Verifier0 := logging_verify) N (PlatformDriver_new N b) ops = Some (d, tr) ∧
    driver_execute (Verifier0 := logging_verify) d e = Some (d', r) ∧
    ∀ i f, svn_floors (board d) !! i = Some (Erot f) →
      if commits e i then
        match trusted_svn i (verifier (board d)).2 with
        | Some s => svn_floors (board d') !! i = Some (Erot (advance f s).1)
        | None => svn_floors (board d') !! i = Some (Erot f) ∧ r = Err mkEffectError
        end
      else svn_floors (board d') !! i = Some (Erot f).
Proof.
  intros Hb Hlog. pose proof (driver_new_wf N b Hb) as Hwf.
  destruct (run_ops_ok (Verifier0 := logging_verify) N _ ops Hwf) as (d & tr & Hrun & Hwfd).
  assert (judged N d) as Hj.
  { eapply (run_ops_ind (Verifier0 := logging_verify) N (λ d _, judged N d));
      [exact Hwf|by apply new_judged| |exact Hrun].
    intros d0 tr0 op d1 o Hwf0 Hj0 Hop. by eapply run_op_judged. }
  destruct (execute_ok (Verifier0 := logging_verify) N d e Hwfd) as (d' & r & Hx & _ & Hsame & _).
  exists d, tr, d', r. split; [done|]. split; [done|]. intros i f Hf.
  destruct (commits e i) eqn:Hc; cycle 1.
  - destruct (execute_floors _ _ _ _ Hx) as [->|(id & f1 & svn & -> & _ & _ & -> & _)]; [done|].
    simpl in Hc. apply bool_decide_eq_false in Hc. by rewrite list_lookup_insert_ne.
  - destruct e; try done. simpl in Hc. apply bool_decide_eq_true in Hc as <-.
    apply lookup_lt_Some in Hf as Hi. rewrite (bw_floors _ _ (dw_board _ _ Hwfd)) in Hi.
    simpl in Hx. unfold commit_svn_floor in Hx. rewrite Hf, (Hj _ Hi) in Hx. simpl in Hx.
    destruct (trusted_svn _ _) as [s|]; simplify_eq/=; [|done].
    destruct (advance f s) as [f' r0] eqn:Ha. simplify_eq/=.
    apply list_lookup_insert_eq. by eapply lookup_lt_Some.
Qed.

(** No run lowers a floor.  For floors that keep the documented contract
    ([SvnFloorLaws]), whatever effects and polls the driver runs, every
    component's stored floor is at least what it was. *)
Theorem floor_never_lowered {Vf} `{!Verifier Vf Image EV, !SvnFloorLaws SF EF} N
    (d : @PlatformDriver Image Vf BC BW SF RS) ops :
  driver_wf N d →
  ∃ d' tr, run_ops N d ops = Some (d', tr) ∧
    ∀ i f, svn_floors (board d) !! i = Some (Erot f) →
      ∃ f', svn_floors (board d') !! i = Some (Erot f') ∧ level f ≤ level f'.
Proof.
  intros Hwf. destruct (run_ops_ok N d ops Hwf) as (d' & tr & Hrun & _).
  exists d', tr. split; [done|].
  eapply (run_ops_ind N (λ d' _, ∀ i f, svn_floors (board d) !! i = Some (Erot f) →
      ∃ f', svn_floors (board d') !! i = Some (Erot f') ∧ level f ≤ level f'));
    [done|eauto using Z.le_refl| |done].
  intros d0 tr0 [e|now] d1 o Hwf0 Hinv Hop i f Hf; simpl in Hop;
    destruct (Hinv i f Hf) as (f0 & Hf0 & Hle).
  - destruct (driver_execute d0 e) as [[d2 r]|] eqn:Hx; [|done]. simplify_eq/=.
    destruct (execute_floors _ _ _ _ Hx) as [->|(id & f1 & svn & _ & Hf1 & _ & -> & _)];
      [eauto|].
    destruct (decide (id_index id = i)) as [<-|Hne]; [|rewrite list_lookup_insert_ne by done; eauto].
    simplify_eq. eexists. split; [apply list_lookup_insert_eq; by eapply lookup_lt_Some|].
    pose proof (advance_level f0 svn) as Hadv. destruct (advance f0 svn) as [f2 [x|x]];
      specialize (Hadv _ _ eq_refl); simpl in *; lia.
  - destruct (poll_ok N d0 now Hwf0) as (d2 & p & Hp & _ & Hfr & _). rewrite Hp in Hop.
    simplify_eq/=. destruct Hfr as (_ & _ & _ & _ & _ & _ & -> & _). eauto.
Qed.
End floor_properties.

(** ** A concrete board

    Two components: images carry their SVN, reset lines are booleans, the walks
    are checkpoint walks over a script of answers, the floors are fuse banks of
    eight, and the sink is the list of what it received. *)

#[local] Instance ex_source : ImageSource nat unit := {
  src_open := λ s, (s, Ok ());
  src_size := λ s, Ok s;
  src_read_at := λ s _ _, (s, Ok []);
}.
#[local] Instance ex_verify : Verifier unit nat unit :=
  λ v _ s, (v, s, Ok (Authenticated (mkSvn (Z.of_nat s)))).
#[local] Instance ex_reset : BootControl bool unit := {
  hold_in_reset := λ _, (true, Ok ());
  release := λ _, (false, Ok ());
}.
#[local] Instance ex_reader : EvidenceReader (list BootStatus) nat unit := script_read.
#[local] Instance ex_fuses : SvnFloor MockOtpFloor MockFloorError := otp_svn_floor 8.
#[local] Instance ex_fuses_laws : SvnFloorLaws MockOtpFloor MockFloorError := otp_floor_laws 8.
#[local] Instance ex_sink : ReportSink (list Report) := λ s r, s ++ [r].

Definition ex_walk (script : list BootStatus) : @CheckpointWalk (list BootStatus) nat :=
  CheckpointWalk_new script ex_device.

Definition ex_driver_board {V} (v : V) :
    @Board nat V bool (@CheckpointWalk (list BootStatus) nat) MockOtpFloor (list Report) :=
  {| images := [3; 7; 1]%nat; verifier := v; boot_controls := [true; true; true];
     boot_watches := [ex_walk [BootedStatus; BootedStatus]; ex_walk [FailedFatal]; ex_walk []];
     component_kinds := [Active; Passive; Passive];
     svn_floors := [Erot MockOtpFloor_new; SelfManaged; Erot MockOtpFloor_new];
     report_sink := [] |}.

Lemma ex_driver_board_wf {V} (v : V) : board_wf 3 (ex_driver_board v).
Proof. split; simpl; try (done || lia). repeat constructor; done. Qed.

(** The components [0], [1], [2] by their ids. *)
Definition ex_id (i : Z) : ComponentId := ComponentId_new i.

(** The first two components out of reset. *)
Definition ex_ops : list DriverOp :=
  [OpExec (ReadFirmware (ex_id 0)); OpExec (VerifyFirmware (ex_id 0));
   OpExec (ReleaseReset (ex_id 0)); OpExec (ReleaseReset (ex_id 1));
   OpPoll 10; OpExec (ReportIsolated (ex_id 1)); OpPoll 12; OpPoll 14].

Definition ex_driver : @PlatformDriver nat unit bool
    (@CheckpointWalk (list BootStatus) nat) MockOtpFloor (list Report) :=
  PlatformDriver_new 3 (ex_driver_board ()).

Lemma ex_driver_wf : driver_wf 3 ex_driver.
Proof. apply driver_new_wf, ex_driver_board_wf. Qed.

Example ex_run :
  snd <$> run_ops 3 ex_driver ex_ops = Some
    [ObsExec (ReadFirmware (ex_id 0)) (Ok None);
     ObsExec (VerifyFirmware (ex_id 0)) (Ok (Some (VerificationPassed (ex_id 0))));
     ObsExec (ReleaseReset (ex_id 0)) (Ok None); ObsExec (ReleaseReset (ex_id 1)) (Ok None);
     ObsPoll (Some (BootFailed (ex_id 1) "bl1" DeviceFatal));
     ObsExec (ReportIsolated (ex_id 1)) (Ok None);
     ObsPoll (Some (ComponentReady (ex_id 0))); ObsPoll None].
Proof. vm_compute. reflexivity. Qed.

Lemma execute_contained_witness :
  ∃ d' r, driver_execute ex_driver (ReleaseReset (ex_id 9)) = Some (d', r) ∧
    r = Err mkEffectError ∧ same_at 1 ex_driver d'.
Proof.
  destruct (execute_contained 3 ex_driver (ReleaseReset (ex_id 9)) ex_driver_wf)
    as (d' & r & Hx & _ & Hs & Hu). exists d', r. split; [exact Hx|]. split.
  - apply (Hu 9%nat); [reflexivity|lia].
  - apply Hs. discriminate.
Defined.

Lemma drain_delivers_each_verdict_once_witness :
  ∃ d' evs next, drain_boot_walks 3 (S (watched_count ex_driver)) ex_driver 10
    = Some (d', evs, next) ∧ NoDup (event_index <$> evs).
Proof.
  destruct (drain_delivers_each_verdict_once 3 ex_driver 10 ex_driver_wf)
    as (d' & evs & next & Hd & _ & Hnd & _). exists d', evs, next. split; [exact Hd|exact Hnd].
Defined.

Lemma boot_events_answer_a_release_witness :
  ∃ d tr, run_ops 3 (PlatformDriver_new 3 (ex_driver_board ())) ex_ops = Some (d, tr) ∧
    ∀ pre ev post, tr = pre ++ ObsPoll (Some ev) :: post →
      ∃ i k v, in_flight i pre = true ∧
        component_kinds (ex_driver_board ()) !! i = Some k ∧ walk_event k i v = Some ev.
Proof.
  exact (boot_events_answer_a_release 3 (ex_driver_board ()) ex_ops (ex_driver_board_wf ())).
Defined.

Lemma reports_in_order_witness :
  ∃ d' tr, run_ops 3 ex_driver ex_ops = Some (d', tr) ∧
    report_sink (board d') = [Report_Isolated (ex_id 1)].
Proof.
  destruct (reports_in_order 3 ex_driver ex_ops ex_driver_wf) as (d' & tr & Hrun & Hs & _).
  exists d', tr. split; [exact Hrun|]. rewrite Hs. reflexivity.
Defined.

Lemma dispatch_settles_on_driver_witness :
  d_done (dispatch 3 8 14 ex_start ex_driver (PowerGood Provisioned)) = true.
Proof.
  apply (dispatch_settles_on_driver 3 8 ex_chain 2 ex_start ex_driver (PowerGood Provisioned) 14).
  - apply ex_board_ok.
  - exists [], []. reflexivity.
  - apply ex_driver_wf.
  - simpl. lia.
Defined.

Lemma ex_healthy : healthy (Image := nat) (Vf := unit) (BC := bool).
Proof.
  split.
  - intros s. by exists s.
  - intros v id s. by exists v, s, (mkSvn (Z.of_nat s)).
  - intros c. by exists false.
Qed.

(** A chain of three [Passive] components. *)
Definition passive_chain : Chain :=
  {| entries := [(ex_A, passive_required); (ex_B, passive_isolable); (ex_C, passive_required)] |}.

Definition passive_board : @Board nat unit bool
    (@CheckpointWalk (list BootStatus) nat) MockOtpFloor (list Report) :=
  let b := ex_driver_board () in
  {| images := images b; verifier := (); boot_controls := boot_controls b;
     boot_watches := boot_watches b; component_kinds := [Passive; Passive; Passive];
     svn_floors := svn_floors b; report_sink := [] |}.

Lemma cold_boot_on_healthy_board_witness :
  let r := dispatch 3 8 4 (Orchestrator_new 3 passive_chain 2)
    (PlatformDriver_new 3 passive_board) (PowerGood Provisioned) in
  state (d_orch r) = Ready ∧ attempted (d_trace r) = walk_effects (entries passive_chain).
Proof.
  destruct (cold_boot_on_healthy_board 3 8 passive_chain 2 passive_board 4)
    as (_ & H2 & H3 & _).
  - split; [|lia|unfold in_u8, u8_MAX; lia]. exists (entries passive_chain). split; [simpl; lia|done].
  - split; simpl; try (done || lia). repeat constructor; done.
  - apply ex_healthy.
  - repeat constructor.
  - simpl. lia.
  - exact (conj H2 H3).
Defined.

(** With an [Active] component first, power-good reaches [Ready] as well. *)
Example active_does_not_gate :
  kind <$> (entries ex_chain).*2 = [Active; Passive; Passive] ∧
  state (d_orch (dispatch 3 8 4 ex_start ex_driver (PowerGood Provisioned))) = Ready.
Proof. vm_compute. done. Qed.

Lemma floor_follows_last_verdict_witness :
  ∃ d tr d' r, run_ops (Verifier0 := logging_verify) 3
      (PlatformDriver_new 3 (ex_driver_board ((), []))) ex_ops = Some (d, tr) ∧
    driver_execute (Verifier0 := logging_verify) d (CommitSvnFloor (ex_id 0)) = Some (d', r) ∧
    ∀ i f, svn_floors (board d) !! i = Some (Erot f) →
      if commits (CommitSvnFloor (ex_id 0)) i then
        match trusted_svn i (verifier (board d)).2 with
        | Some s => svn_floors (board d') !! i = Some (Erot (advance f s).1)
        | None => svn_floors (board d') !! i = Some (Erot f) ∧ r = Err mkEffectError
        end
      else svn_floors (board d') !! i = Some (Erot f).
Proof.
  exact (floor_follows_last_verdict 3 (ex_driver_board ((), [])) ex_ops
    (CommitSvnFloor (ex_id 0)) (ex_driver_board_wf _) eq_refl).
Defined.

Lemma floor_never_lowered_witness :
  ∃ d' tr, run_ops 3 ex_driver (ex_ops ++ [OpExec (CommitSvnFloor (ex_id 0))]) = Some (d', tr) ∧
    ∀ i f, svn_floors (board ex_driver) !! i = Some (Erot f) →
      ∃ f', svn_floors (board d') !! i = Some (Erot f') ∧ level f ≤ level f'.
Proof.
  exact (floor_never_lowered 3 ex_driver (ex_ops ++ [OpExec (CommitSvnFloor (ex_id 0))])
    ex_driver_wf).
Defined.
