(* ===== verification/Bytes.v ===== *)
(** * Bytes, slices and little-endian integers

    What the IPC protocols of the repository share.  A byte is a [Z] in
    [0 .. 255], a slice a list of them; [None] is the panic of an access out of
    range. *)

From S2P Require Import Prelude.
From stdpp Require Import base tactics list numbers.
Local Open Scope Z_scope.

(** ** Little-endian integers *)

(** [u32::to_le_bytes], [u16::to_le_bytes] and back. *)
Definition u32_to_le_bytes (n : Z) : list Z :=
  [Z.land n 255; Z.land (Z.shiftr n 8) 255; Z.land (Z.shiftr n 16) 255;
   Z.land (Z.shiftr n 24) 255].
Definition u16_to_le_bytes (n : Z) : list Z :=
  [Z.land n 255; Z.land (Z.shiftr n 8) 255].
Definition u32_from_le_bytes (b0 b1 b2 b3 : Z) : Z :=
  Z.lor b0 (Z.lor (Z.shiftl b1 8) (Z.lor (Z.shiftl b2 16) (Z.shiftl b3 24))).
Definition u16_from_le_bytes (b0 b1 : Z) : Z := Z.lor b0 (Z.shiftl b1 8).

(** ** Flags *)

(** [flags & mask != 0]. *)
Definition has_flag (flags mask : Z) : bool := negb (Z.land flags mask =? 0).

(** ** Slices *)

(** [buf[i..i + data.len()].copy_from_slice(data)], within the buffer. *)
Definition write_at (i : nat) (data buf : list Z) : list Z :=
  take i buf ++ data ++ drop (i + length data) buf.

(** [&buf[..n]]. *)
Definition slice_to (buf : list Z) (n : nat) : option (list Z) :=
  if (n <=? length buf)%nat then Some (take n buf) else None.

(** ** Round trips *)

Lemma byte_bit n k i :
  0 ≤ k → 0 ≤ i →
  Z.testbit (Z.shiftl (Z.land (Z.shiftr n k) 255) k) i =
    (k <=? i) && (i <? k + 8) && Z.testbit n i.
Proof.
  intros Hk Hi. rewrite Z.shiftl_spec by lia.
  destruct (k <=? i) eqn:Hle; rewrite ?Z.leb_le, ?Z.leb_gt in Hle; simpl; cycle 1.
  { apply Z.testbit_neg_r. lia. }
  change 255 with (Z.ones 8).
  rewrite Z.land_spec, Z.shiftr_spec, Z.testbit_ones by lia.
  replace (i - k + k) with i by lia. rewrite (proj2 (Z.leb_le 0 (i - k))) by lia. simpl.
  rewrite andb_comm. f_equal. destruct (i <? k + 8) eqn:H1.
  - apply Z.ltb_lt in H1. apply Z.ltb_lt. lia.
  - apply Z.ltb_ge in H1. apply Z.ltb_ge. lia.
Qed.

Lemma high_bit n w i : 0 ≤ n < 2 ^ w → 0 ≤ w ≤ i → Z.testbit n i = false.
Proof.
  intros Hn Hi. rewrite <- (Z.mod_small n (2 ^ w)) by done. apply Z.mod_pow2_bits_high. lia.
Qed.

Ltac bit_cases :=
  repeat match goal with
  | |- context [?a <=? ?b] => destruct (Z.leb_spec a b)
  | |- context [?a <? ?b] => destruct (Z.ltb_spec a b)
  end; try lia; simpl; rewrite ?orb_false_r, ?orb_diag; try done.

Lemma u32_le_roundtrip n :
  in_u32 n →
  u32_from_le_bytes (Z.land n 255) (Z.land (Z.shiftr n 8) 255)
    (Z.land (Z.shiftr n 16) 255) (Z.land (Z.shiftr n 24) 255) = n.
Proof.
  unfold in_u32, u32_MAX. intros Hn. apply Z.bits_inj'. intros i Hi.
  unfold u32_from_le_bytes. rewrite !Z.lor_spec, !byte_bit by lia.
  pose proof (byte_bit n 0 i ltac:(lia) Hi) as H0. rewrite Z.shiftr_0_r, Z.shiftl_0_r in H0.
  rewrite H0. destruct (decide (32 <= i)) as [Hge|Hlt].
  - rewrite (high_bit n 32 i) by lia. by rewrite !andb_false_r.
  - bit_cases.
Qed.

(** And back: four bytes are the bytes of the word they make. *)
Lemma le_bytes_of_word b0 b1 b2 b3 :
  in_u8 b0 → in_u8 b1 → in_u8 b2 → in_u8 b3 →
  u32_to_le_bytes (u32_from_le_bytes b0 b1 b2 b3) = [b0; b1; b2; b3].
Proof.
  unfold in_u8, u8_MAX. intros H0 H1 H2 H3. unfold u32_to_le_bytes, u32_from_le_bytes.
  assert (∀ b n, 0 ≤ b ≤ 255 → 8 ≤ n → Z.testbit b n = false) as Hhigh.
  { intros b n Hb Hn. apply (high_bit b 8); lia. }
  repeat f_equal; apply Z.bits_inj'; intros n Hn; change 255 with (Z.ones 8);
    rewrite ?Z.land_spec, ?Z.shiftr_spec, ?Z.lor_spec, ?Z.shiftl_spec, ?Z.testbit_ones by lia;
    destruct (Z.ltb_spec n 8) as [Hlt|Hge];
    rewrite ?andb_false_r, ?(Hhigh _ n) by lia; try done;
    rewrite (proj2 (Z.leb_le 0 n)) by lia; rewrite andb_true_r.
  all: repeat match goal with |- context [Z.testbit ?b ?m] =>
         first [rewrite (Hhigh b m) by lia | rewrite (Z.testbit_neg_r b m) by lia] end.
  all: cbn [orb]; rewrite ?orb_false_r; f_equal; lia.
Qed.

Lemma u16_le_roundtrip n :
  in_u16 n →
  u16_from_le_bytes (Z.land n 255) (Z.land (Z.shiftr n 8) 255) = n.
Proof.
  unfold in_u16, u16_MAX. intros Hn. apply Z.bits_inj'. intros i Hi.
  unfold u16_from_le_bytes. rewrite !Z.lor_spec, !byte_bit by lia.
  pose proof (byte_bit n 0 i ltac:(lia) Hi) as H0. rewrite Z.shiftr_0_r, Z.shiftl_0_r in H0.
  rewrite H0. destruct (decide (16 <= i)) as [Hge|Hlt].
  - rewrite (high_bit n 16 i) by lia. by rewrite !andb_false_r.
  - bit_cases.
Qed.

(** ** Writing into a buffer *)

Lemma length_write_at i data buf :
  (i + length data ≤ length buf)%nat → length (write_at i data buf) = length buf.
Proof. intros Hl. unfold write_at. rewrite !length_app, length_take, length_drop. lia. Qed.

Lemma write_at_0 data buf : write_at 0 data buf = data ++ drop (length data) buf.
Proof. done. Qed.

Lemma take_two (h payload rest : list Z) n :
  n = (length h + length payload)%nat → take n (h ++ payload ++ rest) = h ++ payload.
Proof. intros ->. rewrite app_assoc, take_app_length'; [done|by rewrite length_app]. Qed.


(** ** Accesses that panic out of range *)

(** [&buf[i..j]]. *)
Definition slice_range (buf : list Z) (i j : nat) : option (list Z) :=
  if (i <=? j)%nat && (j <=? length buf)%nat then Some (take (j - i) (drop i buf)) else None.

(** [buf[i..i + data.len()].copy_from_slice(data)]. *)
Definition copy_into (i : nat) (data buf : list Z) : option (list Z) :=
  if (i + length data <=? length buf)%nat then Some (write_at i data buf) else None.

(** [buf.split_at_mut(n)]. *)
Definition split_at (buf : list Z) (n : nat) : option (list Z * list Z) :=
  if (n <=? length buf)%nat then Some (take n buf, drop n buf) else None.

Lemma slice_to_Some buf n : (n ≤ length buf)%nat → slice_to buf n = Some (take n buf).
Proof. intros Hn. unfold slice_to. by rewrite (proj2 (Nat.leb_le _ _) Hn). Qed.

Lemma slice_range_Some buf i j :
  (i ≤ j)%nat → (j ≤ length buf)%nat →
  slice_range buf i j = Some (take (j - i) (drop i buf)).
Proof.
  intros Hi Hj. unfold slice_range.
  by rewrite (proj2 (Nat.leb_le _ _) Hi), (proj2 (Nat.leb_le _ _) Hj).
Qed.

(** A part of a concatenation. *)
Lemma slice_range_app (pre mid post : list Z) i j :
  length pre = i → (i + length mid)%nat = j →
  slice_range (pre ++ mid ++ post) i j = Some mid.
Proof.
  intros <- <-. rewrite slice_range_Some by (rewrite ?length_app; lia).
  rewrite drop_app_length. f_equal. apply take_app_length'. lia.
Qed.

Lemma slice_to_app (pre post : list Z) n : length pre = n → slice_to (pre ++ post) n = Some pre.
Proof.
  intros <-. rewrite slice_to_Some by (rewrite length_app; lia). by rewrite take_app_length.
Qed.

Lemma copy_into_Some i data buf :
  (i + length data ≤ length buf)%nat → copy_into i data buf = Some (write_at i data buf).
Proof. intros Hl. unfold copy_into. by rewrite (proj2 (Nat.leb_le _ _) Hl). Qed.

Lemma split_at_Some buf n :
  (n ≤ length buf)%nat → split_at buf n = Some (take n buf, drop n buf).
Proof. intros Hn. unfold split_at. by rewrite (proj2 (Nat.leb_le _ _) Hn). Qed.

(** Bytes written at an offset, behind what is already there. *)
Lemma take_write_at i data buf :
  (i + length data ≤ length buf)%nat →
  take (i + length data) (write_at i data buf) = take i buf ++ data.
Proof.
  intros Hl. unfold write_at. rewrite app_assoc. apply take_app_length'.
  rewrite length_app, length_take. lia.
Qed.

Lemma drop_write_at i data buf n :
  (i + length data ≤ n)%nat → (i + length data ≤ length buf)%nat →
  drop n (write_at i data buf) = drop n buf.
Proof.
  intros Hn Hl. unfold write_at. rewrite app_assoc.
  rewrite drop_app_ge by (rewrite length_app, length_take; lia).
  rewrite drop_drop, length_app, length_take. f_equal. lia.
Qed.

Lemma drop_write_at_self i data buf :
  (i ≤ length buf)%nat → drop i (write_at i data buf) = data ++ drop (i + length data) buf.
Proof. intros Hi. unfold write_at. apply drop_app_length'. rewrite length_take. lia. Qed.

Lemma write_at_nil i buf : (i ≤ length buf)%nat → write_at i [] buf = buf.
Proof. intros _. unfold write_at. simpl. rewrite Nat.add_0_r. apply take_drop. Qed.

Lemma length_u16_to_le_bytes n : length (u16_to_le_bytes n) = 2%nat.
Proof. done. Qed.

Lemma as_u16_small z : in_u16 z → as_u16 z = z.
Proof. unfold in_u16, u16_MAX, as_u16. intros. apply Z.mod_small. lia. Qed.

Lemma as_u16_range z : in_u16 (as_u16 z).
Proof. unfold in_u16, u16_MAX, as_u16. pose proof (Z.mod_pos_bound z 65536). lia. Qed.

Lemma in_u16_0 : in_u16 0.
Proof. unfold in_u16, u16_MAX. lia. Qed.

Create HintDb bytes.
#[export] Hint Resolve as_u16_range in_u16_0 : bytes.
#[export] Hint Rewrite @length_app @length_take @length_drop @length_replicate
  length_u16_to_le_bytes : bytes.

(** [x as u32]: truncation. *)
Definition as_u32 (z : Z) : Z := z mod 4294967296.

Lemma as_u32_small z : in_u32 z → as_u32 z = z.
Proof. unfold in_u32, u32_MAX, as_u32. intros. apply Z.mod_small. lia. Qed.

(** The halves of a [u32] put together again. *)
Lemma u32_halves z :
  in_u32 z → Z.lor (Z.shiftl (as_u16 (Z.shiftr z 16)) 16) (as_u16 (Z.land z 65535)) = z.
Proof.
  unfold in_u32, u32_MAX. intros Hz. apply Z.bits_inj'. intros i Hi.
  assert (∀ x, as_u16 x = Z.land x (Z.ones 16)) as Ha.
  { intros x. by rewrite Z.land_ones. }
  rewrite !Ha. change 65535 with (Z.ones 16).
  rewrite Z.lor_spec, Z.shiftl_spec, !Z.land_spec, (Z.testbit_ones 16 i) by lia.
  destruct (Z.ltb_spec i 16) as [Hl|Hl].
  - rewrite (Z.testbit_neg_r _ (i - 16)) by lia. rewrite (proj2 (Z.leb_le 0 i)) by lia.
    by rewrite !andb_true_r.
  - rewrite andb_false_r, !andb_false_r, orb_false_r, Z.shiftr_spec by lia.
    rewrite Z.testbit_ones by lia. rewrite (proj2 (Z.leb_le 0 _)) by lia.
    replace (i - 16 + 16) with i by lia. cbn [andb].
    destruct (Z.ltb_spec (i - 16) 16); [by rewrite andb_true_r|].
    by rewrite (high_bit z 32 i) by lia.
Qed.
