(* ===== verification/MctpWire.v ===== *)
(** * The MCTP IPC wire protocol

    [services/mctp/api/src/wire.rs] and the response codes of
    [services/mctp/api/src/error.rs]: request and response headers of twelve
    bytes, an encoder per operation, and the decoders of both sides.

    An encoder takes the buffer it writes into and returns it with its
    result. *)

From S2P Require Import Prelude Bytes.
From stdpp Require Import base tactics list numbers.
Local Open Scope Z_scope.

(** ** Response codes *)

Inductive ResponseCode :=
| Success | InternalError | NoSpace | AddrInUse | CodeTimedOut | BadArgument
| ServerRestarted.
#[export] Instance ResponseCode_eq_dec : EqDecision ResponseCode.
Proof. solve_decision. Defined.

(** [code as u8]. *)
Definition code_u8 (c : ResponseCode) : Z :=
  match c with
  | Success => 0 | InternalError => 1 | NoSpace => 2 | AddrInUse => 3
  | CodeTimedOut => 4 | BadArgument => 5 | ServerRestarted => 6
  end.

Definition code_is_success (c : ResponseCode) : bool :=
  match c with Success => true | _ => false end.

(** [ResponseCode::from_u8]. *)
Definition code_from_u8 (value : Z) : option ResponseCode :=
  match value with
  | 0 => Some Success | 1 => Some InternalError | 2 => Some NoSpace
  | 3 => Some AddrInUse | 4 => Some CodeTimedOut | 5 => Some BadArgument
  | 6 => Some ServerRestarted | _ => None
  end.

Record MctpError := from_code { err_code : ResponseCode }.

Definition is_timeout (e : MctpError) : bool :=
  match err_code e with CodeTimedOut => true | _ => false end.

(** ** Operations and headers *)

Inductive WireError := BufferTooSmall | PayloadTooLarge | InvalidOpcode (op : Z) | Truncated.

Inductive MctpOp := SetEid | GetEid | Listener | Req | Recv | Send | Unbind.
#[export] Instance MctpOp_eq_dec : EqDecision MctpOp.
Proof. solve_decision. Defined.

(** [op as u8]. *)
Definition op_u8 (op : MctpOp) : Z :=
  match op with
  | SetEid => 0 | GetEid => 1 | Listener => 2 | Req => 3 | Recv => 4 | Send => 5
  | Unbind => 6
  end.

(** [MctpOp::from_u8]. *)
Definition op_from_u8 (val : Z) : option MctpOp :=
  match val with
  | 0 => Some SetEid | 1 => Some GetEid | 2 => Some Listener | 3 => Some Req
  | 4 => Some Recv | 5 => Some Send | 6 => Some Unbind | _ => None
  end.

(** The module [flags]. *)
Definition IC : Z := Z.shiftl 1 0.
Definition HAS_HANDLE : Z := Z.shiftl 1 1.
Definition HAS_EID : Z := Z.shiftl 1 2.
Definition HAS_TAG : Z := Z.shiftl 1 3.

Record MctpRequestHeader := mkRequestHeader {
  q_op : Z;
  q_flags : Z;
  q_msg_type : Z;
  q_eid : Z;
  q_handle : Z;
  q_tag : Z;
}.

Record MctpResponseHeader := mkResponseHeader {
  p_code : Z;
  p_flags : Z;
  p_msg_type : Z;
  p_eid : Z;
  p_handle : Z;
  p_payload_len : Z;
  p_tag : Z;
}.

Definition SIZE : nat := 12.

(** [MctpRequestHeader::to_bytes]. *)
Definition request_to_bytes (h : MctpRequestHeader) : list Z :=
  [q_op h; q_flags h; q_msg_type h; q_eid h] ++ u32_to_le_bytes (q_handle h) ++
  [q_tag h; 0; 0; 0].

(** [MctpRequestHeader::from_bytes]; a pattern of twelve bytes is the length
    check with the indexing it guards. *)
Definition request_from_bytes (bytes : list Z) : option MctpRequestHeader :=
  match bytes with
  | b0 :: b1 :: b2 :: b3 :: b4 :: b5 :: b6 :: b7 :: b8 :: _ :: _ :: _ :: _ =>
      Some {| q_op := b0; q_flags := b1; q_msg_type := b2; q_eid := b3;
              q_handle := u32_from_le_bytes b4 b5 b6 b7; q_tag := b8 |}
  | _ => None
  end.

Definition operation (h : MctpRequestHeader) : option MctpOp := op_from_u8 (q_op h).

(** [MctpResponseHeader::success] and [::error]. *)
Definition response_success : MctpResponseHeader :=
  {| p_code := code_u8 Success; p_flags := 0; p_msg_type := 0; p_eid := 0;
     p_handle := 0; p_payload_len := 0; p_tag := 0 |}.
Definition response_error (code : ResponseCode) : MctpResponseHeader :=
  {| p_code := code_u8 code; p_flags := 0; p_msg_type := 0; p_eid := 0;
     p_handle := 0; p_payload_len := 0; p_tag := 0 |}.

Definition is_success (h : MctpResponseHeader) : bool := p_code h =? code_u8 Success.

Definition response_code (h : MctpResponseHeader) : ResponseCode :=
  default InternalError (code_from_u8 (p_code h)).

(** [MctpResponseHeader::to_bytes]. *)
Definition response_to_bytes (h : MctpResponseHeader) : list Z :=
  [p_code h; p_flags h; p_msg_type h; p_eid h] ++ u32_to_le_bytes (p_handle h) ++
  u16_to_le_bytes (p_payload_len h) ++ [p_tag h; 0].

(** [MctpResponseHeader::from_bytes]. *)
Definition response_from_bytes (bytes : list Z) : option MctpResponseHeader :=
  match bytes with
  | b0 :: b1 :: b2 :: b3 :: b4 :: b5 :: b6 :: b7 :: b8 :: b9 :: b10 :: _ :: _ =>
      Some {| p_code := b0; p_flags := b1; p_msg_type := b2; p_eid := b3;
              p_handle := u32_from_le_bytes b4 b5 b6 b7;
              p_payload_len := u16_from_le_bytes b8 b9; p_tag := b10 |}
  | _ => None
  end.

(** ** Constants *)

Definition MAX_PAYLOAD_SIZE : nat := 1023.
Definition MAX_REQUEST_SIZE : nat := SIZE + MAX_PAYLOAD_SIZE.
Definition MAX_RESPONSE_SIZE : nat := SIZE + MAX_PAYLOAD_SIZE.
Definition NO_HANDLE : Z := 4294967295.

(** ** Encoders *)

Abbreviation encoder := (list Z → list Z * result nat WireError).

(** The check every header-only request encoder starts with, then its write. *)
Definition put_request (h : MctpRequestHeader) : encoder := λ buf,
  if (length buf <? SIZE)%nat then (buf, Err BufferTooSmall)
  else (write_at 0 (request_to_bytes h) buf, Ok SIZE).

Definition encode_set_eid (eid : Z) : encoder :=
  put_request {| q_op := op_u8 SetEid; q_flags := 0; q_msg_type := 0; q_eid := eid;
                 q_handle := 0; q_tag := 0 |}.
Definition encode_get_eid : encoder :=
  put_request {| q_op := op_u8 GetEid; q_flags := 0; q_msg_type := 0; q_eid := 0;
                 q_handle := 0; q_tag := 0 |}.
Definition encode_listener (msg_type : Z) : encoder :=
  put_request {| q_op := op_u8 Listener; q_flags := 0; q_msg_type := msg_type; q_eid := 0;
                 q_handle := 0; q_tag := 0 |}.
Definition encode_req (eid : Z) : encoder :=
  put_request {| q_op := op_u8 Req; q_flags := 0; q_msg_type := 0; q_eid := eid;
                 q_handle := 0; q_tag := 0 |}.
Definition encode_unbind (handle : Z) : encoder :=
  put_request {| q_op := op_u8 Unbind; q_flags := HAS_HANDLE; q_msg_type := 0; q_eid := 0;
                 q_handle := handle; q_tag := 0 |}.

Definition encode_recv (handle timeout_millis : Z) : encoder := λ buf,
  let total := (SIZE + 4)%nat in
  if (length buf <? total)%nat then (buf, Err BufferTooSmall)
  else
    let header := {| q_op := op_u8 Recv; q_flags := HAS_HANDLE; q_msg_type := 0; q_eid := 0;
                     q_handle := handle; q_tag := 0 |} in
    let buf := write_at 0 (request_to_bytes header) buf in
    (write_at SIZE (u32_to_le_bytes timeout_millis) buf, Ok total).

(** The flags byte of a [Send]. *)
Definition send_flags (handle eid tag : option Z) (ic : bool) : Z :=
  let f := 0 in
  let f := if ic then Z.lor f IC else f in
  let f := match handle with Some _ => Z.lor f HAS_HANDLE | None => f end in
  let f := match eid with Some _ => Z.lor f HAS_EID | None => f end in
  match tag with Some _ => Z.lor f HAS_TAG | None => f end.

Definition encode_send (handle : option Z) (msg_type : Z) (eid tag : option Z) (ic : bool)
    (payload : list Z) : encoder := λ buf,
  if (MAX_PAYLOAD_SIZE <? length payload)%nat then (buf, Err PayloadTooLarge)
  else
    let total := (SIZE + length payload)%nat in
    if (length buf <? total)%nat then (buf, Err BufferTooSmall)
    else
      let header := {| q_op := op_u8 Send; q_flags := send_flags handle eid tag ic;
                       q_msg_type := msg_type; q_eid := default 0 eid;
                       q_handle := default NO_HANDLE handle; q_tag := default 0 tag |} in
      let buf := write_at 0 (request_to_bytes header) buf in
      (write_at SIZE payload buf, Ok total).

(** The same for responses. *)
Definition put_response (h : MctpResponseHeader) : encoder := λ buf,
  if (length buf <? SIZE)%nat then (buf, Err BufferTooSmall)
  else (write_at 0 (response_to_bytes h) buf, Ok SIZE).

Definition encode_get_eid_response (eid : Z) : encoder :=
  put_response {| p_code := code_u8 Success; p_flags := 0; p_msg_type := 0; p_eid := eid;
                  p_handle := 0; p_payload_len := 0; p_tag := 0 |}.
Definition encode_handle_response (handle : Z) : encoder :=
  put_response {| p_code := code_u8 Success; p_flags := 0; p_msg_type := 0; p_eid := 0;
                  p_handle := handle; p_payload_len := 0; p_tag := 0 |}.
Definition encode_send_response (tag : Z) : encoder :=
  put_response {| p_code := code_u8 Success; p_flags := 0; p_msg_type := 0; p_eid := 0;
                  p_handle := 0; p_payload_len := 0; p_tag := tag |}.
Definition encode_success_response : encoder := put_response response_success.
Definition encode_error_response (code : ResponseCode) : encoder :=
  put_response (response_error code).

Definition encode_recv_response (msg_type : Z) (msg_ic : bool) (eid tag : Z)
    (payload : list Z) : encoder := λ buf,
  if (MAX_PAYLOAD_SIZE <? length payload)%nat then (buf, Err PayloadTooLarge)
  else
    let total := (SIZE + length payload)%nat in
    if (length buf <? total)%nat then (buf, Err BufferTooSmall)
    else
      let resp := {| p_code := code_u8 Success; p_flags := if msg_ic then IC else 0;
                     p_msg_type := msg_type; p_eid := eid; p_handle := 0;
                     p_payload_len := as_u16 (Z.of_nat (length payload)); p_tag := tag |} in
      let buf := write_at 0 (response_to_bytes resp) buf in
      (write_at SIZE payload buf, Ok total).

(** ** Decoders *)

Definition decode_response_header (buf : list Z) : result MctpResponseHeader WireError :=
  ok_or (response_from_bytes buf) Truncated.

Definition get_response_payload (buf : list Z) (header : MctpResponseHeader) :
    result (list Z) WireError :=
  let end_ := (SIZE + as_usize (p_payload_len header))%nat in
  if (length buf <? end_)%nat then Err Truncated
  else Ok (take (end_ - SIZE) (drop SIZE buf)).

Definition decode_request_header (buf : list Z) : result MctpRequestHeader WireError :=
  ok_or (request_from_bytes buf) Truncated.

Definition get_request_payload (buf : list Z) : list Z :=
  if (SIZE <? length buf)%nat then drop SIZE buf else [].

Definition get_recv_timeout (buf : list Z) : Z :=
  if (length buf <? SIZE + 4)%nat then 0
  else match take 4 (drop SIZE buf) with
       | [b0; b1; b2; b3] => u32_from_le_bytes b0 b1 b2 b3
       | _ => 0
       end.

(** ** Headers and buffers *)

(** The fields of a header are within their types. *)
Definition request_ok (h : MctpRequestHeader) : Prop := in_u32 (q_handle h).
Definition response_ok (h : MctpResponseHeader) : Prop :=
  in_u32 (p_handle h) ∧ in_u16 (p_payload_len h).

Lemma request_roundtrip h rest :
  request_ok h → request_from_bytes (request_to_bytes h ++ rest) = Some h.
Proof.
  intros Hh. destruct h. unfold request_to_bytes, u32_to_le_bytes. simpl.
  by rewrite u32_le_roundtrip.
Qed.

Lemma response_roundtrip h rest :
  response_ok h → response_from_bytes (response_to_bytes h ++ rest) = Some h.
Proof.
  intros [Hh Hp]. destruct h. unfold response_to_bytes, u32_to_le_bytes, u16_to_le_bytes.
  simpl in *. by rewrite u32_le_roundtrip, u16_le_roundtrip.
Qed.

Lemma length_request_to_bytes h : length (request_to_bytes h) = SIZE.
Proof. done. Qed.

Lemma length_response_to_bytes h : length (response_to_bytes h) = SIZE.
Proof. done. Qed.

(** A header, then a payload behind it. *)
Lemma write_both h payload buf :
  length h = SIZE → (SIZE + length payload ≤ length buf)%nat →
  write_at SIZE payload (write_at 0 h buf) =
    h ++ payload ++ drop (SIZE + length payload) buf.
Proof.
  intros Hh Hl. rewrite write_at_0. unfold write_at.
  rewrite take_app_le, take_ge by lia. rewrite drop_app_ge, drop_drop by lia.
  do 3 f_equal. lia.
Qed.

(** What a request encoder puts on the wire: [buf[..n]] after the call. *)
Definition wire_of (e : encoder) (buf : list Z) : option (list Z) :=
  match e buf with (buf', Ok n) => Some (take n buf') | (_, Err _) => None end.

Lemma wire_of_put_request h buf :
  (SIZE ≤ length buf)%nat → wire_of (put_request h) buf = Some (request_to_bytes h).
Proof.
  intros Hl. unfold wire_of, put_request. rewrite (proj2 (Nat.ltb_ge _ _) Hl).
  by rewrite write_at_0, take_app_length'.
Qed.

Lemma wire_of_put_response h buf :
  (SIZE ≤ length buf)%nat → wire_of (put_response h) buf = Some (response_to_bytes h).
Proof.
  intros Hl. unfold wire_of, put_response. rewrite (proj2 (Nat.ltb_ge _ _) Hl).
  by rewrite write_at_0, take_app_length'.
Qed.

Lemma wire_of_recv handle timeout buf :
  (SIZE + 4 ≤ length buf)%nat →
  wire_of (encode_recv handle timeout) buf = Some (request_to_bytes
    {| q_op := op_u8 Recv; q_flags := HAS_HANDLE; q_msg_type := 0; q_eid := 0;
       q_handle := handle; q_tag := 0 |} ++ u32_to_le_bytes timeout).
Proof.
  intros Hl. unfold wire_of, encode_recv. rewrite (proj2 (Nat.ltb_ge _ _) Hl).
  rewrite write_both by (done || simpl; lia). by rewrite take_two.
Qed.

Lemma wire_of_send handle msg_type eid tag ic payload buf :
  (length payload ≤ MAX_PAYLOAD_SIZE)%nat → (SIZE + length payload ≤ length buf)%nat →
  wire_of (encode_send handle msg_type eid tag ic payload) buf = Some (request_to_bytes
    {| q_op := op_u8 Send; q_flags := send_flags handle eid tag ic; q_msg_type := msg_type;
       q_eid := default 0 eid; q_handle := default NO_HANDLE handle;
       q_tag := default 0 tag |} ++ payload).
Proof.
  intros Hp Hl. unfold wire_of, encode_send.
  rewrite (proj2 (Nat.ltb_ge _ _) Hp), (proj2 (Nat.ltb_ge _ _) Hl).
  rewrite write_both by (done || lia). by rewrite take_two.
Qed.

Lemma wire_of_recv_response msg_type ic eid tag payload buf :
  (length payload ≤ MAX_PAYLOAD_SIZE)%nat → (SIZE + length payload ≤ length buf)%nat →
  wire_of (encode_recv_response msg_type ic eid tag payload) buf = Some (response_to_bytes
    {| p_code := code_u8 Success; p_flags := if ic then IC else 0; p_msg_type := msg_type;
       p_eid := eid; p_handle := 0;
       p_payload_len := as_u16 (Z.of_nat (length payload)); p_tag := tag |} ++ payload).
Proof.
  intros Hp Hl. unfold wire_of, encode_recv_response.
  rewrite (proj2 (Nat.ltb_ge _ _) Hp), (proj2 (Nat.ltb_ge _ _) Hl).
  rewrite write_both by (done || lia). by rewrite take_two.
Qed.

(** The flags of a [Send] say exactly which optional fields are present. *)
Lemma send_flags_spec handle eid tag ic :
  has_flag (send_flags handle eid tag ic) IC = ic ∧
  has_flag (send_flags handle eid tag ic) HAS_HANDLE = bool_decide (is_Some handle) ∧
  has_flag (send_flags handle eid tag ic) HAS_EID = bool_decide (is_Some eid) ∧
  has_flag (send_flags handle eid tag ic) HAS_TAG = bool_decide (is_Some tag).
Proof. by destruct handle, eid, tag, ic. Qed.

Lemma payload_len_roundtrip (payload : list Z) :
  (length payload ≤ MAX_PAYLOAD_SIZE)%nat →
  as_u16 (Z.of_nat (length payload)) = Z.of_nat (length payload).
Proof. unfold MAX_PAYLOAD_SIZE, as_u16. intros. apply Z.mod_small. lia. Qed.

(** ** Properties *)

(** Within its buffer: on success [n] bytes from the start were written and
    nothing behind them; on failure nothing was. *)
Definition encoder_safe (e : encoder) : Prop :=
  ∀ buf, let '(buf', r) := e buf in
    match r with
    | Ok n => (n ≤ length buf)%nat ∧ length buf' = length buf ∧ drop n buf' = drop n buf
    | Err _ => buf' = buf
    end.

Lemma put_safe h buf :
  length h = SIZE → (SIZE ≤ length buf)%nat →
  (SIZE ≤ length buf)%nat ∧ length (write_at 0 h buf) = length buf ∧
  drop SIZE (write_at 0 h buf) = drop SIZE buf.
Proof.
  intros Hh Hl. split; [done|]. split; [apply length_write_at; lia|].
  by rewrite write_at_0, drop_app_length', Hh.
Qed.

Lemma put_both_safe h payload buf :
  length h = SIZE → (SIZE + length payload ≤ length buf)%nat →
  (SIZE + length payload ≤ length buf)%nat ∧
  length (write_at SIZE payload (write_at 0 h buf)) = length buf ∧
  drop (SIZE + length payload) (write_at SIZE payload (write_at 0 h buf)) =
    drop (SIZE + length payload) buf.
Proof.
  intros Hh Hl. rewrite write_both by done. split; [done|]. split.
  - rewrite !length_app, length_drop. lia.
  - rewrite app_assoc, drop_app_length'; [done|]. by rewrite length_app, Hh.
Qed.

Lemma put_request_safe h : encoder_safe (put_request h).
Proof.
  intros buf. unfold put_request. destruct (Nat.ltb_spec (length buf) SIZE); [done|].
  by apply put_safe.
Qed.

Lemma put_response_safe h : encoder_safe (put_response h).
Proof.
  intros buf. unfold put_response. destruct (Nat.ltb_spec (length buf) SIZE); [done|].
  by apply put_safe.
Qed.

Lemma encode_recv_safe h t : encoder_safe (encode_recv h t).
Proof.
  intros buf. unfold encode_recv. destruct (Nat.ltb_spec (length buf) (SIZE + 4)); [done|].
  by apply (put_both_safe _ (u32_to_le_bytes t)).
Qed.

Lemma encode_send_safe h ty eid tag ic p : encoder_safe (encode_send h ty eid tag ic p).
Proof.
  intros buf. unfold encode_send. destruct (_ <? length p)%nat; [done|].
  destruct (Nat.ltb_spec (length buf) (SIZE + length p)); [done|]. by apply put_both_safe.
Qed.

Lemma encode_recv_response_safe ty ic eid tag p :
  encoder_safe (encode_recv_response ty ic eid tag p).
Proof.
  intros buf. unfold encode_recv_response. destruct (_ <? length p)%nat; [done|].
  destruct (Nat.ltb_spec (length buf) (SIZE + length p)); [done|]. by apply put_both_safe.
Qed.

Create HintDb wire.
#[export] Hint Resolve put_request_safe put_response_safe encode_recv_safe encode_send_safe
  encode_recv_response_safe : wire.

(** Encoders stay within their buffer.  Every request and response encoder
    either fails and leaves the buffer as it was, or reports a length within the
    buffer, keeps the buffer's length and leaves every byte behind the message
    untouched. *)
Theorem encoders_stay_in_bounds :
  (∀ eid, encoder_safe (encode_set_eid eid)) ∧ encoder_safe encode_get_eid ∧
  (∀ ty, encoder_safe (encode_listener ty)) ∧ (∀ eid, encoder_safe (encode_req eid)) ∧
  (∀ h, encoder_safe (encode_unbind h)) ∧ (∀ h t, encoder_safe (encode_recv h t)) ∧
  (∀ h ty eid tag ic p, encoder_safe (encode_send h ty eid tag ic p)) ∧
  (∀ eid, encoder_safe (encode_get_eid_response eid)) ∧
  (∀ h, encoder_safe (encode_handle_response h)) ∧
  (∀ t, encoder_safe (encode_send_response t)) ∧ encoder_safe encode_success_response ∧
  (∀ c, encoder_safe (encode_error_response c)) ∧
  (∀ ty ic eid tag p, encoder_safe (encode_recv_response ty ic eid tag p)).
Proof.
  split_and!; intros; eauto with wire.
Qed.

(** Headers survive the wire.  A request or response header whose fields fit
    their types decodes to itself, whatever follows it; fewer than twelve bytes
    never decode; and a response code survives its byte. *)
Theorem headers_roundtrip hq hp code rest short :
  request_ok hq → response_ok hp → (length short < SIZE)%nat →
  request_from_bytes (request_to_bytes hq ++ rest) = Some hq ∧
  response_from_bytes (response_to_bytes hp ++ rest) = Some hp ∧
  request_from_bytes short = None ∧ response_from_bytes short = None ∧
  code_from_u8 (code_u8 code) = Some code.
Proof.
  intros Hq Hp Hs. split_and!.
  - by apply request_roundtrip.
  - by apply response_roundtrip.
  - do 12 (destruct short as [|? short]; [done|]). simpl in Hs. unfold SIZE in Hs. lia.
  - do 12 (destruct short as [|? short]; [done|]). simpl in Hs. unfold SIZE in Hs. lia.
  - by destruct code.
Qed.

Lemma headers_roundtrip_witness :
  request_from_bytes (request_to_bytes
    {| q_op := 5; q_flags := 15; q_msg_type := 1; q_eid := 8; q_handle := 305419896;
       q_tag := 3 |} ++ [1; 2]) =
  Some {| q_op := 5; q_flags := 15; q_msg_type := 1; q_eid := 8; q_handle := 305419896;
          q_tag := 3 |}.
Proof.
  apply (headers_roundtrip
    {| q_op := 5; q_flags := 15; q_msg_type := 1; q_eid := 8; q_handle := 305419896; q_tag := 3 |}
    response_success NoSpace [1; 2] [7]).
  - unfold request_ok, in_u32, u32_MAX. simpl. lia.
  - unfold response_ok, in_u32, in_u16, u32_MAX, u16_MAX. simpl. lia.
  - unfold SIZE. simpl. lia.
Defined.
