(* ===== verification/MctpServer.v ===== *)
(** * The MCTP server

    [services/mctp/server/src/server.rs]: the server's table of outstanding
    receive calls over the router of [mctp-lib].  The router is not part of this
    repository: it is the type class [Router], of which nothing is assumed.

    [outstanding] is [heapless::LinearMap]: a vector of entries, searched
    linearly, with removal by swapping in the last entry. *)

From S2P Require Import Prelude Bytes MctpWire.
From stdpp Require Import base tactics relations list numbers.
Local Open Scope Z_scope.

(** ** The router of [mctp-lib] *)

Inductive Tag := Owned (v : Z) | Unowned (v : Z).

(** [tag.tag().0]. *)
Definition tag_value (t : Tag) : Z := match t with Owned v | Unowned v => v end.

(** A received message as the router lends it out. *)
Record MctpMessage := mkMessage {
  m_typ : Z;
  m_ic : bool;
  m_tag : Tag;
  m_source : Z;
  m_payload : list Z;
}.

(** [mctp::Error]: the variants the server distinguishes, and every other. *)
Inductive mctp_Error :=
| E_InternalError | E_NoSpace | E_AddrInUse | E_TimedOut | E_BadArgument | E_other.

(** The calls of [Router] the server makes; a cookie is a [usize]. *)
Class Router (R : Type) : Type := {
  r_req : R → Z → R * result nat mctp_Error;
  r_listener : R → Z → R * result nat mctp_Error;
  r_get_eid : R → Z;
  r_set_eid : R → Z → R * result unit mctp_Error;
  r_recv : R → nat → R * option MctpMessage;
  r_send : R → option Z → Z → option Tag → bool → nat → list Z → R * result Tag mctp_Error;
  r_update : R → Z → R * result Z mctp_Error;
  r_unbind : R → nat → R * result unit mctp_Error;
  r_inbound : R → list Z → R * result unit mctp_Error;
}.

Definition MAX_PAYLOAD : nat := 1023.

Record RecvMetadata := mkMetadata {
  msg_type : Z;
  msg_ic : bool;
  msg_tag : Z;
  remote_eid : Z;
  payload_size : nat;
}.

Definition metadata_of (m : MctpMessage) : RecvMetadata :=
  {| msg_type := m_typ m; msg_ic := m_ic m; msg_tag := tag_value (m_tag m);
     remote_eid := m_source m; payload_size := length (m_payload m) |}.

Inductive RecvResult := Message (meta : RecvMetadata) | RecvTimedOut.

(** [mctp_error_to_server_error]. *)
Definition mctp_error_to_server_error (e : mctp_Error) : MctpError :=
  from_code match e with
            | E_InternalError => InternalError
            | E_NoSpace => NoSpace
            | E_AddrInUse => AddrInUse
            | E_TimedOut => CodeTimedOut
            | E_BadArgument => BadArgument
            | E_other => InternalError
            end.

(** ** [heapless::LinearMap] *)

Section linear_map.
Context {V : Type} (CAP : nat).
Implicit Types m : list (Z * V).

Definition key_is (k : Z) (e : Z * V) : bool := e.1 =? k.

Definition contains_key (k : Z) m : bool :=
  match position (key_is k) m with Some _ => true | None => false end.

(** [insert]: [None] is the [Err] of a full map. *)
Definition map_insert (k : Z) (v : V) m : option (list (Z * V)) :=
  match position (key_is k) m with
  | Some i => Some (<[i := (k, v)]> m)
  | None => if decide (length m < CAP)%nat then Some (m ++ [(k, v)]) else None
  end.

Definition map_remove (k : Z) m : list (Z * V) :=
  match position (key_is k) m with Some i => swap_remove i m | None => m end.
End linear_map.

(** ** The server *)

Section server.
Context {R : Type} `{Router R} (OUTSTANDING : nat).

(** [PendingRecv] is its deadline; [0] is no timeout. *)
Record Server := mkServer {
  stack : R;
  outstanding : list (Z * Z);
}.

Definition Server_new (stack : R) : Server := {| stack := stack; outstanding := [] |}.

Definition with_stack (r : R) (s : Server) : Server :=
  {| stack := r; outstanding := outstanding s |}.

(** [Handle(cookie.0 as u32)]. *)
Definition handle_of (cookie : nat) : Z := Z.of_nat cookie mod 4294967296.

Definition srv_req (s : Server) (eid : Z) : Server * result Z MctpError :=
  let '(r, res) := r_req (stack s) eid in
  (with_stack r s, match res with
                   | Ok cookie => Ok (handle_of cookie)
                   | Err e => Err (mctp_error_to_server_error e)
                   end).

Definition srv_listener (s : Server) (typ : Z) : Server * result Z MctpError :=
  let '(r, res) := r_listener (stack s) typ in
  (with_stack r s, match res with
                   | Ok cookie => Ok (handle_of cookie)
                   | Err e => Err (mctp_error_to_server_error e)
                   end).

Definition srv_get_eid (s : Server) : Z := r_get_eid (stack s).

Definition srv_set_eid (s : Server) (eid : Z) : Server * result unit MctpError :=
  let '(r, res) := r_set_eid (stack s) eid in
  (with_stack r s, map_err mctp_error_to_server_error res).

(** The copy of a message into a buffer, done only when it fits. *)
Definition copy_payload (payload buf : list Z) : list Z :=
  if (length payload <=? length buf)%nat then write_at 0 payload buf else buf.

Definition try_recv (s : Server) (handle : Z) (buf : list Z) :
    Server * list Z * option RecvMetadata :=
  let '(r, m) := r_recv (stack s) (as_usize handle) in
  match m with
  | None => (with_stack r s, buf, None)
  | Some msg => (with_stack r s, copy_payload (m_payload msg) buf, Some (metadata_of msg))
  end.

(** The deadline is a [u64] sum. *)
Definition register_recv (s : Server) (handle timeout_millis now_millis : Z) :
    Server * result unit MctpError :=
  let deadline := if timeout_millis =? 0 then 0 else as_u64 (now_millis + timeout_millis) in
  if contains_key handle (outstanding s) then (s, Ok ())
  else match map_insert OUTSTANDING handle deadline (outstanding s) with
       | Some m => ({| stack := stack s; outstanding := m |}, Ok ())
       | None => (s, Err (from_code NoSpace))
       end.

Definition srv_send (s : Server) (handle : option Z) (typ : Z) (eid tag : option Z)
    (ic : bool) (buf : list Z) : Server * result Z MctpError :=
  if (MAX_PAYLOAD <? length buf)%nat then (s, Err (from_code NoSpace))
  else
    let tag := match handle with None => Unowned <$> tag | Some _ => Owned <$> tag end in
    let cookie := as_usize (default 255 handle) in
    let '(r, res) := r_send (stack s) eid typ tag ic cookie buf in
    (with_stack r s, match res with
                     | Ok tag => Ok (tag_value tag)
                     | Err e => Err (mctp_error_to_server_error e)
                     end).

(** The loop of [update] over the outstanding entries. *)
Fixpoint update_loop (now_millis : Z) (entries : list (Z * Z)) (r : R) (recv_buf : list Z)
    (ready : list (Z * RecvResult)) : R * list Z * list (Z * RecvResult) :=
  match entries with
  | [] => (r, recv_buf, ready)
  | (handle, deadline) :: entries' =>
      let '(r, m) := r_recv r (as_usize handle) in
      match m with
      | Some msg =>
          update_loop now_millis entries' r (copy_payload (m_payload msg) recv_buf)
            (vec_push OUTSTANDING ready (handle, Message (metadata_of msg)))
      | None =>
          let ready :=
            if negb (deadline =? 0) && (deadline <=? now_millis)
            then vec_push OUTSTANDING ready (handle, RecvTimedOut) else ready in
          update_loop now_millis entries' r recv_buf ready
      end
  end.

(** [update]: the server, [recv_buf], the next interval and the ready handles. *)
Definition srv_update (s : Server) (now_millis : Z) (recv_buf : list Z) :
    Server * list Z * Z * list (Z * RecvResult) :=
  let '(r, interval) := r_update (stack s) now_millis in
  let stack_timeout := unwrap_or interval 60000 mod 4294967296 in
  let '(r, recv_buf, ready) := update_loop now_millis (outstanding s) r recv_buf [] in
  let outstanding := foldl (λ m e, map_remove e.1 m) (outstanding s) ready in
  ({| stack := r; outstanding := outstanding |}, recv_buf, stack_timeout, ready).

Definition srv_unbind (s : Server) (handle : Z) : Server * result unit MctpError :=
  let '(r, _) := r_unbind (stack s) (as_usize handle) in
  ({| stack := r; outstanding := map_remove handle (outstanding s) |}, Ok ()).

Definition srv_inbound (s : Server) (pkt : list Z) : Server * result unit MctpError :=
  let '(r, res) := r_inbound (stack s) pkt in
  (with_stack r s, map_err mctp_error_to_server_error res).
End server.

(** ** The table of outstanding calls *)

Section linear_map_lemmas.
Context {V : Type}.
Implicit Types m : list (Z * V).

Lemma key_is_true k (e : Z * V) : key_is k e = true ↔ e.1 = k.
Proof. unfold key_is. apply Z.eqb_eq. Qed.

Lemma contains_key_iff k m : contains_key k m = true ↔ k ∈ m.*1.
Proof.
  unfold contains_key. destruct (position (key_is k) m) as [i|] eqn:Hp.
  - split; [intros _|done]. apply position_Some in Hp as (e & He & Hk & _).
    apply key_is_true in Hk as <-. apply list_elem_of_fmap. exists e. split; [done|].
    by eapply list_elem_of_lookup_2.
  - split; [done|]. intros (e & -> & He)%list_elem_of_fmap.
    rewrite position_None in Hp. specialize (Hp e He). unfold key_is in Hp. lia.
Qed.

Lemma map_insert_fresh CAP k v m :
  k ∉ m.*1 →
  map_insert CAP k v m = if decide (length m < CAP)%nat then Some (m ++ [(k, v)]) else None.
Proof.
  intros Hk. unfold map_insert. destruct (position (key_is k) m) eqn:Hp; [|done].
  destruct Hk. apply contains_key_iff. unfold contains_key. by rewrite Hp.
Qed.

(** Removing a key drops its one entry; the order of the others may change. *)
Lemma map_remove_perm k m :
  NoDup m.*1 → map_remove k m ≡ₚ filter (λ e, e.1 ≠ k) m.
Proof.
  intros Hnd. unfold map_remove. destruct (position (key_is k) m) as [i|] eqn:Hp.
  - apply position_Some in Hp as (e & He & Hk & _). apply key_is_true in Hk as <-.
    pose proof (swap_remove_perm _ _ _ He) as Hperm. rewrite Hperm at 2.
    rewrite filter_cons, decide_False by naive_solver.
    rewrite Hperm in Hnd. simpl in Hnd. inversion Hnd as [|? ? Hfresh _]; subst.
    rewrite filter_all; [done|]. intros x Hx Heq. apply Hfresh. rewrite <- Heq.
    apply list_elem_of_fmap. eauto.
  - rewrite filter_all; [done|]. intros x Hx Heq. rewrite position_None in Hp.
    specialize (Hp x Hx). unfold key_is in Hp. lia.
Qed.

Lemma map_remove_nodup k m : NoDup m.*1 → NoDup (map_remove k m).*1.
Proof.
  intros Hnd. rewrite (map_remove_perm k m Hnd).
  eapply sublist_NoDup; [done|]. apply fmap_sublist, sublist_filter.
Qed.

Lemma map_remove_all (ks : list Z) m :
  NoDup m.*1 →
  foldl (λ m k, map_remove k m) m ks ≡ₚ filter (λ e, e.1 ∉ ks) m.
Proof.
  revert m. induction ks as [|k ks IH]; intros m Hnd; simpl.
  - rewrite filter_all; [done|]. intros x _. apply not_elem_of_nil.
  - rewrite IH by (by apply map_remove_nodup).
    rewrite (map_remove_perm k m Hnd), list_filter_filter.
    erewrite filter_ext_elem; [done|]. intros e _. rewrite not_elem_of_cons. naive_solver.
Qed.
End linear_map_lemmas.

(** ** The server's invariant *)

Section server_lemmas.
Context {R : Type} `{Router R} (OUTSTANDING : nat).
Implicit Types s : @Server R.

(** No handle waits twice, and the table is within its capacity. *)
Record srv_wf s : Prop := {
  sw_keys : NoDup (outstanding s).*1;
  sw_cap : (length (outstanding s) ≤ OUTSTANDING)%nat;
}.

(** One call of the server. *)
Inductive srv_step : @Server R → @Server R → Prop :=
| step_req s eid : srv_step s (srv_req s eid).1
| step_listener s typ : srv_step s (srv_listener s typ).1
| step_set_eid s eid : srv_step s (srv_set_eid s eid).1
| step_try_recv s handle buf : srv_step s (try_recv s handle buf).1.1
| step_register s handle timeout now :
    srv_step s (register_recv OUTSTANDING s handle timeout now).1
| step_send s handle typ eid tag ic buf : srv_step s (srv_send s handle typ eid tag ic buf).1
| step_update s now buf : srv_step s (srv_update OUTSTANDING s now buf).1.1.1
| step_unbind s handle : srv_step s (srv_unbind s handle).1
| step_inbound s pkt : srv_step s (srv_inbound s pkt).1.

Lemma with_stack_wf r s : srv_wf s → srv_wf (with_stack r s).
Proof. intros []. by split. Qed.

Lemma remove_wf r k s :
  srv_wf s → srv_wf {| stack := r; outstanding := map_remove k (outstanding s) |}.
Proof.
  intros [Hnd Hcap]. split; simpl; [by apply map_remove_nodup|].
  rewrite (map_remove_perm k _ Hnd).
  etrans; [|exact Hcap]. apply sublist_length, sublist_filter.
Qed.

Lemma foldl_remove_keys {A} (ready : list (Z * A)) (m : list (Z * Z)) :
  foldl (λ m e, map_remove e.1 m) m ready = foldl (λ m k, map_remove k m) m ready.*1.
Proof. revert m. induction ready as [|e ready IH]; intros m; simpl; [done|]. apply IH. Qed.

Lemma srv_step_wf s s' : srv_step s s' → srv_wf s → srv_wf s'.
Proof.
  intros Hs Hwf. destruct Hs.
  - unfold srv_req. destruct (r_req _ _). by apply with_stack_wf.
  - unfold srv_listener. destruct (r_listener _ _). by apply with_stack_wf.
  - unfold srv_set_eid. destruct (r_set_eid _ _). by apply with_stack_wf.
  - unfold try_recv. destruct (r_recv _ _) as [? []]; by apply with_stack_wf.
  - unfold register_recv. destruct (contains_key handle (outstanding s)) eqn:Hc; [done|].
    assert (handle ∉ (outstanding s).*1) as Hfresh.
    { intros Hin. apply contains_key_iff in Hin. congruence. }
    rewrite map_insert_fresh by done. case_decide; [|done]. simpl. destruct Hwf as [Hnd _].
    split; simpl; [|rewrite length_app; simpl; lia].
    rewrite fmap_app. apply list.NoDup_app. split; [done|]. split; [|apply NoDup_singleton].
    simpl. intros k Hk. rewrite list_elem_of_singleton. congruence.
  - unfold srv_send. destruct (_ <? _)%nat; [done|]. destruct (r_send _ _ _ _ _ _ _).
    by apply with_stack_wf.
  - unfold srv_update. destruct (r_update _ _) as [r1 iv].
    destruct (update_loop _ _ _ _ _ _) as [[r2 buf2] ready]. simpl.
    rewrite foldl_remove_keys. destruct Hwf as [Hnd Hcap].
    pose proof (map_remove_all ready.*1 (outstanding s) Hnd) as Hp. split; simpl.
    + rewrite Hp. eapply sublist_NoDup; [done|]. apply fmap_sublist, sublist_filter.
    + rewrite Hp. etrans; [|exact Hcap]. apply sublist_length, sublist_filter.
  - unfold srv_unbind. destruct (r_unbind _ _). by apply remove_wf.
  - unfold srv_inbound. destruct (r_inbound _ _). by apply with_stack_wf.
Qed.

(** ** What an update delivers *)

(** The router asked for each handle in turn. *)
Fixpoint recv_all (r : R) (hs : list Z) : R * list (option MctpMessage) :=
  match hs with
  | [] => (r, [])
  | h :: hs' =>
      let '(r1, m) := r_recv r (as_usize h) in
      let '(r2, ms) := recv_all r1 hs' in
      (r2, m :: ms)
  end.

(** What becomes of one outstanding call: its message, else its expiry. *)
Definition outcome (now : Z) (e : Z * Z) (m : option MctpMessage) : option (Z * RecvResult) :=
  match m with
  | Some msg => Some (e.1, Message (metadata_of msg))
  | None => if negb (e.2 =? 0) && (e.2 <=? now) then Some (e.1, RecvTimedOut) else None
  end.

Definition outcomes (now : Z) (entries : list (Z * Z)) (ms : list (option MctpMessage)) :
    list (Z * RecvResult) :=
  omap (λ p, outcome now p.1 p.2) (zip entries ms).

(** The receive buffer after the messages were copied over one another. *)
Definition buffer_after (buf : list Z) (ms : list (option MctpMessage)) : list Z :=
  foldl (λ b m, match m with Some msg => copy_payload (m_payload msg) b | None => b end) buf ms.

Lemma update_loop_spec now entries r buf ready :
  (length ready + length entries ≤ OUTSTANDING)%nat →
  update_loop OUTSTANDING now entries r buf ready =
    let '(r', ms) := recv_all r entries.*1 in
    (r', buffer_after buf ms, ready ++ outcomes now entries ms).
Proof.
  revert r buf ready. induction entries as [|[h dl] entries IH]; intros r buf ready Hcap.
  { simpl. by rewrite app_nil_r. }
  rewrite fmap_cons. cbn [update_loop recv_all fst].
  destruct (r_recv r (as_usize h)) as [r1 m] eqn:Hr. simpl in Hcap.
  destruct (recv_all r1 entries.*1) as [r2 ms] eqn:Hall.
  destruct m as [msg|].
  - rewrite vec_push_fits by lia. rewrite IH by (rewrite length_app; simpl; lia).
    rewrite Hall. unfold outcomes. simpl. by rewrite <- app_assoc.
  - unfold outcomes. simpl. destruct (negb (dl =? 0) && (dl <=? now)).
    + rewrite vec_push_fits by lia. rewrite IH by (rewrite length_app; simpl; lia).
      rewrite Hall. simpl. by rewrite <- app_assoc.
    + rewrite IH by lia. by rewrite Hall.
Qed.

Lemma length_recv_all r hs : length (recv_all r hs).2 = length hs.
Proof.
  revert r. induction hs as [|h hs IH]; intros r; simpl; [done|].
  destruct (r_recv r (as_usize h)) as [r1 m]. specialize (IH r1).
  destruct (recv_all r1 hs). simpl in *. by f_equal.
Qed.

Lemma outcomes_keys now entries ms k :
  k ∈ (outcomes now entries ms).*1 ↔
  ∃ e m x, (e, m) ∈ zip entries ms ∧ outcome now e m = Some x ∧ e.1 = k.
Proof.
  unfold outcomes. rewrite list_elem_of_fmap. split.
  - intros (x & -> & ([e m] & Hin & Hx)%list_elem_of_omap). exists e, m, x.
    split_and!; try done. simpl in Hx. unfold outcome in Hx.
    destruct m; [by simplify_eq|]. destruct (_ && _); by simplify_eq.
  - intros (e & m & x & Hin & Hx & <-). exists x. split; [|apply list_elem_of_omap; eauto].
    unfold outcome in Hx. destruct m; [by simplify_eq|]. destruct (_ && _); by simplify_eq.
Qed.

(** The calls left waiting are those with no outcome. *)
Lemma waiting_entries now entries ms :
  length ms = length entries → NoDup entries.*1 →
  filter (λ e, e.1 ∉ (outcomes now entries ms).*1) entries =
    (filter (λ p, outcome now p.1 p.2 = None) (zip entries ms)).*1.
Proof.
  revert ms. induction entries as [|e entries IH]; intros [|m ms] Hlen Hnd; try done.
  simpl in Hlen, Hnd. inversion Hnd as [|? ? Hfresh Hnd']; subst.
  injection Hlen as Hlen.
  assert (∀ k, k ∈ (outcomes now entries ms).*1 → k ∈ entries.*1) as Hsub.
  { intros k (e' & m' & x & Hin & _ & <-)%outcomes_keys. apply list_elem_of_fmap.
    exists e'. split; [done|]. by apply elem_of_zip_l in Hin. }
  assert (∀ e', e' ∈ entries → e'.1 ≠ e.1) as Hne.
  { intros e' He' Heq. apply Hfresh. rewrite <- Heq. apply list_elem_of_fmap. eauto. }
  assert (outcomes now (e :: entries) (m :: ms) =
    option_list (outcome now e m) ++ outcomes now entries ms) as Hout.
  { unfold outcomes. simpl. by destruct (outcome now e m). }
  rewrite Hout. simpl zip. rewrite !filter_cons. simpl.
  assert (filter (λ e', e'.1 ∉ (option_list (outcome now e m) ++ outcomes now entries ms).*1)
    entries = filter (λ e', e'.1 ∉ (outcomes now entries ms).*1) entries) as ->.
  { apply filter_ext_elem. intros e' He'. rewrite fmap_app, not_elem_of_app.
    split; [tauto|]. intros Hk. split; [|done].
    destruct (outcome now e m) as [x|] eqn:Hx; [|apply not_elem_of_nil]. simpl.
    rewrite list_elem_of_singleton. intros Heq. apply (Hne e' He'). rewrite Heq.
    unfold outcome in Hx. destruct m; [by simplify_eq|]. destruct (_ && _); by simplify_eq. }
  rewrite (IH ms Hlen Hnd').
  destruct (outcome now e m) as [x|] eqn:Hx; simpl.
  - rewrite decide_False; [done|].
    intros Hk. apply Hk. simpl. rewrite elem_of_cons. left.
    unfold outcome in Hx. destruct m; [by simplify_eq|]. destruct (_ && _); by simplify_eq.
  - rewrite decide_True; [done|]. intros Hk. apply Hfresh. by apply Hsub.
Qed.
End server_lemmas.

(** ** Properties *)

(** The table of outstanding receives is a bounded map.  After any sequence of
    server calls no handle is outstanding twice and the table is within its
    capacity, whatever the router answers. *)
Theorem outstanding_is_bounded_map {R} (router : Router R) OUTSTANDING r s :
  rtc (srv_step OUTSTANDING) (Server_new r) s → srv_wf OUTSTANDING s.
Proof.
  intros Hr. assert (srv_wf OUTSTANDING (Server_new r)) as Hwf.
  { split; simpl; [constructor|lia]. }
  revert Hwf. induction Hr as [|s1 s2 s3 Hstep _ IH]; [done|].
  intros Hwf. apply IH. by eapply srv_step_wf.
Qed.

(** An update settles exactly the receives that are due.  On a well-formed
    server, [update] asks the router once for each outstanding handle, in table
    order; a handle with a message is answered with that message, else, if its
    deadline has come, with a timeout; a deadline of zero never expires; and
    what stays outstanding is exactly the entries that got no answer, with their
    deadlines. *)
Theorem update_settles_due_receives {R} (router : Router R) OUTSTANDING s now buf :
  srv_wf OUTSTANDING s →
  let '(r1, _) := r_update (stack s) now in
  let '(r2, ms) := recv_all r1 (outstanding s).*1 in
  let '(s', buf', _, ready) := srv_update OUTSTANDING s now buf in
  stack s' = r2 ∧ srv_wf OUTSTANDING s' ∧
  ready = outcomes now (outstanding s) ms ∧ buf' = buffer_after buf ms ∧
  outstanding s' ≡ₚ
    (filter (λ p, outcome now p.1 p.2 = None) (zip (outstanding s) ms)).*1.
Proof.
  intros Hwf. pose proof (srv_step_wf OUTSTANDING s _ (step_update OUTSTANDING s now buf) Hwf)
    as Hwf'. revert Hwf'. unfold srv_update.
  destruct (r_update (stack s) now) as [r1 iv]. destruct Hwf as [Hnd Hcap].
  rewrite update_loop_spec by (simpl; lia).
  pose proof (length_recv_all r1 (outstanding s).*1) as Hlen.
  destruct (recv_all r1 (outstanding s).*1) as [r2 ms]. simpl in Hlen |- *.
  rewrite length_fmap in Hlen. intros Hwf'. split_and!; try done.
  rewrite foldl_remove_keys, map_remove_all by done. by rewrite waiting_entries.
Qed.

(** A router with a queue of messages per cookie, for the examples. *)
Definition ex_recv (q : list (nat * MctpMessage)) (c : nat) :
    list (nat * MctpMessage) * option MctpMessage :=
  match position (λ e, Nat.eqb e.1 c) q with
  | Some i => (take i q ++ drop (S i) q, snd <$> q !! i)
  | None => (q, None)
  end.

#[export] Instance ex_router : Router (list (nat * MctpMessage)) := {
  r_req := λ r eid, (r, Ok (Z.to_nat eid));
  r_listener := λ r typ, (r, Ok (Z.to_nat typ + 256)%nat);
  r_get_eid := λ _, 8;
  r_set_eid := λ r _, (r, Ok ());
  r_recv := ex_recv;
  r_send := λ r _ _ t _ _ _, (r, Ok (default (Owned 0) t));
  r_update := λ r _, (r, Ok 10);
  r_unbind := λ r _, (r, Ok ());
  r_inbound := λ r _, (r, Ok ());
}.

Definition ex_message (payload : list Z) : MctpMessage :=
  {| m_typ := 5; m_ic := false; m_tag := Unowned 2; m_source := 9; m_payload := payload |}.

(** Handle 1 has a message, 2 has expired, 3 waits for ever. *)
Definition ex_server : @Server (list (nat * MctpMessage)) :=
  {| stack := [(1%nat, ex_message [7; 8])]; outstanding := [(1, 50); (2, 20); (3, 0)] |}.

Lemma ex_server_wf : srv_wf 4 ex_server.
Proof. split; [by apply (bool_decide_unpack _)|simpl; lia]. Qed.

Lemma outstanding_is_bounded_map_witness :
  srv_wf 4 (register_recv 4 (Server_new (@nil (nat * MctpMessage))) 7 100 5).1.
Proof.
  apply (outstanding_is_bounded_map ex_router 4 []).
  apply rtc_once, step_register.
Defined.

Lemma update_settles_due_receives_witness :
  (srv_update 4 ex_server 30 [0; 0; 0; 0]).2 =
    [(1, Message {| msg_type := 5; msg_ic := false; msg_tag := 2; remote_eid := 9;
                    payload_size := 2 |}); (2, RecvTimedOut)].
Proof.
  pose proof (update_settles_due_receives ex_router 4 ex_server 30 [0; 0; 0; 0] ex_server_wf)
    as Hu. simpl in Hu. destruct Hu as (_ & _ & Hready & _). exact Hready.
Defined.
