(* ===== verification/MctpDispatch.v ===== *)
(** * MCTP requests, end to end

    [services/mctp/server/src/dispatch.rs] (the server side of a request and of
    the pending receives) and [services/mctp/client-ipc/src/lib.rs] (the client).
    The kernel's channel is a parameter of the client; [serve] is the channel
    whose other end dispatches each request and answers with the reply.

    [None] is a panic. *)

From S2P Require Import Prelude Bytes MctpWire MctpServer.
From stdpp Require Import base tactics option list numbers.
Local Open Scope Z_scope.

(** ** The server side *)

Inductive DispatchOutcome := Reply (n : nat) | Pending (handle : Z).

Definition encode_error (response : list Z) (code : ResponseCode) : list Z * nat :=
  let '(response, r) := encode_error_response code response in (response, unwrap_or r 0%nat).

Definition encode_success (response : list Z) : list Z * nat :=
  let '(response, r) := encode_success_response response in (response, unwrap_or r 0%nat).

(** [encoder.unwrap_or_else(|_| encode_error(response, InternalError))]. *)
Definition encode_or_internal (e : encoder) (response : list Z) : list Z * nat :=
  match e response with
  | (response, Ok n) => (response, n)
  | (response, Err _) => encode_error response InternalError
  end.

Section dispatch.
Context {R : Type} `{Router R} (OUTSTANDING : nat).

(** The response to a received message whose payload is in [recv_buf]. *)
Definition recv_reply (meta : RecvMetadata) (recv_buf response : list Z) :
    option (list Z * nat) :=
  payload ← slice_to recv_buf (payload_size meta);
  Some (encode_or_internal
    (encode_recv_response (msg_type meta) (msg_ic meta) (remote_eid meta) (msg_tag meta) payload)
    response).

(** The arms of the [match op]: the server, [response], [recv_buf] and the
    outcome. *)
Definition dispatch_op (op : MctpOp) (header : MctpRequestHeader) (request response : list Z)
    (server : Server) (recv_buf : list Z) (now_millis : Z) :
    option (Server * list Z * list Z * DispatchOutcome) :=
  let reply server (rn : list Z * nat) := Some (server, rn.1, recv_buf, Reply rn.2) in
  match op with
  | SetEid =>
      let '(server, r) := srv_set_eid server (q_eid header) in
      match r with
      | Ok _ => reply server (encode_success response)
      | Err e => reply server (encode_error response (err_code e))
      end
  | GetEid =>
      reply server (encode_or_internal (encode_get_eid_response (srv_get_eid server)) response)
  | Listener =>
      let '(server, r) := srv_listener server (q_msg_type header) in
      match r with
      | Ok handle => reply server (encode_or_internal (encode_handle_response handle) response)
      | Err e => reply server (encode_error response (err_code e))
      end
  | Req =>
      let '(server, r) := srv_req server (q_eid header) in
      match r with
      | Ok handle => reply server (encode_or_internal (encode_handle_response handle) response)
      | Err e => reply server (encode_error response (err_code e))
      end
  | Recv =>
      let handle := q_handle header in
      let '(server, recv_buf, m) := try_recv server handle recv_buf in
      match m with
      | Some meta =>
          match recv_reply meta recv_buf response with
          | Some rn => Some (server, rn.1, recv_buf, Reply rn.2)
          | None => None
          end
      | None =>
          let timeout := get_recv_timeout request in
          let '(server, _) := register_recv OUTSTANDING server handle timeout now_millis in
          Some (server, response, recv_buf, Pending handle)
      end
  | Send =>
      let handle := if has_flag (q_flags header) HAS_HANDLE then Some (q_handle header) else None in
      let eid := if has_flag (q_flags header) HAS_EID then Some (q_eid header) else None in
      let tag := if has_flag (q_flags header) HAS_TAG then Some (q_tag header) else None in
      let ic := has_flag (q_flags header) IC in
      let payload := get_request_payload request in
      let '(server, r) := srv_send server handle (q_msg_type header) eid tag ic payload in
      match r with
      | Ok tag_val => reply server (encode_or_internal (encode_send_response tag_val) response)
      | Err e => reply server (encode_error response (err_code e))
      end
  | Unbind =>
      let '(server, r) := srv_unbind server (q_handle header) in
      match r with
      | Ok _ => reply server (encode_success response)
      | Err e => reply server (encode_error response (err_code e))
      end
  end.

Definition dispatch_mctp_op (request response : list Z) (server : Server)
    (recv_buf : list Z) (now_millis : Z) :
    option (Server * list Z * list Z * DispatchOutcome) :=
  match request_from_bytes request with
  | None =>
      let rn := encode_error response BadArgument in
      Some (server, rn.1, recv_buf, Reply rn.2)
  | Some header =>
      match operation header with
      | None =>
          let rn := encode_error response BadArgument in
          Some (server, rn.1, recv_buf, Reply rn.2)
      | Some op => dispatch_op op header request response server recv_buf now_millis
      end
  end.

(** The loop of [drive_pending]; the log lists what [on_ready] saw: the handle
    and [response[..len]]. *)
Fixpoint deliver (ready : list (Z * RecvResult)) (recv_buf response : list Z) :
    option (list Z * list (Z * list Z)) :=
  match ready with
  | [] => Some (response, [])
  | (handle, result) :: ready' =>
      rn ← match result with
           | Message meta => recv_reply meta recv_buf response
           | RecvTimedOut => Some (encode_error response CodeTimedOut)
           end;
      '(response', log) ← deliver ready' recv_buf rn.1;
      Some (response', (handle, take rn.2 rn.1) :: log)
  end.

Definition drive_pending (server : Server) (now_millis : Z) (recv_buf response : list Z) :
    option (Server * list Z * list Z * list (Z * list Z)) :=
  let '(server, recv_buf, _, ready) := srv_update OUTSTANDING server now_millis recv_buf in
  '(response, log) ← deliver ready recv_buf response;
  Some (server, recv_buf, response, log).
End dispatch.

(** ** The client *)

Section client.
Context {K : Type}.
(** [channel_transact]: the kernel, the channel handle, the request and the
    response buffer. *)
Context (channel_transact : K → Z → list Z → list Z → K * list Z * result nat unit).

(** The [RefCell] buffers of the client. *)
Record IpcMctpClient := mkClient {
  c_handle : Z;
  request_buf : list Z;
  response_buf : list Z;
}.

Definition IpcMctpClient_new (handle : Z) : IpcMctpClient :=
  {| c_handle := handle; request_buf := replicate MAX_REQUEST_SIZE 0;
     response_buf := replicate MAX_RESPONSE_SIZE 0 |}.

Definition internal_error : MctpError := from_code InternalError.

Definition send_recv (c : IpcMctpClient) (k : K) (req_len : nat) :
    IpcMctpClient * K * result nat MctpError :=
  if (MAX_REQUEST_SIZE <? req_len)%nat then (c, k, Err internal_error)
  else
    let '(k, buf, r) :=
      channel_transact k (c_handle c) (take req_len (request_buf c)) (response_buf c) in
    ({| c_handle := c_handle c; request_buf := request_buf c; response_buf := buf |}, k,
     map_err (λ _, internal_error) r).

Definition transact (c : IpcMctpClient) (k : K) (req_len : nat) :
    IpcMctpClient * K * result (MctpResponseHeader * nat) MctpError :=
  let '(c, k, r) := send_recv c k req_len in
  (c, k,
   match r with
   | Err e => Err e
   | Ok resp_len =>
       if (resp_len <? SIZE)%nat || (MAX_RESPONSE_SIZE <? resp_len)%nat
       then Err internal_error
       else match decode_response_header (take resp_len (response_buf c)) with
            | Err _ => Err internal_error
            | Ok header =>
                if is_success header then Ok (header, resp_len)
                else Err (from_code (response_code header))
            end
   end).

(** Every client call: encode into [request_buf], then [transact]. *)
Definition client_call (e : encoder) (c : IpcMctpClient) (k : K) :
    IpcMctpClient * K * result (MctpResponseHeader * nat) MctpError :=
  match e (request_buf c) with
  | (buf, Err _) =>
      ({| c_handle := c_handle c; request_buf := buf; response_buf := response_buf c |}, k,
       Err internal_error)
  | (buf, Ok req_len) =>
      transact {| c_handle := c_handle c; request_buf := buf;
                  response_buf := response_buf c |} k req_len
  end.

Definition client_req (c : IpcMctpClient) (k : K) (eid : Z) :=
  let '(c, k, r) := client_call (encode_req eid) c k in
  (c, k, map_ok (λ hn, p_handle hn.1) r).

Definition client_listener (c : IpcMctpClient) (k : K) (msg_type : Z) :=
  let '(c, k, r) := client_call (encode_listener msg_type) c k in
  (c, k, map_ok (λ hn, p_handle hn.1) r).

Definition client_get_eid (c : IpcMctpClient) (k : K) : IpcMctpClient * K * Z :=
  let '(c, k, r) := client_call encode_get_eid c k in
  (c, k, match r with Ok hn => p_eid hn.1 | Err _ => 0 end).

Definition client_set_eid (c : IpcMctpClient) (k : K) (eid : Z) :=
  let '(c, k, r) := client_call (encode_set_eid eid) c k in
  (c, k, map_ok (λ _, ()) r).

(** The caller's buffer and the metadata. *)
Definition client_recv (c : IpcMctpClient) (k : K) (handle timeout_millis : Z)
    (buf : list Z) : IpcMctpClient * K * list Z * result RecvMetadata MctpError :=
  let '(c, k, r) := client_call (encode_recv handle timeout_millis) c k in
  match r with
  | Err e => (c, k, buf, Err e)
  | Ok (header, resp_len) =>
      match get_response_payload (take resp_len (response_buf c)) header with
      | Err _ => (c, k, buf, Err internal_error)
      | Ok payload =>
          let copy_len := Nat.min (length payload) (length buf) in
          (c, k, write_at 0 (take copy_len payload) buf,
           Ok {| msg_type := p_msg_type header; msg_ic := has_flag (p_flags header) IC;
                 msg_tag := p_tag header; remote_eid := p_eid header;
                 payload_size := length payload |})
      end
  end.

Definition client_send (c : IpcMctpClient) (k : K) (handle : option Z) (msg_type : Z)
    (eid tag : option Z) (integrity_check : bool) (buf : list Z) :=
  let '(c, k, r) :=
    client_call (encode_send handle msg_type eid tag integrity_check buf) c k in
  (c, k, map_ok (λ hn, p_tag hn.1) r).

Definition drop_handle (c : IpcMctpClient) (k : K) (handle : Z) : IpcMctpClient * K :=
  let '(c, k, _) := client_call (encode_unbind handle) c k in (c, k).
End client.

Lemma op_range v op : op_from_u8 v = Some op → 0 ≤ v ≤ 6.
Proof. unfold op_from_u8. intros Hv. repeat case_match; simplify_eq; lia. Qed.

(** ** Lemmas: replies on the wire *)

(** What a reply sends back: [response[..n]]. *)
Definition sent (rn : list Z * nat) : list Z := take rn.2 rn.1.

(** The reply [rn] leaves the response buffer's length alone, and sends [w]. *)
Definition replies (response : list Z) (rn : list Z * nat) (w : list Z) : Prop :=
  sent rn = w ∧ rn.2 = length w ∧ length rn.1 = length response.

Lemma wire_of_reply e response w :
  encoder_safe e → wire_of e response = Some w →
  replies response (encode_or_internal e response) w.
Proof.
  intros Hsafe Hw. specialize (Hsafe response). unfold wire_of in Hw.
  unfold replies, encode_or_internal, sent.
  destruct (e response) as [buf [n|]]; [|done]. simplify_eq/=.
  destruct Hsafe as (Hn & Hlen & _). rewrite length_take. split_and!; [done|lia|done].
Qed.

Lemma replies_put h response :
  (SIZE ≤ length response)%nat →
  replies response (encode_or_internal (put_response h) response) (response_to_bytes h).
Proof.
  intros Hl. apply wire_of_reply; [apply put_response_safe|]. by apply wire_of_put_response.
Qed.

Lemma replies_error code response :
  (SIZE ≤ length response)%nat →
  replies response (encode_error response code) (response_to_bytes (response_error code)).
Proof.
  intros Hl. pose proof (replies_put (response_error code) response Hl) as Hr.
  unfold encode_error, encode_error_response, encode_or_internal in *.
  unfold put_response in *. by rewrite (proj2 (Nat.ltb_ge _ _) Hl) in *.
Qed.

Lemma replies_success response :
  (SIZE ≤ length response)%nat →
  replies response (encode_success response) (response_to_bytes response_success).
Proof. intros Hl. exact (replies_error Success response Hl). Qed.

(** The response header of a received message. *)
Definition message_header (msg : MctpMessage) : MctpResponseHeader :=
  {| p_code := code_u8 Success; p_flags := if m_ic msg then IC else 0;
     p_msg_type := m_typ msg; p_eid := m_source msg; p_handle := 0;
     p_payload_len := Z.of_nat (length (m_payload msg)); p_tag := tag_value (m_tag msg) |}.

Lemma recv_reply_sends msg recv_buf response payload :
  (length payload ≤ MAX_PAYLOAD_SIZE)%nat → (MAX_RESPONSE_SIZE ≤ length response)%nat →
  length (m_payload msg) = length payload →
  (length payload ≤ length recv_buf)%nat → take (length payload) recv_buf = payload →
  ∃ rn, recv_reply (metadata_of msg) recv_buf response = Some rn ∧
    replies response rn (response_to_bytes (message_header msg) ++ payload).
Proof.
  intros Hp Hr Hlen Hfit Hbuf. unfold recv_reply, slice_to, metadata_of, message_header. simpl.
  rewrite Hlen, (proj2 (Nat.leb_le _ _) Hfit), Hbuf. simpl. eexists. split; [done|].
  apply wire_of_reply; [auto with wire|].
  rewrite wire_of_recv_response, payload_len_roundtrip; [done|done|done|].
  unfold MAX_RESPONSE_SIZE in Hr. lia.
Qed.

(** ** A served channel *)

Section rpc.
Context {R : Type} `{Router R} (OUTSTANDING : nat).

(** The server process: its server, its two buffers and its clock. *)
Record Host := mkHost {
  h_server : @Server R;
  h_recv_buf : list Z;
  h_response : list Z;
  h_now : Z;
}.

(** The channel whose other end dispatches the request and responds with
    [response[..n]]; a panic, or a receive left pending, is no answer. *)
Definition serve (h : Host) (_ : Z) (request resp_buf : list Z) :
    Host * list Z * result nat unit :=
  match dispatch_mctp_op OUTSTANDING request (h_response h) (h_server h) (h_recv_buf h)
      (h_now h) with
  | None => (h, resp_buf, Err ())
  | Some (server, response, recv_buf, outcome) =>
      let h := {| h_server := server; h_recv_buf := recv_buf; h_response := response;
                  h_now := h_now h |} in
      match outcome with
      | Reply n => (h, write_at 0 (take n response) resp_buf, Ok n)
      | Pending _ => (h, resp_buf, Err ())
      end
  end.

Definition client_wf (c : IpcMctpClient) : Prop :=
  length (request_buf c) = MAX_REQUEST_SIZE ∧ length (response_buf c) = MAX_RESPONSE_SIZE.

Definition host_wf (h : Host) : Prop := (MAX_RESPONSE_SIZE ≤ length (h_response h))%nat.

Lemma client_new_wf handle : client_wf (IpcMctpClient_new handle).
Proof. split; apply length_replicate. Qed.

Lemma wire_of_inv e buf w :
  encoder_safe e → wire_of e buf = Some w →
  ∃ buf' n, e buf = (buf', Ok n) ∧ take n buf' = w ∧ (n ≤ length buf)%nat ∧
    length buf' = length buf.
Proof.
  intros Hsafe Hw. specialize (Hsafe buf). unfold wire_of in Hw.
  destruct (e buf) as [buf' [n|]]; [|done]. simplify_eq. naive_solver.
Qed.

(** What the client makes of a reply that sends [hd] and [payload]. *)
Definition reading (hd : MctpResponseHeader) (payload : list Z) :
    result (MctpResponseHeader * nat) MctpError :=
  if is_success hd then Ok (hd, (SIZE + length payload)%nat)
  else Err (from_code (response_code hd)).

(** One client call over the served channel, given what the dispatch of its
    request replies. *)
Lemma client_call_served e c h req server rn recv_buf hd payload :
  client_wf c → host_wf h → encoder_safe e → wire_of e (request_buf c) = Some req →
  dispatch_mctp_op OUTSTANDING req (h_response h) (h_server h) (h_recv_buf h) (h_now h) =
    Some (server, rn.1, recv_buf, Reply rn.2) →
  replies (h_response h) rn (response_to_bytes hd ++ payload) →
  response_ok hd → (length payload ≤ MAX_PAYLOAD_SIZE)%nat →
  ∃ c' h', client_call serve e c h = (c', h', reading hd payload) ∧
    client_wf c' ∧ host_wf h' ∧ h_server h' = server ∧
    take (SIZE + length payload) (response_buf c') = response_to_bytes hd ++ payload.
Proof.
  intros [Hq Hp] Hh Hsafe Hw Hd (Hs & Hn & Hl) Hhd Hpay.
  destruct (wire_of_inv _ _ _ Hsafe Hw) as (buf' & n & He & Hreq & Hnle & Hlen).
  assert (length (response_to_bytes hd ++ payload) = SIZE + length payload)%nat as Hlw.
  { by rewrite length_app. }
  unfold client_call. rewrite He. unfold transact, send_recv. cbn [request_buf c_handle response_buf].
  rewrite (proj2 (Nat.ltb_ge _ _)) by lia. unfold serve at 1. rewrite Hreq, Hd.
  unfold sent in Hs. rewrite Hs, Hn, Hlw. cbn [map_err response_buf].
  assert ((SIZE + length payload <? SIZE)%nat || (MAX_RESPONSE_SIZE <? SIZE + length payload)%nat
    = false) as ->.
  { apply orb_false_iff. split; apply Nat.ltb_ge; unfold MAX_RESPONSE_SIZE; lia. }
  assert (take (SIZE + length payload)
    (write_at 0 (response_to_bytes hd ++ payload) (response_buf c)) =
    response_to_bytes hd ++ payload) as Htake.
  { rewrite write_at_0, take_app_length'; [done|lia]. }
  rewrite Htake. unfold decode_response_header. rewrite response_roundtrip by done. cbn [ok_or].
  eexists _, _. split; [done|]. split_and!; try done.
  - split; cbn [request_buf response_buf]; [lia|]. rewrite length_write_at; [done|].
    rewrite Hlw, Hp. unfold MAX_RESPONSE_SIZE. lia.
  - unfold host_wf in *. simpl. lia.
Qed.

(** An error reply is read as the error. *)
Lemma reading_error code : code ≠ Success → reading (response_error code) [] = Err (from_code code).
Proof. by destruct code. Qed.

Lemma server_error_not_success e : err_code (mctp_error_to_server_error e) ≠ Success.
Proof. by destruct e. Qed.

Lemma response_error_ok code : response_ok (response_error code).
Proof. split; unfold in_u32, in_u16, u32_MAX, u16_MAX; simpl; lia. Qed.

(** Decoding what a header-only encoder sent. *)
Lemma dispatch_header op h request response server recv_buf now :
  request_ok h → operation h = Some op →
  (∃ rest, request = request_to_bytes h ++ rest) →
  dispatch_mctp_op OUTSTANDING request response server recv_buf now =
    dispatch_op OUTSTANDING op h request response server recv_buf now.
Proof.
  intros Hh Hop [rest ->]. unfold dispatch_mctp_op. rewrite request_roundtrip by done.
  by rewrite Hop.
Qed.

(** A client call and the server call it stands for agree: same answer, same
    server afterwards. *)
Definition rpc_agrees {A} (call : IpcMctpClient * Host * A) (direct : @Server R * A) : Prop :=
  call.2 = direct.2 ∧ h_server call.1.2 = direct.1 ∧
  client_wf call.1.1 ∧ host_wf call.1.2.

(** A header-only request answered by a header-only response. *)
Lemma call_header q op c h server rn recv_buf hd :
  client_wf c → host_wf h → request_ok q → operation q = Some op →
  dispatch_op OUTSTANDING op q (request_to_bytes q) (h_response h) (h_server h)
    (h_recv_buf h) (h_now h) = Some (server, rn.1, recv_buf, Reply rn.2) →
  replies (h_response h) rn (response_to_bytes hd) → response_ok hd →
  ∃ c' h', client_call serve (put_request q) c h = (c', h', reading hd []) ∧
    client_wf c' ∧ host_wf h' ∧ h_server h' = server.
Proof.
  intros Hc Hh Hq Hop Hd Hr Hok.
  destruct (client_call_served (put_request q) c h (request_to_bytes q) server rn recv_buf hd [])
    as (c' & h' & ? & ? & ? & ? & _); try done.
  - apply put_request_safe.
  - apply wire_of_put_request. destruct Hc as [-> _]. unfold MAX_REQUEST_SIZE. lia.
  - erewrite dispatch_header; [done..|]. exists []. by rewrite app_nil_r.
  - simpl. lia.
  - exists c', h'. by split_and!.
Qed.

Lemma host_room h : host_wf h → (SIZE ≤ length (h_response h))%nat.
Proof. unfold host_wf, MAX_RESPONSE_SIZE. lia. Qed.

Local Ltac small := unfold request_ok, response_ok, in_u32, in_u16, u32_MAX, u16_MAX; simpl; lia.

Lemma handle_of_range n : in_u32 (handle_of n).
Proof. unfold in_u32, u32_MAX, handle_of. pose proof (Z.mod_pos_bound (Z.of_nat n) 4294967296). lia. Qed.

Lemma rpc_header {A} (f : MctpResponseHeader * nat → A) q op c h server rn recv_buf hd res :
  client_wf c → host_wf h → request_ok q → operation q = Some op →
  dispatch_op OUTSTANDING op q (request_to_bytes q) (h_response h) (h_server h)
    (h_recv_buf h) (h_now h) = Some (server, rn.1, recv_buf, Reply rn.2) →
  replies (h_response h) rn (response_to_bytes hd) → response_ok hd →
  res = map_ok f (reading hd []) →
  rpc_agrees (let '(c, k, r) := client_call serve (put_request q) c h in (c, k, map_ok f r))
    (server, res).
Proof.
  intros Hc Hh Hq Hop Hd Hr Hok ->.
  destruct (call_header q op c h server rn recv_buf hd) as (c' & h' & -> & ? & ? & ?); done.
Qed.

(** A failed server call, whatever the operation. *)
Lemma rpc_error {A} (f : MctpResponseHeader * nat → A) q op c h server recv_buf e :
  client_wf c → host_wf h → request_ok q → operation q = Some op → err_code e ≠ Success →
  (let rn := encode_error (h_response h) (err_code e) in
   dispatch_op OUTSTANDING op q (request_to_bytes q) (h_response h) (h_server h)
     (h_recv_buf h) (h_now h) = Some (server, rn.1, recv_buf, Reply rn.2)) →
  rpc_agrees (let '(c, k, r) := client_call serve (put_request q) c h in (c, k, map_ok f r))
    (server, Err e).
Proof.
  intros Hc Hh Hq Hop He Hd. eapply rpc_header; try done.
  - by apply replies_error, host_room.
  - apply response_error_ok.
  - rewrite reading_error by done. by destruct e.
Qed.

Lemma rpc_set_eid c h eid :
  client_wf c → host_wf h →
  rpc_agrees (client_set_eid serve c h eid) (srv_set_eid (h_server h) eid).
Proof.
  intros Hc Hh. unfold client_set_eid, encode_set_eid, srv_set_eid.
  destruct (r_set_eid (stack (h_server h)) eid) as [r' [[]|e]] eqn:Hr; simpl.
  - eapply (rpc_header _ _ SetEid _ _ _ (encode_success (h_response h)) _ response_success);
      try done; [simpl; unfold srv_set_eid; by rewrite Hr|].
    by apply replies_success, host_room.
  - eapply (rpc_error _ _ SetEid); try done; [apply server_error_not_success|].
    simpl. unfold srv_set_eid. by rewrite Hr.
Qed.

Lemma rpc_listener c h typ :
  client_wf c → host_wf h →
  rpc_agrees (client_listener serve c h typ) (srv_listener (h_server h) typ).
Proof.
  intros Hc Hh. unfold client_listener, encode_listener, srv_listener.
  destruct (r_listener (stack (h_server h)) typ) as [r' [cookie|e]] eqn:Hr; simpl.
  - eapply (rpc_header _ _ Listener _ _ _
      (encode_or_internal (encode_handle_response (handle_of cookie)) (h_response h))); try done.
    + simpl. unfold srv_listener. by rewrite Hr.
    + by apply replies_put, host_room.
    + split; [apply handle_of_range|small].
    + done.
  - eapply (rpc_error _ _ Listener); try done; [apply server_error_not_success|].
    simpl. unfold srv_listener. by rewrite Hr.
Qed.

Lemma rpc_req c h eid :
  client_wf c → host_wf h →
  rpc_agrees (client_req serve c h eid) (srv_req (h_server h) eid).
Proof.
  intros Hc Hh. unfold client_req, encode_req, srv_req.
  destruct (r_req (stack (h_server h)) eid) as [r' [cookie|e]] eqn:Hr; simpl.
  - eapply (rpc_header _ _ Req _ _ _
      (encode_or_internal (encode_handle_response (handle_of cookie)) (h_response h))); try done.
    + simpl. unfold srv_req. by rewrite Hr.
    + by apply replies_put, host_room.
    + split; [apply handle_of_range|small].
    + done.
  - eapply (rpc_error _ _ Req); try done; [apply server_error_not_success|].
    simpl. unfold srv_req. by rewrite Hr.
Qed.

Lemma rpc_get_eid c h :
  client_wf c → host_wf h →
  rpc_agrees (client_get_eid serve c h) (h_server h, srv_get_eid (h_server h)).
Proof.
  intros Hc Hh. unfold client_get_eid, encode_get_eid.
  edestruct (call_header {| q_op := op_u8 GetEid; q_flags := 0; q_msg_type := 0; q_eid := 0;
      q_handle := 0; q_tag := 0 |} GetEid c h) as (c' & h' & -> & ? & ? & ?);
    [done|done|small|done|done|by apply replies_put, host_room|small|done].
Qed.

Lemma rpc_drop_handle c h handle :
  client_wf c → host_wf h → in_u32 handle →
  let '(c', h') := drop_handle serve c h handle in
  client_wf c' ∧ host_wf h' ∧ h_server h' = (srv_unbind (h_server h) handle).1.
Proof.
  intros Hc Hh Hhd. unfold drop_handle, encode_unbind, srv_unbind.
  destruct (r_unbind (stack (h_server h)) (as_usize handle)) as [r' res] eqn:Hr.
  edestruct (call_header {| q_op := op_u8 Unbind; q_flags := HAS_HANDLE; q_msg_type := 0;
      q_eid := 0; q_handle := handle; q_tag := 0 |} Unbind c h) as (c' & h' & -> & ? & ? & ?).
  - done.
  - done.
  - done.
  - done.
  - simpl. unfold srv_unbind. by rewrite Hr.
  - by apply replies_success, host_room.
  - apply response_error_ok.
  - done.
Qed.

Lemma get_request_payload_app q payload :
  get_request_payload (request_to_bytes q ++ payload) = payload.
Proof.
  unfold get_request_payload. rewrite length_app, length_request_to_bytes.
  destruct (Nat.ltb_spec SIZE (SIZE + length payload)) as [_|Hle].
  - by rewrite drop_app_length'.
  - destruct payload; [done|cbn [length] in Hle; lia].
Qed.

(** The request header of a [Send]. *)
Definition send_header handle msg_type eid tag ic : MctpRequestHeader :=
  {| q_op := op_u8 Send; q_flags := send_flags handle eid tag ic; q_msg_type := msg_type;
     q_eid := default 0 eid; q_handle := default NO_HANDLE handle; q_tag := default 0 tag |}.

(** The server sees the arguments of the client's [send]. *)
Lemma dispatch_send handle msg_type eid tag ic payload response server recv_buf now :
  (∀ x, handle = Some x → in_u32 x) →
  dispatch_mctp_op OUTSTANDING
    (request_to_bytes (send_header handle msg_type eid tag ic) ++ payload)
    response server recv_buf now =
  let '(server, r) := srv_send server handle msg_type eid tag ic payload in
  let rn := match r with
            | Ok tag_val => encode_or_internal (encode_send_response tag_val) response
            | Err e => encode_error response (err_code e)
            end in
  Some (server, rn.1, recv_buf, Reply rn.2).
Proof.
  intros Hh. assert (request_ok (send_header handle msg_type eid tag ic)) as Hq.
  { unfold request_ok. simpl. destruct handle as [x|]; simpl; [auto|].
    unfold NO_HANDLE. small. }
  rewrite (dispatch_header Send (send_header handle msg_type eid tag ic));
    [|done|done|by eexists].
  unfold dispatch_op. rewrite get_request_payload_app. cbn [send_header q_flags q_handle q_eid q_tag q_msg_type].
  destruct (send_flags_spec handle eid tag ic) as (-> & -> & -> & ->).
  assert (∀ (o : option Z) d, (if bool_decide (is_Some o) then Some (default d o) else None) = o)
    as Ho by (by intros []).
  rewrite !Ho. destruct (srv_send server handle msg_type eid tag ic payload) as [server' [t|e]];
    done.
Qed.

Lemma srv_send_error s handle typ eid tag ic buf s' e :
  srv_send s handle typ eid tag ic buf = (s', Err e) → err_code e ≠ Success.
Proof.
  unfold srv_send. destruct (_ <? _)%nat; [by intros [= <- <-]|].
  destruct (r_send _ _ _ _ _ _ _) as [r [t|e']]; intros [= <- <-].
  apply server_error_not_success.
Qed.

Lemma rpc_send c h handle msg_type eid tag ic buf :
  client_wf c → host_wf h → (∀ x, handle = Some x → in_u32 x) →
  (length buf ≤ MAX_PAYLOAD_SIZE)%nat →
  rpc_agrees (client_send serve c h handle msg_type eid tag ic buf)
    (srv_send (h_server h) handle msg_type eid tag ic buf).
Proof.
  intros Hc Hh Hhd Hbuf. unfold client_send.
  assert (wire_of (encode_send handle msg_type eid tag ic buf) (request_buf c) =
    Some (request_to_bytes (send_header handle msg_type eid tag ic) ++ buf)) as Hw.
  { apply wire_of_send; [done|]. destruct Hc as [-> _]. unfold MAX_REQUEST_SIZE. lia. }
  pose proof (dispatch_send handle msg_type eid tag ic buf (h_response h) (h_server h)
    (h_recv_buf h) (h_now h) Hhd) as Hd.
  destruct (srv_send (h_server h) handle msg_type eid tag ic buf) as [srv' [t|e]] eqn:Hs.
  - edestruct (client_call_served _ c h _ _ _ _
      {| p_code := code_u8 Success; p_flags := 0; p_msg_type := 0; p_eid := 0;
         p_handle := 0; p_payload_len := 0; p_tag := t |} [] Hc Hh
      (encode_send_safe _ _ _ _ _ _) Hw Hd) as (c' & h' & -> & ? & ? & ? & _).
    + rewrite app_nil_r. by apply replies_put, host_room.
    + split; small.
    + simpl. lia.
    + done.
  - edestruct (client_call_served _ c h _ _ _ _ (response_error (err_code e)) [] Hc Hh
      (encode_send_safe _ _ _ _ _ _) Hw Hd) as (c' & h' & -> & ? & ? & ? & _).
    + rewrite app_nil_r. by apply replies_error, host_room.
    + apply response_error_ok.
    + simpl. lia.
    + rewrite reading_error by (by eapply srv_send_error). by destruct e.
Qed.

(** A send beyond the protocol's limit does not leave the client. *)
Lemma rpc_send_too_long c h handle msg_type eid tag ic buf :
  (MAX_PAYLOAD_SIZE < length buf)%nat →
  let call := client_send serve c h handle msg_type eid tag ic buf in call.1.2 = h ∧ call.2 = Err internal_error.
Proof.
  intros Hbuf. unfold client_send, client_call, encode_send. by rewrite (proj2 (Nat.ltb_lt _ _) Hbuf).
Qed.

(** The same for a receive whose message is already there. *)
Lemma rpc_recv c h handle timeout buf r' msg :
  client_wf c → host_wf h → in_u32 handle →
  r_recv (stack (h_server h)) (as_usize handle) = (r', Some msg) →
  (length (m_payload msg) ≤ MAX_PAYLOAD_SIZE)%nat →
  (length (m_payload msg) ≤ length (h_recv_buf h))%nat →
  ∃ c' h', client_recv serve c h handle timeout buf =
      (c', h', write_at 0 (take (Nat.min (length (m_payload msg)) (length buf)) (m_payload msg)) buf,
       Ok (metadata_of msg)) ∧
    client_wf c' ∧ host_wf h' ∧ h_server h' = with_stack r' (h_server h).
Proof.
  intros Hc Hh Hhd Hr Hpay Hfit.
  set (q := {| q_op := op_u8 Recv; q_flags := HAS_HANDLE; q_msg_type := 0; q_eid := 0;
               q_handle := handle; q_tag := 0 |}).
  assert (wire_of (encode_recv handle timeout) (request_buf c) =
    Some (request_to_bytes q ++ u32_to_le_bytes timeout)) as Hw.
  { apply wire_of_recv. destruct Hc as [-> _]. unfold MAX_REQUEST_SIZE, MAX_PAYLOAD_SIZE. lia. }
  set (recv_buf := copy_payload (m_payload msg) (h_recv_buf h)).
  assert (take (length (m_payload msg)) recv_buf = m_payload msg ∧
    length recv_buf = length (h_recv_buf h)) as [Htake Hlen].
  { unfold recv_buf, copy_payload. rewrite (proj2 (Nat.leb_le _ _) Hfit).
    rewrite length_write_at by lia. by rewrite write_at_0, take_app_length. }
  destruct (recv_reply_sends msg recv_buf (h_response h) (m_payload msg))
    as (rn & Hrn & Hreplies); [done|exact Hh|done|lia|done|].
  edestruct (client_call_served (encode_recv handle timeout) c h _ (with_stack r' (h_server h))
    rn recv_buf (message_header msg) (m_payload msg) Hc Hh (encode_recv_safe _ _) Hw)
    as (c' & h' & Hcall & ? & ? & ? & Hbuf); [|done|..|done|].
  - rewrite (dispatch_header Recv q); [|done|done|by eexists].
    unfold dispatch_op, try_recv. simpl. rewrite Hr. fold recv_buf. by rewrite Hrn.
  - split; [small|]. unfold in_u16, u16_MAX, MAX_PAYLOAD_SIZE in *. simpl. lia.
  - exists c', h'. split; [|done]. unfold client_recv. rewrite Hcall.
    change (reading (message_header msg) (m_payload msg)) with
      (@Ok _ MctpError (message_header msg, (SIZE + length (m_payload msg))%nat)). cbv iota.
    unfold get_response_payload. rewrite Hbuf, length_app, length_response_to_bytes.
    cbn [p_payload_len message_header]. rewrite as_usize_of_nat, Nat.ltb_irrefl.
    replace (SIZE + length (m_payload msg) - SIZE)%nat with (length (m_payload msg)) by lia.
    rewrite drop_app_length' by done. rewrite firstn_all.
    by destruct msg as [? [] ? ? ?].
Qed.
End rpc.

(** ** Pending receives *)

Section pending.
Context {R : Type} `{Router R} (OUTSTANDING : nat).

(** The answer an outstanding call deserves: its own message, or its timeout. *)
Definition due_reply (now : Z) (e : Z * Z) (m : option MctpMessage) : option (Z * list Z) :=
  match m with
  | Some msg => Some (e.1, response_to_bytes (message_header msg) ++ m_payload msg)
  | None =>
      if negb (e.2 =? 0) && (e.2 <=? now)
      then Some (e.1, response_to_bytes (response_error CodeTimedOut)) else None
  end.

Definition due_replies (now : Z) (entries : list (Z * Z)) (ms : list (option MctpMessage)) :
    list (Z * list Z) :=
  omap (λ p, due_reply now p.1 p.2) (zip entries ms).

(** The message fits the receive buffer and a response. *)
Definition fits (recv_buf : list Z) (msg : MctpMessage) : Prop :=
  (length (m_payload msg) ≤ MAX_PAYLOAD_SIZE)%nat ∧
  (length (m_payload msg) ≤ length recv_buf)%nat.

(** If the receive buffer holds every message's payload, all replies are right. *)
Lemma deliver_due now entries ms recv_buf response :
  (MAX_RESPONSE_SIZE ≤ length response)%nat →
  (∀ msg, Some msg ∈ ms →
     fits recv_buf msg ∧ take (length (m_payload msg)) recv_buf = m_payload msg) →
  ∃ response', deliver (outcomes now entries ms) recv_buf response =
    Some (response', due_replies now entries ms) ∧ length response' = length response.
Proof.
  revert ms response. induction entries as [|e entries IH]; intros ms response Hresp Hms.
  { by exists response. }
  destruct ms as [|m ms]; [by exists response|].
  assert (∀ msg, Some msg ∈ ms →
    fits recv_buf msg ∧ take (length (m_payload msg)) recv_buf = m_payload msg) as Hms'.
  { intros msg Hin. apply Hms. by right. }
  unfold outcomes, due_replies. destruct m as [msg|].
  - destruct (Hms msg) as [[Hp Hfit] Htake]; [left|].
    destruct (recv_reply_sends msg recv_buf response (m_payload msg))
      as (rn & Hrn & Hs & _ & Hl); try done.
    destruct (IH ms rn.1) as (response' & Hd & Hl'); [lia|done|]. exists response'.
    cbn. rewrite Hrn. cbn. unfold outcomes in Hd. rewrite Hd. cbn.
    unfold sent in Hs. rewrite Hs. split; [done|lia].
  - destruct (negb (e.2 =? 0) && (e.2 <=? now)) eqn:Hexp.
    + destruct (replies_error CodeTimedOut response) as (Hs & _ & Hl);
        [unfold MAX_RESPONSE_SIZE in Hresp; lia|].
      destruct (IH ms (encode_error response CodeTimedOut).1) as (response' & Hd & Hl');
        [lia|done|]. exists response'. cbn. rewrite Hexp. cbn. unfold outcomes in Hd.
      rewrite Hd. cbn. unfold sent in Hs. rewrite Hs. split; [done|lia].
    + destruct (IH ms response) as (response' & Hd & Hl'); [done|done|]. exists response'.
      cbn. rewrite Hexp. done.
Qed.

Lemma copy_fits msg recv_buf :
  fits recv_buf msg →
  take (length (m_payload msg)) (copy_payload (m_payload msg) recv_buf) = m_payload msg ∧
  length (copy_payload (m_payload msg) recv_buf) = length recv_buf.
Proof.
  intros [_ Hf]. unfold copy_payload. rewrite (proj2 (Nat.leb_le _ _) Hf).
  rewrite length_write_at by lia. by rewrite write_at_0, take_app_length.
Qed.

Lemma buffer_after_none buf ms : (∀ msg, Some msg ∉ ms) → buffer_after buf ms = buf.
Proof.
  unfold buffer_after. intros Hn. induction ms as [|m ms IH]; [done|]. simpl.
  destruct m as [msg|]; [destruct (Hn msg); left|]. apply IH.
  intros msg Hin. apply (Hn msg). by right.
Qed.

(** With one message at most, the buffer holds it. *)
Lemma buffer_after_one buf ms msg :
  (length (omap id ms) ≤ 1)%nat → Some msg ∈ ms → fits buf msg →
  take (length (m_payload msg)) (buffer_after buf ms) = m_payload msg ∧
  length (buffer_after buf ms) = length buf.
Proof.
  intros Hone Hin Hf. induction ms as [|m ms IH]; [by apply elem_of_nil in Hin|].
  destruct m as [msg'|].
  - assert (∀ m', Some m' ∉ ms) as Hnone.
    { intros m' Hm'. change (omap id (Some msg' :: ms)) with (msg' :: omap id ms) in Hone.
      assert (m' ∈ omap id ms) as He by (apply list_elem_of_omap; eauto).
      destruct (omap id ms); [by apply elem_of_nil in He|]. simpl in Hone. lia. }
    apply elem_of_cons in Hin as [[= <-]|Hin]; [|by apply Hnone in Hin].
    unfold buffer_after. simpl. fold (buffer_after (copy_payload (m_payload msg) buf) ms).
    rewrite buffer_after_none by done. by apply copy_fits.
  - apply elem_of_cons in Hin as [?|Hin]; [done|]. by apply IH.
Qed.
End pending.

(** ** Properties *)

(** C4: A client call is the server call.  Over a channel served by
    [dispatch_mctp_op], [set_eid], [get_eid], [listener], [req], [drop_handle] and a
    [send] of at most [MAX_PAYLOAD_SIZE] bytes give exactly the answer the server's
    own method gives, error codes included, and leave the server in the same state:
    encoding, dispatch and decoding are invisible.  A longer [send] is refused by
    the client itself with [InternalError] and reaches no server.  A [recv] for
    which the router has a message, one that fits the server's receive buffer and a
    response, returns its metadata and its payload as far as the caller's buffer
    goes.  (A [recv] that has to wait is answered later, by [drive_pending].) *)
Theorem client_call_is_server_call {R} (router : Router R) OUTSTANDING c (h : Host)
    eid typ handle opt_handle opt_eid tag ic buf timeout out :
  client_wf c → host_wf h → in_u32 handle → (∀ x, opt_handle = Some x → in_u32 x) →
  rpc_agrees (client_set_eid (serve OUTSTANDING) c h eid) (srv_set_eid (h_server h) eid) ∧
  rpc_agrees (client_get_eid (serve OUTSTANDING) c h) (h_server h, srv_get_eid (h_server h)) ∧
  rpc_agrees (client_listener (serve OUTSTANDING) c h typ) (srv_listener (h_server h) typ) ∧
  rpc_agrees (client_req (serve OUTSTANDING) c h eid) (srv_req (h_server h) eid) ∧
  (let call := client_send (serve OUTSTANDING) c h opt_handle typ opt_eid tag ic buf in
   if (length buf <=? MAX_PAYLOAD_SIZE)%nat
   then rpc_agrees call (srv_send (h_server h) opt_handle typ opt_eid tag ic buf)
   else call.1.2 = h ∧ call.2 = Err internal_error) ∧
  h_server (drop_handle (serve OUTSTANDING) c h handle).2 =
    (srv_unbind (h_server h) handle).1 ∧
  ∀ r' msg, r_recv (stack (h_server h)) (as_usize handle) = (r', Some msg) →
    (length (m_payload msg) ≤ MAX_PAYLOAD_SIZE)%nat →
    (length (m_payload msg) ≤ length (h_recv_buf h))%nat →
    ∃ c' h', client_recv (serve OUTSTANDING) c h handle timeout out =
        (c', h', write_at 0 (take (Nat.min (length (m_payload msg)) (length out)) (m_payload msg)) out,
         Ok (metadata_of msg)) ∧
      h_server h' = (try_recv (h_server h) handle (h_recv_buf h)).1.1.
Proof.
  intros Hc Hh Hhd Hoh. split_and!.
  - by apply rpc_set_eid.
  - by apply rpc_get_eid.
  - by apply rpc_listener.
  - by apply rpc_req.
  - destruct (Nat.leb_spec (length buf) MAX_PAYLOAD_SIZE) as [Hbuf|Hbuf]; [by apply rpc_send|].
    by apply rpc_send_too_long.
  - pose proof (rpc_drop_handle OUTSTANDING c h handle Hc Hh Hhd) as Hd.
    destruct (drop_handle _ c h handle). by destruct Hd as (_ & _ & ?).
  - intros r' msg Hr Hp Hb. destruct (rpc_recv OUTSTANDING c h handle timeout out r' msg) as (c' & h' & Hcall & _ & _ & Hs); [done..|].
    exists c', h'. split; [done|]. unfold try_recv. by rewrite Hr.
Qed.

(** Pending receives are answered right when one message is ready.  Driving the
    pending receives of a well-formed server never panics as long as the messages
    fit, and if the router has a message for at most one outstanding handle,
    every due handle is called back exactly once, in table order, with its own
    message or with a timeout. *)
Theorem drive_pending_answers_due {R} (router : Router R) OUTSTANDING s now recv_buf response :
  srv_wf OUTSTANDING s → (MAX_RESPONSE_SIZE ≤ length response)%nat →
  let '(r1, _) := r_update (stack s) now in
  let '(_, ms) := recv_all r1 (outstanding s).*1 in
  (∀ msg, Some msg ∈ ms → fits recv_buf msg) → (length (omap id ms) ≤ 1)%nat →
  ∃ s' recv_buf' response',
    drive_pending OUTSTANDING s now recv_buf response =
      Some (s', recv_buf', response', due_replies now (outstanding s) ms).
Proof.
  intros [_ Hcap] Hresp. unfold drive_pending, srv_update.
  destruct (r_update (stack s) now) as [r1 iv].
  rewrite update_loop_spec by (simpl; lia).
  destruct (recv_all r1 (outstanding s).*1) as [r2 ms]. intros Hfits Hone. simpl app.
  destruct (deliver_due now (outstanding s) ms (buffer_after recv_buf ms) response)
    as (response' & Hd & _); [done|..].
  - intros msg Hin. destruct (buffer_after_one recv_buf ms msg) as [Ht Hl]; [done|done|auto|].
    split; [|done]. destruct (Hfits msg Hin) as [? ?]. split; [done|by rewrite Hl].
  - rewrite Hd. simpl. eauto.
Qed.

(** Two ready receives share one buffer.  When the router has a message of
    the same length for each of two outstanding handles, the first handle is
    answered with the first message's header and the second message's payload:
    [update] copies both into the one receive buffer before any reply is
    encoded. *)
Theorem drive_pending_mixes_payloads {R} (router : Router R) OUTSTANDING s now recv_buf response
    h1 d1 h2 d2 r1 iv r2 m1 m2 :
  (2 ≤ OUTSTANDING)%nat → (MAX_RESPONSE_SIZE ≤ length response)%nat →
  outstanding s = [(h1, d1); (h2, d2)] → r_update (stack s) now = (r1, iv) →
  recv_all r1 [h1; h2] = (r2, [Some m1; Some m2]) →
  length (m_payload m1) = length (m_payload m2) → fits recv_buf m2 →
  ∃ s' recv_buf' response',
    drive_pending OUTSTANDING s now recv_buf response =
      Some (s', recv_buf', response',
        [(h1, response_to_bytes (message_header m1) ++ m_payload m2);
         (h2, response_to_bytes (message_header m2) ++ m_payload m2)]).
Proof.
  intros Hcap Hresp Hout Hupd Hrecv Hlen Hfit. unfold drive_pending, srv_update.
  rewrite Hupd, Hout, update_loop_spec by (simpl; lia).
  change ([(h1, d1); (h2, d2)].*1) with [h1; h2]. rewrite Hrecv.
  assert (fits recv_buf m1) as Hfit1 by (unfold fits in *; by rewrite Hlen).
  destruct (copy_fits m1 recv_buf Hfit1) as [_ Hl1].
  destruct (copy_fits m2 (copy_payload (m_payload m1) recv_buf)) as [Ht2 Hl2].
  { unfold fits in *. by rewrite Hl1. }
  unfold buffer_after. cbn [foldl outcomes omap list_omap zip outcome app].
  set (buf := copy_payload (m_payload m2) (copy_payload (m_payload m1) recv_buf)) in *.
  destruct Hfit as [Hp Hf].
  destruct (recv_reply_sends m1 buf response (m_payload m2)) as (rn1 & Hrn1 & Hs1 & _ & Hb1);
    [done|done|done|lia|done|].
  destruct (recv_reply_sends m2 buf rn1.1 (m_payload m2)) as (rn2 & Hrn2 & Hs2 & _ & _);
    [done|lia|done|lia|done|].
  unfold sent in *. cbn. rewrite Hrn1. cbn. rewrite Hrn2. cbn. rewrite Hs1, Hs2. eauto.
Qed.

(** Malformed requests are refused.  A request shorter than a header, or with
    an opcode outside the seven operations, is answered with [BadArgument] and
    changes nothing in the server, whatever its other bytes are. *)
Theorem malformed_request_refused {R} (router : Router R) OUTSTANDING request response
    (server : Server) recv_buf now :
  (MAX_RESPONSE_SIZE ≤ length response)%nat →
  (length request < SIZE)%nat ∨
    (∃ h, request_from_bytes request = Some h ∧ ¬ 0 ≤ q_op h ≤ 6) →
  ∃ response', dispatch_mctp_op OUTSTANDING request response server recv_buf now =
      Some (server, response', recv_buf, Reply SIZE) ∧
    take SIZE response' = response_to_bytes (response_error BadArgument) ∧
    length response' = length response.
Proof.
  intros Hr Hbad. destruct (replies_error BadArgument response) as (Hs & Hn & Hl).
  { unfold MAX_RESPONSE_SIZE in Hr. lia. }
  unfold sent in Hs. rewrite Hn in Hs. exists (encode_error response BadArgument).1.
  split; [|done]. unfold dispatch_mctp_op. destruct Hbad as [Hshort|(h & Hh & Hop)].
  - assert (request_from_bytes request = None) as ->.
    { do 12 (destruct request as [|? request]; [done|]).
      cbn [length] in Hshort. unfold SIZE in Hshort. lia. }
    by rewrite Hn.
  - rewrite Hh. assert (operation h = None) as ->; [|by rewrite Hn].
    destruct (operation h) eqn:Ho; [|done]. by apply op_range in Ho.
Qed.

(** A receive is left pending whether or not it was recorded.  When the router
    has no message, a [Recv] request is always answered [Pending]; the handle is
    outstanding afterwards exactly if it already was or the table had room.  With
    a full table the caller waits for a reply no update will ever send. *)
Theorem recv_pending_recorded_iff_room {R} (router : Router R) OUTSTANDING handle timeout
    response (server : Server) recv_buf now r' :
  in_u32 handle → srv_wf OUTSTANDING server →
  r_recv (stack server) (as_usize handle) = (r', None) →
  ∃ server', dispatch_mctp_op OUTSTANDING
      (request_to_bytes {| q_op := op_u8 Recv; q_flags := HAS_HANDLE; q_msg_type := 0;
         q_eid := 0; q_handle := handle; q_tag := 0 |} ++ u32_to_le_bytes timeout)
      response server recv_buf now = Some (server', response, recv_buf, Pending handle) ∧
    (handle ∈ (outstanding server').*1 ↔
     handle ∈ (outstanding server).*1 ∨ (length (outstanding server) < OUTSTANDING)%nat).
Proof.
  intros Hh Hwf Hr. set (q := {| q_op := op_u8 Recv; q_flags := HAS_HANDLE; q_msg_type := 0;
    q_eid := 0; q_handle := handle; q_tag := 0 |}).
  rewrite (dispatch_header OUTSTANDING Recv q); [|done|done|by eexists].
  unfold dispatch_op, try_recv. cbn [q_handle q]. rewrite Hr. unfold register_recv. simpl.
  destruct (contains_key handle (outstanding server)) eqn:Hc.
  - eexists. split; [done|]. simpl. apply contains_key_iff in Hc. tauto.
  - assert (handle ∉ (outstanding server).*1) as Hfresh.
    { intros Hin. apply contains_key_iff in Hin. congruence. }
    rewrite map_insert_fresh by done. case_decide as Hroom.
    + eexists. split; [done|]. simpl. rewrite fmap_app, elem_of_app. simpl.
      rewrite list_elem_of_singleton. tauto.
    + eexists. split; [done|]. simpl. split; [done|]. intros [?|?]; done.
Qed.

(** ** Witnesses *)

Definition ex_host : @Host (list (nat * MctpMessage)) :=
  {| h_server := {| stack := [(4%nat, ex_message [7; 8; 9])]; outstanding := [] |};
     h_recv_buf := replicate 1023 0; h_response := replicate MAX_RESPONSE_SIZE 0; h_now := 0 |}.

Lemma ex_host_wf : host_wf ex_host.
Proof. unfold host_wf. cbn [h_response ex_host]. by rewrite length_replicate. Qed.

Lemma client_call_is_server_call_witness :
  rpc_agrees (client_send (serve 4) (IpcMctpClient_new 1) ex_host (Some 4) 5 None (Some 3) true [1; 2])
    (srv_send (h_server ex_host) (Some 4) 5 None (Some 3) true [1; 2]) ∧
  ∃ c' h', client_recv (serve 4) (IpcMctpClient_new 1) ex_host 4 100 [0; 0; 0; 0] =
      (c', h', [7; 8; 9; 0], Ok (metadata_of (ex_message [7; 8; 9]))) ∧
    h_server h' = (try_recv (h_server ex_host) 4 (h_recv_buf ex_host)).1.1.
Proof.
  destruct (client_call_is_server_call ex_router 4 (IpcMctpClient_new 1) ex_host 8 5 4 (Some 4) None
    (Some 3) true [1; 2] 100 [0; 0; 0; 0]) as (_ & _ & _ & _ & Hsend & _ & Hrecv).
  - apply client_new_wf.
  - apply ex_host_wf.
  - unfold in_u32, u32_MAX. lia.
  - intros x [= <-]. unfold in_u32, u32_MAX. lia.
  - split; [exact Hsend|]. apply (Hrecv [] (ex_message [7; 8; 9])).
    + reflexivity.
    + unfold MAX_PAYLOAD_SIZE. simpl. lia.
    + cbn [h_recv_buf ex_host]. rewrite length_replicate. simpl. lia.
Defined.

Lemma drive_pending_answers_due_witness :
  ∃ s' recv_buf' response',
    drive_pending 4 ex_server 30 [0; 0; 0; 0] (replicate MAX_RESPONSE_SIZE 0) =
      Some (s', recv_buf', response',
        [(1, response_to_bytes (message_header (ex_message [7; 8])) ++ [7; 8]);
         (2, response_to_bytes (response_error CodeTimedOut))]).
Proof.
  apply (drive_pending_answers_due ex_router 4 ex_server 30 [0; 0; 0; 0]
    (replicate MAX_RESPONSE_SIZE 0)).
  - apply ex_server_wf.
  - by rewrite length_replicate.
  - intros msg Hin. simpl in Hin. rewrite !elem_of_cons, elem_of_nil in Hin.
    destruct Hin as [[= ->]|[?|[?|?]]]; try done. unfold fits, MAX_PAYLOAD_SIZE. simpl. lia.
  - simpl. lia.
Defined.

Lemma drive_pending_mixes_payloads_witness :
  ∃ s' recv_buf' response',
    drive_pending 4 {| stack := [(1%nat, ex_message [7; 8]); (2%nat, ex_message [1; 2])];
                       outstanding := [(1, 0); (2, 0)] |}
      30 [0; 0] (replicate MAX_RESPONSE_SIZE 0) =
      Some (s', recv_buf', response',
        [(1, response_to_bytes (message_header (ex_message [7; 8])) ++ [1; 2]);
         (2, response_to_bytes (message_header (ex_message [1; 2])) ++ [1; 2])]).
Proof.
  eapply (drive_pending_mixes_payloads ex_router 4 _ 30 [0; 0] (replicate MAX_RESPONSE_SIZE 0)
    1 0 2 0 _ _ [] (ex_message [7; 8]) (ex_message [1; 2])).
  - lia.
  - by rewrite length_replicate.
  - reflexivity.
  - reflexivity.
  - reflexivity.
  - reflexivity.
  - unfold fits, MAX_PAYLOAD_SIZE. simpl. lia.
Defined.

Lemma malformed_request_refused_witness :
  ∃ response', dispatch_mctp_op 4 [1; 2; 3] (replicate MAX_RESPONSE_SIZE 0) ex_server [] 0 =
      Some (ex_server, response', [], Reply SIZE) ∧
    take SIZE response' = response_to_bytes (response_error BadArgument) ∧
    length response' = length (replicate MAX_RESPONSE_SIZE 0).
Proof.
  apply (malformed_request_refused ex_router 4 [1; 2; 3] (replicate MAX_RESPONSE_SIZE 0)
    ex_server [] 0).
  - by rewrite length_replicate.
  - left. unfold SIZE. simpl. lia.
Defined.

(** A table of three, full: handle 9 is told to wait and is not recorded. *)
Lemma recv_pending_recorded_iff_room_witness :
  ∃ server', dispatch_mctp_op 3
      (request_to_bytes {| q_op := op_u8 Recv; q_flags := HAS_HANDLE; q_msg_type := 0;
         q_eid := 0; q_handle := 9; q_tag := 0 |} ++ u32_to_le_bytes 100)
      [] ex_server [] 0 = Some (server', [], [], Pending 9) ∧
    (9 ∈ (outstanding server').*1 ↔
     9 ∈ (outstanding ex_server).*1 ∨ (length (outstanding ex_server) < 3)%nat).
Proof.
  apply (recv_pending_recorded_iff_room ex_router 3 9 100 [] ex_server [] 0 (stack ex_server)).
  - unfold in_u32, u32_MAX. lia.
  - destruct ex_server_wf as [Hk _]. split; [exact Hk|simpl; lia].
  - reflexivity.
Defined.
