(* ===== verification/MctpStack.v ===== *)
(** * The MCTP stack facade and the echo application

    [services/mctp/api/src/traits.rs] and [services/mctp/api/src/stack.rs]: request
    channels, listeners and response channels over any [MctpClient], which they
    share; [services/mctp/echo/src/lib.rs]: the echo loop.

    [None] is a panic. *)

From S2P Require Import Prelude Bytes MctpWire MctpServer MctpDispatch.
From stdpp Require Import base tactics option list numbers.
Local Open Scope Z_scope.

(** ** The client seam *)

(** [MctpClient]: the client's state is behind [&self]. *)
Class MctpClient (C : Type) : Type := {
  m_req : C → Z → C * result Z MctpError;
  m_listener : C → Z → C * result Z MctpError;
  m_get_eid : C → C * Z;
  m_set_eid : C → Z → C * result unit MctpError;
  m_recv : C → Z → Z → list Z → C * list Z * result RecvMetadata MctpError;
  m_send : C → option Z → Z → option Z → option Z → bool → list Z → C * result Z MctpError;
  m_drop_handle : C → Z → C;
}.

(** [impl MctpClient for IpcMctpClient], over a channel. *)
#[export] Instance ipc_client {K}
    (channel_transact : K → Z → list Z → list Z → K * list Z * result nat unit) :
    MctpClient (IpcMctpClient * K) := {
  m_req ck eid := client_req channel_transact ck.1 ck.2 eid;
  m_listener ck typ := client_listener channel_transact ck.1 ck.2 typ;
  m_get_eid ck := client_get_eid channel_transact ck.1 ck.2;
  m_set_eid ck eid := client_set_eid channel_transact ck.1 ck.2 eid;
  m_recv ck handle timeout buf := client_recv channel_transact ck.1 ck.2 handle timeout buf;
  m_send ck handle typ eid tag ic buf :=
    client_send channel_transact ck.1 ck.2 handle typ eid tag ic buf;
  m_drop_handle ck handle := drop_handle channel_transact ck.1 ck.2 handle;
}.

(** ** The facade *)

Record StackReqChannel := mkReqChannel {
  rq_handle : Z;
  rq_eid : Z;
  sent_tag : option Z;
  rq_timeout : Z;
}.

Record StackListener := mkListener { l_handle : Z; l_timeout : Z }.

Record StackRespChannel := mkRespChannel { rs_eid : Z; rs_msg_type : Z; rs_tag : Z }.

Definition with_sent_tag (t : option Z) (ch : StackReqChannel) : StackReqChannel :=
  mkReqChannel (rq_handle ch) (rq_eid ch) t (rq_timeout ch).

Section stack.
Context {C : Type} `{MctpClient C}.

Definition stack_req (c : C) (eid timeout_millis : Z) : C * result StackReqChannel MctpError :=
  let '(c, r) := m_req c eid in
  (c, map_ok (λ handle, mkReqChannel handle eid None timeout_millis) r).

Definition stack_listener (c : C) (msg_type timeout_millis : Z) :
    C * result StackListener MctpError :=
  let '(c, r) := m_listener c msg_type in
  (c, map_ok (λ handle, mkListener handle timeout_millis) r).

(** [StackReqChannel::send]. *)
Definition req_send (c : C) (ch : StackReqChannel) (msg_type : Z) (buf : list Z) :
    C * StackReqChannel * result unit MctpError :=
  match sent_tag ch with
  | Some _ => (c, ch, Err (from_code BadArgument))
  | None =>
      let '(c, r) := m_send c (Some (rq_handle ch)) msg_type None None false buf in
      match r with
      | Err e => (c, ch, Err e)
      | Ok tag => (c, with_sent_tag (Some tag) ch, Ok ())
      end
  end.

(** [StackReqChannel::recv]: the buffer, and on success the metadata and
    [&mut buf[..len]]. *)
Definition req_recv (c : C) (ch : StackReqChannel) (buf : list Z) :
    option (C * StackReqChannel * list Z * result (RecvMetadata * list Z) MctpError) :=
  match sent_tag ch with
  | None => Some (c, ch, buf, Err (from_code BadArgument))
  | Some _ =>
      let '(c, buf, r) := m_recv c (rq_handle ch) (rq_timeout ch) buf in
      match r with
      | Err e => Some (c, ch, buf, Err e)
      | Ok meta =>
          payload ← slice_to buf (payload_size meta);
          Some (c, with_sent_tag None ch, buf, Ok (meta, payload))
      end
  end.

Definition req_drop (c : C) (ch : StackReqChannel) : C := m_drop_handle c (rq_handle ch).

Definition set_timeout (l : StackListener) (timeout_millis : Z) : StackListener :=
  mkListener (l_handle l) timeout_millis.

(** [StackListener::recv]. *)
Definition listener_recv (c : C) (l : StackListener) (buf : list Z) :
    option (C * list Z * result (RecvMetadata * list Z * StackRespChannel) MctpError) :=
  let '(c, buf, r) := m_recv c (l_handle l) (l_timeout l) buf in
  match r with
  | Err e => Some (c, buf, Err e)
  | Ok meta =>
      let resp := mkRespChannel (remote_eid meta) (msg_type meta) (msg_tag meta) in
      payload ← slice_to buf (payload_size meta);
      Some (c, buf, Ok (meta, payload, resp))
  end.

Definition listener_drop (c : C) (l : StackListener) : C := m_drop_handle c (l_handle l).

(** [StackRespChannel::send]. *)
Definition resp_send (c : C) (resp : StackRespChannel) (buf : list Z) :
    C * result unit MctpError :=
  let '(c, r) := m_send c None (rs_msg_type resp) (Some (rs_eid resp)) (Some (rs_tag resp))
                   false buf in
  (c, map_ok (λ _, ()) r).

(** ** Echo *)

Definition ECHO_MSG_TYPE : Z := 1.
Definition ECHO_EID : Z := 8.
Definition ECHO_BUF : nat := 255.
(** [b"echo_test"]. *)
Definition ECHO_TEST : list Z := [101; 99; 104; 111; 95; 116; 101; 115; 116].

Definition prepare_listener_with_eid_and_timeout (c : C) (eid timeout_millis : Z) :
    C * result StackListener MctpError :=
  let '(c, r) := m_set_eid c eid in
  match r with
  | Err e => (c, Err e)
  | Ok _ => stack_listener c ECHO_MSG_TYPE timeout_millis
  end.

Definition prepare_listener (c : C) : C * result StackListener MctpError :=
  prepare_listener_with_eid_and_timeout c ECHO_EID 0.

Definition echo_once (c : C) (l : StackListener) (buf : list Z) :
    option (C * list Z * result unit MctpError) :=
  '(c, buf, r) ← listener_recv c l buf;
  match r with
  | Err e => Some (c, buf, Err e)
  | Ok (_, msg, resp) => let '(c, r) := resp_send c resp msg in Some (c, buf, r)
  end.

(** A turn of the loop of [run]: results are not looked at, but for logging. *)
Definition echo_turn (c : C) (l : StackListener) (buf : list Z) : option (C * list Z) :=
  '(c, buf, r) ← listener_recv c l buf;
  match r with
  | Err _ => Some (c, buf)
  | Ok (_, msg, resp) => Some ((resp_send c resp msg).1, buf)
  end.

(** A test message to the peer: opened, sent, awaited and dropped.  Whether a
    response came; [false] when no channel could be opened. *)
Definition peer_exchange (c : C) (peer_eid timeout_millis : Z) (buf : list Z) :
    option (C * list Z * bool) :=
  let '(c, r) := stack_req c peer_eid timeout_millis in
  match r with
  | Err _ => Some (c, buf, false)
  | Ok req =>
      let '(c, req, _) := req_send c req ECHO_MSG_TYPE ECHO_TEST in
      '(c, req, buf, r) ← req_recv c req buf;
      Some (req_drop c req, buf, match r with Ok _ => true | Err _ => false end)
  end.

(** Where [run_with_peer_round_trip_limit] is: before its first round trip, or
    counting. *)
Inductive PeerPhase := Warmup | Steady (iteration completed_round_trips : Z).

Definition send_interval : Z := 10.

(** One iteration of either loop. *)
Definition peer_turn (max_round_trips peer_eid : Z) (c : C) (l : StackListener) (buf : list Z)
    (ph : PeerPhase) : option (C * list Z * PeerPhase) :=
  match ph with
  | Warmup =>
      '(c, buf) ← echo_turn c l buf;
      '(c, buf, ok) ← peer_exchange c peer_eid 10000 buf;
      Some (c, buf, if ok : bool then Steady 0 1 else Warmup)
  | Steady iteration completed =>
      let iteration := as_u32 (iteration + 1) in
      '(c, buf, completed) ←
        (if (iteration mod send_interval =? 0) && (completed <? max_round_trips) then
           '(c, buf, ok) ← peer_exchange c peer_eid 100 buf;
           Some (c, buf, if ok : bool then saturating_add u32_MAX completed 1 else completed)
         else Some (c, buf, completed));
      '(c, buf) ← echo_turn c l buf;
      Some (c, buf, Steady iteration completed)
  end.

(** [n] iterations. *)
Fixpoint peer_run (max_round_trips peer_eid : Z) (n : nat) (c : C) (l : StackListener)
    (buf : list Z) (ph : PeerPhase) : option (C * list Z * PeerPhase) :=
  match n with
  | O => Some (c, buf, ph)
  | S n =>
      '(c, buf, ph) ← peer_turn max_round_trips peer_eid c l buf ph;
      peer_run max_round_trips peer_eid n c l buf ph
  end.

(** Calls on a request channel. *)
Inductive ReqOp := ReqSend (msg_type : Z) (buf : list Z) | ReqRecv (buf : list Z).

Definition run_req_op (c : C) (ch : StackReqChannel) (op : ReqOp) :
    option (C * StackReqChannel * result unit MctpError) :=
  match op with
  | ReqSend typ buf => Some (req_send c ch typ buf)
  | ReqRecv buf =>
      '(c, ch, _, r) ← req_recv c ch buf; Some (c, ch, map_ok (λ _, ()) r)
  end.
End stack.

(** ** Request channels *)

Section channel.
Context {C : Type} `{MctpClient C}.

(** The client calls that succeed, sends as [true] and receives as [false], up
    to the end or a panic. *)
Fixpoint req_trace (c : C) (ch : StackReqChannel) (ops : list ReqOp) : list bool :=
  match ops with
  | [] => []
  | op :: ops =>
      match run_req_op c ch op with
      | None => []
      | Some (c, ch, r) =>
          match r with
          | Ok _ => (if op is ReqSend _ _ then true else false) :: req_trace c ch ops
          | Err _ => req_trace c ch ops
          end
      end
  end.

(** The next event is a send iff no request is waiting. *)
Fixpoint alternates (waiting : bool) (tr : list bool) : Prop :=
  match tr with
  | [] => True
  | ev :: tr => ev = negb waiting ∧ alternates ev tr
  end.

Definition waiting (ch : StackReqChannel) : bool :=
  match sent_tag ch with Some _ => true | None => false end.

Lemma run_req_op_waiting (c : C) ch op c' ch' r :
  run_req_op c ch op = Some (c', ch', r) →
  rq_handle ch' = rq_handle ch ∧ rq_eid ch' = rq_eid ch ∧
  match r with
  | Ok _ => waiting ch = negb (waiting ch') ∧ waiting ch' = (if op is ReqSend _ _ then true else false)
  | Err _ => waiting ch' = waiting ch
  end.
Proof.
  unfold waiting. destruct op as [typ buf|buf]; simpl.
  - unfold req_send. intros [= Hr]. destruct (sent_tag ch) as [t|] eqn:Ht.
    { simplify_eq. by rewrite Ht. }
    destruct (m_send _ _ _ _ _ _ _) as [c1 [t|e]]; simplify_eq/=; [done|]. by rewrite Ht.
  - unfold req_recv. destruct (sent_tag ch) as [t|] eqn:Ht; simpl.
    2: { intros [= <- <- <-]. simpl. by rewrite Ht. }
    destruct (m_recv _ _ _ _) as [[c1 buf1] [meta|e]]; simpl.
    + destruct (slice_to _ _); simpl; [|done]. by intros [= <- <- <-].
    + intros [= <- <- <-]. simpl. by rewrite Ht.
Qed.

(** On a request channel the successful client calls alternate, a send
    first: a second send or a receive with no request out is refused. *)
Theorem request_channel_alternates (c : C) ch ops : alternates (waiting ch) (req_trace c ch ops).
Proof.
  revert c ch. induction ops as [|op ops IH]; intros c ch; simpl; [done|].
  destruct (run_req_op c ch op) as [[[c' ch'] r]|] eqn:E; [|done].
  apply run_req_op_waiting in E as (_ & _ & Hr). destruct r as [u|e].
  - destruct Hr as [Hw Hw']. split; [by rewrite Hw, Hw', negb_involutive|].
    rewrite <- Hw'. apply IH.
  - rewrite <- Hr. apply IH.
Qed.
End channel.

(** ** The echo loop *)

(** A client whose receives fit the caller's buffer, and that counts its open
    handles: [req] and [listener] open one when they succeed, [drop_handle]
    closes one. *)
Class ClientLaws (C : Type) `{MctpClient C} : Type := {
  open_handles : C → Z;
  m_recv_length c h t buf : length (m_recv c h t buf).1.2 = length buf;
  m_recv_fits c h t buf meta :
    (m_recv c h t buf).2 = Ok meta → (payload_size meta ≤ length buf)%nat;
  m_recv_handles c h t buf : open_handles (m_recv c h t buf).1.1 = open_handles c;
  m_send_handles c h ty e t ic buf :
    open_handles (m_send c h ty e t ic buf).1 = open_handles c;
  m_req_handles c eid :
    open_handles (m_req c eid).1 =
      open_handles c + match (m_req c eid).2 with Ok _ => 1 | Err _ => 0 end;
  m_listener_handles c typ :
    open_handles (m_listener c typ).1 =
      open_handles c + match (m_listener c typ).2 with Ok _ => 1 | Err _ => 0 end;
  m_drop_handles c h : open_handles (m_drop_handle c h) = open_handles c - 1;
}.

Section echo.
Context {C : Type} `{ClientLaws C}.
Implicit Types c : C.

Lemma listener_recv_fits c l buf :
  ∃ c' buf' r, listener_recv c l buf = Some (c', buf', r) ∧ length buf' = length buf ∧
    open_handles c' = open_handles c.
Proof.
  unfold listener_recv. pose proof (m_recv_length c (l_handle l) (l_timeout l) buf) as Hl.
  pose proof (m_recv_fits c (l_handle l) (l_timeout l) buf) as Hf.
  pose proof (m_recv_handles c (l_handle l) (l_timeout l) buf) as Ho.
  destruct (m_recv _ _ _ _) as [[c1 buf1] [meta|e]]; simpl in *; [|by eexists _, _, _].
  specialize (Hf meta eq_refl). rewrite slice_to_Some by lia. by eexists _, _, _.
Qed.

Lemma echo_turn_keeps c l buf :
  ∃ c' buf', echo_turn c l buf = Some (c', buf') ∧ length buf' = length buf ∧
    open_handles c' = open_handles c.
Proof.
  unfold echo_turn. destruct (listener_recv_fits c l buf) as (c1 & buf1 & r & -> & Hl & Ho).
  cbn [mbind option_bind]. destruct r as [[[meta msg] resp]|e]; [|by eexists _, _].
  eexists _, _. split; [done|]. split; [done|]. unfold resp_send.
  pose proof (m_send_handles c1 None (rs_msg_type resp) (Some (rs_eid resp)) (Some (rs_tag resp))
    false msg) as Hs.
  destruct (m_send _ _ _ _ _ _ _) as [c2 r2]. simpl in *. congruence.
Qed.

Lemma req_recv_keeps c ch buf :
  ∃ c' ch' buf' r, req_recv c ch buf = Some (c', ch', buf', r) ∧ length buf' = length buf ∧
    open_handles c' = open_handles c.
Proof.
  unfold req_recv. destruct (sent_tag ch); [|by eexists _, _, _, _].
  pose proof (m_recv_length c (rq_handle ch) (rq_timeout ch) buf) as Hl.
  pose proof (m_recv_fits c (rq_handle ch) (rq_timeout ch) buf) as Hf.
  pose proof (m_recv_handles c (rq_handle ch) (rq_timeout ch) buf) as Ho.
  destruct (m_recv _ _ _ _) as [[c1 buf1] [meta|e]]; simpl in *; [|by eexists _, _, _, _].
  specialize (Hf meta eq_refl). rewrite slice_to_Some by lia. by eexists _, _, _, _.
Qed.

Lemma peer_exchange_keeps c eid timeout buf :
  ∃ c' buf' ok, peer_exchange c eid timeout buf = Some (c', buf', ok) ∧ length buf' = length buf ∧
    open_handles c' = open_handles c.
Proof.
  unfold peer_exchange, stack_req. pose proof (m_req_handles c eid) as Hr.
  destruct (m_req c eid) as [c1 [h|e]]; simpl in *; cycle 1.
  { eexists _, _, _. split; [done|]. split; [done|lia]. }
  unfold req_send. simpl.
  pose proof (m_send_handles c1 (Some h) ECHO_MSG_TYPE None None false ECHO_TEST) as Hs.
  destruct (m_send _ _ _ _ _ _ _) as [c2 r2]. simpl in Hs.
  assert (∀ ch, ∃ c' buf' ok,
    ('(c, req, buf, r) ← req_recv c2 ch buf;
     Some (req_drop c req, buf, match r with Ok _ => true | Err _ => false end)) =
      Some (c', buf', ok) ∧ length buf' = length buf ∧ open_handles c' = open_handles c) as Hend.
  { intros ch. destruct (req_recv_keeps c2 ch buf) as (c3 & ch' & buf' & r & -> & Hl & Ho).
    eexists _, _, _. split; [done|]. split; [done|]. unfold req_drop. rewrite m_drop_handles. lia. }
  destruct r2; apply Hend.
Qed.

(** The round trips counted so far respect the limit. *)
Definition phase_ok (max_round_trips : Z) (ph : PeerPhase) : Prop :=
  match ph with
  | Warmup => True
  | Steady _ completed => 1 ≤ completed ≤ Z.max 1 max_round_trips
  end.

Lemma peer_turn_keeps max eid c l buf ph :
  phase_ok max ph →
  ∃ c' buf' ph', peer_turn max eid c l buf ph = Some (c', buf', ph') ∧
    length buf' = length buf ∧ open_handles c' = open_handles c ∧ phase_ok max ph'.
Proof.
  intros Hph. destruct ph as [|it n]; simpl in *.
  - destruct (echo_turn_keeps c l buf) as (c1 & buf1 & -> & Hl1 & Ho1). cbn [mbind option_bind].
    destruct (peer_exchange_keeps c1 eid 10000 buf1) as (c2 & buf2 & ok & -> & Hl2 & Ho2).
    eexists _, _, _. split; [done|]. split; [congruence|]. split; [congruence|].
    destruct ok; simpl; lia.
  - assert (∀ c1 buf1 m, length buf1 = length buf → open_handles c1 = open_handles c →
      1 ≤ m ≤ Z.max 1 max → ∃ c' buf' ph',
      ('(c, buf) ← echo_turn c1 l buf1; Some (c, buf, Steady (as_u32 (it + 1)) m)) =
        Some (c', buf', ph') ∧ length buf' = length buf ∧ open_handles c' = open_handles c ∧
        phase_ok max ph') as Hend.
    { intros c1 buf1 m Hl1 Ho1 Hm. destruct (echo_turn_keeps c1 l buf1) as (c2 & buf2 & -> & Hl2 & Ho2).
      eexists _, _, _. split; [done|]. split; [congruence|]. by split; [congruence|]. }
    destruct (_ && _) eqn:Hgo; [|by apply Hend].
    destruct (peer_exchange_keeps c eid 100 buf) as (c2 & buf2 & ok & -> & Hl2 & Ho2).
    cbn [mbind option_bind]. apply Hend; [done|done|].
    apply andb_true_iff in Hgo as [_ Hlt%Z.ltb_lt]. unfold saturating_add, u32_MAX.
    destruct ok; lia.
Qed.

(** Over a client whose receives fit the buffer the peer loop never panics,
    leaves as many handles open as it found, and counts no more round trips than
    its limit (and the first one). *)
Theorem echo_peer_run_bounded max eid n c l buf ph :
  phase_ok max ph →
  ∃ c' buf' ph', peer_run max eid n c l buf ph = Some (c', buf', ph') ∧
    length buf' = length buf ∧ open_handles c' = open_handles c ∧ phase_ok max ph'.
Proof.
  revert c buf ph. induction n as [|n IH]; intros c buf ph Hph; [by eexists _, _, _|].
  destruct (peer_turn_keeps max eid c l buf ph Hph) as (c1 & buf1 & ph1 & Ht & Hl1 & Ho1 & Hph1).
  destruct (IH c1 buf1 ph1 Hph1) as (c2 & buf2 & ph2 & Hr & Hl2 & Ho2 & Hph2).
  exists c2, buf2, ph2. cbn [peer_run]. rewrite Ht. cbn [mbind option_bind].
  split; [done|]. split; [congruence|]. by split; [congruence|].
Qed.
End echo.

(** ** Echo over the IPC client and the server *)

Section echo_served.
Context {R : Type} `{Router R} (OUTSTANDING : nat).

#[local] Instance served_client : MctpClient (IpcMctpClient * @Host R) :=
  ipc_client (serve OUTSTANDING).

(** What the listener reads from a message that is there. *)
Lemma listener_recv_served (c : IpcMctpClient) (h : @Host R) l buf r' msg :
  client_wf c → host_wf h → in_u32 (l_handle l) →
  r_recv (stack (h_server h)) (as_usize (l_handle l)) = (r', Some msg) →
  (length (m_payload msg) ≤ MAX_PAYLOAD_SIZE)%nat →
  (length (m_payload msg) ≤ length (h_recv_buf h))%nat →
  if decide (length (m_payload msg) ≤ length buf)%nat then
    ∃ c' h' buf', listener_recv (c, h) l buf =
        Some ((c', h'), buf', Ok (metadata_of msg, m_payload msg,
          mkRespChannel (m_source msg) (m_typ msg) (tag_value (m_tag msg)))) ∧
      client_wf c' ∧ host_wf h' ∧ h_server h' = with_stack r' (h_server h)
  else listener_recv (c, h) l buf = None.
Proof.
  intros Hc Hh Hhd Hr Hp Hf.
  destruct (rpc_recv OUTSTANDING c h (l_handle l) (l_timeout l) buf r' msg Hc Hh Hhd Hr Hp Hf)
    as (c' & h' & Hcall & Hc' & Hh' & Hs).
  unfold listener_recv, m_recv. cbn [served_client ipc_client fst snd]. rewrite Hcall.
  cbn [metadata_of payload_size].
  case_decide as Hfit.
  - rewrite Nat.min_l, firstn_all by lia. rewrite write_at_0, slice_to_app by done.
    cbn [mbind option_bind]. by eexists _, _, _.
  - unfold slice_to. rewrite length_write_at by (rewrite length_take; lia).
    by rewrite (proj2 (Nat.leb_gt _ _)) by lia.
Qed.

(** C22: The echo of a message that fits goes back to its sender: through the
    facade, the IPC client and the dispatcher, the router is asked to send the
    payload unchanged to the message's source, with its type and its tag, and
    [echo_once] returns what that send returned. *)
Theorem echo_answers_sender (c : IpcMctpClient) (h : @Host R) l buf r' msg :
  client_wf c → host_wf h → in_u32 (l_handle l) →
  r_recv (stack (h_server h)) (as_usize (l_handle l)) = (r', Some msg) →
  (length (m_payload msg) ≤ MAX_PAYLOAD_SIZE)%nat →
  (length (m_payload msg) ≤ length (h_recv_buf h))%nat →
  (length (m_payload msg) ≤ length buf)%nat →
  ∃ c' h' buf',
    let direct := srv_send (with_stack r' (h_server h)) None (m_typ msg) (Some (m_source msg))
      (Some (tag_value (m_tag msg))) false (m_payload msg) in
    echo_once (c, h) l buf = Some ((c', h'), buf', map_ok (λ _, ()) direct.2) ∧
    h_server h' = direct.1 ∧ client_wf c' ∧ host_wf h'.
Proof.
  intros Hc Hh Hhd Hr Hp Hf Hfit.
  pose proof (listener_recv_served c h l buf r' msg Hc Hh Hhd Hr Hp Hf) as Hl.
  rewrite decide_True in Hl by done. destruct Hl as (c1 & h1 & buf1 & Hl & Hc1 & Hh1 & Hs1).
  unfold echo_once. rewrite Hl. cbn [mbind option_bind]. unfold resp_send.
  pose proof (rpc_send OUTSTANDING c1 h1 None (m_typ msg) (Some (m_source msg))
    (Some (tag_value (m_tag msg))) false (m_payload msg) Hc1 Hh1 ltac:(done) Hp)
    as (Hres & Hsrv & Hc2 & Hh2).
  rewrite Hs1 in Hres, Hsrv. cbn [rs_msg_type rs_eid rs_tag m_send served_client ipc_client fst snd].
  destruct (client_send _ _ _ _ _ _ _ _ _) as [[c2 h2] r2]. simpl in Hres, Hsrv, Hc2, Hh2. subst r2.
  by eexists _, _, _.
Qed.

(** A message longer than the application's buffer (255 bytes in the echo
    loop) panics the application: the IPC client copies what fits and reports the
    full size, and the facade slices the buffer with it. *)
Theorem long_message_panics_echo (c : IpcMctpClient) (h : @Host R) l buf r' msg :
  client_wf c → host_wf h → in_u32 (l_handle l) →
  r_recv (stack (h_server h)) (as_usize (l_handle l)) = (r', Some msg) →
  (length (m_payload msg) ≤ MAX_PAYLOAD_SIZE)%nat →
  (length (m_payload msg) ≤ length (h_recv_buf h))%nat →
  (length buf < length (m_payload msg))%nat →
  echo_once (c, h) l buf = None ∧ echo_turn (c, h) l buf = None.
Proof.
  intros Hc Hh Hhd Hr Hp Hf Hlong.
  pose proof (listener_recv_served c h l buf r' msg Hc Hh Hhd Hr Hp Hf) as Hl.
  rewrite decide_False in Hl by lia. unfold echo_once, echo_turn. by rewrite Hl.
Qed.
End echo_served.

(** ** Witnesses *)

Lemma echo_answers_sender_witness :
  ∃ c' h' buf',
    echo_once (H := served_client 4) (IpcMctpClient_new 1, ex_host) (mkListener 4 0)
      (replicate ECHO_BUF 0) = Some ((c', h'), buf',
        map_ok (λ _, ()) (srv_send (with_stack [] (h_server ex_host)) None 5 (Some 9)
          (Some 2) false [7; 8; 9]).2).
Proof.
  destruct (echo_answers_sender 4 (IpcMctpClient_new 1) ex_host (mkListener 4 0)
    (replicate ECHO_BUF 0) [] (ex_message [7; 8; 9])) as (c' & h' & buf' & He & _).
  - apply client_new_wf.
  - apply ex_host_wf.
  - unfold in_u32, u32_MAX. simpl. lia.
  - reflexivity.
  - unfold MAX_PAYLOAD_SIZE. simpl. lia.
  - cbn [h_recv_buf ex_host]. rewrite length_replicate. simpl. lia.
  - rewrite length_replicate. unfold ECHO_BUF. simpl. lia.
  - exists c', h', buf'. exact He.
Defined.

Definition long_host : @Host (list (nat * MctpMessage)) :=
  {| h_server := {| stack := [(4%nat, ex_message (replicate 300 1))]; outstanding := [] |};
     h_recv_buf := replicate 1023 0; h_response := replicate MAX_RESPONSE_SIZE 0; h_now := 0 |}.

Lemma long_message_panics_echo_witness :
  echo_turn (H := served_client 4) (IpcMctpClient_new 1, long_host) (mkListener 4 0)
    (replicate ECHO_BUF 0) = None.
Proof.
  apply (long_message_panics_echo 4 (IpcMctpClient_new 1) long_host (mkListener 4 0)
    (replicate ECHO_BUF 0) [] (ex_message (replicate 300 1))).
  - apply client_new_wf.
  - unfold host_wf. cbn [h_response long_host]. by rewrite length_replicate.
  - unfold in_u32, u32_MAX. simpl. lia.
  - reflexivity.
  - unfold ex_message. cbn [m_payload]. rewrite length_replicate. unfold MAX_PAYLOAD_SIZE. lia.
  - unfold ex_message. cbn [m_payload h_recv_buf long_host]. rewrite !length_replicate. lia.
  - unfold ex_message. cbn [m_payload]. rewrite !length_replicate. unfold ECHO_BUF. lia.
Defined.

(** A client with an inbox: a receive takes a message that fits. *)
Record inbox_client := mkInbox { in_open : Z; inbox : list (list Z) }.

#[local] Instance inbox_client_ops : MctpClient inbox_client := {
  m_req c eid := (mkInbox (in_open c + 1) (inbox c), Ok (in_open c));
  m_listener c _ := (mkInbox (in_open c + 1) (inbox c), Ok (in_open c));
  m_get_eid c := (c, ECHO_EID);
  m_set_eid c _ := (c, Ok ());
  m_recv c _ _ buf :=
    match inbox c with
    | [] => (c, buf, Err (from_code CodeTimedOut))
    | m :: ms =>
        if (length m <=? length buf)%nat
        then (mkInbox (in_open c) ms, write_at 0 m buf, Ok (mkMetadata 1 false 0 9 (length m)))
        else (mkInbox (in_open c) ms, buf, Err (from_code InternalError))
    end;
  m_send c _ _ _ _ _ _ := (c, Ok 0);
  m_drop_handle c _ := mkInbox (in_open c - 1) (inbox c);
}.

#[local] Instance inbox_client_laws : ClientLaws inbox_client.
Proof.
  refine {| open_handles := in_open |}; intros c; try done; simpl.
  - intros _ _ buf. destruct (inbox c) as [|m ms]; [done|]. simpl.
    destruct (Nat.leb_spec (length m) (length buf)); [|done]. apply length_write_at. lia.
  - intros _ _ buf meta. destruct (inbox c) as [|m ms]; [done|]. simpl.
    destruct (Nat.leb_spec (length m) (length buf)); [|done]. intros [= <-]. done.
  - intros _ _ buf. destruct (inbox c) as [|m ms]; [done|]. by destruct (_ <=? _)%nat.
Defined.

Lemma echo_peer_run_bounded_witness :
  ∃ c' buf' ph', peer_run 3 9 40 (mkInbox 1 [[1; 2]; [3]; replicate 300 0; [4]]) (mkListener 0 0)
      (replicate ECHO_BUF 0) Warmup = Some (c', buf', ph') ∧
    length buf' = ECHO_BUF ∧ open_handles c' = 1 ∧ phase_ok 3 ph'.
Proof.
  destruct (echo_peer_run_bounded 3 9 40 (mkInbox 1 [[1; 2]; [3]; replicate 300 0; [4]])
    (mkListener 0 0) (replicate ECHO_BUF 0) Warmup I) as (c' & buf' & ph' & Hr & Hl & Ho & Hp).
  exists c', buf', ph'. split; [exact Hr|]. rewrite Hl, length_replicate. done.
Defined.
