(* ===== verification/I2cWire.v ===== *)
(** * The I2C wire protocol

    [services/i2c/api/src/protocol.rs] and [services/i2c/api/src/seam.rs]: the
    operations, status codes and headers of the I2C userspace driver, and the
    maps between status codes and the [ErrorKind] of [embedded_hal].

    A packed header holds its integers as fields; [as_bytes] of [zerocopy] is its
    byte image, [Ref::from_bytes] the partial inverse on a slice of exactly the
    header's size. *)

From S2P Require Import Prelude Bytes.
From stdpp Require Import base tactics list numbers.
Local Open Scope Z_scope.

Definition MAX_PAYLOAD_SIZE : nat := 256.
Definition MAX_OPS : nat := 16.

(** ** Status codes *)

Inductive I2cError :=
| InvalidOperation | BufferTooSmall | TooManyOperations | AddressNack | DataNack | Nack
| ArbitrationLoss | Bus | Overrun | Timeout | NoData | InternalError.
#[export] Instance I2cError_eq_dec : EqDecision I2cError.
Proof. solve_decision. Defined.

(** [err as u8]. *)
Definition error_u8 (e : I2cError) : Z :=
  match e with
  | InvalidOperation => 1 | BufferTooSmall => 2 | TooManyOperations => 3
  | AddressNack => 4 | DataNack => 5 | Nack => 6 | ArbitrationLoss => 7
  | Bus => 8 | Overrun => 9 | Timeout => 10 | NoData => 11 | InternalError => 255
  end.

(** [I2cError::from]. *)
Definition error_from (value : Z) : I2cError :=
  match value with
  | 1 => InvalidOperation | 2 => BufferTooSmall | 3 => TooManyOperations
  | 4 => AddressNack | 5 => DataNack | 6 => Nack | 7 => ArbitrationLoss
  | 8 => Bus | 9 => Overrun | 10 => Timeout | 11 => NoData | _ => InternalError
  end.

(** ** Operations *)

Inductive I2cOp :=
| Transaction | ConfigureSlave | EnableSlave | DisableSlave | EnableSlaveNotification
| DisableSlaveNotification | SlaveReceive | SlaveSetResponse.
#[export] Instance I2cOp_eq_dec : EqDecision I2cOp.
Proof. solve_decision. Defined.

Definition op_u8 (op : I2cOp) : Z :=
  match op with
  | Transaction => 1 | ConfigureSlave => 2 | EnableSlave => 3 | DisableSlave => 4
  | EnableSlaveNotification => 5 | DisableSlaveNotification => 6 | SlaveReceive => 7
  | SlaveSetResponse => 8
  end.

(** [I2cOp::try_from]. *)
Definition op_try_from (value : Z) : result I2cOp I2cError :=
  match value with
  | 1 => Ok Transaction | 2 => Ok ConfigureSlave | 3 => Ok EnableSlave
  | 4 => Ok DisableSlave | 5 => Ok EnableSlaveNotification
  | 6 => Ok DisableSlaveNotification | 7 => Ok SlaveReceive | 8 => Ok SlaveSetResponse
  | _ => Err InvalidOperation
  end.

Inductive SlaveEvent := DataReceived | ReadRequest | Stop.
#[export] Instance SlaveEvent_eq_dec : EqDecision SlaveEvent.
Proof. solve_decision. Defined.

Definition event_u8 (e : SlaveEvent) : Z :=
  match e with DataReceived => 0 | ReadRequest => 1 | Stop => 2 end.

(** [SlaveEvent::try_from]. *)
Definition event_try_from (value : Z) : result SlaveEvent I2cError :=
  match value with
  | 0 => Ok DataReceived | 1 => Ok ReadRequest | 2 => Ok Stop
  | _ => Err InvalidOperation
  end.

Inductive I2cOpKind := KindWrite | KindRead.

Definition kind_u8 (k : I2cOpKind) : Z := match k with KindWrite => 0 | KindRead => 1 end.

(** [I2cOpKind::try_from]. *)
Definition kind_try_from (value : Z) : result I2cOpKind I2cError :=
  match value with
  | 0 => Ok KindWrite | 1 => Ok KindRead | _ => Err InvalidOperation
  end.

(** ** Headers *)

Record I2cRequestHeader := mkRequestHeader {
  op_code : Z;
  flags : Z;
  address : Z;
  op_count : Z;
  payload_len : Z;
}.

Definition REQ_SIZE : nat := 8.

Definition I2cRequestHeader_new (op : I2cOp) (address op_count payload_len : Z) :
    I2cRequestHeader :=
  {| op_code := op_u8 op; flags := 0; address := address; op_count := op_count;
     payload_len := payload_len |}.

Definition request_as_bytes (h : I2cRequestHeader) : list Z :=
  [op_code h; flags h] ++ u16_to_le_bytes (address h) ++ u16_to_le_bytes (op_count h) ++
  u16_to_le_bytes (payload_len h).

Definition request_from_bytes (bytes : list Z) : option I2cRequestHeader :=
  match bytes with
  | [b0; b1; b2; b3; b4; b5; b6; b7] =>
      Some {| op_code := b0; flags := b1; address := u16_from_le_bytes b2 b3;
              op_count := u16_from_le_bytes b4 b5; payload_len := u16_from_le_bytes b6 b7 |}
  | _ => None
  end.

Definition operation (h : I2cRequestHeader) : result I2cOp I2cError := op_try_from (op_code h).
Definition address_value (h : I2cRequestHeader) : Z := address h.
Definition op_count_value (h : I2cRequestHeader) : nat := as_usize (op_count h).

Record I2cOpDesc := mkOpDesc { d_kind : Z; d_reserved : Z; d_len : Z }.

Definition DESC_SIZE : nat := 4.

Definition I2cOpDesc_new (kind : I2cOpKind) (len : Z) : I2cOpDesc :=
  {| d_kind := kind_u8 kind; d_reserved := 0; d_len := len |}.

Definition desc_as_bytes (d : I2cOpDesc) : list Z :=
  [d_kind d; d_reserved d] ++ u16_to_le_bytes (d_len d).

Definition desc_from_bytes (bytes : list Z) : option I2cOpDesc :=
  match bytes with
  | [b0; b1; b2; b3] =>
      Some {| d_kind := b0; d_reserved := b1; d_len := u16_from_le_bytes b2 b3 |}
  | _ => None
  end.

Definition desc_op_kind (d : I2cOpDesc) : result I2cOpKind I2cError := kind_try_from (d_kind d).
Definition desc_length (d : I2cOpDesc) : nat := as_usize (d_len d).

Record I2cResponseHeader := mkResponseHeader { status : Z; reserved : Z; resp_payload_len : Z }.

Definition RESP_SIZE : nat := 4.

Definition response_success (payload_len : Z) : I2cResponseHeader :=
  {| status := 0; reserved := 0; resp_payload_len := payload_len |}.
Definition response_error (error : I2cError) : I2cResponseHeader :=
  {| status := error_u8 error; reserved := 0; resp_payload_len := 0 |}.

Definition response_as_bytes (h : I2cResponseHeader) : list Z :=
  [status h; reserved h] ++ u16_to_le_bytes (resp_payload_len h).

Definition response_from_bytes (bytes : list Z) : option I2cResponseHeader :=
  match bytes with
  | [b0; b1; b2; b3] =>
      Some {| status := b0; reserved := b1; resp_payload_len := u16_from_le_bytes b2 b3 |}
  | _ => None
  end.

Definition is_success (h : I2cResponseHeader) : bool := status h =? 0.
Definition error_code (h : I2cResponseHeader) : option I2cError :=
  if is_success h then None else Some (error_from (status h)).
Definition payload_length (h : I2cResponseHeader) : nat := as_usize (resp_payload_len h).

(** ** The seam: [ErrorKind] of [embedded_hal::i2c] *)

Inductive NoAcknowledgeSource := SrcAddress | SrcData | SrcUnknown.
#[export] Instance NoAcknowledgeSource_eq_dec : EqDecision NoAcknowledgeSource.
Proof. solve_decision. Defined.

Inductive ErrorKind :=
| KBus | KArbitrationLoss | KNoAcknowledge (src : NoAcknowledgeSource) | KOverrun | KOther.
#[export] Instance ErrorKind_eq_dec : EqDecision ErrorKind.
Proof. solve_decision. Defined.

Definition error_kind (err : I2cError) : ErrorKind :=
  match err with
  | AddressNack => KNoAcknowledge SrcAddress
  | DataNack => KNoAcknowledge SrcData
  | Nack => KNoAcknowledge SrcUnknown
  | ArbitrationLoss => KArbitrationLoss
  | Bus => KBus
  | Overrun => KOverrun
  | _ => KOther
  end.

(** [kind_to_wire] of [services/i2c/server/src/lib.rs]. *)
Definition kind_to_wire (kind : ErrorKind) : I2cError :=
  match kind with
  | KNoAcknowledge SrcAddress => AddressNack
  | KNoAcknowledge SrcData => DataNack
  | KNoAcknowledge _ => Nack
  | KArbitrationLoss => ArbitrationLoss
  | KBus => Bus
  | KOverrun => Overrun
  | _ => InternalError
  end.

(** ** Lemmas *)

Lemma error_kind_to_wire k : error_kind (kind_to_wire k) = k.
Proof. by destruct k as [| |[]| |]. Qed.

Lemma error_from_u8 e : error_from (error_u8 e) = e.
Proof. by destruct e. Qed.

Lemma error_u8_pos e : error_u8 e ≠ 0.
Proof. by destruct e. Qed.

Lemma op_try_from_u8 op : op_try_from (op_u8 op) = Ok op.
Proof. by destruct op. Qed.

Lemma event_try_from_u8 e : event_try_from (event_u8 e) = Ok e.
Proof. by destruct e. Qed.

(** The fields of a request header are within their types. *)
Definition request_ok (h : I2cRequestHeader) : Prop :=
  in_u16 (address h) ∧ in_u16 (op_count h) ∧ in_u16 (payload_len h).

Lemma i2c_request_roundtrip h : request_ok h → request_from_bytes (request_as_bytes h) = Some h.
Proof.
  intros (? & ? & ?). destruct h. unfold request_as_bytes, u16_to_le_bytes. simpl in *.
  by rewrite !u16_le_roundtrip.
Qed.

Lemma desc_roundtrip d : in_u16 (d_len d) → desc_from_bytes (desc_as_bytes d) = Some d.
Proof.
  intros ?. destruct d. unfold desc_as_bytes, u16_to_le_bytes. simpl in *.
  by rewrite u16_le_roundtrip.
Qed.

Lemma i2c_response_roundtrip h :
  in_u16 (resp_payload_len h) → response_from_bytes (response_as_bytes h) = Some h.
Proof.
  intros ?. destruct h. unfold response_as_bytes, u16_to_le_bytes. simpl in *.
  by rewrite u16_le_roundtrip.
Qed.

Lemma length_i2c_request h : length (request_as_bytes h) = REQ_SIZE.
Proof. done. Qed.
Lemma length_desc_as_bytes d : length (desc_as_bytes d) = DESC_SIZE.
Proof. done. Qed.
Lemma length_i2c_response h : length (response_as_bytes h) = RESP_SIZE.
Proof. done. Qed.
#[export] Hint Rewrite length_i2c_request length_desc_as_bytes length_i2c_response
  : bytes.

(** Slices of the right size always parse. *)
Lemma request_from_bytes_is_Some bytes :
  length bytes = REQ_SIZE → is_Some (request_from_bytes bytes).
Proof. intros Hl. do 9 (destruct bytes as [|? bytes]; try done); eauto. Qed.

Lemma desc_from_bytes_is_Some bytes :
  length bytes = DESC_SIZE → is_Some (desc_from_bytes bytes).
Proof. intros Hl. do 5 (destruct bytes as [|? bytes]; try done); eauto. Qed.
