(* ===== verification/I2cServer.v ===== *)
(** * The I2C server's dispatch

    [services/i2c/server/src/lib.rs] and [services/i2c/server/src/slave.rs]: one
    wire request is decoded, replayed on the bus as one transaction, and
    answered.  The bus is any implementation of [embedded_hal::i2c::I2c], here
    the type class [I2c]; the target side is the type class [I2cSlaveCore].

    [None] is a panic. *)

From S2P Require Import Prelude Bytes I2cWire.
From stdpp Require Import base tactics option list numbers.
Local Open Scope Z_scope.

(** ** The bus *)

(** [embedded_hal::i2c::Operation]: the bytes to write, or the slice to fill. *)
Inductive Operation := OpWrite (data : list Z) | OpRead (buf : list Z).
#[export] Instance Operation_eq_dec : EqDecision Operation.
Proof. solve_decision. Defined.

(** [I2c<SevenBitAddress>]: a transaction may fill the read slices it was lent,
    and fails with an error of some kind. *)
Class I2c (B : Type) : Type :=
  transaction : B → Z → list Operation → B * list Operation * result unit ErrorKind.

(** What a slice can become: a write slice is shared, a read slice keeps its
    length. *)
Definition op_lent (o o' : Operation) : Prop :=
  match o, o' with
  | OpWrite d, OpWrite d' => d = d'
  | OpRead b, OpRead b' => length b = length b'
  | _, _ => False
  end.

(** A bus leaves the operations it was lent in place, of the same length. *)
Class I2cLaws (B : Type) `{I2c B} : Prop :=
  transaction_lent b a ops : Forall2 op_lent ops (transaction b a ops).1.2.

Definition write_of (o : Operation) : option (list Z) :=
  match o with OpWrite d => Some d | OpRead _ => None end.
Definition read_of (o : Operation) : option (list Z) :=
  match o with OpRead b => Some b | OpWrite _ => None end.

(** The write slices, and the read slices, in operation order. *)
Definition write_data (ops : list Operation) : list Z := concat (omap write_of ops).
Definition read_data (ops : list Operation) : list Z := concat (omap read_of ops).

(** ** Replies *)

(** [encode_error] and [encode_ok]: the response buffer and its length. *)
Definition encode_error (response : list Z) (err : I2cError) : option (list Z * nat) :=
  response ← copy_into 0 (response_as_bytes (response_error err)) response;
  Some (response, RESP_SIZE).

Definition encode_ok (response : list Z) (payload_len : nat) : option (list Z * nat) :=
  response ← copy_into 0
    (response_as_bytes (response_success (as_u16 (Z.of_nat payload_len)))) response;
  Some (response, (RESP_SIZE + payload_len)%nat).

(** ** Decoding *)

(** The first pass over the descriptors: [n] are left from the [i]th on;
    [(is_read, len)] pairs and the two totals. *)
Fixpoint scan_descs (request : list Z) (i n : nat) (meta : list (bool * nat))
    (write_total read_total : nat) :
    option (result (list (bool * nat) * nat * nat) I2cError) :=
  match n with
  | O => Some (Ok (meta, write_total, read_total))
  | S n =>
      let off := (REQ_SIZE + i * DESC_SIZE)%nat in
      bytes ← slice_range request off (off + DESC_SIZE);
      match desc_from_bytes bytes with
      | None => Some (Err InvalidOperation)
      | Some desc =>
          let len := desc_length desc in
          match desc_op_kind desc with
          | Ok KindWrite =>
              scan_descs request (S i) n (meta ++ [(false, len)]) (write_total + len) read_total
          | Ok KindRead =>
              scan_descs request (S i) n (meta ++ [(true, len)]) write_total (read_total + len)
          | Err _ => Some (Err InvalidOperation)
          end
      end
  end.

(** The second pass: the operations, write data borrowed from the request, read
    slices carved from the scratch. *)
Fixpoint build_ops (request : list Z) (meta : list (bool * nat)) (w_off : nat)
    (read_rem : list Z) : option (list Operation) :=
  match meta with
  | [] => Some []
  | (true, len) :: meta =>
      '(head, tail) ← split_at read_rem len;
      ops ← build_ops request meta w_off tail;
      Some (OpRead head :: ops)
  | (false, len) :: meta =>
      data ← slice_range request w_off (w_off + len);
      ops ← build_ops request meta (w_off + len) read_rem;
      Some (OpWrite data :: ops)
  end.

Section dispatch.
Context {B : Type} `{I2c B}.

(** A refused request: the bus is not touched. *)
Definition refuse (bus : B) (response : list Z) (e : I2cError) : option (B * list Z * nat) :=
  '(response, n) ← encode_error response e; Some (bus, response, n).

(** From the validated operations on: the transaction and its answer.  The read
    slices partition [read_scratch[..read_total]], so after the transaction the
    scratch is their concatenation. *)
Definition run_ops (bus : B) (addr : Z) (ops : list Operation) (read_total : nat)
    (response : list Z) : option (B * list Z * nat) :=
  let '(bus, ops, r) := transaction bus addr ops in
  match r with
  | Err kind => refuse bus response (kind_to_wire kind)
  | Ok _ =>
      response ← copy_into 0
        (response_as_bytes (response_success (as_u16 (Z.of_nat read_total)))) response;
      data ← slice_to (read_data ops) read_total;
      response ← copy_into RESP_SIZE data response;
      Some (bus, response, (RESP_SIZE + read_total)%nat)
  end.

(** The bus, the response buffer and the length of the response. *)
Definition dispatch (bus : B) (request response : list Z) : option (B * list Z * nat) :=
  if (length request <? REQ_SIZE)%nat then refuse bus response InvalidOperation
  else
    hdr_bytes ← slice_to request REQ_SIZE;
    match request_from_bytes hdr_bytes with
    | None => refuse bus response InvalidOperation
    | Some hdr =>
        if negb (bool_decide (operation hdr = Ok Transaction))
        then refuse bus response InvalidOperation
        else
          let address := as_u8 (address_value hdr) in
          let op_count := op_count_value hdr in
          if (MAX_OPS <? op_count)%nat then refuse bus response TooManyOperations
          else
            let desc_bytes := (op_count * DESC_SIZE)%nat in
            if (length request <? REQ_SIZE + desc_bytes)%nat
            then refuse bus response BufferTooSmall
            else
              let write_base := (REQ_SIZE + desc_bytes)%nat in
              scanned ← scan_descs request 0 op_count [] 0 0;
              match scanned with
              | Err e => refuse bus response e
              | Ok (op_meta, write_total, read_total) =>
                  if (MAX_PAYLOAD_SIZE <? write_total)%nat
                     || (MAX_PAYLOAD_SIZE <? read_total)%nat
                     || (length request <? write_base + write_total)%nat
                     || (length response <? RESP_SIZE + read_total)%nat
                  then refuse bus response BufferTooSmall
                  else
                    scratch ← slice_to (replicate MAX_PAYLOAD_SIZE 0) read_total;
                    ops ← build_ops request op_meta write_base scratch;
                    run_ops bus address ops read_total response
              end
    end.
End dispatch.

(** ** The target side *)

(** [I2cSlaveCore<SevenBitAddress>]: the calls [dispatch_slave] makes. *)
Class I2cSlaveCore (B : Type) : Type := {
  configure_slave_address : B → Z → B * result unit ErrorKind;
  enable_slave_mode : B → B * result unit ErrorKind;
  disable_slave_mode : B → B * result unit ErrorKind;
}.

Section dispatch_slave.
Context {B : Type} `{I2cSlaveCore B}.

Definition dispatch_slave (slave : B) (request response : list Z) :
    option (B * list Z * nat) :=
  if (length request <? REQ_SIZE)%nat then refuse slave response InvalidOperation
  else
    hdr_bytes ← slice_to request REQ_SIZE;
    match request_from_bytes hdr_bytes with
    | None => refuse slave response InvalidOperation
    | Some hdr =>
        let answer (br : B * result unit ErrorKind) :=
          match br.2 with
          | Ok _ => '(response, n) ← encode_ok response 0; Some (br.1, response, n)
          | Err kind => refuse br.1 response (kind_to_wire kind)
          end in
        match operation hdr with
        | Ok ConfigureSlave => answer (configure_slave_address slave (as_u8 (address_value hdr)))
        | Ok EnableSlave => answer (enable_slave_mode slave)
        | Ok DisableSlave => answer (disable_slave_mode slave)
        | _ => refuse slave response InvalidOperation
        end
    end.
End dispatch_slave.

(** Arithmetic on sizes. *)
Ltac sizes :=
  rewrite ?length_write_at; autorewrite with bytes; unfold REQ_SIZE, DESC_SIZE, RESP_SIZE in *;
  simpl in *; lia.

(** ** Lemmas: what a reply sends *)

(** The first [n] bytes of the response buffer are [w]. *)
Definition answers {B} (response : list Z) (res : option (B * list Z * nat)) (bus : B)
    (w : list Z) : Prop :=
  ∃ response', res = Some (bus, response', length w) ∧ take (length w) response' = w ∧
    length response' = length response.

Lemma refuse_answers {B} (bus : B) response e :
  (RESP_SIZE ≤ length response)%nat →
  answers response (refuse bus response e) bus (response_as_bytes (response_error e)).
Proof.
  intros Hl. unfold refuse, encode_error.
  rewrite copy_into_Some by (rewrite length_i2c_response; lia). simpl.
  eexists. split; [done|]. split; [by destruct response as [|? [|? [|? [|? ?]]]]|].
  apply (length_write_at 0). simpl. unfold RESP_SIZE in *. lia.
Qed.

(** A header with a payload behind it. *)
Lemma take_header_payload h payload response :
  length h = RESP_SIZE → (RESP_SIZE + length payload ≤ length response)%nat →
  take (RESP_SIZE + length payload) (write_at RESP_SIZE payload (write_at 0 h response)) =
    h ++ payload.
Proof.
  intros Hh Hl. rewrite take_write_at by (rewrite length_write_at; lia).
  rewrite write_at_0, take_app_length'; done.
Qed.

(** ** Lemmas: the two passes *)

Definition write_len (meta : list (bool * nat)) : nat :=
  sum_list_with (λ p : bool * nat, if p.1 then O else p.2) meta.
Definition read_len (meta : list (bool * nat)) : nat :=
  sum_list_with (λ p : bool * nat, if p.1 then p.2 else O) meta.

Definition meta_of (o : Operation) : bool * nat :=
  match o with OpWrite d => (false, length d) | OpRead b => (true, length b) end.

Lemma write_len_app m m' : write_len (m ++ m') = (write_len m + write_len m')%nat.
Proof. apply sum_list_with_app. Qed.
Lemma read_len_app m m' : read_len (m ++ m') = (read_len m + read_len m')%nat.
Proof. apply sum_list_with_app. Qed.

Lemma length_write_data ops : length (write_data ops) = write_len (meta_of <$> ops).
Proof.
  induction ops as [|[d|b] ops IH]; [done| |done].
  change (write_data (OpWrite d :: ops)) with (d ++ write_data ops).
  rewrite length_app, IH. done.
Qed.

Lemma length_read_data ops : length (read_data ops) = read_len (meta_of <$> ops).
Proof.
  induction ops as [|[d|b] ops IH]; [done|done|].
  change (read_data (OpRead b :: ops)) with (b ++ read_data ops).
  rewrite length_app, IH. done.
Qed.

Lemma lent_meta (ops ops' : list Operation) :
  Forall2 op_lent ops ops' → meta_of <$> ops' = meta_of <$> ops.
Proof.
  induction 1 as [|o o' ops ops' Ho _ IH]; [done|]. rewrite !fmap_cons, IH.
  destruct o, o'; simpl in *; try done; congruence.
Qed.

Lemma scan_descs_total request n i meta :
  (REQ_SIZE + (i + n) * DESC_SIZE ≤ length request)%nat →
  scan_descs request i n meta (write_len meta) (read_len meta) = Some (Err InvalidOperation) ∨
  ∃ meta', scan_descs request i n meta (write_len meta) (read_len meta) =
    Some (Ok (meta', write_len meta', read_len meta')) ∧
    length meta' = (length meta + n)%nat.
Proof.
  revert i meta. induction n as [|n IH]; intros i meta Hl; cbn [scan_descs].
  { right. exists meta. split; [done|lia]. }
  rewrite slice_range_Some by (unfold DESC_SIZE in *; lia). cbn [mbind option_bind].
  destruct (desc_from_bytes_is_Some (take (REQ_SIZE + i * DESC_SIZE + DESC_SIZE -
    (REQ_SIZE + i * DESC_SIZE)) (drop (REQ_SIZE + i * DESC_SIZE) request))) as [d ->].
  { rewrite length_take, length_drop. unfold DESC_SIZE in *. lia. }
  destruct (desc_op_kind d) as [k|]; [|by left].
  set (b := match k with KindRead => true | KindWrite => false end).
  destruct (IH (S i) (meta ++ [(b, desc_length d)])) as [He|(meta' & He & Hlen)];
    [unfold DESC_SIZE in *; lia|..];
    rewrite write_len_app, read_len_app in He; unfold write_len at 2, read_len at 2 in He;
    destruct k; simpl in He; rewrite ?Nat.add_0_r in He.
  1,2: by left.
  all: right; exists meta'; split; [done|]; rewrite length_app in Hlen; simpl in *; lia.
Qed.

Lemma build_ops_total request meta w_off read_rem :
  (w_off + write_len meta ≤ length request)%nat → (read_len meta ≤ length read_rem)%nat →
  ∃ ops, build_ops request meta w_off read_rem = Some ops ∧ meta_of <$> ops = meta.
Proof.
  revert w_off read_rem. induction meta as [|[[] len] meta IH]; intros w_off rem Hw Hr; simpl.
  { by exists []. }
  - unfold write_len, read_len in Hw, Hr. simpl in Hw, Hr.
    rewrite split_at_Some by lia. simpl.
    destruct (IH w_off (drop len rem)) as (ops & -> & Hops).
    { unfold write_len. lia. } { rewrite length_drop. unfold read_len. lia. }
    eexists. split; [done|]. rewrite fmap_cons, Hops. simpl. rewrite length_take. do 2 f_equal. lia.
  - unfold write_len, read_len in Hw, Hr. simpl in Hw, Hr.
    rewrite slice_range_Some by lia. simpl.
    destruct (IH (w_off + len)%nat rem) as (ops & -> & Hops).
    { unfold write_len. lia. } { unfold read_len. lia. }
    eexists. split; [done|]. rewrite fmap_cons, Hops. simpl. rewrite length_take, length_drop. do 2 f_equal. lia.
Qed.

Section dispatch_lemmas.
Context {B : Type} `{I2cLaws B}.

(** Running validated operations: the bus makes one transaction, and the answer
    is its read data or its error. *)
Lemma run_ops_answers bus addr ops response :
  (RESP_SIZE + read_len (meta_of <$> ops) ≤ length response)%nat →
  let '(bus', ops', r) := transaction bus addr ops in
  answers response (run_ops bus addr ops (read_len (meta_of <$> ops)) response) bus'
    match r with
    | Ok _ => response_as_bytes
        (response_success (as_u16 (Z.of_nat (read_len (meta_of <$> ops))))) ++ read_data ops'
    | Err kind => response_as_bytes (response_error (kind_to_wire kind))
    end.
Proof.
  intros Hl. unfold run_ops.
  pose proof (transaction_lent bus addr ops) as Hlent.
  destruct (transaction bus addr ops) as [[bus' ops'] [[]|kind]]; cbn [fst snd] in *;
    [|apply refuse_answers; sizes].
  apply lent_meta in Hlent. assert (length (read_data ops') = read_len (meta_of <$> ops)) as Hd.
  { by rewrite length_read_data, Hlent. }
  rewrite copy_into_Some by sizes. cbn [mbind option_bind].
  rewrite <- Hd, slice_to_Some, firstn_all by done. cbn [mbind option_bind].
  rewrite copy_into_Some by (rewrite length_write_at; sizes). cbn [mbind option_bind].
  eexists. rewrite length_app. split; [done|]. split.
  - apply take_header_payload; [done|lia].
  - rewrite !length_write_at; rewrite ?length_write_at; sizes.
Qed.
End dispatch_lemmas.

(** ** Lemmas: an encoded transaction *)

Definition desc_of (o : Operation) : I2cOpDesc :=
  match o with
  | OpWrite d => I2cOpDesc_new KindWrite (as_u16 (Z.of_nat (length d)))
  | OpRead b => I2cOpDesc_new KindRead (as_u16 (Z.of_nat (length b)))
  end.

Definition descs (ops : list Operation) : list Z := concat (desc_as_bytes ∘ desc_of <$> ops).

(** The request that stands for [transaction(address, ops)]. *)
Definition transaction_request (addr : Z) (ops : list Operation) : list Z :=
  request_as_bytes (I2cRequestHeader_new Transaction addr
    (as_u16 (Z.of_nat (length ops)))
    (as_u16 (Z.of_nat (length ops * DESC_SIZE + write_len (meta_of <$> ops))))) ++
  descs ops ++ write_data ops.

(** The operations as the server rebuilds them: reads into zeroed slices. *)
Definition blank (o : Operation) : Operation :=
  match o with OpWrite d => OpWrite d | OpRead b => OpRead (replicate (length b) 0) end.

Lemma blank_meta (ops : list Operation) : meta_of <$> (blank <$> ops) = meta_of <$> ops.
Proof.
  induction ops as [|[d|b] ops IH]; [done|..]; rewrite !fmap_cons, IH; simpl;
    rewrite ?length_replicate; done.
Qed.

Lemma length_descs ops : length (descs ops) = (length ops * DESC_SIZE)%nat.
Proof.
  induction ops as [|o ops IH]; [done|].
  change (descs (o :: ops)) with (desc_as_bytes (desc_of o) ++ descs ops).
  rewrite length_app, IH. done.
Qed.

Lemma meta_le_len (meta : list (bool * nat)) (b : bool) (len : nat) :
  (b, len) ∈ meta → (len ≤ if b then read_len meta else write_len meta)%nat.
Proof.
  unfold read_len, write_len. induction meta as [|[b' len'] meta IH]; intros Hin.
  { by apply elem_of_nil in Hin. }
  apply elem_of_cons in Hin as [[= <- <-]|Hin].
  - destruct b; simpl; lia.
  - specialize (IH Hin). destruct b, b'; simpl; lia.
Qed.

(** Every length of the operations fits its 16-bit field. *)
Definition lens_fit (ops : list Operation) : Prop :=
  ∀ o, o ∈ ops → in_u16 (Z.of_nat (meta_of o).2).

Lemma small_lens_fit ops :
  (write_len (meta_of <$> ops) ≤ MAX_PAYLOAD_SIZE)%nat →
  (read_len (meta_of <$> ops) ≤ MAX_PAYLOAD_SIZE)%nat → lens_fit ops.
Proof.
  intros Hw Hr o Ho. assert (meta_of o ∈ meta_of <$> ops) as Hin by (apply list_elem_of_fmap; eauto).
  destruct (meta_of o) as [b len] eqn:E. apply meta_le_len in Hin.
  unfold in_u16, u16_MAX, MAX_PAYLOAD_SIZE in *. simpl. destruct b; lia.
Qed.

Lemma desc_of_spec o :
  in_u16 (Z.of_nat (meta_of o).2) →
  desc_length (desc_of o) = (meta_of o).2 ∧
  desc_op_kind (desc_of o) = Ok (if (meta_of o).1 then KindRead else KindWrite) ∧
  in_u16 (d_len (desc_of o)).
Proof.
  intros Ho. destruct o; simpl in *; unfold desc_length; simpl;
    rewrite as_u16_small by done; rewrite as_usize_of_nat; done.
Qed.

(** Scanning the encoded descriptors gives back the shape of the operations. *)
Lemma scan_descs_encoded pre ops post i meta :
  length pre = (REQ_SIZE + i * DESC_SIZE)%nat → lens_fit ops →
  scan_descs (pre ++ descs ops ++ post) i (length ops) meta (write_len meta) (read_len meta) =
    Some (Ok (meta ++ (meta_of <$> ops), write_len (meta ++ (meta_of <$> ops)),
              read_len (meta ++ (meta_of <$> ops)))).
Proof.
  revert pre i meta. induction ops as [|o ops IH]; intros pre i meta Hpre Hfit.
  { simpl. by rewrite app_nil_r. }
  destruct (desc_of_spec o) as (Hlen & Hkind & Hu16); [apply Hfit; left|].
  cbn [length scan_descs].
  assert (pre ++ descs (o :: ops) ++ post =
    pre ++ desc_as_bytes (desc_of o) ++ descs ops ++ post) as ->.
  { unfold descs. simpl. done. }
  rewrite slice_range_app by done. cbn [mbind option_bind]. rewrite desc_roundtrip by done.
  rewrite Hlen, Hkind.
  pose proof (IH (pre ++ desc_as_bytes (desc_of o)) (S i) (meta ++ [meta_of o])) as IH'.
  rewrite <- !app_assoc in IH'. simpl app in IH' at 5. rewrite fmap_cons.
  rewrite write_len_app, read_len_app in IH'. unfold write_len at 2, read_len at 2 in IH'.
  destruct (meta_of o) as [[] len]; simpl sum_list_with in IH'; rewrite !Nat.add_0_r in IH';
    apply IH'.
  1,3: rewrite length_app, length_desc_as_bytes; unfold DESC_SIZE in *; lia.
  all: intros x Hx; apply Hfit; by right.
Qed.

(** Rebuilding them gives the operations, with blank reads. *)
Lemma build_ops_encoded pre ops post w_off rem :
  length pre = w_off → rem = replicate (read_len (meta_of <$> ops)) 0 →
  build_ops (pre ++ write_data ops ++ post) (meta_of <$> ops) w_off rem = Some (blank <$> ops).
Proof.
  revert pre w_off rem. induction ops as [|[d|b] ops IH]; intros pre w_off rem <- ->; [done|..];
    rewrite !fmap_cons; cbn [meta_of blank build_ops].
  - replace (pre ++ write_data (OpWrite d :: ops) ++ post)
      with (pre ++ d ++ write_data ops ++ post)
      by (unfold write_data; simpl; by rewrite <- app_assoc).
    rewrite slice_range_app by done. cbn [mbind option_bind].
    replace (pre ++ d ++ write_data ops ++ post)
      with ((pre ++ d) ++ write_data ops ++ post) by by rewrite <- app_assoc.
    by rewrite IH by (by rewrite ?length_app).
  - change (read_len ((true, length b) :: (meta_of <$> ops)))
      with (length b + read_len (meta_of <$> ops))%nat.
    rewrite split_at_Some by (rewrite length_replicate; lia). cbn [mbind option_bind].
    rewrite replicate_add, take_app_length', drop_app_length' by (by rewrite length_replicate).
    change (write_data (OpRead b :: ops)) with (write_data ops).
    by rewrite (IH pre (length pre)).
Qed.

Section dispatch_theorems.
Context {B : Type} `{I2cLaws B}.

(** The request of a transaction within the limits is run as that transaction. *)
Lemma dispatch_transaction_request bus addr ops response :
  in_u8 addr → (length ops ≤ MAX_OPS)%nat →
  (write_len (meta_of <$> ops) ≤ MAX_PAYLOAD_SIZE)%nat →
  (read_len (meta_of <$> ops) ≤ MAX_PAYLOAD_SIZE)%nat →
  (RESP_SIZE + read_len (meta_of <$> ops) ≤ length response)%nat →
  dispatch bus (transaction_request addr ops) response =
    run_ops bus addr (blank <$> ops) (read_len (meta_of <$> ops)) response.
Proof.
  intros Ha Hn Hw Hr Hresp. unfold dispatch, transaction_request.
  set (hdr := I2cRequestHeader_new _ _ _ _).
  assert (length (request_as_bytes hdr ++ descs ops ++ write_data ops) =
    REQ_SIZE + (length ops * DESC_SIZE + write_len (meta_of <$> ops)))%nat as Hlen.
  { rewrite !length_app, length_descs, length_write_data. done. }
  assert (in_u16 (Z.of_nat (length ops))) as Hops.
  { unfold in_u16, u16_MAX, MAX_OPS in *. lia. }
  assert (op_count_value hdr = length ops) as Hcount.
  { unfold op_count_value, hdr. simpl. by rewrite as_u16_small, as_usize_of_nat. }
  rewrite Hlen, (proj2 (Nat.ltb_ge _ _)) by lia.
  rewrite slice_to_app by done. cbn [mbind option_bind].
  rewrite i2c_request_roundtrip; cycle 1.
  { unfold hdr, request_ok. simpl. rewrite !as_u16_small.
    all: unfold in_u8, in_u16, u8_MAX, u16_MAX, MAX_OPS, MAX_PAYLOAD_SIZE, DESC_SIZE in *; lia. }
  rewrite Hcount. change (operation hdr) with (@Ok _ I2cError Transaction).
  rewrite bool_decide_eq_true_2 by done. cbn [negb].
  change (address_value hdr) with addr. rewrite (as_u8_small addr Ha).
  rewrite (proj2 (Nat.ltb_ge _ _)) by done. rewrite (proj2 (Nat.ltb_ge _ _)) by lia.
  pose proof (scan_descs_encoded (request_as_bytes hdr) ops (write_data ops) 0 [] eq_refl
    (small_lens_fit ops Hw Hr)) as Hscan. cbn [app] in Hscan.
  change (write_len []) with 0%nat in Hscan. change (read_len []) with 0%nat in Hscan.
  rewrite Hscan. cbn [mbind option_bind].
  do 4 rewrite (proj2 (Nat.ltb_ge _ _)) by lia. cbn [orb].
  rewrite slice_to_Some by (by rewrite length_replicate). cbn [mbind option_bind].
  rewrite take_replicate, Nat.min_l by done.
  replace (request_as_bytes hdr ++ descs ops ++ write_data ops)
    with ((request_as_bytes hdr ++ descs ops) ++ write_data ops ++ [])
    by (by rewrite app_nil_r, app_assoc).
  rewrite build_ops_encoded; [done| |done].
  by rewrite length_app, length_descs.
Qed.

(** What [dispatch] did: refused with the bus untouched, or one transaction. *)
Definition dispatched (bus bus' : B) (w : list Z) : Prop :=
  (∃ e, bus' = bus ∧ w = response_as_bytes (response_error e)) ∨
  ∃ addr ops, in_u8 addr ∧ (length ops ≤ MAX_OPS)%nat ∧
    (length (write_data ops) ≤ MAX_PAYLOAD_SIZE)%nat ∧
    let '(bus1, ops1, r) := transaction bus addr ops in
    bus' = bus1 ∧
    w = match r with
        | Ok _ => response_as_bytes
            (response_success (Z.of_nat (length (read_data ops1)))) ++ read_data ops1
        | Err kind => response_as_bytes (response_error (kind_to_wire kind))
        end.

Lemma dispatch_spec bus request response :
  (RESP_SIZE ≤ length response)%nat →
  ∃ bus' w, answers response (dispatch bus request response) bus' w ∧ dispatched bus bus' w.
Proof.
  intros Hl.
  assert (∀ e, ∃ bus' w, answers response (refuse bus response e) bus' w ∧ dispatched bus bus' w)
    as Hrefuse.
  { intros e. exists bus, (response_as_bytes (response_error e)).
    split; [by apply refuse_answers|]. left. by exists e. }
  unfold dispatch. destruct (Nat.ltb_spec (length request) REQ_SIZE) as [|Hq]; [apply Hrefuse|].
  rewrite slice_to_Some by done. cbn [mbind option_bind].
  destruct (request_from_bytes _) as [hdr|]; [|apply Hrefuse].
  destruct (bool_decide _); cbn [negb]; [|apply Hrefuse].
  destruct (Nat.ltb_spec MAX_OPS (op_count_value hdr)) as [|Hn]; [apply Hrefuse|].
  destruct (Nat.ltb_spec (length request) (REQ_SIZE + op_count_value hdr * DESC_SIZE)) as [|Hd];
    [apply Hrefuse|].
  pose proof (scan_descs_total request (op_count_value hdr) 0 [] ltac:(lia)) as Hs.
  change (write_len []) with 0%nat in Hs. change (read_len []) with 0%nat in Hs.
  destruct Hs as [->|(meta & -> & Hlm)]; [apply Hrefuse|].
  cbn [mbind option_bind].
  destruct (Nat.ltb_spec MAX_PAYLOAD_SIZE (write_len meta)) as [|Hw]; [apply Hrefuse|].
  destruct (Nat.ltb_spec MAX_PAYLOAD_SIZE (read_len meta)) as [|Hr]; [apply Hrefuse|].
  destruct (Nat.ltb_spec (length request) (REQ_SIZE + op_count_value hdr * DESC_SIZE + write_len meta))
    as [|Hq']; [apply Hrefuse|].
  destruct (Nat.ltb_spec (length response) (RESP_SIZE + read_len meta)) as [|Hp];
    [apply Hrefuse|]. cbn [orb].
  rewrite slice_to_Some by (by rewrite length_replicate). cbn [mbind option_bind].
  destruct (build_ops_total request meta (REQ_SIZE + op_count_value hdr * DESC_SIZE)
    (take (read_len meta) (replicate MAX_PAYLOAD_SIZE 0))) as (ops & -> & Hops); [done|..].
  { rewrite length_take, length_replicate. lia. }
  cbn [mbind option_bind]. subst meta.
  set (addr := as_u8 (address_value hdr)).
  pose proof (run_ops_answers bus addr ops response Hp) as Hrun.
  pose proof (transaction_lent bus addr ops) as Hlent.
  destruct (transaction bus addr ops) as [[bus' ops'] r] eqn:Ht.
  eexists _, _. split; [exact Hrun|]. right. exists addr, ops.
  rewrite length_fmap in Hlm. rewrite length_write_data, Ht.
  split_and!; [apply as_u8_range|simpl in *; lia|done|done|].
  destruct r; [|done]. apply lent_meta in Hlent. simpl in Hlent.
  rewrite length_read_data, Hlent, as_u16_small; [done|].
  unfold in_u16, u16_MAX, MAX_PAYLOAD_SIZE in *. lia.
Qed.
End dispatch_theorems.

(** ** Properties *)

(** The server never panics on malformed input.  For any request bytes
    and a response buffer that holds a header, [dispatch] answers within the
    buffer; it either refuses with an error header and does not touch the bus, or
    makes exactly one transaction, of at most sixteen operations and 256 written
    bytes, and answers with all the bytes read or with the error's code. *)
Theorem dispatch_never_panics {B : Type} `{I2cLaws B} (bus : B) (request response : list Z) :
  (RESP_SIZE ≤ length response)%nat →
  ∃ bus' response' w,
    dispatch bus request response = Some (bus', response', length w) ∧
    take (length w) response' = w ∧ length response' = length response ∧
    (length w ≤ length response)%nat ∧ dispatched bus bus' w.
Proof.
  intros Hl. destruct (dispatch_spec bus request response Hl) as (bus' & w & Ha & Hd).
  destruct Ha as (response' & He & Hw & Hlen). exists bus', response', w.
  split_and!; try done. rewrite <- Hlen, <- Hw at 1. rewrite length_take. lia.
Qed.

(** A bus that remembers what was written to it last and answers reads with
    sevens. *)
#[export] Instance sevens : I2c (list Z) := λ b a ops,
  (write_data ops, (λ o, match o with
                         | OpWrite d => OpWrite d
                         | OpRead r => OpRead (replicate (length r) 7)
                         end) <$> ops, Ok ()).
#[export] Instance sevens_laws : I2cLaws (list Z).
Proof.
  intros b a ops. simpl. induction ops as [|[d|r] ops IH]; constructor; try done.
  simpl. by rewrite length_replicate.
Qed.

Lemma dispatch_never_panics_witness :
  dispatch (B := list Z) [] [9; 9; 9] (replicate 6 0) =
    Some ([], [1; 0; 0; 0; 0; 0], 4%nat) ∧
  ∃ bus' response' w,
    dispatch (B := list Z) [] [9; 9; 9] (replicate 6 0) = Some (bus', response', length w) ∧
    take (length w) response' = w ∧ length response' = 6%nat ∧ (length w ≤ 6)%nat ∧
    dispatched (B := list Z) [] bus' w.
Proof.
  split; [reflexivity|].
  apply (dispatch_never_panics (B := list Z) [] [9; 9; 9] (replicate 6 0)).
  vm_compute. lia.
Defined.
