(* ===== verification/I2cClient.v ===== *)
(** * The I2C client

    [services/i2c/client/src/lib.rs] over the transport seam of
    [services/i2c/api/src/transport.rs], and the in-process transport of
    [services/i2c/server/src/loopback.rs].  A transport carries one request and
    brings back one response; the client marshals a whole transaction into it.

    [None] is a panic. *)

From S2P Require Import Prelude Bytes I2cWire I2cServer.
From stdpp Require Import base tactics option list numbers.
Local Open Scope Z_scope.

(** ** The transport seam *)

Inductive TransportError := TransportFailed.

(** [Transport::transact]: the transport, the response buffer and the length of
    the response. *)
Class Transport (T : Type) : Type :=
  transact : T → list Z → list Z → option (T * list Z * result nat TransportError).

(** [LoopbackTransport]: the transport is the bus it owns. *)
Record LoopbackTransport (B : Type) := mkLoopback { bus : B }.
Arguments mkLoopback {B} _.
Arguments bus {B} _.

#[export] Instance loopback_transact {B} `{I2c B} : Transport (LoopbackTransport B) :=
  λ t req resp,
    '(b, resp, n) ← dispatch (bus t) req resp;
    Some (mkLoopback b, resp, Ok n).

(** ** The client *)

Definition MAX_BUF_SIZE : nat := 512.

Inductive ClientError :=
| TransportFailure (e : TransportError)
| ServerError (e : I2cError)
| InvalidResponse
| ClientBufferTooSmall
| ClientTooManyOperations.

(** [I2cBusError::kind] of a client error. *)
Definition client_error_kind (e : ClientError) : ErrorKind :=
  match e with ServerError e => error_kind e | _ => KOther end.

Record SlaveReceiveEvent := mkSlaveReceiveEvent {
  ev_kind : SlaveEvent;
  data_len : nat;
  truncated : bool;
}.

Section client.
Context {T : Type} `{Transport T}.

(** The checks every call makes of the response: its size, its header, its
    status. *)
Definition read_status (resp : list Z) (resp_len : nat) :
    option (result I2cResponseHeader ClientError) :=
  if (resp_len <? RESP_SIZE)%nat then Some (Err InvalidResponse)
  else
    hdr_bytes ← slice_to resp RESP_SIZE;
    Some match response_from_bytes hdr_bytes with
         | None => Err InvalidResponse
         | Some rhdr =>
             if is_success rhdr then Ok rhdr
             else Err (ServerError (default InternalError (error_code rhdr)))
         end.

(** [out] is the caller's slice, when there is one. *)
Definition slave_cmd (t : T) (op : I2cOp) (addr max_len : Z) (out : option (list Z)) :
    option (T * option (list Z) * result nat ClientError) :=
  let req := request_as_bytes (I2cRequestHeader_new op addr max_len 0) in
  '(t, resp, r) ← transact t req (replicate (RESP_SIZE + MAX_PAYLOAD_SIZE) 0);
  match r with
  | Err e => Some (t, out, Err (TransportFailure e))
  | Ok resp_len =>
      st ← read_status resp resp_len;
      match st with
      | Err e => Some (t, out, Err e)
      | Ok rhdr =>
          let n := payload_length rhdr in
          if (resp_len <? RESP_SIZE + n)%nat then Some (t, out, Err InvalidResponse)
          else
            match out with
            | Some buf =>
                let copy := Nat.min n (length buf) in
                data ← slice_range resp RESP_SIZE (RESP_SIZE + copy);
                buf ← copy_into 0 data buf;
                Some (t, Some buf, Ok copy)
            | None => Some (t, None, Ok n)
            end
      end
  end.

(** The ack-only calls. *)
Definition ack_cmd (t : T) (op : I2cOp) (addr : Z) : option (T * result unit ClientError) :=
  '(t, _, r) ← slave_cmd t op addr 0 None; Some (t, map_ok (λ _, ()) r).

Definition configure_slave (t : T) (addr : Z) := ack_cmd t ConfigureSlave addr.
Definition enable_slave (t : T) := ack_cmd t EnableSlave 0.
Definition disable_slave (t : T) := ack_cmd t DisableSlave 0.
Definition enable_notification (t : T) := ack_cmd t EnableSlaveNotification 0.
Definition disable_notification (t : T) := ack_cmd t DisableSlaveNotification 0.

Definition slave_receive (t : T) (buf : list Z) :
    option (T * list Z * result SlaveReceiveEvent ClientError) :=
  let max := as_u16 (Z.of_nat (Nat.min (length buf - 1) MAX_PAYLOAD_SIZE)) in
  let req := request_as_bytes (I2cRequestHeader_new SlaveReceive 0 max 0) in
  '(t, resp, r) ← transact t req (replicate (RESP_SIZE + MAX_PAYLOAD_SIZE) 0);
  match r with
  | Err e => Some (t, buf, Err (TransportFailure e))
  | Ok resp_len =>
      st ← read_status resp resp_len;
      match st with
      | Err e => Some (t, buf, Err e)
      | Ok rhdr =>
          let payload_len := payload_length rhdr in
          if (resp_len <? RESP_SIZE + payload_len)%nat then Some (t, buf, Err InvalidResponse)
          else if (payload_len <? 1)%nat then Some (t, buf, Err InvalidResponse)
          else
            kind_byte ← resp !! RESP_SIZE;
            let data_len := (payload_len - 1)%nat in
            match event_try_from kind_byte with
            | Err _ => Some (t, buf, Err InvalidResponse)
            | Ok kind =>
                let copy := Nat.min data_len (length buf) in
                buf ← (if (0 <? copy)%nat
                       then data ← slice_range resp (RESP_SIZE + 1) (RESP_SIZE + 1 + copy);
                            copy_into 0 data buf
                       else Some buf);
                Some (t, buf, Ok {| ev_kind := kind; data_len := copy;
                                    truncated := (copy <? data_len)%nat |})
            end
      end
  end.

Definition slave_set_response (t : T) (data : list Z) : option (T * result unit ClientError) :=
  let hdr := I2cRequestHeader_new SlaveSetResponse 0 0 (as_u16 (Z.of_nat (length data))) in
  let req_len := (REQ_SIZE + length data)%nat in
  if (MAX_BUF_SIZE <? req_len)%nat then Some (t, Err ClientBufferTooSmall)
  else
    req ← copy_into 0 (request_as_bytes hdr) (replicate MAX_BUF_SIZE 0);
    req ← copy_into REQ_SIZE data req;
    req ← slice_to req req_len;
    '(t, resp, r) ← transact t req (replicate RESP_SIZE 0);
    match r with
    | Err e => Some (t, Err (TransportFailure e))
    | Ok resp_len =>
        st ← read_status resp resp_len;
        Some (t, map_ok (λ _, ()) st)
    end.

(** The three loops of [transact]: descriptors, write payloads, and the read
    results back into the caller's slices. *)
Fixpoint put_descs (ops : list Operation) (off : nat) (req : list Z) : option (list Z * nat) :=
  match ops with
  | [] => Some (req, off)
  | op :: ops =>
      let desc := match op with
                  | OpWrite buf => I2cOpDesc_new KindWrite (as_u16 (Z.of_nat (length buf)))
                  | OpRead buf => I2cOpDesc_new KindRead (as_u16 (Z.of_nat (length buf)))
                  end in
      req ← copy_into off (desc_as_bytes desc) req;
      put_descs ops (off + DESC_SIZE) req
  end.

Fixpoint put_writes (ops : list Operation) (off : nat) (req : list Z) : option (list Z * nat) :=
  match ops with
  | [] => Some (req, off)
  | OpWrite buf :: ops =>
      req ← copy_into off buf req; put_writes ops (off + length buf) req
  | OpRead _ :: ops => put_writes ops off req
  end.

Fixpoint scatter (ops : list Operation) (rp : nat) (resp : list Z) : option (list Operation) :=
  match ops with
  | [] => Some []
  | OpRead buf :: ops =>
      data ← slice_range resp rp (rp + length buf);
      ops ← scatter ops (rp + length buf) resp;
      Some (OpRead data :: ops)
  | op :: ops => ops ← scatter ops rp resp; Some (op :: ops)
  end.

(** [I2cClient::transact], which is [I2c::transaction] of the client: the
    transport and the caller's operations. *)
Definition client_transact (t : T) (addr : Z) (operations : list Operation) :
    option (T * list Operation * result unit ClientError) :=
  if (MAX_OPS <? length operations)%nat then Some (t, operations, Err ClientTooManyOperations)
  else
    let write_total := foldl (λ n op,
      match op with OpWrite buf => (n + length buf)%nat | OpRead _ => n end) 0%nat operations in
    let read_total := foldl (λ n op,
      match op with OpWrite _ => n | OpRead buf => (n + length buf)%nat end) 0%nat operations in
    let desc_bytes := (length operations * DESC_SIZE)%nat in
    let req_len := (REQ_SIZE + desc_bytes + write_total)%nat in
    if (MAX_BUF_SIZE <? req_len)%nat || (MAX_PAYLOAD_SIZE <? write_total)%nat
       || (MAX_PAYLOAD_SIZE <? read_total)%nat || (MAX_BUF_SIZE <? RESP_SIZE + read_total)%nat
    then Some (t, operations, Err ClientBufferTooSmall)
    else
      let hdr := I2cRequestHeader_new Transaction addr
        (as_u16 (Z.of_nat (length operations))) (as_u16 (Z.of_nat (desc_bytes + write_total))) in
      req ← copy_into 0 (request_as_bytes hdr) (replicate MAX_BUF_SIZE 0);
      '(req, off) ← put_descs operations REQ_SIZE req;
      '(req, off) ← put_writes operations off req;
      req ← slice_to req off;
      '(t, resp, r) ← transact t req (replicate MAX_BUF_SIZE 0);
      match r with
      | Err e => Some (t, operations, Err (TransportFailure e))
      | Ok resp_len =>
          st ← read_status resp resp_len;
          match st with
          | Err e => Some (t, operations, Err e)
          | Ok rhdr =>
              let payload_len := payload_length rhdr in
              if negb (payload_len =? read_total)%nat
                 || (resp_len <? RESP_SIZE + payload_len)%nat
              then Some (t, operations, Err InvalidResponse)
              else ops ← scatter operations RESP_SIZE resp; Some (t, ops, Ok ())
          end
      end.
End client.

(** ** Lemmas: marshalling *)

Lemma write_total_len (ops : list Operation) n :
  foldl (λ n op, match op with OpWrite buf => (n + length buf)%nat | OpRead _ => n end) n ops =
    (n + write_len (meta_of <$> ops))%nat.
Proof.
  unfold write_len. revert n.
  induction ops as [|[d|b] ops IH]; intros n; rewrite ?fmap_cons; cbn [foldl]; rewrite ?IH;
    cbn [sum_list_with meta_of fst snd]; simpl; lia.
Qed.

Lemma read_total_len (ops : list Operation) n :
  foldl (λ n op, match op with OpWrite _ => n | OpRead buf => (n + length buf)%nat end) n ops =
    (n + read_len (meta_of <$> ops))%nat.
Proof.
  unfold read_len. revert n.
  induction ops as [|[d|b] ops IH]; intros n; rewrite ?fmap_cons; cbn [foldl]; rewrite ?IH;
    cbn [sum_list_with meta_of fst snd]; simpl; lia.
Qed.

Lemma put_descs_spec ops off req :
  (off + length ops * DESC_SIZE ≤ length req)%nat →
  ∃ req', put_descs ops off req = Some (req', (off + length ops * DESC_SIZE)%nat) ∧
    take (off + length ops * DESC_SIZE) req' = take off req ++ descs ops ∧
    length req' = length req.
Proof.
  revert off req. induction ops as [|o ops IH]; intros off req Hl.
  { exists req. simpl. by rewrite Nat.add_0_r, app_nil_r. }
  cbn [put_descs length] in *. set (desc := match o with OpWrite _ => _ | OpRead _ => _ end).
  assert (desc = desc_of o) as -> by (by destruct o).
  assert (length (desc_as_bytes (desc_of o)) = DESC_SIZE) as Hd by done.
  rewrite copy_into_Some by (unfold DESC_SIZE in *; lia). cbn [mbind option_bind].
  destruct (IH (off + DESC_SIZE)%nat (write_at off (desc_as_bytes (desc_of o)) req))
    as (req' & -> & Htake & Hlen).
  { rewrite length_write_at; unfold DESC_SIZE in *; lia. }
  exists req'. rewrite length_write_at in Hlen by (unfold DESC_SIZE in *; lia).
  replace (off + S (length ops) * DESC_SIZE)%nat with (off + DESC_SIZE + length ops * DESC_SIZE)%nat
    by lia.
  split_and!; [done| |done]. rewrite Htake, <- Hd, take_write_at by (unfold DESC_SIZE in *; lia).
  by rewrite <- app_assoc.
Qed.

Lemma put_writes_spec ops off req :
  (off + length (write_data ops) ≤ length req)%nat →
  ∃ req', put_writes ops off req = Some (req', (off + length (write_data ops))%nat) ∧
    take (off + length (write_data ops)) req' = take off req ++ write_data ops ∧
    length req' = length req.
Proof.
  revert off req. induction ops as [|[d|b] ops IH]; intros off req Hl.
  { exists req. simpl. by rewrite Nat.add_0_r, app_nil_r. }
  - change (write_data (OpWrite d :: ops)) with (d ++ write_data ops) in *.
    rewrite length_app in *. cbn [put_writes]. rewrite copy_into_Some by lia.
    cbn [mbind option_bind].
    destruct (IH (off + length d)%nat (write_at off d req)) as (req' & -> & Htake & Hlen).
    { rewrite length_write_at; lia. }
    rewrite length_write_at in Hlen by lia. exists req'. rewrite Nat.add_assoc.
    split_and!; [done| |done]. rewrite Htake, take_write_at by lia. by rewrite <- app_assoc.
  - apply IH. done.
Qed.

Lemma scatter_spec ops ops' pre post rp :
  length pre = rp → Forall2 op_lent ops ops' →
  scatter ops rp (pre ++ read_data ops' ++ post) = Some ops'.
Proof.
  intros Hpre Hlent. revert pre rp Hpre.
  induction Hlent as [|o o' ops ops' Ho Hl IH]; intros pre rp Hpre; [done|].
  destruct o as [d|b], o' as [d'|b']; try done; simpl in Ho.
  - subst d'. cbn [scatter]. change (read_data (OpWrite d :: ops')) with (read_data ops').
    by rewrite IH.
  - cbn [scatter]. change (read_data (OpRead b' :: ops')) with (b' ++ read_data ops').
    rewrite <- app_assoc, slice_range_app by (done || congruence). cbn [mbind option_bind].
    rewrite (app_assoc pre b'), IH; [done|]. rewrite length_app. congruence.
Qed.

(** What the client reads in a response [w] that reached its buffer. *)
Lemma read_status_header h w resp :
  in_u16 (resp_payload_len h) → take (length (response_as_bytes h ++ w)) resp =
    response_as_bytes h ++ w →
  read_status resp (length (response_as_bytes h ++ w)) =
    Some (if is_success h then Ok h else Err (ServerError (default InternalError (error_code h)))).
Proof.
  intros Hh Hw. unfold read_status. rewrite length_app, length_i2c_response.
  rewrite (proj2 (Nat.ltb_ge _ _)) by lia.
  rewrite <- (take_drop (length (response_as_bytes h ++ w)) resp), Hw, <- app_assoc.
  rewrite slice_to_app by done. cbn [mbind option_bind]. by rewrite i2c_response_roundtrip.
Qed.

Lemma error_code_of e : error_code (response_error e) = Some e.
Proof. by destruct e. Qed.

Lemma response_error_not_success e : is_success (response_error e) = false.
Proof. by destruct e. Qed.

(** ** Lemmas: a whole call *)

(** The request the client marshals. *)
Lemma marshalled addr ops :
  (length ops ≤ MAX_OPS)%nat → (length (write_data ops) ≤ MAX_PAYLOAD_SIZE)%nat →
  ∃ req1 off1 req2 off2,
    let hdr := I2cRequestHeader_new Transaction addr (as_u16 (Z.of_nat (length ops)))
      (as_u16 (Z.of_nat (length ops * DESC_SIZE + write_len (meta_of <$> ops)))) in
    put_descs ops REQ_SIZE (write_at 0 (request_as_bytes hdr) (replicate MAX_BUF_SIZE 0)) =
      Some (req1, off1) ∧
    put_writes ops off1 req1 = Some (req2, off2) ∧
    slice_to req2 off2 = Some (transaction_request addr ops).
Proof.
  intros Hn Hw. set (hdr := I2cRequestHeader_new _ _ _ _).
  assert (length (write_at 0 (request_as_bytes hdr) (replicate MAX_BUF_SIZE 0)) = MAX_BUF_SIZE)
    as Hl0.
  { rewrite length_write_at; rewrite ?length_replicate; [done|]. unfold MAX_BUF_SIZE. simpl. lia. }
  destruct (put_descs_spec ops REQ_SIZE
    (write_at 0 (request_as_bytes hdr) (replicate MAX_BUF_SIZE 0))) as (req1 & H1 & Ht1 & Hl1).
  { rewrite Hl0. unfold MAX_BUF_SIZE, REQ_SIZE, DESC_SIZE, MAX_OPS in *. lia. }
  destruct (put_writes_spec ops (REQ_SIZE + length ops * DESC_SIZE) req1) as (req2 & H2 & Ht2 & Hl2).
  { rewrite Hl1, Hl0. unfold MAX_BUF_SIZE, REQ_SIZE, DESC_SIZE, MAX_OPS, MAX_PAYLOAD_SIZE in *. lia. }
  exists req1, (REQ_SIZE + length ops * DESC_SIZE)%nat, req2,
    (REQ_SIZE + length ops * DESC_SIZE + length (write_data ops))%nat.
  split_and!; [done|done|]. rewrite slice_to_Some; cycle 1.
  { rewrite Hl2, Hl1, Hl0.
    unfold MAX_BUF_SIZE, REQ_SIZE, DESC_SIZE, MAX_OPS, MAX_PAYLOAD_SIZE in *. lia. }
  rewrite Ht2, Ht1, write_at_0, (take_app_length' (request_as_bytes hdr)) by done.
  by rewrite <- app_assoc.
Qed.

(** The answer [w] to a transaction request, as the caller should see it. *)
Definition answer_of (ops : list Operation) (res : result (list Operation) I2cError)
    (w : list Z) : Prop :=
  match res with
  | Ok ops' => Forall2 op_lent ops ops' ∧
      w = response_as_bytes (response_success (Z.of_nat (length (read_data ops')))) ++
          read_data ops'
  | Err e => w = response_as_bytes (response_error e)
  end.

(** A client transaction within the limits whose request the transport answers
    with [w]. *)
Lemma client_transact_answered {T} `{Transport T} (t t' : T) addr ops resp' w res :
  (length ops ≤ MAX_OPS)%nat → (length (write_data ops) ≤ MAX_PAYLOAD_SIZE)%nat →
  (length (read_data ops) ≤ MAX_PAYLOAD_SIZE)%nat →
  transact t (transaction_request addr ops) (replicate MAX_BUF_SIZE 0) =
    Some (t', resp', Ok (length w)) →
  take (length w) resp' = w → answer_of ops res w →
  client_transact t addr ops =
    Some match res with
         | Ok ops' => (t', ops', Ok ())
         | Err e => (t', ops, Err (ServerError e))
         end.
Proof.
  intros Hn Hw Hr Htr Htake Hans. unfold client_transact.
  rewrite (proj2 (Nat.ltb_ge _ _) Hn).
  rewrite write_total_len, read_total_len, !Nat.add_0_l.
  rewrite <- length_write_data, <- length_read_data.
  rewrite (proj2 (Nat.ltb_ge _ _) Hw), (proj2 (Nat.ltb_ge _ _) Hr).
  rewrite (proj2 (Nat.ltb_ge MAX_BUF_SIZE (_ + _ + _)))
    by (unfold MAX_BUF_SIZE, REQ_SIZE, DESC_SIZE, MAX_OPS, MAX_PAYLOAD_SIZE in *; lia).
  rewrite (proj2 (Nat.ltb_ge MAX_BUF_SIZE (_ + _)))
    by (unfold MAX_BUF_SIZE, RESP_SIZE, MAX_PAYLOAD_SIZE in *; lia).
  cbn [orb]. rewrite copy_into_Some by (unfold MAX_BUF_SIZE; sizes). cbn [mbind option_bind].
  destruct (marshalled addr ops Hn Hw) as (req1 & off1 & req2 & off2 & H1 & H2 & H3).
  rewrite length_write_data, H1. cbn [mbind option_bind]. rewrite H2. cbn [mbind option_bind].
  rewrite H3. cbn [mbind option_bind]. rewrite Htr. cbn [mbind option_bind].
  destruct res as [ops'|e]; unfold answer_of in Hans.
  - destruct Hans as [Hlent Hw'].
    assert (length (read_data ops') = length (read_data ops)) as Hd.
    { by rewrite !length_read_data, (lent_meta _ _ Hlent). }
    assert (in_u16 (Z.of_nat (length (read_data ops')))) as Hu.
    { unfold in_u16, u16_MAX, MAX_PAYLOAD_SIZE in *. lia. }
    rewrite Hw', read_status_header by (done || by rewrite <- Hw'). cbn [mbind option_bind].
    change (is_success (response_success _)) with true. cbv iota beta. unfold payload_length.
    cbn [resp_payload_len response_success]. rewrite as_usize_of_nat, Hd, Nat.eqb_refl.
    cbn [negb orb].
    rewrite (proj2 (Nat.ltb_ge _ _)) by (rewrite length_app, length_i2c_response; lia).
    rewrite <- (take_drop (length w) resp'), Htake, Hw', <- app_assoc.
    by rewrite (scatter_spec ops ops').
  - pose proof (read_status_header (response_error e) [] resp') as Hst.
    rewrite app_nil_r in Hst. rewrite Hans in *.
    rewrite Hst by (done || by destruct e). cbn [mbind option_bind].
    by rewrite response_error_not_success, error_code_of.
Qed.

Lemma blank_lent (ops ops' : list Operation) :
  Forall2 op_lent (blank <$> ops) ops' → Forall2 op_lent ops ops'.
Proof.
  revert ops'. induction ops as [|o ops IH]; intros ops' Hl; inversion Hl; subst; constructor; auto.
  destruct o, y; simpl in *; rewrite ?length_replicate in *; done.
Qed.

(** ** A client over the loopback transport *)

Section loopback.
Context {B : Type} `{I2cLaws B}.
Implicit Types b : B.

(** [transaction] of the bus as the client's caller should see it: limits first,
    then one transaction on blank read slices; on failure the caller's slices
    are untouched. *)
Definition bus_transaction b (addr : Z) (ops : list Operation) :
    B * list Operation * result unit ClientError :=
  if (MAX_OPS <? length ops)%nat then (b, ops, Err ClientTooManyOperations)
  else if (MAX_PAYLOAD_SIZE <? length (write_data ops))%nat
          || (MAX_PAYLOAD_SIZE <? length (read_data ops))%nat
  then (b, ops, Err ClientBufferTooSmall)
  else
    let '(b', ops', r) := transaction b addr (blank <$> ops) in
    match r with
    | Ok _ => (b', ops', Ok ())
    | Err kind => (b', ops, Err (ServerError (kind_to_wire kind)))
    end.

(** The dispatch of a transaction request answers what the bus did. *)
Lemma dispatch_answers b addr ops response :
  in_u8 addr → (length ops ≤ MAX_OPS)%nat →
  (length (write_data ops) ≤ MAX_PAYLOAD_SIZE)%nat →
  (length (read_data ops) ≤ MAX_PAYLOAD_SIZE)%nat →
  (RESP_SIZE + read_len (meta_of <$> ops) ≤ length response)%nat →
  let '(b', ops', r) := transaction b addr (blank <$> ops) in
  ∃ w, answers response (dispatch b (transaction_request addr ops) response) b' w ∧
    answer_of ops match r with Ok _ => Ok ops' | Err k => Err (kind_to_wire k) end w.
Proof.
  intros Ha Hn Hw Hr Hresp.
  rewrite dispatch_transaction_request by (done || by rewrite <- ?length_write_data, <- ?length_read_data).
  pose proof (transaction_lent b addr (blank <$> ops)) as Hlent.
  rewrite <- (blank_meta ops) in Hresp. pose proof (run_ops_answers b addr (blank <$> ops) _ Hresp) as Hans.
  rewrite blank_meta in Hans.
  destruct (transaction b addr (blank <$> ops)) as [[b' ops'] r]. cbn [fst snd] in Hlent.
  eexists. split; [exact Hans|]. destruct r; [|done]. apply blank_lent in Hlent. split; [done|].
  rewrite length_read_data, (lent_meta _ _ Hlent), as_u16_small; [done|].
  rewrite <- length_read_data. unfold in_u16, u16_MAX, MAX_PAYLOAD_SIZE in *. lia.
Qed.

Lemma client_over_loopback b addr ops :
  in_u8 addr →
  client_transact (mkLoopback b) addr ops =
    let '(b', ops', r) := bus_transaction b addr ops in Some (mkLoopback b', ops', r).
Proof.
  intros Ha. unfold bus_transaction.
  destruct (Nat.ltb_spec MAX_OPS (length ops)) as [Hn|Hn].
  { unfold client_transact. by rewrite (proj2 (Nat.ltb_lt _ _) Hn). }
  destruct ((MAX_PAYLOAD_SIZE <? length (write_data ops))%nat
    || (MAX_PAYLOAD_SIZE <? length (read_data ops))%nat) eqn:Hb.
  { unfold client_transact. rewrite (proj2 (Nat.ltb_ge _ _) Hn).
    rewrite write_total_len, read_total_len, !Nat.add_0_l, <- length_write_data, <- length_read_data.
    rewrite <- (orb_assoc (_ <? _)%nat), Hb. by rewrite orb_true_r. }
  apply orb_false_iff in Hb as [Hw%Nat.ltb_ge Hr%Nat.ltb_ge].
  assert (RESP_SIZE + read_len (meta_of <$> ops) ≤ length (replicate MAX_BUF_SIZE 0%Z))%nat as Hresp.
  { rewrite length_replicate, <- length_read_data.
    unfold MAX_BUF_SIZE, RESP_SIZE, MAX_PAYLOAD_SIZE in *. lia. }
  pose proof (dispatch_answers b addr ops _ Ha Hn Hw Hr Hresp) as Hd.
  destruct (transaction b addr (blank <$> ops)) as [[b' ops'] r].
  destruct Hd as (w & Hans & Hof).
  destruct Hans as (resp' & Hd & Htake & _).
  erewrite client_transact_answered with
    (res := match r with Ok _ => Ok ops' | Err k => Err (kind_to_wire k) end)
    (t' := mkLoopback b') (w := w); try done.
  - by destruct r.
  - unfold transact, loopback_transact. cbn [bus]. by rewrite Hd.
Qed.
End loopback.

(** ** Properties *)

(** C5: The client is the bus behind it.  Over the loopback transport a
    client transaction within the limits (sixteen operations, 256 bytes each way)
    is one transaction of the bus with the same address and write data: the
    caller gets exactly the bytes the bus read, or an error of the kind the bus
    reported with its slices untouched; a transaction beyond the limits is refused
    without reaching the bus.  Nothing panics. *)
Theorem i2c_client_is_the_bus {B : Type} `{I2cLaws B} (b : B) (addr : Z) (ops : list Operation) :
  in_u8 addr →
  client_transact (mkLoopback b) addr ops =
    (let '(b', ops', r) := bus_transaction b addr ops in Some (mkLoopback b', ops', r)) ∧
  ((length ops ≤ MAX_OPS)%nat → (length (write_data ops) ≤ MAX_PAYLOAD_SIZE)%nat →
   (length (read_data ops) ≤ MAX_PAYLOAD_SIZE)%nat →
   let '(b', ops', r) := transaction b addr (blank <$> ops) in
   let '(b'', ops'', r') := bus_transaction b addr ops in
   b'' = b' ∧ map_err client_error_kind r' = r ∧
   ops'' = match r with Ok _ => ops' | Err _ => ops end).
Proof.
  intros Ha. split; [by apply client_over_loopback|]. intros Hn Hw Hr. unfold bus_transaction.
  rewrite (proj2 (Nat.ltb_ge _ _) Hn), (proj2 (Nat.ltb_ge _ _) Hw), (proj2 (Nat.ltb_ge _ _) Hr).
  cbn [orb]. destruct (transaction b addr (blank <$> ops)) as [[b' ops'] [[]|kind]]; [done|].
  simpl. by rewrite error_kind_to_wire.
Qed.

Lemma i2c_client_is_the_bus_witness :
  client_transact (T := LoopbackTransport (list Z)) (mkLoopback []) 72
      [OpWrite [222; 173]; OpRead [0; 0; 0]] =
    Some (mkLoopback [222; 173], [OpWrite [222; 173]; OpRead [7; 7; 7]], Ok ()).
Proof.
  pose proof (i2c_client_is_the_bus (B := list Z) [] 72 [OpWrite [222; 173]; OpRead [0; 0; 0]])
    as [He _]; [unfold in_u8, u8_MAX; lia|]. rewrite He. reflexivity.
Defined.
