(* ===== verification/I2cRuntime.v ===== *)
(** * The I2C server loop

    [services/i2c/server-runtime/src/lib.rs]: one bus driver per IPC channel, with
    a latch for slave-received bytes that the hardware interrupt fills and
    [SlaveReceive] empties.  One turn of the loop of [run] is [run_turn]: what
    [object_wait] reported goes in; the buses, the buffers and the system calls
    made come out.

    [None] is a panic. *)

From S2P Require Import Prelude Bytes I2cWire I2cServer I2cClient.
From stdpp Require Import base tactics option list numbers.
Local Open Scope Z_scope.

(** ** The driver seams of the runtime *)

(** [I2cIsrEvent] of [hal/blocking/src/i2c_hardware.rs]. *)
Inductive I2cIsrEvent := SlaveRdReq | SlaveWrReq | SlaveRdProc | SlaveWrRecvd | SlaveStop.

(** The calls of [I2cSlaveBuffer], [I2cSlaveEvent] and [I2cBusRecovery] the loop
    makes.  [read_slave_buffer] fills the slice it is lent and returns how many
    bytes it put there. *)
Class I2cDriver (B : Type) : Type := {
  driver_bus :: I2c B;
  driver_slave :: I2cSlaveCore B;
  read_slave_buffer : B → list Z → B * list Z * result nat ErrorKind;
  write_slave_response : B → list Z → B * result unit ErrorKind;
  try_next_slave_event : B → B * result (option (I2cIsrEvent * nat)) ErrorKind;
  recover_bus : B → B * result unit ErrorKind;
}.

(** [read_slave_buffer] writes into a slice: its length stays, and the count is
    of bytes of the slice, which is not empty. *)
Class I2cDriverLaws (B : Type) `{I2cDriver B} : Prop := {
  driver_bus_laws :: I2cLaws B;
  read_slave_length b buf : length (read_slave_buffer b buf).1.2 = length buf;
  read_slave_count b buf n : buf ≠ [] → (read_slave_buffer b buf).2 = Ok n → (n ≤ length buf)%nat;
}.

(** ** The state of a bus *)

Record BusState (B : Type) := mkBus {
  channel : Z;
  irq : Z;
  driver : B;
  notif_enabled : bool;
  rx : list Z;
  rx_len : nat;
  rx_event_kind : SlaveEvent;
}.
Arguments mkBus {B} _ _ _ _ _ _ _.
Arguments channel {B} _.
Arguments irq {B} _.
Arguments driver {B} _.
Arguments notif_enabled {B} _.
Arguments rx {B} _.
Arguments rx_len {B} _.
Arguments rx_event_kind {B} _.

Section bus_state.
Context {B : Type}.
Implicit Types bus : BusState B.

Definition Bus_new (channel irq : Z) (driver : B) : BusState B :=
  {| channel := channel; irq := irq; driver := driver; notif_enabled := false;
     rx := replicate MAX_PAYLOAD_SIZE 0; rx_len := 0; rx_event_kind := DataReceived |}.

Definition with_driver (d : B) bus : BusState B :=
  mkBus (channel bus) (irq bus) d (notif_enabled bus) (rx bus) (rx_len bus) (rx_event_kind bus).
Definition with_notif (b : bool) bus : BusState B :=
  mkBus (channel bus) (irq bus) (driver bus) b (rx bus) (rx_len bus) (rx_event_kind bus).
Definition with_rx (r : list Z) bus : BusState B :=
  mkBus (channel bus) (irq bus) (driver bus) (notif_enabled bus) r (rx_len bus) (rx_event_kind bus).
Definition with_rx_len (n : nat) bus : BusState B :=
  mkBus (channel bus) (irq bus) (driver bus) (notif_enabled bus) (rx bus) n (rx_event_kind bus).
Definition with_kind (k : SlaveEvent) bus : BusState B :=
  mkBus (channel bus) (irq bus) (driver bus) (notif_enabled bus) (rx bus) (rx_len bus) k.
End bus_state.

(** ** The system calls *)

Inductive Syscall :=
| InterruptAck (irq : Z)
| SetPeerUserSignal (channel : Z) (set : bool)
| ChannelRespond (channel : Z) (response : list Z).
#[export] Instance Syscall_eq_dec : EqDecision Syscall.
Proof. solve_decision. Defined.

(** What [object_wait] returned, as the loop tells it apart: nothing it handles,
    an interrupt, or a readable channel with the bytes [channel_read] delivers
    from it ([None] when that fails). *)
Inductive Wake :=
| WakeNothing
| WakeIrq (user_data : Z)
| WakeReadable (user_data : Z) (request : option (list Z)).

Section runtime.
Context {B : Type} `{I2cDriver B}.
Implicit Types bus : BusState B.

(** The interrupt path up to the acknowledgement: fill the latch. *)
Definition drain_irq bus : BusState B :=
  if notif_enabled bus then
    let '(d, r) := try_next_slave_event (driver bus) in
    let bus := with_driver d bus in
    match r with
    | Ok (Some (SlaveWrRecvd, _)) =>
        let bus := with_kind DataReceived bus in
        let '(d, buf, r) := read_slave_buffer (driver bus) (rx bus) in
        let bus := with_rx buf (with_driver d bus) in
        match r with
        | Ok n => if (0 <? n)%nat then with_rx_len n bus else bus
        | Err _ => bus
        end
    | Ok (Some (SlaveRdReq, _)) => with_kind ReadRequest bus
    | Ok (Some (SlaveStop, _)) => with_kind Stop bus
    | Ok (Some (_, _)) | Ok None | Err _ => bus
    end
  else bus.

Definition handle_irq bus : BusState B * list Syscall :=
  let bus := drain_irq bus in
  let should_wake :=
    notif_enabled bus && ((0 <? rx_len bus)%nat || bool_decide (rx_event_kind bus = Stop)) in
  (bus, InterruptAck (irq bus) ::
    if should_wake then [SetPeerUserSignal (channel bus) true] else []).

(** [header]: the operation and the [SlaveReceive] limit. *)
Definition header (req : list Z) : option (I2cOp * nat) :=
  if (length req <? REQ_SIZE)%nat then None
  else
    bytes ← slice_to req REQ_SIZE;
    h ← request_from_bytes bytes;
    match operation h with Ok op => Some (op, op_count_value h) | Err _ => None end.

(** The recovery after a failed transaction. *)
Definition recover_after (d : B) (response_buf : list Z) (n : nat) : option B :=
  if (RESP_SIZE <=? n)%nat then
    bytes ← slice_to response_buf RESP_SIZE;
    Some match response_from_bytes bytes with
         | None => d
         | Some rhdr =>
             match error_code rhdr with
             | Some Bus | Some ArbitrationLoss | Some Timeout => (recover_bus d).1
             | _ => d
             end
         end
  else Some d.

(** The [match header(req)]: the bus, the response buffer, the length of the
    response and the system calls made meanwhile. *)
Definition handle_request bus (req response_buf : list Z) :
    option (BusState B * list Z * nat * list Syscall) :=
  let ack bus := '(buf, n) ← encode_ok response_buf 0; Some (bus, buf, n, []) in
  let fail bus e := '(buf, n) ← encode_error response_buf e; Some (bus, buf, n, []) in
  match header req with
  | Some (Transaction, _) =>
      '(d, buf, n) ← dispatch (driver bus) req response_buf;
      d ← recover_after d buf n;
      Some (with_driver d bus, buf, n, [])
  | Some (ConfigureSlave, _) | Some (EnableSlave, _) | Some (DisableSlave, _) =>
      '(d, buf, n) ← dispatch_slave (driver bus) req response_buf;
      Some (with_driver d bus, buf, n, [])
  | Some (EnableSlaveNotification, _) => ack (with_notif true bus)
  | Some (DisableSlaveNotification, _) =>
      ack (with_kind DataReceived (with_rx_len 0 (with_notif false bus)))
  | Some (SlaveReceive, max_len) =>
      let calls := [SetPeerUserSignal (channel bus) false] in
      if (rx_len bus =? 0)%nat then
        '(buf, n) ← encode_error response_buf NoData; Some (bus, buf, n, calls)
      else
        let cap := (length response_buf - RESP_SIZE)%nat in
        if (cap <? 1)%nat then
          '(buf, n) ← encode_error response_buf BufferTooSmall; Some (bus, buf, n, calls)
        else
          let data_cap := (cap - 1)%nat in
          let n := Nat.min (Nat.min (rx_len bus) max_len) data_cap in
          buf ← copy_into RESP_SIZE [event_u8 (rx_event_kind bus)] response_buf;
          data ← slice_to (rx bus) n;
          buf ← copy_into (RESP_SIZE + 1) data buf;
          '(buf, len) ← encode_ok buf (1 + n);
          Some (with_rx_len 0 bus, buf, len, calls)
  | Some (SlaveSetResponse, _) =>
      if (length req <? REQ_SIZE)%nat then fail bus InvalidOperation
      else
        let '(d, r) := write_slave_response (driver bus) (drop REQ_SIZE req) in
        match r with
        | Ok _ => ack (with_driver d bus)
        | Err _ => fail (with_driver d bus) InternalError
        end
  | None => fail bus InvalidOperation
  end.

(** One turn of the loop: the buses, the response buffer and the system calls. *)
Definition run_turn (buses : list (BusState B)) (response_buf : list Z) (w : Wake) :
    option (list (BusState B) * list Z * list Syscall) :=
  match w with
  | WakeNothing => Some (buses, response_buf, [])
  | WakeIrq user_data =>
      match position (λ b, irq b =? user_data) buses with
      | None => Some (buses, response_buf, [])
      | Some i =>
          bus ← buses !! i;
          let '(bus, calls) := handle_irq bus in
          Some (<[i := bus]> buses, response_buf, calls)
      end
  | WakeReadable user_data request =>
      match position (λ b, channel b =? user_data) buses with
      | None => Some (buses, response_buf, [])
      | Some i =>
          bus ← buses !! i;
          match request with
          | None => Some (buses, response_buf, [])
          | Some req =>
              '(bus, buf, n, calls) ← handle_request bus req response_buf;
              response ← slice_to buf n;
              Some (<[i := bus]> buses, buf, calls ++ [ChannelRespond user_data response])
          end
      end
  end.
End runtime.

(** ** The client over the served channel *)

(** The server process as a client's transport sees it: its bus and its response
    buffer.  The kernel copies the response into the client's buffer when it
    fits. *)
Record Served (B : Type) := mkServed { sv_bus : BusState B; sv_buf : list Z }.
Arguments mkServed {B} _ _.
Arguments sv_bus {B} _.
Arguments sv_buf {B} _.

#[export] Instance served_transact {B} `{I2cDriver B} : Transport (Served B) :=
  λ s req resp,
    '(bus, buf, n, _) ← handle_request (sv_bus s) req (sv_buf s);
    response ← slice_to buf n;
    Some (if (length response <=? length resp)%nat
          then (mkServed bus buf, write_at 0 response resp, Ok n)
          else (mkServed bus buf, resp, Err TransportFailed)).

(** ** Well-formed buses *)

Section wf.
Context {B : Type} `{I2cDriverLaws B}.
Implicit Types bus : BusState B.

Definition bus_wf bus : Prop :=
  length (rx bus) = MAX_PAYLOAD_SIZE ∧ (rx_len bus ≤ MAX_PAYLOAD_SIZE)%nat.

(** The wiring of a bus never changes. *)
Definition same_wiring bus bus' : Prop := channel bus' = channel bus ∧ irq bus' = irq bus.

Lemma drain_irq_wf bus : bus_wf bus → bus_wf (drain_irq bus) ∧ same_wiring bus (drain_irq bus).
Proof.
  intros [Hl Hn]. unfold drain_irq. destruct (notif_enabled bus); [|done].
  destruct (try_next_slave_event (driver bus)) as [d [[[[] k]|]|]]; try done.
  cbn [driver rx with_driver with_kind].
  pose proof (read_slave_length d (rx bus)) as Hlen.
  pose proof (λ n, read_slave_count d (rx bus) n) as Hcnt.
  destruct (read_slave_buffer d (rx bus)) as [[d' buf] [n|]]; cbn [fst snd] in *.
  - specialize (Hcnt n ltac:(by intros E; rewrite E in Hl) eq_refl). destruct (0 <? n)%nat; (split; [split|done]); simpl; lia.
  - split; [split|done]; simpl; lia.
Qed.

(** A reply of [n] bytes in the buffer. *)
Definition reply_ok (response_buf buf : list Z) (n : nat) : Prop :=
  length buf = length response_buf ∧ (RESP_SIZE ≤ n ≤ length buf)%nat.

Lemma encode_error_reply response_buf e :
  (RESP_SIZE ≤ length response_buf)%nat →
  ∃ buf n, encode_error response_buf e = Some (buf, n) ∧ reply_ok response_buf buf n.
Proof.
  intros Hl. unfold encode_error. rewrite copy_into_Some by sizes. cbn [mbind option_bind].
  eexists _, _. split; [done|]. unfold reply_ok. rewrite length_write_at by sizes. lia.
Qed.

Lemma encode_ok_reply response_buf m :
  (RESP_SIZE + m ≤ length response_buf)%nat →
  ∃ buf n, encode_ok response_buf m = Some (buf, n) ∧ reply_ok response_buf buf n.
Proof.
  intros Hl. unfold encode_ok. rewrite copy_into_Some by sizes. cbn [mbind option_bind].
  eexists _, _. split; [done|]. unfold reply_ok. rewrite length_write_at by sizes. lia.
Qed.

Lemma dispatch_reply (d : B) req response_buf :
  (RESP_SIZE ≤ length response_buf)%nat →
  ∃ d' buf n, dispatch d req response_buf = Some (d', buf, n) ∧ reply_ok response_buf buf n.
Proof.
  intros Hl. destruct (dispatch_spec d req response_buf Hl) as (d' & w & (buf & He & Hw & Hlen) & Hd).
  eexists _, _, _. split; [exact He|]. split; [done|]. split.
  - destruct Hd as [(e & _ & ->)|(a & ops & _ & _ & _ & Hd)]; [done|].
    destruct (transaction d a ops) as [[? ?] [[]|]]; destruct Hd as [_ ->];
      rewrite ?length_app; simpl; unfold RESP_SIZE; lia.
  - rewrite <- Hw at 1. rewrite length_take. lia.
Qed.

Lemma dispatch_slave_reply (d : B) req response_buf :
  (RESP_SIZE ≤ length response_buf)%nat →
  ∃ d' buf n, dispatch_slave d req response_buf = Some (d', buf, n) ∧
    reply_ok response_buf buf n.
Proof.
  intros Hl.
  assert (∀ (d : B) e, ∃ d' buf n, refuse d response_buf e = Some (d', buf, n) ∧
    reply_ok response_buf buf n) as Hrefuse.
  { intros d0 e. destruct (encode_error_reply response_buf e Hl) as (buf & n & He & Hr).
    unfold refuse. rewrite He. eexists _, _, _. split; [done|done]. }
  unfold dispatch_slave. destruct (Nat.ltb_spec (length req) REQ_SIZE) as [|Hq]; [apply Hrefuse|].
  rewrite slice_to_Some by done. cbn [mbind option_bind].
  destruct (request_from_bytes _) as [hdr|]; [|apply Hrefuse].
  assert (∀ br : B * result unit ErrorKind, ∃ d' buf n,
    match br.2 with
    | Ok _ => '(response, n) ← encode_ok response_buf 0; Some (br.1, response, n)
    | Err kind => refuse br.1 response_buf (kind_to_wire kind)
    end = Some (d', buf, n) ∧ reply_ok response_buf buf n) as Hans.
  { intros [d0 [[]|k]]; simpl; [|apply Hrefuse].
    destruct (encode_ok_reply response_buf 0) as (buf & n & He & Hr); [lia|].
    rewrite He. eexists _, _, _. split; [done|done]. }
  destruct (operation hdr) as [[]|]; first [apply Hrefuse|apply Hans].
Qed.

Lemma recover_after_total (d : B) buf n :
  (RESP_SIZE ≤ length buf)%nat → is_Some (recover_after d buf n).
Proof.
  intros Hl. unfold recover_after. destruct (_ <=? _)%nat; [|eauto].
  rewrite slice_to_Some by done. cbn [mbind option_bind]. eauto.
Qed.

(** No system call of a request's handling is a response. *)
Definition no_respond (calls : list Syscall) : Prop :=
  ∀ ch r, ChannelRespond ch r ∉ calls.

(** The room a response needs: a header, the event kind and one byte more. *)
Lemma handle_request_total bus req response_buf :
  bus_wf bus → (RESP_SIZE < length response_buf)%nat →
  ∃ bus' buf n calls, handle_request bus req response_buf = Some (bus', buf, n, calls) ∧
    bus_wf bus' ∧ same_wiring bus bus' ∧ reply_ok response_buf buf n ∧ no_respond calls.
Proof.
  intros Hwf Hl.
  assert (∀ bus', bus_wf bus' → same_wiring bus bus' → ∃ b buf n calls,
    ('(buf, n) ← encode_ok response_buf 0; Some (bus', buf, n, [])) = Some (b, buf, n, calls) ∧
    bus_wf b ∧ same_wiring bus b ∧ reply_ok response_buf buf n ∧ no_respond calls) as Hack.
  { intros bus' Hb Hs. destruct (encode_ok_reply response_buf 0) as (buf & n & -> & Hr); [lia|].
    eexists _, _, _, _. split; [done|]. split_and!; try done. intros ch r. by apply not_elem_of_nil. }
  assert (∀ bus' e calls, bus_wf bus' → same_wiring bus bus' → no_respond calls → ∃ b buf n calls',
    ('(buf, n) ← encode_error response_buf e; Some (bus', buf, n, calls)) =
      Some (b, buf, n, calls') ∧
    bus_wf b ∧ same_wiring bus b ∧ reply_ok response_buf buf n ∧ no_respond calls') as Hfail.
  { intros bus' e calls Hb Hs Hc.
    destruct (encode_error_reply response_buf e) as (buf & n & -> & Hr); [lia|].
    eexists _, _, _, _. split; [done|]. by split_and!. }
  assert (no_respond []) as Hnil by (intros ch r; apply not_elem_of_nil).
  assert (no_respond [SetPeerUserSignal (channel bus) false]) as Hone.
  { intros ch r Hin. by apply list_elem_of_singleton in Hin. }
  unfold handle_request. destruct (header req) as [[[] max_len]|]; try by apply Hfail.
  2-4: destruct (dispatch_slave_reply (driver bus) req response_buf)
    as (d & buf & n & -> & Hr); [lia|]; eexists _, _, _, _; split; [done|]; by split_and!.
  - destruct (dispatch_reply (driver bus) req response_buf) as (d & buf & n & -> & Hr); [lia|].
    cbn [mbind option_bind]. destruct (recover_after_total d buf n) as [d' ->].
    { destruct Hr. lia. }
    cbn [mbind option_bind]. eexists _, _, _, _. split; [done|]. by split_and!.
  - by apply Hack.
  - apply Hack; [|done]. destruct Hwf. split; simpl; [done|lia].
  - destruct (Nat.eqb_spec (rx_len bus) 0) as [Hz|Hz]; [by apply Hfail|].
    destruct (Nat.ltb_spec (length response_buf - RESP_SIZE) 1) as [|Hcap]; [by apply Hfail|].
    destruct Hwf as [Hrx Hrl].
    rewrite copy_into_Some by sizes. cbn [mbind option_bind].
    rewrite slice_to_Some by lia. cbn [mbind option_bind].
    rewrite copy_into_Some by (rewrite length_write_at; sizes). cbn [mbind option_bind].
    match goal with |- context [encode_ok ?b ?m] =>
      destruct (encode_ok_reply b m) as (buf & n & -> & Hr) end.
    { rewrite !length_write_at; rewrite ?length_write_at; sizes. }
    eexists _, _, _, _. split; [done|]. split_and!; try done.
    { split; simpl; [done|lia]. }
    destruct Hr as [Hb Hn]. split; [|done]. rewrite Hb.
    rewrite !length_write_at; rewrite ?length_write_at; sizes.
  - destruct (length req <? REQ_SIZE)%nat; [by apply Hfail|].
    destruct (write_slave_response _ _) as [d [[]|]]; [by apply Hack|by apply Hfail].
Qed.
End wf.

(** ** Lemmas: the slave latch *)

Section latch.
Context {B : Type} `{I2cDriverLaws B}.
Implicit Types bus : BusState B.

Lemma header_of op addr count len rest :
  in_u16 addr → in_u16 count → in_u16 len →
  header (request_as_bytes (I2cRequestHeader_new op addr count len) ++ rest) =
    Some (op, as_usize count).
Proof.
  intros Ha Hc Hl. unfold header. rewrite length_app, length_i2c_request.
  rewrite (proj2 (Nat.ltb_ge _ _)) by lia. rewrite slice_to_app by done. cbn [mbind option_bind].
  rewrite i2c_request_roundtrip by done. cbn [mbind option_bind]. unfold operation.
  cbn [op_code I2cRequestHeader_new]. by rewrite op_try_from_u8.
Qed.

(** The bytes a [SlaveReceive] of at most [max] data bytes answers. *)
Definition latch_payload bus (max : nat) : list Z :=
  event_u8 (rx_event_kind bus) :: take (Nat.min (rx_len bus) max) (rx bus).

Lemma length_latch_payload bus max :
  bus_wf bus → length (latch_payload bus max) = S (Nat.min (rx_len bus) max).
Proof. intros [Hr Hl]. simpl. rewrite length_take. lia. Qed.

Lemma serve_latch bus sbuf (max : nat) :
  bus_wf bus → (0 < rx_len bus)%nat → (max ≤ MAX_PAYLOAD_SIZE)%nat →
  length sbuf = MAX_BUF_SIZE →
  let h := response_success (Z.of_nat (length (latch_payload bus max))) in
  ∃ sbuf', length sbuf' = MAX_BUF_SIZE ∧
    handle_request bus
      (request_as_bytes (I2cRequestHeader_new SlaveReceive 0 (as_u16 (Z.of_nat max)) 0)) sbuf =
      Some (with_rx_len 0 bus, sbuf', (RESP_SIZE + length (latch_payload bus max))%nat,
        [SetPeerUserSignal (channel bus) false]) ∧
    take (RESP_SIZE + length (latch_payload bus max)) sbuf' =
      response_as_bytes h ++ latch_payload bus max.
Proof.
  intros Hwf Hn Hmax Hbuf h. pose proof (length_latch_payload bus max Hwf) as Hlp.
  destruct Hwf as [Hrx Hrl].
  assert (in_u16 (Z.of_nat max)) as Hu by (unfold in_u16, u16_MAX, MAX_PAYLOAD_SIZE in *; lia).
  unfold handle_request. rewrite <- (app_nil_r (request_as_bytes _)).
  rewrite header_of by auto with bytes.
  rewrite as_u16_small, as_usize_of_nat by done.
  rewrite (proj2 (Nat.eqb_neq _ _)) by lia. rewrite Hbuf.
  unfold MAX_BUF_SIZE, RESP_SIZE, MAX_PAYLOAD_SIZE in Hbuf, Hrx, Hrl, Hmax.
  rewrite (proj2 (Nat.ltb_ge _ _)) by (unfold MAX_BUF_SIZE, RESP_SIZE; lia).
  rewrite (Nat.min_l (Nat.min _ _)) by (unfold MAX_BUF_SIZE, RESP_SIZE; lia).
  rewrite copy_into_Some by sizes. cbn [mbind option_bind].
  rewrite slice_to_Some by lia. cbn [mbind option_bind].
  rewrite copy_into_Some by (rewrite length_write_at; sizes). cbn [mbind option_bind].
  unfold encode_ok. change (1 + Nat.min (rx_len bus) max)%nat with (S (Nat.min (rx_len bus) max)).
  rewrite <- Hlp, as_u16_small by (unfold in_u16, u16_MAX; lia). fold h.
  set (n := Nat.min (rx_len bus) max) in *.
  assert (length (take n (rx bus)) = n) as Htn by (rewrite length_take; lia).
  assert (write_at (RESP_SIZE + 1) (take n (rx bus))
      (write_at RESP_SIZE [event_u8 (rx_event_kind bus)] sbuf) =
    write_at RESP_SIZE (latch_payload bus max) sbuf) as ->.
  { unfold write_at at 1. rewrite drop_write_at by (rewrite ?Htn; sizes).
    change (RESP_SIZE + 1)%nat with (RESP_SIZE + length [event_u8 (rx_event_kind bus)])%nat.
    rewrite take_write_at by sizes. unfold write_at, latch_payload. fold n.
    rewrite <- !app_assoc. cbn [app length]. by rewrite Htn, Nat.add_succ_r. }
  assert (RESP_SIZE + length (latch_payload bus max) ≤ length sbuf)%nat as Hfit.
  { rewrite Hlp. unfold RESP_SIZE. lia. }
  rewrite copy_into_Some by (rewrite length_write_at by done; sizes). cbn [mbind option_bind].
  eexists. split; [|split; [done|]].
  - rewrite !length_write_at; rewrite ?length_write_at by done; [done|sizes..].
  - rewrite write_at_0, drop_write_at_self by sizes. apply take_two. done.
Qed.


(** A client's receive with nothing latched. *)
Lemma receive_nothing bus sbuf buf :
  rx_len bus = 0%nat → length sbuf = MAX_BUF_SIZE →
  ∃ s', slave_receive (mkServed bus sbuf) buf = Some (s', buf, Err (ServerError NoData)).
Proof.
  intros Hn Hs. unfold slave_receive.
  unfold transact, served_transact, handle_request. cbn [sv_bus sv_buf].
  rewrite <- (app_nil_r (request_as_bytes _)).
  rewrite header_of by auto with bytes. rewrite Hn, Nat.eqb_refl.
  unfold encode_error. rewrite copy_into_Some by (rewrite Hs; unfold MAX_BUF_SIZE; sizes).
  cbn [mbind option_bind]. rewrite write_at_0.
  rewrite slice_to_app by done. cbn [mbind option_bind]. eexists. done.
Qed.
End latch.

(** ** Properties *)

(** The bus a wake-up is for. *)
Definition woken {B} (buses : list (BusState B)) (w : Wake) : option nat :=
  match w with
  | WakeNothing => None
  | WakeIrq u => position (λ b, irq b =? u) buses
  | WakeReadable u _ => position (λ b, channel b =? u) buses
  end.

(** The responses among the system calls. *)
Definition responses (calls : list Syscall) : list (Z * list Z) :=
  omap (λ c, match c with ChannelRespond ch r => Some (ch, r) | _ => None end) calls.

Lemma responses_none calls : no_respond calls → responses calls = [].
Proof.
  unfold responses. induction calls as [|c calls IH]; intros Hc; [done|].
  destruct c as [| |ch r]; simpl; [..|destruct (Hc ch r); left];
    apply IH; intros ch r Hin; apply (Hc ch r); by right.
Qed.

(** The server loop never panics and keeps buses apart.  From buses with
    well-formed latches any wake-up is handled: the latches stay well formed, only
    the bus the wake-up is for changes, and a readable known channel gets exactly
    one response, at least a header, on that channel; nothing else is ever
    answered. *)
Theorem run_turn_serves {B : Type} `{I2cDriverLaws B} (buses : list (BusState B))
    (response_buf : list Z) (w : Wake) :
  Forall bus_wf buses → (RESP_SIZE < length response_buf)%nat →
  ∃ buses' buf calls,
    run_turn buses response_buf w = Some (buses', buf, calls) ∧
    Forall bus_wf buses' ∧ length buf = length response_buf ∧
    length buses' = length buses ∧
    (∀ i, woken buses w ≠ Some i → buses' !! i = buses !! i) ∧
    match woken buses w, w with
    | Some _, WakeReadable ch (Some _) =>
        ∃ r, responses calls = [(ch, r)] ∧ (RESP_SIZE ≤ length r)%nat
    | _, _ => responses calls = []
    end.
Proof.
  intros Hwf Hl. destruct w as [|u|u request]; simpl.
  { eexists _, _, _. by split_and!. }
  - destruct (position _ buses) as [i|] eqn:Hi; [|eexists _, _, _; by split_and!].
    destruct (position_Some _ _ _ Hi) as (bus & Hb & _). rewrite Hb. cbn [mbind option_bind].
    assert (bus_wf (drain_irq bus)) as Hd.
    { apply drain_irq_wf. by eapply Forall_lookup_1. }
    unfold handle_irq. eexists _, _, _. split; [done|].
    split_and!; [by apply Forall_insert|done|by rewrite length_insert| |].
    + intros j Hj. apply list_lookup_insert_ne. congruence.
    + by destruct (_ && _).
  - destruct (position _ buses) as [i|] eqn:Hi; [|eexists _, _, _; by split_and!].
    destruct (position_Some _ _ _ Hi) as (bus & Hb & _). rewrite Hb. cbn [mbind option_bind].
    destruct request as [req|]; [|eexists _, _, _; by split_and!].
    destruct (handle_request_total bus req response_buf)
      as (bus' & buf & n & calls & -> & Hbus & _ & [Hlb Hn] & Hc); [by eapply Forall_lookup_1|done|].
    cbn [mbind option_bind]. rewrite slice_to_Some by lia. cbn [mbind option_bind].
    eexists _, _, _. split; [done|].
    split_and!; [by apply Forall_insert|done|by rewrite length_insert| |].
    + intros j Hj. apply list_lookup_insert_ne. congruence.
    + exists (take n buf). unfold responses. rewrite omap_app. fold (responses calls).
      rewrite responses_none by done. split; [done|]. rewrite length_take. lia.
Qed.


(** A stop condition wakes the client for nothing.  On an armed bus with
    nothing latched, an interrupt for a stop condition signals the client's
    channel, and the receive it makes in answer finds no data: the boundary the
    wake-up announces is never delivered. *)
Theorem stop_wakes_for_nothing {B : Type} `{I2cDriverLaws B} (bus : BusState B) (d1 : B) (k : nat)
    (sbuf buf : list Z) :
  notif_enabled bus = true → rx_len bus = 0%nat →
  try_next_slave_event (driver bus) = (d1, Ok (Some (SlaveStop, k))) →
  length sbuf = MAX_BUF_SIZE →
  let '(bus1, calls) := handle_irq bus in
  SetPeerUserSignal (channel bus) true ∈ calls ∧
  ∃ s2, slave_receive (mkServed bus1 sbuf) buf = Some (s2, buf, Err (ServerError NoData)).
Proof.
  intros Hen Hz Hev Hs. unfold handle_irq, drain_irq. rewrite Hen, Hev. simpl.
  rewrite Hz, Hen. simpl. split; [by right; left|]. by apply receive_nothing.
Qed.

(** The driver after a transaction: recovered when the bus itself failed. *)
Definition recovered {B} `{I2cDriver B} (d : B) (r : result unit ErrorKind) : B :=
  match r with
  | Err KBus | Err KArbitrationLoss => (recover_bus d).1
  | _ => d
  end.

Lemma recover_after_answer {B} `{I2cDriver B} (d : B) ops ops' r w buf :
  answer_of ops match r with Ok _ => Ok ops' | Err k => Err (kind_to_wire k) end w →
  (length (read_data ops) ≤ MAX_PAYLOAD_SIZE)%nat → (RESP_SIZE ≤ length buf)%nat →
  take (length w) buf = w → recover_after d buf (length w) = Some (recovered d r).
Proof.
  intros Hans Hr Hl Htake. unfold recover_after. unfold answer_of in Hans.
  assert (∃ h rest, w = response_as_bytes h ++ rest ∧ in_u16 (resp_payload_len h) ∧
    match r with Ok _ => error_code h = None | Err k => error_code h = Some (kind_to_wire k) end)
    as (h & rest & Hw & Hh & He).
  { destruct r as [[]|k].
    - destruct Hans as [Hlent ->]. eexists _, _. split; [done|]. split; [|done].
      simpl. rewrite length_read_data, (lent_meta _ _ Hlent), <- length_read_data.
      unfold in_u16, u16_MAX, MAX_PAYLOAD_SIZE in *. lia.
    - exists (response_error (kind_to_wire k)), []. rewrite app_nil_r. split; [done|].
      split; [apply in_u16_0|apply error_code_of]. }
  assert (RESP_SIZE ≤ length w)%nat as Hlw by (rewrite Hw, length_app; sizes).
  rewrite (proj2 (Nat.leb_le _ _) Hlw).
  rewrite <- (take_drop (length w) buf), Htake, Hw, <- app_assoc, slice_to_app by done.
  cbn [mbind option_bind]. rewrite i2c_response_roundtrip by done.
  destruct r as [[]|k]; rewrite He; [done|]. by destruct k as [| |[]| |].
Qed.

(** A client transaction over the served channel is the bus's, and a bus
    failure is followed by a recovery.  The client sees what it would see on the
    bus; the driver has made that one transaction, and then one recovery exactly
    when the transaction ended in a bus error or a lost arbitration. *)
Theorem served_transaction_recovers {B : Type} `{I2cDriverLaws B} (bus : BusState B)
    (sbuf : list Z) (addr : Z) (ops : list Operation) :
  in_u8 addr → (length ops ≤ MAX_OPS)%nat →
  (length (write_data ops) ≤ MAX_PAYLOAD_SIZE)%nat →
  (length (read_data ops) ≤ MAX_PAYLOAD_SIZE)%nat → length sbuf = MAX_BUF_SIZE →
  let '(d, ops', r) := transaction (driver bus) addr (blank <$> ops) in
  ∃ sbuf', length sbuf' = MAX_BUF_SIZE ∧
    client_transact (mkServed bus sbuf) addr ops =
      Some (mkServed (with_driver (recovered d r) bus) sbuf',
        match r with Ok _ => ops' | Err _ => ops end,
        match r with Ok _ => Ok () | Err k => Err (ServerError (kind_to_wire k)) end).
Proof.
  intros Ha Hn Hw Hr Hs.
  assert (RESP_SIZE + read_len (meta_of <$> ops) ≤ length sbuf)%nat as Hresp.
  { rewrite Hs, <- length_read_data. unfold MAX_BUF_SIZE, RESP_SIZE, MAX_PAYLOAD_SIZE in *. lia. }
  pose proof (dispatch_answers (driver bus) addr ops sbuf Ha Hn Hw Hr Hresp) as Hd.
  destruct (transaction (driver bus) addr (blank <$> ops)) as [[d ops'] r].
  destruct Hd as (w & (buf & Hd & Htake & Hlen) & Hans).
  exists buf. split; [congruence|].
  assert (length w ≤ MAX_BUF_SIZE)%nat as Hlw.
  { rewrite <- Htake, length_take. lia. }
  rewrite (client_transact_answered (mkServed bus sbuf)
      (mkServed (with_driver (recovered d r) bus) buf)) with (w := w)
      (resp' := write_at 0 w (replicate MAX_BUF_SIZE 0))
      (res := match r with Ok _ => Ok ops' | Err k => Err (kind_to_wire k) end); try done.
  - by destruct r.
  - unfold transact, served_transact, handle_request. cbn [sv_bus sv_buf].
    unfold transaction_request at 1.
    rewrite header_of by
      (auto with bytes; unfold in_u8, in_u16, u8_MAX, u16_MAX in *; lia).
    rewrite Hd. cbn [mbind option_bind].
    rewrite (recover_after_answer d ops ops' r w buf) by
      (done || rewrite Hlen, Hs; unfold MAX_BUF_SIZE, RESP_SIZE; lia).
    cbn [mbind option_bind]. rewrite slice_to_Some by lia. cbn [mbind option_bind].
    rewrite Htake, length_replicate, (proj2 (Nat.leb_le _ _) Hlw). reflexivity.
  - rewrite write_at_0. apply take_app_length.
Qed.

(** The answer to a receive of a full latch is one byte longer than the buffer
    the client receives it in. *)
Lemma full_latch_outgrows_client {B : Type} `{I2cDriverLaws B} (bus : BusState B) sbuf :
  bus_wf bus → rx_len bus = MAX_PAYLOAD_SIZE → length sbuf = MAX_BUF_SIZE →
  ∃ bus' sbuf' calls,
    handle_request bus (request_as_bytes
      (I2cRequestHeader_new SlaveReceive 0 (as_u16 (Z.of_nat MAX_PAYLOAD_SIZE)) 0)) sbuf =
      Some (bus', sbuf', (RESP_SIZE + MAX_PAYLOAD_SIZE + 1)%nat, calls).
Proof.
  intros Hwf Hn Hs.
  destruct (serve_latch bus sbuf MAX_PAYLOAD_SIZE Hwf) as (sbuf' & _ & -> & _);
    [rewrite Hn; unfold MAX_PAYLOAD_SIZE; lia|done|done|].
  rewrite length_latch_payload, Hn by done. eexists _, _, _. do 2 f_equal.
Qed.

(** A driver with [events] waiting and [data] in its receive buffer. *)
Record TestDriver := mkTestDriver { td_events : list I2cIsrEvent; td_data : list Z }.
#[export] Instance TestDriver_driver : I2cDriver TestDriver := {|
  driver_bus := λ d a ops, (d, ops, Err KBus);
  driver_slave := {| configure_slave_address := λ d a, (d, Ok ());
    enable_slave_mode := λ d, (d, Ok ()); disable_slave_mode := λ d, (d, Ok ()) |};
  read_slave_buffer := λ d buf,
    let n := Nat.min (length (td_data d)) (length buf) in
    (mkTestDriver (td_events d) [], write_at 0 (take n (td_data d)) buf, Ok n);
  write_slave_response := λ d _, (d, Ok ());
  try_next_slave_event := λ d,
    match td_events d with
    | [] => (d, Ok None)
    | e :: es => (mkTestDriver es (td_data d), Ok (Some (e, length (td_data d))))
    end;
  recover_bus := λ d, (d, Ok ());
|}.
#[export] Instance TestDriver_laws : I2cDriverLaws TestDriver.
Proof.
  constructor.
  - intros d a ops. simpl. induction ops as [|[] ops IH]; constructor; done.
  - intros d buf. simpl. apply (length_write_at 0). rewrite length_take. simpl. lia.
  - intros d buf n _ [= <-]. lia.
Qed.

Definition ex_bus (e : I2cIsrEvent) : BusState TestDriver :=
  with_notif true (Bus_new 3 9 (mkTestDriver [e] [10; 20; 30; 40])).

Lemma run_turn_serves_witness :
  woken [ex_bus SlaveStop] (WakeReadable 3 (Some [1; 2])) = Some 0%nat ∧
  ∃ buses' buf calls,
    run_turn [ex_bus SlaveStop] (replicate 16 0) (WakeReadable 3 (Some [1; 2])) =
      Some (buses', buf, calls) ∧
    ∃ r, responses calls = [(3, r)] ∧ (RESP_SIZE ≤ length r)%nat.
Proof.
  split; [reflexivity|].
  destruct (run_turn_serves [ex_bus SlaveStop] (replicate 16 0) (WakeReadable 3 (Some [1; 2])))
    as (buses' & buf & calls & Hr & _ & _ & _ & _ & Hc).
  - repeat constructor.
  - vm_compute. lia.
  - exists buses', buf, calls. split; [exact Hr|exact Hc].
Defined.


Lemma stop_wakes_for_nothing_witness :
  SetPeerUserSignal 3 true ∈ (handle_irq (ex_bus SlaveStop)).2 ∧
  ∃ s2, slave_receive (mkServed (handle_irq (ex_bus SlaveStop)).1 (replicate 512 0)) [0; 0] =
    Some (s2, [0; 0], Err (ServerError NoData)).
Proof.
  apply (stop_wakes_for_nothing (ex_bus SlaveStop) (mkTestDriver [] [10; 20; 30; 40]) 4
    (replicate 512 0) [0; 0]); reflexivity.
Defined.

Lemma served_transaction_recovers_witness :
  ∃ sbuf', length sbuf' = MAX_BUF_SIZE ∧
    client_transact (mkServed (ex_bus SlaveStop) (replicate 512 0)) 72 [OpWrite [1; 2]] =
      Some (mkServed (ex_bus SlaveStop) sbuf', [OpWrite [1; 2]], Err (ServerError Bus)).
Proof.
  pose proof (served_transaction_recovers (ex_bus SlaveStop) (replicate 512 0) 72 [OpWrite [1; 2]])
    as Hr. cbn [transaction] in Hr. apply Hr;
    try (vm_compute; split; discriminate); try (vm_compute; lia); reflexivity.
Defined.
