(* ===== verification/MctpI2c.v ===== *)
(** * The MCTP over I2C binding

    [services/mctp/transport-i2c/src/sender.rs] and
    [services/mctp/transport-i2c/src/receiver.rs]: fragments of a message are
    framed and written to the peer, and received frames are unframed.  The
    fragmenter and the framing ([MctpI2cEncap]) are of [mctp-lib], the bus is any
    [embedded_hal::i2c::I2c], of which [I2cClient] over a transport is one.

    [None] is a panic, or a fragmenter that had more than [fuel] fragments. *)

From S2P Require Import Prelude Bytes MctpServer I2cWire I2cServer I2cClient.
From stdpp Require Import base tactics option list numbers.
Local Open Scope Z_scope.

(** ** [mctp-lib] *)

(** [SendOutput] of the fragmenter; [E] is [mctp::Error]. *)
Inductive SendOutput (E : Type) :=
| Packet (p : list Z)
| Complete (tag : Tag)
| SendError (err : E).
Arguments Packet {E} _.
Arguments Complete {E} _.
Arguments SendError {E} _.

(** [Fragmenter] and [MctpI2cEncap], which holds its own address.  A fragment is
    put into a buffer of a given size, and so is a frame; the flag asks for the
    PEC byte. *)
Class MctpLib (F E : Type) : Type := {
  fragment_vectored : F → list (list Z) → nat → F * SendOutput E;
  encap_encode : Z → Z → list Z → nat → bool → result (list Z) E;
  encap_decode : Z → list Z → bool → result (list Z * (Z * Z)) E;
  TxFailure : E;
  MCTP_I2C_MAXMTU : nat;
}.

(** The fragments a fragmenter will deliver, and how it ends. *)
Inductive fragments {F E} `{MctpLib F E} (payload : list (list Z)) :
    F → list (list Z) → result Tag E → Prop :=
| fragments_complete f f' tag :
    fragment_vectored f payload (MCTP_I2C_MAXMTU + 4) = (f', Complete tag) →
    fragments payload f [] (Ok tag)
| fragments_error f f' err :
    fragment_vectored f payload (MCTP_I2C_MAXMTU + 4) = (f', SendError err) →
    fragments payload f [] (Err err)
| fragments_packet f f' p ps r :
    fragment_vectored f payload (MCTP_I2C_MAXMTU + 4) = (f', Packet p) →
    fragments payload f' ps r →
    fragments payload f (p :: ps) r.

(** ** The binding *)

(** [I2c::write] of [embedded_hal], a transaction of one write. *)
Class I2cWrite (C : Type) : Type :=
  i2c_write : C → Z → list Z → option (C * result unit ErrorKind).

Record I2cSender (C : Type) := mkSender { i2c : C; own_addr : Z; remote_addr : Z }.
Arguments mkSender {C} _ _ _.
Arguments i2c {C} _.
Arguments own_addr {C} _.
Arguments remote_addr {C} _.

Section binding.
Context {F E C : Type} `{MctpLib F E} `{I2cWrite C}.

Definition with_i2c (c : C) (s : I2cSender C) : I2cSender C :=
  mkSender c (own_addr s) (remote_addr s).

(** The loop of [send_vectored]. *)
Fixpoint send_vectored (fuel : nat) (s : I2cSender C) (f : F) (payload : list (list Z)) :
    option (I2cSender C * result Tag E) :=
  match fuel with
  | O => None
  | S fuel =>
      let addr := remote_addr s in
      let '(f, out) := fragment_vectored f payload (MCTP_I2C_MAXMTU + 4) in
      match out with
      | Packet p =>
          match encap_encode (own_addr s) addr p (MCTP_I2C_MAXMTU + 8) true with
          | Err e => Some (s, Err e)
          | Ok packet =>
              packet_without_dest ← slice_range packet 1 (length packet);
              '(c, r) ← i2c_write (i2c s) addr packet_without_dest;
              match r with
              | Err _ => Some (with_i2c c s, Err TxFailure)
              | Ok _ => send_vectored fuel (with_i2c c s) f payload
              end
          end
      | Complete tag => Some (s, Ok tag)
      | SendError err => Some (s, Err err)
      end
  end.

Definition get_mtu (_ : I2cSender C) : nat := MCTP_I2C_MAXMTU.

(** [MctpI2cReceiver]: the encapsulation holds the receiver's address. *)
Record MctpI2cReceiver := mkReceiver { encap_addr : Z }.

Definition decode (r : MctpI2cReceiver) (data : list Z) : result (list Z * (Z * Z)) E :=
  encap_decode (encap_addr r) data true.
End binding.

(** The two buses the binding runs on: one reached directly, and a client of the
    I2C server over the loopback transport. *)
#[export] Instance bus_write {B} `{I2c B} : I2cWrite B :=
  λ b addr data, let '(b, _, r) := transaction b addr [OpWrite data] in Some (b, r).

#[export] Instance client_write {T} `{Transport T} : I2cWrite T | 1 :=
  λ t addr data,
    '(t, _, r) ← client_transact t addr [OpWrite data];
    Some (t, map_err client_error_kind r).

(** ** What a send does to the bus *)

(** Frames written in order until a write fails: the bus, and whether all were
    written. *)
Fixpoint write_frames {C} `{I2cWrite C} (c : C) (addr : Z) (frames : list (list Z)) :
    option (C * bool) :=
  match frames with
  | [] => Some (c, true)
  | fr :: frames =>
      '(c, r) ← i2c_write c addr fr;
      match r with
      | Ok _ => write_frames c addr frames
      | Err _ => Some (c, false)
      end
  end.

Section facts.
Context {F E : Type} `{MctpLib F E}.

(** The frame of a fragment is its destination byte and a body. *)
Definition framed_as (own remote : Z) (p body : list Z) : Prop :=
  ∃ dest, encap_encode own remote p (MCTP_I2C_MAXMTU + 8) true = Ok (dest :: body).

Lemma send_vectored_frames {C} `{I2cWrite C} payload f ps r bodies own remote :
  fragments payload f ps r → Forall2 (framed_as own remote) ps bodies →
  ∀ fuel (c : C), (length ps < fuel)%nat →
  send_vectored fuel (mkSender c own remote) f payload =
    ('(c, ok) ← write_frames c remote bodies;
     Some (mkSender c own remote, if ok : bool then r else Err TxFailure)).
Proof.
  intros Hf. revert bodies. induction Hf as [f f' tag Hf|f f' err Hf|f f' p ps r Hf _ IH];
    intros bodies Hb fuel c Hfuel; (destruct fuel as [|fuel]; [simpl in Hfuel; lia|]);
    cbn [send_vectored]; rewrite Hf.
  - by apply Forall2_nil_inv_l in Hb as ->.
  - by apply Forall2_nil_inv_l in Hb as ->.
  - apply Forall2_cons_inv_l in Hb as (body & bodies' & (dest & Henc) & Hb & ->).
    cbn [own_addr remote_addr i2c]. rewrite Henc.
    rewrite slice_range_Some by (simpl; lia). cbn [mbind option_bind length drop].
    replace (take _ body) with body by (rewrite take_ge; [done|simpl; lia]).
    cbn [write_frames].
    destruct (i2c_write c remote body) as [[c' [u|k]]|]; cbn [mbind option_bind]; [|done|done].
    apply IH; [done|]. simpl in Hfuel. lia.
Qed.

(** A client write within one request is the bus write. *)
Lemma client_write_is_bus {B} `{I2cLaws B} (b : B) addr data :
  in_u8 addr → (length data ≤ MAX_PAYLOAD_SIZE)%nat →
  i2c_write (mkLoopback b) addr data =
    ('(b, r) ← i2c_write b addr data; Some (mkLoopback b, r)).
Proof.
  intros Ha Hl. unfold i2c_write, client_write, bus_write.
  rewrite client_over_loopback by done. unfold bus_transaction.
  assert (write_data [OpWrite data] = data) as Hwd.
  { unfold write_data. simpl. apply app_nil_r. }
  rewrite Hwd. rewrite (proj2 (Nat.ltb_ge _ _) Hl).
  change (MAX_OPS <? length [OpWrite data])%nat with false.
  change (MAX_PAYLOAD_SIZE <? length (read_data [OpWrite data]))%nat with false. cbn [orb].
  change (blank <$> [OpWrite data]) with [OpWrite data].
  destruct (transaction b addr [OpWrite data]) as [[b' ops'] [[]|k]]; [done|].
  simpl. by rewrite error_kind_to_wire.
Qed.

Lemma write_frames_client {B} `{I2cLaws B} (b : B) addr frames :
  in_u8 addr → Forall (λ fr, (length fr ≤ MAX_PAYLOAD_SIZE)%nat) frames →
  write_frames (mkLoopback b) addr frames =
    ('(b, ok) ← write_frames b addr frames; Some (mkLoopback b, ok)).
Proof.
  intros Ha Hf. revert b. induction Hf as [|fr frames Hl _ IH]; intros b; [done|].
  cbn [write_frames]. rewrite client_write_is_bus by done.
  destruct (i2c_write b addr fr) as [[b' [u|k]]|]; cbn [mbind option_bind]; [|done|done].
  apply IH.
Qed.

(** C23: Sending a message through the I2C service is writing the frames of its
    fragments to the bus in order, each without its destination byte, up to the
    first write that fails, which ends the send with [TxFailure]; else the
    fragmenter's own result is returned. *)
Theorem message_reaches_bus_in_order {B} `{I2cLaws B} (b : B) payload f ps r bodies own remote fuel :
  fragments payload f ps r → Forall2 (framed_as own remote) ps bodies → in_u8 remote →
  Forall (λ fr, (length fr ≤ MAX_PAYLOAD_SIZE)%nat) bodies → (length ps < fuel)%nat →
  ∃ b' ok, write_frames b remote bodies = Some (b', ok) ∧
    send_vectored fuel (mkSender (mkLoopback b) own remote) f payload =
      Some (mkSender (mkLoopback b') own remote, if ok : bool then r else Err TxFailure).
Proof.
  intros Hf Hb Ha Hl Hfuel. rewrite (send_vectored_frames _ _ _ _ _ _ _ Hf Hb) by done.
  rewrite write_frames_client by done.
  assert (∃ b' ok, write_frames b remote bodies = Some (b', ok)) as (b' & ok & Hw).
  { clear. revert b. induction bodies as [|fr bodies IH]; intros b; [by eexists _, _|].
    cbn [write_frames]. unfold i2c_write, bus_write.
    destruct (transaction b remote [OpWrite fr]) as [[b' ops'] [u|k]]; cbn [mbind option_bind];
      [apply IH|by eexists _, _]. }
  exists b', ok. split; [done|]. by rewrite Hw.
Qed.

(** A fragment whose frame is longer than one I2C request (256 bytes after
    the destination byte) never reaches the bus: the send ends in [TxFailure]. *)
Theorem long_frame_never_sent {B} `{I2cLaws B} (b : B) payload f f' p body own remote fuel :
  fragment_vectored f payload (MCTP_I2C_MAXMTU + 4) = (f', Packet p) →
  framed_as own remote p body → in_u8 remote → (MAX_PAYLOAD_SIZE < length body)%nat →
  send_vectored (S fuel) (mkSender (mkLoopback b) own remote) f payload =
    Some (mkSender (mkLoopback b) own remote, Err TxFailure).
Proof.
  intros Hf (dest & Henc) Ha Hl. cbn [send_vectored own_addr remote_addr i2c]. rewrite Hf, Henc.
  rewrite slice_range_Some by (simpl; lia). cbn [mbind option_bind length drop].
  replace (take _ body) with body by (rewrite take_ge; [done|simpl; lia]).
  unfold i2c_write, client_write. rewrite client_over_loopback by done. unfold bus_transaction.
  assert (write_data [OpWrite body] = body) as ->.
  { unfold write_data. simpl. apply app_nil_r. }
  rewrite (proj2 (Nat.ltb_lt _ _) Hl). done.
Qed.

(** What the sender writes the receiver decodes: with framing that decodes
    what it encodes, the peer, which sees its own address byte in front of each
    write, gets back the fragments in order. *)
Theorem frames_decode_to_fragments (ps bodies : list (list Z)) own remote dest :
  (∀ p frame, encap_encode own remote p (MCTP_I2C_MAXMTU + 8) true = Ok frame →
     head frame = Some dest ∧ encap_decode remote frame true = Ok (p, (own, remote))) →
  Forall2 (framed_as own remote) ps bodies →
  (λ body, decode (mkReceiver remote) (dest :: body)) <$> bodies =
    (λ p, Ok (p, (own, remote))) <$> ps.
Proof.
  intros Hlaw Hb. induction Hb as [|p body ps bodies (d & Henc) _ IH]; [done|].
  rewrite !fmap_cons, IH. f_equal.
  destruct (Hlaw _ _ Henc) as [[= ->] Hd]. exact Hd.
Qed.
End facts.

(** ** Witnesses *)

(** A fragmenter with its fragments at hand and framing without a checksum. *)
#[local] Instance toy_lib : MctpLib (list (list Z)) unit := {
  fragment_vectored f _ _ :=
    match f with [] => ([], Complete (Owned 1)) | p :: f => (f, Packet p) end;
  encap_encode own addr p _ _ := Ok (2 * addr :: 15 :: Z.of_nat (S (length p)) :: 2 * own + 1 :: p);
  encap_decode addr frame _ :=
    match frame with
    | dest :: 15 :: _ :: src :: p => Ok (p, (src / 2, dest / 2))
    | _ => Err ()
    end;
  TxFailure := ();
  MCTP_I2C_MAXMTU := 254;
}.

(** A bus that logs what is written and refuses frames of more than nine bytes. *)
#[local] Instance log_bus : I2c (list (list Z)) := λ b _ ops,
  if (9 <? length (write_data ops))%nat then (b, ops, Err KOther)
  else (b ++ [write_data ops], ops, Ok ()).

#[local] Instance log_bus_laws : I2cLaws (list (list Z)).
Proof.
  intros b a ops. unfold transaction, log_bus.
  assert (Forall2 op_lent ops ops) as Hr.
  { induction ops as [|[d|d] ops IH]; constructor; done. }
  by destruct (_ <? _)%nat.
Qed.

Lemma message_reaches_bus_in_order_witness :
  send_vectored 9 (mkSender (mkLoopback (B := list (list Z)) []) 16 66) [[1; 2]; [3]] [] =
    Some (mkSender (mkLoopback [[15; 3; 33; 1; 2]; [15; 2; 33; 3]]) 16 66, Ok (Owned 1)).
Proof.
  destruct (message_reaches_bus_in_order (B := list (list Z)) [] [] [[1; 2]; [3]] [[1; 2]; [3]]
    (Ok (Owned 1)) [[15; 3; 33; 1; 2]; [15; 2; 33; 3]] 16 66 9) as (b' & ok & Hw & Hs).
  - eapply fragments_packet; [reflexivity|]. eapply fragments_packet; [reflexivity|].
    by eapply fragments_complete.
  - repeat constructor; by eexists.
  - unfold in_u8, u8_MAX. lia.
  - repeat constructor; unfold MAX_PAYLOAD_SIZE; simpl; lia.
  - simpl. lia.
  - vm_compute in Hw. injection Hw as <- <-. exact Hs.
Defined.

Lemma long_frame_never_sent_witness :
  send_vectored 1 (mkSender (mkLoopback (B := list (list Z)) []) 16 66) [replicate 254 0] [] =
    Some (mkSender (mkLoopback []) 16 66, Err ()).
Proof.
  apply (long_frame_never_sent (F := list (list Z)) (E := unit) (H := toy_lib) (B := list (list Z))
    [] [] [replicate 254 0] [] (replicate 254 0) (15 :: 255 :: 33 :: replicate 254 0) 16 66 0).
  - reflexivity.
  - by eexists.
  - unfold in_u8, u8_MAX. lia.
  - unfold MAX_PAYLOAD_SIZE. cbn [length]. rewrite length_replicate. lia.
Defined.

Lemma frames_decode_to_fragments_witness :
  (λ body, decode (mkReceiver 66) (132 :: body)) <$> [[15; 3; 33; 1; 2]; [15; 2; 33; 3]] =
    [Ok ([1; 2], (16, 66)); Ok ([3], (16, 66))].
Proof.
  apply (frames_decode_to_fragments [[1; 2]; [3]] [[15; 3; 33; 1; 2]; [15; 2; 33; 3]] 16 66 132).
  - intros p frame Hf. simpl in Hf. simplify_eq. split; [done|]. reflexivity.
  - repeat constructor; by eexists.
Defined.
