(* ===== verification/Pldm.v ===== *)
(** * The PLDM firmware device and its update latch

    [services/pldm/src/transport.rs]: PLDM messages over the MCTP facade;
    [services/pldm/src/firmware_device.rs]: the loop that interleaves requests to
    the Update Agent with its commands, around the protocol engine
    ([CmdInterface] of [pldm_interface], a type class here);
    [services/orchestrator/adapters/pldm/src/lib.rs]: the latch that turns an
    accepted update into the orchestrator's [UpdateRequest].

    [None] is a panic. *)

From S2P Require Import Prelude SmModel Bytes MctpWire MctpServer MctpStack.
From stdpp Require Import base tactics option list numbers.
Local Open Scope Z_scope.

Definition MCTP_PLDM_MSG_TYPE : Z := 1.
Definition FD_MAX_MSG : nat := 1024.
Definition RESPONDER_POLL_TIMEOUT_MILLIS : Z := 1.

Inductive PldmMemError := MalformedBuffer | OverflowMaxSize | BufferTooSmall.

(** [M] is [MsgHandlerError]. *)
Inductive PldmServiceError (M : Type) :=
| Mctp (e : MctpError)
| MsgHandler (e : M)
| PldmMem (e : PldmMemError).
Arguments Mctp {M} _.
Arguments MsgHandler {M} _.
Arguments PldmMem {M} _.

(** ** The transport *)

Section transport.
Context {C M : Type} `{MctpClient C} (USIZE_MAX : nat).

(** [checked_add(1)] of a [usize]. *)
Definition checked_succ (n : nat) : option nat :=
  if (n <? USIZE_MAX)%nat then Some (S n) else None.

(** The buffer and the length of the response.  The request channel is dropped
    on every way out. *)
Definition send_request (c : C) (remote_eid : Z) (pldm_len : nat) (buf : list Z)
    (timeout_millis : Z) : option (C * list Z * result nat (PldmServiceError M)) :=
  match buf with
  | [] => Some (c, [], Err (PldmMem MalformedBuffer))
  | _ :: rest =>
      let buf := MCTP_PLDM_MSG_TYPE :: rest in
      let '(c, r) := stack_req c remote_eid timeout_millis in
      match r with
      | Err e => Some (c, buf, Err (Mctp e))
      | Ok ch =>
          match checked_succ pldm_len with
          | None => Some (req_drop c ch, buf, Err (PldmMem OverflowMaxSize))
          | Some req_end =>
              match slice_range buf 1 req_end with
              | None => Some (req_drop c ch, buf, Err (PldmMem BufferTooSmall))
              | Some req_payload =>
                  let '(c, ch, r) := req_send c ch MCTP_PLDM_MSG_TYPE req_payload in
                  match r with
                  | Err e => Some (req_drop c ch, buf, Err (Mctp e))
                  | Ok _ =>
                      '(c, ch, recv_buf, r) ← req_recv c ch rest;
                      let buf := MCTP_PLDM_MSG_TYPE :: recv_buf in
                      Some (req_drop c ch, buf,
                            match r with
                            | Ok (meta, _) => Ok (payload_size meta)
                            | Err e => Err (Mctp e)
                            end)
                  end
              end
          end
      end
  end.

Definition responder_listener (c : C) (timeout_millis : Z) :
    C * result StackListener (PldmServiceError M) :=
  let '(c, r) := stack_listener c MCTP_PLDM_MSG_TYPE timeout_millis in (c, map_err Mctp r).

(** The handler works on a state of its own and on the buffer in place. *)
Definition respond_once {S : Type} (c : C) (l : StackListener) (buf : list Z) (s : S)
    (handler : S → list Z → nat → Z → S * list Z * result nat (PldmServiceError M)) :
    option (C * list Z * S * result unit (PldmServiceError M)) :=
  match buf with
  | [] => Some (c, [], s, Err (PldmMem BufferTooSmall))
  | first :: rest =>
      '(c, recv_buf, r) ← listener_recv c l rest;
      match r with
      | Err e => Some (c, first :: recv_buf, s, Err (Mctp e))
      | Ok (meta, _, resp_channel) =>
          let buf := MCTP_PLDM_MSG_TYPE :: recv_buf in
          match checked_succ (payload_size meta) with
          | None => Some (c, buf, s, Err (PldmMem BufferTooSmall))
          | Some req_total_len =>
              if negb (req_total_len <=? length buf)%nat
              then Some (c, buf, s, Err (PldmMem BufferTooSmall))
              else
                let '(s, buf, r) := handler s buf req_total_len (remote_eid meta) in
                match r with
                | Err e => Some (c, buf, s, Err e)
                | Ok resp_total_len =>
                    if (resp_total_len =? 0)%nat then Some (c, buf, s, Ok ())
                    else
                      match slice_range buf 1 resp_total_len with
                      | None => Some (c, buf, s, Err (PldmMem BufferTooSmall))
                      | Some resp_payload =>
                          let '(c, r) := resp_send c resp_channel resp_payload in
                          Some (c, buf, s, map_err Mctp r)
                      end
                end
          end
      end
  end.

Definition recv_and_respond {S : Type} (c : C) (buf : list Z) (timeout_millis : Z) (s : S)
    (handler : S → list Z → nat → Z → S * list Z * result nat (PldmServiceError M)) :
    option (C * list Z * S * result unit (PldmServiceError M)) :=
  let '(c, r) := responder_listener c timeout_millis in
  match r with
  | Err e => Some (c, buf, s, Err e)
  | Ok l =>
      '(c, buf, s, r) ← respond_once c l buf s handler;
      Some (listener_drop c l, buf, s, r)
  end.
End transport.

(** ** The protocol engine and the event sink *)

(** The calls of [CmdInterface] and its [fd_ctx]; the messages are processed in
    the slice they are lent. *)
Class CmdInterface (I M : Type) : Type := {
  should_start_initiator_mode : I → bool;
  is_update_mode : I → bool;
  generate_initiator_request : I → list Z → I * list Z * result (option nat) M;
  process_initiator_response : I → list Z → I * list Z * result unit M;
  handle_responder_msg : I → list Z → I * list Z * result nat M;
}.

Inductive FdEvent := UpdateRequested.

Class FdEventSink (K : Type) : Type := notify : K → FdEvent → K.

#[export] Instance unit_sink : FdEventSink unit := λ _ _, ().

Record UpdateRequestLatch := mkLatch { latch_pending : bool }.

Definition UpdateRequestLatch_new : UpdateRequestLatch := {| latch_pending := false |}.

Definition latch_take (l : UpdateRequestLatch) : UpdateRequestLatch * option Event :=
  if latch_pending l then ({| latch_pending := false |}, Some UpdateRequest) else (l, None).

#[export] Instance latch_sink : FdEventSink UpdateRequestLatch :=
  λ l event, match event with UpdateRequested => {| latch_pending := true |} end.

(** ** The firmware device *)

Inductive RunTerminusResult (M : Type) :=
| Completed
| StoppedByError (e : PldmServiceError M).
Arguments Completed {M}.
Arguments StoppedByError {M} _.

(** What the loop owns or borrows: the engine, the two clients, the sink and the
    two buffers. *)
Record Fd (I Cr Cq K : Type) := mkFd {
  cmd_interface : I;
  responder : Cr;
  requester : Cq;
  sink : K;
  fw_buf : list Z;
  fd_buf : list Z;
}.
Arguments mkFd {I Cr Cq K} _ _ _ _ _ _.
Arguments cmd_interface {I Cr Cq K} _.
Arguments responder {I Cr Cq K} _.
Arguments requester {I Cr Cq K} _.
Arguments sink {I Cr Cq K} _.
Arguments fw_buf {I Cr Cq K} _.
Arguments fd_buf {I Cr Cq K} _.

Section firmware_device.
Context {I M Cr Cq K : Type} `{CmdInterface I M} `{MctpClient Cr} `{MctpClient Cq}.
Context `{FdEventSink K} (USIZE_MAX : nat).
Abbreviation FD := (Fd I Cr Cq K).

(** Phase 1 of [run_once_inner]: at most one request of the device. *)
Definition initiator_phase (fd : FD) (remote_eid requester_timeout_millis : Z) :
    option (FD * result unit (PldmServiceError M)) :=
  if should_start_initiator_mode (cmd_interface fd) then
    let '(i, fw, r) := generate_initiator_request (cmd_interface fd) (fw_buf fd) in
    let fd := mkFd i (responder fd) (requester fd) (sink fd) fw (fd_buf fd) in
    match r with
    | Err e => Some (fd, Err (MsgHandler e))
    | Ok None => Some (fd, Ok ())
    | Ok (Some pldm_len) =>
        '(cq, fw, r) ← send_request (M := M) USIZE_MAX (requester fd) remote_eid pldm_len
                         (fw_buf fd) requester_timeout_millis;
        let fd := mkFd (cmd_interface fd) (responder fd) cq (sink fd) fw (fd_buf fd) in
        match r with
        | Err e => Some (fd, Err e)
        | Ok resp_len =>
            match checked_succ USIZE_MAX resp_len with
            | None => Some (fd, Err (PldmMem OverflowMaxSize))
            | Some resp_total_len =>
                match slice_to fw resp_total_len with
                | None => Some (fd, Err (PldmMem BufferTooSmall))
                | Some resp =>
                    let '(i, resp, r) := process_initiator_response (cmd_interface fd) resp in
                    Some (mkFd i (responder fd) (requester fd) (sink fd)
                            (write_at 0 resp fw) (fd_buf fd), map_err MsgHandler r)
                end
            end
        end
    end
  else Some (fd, Ok ()).

(** The handler of the responder phase: only the Update Agent is served. *)
Definition fd_handler (ua_eid : Z) (i : I) (framed_buf : list Z) (_ : nat) (source_eid : Z) :
    I * list Z * result nat (PldmServiceError M) :=
  if negb (source_eid =? ua_eid) then (i, framed_buf, Ok 0%nat)
  else let '(i, framed_buf, r) := handle_responder_msg i framed_buf in
       (i, framed_buf, map_err MsgHandler r).

(** Phase 2: poll for a command. *)
Definition responder_phase (fd : FD) (initiator_active : bool) (l : StackListener)
    (remote_eid timeout_millis : Z) :
    option (FD * StackListener * result unit (PldmServiceError M)) :=
  let poll_timeout := if initiator_active then RESPONDER_POLL_TIMEOUT_MILLIS else timeout_millis in
  let l := set_timeout l poll_timeout in
  let was_update_mode := is_update_mode (cmd_interface fd) in
  '(cr, buf, i, r) ← respond_once USIZE_MAX (responder fd) l (fd_buf fd) (cmd_interface fd)
                       (fd_handler remote_eid);
  let fd := mkFd i cr (requester fd) (sink fd) (fw_buf fd) buf in
  match r with
  | Ok _ =>
      if negb was_update_mode && is_update_mode i
      then Some (mkFd i cr (requester fd) (notify (sink fd) UpdateRequested) (fw_buf fd) buf, l,
                 Ok ())
      else Some (fd, l, Ok ())
  | Err (Mctp e) =>
      if initiator_active && is_timeout e then Some (fd, l, Ok ()) else Some (fd, l, Err (Mctp e))
  | Err e => Some (fd, l, Err e)
  end.

Definition run_once_inner (fd : FD) (l : StackListener)
    (remote_eid timeout_millis requester_timeout_millis : Z) :
    option (FD * StackListener * result unit (PldmServiceError M)) :=
  let initiator_active := should_start_initiator_mode (cmd_interface fd) in
  '(fd, r) ← initiator_phase fd remote_eid requester_timeout_millis;
  match r with
  | Err e => Some (fd, l, Err e)
  | Ok _ => responder_phase fd initiator_active l remote_eid timeout_millis
  end.

(** The loop of [run_until] while [should_continue] says so [n] times. *)
Fixpoint run_steps (n : nat) (fd : FD) (l : StackListener)
    (remote_eid timeout_millis requester_timeout_millis : Z) :
    option (FD * RunTerminusResult M) :=
  match n with
  | O => Some (fd, Completed)
  | S n =>
      '(fd, l, r) ← run_once_inner fd l remote_eid timeout_millis requester_timeout_millis;
      match r with
      | Err e => Some (fd, StoppedByError e)
      | Ok _ => run_steps n fd l remote_eid timeout_millis requester_timeout_millis
      end
  end.

Definition with_responder (cr : Cr) (fd : FD) : FD :=
  mkFd (cmd_interface fd) cr (requester fd) (sink fd) (fw_buf fd) (fd_buf fd).
Definition with_fw_buf (fw : list Z) (fd : FD) : FD :=
  mkFd (cmd_interface fd) (responder fd) (requester fd) (sink fd) fw (fd_buf fd).

(** The listener is dropped on return. *)
Definition run_until (n : nat) (fd : FD)
    (remote_eid timeout_millis requester_timeout_millis : Z) :
    option (FD * RunTerminusResult M) :=
  let '(cr, r) := responder_listener (M := M) (responder fd) timeout_millis in
  let fd := with_responder cr fd in
  match r with
  | Err e => Some (fd, StoppedByError e)
  | Ok l =>
      '(fd, res) ← run_steps n (with_fw_buf (replicate FD_MAX_MSG 0) fd) l remote_eid
                     timeout_millis requester_timeout_millis;
      Some (with_responder (listener_drop (responder fd) l) fd, res)
  end.
End firmware_device.

(** ** Handles and panics *)

Section transport_facts.
Context {C M : Type} `{ClientLaws C} (USIZE_MAX : nat).
Implicit Types c : C.

Lemma stack_req_handles c eid timeout c' ch :
  stack_req c eid timeout = (c', Ok ch) → open_handles c' = open_handles c + 1.
Proof.
  unfold stack_req. pose proof (m_req_handles c eid) as Hr.
  destruct (m_req c eid) as [c1 [h|e]]; simpl in *; intros [= <- <-]. lia.
Qed.

Lemma stack_req_handles_err c eid timeout c' e :
  stack_req c eid timeout = (c', Err e) → open_handles c' = open_handles c.
Proof.
  unfold stack_req. pose proof (m_req_handles c eid) as Hr.
  destruct (m_req c eid) as [c1 [h|e']]; simpl in *; intros [= <- <-]. lia.
Qed.

Lemma req_send_handles c ch typ buf : open_handles (req_send c ch typ buf).1.1 = open_handles c.
Proof.
  unfold req_send. destruct (sent_tag ch); [done|].
  pose proof (m_send_handles c (Some (rq_handle ch)) typ None None false buf) as Hs.
  by destruct (m_send _ _ _ _ _ _ _) as [c1 [t|e]].
Qed.

Lemma resp_send_handles c resp buf : open_handles (resp_send c resp buf).1 = open_handles c.
Proof.
  unfold resp_send.
  pose proof (m_send_handles c None (rs_msg_type resp) (Some (rs_eid resp)) (Some (rs_tag resp))
    false buf) as Hs.
  by destruct (m_send _ _ _ _ _ _ _) as [c1 r].
Qed.

Lemma send_request_keeps c eid len buf timeout :
  ∃ c' buf' r, send_request (M := M) USIZE_MAX c eid len buf timeout = Some (c', buf', r) ∧
    open_handles c' = open_handles c.
Proof.
  unfold send_request. destruct buf as [|b rest]; [by eexists _, _, _|].
  destruct (stack_req c eid timeout) as [c1 [ch|e]] eqn:Hreq; cycle 1.
  { apply stack_req_handles_err in Hreq. by eexists _, _, _. }
  apply stack_req_handles in Hreq.
  assert (∀ c2 ch', open_handles c2 = open_handles c1 →
    open_handles (req_drop c2 ch') = open_handles c) as Hdrop.
  { intros c2 ch' Ho. unfold req_drop. rewrite m_drop_handles. lia. }
  destruct (checked_succ _ _) as [req_end|]; [|eexists _, _, _; split; [done|by apply Hdrop]].
  destruct (slice_range _ _ _) as [payload|]; [|eexists _, _, _; split; [done|by apply Hdrop]].
  pose proof (req_send_handles c1 ch MCTP_PLDM_MSG_TYPE payload) as Hs.
  destruct (req_send _ _ _ _) as [[c2 ch2] [u|e]]; simpl in Hs;
    [|eexists _, _, _; split; [done|by apply Hdrop]].
  destruct (req_recv_keeps c2 ch2 rest) as (c3 & ch3 & buf3 & r3 & -> & _ & Ho3).
  eexists _, _, _. split; [done|]. apply Hdrop. congruence.
Qed.

Lemma respond_once_keeps {S} c l buf (s : S)
    (handler : S → list Z → nat → Z → S * list Z * result nat (PldmServiceError M)) :
  ∃ c' buf' s' r, respond_once USIZE_MAX c l buf s handler = Some (c', buf', s', r) ∧
    open_handles c' = open_handles c.
Proof.
  unfold respond_once. destruct buf as [|b rest]; [by eexists _, _, _, _|].
  destruct (listener_recv_fits c l rest) as (c1 & buf1 & r & -> & _ & Ho). cbn [mbind option_bind].
  destruct r as [[[meta msg] resp]|e]; [|by eexists _, _, _, _].
  destruct (checked_succ _ _) as [total|]; [|by eexists _, _, _, _].
  destruct (negb _); [by eexists _, _, _, _|].
  destruct (handler _ _ _ _) as [[s' buf'] [len|e]]; [|by eexists _, _, _, _].
  destruct (len =? 0)%nat; [by eexists _, _, _, _|].
  destruct (slice_range _ _ _) as [payload|]; [|by eexists _, _, _, _].
  pose proof (resp_send_handles c1 resp payload) as Hs.
  destruct (resp_send _ _ _) as [c2 r2]. eexists _, _, _, _. split; [done|]. simpl in Hs. congruence.
Qed.
End transport_facts.

Section firmware_device_facts.
Context {I M Cr Cq K : Type} `{CmdInterface I M} `{ClientLaws Cr} `{ClientLaws Cq}.
Context `{FdEventSink K} (USIZE_MAX : nat).
Implicit Types fd : Fd I Cr Cq K.

(** The number of open handles of the two clients. *)
Definition handles fd : Z * Z := (open_handles (responder fd), open_handles (requester fd)).

Lemma initiator_phase_keeps fd eid timeout :
  ∃ fd' r, initiator_phase USIZE_MAX fd eid timeout = Some (fd', r) ∧ handles fd' = handles fd.
Proof.
  unfold initiator_phase. destruct (should_start_initiator_mode _); [|by eexists _, _].
  destruct (generate_initiator_request _ _) as [[i fw] [[len|]|e]]; [|by eexists _, _..].
  cbn [requester fw_buf].
  destruct (send_request_keeps (M := M) USIZE_MAX (requester fd) eid len fw timeout)
    as (cq & fw' & r & -> & Ho).
  assert (∀ i' fw'' , handles (mkFd i' (responder fd) cq (sink fd) fw'' (fd_buf fd)) = handles fd)
    as Hh by (intros; unfold handles; simpl; congruence).
  cbn [mbind option_bind cmd_interface]. destruct r as [resp_len|e]; [|by eexists _, _].
  destruct (checked_succ _ _) as [total|]; [|by eexists _, _].
  destruct (slice_to _ _) as [resp|]; [|by eexists _, _].
  destruct (process_initiator_response _ _) as [[i' resp'] r']. by eexists _, _.
Qed.

Lemma responder_phase_keeps fd active l eid timeout :
  ∃ fd' l' r, responder_phase USIZE_MAX fd active l eid timeout = Some (fd', l', r) ∧
    handles fd' = handles fd ∧ l_handle l' = l_handle l.
Proof.
  unfold responder_phase.
  destruct (respond_once_keeps (M := M) USIZE_MAX (responder fd)
    (set_timeout l (if active then RESPONDER_POLL_TIMEOUT_MILLIS else timeout)) (fd_buf fd)
    (cmd_interface fd) (fd_handler eid)) as (cr & buf & i & r & -> & Ho).
  assert (∀ i' k, handles (mkFd i' cr (requester fd) k (fw_buf fd) buf) = handles fd)
    as Hh by (intros; unfold handles; simpl; congruence).
  cbn [mbind option_bind]. destruct r as [u|[e|e|e]].
  - destruct (_ && _); by eexists _, _, _.
  - destruct (_ && _); by eexists _, _, _.
  - by eexists _, _, _.
  - by eexists _, _, _.
Qed.

Lemma run_steps_keeps n fd l eid timeout rtimeout :
  ∃ fd' res, run_steps USIZE_MAX n fd l eid timeout rtimeout = Some (fd', res) ∧
    handles fd' = handles fd.
Proof.
  revert fd l. induction n as [|n IH]; intros fd l; [by eexists _, _|].
  cbn [run_steps]. unfold run_once_inner.
  destruct (initiator_phase_keeps fd eid rtimeout) as (fd1 & r1 & -> & Hh1).
  cbn [mbind option_bind]. destruct r1 as [u|e]; [|by eexists _, _].
  destruct (responder_phase_keeps fd1 (should_start_initiator_mode (cmd_interface fd)) l eid timeout)
    as (fd2 & l2 & r2 & -> & Hh2 & _). cbn [mbind option_bind].
  destruct r2 as [u2|e]; [|eexists _, _; split; [done|congruence]].
  destruct (IH fd2 l2) as (fd3 & res & -> & Hh3). eexists _, _. split; [done|congruence].
Qed.

(** Over clients whose receives fit the buffer the firmware device's loop
    never panics, and when it returns, for whatever reason, every handle it or a
    request opened is closed again on both clients. *)
Theorem fd_run_releases_handles n fd eid timeout rtimeout :
  ∃ fd' res, run_until USIZE_MAX n fd eid timeout rtimeout = Some (fd', res) ∧
    open_handles (responder fd') = open_handles (responder fd) ∧
    open_handles (requester fd') = open_handles (requester fd).
Proof.
  unfold run_until, responder_listener, stack_listener.
  pose proof (m_listener_handles (responder fd) MCTP_PLDM_MSG_TYPE) as Hl.
  destruct (m_listener _ _) as [cr [h|e]]; simpl in *.
  - match goal with |- context [run_steps _ _ ?fd1 ?l _ _ _] =>
      destruct (run_steps_keeps n fd1 l eid timeout rtimeout) as (fd2 & res & -> & Hh) end.
    unfold handles in Hh. simpl in Hh. injection Hh as Hr Hq.
    eexists _, _. split; [done|]. simpl. unfold listener_drop. rewrite m_drop_handles. lia.
  - eexists _, _. split; [done|]. simpl. split; [lia|done].
Qed.
End firmware_device_facts.

(** ** Who is served, and what the orchestrator hears *)

Section served.
Context {I M Cr Cq K : Type} `{CmdInterface I M} `{MctpClient Cr} `{MctpClient Cq}.
Context `{FdEventSink K} (USIZE_MAX : nat).
Implicit Types fd : Fd I Cr Cq K.

(** A command from an endpoint that is not the Update Agent is dropped: the
    engine and the sink do not change, nothing is sent, and the loop goes on. *)
Theorem rogue_endpoint_ignored fd active l eid timeout first rest cr recv_buf meta msg resp :
  fd_buf fd = first :: rest →
  listener_recv (responder fd)
      (set_timeout l (if active : bool then RESPONDER_POLL_TIMEOUT_MILLIS else timeout)) rest =
    Some (cr, recv_buf, Ok (meta, msg, resp)) →
  (payload_size meta < USIZE_MAX)%nat → (payload_size meta ≤ length recv_buf)%nat →
  remote_eid meta ≠ eid →
  ∃ l', responder_phase USIZE_MAX fd active l eid timeout =
    Some (mkFd (cmd_interface fd) cr (requester fd) (sink fd) (fw_buf fd)
            (MCTP_PLDM_MSG_TYPE :: recv_buf), l', Ok ()).
Proof.
  intros Hbuf Hr Hmax Hfit Hne. unfold responder_phase, respond_once. rewrite Hbuf, Hr.
  cbn [mbind option_bind]. unfold checked_succ. rewrite (proj2 (Nat.ltb_lt _ _) Hmax).
  cbn [length]. rewrite (proj2 (Nat.leb_le _ _)) by lia. cbn [negb].
  unfold fd_handler. rewrite (proj2 (Z.eqb_neq _ _) Hne). cbn [negb mbind option_bind].
  eexists. simpl. rewrite (andb_comm (negb _)), andb_negb_r. reflexivity.
Qed.

(** The device's own requests do not start an update. *)
Definition initiator_never_enters : Prop :=
  (∀ (i : I) buf, is_update_mode i = false →
     is_update_mode (generate_initiator_request (M := M) i buf).1.1 = false) ∧
  (∀ (i : I) buf, is_update_mode i = false →
     is_update_mode (process_initiator_response (M := M) i buf).1.1 = false) ∧
  (∀ (i : I), is_update_mode i = false → should_start_initiator_mode (M := M) i = false).

Lemma initiator_phase_mode fd eid timeout fd' r :
  initiator_never_enters →
  initiator_phase USIZE_MAX fd eid timeout = Some (fd', r) →
  sink fd' = sink fd ∧ (is_update_mode (cmd_interface fd) = false →
    is_update_mode (cmd_interface fd') = false ∧ fd' = fd).
Proof.
  intros (Hg & Hp & Hs). unfold initiator_phase.
  destruct (should_start_initiator_mode (cmd_interface fd)) eqn:Hst;
    [|intros [= <- <-]; done].
  intros Hi. split; [|intros Hm; by rewrite (Hs _ Hm) in Hst].
  destruct (generate_initiator_request _ _) as [[i fw] [[len|]|e]]; [|by simplify_eq/=..].
  cbn [requester fw_buf] in Hi. apply bind_Some in Hi as ([[cq fw'] r'] & _ & Hi).
  destruct r' as [resp_len|e]; [|by simplify_eq/=].
  destruct (checked_succ _ _); [|by simplify_eq/=]. destruct (slice_to _ _); [|by simplify_eq/=].
  destruct (process_initiator_response _ _) as [[i' b'] r'']. by simplify_eq/=.
Qed.

(** A step that takes the device from idle into update mode and sent its
    reply notifies the sink, once; a step that fails or ends idle notifies
    nobody; no step notifies twice. *)
Theorem update_notified_on_entry fd l eid timeout rtimeout fd' l' r :
  initiator_never_enters →
  run_once_inner USIZE_MAX fd l eid timeout rtimeout = Some (fd', l', r) →
  (sink fd' = sink fd ∨ sink fd' = notify (sink fd) UpdateRequested) ∧
  (is_update_mode (cmd_interface fd) = false → is_update_mode (cmd_interface fd') = true →
   r = Ok () → sink fd' = notify (sink fd) UpdateRequested) ∧
  (is_update_mode (cmd_interface fd') = false ∨ r ≠ Ok () → sink fd' = sink fd).
Proof.
  intros Hlaw Hr. apply bind_Some in Hr as ([fd1 r1] & Hi & Hr).
  destruct (initiator_phase_mode _ _ _ _ _ Hlaw Hi) as [Hs Hidle]. destruct Hlaw as (_ & _ & Hst).
  destruct r1 as [u|e]; [|by simplify_eq; split_and!; [left| |]].
  unfold responder_phase in Hr. apply bind_Some in Hr as ([[[cr buf] i] r2] & Ho & Hr).
  rewrite <- Hs. destruct r2 as [u2|[e|e|e]].
  - destruct (_ && _) eqn:Hedge; simplify_eq/=.
    + apply andb_true_iff in Hedge as [_ Hm]. split; [by right|]. split; [done|].
      rewrite Hm. by intros [|].
    + split; [by left|]. split; [|done]. intros Hf Hm. destruct (Hidle Hf) as [Hf1 ->].
      by rewrite Hf, Hm in Hedge.
  - destruct (should_start_initiator_mode (cmd_interface fd)) eqn:Ha; cbn [andb] in Hr;
      [destruct (is_timeout e)|]; simplify_eq/=; (split; [by left|]); (split; [|done]); try done.
    intros Hf. by rewrite (Hst _ Hf) in Ha.
  - by simplify_eq/=; split_and!; [left| |].
  - by simplify_eq/=; split_and!; [left| |].
Qed.
End served.

(** The calls made of a latch by the firmware device and by the orchestrator. *)
Inductive LatchOp := LatchNotify | LatchTake.

(** What the [take]s return. *)
Fixpoint run_latch (l : UpdateRequestLatch) (ops : list LatchOp) : list (option Event) :=
  match ops with
  | [] => []
  | LatchNotify :: ops => run_latch (notify l UpdateRequested) ops
  | LatchTake :: ops => let '(l, e) := latch_take l in e :: run_latch l ops
  end.

(** Accepted requests between two [take]s. *)
Definition polls (counts : list nat) : list LatchOp :=
  n ← counts; replicate n LatchNotify ++ [LatchTake].

Lemma run_latch_notifies n b ops :
  run_latch (mkLatch b) (replicate n LatchNotify ++ ops) =
    run_latch (mkLatch (b || (0 <? n)%nat)) ops.
Proof.
  revert b. induction n as [|n IH]; intros b; simpl; [by rewrite orb_false_r|].
  unfold notify, latch_sink. rewrite IH. by rewrite orb_true_r.
Qed.

(** A [take] returns [UpdateRequest] exactly when at least one update was
    accepted since the previous one: none is lost, and several coalesce. *)
Theorem latch_reports_each_update counts :
  run_latch UpdateRequestLatch_new (polls counts) =
    (λ n : nat, if (0 <? n)%nat then Some UpdateRequest else None) <$> counts.
Proof.
  induction counts as [|n counts IH]; [done|]. unfold polls in *. cbn [mbind list_bind].
  rewrite <- app_assoc. unfold UpdateRequestLatch_new. rewrite run_latch_notifies.
  rewrite fmap_cons, <- IH. by destruct n.
Qed.

(** ** Witnesses *)

#[local] Existing Instance inbox_client_ops.
#[local] Existing Instance inbox_client_laws.

(** An engine that enters update mode on a command [2], and then asks for data
    once per step. *)
#[local] Instance toy_engine : CmdInterface bool unit := {
  should_start_initiator_mode i := i;
  is_update_mode i := i;
  generate_initiator_request i buf := (i, buf, Ok (if i then Some 3%nat else None));
  process_initiator_response i buf := (i, buf, Ok ());
  handle_responder_msg i buf :=
    match buf with _ :: 2 :: _ => (true, buf, Ok 2%nat) | _ => (i, buf, Err ()) end;
}.

(** An idle device with a message waiting in the responder's inbox (whose
    messages come from endpoint 9). *)
Definition example_fd (inbox : list (list Z)) : Fd bool inbox_client inbox_client UpdateRequestLatch :=
  mkFd false (mkInbox 0 inbox) (mkInbox 0 []) UpdateRequestLatch_new (replicate 8 0) (replicate 8 0).

Lemma toy_engine_law : initiator_never_enters (I := bool) (M := unit).
Proof. by split_and!. Qed.

Lemma fd_run_releases_handles_witness :
  ∃ fd' res, run_until 4096 5 (example_fd [[2]; [7]]) 9 0 100 = Some (fd', res) ∧
    open_handles (responder fd') = 0 ∧ open_handles (requester fd') = 0.
Proof.
  destruct (fd_run_releases_handles (M := unit) 4096 5 (example_fd [[2]; [7]]) 9 0 100)
    as (fd' & res & Hr & Ho & Hq).
  exists fd', res. split; [exact Hr|]. split; [exact Ho|exact Hq].
Defined.

Lemma rogue_endpoint_ignored_witness :
  ∃ l', responder_phase 4096 (example_fd [[2]]) false (mkListener 0 0) 8 0 =
    Some (mkFd false (mkInbox 0 []) (mkInbox 0 []) UpdateRequestLatch_new (replicate 8 0)
            [1; 2; 0; 0; 0; 0; 0; 0], l', Ok ()).
Proof.
  apply (rogue_endpoint_ignored (M := unit) 4096 (example_fd [[2]]) false (mkListener 0 0) 8 0 0 (replicate 7 0)
    (mkInbox 0 []) [2; 0; 0; 0; 0; 0; 0] (mkMetadata 1 false 0 9 1) [2] (mkRespChannel 9 1 0)).
  - reflexivity.
  - reflexivity.
  - cbn [payload_size]. apply Nat.ltb_lt. reflexivity.
  - simpl. lia.
  - done.
Defined.

Lemma update_notified_on_entry_witness :
  ∃ fd' l', run_once_inner 4096 (example_fd [[2]]) (mkListener 0 0) 9 0 100 =
      Some (fd', l', Ok ()) ∧ sink fd' = mkLatch true.
Proof.
  destruct (run_once_inner (M := unit) 4096 (example_fd [[2]]) (mkListener 0 0) 9 0 100)
    as [[[fd' l'] r]|] eqn:E; [|by vm_compute in E].
  destruct (update_notified_on_entry 4096 (example_fd [[2]]) (mkListener 0 0) 9 0 100 fd' l' r
    toy_engine_law E) as (_ & Hentry & _).
  vm_compute in E. injection E as <- <- <-. eexists _, _. split; [reflexivity|]. by apply Hentry.
Defined.
