(* ===== verification/Swmbx.v ===== *)
(** * The software mailbox

    [target/ast10x0/pfr/swmbx_ctrl.rs]: a register file two host masters reach
    over SMBus, with write protection and change notification per node, and
    addresses remapped to FIFOs.

    The memory behind [buffer_base] is the list [memory]; [heapless::spsc::Queue]
    is the type class [Queue].  [None] is a panic. *)

From S2P Require Import Prelude Bytes.
From stdpp Require Import base tactics option list numbers.
Local Open Scope Z_scope.

(** ** [heapless::spsc::Queue] *)

Class Queue (Q : Type) : Type := {
  q_new : Q;
  q_len : Q → nat;
  q_enqueue : Q → Z → Q * result unit Z;
  q_dequeue : Q → Q * option Z;
}.

(** The documented behaviour: a first-in first-out queue of at most [CAP]
    elements, where [CAP] is [N - 1] for [Queue<T, N>]; [enqueue] hands the
    element back when the queue is full. *)
Class QueueLaws (Q : Type) `{Queue Q} (CAP : nat) : Type := {
  q_items : Q → list Z;
  q_items_new : q_items q_new = [];
  q_len_items q : q_len q = length (q_items q);
  q_enqueue_room q v : (length (q_items q) < CAP)%nat →
    ∃ q', q_enqueue q v = (q', Ok ()) ∧ q_items q' = q_items q ++ [v];
  q_enqueue_full q v : (CAP ≤ length (q_items q))%nat →
    q_enqueue q v = (q, Err v);
  q_dequeue_cons q v vs : q_items q = v :: vs →
    ∃ q', q_dequeue q = (q', Some v) ∧ q_items q' = vs;
  q_dequeue_nil q : q_items q = [] → q_dequeue q = (q, None);
}.

(** ** Constants and errors *)

Definition SWMBX_DEV_COUNT : nat := 2.
Definition SWMBX_NODE_COUNT : nat := 256.
Definition SWMBX_FIFO_COUNT : nat := 4.
Definition SWMBX_FIFO_DEPTH : nat := 256.

Definition PROTECT_BITS_PER_WORD : nat := 32.
Definition PROTECT_WORD_SHIFT : nat := 5.
Definition PROTECT_WORD_COUNT : nat := SWMBX_NODE_COUNT / PROTECT_BITS_PER_WORD.

Definition SWMBX_PROTECT : Z := Z.shiftl 1 0.
Definition SWMBX_NOTIFY : Z := Z.shiftl 1 1.
Definition SWMBX_FIFO : Z := Z.shiftl 1 2.
Definition FLAG_MASK : Z := Z.lor SWMBX_PROTECT (Z.lor SWMBX_NOTIFY SWMBX_FIFO).

Definition SWMBX_FIFO_NOTIFY_START : Z := Z.shiftl 1 0.
Definition SWMBX_FIFO_NOTIFY_STOP : Z := Z.shiftl 1 1.

Inductive SwmbxError :=
| InvalidPort | InvalidAddress | InvalidFifoIndex | InvalidFifoDepth | InvalidFlagMask
| InvalidProtectRange | FifoFull | FifoEmpty | FifoNotMapped.
#[export] Instance SwmbxError_eq_dec : EqDecision SwmbxError.
Proof. solve_decision. Defined.

(** [flags |= mask] and [flags &= !mask] on a [u8]. *)
Definition set_flag (enable : bool) (flags mask : Z) : Z :=
  if enable then Z.lor flags mask else Z.land flags (Z.lxor mask 255).

(** ** State *)

Record SwmbxNode := mkNode { notify_flag : bool; enabled_flags : Z }.

Definition SwmbxNode_default : SwmbxNode := {| notify_flag := false; enabled_flags := 0 |}.

Definition node_set_flag (enable : bool) (mask : Z) (n : SwmbxNode) : SwmbxNode :=
  {| notify_flag := notify_flag n; enabled_flags := set_flag enable (enabled_flags n) mask |}.
Definition node_notify (n : SwmbxNode) : SwmbxNode :=
  {| notify_flag := true; enabled_flags := enabled_flags n |}.

Section swmbx.
Context {Q : Type} `{Queue Q}.

Record SwmbxFifo := mkFifo {
  queue : Q;
  f_notify_flag : Z;
  notify_start : bool;
  fifo_write : bool;
  fifo_offset : Z;
  enabled : bool;
  msg_index : nat;
  max_msg_count : nat;
}.

Definition SwmbxFifo_new : SwmbxFifo :=
  {| queue := q_new; f_notify_flag := 0; notify_start := false; fifo_write := false;
     fifo_offset := 0; enabled := false; msg_index := 0; max_msg_count := SWMBX_FIFO_DEPTH |}.

Definition with_queue (q : Q) (f : SwmbxFifo) : SwmbxFifo :=
  mkFifo q (f_notify_flag f) (notify_start f) (fifo_write f) (fifo_offset f) (enabled f)
    (msg_index f) (max_msg_count f).
Definition with_msg_index (i : nat) (f : SwmbxFifo) : SwmbxFifo :=
  mkFifo (queue f) (f_notify_flag f) (notify_start f) (fifo_write f) (fifo_offset f) (enabled f)
    i (max_msg_count f).
Definition with_notify_start (b : bool) (f : SwmbxFifo) : SwmbxFifo :=
  mkFifo (queue f) (f_notify_flag f) b (fifo_write f) (fifo_offset f) (enabled f)
    (msg_index f) (max_msg_count f).
Definition with_fifo_write (b : bool) (f : SwmbxFifo) : SwmbxFifo :=
  mkFifo (queue f) (f_notify_flag f) (notify_start f) b (fifo_offset f) (enabled f)
    (msg_index f) (max_msg_count f).

Definition append_write (f : SwmbxFifo) (value : Z) : SwmbxFifo * result unit SwmbxError :=
  if (max_msg_count f =? 0)%nat then (f, Err InvalidFifoDepth)
  else if (q_len (queue f) <? max_msg_count f)%nat then
    let '(q, r) := q_enqueue (queue f) value in
    let f := with_queue q f in
    match r with
    | Err _ => (f, Err FifoFull)
    | Ok _ =>
        (with_msg_index (if (msg_index f =? max_msg_count f - 1)%nat then 0%nat
                         else (msg_index f + 1) mod max_msg_count f)%nat f, Ok ())
    end
  else (f, Err FifoFull).

Definition fifo_dequeue (f : SwmbxFifo) : SwmbxFifo * result Z SwmbxError :=
  let '(q, v) := q_dequeue (queue f) in
  (with_queue q f, ok_or v FifoEmpty).

(** [while self.queue.dequeue().is_some() {}], a round per queued element and
    one more. *)
Fixpoint drain_queue (fuel : nat) (q : Q) : option Q :=
  match fuel with
  | O => None
  | S fuel =>
      let '(q, v) := q_dequeue q in
      match v with Some _ => drain_queue fuel q | None => Some q end
  end.

Definition fifo_flush (f : SwmbxFifo) : option SwmbxFifo :=
  q ← drain_queue (S (q_len (queue f))) (queue f);
  Some (with_fifo_write false (with_notify_start false (with_msg_index 0 (with_queue q f)))).

Record SwmbxCtrl := mkCtrl {
  mbx_en : Z;
  node : list (list SwmbxNode);
  fifo : list SwmbxFifo;
  mbx_fifo_execute : list bool;
  mbx_fifo_addr : list Z;
  mbx_fifo_idx : list Z;
  memory : list Z;
  buffer_size : nat;
}.

Definition with_mbx_en (f : Z) (c : SwmbxCtrl) : SwmbxCtrl :=
  mkCtrl f (node c) (fifo c) (mbx_fifo_execute c) (mbx_fifo_addr c) (mbx_fifo_idx c)
    (memory c) (buffer_size c).
Definition with_node (n : list (list SwmbxNode)) (c : SwmbxCtrl) : SwmbxCtrl :=
  mkCtrl (mbx_en c) n (fifo c) (mbx_fifo_execute c) (mbx_fifo_addr c) (mbx_fifo_idx c)
    (memory c) (buffer_size c).
Definition with_fifo (f : list SwmbxFifo) (c : SwmbxCtrl) : SwmbxCtrl :=
  mkCtrl (mbx_en c) (node c) f (mbx_fifo_execute c) (mbx_fifo_addr c) (mbx_fifo_idx c)
    (memory c) (buffer_size c).
Definition with_txn (e : list bool) (a i : list Z) (c : SwmbxCtrl) : SwmbxCtrl :=
  mkCtrl (mbx_en c) (node c) (fifo c) e a i (memory c) (buffer_size c).
Definition with_memory (m : list Z) (c : SwmbxCtrl) : SwmbxCtrl :=
  mkCtrl (mbx_en c) (node c) (fifo c) (mbx_fifo_execute c) (mbx_fifo_addr c) (mbx_fifo_idx c)
    m (buffer_size c).

(** [new_with_regions]; the region's content is what the memory holds. *)
Definition new_with_regions (size : nat) (region : list Z) : SwmbxCtrl :=
  {| mbx_en := 0;
     node := replicate SWMBX_DEV_COUNT (replicate SWMBX_NODE_COUNT SwmbxNode_default);
     fifo := replicate SWMBX_FIFO_COUNT SwmbxFifo_new;
     mbx_fifo_execute := replicate SWMBX_DEV_COUNT false;
     mbx_fifo_addr := replicate SWMBX_DEV_COUNT 0;
     mbx_fifo_idx := replicate SWMBX_DEV_COUNT 0;
     memory := region; buffer_size := size |}.

(** ** Indexed accesses *)

(** [self.node[port][addr] = f(self.node[port][addr])]. *)
Definition update_node (port addr : nat) (f : SwmbxNode → SwmbxNode) (c : SwmbxCtrl) :
    option SwmbxCtrl :=
  row ← node c !! port;
  n ← row !! addr;
  Some (with_node (<[port := <[addr := f n]> row]> (node c)) c).

Definition get_node (port addr : nat) (c : SwmbxCtrl) : option SwmbxNode :=
  row ← node c !! port; row !! addr.

Definition update_fifo_at (i : nat) (f : SwmbxFifo) (c : SwmbxCtrl) : option SwmbxCtrl :=
  fs ← index_set (fifo c) i f; Some (with_fifo fs c).

(** ** Operations *)

Abbreviation outcome A := (option (SwmbxCtrl * result A SwmbxError)).

(** [read_volatile] and [write_volatile] within the region. *)
Definition read_in_region (c : SwmbxCtrl) (offset : Z) : outcome Z :=
  if (buffer_size c <=? as_usize offset)%nat then Some (c, Err InvalidAddress)
  else v ← memory c !! as_usize offset; Some (c, Ok v).

Definition write_in_region (c : SwmbxCtrl) (offset val : Z) : outcome unit :=
  if (buffer_size c <=? as_usize offset)%nat then Some (c, Err InvalidAddress)
  else m ← index_set (memory c) (as_usize offset) val; Some (with_memory m c, Ok ()).

Definition update_notify (c : SwmbxCtrl) (port : nat) (addr : Z) (enable : bool) : outcome unit :=
  if (SWMBX_DEV_COUNT <=? port)%nat then Some (c, Err InvalidPort)
  else if (SWMBX_NODE_COUNT <=? as_usize addr)%nat then Some (c, Err InvalidAddress)
  else c ← update_node port (as_usize addr) (node_set_flag enable SWMBX_NOTIFY) c;
       Some (c, Ok ()).

Definition update_protect (c : SwmbxCtrl) (port : nat) (addr : Z) (enable : bool) : outcome unit :=
  if (SWMBX_DEV_COUNT <=? port)%nat then Some (c, Err InvalidPort)
  else if (SWMBX_NODE_COUNT <=? as_usize addr)%nat then Some (c, Err InvalidAddress)
  else c ← update_node port (as_usize addr) (node_set_flag enable SWMBX_PROTECT) c;
       Some (c, Ok ()).

Definition update_fifo (c : SwmbxCtrl) (index : nat) (addr : Z) (depth : nat) (notify : Z)
    (enable : bool) : outcome unit :=
  if (SWMBX_FIFO_COUNT <=? index)%nat then Some (c, Err InvalidFifoIndex)
  else if enable && ((depth =? 0)%nat || (SWMBX_FIFO_DEPTH <? depth)%nat)
  then Some (c, Err InvalidFifoDepth)
  else if (SWMBX_NODE_COUNT <=? as_usize addr)%nat then Some (c, Err InvalidAddress)
  else
    f ← fifo c !! index;
    let f' :=
      if enable then
        {| queue := q_new; f_notify_flag := notify; notify_start := false; fifo_write := false;
           fifo_offset := addr; enabled := true; msg_index := 0; max_msg_count := depth |}
      else
        {| queue := q_new; f_notify_flag := f_notify_flag f; notify_start := false;
           fifo_write := false; fifo_offset := fifo_offset f; enabled := false;
           msg_index := msg_index f; max_msg_count := max_msg_count f |} in
    c ← update_fifo_at index f' c;
    Some (c, Ok ()).

Definition flush_fifo (c : SwmbxCtrl) (index : nat) : outcome unit :=
  if (SWMBX_FIFO_COUNT <=? index)%nat then Some (c, Err InvalidFifoIndex)
  else f ← fifo c !! index; f ← fifo_flush f; c ← update_fifo_at index f c; Some (c, Ok ()).

Definition enable_behavior (c : SwmbxCtrl) (flag : Z) (enable : bool) : outcome unit :=
  if Z.land flag FLAG_MASK =? 0 then Some (c, Err InvalidFlagMask)
  else Some (with_mbx_en (set_flag enable (mbx_en c) flag) c, Ok ()).

(** The two loops of [apply_protect]: bits [bit ..] of the word at [base]. *)
Fixpoint apply_bits (port base : nat) (val : Z) (n bit : nat) (c : SwmbxCtrl) :
    option SwmbxCtrl :=
  match n with
  | O => Some c
  | S n =>
      let addr := (base + bit)%nat in
      if (SWMBX_NODE_COUNT <=? addr)%nat then Some c
      else
        let set := negb (Z.land (Z.shiftr val (Z.of_nat bit)) 1 =? 0) in
        c ← update_node port addr (node_set_flag set SWMBX_PROTECT) c;
        apply_bits port base val n (S bit) c
  end.

Fixpoint apply_words (port start_idx : nat) (words : list Z) (i : nat) (c : SwmbxCtrl) :
    option SwmbxCtrl :=
  match words with
  | [] => Some c
  | val :: words =>
      let base := Nat.shiftl (start_idx + i) PROTECT_WORD_SHIFT in
      c ← apply_bits port base val PROTECT_BITS_PER_WORD 0 c;
      apply_words port start_idx words (S i) c
  end.

(** [usize] has [USIZE_MAX] as its greatest value. *)
Definition apply_protect (USIZE_MAX : nat) (c : SwmbxCtrl) (port : nat) (bitmap : list Z)
    (start_idx : nat) : outcome unit :=
  if (SWMBX_DEV_COUNT <=? port)%nat then Some (c, Err InvalidPort)
  else
    let end_ := (start_idx + length bitmap)%nat in
    if (end_ <=? USIZE_MAX)%nat && (end_ <=? PROTECT_WORD_COUNT)%nat then
      c ← apply_words port start_idx bitmap 0 c; Some (c, Ok ())
    else Some (c, Err InvalidProtectRange).

(** A FIFO transaction is open on the port and FIFOs are armed. *)
Definition fifo_path (c : SwmbxCtrl) (port : nat) : option bool :=
  e ← mbx_fifo_execute c !! port; Some (e && has_flag (mbx_en c) SWMBX_FIFO).

Definition get_msg (c : SwmbxCtrl) (port : nat) (addr : Z) : outcome Z :=
  if (SWMBX_DEV_COUNT <=? port)%nat then Some (c, Err InvalidPort)
  else
    active ← fifo_path c port;
    if active : bool then
      idx ← mbx_fifo_idx c !! port;
      f ← fifo c !! as_usize idx;
      let '(f, r) := fifo_dequeue f in
      c ← update_fifo_at (as_usize idx) f c;
      Some (c, r)
    else read_in_region c addr.

(** The FIFO branch of [send_msg] after a successful append. *)
Definition note_append (c : SwmbxCtrl) (port : nat) (fifo_addr : Z) (i : nat) :
    option SwmbxCtrl :=
  f ← fifo c !! i;
  n ← get_node port (as_usize fifo_addr) c;
  c ← (if has_flag (mbx_en c) SWMBX_NOTIFY && has_flag (f_notify_flag f) SWMBX_FIFO_NOTIFY_START
          && negb (notify_start f) && has_flag (enabled_flags n) SWMBX_NOTIFY
       then c ← update_node port (as_usize fifo_addr) node_notify c;
            update_fifo_at i (with_notify_start true f) c
       else Some c);
  f ← fifo c !! i;
  if negb (fifo_write f) then update_fifo_at i (with_fifo_write true f) c else Some c.

Definition send_msg (c : SwmbxCtrl) (port : nat) (addr val : Z) : outcome unit :=
  if (SWMBX_DEV_COUNT <=? port)%nat then Some (c, Err InvalidPort)
  else
    active ← fifo_path c port;
    if active : bool then
      fifo_addr ← mbx_fifo_addr c !! port;
      idx ← mbx_fifo_idx c !! port;
      f ← fifo c !! as_usize idx;
      let '(f, r) := append_write f val in
      c ← update_fifo_at (as_usize idx) f c;
      match r with
      | Err e => c ← update_node port (as_usize addr) node_notify c; Some (c, Err e)
      | Ok _ => c ← note_append c port fifo_addr (as_usize idx); Some (c, Ok ())
      end
    else
      n ← get_node port (as_usize addr) c;
      let write_to_buffer :=
        negb (has_flag (enabled_flags n) SWMBX_PROTECT)
        || negb (has_flag (mbx_en c) SWMBX_PROTECT) in
      c ← (if has_flag (mbx_en c) SWMBX_NOTIFY && has_flag (enabled_flags n) SWMBX_NOTIFY
           then update_node port (as_usize addr) node_notify c else Some c);
      if write_to_buffer then write_in_region c addr val else Some (c, Ok ()).

Definition check_fifo (c : SwmbxCtrl) (addr : Z) : option nat :=
  position (λ f, (fifo_offset f =? addr) && enabled f) (fifo c).

Definition send_start (c : SwmbxCtrl) (port : nat) (addr : Z) : outcome unit :=
  if (SWMBX_DEV_COUNT <=? port)%nat then Some (c, Err InvalidPort)
  else
    match check_fifo c addr with
    | Some fifo_index =>
        e ← index_set (mbx_fifo_execute c) port true;
        a ← index_set (mbx_fifo_addr c) port addr;
        i ← index_set (mbx_fifo_idx c) port (as_u8 (Z.of_nat fifo_index));
        Some (with_txn e a i c, Ok ())
    | None =>
        e ← index_set (mbx_fifo_execute c) port false;
        Some (with_txn e (mbx_fifo_addr c) (mbx_fifo_idx c) c, Ok ())
    end.

Definition send_stop (c : SwmbxCtrl) (port : nat) : outcome unit :=
  if (SWMBX_DEV_COUNT <=? port)%nat then Some (c, Err InvalidPort)
  else
    active ← mbx_fifo_execute c !! port;
    if active : bool then
      fifo_addr ← mbx_fifo_addr c !! port;
      idx ← mbx_fifo_idx c !! port;
      f ← fifo c !! as_usize idx;
      n ← get_node port (as_usize fifo_addr) c;
      c ← (if has_flag (mbx_en c) SWMBX_NOTIFY
              && has_flag (f_notify_flag f) SWMBX_FIFO_NOTIFY_STOP
              && fifo_write f && has_flag (enabled_flags n) SWMBX_NOTIFY
           then update_node port (as_usize fifo_addr) node_notify c else Some c);
      c ← update_fifo_at (as_usize idx) (with_fifo_write false (with_notify_start false f)) c;
      e ← index_set (mbx_fifo_execute c) port false;
      a ← index_set (mbx_fifo_addr c) port 0;
      i ← index_set (mbx_fifo_idx c) port 0;
      Some (with_txn e a i c, Ok ())
    else Some (c, Ok ()).

Definition swmbx_write (c : SwmbxCtrl) (is_fifo : bool) (addr val : Z) : outcome unit :=
  if is_fifo then
    match check_fifo c addr with
    | Some index =>
        f ← fifo c !! index;
        let '(f, r) := append_write f val in
        c ← update_fifo_at index f c;
        Some (c, r)
    | None => Some (c, Err FifoNotMapped)
    end
  else write_in_region c addr val.

Definition swmbx_read (c : SwmbxCtrl) (is_fifo : bool) (addr : Z) : outcome Z :=
  if is_fifo then
    match check_fifo c addr with
    | Some index =>
        f ← fifo c !! index;
        let '(f, r) := fifo_dequeue f in
        c ← update_fifo_at index f c;
        Some (c, r)
    | None => Some (c, Err FifoNotMapped)
    end
  else read_in_region c addr.
End swmbx.

(** ** The mailbox's interface *)

(** The calls of the controller. *)
Inductive MbxOp :=
| UpdateNotify (port : nat) (addr : Z) (enable : bool)
| UpdateProtect (port : nat) (addr : Z) (enable : bool)
| UpdateFifo (index : nat) (addr : Z) (depth : nat) (notify : Z) (enable : bool)
| FlushFifo (index : nat)
| EnableBehavior (flag : Z) (enable : bool)
| ApplyProtect (port : nat) (bitmap : list Z) (start_idx : nat)
| GetMsg (port : nat) (addr : Z)
| SendMsg (port : nat) (addr val : Z)
| SendStart (port : nat) (addr : Z)
| SendStop (port : nat)
| SwmbxWrite (is_fifo : bool) (addr val : Z)
| SwmbxRead (is_fifo : bool) (addr : Z).

(** The [u8] arguments are bytes. *)
Definition op_ok (op : MbxOp) : Prop :=
  match op with
  | UpdateNotify _ addr _ | UpdateProtect _ addr _ | UpdateFifo _ addr _ _ _ | GetMsg _ addr
  | SendMsg _ addr _ | SendStart _ addr | SwmbxWrite _ addr _ | SwmbxRead _ addr => in_u8 addr
  | FlushFifo _ | EnableBehavior _ _ | ApplyProtect _ _ _ | SendStop _ => True
  end.

Section wf.
Context {Q : Type} `{QueueLaws Q CAP} (USIZE_MAX : nat).
Implicit Types c : @SwmbxCtrl Q.
Implicit Types f : @SwmbxFifo Q.

(** A call; the value a read returned is [Some]. *)
Definition run_op (op : MbxOp) c : option (@SwmbxCtrl Q * result (option Z) SwmbxError) :=
  let unit_call (o : option (@SwmbxCtrl Q * result unit SwmbxError)) :=
    '(c, r) ← o; Some (c, map_ok (λ _, None) r) in
  let byte_call (o : option (@SwmbxCtrl Q * result Z SwmbxError)) :=
    '(c, r) ← o; Some (c, map_ok Some r) in
  match op with
  | UpdateNotify port addr en => unit_call (update_notify c port addr en)
  | UpdateProtect port addr en => unit_call (update_protect c port addr en)
  | UpdateFifo i addr depth notify en => unit_call (update_fifo c i addr depth notify en)
  | FlushFifo i => unit_call (flush_fifo c i)
  | EnableBehavior flag en => unit_call (enable_behavior c flag en)
  | ApplyProtect port bitmap start => unit_call (apply_protect USIZE_MAX c port bitmap start)
  | GetMsg port addr => byte_call (get_msg c port addr)
  | SendMsg port addr val => unit_call (send_msg c port addr val)
  | SendStart port addr => unit_call (send_start c port addr)
  | SendStop port => unit_call (send_stop c port)
  | SwmbxWrite b addr val => unit_call (swmbx_write c b addr val)
  | SwmbxRead b addr => byte_call (swmbx_read c b addr)
  end.

Definition items f : list Z := q_items (queue f).

(** A FIFO holds no more than its depth and its queue allow. *)
Record fifo_wf f : Prop := {
  fifo_depth : (1 ≤ max_msg_count f ≤ SWMBX_FIFO_DEPTH)%nat;
  fifo_index : (msg_index f < max_msg_count f)%nat;
  fifo_items : (length (items f) ≤ max_msg_count f)%nat;
  fifo_cap : (length (items f) ≤ CAP)%nat;
}.

Record ctrl_wf c : Prop := {
  wf_ports : length (node c) = SWMBX_DEV_COUNT;
  wf_nodes : Forall (λ row, length row = SWMBX_NODE_COUNT) (node c);
  wf_fifos : length (fifo c) = SWMBX_FIFO_COUNT;
  wf_fifo : Forall fifo_wf (fifo c);
  wf_execute : length (mbx_fifo_execute c) = SWMBX_DEV_COUNT;
  wf_addrs : length (mbx_fifo_addr c) = SWMBX_DEV_COUNT;
  wf_addr : Forall in_u8 (mbx_fifo_addr c);
  wf_idxs : length (mbx_fifo_idx c) = SWMBX_DEV_COUNT;
  wf_idx : Forall (λ i, 0 ≤ i < Z.of_nat SWMBX_FIFO_COUNT) (mbx_fifo_idx c);
  wf_memory : (buffer_size c ≤ length (memory c))%nat;
}.

(** ** FIFOs as bounded queues *)

Lemma append_write_spec f v :
  fifo_wf f →
  ∃ f' r, append_write f v = (f', r) ∧ fifo_wf f' ∧
    (fifo_offset f', enabled f', f_notify_flag f', max_msg_count f', notify_start f', fifo_write f') =
    (fifo_offset f, enabled f, f_notify_flag f, max_msg_count f, notify_start f, fifo_write f) ∧
    if (length (items f) <? Nat.min (max_msg_count f) CAP)%nat
    then r = Ok () ∧ items f' = items f ++ [v] else r = Err FifoFull ∧ items f' = items f.
Proof.
  intros [Hd Hi Hit Hcap]. unfold append_write, items in *.
  rewrite (proj2 (Nat.eqb_neq _ _)) by lia. rewrite q_len_items.
  destruct (Nat.ltb_spec (length (q_items (queue f))) (max_msg_count f)) as [Hlt|Hge]; cycle 1.
  { rewrite (proj2 (Nat.ltb_ge _ _)) by lia. by eexists _, _. }
  destruct (Nat.ltb_spec (length (q_items (queue f))) CAP) as [Hc|Hc].
  - destruct (q_enqueue_room (queue f) v Hc) as (q' & -> & Hq').
    rewrite (proj2 (Nat.ltb_lt _ _)) by lia. eexists _, _. split; [done|]. split; [|done].
    split; unfold items; cbn -[Nat.modulo]; rewrite ?Hq', ?length_app; simpl; try lia.
    destruct (Nat.eqb_spec (msg_index f) (max_msg_count f - 1)); [lia|].
    apply Nat.mod_upper_bound. lia.
  - rewrite q_enqueue_full by lia. rewrite (proj2 (Nat.ltb_ge _ _)) by lia.
    eexists _, _. split; [done|]. by destruct f.
Qed.

Lemma fifo_dequeue_spec f :
  fifo_wf f →
  ∃ f' r, fifo_dequeue f = (f', r) ∧ fifo_wf f' ∧
    (fifo_offset f', enabled f', f_notify_flag f', max_msg_count f', notify_start f', fifo_write f') =
    (fifo_offset f, enabled f, f_notify_flag f, max_msg_count f, notify_start f, fifo_write f) ∧
    match items f with
    | [] => r = Err FifoEmpty ∧ items f' = []
    | v :: vs => r = Ok v ∧ items f' = vs
    end.
Proof.
  intros [Hd Hi Hit Hcap]. unfold fifo_dequeue, items in *.
  destruct (q_items (queue f)) as [|v vs] eqn:Hq.
  - rewrite q_dequeue_nil by done. eexists _, _. split; [done|].
    split_and!; try done. split; unfold items; simpl; rewrite ?Hq; simpl; lia.
  - destruct (q_dequeue_cons _ _ _ Hq) as (q' & -> & Hq'). eexists _, _. split; [done|].
    split_and!; try done. split; unfold items; simpl in *; rewrite ?Hq'; simpl; lia.
Qed.

Lemma drain_queue_spec fuel q :
  (length (q_items q) < fuel)%nat → ∃ q', drain_queue fuel q = Some q' ∧ q_items q' = [].
Proof.
  revert q. induction fuel as [|fuel IH]; intros q Hl; [lia|]. simpl.
  destruct (q_items q) as [|v vs] eqn:Hq.
  - rewrite q_dequeue_nil by done. eauto.
  - destruct (q_dequeue_cons _ _ _ Hq) as (q' & -> & Hq'). apply IH. rewrite Hq'.
    simpl in Hl. lia.
Qed.

Lemma fifo_flush_spec f :
  fifo_wf f → ∃ f', fifo_flush f = Some f' ∧ fifo_wf f' ∧ items f' = [].
Proof.
  intros [Hd Hi Hit Hcap]. unfold fifo_flush.
  destruct (drain_queue_spec (S (q_len (queue f))) (queue f)) as (q' & -> & Hq').
  { rewrite q_len_items. lia. }
  cbn [mbind option_bind]. eexists. split; [done|]. split; [|done].
  split; unfold items; simpl; rewrite ?Hq'; simpl; lia.
Qed.

(** ** Accesses stay in range *)

Lemma as_usize_lt z (n : nat) : 0 ≤ z < Z.of_nat n → (as_usize z < n)%nat.
Proof. unfold as_usize. lia. Qed.

Lemma in_u8_node addr : in_u8 addr → (as_usize addr < SWMBX_NODE_COUNT)%nat.
Proof. unfold in_u8, u8_MAX, SWMBX_NODE_COUNT, as_usize. lia. Qed.

Lemma get_node_wf c port addr :
  ctrl_wf c → (port < SWMBX_DEV_COUNT)%nat → (addr < SWMBX_NODE_COUNT)%nat →
  ∃ row n, node c !! port = Some row ∧ row !! addr = Some n ∧ length row = SWMBX_NODE_COUNT.
Proof.
  intros Hwf Hp Ha. destruct (lookup_lt_is_Some_2 (node c) port) as [row Hrow].
  { by rewrite wf_ports. }
  pose proof (Forall_lookup_1 _ _ _ _ (wf_nodes c Hwf) Hrow) as Hl. simpl in Hl.
  destruct (lookup_lt_is_Some_2 row addr) as [n Hn]; [by rewrite Hl|]. eauto 10.
Qed.

(** The state of a controller but its nodes. *)
Definition but_nodes c :=
  (mbx_en c, fifo c, mbx_fifo_execute c, mbx_fifo_addr c, mbx_fifo_idx c, memory c,
   buffer_size c).

Lemma update_node_wf c port addr g :
  ctrl_wf c → (port < SWMBX_DEV_COUNT)%nat → (addr < SWMBX_NODE_COUNT)%nat →
  ∃ c', update_node port addr g c = Some c' ∧ ctrl_wf c' ∧ but_nodes c' = but_nodes c.
Proof.
  intros Hwf Hp Ha. destruct (get_node_wf c port addr Hwf Hp Ha) as (row & n & Hr & Hn & Hl).
  unfold update_node. rewrite Hr. cbn [mbind option_bind]. rewrite Hn. cbn [mbind option_bind].
  eexists. split; [done|]. split; [|done]. destruct Hwf. split; simpl; try done.
  - by rewrite length_insert.
  - apply Forall_insert; [done|]. by rewrite length_insert.
Qed.

Lemma update_fifo_at_wf c i f :
  ctrl_wf c → (i < SWMBX_FIFO_COUNT)%nat → fifo_wf f →
  update_fifo_at i f c = Some (with_fifo (<[i := f]> (fifo c)) c) ∧
  ctrl_wf (with_fifo (<[i := f]> (fifo c)) c).
Proof.
  intros Hwf Hi Hf. unfold update_fifo_at, index_set.
  rewrite (proj2 (Nat.ltb_lt _ _)) by (by rewrite wf_fifos). split; [done|].
  destruct Hwf. split; simpl; try done; [by rewrite length_insert|by apply Forall_insert].
Qed.

Lemma fifo_lookup_wf c i :
  ctrl_wf c → (i < SWMBX_FIFO_COUNT)%nat → ∃ f, fifo c !! i = Some f ∧ fifo_wf f.
Proof.
  intros Hwf Hi. destruct (lookup_lt_is_Some_2 (fifo c) i) as [f Hf]; [by rewrite wf_fifos|].
  exists f. split; [done|]. exact (Forall_lookup_1 _ _ _ _ (wf_fifo c Hwf) Hf).
Qed.

(** The transaction registers of a port. *)
Lemma txn_lookup_wf c port :
  ctrl_wf c → (port < SWMBX_DEV_COUNT)%nat →
  ∃ e a i, mbx_fifo_execute c !! port = Some e ∧ mbx_fifo_addr c !! port = Some a ∧
    mbx_fifo_idx c !! port = Some i ∧ in_u8 a ∧ (as_usize i < SWMBX_FIFO_COUNT)%nat.
Proof.
  intros Hwf Hp.
  destruct (lookup_lt_is_Some_2 (mbx_fifo_execute c) port) as [e He]; [by rewrite wf_execute|].
  destruct (lookup_lt_is_Some_2 (mbx_fifo_addr c) port) as [a Ha]; [by rewrite wf_addrs|].
  destruct (lookup_lt_is_Some_2 (mbx_fifo_idx c) port) as [i Hi]; [by rewrite wf_idxs|].
  exists e, a, i. split_and!; try done.
  - exact (Forall_lookup_1 _ _ _ _ (wf_addr c Hwf) Ha).
  - apply as_usize_lt. exact (Forall_lookup_1 _ _ _ _ (wf_idx c Hwf) Hi).
Qed.

Lemma with_txn_wf c port e a i :
  ctrl_wf c → (port < SWMBX_DEV_COUNT)%nat → in_u8 a → 0 ≤ i < Z.of_nat SWMBX_FIFO_COUNT →
  ctrl_wf (with_txn (<[port := e]> (mbx_fifo_execute c)) (<[port := a]> (mbx_fifo_addr c))
    (<[port := i]> (mbx_fifo_idx c)) c).
Proof.
  intros Hwf Hp Ha Hi. destruct Hwf. split; simpl; rewrite ?length_insert; try done;
    by apply Forall_insert.
Qed.

Lemma check_fifo_lt c addr i :
  ctrl_wf c → check_fifo c addr = Some i → (i < SWMBX_FIFO_COUNT)%nat.
Proof. intros Hwf Hi%position_lt. by rewrite wf_fifos in Hi. Qed.

Lemma new_wf size region :
  (size ≤ length region)%nat → ctrl_wf (new_with_regions size region).
Proof.
  intros Hs. split; try done; simpl.
  - by repeat constructor; rewrite length_replicate.
  - change (Forall fifo_wf (replicate SWMBX_FIFO_COUNT SwmbxFifo_new)).
    apply Forall_replicate. split; unfold items; simpl; rewrite ?q_items_new; simpl;
      unfold SWMBX_FIFO_DEPTH; lia.
  - repeat constructor; unfold in_u8, u8_MAX; lia.
  - repeat constructor; unfold SWMBX_FIFO_COUNT; lia.
Qed.

(** ** Every call returns, on a well-formed controller *)

(** The call returns and keeps the controller well formed. *)
Definition total {A} (o : option (@SwmbxCtrl Q * result A SwmbxError)) : Prop :=
  ∃ c' r, o = Some (c', r) ∧ ctrl_wf c'.

Lemma total_ret {A} c (r : result A SwmbxError) : ctrl_wf c → total (Some (c, r)).
Proof. by eexists _, _. Qed.

(** Writing a FIFO back. *)
Lemma total_fifo_at {A} c i f (k : @SwmbxCtrl Q → option (@SwmbxCtrl Q * result A SwmbxError)) :
  ctrl_wf c → (i < SWMBX_FIFO_COUNT)%nat → fifo_wf f →
  (∀ c', ctrl_wf c' → but_nodes c' = but_nodes (with_fifo (<[i := f]> (fifo c)) c) → total (k c')) →
  total (update_fifo_at i f c ≫= k).
Proof.
  intros Hwf Hi Hf Hk. destruct (update_fifo_at_wf c i f Hwf Hi Hf) as [-> Hwf']. by apply Hk.
Qed.

Lemma total_node {A} c port addr g (k : @SwmbxCtrl Q → option (@SwmbxCtrl Q * result A SwmbxError)) :
  ctrl_wf c → (port < SWMBX_DEV_COUNT)%nat → (addr < SWMBX_NODE_COUNT)%nat →
  (∀ c', ctrl_wf c' → but_nodes c' = but_nodes c → total (k c')) →
  total (update_node port addr g c ≫= k).
Proof.
  intros Hwf Hp Ha Hk. destruct (update_node_wf c port addr g Hwf Hp Ha) as (c' & -> & ? & ?).
  by apply Hk.
Qed.

Lemma read_in_region_total c offset : ctrl_wf c → total (read_in_region c offset).
Proof.
  intros Hwf. unfold read_in_region. destruct (Nat.leb_spec (buffer_size c) (as_usize offset)).
  { by apply total_ret. }
  destruct (lookup_lt_is_Some_2 (memory c) (as_usize offset)) as [v ->].
  { pose proof (wf_memory c Hwf). lia. }
  by apply total_ret.
Qed.

Lemma write_in_region_total c offset val : ctrl_wf c → total (write_in_region c offset val).
Proof.
  intros Hwf. unfold write_in_region. destruct (Nat.leb_spec (buffer_size c) (as_usize offset)).
  { by apply total_ret. }
  rewrite index_set_Some by (pose proof (wf_memory c Hwf); lia). apply total_ret.
  destruct Hwf. split; simpl; rewrite ?length_insert; done.
Qed.

Lemma apply_bits_total port base val n bit c :
  ctrl_wf c → (port < SWMBX_DEV_COUNT)%nat →
  ∃ c', apply_bits port base val n bit c = Some c' ∧ ctrl_wf c' ∧ but_nodes c' = but_nodes c.
Proof.
  revert bit c. induction n as [|n IH]; intros bit c Hwf Hp; cbn [apply_bits]; [by exists c|].
  destruct (Nat.leb_spec SWMBX_NODE_COUNT (base + bit)) as [|Hlt]; [by exists c|].
  match goal with |- context [update_node port _ ?g c] =>
    destruct (update_node_wf c port (base + bit) g Hwf Hp Hlt) as (c1 & -> & Hwf1 & Hb1) end.
  destruct (IH (S bit) c1 Hwf1 Hp) as (c2 & Hc2 & Hwf2 & Hb2).
  exists c2. split; [done|]. split; [done|congruence].
Qed.

Lemma apply_words_total port start words i c :
  ctrl_wf c → (port < SWMBX_DEV_COUNT)%nat →
  ∃ c', apply_words port start words i c = Some c' ∧ ctrl_wf c' ∧ but_nodes c' = but_nodes c.
Proof.
  revert i c. induction words as [|val words IH]; intros i c Hwf Hp; cbn [apply_words];
    [by exists c|].
  destruct (apply_bits_total port (Nat.shiftl (start + i) PROTECT_WORD_SHIFT) val
    PROTECT_BITS_PER_WORD 0 c Hwf Hp) as (c1 & -> & Hwf1 & Hb1).
  destruct (IH (S i) c1 Hwf1 Hp) as (c2 & Hc2 & Hwf2 & Hb2).
  exists c2. split; [done|]. split; [done|congruence].
Qed.

Lemma with_flags_wf f b b' :
  fifo_wf f → fifo_wf (with_notify_start b f) ∧ fifo_wf (with_fifo_write b' f) ∧
    fifo_wf (with_fifo_write b' (with_notify_start b f)).
Proof. intros []. split_and!; split; done. Qed.

Lemma note_append_total c port a i :
  ctrl_wf c → (port < SWMBX_DEV_COUNT)%nat → in_u8 a → (i < SWMBX_FIFO_COUNT)%nat →
  ∃ c', note_append c port a i = Some c' ∧ ctrl_wf c'.
Proof.
  intros Hwf Hp Ha Hi. unfold note_append.
  destruct (fifo_lookup_wf c i Hwf Hi) as (f & Hf & Hfwf). rewrite Hf. cbn [mbind option_bind].
  destruct (get_node_wf c port (as_usize a) Hwf Hp (in_u8_node a Ha)) as (row & n & Hr & Hn & _).
  unfold get_node. rewrite Hr. cbn [mbind option_bind]. rewrite Hn. cbn [mbind option_bind].
  assert (∀ c, ctrl_wf c → ∃ c', (f ← fifo c !! i; if negb (fifo_write f)
    then update_fifo_at i (with_fifo_write true f) c else Some c) = Some c' ∧ ctrl_wf c') as Hend.
  { clear - Hi. intros c Hwf. destruct (fifo_lookup_wf c i Hwf Hi) as (f & -> & Hfwf).
    cbn [mbind option_bind]. destruct (negb _); [|by eauto].
    destruct (update_fifo_at_wf c i (with_fifo_write true f) Hwf Hi) as [-> ?]; [|by eauto].
    by apply with_flags_wf. }
  destruct (_ && _); [|by apply Hend].
  destruct (update_node_wf c port (as_usize a) node_notify Hwf Hp (in_u8_node a Ha))
    as (c1 & -> & Hwf1 & _). cbn [mbind option_bind].
  destruct (update_fifo_at_wf c1 i (with_notify_start true f) Hwf1 Hi) as [-> Hwf2];
    [by apply with_flags_wf|]. by apply Hend.
Qed.

Lemma send_msg_total c port addr val : ctrl_wf c → in_u8 addr → total (send_msg c port addr val).
Proof.
  intros Hwf Ha. unfold send_msg. destruct (Nat.leb_spec SWMBX_DEV_COUNT port) as [|Hp].
  { by apply total_ret. }
  destruct (txn_lookup_wf c port Hwf Hp) as (e & a & i & He & Hfa & Hfi & Ha8 & Hi).
  unfold fifo_path. rewrite He. cbn [mbind option_bind]. destruct (e && _).
  - rewrite Hfa. cbn [mbind option_bind]. rewrite Hfi. cbn [mbind option_bind].
    destruct (fifo_lookup_wf c _ Hwf Hi) as (f & Hf & Hfwf). rewrite Hf. cbn [mbind option_bind].
    destruct (append_write_spec f val Hfwf) as (f' & r & -> & Hf' & _ & _).
    apply total_fifo_at; [done..|]. intros c' Hwf' _. destruct r as [[]|e'].
    + destruct (note_append_total c' port a (as_usize i)) as (c2 & -> & Hwf2); try done.
      by apply total_ret.
    + apply total_node; [done|done|by apply in_u8_node|]. intros. by apply total_ret.
  - destruct (get_node_wf c port (as_usize addr) Hwf Hp (in_u8_node addr Ha))
      as (row & n & Hr & Hn & _).
    unfold get_node. rewrite Hr. cbn [mbind option_bind]. rewrite Hn. cbn [mbind option_bind].
    assert (∀ c', ctrl_wf c' → total (if negb (has_flag (enabled_flags n) SWMBX_PROTECT)
      || negb (has_flag (mbx_en c) SWMBX_PROTECT) then write_in_region c' addr val
      else Some (c', Ok ()))) as Hend.
    { intros c' Hwf'. destruct (_ || _); [by apply write_in_region_total|by apply total_ret]. }
    destruct (_ && _); [|by apply Hend].
    apply total_node; [done|done|by apply in_u8_node|]. intros c' Hwf' _. by apply Hend.
Qed.

Lemma send_stop_total c port : ctrl_wf c → total (send_stop c port).
Proof.
  intros Hwf. unfold send_stop. destruct (Nat.leb_spec SWMBX_DEV_COUNT port) as [|Hp].
  { by apply total_ret. }
  destruct (txn_lookup_wf c port Hwf Hp) as (e & a & i & He & Hfa & Hfi & Ha8 & Hi).
  rewrite He. cbn [mbind option_bind]. destruct e; [|by apply total_ret].
  rewrite Hfa. cbn [mbind option_bind]. rewrite Hfi. cbn [mbind option_bind].
  destruct (fifo_lookup_wf c _ Hwf Hi) as (f & Hf & Hfwf). rewrite Hf. cbn [mbind option_bind].
  destruct (get_node_wf c port (as_usize a) Hwf Hp (in_u8_node a Ha8)) as (row & n & Hr & Hn & _).
  unfold get_node. rewrite Hr. cbn [mbind option_bind]. rewrite Hn. cbn [mbind option_bind].
  match goal with |- total (_ ≫= ?k) => assert (∀ c', ctrl_wf c' → total (k c')) as Hend end.
  { intros c' Hwf'. apply total_fifo_at; [done|done|by apply with_flags_wf|].
    intros c2 Hwf2 _. rewrite !index_set_Some by (by rewrite ?wf_execute, ?wf_addrs, ?wf_idxs).
    cbn [mbind option_bind]. apply total_ret. apply with_txn_wf; [done|done|..].
    - unfold in_u8, u8_MAX. lia.
    - unfold SWMBX_FIFO_COUNT. lia. }
  destruct (_ && _); [|by apply Hend].
  apply total_node; [done|done|by apply in_u8_node|]. intros c' Hwf' _. by apply Hend.
Qed.

Lemma send_start_total c port addr : ctrl_wf c → in_u8 addr → total (send_start c port addr).
Proof.
  intros Hwf Ha. unfold send_start. destruct (Nat.leb_spec SWMBX_DEV_COUNT port) as [|Hp].
  { by apply total_ret. }
  destruct (check_fifo c addr) as [i|] eqn:Hc.
  - pose proof (check_fifo_lt c addr i Hwf Hc) as Hi. unfold SWMBX_FIFO_COUNT in Hi.
    rewrite !index_set_Some by (by rewrite ?wf_execute, ?wf_addrs, ?wf_idxs).
    cbn [mbind option_bind]. apply total_ret. apply with_txn_wf; [done..|].
    rewrite as_u8_small; unfold in_u8, u8_MAX, SWMBX_FIFO_COUNT; lia.
  - rewrite index_set_Some by (by rewrite wf_execute). cbn [mbind option_bind]. apply total_ret.
    destruct Hwf. split; simpl; rewrite ?length_insert; done.
Qed.

(** The calls that change one flag of one node, and those that use one FIFO. *)
Lemma node_flag_total c port addr g :
  ctrl_wf c → in_u8 addr →
  total (if (SWMBX_DEV_COUNT <=? port)%nat then Some (c, Err InvalidPort)
    else if (SWMBX_NODE_COUNT <=? as_usize addr)%nat then Some (c, Err InvalidAddress)
    else c ← update_node port (as_usize addr) g c; Some (c, Ok ())).
Proof.
  intros Hwf Ha. destruct (Nat.leb_spec SWMBX_DEV_COUNT port); [by apply total_ret|].
  destruct (_ <=? _)%nat; [by apply total_ret|].
  apply total_node; [done|done|by apply in_u8_node|]. intros. by apply total_ret.
Qed.

Lemma fifo_call_total {A} c i (call : @SwmbxFifo Q → @SwmbxFifo Q * result A SwmbxError) :
  ctrl_wf c → (i < SWMBX_FIFO_COUNT)%nat → (∀ f, fifo_wf f → fifo_wf (call f).1) →
  total (f ← fifo c !! i; let '(f, r) := call f in c ← update_fifo_at i f c; Some (c, r)).
Proof.
  intros Hwf Hi Hcall. destruct (fifo_lookup_wf c i Hwf Hi) as (f & -> & Hf).
  cbn [mbind option_bind]. specialize (Hcall f Hf). destruct (call f) as [f' r].
  apply total_fifo_at; [done..|]. intros. by apply total_ret.
Qed.

Lemma append_write_wf v f : fifo_wf f → fifo_wf (append_write f v).1.
Proof. intros Hf. by destruct (append_write_spec f v Hf) as (f' & r & -> & Hf' & _). Qed.

Lemma fifo_dequeue_wf f : fifo_wf f → fifo_wf (fifo_dequeue f).1.
Proof. intros Hf. by destruct (fifo_dequeue_spec f Hf) as (f' & r & -> & Hf' & _). Qed.

Lemma update_fifo_total c index addr depth notify enable :
  ctrl_wf c → total (update_fifo c index addr depth notify enable).
Proof.
  intros Hwf. unfold update_fifo.
  destruct (Nat.leb_spec SWMBX_FIFO_COUNT index) as [|Hi]; [by apply total_ret|].
  destruct (enable && _) eqn:Hdepth; [by apply total_ret|].
  destruct (_ <=? _)%nat; [by apply total_ret|].
  destruct (fifo_lookup_wf c index Hwf Hi) as (f & -> & [? ? ? ?]). cbn [mbind option_bind].
  apply total_fifo_at; [done|done| |intros; by apply total_ret].
  destruct enable; split; unfold items; simpl; rewrite ?q_items_new; simpl; try lia; try done.
  all: apply orb_false_iff in Hdepth as [?%Nat.eqb_neq ?%Nat.ltb_ge]; lia.
Qed.

Lemma flush_fifo_total c index : ctrl_wf c → total (flush_fifo c index).
Proof.
  intros Hwf. unfold flush_fifo.
  destruct (Nat.leb_spec SWMBX_FIFO_COUNT index) as [|Hi]; [by apply total_ret|].
  destruct (fifo_lookup_wf c index Hwf Hi) as (f & -> & Hf). cbn [mbind option_bind].
  destruct (fifo_flush_spec f Hf) as (f' & -> & Hf' & _). cbn [mbind option_bind].
  apply total_fifo_at; [done..|]. intros. by apply total_ret.
Qed.

Lemma apply_protect_total c port bitmap start :
  ctrl_wf c → total (apply_protect USIZE_MAX c port bitmap start).
Proof.
  intros Hwf. unfold apply_protect.
  destruct (Nat.leb_spec SWMBX_DEV_COUNT port) as [|Hp]; [by apply total_ret|].
  destruct (_ && _); [|by apply total_ret].
  destruct (apply_words_total port start bitmap 0 c Hwf Hp) as (c' & -> & Hwf' & _).
  by apply total_ret.
Qed.

Lemma get_msg_total c port addr : ctrl_wf c → total (get_msg c port addr).
Proof.
  intros Hwf. unfold get_msg.
  destruct (Nat.leb_spec SWMBX_DEV_COUNT port) as [|Hp]; [by apply total_ret|].
  destruct (txn_lookup_wf c port Hwf Hp) as (e & a & i & He & _ & Hfi & _ & Hi).
  unfold fifo_path. rewrite He. cbn [mbind option_bind].
  destruct (e && _); [|by apply read_in_region_total]. rewrite Hfi. cbn [mbind option_bind].
  apply fifo_call_total; [done|done|apply fifo_dequeue_wf].
Qed.

Lemma run_op_total op c : ctrl_wf c → op_ok op → total (run_op op c).
Proof.
  intros Hwf Hok.
  assert (∀ A (g : A → option Z) (o : option (@SwmbxCtrl Q * result A SwmbxError)),
    total o → total ('(c, r) ← o; Some (c, map_ok g r))) as Hmap.
  { intros A g o (c' & r & -> & Hc'). by apply total_ret. }
  destruct op; simpl in Hok |- *; apply Hmap.
  - by apply node_flag_total.
  - by apply node_flag_total.
  - by apply update_fifo_total.
  - by apply flush_fifo_total.
  - unfold enable_behavior. destruct (_ =? _); apply total_ret; [done|]. by destruct Hwf.
  - by apply apply_protect_total.
  - by apply get_msg_total.
  - by apply send_msg_total.
  - by apply send_start_total.
  - by apply send_stop_total.
  - unfold swmbx_write. destruct is_fifo; [|by apply write_in_region_total].
    destruct (check_fifo c addr) as [i|] eqn:Hc; [|by apply total_ret].
    apply (fifo_call_total c i (λ f, append_write f val)); [done|by eapply check_fifo_lt|].
    intros f. apply append_write_wf.
  - unfold swmbx_read. destruct is_fifo; [|by apply read_in_region_total].
    destruct (check_fifo c addr) as [i|] eqn:Hc; [|by apply total_ret].
    apply fifo_call_total; [done|by eapply check_fifo_lt|apply fifo_dequeue_wf].
Qed.
End wf.
