(* ===== verification/SwmbxRun.v ===== *)
(** * The software mailbox over runs

    What sequences of calls of [target/ast10x0/pfr/swmbx_ctrl.rs] do: no panic,
    protected bytes, FIFO transactions as bounded queues, and the protection
    bitmap against its bits. *)

From S2P Require Import Prelude Bytes Swmbx.
From stdpp Require Import base tactics option list numbers.
Local Open Scope Z_scope.

Section run.
Context {Q : Type} `{QueueLaws Q CAP} (USIZE_MAX : nat).
Implicit Types c : @SwmbxCtrl Q.
Implicit Types f : @SwmbxFifo Q.

(** A sequence of calls: the controller and what each call returned. *)
Fixpoint run_ops (ops : list MbxOp) c :
    option (@SwmbxCtrl Q * list (result (option Z) SwmbxError)) :=
  match ops with
  | [] => Some (c, [])
  | op :: ops =>
      '(c, r) ← run_op USIZE_MAX op c;
      '(c, rs) ← run_ops ops c;
      Some (c, r :: rs)
  end.

Lemma run_ops_total ops c :
  ctrl_wf c → Forall op_ok ops →
  ∃ c' rs, run_ops ops c = Some (c', rs) ∧ ctrl_wf c' ∧ length rs = length ops.
Proof.
  intros Hwf Hops. revert c Hwf. induction Hops as [|op ops Hop _ IH]; intros c Hwf.
  { by eexists _, _. }
  destruct (run_op_total USIZE_MAX op c Hwf Hop) as (c1 & r & Hr & Hwf1).
  destruct (IH c1 Hwf1) as (c2 & rs & Hrs & Hwf2 & Hl).
  exists c2, (r :: rs). simpl. rewrite Hr. cbn [mbind option_bind]. rewrite Hrs.
  split; [done|]. split; [done|]. simpl. by f_equal.
Qed.

Lemma run_ops_app ops ops' c c1 rs1 :
  run_ops ops c = Some (c1, rs1) →
  run_ops (ops ++ ops') c =
    ('(c2, rs2) ← run_ops ops' c1; Some (c2, rs1 ++ rs2)).
Proof.
  revert c rs1. induction ops as [|op ops IH]; intros c rs1 Hr; simpl in *.
  { simplify_eq. destruct (run_ops ops' c1) as [[]|]; done. }
  destruct (run_op USIZE_MAX op c) as [[c' r]|]; [|done]. cbn [mbind option_bind] in *.
  destruct (run_ops ops c') as [[c2 rs]|] eqn:E; [|done]. cbn [mbind option_bind] in Hr.
  simplify_eq. rewrite (IH c' rs E). destruct (run_ops ops' c1) as [[]|]; done.
Qed.

(** ** What host calls leave alone *)

(** Switches, flags and memory are the same. *)
Definition framed c c' : Prop :=
  mbx_en c' = mbx_en c ∧ memory c' = memory c ∧ buffer_size c' = buffer_size c ∧
  ∀ p a, enabled_flags <$> get_node p a c' = enabled_flags <$> get_node p a c.

#[local] Instance framed_preorder : PreOrder framed.
Proof.
  split; [done|]. intros c1 c2 c3 (? & ? & ? & Ha) (? & ? & ? & Hb).
  split_and!; congruence.
Qed.

Lemma update_node_get port addr g c c' p a :
  update_node port addr g c = Some c' →
  get_node p a c' = (if decide (p = port ∧ a = addr) then g else id) <$> get_node p a c.
Proof.
  unfold update_node, get_node. destruct (node c !! port) as [row|] eqn:Hr; [|done].
  cbn [mbind option_bind]. destruct (row !! addr) as [n|] eqn:Hn; [|done].
  cbn [mbind option_bind]. intros [= <-]. simpl.
  destruct (decide (p = port)) as [->|Hne]; cycle 1.
  { rewrite list_lookup_insert_ne by done. rewrite decide_False by naive_solver.
    by rewrite option_fmap_id. }
  rewrite list_lookup_insert_eq by (by eapply lookup_lt_Some). rewrite Hr. cbn [mbind option_bind].
  destruct (decide (a = addr)) as [->|Hne].
  - rewrite list_lookup_insert_eq by (by eapply lookup_lt_Some). rewrite Hn.
    by rewrite decide_True.
  - rewrite list_lookup_insert_ne by done. rewrite decide_False by naive_solver.
    by rewrite option_fmap_id.
Qed.

Lemma framed_notify port addr c c' : update_node port addr node_notify c = Some c' → framed c c'.
Proof.
  intros Hu. assert (mbx_en c' = mbx_en c ∧ memory c' = memory c ∧ buffer_size c' = buffer_size c)
    as (? & ? & ?).
  { unfold update_node in Hu. apply bind_Some in Hu as (row & _ & Hu).
    by apply bind_Some in Hu as (n & _ & [= <-]). }
  split_and!; try done. intros p a. rewrite (update_node_get _ _ _ _ _ p a Hu).
  destruct (get_node p a c); [|done]. by case_decide.
Qed.

Lemma framed_fifo i f c c' : update_fifo_at i f c = Some c' → framed c c'.
Proof.
  unfold update_fifo_at. destruct (index_set _ _ _); [|done]. intros [= <-]. done.
Qed.

Lemma framed_note_append c port a i c' : note_append c port a i = Some c' → framed c c'.
Proof.
  unfold note_append. destruct (fifo c !! i) as [f|]; [|done]. cbn [mbind option_bind].
  destruct (get_node _ _ _) as [n|]; [|done]. cbn [mbind option_bind].
  intros Hc. apply bind_Some in Hc as (c1 & H1 & Hc).
  assert (framed c c1) as Hf1.
  { case_match; [|by simplify_eq].
    apply bind_Some in H1 as (c0 & Hn & Hfi).
    transitivity c0; [by eapply framed_notify|by eapply framed_fifo]. }
  apply bind_Some in Hc as (f1 & _ & Hc). transitivity c1; [done|].
  case_match; [by eapply framed_fifo|by simplify_eq].
Qed.

(** The byte at [addr] is protected from [port]. *)
Definition protected c (port : nat) (addr : Z) : Prop :=
  has_flag (mbx_en c) SWMBX_PROTECT = true ∧
  ∃ n, get_node port (as_usize addr) c = Some n ∧
    has_flag (enabled_flags n) SWMBX_PROTECT = true.

(** Switches and flags are the same. *)
Definition policy_kept c c' : Prop :=
  mbx_en c' = mbx_en c ∧
  ∀ p a, enabled_flags <$> get_node p a c' = enabled_flags <$> get_node p a c.

(** The calls host masters make. *)
Definition is_host (op : MbxOp) : bool :=
  match op with
  | GetMsg _ _ | SendMsg _ _ _ | SendStart _ _ | SendStop _ => true
  | _ => false
  end.

Lemma send_msg_frame c port addr val c' r :
  send_msg c port addr val = Some (c', r) →
  policy_kept c c' ∧
  (memory c' = memory c ∨
   ¬ protected c port addr ∧ memory c' = <[as_usize addr := val]> (memory c)).
Proof.
  assert (∀ c1, framed c c1 → policy_kept c c1 ∧ memory c1 = memory c) as Hfr.
  { intros c1 (? & ? & _ & ?). done. }
  unfold send_msg. destruct (_ <=? _)%nat; [intros [= <- <-]; by split; [|left]|].
  intros Hc. apply bind_Some in Hc as (active & _ & Hc). destruct active.
  - apply bind_Some in Hc as (fa & _ & Hc). apply bind_Some in Hc as (idx & _ & Hc).
    apply bind_Some in Hc as (f & _ & Hc). destruct (append_write f val) as [f' r'].
    apply bind_Some in Hc as (c1 & Hf%framed_fifo & Hc).
    assert (framed c c') as Hfc.
    { destruct r' as [[]|e]; apply bind_Some in Hc as (c2 & H2 & [= -> _]);
        (transitivity c1; [done|]); [by eapply framed_note_append|by eapply framed_notify]. }
    destruct (Hfr c' Hfc). by split; [|left].
  - apply bind_Some in Hc as (n & Hn & Hc). apply bind_Some in Hc as (c1 & H1 & Hc).
    assert (framed c c1) as Hf1.
    { clear Hc. case_match; [by eapply framed_notify|by simplify_eq]. }
    destruct (Hfr c1 Hf1) as [Hpol Hmem].
    destruct (negb (has_flag (enabled_flags n) SWMBX_PROTECT)
      || negb (has_flag (mbx_en c) SWMBX_PROTECT)) eqn:Hw; [|simplify_eq; by split; [|left]].
    unfold write_in_region, index_set in Hc.
    case_match; [simplify_eq; by split; [|left]|].
    case_match; [|done]. simplify_eq/=. split; [exact Hpol|]. right. split.
    + intros [Hg (n' & Hn' & Hfl)]. rewrite Hn in Hn'. simplify_eq.
      by rewrite Hg, Hfl in Hw.
    + by rewrite Hmem.
Qed.

Lemma host_frame op c c' r :
  is_host op = true → run_op USIZE_MAX op c = Some (c', r) →
  policy_kept c c' ∧
  (memory c' = memory c ∨ ∃ port addr val, op = SendMsg port addr val ∧
     ¬ protected c port addr ∧ memory c' = <[as_usize addr := val]> (memory c)).
Proof.
  assert (∀ c1, framed c c1 → policy_kept c c1 ∧ (memory c1 = memory c ∨
    ∃ port addr val, op = SendMsg port addr val ∧ ¬ protected c port addr ∧
      memory c1 = <[as_usize addr := val]> (memory c))) as Hfr.
  { intros c1 (? & ? & _ & ?). split; [done|by left]. }
  destruct op as [| | | | | |port addr|port addr val|port addr|port| |]; try done; intros _ Hc;
    simpl in Hc; apply bind_Some in Hc as ([c1 r1] & Hc & [= -> _]).
  - apply Hfr. unfold get_msg in Hc. case_match; [by simplify_eq|].
    apply bind_Some in Hc as (active & _ & Hc). destruct active.
    + apply bind_Some in Hc as (idx & _ & Hc). apply bind_Some in Hc as (f & _ & Hc).
      destruct (fifo_dequeue f) as [f' r']. apply bind_Some in Hc as (c2 & H2 & [= -> _]).
      by eapply framed_fifo.
    + unfold read_in_region in Hc. case_match; [by simplify_eq|].
      destruct (memory c !! _); by simplify_eq/=.
  - destruct (send_msg_frame _ _ _ _ _ _ Hc) as [Hp [Hm|[Hn Hm]]]; (split; [done|]); [by left|].
    right. by exists port, addr, val.
  - apply Hfr. unfold send_start, index_set in Hc. by repeat case_match; simplify_eq/=.
  - apply Hfr. unfold send_stop in Hc. case_match; [by simplify_eq|].
    apply bind_Some in Hc as (active & _ & Hc). destruct active; [|by simplify_eq].
    apply bind_Some in Hc as (a & _ & Hc). apply bind_Some in Hc as (i & _ & Hc).
    apply bind_Some in Hc as (f & _ & Hc). apply bind_Some in Hc as (n & _ & Hc).
    apply bind_Some in Hc as (c2 & H2 & Hc). apply bind_Some in Hc as (c3 & H3 & Hc).
    apply bind_Some in Hc as (e & _ & Hc). apply bind_Some in Hc as (a' & _ & Hc).
    apply bind_Some in Hc as (i' & _ & [= <- _]).
    transitivity c2; [case_match; [by eapply framed_notify|by simplify_eq]|].
    transitivity c3; [by eapply framed_fifo|done].
Qed.

(** ** FIFO transactions *)

(** A FIFO as a bounded queue with its mapping. *)
Definition view f : list Z * nat * Z * bool :=
  (items f, max_msg_count f, fifo_offset f, enabled f).
Definition views c : list (list Z * nat * Z * bool) := view <$> fifo c.

(** The switches and the transaction registers. *)
Definition regs c := (mbx_en c, mbx_fifo_execute c, mbx_fifo_addr c, mbx_fifo_idx c).

(** A FIFO transaction of [port] is open on FIFO [i]. *)
Definition in_txn c (port i : nat) : Prop :=
  has_flag (mbx_en c) SWMBX_FIFO = true ∧ mbx_fifo_execute c !! port = Some true ∧
  mbx_fifo_idx c !! port = Some (Z.of_nat i).

Lemma in_txn_regs c c' port i : regs c' = regs c → in_txn c port i → in_txn c' port i.
Proof. unfold regs, in_txn. intros. simplify_eq. congruence. Qed.

(** Where addresses are mapped depends on the mappings only. *)
Definition mappings (vs : list (list Z * nat * Z * bool)) : list (Z * bool) :=
  (λ v, (v.1.2, v.2)) <$> vs.

Lemma check_fifo_mappings c c' addr :
  mappings (views c') = mappings (views c) → check_fifo c' addr = check_fifo c addr.
Proof.
  unfold check_fifo, mappings, views. generalize (fifo c) (fifo c').
  induction l as [|x l IH]; intros [|x' l'] Hv; simplify_eq/=; [done|].
  replace (fifo_offset x') with (fifo_offset x) by done.
  replace (enabled x') with (enabled x) by done. by rewrite (IH l').
Qed.

Lemma mappings_insert i vs q d off en q' d' :
  vs !! i = Some (q, d, off, en) → mappings (<[i := (q', d', off, en)]> vs) = mappings vs.
Proof.
  intros Hv. unfold mappings. rewrite list_fmap_insert. apply list_insert_id.
  by rewrite list_lookup_fmap, Hv.
Qed.

Lemma update_fifo_at_views c i f c' :
  update_fifo_at i f c = Some c' → views c' = <[i := view f]> (views c) ∧ regs c' = regs c.
Proof.
  unfold update_fifo_at, index_set. case_match; [|done]. intros [= <-]. split; [|done].
  unfold views. simpl. by rewrite list_fmap_insert.
Qed.

Lemma update_fifo_at_same c i f f' c' :
  fifo c !! i = Some f → view f' = view f → update_fifo_at i f' c = Some c' →
  views c' = views c ∧ regs c' = regs c.
Proof.
  intros Hf Hv [-> ->]%update_fifo_at_views. split; [|done]. apply list_insert_id.
  unfold views. by rewrite list_lookup_fmap, Hf, Hv.
Qed.

Lemma update_node_views port addr g c c' :
  update_node port addr g c = Some c' → views c' = views c ∧ regs c' = regs c ∧ fifo c' = fifo c.
Proof.
  unfold update_node. destruct (node c !! port) as [row|]; [|done]. cbn [mbind option_bind].
  destruct (row !! addr); [|done]. by intros [= <-].
Qed.

Lemma note_append_views c port a i c' :
  note_append c port a i = Some c' → views c' = views c ∧ regs c' = regs c.
Proof.
  unfold note_append. destruct (fifo c !! i) as [f|] eqn:Hf; [|done]. cbn [mbind option_bind].
  destruct (get_node _ _ _) as [n|]; [|done]. cbn [mbind option_bind].
  intros Hc. apply bind_Some in Hc as (c1 & Hc1 & Hc).
  assert (views c1 = views c ∧ regs c1 = regs c) as [Hv1 Hr1].
  { clear Hc. case_match; [|by simplify_eq]. apply bind_Some in Hc1 as (c0 & Hn & Hfi).
    apply update_node_views in Hn as (<- & <- & Hf0). rewrite <- Hf0 in Hf.
    by apply (update_fifo_at_same c0 i f (with_notify_start true f)). }
  apply bind_Some in Hc as (f1 & Hf1 & Hc). rewrite <- Hv1, <- Hr1.
  case_match; [by apply (update_fifo_at_same c1 i f1 (with_fifo_write true f1))|by simplify_eq].
Qed.

(** A byte sent in a transaction is queued, or refused when there is no room. *)
Lemma send_msg_txn c port i addr v q d off en :
  ctrl_wf c → in_u8 addr → (port < SWMBX_DEV_COUNT)%nat → in_txn c port i →
  views c !! i = Some (q, d, off, en) →
  ∃ c', send_msg c port addr v =
      Some (c', if (length q <? Nat.min d CAP)%nat then Ok () else Err FifoFull) ∧
    ctrl_wf c' ∧ regs c' = regs c ∧
    views c' = <[i := (if (length q <? Nat.min d CAP)%nat then q ++ [v] else q, d, off, en)]>
      (views c).
Proof.
  intros Hwf Ha Hp (Hen & Hex & Hidx) Hv.
  destruct (send_msg_total c port addr v Hwf Ha) as (c' & r & Hs & Hwf').
  unfold views in Hv. rewrite list_lookup_fmap in Hv.
  destruct (fifo c !! i) as [f|] eqn:Hf; [|done]. injection Hv as Hq Hd Hoff Hene.
  pose proof (Forall_lookup_1 _ _ _ _ (wf_fifo c Hwf) Hf) as Hfwf.
  destruct (append_write_spec f v Hfwf) as (f' & r' & Happ & Hf' & Hsame & Hres).
  rewrite Hq, Hd in Hres.
  pose proof Hs as Hs0. unfold send_msg in Hs0. rewrite (proj2 (Nat.leb_gt _ _) Hp) in Hs0.
  unfold fifo_path in Hs0. rewrite Hex in Hs0. cbn [mbind option_bind] in Hs0. rewrite Hen in Hs0.
  cbn [andb] in Hs0. apply bind_Some in Hs0 as (fa & _ & Hs0). rewrite Hidx in Hs0.
  cbn [mbind option_bind] in Hs0. rewrite as_usize_of_nat, Hf in Hs0.
  cbn [mbind option_bind] in Hs0. rewrite Happ in Hs0.
  apply bind_Some in Hs0 as (c1 & [Hv1 Hr1]%update_fifo_at_views & Hs0).
  assert (r = r' ∧ views c' = views c1 ∧ regs c' = regs c1) as (-> & Hv' & Hr').
  { destruct r' as [[]|e]; apply bind_Some in Hs0 as (c2 & H2 & [= -> <-]).
    - apply note_append_views in H2 as [? ?]. by split_and!.
    - apply update_node_views in H2 as (? & ? & _). by split_and!. }
  exists c'. rewrite Hv', Hv1, Hr', Hr1. unfold view. injection Hsame as -> -> _ -> _ _.
  rewrite Hd, Hoff, Hene. destruct (length q <? _)%nat; destruct Hres as [-> ->]; rewrite ?Hq; done.
Qed.

(** A byte read in a transaction is the oldest one. *)
Lemma get_msg_txn c port i addr q d off en :
  ctrl_wf c → (port < SWMBX_DEV_COUNT)%nat → in_txn c port i →
  views c !! i = Some (q, d, off, en) →
  ∃ c', get_msg c port addr =
      Some (c', match q with v :: _ => Ok v | [] => Err FifoEmpty end) ∧
    ctrl_wf c' ∧ regs c' = regs c ∧ views c' = <[i := (tail q, d, off, en)]> (views c).
Proof.
  intros Hwf Hp (Hen & Hex & Hidx) Hv.
  destruct (get_msg_total c port addr Hwf) as (c' & r & Hs & Hwf').
  unfold views in Hv. rewrite list_lookup_fmap in Hv.
  destruct (fifo c !! i) as [f|] eqn:Hf; [|done]. injection Hv as Hq Hd Hoff Hene.
  pose proof (Forall_lookup_1 _ _ _ _ (wf_fifo c Hwf) Hf) as Hfwf.
  destruct (fifo_dequeue_spec f Hfwf) as (f' & r' & Hdeq & Hf' & Hsame & Hres). rewrite Hq in Hres.
  pose proof Hs as Hs0. unfold get_msg in Hs0. rewrite (proj2 (Nat.leb_gt _ _) Hp) in Hs0.
  unfold fifo_path in Hs0. rewrite Hex in Hs0. cbn [mbind option_bind] in Hs0. rewrite Hen in Hs0.
  cbn [andb] in Hs0. rewrite Hidx in Hs0. cbn [mbind option_bind] in Hs0.
  rewrite as_usize_of_nat, Hf in Hs0. cbn [mbind option_bind] in Hs0. rewrite Hdeq in Hs0.
  apply bind_Some in Hs0 as (c1 & [Hv1 Hr1]%update_fifo_at_views & [= -> ->]).
  exists c'. rewrite Hv1, Hr1. unfold view. injection Hsame as -> -> _ -> _ _.
  rewrite Hd, Hoff, Hene. destruct q; destruct Hres as [-> ->]; done.
Qed.

(** Opening and closing a transaction. *)
Lemma send_start_txn c port addr i :
  ctrl_wf c → in_u8 addr → (port < SWMBX_DEV_COUNT)%nat →
  has_flag (mbx_en c) SWMBX_FIFO = true → check_fifo c addr = Some i →
  ∃ c', send_start c port addr = Some (c', Ok ()) ∧ ctrl_wf c' ∧ in_txn c' port i ∧
    views c' = views c ∧ mbx_en c' = mbx_en c.
Proof.
  intros Hwf Ha Hp Hen Hi. destruct (send_start_total c port addr Hwf Ha) as (c' & r & Hs & Hwf').
  pose proof Hs as Hs0. unfold send_start in Hs0. rewrite (proj2 (Nat.leb_gt _ _) Hp), Hi in Hs0.
  rewrite !index_set_Some in Hs0 by (by rewrite ?wf_execute, ?wf_addrs, ?wf_idxs).
  cbn [mbind option_bind] in Hs0. simplify_eq. eexists. split; [done|]. split; [done|].
  split; [|done]. split; [done|]. simpl. split.
  - apply list_lookup_insert_eq. by rewrite wf_execute.
  - rewrite list_lookup_insert_eq by (by rewrite wf_idxs). f_equal.
    pose proof (check_fifo_lt c addr i Hwf Hi) as Hlt. unfold SWMBX_FIFO_COUNT in Hlt.
    apply as_u8_small. unfold in_u8, u8_MAX. lia.
Qed.

Lemma send_stop_txn c port i :
  ctrl_wf c → (port < SWMBX_DEV_COUNT)%nat → in_txn c port i →
  ∃ c', send_stop c port = Some (c', Ok ()) ∧ ctrl_wf c' ∧
    views c' = views c ∧ mbx_en c' = mbx_en c.
Proof.
  intros Hwf Hp (Hen & Hex & Hidx). destruct (send_stop_total c port Hwf) as (c' & r & Hs & Hwf').
  pose proof Hs as Hs0. unfold send_stop in Hs0. rewrite (proj2 (Nat.leb_gt _ _) Hp), Hex in Hs0.
  cbn [mbind option_bind] in Hs0.
  apply bind_Some in Hs0 as (a & _ & Hs0). rewrite Hidx in Hs0. cbn [mbind option_bind] in Hs0.
  rewrite as_usize_of_nat in Hs0.
  apply bind_Some in Hs0 as (f & Hf & Hs0). apply bind_Some in Hs0 as (n & _ & Hs0).
  apply bind_Some in Hs0 as (c1 & Hc1 & Hs0). apply bind_Some in Hs0 as (c2 & Hc2 & Hs0).
  apply bind_Some in Hs0 as (e & _ & Hs0). apply bind_Some in Hs0 as (a' & _ & Hs0).
  apply bind_Some in Hs0 as (i' & _ & [= <- <-]).
  assert (views c1 = views c ∧ regs c1 = regs c ∧ fifo c1 = fifo c) as (Hv1 & Hr1 & Hf1).
  { case_match; [by eapply update_node_views|by simplify_eq]. }
  eapply (update_fifo_at_same c1 i f) in Hc2 as [Hv2 Hr2]; [|by rewrite Hf1|done].
  eexists. split; [done|]. split; [done|]. unfold regs in *. split; simpl; [|congruence].
  unfold views in *. simpl. congruence.
Qed.

(** A run of sends in a transaction, and of reads. *)
Lemma sends_txn vs c port i addr q d off en :
  ctrl_wf c → in_u8 addr → (port < SWMBX_DEV_COUNT)%nat → in_txn c port i →
  views c !! i = Some (q, d, off, en) → (length q + length vs ≤ Nat.min d CAP)%nat →
  ∃ c', run_ops (SendMsg port addr <$> vs) c = Some (c', replicate (length vs) (Ok None)) ∧
    ctrl_wf c' ∧ regs c' = regs c ∧ views c' = <[i := (q ++ vs, d, off, en)]> (views c).
Proof.
  revert c q. induction vs as [|v vs IH]; intros c q Hwf Ha Hp Ht Hv Hl.
  { exists c. rewrite app_nil_r, list_insert_id by done. done. }
  destruct (send_msg_txn c port i addr v q d off en) as (c1 & Hs & Hwf1 & Hr1 & Hv1); [done..|].
  simpl in Hl. rewrite (proj2 (Nat.ltb_lt _ _)) in Hs, Hv1 by lia.
  destruct (IH c1 (q ++ [v])) as (c2 & Hs2 & Hwf2 & Hr2 & Hv2); try done.
  - by eapply in_txn_regs.
  - rewrite Hv1. apply list_lookup_insert_eq. by eapply lookup_lt_Some.
  - rewrite length_app. simpl. lia.
  - exists c2. cbn [fmap list_fmap run_ops run_op]. rewrite Hs. cbn [mbind option_bind map_ok].
    cbn [fmap list_fmap] in Hs2. rewrite Hs2. split; [done|]. split; [done|].
    split; [congruence|]. rewrite Hv2, Hv1, list_insert_insert_eq, <- app_assoc. done.
Qed.

Lemma reads_txn q c port i addr d off en rest :
  ctrl_wf c → (port < SWMBX_DEV_COUNT)%nat → in_txn c port i →
  views c !! i = Some (q ++ rest, d, off, en) →
  ∃ c', run_ops (replicate (length q) (GetMsg port addr)) c = Some (c', Ok ∘ Some <$> q) ∧
    ctrl_wf c' ∧ regs c' = regs c ∧ views c' = <[i := (rest, d, off, en)]> (views c).
Proof.
  revert c. induction q as [|v q IH]; intros c Hwf Hp Ht Hv.
  { exists c. simpl in *. rewrite list_insert_id by done. done. }
  destruct (get_msg_txn c port i addr (v :: q ++ rest) d off en) as (c1 & Hs & Hwf1 & Hr1 & Hv1);
    [done..|]. simpl tail in Hv1.
  destruct (IH c1) as (c2 & Hs2 & Hwf2 & Hr2 & Hv2); try done.
  - by eapply in_txn_regs.
  - rewrite Hv1. apply list_lookup_insert_eq. by eapply lookup_lt_Some.
  - exists c2. cbn [length replicate run_ops run_op]. rewrite Hs. cbn [mbind option_bind map_ok].
    rewrite Hs2. split; [done|]. split; [done|]. split; [congruence|].
    by rewrite Hv2, Hv1, list_insert_insert_eq.
Qed.

(** ** The protection bitmap *)

(** What a bit of a word at [base] does to node [a], from [bit] for [n] bits. *)
Definition bit_map (base : nat) (val : Z) (n bit a : nat) : SwmbxNode → SwmbxNode :=
  if decide (base + bit ≤ a < base + bit + n)%nat
  then node_set_flag (Z.testbit val (Z.of_nat (a - base))) SWMBX_PROTECT else id.

(** The bitmap as a function of the node's address. *)
Definition protect_map (bitmap : list Z) (start_idx a : nat) : SwmbxNode → SwmbxNode :=
  if decide (start_idx ≤ a / 32)%nat then
    match bitmap !! (a / 32 - start_idx)%nat with
    | Some word => node_set_flag (Z.testbit word (Z.of_nat (a mod 32))) SWMBX_PROTECT
    | None => id
    end
  else id.

Lemma shifted_bit val (bit : nat) :
  negb (Z.land (Z.shiftr val (Z.of_nat bit)) 1 =? 0) = Z.testbit val (Z.of_nat bit).
Proof.
  rewrite (Z.land_ones _ 1) by lia. change (2 ^ 1) with 2.
  rewrite <- Z.bit0_mod, Z.shiftr_spec, Z.add_0_l by lia. by destruct (Z.testbit _ _).
Qed.

Lemma apply_bits_get port base val n bit c c' p a :
  (base + bit + n ≤ SWMBX_NODE_COUNT)%nat → apply_bits port base val n bit c = Some c' →
  get_node p a c' =
    (if decide (p = port) then bit_map base val n bit a else id) <$> get_node p a c.
Proof.
  revert bit c. induction n as [|n IH]; intros bit c Hle Hb; cbn [apply_bits] in Hb.
  { simplify_eq. unfold bit_map. rewrite (decide_False (P := _ ∧ _)) by lia.
    by destruct (decide _); rewrite option_fmap_id. }
  rewrite (proj2 (Nat.leb_gt _ _)) in Hb by lia. apply bind_Some in Hb as (c1 & Hu & Hb).
  rewrite (IH (S bit) c1) by (done || lia). rewrite (update_node_get _ _ _ _ _ p a Hu).
  rewrite shifted_bit, <- option_fmap_compose. unfold bit_map.
  destruct (decide (p = port)) as [->|]; cycle 1.
  { rewrite decide_False by naive_solver. done. }
  destruct (decide (a = base + bit)%nat) as [->|Hne].
  - rewrite (decide_True (P := port = port ∧ _)) by done.
    rewrite !decide_False by lia. rewrite decide_True by lia.
    by replace (base + bit - base)%nat with bit by lia.
  - rewrite (decide_False (P := port = port ∧ _)) by naive_solver.
    destruct (decide (base + S bit ≤ a < base + S bit + n)%nat).
    + by rewrite decide_True by lia.
    + by rewrite decide_False by lia.
Qed.

Lemma apply_words_get port start words i c c' p a :
  (start + i + length words ≤ PROTECT_WORD_COUNT)%nat →
  apply_words port start words i c = Some c' →
  get_node p a c' =
    (if decide (p = port) then protect_map words (start + i) a else id) <$> get_node p a c.
Proof.
  change PROTECT_WORD_COUNT with 8%nat.
  revert i c. induction words as [|w words IH]; intros i c Hle Hw; cbn [apply_words] in Hw.
  { simplify_eq. unfold protect_map. rewrite lookup_nil.
    repeat case_decide; by rewrite option_fmap_id. }
  apply bind_Some in Hw as (c1 & Hb & Hw). simpl in Hle.
  rewrite (IH (S i) c1) by (done || lia).
  rewrite Nat.shiftl_mul_pow2 in Hb. change (2 ^ PROTECT_WORD_SHIFT)%nat with 32%nat in Hb.
  eapply apply_bits_get in Hb as ->;
    [|unfold SWMBX_NODE_COUNT, PROTECT_BITS_PER_WORD; lia].
  rewrite <- option_fmap_compose. case_decide; [|done].
  unfold bit_map, protect_map, PROTECT_BITS_PER_WORD.
  pose proof (Nat.div_mod_eq a 32) as Hdm. pose proof (Nat.mod_upper_bound a 32) as Hm.
  destruct (decide (a / 32 = start + i)%nat) as [Hq|Hq].
  - rewrite (decide_True (P := _ ∧ _)) by lia. rewrite (decide_False (P := (start + S i ≤ _)%nat)) by lia.
    rewrite decide_True by lia. rewrite Hq, Nat.sub_diag. simpl.
    by replace (a - (start + i) * 32)%nat with (a mod 32)%nat by lia.
  - rewrite (decide_False (P := _ ∧ _)) by lia. case_decide; case_decide; try lia; [|done].
    by replace (a / 32 - (start + i))%nat with (S (a / 32 - (start + S i))) by lia.
Qed.

(** [apply_protect] with a bitmap that fits sets the protection flag of each
    covered node to its bit and touches no other node, flag or byte. *)
Theorem apply_protect_is_bitmap c port bitmap start_idx :
  ctrl_wf c → (port < SWMBX_DEV_COUNT)%nat →
  (start_idx + length bitmap ≤ Nat.min PROTECT_WORD_COUNT USIZE_MAX)%nat →
  ∃ c', apply_protect USIZE_MAX c port bitmap start_idx = Some (c', Ok ()) ∧
    but_nodes c' = but_nodes c ∧
    ∀ p a, get_node p a c' =
      (if decide (p = port) then protect_map bitmap start_idx a else id) <$> get_node p a c.
Proof.
  intros Hwf Hp Hle. unfold apply_protect.
  rewrite (proj2 (Nat.leb_gt _ _) Hp), !(proj2 (Nat.leb_le _ _)) by lia. cbn [andb].
  destruct (apply_words_total port start_idx bitmap 0 c Hwf Hp) as (c' & Hw & _ & Hb).
  rewrite Hw. cbn [mbind option_bind]. exists c'. split; [done|]. split; [done|]. intros p a.
  rewrite (apply_words_get port start_idx bitmap 0 c c' p a) by (done || lia).
  by rewrite Nat.add_0_r.
Qed.

(** ** Runs of calls *)

(** C36: From a new controller no sequence of calls with [u8] addresses panics:
    each returns a result and the controller stays well formed. *)
Theorem mailbox_never_panics size region ops :
  (size ≤ length region)%nat → Forall op_ok ops →
  ∃ c rs, run_ops ops (new_with_regions size region) = Some (c, rs) ∧ ctrl_wf c ∧
    length rs = length ops.
Proof. intros Hs Hops. apply run_ops_total; [by apply new_wf|done]. Qed.

Lemma policy_kept_protected c c' port addr :
  policy_kept c c' → protected c port addr → protected c' port addr.
Proof.
  intros (Hen & Hfl) [Hp (n & Hn & Hf)]. split; [by rewrite Hen|].
  specialize (Hfl port (as_usize addr)). rewrite Hn in Hfl.
  destruct (get_node port (as_usize addr) c') as [n'|]; simplify_eq/=. exists n'. split; congruence.
Qed.

(** C6: Host traffic cannot change a byte protected from every port that writes
    to it, and cannot change the switches or a protection flag. *)
Theorem protected_byte_survives_hosts ops c addr :
  ctrl_wf c → Forall op_ok ops → Forall (λ op, is_host op = true) ops → in_u8 addr →
  (∀ port val, SendMsg port addr val ∈ ops → protected c port addr) →
  ∃ c' rs, run_ops ops c = Some (c', rs) ∧
    memory c' !! as_usize addr = memory c !! as_usize addr ∧ policy_kept c c'.
Proof.
  intros Hwf Hok Hhost Haddr. revert c Hwf. induction Hok as [|op ops Hop Hok IH]; intros c Hwf Hpr.
  { by exists c, []. }
  apply Forall_cons_1 in Hhost as [Hh Hhost].
  destruct (run_op_total USIZE_MAX op c Hwf Hop) as (c1 & r & Hr & Hwf1).
  destruct (host_frame op c c1 r Hh Hr) as [Hpol Hmem].
  destruct (IH Hhost c1 Hwf1) as (c2 & rs & Hrs & Hm2 & Hpol2).
  { intros port val Hin. apply (policy_kept_protected c); [done|]. apply (Hpr port val).
    by apply list_elem_of_further. }
  exists c2, (r :: rs). cbn [run_ops]. rewrite Hr. cbn [mbind option_bind]. rewrite Hrs.
  split; [done|]. destruct Hpol as [Hen Hfl], Hpol2 as [Hen2 Hfl2].
  split; [|split; [congruence|intros; congruence]]. rewrite Hm2.
  destruct Hmem as [->|(port & addr' & val & -> & Hnp & ->)]; [done|].
  apply list_lookup_insert_ne. intros Heq. apply Hnp.
  assert (addr' = addr) as ->.
  { unfold op_ok, in_u8, as_usize in *. lia. }
  apply (Hpr port val). apply list_elem_of_here.
Qed.

(** What one port writes to a FIFO between START and STOP, the other (or
    the same) port reads back in order, and then [FifoEmpty]. *)
Theorem fifo_streams_in_order c p q addr a a' i d off en vs :
  ctrl_wf c → in_u8 addr → in_u8 a → (p < SWMBX_DEV_COUNT)%nat → (q < SWMBX_DEV_COUNT)%nat →
  has_flag (mbx_en c) SWMBX_FIFO = true → check_fifo c addr = Some i →
  views c !! i = Some ([], d, off, en) → (length vs ≤ Nat.min d CAP)%nat →
  ∃ c', run_ops (SendStart p addr :: (SendMsg p a <$> vs) ++ SendStop p :: SendStart q addr ::
        replicate (length vs) (GetMsg q a') ++ [GetMsg q a']) c =
      Some (c', Ok None :: replicate (length vs) (Ok None) ++ Ok None :: Ok None ::
        (Ok ∘ Some <$> vs) ++ [Err FifoEmpty]) ∧
    ctrl_wf c' ∧ views c' = views c.
Proof.
  intros Hwf Haddr Ha Hp Hq Hen Hi Hv Hl.
  destruct (send_start_txn c p addr i) as (c1 & Hs1 & Hwf1 & Ht1 & Hv1 & He1); [done..|].
  destruct (sends_txn vs c1 p i a [] d off en) as (c2 & Hs2 & Hwf2 & Hr2 & Hv2); try done.
  { by rewrite Hv1. }
  pose proof (in_txn_regs _ _ _ _ Hr2 Ht1) as Ht2.
  destruct (send_stop_txn c2 p i) as (c3 & Hs3 & Hwf3 & Hv3 & He3); [done..|].
  assert (has_flag (mbx_en c3) SWMBX_FIFO = true) as Hen3 by (rewrite He3; apply Ht2).
  rewrite Hv1 in Hv2. pose proof Hv as Hlt%lookup_lt_Some.
  destruct (send_start_txn c3 q addr i) as (c4 & Hs4 & Hwf4 & Ht4 & Hv4 & He4); [done..| |].
  { rewrite (check_fifo_mappings c c3); [done|].
    rewrite Hv3, Hv2. by eapply mappings_insert. }
  destruct (reads_txn vs c4 q i a' d off en []) as (c5 & Hs5 & Hwf5 & Hr5 & Hv5); try done.
  { rewrite Hv4, Hv3, Hv2, app_nil_r. by apply list_lookup_insert_eq. }
  rewrite Hv4, Hv3, Hv2, list_insert_insert_eq, list_insert_id in Hv5 by done.
  destruct (get_msg_txn c5 q i a' [] d off en) as (c6 & Hs6 & Hwf6 & _ & Hv6); try done.
  { by eapply in_txn_regs. }
  { by rewrite Hv5. }
  rewrite Hv5, list_insert_id in Hv6 by done.
  exists c6. split; [|done]. cbn [run_ops run_op]. rewrite Hs1. cbn [mbind option_bind map_ok].
  rewrite (run_ops_app _ _ _ _ _ Hs2). cbn [run_ops run_op]. rewrite Hs3.
  cbn [mbind option_bind map_ok]. rewrite Hs4. cbn [mbind option_bind map_ok].
  rewrite (run_ops_app _ _ _ _ _ Hs5). cbn [run_ops run_op]. rewrite Hs6. done.
Qed.

(** A FIFO takes its configured depth or the queue's capacity, whichever is
    less; the next byte is refused with [FifoFull] and nothing queued is lost. *)
Theorem fifo_refuses_beyond_capacity c p addr a i d off en vs v :
  ctrl_wf c → in_u8 addr → in_u8 a → (p < SWMBX_DEV_COUNT)%nat →
  has_flag (mbx_en c) SWMBX_FIFO = true → check_fifo c addr = Some i →
  views c !! i = Some ([], d, off, en) → length vs = Nat.min d CAP →
  ∃ c', run_ops (SendStart p addr :: (SendMsg p a <$> vs) ++ [SendMsg p a v]) c =
      Some (c', Ok None :: replicate (length vs) (Ok None) ++ [Err FifoFull]) ∧
    ctrl_wf c' ∧ views c' = <[i := (vs, d, off, en)]> (views c).
Proof.
  intros Hwf Haddr Ha Hp Hen Hi Hv Hl.
  destruct (send_start_txn c p addr i) as (c1 & Hs1 & Hwf1 & Ht1 & Hv1 & He1); [done..|].
  destruct (sends_txn vs c1 p i a [] d off en) as (c2 & Hs2 & Hwf2 & Hr2 & Hv2); try done.
  { by rewrite Hv1. }
  { simpl. lia. }
  rewrite Hv1 in Hv2. simpl in Hv2. pose proof Hv as Hlt%lookup_lt_Some.
  destruct (send_msg_txn c2 p i a v vs d off en) as (c3 & Hs3 & Hwf3 & _ & Hv3); try done.
  { by eapply in_txn_regs. }
  { rewrite Hv2. by apply list_lookup_insert_eq. }
  rewrite (proj2 (Nat.ltb_ge _ _)) in Hs3, Hv3 by lia.
  rewrite Hv2, list_insert_insert_eq in Hv3.
  exists c3. split; [|done]. cbn [run_ops run_op]. rewrite Hs1. cbn [mbind option_bind map_ok].
  rewrite (run_ops_app _ _ _ _ _ Hs2). cbn [run_ops run_op]. rewrite Hs3. done.
Qed.
End run.

(** ** A queue, and witnesses *)

(** [Queue<u8, 256>]: room for 255 elements. *)
Definition LQ_CAP : nat := 255.

#[local] Instance list_queue : Queue (list Z) := {
  q_new := [];
  q_len := length;
  q_enqueue q v := if (length q <? LQ_CAP)%nat then (q ++ [v], Ok ()) else (q, Err v);
  q_dequeue q := match q with [] => ([], None) | v :: q => (q, Some v) end;
}.

#[local] Instance list_queue_laws : QueueLaws (list Z) LQ_CAP.
Proof.
  refine {| q_items := λ q : list Z, q |}.
  - done.
  - done.
  - intros q v Hl. simpl. rewrite (proj2 (Nat.ltb_lt _ _) Hl). eauto.
  - intros q v Hl. simpl. by rewrite (proj2 (Nat.ltb_ge _ _) Hl).
  - intros q v vs ->. eexists. done.
  - by intros q ->.
Defined.

(** A 16-bit [usize]: the bound only has to exceed the bitmap's words. *)
Definition USIZE_16 : nat := Pos.to_nat 65535.

(** A mailbox with FIFO 1 at address 7, [depth] deep, notifying on STOP. *)
Definition example_ctrl (depth : nat) : SwmbxCtrl (Q := list Z) :=
  let c := new_with_regions 256 (replicate 256 0) in
  let ops := [UpdateFifo 1 7 depth SWMBX_FIFO_NOTIFY_STOP true; EnableBehavior FLAG_MASK true;
              UpdateNotify 0 7 true; UpdateProtect 0 9 true] in
  match run_ops USIZE_16 ops c with Some (c, _) => c | None => c end.

Lemma example_ctrl_wf depth : (1 ≤ depth ≤ 256)%nat → ctrl_wf (CAP := LQ_CAP) (example_ctrl depth).
Proof.
  intros Hd. unfold example_ctrl.
  destruct (run_ops_total (CAP := LQ_CAP) USIZE_16 [UpdateFifo 1 7 depth SWMBX_FIFO_NOTIFY_STOP true;
    EnableBehavior FLAG_MASK true; UpdateNotify 0 7 true; UpdateProtect 0 9 true]
    (new_with_regions 256 (replicate 256 0))) as (c & rs & -> & Hwf & _); [|repeat constructor|done].
  all: unfold in_u8, u8_MAX; try lia. by apply new_wf.
Qed.

Lemma apply_protect_is_bitmap_witness :
  ∃ c, apply_protect USIZE_16 (example_ctrl 4) 1 [5; 2 ^ 31] 6 = Some (c, Ok ()) ∧
    get_node 1 255 c = Some (mkNode false SWMBX_PROTECT) ∧ get_node 1 193 c = Some (mkNode false 0).
Proof.
  destruct (apply_protect_is_bitmap (CAP := LQ_CAP) USIZE_16 (example_ctrl 4) 1 [5; 2 ^ 31] 6)
    as (c & Hc & _ & Hg).
  - apply example_ctrl_wf. lia.
  - unfold SWMBX_DEV_COUNT. lia.
  - unfold USIZE_16. simpl length. change PROTECT_WORD_COUNT with 8%nat. lia.
  - exists c. split; [exact Hc|]. rewrite !Hg. by split; vm_compute.
Defined.

Lemma mailbox_never_panics_witness :
  ∃ c rs, run_ops USIZE_16 [SendStart 0 7; FlushFifo 9; ApplyProtect 1 [0] 8; SendMsg 2 0 0]
      (new_with_regions (Q := list Z) 16 (replicate 16 0)) = Some (c, rs) ∧
    ctrl_wf (CAP := LQ_CAP) c ∧ length rs = 4%nat.
Proof.
  apply (mailbox_never_panics (CAP := LQ_CAP) USIZE_16 16 (replicate 16 0)).
  - rewrite length_replicate. lia.
  - repeat constructor; unfold in_u8, u8_MAX; lia.
Defined.

Lemma protected_byte_survives_hosts_witness :
  ∃ c rs, run_ops USIZE_16 [SendMsg 0 9 1; SendMsg 1 8 2] (example_ctrl 4) = Some (c, rs) ∧
    memory c !! 9%nat = Some 0 ∧ policy_kept (example_ctrl 4) c.
Proof.
  apply (protected_byte_survives_hosts (CAP := LQ_CAP) USIZE_16 [SendMsg 0 9 1; SendMsg 1 8 2]
    (example_ctrl 4) 9).
  - apply example_ctrl_wf; lia.
  - repeat constructor; unfold in_u8, u8_MAX; lia.
  - by repeat constructor.
  - unfold in_u8, u8_MAX. lia.
  - intros port val Hin. apply elem_of_cons in Hin as [[= -> _]|Hin]; cycle 1.
    { apply elem_of_cons in Hin as [[=]|Hin]. by apply elem_of_nil in Hin. }
    split; [done|]. eexists. split; [by vm_compute|done].
Defined.

Lemma fifo_streams_in_order_witness :
  ∃ c, run_ops USIZE_16
      [SendStart 0 7; SendMsg 0 7 10; SendMsg 0 7 11; SendStop 0; SendStart 1 7;
       GetMsg 1 7; GetMsg 1 7; GetMsg 1 7] (example_ctrl 4) =
    Some (c, [Ok None; Ok None; Ok None; Ok None; Ok None; Ok (Some 10); Ok (Some 11);
              Err FifoEmpty]).
Proof.
  destruct (fifo_streams_in_order (CAP := LQ_CAP) USIZE_16 (example_ctrl 4) 0 1 7 7 7 1 4 7 true
    [10; 11]) as (c & Hc & _).
  1: apply example_ctrl_wf; lia.
  1, 2: unfold in_u8, u8_MAX; lia.
  1, 2: unfold SWMBX_DEV_COUNT; lia.
  1, 2, 3: by vm_compute.
  1: unfold LQ_CAP; simpl; lia.
  exists c. exact Hc.
Defined.

(** A FIFO configured 256 deep takes 255 bytes. *)
Lemma fifo_refuses_beyond_capacity_witness :
  ∃ c, run_ops USIZE_16
      (SendStart 0 7 :: (SendMsg 0 7 <$> replicate 255 1) ++ [SendMsg 0 7 2]) (example_ctrl 256) =
    Some (c, Ok None :: replicate 255 (Ok None) ++ [Err FifoFull]).
Proof.
  destruct (fifo_refuses_beyond_capacity (CAP := LQ_CAP) USIZE_16 (example_ctrl 256) 0 7 7 1 256 7
    true (replicate 255 1) 2) as (c & Hc & _).
  1: apply example_ctrl_wf; lia.
  1, 2: unfold in_u8, u8_MAX; lia.
  1: unfold SWMBX_DEV_COUNT; lia.
  1, 2, 3: by vm_compute.
  1: done.
  exists c. exact Hc.
Defined.

(** A STOP of one port on the FIFO another port is writing drops the writer's
    STOP notification. *)
Example stop_steals_notification :
  (notify_flag <$> ('(c, _) ← run_ops USIZE_16
     [SendStart 0 7; SendMsg 0 7 1; SendStop 0] (example_ctrl 4); get_node 0 7 c)) = Some true ∧
  (notify_flag <$> ('(c, _) ← run_ops USIZE_16
     [SendStart 0 7; SendStart 1 7; SendMsg 0 7 1; SendStop 1; SendStop 0] (example_ctrl 4);
     get_node 0 7 c)) = Some false.
Proof. by vm_compute. Qed.

(** [FifoFull] latches the node's notification with notification off. *)
Example full_notifies_unasked :
  (notify_flag <$> ('(c, _) ← run_ops USIZE_16
     [EnableBehavior SWMBX_NOTIFY false; UpdateNotify 0 7 false; SendStart 0 7; SendMsg 0 7 1;
      SendMsg 0 7 2] (example_ctrl 1); get_node 0 7 c)) = Some true.
Proof. by vm_compute. Qed.
