(* ===== verification/Usart.v ===== *)
(** * The USART server

    [drivers/usart/api/src/{protocol,backend}.rs] and
    [drivers/usart/server/src/{lib,runtime}.rs]: the wire headers, the backend
    seam, the dispatcher and one turn of the server loop.  A [TryRead] that finds
    no data is parked in the single slot of [PendingRead] and answered from the
    receive interrupt.

    [None] is a panic. *)

From S2P Require Import Prelude Bytes.
From stdpp Require Import base tactics option list numbers.
Local Open Scope Z_scope.

(** ** The wire *)

Definition MAX_PAYLOAD_SIZE : nat := 256.
Definition MAX_REQUEST_SIZE : nat := 512.
Definition MAX_RESPONSE_SIZE : nat := 512.

Inductive UsartOp :=
| Configure | Write | Read | GetLineStatus | EnableInterrupts | DisableInterrupts | TryRead.

Definition op_u8 (op : UsartOp) : Z :=
  match op with
  | Configure => 1 | Write => 2 | Read => 3 | GetLineStatus => 4 | EnableInterrupts => 5
  | DisableInterrupts => 6 | TryRead => 7
  end.

Inductive UsartError :=
| Success | InvalidOperation | InvalidConfiguration | BufferTooSmall | Busy | Timeout
| WouldBlock | InternalError.
#[export] Instance UsartError_eq_dec : EqDecision UsartError.
Proof. solve_decision. Defined.

Definition error_u8 (e : UsartError) : Z :=
  match e with
  | Success => 0 | InvalidOperation => 1 | InvalidConfiguration => 2 | BufferTooSmall => 3
  | Busy => 4 | Timeout => 5 | WouldBlock => 6 | InternalError => 255
  end.

(** [UsartError::from]. *)
Definition error_from (value : Z) : UsartError :=
  match value with
  | 0 => Success | 1 => InvalidOperation | 2 => InvalidConfiguration | 3 => BufferTooSmall
  | 4 => Busy | 5 => Timeout | 6 => WouldBlock | _ => InternalError
  end.

(** [UsartOp::try_from]. *)
Definition op_try_from (value : Z) : result UsartOp UsartError :=
  match value with
  | 1 => Ok Configure | 2 => Ok Write | 3 => Ok Read | 4 => Ok GetLineStatus
  | 5 => Ok EnableInterrupts | 6 => Ok DisableInterrupts | 7 => Ok TryRead
  | _ => Err InvalidOperation
  end.

Record UsartRequestHeader := mkRequestHeader {
  op_code : Z; flags : Z; arg0 : Z; arg1 : Z; payload_len : Z;
}.
Definition REQ_SIZE : nat := 8.

Definition UsartRequestHeader_new (op : UsartOp) (arg0 arg1 payload_len : Z) :
    UsartRequestHeader :=
  {| op_code := op_u8 op; flags := 0; arg0 := arg0; arg1 := arg1; payload_len := payload_len |}.

Definition request_as_bytes (h : UsartRequestHeader) : list Z :=
  [op_code h; flags h] ++ u16_to_le_bytes (arg0 h) ++ u16_to_le_bytes (arg1 h) ++
  u16_to_le_bytes (payload_len h).

Definition request_from_bytes (bytes : list Z) : option UsartRequestHeader :=
  match bytes with
  | [b0; b1; b2; b3; b4; b5; b6; b7] =>
      Some {| op_code := b0; flags := b1; arg0 := u16_from_le_bytes b2 b3;
              arg1 := u16_from_le_bytes b4 b5; payload_len := u16_from_le_bytes b6 b7 |}
  | _ => None
  end.

Definition operation (h : UsartRequestHeader) : result UsartOp UsartError :=
  op_try_from (op_code h).
Definition req_payload_length (h : UsartRequestHeader) : nat := as_usize (payload_len h).

Record UsartResponseHeader := mkResponseHeader {
  status : Z; reserved : Z; resp_payload_len : Z;
}.
Definition RESP_SIZE : nat := 4.

Definition response_success (payload_len : Z) : UsartResponseHeader :=
  {| status := error_u8 Success; reserved := 0; resp_payload_len := payload_len |}.
Definition response_error (error : UsartError) : UsartResponseHeader :=
  {| status := error_u8 error; reserved := 0; resp_payload_len := 0 |}.

Definition response_as_bytes (h : UsartResponseHeader) : list Z :=
  [status h; reserved h] ++ u16_to_le_bytes (resp_payload_len h).

Definition response_from_bytes (bytes : list Z) : option UsartResponseHeader :=
  match bytes with
  | [b0; b1; b2; b3] =>
      Some {| status := b0; reserved := b1; resp_payload_len := u16_from_le_bytes b2 b3 |}
  | _ => None
  end.

Definition is_success (h : UsartResponseHeader) : bool := status h =? error_u8 Success.
Definition error_code (h : UsartResponseHeader) : UsartError := error_from (status h).
Definition resp_payload_length (h : UsartResponseHeader) : nat := as_usize (resp_payload_len h).

(** ** The backend seam *)

Definition RX_DATA_AVAILABLE : Z := 1.
Definition TX_IDLE : Z := 2.

(** [IrqMask::from_bits_truncate]. *)
Definition from_bits_truncate (bits : Z) : Z := Z.land bits (Z.lor RX_DATA_AVAILABLE TX_IDLE).

Inductive BackendError :=
| BInvalidOperation | BInvalidConfiguration | BBufferTooSmall | BBusy | BTimeout | BWouldBlock
| BInternalError.

(** [UsartError::from(BackendError)]. *)
Definition error_of_backend (e : BackendError) : UsartError :=
  match e with
  | BInvalidOperation => InvalidOperation | BInvalidConfiguration => InvalidConfiguration
  | BBufferTooSmall => BufferTooSmall | BBusy => Busy | BTimeout => Timeout
  | BWouldBlock => WouldBlock | BInternalError => InternalError
  end.

Inductive Parity := ParityNone | ParityEven | ParityOdd.

Record UsartConfig := mkConfig { baud_rate : Z; parity : Parity; stop_bits : Z }.

(** [read] and [try_read] fill the slice they are lent. *)
Class UsartBackend (B : Type) : Type := {
  b_configure : B → UsartConfig → B * result unit BackendError;
  b_write : B → list Z → B * result nat BackendError;
  b_read : B → list Z → B * list Z * result nat BackendError;
  b_try_read : B → list Z → B * list Z * result nat BackendError;
  b_line_status : B → result Z BackendError;
  b_enable_interrupts : B → Z → B * result unit BackendError;
  b_disable_interrupts : B → Z → B * result unit BackendError;
}.

(** A slice keeps its length, and the count is of bytes of the slice. *)
Class UsartBackendLaws (B : Type) `{UsartBackend B} : Prop := {
  b_read_length b buf : length (b_read b buf).1.2 = length buf;
  b_read_count b buf n : (b_read b buf).2 = Ok n → (n ≤ length buf)%nat;
  b_try_read_length b buf : length (b_try_read b buf).1.2 = length buf;
  b_try_read_count b buf n : (b_try_read b buf).2 = Ok n → (n ≤ length buf)%nat;
}.

(** ** The parked read *)

Record PendingRead := mkPending { p_channel : option Z; requested_size : nat }.

Definition PendingRead_new : PendingRead := {| p_channel := None; requested_size := 0 |}.

Definition park (p : PendingRead) (channel : Z) (requested_size : nat) : PendingRead * bool :=
  match p_channel p with
  | Some _ => (p, false)
  | None => ({| p_channel := Some channel; requested_size := requested_size |}, true)
  end.

Definition pending_take (p : PendingRead) : PendingRead * option (Z * nat) :=
  ({| p_channel := None; requested_size := requested_size p |},
   (λ ch, (ch, requested_size p)) <$> p_channel p).

Definition is_pending (p : PendingRead) : bool :=
  match p_channel p with Some _ => true | None => false end.

(** ** Dispatch *)

Definition encode_error (response : list Z) (error : UsartError) : option (list Z * nat) :=
  response ← copy_into 0 (response_as_bytes (response_error error)) response;
  Some (response, RESP_SIZE).

Definition encode_success (response payload : list Z) : option (list Z * nat) :=
  let hdr := response_success (as_u16 (Z.of_nat (length payload))) in
  response ← copy_into 0 (response_as_bytes hdr) response;
  response ← copy_into RESP_SIZE payload response;
  Some (response, (RESP_SIZE + length payload)%nat).

Inductive DispatchOutcome := Respond (len : nat) | Queued.

Section server.
Context {B : Type} `{UsartBackend B}.

(** The part of [response] a read is lent, and the response once it is filled. *)
Definition lend_response (response : list Z) (req_len : nat)
    (call : list Z → B * list Z * result nat BackendError) :
    option (B * list Z * result nat BackendError) :=
  let payload_capacity := (length response - RESP_SIZE)%nat in
  let read_buf_len := Nat.min req_len payload_capacity in
  slice ← slice_range response RESP_SIZE (RESP_SIZE + read_buf_len);
  let '(b, slice, r) := call slice in
  Some (b, write_at RESP_SIZE slice response, r).

(** The header in front of the [n] bytes a read delivered. *)
Definition finish_read (response : list Z) (n : nat) : option (list Z * nat) :=
  let hdr := response_success (as_u16 (Z.of_nat n)) in
  response ← copy_into 0 (response_as_bytes hdr) response;
  Some (response, (RESP_SIZE + n)%nat).

Definition dispatch_request (b : B) (p : PendingRead) (client_channel : Z)
    (request response : list Z) : option (B * PendingRead * list Z * DispatchOutcome) :=
  let respond b p o := '(response, n) ← o; Some (b, p, response, Respond n) in
  let unit_reply b (r : result unit BackendError) :=
    respond b p match r with
                | Ok _ => encode_success response []
                | Err e => encode_error response (error_of_backend e)
                end in
  if (length request <? REQ_SIZE)%nat then respond b p (encode_error response InvalidOperation)
  else
    hdr_bytes ← slice_to request REQ_SIZE;
    match request_from_bytes hdr_bytes with
    | None => respond b p (encode_error response InvalidOperation)
    | Some hdr =>
        match operation hdr with
        | Err e => respond b p (encode_error response e)
        | Ok op =>
            let payload_len := req_payload_length hdr in
            if (length request <? REQ_SIZE + payload_len)%nat
            then respond b p (encode_error response InvalidOperation)
            else
              payload ← slice_range request REQ_SIZE (REQ_SIZE + payload_len);
              match op with
              | Configure =>
                  let baud := Z.lor (Z.shiftl (arg1 hdr) 16) (arg0 hdr) in
                  let '(b, r) := b_configure b {| baud_rate := baud; parity := ParityNone;
                                                 stop_bits := 1 |} in
                  unit_reply b r
              | Write =>
                  let '(b, r) := b_write b payload in
                  unit_reply b (map_ok (λ _, ()) r)
              | Read =>
                  '(b, response, r) ← lend_response response (as_usize (arg0 hdr)) (b_read b);
                  match r with
                  | Ok n => respond b p (finish_read response n)
                  | Err e => respond b p (encode_error response (error_of_backend e))
                  end
              | TryRead =>
                  let req_len := as_usize (arg0 hdr) in
                  '(b, response, r) ← lend_response response req_len (b_try_read b);
                  match r with
                  | Ok n => respond b p (finish_read response n)
                  | Err BWouldBlock =>
                      let '(p, parked) := park p client_channel req_len in
                      if parked : bool
                      then Some ((b_enable_interrupts b RX_DATA_AVAILABLE).1, p, response, Queued)
                      else respond b p (encode_error response Timeout)
                  | Err e => respond b p (encode_error response (error_of_backend e))
                  end
              | GetLineStatus =>
                  match b_line_status b with
                  | Ok lsr => respond b p (encode_success response [lsr])
                  | Err e => respond b p (encode_error response (error_of_backend e))
                  end
              | EnableInterrupts =>
                  let '(b, r) := b_enable_interrupts b (from_bits_truncate (arg0 hdr)) in
                  unit_reply b r
              | DisableInterrupts =>
                  let '(b, r) := b_disable_interrupts b (from_bits_truncate (arg0 hdr)) in
                  unit_reply b r
              end
        end
    end.

(** ** The loop *)

Record Server := mkServer { backend : B; pending : PendingRead; response_buf : list Z }.

Definition Server_new (b : B) : Server :=
  {| backend := b; pending := PendingRead_new; response_buf := replicate MAX_RESPONSE_SIZE 0 |}.
End server.
Arguments Server : clear implicits.

Inductive Syscall :=
| InterruptAck (irq : Z) (signals : Z)
| ChannelRespond (channel : Z) (response : list Z).

(** What a turn sees of the kernel: [object_wait] failed, or woke the loop, and
    then what [channel_read] delivers ([None] when it fails). *)
Inductive Wake :=
| WaitFailed
| Woken (user_data pending_signals : Z) (request : option (list Z)).

(** [signals.contains(mask)]. *)
Definition contains (signals mask : Z) : bool := Z.land signals mask =? mask.

Section loop.
Context {B : Type} `{UsartBackend B}.
(** [Signals::READABLE] of the kernel and the arguments of [run]. *)
Context (READABLE irq irq_signals : Z).

(** The interrupt path after the acknowledgement. *)
Definition complete_parked (s : Server B) : option (Server B * list Syscall) :=
  let '(p, taken) := pending_take (pending s) in
  match taken with
  | None => Some (mkServer (backend s) p (response_buf s), [])
  | Some (client_channel, req_size) =>
      let b := (b_disable_interrupts (backend s) RX_DATA_AVAILABLE).1 in
      '(b, response, r) ← lend_response (response_buf s) req_size (b_try_read b);
      match r with
      | Ok n =>
          '(response, resp_len) ← finish_read response n;
          bytes ← slice_to response resp_len;
          Some (mkServer b p response, [ChannelRespond client_channel bytes])
      | Err _ =>
          let b := (b_enable_interrupts b RX_DATA_AVAILABLE).1 in
          let p := (park p client_channel req_size).1 in
          Some (mkServer b p response, [])
      end
  end.

(** One turn of [run]. *)
Definition run_turn (s : Server B) (w : Wake) : option (Server B * list Syscall) :=
  match w with
  | WaitFailed => Some (s, [])
  | Woken user_data signals request =>
      if (as_u32 user_data =? irq) && contains signals irq_signals then
        '(s, calls) ← complete_parked s;
        Some (s, InterruptAck irq (Z.land signals irq_signals) :: calls)
      else if negb (contains signals READABLE) then Some (s, [])
      else
        let channel := as_u32 user_data in
        match request with
        | None => Some (s, [])
        | Some req =>
            '(b, p, response, outcome) ←
              dispatch_request (backend s) (pending s) channel req (response_buf s);
            match outcome with
            | Respond resp_len =>
                bytes ← slice_to response resp_len;
                Some (mkServer b p response, [ChannelRespond channel bytes])
            | Queued => Some (mkServer b p response, [])
            end
        end
  end.

(** A run of turns: the server and the system calls made. *)
Fixpoint run_turns (s : Server B) (ws : list Wake) : option (Server B * list Syscall) :=
  match ws with
  | [] => Some (s, [])
  | w :: ws =>
      '(s, calls) ← run_turn s w;
      '(s, calls') ← run_turns s ws;
      Some (s, calls ++ calls')
  end.
End loop.

(** ** Facts of the wire *)

Lemma length_usart_response h : length (response_as_bytes h) = RESP_SIZE.
Proof. done. Qed.

Lemma length_usart_request h : length (request_as_bytes h) = REQ_SIZE.
Proof. done. Qed.

Lemma op_roundtrip op : op_try_from (op_u8 op) = Ok op.
Proof. by destruct op. Qed.

Lemma error_roundtrip e : error_from (error_u8 e) = e.
Proof. by destruct e. Qed.

Lemma usart_request_roundtrip h :
  in_u16 (arg0 h) → in_u16 (arg1 h) → in_u16 (payload_len h) →
  request_from_bytes (request_as_bytes h) = Some h.
Proof.
  intros H0 H1 H2. destruct h as [o f a b l]. simpl in *. by rewrite !u16_le_roundtrip.
Qed.

Lemma usart_response_roundtrip h :
  in_u16 (resp_payload_len h) → response_from_bytes (response_as_bytes h) = Some h.
Proof. intros Hl. destruct h as [s r l]. simpl in *. by rewrite u16_le_roundtrip. Qed.

Lemma encode_error_Some response e :
  (RESP_SIZE ≤ length response)%nat →
  encode_error response e =
    Some (write_at 0 (response_as_bytes (response_error e)) response, RESP_SIZE).
Proof. intros Hl. unfold encode_error. rewrite copy_into_Some; [done|]. exact Hl. Qed.

(** A header and then the payload. *)
Lemma encode_success_Some response payload :
  (RESP_SIZE + length payload ≤ length response)%nat →
  encode_success response payload =
    Some (response_as_bytes (response_success (as_u16 (Z.of_nat (length payload)))) ++ payload ++
            drop (RESP_SIZE + length payload) response, (RESP_SIZE + length payload)%nat).
Proof.
  intros Hl. unfold encode_success.
  rewrite copy_into_Some by (rewrite length_usart_response; lia). cbn [mbind option_bind].
  rewrite copy_into_Some by (rewrite length_write_at; rewrite ?length_usart_response; lia).
  cbn [mbind option_bind]. do 2 f_equal. rewrite write_at_0. unfold write_at.
  rewrite take_app_length' by done. f_equal. f_equal.
  rewrite drop_app_ge by (rewrite length_usart_response; lia).
  rewrite drop_drop, length_usart_response. f_equal. lia.
Qed.

Lemma finish_read_Some response n :
  (RESP_SIZE ≤ length response)%nat →
  finish_read response n =
    Some (response_as_bytes (response_success (as_u16 (Z.of_nat n))) ++ drop RESP_SIZE response,
          (RESP_SIZE + n)%nat).
Proof. intros Hl. unfold finish_read. rewrite copy_into_Some; [done|]. exact Hl. Qed.

Section server_facts.
Context {B : Type} `{UsartBackendLaws B}.
Implicit Types b : B.
Implicit Types p : PendingRead.

(** A backend call that fills the slice it is lent. *)
Definition fills (call : list Z → B * list Z * result nat BackendError) : Prop :=
  ∀ slice, length (call slice).1.2 = length slice ∧
    ∀ n, (call slice).2 = Ok n → (n ≤ length slice)%nat.

Lemma fills_read b : fills (b_read b).
Proof. intros slice. split; [apply b_read_length|apply b_read_count]. Qed.

Lemma fills_try_read b : fills (b_try_read b).
Proof. intros slice. split; [apply b_try_read_length|apply b_try_read_count]. Qed.

(** The bytes of a response buffer a read of [n] bytes is lent. *)
Definition lent (response : list Z) (n : nat) : list Z :=
  take (Nat.min n (length response - RESP_SIZE)) (drop RESP_SIZE response).

Lemma length_lent response n :
  length (lent response n) = Nat.min n (length response - RESP_SIZE).
Proof. unfold lent. rewrite length_take, length_drop. lia. Qed.

Lemma lend_response_spec response req_len call :
  (RESP_SIZE ≤ length response)%nat → fills call →
  ∃ b slice r, call (lent response req_len) = (b, slice, r) ∧
    length slice = Nat.min req_len (length response - RESP_SIZE) ∧
    (∀ n, r = Ok n → (n ≤ length slice)%nat) ∧
    lend_response response req_len call = Some (b, write_at RESP_SIZE slice response, r) ∧
    length (write_at RESP_SIZE slice response) = length response.
Proof.
  intros Hl Hc. destruct (Hc (lent response req_len)) as [Hlen Hcount].
  rewrite length_lent in *.
  destruct (call (lent response req_len)) as [[b slice] r] eqn:E. simpl in Hlen, Hcount.
  exists b, slice, r. rewrite Hlen. split_and!; try done.
  - unfold lend_response. rewrite slice_range_Some by lia. cbn [mbind option_bind].
    replace (RESP_SIZE + Nat.min req_len (length response - RESP_SIZE) - RESP_SIZE)%nat
      with (Nat.min req_len (length response - RESP_SIZE)) by lia.
    change (call _) with (call (lent response req_len)). by rewrite E.
  - apply length_write_at. lia.
Qed.

(** What a dispatch leaves: the buffer's length, and either a response within
    the buffer and the slot as it was, or the request in a slot that was free. *)
Definition dispatched p (ch : Z) (response : list Z)
    (o : option (B * PendingRead * list Z * DispatchOutcome)) : Prop :=
  ∃ b' p' response' outcome, o = Some (b', p', response', outcome) ∧
    length response' = length response ∧
    match outcome with
    | Respond n => (n ≤ length response)%nat ∧ p' = p
    | Queued => p_channel p = None ∧ p_channel p' = Some ch
    end.

Lemma dispatched_error p ch response e b :
  (RESP_SIZE ≤ length response)%nat →
  dispatched p ch response
    ('(response, n) ← encode_error response e; Some (b, p, response, Respond n)).
Proof.
  intros Hl. rewrite encode_error_Some by done. eexists _, _, _, _. split; [done|].
  split; [by apply length_write_at|done].
Qed.

Lemma dispatched_success p ch response payload b :
  (RESP_SIZE + length payload ≤ length response)%nat →
  dispatched p ch response
    ('(response, n) ← encode_success response payload; Some (b, p, response, Respond n)).
Proof.
  intros Hl. rewrite encode_success_Some by done. eexists _, _, _, _. split; [done|].
  split; [|done]. rewrite !length_app, length_drop, length_usart_response. lia.
Qed.

Lemma dispatched_read p ch response response' n b :
  (RESP_SIZE + n ≤ length response)%nat → length response' = length response →
  dispatched p ch response
    ('(response, n) ← finish_read response' n; Some (b, p, response, Respond n)).
Proof.
  intros Hl Hr. rewrite finish_read_Some by lia. eexists _, _, _, _. split; [done|].
  split; [|split; [lia|done]]. rewrite length_app, length_drop, length_usart_response. lia.
Qed.

Lemma dispatched_unit p ch response b (r : result unit BackendError) :
  (RESP_SIZE ≤ length response)%nat →
  dispatched p ch response
    ('(response, n) ← match r with
                      | Ok _ => encode_success response []
                      | Err e => encode_error response (error_of_backend e)
                      end; Some (b, p, response, Respond n)).
Proof.
  intros Hl. destruct r; [apply dispatched_success; cbn [length]; lia|by apply dispatched_error].
Qed.

(** A failed read answers on the buffer the read was lent. *)
Lemma dispatched_error' p ch response response' e b :
  (RESP_SIZE ≤ length response)%nat → length response' = length response →
  dispatched p ch response
    ('(response, n) ← encode_error response' e; Some (b, p, response, Respond n)).
Proof.
  intros Hl Hr. rewrite encode_error_Some by lia. eexists _, _, _, _. split; [done|].
  split; [|split; [lia|done]]. rewrite length_write_at; [done|]. simpl. unfold RESP_SIZE in *. lia.
Qed.

Lemma dispatch_request_total b p ch request response :
  (RESP_SIZE < length response)%nat →
  dispatched p ch response (dispatch_request b p ch request response).
Proof.
  intros Hl. unfold dispatch_request. cbv zeta.
  destruct (Nat.ltb_spec (length request) REQ_SIZE) as [|Hreq]; [apply dispatched_error; lia|].
  rewrite slice_to_Some by done. cbn [mbind option_bind].
  destruct (request_from_bytes _) as [hdr|]; [|apply dispatched_error; lia].
  destruct (operation hdr) as [op|e]; [|apply dispatched_error; lia].
  destruct (Nat.ltb_spec (length request) (REQ_SIZE + req_payload_length hdr)) as [|Hpl];
    [apply dispatched_error; lia|].
  rewrite slice_range_Some by lia. cbn [mbind option_bind].
  assert (∀ call, fills call → ∃ b slice r,
    lend_response response (as_usize (arg0 hdr)) call = Some (b, write_at RESP_SIZE slice response, r)
    ∧ length (write_at RESP_SIZE slice response) = length response ∧
    ∀ n, r = Ok n → (RESP_SIZE + n ≤ length response)%nat) as Hlend.
  { intros call Hc. destruct (lend_response_spec response (as_usize (arg0 hdr)) call)
      as (b' & slice & r & _ & Hs & Hn & Hle & Hw); [lia|done|].
    exists b', slice, r. split; [done|]. split; [done|]. intros n ->. specialize (Hn n eq_refl). lia. }
  destruct op.
  - destruct (b_configure _ _). apply dispatched_unit. lia.
  - destruct (b_write _ _). apply dispatched_unit. lia.
  - destruct (Hlend (b_read b) (fills_read b)) as (b' & slice & r & -> & Hw & Hn).
    cbn [mbind option_bind]. destruct r; [apply dispatched_read|apply dispatched_error']; auto; lia.
  - destruct (b_line_status _); [apply dispatched_success; cbn [length]; lia|apply dispatched_error; lia].
  - destruct (b_enable_interrupts _ _). apply dispatched_unit. lia.
  - destruct (b_disable_interrupts _ _). apply dispatched_unit. lia.
  - destruct (Hlend (b_try_read b) (fills_try_read b)) as (b' & slice & r & -> & Hw & Hn).
    cbn [mbind option_bind]. destruct r as [n|[]]; try (apply dispatched_error'; auto; lia).
    { apply dispatched_read; auto. }
    unfold park. destruct (p_channel p) eqn:Hp; [apply dispatched_error'; auto; lia|].
    eexists _, _, _, _. split; [done|]. done.
Qed.
End server_facts.

(** ** Accounting for requests *)

Section accounting.
Context {B : Type} `{UsartBackendLaws B}.
Context (READABLE irq irq_signals : Z).
Implicit Types s : Server B.

(** Requests a turn took from channel [ch]. *)
Definition received (ch : Z) (w : Wake) : nat :=
  match w with
  | Woken user_data signals (Some _) =>
      if negb ((as_u32 user_data =? irq) && contains signals irq_signals)
         && contains signals READABLE && (as_u32 user_data =? ch)
      then 1 else 0
  | _ => 0
  end.

(** Responses sent to channel [ch]. *)
Definition answered (ch : Z) (c : Syscall) : nat :=
  match c with
  | ChannelRespond ch' _ => if ch' =? ch then 1 else 0
  | InterruptAck _ _ => 0
  end.

(** Whether the parked request is of channel [ch]. *)
Definition parked (ch : Z) s : nat :=
  match p_channel (pending s) with Some ch' => if ch' =? ch then 1 else 0 | None => 0 end.

Definition total (f : Wake → nat) (ws : list Wake) : nat := sum_list_with f ws.
Definition total_calls (ch : Z) (calls : list Syscall) : nat := sum_list_with (answered ch) calls.

Definition server_ok s : Prop := length (response_buf s) = MAX_RESPONSE_SIZE.

Lemma complete_parked_spec s :
  server_ok s →
  ∃ s' calls, complete_parked s = Some (s', calls) ∧ server_ok s' ∧
    ∀ ch, (total_calls ch calls + parked ch s' = parked ch s)%nat.
Proof.
  unfold server_ok, complete_parked, pending_take. intros Hs.
  destruct s as [b [[ch0|] size] response]; simpl in *; cycle 1.
  { eexists _, _. done. }
  destruct (lend_response_spec response size (b_try_read (b_disable_interrupts b RX_DATA_AVAILABLE).1))
    as (b' & slice & r & _ & Hlen & Hn & -> & Hw);
    [rewrite Hs; unfold RESP_SIZE, MAX_RESPONSE_SIZE; lia|apply fills_try_read|].
  cbn [mbind option_bind]. rewrite Hs in Hw, Hlen. destruct r as [n|e].
  - specialize (Hn n eq_refl). unfold RESP_SIZE, MAX_RESPONSE_SIZE in *.
    rewrite finish_read_Some by (unfold RESP_SIZE; lia). cbn [mbind option_bind].
    rewrite slice_to_Some by
      (rewrite length_app, length_drop, length_usart_response, Hw; unfold RESP_SIZE; lia).
    cbn [mbind option_bind]. eexists _, _. split; [done|]. simpl.
    split; [rewrite length_drop, Hw; unfold RESP_SIZE; lia|].
    intros ch. unfold total_calls, parked. simpl. destruct (ch0 =? ch); lia.
  - eexists _, _. split; [done|]. done.
Qed.

Lemma run_turn_spec s w :
  server_ok s →
  ∃ s' calls, run_turn READABLE irq irq_signals s w = Some (s', calls) ∧ server_ok s' ∧
    ∀ ch, (total_calls ch calls + parked ch s' = received ch w + parked ch s)%nat.
Proof.
  intros Hs. destruct w as [|ud sig req]; simpl; [by eexists _, _|].
  destruct (_ && contains sig irq_signals) eqn:Hirq.
  { destruct (complete_parked_spec s Hs) as (s' & calls & -> & Hs' & Hc).
    eexists _, _. split; [done|]. split; [done|]. intros ch. simpl. rewrite Hc.
    by destruct req. }
  destruct (contains sig READABLE); simpl; cycle 1.
  { eexists _, _. split; [done|]. split; [done|]. by destruct req. }
  destruct req as [req|]; [|by eexists _, _].
  destruct (dispatch_request_total (backend s) (pending s) (as_u32 ud) req (response_buf s))
    as (b & p & response & outcome & -> & Hl & Ho).
  { rewrite Hs. unfold RESP_SIZE, MAX_RESPONSE_SIZE. lia. }
  cbn [mbind option_bind]. unfold server_ok in *. destruct outcome as [n|].
  - destruct Ho as [Hn ->]. rewrite slice_to_Some by lia. eexists _, _. split; [done|].
    simpl. split; [lia|]. intros ch. unfold total_calls, parked. simpl. lia.
  - destruct Ho as [Hp Hp']. eexists _, _. split; [done|]. simpl. split; [lia|].
    intros ch. unfold total_calls, parked. simpl. rewrite Hp, Hp'. lia.
Qed.

(** C21: Whatever the kernel wakes the server with, it does not panic, and on
    each channel the requests taken are those answered, once each, plus the one
    that is parked. *)
Theorem every_request_answered_once s ws :
  server_ok s →
  ∃ s' calls, run_turns READABLE irq irq_signals s ws = Some (s', calls) ∧ server_ok s' ∧
    ∀ ch, (total_calls ch calls + parked ch s' = total (received ch) ws + parked ch s)%nat.
Proof.
  revert s. induction ws as [|w ws IH]; intros s Hs; [by eexists _, _|].
  destruct (run_turn_spec s w Hs) as (s1 & c1 & Hr1 & Hs1 & Hc1).
  destruct (IH s1 Hs1) as (s2 & c2 & Hr2 & Hs2 & Hc2).
  exists s2, (c1 ++ c2). cbn [run_turns]. rewrite Hr1. cbn [mbind option_bind]. rewrite Hr2.
  split; [done|]. split; [done|]. intros ch. specialize (Hc1 ch). specialize (Hc2 ch).
  unfold total_calls, total in *. rewrite sum_list_with_app. simpl. lia.
Qed.
End accounting.

(** A backend over a receive queue and a transmit log. *)
Record fifo_backend := mkFifoBackend { rx_fifo : list Z; tx_log : list Z; irqs : Z }.

#[local] Instance fifo_backend_ops : UsartBackend fifo_backend := {
  b_configure b cfg :=
    (b, if (0 <? baud_rate cfg) then Ok () else Err BInvalidConfiguration);
  b_write b data := (mkFifoBackend (rx_fifo b) (tx_log b ++ take 2 data) (irqs b),
                     Ok (length (take 2 data)));
  b_read b buf :=
    let n := Nat.min (length buf) (length (rx_fifo b)) in
    (mkFifoBackend (drop n (rx_fifo b)) (tx_log b) (irqs b), take n (rx_fifo b) ++ drop n buf, Ok n);
  b_try_read b buf :=
    let n := Nat.min (length buf) (length (rx_fifo b)) in
    (mkFifoBackend (drop n (rx_fifo b)) (tx_log b) (irqs b), take n (rx_fifo b) ++ drop n buf,
     match rx_fifo b with [] => Err BWouldBlock | _ => Ok n end);
  b_line_status b := Ok (if rx_fifo b is [] then 96 else 97);
  b_enable_interrupts b m := (mkFifoBackend (rx_fifo b) (tx_log b) (Z.lor (irqs b) m), Ok ());
  b_disable_interrupts b m := (mkFifoBackend (rx_fifo b) (tx_log b) (Z.ldiff (irqs b) m), Ok ());
}.

#[local] Instance fifo_backend_laws : UsartBackendLaws fifo_backend.
Proof.
  split; intros b buf; simpl.
  - rewrite length_app, length_take, length_drop. lia.
  - intros n [= <-]. lia.
  - rewrite length_app, length_take, length_drop. lia.
  - intros n. case_match; [done|]. intros [= <-]. simpl. lia.
Qed.

Lemma every_request_answered_once_witness :
  let s := Server_new (mkFifoBackend [] [] 0) in
  let req := request_as_bytes (UsartRequestHeader_new TryRead 4 0 0) in
  ∃ s' calls, run_turns 1 40 2 s [Woken 10 1 (Some req); Woken 11 1 (Some req); Woken 40 2 None] =
      Some (s', calls) ∧ server_ok s' ∧
    ∀ ch, (total_calls ch calls + parked ch s' =
      total (received 1 40 2 ch) [Woken 10 1 (Some req); Woken 11 1 (Some req); Woken 40 2 None]
      + parked ch s)%nat.
Proof. intros s req. by apply (every_request_answered_once 1 40 2 s). Defined.
