(* ===== verification/UsartClient.v ===== *)
(** * The USART client

    [drivers/usart/client/src/lib.rs], and the client over a channel that the
    server of [drivers/usart/server] serves.

    [None] is a panic. *)

From S2P Require Import Prelude Bytes Usart.
From stdpp Require Import base tactics option list numbers.
Local Open Scope Z_scope.

Definition MAX_BUF_SIZE : nat := 512.

(** [syscall::channel_transact]: the request, the response buffer and a
    deadline in; the buffer and the length of the response out. *)
Class Channel (T E : Type) : Type :=
  channel_transact : T → Z → list Z → list Z → Z → option (T * list Z * result nat E).

Inductive ClientError (E : Type) :=
| IpcError (e : E)
| ServerError (e : UsartError)
| InvalidResponse
| ClientBufferTooSmall.
Arguments IpcError {E} _.
Arguments ServerError {E} _.
Arguments InvalidResponse {E}.
Arguments ClientBufferTooSmall {E}.

Section client.
Context {T E : Type} `{Channel T E}.
(** [Instant::MAX] and the client's channel handle. *)
Context (Instant_MAX handle : Z).

Definition parse_no_payload_response (resp : list Z) : option (result unit (ClientError E)) :=
  if (length resp <? RESP_SIZE)%nat then Some (Err InvalidResponse)
  else
    hdr_bytes ← slice_to resp RESP_SIZE;
    Some match response_from_bytes hdr_bytes with
         | None => Err InvalidResponse
         | Some hdr => if is_success hdr then Ok () else Err (ServerError (error_code hdr))
         end.

(** The caller's slice and the count. *)
Definition parse_payload_response (resp out : list Z) :
    option (list Z * result nat (ClientError E)) :=
  if (length resp <? RESP_SIZE)%nat then Some (out, Err InvalidResponse)
  else
    hdr_bytes ← slice_to resp RESP_SIZE;
    match response_from_bytes hdr_bytes with
    | None => Some (out, Err InvalidResponse)
    | Some hdr =>
        if negb (is_success hdr) then Some (out, Err (ServerError (error_code hdr)))
        else
          let len := resp_payload_length hdr in
          if (length out <? len)%nat || (length resp <? RESP_SIZE + len)%nat
          then Some (out, Err InvalidResponse)
          else
            data ← slice_range resp RESP_SIZE (RESP_SIZE + len);
            out ← copy_into 0 data out;
            Some (out, Ok len)
    end.

Definition call_no_payload (t : T) (op : UsartOp) (arg0 arg1 : Z) :
    option (T * result unit (ClientError E)) :=
  req ← copy_into 0 (request_as_bytes (UsartRequestHeader_new op arg0 arg1 0))
          (replicate MAX_BUF_SIZE 0);
  req ← slice_to req REQ_SIZE;
  '(t, resp, r) ← channel_transact t handle req (replicate MAX_BUF_SIZE 0) Instant_MAX;
  match r with
  | Err e => Some (t, Err (IpcError e))
  | Ok resp_len =>
      resp ← slice_to resp resp_len;
      r ← parse_no_payload_response resp;
      Some (t, r)
  end.

Definition configure (t : T) (baud_rate : Z) : option (T * result unit (ClientError E)) :=
  let arg0 := as_u16 (Z.land baud_rate 65535) in
  let arg1 := as_u16 (Z.shiftr baud_rate 16) in
  call_no_payload t Configure arg0 arg1.

Definition write (t : T) (data : list Z) : option (T * result nat (ClientError E)) :=
  if (MAX_PAYLOAD_SIZE <? length data)%nat then Some (t, Err ClientBufferTooSmall)
  else
    let hdr := UsartRequestHeader_new Write 0 0 (as_u16 (Z.of_nat (length data))) in
    req ← copy_into 0 (request_as_bytes hdr) (replicate MAX_BUF_SIZE 0);
    req ← copy_into REQ_SIZE data req;
    req ← slice_to req (REQ_SIZE + length data);
    '(t, resp, r) ← channel_transact t handle req (replicate MAX_BUF_SIZE 0) Instant_MAX;
    match r with
    | Err e => Some (t, Err (IpcError e))
    | Ok resp_len =>
        resp ← slice_to resp resp_len;
        r ← parse_no_payload_response resp;
        Some (t, map_ok (λ _, length data) r)
    end.

(** [read_with_timeout] and [try_read_with_timeout], which differ in the
    operation. *)
Definition read_op (op : UsartOp) (t : T) (out : list Z) (deadline : Z) :
    option (T * list Z * result nat (ClientError E)) :=
  if (MAX_PAYLOAD_SIZE <? length out)%nat then Some (t, out, Err ClientBufferTooSmall)
  else
    let hdr := UsartRequestHeader_new op (as_u16 (Z.of_nat (length out))) 0 0 in
    req ← copy_into 0 (request_as_bytes hdr) (replicate MAX_BUF_SIZE 0);
    req ← slice_to req REQ_SIZE;
    '(t, resp, r) ← channel_transact t handle req (replicate MAX_BUF_SIZE 0) deadline;
    match r with
    | Err e => Some (t, out, Err (IpcError e))
    | Ok resp_len =>
        resp ← slice_to resp resp_len;
        '(out, r) ← parse_payload_response resp out;
        Some (t, out, r)
    end.

Definition read_with_timeout := read_op Read.
Definition try_read_with_timeout := read_op TryRead.
Definition read (t : T) (out : list Z) := read_with_timeout t out Instant_MAX.
Definition try_read (t : T) (out : list Z) := try_read_with_timeout t out Instant_MAX.
End client.

(** ** A served channel *)

(** The server at the other end, and what will wake it while the client waits. *)
Record Served (B : Type) := mkServed { server : Server B; wakes : list Wake }.
Arguments mkServed {B} _ _.
Arguments server {B} _.
Arguments wakes {B} _.

(** The transaction is still open when nothing more happens. *)
Inductive Unanswered := DeadlineExceeded.

(** The first response to [ch]. *)
Definition response_to (ch : Z) (calls : list Syscall) : option (list Z) :=
  head (omap (λ c, match c with
                   | ChannelRespond ch' bytes => if ch' =? ch then Some bytes else None
                   | InterruptAck _ _ => None
                   end) calls).

Section served.
Context {B : Type} `{UsartBackend B}.
Context (READABLE irq irq_signals : Z).

Fixpoint await (s : Server B) (ch : Z) (ws : list Wake) :
    option (Served B * option (list Z)) :=
  match ws with
  | [] => Some (mkServed s [], None)
  | w :: ws =>
      '(s, calls) ← run_turn READABLE irq irq_signals s w;
      match response_to ch calls with
      | Some bytes => Some (mkServed s ws, Some bytes)
      | None => await s ch ws
      end
  end.

(** The request wakes the server first; the response is copied to the client. *)
Definition served_transact (t : Served B) (handle : Z) (req resp : list Z) (_ : Z) :
    option (Served B * list Z * result nat Unanswered) :=
  '(t, answer) ← await (server t) handle (Woken handle READABLE (Some req) :: wakes t);
  match answer with
  | None => Some (t, resp, Err DeadlineExceeded)
  | Some bytes => resp ← copy_into 0 bytes resp; Some (t, resp, Ok (length bytes))
  end.
End served.

(** ** Calls and what they mean to the backend *)

Inductive UsartCall :=
| CallConfigure (baud_rate : Z)
| CallWrite (data : list Z)
| CallRead (out : list Z)
| CallTryRead (out : list Z).

Definition call_ok (c : UsartCall) : Prop :=
  match c with
  | CallConfigure baud => in_u32 baud
  | CallWrite data | CallRead data | CallTryRead data => (length data ≤ MAX_PAYLOAD_SIZE)%nat
  end.

Section calls.
Context {T E : Type} `{Channel T E}.

(** A call: the caller's slice and the count it returns. *)
Definition client_call (Instant_MAX handle : Z) (t : T) (c : UsartCall) :
    option (T * list Z * result nat (ClientError E)) :=
  match c with
  | CallConfigure baud =>
      '(t, r) ← configure Instant_MAX handle t baud; Some (t, [], map_ok (λ _, 0%nat) r)
  | CallWrite data => '(t, r) ← write Instant_MAX handle t data; Some (t, [], r)
  | CallRead out => read Instant_MAX handle t out
  | CallTryRead out => try_read Instant_MAX handle t out
  end.
End calls.

Section backend_call.
Context {B : Type} `{UsartBackend B}.

(** A read lends the backend [scratch] and hands the caller the bytes counted. *)
Definition deliver (o : B * list Z * result nat BackendError) (out : list Z) :
    B * list Z * result nat BackendError :=
  let '(b, slice, r) := o in
  (b, match r with Ok n => take n slice ++ drop n out | Err _ => out end, r).

Definition backend_call (b : B) (scratch : list Z) (c : UsartCall) :
    B * list Z * result nat BackendError :=
  match c with
  | CallConfigure baud =>
      let '(b, r) := b_configure b (mkConfig baud ParityNone 1) in
      (b, [], map_ok (λ _, 0%nat) r)
  | CallWrite data =>
      let '(b, r) := b_write b data in (b, [], map_ok (λ _, length data) r)
  | CallRead out => deliver (b_read b (take (length out) scratch)) out
  | CallTryRead out => deliver (b_try_read b (take (length out) scratch)) out
  end.

(** The call is a [TryRead] that finds nothing. *)
Definition would_block (b : B) (scratch : list Z) (c : UsartCall) : Prop :=
  match c with
  | CallTryRead out => (b_try_read b (take (length out) scratch)).2 = Err BWouldBlock
  | _ => False
  end.
End backend_call.

(** ** Replies *)

(** The bytes of a reply with no payload, and of a reply to a read. *)
Definition unit_bytes {A} (r : result A BackendError) : list Z :=
  response_as_bytes match r with
                    | Ok _ => response_success 0
                    | Err e => response_error (error_of_backend e)
                    end.

Definition read_bytes (slice : list Z) (r : result nat BackendError) : list Z :=
  match r with
  | Ok n => response_as_bytes (response_success (as_u16 (Z.of_nat n))) ++ take n slice
  | Err e => response_as_bytes (response_error (error_of_backend e))
  end.

Lemma error_of_backend_status e : is_success (response_error (error_of_backend e)) = false.
Proof. by destruct e. Qed.

Lemma error_of_backend_code e : error_code (response_error (error_of_backend e)) = error_of_backend e.
Proof. apply error_roundtrip. Qed.

Lemma parse_unit_bytes {A E} (r : result A BackendError) :
  parse_no_payload_response (E := E) (unit_bytes r) =
    Some (map_err (ServerError ∘ error_of_backend) (map_ok (λ _, ()) r)).
Proof.
  unfold parse_no_payload_response, unit_bytes. rewrite length_usart_response.
  change (RESP_SIZE <? RESP_SIZE)%nat with false. cbn [andb].
  rewrite slice_to_Some, take_ge by (by rewrite length_usart_response). cbn [mbind option_bind].
  rewrite usart_response_roundtrip by (destruct r; apply in_u16_0).
  destruct r as [a|e]; [done|]. by rewrite error_of_backend_status, error_of_backend_code.
Qed.

Lemma parse_read_bytes {E} slice r (out : list Z) :
  (length out ≤ MAX_PAYLOAD_SIZE)%nat → length slice = length out →
  (∀ n, r = Ok n → (n ≤ length slice)%nat) →
  parse_payload_response (E := E) (read_bytes slice r) out =
    Some (match r with Ok n => take n slice ++ drop n out | Err _ => out end,
          map_err (ServerError ∘ error_of_backend) r).
Proof.
  unfold MAX_PAYLOAD_SIZE. intros Ho Hs Hn. unfold parse_payload_response, read_bytes.
  destruct r as [n|e]; cycle 1.
  { rewrite length_usart_response. change (RESP_SIZE <? RESP_SIZE)%nat with false. cbn [andb].
    rewrite slice_to_Some, take_ge by (by rewrite length_usart_response). cbn [mbind option_bind].
    rewrite usart_response_roundtrip by apply in_u16_0.
    by rewrite error_of_backend_status, error_of_backend_code. }
  specialize (Hn n eq_refl).
  assert (length (take n slice) = n) as Ht by (rewrite length_take; lia).
  rewrite length_app, length_usart_response, Ht.
  rewrite (proj2 (Nat.ltb_ge (RESP_SIZE + n) RESP_SIZE)) by lia.
  rewrite (slice_to_app _ _ RESP_SIZE) by done. cbn [mbind option_bind].
  rewrite usart_response_roundtrip by apply as_u16_range.
  assert (resp_payload_length (response_success (as_u16 (Z.of_nat n))) = n) as ->.
  { unfold resp_payload_length. simpl. rewrite as_u16_small by (unfold in_u16, u16_MAX; lia).
    apply as_usize_of_nat. }
  change (is_success _) with true. cbn [negb].
  rewrite !(proj2 (Nat.ltb_ge _ _)) by lia. cbn [orb].
  rewrite <- (app_nil_r (take n slice)) at 1.
  rewrite (slice_range_app _ _ _ RESP_SIZE) by (rewrite ?Ht; done). cbn [mbind option_bind].
  rewrite copy_into_Some by lia. cbn [mbind option_bind]. by rewrite write_at_0, Ht.
Qed.

(** ** The server's side *)

Section turn.
Context {B : Type} `{UsartBackendLaws B}.
Context (READABLE irq irq_signals : Z).
Implicit Types b : B.
Implicit Types s : Server B.

(** The dispatch ends in a response of [bytes]. *)
Definition replies (o : option (B * PendingRead * list Z * DispatchOutcome)) b p
    (bytes : list Z) (len : nat) : Prop :=
  ∃ response n, o = Some (b, p, response, Respond n) ∧ slice_to response n = Some bytes ∧
    length response = len.

Lemma replies_unit {A} b p response (r : result A BackendError) :
  (RESP_SIZE ≤ length response)%nat →
  replies ('(response, n) ← match map_ok (λ _, ()) r with
                            | Ok _ => encode_success response []
                            | Err e => encode_error response (error_of_backend e)
                            end; Some (b, p, response, Respond n)) b p (unit_bytes r)
    (length response).
Proof.
  intros Hl. destruct r as [a|e]; simpl map_ok; cbv iota.
  - rewrite encode_success_Some by (cbn [length]; lia). eexists _, _. split; [done|].
    split; [by apply slice_to_app|].
    rewrite !length_app, length_drop, length_usart_response. cbn [length]. lia.
  - rewrite encode_error_Some by done. eexists _, _. split; [done|].
    split; [rewrite write_at_0; by apply slice_to_app|]. by apply length_write_at.
Qed.

(** The header in front of the bytes a read delivered. *)
Lemma finish_read_bytes response slice n :
  (RESP_SIZE + length slice ≤ length response)%nat → (n ≤ length slice)%nat →
  ∃ response', finish_read (write_at RESP_SIZE slice response) n =
      Some (response', (RESP_SIZE + n)%nat) ∧
    slice_to response' (RESP_SIZE + n) = Some (read_bytes slice (Ok n)) ∧
    length response' = length response.
Proof.
  intros Hl Hn. rewrite finish_read_Some by (rewrite length_write_at; lia).
  eexists. split; [done|]. rewrite drop_write_at_self by lia. split.
  - rewrite slice_to_Some by (rewrite !length_app, length_usart_response; lia).
    f_equal. rewrite take_app_ge by (rewrite length_usart_response; lia).
    rewrite length_usart_response. replace (RESP_SIZE + n - RESP_SIZE)%nat with n by lia.
    by rewrite take_app_le.
  - rewrite !length_app, length_drop, length_usart_response. lia.
Qed.

(** The reply to a read that was lent a slice and filled it. *)
Lemma replies_read b p response slice r :
  (RESP_SIZE + length slice ≤ length response)%nat → (∀ n, r = Ok n → (n ≤ length slice)%nat) →
  replies (match r with
           | Ok n => '(response, n) ← finish_read (write_at RESP_SIZE slice response) n;
                     Some (b, p, response, Respond n)
           | Err e => '(response, n) ← encode_error (write_at RESP_SIZE slice response)
                        (error_of_backend e);
                      Some (b, p, response, Respond n)
           end) b p (read_bytes slice r) (length response).
Proof.
  intros Hl Hn. assert (length (write_at RESP_SIZE slice response) = length response) as Hw
    by by apply length_write_at.
  destruct r as [n|e].
  - destruct (finish_read_bytes response slice n Hl (Hn n eq_refl)) as (response' & -> & Hb & Hl').
    by eexists _, _.
  - rewrite encode_error_Some by lia. eexists _, _. split; [done|].
    split; [rewrite write_at_0; by apply slice_to_app|]. rewrite length_write_at; [done|].
    rewrite length_usart_response. lia.
Qed.
End turn.

(** Opening a well-formed request. *)
Lemma open_request op a0 a1 data :
  in_u16 a0 → in_u16 a1 → (length data ≤ MAX_PAYLOAD_SIZE)%nat →
  let hdr := UsartRequestHeader_new op a0 a1 (as_u16 (Z.of_nat (length data))) in
  let req := request_as_bytes hdr ++ data in
  (length req <? REQ_SIZE)%nat = false ∧
  slice_to req REQ_SIZE = Some (request_as_bytes hdr) ∧
  request_from_bytes (request_as_bytes hdr) = Some hdr ∧
  operation hdr = Ok op ∧ req_payload_length hdr = length data ∧
  (length req <? REQ_SIZE + length data)%nat = false ∧
  slice_range req REQ_SIZE (REQ_SIZE + length data) = Some data.
Proof.
  intros H0 H1 Hl hdr req. unfold MAX_PAYLOAD_SIZE in Hl.
  assert (length req = REQ_SIZE + length data)%nat as Hr by (unfold req; by rewrite length_app).
  rewrite Hr. split_and!.
  - apply Nat.ltb_ge. lia.
  - by apply slice_to_app.
  - apply usart_request_roundtrip; simpl; auto with bytes.
  - apply op_roundtrip.
  - unfold req_payload_length. simpl. rewrite as_u16_small by (unfold in_u16, u16_MAX; lia).
    apply as_usize_of_nat.
  - apply Nat.ltb_ge. lia.
  - unfold req. rewrite <- (app_nil_r data) at 1. by apply slice_range_app.
Qed.

(** The request a client builds, whatever it does with it. *)
Lemma build_request {A} hdr data (k : list Z → option A) :
  (length data ≤ MAX_PAYLOAD_SIZE)%nat →
  (req ← copy_into 0 (request_as_bytes hdr) (replicate MAX_BUF_SIZE 0);
   req ← copy_into REQ_SIZE data req;
   req ← slice_to req (REQ_SIZE + length data);
   k req) = k (request_as_bytes hdr ++ data).
Proof.
  unfold MAX_PAYLOAD_SIZE. intros Hl.
  assert (length (write_at 0 (request_as_bytes hdr) (replicate MAX_BUF_SIZE 0)) = MAX_BUF_SIZE) as Hw.
  { rewrite length_write_at; rewrite ?length_usart_request, length_replicate;
      unfold REQ_SIZE, MAX_BUF_SIZE; lia. }
  assert (REQ_SIZE + length data ≤ MAX_BUF_SIZE)%nat as Hroom by (unfold REQ_SIZE, MAX_BUF_SIZE; lia).
  rewrite copy_into_Some by (rewrite length_usart_request, length_replicate; lia).
  cbn [mbind option_bind]. rewrite copy_into_Some by lia. cbn [mbind option_bind].
  rewrite slice_to_Some by (rewrite length_write_at; lia).
  rewrite take_write_at by lia. by rewrite write_at_0, take_app_length'.
Qed.

Lemma build_header {A} hdr (k : list Z → option A) :
  (req ← copy_into 0 (request_as_bytes hdr) (replicate MAX_BUF_SIZE 0);
   req ← slice_to req REQ_SIZE;
   k req) = k (request_as_bytes hdr).
Proof.
  rewrite copy_into_Some by
    (rewrite length_usart_request, length_replicate; unfold REQ_SIZE, MAX_BUF_SIZE; lia).
  cbn [mbind option_bind]. rewrite write_at_0. by rewrite slice_to_app.
Qed.

Lemma response_to_only ch bytes : response_to ch [ChannelRespond ch bytes] = Some bytes.
Proof. unfold response_to. simpl. by rewrite Z.eqb_refl. Qed.

(** ** The client over the server *)

Section refinement.
Context {B : Type} `{UsartBackendLaws B}.
Context (READABLE irq irq_signals Instant_MAX handle : Z).
Implicit Types b : B.
Implicit Types s : Server B.

#[local] Instance served_channel : Channel (Served B) Unanswered :=
  served_transact READABLE irq irq_signals.

Ltac open_dispatch op a0 a1 data :=
  let E1 := fresh in let E2 := fresh in let E3 := fresh in let E4 := fresh in
  let E5 := fresh in let E6 := fresh in let E7 := fresh in
  destruct (open_request op a0 a1 data) as (E1 & E2 & E3 & E4 & E5 & E6 & E7);
  [try apply as_u16_range; try apply in_u16_0
  |try apply as_u16_range; try apply in_u16_0
  |unfold MAX_PAYLOAD_SIZE in *; simpl; lia
  |unfold dispatch_request; cbv zeta; rewrite E1, E2; cbn [mbind option_bind];
   rewrite E3, E4, E5, E6; cbn [mbind option_bind]; rewrite E7; cbn [mbind option_bind];
   clear E1 E2 E3 E4 E5 E6 E7].

Lemma response_room s : server_ok s → (RESP_SIZE < length (response_buf s))%nat.
Proof. unfold server_ok. intros ->. unfold RESP_SIZE, MAX_RESPONSE_SIZE. lia. Qed.

Lemma dispatch_configure s baud :
  server_ok s → in_u32 baud →
  let '(b, r) := b_configure (backend s) (mkConfig baud ParityNone 1) in
  replies (dispatch_request (backend s) (pending s) handle
      (request_as_bytes (UsartRequestHeader_new Configure (as_u16 (Z.land baud 65535))
        (as_u16 (Z.shiftr baud 16)) 0)) (response_buf s))
    b (pending s) (unit_bytes r) (length (response_buf s)).
Proof.
  intros Hs Hb. destruct (b_configure _ _) as [b r] eqn:E.
  rewrite <- (app_nil_r (request_as_bytes _)). change 0 with (as_u16 (Z.of_nat (length (@nil Z)))).
  open_dispatch Configure (as_u16 (Z.land baud 65535)) (as_u16 (Z.shiftr baud 16)) (@nil Z).
  simpl arg0. simpl arg1. rewrite u32_halves, E by done.
  pose proof (replies_unit b (pending s) (response_buf s) r) as Hr.
  assert (map_ok (λ _, ()) r = r) as Hm by (by destruct r as [[]|]). rewrite Hm in Hr.
  apply Hr. pose proof (response_room s Hs). lia.
Qed.

Lemma dispatch_write s data :
  server_ok s → (length data ≤ MAX_PAYLOAD_SIZE)%nat →
  let '(b, r) := b_write (backend s) data in
  replies (dispatch_request (backend s) (pending s) handle
      (request_as_bytes (UsartRequestHeader_new Write 0 0 (as_u16 (Z.of_nat (length data)))) ++ data)
      (response_buf s))
    b (pending s) (unit_bytes r) (length (response_buf s)).
Proof.
  intros Hs Hl. destruct (b_write _ _) as [b r] eqn:E.
  open_dispatch Write 0 0 data. rewrite E. apply replies_unit.
  pose proof (response_room s Hs). lia.
Qed.

(** The bytes a read of a small slice is lent. *)
Lemma lent_small s (out : list Z) :
  server_ok s → (length out ≤ MAX_PAYLOAD_SIZE)%nat →
  lent (response_buf s) (as_usize (as_u16 (Z.of_nat (length out)))) =
    take (length out) (drop RESP_SIZE (response_buf s)) ∧
  as_usize (as_u16 (Z.of_nat (length out))) = length out.
Proof.
  unfold server_ok, MAX_PAYLOAD_SIZE. intros Hs Hl.
  rewrite as_u16_small by (unfold in_u16, u16_MAX; lia). rewrite as_usize_of_nat. split; [|done].
  unfold lent. rewrite Hs. unfold RESP_SIZE, MAX_RESPONSE_SIZE. f_equal. lia.
Qed.

(** A read lends the response buffer, and what it lent comes back filled. *)
Lemma lend_small s (out : list Z) call :
  server_ok s → (length out ≤ MAX_PAYLOAD_SIZE)%nat → fills call →
  ∃ b slice r, call (take (length out) (drop RESP_SIZE (response_buf s))) = (b, slice, r) ∧
    length slice = length out ∧ (∀ n, r = Ok n → (n ≤ length slice)%nat) ∧
    (RESP_SIZE + length slice ≤ length (response_buf s))%nat ∧
    lend_response (B := B) (response_buf s) (as_usize (as_u16 (Z.of_nat (length out)))) call =
      Some (b, write_at RESP_SIZE slice (response_buf s), r).
Proof.
  intros Hs Hl Hc. destruct (lent_small s out Hs Hl) as [Hlent Hn].
  destruct (lend_response_spec (B := B) (response_buf s) (as_usize (as_u16 (Z.of_nat (length out)))) call)
    as (b & slice & r & E & Hlen & Hr & Hle & _); [pose proof (response_room s Hs); lia|done|].
  rewrite Hlent in E. rewrite Hn in Hlen. exists b, slice, r.
  unfold server_ok, MAX_PAYLOAD_SIZE, RESP_SIZE, MAX_RESPONSE_SIZE in *. rewrite Hs in Hlen |- *.
  split_and!; try done; lia.
Qed.

Lemma dispatch_read s (out : list Z) :
  server_ok s → (length out ≤ MAX_PAYLOAD_SIZE)%nat →
  let '(b, slice, r) := b_read (backend s) (take (length out) (drop RESP_SIZE (response_buf s))) in
  length slice = length out ∧ (∀ n, r = Ok n → (n ≤ length slice)%nat) ∧
  replies (dispatch_request (backend s) (pending s) handle
      (request_as_bytes (UsartRequestHeader_new Read (as_u16 (Z.of_nat (length out))) 0 0))
      (response_buf s))
    b (pending s) (read_bytes slice r) (length (response_buf s)).
Proof.
  intros Hs Hl. destruct (lend_small s out (b_read (backend s)) Hs Hl (fills_read _))
    as (b & slice & r & -> & Hlen & Hr & Hroom & Hle).
  split; [done|]. split; [done|].
  rewrite <- (app_nil_r (request_as_bytes _)). change 0 with (as_u16 (Z.of_nat (length (@nil Z)))) at 2.
  open_dispatch Read (as_u16 (Z.of_nat (length out))) 0 (@nil Z). simpl arg0. rewrite Hle.
  cbn [mbind option_bind]. by apply replies_read.
Qed.

Lemma dispatch_try_read s (out : list Z) :
  server_ok s → (length out ≤ MAX_PAYLOAD_SIZE)%nat →
  let '(b, slice, r) :=
    b_try_read (backend s) (take (length out) (drop RESP_SIZE (response_buf s))) in
  length slice = length out ∧ (∀ n, r = Ok n → (n ≤ length slice)%nat) ∧
  let o := dispatch_request (backend s) (pending s) handle
      (request_as_bytes (UsartRequestHeader_new TryRead (as_u16 (Z.of_nat (length out))) 0 0))
      (response_buf s) in
  (r ≠ Err BWouldBlock → replies o b (pending s) (read_bytes slice r) (length (response_buf s))) ∧
  (r = Err BWouldBlock → p_channel (pending s) = None →
     o = Some ((b_enable_interrupts b RX_DATA_AVAILABLE).1, mkPending (Some handle) (length out),
               write_at RESP_SIZE slice (response_buf s), Queued)) ∧
  (r = Err BWouldBlock → p_channel (pending s) ≠ None →
     replies o b (pending s) (response_as_bytes (response_error Timeout)) (length (response_buf s))).
Proof.
  intros Hs Hl. destruct (lend_small s out (b_try_read (backend s)) Hs Hl (fills_try_read _))
    as (b & slice & r & -> & Hlen & Hr & Hroom & Hle).
  destruct (lent_small s out Hs Hl) as [_ Hn].
  split; [done|]. split; [done|].
  rewrite <- (app_nil_r (request_as_bytes _)). change 0 with (as_u16 (Z.of_nat (length (@nil Z)))) at 2.
  open_dispatch TryRead (as_u16 (Z.of_nat (length out))) 0 (@nil Z). simpl arg0. rewrite Hle.
  cbn [mbind option_bind]. split_and!.
  - intros Hne. pose proof (replies_read b (pending s) (response_buf s) slice r Hroom Hr) as Hrep.
    destruct r as [n|[]]; try exact Hrep. done.
  - intros -> Hp. rewrite Hn. unfold park. by rewrite Hp.
  - intros -> Hp. unfold park. destruct (p_channel (pending s)); [|done].
    assert (length (write_at RESP_SIZE slice (response_buf s)) = length (response_buf s)) as Hw
      by by apply length_write_at.
    rewrite encode_error_Some by lia. eexists _, _. split; [done|].
    split; [rewrite write_at_0; by apply slice_to_app|]. rewrite length_write_at; [done|].
    rewrite length_usart_response. lia.
Qed.

(** The client's channel is not the interrupt object. *)
Hypothesis handle_u32 : in_u32 handle.
Hypothesis handle_not_irq : handle ≠ irq.

(** The turn the client's request causes. *)
Lemma request_turn s req :
  run_turn READABLE irq irq_signals s (Woken handle READABLE (Some req)) =
    ('(b, p, response, outcome) ←
       dispatch_request (backend s) (pending s) handle req (response_buf s);
     match outcome with
     | Respond resp_len =>
         bytes ← slice_to response resp_len;
         Some (mkServer b p response, [ChannelRespond handle bytes])
     | Queued => Some (mkServer b p response, [])
     end).
Proof.
  simpl. rewrite as_u32_small by done. rewrite (proj2 (Z.eqb_neq _ _) handle_not_irq). simpl.
  unfold contains. by rewrite Z.land_diag, Z.eqb_refl.
Qed.

(** A reply reaches the client. *)
Lemma served_reply s ws req b p bytes deadline :
  server_ok s →
  replies (dispatch_request (backend s) (pending s) handle req (response_buf s)) b p bytes
    (length (response_buf s)) →
  ∃ s' resp, channel_transact (mkServed s ws) handle req (replicate MAX_BUF_SIZE 0) deadline =
      Some (mkServed s' ws, resp, Ok (length bytes)) ∧
    slice_to resp (length bytes) = Some bytes ∧
    backend s' = b ∧ pending s' = p ∧ server_ok s'.
Proof.
  intros Hs (response & n & Hd & Hb & Hl). unfold channel_transact, served_channel, served_transact.
  cbn [await server wakes]. rewrite request_turn, Hd. cbn [mbind option_bind]. rewrite Hb.
  cbn [mbind option_bind]. rewrite response_to_only. cbn [mbind option_bind].
  assert (length bytes ≤ length (response_buf s))%nat as Hle.
  { unfold slice_to in Hb. case_match; [|done]. simplify_eq. rewrite length_take. lia. }
  rewrite Hs in Hle. rewrite copy_into_Some by (rewrite length_replicate; exact Hle).
  cbn [mbind option_bind]. eexists _, _. split; [done|].
  split; [rewrite write_at_0; by apply slice_to_app|].
  split; [done|]. split; [done|]. unfold server_ok. simpl. congruence.
Qed.

(** A reply to a read, as the client takes it. *)
Lemma read_reply op (t t' : Served B) resp slice r out deadline :
  (length out ≤ MAX_PAYLOAD_SIZE)%nat → length slice = length out →
  (∀ n, r = Ok n → (n ≤ length slice)%nat) →
  channel_transact t handle
      (request_as_bytes (UsartRequestHeader_new op (as_u16 (Z.of_nat (length out))) 0 0))
      (replicate MAX_BUF_SIZE 0) deadline = Some (t', resp, Ok (length (read_bytes slice r))) →
  slice_to resp (length (read_bytes slice r)) = Some (read_bytes slice r) →
  read_op handle op t out deadline =
    Some (t', match r with Ok n => take n slice ++ drop n out | Err _ => out end,
          map_err (ServerError ∘ error_of_backend) r).
Proof.
  intros Hc Hl Hn Ht Hsl. unfold read_op. rewrite (proj2 (Nat.ltb_ge _ _) Hc).
  rewrite build_header, Ht. cbn [mbind option_bind]. rewrite Hsl. cbn [mbind option_bind].
  by rewrite parse_read_bytes.
Qed.

(** A client call that the server can answer at once is the call of the
    backend: the same arguments reach it, its error comes back as the status of
    the same name, and a read delivers the counted bytes into the caller's slice.
    A write reports all its bytes as written, whatever count the backend
    returned. *)
Theorem usart_client_is_the_backend s ws c :
  server_ok s → call_ok c →
  let scratch := drop RESP_SIZE (response_buf s) in
  ¬ would_block (backend s) scratch c →
  let '(b, out, r) := backend_call (backend s) scratch c in
  ∃ s', client_call Instant_MAX handle (mkServed s ws) c =
      Some (mkServed s' ws, out, map_err (ServerError ∘ error_of_backend) r) ∧
    backend s' = b ∧ pending s' = pending s ∧ server_ok s'.
Proof.
  intros Hs Hc scratch Hwb. destruct c as [baud|data|out|out]; cbn [backend_call client_call].
  - pose proof (dispatch_configure s baud Hs Hc) as Hd.
    destruct (b_configure _ _) as [b r].
    destruct (served_reply s ws _ _ _ _ Instant_MAX Hs Hd) as (s' & resp & Ht & Hsl & Hb & Hp & Hs').
    exists s'. split; [|done]. unfold configure, call_no_payload. rewrite build_header, Ht.
    cbn [mbind option_bind]. rewrite Hsl. cbn [mbind option_bind]. rewrite parse_unit_bytes.
    by destruct r.
  - pose proof (dispatch_write s data Hs Hc) as Hd. destruct (b_write _ _) as [b r].
    destruct (served_reply s ws _ _ _ _ Instant_MAX Hs Hd) as (s' & resp & Ht & Hsl & Hb & Hp & Hs').
    exists s'. split; [|done]. unfold write. rewrite (proj2 (Nat.ltb_ge _ _) Hc).
    rewrite build_request, Ht by done. cbn [mbind option_bind]. rewrite Hsl.
    cbn [mbind option_bind]. rewrite parse_unit_bytes. by destruct r.
  - pose proof (dispatch_read s out Hs Hc) as Hd. unfold deliver. fold scratch in Hd.
    destruct (b_read _ _) as [[b slice] r]. destruct Hd as (Hl & Hn & Hd).
    destruct (served_reply s ws _ _ _ _ Instant_MAX Hs Hd) as (s' & resp & Ht & Hsl & Hb & Hp & Hs').
    exists s'. split; [|done]. by apply (read_reply Read (mkServed s ws) (mkServed s' ws) resp slice).
  - pose proof (dispatch_try_read s out Hs Hc) as Hd. unfold deliver. fold scratch in Hd.
    simpl in Hwb. destruct (b_try_read _ _) as [[b slice] r]. destruct Hd as (Hl & Hn & Hd & _).
    specialize (Hd Hwb).
    destruct (served_reply s ws _ _ _ _ Instant_MAX Hs Hd) as (s' & resp & Ht & Hsl & Hb & Hp & Hs').
    exists s'. split; [|done]. by apply (read_reply TryRead (mkServed s ws) (mkServed s' ws) resp slice).
Qed.

(** ** The parked read *)

Hypothesis irq_u32 : in_u32 irq.

Definition irq_wake : Wake := Woken irq irq_signals None.

(** The attempt an interrupt makes on behalf of the parked read. *)
Definition irq_attempt b (response : list Z) (size : nat) : B * list Z * result nat BackendError :=
  b_try_read (b_disable_interrupts b RX_DATA_AVAILABLE).1 (take size (drop RESP_SIZE response)).

Definition rearm b : B := (b_enable_interrupts b RX_DATA_AVAILABLE).1.

Lemma irq_turn s (size : nat) :
  server_ok s → (size ≤ MAX_PAYLOAD_SIZE)%nat → pending s = mkPending (Some handle) size →
  let '(b, slice, r) := irq_attempt (backend s) (response_buf s) size in
  length slice = size ∧ (∀ n, r = Ok n → (n ≤ length slice)%nat) ∧
  ∃ s', server_ok s' ∧
    run_turn READABLE irq irq_signals s irq_wake =
      Some (s', InterruptAck irq irq_signals ::
        match r with Ok n => [ChannelRespond handle (read_bytes slice (Ok n))] | Err _ => [] end) ∧
    match r with
    | Ok n => backend s' = b ∧ p_channel (pending s') = None
    | Err _ => s' = mkServer (rearm b) (mkPending (Some handle) size)
                      (write_at RESP_SIZE slice (response_buf s))
    end.
Proof.
  unfold server_ok, MAX_PAYLOAD_SIZE. intros Hs Hsz Hp. simpl.
  rewrite as_u32_small, Z.eqb_refl by done.
  unfold contains. rewrite Z.land_diag, Z.eqb_refl. cbn [andb].
  unfold complete_parked. rewrite Hp. cbn [pending_take p_channel requested_size fmap option_fmap option_map].
  set (b0 := (b_disable_interrupts (backend s) RX_DATA_AVAILABLE).1).
  destruct (lend_response_spec (response_buf s) size (b_try_read b0))
    as (b & slice & r & E & Hlen & Hn & -> & Hw);
    [rewrite Hs; unfold RESP_SIZE, MAX_RESPONSE_SIZE; lia|apply fills_try_read|].
  unfold lent in E. rewrite Hs in E, Hlen.
  replace (Nat.min size (MAX_RESPONSE_SIZE - RESP_SIZE))%nat with size in E, Hlen
    by (unfold MAX_RESPONSE_SIZE, RESP_SIZE; lia).
  unfold irq_attempt. fold b0. rewrite E. split; [done|]. split; [done|].
  cbn [mbind option_bind]. rewrite Hs in Hw. destruct r as [n|e].
  - destruct (finish_read_bytes (response_buf s) slice n) as (response' & -> & Hb & Hl');
      [rewrite Hs, Hlen; unfold RESP_SIZE, MAX_RESPONSE_SIZE; lia|by apply Hn|].
    cbn [mbind option_bind]. rewrite Hb. eexists. split; [|done]. simpl. lia.
  - eexists. split; [|done]. exact Hw.
Qed.

(** The first of at most [k] interrupts that finds data: the backend, the slice,
    the count, and the interrupts left. *)
Fixpoint first_data (k : nat) b (response : list Z) (size : nat) : option (B * list Z * nat * nat) :=
  match k with
  | O => None
  | S k =>
      let '(b, slice, r) := irq_attempt b response size in
      match r with
      | Ok n => Some (b, slice, n, k)
      | Err _ => first_data k (rearm b) (write_at RESP_SIZE slice response) size
      end
  end.

Lemma await_data k s (size : nat) b slice n k' :
  server_ok s → (size ≤ MAX_PAYLOAD_SIZE)%nat → pending s = mkPending (Some handle) size →
  first_data k (backend s) (response_buf s) size = Some (b, slice, n, k') →
  length slice = size ∧ (n ≤ length slice)%nat ∧
  ∃ s', await READABLE irq irq_signals s handle (replicate k irq_wake) =
      Some (mkServed s' (replicate k' irq_wake), Some (read_bytes slice (Ok n))) ∧
    backend s' = b ∧ p_channel (pending s') = None ∧ server_ok s'.
Proof.
  revert s. induction k as [|k IH]; intros s Hs Hsz Hp Hf; [done|].
  cbn [first_data replicate await] in *.
  pose proof (irq_turn s size Hs Hsz Hp) as Ht.
  destruct (irq_attempt _ _ _) as [[b1 slice1] r]. destruct Ht as (Hl & Hn & s1 & Hs1 & -> & Hr).
  cbn [mbind option_bind]. destruct r as [n1|e].
  - simplify_eq. destruct Hr as [Hb Hpn]. split; [done|]. split; [by apply Hn|].
    exists s1. unfold response_to. simpl. by rewrite Z.eqb_refl.
  - subst s1. apply IH; done.
Qed.

(** A [try_read] that finds nothing waits: it is parked, each receive
    interrupt retries it, and the first attempt that finds data answers the
    client with it and frees the slot. *)
Theorem try_read_waits_for_data s (out : list Z) k b slice r b' slice' n k' :
  server_ok s → (length out ≤ MAX_PAYLOAD_SIZE)%nat → p_channel (pending s) = None →
  b_try_read (backend s) (take (length out) (drop RESP_SIZE (response_buf s))) = (b, slice, r) →
  r = Err BWouldBlock →
  first_data k (rearm b) (write_at RESP_SIZE slice (response_buf s)) (length out) =
    Some (b', slice', n, k') →
  ∃ s', try_read Instant_MAX handle (mkServed s (replicate k irq_wake)) out =
      Some (mkServed s' (replicate k' irq_wake), take n slice' ++ drop n out, Ok n) ∧
    backend s' = b' ∧ p_channel (pending s') = None ∧ server_ok s'.
Proof.
  intros Hs Hl Hp E -> Hf. pose proof (dispatch_try_read s out Hs Hl) as Hd. rewrite E in Hd.
  destruct Hd as (Hls & _ & _ & Hd & _). specialize (Hd eq_refl Hp).
  assert (server_ok (mkServer (rearm b) (mkPending (Some handle) (length out))
    (write_at RESP_SIZE slice (response_buf s)))) as Hs1.
  { unfold server_ok, MAX_PAYLOAD_SIZE in *. simpl.
    rewrite length_write_at; rewrite ?Hls, Hs; unfold RESP_SIZE, MAX_RESPONSE_SIZE; lia. }
  destruct (await_data k _ (length out) b' slice' n k' Hs1 Hl eq_refl Hf)
    as (Hl' & Hn & s' & Ha & Hb & Hp' & Hs').
  assert (length (read_bytes slice' (Ok n)) ≤ MAX_BUF_SIZE)%nat as Hle.
  { simpl. rewrite length_take. unfold MAX_PAYLOAD_SIZE, MAX_BUF_SIZE in *. lia. }
  exists s'. split; [|done].
  eapply (read_reply TryRead _ _ _ slice' (Ok n)); [done|done|by intros ? [= <-]| |].
  - unfold channel_transact, served_channel, served_transact. cbn [await server wakes].
    rewrite request_turn, Hd. cbn [mbind option_bind response_to].
    change (response_to handle []) with (@None (list Z)). cbn iota.
    change ((b_enable_interrupts b RX_DATA_AVAILABLE).1) with (rearm b). rewrite Ha.
    cbn [mbind option_bind]. by rewrite copy_into_Some by (by rewrite length_replicate).
  - rewrite write_at_0. by apply slice_to_app.
Qed.

(** An interrupt attempt that fails, with whatever error, answers nobody and
    leaves the read parked: the client never learns of the error. *)
Theorem parked_read_hides_errors s (size : nat) b slice e :
  server_ok s → (size ≤ MAX_PAYLOAD_SIZE)%nat → pending s = mkPending (Some handle) size →
  irq_attempt (backend s) (response_buf s) size = (b, slice, Err e) →
  ∃ s', run_turn READABLE irq irq_signals s irq_wake = Some (s', [InterruptAck irq irq_signals]) ∧
    pending s' = pending s ∧ backend s' = rearm b ∧ server_ok s'.
Proof.
  intros Hs Hsz Hp E. pose proof (irq_turn s size Hs Hsz Hp) as Ht. rewrite E in Ht.
  destruct Ht as (_ & _ & s' & Hs' & Hr & ->). by eexists.
Qed.

(** A second reader that finds nothing while one is parked is refused with
    [Timeout], and the parked read stays. *)
Theorem second_try_read_times_out s ws (out : list Z) :
  server_ok s → (length out ≤ MAX_PAYLOAD_SIZE)%nat → is_pending (pending s) = true →
  would_block (backend s) (drop RESP_SIZE (response_buf s)) (CallTryRead out) →
  ∃ s', try_read Instant_MAX handle (mkServed s ws) out =
      Some (mkServed s' ws, out, Err (ServerError Timeout)) ∧
    pending s' = pending s ∧ server_ok s'.
Proof.
  intros Hs Hl Hp Hwb. pose proof (dispatch_try_read s out Hs Hl) as Hd. simpl in Hwb.
  destruct (b_try_read _ _) as [[b slice] r]. simpl in Hwb.
  destruct Hd as (_ & _ & _ & _ & Hd). specialize (Hd Hwb).
  assert (p_channel (pending s) ≠ None) as Hne.
  { unfold is_pending in Hp. by destruct (p_channel (pending s)). }
  destruct (served_reply s ws _ _ _ _ Instant_MAX Hs (Hd Hne))
    as (s' & resp & Ht & Hsl & Hb & Hp' & Hs').
  exists s'. split; [|done].
  by apply (read_reply TryRead (mkServed s ws) (mkServed s' ws) resp (take (length out) out)
    (Err BTimeout)); rewrite ?length_take, ?Nat.min_id.
Qed.
End refinement.

(** ** Witnesses *)

#[local] Existing Instance fifo_backend_ops.
#[local] Existing Instance fifo_backend_laws.

(** A server whose interrupt is object 40 and signal 2, with bytes received. *)
Definition example_server (rx : list Z) : Server fifo_backend :=
  Server_new (mkFifoBackend rx [] 0).

(** The backend took two of the three bytes; the client is told three. *)
Lemma usart_client_is_the_backend_witness :
  ∃ s', client_call (H := served_channel 1 40 2) 0 10 (mkServed (example_server []) [])
      (CallWrite [7; 8; 9]) = Some (mkServed s' [], [], Ok 3%nat) ∧ tx_log (backend s') = [7; 8].
Proof.
  destruct (usart_client_is_the_backend 1 40 2 0 10 ltac:(unfold in_u32, u32_MAX; lia) ltac:(done)
    (example_server []) [] (CallWrite [7; 8; 9])) as (s' & Hc & Hb & _).
  - done.
  - unfold call_ok, MAX_PAYLOAD_SIZE. simpl. lia.
  - by intros [].
  - exists s'. split; [exact Hc|]. by rewrite Hb.
Defined.

(** A backend that receives [rx_later] when its interrupt is next disabled. *)
Record late_backend := mkLate { rx_now : list Z; rx_later : list Z }.

#[local] Instance late_backend_ops : UsartBackend late_backend := {
  b_configure b _ := (b, Ok ());
  b_write b data := (b, Ok (length data));
  b_read b buf := (b, buf, Err BBusy);
  b_try_read b buf :=
    let n := Nat.min (length buf) (length (rx_now b)) in
    (mkLate (drop n (rx_now b)) (rx_later b), take n (rx_now b) ++ drop n buf,
     match rx_now b with [] => Err BWouldBlock | _ => Ok n end);
  b_line_status b := Ok 0;
  b_enable_interrupts b _ := (b, Ok ());
  b_disable_interrupts b _ := (mkLate (rx_now b ++ take 1 (rx_later b)) (drop 1 (rx_later b)), Ok ());
}.

#[local] Instance late_backend_laws : UsartBackendLaws late_backend.
Proof.
  split; intros b buf; simpl; try done.
  - rewrite length_app, length_take, length_drop. lia.
  - intros n. case_match; [done|]. intros [= <-]. simpl. lia.
Qed.

Definition late_server (now later : list Z) : Server late_backend := Server_new (mkLate now later).

Lemma try_read_waits_for_data_witness :
  ∃ s', try_read (H := served_channel 1 40 2) 0 10
      (mkServed (late_server [] [65; 66]) (replicate 2 (irq_wake 40 2))) [0; 0; 0] =
    Some (mkServed s' (replicate 1 (irq_wake 40 2)), [65; 0; 0], Ok 1%nat) ∧
    backend s' = mkLate [] [66].
Proof.
  destruct (try_read_waits_for_data 1 40 2 0 10 ltac:(unfold in_u32, u32_MAX; lia) ltac:(done)
    ltac:(unfold in_u32, u32_MAX; lia) (late_server [] [65; 66]) [0; 0; 0] 2
    (mkLate [] [65; 66]) [0; 0; 0] (Err BWouldBlock) (mkLate [] [66]) [65; 0; 0] 1 1)
    as (s' & Hc & Hb & _).
  1: done.
  1: unfold MAX_PAYLOAD_SIZE; simpl; lia.
  1, 2, 3: done.
  1: by vm_compute.
  exists s'. split; [exact Hc|exact Hb].
Defined.

Lemma parked_read_hides_errors_witness :
  let s := mkServer (mkLate [] []) (mkPending (Some 10) 4) (replicate MAX_RESPONSE_SIZE 0) in
  ∃ s', run_turn 1 40 2 s (irq_wake 40 2) = Some (s', [InterruptAck 40 2]) ∧ pending s' = pending s.
Proof.
  intros s. destruct (parked_read_hides_errors 1 40 2 10 ltac:(unfold in_u32, u32_MAX; lia)
    s 4 (mkLate [] []) [0; 0; 0; 0] BWouldBlock) as (s' & Hr & Hp & _).
  1: done.
  1: unfold MAX_PAYLOAD_SIZE; lia.
  1, 2: done.
  exists s'. split; [exact Hr|exact Hp].
Defined.

Lemma second_try_read_times_out_witness :
  let s := mkServer (mkLate [] []) (mkPending (Some 11) 4) (replicate MAX_RESPONSE_SIZE 0) in
  ∃ s', try_read (H := served_channel 1 40 2) 0 10 (mkServed s []) [0; 0] =
    Some (mkServed s' [], [0; 0], Err (ServerError Timeout)) ∧ pending s' = pending s.
Proof.
  intros s. destruct (second_try_read_times_out 1 40 2 0 10 ltac:(unfold in_u32, u32_MAX; lia)
    ltac:(done) s [] [0; 0]) as (s' & Hr & Hp & _).
  1: done.
  1: unfold MAX_PAYLOAD_SIZE; simpl; lia.
  1, 2: done.
  exists s'. split; [exact Hr|exact Hp].
Defined.
