(* ===== verification/Flash.v ===== *)
(** * Blocking flash

    [hal/blocking/flash/driver.rs], [hal/blocking/flash/flash.rs] and
    [util/types/power_of_2.rs]: a flash of arbitrary reads and writes over a
    driver with alignment, read-size and program-window limits.

    [None] is a panic (an address sum past [u32] included). *)

From S2P Require Import Prelude Bytes.
From stdpp Require Import base tactics option list numbers.
Local Open Scope Z_scope.

(** ** The driver *)

(** [FlashDriver] and, in [wait_for_notification], the [Blocking] that lets the
    hardware finish; an address is its [u32] offset. *)
Class FlashDriver (D E : Type) : Type := {
  PAGE_SIZE : nat;
  PROGRAM_WINDOW_SIZE : nat;
  MAX_READ_SIZE : nat;
  READ_ALIGNMENT : nat;
  PROGRAM_ALIGNMENT : nat;
  f_size : D → nat;
  erasable_sizes_bitmap : D → D * result Z E;
  f_read : D → Z → list Z → D * list Z * result unit E;
  start_erase : D → Z → nat → D * result unit E;
  start_program : D → Z → list Z → D * result unit E;
  complete_op : D → D * result unit E;
  wait_for_notification : D → D;
}.

(** ** Addresses and powers of two *)

(** [PowerOf2Usize::new]. *)
Definition PowerOf2Usize_new (val : nat) : option nat :=
  if (0 <? val)%nat && (2 ^ Nat.log2 val =? val)%nat then Some val else None.

(** [addr += n] and [addr & m] of a [FlashAddress]. *)
Definition addr_add (offset : Z) (n : nat) : option Z :=
  let sum := offset + as_u32 (Z.of_nat n) in
  if sum <=? u32_MAX then Some sum else None.
Definition addr_and (offset m : Z) : Z := Z.land offset (as_u32 m).

(** [u32::trailing_zeros]. *)
Fixpoint trailing_zeros_from (n : nat) (i bits : Z) : Z :=
  match n with
  | O => i
  | S n => if Z.testbit bits i then i else trailing_zeros_from n (i + 1) bits
  end.
Definition trailing_zeros (bits : Z) : Z := trailing_zeros_from 32 0 bits.

(** ** [BlockingFlash] *)

Definition PREFIX_BUF_LEN : nat := 16.

Section flash.
Context {D E : Type} `{FlashDriver D E}.

(** [1 << n] panics at the width of [usize]. *)
Definition geometry (USIZE_BITS : Z) (d : D) : option (D * result (nat * nat * Z) E) :=
  let '(d, r) := erasable_sizes_bitmap d in
  match r with
  | Err e => Some (d, Err e)
  | Ok bitmap =>
      let n := trailing_zeros bitmap in
      if n <? USIZE_BITS then
        page_size ← PowerOf2Usize_new (2 ^ Z.to_nat n);
        Some (d, Ok (f_size d, page_size, bitmap))
      else None
  end.

(** [for buf_chunk in buf.chunks_mut(MAX_READ_SIZE)]: the chunks read so far and
    what is left. *)
Fixpoint read_chunks (fuel : nat) (d : D) (addr : Z) (buf : list Z) :
    option (D * list Z * result unit E) :=
  match fuel with
  | O => None
  | S fuel =>
      match buf with
      | [] => Some (d, [], Ok ())
      | _ =>
          let chunk := take MAX_READ_SIZE buf in
          let rest := drop MAX_READ_SIZE buf in
          let '(d, chunk, r) := f_read d addr chunk in
          match r with
          | Err e => Some (d, chunk ++ rest, Err e)
          | Ok _ =>
              addr ← addr_add addr (length chunk);
              '(d, rest, r) ← read_chunks fuel d addr rest;
              Some (d, chunk ++ rest, r)
          end
      end
  end.

(** [chunks_mut] panics on a chunk size of zero. *)
Definition read_aligned (d : D) (addr : Z) (buf : list Z) : option (D * list Z * result unit E) :=
  if (MAX_READ_SIZE =? 0)%nat then None else read_chunks (S (length buf)) d addr buf.

Definition read (d : D) (start_addr : Z) (buf : list Z) : option (D * list Z * result unit E) :=
  let align_skip_len :=
    as_usize (Z.land start_addr (as_u32 (Z.of_nat READ_ALIGNMENT) - 1)) in
  if negb (align_skip_len =? 0)%nat then
    let prefix_count := Nat.min (READ_ALIGNMENT - align_skip_len) (length buf) in
    let '(d, tmp, r) :=
      f_read d (addr_and start_addr (Z.lnot (Z.of_nat READ_ALIGNMENT - 1)))
        (replicate PREFIX_BUF_LEN 0) in
    match r with
    | Err e => Some (d, buf, Err e)
    | Ok _ =>
        prefix ← slice_range tmp align_skip_len (align_skip_len + prefix_count);
        rest ← slice_range buf prefix_count (length buf);
        addr ← addr_add start_addr prefix_count;
        '(d, rest, r) ← read_aligned d addr rest;
        Some (d, prefix ++ rest, r)
    end
  else read_aligned d start_addr buf.

Definition erase (d : D) (start_addr : Z) (size : nat) : D * result unit E :=
  let '(d, r) := start_erase d start_addr size in
  match r with
  | Err e => (d, Err e)
  | Ok _ => complete_op (wait_for_notification d)
  end.

(** One chunk of [program]. *)
Definition program_chunk (d : D) (addr : Z) (chunk : list Z) : D * result unit E :=
  let '(d, r) := start_program d addr chunk in
  match r with
  | Err e => (d, Err e)
  | Ok _ => complete_op (wait_for_notification d)
  end.

(** The loop of [program], whose rounds each take at least a byte. *)
Fixpoint program_loop (fuel : nat) (d : D) (addr : Z) (data : list Z) :
    option (D * result unit E) :=
  match fuel with
  | O => None
  | S fuel =>
      match data with
      | [] => Some (d, Ok ())
      | _ =>
          let window_mask := as_u32 (Z.of_nat PROGRAM_WINDOW_SIZE - 1) in
          let n := Nat.min (length data)
                     (PROGRAM_WINDOW_SIZE - as_usize (Z.land addr window_mask)) in
          let chunk := take n data in
          let '(d, r) := program_chunk d addr chunk in
          match r with
          | Err e => Some (d, Err e)
          | Ok _ =>
              addr ← addr_add addr (length chunk);
              program_loop fuel d addr (drop n data)
          end
      end
  end.

Definition program (d : D) (start_addr : Z) (data : list Z) : option (D * result unit E) :=
  program_loop (S (length data)) d start_addr data.

(** [FlashRandomReader]. *)
Definition random_read (d : D) (start_addr : nat) (buf : list Z) :=
  read d (as_u32 (Z.of_nat start_addr)) buf.
End flash.

(** ** Flash memory *)

(** Programming only clears bits. *)
Definition and_at (addr : nat) (data mem : list Z) : list Z :=
  write_at addr (zip_with Z.land (take (length data) (drop addr mem)) data) mem.

(** What a healthy flash holds. *)
Class FlashMemory (D E : Type) `{FlashDriver D E} : Type := {
  contents : D → list Z;
  f_size_contents d : f_size d = length (contents d);
}.

(** A read of an aligned address, of at most [MAX_READ_SIZE] bytes and within
    the flash, returns the bytes there.  [driver.rs] asks for aligned lengths
    too; [read] passes the length of whatever is left of the caller's buffer, so
    the law is of a driver that takes any length. *)
Class FlashReadLaws (D E : Type) `{FlashMemory D E} : Type := {
  read_align : ∃ k, (READ_ALIGNMENT = 2 ^ k)%nat ∧ (READ_ALIGNMENT ≤ PREFIX_BUF_LEN)%nat;
  max_read_aligned : ∃ q, (MAX_READ_SIZE = q * READ_ALIGNMENT)%nat ∧ (PREFIX_BUF_LEN ≤ MAX_READ_SIZE)%nat;
  f_read_ok d (addr : nat) buf :
    (addr mod READ_ALIGNMENT = 0)%nat → (length buf ≤ MAX_READ_SIZE)%nat →
    (addr + length buf ≤ f_size d)%nat →
    f_read d (Z.of_nat addr) buf = (d, take (length buf) (drop addr (contents d)), Ok ());
}.

(** A program within the contract of [start_program] clears the bits the data
    clears: its address and its length are aligned to [PROGRAM_ALIGNMENT] and it
    stays within a program window.  A window is a whole number of alignment
    units. *)
Class FlashProgramLaws (D E : Type) `{FlashMemory D E} : Type := {
  window_pow2 : ∃ k, (PROGRAM_WINDOW_SIZE = 2 ^ k)%nat ∧ (k < 32)%nat;
  window_aligned : (PROGRAM_ALIGNMENT | PROGRAM_WINDOW_SIZE)%nat;
  program_ok d (addr : nat) data :
    data ≠ [] → (PROGRAM_ALIGNMENT | addr)%nat → (PROGRAM_ALIGNMENT | length data)%nat →
    (addr mod PROGRAM_WINDOW_SIZE + length data ≤ PROGRAM_WINDOW_SIZE)%nat →
    (addr + length data ≤ f_size d)%nat →
    ∃ d', program_chunk d (Z.of_nat addr) data = (d', Ok ()) ∧
      contents d' = and_at addr data (contents d);
}.

(** ** Masks and sums *)

Lemma pow2_Z (k : nat) : Z.of_nat (2 ^ k) = 2 ^ Z.of_nat k.
Proof. by rewrite Nat2Z.inj_pow. Qed.

(** [offset & (align - 1)]. *)
Lemma land_mask (n k : nat) :
  Z.land (Z.of_nat n) (Z.of_nat (2 ^ k) - 1) = Z.of_nat (n mod 2 ^ k).
Proof.
  rewrite Nat2Z.inj_mod, pow2_Z. rewrite Z.sub_1_r, <- Z.ones_equiv. apply Z.land_ones. lia.
Qed.

(** [addr & !(align - 1)]. *)
Lemma align_down (n k : nat) :
  Z.of_nat n ≤ u32_MAX →
  addr_and (Z.of_nat n) (Z.lnot (Z.of_nat (2 ^ k) - 1)) = Z.of_nat (n - n mod 2 ^ k).
Proof.
  unfold u32_MAX, addr_and, as_u32. intros Hn. change 4294967296 with (2 ^ 32).
  rewrite <- Z.land_ones by lia. rewrite (Z.land_comm (Z.lnot _)), Z.land_assoc.
  rewrite (Z.land_ones (Z.of_nat n)), Z.mod_small by lia.
  rewrite pow2_Z, Z.sub_1_r, <- Z.ones_equiv. rewrite <- Z.ldiff_land.
  rewrite Z.ldiff_ones_r, Z.shiftr_div_pow2, Z.shiftl_mul_pow2 by lia.
  rewrite <- pow2_Z, <- Nat2Z.inj_div, <- Nat2Z.inj_mul. f_equal.
  pose proof (Nat.div_mod_eq n (2 ^ k)). lia.
Qed.

Lemma addr_add_nat (a n : nat) :
  Z.of_nat (a + n) ≤ u32_MAX → addr_add (Z.of_nat a) n = Some (Z.of_nat (a + n)).
Proof.
  unfold u32_MAX. intros Hs. unfold addr_add. rewrite as_u32_small by (unfold in_u32, u32_MAX; lia).
  rewrite (proj2 (Z.leb_le _ _)) by (unfold u32_MAX; lia). f_equal. lia.
Qed.

(** ** Programming in pieces *)

Lemma length_and_at addr data mem :
  (addr + length data ≤ length mem)%nat → length (and_at addr data mem) = length mem.
Proof.
  intros Hl. unfold and_at. apply length_write_at.
  rewrite length_zip_with, length_take, length_drop. lia.
Qed.

Lemma lookup_and_at addr data mem i :
  (addr + length data ≤ length mem)%nat →
  and_at addr data mem !! i =
    if decide (addr ≤ i < addr + length data)%nat
    then m ← mem !! i; b ← data !! (i - addr)%nat; Some (Z.land m b)
    else mem !! i.
Proof.
  intros Hl. unfold and_at, write_at.
  set (z := zip_with Z.land _ data).
  assert (length z = length data) as Hz
    by (unfold z; rewrite length_zip_with, length_take, length_drop; lia).
  case_decide as Hi.
  - rewrite lookup_app_r by (rewrite length_take; lia). rewrite length_take, Nat.min_l by lia.
    rewrite lookup_app_l by lia. unfold z. rewrite lookup_zip_with.
    rewrite lookup_take_lt by lia. rewrite lookup_drop.
    by replace (addr + (i - addr))%nat with i by lia.
  - destruct (decide (i < addr)%nat).
    + rewrite lookup_app_l by (rewrite length_take; lia). by rewrite lookup_take_lt by lia.
    + rewrite lookup_app_r by (rewrite length_take; lia). rewrite length_take, Nat.min_l by lia.
      rewrite lookup_app_r by lia. rewrite lookup_drop. f_equal. lia.
Qed.

Lemma and_at_split addr n data mem :
  (n ≤ length data)%nat → (addr + length data ≤ length mem)%nat →
  and_at (addr + n) (drop n data) (and_at addr (take n data) mem) = and_at addr data mem.
Proof.
  intros Hn Hl. assert (length (take n data) = n) as Ht by (rewrite length_take; lia).
  apply list_eq. intros i.
  rewrite lookup_and_at by (rewrite length_and_at, length_drop; lia).
  rewrite !lookup_and_at by lia. rewrite length_drop, Ht.
  destruct (decide (addr + n ≤ i < addr + n + (length data - n))%nat).
  - rewrite (decide_False (P := (addr ≤ i < addr + n)%nat)) by lia.
    rewrite decide_True by lia. rewrite lookup_drop.
    by replace (n + (i - (addr + n)))%nat with (i - addr)%nat by lia.
  - destruct (decide (addr ≤ i < addr + n)%nat).
    + rewrite decide_True by lia. by rewrite lookup_take_lt by lia.
    + by rewrite decide_False by lia.
Qed.

Lemma and_at_nil addr mem : (addr ≤ length mem)%nat → and_at addr [] mem = mem.
Proof. intros Ha. unfold and_at. simpl. by apply write_at_nil. Qed.

(** ** Reads of any range *)

Section reads.
Context {D E : Type} `{FlashReadLaws D E}.
Implicit Types d : D.

Lemma aligned_next (a m : nat) :
  (a mod READ_ALIGNMENT = 0)%nat → (m mod READ_ALIGNMENT = 0)%nat →
  ((a + m) mod READ_ALIGNMENT = 0)%nat.
Proof.
  destruct read_align as (k & Hk & _). rewrite Hk. intros Ha Hm.
  rewrite Nat.Div0.add_mod, Ha, Hm. apply Nat.Div0.mod_0_l.
Qed.

Lemma max_read_mod : (MAX_READ_SIZE mod READ_ALIGNMENT = 0)%nat.
Proof. destruct max_read_aligned as (q & -> & _). apply Nat.Div0.mod_mul. Qed.

Lemma read_chunks_spec fuel d (addr : nat) buf :
  Z.of_nat (f_size d) ≤ u32_MAX → (length buf < fuel)%nat → (buf = [] ∨ addr mod READ_ALIGNMENT = 0)%nat →
  (addr + length buf ≤ f_size d)%nat →
  read_chunks fuel d (Z.of_nat addr) buf =
    Some (d, take (length buf) (drop addr (contents d)), Ok ()).
Proof.
  destruct max_read_aligned as (_ & _ & Hmax). unfold PREFIX_BUF_LEN in Hmax.
  pose proof (f_size_contents d) as Hsz. intros Hu.
  revert addr buf. induction fuel as [|fuel IH]; intros addr buf Hf Ha Hin; [lia|].
  destruct buf as [|b buf]; [done|]. set (l := b :: buf) in *.
  destruct Ha as [Ha|Ha]; [done|].
  replace (read_chunks (S fuel) d (Z.of_nat addr) l) with
    (let '(d, chunk, r) := f_read d (Z.of_nat addr) (take MAX_READ_SIZE l) in
     match r with
     | Err e => Some (d, chunk ++ drop MAX_READ_SIZE l, Err e)
     | Ok _ =>
         addr ← addr_add (Z.of_nat addr) (length chunk);
         '(d, rest, r) ← read_chunks fuel d addr (drop MAX_READ_SIZE l);
         Some (d, chunk ++ rest, r)
     end) by done.
  assert (length l = S (length buf)) as Hl by done.
  rewrite f_read_ok by (done || rewrite ?length_take; lia).
  set (n := Nat.min MAX_READ_SIZE (length l)).
  rewrite (length_take l MAX_READ_SIZE). fold n.
  rewrite length_take, length_drop, Nat.min_l by lia.
  rewrite addr_add_nat by lia. cbn [mbind option_bind].
  rewrite IH; [..|rewrite length_drop; lia].
  - cbn [mbind option_bind]. rewrite length_drop. do 3 f_equal.
    rewrite <- drop_drop, take_take_drop. f_equal. lia.
  - rewrite length_drop. lia.
  - destruct (decide (length l ≤ MAX_READ_SIZE)%nat) as [Hle|Hgt].
    + left. by apply drop_ge.
    + right. apply aligned_next; [done|]. unfold n. rewrite Nat.min_l by lia. apply max_read_mod.
Qed.

Lemma read_aligned_spec d (addr : nat) buf :
  Z.of_nat (f_size d) ≤ u32_MAX →
  (buf = [] ∨ addr mod READ_ALIGNMENT = 0)%nat → (addr + length buf ≤ f_size d)%nat →
  read_aligned d (Z.of_nat addr) buf = Some (d, take (length buf) (drop addr (contents d)), Ok ()).
Proof.
  intros Hu Ha Hin. destruct max_read_aligned as (_ & _ & Hmax). unfold PREFIX_BUF_LEN in Hmax.
  unfold read_aligned. rewrite (proj2 (Nat.eqb_neq _ _)) by lia. by apply read_chunks_spec; [|lia|..].
Qed.

(** The offset of an address in its alignment unit, and the start of the unit. *)
Lemma skip_len (start : nat) :
  as_usize (Z.land (Z.of_nat start) (as_u32 (Z.of_nat READ_ALIGNMENT) - 1)) =
    (start mod READ_ALIGNMENT)%nat.
Proof.
  destruct read_align as (k & Hk & Hle). unfold PREFIX_BUF_LEN in Hle.
  rewrite as_u32_small by (unfold in_u32, u32_MAX; lia).
  rewrite Hk, land_mask. apply as_usize_of_nat.
Qed.

(** A read of any range returns exactly the bytes of the flash, whatever the
    alignment and the read-size limit, provided the 16-byte prefix read of an
    unaligned start does not run past the end of the flash. *)
Theorem flash_read_is_slice d (start : nat) buf :
  Z.of_nat (f_size d) ≤ u32_MAX →
  (start + length buf ≤ f_size d)%nat →
  (start mod READ_ALIGNMENT = 0 ∨ start - start mod READ_ALIGNMENT + PREFIX_BUF_LEN ≤ f_size d)%nat →
  read d (Z.of_nat start) buf = Some (d, take (length buf) (drop start (contents d)), Ok ()).
Proof.
  intros Hu Hin Hpre. destruct read_align as (k & Hk & Hle).
  destruct max_read_aligned as (_ & _ & Hmax).
  pose proof (f_size_contents d) as Hsz.
  unfold read. rewrite skip_len. set (skip := (start mod READ_ALIGNMENT)%nat) in *.
  assert (skip < READ_ALIGNMENT)%nat as Hskip.
  { apply Nat.mod_upper_bound. rewrite Hk. apply Nat.pow_nonzero. lia. }
  pose proof (Nat.Div0.mod_le start READ_ALIGNMENT) as Hsl. fold skip in Hsl.
  destruct (Nat.eqb_spec skip 0) as [Hs|Hs]; cbn [negb].
  { apply read_aligned_spec; [done|by right|done]. }
  destruct Hpre as [|Hpre]; [done|].
  assert (addr_and (Z.of_nat start) (Z.lnot (Z.of_nat READ_ALIGNMENT - 1)) =
    Z.of_nat (start - skip)) as ->.
  { unfold skip. rewrite Hk. apply align_down. lia. }
  assert ((start - skip) mod READ_ALIGNMENT = 0)%nat as Hal.
  { unfold skip. pose proof (Nat.div_mod_eq start READ_ALIGNMENT) as Hdm.
    replace (start - start mod READ_ALIGNMENT)%nat with (start / READ_ALIGNMENT * READ_ALIGNMENT)%nat
      by lia. apply Nat.Div0.mod_mul. }
  rewrite f_read_ok by (done || rewrite length_replicate; lia).
  rewrite length_replicate. set (n := Nat.min (READ_ALIGNMENT - skip) (length buf)).
  assert (n ≤ length buf ∧ n ≤ READ_ALIGNMENT - skip)%nat as [Hnb Hna] by lia.
  rewrite slice_range_Some by (rewrite ?length_take, ?length_drop; lia). cbn [mbind option_bind].
  rewrite slice_range_Some by (rewrite ?length_take, ?length_drop; lia). cbn [mbind option_bind].
  rewrite addr_add_nat by lia. cbn [mbind option_bind].
  rewrite (take_ge (drop n buf)) by (rewrite length_drop; lia).
  rewrite read_aligned_spec; [|done| |rewrite length_drop; lia].
  - cbn [mbind option_bind]. do 3 f_equal.
    replace (skip + n - skip)%nat with n by lia.
    rewrite skipn_firstn_comm, drop_drop, take_take, Nat.min_l by lia.
    replace (start - skip + skip)%nat with start by lia.
    rewrite length_drop, <- drop_drop, take_take_drop. f_equal. lia.
  - destruct (decide (length buf ≤ READ_ALIGNMENT - skip)%nat).
    + left. apply drop_ge. lia.
    + right. unfold n. rewrite Nat.min_l by lia.
      replace (start + (READ_ALIGNMENT - skip))%nat with (start - skip + READ_ALIGNMENT)%nat by lia.
      apply aligned_next; [done|]. apply Nat.Div0.mod_same.
Qed.

(** Over a driver that refuses reads past its end, an unaligned read in the
    last bytes of the flash fails although its range is in the flash: the driver
    is asked for 16 bytes from the aligned address. *)
Theorem unaligned_read_near_end_fails d (start : nat) buf :
  Z.of_nat (f_size d) ≤ u32_MAX →
  (∀ (addr : nat) b, (f_size d < addr + length b)%nat → ∃ e, (f_read d (Z.of_nat addr) b).2 = Err e) →
  (start + length buf ≤ f_size d)%nat → (start mod READ_ALIGNMENT ≠ 0)%nat →
  (f_size d < start - start mod READ_ALIGNMENT + PREFIX_BUF_LEN)%nat →
  ∃ d' e, read d (Z.of_nat start) buf = Some (d', buf, Err e).
Proof.
  intros Hu Hend Hin Hs Hpast. pose proof (f_size_contents d) as Hsz.
  destruct (Hend (start - start mod READ_ALIGNMENT)%nat (replicate PREFIX_BUF_LEN 0)) as [e He].
  { by rewrite length_replicate. }
  destruct read_align as (k & Hk & _). unfold read. rewrite skip_len.
  rewrite (proj2 (Nat.eqb_neq _ _) Hs). cbn [negb].
  assert (addr_and (Z.of_nat start) (Z.lnot (Z.of_nat READ_ALIGNMENT - 1)) =
    Z.of_nat (start - start mod READ_ALIGNMENT)) as ->.
  { rewrite Hk. apply align_down. lia. }
  destruct (f_read _ _ _) as [[d' tmp] r]. simpl in He. subst r. by eexists _, _.
Qed.
End reads.

(** ** Programs of any aligned range *)

Section programs.
Context {D E : Type} `{FlashProgramLaws D E}.
Implicit Types d : D.

(** A piece that ends at the data's end or at the window's is aligned. *)
Lemma piece_aligned (addr len : nat) :
  (PROGRAM_ALIGNMENT | addr)%nat → (PROGRAM_ALIGNMENT | len)%nat →
  (PROGRAM_ALIGNMENT | Nat.min len (PROGRAM_WINDOW_SIZE - addr mod PROGRAM_WINDOW_SIZE))%nat.
Proof.
  intros Ha Hl. pose proof window_aligned as Hw.
  destruct (Nat.min_dec len (PROGRAM_WINDOW_SIZE - addr mod PROGRAM_WINDOW_SIZE)) as [-> | ->]; [done|].
  apply Nat.divide_sub_r; [done|]. rewrite Nat.Div0.mod_eq.
  apply Nat.divide_sub_r; [done|]. by apply Nat.divide_mul_l.
Qed.

Lemma program_loop_spec fuel d (addr : nat) data :
  Z.of_nat (f_size d) ≤ u32_MAX →
  (length data < fuel)%nat → (PROGRAM_ALIGNMENT | addr)%nat → (PROGRAM_ALIGNMENT | length data)%nat →
  (addr + length data ≤ f_size d)%nat →
  ∃ d', program_loop fuel d (Z.of_nat addr) data = Some (d', Ok ()) ∧
    contents d' = and_at addr data (contents d).
Proof.
  destruct window_pow2 as (k & Hk & Hk32).
  revert d addr data. induction fuel as [|fuel IH]; intros d addr data Hu Hf Hal Hall Hin; [lia|].
  pose proof (f_size_contents d) as Hsz.
  destruct data as [|b data].
  { exists d. split; [done|]. symmetry. apply and_at_nil. simpl in Hin. lia. }
  set (l := b :: data) in *. assert (length l = S (length data)) as Hl by done.
  assert (as_usize (Z.land (Z.of_nat addr) (as_u32 (Z.of_nat PROGRAM_WINDOW_SIZE - 1))) =
    (addr mod PROGRAM_WINDOW_SIZE)%nat) as Hoff.
  { assert (0 < Z.of_nat PROGRAM_WINDOW_SIZE ≤ 2 ^ 31) as Hw.
    { rewrite Hk, pow2_Z. split; [apply Z.pow_pos_nonneg; lia|apply Z.pow_le_mono_r; lia]. }
    rewrite as_u32_small by (unfold in_u32, u32_MAX; lia).
    rewrite Hk, land_mask. apply as_usize_of_nat. }
  assert (addr mod PROGRAM_WINDOW_SIZE < PROGRAM_WINDOW_SIZE)%nat as Hlt.
  { apply Nat.mod_upper_bound. rewrite Hk. apply Nat.pow_nonzero. lia. }
  set (n := Nat.min (length l) (PROGRAM_WINDOW_SIZE - addr mod PROGRAM_WINDOW_SIZE)).
  assert (length (take n l) = n) as Ht by (rewrite length_take; lia).
  assert (PROGRAM_ALIGNMENT | n)%nat as Hn by (by apply piece_aligned).
  destruct (program_ok d addr (take n l)) as (d1 & Hd1 & Hc1); [|done|by rewrite Ht|lia|lia|].
  { intros Hnil%(f_equal length). rewrite Ht in Hnil. simpl in Hnil. lia. }
  assert (length (contents d1) = length (contents d)) as Hlc
    by (rewrite Hc1; apply length_and_at; lia).
  destruct (IH d1 (addr + n)%nat (drop n l)) as (d2 & Hd2 & Hc2).
  { rewrite f_size_contents. lia. }
  { rewrite length_drop. lia. }
  { by apply Nat.divide_add_r. }
  { rewrite length_drop. by apply Nat.divide_sub_r. }
  { rewrite length_drop, f_size_contents. lia. }
  exists d2. split.
  - cbn [program_loop]. fold l. cbn zeta. rewrite Hoff. fold n. rewrite Hd1, Ht.
    rewrite addr_add_nat by lia. exact Hd2.
  - rewrite Hc2, Hc1. apply and_at_split; lia.
Qed.

(** C37: Over a driver that programs within the contract of [driver.rs] (aligned to
    [PROGRAM_ALIGNMENT] in address and length, within one program window), each
    such program clearing the bits its data clears, as the driver of the tests does:
    programming a range whose start and length are aligned is split into pieces
    that each keep the driver's contract and together clear exactly the bits the
    data clears: the flash afterwards is the old one with the data and-ed in, as
    if written at once, and every other byte is as it was. *)
Theorem flash_program_is_and d (start : nat) data :
  Z.of_nat (f_size d) ≤ u32_MAX →
  (PROGRAM_ALIGNMENT | start)%nat → (PROGRAM_ALIGNMENT | length data)%nat →
  (start + length data ≤ f_size d)%nat →
  ∃ d', program d (Z.of_nat start) data = Some (d', Ok ()) ∧
    contents d' = and_at start data (contents d).
Proof. intros Hu Ha Hl Hin. apply program_loop_spec; [done|lia|done..]. Qed.
End programs.

(** ** A memory-backed flash, and witnesses *)

(** A window of 16, programs aligned to 2, reads of at most 32 bytes aligned
    to 4; a program outside the contract is refused. *)
#[local] Instance ram_flash : FlashDriver (list Z) unit := {
  PAGE_SIZE := 64;
  PROGRAM_WINDOW_SIZE := 16;
  MAX_READ_SIZE := 32;
  READ_ALIGNMENT := 4;
  PROGRAM_ALIGNMENT := 2;
  f_size := length;
  erasable_sizes_bitmap d := (d, Ok 64);
  f_read d addr buf :=
    if (as_usize addr + length buf <=? length d)%nat
    then (d, take (length buf) (drop (as_usize addr) d), Ok ()) else (d, buf, Err ());
  start_erase d addr size := (write_at (as_usize addr) (replicate size 255) d, Ok ());
  start_program d addr data :=
    if bool_decide (2 | as_usize addr)%nat && bool_decide (2 | length data)%nat &&
       (as_usize addr mod 16 + length data <=? 16)%nat
    then (and_at (as_usize addr) data d, Ok ()) else (d, Err ());
  complete_op d := (d, Ok ());
  wait_for_notification d := d;
}.

#[local] Instance ram_memory : FlashMemory (list Z) unit.
Proof. by refine {| contents := λ d : list Z, d |}. Defined.

#[local] Instance ram_read_laws : FlashReadLaws (list Z) unit.
Proof.
  split.
  - exists 2%nat. split; [done|]. unfold PREFIX_BUF_LEN. simpl. lia.
  - exists 8%nat. split; [done|]. unfold PREFIX_BUF_LEN. simpl. lia.
  - intros d addr buf _ _ Hin. simpl in *. rewrite as_usize_of_nat.
    by rewrite (proj2 (Nat.leb_le _ _) Hin).
Qed.

#[local] Instance ram_program_laws : FlashProgramLaws (list Z) unit.
Proof.
  split.
  - exists 4%nat. split; [done|lia].
  - by exists 8%nat.
  - intros d addr data _ Ha Hl Hw _. exists (and_at addr data d). split; [|done].
    unfold program_chunk. cbn. rewrite as_usize_of_nat.
    rewrite !bool_decide_true by done. cbn in Hw. by rewrite (proj2 (Nat.leb_le _ _) Hw).
Qed.

(** 64 bytes counting up. *)
Definition ramp : list Z := Z.of_nat <$> seq 0 64.

Lemma flash_read_is_slice_witness :
  read ramp 5 (replicate 40 0) = Some (ramp, Z.of_nat <$> seq 5 40, Ok ()).
Proof.
  refine (flash_read_is_slice (E := unit) ramp 5 (replicate 40 0) _ _ _).
  - unfold u32_MAX. simpl. lia.
  - simpl. lia.
  - right. unfold PREFIX_BUF_LEN. simpl. lia.
Defined.

Lemma flash_program_is_and_witness :
  ∃ d', program (replicate 64 255) 12 [1; 2; 3; 4; 5; 6] = Some (d', Ok ()) ∧
    d' = and_at 12 [1; 2; 3; 4; 5; 6] (replicate 64 255).
Proof.
  refine (flash_program_is_and (E := unit) (replicate 64 255) 12 [1; 2; 3; 4; 5; 6] _ _ _ _).
  - unfold u32_MAX. simpl. lia.
  - by exists 6%nat.
  - by exists 3%nat.
  - simpl. lia.
Defined.

(** An odd address goes to the driver as it is, and such a driver refuses it. *)
Example unaligned_program_refused :
  program (replicate 64 255) 13 [1; 2] = Some (replicate 64 255, Err ()).
Proof. vm_compute. reflexivity. Qed.

(** The last byte of the flash cannot be read by its own address. *)
Lemma unaligned_read_near_end_fails_witness :
  ∃ d' e, read ramp 63 [0] = Some (d', [0], Err e).
Proof.
  refine (unaligned_read_near_end_fails (E := unit) ramp 63 [0] _ _ _ _ _).
  - unfold u32_MAX. simpl. lia.
  - intros addr b Hpast. exists (). simpl in *. rewrite as_usize_of_nat.
    by rewrite (proj2 (Nat.leb_gt _ _) Hpast).
  - simpl. lia.
  - done.
  - unfold PREFIX_BUF_LEN. simpl. lia.
Defined.
