(* ===== verification/RegMonad.v ===== *)
(** * Drivers over hardware registers

    A driver call threads the hardware, may stop early with an error ([?]) and
    may panic: [drv R E A] over hardware [R], errors [E].  [dwp] is its weakest
    precondition for total correctness: the call does not panic, and the
    postcondition holds of its result and of the hardware it leaves. *)

From S2P Require Import Prelude.
From stdpp Require Import base tactics option list.

Definition drv (R E A : Type) : Type := R → option (R * result A E).

#[export] Instance drv_ret R E : MRet (drv R E) := λ A a r, Some (r, Ok a).
#[export] Instance drv_bind R E : MBind (drv R E) := λ A B f m r,
  match m r with
  | Some (r', Ok a) => f a r'
  | Some (r', Err e) => Some (r', Err e)
  | None => None
  end.

Section ops.
Context {R E : Type}.

(** [return Err(e)]. *)
Definition raise {A} (e : E) : drv R E A := λ r, Some (r, Err e).

(** A value of the hardware, and a change of it. *)
Definition reads {A} (f : R → A) : drv R E A := λ r, Some (r, Ok (f r)).
Definition writes (f : R → R) : drv R E unit := λ r, Some (f r, Ok ()).

(** [if !b { return Err(e) }]. *)
Definition require (b : bool) (e : E) : drv R E unit := if b then mret () else raise e.

(** An access that panics unless [b]. *)
Definition guarded {A} (b : bool) (m : drv R E A) : drv R E A := λ r, if b then m r else None.

(** [r?]. *)
Definition lift {A} (a : result A E) : drv R E A := λ r, Some (r, a).

(** The result of a call, as a value: no early return. *)
Definition attempt {A} (m : drv R E A) : drv R E (result A E) := λ r,
  match m r with Some (r', a) => Some (r', Ok a) | None => None end.

(** [for x in l { f(x)? }]. *)
Fixpoint drv_for {A} (l : list A) (f : A → drv R E unit) : drv R E unit :=
  match l with
  | [] => mret ()
  | x :: l' => f x ;; drv_for l' f
  end.

(** ** Weakest preconditions *)

Definition dwp {A} (m : drv R E A) (Q : result A E → R → Prop) (r : R) : Prop :=
  match m r with Some (r', a) => Q a r' | None => False end.

Lemma dwp_ret {A} (a : A) Q r : Q (Ok a) r → dwp (mret a) Q r.
Proof. done. Qed.

Lemma dwp_bind {A B} (m : drv R E A) (f : A → drv R E B) Q r :
  dwp m (λ a r', match a with Ok a => dwp (f a) Q r' | Err e => Q (Err e) r' end) r →
  dwp (m ≫= f) Q r.
Proof. unfold dwp, mbind, drv_bind. by destruct (m r) as [[r' [a|e]]|]. Qed.

Lemma dwp_raise {A} (e : E) (Q : result A E → R → Prop) r : Q (Err e) r → dwp (raise e) Q r.
Proof. done. Qed.

Lemma dwp_reads {A} (f : R → A) Q r : Q (Ok (f r)) r → dwp (reads f) Q r.
Proof. done. Qed.

Lemma dwp_writes (f : R → R) Q r : Q (Ok ()) (f r) → dwp (writes f) Q r.
Proof. done. Qed.

Lemma dwp_lift {A} (a : result A E) Q r : Q a r → dwp (lift a) Q r.
Proof. done. Qed.

Lemma dwp_attempt {A} (m : drv R E A) Q r : dwp m (λ a, Q (Ok a)) r → dwp (attempt m) Q r.
Proof. unfold dwp, attempt. by destruct (m r) as [[r' a]|]. Qed.

Lemma dwp_require b (e : E) Q r :
  (b = true → Q (Ok ()) r) → (b = false → Q (Err e) r) → dwp (require b e) Q r.
Proof. destruct b; intros Ht Hf; [by apply Ht|by apply Hf]. Qed.

Lemma dwp_require_true (e : E) Q r : Q (Ok ()) r → dwp (require true e) Q r.
Proof. done. Qed.

Lemma dwp_guarded {A} b (m : drv R E A) Q r : b = true → dwp m Q r → dwp (guarded b m) Q r.
Proof. by intros ->. Qed.

Lemma dwp_mono {A} (m : drv R E A) (P Q : result A E → R → Prop) r :
  dwp m P r → (∀ a r', P a r' → Q a r') → dwp m Q r.
Proof. unfold dwp. destruct (m r) as [[r' a]|]; auto. Qed.

Lemma dwp_run {A} (m : drv R E A) Q r :
  dwp m Q r → ∃ r' a, m r = Some (r', a) ∧ Q a r'.
Proof. unfold dwp. destruct (m r) as [[r' a]|]; [eauto|done]. Qed.

Lemma dwp_intro {A} (m : drv R E A) (Q : result A E → R → Prop) r r' a :
  m r = Some (r', a) → Q a r' → dwp m Q r.
Proof. unfold dwp. by intros ->. Qed.

(** A prefix of three calls run on its own. *)
Lemma dwp_seq3 {B} (m1 m2 m3 : drv R E unit) (m4 : drv R E B) Q r r' :
  (m1;; m2;; m3) r = Some (r', Ok ()) → dwp m4 Q r' → dwp (m1;; m2;; m3;; m4) Q r.
Proof.
  unfold dwp, mbind, drv_bind. destruct (m1 r) as [[r1 [[]|]]|]; [|done..].
  destruct (m2 r1) as [[r2 [[]|]]|]; [|done..]. by intros ->.
Qed.

Lemma dwp_seq3_then {B} (m1 m2 m3 : drv R E unit) (m4 : drv R E B) Q r :
  dwp (m1;; m2;; m3) (λ a r', match a with Ok _ => dwp m4 Q r' | Err e => Q (Err e) r' end) r →
  dwp (m1;; m2;; m3;; m4) Q r.
Proof.
  unfold dwp, mbind, drv_bind. destruct (m1 r) as [[r1 [[]|]]|]; [|done..].
  destruct (m2 r1) as [[r2 [[]|]]|]; [|done..]. by destruct (m3 r2) as [[r3 [[]|]]|].
Qed.

(** Loop rule: [I] of the elements done and the hardware; an iteration that
    fails establishes the postcondition on its own. *)
Lemma dwp_for {A} (I : list A → R → Prop) (l : list A) (f : A → drv R E unit) Q r :
  I [] r →
  (∀ done x rest r', l = done ++ x :: rest → I done r' →
     dwp (f x) (λ a r'', match a with Ok _ => I (done ++ [x]) r'' | Err e => Q (Err e) r'' end) r') →
  (∀ r', I l r' → Q (Ok ()) r') →
  dwp (drv_for l f) Q r.
Proof.
  intros H0 Hstep Hend.
  cut (∀ todo done r', l = done ++ todo → I done r' → dwp (drv_for todo f) Q r').
  { intros H. by apply (H l []). }
  induction todo as [|x todo IH]; intros d r' Hl HI; simpl.
  - apply dwp_ret, Hend. by rewrite Hl, app_nil_r.
  - apply dwp_bind. eapply dwp_mono; [by apply (Hstep d x todo)|].
    intros [[]|e] r'' HP; [|done]. apply (IH (d ++ [x])); [|done]. by rewrite Hl, <- app_assoc.
Qed.
End ops.

(** In a loop over [0..n] every index is below [n]. *)
Lemma seq_split_lt n d x rest : seq 0 n = d ++ x :: rest → (x < n)%nat.
Proof.
  intros Hs. apply (elem_of_seq 0 n x). rewrite Hs. apply elem_of_app. right. left.
Qed.

Ltac dwp_step :=
  lazymatch goal with
  | |- dwp (mbind _ _) _ _ => apply dwp_bind
  | |- dwp (mret _) _ _ => apply dwp_ret
  | |- dwp (raise _) _ _ => apply dwp_raise
  | |- dwp (reads _) _ _ => apply dwp_reads
  | |- dwp (writes _) _ _ => apply dwp_writes
  | |- dwp (lift _) _ _ => apply dwp_lift
  end; cbn beta iota delta [ok_or].
Ltac dwp_steps := repeat dwp_step.
