(* ===== verification/Spim.v ===== *)
(** * The SPI monitor

    [target/ast10x0/peripherals/spimonitor]: the filter between a host and its
    flash.  A command table lists the opcodes that pass, two bitmaps the 16 KiB
    blocks that may be read and written; once locked, neither changes until reset.

    The SPIPF register block, which a vendored crate describes, is the type class
    [Spipf]; a call is a [drv] over it, whose [None] is a panic. *)

From S2P Require Import Prelude Bytes RegMonad.
From stdpp Require Import base tactics option list numbers.
Local Open Scope Z_scope.

(** ** Types *)

Inductive PrivilegeDirection := Read | Write.
Inductive PrivilegeOp := Enable | Disable.
Inductive PassthroughMode := PassEnabled | PassMultiEnabled | PassDisabled.

#[export] Instance PrivilegeDirection_eq_dec : EqDecision PrivilegeDirection.
Proof. solve_decision. Defined.
#[export] Instance PrivilegeOp_eq_dec : EqDecision PrivilegeOp.
Proof. solve_decision. Defined.

Record RegionPolicy := mkRegion {
  rg_start : Z; rg_length : Z; rg_direction : PrivilegeDirection; rg_op : PrivilegeOp;
}.

Definition region_allow (start length : Z) (d : PrivilegeDirection) : RegionPolicy :=
  mkRegion start length d Enable.
Definition region_deny (start length : Z) (d : PrivilegeDirection) : RegionPolicy :=
  mkRegion start length d Disable.

Inductive ViolationLogEntry :=
| BlockedCommand (opcode : Z) | BlockedWriteAddr (addr : Z) | BlockedReadAddr (addr : Z)
| InvalidEntry (word : Z).

(** [ViolationLogEntry::parse]. *)
Definition parse_log (word : Z) : ViolationLogEntry :=
  let kind := Z.land (Z.shiftr word 18) 3 in
  if kind =? 0 then BlockedCommand (as_u8 (Z.land word 255))
  else if kind =? 1 then BlockedWriteAddr (as_u32 (Z.shiftl (Z.land word 262143) 14))
  else if kind =? 2 then BlockedReadAddr (as_u32 (Z.shiftl (Z.land word 262143) 14))
  else InvalidEntry word.

Inductive SpiMonitorError :=
| InvalidRegion | InvalidAddress | InvalidLength | InvalidSlot | InvalidLogBuffer
| UnsupportedCommand (opcode : Z) | NoCommandSlot | Locked | LockFailed | VerificationFailed
| InvalidTransition.

(** ** The command table *)

Record CommandDescriptor := mkCommand {
  cd_opcode : Z; cd_generic : bool; cd_write : bool; cd_read : bool; cd_memory : bool;
  cd_data_width : Z; cd_dummy_cycles : Z; cd_program_size : Z; cd_address_len : Z;
  cd_address_width : Z;
}.

Definition encode (c : CommandDescriptor) : Z :=
  Z.lor (Z.shiftl (Z.b2z (cd_generic c)) 29)
  (Z.lor (Z.shiftl (Z.b2z (cd_write c)) 28)
  (Z.lor (Z.shiftl (Z.b2z (cd_read c)) 27)
  (Z.lor (Z.shiftl (Z.b2z (cd_memory c)) 26)
  (Z.lor (as_u32 (Z.shiftl (cd_data_width c) 24))
  (Z.lor (as_u32 (Z.shiftl (cd_dummy_cycles c) 16))
  (Z.lor (as_u32 (Z.shiftl (cd_program_size c) 13))
  (Z.lor (as_u32 (Z.shiftl (cd_address_len c) 10))
  (Z.lor (as_u32 (Z.shiftl (cd_address_width c) 8)) (cd_opcode c))))))))).

Record CommandFlags := mkFlags {
  cf_generic : bool; cf_write : bool; cf_read : bool; cf_memory : bool;
}.

Definition GENERIC_READ_MEMORY := mkFlags true false true true.
Definition GENERIC_WRITE_MEMORY := mkFlags true true false true.
Definition GENERIC_NONE := mkFlags true false false false.
Definition GENERIC_READ := mkFlags true false true false.
Definition GENERIC_WRITE := mkFlags true true false false.
Definition RESERVED_NONE := mkFlags false false false false.
Definition RESERVED_WRITE := mkFlags false true false false.

Definition command (opcode : Z) (flags : CommandFlags) (data_width dummy_cycles program_size
    address_len address_width : Z) : CommandDescriptor :=
  {| cd_opcode := opcode; cd_generic := cf_generic flags; cd_write := cf_write flags;
     cd_read := cf_read flags; cd_memory := cf_memory flags; cd_data_width := data_width;
     cd_dummy_cycles := dummy_cycles; cd_program_size := program_size;
     cd_address_len := address_len; cd_address_width := address_width |}.

Definition descriptor (opcode : Z) : option CommandDescriptor :=
  let one_of l := existsb (Z.eqb opcode) l in
  if one_of [0x03] then Some (command opcode GENERIC_READ_MEMORY 1 0 0 3 1)
  else if one_of [0x13] then Some (command opcode GENERIC_READ_MEMORY 1 0 0 4 1)
  else if one_of [0x0b] then Some (command opcode GENERIC_READ_MEMORY 1 8 0 3 1)
  else if one_of [0x0c] then Some (command opcode GENERIC_READ_MEMORY 1 8 0 4 1)
  else if one_of [0x3b] then Some (command opcode GENERIC_READ_MEMORY 2 8 0 3 1)
  else if one_of [0x3c] then Some (command opcode GENERIC_READ_MEMORY 2 8 0 4 1)
  else if one_of [0xbb] then Some (command opcode GENERIC_READ_MEMORY 2 4 0 3 2)
  else if one_of [0xbc] then Some (command opcode GENERIC_READ_MEMORY 2 4 0 4 2)
  else if one_of [0x6b] then Some (command opcode GENERIC_READ_MEMORY 3 8 0 3 1)
  else if one_of [0x6c] then Some (command opcode GENERIC_READ_MEMORY 3 8 0 4 1)
  else if one_of [0xeb] then Some (command opcode GENERIC_READ_MEMORY 3 6 0 3 3)
  else if one_of [0xec] then Some (command opcode GENERIC_READ_MEMORY 3 6 0 4 3)
  else if one_of [0x02] then Some (command opcode GENERIC_WRITE_MEMORY 1 0 1 3 1)
  else if one_of [0x12] then Some (command opcode GENERIC_WRITE_MEMORY 1 0 1 4 1)
  else if one_of [0x32] then Some (command opcode GENERIC_WRITE_MEMORY 3 0 1 3 1)
  else if one_of [0x34] then Some (command opcode GENERIC_WRITE_MEMORY 3 0 1 4 1)
  else if one_of [0x20] then Some (command opcode GENERIC_WRITE_MEMORY 0 0 1 3 1)
  else if one_of [0x21] then Some (command opcode GENERIC_WRITE_MEMORY 0 0 1 4 1)
  else if one_of [0xd8] then Some (command opcode GENERIC_WRITE_MEMORY 0 0 5 3 1)
  else if one_of [0xdc] then Some (command opcode GENERIC_WRITE_MEMORY 0 0 5 4 1)
  else if one_of [0x06; 0x04; 0x50; 0x66; 0x99] then Some (command opcode GENERIC_NONE 0 0 0 0 0)
  else if one_of [0x05; 0x35; 0x15; 0x70; 0x9f] then Some (command opcode GENERIC_READ 1 0 0 0 0)
  else if one_of [0x01; 0x31] then Some (command opcode GENERIC_WRITE 1 0 0 0 0)
  else if one_of [0x5a] then Some (command opcode GENERIC_READ 1 8 0 3 1)
  else if one_of [0xb7; 0xe9] then Some (command opcode RESERVED_NONE 0 0 0 0 0)
  else if one_of [0xc5] then Some (command opcode RESERVED_WRITE 1 0 0 0 0)
  else if one_of [0xc2] then Some (command opcode GENERIC_WRITE 1 0 0 0 0)
  else None.

Definition VALID : Z := Z.shiftl 1 30.
Definition VALID_ONCE : Z := Z.shiftl 1 31.
Definition COMMAND_LOCKED : Z := Z.shiftl 1 23.

Definition table_value (opcode : Z) (valid_once : bool) : option Z :=
  entry ← descriptor opcode;
  Some (Z.lor (encode entry) (if valid_once then VALID_ONCE else VALID)).

Definition fixed_slot (opcode : Z) : option nat :=
  if opcode =? 0xb7 then Some 0%nat
  else if opcode =? 0xe9 then Some 1%nat
  else if opcode =? 0xc5 then Some 31%nat
  else None.

(** ** Policies *)

Definition MAX_REGION_SLOTS : nat := 16.
Definition MAX_CMD_SLOTS : nat := 32.

Record SpiMonitorPolicy := mkPolicy {
  allow_commands : list Z;
  allow_command_count : nat;
  regions : list (option RegionPolicy);
  region_count : nat;
}.

Definition policy_empty : SpiMonitorPolicy :=
  {| allow_commands := replicate MAX_CMD_SLOTS 0; allow_command_count := 0;
     regions := replicate MAX_REGION_SLOTS None; region_count := 0 |}.

Definition add_region (p : SpiMonitorPolicy) (start length : Z) (d : PrivilegeDirection)
    (op : PrivilegeOp) : option (SpiMonitorPolicy * bool) :=
  if (MAX_REGION_SLOTS <=? region_count p)%nat then Some (p, false)
  else
    rs ← index_set (regions p) (region_count p) (Some (mkRegion start length d op));
    Some (mkPolicy (allow_commands p) (allow_command_count p) rs (S (region_count p)), true).

(** [p.allow_commands[i] = opcode; ...; p.allow_command_count = n]. *)
Definition with_commands (opcodes : list Z) (p : SpiMonitorPolicy) : SpiMonitorPolicy :=
  mkPolicy (opcodes ++ drop (length opcodes) (allow_commands p)) (length opcodes) (regions p)
    (region_count p).

Definition runtime_read_only : SpiMonitorPolicy := with_commands [0x03; 0x0b; 0x9f] policy_empty.
Definition firmware_update_window : SpiMonitorPolicy :=
  with_commands [0x03; 0x0b; 0x9f; 0x06; 0x20; 0x02] runtime_read_only.
Definition zephyr_default : SpiMonitorPolicy :=
  with_commands
    [0x03; 0x13; 0x0b; 0x0c; 0x6b; 0x6c; 0x01; 0x05; 0x35; 0x06; 0x04; 0x20; 0x21; 0x9f; 0x5a;
     0xb7; 0xe9; 0x32; 0x34; 0xd8; 0xdc; 0x02; 0x12; 0x3b; 0x3c; 0x70; 0xbb; 0xbc; 0x50; 0xeb;
     0xec; 0xc2] policy_empty.

(** ** Registers *)

(** The SPIPF block: SPIPF000, 004, 010, 014 and 07C, the command table SPIPFWT,
    the address filter table SPIPFWA (a window on the bitmap that SPIPF000
    selects), the two log fields and the log memory. *)
Class Spipf (R : Type) : Type := {
  WT_COUNT : nat;
  WA_COUNT : nat;
  spipf000 : R → Z;            set_spipf000 : R → Z → R;
  spipf004 : R → Z;            set_spipf004 : R → Z → R;
  spipf010 : R → Z;            set_spipf010 : R → Z → R;
  set_spipf014 : R → Z → R;
  spipf07c : R → Z;            set_spipf07c : R → Z → R;
  spipfwt : R → nat → Z;       set_spipfwt : R → nat → Z → R;
  spipfwa : R → nat → Z;       set_spipfwa : R → nat → Z → R;
  block_log_dmawr_pointer : R → Z;
  size_of_block_log_dmabuffer : R → Z;
  log_ram : R → Z → nat → Z;
}.

Definition CTRL_SINGLE_PASSTHROUGH_BIT : Z := Z.shiftl 1 0.
Definition CTRL_MULTI_PASSTHROUGH_BIT : Z := Z.shiftl 1 1.
Definition CTRL_PASSTHROUGH_MASK : Z := Z.lor (Z.shiftl 1 0) (Z.shiftl 1 1).
Definition CTRL_MONITOR_ENABLE_BIT : Z := Z.shiftl 1 2.
Definition CTRL_SW_RESET_BIT : Z := Z.shiftl 1 15.
Definition CTRL_BLOCK_FIFO_LOCK : Z := Z.shiftl 1 22.
Definition CTRL_SW_RESET_LOCK : Z := Z.shiftl 1 23.
Definition CTRL2_VIOLATION_STATUS_MASK : Z := 7.
Definition CTRL2_VIOLATION_IRQ_ENABLE_MASK : Z := Z.shiftl 7 16.
Definition CTRL2_PUSH_PULL : Z := Z.shiftl 1 31.
Definition COMMAND_TABLE_SLOTS : nat := 32.
Definition FIRST_GENERAL_COMMAND_SLOT : nat := 2.
Definition LAST_GENERAL_COMMAND_SLOT_EXCLUSIVE : nat := 31.
Definition PRIVILEGE_TABLE_WORDS : nat := 512.
Definition PRIVILEGE_BLOCK_SIZE : Z := 16 * 1024.
Definition PRIVILEGE_ADDRESS_LIMIT : Z := 256 * 1024 * 1024.
Definition PRIVILEGE_READ_SELECT : Z := 0x52000000.
Definition PRIVILEGE_WRITE_SELECT : Z := 0x57000000.
Definition MAX_LOG_ENTRIES : nat := Z.to_nat 0x7ffff.
Definition LOG_DMA_ENABLE : Z := Z.shiftl 1 31.
Definition LOCK_CTRL : Z := Z.shiftl 1 0.
Definition LOCK_IRQ_CTRL : Z := Z.shiftl 1 1.
Definition LOCK_LOG_BASE : Z := Z.shiftl 1 4.
Definition LOCK_LOG_CTRL : Z := Z.shiftl 1 5.
Definition LOCK_WRITE_PRIVILEGE : Z := Z.shiftl 1 30.
Definition LOCK_READ_PRIVILEGE : Z := Z.shiftl 1 31.
Definition LOCK_STATUS_REQUIRED : Z :=
  Z.lor LOCK_CTRL (Z.lor LOCK_IRQ_CTRL (Z.lor LOCK_LOG_BASE (Z.lor LOCK_LOG_CTRL
    (Z.lor LOCK_WRITE_PRIVILEGE LOCK_READ_PRIVILEGE)))).

(** [!x] of a [u32]. *)
Definition not_u32 (x : Z) : Z := Z.lxor x u32_MAX.

Section monitor.
Context {R : Type} `{Spipf R}.

Definition mon (A : Type) : Type := drv R SpiMonitorError A.

Definition read_ctrl : mon Z := reads spipf000.
Definition write_ctrl (value : Z) : mon unit := writes (λ r, set_spipf000 r value).
Definition modify_ctrl (f : Z → Z) : mon unit := bits ← read_ctrl; write_ctrl (f bits).
Definition read_ctrl2 : mon Z := reads spipf004.
Definition write_ctrl2 (value : Z) : mon unit := writes (λ r, set_spipf004 r value).
Definition modify_ctrl2 (f : Z → Z) : mon unit := bits ← read_ctrl2; write_ctrl2 (f bits).
Definition read_lock_status : mon Z := reads spipf07c.
Definition write_lock_status (value : Z) : mon unit := writes (λ r, set_spipf07c r value).
Definition modify_lock_status (f : Z → Z) : mon unit :=
  bits ← read_lock_status; write_lock_status (f bits).

Definition read_allow_cmd_slot (index : nat) : mon Z :=
  guarded (index <? WT_COUNT)%nat (reads (λ r, spipfwt r index)).
Definition write_allow_cmd_slot (index : nat) (value : Z) : mon unit :=
  guarded (index <? WT_COUNT)%nat (writes (λ r, set_spipfwt r index value)).
Definition read_addr_filter_slot (index : nat) : mon Z :=
  guarded (index <? WA_COUNT)%nat (reads (λ r, spipfwa r index)).
Definition write_addr_filter_slot (index : nat) (value : Z) : mon unit :=
  guarded (index <? WA_COUNT)%nat (writes (λ r, set_spipfwa r index value)).
Definition read_addr_filter_slot_checked (index : nat) : mon (option Z) :=
  if (index <? WA_COUNT)%nat then reads (λ r, Some (spipfwa r index)) else mret None.
Definition write_addr_filter_slot_checked (index : nat) (value : Z) : mon bool :=
  if (index <? WA_COUNT)%nat
  then writes (λ r, set_spipfwa r index value);; mret true
  else mret false.

Definition write_log_config (base_addr entries : Z) : mon unit :=
  writes (λ r, set_spipf010 r (Z.land base_addr (not_u32 3)));;
  writes (λ r, set_spipf014 r (Z.lor LOG_DMA_ENABLE entries)).

(** ** Helpers of the controller *)

Definition select_privilege_table (d : PrivilegeDirection) : mon unit :=
  let selection :=
    match d with Read => PRIVILEGE_READ_SELECT | Write => PRIVILEGE_WRITE_SELECT end in
  modify_ctrl (λ bits, Z.lor (Z.land bits 0x00ffffff) selection).

Definition verify_command_slot (slot : nat) (expected : Z) : mon nat :=
  v ← read_allow_cmd_slot slot;
  require (v =? expected) VerificationFailed;;
  mret slot.

Definition initialize_privilege_table (d : PrivilegeDirection) : mon unit :=
  select_privilege_table d;;
  drv_for (seq 0 PRIVILEGE_TABLE_WORDS) (λ index, write_addr_filter_slot index u32_MAX);;
  v ← read_addr_filter_slot 0;
  require (v =? u32_MAX) VerificationFailed;;
  v ← read_addr_filter_slot (PRIVILEGE_TABLE_WORDS - 1);
  require (v =? u32_MAX) VerificationFailed.

Definition checked_add_u32 (a b : Z) : option Z :=
  if a + b <=? u32_MAX then Some (a + b) else None.

Definition validate_privilege_region (start length : Z) : result unit SpiMonitorError :=
  if PRIVILEGE_ADDRESS_LIMIT <=? start then Err InvalidAddress
  else if (length =? 0) || negb (bool_decide (is_Some (checked_add_u32 start length)))
  then Err InvalidLength
  else Ok ().

(** The [while] of [configure_privilege_region], whose rounds each advance
    [block]. *)
Fixpoint privilege_loop (fuel : nat) (op : PrivilegeOp) (block end_block : Z) : mon unit :=
  match fuel with
  | O => guarded false (mret ())
  | S fuel =>
      if negb (block <? end_block) then mret ()
      else
        let word_index := as_usize (block / 32) in
        let bit_index := block mod 32 in
        let remaining := end_block - block in
        let whole := (bit_index =? 0) && (32 <=? remaining) in
        updated ←
          (if whole then mret (match op with Enable => u32_MAX | Disable => 0 end)
           else
             value ← read_addr_filter_slot_checked word_index;
             value ← lift (ok_or value InvalidAddress);
             mret (match op with
                   | Enable => Z.lor value (Z.shiftl 1 bit_index)
                   | Disable => Z.land value (not_u32 (Z.shiftl 1 bit_index))
                   end));
        ok ← write_addr_filter_slot_checked word_index updated;
        require ok InvalidAddress;;
        v ← read_addr_filter_slot_checked word_index;
        require (bool_decide (v = Some updated)) VerificationFailed;;
        privilege_loop fuel op (block + if whole then 32 else 1) end_block
  end.

Definition configure_privilege_region (start length : Z) (d : PrivilegeDirection)
    (op : PrivilegeOp) : mon unit :=
  lift (validate_privilege_region start length);;
  e ← lift (ok_or (checked_add_u32 start length) InvalidLength);
  let e := Z.min e PRIVILEGE_ADDRESS_LIMIT in
  let aligned_start := start / PRIVILEGE_BLOCK_SIZE * PRIVILEGE_BLOCK_SIZE in
  aligned_end ← lift (ok_or (checked_add_u32 e (PRIVILEGE_BLOCK_SIZE - 1)) InvalidLength);
  let aligned_end := aligned_end / PRIVILEGE_BLOCK_SIZE * PRIVILEGE_BLOCK_SIZE in
  let block := aligned_start / PRIVILEGE_BLOCK_SIZE in
  let end_block := aligned_end / PRIVILEGE_BLOCK_SIZE in
  select_privilege_table d;;
  privilege_loop (S (as_usize (end_block - block))) op block end_block.

(** ** [SpiMonitor<Uninitialized>] *)

(** The first pass over the allowed commands: how many need a general slot. *)
Fixpoint count_general (opcodes : list Z) : result nat SpiMonitorError :=
  match opcodes with
  | [] => Ok 0%nat
  | opcode :: rest =>
      match table_value opcode false with
      | None => Err (UnsupportedCommand opcode)
      | Some _ =>
          match fixed_slot opcode with
          | None => map_ok S (count_general rest)
          | Some _ => count_general rest
          end
      end
  end.

(** The second pass: one slot per command. *)
Fixpoint program_commands (opcodes : list Z) (next_slot general_slot_limit : nat) : mon unit :=
  match opcodes with
  | [] => mret ()
  | opcode :: rest =>
      value ← lift (ok_or (table_value opcode false) (UnsupportedCommand opcode));
      '(slot, next_slot) ←
        match fixed_slot opcode with
        | Some slot => mret (slot, next_slot)
        | None =>
            require (next_slot <? general_slot_limit)%nat NoCommandSlot;;
            mret (next_slot, S next_slot)
        end;
      write_allow_cmd_slot slot value;;
      v ← read_allow_cmd_slot slot;
      require (v =? value) VerificationFailed;;
      program_commands rest next_slot general_slot_limit
  end.

Definition apply_policy (policy : SpiMonitorPolicy) : mon unit :=
  require (allow_command_count policy <=? length (allow_commands policy))%nat InvalidSlot;;
  require (region_count policy <=? MAX_REGION_SLOTS)%nat InvalidRegion;;
  lock ← read_lock_status;
  require (Z.land lock LOCK_STATUS_REQUIRED =? 0) Locked;;
  drv_for (seq 0 COMMAND_TABLE_SLOTS) (λ slot,
    v ← read_allow_cmd_slot slot; require (Z.land v COMMAND_LOCKED =? 0) Locked);;
  let opcodes := take (allow_command_count policy) (allow_commands policy) in
  let general_slot_limit :=
    if existsb (Z.eqb 0xc5) opcodes then LAST_GENERAL_COMMAND_SLOT_EXCLUSIVE
    else COMMAND_TABLE_SLOTS in
  general_command_count ← lift (count_general opcodes);
  require (general_command_count <=? general_slot_limit - FIRST_GENERAL_COMMAND_SLOT)%nat
    NoCommandSlot;;
  let rgs := take (region_count policy) (regions policy) in
  drv_for (omap id rgs) (λ region,
    lift (validate_privilege_region (rg_start region) (rg_length region)));;
  drv_for (seq 0 COMMAND_TABLE_SLOTS) (λ slot, write_allow_cmd_slot slot 0);;
  program_commands opcodes FIRST_GENERAL_COMMAND_SLOT general_slot_limit;;
  initialize_privilege_table Read;;
  initialize_privilege_table Write;;
  drv_for rgs (λ o,
    match o with
    | Some region =>
        configure_privilege_region (rg_start region) (rg_length region) (rg_direction region)
          (rg_op region)
    | None => mret ()
    end).

Definition software_reset : mon unit :=
  ctrl ← read_ctrl;
  let ctrl := Z.land ctrl (not_u32 CTRL_SW_RESET_BIT) in
  write_ctrl (Z.lor ctrl CTRL_SW_RESET_BIT);;
  write_ctrl ctrl.

(** ** [SpiMonitor<Configured>] *)

Definition reset_filter_state : mon unit := software_reset.

(** The search of [add_command] for an unlocked entry of the opcode. *)
Fixpoint find_unlocked (slots : list nat) (opcode : Z) : mon (option nat) :=
  match slots with
  | [] => mret None
  | slot :: rest =>
      current ← read_allow_cmd_slot slot;
      if (Z.land current 0xff =? opcode) && (Z.land current COMMAND_LOCKED =? 0)
      then mret (Some slot) else find_unlocked rest opcode
  end.

(** [(FIRST..SLOTS).find(|slot| read(slot) == 0)]. *)
Fixpoint find_empty (slots : list nat) : mon (option nat) :=
  match slots with
  | [] => mret None
  | slot :: rest =>
      current ← read_allow_cmd_slot slot;
      if current =? 0 then mret (Some slot) else find_empty rest
  end.

Definition add_command (opcode : Z) (valid_once : bool) : mon nat :=
  value ← lift (ok_or (table_value opcode valid_once) (UnsupportedCommand opcode));
  existing ← find_unlocked (seq 0 COMMAND_TABLE_SLOTS) opcode;
  match existing with
  | Some slot => write_allow_cmd_slot slot value;; verify_command_slot slot value
  | None =>
      slot ←
        match fixed_slot opcode with
        | Some slot =>
            current ← read_allow_cmd_slot slot;
            require (negb (negb (current =? 0) && negb (Z.land current 0xff =? opcode)))
              NoCommandSlot;;
            mret slot
        | None =>
            found ← find_empty (seq FIRST_GENERAL_COMMAND_SLOT
                                  (COMMAND_TABLE_SLOTS - FIRST_GENERAL_COMMAND_SLOT));
            lift (ok_or found NoCommandSlot)
        end;
      current ← read_allow_cmd_slot slot;
      require (Z.land current COMMAND_LOCKED =? 0) Locked;;
      write_allow_cmd_slot slot value;;
      verify_command_slot slot value
  end.

(** The loops of [remove_command] and [lock_command]: the count so far. *)
Fixpoint remove_slots (slots : list nat) (opcode : Z) (count : nat) : mon nat :=
  match slots with
  | [] => mret count
  | slot :: rest =>
      current ← read_allow_cmd_slot slot;
      if Z.land current 0xff =? opcode then
        require (Z.land current COMMAND_LOCKED =? 0) Locked;;
        write_allow_cmd_slot slot 0;;
        verify_command_slot slot 0;;
        remove_slots rest opcode (S count)
      else remove_slots rest opcode count
  end.

Definition remove_command (opcode : Z) : mon nat :=
  count ← remove_slots (seq 0 COMMAND_TABLE_SLOTS) opcode 0;
  require (negb (count =? 0)%nat) (UnsupportedCommand opcode);;
  mret count.

Fixpoint lock_slots (slots : list nat) (opcode : Z) (count : nat) : mon nat :=
  match slots with
  | [] => mret count
  | slot :: rest =>
      current ← read_allow_cmd_slot slot;
      if Z.land current 0xff =? opcode then
        let updated := Z.lor current COMMAND_LOCKED in
        write_allow_cmd_slot slot updated;;
        verify_command_slot slot updated;;
        lock_slots rest opcode (S count)
      else lock_slots rest opcode count
  end.

Definition lock_command (opcode : Z) : mon nat :=
  count ← lock_slots (seq 0 COMMAND_TABLE_SLOTS) opcode 0;
  require (negb (count =? 0)%nat) (UnsupportedCommand opcode);;
  mret count.

Definition privilege_lock_bit (d : PrivilegeDirection) : Z :=
  match d with Read => LOCK_READ_PRIVILEGE | Write => LOCK_WRITE_PRIVILEGE end.

Definition configure_region (start length : Z) (d : PrivilegeDirection) (op : PrivilegeOp) :
    mon unit :=
  lock ← read_lock_status;
  require (Z.land lock (privilege_lock_bit d) =? 0) Locked;;
  configure_privilege_region start length d op.

Definition privilege_word (d : PrivilegeDirection) (index : nat) : mon Z :=
  require (index <? PRIVILEGE_TABLE_WORDS)%nat InvalidSlot;;
  select_privilege_table d;;
  read_addr_filter_slot index.

Definition lock_privilege_table (d : PrivilegeDirection) : mon unit :=
  let mask := privilege_lock_bit d in
  modify_lock_status (λ bits, Z.lor bits mask);;
  lock ← read_lock_status;
  require (Z.land lock mask =? mask) LockFailed.

Definition enable : mon unit := modify_ctrl (λ bits, Z.lor bits CTRL_MONITOR_ENABLE_BIT).
Definition disable : mon unit :=
  modify_ctrl (λ bits, Z.land bits (not_u32 CTRL_MONITOR_ENABLE_BIT)).

Definition set_passthrough (mode : PassthroughMode) : mon unit :=
  modify_ctrl (λ bits,
    let cleared := Z.land bits (not_u32 CTRL_PASSTHROUGH_MASK) in
    match mode with
    | PassEnabled => Z.lor cleared CTRL_SINGLE_PASSTHROUGH_BIT
    | PassMultiEnabled => Z.lor cleared CTRL_MULTI_PASSTHROUGH_BIT
    | PassDisabled => cleared
    end).

(** The buffer, zeroed, once its address is handed to the hardware. *)
Definition configure_log (address : Z) (buffer : list Z) : mon (list Z) :=
  require (negb (length buffer =? 0)%nat && (length buffer <=? MAX_LOG_ENTRIES)%nat)
    InvalidLogBuffer;;
  require ((Z.land address 3 =? 0) && (address <=? u32_MAX)) InvalidLogBuffer;;
  write_log_config (as_u32 address) (as_u32 (Z.of_nat (length buffer)));;
  mret (replicate (length buffer) 0).

Definition set_push_pull (enable : bool) : mon unit :=
  modify_ctrl2 (λ bits,
    if enable then Z.lor bits CTRL2_PUSH_PULL else Z.land bits (not_u32 CTRL2_PUSH_PULL)).

Definition enable_violation_interrupts : mon unit :=
  modify_ctrl2 (λ bits, Z.lor bits CTRL2_VIOLATION_IRQ_ENABLE_MASK).

Definition pending_violations : mon Z :=
  v ← read_ctrl2; mret (Z.land v CTRL2_VIOLATION_STATUS_MASK).

Definition acknowledge_violations : mon Z :=
  pending ← pending_violations;
  (if negb (pending =? 0) then modify_ctrl2 (λ bits, Z.lor bits pending) else mret ());;
  mret pending.

Definition lock : mon unit :=
  drv_for (seq 0 COMMAND_TABLE_SLOTS) (λ slot,
    value ← read_allow_cmd_slot slot;
    write_allow_cmd_slot slot (Z.lor value COMMAND_LOCKED));;
  modify_ctrl (λ bits, Z.lor bits (Z.lor CTRL_BLOCK_FIFO_LOCK CTRL_SW_RESET_LOCK));;
  modify_lock_status (λ bits, Z.lor bits LOCK_STATUS_REQUIRED);;
  lock_status ← read_lock_status;
  require (Z.land lock_status LOCK_STATUS_REQUIRED =? LOCK_STATUS_REQUIRED) LockFailed;;
  drv_for (seq 0 COMMAND_TABLE_SLOTS) (λ slot,
    v ← read_allow_cmd_slot slot; require (negb (Z.land v COMMAND_LOCKED =? 0)) LockFailed).

(** [drain_log], of both the configured and the locked monitor: the buffer and
    how many entries of it are filled. *)
Definition drain_log (buf : list ViolationLogEntry) : mon (list ViolationLogEntry * nat) :=
  reads (λ r,
    let log_base := Z.land (spipf010 r) (not_u32 3) in
    let available := Nat.min (as_usize (block_log_dmawr_pointer r))
                       (as_usize (size_of_block_log_dmabuffer r)) in
    let count := Nat.min available (length buf) in
    ((λ i, parse_log (log_ram r log_base i)) <$> seq 0 count, count)) ≫= λ '(entries, count),
  mret (entries ++ drop count buf, count).

(** The monitor's part of [apply_spim_wiring_with_log]
    ([target/ast10x0/board/src/spim_wiring.rs]): apply the policy, set up the log
    if there is a buffer for it, filter, lock. *)
Definition commission (policy : SpiMonitorPolicy) (log_buffer : option (Z * list Z)) : mon unit :=
  apply_policy policy;;
  match log_buffer with
  | Some (address, buffer) => configure_log address buffer;; mret ()
  | None => mret ()
  end;;
  set_push_pull true;;
  set_passthrough PassDisabled;;
  enable;;
  lock.
End monitor.
