(* ===== verification/SpimRun.v ===== *)
(** * The SPI monitor: what a policy enforces

    The documented behaviour of the register block ([SpipfLaws]), and over it: a
    region is the blocks it touches, an applied policy passes exactly its commands
    and addresses, a locked policy never changes. *)

From S2P Require Import Prelude Bytes RegMonad Spim.
From stdpp Require Import base tactics option list numbers sets.
Local Open Scope Z_scope.

(** ** The register block *)

(** What the filter works from: SPIPF000, the lock bits, the command table and
    the two bitmaps. *)
Record SpimView := mkView {
  v_ctrl : Z; v_lock : Z; v_cmds : list Z; v_rd : list Z; v_wr : list Z;
}.

Definition v_tbl (d : PrivilegeDirection) (v : SpimView) : list Z :=
  match d with Read => v_rd v | Write => v_wr v end.
Definition with_ctrl (z : Z) (v : SpimView) : SpimView :=
  mkView z (v_lock v) (v_cmds v) (v_rd v) (v_wr v).
Definition with_lock (z : Z) (v : SpimView) : SpimView :=
  mkView (v_ctrl v) z (v_cmds v) (v_rd v) (v_wr v).
Definition with_cmds (l : list Z) (v : SpimView) : SpimView :=
  mkView (v_ctrl v) (v_lock v) l (v_rd v) (v_wr v).
Definition with_tbl (d : PrivilegeDirection) (l : list Z) (v : SpimView) : SpimView :=
  match d with
  | Read => mkView (v_ctrl v) (v_lock v) (v_cmds v) l (v_wr v)
  | Write => mkView (v_ctrl v) (v_lock v) (v_cmds v) (v_rd v) l
  end.

(** The bitmap the filter table shows. *)
Definition selected (v : SpimView) : option PrivilegeDirection :=
  let s := Z.land (v_ctrl v) 0xff000000 in
  if s =? PRIVILEGE_READ_SELECT then Some Read
  else if s =? PRIVILEGE_WRITE_SELECT then Some Write
  else None.

(** Lock bits are one-way; a locked register, bitmap or command entry ignores
    writes; the rest is storage. *)
Class SpipfLaws (R : Type) `{Spipf R} : Type := {
  view : R → SpimView;
  wt_count : WT_COUNT = COMMAND_TABLE_SLOTS;
  wa_count : WA_COUNT = PRIVILEGE_TABLE_WORDS;
  cmds_length r : length (v_cmds (view r)) = COMMAND_TABLE_SLOTS;
  tbl_length r d : length (v_tbl d (view r)) = PRIVILEGE_TABLE_WORDS;
  view_ctrl r : spipf000 r = v_ctrl (view r);
  view_set_ctrl r z :
    view (set_spipf000 r z) =
      if has_flag (v_lock (view r)) LOCK_CTRL then view r else with_ctrl z (view r);
  view_set_ctrl2 r z : view (set_spipf004 r z) = view r;
  view_set_log_base r z : view (set_spipf010 r z) = view r;
  view_set_log_ctrl r z : view (set_spipf014 r z) = view r;
  view_lock r : spipf07c r = v_lock (view r);
  view_set_lock r z : view (set_spipf07c r z) = with_lock (Z.lor (v_lock (view r)) z) (view r);
  view_cmd r i : (i < COMMAND_TABLE_SLOTS)%nat → v_cmds (view r) !! i = Some (spipfwt r i);
  view_set_cmd r i z : (i < COMMAND_TABLE_SLOTS)%nat →
    view (set_spipfwt r i z) =
      if has_flag (spipfwt r i) COMMAND_LOCKED then view r
      else with_cmds (<[i := z]> (v_cmds (view r))) (view r);
  view_word r i d : (i < PRIVILEGE_TABLE_WORDS)%nat → selected (view r) = Some d →
    v_tbl d (view r) !! i = Some (spipfwa r i);
  view_set_word r i z d : (i < PRIVILEGE_TABLE_WORDS)%nat → selected (view r) = Some d →
    view (set_spipfwa r i z) =
      if has_flag (v_lock (view r)) (privilege_lock_bit d) then view r
      else with_tbl d (<[i := z]> (v_tbl d (view r))) (view r);
  view_set_word_locked r i z : (i < PRIVILEGE_TABLE_WORDS)%nat →
    (∀ d, has_flag (v_lock (view r)) (privilege_lock_bit d) = true) →
    view (set_spipfwa r i z) = view r;
}.

(** ** What passes the filter *)

(** The bit of a block in a bitmap. *)
Definition blk (tbl : list Z) (b : Z) : bool :=
  match tbl !! as_usize (b / 32) with Some w => Z.testbit w (b mod 32) | None => false end.

Definition addr_allowed (v : SpimView) (d : PrivilegeDirection) (addr : Z) : bool :=
  blk (v_tbl d v) (addr / PRIVILEGE_BLOCK_SIZE).

Definition cmd_allowed (v : SpimView) (opcode : Z) : Prop :=
  ∃ slot w, v_cmds v !! slot = Some w ∧ Z.land w 0xff = opcode ∧
    has_flag w (Z.lor VALID VALID_ONCE) = true.

(** What a policy asks for: its commands, and per address the last region that
    touches the address's block. *)
Definition policy_opcodes (p : SpiMonitorPolicy) : list Z :=
  take (allow_command_count p) (allow_commands p).
Definition policy_regions (p : SpiMonitorPolicy) : list (option RegionPolicy) :=
  take (region_count p) (regions p).

Definition op_bit (op : PrivilegeOp) : bool :=
  match op with Enable => true | Disable => false end.

Definition touches (rg : RegionPolicy) (b : Z) : bool :=
  (rg_start rg / PRIVILEGE_BLOCK_SIZE <=? b) &&
  (b * PRIVILEGE_BLOCK_SIZE <? rg_start rg + rg_length rg).

Definition region_says (d : PrivilegeDirection) (b : Z) (acc : bool) (o : option RegionPolicy) :
    bool :=
  match o with
  | Some rg => if bool_decide (rg_direction rg = d) && touches rg b then op_bit (rg_op rg) else acc
  | None => acc
  end.

Definition policy_allows (rgs : list (option RegionPolicy)) (d : PrivilegeDirection) (addr : Z) :
    bool :=
  foldl (region_says d (addr / PRIVILEGE_BLOCK_SIZE)) true rgs.

(** ** Lemmas: bits *)

Lemma has_flag_lor x m : m ≠ 0 → 0 ≤ m → has_flag (Z.lor x m) m = true.
Proof.
  intros Hm Hp. unfold has_flag. apply negb_true_iff, Z.eqb_neq. intros Hz. apply Hm.
  apply Z.bits_inj'. intros n Hn. rewrite Z.bits_0.
  assert (Z.testbit (Z.land (Z.lor x m) m) n = false) as Hb by (by rewrite Hz, Z.bits_0).
  rewrite Z.land_spec, Z.lor_spec in Hb. destruct (Z.testbit m n); [|done].
  by rewrite orb_true_r in Hb.
Qed.

Lemma has_flag_lor_mono x y m : has_flag x m = true → has_flag (Z.lor x y) m = true.
Proof.
  unfold has_flag. rewrite !negb_true_iff, !Z.eqb_neq. intros Hx Hz. apply Hx.
  apply Z.bits_inj'. intros n Hn. rewrite Z.bits_0.
  assert (Z.testbit (Z.land (Z.lor x y) m) n = false) as Hb by (by rewrite Hz, Z.bits_0).
  rewrite Z.land_spec, Z.lor_spec in Hb. rewrite Z.land_spec.
  destruct (Z.testbit x n), (Z.testbit m n); done.
Qed.

Lemma has_flag_false x m : (Z.land x m =? 0) = negb (has_flag x m).
Proof. unfold has_flag. by rewrite negb_involutive. Qed.

(** A flag of [m] that a wider mask does not see is clear. *)
Lemma has_flag_sub x m w : Z.land x w = 0 → Z.land m w = m → has_flag x m = false.
Proof.
  intros Hx Hm. unfold has_flag. apply negb_false_iff, Z.eqb_eq. rewrite <- Hm.
  rewrite (Z.land_comm m), Z.land_assoc, Hx. apply Z.land_0_l.
Qed.

Lemma testbit_u32_MAX n : 0 ≤ n < 32 → Z.testbit u32_MAX n = true.
Proof.
  intros Hn. change u32_MAX with (Z.ones 32). apply Z.ones_spec_low. lia.
Qed.

Lemma testbit_shiftl_1 b n : 0 ≤ b → 0 ≤ n → Z.testbit (Z.shiftl 1 b) n = (n =? b).
Proof.
  intros Hb Hn. rewrite Z.shiftl_1_l. rewrite Z.pow2_bits_eqb by lia. apply Z.eqb_sym.
Qed.

(** ** Lemmas: the command codes *)

(** A table entry carries its opcode, is valid, and is not locked. *)
Definition entry_ok (opcode : Z) : bool :=
  forallb (λ once,
    match table_value opcode once with
    | Some w => (Z.land w 0xff =? opcode) && has_flag w (Z.lor VALID VALID_ONCE) &&
                negb (has_flag w COMMAND_LOCKED) && negb (w =? 0)
    | None => true
    end) [true; false].

Lemma entries_ok : forallb (λ n, entry_ok (Z.of_nat n)) (seq 0 256) = true.
Proof. vm_compute. done. Qed.

Lemma table_value_ok opcode once w :
  in_u8 opcode → table_value opcode once = Some w →
  Z.land w 0xff = opcode ∧ has_flag w (Z.lor VALID VALID_ONCE) = true ∧
  has_flag w COMMAND_LOCKED = false ∧ w ≠ 0.
Proof.
  intros Hop Hw. pose proof entries_ok as Hall. rewrite forallb_forall in Hall.
  assert (In (as_usize opcode) (seq 0 256)) as Hin.
  { apply in_seq. unfold in_u8, u8_MAX, as_usize in *. lia. }
  specialize (Hall _ Hin). unfold as_usize in Hall.
  rewrite Z2Nat.id in Hall by (unfold in_u8 in Hop; lia).
  unfold entry_ok in Hall. rewrite forallb_forall in Hall.
  assert (In once [true; false]) as Ho by (destruct once; simpl; auto).
  specialize (Hall once Ho). rewrite Hw in Hall.
  rewrite !andb_true_iff, !negb_true_iff, Z.eqb_eq, Z.eqb_neq in Hall. tauto.
Qed.

Lemma fixed_slot_spec opcode slot :
  fixed_slot opcode = Some slot →
  (opcode = 0xb7 ∧ slot = 0%nat) ∨ (opcode = 0xe9 ∧ slot = 1%nat) ∨ (opcode = 0xc5 ∧ slot = 31%nat).
Proof.
  unfold fixed_slot. repeat (case_match; simplify_eq); rewrite ?Z.eqb_eq in *; naive_solver.
Qed.

(** ** Lemmas: register accesses *)

Section laws.
Context {R : Type} `{SpipfLaws R}.
Implicit Types r : R.

Lemma dwp_read_cmd i Q r :
  (i < COMMAND_TABLE_SLOTS)%nat →
  (∀ w, v_cmds (view r) !! i = Some w → Q (Ok w) r) → dwp (read_allow_cmd_slot i) Q r.
Proof.
  intros Hi HQ. apply dwp_guarded; [rewrite wt_count; by apply Nat.ltb_lt|].
  apply dwp_reads, HQ. by apply view_cmd.
Qed.

Lemma dwp_write_cmd i z w Q r :
  v_cmds (view r) !! i = Some w →
  (∀ r', view r' = (if has_flag w COMMAND_LOCKED then view r
                    else with_cmds (<[i := z]> (v_cmds (view r))) (view r)) → Q (Ok ()) r') →
  dwp (write_allow_cmd_slot i z) Q r.
Proof.
  intros Hw HQ. pose proof (lookup_lt_Some _ _ _ Hw) as Hi. rewrite cmds_length in Hi.
  apply dwp_guarded; [rewrite wt_count; by apply Nat.ltb_lt|].
  apply dwp_writes, HQ. rewrite view_set_cmd by done.
  rewrite view_cmd in Hw by done. by simplify_eq.
Qed.

Lemma dwp_read_word i d Q r :
  (i < PRIVILEGE_TABLE_WORDS)%nat → selected (view r) = Some d →
  (∀ w, v_tbl d (view r) !! i = Some w → Q (Ok w) r) → dwp (read_addr_filter_slot i) Q r.
Proof.
  intros Hi Hs HQ. apply dwp_guarded; [rewrite wa_count; by apply Nat.ltb_lt|].
  apply dwp_reads, HQ. by apply view_word.
Qed.

Lemma dwp_read_word_checked i d Q r :
  (i < PRIVILEGE_TABLE_WORDS)%nat → selected (view r) = Some d →
  (∀ w, v_tbl d (view r) !! i = Some w → Q (Ok (Some w)) r) →
  dwp (read_addr_filter_slot_checked i) Q r.
Proof.
  intros Hi Hs HQ. unfold read_addr_filter_slot_checked.
  rewrite wa_count, (proj2 (Nat.ltb_lt _ _) Hi).
  apply dwp_reads, HQ. by apply view_word.
Qed.

Lemma dwp_write_word i z d Q r :
  (i < PRIVILEGE_TABLE_WORDS)%nat → selected (view r) = Some d →
  has_flag (v_lock (view r)) (privilege_lock_bit d) = false →
  (∀ r', view r' = with_tbl d (<[i := z]> (v_tbl d (view r))) (view r) → Q (Ok ()) r') →
  dwp (write_addr_filter_slot i z) Q r.
Proof.
  intros Hi Hs Hl HQ. apply dwp_guarded; [rewrite wa_count; by apply Nat.ltb_lt|].
  apply dwp_writes, HQ. by rewrite (view_set_word _ _ _ d), Hl.
Qed.

Lemma dwp_write_word_checked i z d Q r :
  (i < PRIVILEGE_TABLE_WORDS)%nat → selected (view r) = Some d →
  has_flag (v_lock (view r)) (privilege_lock_bit d) = false →
  (∀ r', view r' = with_tbl d (<[i := z]> (v_tbl d (view r))) (view r) → Q (Ok true) r') →
  dwp (write_addr_filter_slot_checked i z) Q r.
Proof.
  intros Hi Hs Hl HQ. unfold write_addr_filter_slot_checked.
  rewrite wa_count, (proj2 (Nat.ltb_lt _ _) Hi).
  apply dwp_bind, dwp_writes, dwp_ret, HQ. by rewrite (view_set_word _ _ _ d), Hl.
Qed.

Lemma dwp_modify_ctrl f Q r :
  has_flag (v_lock (view r)) LOCK_CTRL = false →
  (∀ r', view r' = with_ctrl (f (v_ctrl (view r))) (view r) → Q (Ok ()) r') →
  dwp (modify_ctrl f) Q r.
Proof.
  intros Hl HQ. apply dwp_bind, dwp_reads, dwp_writes, HQ.
  by rewrite view_set_ctrl, Hl, view_ctrl.
Qed.

Definition select_bits (d : PrivilegeDirection) (z : Z) : Z :=
  Z.lor (Z.land z 0x00ffffff)
    (match d with Read => PRIVILEGE_READ_SELECT | Write => PRIVILEGE_WRITE_SELECT end).

Lemma selected_select d v : selected (with_ctrl (select_bits d (v_ctrl v)) v) = Some d.
Proof.
  unfold selected, select_bits. cbn [v_ctrl with_ctrl].
  rewrite Z.land_lor_distr_l, <- Z.land_assoc.
  change (Z.land 0x00ffffff 0xff000000) with 0. rewrite Z.land_0_r, Z.lor_0_l.
  by destruct d.
Qed.

Lemma dwp_select d Q r :
  has_flag (v_lock (view r)) LOCK_CTRL = false →
  (∀ r', view r' = with_ctrl (select_bits d (v_ctrl (view r))) (view r) →
     selected (view r') = Some d → Q (Ok ()) r') →
  dwp (select_privilege_table d) Q r.
Proof.
  intros Hl HQ. apply dwp_modify_ctrl; [done|]. intros r' Hr'. apply HQ; [done|].
  rewrite Hr'. apply selected_select.
Qed.

Lemma selected_with_tbl d t v : selected (with_tbl d t v) = selected v.
Proof. by destruct d. Qed.
Lemma v_lock_with_tbl d t v : v_lock (with_tbl d t v) = v_lock v.
Proof. by destruct d. Qed.
Lemma v_cmds_with_tbl d t v : v_cmds (with_tbl d t v) = v_cmds v.
Proof. by destruct d. Qed.
Lemma v_ctrl_with_tbl d t v : v_ctrl (with_tbl d t v) = v_ctrl v.
Proof. by destruct d. Qed.
Lemma v_tbl_with_tbl d t v : v_tbl d (with_tbl d t v) = t.
Proof. by destruct d. Qed.
Lemma v_tbl_with_tbl_ne d d' t v : d ≠ d' → v_tbl d (with_tbl d' t v) = v_tbl d v.
Proof. by destruct d, d'. Qed.
Lemma with_tbl_twice d t t' v : with_tbl d t (with_tbl d t' v) = with_tbl d t v.
Proof. by destruct d. Qed.
Lemma with_tbl_same d v : with_tbl d (v_tbl d v) v = v.
Proof. by destruct d, v. Qed.

(** ** Lemmas: regions *)

(** The blocks from [lo] to [hi] of a bitmap set by [op]. *)
Definition blocks_set (op : PrivilegeOp) (lo hi : Z) (t t' : list Z) : Prop :=
  length t' = length t ∧
  ∀ b, 0 ≤ b < 16384 → blk t' b = if (lo <=? b) && (b <? hi) then op_bit op else blk t b.

Lemma blk_insert (t : list Z) i u b :
  length t = PRIVILEGE_TABLE_WORDS → 0 ≤ i < 512 → 0 ≤ b →
  blk (<[as_usize i := u]> t) b = if b / 32 =? i then Z.testbit u (b mod 32) else blk t b.
Proof.
  intros Hl Hi Hb. unfold blk, as_usize.
  assert (0 ≤ b / 32) as Hd by (apply Z.div_pos; lia).
  destruct (b / 32 =? i) eqn:E.
  - apply Z.eqb_eq in E. rewrite E, list_lookup_insert_eq; [done|].
    rewrite Hl. unfold PRIVILEGE_TABLE_WORDS. lia.
  - apply Z.eqb_neq in E. rewrite list_lookup_insert_ne; [done|]. lia.
Qed.

(** One round: a whole word, or one bit of it. *)
Definition round_value (op : PrivilegeOp) (whole : bool) (bit w : Z) : Z :=
  if whole then match op with Enable => u32_MAX | Disable => 0 end
  else match op with
       | Enable => Z.lor w (Z.shiftl 1 bit)
       | Disable => Z.land w (not_u32 (Z.shiftl 1 bit))
       end.

Lemma round_bit op bit w n :
  0 ≤ bit → 0 ≤ n < 32 →
  Z.testbit (round_value op false bit w) n = if n =? bit then op_bit op else Z.testbit w n.
Proof.
  intros Hb Hn. unfold round_value, not_u32. destruct op.
  - rewrite Z.lor_spec, testbit_shiftl_1 by lia. destruct (n =? bit); simpl; [apply orb_true_r|].
    apply orb_false_r.
  - rewrite Z.land_spec, Z.lxor_spec, testbit_shiftl_1, testbit_u32_MAX by lia.
    destruct (n =? bit); simpl; [apply andb_false_r|apply andb_true_r].
Qed.

Lemma round_word op bit w n :
  0 ≤ n < 32 → Z.testbit (round_value op true bit w) n = op_bit op.
Proof.
  intros Hn. destruct op; [by apply testbit_u32_MAX|apply Z.bits_0].
Qed.

Lemma round_sets op (whole : bool) block w t :
  length t = PRIVILEGE_TABLE_WORDS → 0 ≤ block < 16384 →
  (whole = true → block mod 32 = 0) → t !! as_usize (block / 32) = Some w →
  blocks_set op block (block + if whole then 32 else 1) t
    (<[as_usize (block / 32) := round_value op whole (block mod 32) w]> t).
Proof.
  intros Hl Hb Hw Ht. split; [by rewrite length_insert|]. intros b Hb'.
  assert (0 ≤ block / 32 < 512) as Hi
    by (split; [apply Z.div_pos; lia|apply Z.div_lt_upper_bound; lia]).
  rewrite blk_insert by (done || lia).
  pose proof (Z.mod_pos_bound b 32 ltac:(lia)). pose proof (Z.mod_pos_bound block 32 ltac:(lia)).
  pose proof (Z.div_mod b 32 ltac:(lia)). pose proof (Z.div_mod block 32 ltac:(lia)).
  destruct (b / 32 =? block / 32) eqn:E.
  - apply Z.eqb_eq in E. destruct whole.
    + rewrite round_word by lia. specialize (Hw eq_refl).
      rewrite (proj2 (Z.leb_le block b)), (proj2 (Z.ltb_lt b _)) by lia. done.
    + rewrite round_bit by lia.
      destruct (b mod 32 =? block mod 32) eqn:E'.
      * apply Z.eqb_eq in E'. rewrite (proj2 (Z.leb_le block b)), (proj2 (Z.ltb_lt b _)) by lia.
        done.
      * apply Z.eqb_neq in E'.
        replace ((block <=? b) && (b <? block + 1)) with false
          by (symmetry; apply andb_false_iff; rewrite Z.leb_gt, Z.ltb_ge; lia).
        unfold blk. by rewrite E, Ht.
  - apply Z.eqb_neq in E.
    replace ((block <=? b) && (b <? block + (if whole then 32 else 1))) with false; [done|].
    symmetry. apply andb_false_iff. rewrite Z.leb_gt, Z.ltb_ge.
    destruct whole; [specialize (Hw eq_refl)|]; lia.
Qed.

Lemma blocks_set_trans op lo mid hi t t' t'' :
  lo ≤ mid → mid ≤ hi → blocks_set op lo mid t t' → blocks_set op mid hi t' t'' →
  blocks_set op lo hi t t''.
Proof.
  intros H1 H2 [Hl Hb] [Hl' Hb']. split; [congruence|]. intros b Hr.
  rewrite Hb', Hb by done.
  destruct (mid <=? b) eqn:E1, (b <? hi) eqn:E2, (lo <=? b) eqn:E3, (b <? mid) eqn:E4; simpl;
    try done; rewrite ?Z.leb_le, ?Z.leb_gt, ?Z.ltb_lt, ?Z.ltb_ge in *; lia.
Qed.

Lemma privilege_loop_sets fuel op d hi block r :
  selected (view r) = Some d → has_flag (v_lock (view r)) (privilege_lock_bit d) = false →
  0 ≤ block ≤ hi → hi ≤ 16384 → hi - block < Z.of_nat fuel →
  dwp (privilege_loop fuel op block hi)
    (λ a r', a = Ok () ∧ ∃ t, view r' = with_tbl d t (view r) ∧
       blocks_set op block hi (v_tbl d (view r)) t) r.
Proof.
  revert block r. induction fuel as [|fuel IH]; intros block r Hs Hl Hb Hhi Hf;
    cbn [privilege_loop]; [lia|].
  destruct (block <? hi) eqn:E; cbn [negb].
  2:{ apply Z.ltb_ge in E. apply dwp_ret. split; [done|]. exists (v_tbl d (view r)).
      split; [by rewrite with_tbl_same|]. split; [done|]. intros b _.
      replace ((block <=? b) && (b <? hi)) with false; [done|].
      symmetry. apply andb_false_iff. rewrite Z.leb_gt, Z.ltb_ge. lia. }
  apply Z.ltb_lt in E.
  assert (as_usize (block / 32) < PRIVILEGE_TABLE_WORDS)%nat as Hi.
  { unfold as_usize, PRIVILEGE_TABLE_WORDS.
    assert (block / 32 < 512) by (apply Z.div_lt_upper_bound; lia). lia. }
  set (whole := (block mod 32 =? 0) && (32 <=? hi - block)).
  destruct (lookup_lt_is_Some_2 (v_tbl d (view r)) (as_usize (block / 32))) as [w Hw];
    [by rewrite tbl_length|].
  apply dwp_bind, (dwp_mono _ (λ a r', a = Ok (round_value op whole (block mod 32) w) ∧ r' = r)).
  { unfold round_value. destruct whole; [by apply dwp_ret|].
    apply dwp_bind, (dwp_read_word_checked _ d); [done..|].
    intros w' Hw'. simplify_eq. apply dwp_bind, dwp_lift, dwp_ret. done. }
  intros a r' [-> ->]. apply dwp_bind, (dwp_write_word_checked _ _ d); [done..|].
  intros r1 Hr1. apply dwp_bind, dwp_require; [intros _|done].
  apply dwp_bind, (dwp_read_word_checked _ d); [done|by rewrite Hr1, selected_with_tbl|].
  intros w' Hw'. rewrite Hr1, v_tbl_with_tbl, list_lookup_insert_eq in Hw'
    by (by rewrite tbl_length). injection Hw' as <-.
  apply dwp_bind, dwp_require; [intros _|by rewrite bool_decide_eq_true_2].
  assert (blocks_set op block (block + if whole then 32 else 1) (v_tbl d (view r))
    (v_tbl d (view r1))) as Hset.
  { rewrite Hr1, v_tbl_with_tbl. apply round_sets; [apply tbl_length|lia| |done].
    intros Hwh. unfold whole in Hwh. apply andb_true_iff in Hwh as [Hz _]. by apply Z.eqb_eq. }
  assert (block + (if whole then 32 else 1) ≤ hi) as Hle.
  { destruct whole eqn:Ew; [|lia]. unfold whole in Ew. apply andb_true_iff in Ew as [_ Hz].
    apply Z.leb_le in Hz. lia. }
  eapply dwp_mono.
  { apply IH; [by rewrite Hr1, selected_with_tbl|by rewrite Hr1, v_lock_with_tbl| |done|].
    - destruct whole; lia.
    - destruct whole; lia. }
  intros a r2 [-> (t & Hr2 & Ht)]. split; [done|]. exists t. split.
  - by rewrite Hr2, Hr1, with_tbl_twice.
  - eapply blocks_set_trans; [| |exact Hset|exact Ht]; destruct whole; lia.
Qed.

(** A valid region: within the limit, not empty, and not past the end of the
    32-bit space. *)
Definition region_valid (start length : Z) : Prop :=
  0 ≤ start < PRIVILEGE_ADDRESS_LIMIT ∧ 0 < length ∧ start + length ≤ u32_MAX.

Lemma validate_ok start length :
  region_valid start length → validate_privilege_region start length = Ok ().
Proof.
  intros ([_ Hs] & Hl & Hu). unfold validate_privilege_region.
  rewrite (proj2 (Z.leb_gt _ _) Hs). unfold checked_add_u32. rewrite (proj2 (Z.leb_le _ _) Hu).
  rewrite bool_decide_eq_true_2 by eauto. by destruct (Z.eqb_spec length 0); [lia|].
Qed.

Lemma validate_valid start length :
  0 ≤ start → 0 ≤ length → validate_privilege_region start length = Ok () →
  region_valid start length.
Proof.
  intros Hs Hl. unfold validate_privilege_region, region_valid, checked_add_u32.
  case_match eqn:E1; [done|]. apply Z.leb_gt in E1.
  destruct (Z.eqb_spec length 0); simpl; [done|].
  destruct (Z.leb_spec (start + length) u32_MAX); [lia|].
  rewrite bool_decide_eq_false_2 by (intros [? ?]; done). done.
Qed.

(** The blocks of a region, by address. *)
Lemma end_block_spec start length b :
  region_valid start length → 0 ≤ b < 16384 →
  (b <? (Z.min (start + length) PRIVILEGE_ADDRESS_LIMIT + (PRIVILEGE_BLOCK_SIZE - 1))
        / PRIVILEGE_BLOCK_SIZE) =
  (b * PRIVILEGE_BLOCK_SIZE <? start + length).
Proof.
  intros (Hs & Hl & Hu) Hb. unfold PRIVILEGE_ADDRESS_LIMIT, PRIVILEGE_BLOCK_SIZE in *.
  set (e := Z.min (start + length) (256 * 1024 * 1024)).
  pose proof (Z.div_mod (e + (16 * 1024 - 1)) (16 * 1024) ltac:(lia)).
  pose proof (Z.mod_pos_bound (e + (16 * 1024 - 1)) (16 * 1024) ltac:(lia)).
  destruct (Z.ltb_spec b ((e + (16 * 1024 - 1)) / (16 * 1024)));
    destruct (Z.ltb_spec (b * (16 * 1024)) (start + length)); try done; lia.
Qed.

(** A region is exactly the blocks it touches, and changes nothing else. *)
Lemma configure_sets start length d op r :
  region_valid start length →
  has_flag (v_lock (view r)) LOCK_CTRL = false →
  has_flag (v_lock (view r)) (privilege_lock_bit d) = false →
  dwp (configure_privilege_region start length d op)
    (λ a r', a = Ok () ∧
       ∃ t, view r' = with_tbl d t (with_ctrl (select_bits d (v_ctrl (view r))) (view r)) ∧
       List.length t = PRIVILEGE_TABLE_WORDS ∧
       ∀ b, 0 ≤ b < 16384 →
         blk t b = if touches (mkRegion start length d op) b then op_bit op
                   else blk (v_tbl d (view r)) b) r.
Proof.
  intros Hv Hc Hl. unfold configure_privilege_region. rewrite (validate_ok _ _ Hv).
  pose proof Hv as (Hs & Hlen & Hu).
  assert (checked_add_u32 start length = Some (start + length)) as Hadd.
  { unfold checked_add_u32. by rewrite (proj2 (Z.leb_le _ _) Hu). }
  rewrite Hadd. dwp_steps.
  set (e := Z.min (start + length) PRIVILEGE_ADDRESS_LIMIT).
  assert (0 < e ≤ PRIVILEGE_ADDRESS_LIMIT) as He by (unfold e; lia).
  assert (checked_add_u32 e (PRIVILEGE_BLOCK_SIZE - 1) = Some (e + (PRIVILEGE_BLOCK_SIZE - 1)))
    as Hadd2.
  { unfold checked_add_u32. rewrite (proj2 (Z.leb_le _ _)); [done|].
    unfold PRIVILEGE_ADDRESS_LIMIT, PRIVILEGE_BLOCK_SIZE, u32_MAX in *. lia. }
  rewrite Hadd2. cbn [ok_or]. dwp_steps.
  assert (PRIVILEGE_BLOCK_SIZE ≠ 0) as Hnz by done.
  rewrite !Z.div_mul by done.
  set (hi := (e + (PRIVILEGE_BLOCK_SIZE - 1)) / PRIVILEGE_BLOCK_SIZE).
  set (lo := start / PRIVILEGE_BLOCK_SIZE).
  assert (0 ≤ lo ≤ hi ∧ hi ≤ 16384) as Hbounds.
  { assert (start ≤ e) by lia. clearbody e. subst lo hi.
    unfold PRIVILEGE_ADDRESS_LIMIT, PRIVILEGE_BLOCK_SIZE in *. split; [split|].
    - apply Z.div_pos; lia.
    - apply Z.div_le_mono; lia.
    - apply Z.lt_succ_r, Z.div_lt_upper_bound; lia. }
  apply dwp_select; [done|]. intros r1 Hr1 Hs1.
  eapply dwp_mono.
  { apply (privilege_loop_sets _ _ d); [done|by rewrite Hr1|tauto|tauto|].
    unfold as_usize. lia. }
  intros a r2 [-> (t & Hr2 & Hlt & Ht)]. split; [done|]. exists t.
  split; [by rewrite Hr2, Hr1|]. split; [by rewrite Hlt, tbl_length|].
  intros b Hb. rewrite Ht by done. rewrite Hr1.
  replace (v_tbl d (with_ctrl _ (view r))) with (v_tbl d (view r)) by (by destruct d).
  unfold touches. cbn [rg_start rg_length]. fold lo.
  by rewrite <- (end_block_spec start length b) by done.
Qed.

(** ** Lemmas: clearing the tables *)

Lemma initialize_sets d r :
  has_flag (v_lock (view r)) LOCK_CTRL = false →
  has_flag (v_lock (view r)) (privilege_lock_bit d) = false →
  dwp (initialize_privilege_table d)
    (λ a r', a = Ok () ∧
       view r' = with_tbl d (replicate PRIVILEGE_TABLE_WORDS u32_MAX)
                   (with_ctrl (select_bits d (v_ctrl (view r))) (view r))) r.
Proof.
  intros Hc Hl. unfold initialize_privilege_table. apply dwp_bind, dwp_select; [done|].
  intros r1 Hr1 Hs1.
  apply dwp_bind, (dwp_for (λ done r', ∃ t, view r' = with_tbl d t (view r1) ∧
    length t = PRIVILEGE_TABLE_WORDS ∧ ∀ i, i ∈ done → t !! i = Some u32_MAX)).
  { exists (v_tbl d (view r1)). rewrite with_tbl_same, tbl_length. split; [done|].
    split; [done|]. intros i Hi. by apply elem_of_nil in Hi. }
  { intros d0 x rest r' Hl' (t & Hr' & Ht & Hd).
    pose proof (seq_split_lt _ _ _ _ Hl') as Hx.
    apply (dwp_write_word _ _ d); [done|by rewrite Hr', selected_with_tbl| |].
    { by rewrite Hr', v_lock_with_tbl, Hr1. }
    intros r'' Hr''. exists (<[x := u32_MAX]> t).
    rewrite Hr'', Hr', v_tbl_with_tbl, with_tbl_twice, length_insert.
    split; [done|]. split; [done|]. intros i [Hi|Hi]%elem_of_app.
    - destruct (decide (i = x)) as [->|Hne]; [apply list_lookup_insert_eq; lia|].
      rewrite list_lookup_insert_ne by done. by apply Hd.
    - apply list_elem_of_singleton in Hi as ->. apply list_lookup_insert_eq. lia. }
  intros r2 (t & Hr2 & Ht & Hd).
  assert (t = replicate PRIVILEGE_TABLE_WORDS u32_MAX) as ->.
  { apply list_eq_same_length with PRIVILEGE_TABLE_WORDS; [by rewrite length_replicate|done|].
    intros i x y Hi Hx Hy. rewrite lookup_replicate_2 in Hy by done.
    rewrite Hd in Hx by (apply elem_of_seq; lia). congruence. }
  assert (selected (view r2) = Some d) as Hs2 by (by rewrite Hr2, selected_with_tbl).
  assert (∀ i w, v_tbl d (view r2) !! i = Some w → w = u32_MAX) as Hall.
  { intros i w Hw. rewrite Hr2, v_tbl_with_tbl in Hw. by apply lookup_replicate_1 in Hw as [-> _]. }
  apply dwp_bind, (dwp_read_word _ d); [unfold PRIVILEGE_TABLE_WORDS; lia|done|].
  intros w ->%Hall. apply dwp_bind, dwp_require; [intros _|by rewrite Z.eqb_refl].
  apply dwp_bind, (dwp_read_word _ d); [unfold PRIVILEGE_TABLE_WORDS; lia|done|].
  intros w ->%Hall. apply dwp_require; [intros _|by rewrite Z.eqb_refl].
  split; [done|]. by rewrite Hr2, Hr1.
Qed.

Lemma blk_replicate b :
  0 ≤ b < 16384 → blk (replicate PRIVILEGE_TABLE_WORDS u32_MAX) b = true.
Proof.
  intros Hb. unfold blk. rewrite lookup_replicate_2.
  - apply testbit_u32_MAX, Z.mod_pos_bound. lia.
  - unfold as_usize, PRIVILEGE_TABLE_WORDS.
    assert (b / 32 < 512) by (apply Z.div_lt_upper_bound; lia). lia.
Qed.

Definition unlocked (l : list Z) : Prop :=
  ∀ i w, l !! i = Some w → has_flag w COMMAND_LOCKED = false.

Lemma unlocked_insert l i w :
  unlocked l → has_flag w COMMAND_LOCKED = false → unlocked (<[i := w]> l).
Proof. intros Hl Hw j w' [(-> & <- & _)|[_ ?]]%list_lookup_insert_Some; eauto. Qed.

Lemma clear_commands r :
  unlocked (v_cmds (view r)) →
  dwp (drv_for (seq 0 COMMAND_TABLE_SLOTS) (λ slot, write_allow_cmd_slot slot 0))
    (λ a r', a = Ok () ∧ view r' = with_cmds (replicate COMMAND_TABLE_SLOTS 0) (view r)) r.
Proof.
  intros Hu.
  apply (dwp_for (λ done r', ∃ l, view r' = with_cmds l (view r) ∧ unlocked l ∧
    length l = COMMAND_TABLE_SLOTS ∧ ∀ i, i ∈ done → l !! i = Some 0)).
  { exists (v_cmds (view r)). split; [by destruct (view r)|]. split; [done|].
    split; [apply cmds_length|]. intros i Hi. by apply elem_of_nil in Hi. }
  { intros d x rest r' Hl' (l & Hr' & Hul & Hlen & Hd).
    pose proof (seq_split_lt _ _ _ _ Hl') as Hx.
    destruct (lookup_lt_is_Some_2 l x) as [w Hw]; [by rewrite Hlen|].
    apply (dwp_write_cmd _ _ w); [by rewrite Hr'|]. intros r'' Hr''.
    rewrite (Hul _ _ Hw) in Hr''. exists (<[x := 0]> l).
    split; [by rewrite Hr'', Hr'|]. split; [by apply unlocked_insert|].
    split; [by rewrite length_insert|]. intros i [Hi|Hi]%elem_of_app.
    - destruct (decide (i = x)) as [->|Hne]; [apply list_lookup_insert_eq; lia|].
      rewrite list_lookup_insert_ne by done. by apply Hd.
    - apply list_elem_of_singleton in Hi as ->. apply list_lookup_insert_eq. lia. }
  intros r' (l & Hr' & _ & Hlen & Hd). split; [done|]. rewrite Hr'. f_equal.
  apply list_eq_same_length with COMMAND_TABLE_SLOTS; [by rewrite length_replicate|done|].
  intros i x y Hi Hx Hy. rewrite lookup_replicate_2 in Hy by done.
  rewrite Hd in Hx by (apply elem_of_seq; lia). congruence.
Qed.

(** ** Lemmas: the command slots *)

(** The commands [ops] are in the table, general ones below [next], and nothing
    else is. *)
Record placed (ops : list Z) (next : nat) (l : list Z) : Prop := {
  placed_length : length l = COMMAND_TABLE_SLOTS;
  placed_unlocked : unlocked l;
  placed_only i w : l !! i = Some w → w = 0 ∨ ∃ op, op ∈ ops ∧ table_value op false = Some w;
  placed_all op : op ∈ ops → ∃ i w, table_value op false = Some w ∧ l !! i = Some w ∧
    (fixed_slot op = Some i ∨ (fixed_slot op = None ∧ 2 ≤ i < next)%nat);
}.

Lemma placed_insert ops next next' limit l op slot w :
  placed ops next l → in_u8 op → table_value op false = Some w →
  (next ≤ next' ≤ limit)%nat → (limit ≤ 32)%nat →
  (0xc5 ∈ ops ++ [op] → (limit ≤ 31)%nat) →
  (fixed_slot op = Some slot ∨ (fixed_slot op = None ∧ slot = next ∧ 2 ≤ next < next')%nat) →
  placed (ops ++ [op]) next' (<[slot := w]> l).
Proof.
  intros [Hlen Hul Honly Hall] Hop Hw Hnext Hlimit Hc5 Hslot.
  assert (slot < COMMAND_TABLE_SLOTS)%nat as Hsl.
  { unfold COMMAND_TABLE_SLOTS. destruct Hslot as [Hf|(_ & -> & ?)]; [|lia].
    apply fixed_slot_spec in Hf. naive_solver lia. }
  destruct (table_value_ok _ _ _ Hop Hw) as (_ & _ & Hwu & _).
  split.
  - by rewrite length_insert.
  - by apply unlocked_insert.
  - intros i w' [(<- & <- & _)|[_ Hi]]%list_lookup_insert_Some.
    + right. exists op. split; [set_solver|done].
    + destruct (Honly _ _ Hi) as [->|(op' & Ho & Hv)]; [by left|right].
      exists op'. split; [set_solver|done].
  - intros op' [Ho|Ho]%elem_of_app.
    2:{ apply list_elem_of_singleton in Ho as ->. exists slot, w. split; [done|].
        split; [apply list_lookup_insert_eq; lia|].
        destruct Hslot as [?|(? & -> & ?)]; [by left|right]. split; [done|lia]. }
    destruct (Hall _ Ho) as (i & w' & Hv & Hi & Hwhere).
    destruct (decide (i = slot)) as [->|Hne].
    + assert (fixed_slot op = Some slot ∧ op' = op) as [_ ->].
      { destruct Hslot as [Hf|(Hf & -> & Hr)].
        - split; [done|]. destruct Hwhere as [Hf'|[Hf' Hr']].
          + apply fixed_slot_spec in Hf, Hf'. naive_solver lia.
          + exfalso. apply fixed_slot_spec in Hf as [[_ ->]|[[_ ->]|[-> ->]]]; [lia..|].
            assert (limit ≤ 31)%nat by (apply Hc5; set_solver). lia.
        - exfalso. destruct Hwhere as [Hf'|[_ Hr']]; [|lia].
          apply fixed_slot_spec in Hf' as [[_ ->]|[[_ ->]|[-> ->]]]; [lia..|].
          assert (limit ≤ 31)%nat by (apply Hc5; set_solver). lia. }
      exists slot, w. split; [done|]. split; [apply list_lookup_insert_eq; lia|].
      destruct Hslot as [?|(? & -> & ?)]; [by left|right]. split; [done|lia].
    + exists i, w'. split; [done|]. split; [by rewrite list_lookup_insert_ne|].
      destruct Hwhere as [?|[? ?]]; [by left|right]. split; [done|lia].
Qed.

Lemma program_places rest ops next limit n r :
  placed ops next (v_cmds (view r)) → Forall in_u8 rest → count_general rest = Ok n →
  (2 ≤ next)%nat → (next + n ≤ limit)%nat → (limit ≤ 32)%nat →
  (0xc5 ∈ ops ++ rest → (limit ≤ 31)%nat) →
  dwp (program_commands rest next limit)
    (λ a r', a = Ok () ∧ ∃ l next', view r' = with_cmds l (view r) ∧
       placed (ops ++ rest) next' l) r.
Proof.
  revert ops next n r. induction rest as [|op rest IH];
    intros ops next n r Hp Hu8 Hcount Hn Hfit Hlim Hc5; cbn [program_commands].
  { apply dwp_ret. split; [done|]. exists (v_cmds (view r)), next.
    split; [by destruct (view r)|]. by rewrite app_nil_r. }
  apply Forall_cons_1 in Hu8 as [Hop Hu8]. cbn [count_general] in Hcount.
  destruct (table_value op false) as [w|] eqn:Hw; [|done].
  apply dwp_bind, dwp_lift. cbn [ok_or].
  assert (∃ slot next' n', count_general rest = Ok n' ∧ (next ≤ next')%nat ∧
    (next' + n' ≤ limit)%nat ∧
    (fixed_slot op = Some slot ∨ (fixed_slot op = None ∧ slot = next ∧ 2 ≤ next < next')%nat) ∧
    dwp (match fixed_slot op with
         | Some slot => mret (slot, next)
         | None => require (next <? limit)%nat NoCommandSlot;; mret (next, S next)
         end) (λ a r', a = Ok (slot, next') ∧ r' = r) r)
    as (slot & next' & n' & Hcount' & Hle & Hfit' & Hslot & Hpick).
  { destruct (fixed_slot op) as [slot|].
    - exists slot, next, n. repeat split; [done|lia|lia|by left].
    - destruct (count_general rest) as [n'|e] eqn:Hc; [|done]. cbn in Hcount. simplify_eq.
      exists next, (S next), n'. split; [done|]. split; [lia|]. split; [lia|].
      split; [right; split; [done|]; split; [done|lia]|].
      apply dwp_bind, dwp_require; [intros _; by apply dwp_ret|].
      intros E. apply Nat.ltb_ge in E. lia. }
  apply dwp_bind. eapply dwp_mono; [exact Hpick|]. intros a r' [-> ->]. cbn beta iota.
  assert (placed (ops ++ [op]) next' (<[slot := w]> (v_cmds (view r)))) as Hp'.
  { eapply (placed_insert _ _ _ limit); [done..|lia|done| |done].
    intros Hin. apply Hc5. set_solver. }
  assert (slot < COMMAND_TABLE_SLOTS)%nat as Hsl.
  { unfold COMMAND_TABLE_SLOTS. destruct Hslot as [Hf|(_ & -> & ?)]; [|lia].
    apply fixed_slot_spec in Hf. naive_solver lia. }
  destruct (lookup_lt_is_Some_2 (v_cmds (view r)) slot) as [old Hold]; [by rewrite cmds_length|].
  apply dwp_bind, (dwp_write_cmd _ _ old); [done|]. intros r1 Hr1.
  rewrite (placed_unlocked _ _ _ Hp _ _ Hold) in Hr1.
  apply dwp_bind, dwp_read_cmd; [done|]. intros w' Hw'.
  rewrite Hr1 in Hw'. cbn [v_cmds with_cmds] in Hw'.
  rewrite list_lookup_insert_eq in Hw' by (by rewrite cmds_length). injection Hw' as <-.
  apply dwp_bind, dwp_require; [intros _|by rewrite Z.eqb_refl].
  eapply dwp_mono.
  { apply (IH (ops ++ [op]) next' n'); try done; [by rewrite Hr1|lia|].
    intros Hin. apply Hc5. set_solver. }
  intros a r2 [-> (l & nx & Hr2 & Hpl)]. split; [done|]. exists l, nx.
  rewrite <- app_assoc in Hpl. split; [by rewrite Hr2, Hr1|done].
Qed.

(** ** Applying a policy *)

(** Arrays of the declared sizes, [u8] opcodes, [u32] bounds. *)
Record policy_wf (p : SpiMonitorPolicy) : Prop := {
  pw_commands : length (allow_commands p) = MAX_CMD_SLOTS;
  pw_regions : length (regions p) = MAX_REGION_SLOTS;
  pw_opcodes : Forall in_u8 (allow_commands p);
  pw_bounds rg : Some rg ∈ regions p → in_u32 (rg_start rg) ∧ in_u32 (rg_length rg);
}.

(** The general slots: slot 31 is kept for WREAR when the policy has it. *)
Definition general_limit (p : SpiMonitorPolicy) : nat :=
  if existsb (Z.eqb 0xc5) (policy_opcodes p) then LAST_GENERAL_COMMAND_SLOT_EXCLUSIVE
  else COMMAND_TABLE_SLOTS.

Lemma general_limit_range p : (31 ≤ general_limit p ≤ 32)%nat.
Proof.
  unfold general_limit, LAST_GENERAL_COMMAND_SLOT_EXCLUSIVE, COMMAND_TABLE_SLOTS.
  case_match; lia.
Qed.

Lemma general_limit_wrear p : 0xc5 ∈ policy_opcodes p → general_limit p = 31%nat.
Proof.
  intros Hin. unfold general_limit.
  rewrite (proj2 (existsb_exists (Z.eqb 0xc5) (policy_opcodes p))); [done|].
  exists 0xc5. split; [by apply list_elem_of_In|done].
Qed.

(** The policy can be programmed: counts within the arrays, known commands, slots
    for all of them, valid regions. *)
Definition policy_fits (p : SpiMonitorPolicy) : Prop :=
  (allow_command_count p ≤ MAX_CMD_SLOTS)%nat ∧ (region_count p ≤ MAX_REGION_SLOTS)%nat ∧
  (∃ n, count_general (policy_opcodes p) = Ok n ∧
        (n ≤ general_limit p - FIRST_GENERAL_COMMAND_SLOT)%nat) ∧
  ∀ rg, Some rg ∈ policy_regions p → region_valid (rg_start rg) (rg_length rg).

(** Nothing of the policy registers is locked. *)
Definition hw_open (v : SpimView) : Prop :=
  Z.land (v_lock v) LOCK_STATUS_REQUIRED = 0 ∧ unlocked (v_cmds v).

(** The filter passes what the policy asks for. *)
Definition enforces (p : SpiMonitorPolicy) (v : SpimView) : Prop :=
  (∀ op, cmd_allowed v op ↔ op ∈ policy_opcodes p) ∧
  (∀ d addr, 0 ≤ addr < PRIVILEGE_ADDRESS_LIMIT →
     addr_allowed v d addr = policy_allows (policy_regions p) d addr).

Lemma open_flags v :
  hw_open v → has_flag (v_lock v) LOCK_CTRL = false ∧
    ∀ d, has_flag (v_lock v) (privilege_lock_bit d) = false.
Proof.
  intros [Hl _]. split; [|intros []]; apply (has_flag_sub _ _ LOCK_STATUS_REQUIRED); done.
Qed.

Lemma placed_allows ops next v op :
  placed ops next (v_cmds v) → Forall in_u8 ops → cmd_allowed v op ↔ op ∈ ops.
Proof.
  intros [_ _ Honly Hall] Hu8. rewrite Forall_forall in Hu8. split.
  - intros (slot & w & Hs & <- & Hv). destruct (Honly _ _ Hs) as [->|(op & Ho & Hw)]; [done|].
    destruct (table_value_ok _ _ _ (Hu8 _ Ho) Hw) as (-> & _). done.
  - intros Ho. destruct (Hall _ Ho) as (i & w & Hw & Hi & _).
    destruct (table_value_ok _ _ _ (Hu8 _ Ho) Hw) as (Hop & Hv & _). by exists i, w.
Qed.

Lemma placed_nil : placed [] 2 (replicate COMMAND_TABLE_SLOTS 0).
Proof.
  split; [done| |..].
  - intros i w [-> _]%lookup_replicate_1. done.
  - intros i w [-> _]%lookup_replicate_1. by left.
  - intros op Ho. by apply elem_of_nil in Ho.
Qed.

Lemma no_locked_slot r Q :
  (unlocked (v_cmds (view r)) → Q (Ok ()) r) → (¬ unlocked (v_cmds (view r)) → Q (Err Locked) r) →
  dwp (drv_for (seq 0 COMMAND_TABLE_SLOTS) (λ slot,
    v ← read_allow_cmd_slot slot; require (Z.land v COMMAND_LOCKED =? 0) Locked)) Q r.
Proof.
  intros Hok Herr.
  apply (dwp_for (λ done r', r' = r ∧
    ∀ i w, i ∈ done → v_cmds (view r) !! i = Some w → has_flag w COMMAND_LOCKED = false)).
  - split; [done|]. intros i w Hi. by apply elem_of_nil in Hi.
  - intros d x rest r' Hl [-> Hd].
    pose proof (seq_split_lt _ _ _ _ Hl) as Hx.
    apply dwp_bind, dwp_read_cmd; [done|]. intros w Hw. rewrite has_flag_false.
    apply dwp_require; rewrite ?negb_true_iff, ?negb_false_iff; intros Hf.
    + split; [done|]. intros i w' [Hi|Hi]%elem_of_app Hw'; [by eapply Hd|].
      apply list_elem_of_singleton in Hi as ->. congruence.
    + apply Herr. intros Hu. rewrite (Hu _ _ Hw) in Hf. done.
  - intros r' [-> Hd]. apply Hok. intros i w Hw. apply (Hd i w); [|done].
    apply elem_of_seq. apply lookup_lt_Some in Hw. rewrite cmds_length in Hw. lia.
Qed.

Lemma regions_valid rgs r Q :
  ((∀ rg, Some rg ∈ rgs → validate_privilege_region (rg_start rg) (rg_length rg) = Ok ()) →
     Q (Ok ()) r) →
  (∀ rg e, Some rg ∈ rgs → validate_privilege_region (rg_start rg) (rg_length rg) = Err e →
     Q (Err e) r) →
  dwp (drv_for (omap id rgs) (λ region,
    lift (validate_privilege_region (rg_start region) (rg_length region)))) Q r.
Proof.
  intros Hok Herr.
  apply (dwp_for (λ done r', r' = r ∧ ∀ rg, rg ∈ done →
    validate_privilege_region (rg_start rg) (rg_length rg) = Ok ())).
  - split; [done|]. intros rg Hi. by apply elem_of_nil in Hi.
  - intros d x rest r' Hl [-> Hd]. apply dwp_lift.
    destruct (validate_privilege_region _ _) as [[]|e] eqn:E.
    + split; [done|]. intros rg [Hi|Hi]%elem_of_app; [by apply Hd|].
      by apply list_elem_of_singleton in Hi as ->.
    + apply (Herr x); [|done]. assert (x ∈ omap id rgs) as Hx by (rewrite Hl; apply elem_of_app; right; left).
      apply list_elem_of_omap in Hx as (o & Ho & Hid).
      unfold id in Hid. by subst o.
  - intros r' [-> Hd]. apply Hok. intros rg Hrg. apply Hd, list_elem_of_omap. by exists (Some rg).
Qed.

(** The regions in order over all-allowed bitmaps. *)
Lemma regions_fold rgs r :
  (∀ rg, Some rg ∈ rgs → region_valid (rg_start rg) (rg_length rg)) →
  has_flag (v_lock (view r)) LOCK_CTRL = false →
  (∀ d, has_flag (v_lock (view r)) (privilege_lock_bit d) = false) →
  (∀ d b, 0 ≤ b < 16384 → blk (v_tbl d (view r)) b = true) →
  dwp (drv_for rgs (λ o,
    match o with
    | Some region =>
        configure_privilege_region (rg_start region) (rg_length region) (rg_direction region)
          (rg_op region)
    | None => mret ()
    end))
    (λ a r', a = Ok () ∧ v_cmds (view r') = v_cmds (view r) ∧ v_lock (view r') = v_lock (view r) ∧
       ∀ d b, 0 ≤ b < 16384 → blk (v_tbl d (view r')) b = foldl (region_says d b) true rgs) r.
Proof.
  intros Hv Hc Hl Hall.
  apply (dwp_for (λ done r', v_cmds (view r') = v_cmds (view r) ∧
    v_lock (view r') = v_lock (view r) ∧
    ∀ d b, 0 ≤ b < 16384 → blk (v_tbl d (view r')) b = foldl (region_says d b) true done)).
  - done.
  - intros dn [rg|] rest r' Hrgs (Hcmds & Hlock & Hblk).
    2:{ apply dwp_ret. split; [done|]. split; [done|]. intros d b Hb.
        rewrite foldl_app. cbn [foldl region_says]. by apply Hblk. }
    eapply dwp_mono.
    { apply configure_sets; [apply Hv; rewrite Hrgs; set_solver|by rewrite Hlock|by rewrite Hlock]. }
    intros a r1 [-> (t & Hr1 & Hlen & Ht)]. rewrite Hr1, v_cmds_with_tbl, v_lock_with_tbl.
    split; [done|]. split; [done|]. intros d b Hb.
    rewrite foldl_app. cbn [foldl region_says]. rewrite <- Hblk by done.
    destruct (decide (rg_direction rg = d)) as [<-|Hne].
    + rewrite v_tbl_with_tbl, bool_decide_eq_true_2, Ht by done. by destruct rg.
    + rewrite v_tbl_with_tbl_ne, bool_decide_eq_false_2 by done. by destruct d.
  - intros r' HI. done.
Qed.

(** From an open monitor and a policy that fits, the programming passes. *)
Lemma program_enforces p n r :
  policy_wf p → hw_open (view r) →
  (allow_command_count p ≤ MAX_CMD_SLOTS)%nat → (region_count p ≤ MAX_REGION_SLOTS)%nat →
  count_general (policy_opcodes p) = Ok n →
  (n ≤ general_limit p - FIRST_GENERAL_COMMAND_SLOT)%nat →
  (∀ rg, Some rg ∈ policy_regions p → region_valid (rg_start rg) (rg_length rg)) →
  dwp (drv_for (seq 0 COMMAND_TABLE_SLOTS) (λ slot, write_allow_cmd_slot slot 0);;
       program_commands (policy_opcodes p) FIRST_GENERAL_COMMAND_SLOT (general_limit p);;
       initialize_privilege_table Read;;
       initialize_privilege_table Write;;
       drv_for (policy_regions p) (λ o,
         match o with
         | Some region =>
             configure_privilege_region (rg_start region) (rg_length region)
               (rg_direction region) (rg_op region)
         | None => mret ()
         end))
    (λ a r', a = Ok () ∧ enforces p (view r') ∧ hw_open (view r')) r.
Proof.
  intros Hwf Hopen Hcc Hrc Hcount Hn Hregions.
  pose proof (open_flags _ Hopen) as [Hctrl Hpriv]. destruct Hopen as [Hlock Hunl].
  assert (Forall in_u8 (policy_opcodes p)) as Hu8 by (apply Forall_take, Hwf).
  apply dwp_bind. eapply dwp_mono; [by apply clear_commands|]. intros a r1 [-> Hr1].
  apply dwp_bind. eapply dwp_mono.
  { apply (program_places _ [] _ _ n); [rewrite Hr1; apply placed_nil|done|done|done|..].
    - pose proof (general_limit_range p). unfold FIRST_GENERAL_COMMAND_SLOT in *. lia.
    - pose proof (general_limit_range p). lia.
    - intros Hin. by rewrite general_limit_wrear. }
  intros a r2 [-> (l & nx & Hr2 & Hpl)]. cbn [app] in Hpl.
  apply dwp_bind. eapply dwp_mono.
  { apply initialize_sets; rewrite Hr2, Hr1; [done|apply (Hpriv Read)]. }
  intros a r3 [-> Hr3]. apply dwp_bind. eapply dwp_mono.
  { apply initialize_sets; rewrite Hr3, v_lock_with_tbl, Hr2, Hr1; [done|apply (Hpriv Write)]. }
  intros a r4 [-> Hr4].
  assert (v_lock (view r4) = v_lock (view r)) as Hl4.
  { by rewrite Hr4, v_lock_with_tbl; cbn [v_lock with_ctrl];
      rewrite Hr3, v_lock_with_tbl; cbn [v_lock with_ctrl]; rewrite Hr2, Hr1. }
  assert (v_cmds (view r4) = l) as Hc4.
  { by rewrite Hr4, v_cmds_with_tbl; cbn [v_cmds with_ctrl];
      rewrite Hr3, v_cmds_with_tbl; cbn [v_cmds with_ctrl]; rewrite Hr2. }
  eapply dwp_mono.
  { apply regions_fold; [done|by rewrite Hl4|intros d; by rewrite Hl4|].
    intros [] b Hb; rewrite Hr4; cbn; [|by apply blk_replicate].
    rewrite Hr3. cbn. by apply blk_replicate. }
  intros a r5 [-> (Hc5 & Hl5 & Hb5)]. split; [done|]. split; [split|].
  - intros op. apply (placed_allows _ nx); [by rewrite Hc5, Hc4|done].
  - intros d addr Ha. unfold addr_allowed, policy_allows. apply Hb5.
    unfold PRIVILEGE_ADDRESS_LIMIT, PRIVILEGE_BLOCK_SIZE in *.
    split; [apply Z.div_pos; lia|apply Z.div_lt_upper_bound; lia].
  - split; [by rewrite Hl5, Hl4|]. rewrite Hc5, Hc4. apply Hpl.
Qed.

(** [apply_policy] succeeds exactly on an open monitor and a policy that fits,
    and then the filter enforces the policy; otherwise it refuses without a
    write. *)
Lemma apply_policy_spec p r :
  policy_wf p →
  dwp (apply_policy p) (λ a r',
    match a with
    | Ok _ => hw_open (view r) ∧ policy_fits p ∧ enforces p (view r') ∧ hw_open (view r')
    | Err _ => r' = r ∧ (¬ hw_open (view r) ∨ ¬ policy_fits p)
    end) r.
Proof.
  intros Hwf. unfold apply_policy. rewrite (pw_commands _ Hwf).
  apply dwp_bind, dwp_require; [intros Hcc%Nat.leb_le|intros Hcc%Nat.leb_gt].
  2:{ split; [done|right]. intros (? & _). lia. }
  apply dwp_bind, dwp_require; [intros Hrc%Nat.leb_le|intros Hrc%Nat.leb_gt].
  2:{ split; [done|right]. intros (_ & ? & _). lia. }
  apply dwp_bind, dwp_reads. rewrite view_lock. apply dwp_bind, dwp_require;
    [intros Hlock%Z.eqb_eq|intros Hlock%Z.eqb_neq].
  2:{ split; [done|left]. by intros [? _]. }
  apply dwp_bind, no_locked_slot; [intros Hunl|intros Hunl].
  2:{ split; [done|left]. by intros [_ ?]. }
  fold (policy_opcodes p) (policy_regions p) (general_limit p).
  apply dwp_bind, dwp_lift. destruct (count_general (policy_opcodes p)) as [n|e] eqn:Hcount.
  2:{ split; [done|right]. intros (_ & _ & (n & Hn & _) & _). congruence. }
  apply dwp_bind, dwp_require; [intros Hn%Nat.leb_le|intros Hn%Nat.leb_gt].
  2:{ split; [done|right]. intros (_ & _ & (n' & Hn' & Hle) & _).
      rewrite Hcount in Hn'. injection Hn' as ->. lia. }
  apply dwp_bind, regions_valid.
  2:{ intros rg e Hrg He. split; [done|right]. intros (_ & _ & _ & Hval).
      rewrite validate_ok in He by (by apply Hval). done. }
  intros Hval.
  assert (∀ rg, Some rg ∈ policy_regions p → region_valid (rg_start rg) (rg_length rg)) as Hregions.
  { intros rg Hrg. assert (Some rg ∈ regions p) as Hin by (apply elem_of_take in Hrg as (i & Hi & _); by eapply list_elem_of_lookup_2).
    destruct (pw_bounds _ Hwf _ Hin) as [[? _] [? _]]. apply validate_valid; auto. }
  eapply dwp_mono; [by apply (program_enforces p n)|].
  intros a r' (-> & He & Ho). split; [done|]. split; [|done].
  split; [done|]. split; [done|]. split; [by exists n|done].
Qed.
End laws.
