(* ===== verification/SpimLock.v ===== *)
(** * The SPI monitor: commands as a set, and the lock

    Adding and removing commands changes exactly the opcode named; a commissioned
    monitor filters by its policy whatever is written to its registers later. *)

From S2P Require Import Prelude Bytes RegMonad Spim SpimRun.
From stdpp Require Import base tactics option list numbers sets.
Local Open Scope Z_scope.

(** ** Locked registers *)

(** Every policy register is locked. *)
Definition frozen (v : SpimView) : Prop :=
  Z.land (v_lock v) LOCK_STATUS_REQUIRED = LOCK_STATUS_REQUIRED ∧
  ∀ i w, v_cmds v !! i = Some w → has_flag w COMMAND_LOCKED = true.

(** The monitor is on and nothing bypasses it. *)
Definition filtering (v : SpimView) : Prop :=
  has_flag (v_ctrl v) CTRL_MONITOR_ENABLE_BIT = true ∧
  has_flag (v_ctrl v) CTRL_PASSTHROUGH_MASK = false.

(** A write to any register of the block. *)
Inductive RegWrite :=
| WCtrl (z : Z) | WCtrl2 (z : Z) | WLogBase (z : Z) | WLogCtrl (z : Z) | WLock (z : Z)
| WCommand (i : nat) (z : Z) | WFilter (i : nat) (z : Z).

Definition in_block (w : RegWrite) : Prop :=
  match w with
  | WCommand i _ => (i < COMMAND_TABLE_SLOTS)%nat
  | WFilter i _ => (i < PRIVILEGE_TABLE_WORDS)%nat
  | _ => True
  end.

Definition raw_write {R} `{Spipf R} (r : R) (w : RegWrite) : R :=
  match w with
  | WCtrl z => set_spipf000 r z
  | WCtrl2 z => set_spipf004 r z
  | WLogBase z => set_spipf010 r z
  | WLogCtrl z => set_spipf014 r z
  | WLock z => set_spipf07c r z
  | WCommand i z => set_spipfwt r i z
  | WFilter i z => set_spipfwa r i z
  end.

Lemma frozen_flag v m :
  frozen v → m ≠ 0 → Z.land LOCK_STATUS_REQUIRED m = m → has_flag (v_lock v) m = true.
Proof.
  intros [Hl _] Hm Hsub. unfold has_flag. apply negb_true_iff, Z.eqb_neq.
  rewrite <- Hsub, Z.land_assoc, Hl, Hsub. done.
Qed.

Lemma lor_land_absorb a b : Z.lor a (Z.land b a) = a.
Proof.
  apply Z.bits_inj'. intros n Hn. rewrite Z.lor_spec, Z.land_spec.
  by destruct (Z.testbit a n), (Z.testbit b n).
Qed.

Lemma lor_locked w : has_flag w COMMAND_LOCKED = true → Z.lor w COMMAND_LOCKED = w.
Proof.
  intros Hf. apply Z.bits_inj'. intros n Hn. rewrite Z.lor_spec. unfold COMMAND_LOCKED in *.
  rewrite testbit_shiftl_1 by lia. destruct (Z.eqb_spec n 23) as [->|]; [|apply orb_false_r].
  rewrite orb_true_r. symmetry. destruct (Z.testbit w 23) eqn:E; [done|].
  exfalso. revert Hf. unfold has_flag. rewrite negb_true_iff, Z.eqb_neq. intros Hf. apply Hf.
  apply Z.bits_inj'. intros m Hm. rewrite Z.land_spec, Z.bits_0, testbit_shiftl_1 by lia.
  destruct (Z.eqb_spec m 23) as [->|]; [by rewrite E|apply andb_false_r].
Qed.

Lemma lor_locked_opcode w : Z.land (Z.lor w COMMAND_LOCKED) 0xff = Z.land w 0xff.
Proof.
  rewrite Z.land_lor_distr_l. change (Z.land COMMAND_LOCKED 0xff) with 0. apply Z.lor_0_r.
Qed.

Lemma lor_locked_valid w :
  has_flag (Z.lor w COMMAND_LOCKED) (Z.lor VALID VALID_ONCE) = has_flag w (Z.lor VALID VALID_ONCE).
Proof.
  unfold has_flag. rewrite Z.land_lor_distr_l.
  change (Z.land COMMAND_LOCKED (Z.lor VALID VALID_ONCE)) with 0. by rewrite Z.lor_0_r.
Qed.

Section lock.
Context {R : Type} `{SpipfLaws R}.
Implicit Types r : R.

Lemma frozen_raw_write r w :
  frozen (view r) → in_block w →
  frozen (view (raw_write r w)) ∧
  view (raw_write r w) = with_lock (v_lock (view (raw_write r w))) (view r).
Proof.
  intros Hf Hw.
  assert (∀ d, has_flag (v_lock (view r)) (privilege_lock_bit d) = true) as Hpriv
    by (intros []; by apply frozen_flag).
  assert (∀ v', v' = view r → frozen v' ∧ v' = with_lock (v_lock v') (view r)) as Hsame.
  { intros v' ->. split; [done|]. by destruct (view r). }
  destruct w as [z|z|z|z|z|i z|i z]; cbn [raw_write in_block] in *.
  - apply Hsame. rewrite view_set_ctrl, (frozen_flag _ LOCK_CTRL); done.
  - apply Hsame, view_set_ctrl2.
  - apply Hsame, view_set_log_base.
  - apply Hsame, view_set_log_ctrl.
  - rewrite view_set_lock. split; [|by cbn [v_lock with_lock]]. destruct Hf as [Hl Hc].
    split; [|done]. cbn [v_lock with_lock].
    by rewrite Z.land_lor_distr_l, Hl, lor_land_absorb.
  - apply Hsame. rewrite view_set_cmd by done. destruct Hf as [_ Hc].
    by rewrite (Hc i _ (view_cmd r i Hw)).
  - by apply Hsame, view_set_word_locked.
Qed.

(** Nothing written later changes a locked filter. *)
Lemma frozen_raw_writes ws r :
  frozen (view r) → Forall in_block ws →
  let v := view (foldl raw_write r ws) in
  v_ctrl v = v_ctrl (view r) ∧ v_cmds v = v_cmds (view r) ∧ ∀ d, v_tbl d v = v_tbl d (view r).
Proof.
  revert r. induction ws as [|w ws IH]; intros r Hf Hws; [done|].
  apply Forall_cons_1 in Hws as [Hw Hws]. cbn [foldl].
  destruct (frozen_raw_write r w Hf Hw) as [Hf' Hv].
  destruct (IH _ Hf' Hws) as (Hc & Hm & Ht). cbv zeta. rewrite Hc, Hm, Hv.
  split; [done|]. split; [done|]. intros d. rewrite Ht, Hv. by destruct d.
Qed.

(** [lock] locks every entry and register, and keeps what the filter passes. *)
Lemma lock_freezes r :
  dwp lock (λ a r', a = Ok () ∧ frozen (view r') ∧
    v_cmds (view r') = (λ w, Z.lor w COMMAND_LOCKED) <$> v_cmds (view r) ∧
    (∀ d, v_tbl d (view r') = v_tbl d (view r)) ∧
    v_ctrl (view r') = if has_flag (v_lock (view r)) LOCK_CTRL then v_ctrl (view r)
      else Z.lor (v_ctrl (view r)) (Z.lor CTRL_BLOCK_FIFO_LOCK CTRL_SW_RESET_LOCK)) r.
Proof.
  unfold lock.
  apply dwp_bind, (dwp_for (λ done r', ∃ l, view r' = with_cmds l (view r) ∧
    length l = COMMAND_TABLE_SLOTS ∧ ∀ i w, v_cmds (view r) !! i = Some w →
      ∃ w', l !! i = Some w' ∧ Z.lor w' COMMAND_LOCKED = Z.lor w COMMAND_LOCKED ∧
            (i ∈ done → w' = Z.lor w COMMAND_LOCKED))).
  { exists (v_cmds (view r)). split; [by destruct (view r)|]. split; [apply cmds_length|].
    intros i w Hw. exists w. split; [done|]. split; [done|]. intros Hi. by apply elem_of_nil in Hi. }
  { intros d x rest r' Hl (l & Hr' & Hlen & Hinv).
    pose proof (seq_split_lt _ _ _ _ Hl) as Hx.
    apply dwp_bind, dwp_read_cmd; [done|]. intros cur Hcur.
    apply (dwp_write_cmd _ _ cur); [done|]. intros r'' Hr''.
    assert (view r'' = with_cmds (<[x := Z.lor cur COMMAND_LOCKED]> l) (view r)) as Hv.
    { rewrite Hr'', Hr'. rewrite Hr' in Hcur. cbn [v_cmds with_cmds] in Hcur.
      destruct (has_flag cur COMMAND_LOCKED) eqn:E; [|done].
      rewrite lor_locked by done. by rewrite list_insert_id. }
    exists (<[x := Z.lor cur COMMAND_LOCKED]> l). split; [done|].
    split; [by rewrite length_insert|]. intros i w Hw.
    destruct (Hinv _ _ Hw) as (w' & Hw' & Hor & Hd).
    destruct (decide (i = x)) as [->|Hne].
    - rewrite Hr' in Hcur. cbn [v_cmds with_cmds] in Hcur.
      rewrite Hw' in Hcur. injection Hcur as <-.
      exists (Z.lor w' COMMAND_LOCKED). rewrite list_lookup_insert_eq by lia.
      split; [done|]. split; [by rewrite <- Z.lor_assoc, Z.lor_diag|]. by intros _.
    - exists w'. rewrite list_lookup_insert_ne by done. split; [done|]. split; [done|].
      intros [Hi|Hi]%elem_of_app; [by apply Hd|]. by apply list_elem_of_singleton in Hi. }
  intros r1 (l & Hr1 & Hlen & Hinv).
  assert (l = (λ w, Z.lor w COMMAND_LOCKED) <$> v_cmds (view r)) as ->.
  { apply list_eq_same_length with COMMAND_TABLE_SLOTS;
      [by rewrite length_fmap, cmds_length|done|].
    intros i x y Hi Hx Hy. rewrite list_lookup_fmap in Hy.
    destruct (lookup_lt_is_Some_2 (v_cmds (view r)) i) as [w Hw]; [by rewrite cmds_length|].
    rewrite Hw in Hy. injection Hy as <-. destruct (Hinv _ _ Hw) as (w' & Hw' & _ & Hd).
    rewrite Hx in Hw'. injection Hw' as <-. apply Hd, elem_of_seq. lia. }
  assert (∀ i w, ((λ w, Z.lor w COMMAND_LOCKED) <$> v_cmds (view r)) !! i = Some w →
    has_flag w COMMAND_LOCKED = true) as Hlocked.
  { intros i w. rewrite list_lookup_fmap, fmap_Some. intros (w' & _ & ->). by apply has_flag_lor. }
  apply dwp_bind, dwp_bind, dwp_reads, dwp_writes.
  set (r2 := set_spipf000 r1 _).
  assert (view r2 = with_ctrl (if has_flag (v_lock (view r)) LOCK_CTRL then v_ctrl (view r)
      else Z.lor (v_ctrl (view r)) (Z.lor CTRL_BLOCK_FIFO_LOCK CTRL_SW_RESET_LOCK)) (view r1))
    as Hr2.
  { unfold r2. rewrite view_set_ctrl, view_ctrl, Hr1. cbn [v_lock v_ctrl with_cmds].
    by destruct (has_flag _ _). }
  apply dwp_bind, dwp_bind, dwp_reads, dwp_writes. rewrite view_lock.
  set (r3 := set_spipf07c r2 _).
  assert (view r3 = with_lock (Z.lor (v_lock (view r)) LOCK_STATUS_REQUIRED) (view r2)) as Hr3.
  { unfold r3. rewrite view_set_lock, Hr2, Hr1. cbn [v_lock with_ctrl with_cmds].
    by rewrite Z.lor_assoc, Z.lor_diag. }
  assert (Z.land (v_lock (view r3)) LOCK_STATUS_REQUIRED = LOCK_STATUS_REQUIRED) as Hreq.
  { rewrite Hr3. cbn [v_lock with_lock]. rewrite Z.land_lor_distr_l, Z.land_diag.
    by rewrite Z.lor_comm, lor_land_absorb. }
  assert (v_cmds (view r3) = (λ w, Z.lor w COMMAND_LOCKED) <$> v_cmds (view r)) as Hcmds.
  { by rewrite Hr3, Hr2, Hr1. }
  apply dwp_bind, dwp_reads. rewrite view_lock, Hreq.
  apply dwp_bind, dwp_require; [intros _|by rewrite Z.eqb_refl].
  apply (dwp_for (λ _ r', r' = r3)); [done|..].
  { intros d x rest r' Hl ->. pose proof (seq_split_lt _ _ _ _ Hl) as Hx.
    apply dwp_bind, dwp_read_cmd; [done|]. intros w Hw. rewrite Hcmds in Hw.
    apply Hlocked in Hw. rewrite has_flag_false, Hw. by apply dwp_require. }
  intros r' ->. split; [done|]. split; [split; [done|by rewrite Hcmds]|].
  split; [done|]. split; [intros []; by rewrite Hr3, Hr2, Hr1|]. by rewrite Hr3, Hr2.
Qed.

Lemma enforces_ext p v v' :
  (∀ op, cmd_allowed v' op ↔ cmd_allowed v op) → (∀ d, v_tbl d v' = v_tbl d v) →
  enforces p v → enforces p v'.
Proof.
  intros Hc Ht [He Ha]. split; [intros op; by rewrite Hc|].
  intros d addr Hr. unfold addr_allowed. rewrite Ht. by apply Ha.
Qed.

Lemma cmd_allowed_locked v v' :
  v_cmds v' = (λ w, Z.lor w COMMAND_LOCKED) <$> v_cmds v →
  ∀ op, cmd_allowed v' op ↔ cmd_allowed v op.
Proof.
  intros Hl op. unfold cmd_allowed. split.
  - intros (slot & w & Hw & Hop & Hv). rewrite Hl, list_lookup_fmap, fmap_Some in Hw.
    destruct Hw as (w' & Hw' & ->). exists slot, w'.
    by rewrite lor_locked_opcode in Hop; rewrite lor_locked_valid in Hv.
  - intros (slot & w & Hw & Hop & Hv). exists slot, (Z.lor w COMMAND_LOCKED).
    by rewrite Hl, list_lookup_fmap, Hw, lor_locked_opcode, lor_locked_valid.
Qed.

(** A log buffer the monitor accepts, if there is one. *)
Definition log_ok (log : option (Z * list Z)) : Prop :=
  match log with
  | Some (address, buffer) =>
      (0 < length buffer ≤ MAX_LOG_ENTRIES)%nat ∧ Z.land address 3 = 0 ∧ address ≤ u32_MAX
  | None => True
  end.

Lemma configure_log_view address buffer r :
  log_ok (Some (address, buffer)) →
  dwp (configure_log address buffer) (λ a r', a = Ok (replicate (length buffer) 0) ∧
    view r' = view r) r.
Proof.
  intros (Hb & Ha & Hu). unfold configure_log, write_log_config.
  apply dwp_bind, dwp_require.
  2:{ rewrite andb_false_iff, negb_false_iff, Nat.eqb_eq, Nat.leb_gt. lia. }
  intros _. apply dwp_bind, dwp_require.
  2:{ rewrite andb_false_iff, Z.eqb_neq, Z.leb_gt. naive_solver lia. }
  intros _. dwp_steps. split; [done|]. by rewrite view_set_log_ctrl, view_set_log_base.
Qed.

(** Switching the filter on. *)
Lemma switch_on r :
  has_flag (v_lock (view r)) LOCK_CTRL = false →
  dwp (set_push_pull true;; set_passthrough PassDisabled;; enable) (λ a r', a = Ok () ∧
    view r' = with_ctrl (Z.lor (Z.land (v_ctrl (view r)) (not_u32 CTRL_PASSTHROUGH_MASK))
                          CTRL_MONITOR_ENABLE_BIT) (view r)) r.
Proof.
  intros Hl. unfold set_push_pull, modify_ctrl2, read_ctrl2, write_ctrl2. dwp_steps.
  apply dwp_modify_ctrl; [by rewrite view_set_ctrl2|]. intros r1 Hr1.
  apply dwp_modify_ctrl; [rewrite Hr1; cbn; by rewrite view_set_ctrl2|]. intros r2 Hr2.
  split; [done|]. by rewrite Hr2, Hr1, !view_set_ctrl2.
Qed.

Lemma filtering_on z :
  let c := Z.lor (Z.lor (Z.land z (not_u32 CTRL_PASSTHROUGH_MASK)) CTRL_MONITOR_ENABLE_BIT)
             (Z.lor CTRL_BLOCK_FIFO_LOCK CTRL_SW_RESET_LOCK) in
  has_flag c CTRL_MONITOR_ENABLE_BIT = true ∧ has_flag c CTRL_PASSTHROUGH_MASK = false.
Proof.
  cbv zeta. split; [by apply has_flag_lor_mono, has_flag_lor|].
  unfold has_flag. rewrite !Z.land_lor_distr_l, <- Z.land_assoc.
  change (Z.land (not_u32 CTRL_PASSTHROUGH_MASK) CTRL_PASSTHROUGH_MASK) with 0.
  by rewrite Z.land_0_r.
Qed.

Lemma commission_holds p log r :
  policy_wf p → hw_open (view r) → policy_fits p → log_ok log →
  dwp (commission p log) (λ a r', a = Ok () ∧ frozen (view r') ∧ enforces p (view r') ∧
    filtering (view r')) r.
Proof.
  intros Hwf Hopen Hfits Hlog. unfold commission.
  apply dwp_bind. eapply dwp_mono; [by apply apply_policy_spec|].
  intros [[]|e] r1; [|intros [_ [?|?]]; done].
  intros (_ & _ & Henf & Hopen1). pose proof (open_flags _ Hopen1) as [Hctrl _].
  apply dwp_bind, (dwp_mono _ (λ a r', a = Ok () ∧ view r' = view r1)).
  { destruct log as [[address buffer]|]; [|by apply dwp_ret].
    apply dwp_bind. eapply dwp_mono; [by apply configure_log_view|].
    intros a r' [-> Hr']. by apply dwp_ret. }
  intros a r2 [-> Hr2].
  assert (dwp (set_push_pull true;; set_passthrough PassDisabled;; enable)
    (λ a r', a = Ok () ∧ view r' = with_ctrl (Z.lor (Z.land (v_ctrl (view r1))
       (not_u32 CTRL_PASSTHROUGH_MASK)) CTRL_MONITOR_ENABLE_BIT) (view r1)) r2) as Hon.
  { rewrite <- Hr2. apply switch_on. by rewrite Hr2. }
  apply dwp_run in Hon as (r3 & a & Hrun & -> & Hr3).
  apply (dwp_seq3 (set_push_pull true) (set_passthrough PassDisabled) enable lock _ r2 r3 Hrun).
  eapply dwp_mono; [apply lock_freezes|]. intros a r4 (-> & Hf & Hcmds & Htbl & Hc).
  split; [done|]. split; [done|]. rewrite Hr3 in Hcmds, Hc.
  cbn [v_lock v_ctrl with_ctrl] in Hc. rewrite Hctrl in Hc. split.
  - apply (enforces_ext p (view r1)); [by apply cmd_allowed_locked| |done].
    intros d. rewrite Htbl, Hr3. by destruct d.
  - unfold filtering. rewrite Hc. apply filtering_on.
Qed.

(** A commissioned monitor enforces its policy for good.  On a monitor whose
    policy registers are not locked, commissioning with a policy that fits
    succeeds; from then on, whatever is written to any register of the block, the
    monitor filters, passes exactly the policy's commands, and allows each address
    what the last region of the policy touching its 16 KiB block says (everything
    where no region does). *)
Lemma commission_is_final p log r :
  policy_wf p → policy_fits p → log_ok log → hw_open (view r) →
  ∃ r', commission p log r = Some (r', Ok ()) ∧
    ∀ ws, Forall in_block ws →
      let v := view (foldl raw_write r' ws) in
      filtering v ∧ (∀ op, cmd_allowed v op ↔ op ∈ policy_opcodes p) ∧
      ∀ d addr, 0 ≤ addr < PRIVILEGE_ADDRESS_LIMIT →
        addr_allowed v d addr = policy_allows (policy_regions p) d addr.
Proof.
  intros Hwf Hfits Hlog Hopen.
  destruct (dwp_run _ _ _ (commission_holds p log r Hwf Hopen Hfits Hlog))
    as (r' & a & Hrun & -> & Hf & Henf & Hfil).
  exists r'. split; [done|]. intros ws Hws.
  destruct (frozen_raw_writes ws r' Hf Hws) as (Hc & Hm & Ht). cbv zeta.
  split; [by unfold filtering; rewrite Hc|].
  apply (enforces_ext p (view r')); [|done|done].
  intros op. unfold cmd_allowed. by rewrite Hm.
Qed.

(** C8: [apply_policy] is all or nothing.  It succeeds exactly when nothing of
    the policy registers is locked and the policy fits (known commands, a slot for
    each, valid regions), and then the filter passes exactly what the policy asks
    for; otherwise it returns an error and has written nothing. *)
Theorem policy_applied_or_refused p r :
  policy_wf p →
  ∃ r' a, apply_policy p r = Some (r', a) ∧
    match a with
    | Ok _ => hw_open (view r) ∧ policy_fits p ∧ enforces p (view r')
    | Err _ => r' = r ∧ (¬ hw_open (view r) ∨ ¬ policy_fits p)
    end.
Proof.
  intros Hwf. destruct (dwp_run _ _ _ (apply_policy_spec p r Hwf)) as (r' & a & Hrun & Ha).
  exists r', a. split; [done|]. destruct a; tauto.
Qed.

(** Configuring a region sets exactly the 16 KiB blocks the region touches in
    the bitmap of its direction to its permission, word at a time where a whole
    word is covered; every other block, the other bitmap and the commands are as
    before. *)
Theorem region_sets_touched_blocks start length d op r :
  region_valid start length → has_flag (v_lock (view r)) LOCK_CTRL = false →
  has_flag (v_lock (view r)) (privilege_lock_bit d) = false →
  ∃ r', configure_region start length d op r = Some (r', Ok ()) ∧
    v_cmds (view r') = v_cmds (view r) ∧ v_lock (view r') = v_lock (view r) ∧
    ∀ d' b, 0 ≤ b < 16384 →
      blk (v_tbl d' (view r')) b =
        if bool_decide (d' = d) && touches (mkRegion start length d op) b then op_bit op
        else blk (v_tbl d' (view r)) b.
Proof.
  intros Hv Hc Hl.
  assert (dwp (configure_region start length d op) (λ a r', a = Ok () ∧
    ∃ t, view r' = with_tbl d t (with_ctrl (select_bits d (v_ctrl (view r))) (view r)) ∧
      ∀ b, 0 ≤ b < 16384 → blk t b = if touches (mkRegion start length d op) b then op_bit op
        else blk (v_tbl d (view r)) b) r) as Hw.
  { apply dwp_bind, dwp_reads. rewrite view_lock, has_flag_false, Hl.
    apply dwp_bind, dwp_require; [intros _|done].
    eapply dwp_mono; [by apply configure_sets|]. naive_solver. }
  apply dwp_run in Hw as (r' & a & Hrun & -> & t & Hr' & Ht). exists r'. split; [done|].
  rewrite Hr', v_cmds_with_tbl, v_lock_with_tbl. split; [done|]. split; [done|].
  intros d' b Hb. destruct (decide (d' = d)) as [->|Hne].
  - by rewrite v_tbl_with_tbl, bool_decide_eq_true_2, Ht.
  - rewrite v_tbl_with_tbl_ne, bool_decide_eq_false_2 by done. by destruct d'.
Qed.
End lock.

(** ** Adding and removing commands *)

Section commands.
Context {R : Type} `{SpipfLaws R}.
Implicit Types r : R.

Definition opcode_at (v : SpimView) (slot : nat) (op : Z) : Prop :=
  ∃ w, v_cmds v !! slot = Some w ∧ Z.land w 0xff = op.

Lemma find_unlocked_spec slots op r Q :
  (∀ s, s ∈ slots → (s < COMMAND_TABLE_SLOTS)%nat) →
  (∀ s w, v_cmds (view r) !! s = Some w → Z.land w 0xff = op →
     has_flag w COMMAND_LOCKED = false → Q (Ok (Some s)) r) →
  ((∀ s w, s ∈ slots → v_cmds (view r) !! s = Some w → Z.land w 0xff = op →
      has_flag w COMMAND_LOCKED = true) → Q (Ok None) r) →
  dwp (find_unlocked slots op) Q r.
Proof.
  intros Hlt Hsome. revert Hlt. induction slots as [|s slots IH]; intros Hlt Hnone;
    cbn [find_unlocked].
  { apply dwp_ret, Hnone. intros s w Hs. by apply elem_of_nil in Hs. }
  apply dwp_bind, dwp_read_cmd; [apply Hlt; left|]. intros w Hw. rewrite has_flag_false.
  destruct (Z.eqb_spec (Z.land w 0xff) op) as [Hop|Hop]; cbn [andb].
  - destruct (has_flag w COMMAND_LOCKED) eqn:Hl; cbn [negb]; [|by apply dwp_ret, (Hsome s w)].
    apply IH; [intros; apply Hlt; by right|]. intros Hall. apply Hnone.
    intros s' w' [->|Hs']%elem_of_cons Hw' Hop'; [congruence|by eapply Hall].
  - apply IH; [intros; apply Hlt; by right|]. intros Hall. apply Hnone.
    intros s' w' [->|Hs']%elem_of_cons Hw' Hop'; [congruence|by eapply Hall].
Qed.

Lemma find_empty_spec slots r Q :
  (∀ s, s ∈ slots → (s < COMMAND_TABLE_SLOTS)%nat) →
  (∀ s, v_cmds (view r) !! s = Some 0 → Q (Ok (Some s)) r) → Q (Ok None) r →
  dwp (find_empty slots) Q r.
Proof.
  intros Hlt Hsome Hnone. induction slots as [|s slots IH]; cbn [find_empty]; [by apply dwp_ret|].
  apply dwp_bind, dwp_read_cmd; [apply Hlt; left|]. intros w Hw.
  destruct (Z.eqb_spec w 0) as [->|_]; [by apply dwp_ret, Hsome|].
  apply IH. intros; apply Hlt; by right.
Qed.

(** Overwriting an entry that is empty or of the same opcode. *)
Lemma cmd_allowed_insert v slot old w op op' :
  v_cmds v !! slot = Some old → old = 0 ∨ Z.land old 0xff = op →
  w = 0 ∨ Z.land w 0xff = op → op' ≠ op →
  cmd_allowed (with_cmds (<[slot := w]> (v_cmds v)) v) op' ↔ cmd_allowed v op'.
Proof.
  intros Hold Ho Hw Hne. pose proof (lookup_lt_Some _ _ _ Hold) as Hlt.
  unfold cmd_allowed. cbn [v_cmds with_cmds]. split.
  - intros (s & x & Hx & Hop & Hv). destruct (decide (s = slot)) as [->|Hs].
    + rewrite list_lookup_insert_eq in Hx by done. injection Hx as <-.
      destruct Hw as [->|Hw]; [done|congruence].
    + rewrite list_lookup_insert_ne in Hx by done. by exists s, x.
  - intros (s & x & Hx & Hop & Hv). destruct (decide (s = slot)) as [->|Hs].
    + rewrite Hold in Hx. injection Hx as <-. destruct Ho as [->|Ho]; [done|congruence].
    + exists s, x. by rewrite list_lookup_insert_ne.
Qed.

Lemma write_entry slot old w r (Q : result nat SpiMonitorError → R → Prop) :
  v_cmds (view r) !! slot = Some old → has_flag old COMMAND_LOCKED = false →
  (∀ r', view r' = with_cmds (<[slot := w]> (v_cmds (view r))) (view r) → Q (Ok slot) r') →
  dwp (write_allow_cmd_slot slot w;; verify_command_slot slot w) Q r.
Proof.
  intros Hold Hu HQ. pose proof (lookup_lt_Some _ _ _ Hold) as Hlt. rewrite cmds_length in Hlt.
  apply dwp_bind, (dwp_write_cmd _ _ old); [done|]. rewrite Hu. intros r' Hr'.
  apply dwp_bind, dwp_read_cmd; [done|]. intros w' Hw'. rewrite Hr' in Hw'.
  cbn [v_cmds with_cmds] in Hw'. rewrite list_lookup_insert_eq in Hw' by (by rewrite cmds_length).
  injection Hw' as <-. apply dwp_bind, dwp_require; [intros _|by rewrite Z.eqb_refl].
  by apply dwp_ret, HQ.
Qed.

Lemma add_command_adds op once r :
  in_u8 op →
  dwp (add_command op once) (λ a r',
    match a with
    | Ok _ => cmd_allowed (view r') op ∧
              ∀ op', op' ≠ op → cmd_allowed (view r') op' ↔ cmd_allowed (view r) op'
    | Err _ => r' = r
    end) r.
Proof.
  intros Hop. unfold add_command. apply dwp_bind, dwp_lift.
  destruct (table_value op once) as [w|] eqn:Hw; cbn [ok_or]; [|done].
  destruct (table_value_ok _ _ _ Hop Hw) as (Hwop & Hwv & _ & _).
  assert (∀ slot old, v_cmds (view r) !! slot = Some old → old = 0 ∨ Z.land old 0xff = op →
    has_flag old COMMAND_LOCKED = false →
    dwp (write_allow_cmd_slot slot w;; verify_command_slot slot w) (λ a r',
      match a with
      | Ok _ => cmd_allowed (view r') op ∧
                ∀ op', op' ≠ op → cmd_allowed (view r') op' ↔ cmd_allowed (view r) op'
      | Err _ => r' = r
      end) r) as Hwrite.
  { intros slot old Hold Ho Hu. apply (write_entry _ old); [done..|]. intros r' Hr'. rewrite Hr'.
    split; [|intros op' Hne; apply (cmd_allowed_insert _ _ old _ op); auto].
    exists slot, w. split; [|done]. apply list_lookup_insert_eq. by apply lookup_lt_Some in Hold. }
  apply dwp_bind, find_unlocked_spec.
  { intros s Hs. apply elem_of_seq in Hs. lia. }
  { intros s old Hs Ho Hu. apply (Hwrite _ old); auto. }
  intros Hlocked.
  assert (∀ slot, (slot < COMMAND_TABLE_SLOTS)%nat →
    (∀ cur, v_cmds (view r) !! slot = Some cur → cur = 0 ∨ Z.land cur 0xff = op) →
    dwp (current ← read_allow_cmd_slot slot;
         require (Z.land current COMMAND_LOCKED =? 0) Locked;;
         write_allow_cmd_slot slot w;; verify_command_slot slot w) (λ a r',
      match a with
      | Ok _ => cmd_allowed (view r') op ∧
                ∀ op', op' ≠ op → cmd_allowed (view r') op' ↔ cmd_allowed (view r) op'
      | Err _ => r' = r
      end) r) as Hrest.
  { intros slot Hs Hcur. apply dwp_bind, dwp_read_cmd; [done|]. intros cur Hc.
    rewrite has_flag_false. apply dwp_bind, dwp_require; [|done].
    rewrite negb_true_iff. intros Hu. apply (Hwrite _ cur); auto. }
  apply dwp_bind. destruct (fixed_slot op) as [slot|] eqn:Hf.
  - assert (slot < COMMAND_TABLE_SLOTS)%nat as Hs.
    { unfold COMMAND_TABLE_SLOTS. apply fixed_slot_spec in Hf. naive_solver lia. }
    apply dwp_bind, dwp_read_cmd; [done|]. intros cur Hc.
    apply dwp_bind, dwp_require; [|done].
    rewrite negb_true_iff, andb_false_iff, !negb_false_iff, !Z.eqb_eq. intros Hcase.
    apply dwp_ret, Hrest; [done|]. intros cur' Hc'. rewrite Hc in Hc'. by injection Hc' as <-.
  - apply dwp_bind, find_empty_spec; [|intros s Hs|by apply dwp_lift].
    { intros s Hs. apply elem_of_seq in Hs. unfold FIRST_GENERAL_COMMAND_SLOT in *.
      unfold COMMAND_TABLE_SLOTS in *. lia. }
    apply dwp_lift. cbn [ok_or]. apply Hrest.
    + apply lookup_lt_Some in Hs. by rewrite cmds_length in Hs.
    + intros cur Hc. rewrite Hs in Hc. injection Hc as <-. by left.
Qed.

Lemma remove_slots_spec slots op n r :
  (∀ s, s ∈ slots → (s < COMMAND_TABLE_SLOTS)%nat) →
  dwp (remove_slots slots op n) (λ a r',
    (∀ op', op' ≠ op → cmd_allowed (view r') op' ↔ cmd_allowed (view r) op') ∧
    (∀ s, s ∉ slots → v_cmds (view r') !! s = v_cmds (view r) !! s) ∧
    match a with
    | Ok _ => ∀ s w, s ∈ slots → v_cmds (view r') !! s = Some w → w = 0 ∨ Z.land w 0xff ≠ op
    | Err e => e = Locked ∧ ∃ s w, v_cmds (view r) !! s = Some w ∧ Z.land w 0xff = op ∧
                 has_flag w COMMAND_LOCKED = true
    end) r.
Proof.
  revert n r. induction slots as [|s slots IH]; intros n r Hlt; cbn [remove_slots].
  { apply dwp_ret. split; [done|]. split; [done|]. intros s w Hs. by apply elem_of_nil in Hs. }
  assert (s < COMMAND_TABLE_SLOTS)%nat as Hs by (apply Hlt; left).
  assert (∀ s', s' ∈ slots → (s' < COMMAND_TABLE_SLOTS)%nat) as Hlt' by (intros; apply Hlt; by right).
  apply dwp_bind, dwp_read_cmd; [done|]. intros w Hw.
  destruct (Z.eqb_spec (Z.land w 0xff) op) as [Hop|Hop].
  2:{ eapply dwp_mono; [by apply IH|]. intros a r' (Ho & Hout & Ha). split; [done|].
      split; [intros s' Hs'; apply Hout; set_solver|]. destruct a as [m|e]; [|done].
      intros s' w' Hin Hw'. destruct (decide (s' ∈ slots)) as [Hi|Hi]; [by eapply Ha|].
      assert (s' = s) as -> by set_solver. rewrite Hout, Hw in Hw' by done.
      injection Hw' as <-. by right. }
  rewrite has_flag_false. apply dwp_bind, dwp_require; rewrite ?negb_true_iff, ?negb_false_iff;
    intros Hu.
  2:{ split; [done|]. split; [done|]. split; [done|]. by exists s, w. }
  assert (∀ Q : result nat SpiMonitorError → R → Prop,
    (∀ r', view r' = with_cmds (<[s := 0]> (v_cmds (view r))) (view r) →
       dwp (remove_slots slots op (S n)) Q r') →
    dwp (write_allow_cmd_slot s 0;; verify_command_slot s 0;; remove_slots slots op (S n)) Q r)
    as Hstep.
  { intros Q HQ. pose proof (lookup_lt_Some _ _ _ Hw) as Hl.
    apply dwp_bind, (dwp_write_cmd _ _ w); [done|]. rewrite Hu. intros r' Hr'.
    apply dwp_bind, dwp_bind, dwp_read_cmd; [done|]. intros w' Hw'. rewrite Hr' in Hw'.
    cbn [v_cmds with_cmds] in Hw'. rewrite list_lookup_insert_eq in Hw' by done.
    injection Hw' as <-. apply dwp_bind, dwp_require; [intros _|done]. apply dwp_ret. by apply HQ. }
  apply Hstep. intros r1 Hr1. eapply dwp_mono; [by apply IH|].
  intros a r' (Ho & Hout & Ha). split; [|split].
  - intros op' Hne. rewrite (Ho op' Hne), Hr1. apply (cmd_allowed_insert _ _ w _ op); auto.
  - intros s' Hs'. rewrite Hout by set_solver. rewrite Hr1. cbn [v_cmds with_cmds].
    apply list_lookup_insert_ne. set_solver.
  - destruct a as [m|e].
    + intros s' w' Hin Hw'. destruct (decide (s' ∈ slots)) as [Hi|Hi]; [by eapply Ha|].
      assert (s' = s) as -> by set_solver. rewrite Hout, Hr1 in Hw' by done.
      cbn [v_cmds with_cmds] in Hw'.
      rewrite list_lookup_insert_eq in Hw' by (by apply lookup_lt_Some in Hw).
      injection Hw' as <-. by left.
    + destruct Ha as [-> (s' & w' & Hw' & Hop' & Hl')]. split; [done|]. rewrite Hr1 in Hw'.
      cbn [v_cmds with_cmds] in Hw'. destruct (decide (s' = s)) as [->|Hne].
      * rewrite list_lookup_insert_eq in Hw' by (by apply lookup_lt_Some in Hw).
        by injection Hw' as <-.
      * rewrite list_lookup_insert_ne in Hw' by done. by exists s', w'.
Qed.
End commands.

(** A call on the command table of a configured monitor. *)
Inductive CommandCall := AddCommand (op : Z) (valid_once : bool) | RemoveCommand (op : Z).

Definition call_op (c : CommandCall) : Z :=
  match c with AddCommand op _ | RemoveCommand op => op end.

Definition run_command {R} `{Spipf R} (c : CommandCall) : @mon R nat :=
  match c with
  | AddCommand op once => add_command op once
  | RemoveCommand op => remove_command op
  end.

(** On any register contents the command table behaves as the set of the
    opcodes that pass: adding a command makes it pass, removing it makes it not
    pass, neither changes any other opcode, and a refused addition changes
    nothing.  No call panics. *)
Theorem command_calls_refine_set {R} `{SpipfLaws R} (c : CommandCall) (r : R) :
  in_u8 (call_op c) →
  ∃ r' a, run_command c r = Some (r', a) ∧
    (∀ op, op ≠ call_op c → cmd_allowed (view r') op ↔ cmd_allowed (view r) op) ∧
    match c, a with
    | AddCommand op _, Ok _ => cmd_allowed (view r') op
    | AddCommand op _, Err _ => r' = r
    | RemoveCommand op, Ok _ => ¬ cmd_allowed (view r') op
    | RemoveCommand op, Err _ => True
    end.
Proof.
  destruct c as [op once|op]; cbn [call_op run_command]; intros Hop.
  - destruct (dwp_run _ _ _ (add_command_adds op once r Hop)) as (r' & a & Hrun & Ha).
    exists r', a. split; [done|]. destruct a as [n|e]; [naive_solver|by subst].
  - assert (dwp (remove_command op) (λ a r',
      (∀ op', op' ≠ op → cmd_allowed (view r') op' ↔ cmd_allowed (view r) op') ∧
      match a with Ok _ => ¬ cmd_allowed (view r') op | Err _ => True end) r) as Hw.
    { apply dwp_bind. eapply dwp_mono; [apply remove_slots_spec|].
      { intros s Hs. apply elem_of_seq in Hs. lia. }
      intros [n|e] r' (Ho & _ & Ha); [|done].
      apply dwp_bind, dwp_require; intros _; [|by split]. apply dwp_ret. split; [done|].
      intros (s & w & Hw & Hop' & Hv). destruct (Ha s w) as [->|?]; [|done..].
      apply elem_of_seq. apply lookup_lt_Some in Hw. rewrite cmds_length in Hw. lia. }
    apply dwp_run in Hw as (r' & a & Hrun & Ho & Ha). exists r', a.
    split; [done|]. split; [done|]. by destruct a.
Qed.

(** ** A register block *)

(** Storage with the lock bits, enough to run the driver on. *)
Record Block := mkBlock {
  b_ctrl : Z; b_ctrl2 : Z; b_log_base : Z; b_log_ctrl : Z; b_lock : Z;
  b_wt : nat → Z; b_rd : nat → Z; b_wr : nat → Z;
}.

Definition upd (f : nat → Z) (i : nat) (z : Z) : nat → Z := λ j, if (j =? i)%nat then z else f j.

Definition block_view (b : Block) : SpimView :=
  mkView (b_ctrl b) (b_lock b) (b_wt b <$> seq 0 COMMAND_TABLE_SLOTS)
    (b_rd b <$> seq 0 PRIVILEGE_TABLE_WORDS) (b_wr b <$> seq 0 PRIVILEGE_TABLE_WORDS).

Definition block_set_word (b : Block) (i : nat) (z : Z) : Block :=
  match selected (block_view b) with
  | Some Read =>
      if has_flag (b_lock b) LOCK_READ_PRIVILEGE then b
      else mkBlock (b_ctrl b) (b_ctrl2 b) (b_log_base b) (b_log_ctrl b) (b_lock b) (b_wt b)
             (upd (b_rd b) i z) (b_wr b)
  | Some Write =>
      if has_flag (b_lock b) LOCK_WRITE_PRIVILEGE then b
      else mkBlock (b_ctrl b) (b_ctrl2 b) (b_log_base b) (b_log_ctrl b) (b_lock b) (b_wt b)
             (b_rd b) (upd (b_wr b) i z)
  | None => b
  end.

#[export] Instance block_spipf : Spipf Block := {
  WT_COUNT := COMMAND_TABLE_SLOTS;
  WA_COUNT := PRIVILEGE_TABLE_WORDS;
  spipf000 := b_ctrl;
  set_spipf000 b z :=
    if has_flag (b_lock b) LOCK_CTRL then b
    else mkBlock z (b_ctrl2 b) (b_log_base b) (b_log_ctrl b) (b_lock b) (b_wt b) (b_rd b) (b_wr b);
  spipf004 := b_ctrl2;
  set_spipf004 b z :=
    mkBlock (b_ctrl b) z (b_log_base b) (b_log_ctrl b) (b_lock b) (b_wt b) (b_rd b) (b_wr b);
  spipf010 := b_log_base;
  set_spipf010 b z :=
    mkBlock (b_ctrl b) (b_ctrl2 b) z (b_log_ctrl b) (b_lock b) (b_wt b) (b_rd b) (b_wr b);
  set_spipf014 b z :=
    mkBlock (b_ctrl b) (b_ctrl2 b) (b_log_base b) z (b_lock b) (b_wt b) (b_rd b) (b_wr b);
  spipf07c := b_lock;
  set_spipf07c b z :=
    mkBlock (b_ctrl b) (b_ctrl2 b) (b_log_base b) (b_log_ctrl b) (Z.lor (b_lock b) z) (b_wt b)
      (b_rd b) (b_wr b);
  spipfwt := b_wt;
  set_spipfwt b i z :=
    if has_flag (b_wt b i) COMMAND_LOCKED then b
    else mkBlock (b_ctrl b) (b_ctrl2 b) (b_log_base b) (b_log_ctrl b) (b_lock b)
           (upd (b_wt b) i z) (b_rd b) (b_wr b);
  spipfwa b :=
    match selected (block_view b) with
    | Some Read => b_rd b | Some Write => b_wr b | None => λ _, 0
    end;
  set_spipfwa := block_set_word;
  block_log_dmawr_pointer _ := 0;
  size_of_block_log_dmabuffer b := Z.land (b_log_ctrl b) (not_u32 LOG_DMA_ENABLE);
  log_ram _ _ _ := 0;
}.

Lemma lookup_table (f : nat → Z) n i : (i < n)%nat → (f <$> seq 0 n) !! i = Some (f i).
Proof. intros Hi. by rewrite list_lookup_fmap, lookup_seq_lt. Qed.

Lemma upd_table (f : nat → Z) n i z :
  (i < n)%nat → upd f i z <$> seq 0 n = <[i := z]> (f <$> seq 0 n).
Proof.
  intros Hi. apply list_eq_same_length with n;
    [by rewrite length_insert, length_fmap, length_seq|by rewrite length_fmap, length_seq|].
  intros j x y Hj Hx Hy. rewrite lookup_table in Hx by done. injection Hx as <-. unfold upd.
  destruct (Nat.eqb_spec j i) as [->|Hne].
  - rewrite list_lookup_insert_eq in Hy by (by rewrite length_fmap, length_seq). congruence.
  - rewrite list_lookup_insert_ne, lookup_table in Hy by done. congruence.
Qed.

#[export] Instance block_laws : SpipfLaws Block.
Proof.
  refine {| view := block_view |}; try done.
  - intros r []; cbn [v_tbl block_view v_rd v_wr]; by rewrite length_fmap, length_seq.
  - intros r z. cbn [set_spipf000 block_spipf]. cbn [v_lock block_view]. by case_match.
  - intros r i Hi. by apply lookup_table.
  - intros r i z Hi. cbn [set_spipfwt spipfwt block_spipf]. case_match; [done|].
    unfold block_view, with_cmds; cbn [b_ctrl b_lock b_wt b_rd b_wr v_ctrl v_lock v_cmds v_rd v_wr].
    f_equal. by apply upd_table.
  - intros r i d Hi Hs. cbn [spipfwa block_spipf]. rewrite Hs. destruct d; by apply lookup_table.
  - intros r i z d Hi Hs. cbn [set_spipfwa block_spipf]. unfold block_set_word. rewrite Hs.
    destruct d; cbn [v_lock block_view privilege_lock_bit]; case_match; try done;
      unfold block_view, with_tbl, v_tbl;
      cbn [b_ctrl b_lock b_wt b_rd b_wr v_ctrl v_lock v_cmds v_rd v_wr]; f_equal;
      by apply upd_table.
  - intros r i z Hi Hl. cbn [set_spipfwa block_spipf]. unfold block_set_word.
    pose proof (Hl Read) as H1. pose proof (Hl Write) as H2.
    cbn [v_lock block_view privilege_lock_bit] in H1, H2. by rewrite H1, H2; repeat case_match.
Defined.

Definition reset_block : Block := mkBlock 0 0 0 0 0 (λ _, 0) (λ _, 0) (λ _, 0).

(** Read-only commands, and the first MiB closed to writes. *)
Definition sealed_policy : SpiMonitorPolicy :=
  match add_region runtime_read_only 0 0x100000 Write Disable with
  | Some (p, _) => p
  | None => runtime_read_only
  end.

Lemma sealed_policy_wf : policy_wf sealed_policy.
Proof.
  constructor; [done|done| |].
  - repeat (apply Forall_cons; split; [by vm_compute|]). by apply Forall_nil.
  - intros rg Hin. assert (rg = region_deny 0 0x100000 Write) as ->; [|by vm_compute; split].
    repeat (apply elem_of_cons in Hin as [Hin|Hin]; [by simplify_eq/=|]).
    by apply elem_of_nil in Hin.
Qed.

Lemma sealed_policy_fits : policy_fits sealed_policy.
Proof.
  split; [vm_compute; lia|]. split; [vm_compute; lia|].
  split; [exists 3%nat; split; [done|vm_compute; lia]|].
  intros rg Hin. assert (rg = region_deny 0 0x100000 Write) as ->.
  { change (policy_regions sealed_policy) with [Some (region_deny 0 0x100000 Write)] in Hin.
    apply list_elem_of_singleton in Hin. by injection Hin. }
  by vm_compute.
Qed.

Lemma sealed_policy_opcodes :
  0x9f ∈ policy_opcodes sealed_policy ∧ 0x20 ∉ policy_opcodes sealed_policy.
Proof.
  change (policy_opcodes sealed_policy) with [0x03; 0x0b; 0x9f].
  by rewrite !elem_of_cons, !elem_of_nil; intuition.
Qed.

Lemma sealed_policy_allows :
  0 ≤ 0x4000 < PRIVILEGE_ADDRESS_LIMIT ∧
  policy_allows (policy_regions sealed_policy) Write 0x4000 = false ∧
  policy_allows (policy_regions sealed_policy) Read 0x4000 = true.
Proof. by vm_compute. Qed.

Lemma reset_block_open : hw_open (view reset_block).
Proof.
  split; [done|]. intros i w Hw. cbn [view block_laws v_cmds block_view b_wt reset_block] in Hw.
  apply list_lookup_fmap_Some in Hw as (j & -> & _). done.
Qed.

Lemma policy_applied_or_refused_witness :
  policy_wf sealed_policy ∧
  ∃ r', apply_policy sealed_policy reset_block = Some (r', Ok ()) ∧ enforces sealed_policy (view r').
Proof.
  split; [exact sealed_policy_wf|].
  destruct (policy_applied_or_refused (R := Block) sealed_policy reset_block sealed_policy_wf)
    as (r' & [[]|e] & Hrun & Ha).
  - exists r'. split; [exact Hrun|]. exact (proj2 (proj2 Ha)).
  - destruct Ha as [_ [Hn|Hn]]; [destruct (Hn reset_block_open)|destruct (Hn sealed_policy_fits)].
Defined.

Lemma region_sets_touched_blocks_witness :
  ∃ r', configure_region 0x4000 0x8000 Write Enable reset_block = Some (r', Ok ()) ∧
    blk (v_tbl Write (view r')) 2 = true ∧ blk (v_tbl Write (view r')) 3 = false ∧
    blk (v_tbl Read (view r')) 2 = false.
Proof.
  destruct (region_sets_touched_blocks (R := Block) 0x4000 0x8000 Write Enable reset_block)
    as (r' & Hrun & _ & _ & Hb); [by vm_compute|done|done|].
  exists r'. split; [exact Hrun|]. rewrite !Hb by lia. by vm_compute.
Defined.

Lemma command_calls_refine_set_witness :
  in_u8 (call_op (AddCommand 0x9f false)) ∧
  ∃ r' a, run_command (AddCommand 0x9f false) reset_block = Some (r', a) ∧
    (cmd_allowed (view r') 0x9f ∨ r' = reset_block).
Proof.
  split; [done|].
  destruct (command_calls_refine_set (R := Block) (AddCommand 0x9f false) reset_block)
    as (r' & a & Hrun & _ & Ha); [done|].
  exists r', a. split; [exact Hrun|]. destruct a; [left|right]; exact Ha.
Defined.

(** ** Two surprises of the command table *)

(** Locking opcode 0, which no command has, locks every empty entry: no command
    can be added afterwards. *)
Lemma lock_opcode_zero_fills_table :
  snd <$> (lock_command 0;; add_command 0x03 false) reset_block = Some (Err NoCommandSlot).
Proof. by vm_compute. Qed.

(** With a locked and an unlocked entry of one opcode, [remove_command] stops at
    the locked one with an error and leaves the unlocked one in place. *)
Lemma remove_stops_at_locked :
  snd <$> (add_command 0x03 false;; lock_command 0x03;; add_command 0x03 false;;
           remove_command 0x03) reset_block = Some (Err Locked).
Proof. by vm_compute. Qed.
