(* ===== verification/Soc.v ===== *)
(** * The system control unit

    [target/ast10x0/peripherals/scu]: pin multiplexing ([pinctrl.rs]) and the
    routing of the SPI monitors ([routing.rs]), with the GPIO banks both use.

    The registers, which a vendored crate describes, are the type class [Soc]: a
    register is a block and an offset, and the fields the code names without
    their position are members of the class.  The calls are functions on the
    hardware; [None] is the panic of an array access.

    A second part holds the clocks, resets, data cache and status of the unit
    ([clock.rs], [reset.rs], [cache.rs], [status.rs]). *)

From S2P Require Import Prelude Bytes RegMonad Spim.
From stdpp Require Import base tactics option list numbers.
Local Open Scope Z_scope.

(** ** Types *)

Inductive SpiMonitorInstance := Spim0 | Spim1 | Spim2 | Spim3.
Inductive SpiMonitorSource := Spi1 | Spi2.
Inductive ScuExtMuxSelect := Mux0 | Mux1.
Inductive SpiMonitorPassthrough := ScuPassDisabled | ScuPassEnabled.
Inductive ScuError := InvalidMonitorInstance | InvalidMuxSelection.

#[export] Instance SpiMonitorInstance_eq_dec : EqDecision SpiMonitorInstance.
Proof. solve_decision. Defined.
#[export] Instance ScuExtMuxSelect_eq_dec : EqDecision ScuExtMuxSelect.
Proof. solve_decision. Defined.

Definition mux_as_bool (m : ScuExtMuxSelect) : bool := match m with Mux0 => false | Mux1 => true end.
Definition passthrough_is_enabled (p : SpiMonitorPassthrough) : bool :=
  match p with ScuPassEnabled => true | ScuPassDisabled => false end.

(** [instance as u8]. *)
Definition instance_u8 (i : SpiMonitorInstance) : Z :=
  match i with Spim0 => 0 | Spim1 => 1 | Spim2 => 2 | Spim3 => 3 end.

(** ** Registers *)

Inductive Bank := ScuBank | GpioBank | SgpiomBank.
#[export] Instance Bank_eq_dec : EqDecision Bank.
Proof. solve_decision. Defined.

Definition Reg : Type := Bank * Z.
Notation scu o := (ScuBank, o).
Notation gpio o := (GpioBank, o).
Notation sgpio o := (SgpiomBank, o).

(** Reading and writing a register, the positions of the monitors' fields of
    SCU0F0, SCU690 and SCU694, and the effects of the field writers that turn on
    the serial GPIO pins and the serial GPIO master. *)
Class Soc (S : Type) : Type := {
  rd : S → Reg → Z;
  wr : S → Reg → Z → S;
  passthrough_field : SpiMonitorInstance → Z;
  filter_field : SpiMonitorInstance → Z;
  ext_mux_field : SpiMonitorInstance → Z;
  misoin_field : SpiMonitorInstance → Z;
  sgpiomaster_pins_on : Z → Z;
  sgpiomaster_on : Z → Z;
}.

(** [value | mask] or [value & !mask]. *)
Definition update_bit (value mask : Z) (set : bool) : Z :=
  if set then Z.lor value mask else Z.land value (not_u32 mask).

(** The writer [.field().bit(b)] of a one-bit field at position [n]. *)
Definition field_bit (value n : Z) (b : bool) : Z := update_bit value (Z.shiftl 1 n) b.

Section regs.
Context {S : Type} `{Soc S}.

Definition modify (x : Reg) (f : Z → Z) (s : S) : S := wr s x (f (rd s x)).

Definition SCU_UNLOCK_KEY : Z := 0x1688a8a8.
Definition unlock_write_protection (s : S) : S := wr s (scu 0x000) SCU_UNLOCK_KEY.
End regs.

(** ** Pin control *)

Record PinctrlPin := mkPin { pin_offset : Z; pin_bit : Z; pin_clear : bool }.

(** The constants of [gen_pin_pairs!]: for each of the registers below and each
    bit, one that sets the bit and one that clears it. *)
Definition PIN (offset bit : Z) : PinctrlPin := mkPin offset bit false.
Definition CLR_PIN (offset bit : Z) : PinctrlPin := mkPin offset bit true.

(** The registers [apply_pinctrl_group] knows. *)
Definition PINCTRL_REGISTERS : list Z :=
  [0x410; 0x414; 0x418; 0x41c; 0x430; 0x434; 0x4b0; 0x4b4; 0x4b8; 0x4bc; 0x690; 0x694; 0x698;
   0x69c; 0x6b0].

Definition apply_pin {S} `{Soc S} (s : S) (pin : PinctrlPin) : S :=
  if existsb (Z.eqb (pin_offset pin)) PINCTRL_REGISTERS
  then modify (scu (pin_offset pin))
         (λ val, update_bit val (Z.shiftl 1 (pin_bit pin)) (negb (pin_clear pin))) s
  else s.

Definition apply_pinctrl_group {S} `{Soc S} (pins : list PinctrlPin) (s : S) : S :=
  foldl apply_pin s pins.

(** The groups of GPIO ports A to H, in order. *)
Definition PINCTRL_GPIO_A_H : list (list PinctrlPin) := [
  [CLR_PIN 0x410 0; CLR_PIN 0x4b0 0; CLR_PIN 0x690 0];
  [CLR_PIN 0x410 1; CLR_PIN 0x4b0 1; CLR_PIN 0x690 1];
  [CLR_PIN 0x410 2; CLR_PIN 0x4b0 2; CLR_PIN 0x690 2];
  [CLR_PIN 0x410 3; CLR_PIN 0x4b0 3; CLR_PIN 0x690 3];
  [CLR_PIN 0x410 4; CLR_PIN 0x4b0 4; CLR_PIN 0x690 4];
  [CLR_PIN 0x410 5; CLR_PIN 0x4b0 5; CLR_PIN 0x690 5];
  [CLR_PIN 0x410 6; CLR_PIN 0x4b0 6; CLR_PIN 0x690 6];
  [CLR_PIN 0x410 7; CLR_PIN 0x4b0 7; CLR_PIN 0x690 7];
  [CLR_PIN 0x410 8; CLR_PIN 0x4b0 8; CLR_PIN 0x690 8];
  [CLR_PIN 0x410 9; CLR_PIN 0x4b0 9; CLR_PIN 0x690 9];
  [CLR_PIN 0x410 10; CLR_PIN 0x4b0 10; CLR_PIN 0x690 10];
  [CLR_PIN 0x410 11; CLR_PIN 0x4b0 11; CLR_PIN 0x690 11];
  [CLR_PIN 0x410 12; CLR_PIN 0x4b0 12; CLR_PIN 0x690 12];
  [CLR_PIN 0x410 13; CLR_PIN 0x4b0 13; CLR_PIN 0x690 13];
  [CLR_PIN 0x410 14; CLR_PIN 0x4b0 14; CLR_PIN 0x690 14];
  [CLR_PIN 0x410 15; CLR_PIN 0x4b0 15; CLR_PIN 0x690 15];
  [CLR_PIN 0x410 16; CLR_PIN 0x4b0 16; CLR_PIN 0x690 16];
  [CLR_PIN 0x410 17; CLR_PIN 0x4b0 17; CLR_PIN 0x690 17];
  [CLR_PIN 0x410 18; CLR_PIN 0x4b0 18; CLR_PIN 0x690 18];
  [CLR_PIN 0x410 19; CLR_PIN 0x4b0 19; CLR_PIN 0x690 19];
  [CLR_PIN 0x410 20; CLR_PIN 0x4b0 20; CLR_PIN 0x690 20];
  [CLR_PIN 0x410 21; CLR_PIN 0x4b0 21; CLR_PIN 0x690 21];
  [CLR_PIN 0x410 22; CLR_PIN 0x4b0 22; CLR_PIN 0x690 22];
  [CLR_PIN 0x410 23; CLR_PIN 0x4b0 23; CLR_PIN 0x690 23];
  [CLR_PIN 0x410 24; CLR_PIN 0x4b0 24; CLR_PIN 0x690 24];
  [CLR_PIN 0x410 25; CLR_PIN 0x4b0 25; CLR_PIN 0x690 25];
  [CLR_PIN 0x410 26; CLR_PIN 0x4b0 26; CLR_PIN 0x690 26];
  [CLR_PIN 0x410 27; CLR_PIN 0x4b0 27; CLR_PIN 0x690 27];
  [CLR_PIN 0x410 28; CLR_PIN 0x4b0 28; CLR_PIN 0x690 28];
  [CLR_PIN 0x410 29; CLR_PIN 0x4b0 29; CLR_PIN 0x690 29];
  [CLR_PIN 0x410 30; CLR_PIN 0x4b0 30; CLR_PIN 0x690 30];
  [CLR_PIN 0x410 31; CLR_PIN 0x4b0 31; CLR_PIN 0x690 31];
  [CLR_PIN 0x414 0; CLR_PIN 0x4b4 0; CLR_PIN 0x694 0];
  [CLR_PIN 0x414 1; CLR_PIN 0x4b4 1; CLR_PIN 0x694 1];
  [CLR_PIN 0x414 2; CLR_PIN 0x4b4 2; CLR_PIN 0x694 2];
  [CLR_PIN 0x414 3; CLR_PIN 0x4b4 3; CLR_PIN 0x694 3];
  [CLR_PIN 0x414 4; CLR_PIN 0x4b4 4; CLR_PIN 0x694 4];
  [CLR_PIN 0x414 5; CLR_PIN 0x4b4 5; CLR_PIN 0x694 5];
  [CLR_PIN 0x414 6; CLR_PIN 0x4b4 6; CLR_PIN 0x694 6];
  [CLR_PIN 0x414 7; CLR_PIN 0x4b4 7; CLR_PIN 0x694 7];
  [CLR_PIN 0x414 8; CLR_PIN 0x4b4 8; CLR_PIN 0x694 8];
  [CLR_PIN 0x414 9; CLR_PIN 0x4b4 9; CLR_PIN 0x694 9];
  [CLR_PIN 0x414 10; CLR_PIN 0x4b4 10; CLR_PIN 0x694 10];
  [CLR_PIN 0x414 11; CLR_PIN 0x4b4 11; CLR_PIN 0x694 11];
  [CLR_PIN 0x414 12; CLR_PIN 0x4b4 12; CLR_PIN 0x694 12];
  [CLR_PIN 0x414 13; CLR_PIN 0x4b4 13; CLR_PIN 0x694 13];
  [CLR_PIN 0x414 14; CLR_PIN 0x4b4 14; CLR_PIN 0x694 14];
  [CLR_PIN 0x414 15; CLR_PIN 0x4b4 15; CLR_PIN 0x694 15];
  [CLR_PIN 0x414 16; CLR_PIN 0x4b4 16; CLR_PIN 0x694 16];
  [CLR_PIN 0x414 17; CLR_PIN 0x4b4 17; CLR_PIN 0x694 17];
  [CLR_PIN 0x414 18; CLR_PIN 0x4b4 18; CLR_PIN 0x694 18];
  [CLR_PIN 0x414 19; CLR_PIN 0x4b4 19; CLR_PIN 0x694 19];
  [CLR_PIN 0x414 20; CLR_PIN 0x4b4 20; CLR_PIN 0x694 20];
  [CLR_PIN 0x414 21; CLR_PIN 0x4b4 21; CLR_PIN 0x694 21];
  [CLR_PIN 0x414 22; CLR_PIN 0x4b4 22; CLR_PIN 0x694 22];
  [CLR_PIN 0x414 23; CLR_PIN 0x4b4 23; CLR_PIN 0x694 23];
  [CLR_PIN 0x414 24; CLR_PIN 0x4b4 24; CLR_PIN 0x694 24];
  [CLR_PIN 0x414 25; CLR_PIN 0x4b4 25; CLR_PIN 0x694 25];
  [CLR_PIN 0x414 26; CLR_PIN 0x4b4 26; CLR_PIN 0x694 26];
  [CLR_PIN 0x414 27; CLR_PIN 0x4b4 27; CLR_PIN 0x694 27];
  [CLR_PIN 0x414 28; CLR_PIN 0x4b4 28; CLR_PIN 0x694 28];
  [CLR_PIN 0x414 29; CLR_PIN 0x4b4 29; CLR_PIN 0x694 29]; [CLR_PIN 0x414 30]; [CLR_PIN 0x414 31]
].

(** The groups of GPIO ports I to U, in order. *)
Definition PINCTRL_GPIO_I_U : list (list PinctrlPin) := [
  [CLR_PIN 0x418 0]; [CLR_PIN 0x418 1]; [CLR_PIN 0x418 2]; [CLR_PIN 0x418 3]; [CLR_PIN 0x418 4];
  [CLR_PIN 0x418 5]; [CLR_PIN 0x418 6]; [CLR_PIN 0x418 7]; [CLR_PIN 0x418 8; CLR_PIN 0x4b8 8];
  [CLR_PIN 0x418 9; CLR_PIN 0x4b8 9]; [CLR_PIN 0x418 10; CLR_PIN 0x4b8 10];
  [CLR_PIN 0x418 11; CLR_PIN 0x4b8 11]; [CLR_PIN 0x418 12; CLR_PIN 0x4b8 12];
  [CLR_PIN 0x418 13; CLR_PIN 0x4b8 13]; [CLR_PIN 0x418 14; CLR_PIN 0x4b8 14];
  [CLR_PIN 0x418 15; CLR_PIN 0x4b8 15]; [CLR_PIN 0x418 16; CLR_PIN 0x4b8 16];
  [CLR_PIN 0x418 17; CLR_PIN 0x4b8 17]; [CLR_PIN 0x418 18; CLR_PIN 0x4b8 18];
  [CLR_PIN 0x418 19; CLR_PIN 0x4b8 19]; [CLR_PIN 0x418 20; CLR_PIN 0x4b8 20];
  [CLR_PIN 0x418 21; CLR_PIN 0x4b8 21]; [CLR_PIN 0x418 22; CLR_PIN 0x4b8 22];
  [CLR_PIN 0x418 23; CLR_PIN 0x4b8 23]; [CLR_PIN 0x418 24]; [CLR_PIN 0x418 25]; [CLR_PIN 0x418 26];
  [CLR_PIN 0x418 27]; [CLR_PIN 0x418 28; CLR_PIN 0x4b8 28; CLR_PIN 0x698 28];
  [CLR_PIN 0x418 29; CLR_PIN 0x4b8 29; CLR_PIN 0x698 29];
  [CLR_PIN 0x418 30; CLR_PIN 0x4b8 30; CLR_PIN 0x698 30];
  [CLR_PIN 0x418 31; CLR_PIN 0x4b8 31; CLR_PIN 0x698 31]; [CLR_PIN 0x41c 0]; [CLR_PIN 0x41c 1];
  [CLR_PIN 0x41c 2]; [CLR_PIN 0x41c 3]; [CLR_PIN 0x41c 4]; [CLR_PIN 0x41c 5]; [CLR_PIN 0x41c 8];
  [CLR_PIN 0x41c 9; CLR_PIN 0x4bc 9; CLR_PIN 0x69c 9]; [CLR_PIN 0x41c 10];
  [CLR_PIN 0x41c 11; CLR_PIN 0x4bc 11; CLR_PIN 0x69c 11]; [CLR_PIN 0x41c 12; CLR_PIN 0x4bc 12];
  [CLR_PIN 0x41c 13; CLR_PIN 0x4bc 13]; [CLR_PIN 0x41c 14; CLR_PIN 0x4bc 14];
  [CLR_PIN 0x41c 15; CLR_PIN 0x4bc 15]; [CLR_PIN 0x41c 16; CLR_PIN 0x4bc 16];
  [CLR_PIN 0x41c 17; CLR_PIN 0x4bc 17]; [CLR_PIN 0x41c 18; CLR_PIN 0x4bc 18];
  [CLR_PIN 0x41c 19; CLR_PIN 0x4bc 19]; [CLR_PIN 0x41c 20; CLR_PIN 0x4bc 20; CLR_PIN 0x69c 20];
  [CLR_PIN 0x41c 21; CLR_PIN 0x4bc 21; CLR_PIN 0x69c 21];
  [CLR_PIN 0x41c 22; CLR_PIN 0x4bc 22; CLR_PIN 0x69c 22];
  [CLR_PIN 0x41c 23; CLR_PIN 0x4bc 23; CLR_PIN 0x69c 23];
  [CLR_PIN 0x41c 24; CLR_PIN 0x4bc 24; CLR_PIN 0x69c 24]; [CLR_PIN 0x41c 25; CLR_PIN 0x4bc 25];
  [CLR_PIN 0x41c 26; CLR_PIN 0x4bc 26]; [CLR_PIN 0x41c 27; CLR_PIN 0x4bc 27];
  [CLR_PIN 0x41c 28; CLR_PIN 0x4bc 28]; [CLR_PIN 0x41c 29; CLR_PIN 0x4bc 29];
  [CLR_PIN 0x41c 30; CLR_PIN 0x4bc 30; CLR_PIN 0x69c 30];
  [CLR_PIN 0x41c 31; CLR_PIN 0x4bc 31; CLR_PIN 0x69c 31]; [CLR_PIN 0x430 0; CLR_PIN 0x6b0 0];
  [CLR_PIN 0x430 1; CLR_PIN 0x6b0 1]; [CLR_PIN 0x430 2; CLR_PIN 0x6b0 2];
  [CLR_PIN 0x430 3; CLR_PIN 0x6b0 3]; [CLR_PIN 0x430 4; CLR_PIN 0x6b0 4]; [CLR_PIN 0x430 10];
  [CLR_PIN 0x430 11]; [CLR_PIN 0x430 17]; [CLR_PIN 0x430 18]; [PIN 0x430 24]; [PIN 0x430 25];
  [PIN 0x430 26]; [PIN 0x430 27]; [PIN 0x430 28]; [PIN 0x430 29]; [PIN 0x430 30]; [PIN 0x430 31];
  [PIN 0x434 0]; [PIN 0x434 1]; [PIN 0x434 2]; [PIN 0x434 3]; [PIN 0x434 4]; [PIN 0x434 5];
  [PIN 0x434 6]; [PIN 0x434 7]
].

Definition PINCTRL_I2C1 : list PinctrlPin :=
  [PIN 0x414 30; PIN 0x414 31].

Definition PINCTRL_I2C2 : list PinctrlPin :=
  [PIN 0x418 0; PIN 0x418 1].

Definition PINCTRL_GPIOL2 : list PinctrlPin :=
  [CLR_PIN 0x418 26].

Definition PINCTRL_GPIOL3 : list PinctrlPin :=
  [CLR_PIN 0x418 27].

Definition PINCTRL_FMC_QUAD : list PinctrlPin :=
  [PIN 0x430 10; PIN 0x430 11].

Definition PINCTRL_SPI1_QUAD : list PinctrlPin :=
  [PIN 0x430 17; PIN 0x430 18].

Definition PINCTRL_SPI2_QUAD : list PinctrlPin :=
  [PIN 0x41c 30; PIN 0x41c 31; PIN 0x430 0; PIN 0x430 1; PIN 0x430 2; PIN 0x430 3; PIN 0x430 4].

Definition PINCTRL_SPIM1_DEFAULT : list PinctrlPin :=
  [CLR_PIN 0x410 0; CLR_PIN 0x4b0 0; PIN 0x690 0; CLR_PIN 0x410 1; CLR_PIN 0x4b0 1; PIN 0x690 1;
   CLR_PIN 0x410 2; CLR_PIN 0x4b0 2; PIN 0x690 2; CLR_PIN 0x410 3; CLR_PIN 0x4b0 3; PIN 0x690 3;
   CLR_PIN 0x410 4; CLR_PIN 0x4b0 4; PIN 0x690 4; CLR_PIN 0x410 5; CLR_PIN 0x4b0 5; PIN 0x690 5;
   CLR_PIN 0x410 6; CLR_PIN 0x4b0 6; PIN 0x690 6].

Definition PINCTRL_SPIM2_DEFAULT : list PinctrlPin :=
  [CLR_PIN 0x410 14; CLR_PIN 0x4b0 14; PIN 0x690 14; CLR_PIN 0x410 15; CLR_PIN 0x4b0 15;
   PIN 0x690 15; CLR_PIN 0x410 16; CLR_PIN 0x4b0 16; PIN 0x690 16; CLR_PIN 0x410 17;
   CLR_PIN 0x4b0 17; PIN 0x690 17; CLR_PIN 0x410 18; CLR_PIN 0x4b0 18; PIN 0x690 18;
   CLR_PIN 0x410 19; CLR_PIN 0x4b0 19; PIN 0x690 19; CLR_PIN 0x410 20; CLR_PIN 0x4b0 20;
   PIN 0x690 20].

Definition PINCTRL_SPIM3_DEFAULT : list PinctrlPin :=
  [CLR_PIN 0x410 28; CLR_PIN 0x4b0 28; PIN 0x690 28; CLR_PIN 0x410 29; CLR_PIN 0x4b0 29;
   PIN 0x690 29; CLR_PIN 0x410 30; CLR_PIN 0x4b0 30; PIN 0x690 30; CLR_PIN 0x410 31;
   CLR_PIN 0x4b0 31; PIN 0x690 31; CLR_PIN 0x414 0; CLR_PIN 0x4b4 0; PIN 0x694 0; CLR_PIN 0x414 1;
   CLR_PIN 0x4b4 1; PIN 0x694 1; CLR_PIN 0x414 2; CLR_PIN 0x4b4 2; PIN 0x694 2; CLR_PIN 0x414 3;
   CLR_PIN 0x4b4 3; PIN 0x694 3; CLR_PIN 0x414 4; CLR_PIN 0x4b4 4; PIN 0x694 4; CLR_PIN 0x414 5;
   CLR_PIN 0x4b4 5; PIN 0x694 5; CLR_PIN 0x414 6; CLR_PIN 0x4b4 6; PIN 0x694 6; CLR_PIN 0x414 7;
   CLR_PIN 0x4b4 7; PIN 0x694 7].

Definition PINCTRL_SPIM4_DEFAULT : list PinctrlPin :=
  [CLR_PIN 0x414 10; CLR_PIN 0x4b4 10; PIN 0x694 10; CLR_PIN 0x414 11; CLR_PIN 0x4b4 11;
   PIN 0x694 11; CLR_PIN 0x414 12; CLR_PIN 0x4b4 12; PIN 0x694 12; CLR_PIN 0x414 13;
   CLR_PIN 0x4b4 13; PIN 0x694 13; CLR_PIN 0x414 14; CLR_PIN 0x4b4 14; PIN 0x694 14;
   CLR_PIN 0x414 15; CLR_PIN 0x4b4 15; PIN 0x694 15; CLR_PIN 0x414 16; CLR_PIN 0x4b4 16;
   PIN 0x694 16; CLR_PIN 0x414 17; CLR_PIN 0x4b4 17; PIN 0x694 17; CLR_PIN 0x414 18;
   CLR_PIN 0x4b4 18; PIN 0x694 18; CLR_PIN 0x414 19; CLR_PIN 0x4b4 19; PIN 0x694 19;
   CLR_PIN 0x414 20; CLR_PIN 0x4b4 20; PIN 0x694 20; CLR_PIN 0x414 21; CLR_PIN 0x4b4 21;
   PIN 0x694 21].

Definition PINCTRL_I3C0 : list PinctrlPin :=
  [PIN 0x418 16; PIN 0x418 17].

Definition PINCTRL_I3C1 : list PinctrlPin :=
  [PIN 0x418 18; PIN 0x418 19].

Definition PINCTRL_I3C2 : list PinctrlPin :=
  [PIN 0x418 20; PIN 0x418 21].

Definition PINCTRL_I3C3 : list PinctrlPin :=
  [PIN 0x418 22; PIN 0x418 23].

Definition PINCTRL_HVI3C0 : list PinctrlPin :=
  [CLR_PIN 0x418 8; CLR_PIN 0x418 9; CLR_PIN 0x418 16; CLR_PIN 0x418 17; PIN 0x4b8 8; PIN 0x4b8 9].

Definition PINCTRL_HVI3C1 : list PinctrlPin :=
  [CLR_PIN 0x418 10; CLR_PIN 0x418 11; CLR_PIN 0x418 18; CLR_PIN 0x418 19; PIN 0x4b8 10;
   PIN 0x4b8 11].

Definition PINCTRL_HVI3C2 : list PinctrlPin :=
  [CLR_PIN 0x418 12; CLR_PIN 0x418 13; CLR_PIN 0x418 20; CLR_PIN 0x418 21; PIN 0x4b8 12;
   PIN 0x4b8 13].

Definition PINCTRL_HVI3C3 : list PinctrlPin :=
  [CLR_PIN 0x418 14; CLR_PIN 0x418 15; CLR_PIN 0x418 22; CLR_PIN 0x418 23; PIN 0x4b8 14;
   PIN 0x4b8 15].

Definition PINCTRL_SGPIOM : list PinctrlPin :=
  [PIN 0x41c 8; PIN 0x41c 9; PIN 0x41c 10; PIN 0x41c 11].

(** ** Routing of the SPI monitors *)

Inductive GpioGroup := Abcd | Efgh.
#[export] Instance GpioGroup_eq_dec : EqDecision GpioGroup.
Proof. solve_decision. Defined.

(** The data and direction registers of a group. *)
Definition gpio_data_reg (g : GpioGroup) : Reg :=
  match g with Abcd => gpio 0x000 | Efgh => gpio 0x020 end.
Definition gpio_direction_reg (g : GpioGroup) : Reg :=
  match g with Abcd => gpio 0x004 | Efgh => gpio 0x024 end.

Inductive SpimScuRegister := Scu690 | Scu694.

Record SpimGpioInfo := mkGpioInfo {
  gi_scu_register : SpimScuRegister; gi_scu_bit_mask : Z; gi_gpio_group : GpioGroup;
  gi_gpio_bit_mask : Z;
}.

Definition AST1060_SPIM_CLK_GPIO : list SpimGpioInfo :=
  [mkGpioInfo Scu690 (Z.shiftl 1 7) Abcd (Z.shiftl 1 7);
   mkGpioInfo Scu690 (Z.shiftl 1 21) Abcd (Z.shiftl 1 21);
   mkGpioInfo Scu694 (Z.shiftl 1 3) Efgh (Z.shiftl 1 3);
   mkGpioInfo Scu694 (Z.shiftl 1 17) Efgh (Z.shiftl 1 17)].

Definition AST1060_SPIM_CS_GPIO : list SpimGpioInfo :=
  [mkGpioInfo Scu690 (Z.shiftl 1 1) Abcd (Z.shiftl 1 6);
   mkGpioInfo Scu690 (Z.shiftl 1 20) Abcd (Z.shiftl 1 20);
   mkGpioInfo Scu694 (Z.shiftl 1 2) Efgh (Z.shiftl 1 2);
   mkGpioInfo Scu694 (Z.shiftl 1 16) Efgh (Z.shiftl 1 16)].

Definition ast1060_spim_op_idx (scu0f0 : Z) : option nat :=
  if Z.land scu0f0 7 =? 0 then None
  else if Z.land scu0f0 7 - 1 =? 2 then Some 3%nat
  else if Z.land scu0f0 7 - 1 =? 3 then Some 2%nat
  else None.

Section routing.
Context {S : Type} `{Soc S}.

Definition gpio_direction (g : GpioGroup) (s : S) : Z := rd s (gpio_direction_reg g).
Definition gpio_set_direction (g : GpioGroup) (mask : Z) (output : bool) (s : S) : S :=
  modify (gpio_direction_reg g) (λ bits, update_bit bits mask output) s.
Definition gpio_set_data (g : GpioGroup) (mask : Z) (high : bool) (s : S) : S :=
  modify (gpio_data_reg g) (λ bits, update_bit bits mask high) s.
Definition gpio_set_output (g : GpioGroup) (mask : Z) (high : bool) (s : S) : S :=
  gpio_set_direction g mask true (gpio_set_data g mask high s).

Definition scu_reg (r : SpimScuRegister) : Reg :=
  match r with Scu690 => scu 0x690 | Scu694 => scu 0x694 end.

Definition set_spim_pin_function (pin : SpimGpioInfo) (enabled : bool) (s : S) : S :=
  modify (scu_reg (gi_scu_register pin)) (λ bits, update_bit bits (gi_scu_bit_mask pin) enabled) s.

Definition set_spim_passthrough (i : SpiMonitorInstance) (p : SpiMonitorPassthrough) (s : S) : S :=
  modify (scu 0x0f0) (λ w, field_bit w (passthrough_field i) (passthrough_is_enabled p))
    (unlock_write_protection s).

Definition set_spim_filter (i : SpiMonitorInstance) (enable : bool) (s : S) : S :=
  modify (scu 0x0f0) (λ w, field_bit w (filter_field i) enable) (unlock_write_protection s).

Definition disable_spim_cs_internal_pull_down (i : SpiMonitorInstance) (s : S) : S :=
  let s := unlock_write_protection s in
  match i with
  | Spim0 => modify (scu 0x610) (λ r, Z.lor r (Z.shiftl 1 6)) s
  | Spim1 => modify (scu 0x610) (λ r, Z.lor r (Z.shiftl 1 20)) s
  | Spim2 => s
  | Spim3 => modify (scu 0x614) (λ r, Z.lor r (Z.shiftl 1 16)) s
  end.

(** SCU0F0[2:0] and SCU0F0[3]. *)
Definition set_spim_internal_master_route (i : SpiMonitorInstance) (source : SpiMonitorSource)
    (s : S) : S :=
  let s := unlock_write_protection s in
  let s := modify (scu 0x0f0) (λ w, Z.lor (Z.land w (not_u32 7)) (instance_u8 i + 1)) s in
  modify (scu 0x0f0) (λ w, field_bit w 3 (match source with Spi2 => true | Spi1 => false end)) s.

Definition set_spim_internal_mux (source : SpiMonitorSource) (output_select : Z) (s : S) :
    S * result unit ScuError :=
  if 4 <? output_select then (s, Err InvalidMuxSelection)
  else
    let s := unlock_write_protection s in
    let source_bit := match source with Spi2 => 8 | Spi1 => 0 end in
    let bits := rd s (scu 0x0f0) in
    (wr s (scu 0x0f0) (Z.lor (Z.lor (Z.land bits (not_u32 15)) source_bit) output_select), Ok ()).

Definition clear_spim_internal_master_route (s : S) : S :=
  modify (scu 0x0f0) (λ bits, Z.land bits (not_u32 15)) (unlock_write_protection s).

(** [SpimGpioOriVal]: the saved direction bits, by monitor. *)
Definition spim_proprietary_pre_config (s : S) : option (S * option (list Z)) :=
  let s := unlock_write_protection s in
  match ast1060_spim_op_idx (rd s (scu 0x0f0)) with
  | None => Some (s, None)
  | Some op_idx =>
      clk ← AST1060_SPIM_CLK_GPIO !! op_idx;
      cs ← AST1060_SPIM_CS_GPIO !! op_idx;
      let s := set_spim_pin_function clk false s in
      ori ← index_set (replicate 4 0) op_idx
              (Z.land (gpio_direction (gi_gpio_group clk) s) (gi_gpio_bit_mask clk));
      let s := gpio_set_direction (gi_gpio_group clk) (gi_gpio_bit_mask clk) false s in
      let s := gpio_set_output (gi_gpio_group cs) (gi_gpio_bit_mask cs) true s in
      let s := set_spim_pin_function cs false s in
      Some (s, Some ori)
  end.

Definition spim_proprietary_post_config (gpio_ori_val : list Z) (s : S) : option S :=
  let s := unlock_write_protection s in
  match ast1060_spim_op_idx (rd s (scu 0x0f0)) with
  | None => Some s
  | Some op_idx =>
      clk ← AST1060_SPIM_CLK_GPIO !! op_idx;
      cs ← AST1060_SPIM_CS_GPIO !! op_idx;
      ori ← gpio_ori_val !! op_idx;
      let was_output := negb (ori =? 0) in
      let s := gpio_set_direction (gi_gpio_group clk) (gi_gpio_bit_mask clk) was_output s in
      let s := set_spim_pin_function clk true s in
      Some (set_spim_pin_function cs true s)
  end.

Definition set_spim_ext_mux (i : SpiMonitorInstance) (mux : ScuExtMuxSelect) (s : S) : S :=
  modify (scu 0x0f0) (λ w, field_bit w (ext_mux_field i) (mux_as_bool mux))
    (unlock_write_protection s).

Definition get_spim_ext_mux (i : SpiMonitorInstance) (s : S) : ScuExtMuxSelect :=
  if Z.testbit (rd s (scu 0x0f0)) (ext_mux_field i) then Mux1 else Mux0.

Definition set_spim_miso_multi_func (i : SpiMonitorInstance) (enable : bool) (s : S) : S :=
  let reg := match i with Spim0 | Spim1 | Spim2 => scu 0x690 | Spim3 => scu 0x694 end in
  modify reg (λ w, field_bit w (misoin_field i) enable) (unlock_write_protection s).

Definition spim_route_ctrl (s : S) : Z := rd s (scu 0x0f0).

Definition validate_spim_instance (i : SpiMonitorInstance) : result unit ScuError :=
  match i with Spim0 | Spim1 | Spim2 | Spim3 => Ok () end.
End routing.

(** * The system control unit: clocks, resets, cache, status

    [target/ast10x0/peripherals/scu]: [clock.rs], [reset.rs], [cache.rs],
    [status.rs], over the registers of [Soc]. *)
Inductive ClockRegisterHalf := ClockLower | ClockUpper.
Inductive ScuRegisterHalf := ScuLower | ScuUpper.

Section scu.
Context {S : Type} `{Soc S}.

(** ** Clock gates *)

Definition gate_clock_mask (half : ClockRegisterHalf) (mask : Z) (s : S) : S :=
  match half with
  | ClockLower => wr s (scu 0x080) mask
  | ClockUpper => wr s (scu 0x090) mask
  end.
Definition ungate_clock_mask (half : ClockRegisterHalf) (mask : Z) (s : S) : S :=
  match half with
  | ClockLower => wr s (scu 0x084) mask
  | ClockUpper => wr s (scu 0x094) mask
  end.
Definition gated_clock_mask (half : ClockRegisterHalf) (s : S) : Z :=
  match half with
  | ClockLower => rd s (scu 0x080)
  | ClockUpper => rd s (scu 0x090)
  end.

(** ** Resets *)

Definition assert_reset_mask (half : ScuRegisterHalf) (mask : Z) (s : S) : S :=
  match half with
  | ScuLower => wr s (scu 0x040) mask
  | ScuUpper => wr s (scu 0x050) mask
  end.
Definition deassert_reset_mask (half : ScuRegisterHalf) (mask : Z) (s : S) : S :=
  match half with
  | ScuLower => wr s (scu 0x044) mask
  | ScuUpper => wr s (scu 0x054) mask
  end.
Definition reset_mask (half : ScuRegisterHalf) (s : S) : Z :=
  match half with
  | ScuLower => rd s (scu 0x040)
  | ScuUpper => rd s (scu 0x050)
  end.

(** ** The data cache *)

Definition DCACHE_CLEAN : Z := Z.shiftl 1 1.
Definition dcache_invd_all (s : S) : S :=
  let ctrl := rd s (scu 0xa58) in
  let s := wr s (scu 0xa58) (Z.land ctrl (not_u32 DCACHE_CLEAN)) in
  wr s (scu 0xa58) (Z.lor ctrl DCACHE_CLEAN).

(** ** Status *)

Definition hardware_revision_raw (s : S) : Z := rd s (scu 0x004).
Definition route_control_raw (s : S) : Z := rd s (scu 0x0f0).
Definition multi_func_690_raw (s : S) : Z := rd s (scu 0x690).
Definition multi_func_694_raw (s : S) : Z := rd s (scu 0x694).
End scu.
