(* ===== verification/SocRun.v ===== *)
(** * Properties of the control unit

    [SocLaws] says how the registers behave: writes to the control unit count
    once it is unlocked, a GPIO data register reads the output latch on outputs
    and the outside level on inputs.  Against it: a pin group changes exactly its
    bits, and handing the shared pins over for a transaction is undone
    afterwards.  [Chip] is an instance. *)

From S2P Require Import Prelude Bytes RegMonad Spim SpimRun Soc.
From stdpp Require Import base tactics option list numbers sets.
Local Open Scope Z_scope.

(** ** How the registers behave *)

(** The control unit's registers that hold what is written to them. *)
Definition STORAGE : list Z := 0x0f0 :: 0x610 :: 0x614 :: PINCTRL_REGISTERS.

(** Whether a write to [x] may change what [y] reads: itself, the levels of the
    pins whose direction it is, the latch of the serial outputs. *)
Definition affects (x y : Reg) : bool :=
  bool_decide (x = y) ||
  existsb (λ p, bool_decide ((x, y) = p))
    [(gpio 0x004, gpio 0x000); (gpio 0x024, gpio 0x020); (gpio 0x074, gpio 0x070);
     (gpio 0x070, gpio 0x0c8); (sgpio 0x500, sgpio 0x570)].

Class SocLaws (S : Type) `{Soc S} : Type := {
  unlocked_scu : S → Prop;
  latch : S → GpioGroup → Z;
  level : S → GpioGroup → Z;
  rd_range s x : in_u32 (rd s x);
  rd_frame s x v y : affects x y = false → rd (wr s x v) y = rd s y;
  unlocked_key s : unlocked_scu (unlock_write_protection s);
  unlocked_wr s x v : x ≠ scu 0x000 → unlocked_scu s → unlocked_scu (wr s x v);
  scu_storage s o v :
    unlocked_scu s → o ∈ STORAGE → in_u32 v → rd (wr s (scu o) v) (scu o) = v;
  direction_storage s g v :
    in_u32 v → rd (wr s (gpio_direction_reg g) v) (gpio_direction_reg g) = v;
  latch_storage s g v : in_u32 v → latch (wr s (gpio_data_reg g) v) g = v;
  latch_frame s x v g : x ≠ gpio_data_reg g → latch (wr s x v) g = latch s g;
  level_frame s x v g : level (wr s x v) g = level s g;
  data_bit s g n : 0 ≤ n < 32 →
    Z.testbit (rd s (gpio_data_reg g)) n =
      if Z.testbit (rd s (gpio_direction_reg g)) n then Z.testbit (latch s g) n
      else Z.testbit (level s g) n;
  serial_latch s v : in_u32 v → rd (wr s (sgpio 0x500) v) (sgpio 0x570) = v;
  passthrough_range i : 4 ≤ passthrough_field i < 8;
  filter_range i : 8 ≤ filter_field i < 12;
  ext_mux_range i : 12 ≤ ext_mux_field i < 16;
  misoin_range i : 0 ≤ misoin_field i < 32;
  passthrough_inj :: Inj (=) (=) passthrough_field;
  filter_inj :: Inj (=) (=) filter_field;
  ext_mux_inj :: Inj (=) (=) ext_mux_field;
}.

(** ** Bits *)

Lemma testbit_not_u32 m n : 0 ≤ n < 32 → Z.testbit (not_u32 m) n = negb (Z.testbit m n).
Proof. intros Hn. unfold not_u32. rewrite Z.lxor_spec, testbit_u32_MAX by done. apply xorb_true_r. Qed.

Lemma in_u32_high v n : in_u32 v → 32 ≤ n → Z.testbit v n = false.
Proof. unfold in_u32, u32_MAX. intros Hv Hn. apply (high_bit v 32); lia. Qed.

Lemma testbit_update_bit v k b n :
  in_u32 v → 0 ≤ k < 32 → 0 ≤ n < 32 →
  Z.testbit (update_bit v (Z.shiftl 1 k) b) n = if n =? k then b else Z.testbit v n.
Proof.
  intros Hv Hk Hn. unfold update_bit. destruct b.
  - rewrite Z.lor_spec, testbit_shiftl_1 by lia. destruct (n =? k); [apply orb_true_r|apply orb_false_r].
  - rewrite Z.land_spec, testbit_not_u32, testbit_shiftl_1 by lia.
    destruct (n =? k); [apply andb_false_r|apply andb_true_r].
Qed.

Lemma in_u32_bits v : 0 ≤ v → (∀ n, 32 ≤ n → Z.testbit v n = false) → in_u32 v.
Proof.
  intros Hv Hb. unfold in_u32, u32_MAX. split; [done|].
  destruct (decide (v = 0)) as [->|Hne]; [lia|].
  pose proof (Z.log2_nonneg v). assert (Z.log2 v < 32) as Hl.
  { destruct (decide (32 ≤ Z.log2 v)) as [Hge|]; [|lia]. specialize (Hb _ Hge).
    rewrite Z.bit_log2 in Hb by lia. done. }
  apply Z.log2_lt_pow2 in Hl; lia.
Qed.

Lemma in_u32_lor a b : in_u32 a → in_u32 b → in_u32 (Z.lor a b).
Proof.
  intros Ha Hb. apply in_u32_bits; [apply Z.lor_nonneg; unfold in_u32 in *; lia|].
  intros n Hn. by rewrite Z.lor_spec, !in_u32_high.
Qed.

Lemma in_u32_land a b : in_u32 a → in_u32 (Z.land a b).
Proof.
  intros Ha. apply in_u32_bits; [apply Z.land_nonneg; unfold in_u32 in *; lia|].
  intros n Hn. by rewrite Z.land_spec, (in_u32_high a).
Qed.

Lemma in_u32_shiftl_1 k : 0 ≤ k < 32 → in_u32 (Z.shiftl 1 k).
Proof.
  intros Hk. unfold in_u32, u32_MAX. rewrite Z.shiftl_1_l.
  pose proof (Z.pow_pos_nonneg 2 k). pose proof (Z.pow_le_mono_r 2 k 31). lia.
Qed.

Lemma in_u32_update_bit v k b : in_u32 v → 0 ≤ k < 32 → in_u32 (update_bit v (Z.shiftl 1 k) b).
Proof.
  intros Hv Hk. destruct b; [apply in_u32_lor; [done|by apply in_u32_shiftl_1]|by apply in_u32_land].
Qed.

Lemma has_flag_bit v k : 0 ≤ k → has_flag v (Z.shiftl 1 k) = Z.testbit v k.
Proof.
  intros Hk. unfold has_flag. assert (Z.land v (Z.shiftl 1 k) =
    if Z.testbit v k then Z.shiftl 1 k else 0) as ->.
  { apply Z.bits_inj'. intros n Hn. rewrite Z.land_spec, testbit_shiftl_1 by lia.
    destruct (Z.testbit v k) eqn:E; rewrite ?testbit_shiftl_1, ?Z.bits_0 by lia;
      destruct (Z.eqb_spec n k) as [->|]; rewrite ?E, ?andb_false_r; done. }
  destruct (Z.testbit v k); [|done]. apply negb_true_iff, Z.eqb_neq.
  rewrite Z.shiftl_1_l. pose proof (Z.pow_pos_nonneg 2 k). lia.
Qed.

(** ** Operations, bit by bit *)

Section laws.
Context {S : Type} `{SocLaws S}.
Implicit Types (s : S) (x y : Reg) (g : GpioGroup) (n k : Z).

Lemma rd_modify_ne x y f s : affects x y = false → rd (modify x f s) y = rd s y.
Proof. intros Ha. unfold modify. by apply rd_frame. Qed.

Lemma affects_scu o y : y ≠ scu o → affects (scu o) y = false.
Proof. intros Hy. apply orb_false_iff. by split; [apply bool_decide_false; congruence|]. Qed.

Lemma rd_unlock y s : y ≠ scu 0x000 → rd (unlock_write_protection s) y = rd s y.
Proof. intros Hy. by apply rd_frame, affects_scu. Qed.

Lemma unlocked_modify o f s : o ≠ 0 → unlocked_scu s → unlocked_scu (modify (scu o) f s).
Proof. intros Ho Hs. apply unlocked_wr; [|done]. intros [=]. done. Qed.

(** One bit of a register of the control unit changes. *)
Lemma scu_bit o k b s y n :
  unlocked_scu s → o ∈ STORAGE → 0 ≤ k < 32 → 0 ≤ n < 32 →
  Z.testbit (rd (modify (scu o) (λ v, update_bit v (Z.shiftl 1 k) b) s) y) n =
    if bool_decide (y = scu o) && (n =? k) then b else Z.testbit (rd s y) n.
Proof.
  intros Hs Ho Hk Hn. destruct (decide (y = scu o)) as [->|Hy].
  - rewrite bool_decide_true by done. simpl. unfold modify.
    rewrite scu_storage; [|done|done|apply in_u32_update_bit; [apply rd_range|done]].
    rewrite testbit_update_bit; [done|apply rd_range|done|done].
  - rewrite bool_decide_false by done. simpl. by rewrite rd_modify_ne by by apply affects_scu.
Qed.

Lemma direction_bit g k b s n :
  0 ≤ k < 32 → 0 ≤ n < 32 →
  Z.testbit (rd (gpio_set_direction g (Z.shiftl 1 k) b s) (gpio_direction_reg g)) n =
    if n =? k then b else Z.testbit (rd s (gpio_direction_reg g)) n.
Proof.
  intros Hk Hn. unfold gpio_set_direction, modify.
  rewrite direction_storage by (apply in_u32_update_bit; [apply rd_range|done]).
  by rewrite testbit_update_bit; [|apply rd_range|..].
Qed.

Lemma latch_bit g k b s n :
  0 ≤ k < 32 → 0 ≤ n < 32 →
  Z.testbit (latch (gpio_set_data g (Z.shiftl 1 k) b s) g) n =
    if n =? k then b else Z.testbit (rd s (gpio_data_reg g)) n.
Proof.
  intros Hk Hn. unfold gpio_set_data, modify.
  rewrite latch_storage by (apply in_u32_update_bit; [apply rd_range|done]).
  by rewrite testbit_update_bit; [|apply rd_range|..].
Qed.

(** Driving a pin: it becomes an output at the given level; every other pin reads
    as before. *)
Lemma output_bit g k b s n :
  0 ≤ k < 32 → 0 ≤ n < 32 →
  Z.testbit (rd (gpio_set_output g (Z.shiftl 1 k) b s) (gpio_data_reg g)) n =
    if n =? k then b else Z.testbit (rd s (gpio_data_reg g)) n.
Proof.
  intros Hk Hn. unfold gpio_set_output. rewrite data_bit, direction_bit by done.
  assert (rd (gpio_set_data g (Z.shiftl 1 k) b s) (gpio_direction_reg g) =
    rd s (gpio_direction_reg g)) as -> by (apply rd_modify_ne; by destruct g).
  unfold gpio_set_direction at 1, modify at 1. rewrite latch_frame by (by destruct g).
  rewrite latch_bit by done. unfold gpio_set_direction, modify. rewrite level_frame.
  unfold gpio_set_data, modify. rewrite level_frame.
  destruct (n =? k); [done|]. rewrite data_bit by done. by destruct (Z.testbit _ _).
Qed.
End laws.

(** ** Pin groups *)

(** The groups of [pinctrl.rs]. *)
Definition PINCTRL_GROUPS : list (list PinctrlPin) :=
  PINCTRL_GPIO_A_H ++ PINCTRL_GPIO_I_U ++
  [PINCTRL_I2C1; PINCTRL_I2C2; PINCTRL_FMC_QUAD; PINCTRL_SPI1_QUAD; PINCTRL_SPI2_QUAD;
   PINCTRL_SPIM1_DEFAULT; PINCTRL_SPIM2_DEFAULT; PINCTRL_SPIM3_DEFAULT; PINCTRL_SPIM4_DEFAULT;
   PINCTRL_I3C0; PINCTRL_I3C1; PINCTRL_I3C2; PINCTRL_I3C3; PINCTRL_HVI3C0; PINCTRL_HVI3C1;
   PINCTRL_HVI3C2; PINCTRL_HVI3C3; PINCTRL_SGPIOM].

Definition same_bit (p q : PinctrlPin) : bool :=
  (pin_offset p =? pin_offset q) && (pin_bit p =? pin_bit q).

(** A pin of a register [apply_pinctrl_group] knows. *)
Definition pin_known (p : PinctrlPin) : bool :=
  existsb (Z.eqb (pin_offset p)) PINCTRL_REGISTERS && (0 <=? pin_bit p) && (pin_bit p <? 32).

(** Known pins, none both set and cleared. *)
Definition group_ok (pins : list PinctrlPin) : bool :=
  forallb pin_known pins &&
  forallb (λ p, forallb (λ q, negb (same_bit p q) || eqb (pin_clear p) (pin_clear q)) pins) pins.

Lemma groups_ok : forallb group_ok PINCTRL_GROUPS = true.
Proof. by vm_compute. Qed.

Lemma existsb_eqb_elem o l : existsb (Z.eqb o) l = true ↔ o ∈ l.
Proof.
  rewrite existsb_exists. setoid_rewrite <- list_elem_of_In. split.
  - intros (x & Hx & ->%Z.eqb_eq). done.
  - intros Ho. exists o. by rewrite Z.eqb_refl.
Qed.

Lemma pin_known_spec p :
  pin_known p = true →
  pin_offset p ∈ PINCTRL_REGISTERS ∧ pin_offset p ∈ STORAGE ∧ 0 ≤ pin_bit p < 32.
Proof.
  unfold pin_known. rewrite !andb_true_iff, existsb_eqb_elem, Z.leb_le, Z.ltb_lt.
  intros [[Ho H0] H1]. split; [done|]. split; [|done]. unfold STORAGE. by do 3 right.
Qed.

Section pinctrl.
Context {S : Type} `{SocLaws S}.

Lemma pinctrl_known_ne o : o ∈ PINCTRL_REGISTERS → o ≠ 0.
Proof. intros Ho ->. by apply existsb_eqb_elem in Ho. Qed.

Lemma apply_pin_bit (s : S) p y n :
  pin_known p = true → unlocked_scu s → 0 ≤ n < 32 →
  unlocked_scu (apply_pin s p) ∧
  Z.testbit (rd (apply_pin s p) y) n =
    if bool_decide (y = scu (pin_offset p)) && (n =? pin_bit p) then negb (pin_clear p)
    else Z.testbit (rd s y) n.
Proof.
  intros (Hr & Hs & Hb)%pin_known_spec Hu Hn. unfold apply_pin.
  rewrite (proj2 (existsb_eqb_elem _ _)) by done.
  split; [apply unlocked_modify; [by apply pinctrl_known_ne|done]|by apply scu_bit].
Qed.

(** Each bit of a group ends at the value its last pin gives it. *)
Lemma apply_group_bit pins (s : S) y n :
  forallb pin_known pins = true → unlocked_scu s → 0 ≤ n < 32 →
  unlocked_scu (apply_pinctrl_group pins s) ∧
  ((∀ p, p ∈ pins → (y, n) ≠ (scu (pin_offset p), pin_bit p)) →
     Z.testbit (rd (apply_pinctrl_group pins s) y) n = Z.testbit (rd s y) n) ∧
  (∀ b, (∃ p, p ∈ pins ∧ (y, n) = (scu (pin_offset p), pin_bit p)) →
     (∀ p, p ∈ pins → (y, n) = (scu (pin_offset p), pin_bit p) → pin_clear p = negb b) →
     Z.testbit (rd (apply_pinctrl_group pins s) y) n = b).
Proof.
  induction pins as [|p pins IH] using rev_ind; intros Hk Hu Hn.
  { split; [done|]. split; [done|]. by intros b (p & Hp%elem_of_nil & _). }
  rewrite forallb_app in Hk. apply andb_true_iff in Hk as [Hk Hp]. simpl in Hp.
  rewrite andb_true_r in Hp. destruct (IH Hk Hu Hn) as (Hu' & Hout & Hin).
  unfold apply_pinctrl_group. rewrite foldl_app. cbn [foldl].
  fold (apply_pinctrl_group pins s).
  destruct (apply_pin_bit (apply_pinctrl_group pins s) p y n Hp Hu' Hn) as [Hu'' Hbit].
  split; [done|]. rewrite Hbit. case_match eqn:E.
  - apply andb_true_iff in E as [->%bool_decide_eq_true ->%Z.eqb_eq]. split.
    + intros Hne. destruct (Hne p); [|done]. apply elem_of_app. right. by left.
    + intros b _ Hb. rewrite (Hb p); [apply negb_involutive| |done]. apply elem_of_app. right. by left.
  - assert ((y, n) ≠ (scu (pin_offset p), pin_bit p)) as Hne.
    { intros [= -> ->]. rewrite bool_decide_true, Z.eqb_refl in E; done. }
    split.
    + intros Ha. apply Hout. intros q Hq. apply Ha, elem_of_app. by left.
    + intros b (q & Hq & Heq) Hb. apply Hin.
      * exists q. split; [|done]. apply elem_of_app in Hq as [Hq|Hq]; [done|].
        apply list_elem_of_singleton in Hq as ->. done.
      * intros q' Hq'. apply Hb, elem_of_app. by left.
Qed.

(** Applying any pin group of the board sets and clears exactly the bits the
    group lists: no pin names a register the code ignores, no group asks for
    both values of a bit, and every other bit of every register is unchanged. *)
Theorem pinctrl_group_exact g (s : S) :
  g ∈ PINCTRL_GROUPS → unlocked_scu s →
  let s' := apply_pinctrl_group g s in
  (∀ p, p ∈ g → Z.testbit (rd s' (scu (pin_offset p))) (pin_bit p) = negb (pin_clear p)) ∧
  (∀ y n, 0 ≤ n < 32 → (∀ p, p ∈ g → (y, n) ≠ (scu (pin_offset p), pin_bit p)) →
     Z.testbit (rd s' y) n = Z.testbit (rd s y) n).
Proof.
  intros Hg Hu s'. pose proof groups_ok as Hok. rewrite forallb_forall in Hok.
  specialize (Hok g (proj1 (list_elem_of_In _ _) Hg)). apply andb_true_iff in Hok as [Hk Hc].
  split; cycle 1.
  { intros y n Hn Hne. by destruct (apply_group_bit g s y n Hk Hu Hn) as (_ & Hout & _); auto. }
  intros p Hp. assert (0 ≤ pin_bit p < 32) as Hn.
  { rewrite forallb_forall in Hk. by apply list_elem_of_In, Hk, pin_known_spec in Hp as (_ & _ & ?). }
  destruct (apply_group_bit g s (scu (pin_offset p)) (pin_bit p) Hk Hu Hn) as (_ & _ & Hin).
  apply Hin; [by exists p|]. intros q Hq [= Ho Hb].
  rewrite forallb_forall in Hc. apply list_elem_of_In, Hc in Hp.
  rewrite forallb_forall in Hp. apply list_elem_of_In, Hp in Hq.
  unfold same_bit in Hq. rewrite Ho, Hb, !Z.eqb_refl in Hq. simpl in Hq.
  apply eqb_prop in Hq as ->. by rewrite negb_involutive.
Qed.
End pinctrl.

(** ** Handing the shared pins over for a transaction *)

Section proprietary.
Context {S : Type} `{SocLaws S}.
Implicit Types s : S.

(** What [spim_proprietary_pre_config] and [spim_proprietary_post_config] do for a
    pair of pins: functions at bits [k1] (clock) and [k2] (chip select) of SCU694,
    GPIOs of the same bits of group [Efgh]. *)
Definition pin_pair (k : Z) : SpimGpioInfo :=
  mkGpioInfo Scu694 (Z.shiftl 1 k) Efgh (Z.shiftl 1 k).

Definition hand_over (k1 k2 : Z) (s : S) : S :=
  set_spim_pin_function (pin_pair k2) false
    (gpio_set_output Efgh (Z.shiftl 1 k2) true
       (gpio_set_direction Efgh (Z.shiftl 1 k1) false (set_spim_pin_function (pin_pair k1) false s))).

Definition take_back (k1 k2 : Z) (was_output : bool) (s : S) : S :=
  set_spim_pin_function (pin_pair k2) true
    (set_spim_pin_function (pin_pair k1) true
       (gpio_set_direction Efgh (Z.shiftl 1 k1) was_output s)).

(** Registers the two do not write. *)
Definition untouched (x : Reg) : Prop := x ≠ scu 0x694 ∧ x ≠ gpio 0x024 ∧ x ≠ gpio 0x020.

Lemma affects_gpio o x : untouched x → o = 0x024 ∨ o = 0x020 → affects (gpio o) x = false.
Proof.
  intros (Hs & Hd & Hl) [-> | ->]; apply orb_false_iff; (split; [apply bool_decide_false; congruence|]);
    apply not_true_iff_false; rewrite existsb_exists; intros (p & Hp & Heq%bool_decide_eq_true);
    subst p; simpl in Hp; naive_solver.
Qed.

Lemma hand_over_untouched k1 k2 s x : untouched x → rd (hand_over k1 k2 s) x = rd s x.
Proof.
  intros Hx. unfold hand_over, set_spim_pin_function, gpio_set_output, gpio_set_direction,
    gpio_set_data. rewrite !rd_modify_ne; [done|..].
  all: first [apply affects_gpio; [done|by auto]|apply affects_scu; apply Hx].
Qed.

Lemma take_back_untouched k1 k2 b s x : untouched x → rd (take_back k1 k2 b s) x = rd s x.
Proof.
  intros Hx. unfold take_back, set_spim_pin_function, gpio_set_direction.
  rewrite !rd_modify_ne; [done|..].
  all: first [apply affects_gpio; [done|by auto]|apply affects_scu; apply Hx].
Qed.

Lemma function_frame k b s x :
  x ≠ scu 0x694 → rd (set_spim_pin_function (pin_pair k) b s) x = rd s x.
Proof. intros Hx. by apply rd_modify_ne, affects_scu. Qed.

Lemma function_bit k b s n :
  unlocked_scu s → 0 ≤ k < 32 → 0 ≤ n < 32 →
  unlocked_scu (set_spim_pin_function (pin_pair k) b s) ∧
  Z.testbit (rd (set_spim_pin_function (pin_pair k) b s) (scu 0x694)) n =
    if n =? k then b else Z.testbit (rd s (scu 0x694)) n.
Proof.
  intros Hu Hk Hn. split; [by apply unlocked_modify|].
  etransitivity; [apply scu_bit; try done; unfold STORAGE, PINCTRL_REGISTERS; set_solver|].
  by rewrite bool_decide_true.
Qed.

Lemma unlocked_gpio g mask b s : unlocked_scu s → unlocked_scu (gpio_set_direction g mask b s).
Proof. intros Hu. by apply unlocked_wr; [destruct g|]. Qed.

Lemma unlocked_data g mask b s : unlocked_scu s → unlocked_scu (gpio_set_data g mask b s).
Proof. intros Hu. by apply unlocked_wr; [destruct g|]. Qed.

Lemma hand_over_bits k1 k2 s n :
  unlocked_scu s → k1 ≠ k2 → 0 ≤ k1 < 32 → 0 ≤ k2 < 32 → 0 ≤ n < 32 →
  let s1 := hand_over k1 k2 s in
  unlocked_scu s1 ∧
  Z.testbit (rd s1 (scu 0x694)) n =
    (if (n =? k1) || (n =? k2) then false else Z.testbit (rd s (scu 0x694)) n) ∧
  Z.testbit (rd s1 (gpio 0x024)) n =
    (if n =? k2 then true else if n =? k1 then false else Z.testbit (rd s (gpio 0x024)) n) ∧
  Z.testbit (latch s1 Efgh) n =
    (if n =? k2 then true else if n =? k1 then Z.testbit (level s Efgh) n
     else Z.testbit (rd s (gpio 0x020)) n) ∧
  level s1 Efgh = level s Efgh.
Proof.
  intros Hu Hne H1 H2 Hn s1. subst s1. unfold hand_over.
  destruct (function_bit k1 false s n Hu H1 Hn) as [Hu1 Hb1].
  set (sa := set_spim_pin_function (pin_pair k1) false s) in *.
  assert (∀ x, x ≠ scu 0x694 → rd sa x = rd s x) as Hfr by (intros; by apply function_frame).
  assert (latch sa Efgh = latch s Efgh ∧ level sa Efgh = level s Efgh) as [Hla Hle].
  { split; [by apply latch_frame|apply level_frame]. }
  set (sb := gpio_set_direction Efgh (Z.shiftl 1 k1) false sa).
  assert (unlocked_scu sb) as Hub by (by apply unlocked_gpio).
  pose proof (direction_bit Efgh k1 false sa n H1 Hn) as Hdb. fold sb in Hdb.
  assert (Z.testbit (rd sb (gpio 0x020)) n =
    if n =? k1 then Z.testbit (level s Efgh) n else Z.testbit (rd s (gpio 0x020)) n) as Hdat.
  { rewrite (data_bit sb Efgh n), Hdb by done. rewrite (data_bit s Efgh n) by done.
    cbn [gpio_direction_reg]. rewrite (Hfr (gpio 0x024)) by done.
    unfold sb, gpio_set_direction, modify. rewrite latch_frame, level_frame, Hla, Hle by done.
    by destruct (n =? k1). }
  unfold gpio_set_output.
  set (sc := gpio_set_data Efgh (Z.shiftl 1 k2) true sb).
  pose proof (latch_bit Efgh k2 true sb n H2 Hn) as Hlc. fold sc in Hlc.
  cbn [gpio_data_reg] in Hlc. rewrite Hdat in Hlc.
  assert (unlocked_scu sc) as Huc by (by apply unlocked_data).
  set (sd := gpio_set_direction Efgh (Z.shiftl 1 k2) true sc).
  assert (unlocked_scu sd) as Hud by (by apply unlocked_gpio).
  pose proof (direction_bit Efgh k2 true sc n H2 Hn) as Hdd. fold sd in Hdd.
  assert (rd sc (gpio 0x024) = rd sb (gpio 0x024)) as Hsc by (by apply rd_modify_ne).
  destruct (function_bit k2 false sd n Hud H2 Hn) as [Hue Hbe].
  cbn [gpio_direction_reg] in Hdd, Hdb. split; [done|]. split; [|split; [|split]].
  - rewrite Hbe. unfold sd, sc, sb, gpio_set_direction, gpio_set_data.
    rewrite !rd_modify_ne, Hb1 by done. by destruct (n =? k1), (n =? k2).
  - rewrite function_frame, Hdd, Hsc, Hdb, (Hfr (gpio 0x024)) by done.
    by destruct (n =? k2).
  - unfold set_spim_pin_function, modify at 1. rewrite latch_frame by done.
    unfold sd, gpio_set_direction, modify at 1. by rewrite latch_frame, Hlc by done.
  - unfold set_spim_pin_function, sd, sc, sb, gpio_set_direction, gpio_set_data, modify.
    by rewrite !level_frame, Hle.
Qed.

Lemma take_back_bits k1 k2 b s n :
  unlocked_scu s → 0 ≤ k1 < 32 → 0 ≤ k2 < 32 → 0 ≤ n < 32 →
  let s1 := take_back k1 k2 b s in
  Z.testbit (rd s1 (scu 0x694)) n =
    (if (n =? k1) || (n =? k2) then true else Z.testbit (rd s (scu 0x694)) n) ∧
  Z.testbit (rd s1 (gpio 0x024)) n = (if n =? k1 then b else Z.testbit (rd s (gpio 0x024)) n) ∧
  latch s1 Efgh = latch s Efgh ∧ level s1 Efgh = level s Efgh.
Proof.
  intros Hu H1 H2 Hn s1. subst s1. unfold take_back.
  set (sa := gpio_set_direction Efgh (Z.shiftl 1 k1) b s).
  assert (unlocked_scu sa) as Hua by (by apply unlocked_gpio).
  pose proof (direction_bit Efgh k1 b s n H1 Hn) as Hda. fold sa in Hda.
  destruct (function_bit k1 true sa n Hua H1 Hn) as [Hub Hbb].
  destruct (function_bit k2 true _ n Hub H2 Hn) as [_ Hbc].
  cbn [gpio_direction_reg] in Hda. split; [|split; [|split]].
  - rewrite Hbc, Hbb. unfold sa, gpio_set_direction. rewrite rd_modify_ne by done.
    by destruct (n =? k1), (n =? k2).
  - by rewrite !function_frame, Hda by done.
  - unfold set_spim_pin_function, sa, gpio_set_direction, modify. by rewrite !latch_frame.
  - unfold set_spim_pin_function, sa, gpio_set_direction, modify. by rewrite !level_frame.
Qed.

(** The clock pin of the monitor of index [idx]; its chip select is the pin
    before. *)
Definition clk_pin (idx : nat) : Z := if (idx =? 2)%nat then 3 else 17.

Lemma op_idx_cases v idx : ast1060_spim_op_idx v = Some idx → idx = 2%nat ∨ idx = 3%nat.
Proof. unfold ast1060_spim_op_idx. repeat case_match; naive_solver. Qed.

Lemma pre_config_hand_over s idx :
  ast1060_spim_op_idx (rd s (scu 0x0f0)) = Some idx →
  ∃ ori, spim_proprietary_pre_config s =
      Some (hand_over (clk_pin idx) (clk_pin idx - 1) (unlock_write_protection s), Some ori) ∧
    ∃ w, ori !! idx = Some w ∧ negb (w =? 0) = Z.testbit (rd s (gpio 0x024)) (clk_pin idx).
Proof.
  intros Hidx. unfold spim_proprietary_pre_config. rewrite rd_unlock, Hidx by done.
  assert (rd (set_spim_pin_function (pin_pair (clk_pin idx)) false (unlock_write_protection s))
    (gpio 0x024) = rd s (gpio 0x024)) as Hd by (by rewrite function_frame, rd_unlock).
  destruct (op_idx_cases _ _ Hidx) as [-> | ->];
    (eexists; split; [reflexivity|]; eexists; split; [reflexivity|]);
    unfold gpio_direction; cbn [gi_gpio_group gi_gpio_bit_mask gpio_direction_reg];
    by rewrite <- has_flag_bit, <- Hd by done.
Qed.

Lemma post_config_take_back s idx ori w :
  ast1060_spim_op_idx (rd s (scu 0x0f0)) = Some idx → ori !! idx = Some w →
  spim_proprietary_post_config ori s =
    Some (take_back (clk_pin idx) (clk_pin idx - 1) (negb (w =? 0)) (unlock_write_protection s)).
Proof.
  intros Hidx Hw. unfold spim_proprietary_post_config. rewrite rd_unlock, Hidx by done.
  destruct (op_idx_cases _ _ Hidx) as [-> | ->]; cbn [mbind option_bind lookup list_lookup
    AST1060_SPIM_CLK_GPIO AST1060_SPIM_CS_GPIO]; by rewrite Hw.
Qed.

(** The registers of [s'] read as those of [s], the unlock register aside. *)
Record alike (s s' : S) : Prop := {
  al_rd x : x ≠ scu 0x000 → rd s' x = rd s x;
  al_latch g : latch s' g = latch s g;
  al_level g : level s' g = level s g;
}.

Lemma alike_unlock s s' : alike s s' → alike s (unlock_write_protection s').
Proof.
  intros []. split; [intros x Hx; by rewrite rd_unlock; auto|..]; intros g; unfold unlock_write_protection.
  - rewrite latch_frame by (by destruct g). done.
  - by rewrite level_frame.
Qed.

(** Bit [n] of [x] once the pins were handed over and taken back. *)
Definition taken_back (clk : Z) (s : S) (x : Reg) (n : Z) : bool :=
  if bool_decide (x = scu 0x694) && ((n =? clk) || (n =? clk - 1)) then true
  else if (bool_decide (x = gpio 0x024) || bool_decide (x = gpio 0x020)) && (n =? clk - 1) then true
  else Z.testbit (rd s x) n.

(** A clock that was an input gets its level back. *)
Definition clock_known (clk : Z) (s : S) (x : Reg) (n : Z) : Prop :=
  x = gpio 0x020 → n = clk → Z.testbit (rd s (gpio 0x024)) clk = false.

Lemma clk_pin_range idx : let clk := clk_pin idx in 0 ≤ clk < 32 ∧ 0 ≤ clk - 1 < 32 ∧ clk ≠ clk - 1.
Proof. unfold clk_pin. case_match; lia. Qed.

(** The pins after [spim_proprietary_pre_config]. *)
Lemma pre_config_bits s idx :
  ast1060_spim_op_idx (rd s (scu 0x0f0)) = Some idx →
  let clk := clk_pin idx in
  ∃ s1 ori w, spim_proprietary_pre_config s = Some (s1, Some ori) ∧
    s1 = hand_over clk (clk - 1) (unlock_write_protection s) ∧
    ori !! idx = Some w ∧ negb (w =? 0) = Z.testbit (rd s (gpio 0x024)) clk ∧
    Z.testbit (rd s1 (scu 0x694)) clk = false ∧ Z.testbit (rd s1 (scu 0x694)) (clk - 1) = false ∧
    Z.testbit (rd s1 (gpio 0x024)) clk = false ∧ Z.testbit (rd s1 (gpio 0x024)) (clk - 1) = true ∧
    Z.testbit (rd s1 (gpio 0x020)) (clk - 1) = true.
Proof.
  intros Hidx clk. destruct (clk_pin_range idx) as (H1 & H2 & Hne).
  destruct (pre_config_hand_over s idx Hidx) as (ori & Hpre & w & Hw & Hwas).
  eexists _, ori, w. split; [exact Hpre|]. split; [done|]. split; [done|]. split; [exact Hwas|].
  fold clk in H1, H2, Hne |- *.
  pose proof (λ n, hand_over_bits clk (clk - 1) (unlock_write_protection s) n (unlocked_key _) Hne H1 H2) as Hb.
  cbv zeta in Hb. destruct (Hb clk H1) as (_ & -> & -> & _).
  destruct (Hb (clk - 1) H2) as (_ & -> & Hdcs & Hlcs & _).
  rewrite !Z.eqb_refl, orb_true_r, (proj2 (Z.eqb_neq clk (clk - 1))) by done.
  rewrite Z.eqb_refl in Hdcs, Hlcs. do 4 (split; [done|]).
  rewrite (data_bit _ Efgh (clk - 1) H2). cbn [gpio_direction_reg]. by rewrite Hdcs.
Qed.

(** The pins are taken back, whatever unlocked the control unit in between. *)
Lemma post_config_bits s s1 s1' idx ori w :
  let clk := clk_pin idx in
  ast1060_spim_op_idx (rd s (scu 0x0f0)) = Some idx →
  s1 = hand_over clk (clk - 1) (unlock_write_protection s) → alike s1 s1' →
  ori !! idx = Some w → negb (w =? 0) = Z.testbit (rd s (gpio 0x024)) clk →
  ∃ s2, spim_proprietary_post_config ori s1' = Some s2 ∧
    ∀ x n, x ≠ scu 0x000 → 0 ≤ n < 32 → clock_known clk s x n →
      Z.testbit (rd s2 x) n = taken_back clk s x n.
Proof.
  intros clk Hidx -> Hal Hw Hwas. destruct (clk_pin_range idx) as (H1 & H2 & Hne). fold clk in H1, H2, Hne.
  set (s0 := unlock_write_protection s) in *. set (s1 := hand_over clk (clk - 1) s0) in *.
  assert (ast1060_spim_op_idx (rd s1' (scu 0x0f0)) = Some idx) as Hidx1.
  { rewrite (al_rd _ _ Hal) by done. unfold s1, s0. by rewrite hand_over_untouched, rd_unlock. }
  eexists. split; [exact (post_config_take_back s1' idx ori w Hidx1 Hw)|]. rewrite Hwas. fold clk.
  apply alike_unlock in Hal. set (s2 := unlock_write_protection s1') in *.
  assert (∀ x, x ≠ scu 0x000 → rd s0 x = rd s x) as Hrd0 by (intros; by apply rd_unlock).
  assert (level s0 Efgh = level s Efgh) as Hl0 by apply level_frame.
  intros x n Hx Hn Hclk. unfold taken_back.
  destruct (hand_over_bits clk (clk - 1) s0 n (unlocked_key _) Hne H1 H2 Hn) as (_ & Hf1 & Hd1 & Hlt1 & Hlv1).
  fold s1 in Hf1, Hd1, Hlt1, Hlv1.
  destruct (take_back_bits clk (clk - 1) (Z.testbit (rd s (gpio 0x024)) clk) s2 n (unlocked_key _) H1 H2 Hn)
    as (Hf & Hd & Hlt & Hlv).
  destruct (decide (x = scu 0x694)) as [->|Hx1].
  { rewrite bool_decide_true, Hf, (al_rd _ _ Hal), Hf1, Hrd0 by done. simpl.
    by destruct (n =? clk), (n =? clk - 1). }
  rewrite (bool_decide_false (x = scu 0x694)) by done. simpl.
  destruct (decide (x = gpio 0x024)) as [->|Hx2].
  { rewrite bool_decide_true, Hd, (al_rd _ _ Hal), Hd1, Hrd0 by done. simpl.
    destruct (Z.eqb_spec n clk) as [->|]; [|done].
    by rewrite (proj2 (Z.eqb_neq clk (clk - 1))). }
  destruct (decide (x = gpio 0x020)) as [->|Hx3].
  { rewrite bool_decide_false, bool_decide_true by done. simpl.
    rewrite (data_bit _ Efgh n Hn). cbn [gpio_direction_reg]. rewrite Hd, Hlt, Hlv.
    rewrite (al_latch _ _ Hal), (al_level _ _ Hal), (al_rd _ _ Hal), Hd1, Hlt1, Hlv1, Hl0, !Hrd0 by done.
    rewrite (data_bit s Efgh n Hn). cbn [gpio_direction_reg]. destruct (Z.eqb_spec n clk) as [->|].
    - rewrite (proj2 (Z.eqb_neq clk (clk - 1))) by done. by rewrite (Hclk eq_refl eq_refl).
    - by destruct (n =? clk - 1), (Z.testbit (rd s (gpio 0x024)) n). }
  rewrite !bool_decide_false by done. simpl.
  rewrite take_back_untouched, (al_rd _ _ Hal) by done. unfold s1. by rewrite hand_over_untouched, Hrd0.
Qed.
End proprietary.

(** ** A chip to run on *)

Record Chip := mkChip {
  c_mem : Reg → Z; c_open : bool; c_latch : GpioGroup → Z; c_level : GpioGroup → Z;
}.

(** The group a data register belongs to. *)
Definition data_group (x : Reg) : option GpioGroup :=
  if bool_decide (x = gpio 0x000) then Some Abcd
  else if bool_decide (x = gpio 0x020) then Some Efgh
  else None.

Definition chip_rd (c : Chip) (x : Reg) : Z :=
  Z.land
    match data_group x with
    | Some g =>
        let dir := c_mem c (gpio_direction_reg g) in
        Z.lor (Z.land dir (c_latch c g)) (Z.land (not_u32 dir) (c_level c g))
    | None => c_mem c x
    end u32_MAX.

Definition set_mem (m : Reg → Z) (x : Reg) (v : Z) : Reg → Z :=
  λ y, if bool_decide (y = x) then v else m y.

Definition chip_wr (c : Chip) (x : Reg) (v : Z) : Chip :=
  match data_group x with
  | Some g =>
      mkChip (c_mem c) (c_open c) (λ g', if bool_decide (g' = g) then v else c_latch c g') (c_level c)
  | None =>
      let mem := set_mem (c_mem c) in
      if bool_decide (x = scu 0x000)
      then mkChip (c_mem c) (v =? SCU_UNLOCK_KEY) (c_latch c) (c_level c)
      else if bool_decide (x = sgpio 0x500)
      then mkChip (mem (sgpio 0x570) v) (c_open c) (c_latch c) (c_level c)
      else if bool_decide (fst x = ScuBank) && negb (c_open c) then c
      else mkChip (mem x v) (c_open c) (c_latch c) (c_level c)
  end.

#[export] Instance chip_soc : Soc Chip := {
  rd := chip_rd;
  wr := chip_wr;
  passthrough_field i := 4 + instance_u8 i;
  filter_field i := 8 + instance_u8 i;
  ext_mux_field i := 12 + instance_u8 i;
  misoin_field i := match i with Spim0 => 3 | Spim1 => 17 | Spim2 => 31 | Spim3 => 13 end;
  sgpiomaster_pins_on w := Z.lor w 0xf00;
  sgpiomaster_on w := Z.lor w 1;
}.

Lemma land_u32 v : in_u32 v → Z.land v u32_MAX = v.
Proof.
  intros Hv. apply Z.bits_inj'. intros n Hn. rewrite Z.land_spec.
  destruct (decide (n < 32)); [rewrite testbit_u32_MAX by lia; apply andb_true_r|].
  by rewrite in_u32_high by (done || lia).
Qed.

Lemma chip_range c x : in_u32 (chip_rd c x).
Proof. unfold chip_rd. rewrite Z.land_comm. by apply in_u32_land. Qed.

Lemma set_mem_eq m x v : set_mem m x v x = v.
Proof. unfold set_mem. by rewrite bool_decide_true. Qed.
Lemma set_mem_ne m x v y : y ≠ x → set_mem m x v y = m y.
Proof. intros Hy. unfold set_mem. by rewrite bool_decide_false. Qed.

Lemma affects_false x y :
  affects x y = false →
  x ≠ y ∧ (x = gpio 0x004 → y ≠ gpio 0x000) ∧ (x = gpio 0x024 → y ≠ gpio 0x020) ∧
  (x = sgpio 0x500 → y ≠ sgpio 0x570).
Proof.
  unfold affects. rewrite orb_false_iff. intros [Hne%bool_decide_eq_false He]. split; [done|].
  split_and!; intros -> ->; by vm_compute in He.
Qed.

Lemma data_group_some x g : data_group x = Some g → x = gpio_data_reg g.
Proof. unfold data_group. repeat case_bool_decide; naive_solver. Qed.

Lemma chip_frame c x v y : affects x y = false → chip_rd (chip_wr c x v) y = chip_rd c y.
Proof.
  intros (Hne & Ha & He & Hs)%affects_false. unfold chip_rd, chip_wr. f_equal.
  destruct (data_group x) as [gx|] eqn:Ex.
  { apply data_group_some in Ex as ->. destruct (data_group y) as [gy|] eqn:Ey; [|done].
    apply data_group_some in Ey as ->. cbn [c_mem c_latch c_level].
    rewrite bool_decide_false by congruence. done. }
  destruct (data_group y) as [gy|] eqn:Ey.
  - apply data_group_some in Ey as ->.
    assert (x ≠ gpio_direction_reg gy) by (destruct gy; naive_solver).
    repeat case_match; try done; cbn [c_mem c_latch c_level]; rewrite !set_mem_ne; try done;
      by destruct gy.
  - repeat case_match; try done; cbn [c_mem]; rewrite set_mem_ne; [done| |done|congruence].
    rewrite bool_decide_eq_true in *. naive_solver.
Qed.

Lemma chip_data_bit c g n :
  0 ≤ n < 32 →
  Z.testbit (chip_rd c (gpio_data_reg g)) n =
    if Z.testbit (chip_rd c (gpio_direction_reg g)) n then Z.testbit (c_latch c g) n
    else Z.testbit (c_level c g) n.
Proof.
  intros Hn. unfold chip_rd.
  assert (data_group (gpio_data_reg g) = Some g ∧ data_group (gpio_direction_reg g) = None)
    as [-> ->] by (by destruct g).
  rewrite !Z.land_spec, Z.lor_spec, !Z.land_spec, testbit_not_u32, testbit_u32_MAX by done.
  rewrite !andb_true_r. by destruct (Z.testbit (c_mem _ _) n); rewrite ?orb_false_r.
Qed.

Lemma chip_storage c x v :
  data_group x = None → x ≠ scu 0x000 → x ≠ sgpio 0x500 → fst x ≠ ScuBank ∨ c_open c = true →
  in_u32 v → chip_rd (chip_wr c x v) x = v.
Proof.
  intros Hg H1 H2 Ho Hv. unfold chip_rd, chip_wr. rewrite Hg.
  rewrite (bool_decide_false (x = _)), (bool_decide_false (x = sgpio _)) by done.
  assert (bool_decide (fst x = ScuBank) && negb (c_open c) = false) as ->.
  { destruct Ho as [Ho| ->]; [by rewrite bool_decide_false|apply andb_false_r]. }
  cbn [c_mem]. rewrite set_mem_eq. by apply land_u32.
Qed.

#[export] Instance chip_laws : SocLaws Chip.
Proof.
  refine {| unlocked_scu c := c_open c = true; latch := c_latch; level := c_level |}.
  - apply chip_range.
  - apply chip_frame.
  - done.
  - intros c x v Hx Hc. unfold wr, chip_soc, chip_wr. repeat case_match; try done.
    by rewrite bool_decide_eq_true in *.
  - intros c o v Hc Ho Hv. apply chip_storage; try done; [|by right].
    intros [= ->]. by apply existsb_eqb_elem in Ho.
  - intros c g v Hv. apply chip_storage; try done; [by destruct g..|]. left. by destruct g.
  - intros c g v Hv. unfold wr, chip_soc, chip_wr.
    assert (data_group (gpio_data_reg g) = Some g) as -> by (by destruct g).
    cbn [c_latch]. by rewrite bool_decide_true.
  - intros c x v g Hx. unfold wr, chip_soc, chip_wr.
    destruct (data_group x) as [g'|] eqn:E; [|by repeat case_match].
    apply data_group_some in E as ->. cbn [c_latch]. rewrite bool_decide_false; [done|congruence].
  - intros c x v g. unfold wr, chip_soc, chip_wr. by repeat case_match.
  - intros c g n Hn. by apply chip_data_bit.
  - intros c v Hv. unfold rd, wr, chip_soc, chip_rd, chip_wr. cbn [data_group c_mem].
    by rewrite land_u32.
  - intros []; simpl; lia.
  - intros []; simpl; lia.
  - intros []; simpl; lia.
  - intros []; simpl; lia.
  - by intros [] [].
  - by intros [] [].
  - by intros [] [].
Defined.

(** After reset, routed to monitor 2. *)
Definition chip0 : Chip :=
  chip_wr (chip_wr (mkChip (λ _, 0) false (λ _, 0) (λ _, 0)) (scu 0x000) SCU_UNLOCK_KEY)
    (scu 0x0f0) 3.

Lemma pinctrl_group_exact_witness :
  PINCTRL_SGPIOM ∈ PINCTRL_GROUPS ∧
  Z.testbit (rd (apply_pinctrl_group PINCTRL_SGPIOM chip0) (scu 0x41c)) 9 = true ∧
  Z.testbit (rd (apply_pinctrl_group PINCTRL_SGPIOM chip0) (scu 0x0f0)) 0 =
    Z.testbit (rd chip0 (scu 0x0f0)) 0.
Proof.
  assert (PINCTRL_SGPIOM ∈ PINCTRL_GROUPS) as Hin.
  { do 2 (apply elem_of_app; right). repeat (first [left|right]). }
  split; [exact Hin|].
  destruct (pinctrl_group_exact (S := Chip) PINCTRL_SGPIOM chip0 Hin) as [Hset Hout];
    [by vm_compute|].
  split.
  - apply (Hset (PIN 0x41c 9)). unfold PINCTRL_SGPIOM. right. left.
  - apply Hout; [lia|]. intros p Hp [= Ho Hb]. unfold PINCTRL_SGPIOM in Hp.
    repeat (apply elem_of_cons in Hp as [->|Hp]; [done|]). by apply elem_of_nil in Hp.
Defined.
