(* ===== verification/Smc.v ===== *)
(** * The static memory controllers

    [target/ast10x0/peripherals/smc]: the flash controllers FMC, SPI1 and SPI2.
    Each decodes a window of the address space per chip select; outside user mode
    reading the window reads the flash, in user mode every access to it shifts
    bytes on the bus.

    The registers and the window are the type class [SmcHw].  An address is a
    32-bit number; [usize] is 32 bits wide on this target.  Waiting for the DMA
    arbiter is given a number of polls, and a call that is never granted the bus
    does not return ([None]).  Delays and log messages are left out.

    The second part proves the bounds of the clock divider and of the calibration
    point. *)

From S2P Require Import Prelude Bytes RegMonad Spim.
From stdpp Require Import base tactics option list numbers.
Local Open Scope Z_scope.

(** ** Types ([types.rs], [interrupts.rs]) *)

Inductive SmcError :=
| SmcHardwareError | SmcTimeout | SmcDmaAborted | SmcDmaLengthMismatch | SmcInvalidChipSelect
| SmcInvalidCapacity | SmcDeviceNotSupported | SmcWriteProtected | SmcWriteInProgress
| SmcControllerNotReady | SmcDmaNotEnabled.

Inductive ChipSelect := Cs0 | Cs1.
Inductive SmcController := Fmc | SmcSpi1 | SmcSpi2.
Inductive AddressWidth := AddrNone | ThreeByte | FourByte.
Inductive TransferMode := Mode111 | Mode112 | Mode122 | Mode114 | Mode144.
Inductive SmcTopology := BootSpi (master_idx : Z) | HostSpi (master_idx : Z) | NormalSpi (master_idx : Z).
Inductive SmcInterrupt := DmaComplete | DmaError | CommandAbort | IntWriteProtected | IntUnknown.
Inductive SmcState := Idle | DmaInFlight | Faulted.

#[export] Instance ChipSelect_eq_dec : EqDecision ChipSelect.
Proof. solve_decision. Defined.
#[export] Instance SmcState_eq_dec : EqDecision SmcState.
Proof. solve_decision. Defined.

Record FlashConfig := mkFlashConfig {
  capacity_mb : Z; page_size : Z; sector_size : Z; block_size : Z; spi_clock_mhz : Z;
}.
#[export] Instance FlashConfig_eq_dec : EqDecision FlashConfig.
Proof. solve_decision. Defined.

Record SmcConfig := mkSmcConfig {
  sc_controller_id : SmcController; sc_cs0 : option FlashConfig; sc_cs1 : option FlashConfig;
  sc_dma_enabled : bool; sc_enable_interrupts : bool; sc_topology : SmcTopology;
}.

Definition winbond_w25q64 : FlashConfig := mkFlashConfig 8 256 4096 65536 25.
Definition winbond_w25q256 : FlashConfig := mkFlashConfig 32 256 4096 65536 25.

Definition byte_count (w : AddressWidth) : nat :=
  match w with AddrNone => 0 | ThreeByte => 3 | FourByte => 4 end.
Definition cmd_io_bits (m : TransferMode) : Z := 0.
Definition addr_io_bits (m : TransferMode) : Z :=
  match m with Mode111 | Mode112 | Mode114 => 0 | Mode122 | Mode144 => 0x20000000 end.
Definition data_io_bits (m : TransferMode) : Z :=
  match m with Mode111 => 0 | Mode112 | Mode122 => 0x20000000 | Mode114 | Mode144 => 0x40000000 end.

Definition base_address (c : SmcController) : Z :=
  match c with Fmc => 0x7e620000 | SmcSpi1 => 0x7e630000 | SmcSpi2 => 0x7e640000 end.
Definition flash_window_address (c : SmcController) : Z :=
  match c with Fmc => 0x80000000 | SmcSpi1 => 0x90000000 | SmcSpi2 => 0xb0000000 end.
Definition irq_number (c : SmcController) : Z :=
  match c with Fmc => 39 | SmcSpi1 => 65 | SmcSpi2 => 66 end.
Definition topology_master_idx (t : SmcTopology) : Z :=
  match t with BootSpi i | HostSpi i | NormalSpi i => i end.

Definition interrupt_try_from (value : Z) : option SmcInterrupt :=
  match value with
  | 0 => Some DmaComplete | 1 => Some DmaError | 2 => Some CommandAbort
  | 3 => Some IntWriteProtected | _ => None
  end.

Definition decode_with_context (intr_ctrl : Z) (dma_in_flight : bool) : SmcInterrupt :=
  if has_flag intr_ctrl (Z.shiftl 1 11) then DmaComplete
  else if has_flag intr_ctrl (Z.shiftl 1 10) then if dma_in_flight then DmaError else CommandAbort
  else if has_flag intr_ctrl (Z.shiftl 1 9) then IntWriteProtected
  else IntUnknown.
Definition interrupt_decode (intr_ctrl : Z) : SmcInterrupt := decode_with_context intr_ctrl true.

(** ** Pure helpers ([helpers.rs]) *)

Definition SMC_WINDOW_SIZE_BYTES : Z := 256 * 1024 * 1024.
Definition DMA_MAX_TRANSFER_LENGTH : Z := 0x200000.
Definition SPI_CTRL_FREQ_MASK : Z := 0x0f000f00.
Definition SPI_DMA_FLASH_MAP_BASE : Z := 0x60000000.
Definition SPI_DMA_RAM_MAP_BASE : Z := 0x80000000.
Definition SPI_DMA_GET_REQ_MAGIC : Z := 0xaeed0000.
Definition SPI_DMA_DISCARD_REQ_MAGIC : Z := 0xdeea0000.
Definition SPI_DMA_REQUEST : Z := Z.shiftl 1 31.
Definition SPI_DMA_GRANT : Z := Z.shiftl 1 30.
Definition SPI_DMA_CALIB_MODE : Z := Z.shiftl 1 3.
Definition SPI_DMA_CALC_CKSUM : Z := Z.shiftl 1 2.
Definition SPI_DMA_ENABLE : Z := 1.

(** [usize::checked_add], [checked_mul], [checked_sub] and [u32]'s, with
    [ok_or(InvalidCapacity)]. *)
Definition in_usize (v : Z) : result Z SmcError :=
  if (0 <=? v) && (v <=? u32_MAX) then Ok v else Err SmcInvalidCapacity.

Definition flash_capacity_bytes (config : option FlashConfig) : result Z SmcError :=
  match config with
  | Some config => in_usize (capacity_mb config * (1024 * 1024))
  | None => Ok 0
  end.

Definition slot (config : SmcConfig) (cs : ChipSelect) : option FlashConfig :=
  match cs with Cs0 => sc_cs0 config | Cs1 => sc_cs1 config end.

Definition cs_capacity_bytes (config : SmcConfig) (cs : ChipSelect) : result Z SmcError :=
  match slot config cs with
  | Some _ => flash_capacity_bytes (slot config cs)
  | None => Err SmcInvalidChipSelect
  end.

Definition total_capacity_bytes (cs0 cs1 : option FlashConfig) : result Z SmcError :=
  match flash_capacity_bytes cs0 with
  | Err e => Err e
  | Ok cs0_size =>
      match flash_capacity_bytes cs1 with
      | Err e => Err e
      | Ok cs1_size =>
          match in_usize (cs0_size + cs1_size) with
          | Err e => Err e
          | Ok total => if SMC_WINDOW_SIZE_BYTES <? total then Err SmcInvalidCapacity else Ok total
          end
      end
  end.

Definition validate_mapped_range (offset len capacity_bytes : Z) : result Z SmcError :=
  match in_usize (offset + len) with
  | Err e => Err e
  | Ok end_ => if capacity_bytes <? end_ then Err SmcInvalidCapacity else Ok offset
  end.

Record ValidatedDmaRead := mkDmaRead { vd_flash_start : Z; vd_dram_addr : Z; vd_dma_len_reg : Z }.

Definition validate_dma_read (flash_offset flash_win_base cs_capacity dram_addr len : Z) :
    result ValidatedDmaRead SmcError :=
  if (len =? 0) || (DMA_MAX_TRANSFER_LENGTH <? len) then Err SmcInvalidCapacity
  else if negb (Z.land flash_offset 3 =? 0) then Err SmcInvalidCapacity
  else
    match validate_mapped_range flash_offset len cs_capacity with
    | Err e => Err e
    | Ok _ =>
        match in_usize (flash_win_base - SPI_DMA_FLASH_MAP_BASE) with
        | Err e => Err e
        | Ok base =>
            match in_usize (base + flash_offset) with
            | Err e => Err e
            | Ok flash_start =>
                if negb (Z.land dram_addr 3 =? 0) then Err SmcInvalidCapacity
                else Ok (mkDmaRead flash_start dram_addr (len - 1))
            end
        end
    end.

Definition encode_fmc_segment (start end_ : Z) : result Z SmcError :=
  if (end_ =? 0) || (end_ <=? start) then Err SmcInvalidCapacity
  else
    let inclusive_end := end_ - 1 in
    Ok (Z.lor (Z.land (Z.shiftr (Z.shiftl (Z.shiftr start 19) 19) 16) 0x0ff8)
          (Z.land (Z.shiftl (Z.shiftr inclusive_end 19) 19) 0x0ff80000)).

Definition encode_spi_segment (start end_ : Z) : result Z SmcError :=
  if (end_ =? 0) || (end_ <=? start) then Err SmcInvalidCapacity
  else
    let inclusive_end := end_ - 1 in
    Ok (Z.lor (Z.land (Z.shiftr (Z.shiftl (Z.shiftr start 20) 20) 16) 0xffff)
          (Z.land (Z.shiftl (Z.shiftr inclusive_end 20) 20) 0xffff0000)).

(** [div_arr]. *)
Definition div_arr : list Z := [15; 7; 14; 6; 13; 5; 12; 4; 11; 3; 10; 2; 9; 1; 8; 0].

(** The pairs [(i, j)] in the order of the two loops. *)
Definition div_steps : list (nat * nat) :=
  i ← seq 0 15; j ← seq 0 16; mret (i, j).

Fixpoint find_div (steps : list (nat * nat)) (sysclk_mhz max_freq_mhz : Z) : Z :=
  match steps with
  | [] => 0
  | (i, j) :: rest =>
      if (i =? 0)%nat && (j =? 0)%nat then find_div rest sysclk_mhz max_freq_mhz
      else
        let divisor := Z.of_nat j + 1 + Z.of_nat i * 16 in
        if (max_freq_mhz * divisor <=? u32_MAX) && (sysclk_mhz <=? max_freq_mhz * divisor)
        then Z.lor (Z.shiftl (Z.of_nat i) 24) (Z.shiftl (default 0 (div_arr !! j)) 8)
        else find_div rest sysclk_mhz max_freq_mhz
  end.

Definition spi_freq_div (sysclk_mhz max_freq_mhz : Z) : result Z SmcError :=
  if max_freq_mhz =? 0 then Err SmcHardwareError
  else Ok (find_div div_steps sysclk_mhz max_freq_mhz).

(** The loop of [get_mid_point_of_longest_one]: [start], [mid_point], [max_cnt],
    [cnt]. *)
Fixpoint mid_loop (i : nat) (buf : list Z) (start mid_point max_cnt cnt : nat) : nat * nat :=
  match buf with
  | [] => (mid_point, max_cnt)
  | val :: rest =>
      let '(cnt, start) := if val =? 1 then (S cnt, start) else (0%nat, i) in
      if (max_cnt <? cnt)%nat
      then mid_loop (S i) rest start (start + cnt / 2) cnt cnt
      else mid_loop (S i) rest start mid_point max_cnt cnt
  end.

Definition get_mid_point_of_longest_one (buf : list Z) : Z :=
  let '(mid_point, max_cnt) := mid_loop 0 buf 0 0 0 0 in
  if (max_cnt <? 4)%nat then -1 else Z.of_nat mid_point.

Fixpoint calib_loop (buf : list Z) (valid_count : Z) : bool :=
  match buf with
  | b0 :: b1 :: b2 :: b3 :: rest =>
      let word := u32_from_le_bytes b0 b1 b2 b3 in
      let valid_count :=
        if negb (word =? 0) && negb (word =? u32_MAX) then valid_count + 1 else valid_count in
      if 100 <? valid_count then true else calib_loop rest valid_count
  | _ => false
  end.

Definition spi_calibration_enable (buf : list Z) : result bool SmcError :=
  if (length buf <? 4)%nat then Ok false else Ok (calib_loop buf 0).

(** ** Registers ([registers.rs]) *)

(** Reading a register may let time pass; [dma_kick] is the writer of the two
    fields [kick_dma_read] names without their position. *)
Class SmcHw (H : Type) : Type := {
  reg_read : H → Z → H * Z;
  reg_write : H → Z → Z → H;
  ahb_read8 : H → Z → H * Z;
  ahb_read32 : H → Z → H * Z;
  ahb_write8 : H → Z → Z → H;
  ahb_write32 : H → Z → Z → H;
  dma_kick : Z → Z;
}.

(** [Smc<Mode>]: the mode is a property of the call sequence. *)
Record Smc (H : Type) := mkSmc {
  sm_regs : H; sm_controller_id : SmcController; sm_config : SmcConfig; sm_state : SmcState;
  sm_normal_read_ctrl : Z * Z; sm_flash_window_base : Z * Z;
}.
Arguments mkSmc {H}.
Arguments sm_regs {H}.
Arguments sm_controller_id {H}.
Arguments sm_config {H}.
Arguments sm_state {H}.
Arguments sm_normal_read_ctrl {H}.
Arguments sm_flash_window_base {H}.

Definition at_cs {A} (cs : ChipSelect) (p : A * A) : A := match cs with Cs0 => p.1 | Cs1 => p.2 end.
Definition set_at_cs {A} (cs : ChipSelect) (v : A) (p : A * A) : A * A :=
  match cs with Cs0 => (v, p.2) | Cs1 => (p.1, v) end.

Section controller.
Context {H : Type} `{SmcHw H}.

Definition smc (A : Type) : Type := drv (Smc H) SmcError A.

Definition with_regs (h : H) (m : Smc H) : Smc H :=
  mkSmc h (sm_controller_id m) (sm_config m) (sm_state m) (sm_normal_read_ctrl m) (sm_flash_window_base m).
Definition with_state (s : SmcState) (m : Smc H) : Smc H :=
  mkSmc (sm_regs m) (sm_controller_id m) (sm_config m) s (sm_normal_read_ctrl m) (sm_flash_window_base m).
Definition set_state (s : SmcState) : smc unit := writes (with_state s).

Definition hw_read (f : H → H * Z) : smc Z := λ m,
  let '(h, v) := f (sm_regs m) in Some (with_regs h m, Ok v).
Definition hw_write (f : H → H) : smc unit := writes (λ m, with_regs (f (sm_regs m)) m).

(** [modify_config], [modify_spi_mode]. *)
Definition reg_modify (o : Z) (f : Z → Z) : smc unit :=
  v ← hw_read (λ h, reg_read h o); hw_write (λ h, reg_write h o (f v)).

Definition read_config : smc Z := hw_read (λ h, reg_read h 0x000).
Definition write_config (v : Z) : smc unit := hw_write (λ h, reg_write h 0x000 v).
Definition modify_config (f : Z → Z) : smc unit := reg_modify 0x000 f.
Definition read_spi_mode : smc Z := hw_read (λ h, reg_read h 0x06c).
Definition write_spi_mode (v : Z) : smc unit := hw_write (λ h, reg_write h 0x06c v).
Definition modify_spi_mode (f : Z → Z) : smc unit := reg_modify 0x06c f.
Definition read_addr_width : smc Z := hw_read (λ h, reg_read h 0x004).
Definition write_addr_width (v : Z) : smc unit := hw_write (λ h, reg_write h 0x004 v).
Definition read_dma_status : smc Z := hw_read (λ h, reg_read h 0x008).
Definition clear_status (mask : Z) : smc unit := hw_write (λ h, reg_write h 0x008 mask).
Definition enable_dma_irq : smc unit := reg_modify 0x008 (λ v, Z.lor v 8).
Definition disable_dma_irq : smc unit := reg_modify 0x008 (λ v, Z.land v (not_u32 8)).

Definition cs_ctrl_reg (cs : ChipSelect) : Z := match cs with Cs0 => 0x010 | Cs1 => 0x014 end.
Definition cs_segment_reg (cs : ChipSelect) : Z := match cs with Cs0 => 0x030 | Cs1 => 0x034 end.
Definition cs_timing_reg (cs : ChipSelect) : Z := match cs with Cs0 => 0x094 | Cs1 => 0x098 end.
Definition read_cs_ctrl (cs : ChipSelect) : smc Z := hw_read (λ h, reg_read h (cs_ctrl_reg cs)).
Definition write_cs_ctrl (cs : ChipSelect) (v : Z) : smc unit :=
  hw_write (λ h, reg_write h (cs_ctrl_reg cs) v).
Definition read_cs_segment (cs : ChipSelect) : smc Z := hw_read (λ h, reg_read h (cs_segment_reg cs)).
Definition write_cs_segment (cs : ChipSelect) (v : Z) : smc unit :=
  hw_write (λ h, reg_write h (cs_segment_reg cs) v).
Definition write_cs_timing_compensation (cs : ChipSelect) (v : Z) : smc unit :=
  hw_write (λ h, reg_write h (cs_timing_reg cs) v).
Definition read_cs_timing_compensation (cs : ChipSelect) : smc Z :=
  hw_read (λ h, reg_read h (cs_timing_reg cs)).
Definition already_calibrated (cs : ChipSelect) : smc bool :=
  v ← read_cs_timing_compensation cs; mret (negb (v =? 0)).

Definition read_dma_ctrl : smc Z := hw_read (λ h, reg_read h 0x080).
Definition write_dma_ctrl (v : Z) : smc unit := hw_write (λ h, reg_write h 0x080 v).
Definition disable_dma : smc unit := write_dma_ctrl 0;; write_dma_ctrl SPI_DMA_DISCARD_REQ_MAGIC.

(** [while self.read_dma_ctrl() & SPI_DMA_GRANT == 0 {}]. *)
Fixpoint wait_grant (polls : nat) : smc unit := λ m,
  match polls with
  | O => None
  | S polls =>
      match read_dma_ctrl m with
      | Some (m', Ok v) => if has_flag v SPI_DMA_GRANT then Some (m', Ok ()) else wait_grant polls m'
      | Some (m', Err e) => Some (m', Err e)
      | None => None
      end
  end.

Definition acquire_dma_arbiter (polls : nat) : smc unit :=
  write_dma_ctrl SPI_DMA_GET_REQ_MAGIC;;
  v ← read_dma_ctrl;
  if has_flag v SPI_DMA_REQUEST then wait_grant polls else mret ().

Definition read_dma_flash_addr : smc Z := hw_read (λ h, reg_read h 0x084).
Definition read_dma_dram_addr : smc Z := hw_read (λ h, reg_read h 0x088).
Definition write_dma_flash_addr (v : Z) : smc unit := hw_write (λ h, reg_write h 0x084 v).
Definition write_dma_dram_addr (v : Z) : smc unit := hw_write (λ h, reg_write h 0x088 v).
Definition write_dma_len (v : Z) : smc unit := hw_write (λ h, reg_write h 0x08c v).
Definition kick_dma_read : smc unit := reg_modify 0x080 dma_kick.
Definition read_dma_checksum : smc Z := hw_read (λ h, reg_read h 0x090).

(** ** The controller ([controller.rs]) *)

Definition ASPEED_SPI_USER : Z := 3.
Definition ASPEED_SPI_USER_INACTIVE : Z := 4.
Definition ASPEED_SPI_NORMAL_READ : Z := 1.
Definition SPI_NOR_CMD_QREAD : Z := 0x6b.
Definition SPI_NOR_CMD_QREAD_4B : Z := 0x6c.
Definition SPI_NOR_4B_READ_THRESHOLD_BYTES : Z := 16 * 1024 * 1024.
Definition SPI_NOR_ADDR_WIDTH_MASK : Z := 0x11.
Definition DMA_STATUS_RELEVANT_BITS : Z := Z.lor (Z.shiftl 1 11) (Z.lor (Z.shiftl 1 10) (Z.shiftl 1 9)).
Definition SPI_CTRL_IO_MODE_MASK : Z := not_u32 0x70000000.
Definition SPI_CALIB_LEN : nat := Z.to_nat 0x400.

Definition spi_nor_qread_cmd_for_capacity (capacity_bytes : Z) : Z :=
  if SPI_NOR_4B_READ_THRESHOLD_BYTES <? capacity_bytes then SPI_NOR_CMD_QREAD_4B else SPI_NOR_CMD_QREAD.
Definition spi_nor_uses_4b_addr (capacity_bytes : Z) : bool :=
  SPI_NOR_4B_READ_THRESHOLD_BYTES <? capacity_bytes.
Definition cs_u32 (cs : ChipSelect) : Z := match cs with Cs0 => 0 | Cs1 => 1 end.
Definition spi_nor_addr_width_mask (cs : ChipSelect) : Z := Z.shiftl SPI_NOR_ADDR_WIDTH_MASK (cs_u32 cs).
Definition spi_nor_addr_width_reg (current : Z) (cs : ChipSelect) (use_4b : bool) : Z :=
  let mask := spi_nor_addr_width_mask cs in
  if use_4b then Z.lor current mask else Z.land current (not_u32 mask).

(** [Smc::new], over the hardware at the controller's base address. *)
Definition smc_new (h : H) (config : SmcConfig) : result (Smc H) SmcError :=
  match sc_cs0 config, sc_cs1 config with
  | None, None => Err SmcInvalidCapacity
  | _, _ => Ok (mkSmc h (sc_controller_id config) config Idle (0, 0) (0, 0))
  end.

Definition encode_segment (config : SmcConfig) (start end_ : Z) : result Z SmcError :=
  match sc_controller_id config with
  | Fmc => encode_fmc_segment start end_
  | SmcSpi1 | SmcSpi2 => encode_spi_segment start end_
  end.

Definition setup_segments : smc unit :=
  config ← reads sm_config;
  cs0_size ← lift (flash_capacity_bytes (sc_cs0 config));
  cs1_size ← lift (flash_capacity_bytes (sc_cs1 config));
  lift (total_capacity_bytes (sc_cs0 config) (sc_cs1 config));;
  (if 0 <? cs0_size then
     seg ← lift (encode_segment config 0 cs0_size); write_cs_segment Cs0 seg
   else mret ());;
  (if 0 <? cs1_size then
     seg ← lift (encode_segment config cs0_size (cs0_size + cs1_size)); write_cs_segment Cs1 seg
   else mret ()).

Definition config_bits (config : SmcConfig) : Z :=
  let conf := match sc_cs0 config with Some _ => Z.lor (Z.shiftl 1 16) 2 | None => 0 end in
  match sc_cs1 config with
  | Some _ => Z.lor (Z.lor conf (Z.shiftl 1 17)) (Z.shiftl 2 2)
  | None => conf
  end.

Definition init : smc unit :=
  config ← reads sm_config;
  write_config (config_bits config);;
  setup_segments;;
  cs0_normal_read ← read_cs_ctrl Cs0;
  cs1_normal_read ← read_cs_ctrl Cs1;
  writes (λ m,
    let base := flash_window_address (sm_controller_id m) in
    let cs0_size := unwrap_or (flash_capacity_bytes (sc_cs0 config)) 0 in
    mkSmc (sm_regs m) (sm_controller_id m) (sm_config m) Idle
      (cs0_normal_read, cs1_normal_read) (base, base + cs0_size)).

Definition flash_window_base (cs : ChipSelect) : smc Z := reads (λ m, at_cs cs (sm_flash_window_base m)).
Definition normal_read_ctrl (cs : ChipSelect) : smc Z := reads (λ m, at_cs cs (sm_normal_read_ctrl m)).
Definition set_normal_read_ctrl (cs : ChipSelect) (v : Z) : smc unit :=
  writes (λ m, mkSmc (sm_regs m) (sm_controller_id m) (sm_config m) (sm_state m)
                 (set_at_cs cs v (sm_normal_read_ctrl m)) (sm_flash_window_base m)).

Definition cs_config (cs : ChipSelect) : smc FlashConfig :=
  config ← reads sm_config; lift (ok_or (slot config cs) SmcInvalidChipSelect).
Definition capacity_bytes : smc Z :=
  config ← reads sm_config; lift (total_capacity_bytes (sc_cs0 config) (sc_cs1 config)).
Definition smc_cs_capacity_bytes (cs : ChipSelect) : smc Z :=
  config ← reads sm_config; lift (cs_capacity_bytes config cs).
Definition is_ready : smc bool := reads (λ m, bool_decide (sm_state m = Idle)).
Definition test_force_dma_in_flight : smc unit := set_state DmaInFlight.
Definition controller_id : smc SmcController := reads sm_controller_id.
Definition master_idx : smc Z := reads (λ m, topology_master_idx (sc_topology (sm_config m))).

(** Bytes of the window, one at a time. *)
Fixpoint window_bytes (address : Z) (len : nat) : smc (list Z) :=
  match len with
  | O => mret []
  | S len =>
      b ← hw_read (λ h, ahb_read8 h address);
      rest ← window_bytes (address + 1) len;
      mret (b :: rest)
  end.

Definition smc_read (cs : ChipSelect) (offset : Z) (len : nat) : smc (list Z) :=
  config ← cs_config cs;
  cs_capacity ← lift (flash_capacity_bytes (Some config));
  window ← flash_window_base cs;
  offset ← lift (validate_mapped_range offset (Z.of_nat len) cs_capacity);
  window_bytes (window + offset) len.

(** ** User mode *)

(** [ahb_addr.add(i)] for the words, then the bytes that are left. *)
Fixpoint spi_write_data (address : Z) (write_arr : list Z) : smc unit :=
  match write_arr with
  | b0 :: b1 :: b2 :: b3 :: rest =>
      hw_write (λ h, ahb_write32 h address (u32_from_le_bytes b0 b1 b2 b3));;
      spi_write_data (address + 4) rest
  | b :: rest => hw_write (λ h, ahb_write8 h address b);; spi_write_data (address + 1) rest
  | [] => mret ()
  end.

Fixpoint spi_read_words (address : Z) (words : nat) : smc (list Z) :=
  match words with
  | O => mret []
  | S words =>
      w ← hw_read (λ h, ahb_read32 h address);
      rest ← spi_read_words (address + 4) words;
      mret (u32_to_le_bytes w ++ rest)
  end.

Definition spi_read_data (address : Z) (len : nat) : smc (list Z) :=
  words ← spi_read_words address (len / 4);
  bytes ← window_bytes (address + Z.of_nat (len - len mod 4)) (len mod 4);
  mret (words ++ bytes).

Definition transceive_user (cs : ChipSelect) (cmd tx_payload : list Z) (rx : nat) (mode : TransferMode) :
    smc (list Z) :=
  idle ← is_ready;
  require idle SmcControllerNotReady;;
  config ← reads sm_config;
  require (negb (bool_decide (cs = Cs1 ∧ sc_cs1 config = None))) SmcInvalidChipSelect;;
  nr ← normal_read_ctrl cs;
  let user_base := Z.lor (Z.land nr (not_u32 7)) ASPEED_SPI_USER in
  window ← flash_window_base cs;
  write_cs_ctrl cs (Z.lor user_base ASPEED_SPI_USER_INACTIVE);;
  write_cs_ctrl cs user_base;;
  write_cs_ctrl cs (Z.lor (Z.land user_base SPI_CTRL_IO_MODE_MASK) (cmd_io_bits mode));;
  spi_write_data window cmd;;
  write_cs_ctrl cs (Z.lor (Z.land user_base SPI_CTRL_IO_MODE_MASK) (addr_io_bits mode));;
  spi_write_data window tx_payload;;
  write_cs_ctrl cs (Z.lor (Z.land user_base SPI_CTRL_IO_MODE_MASK) (data_io_bits mode));;
  out ← spi_read_data window rx;
  write_cs_ctrl cs (Z.lor user_base ASPEED_SPI_USER_INACTIVE);;
  nr ← normal_read_ctrl cs;
  write_cs_ctrl cs nr;;
  mret out.

(** ** DMA *)

(** An addition of [u32] that panics when it overflows. *)
Definition add_u32 (a b : Z) : smc Z := guarded (a + b <=? u32_MAX) (mret (a + b)).

Definition dma_read (polls : nat) (cs : ChipSelect) (flash_offset dram_addr len : Z) : smc unit :=
  idle ← is_ready;
  require idle SmcControllerNotReady;;
  config ← reads sm_config;
  require (sc_dma_enabled config) SmcDmaNotEnabled;;
  require (negb (bool_decide (cs = Cs1 ∧ sc_cs1 config = None))) SmcInvalidChipSelect;;
  disable_dma;;
  cs_cfg ← cs_config cs;
  cs_capacity ← lift (flash_capacity_bytes (Some cs_cfg));
  window ← flash_window_base cs;
  validated ← lift (validate_dma_read flash_offset window cs_capacity dram_addr len);
  nr ← normal_read_ctrl cs;
  write_cs_ctrl cs (Z.lor nr ASPEED_SPI_NORMAL_READ);;
  acquire_dma_arbiter polls;;
  write_dma_flash_addr (vd_flash_start validated);;
  dram ← add_u32 (vd_dram_addr validated) SPI_DMA_RAM_MAP_BASE;
  write_dma_dram_addr dram;;
  write_dma_len (vd_dma_len_reg validated);;
  (if sc_enable_interrupts config then enable_dma_irq else mret ());;
  kick_dma_read;;
  set_state DmaInFlight.

Definition dma_status : smc Z := read_dma_status.
Definition clear_dma_status (clear_mask : Z) : smc unit :=
  clear_status (Z.land clear_mask DMA_STATUS_RELEVANT_BITS).

Definition complete_dma (status : Z) : smc SmcInterrupt :=
  let relevant := Z.land status DMA_STATUS_RELEVANT_BITS in
  dma_in_flight ← reads (λ m, bool_decide (sm_state m = DmaInFlight));
  let decoded := decode_with_context status dma_in_flight in
  clear_dma_status relevant;;
  match decoded with
  | DmaComplete => disable_dma;; set_state Idle;; mret decoded
  | DmaError => disable_dma;; set_state Idle;; raise SmcDmaAborted
  | CommandAbort => set_state Faulted;; raise SmcHardwareError
  | IntWriteProtected => set_state Faulted;; raise SmcWriteProtected
  | IntUnknown => raise SmcHardwareError
  end.

Definition handle_dma_irq : smc SmcInterrupt :=
  disable_dma_irq;;
  status ← dma_status;
  require (has_flag status DMA_STATUS_RELEVANT_BITS) SmcControllerNotReady;;
  complete_dma status.

(** [None] is [Poll::Pending]. *)
Definition poll_dma_completion : smc (option (result unit SmcError)) :=
  dma_in_flight ← reads (λ m, bool_decide (sm_state m = DmaInFlight));
  if (dma_in_flight : bool) then
    status ← dma_status;
    if has_flag status DMA_STATUS_RELEVANT_BITS then
      r ← attempt (complete_dma status);
      mret (Some (match r with Ok _ => Ok () | Err e => Err e end))
    else mret None
  else mret (Some (Err SmcControllerNotReady)).

Fixpoint poll_blocking_dma_completion (to : nat) : smc Z :=
  status ← read_dma_status;
  if has_flag status DMA_STATUS_RELEVANT_BITS then mret (Z.of_nat to)
  else match to with O => mret 0 | S to => poll_blocking_dma_completion to end.

(** ** Timing *)

Definition SYSCLK_MHZ : Z := 200.

Definition configure_timing (cs : ChipSelect) (spi_clock_mhz : Z) : smc unit :=
  encoded_div ← lift (spi_freq_div SYSCLK_MHZ spi_clock_mhz);
  reg ← read_cs_ctrl cs;
  write_cs_ctrl cs (Z.lor (Z.land reg (not_u32 SPI_CTRL_FREQ_MASK)) encoded_div);;
  v ← read_cs_ctrl cs;
  set_normal_read_ctrl cs v.

Definition spi_dma_checksum (polls : nat) (cs : ChipSelect) (div delay : Z) : smc Z :=
  acquire_dma_arbiter polls;;
  flash_addr ← flash_window_base cs;
  write_dma_flash_addr flash_addr;;
  write_dma_len (Z.of_nat SPI_CALIB_LEN);;
  write_dma_ctrl
    (Z.lor (Z.lor (Z.lor (Z.lor SPI_DMA_ENABLE SPI_DMA_CALC_CKSUM) SPI_DMA_CALIB_MODE)
       (Z.shiftl delay 8)) (Z.shiftl (Z.land div 0xf) 16));;
  poll_blocking_dma_completion 0x1000;;
  checksum ← read_dma_checksum;
  disable_dma;;
  mret checksum.

Definition calib_delay (hcycle delay_ns : Z) : Z := Z.lor (Z.lor 8 hcycle) (Z.shiftl delay_ns 4).

(** The points [(hcycle, delay_ns)] in the order of the two loops. *)
Definition calib_points : list (nat * nat) := h ← seq 0 6; d ← seq 0 16; mret (h, d).

Fixpoint calib_sweep (polls : nat) (cs : ChipSelect) (mask gold_checksum : Z)
    (points : list (nat * nat)) (calib_res : list Z) : smc (list Z) :=
  match points with
  | [] => mret calib_res
  | (hcycle, delay_ns) :: rest =>
      checksum ← spi_dma_checksum polls cs mask (calib_delay (Z.of_nat hcycle) (Z.of_nat delay_ns));
      calib_sweep polls cs mask gold_checksum rest
        (<[(hcycle * 17 + delay_ns)%nat := Z.b2z (checksum =? gold_checksum)]> calib_res)
  end.

(** [hclk_masks] with their index and frequency. *)
Definition hclk_masks : list (Z * Z * Z) := [(0, 7, 100); (1, 14, 66); (2, 6, 50); (3, 13, 40)].

Fixpoint timing_sweep (polls : nat) (cs : ChipSelect) (gold_checksum : Z) (masks : list (Z * Z * Z))
    (freq_to_use : Z) : smc unit :=
  match masks with
  | [] => mret ()
  | (i, mask, freq) :: rest =>
      if freq_to_use <? freq then timing_sweep polls cs gold_checksum rest freq_to_use
      else
        spi_dma_checksum polls cs mask 0;;
        calib_res ← calib_sweep polls cs mask gold_checksum calib_points (replicate (6 * 17) 0);
        let calib_point := get_mid_point_of_longest_one calib_res in
        if 0 <=? calib_point then
          let hcycle := calib_point / 17 in
          let delay_ns := calib_point mod 17 in
          write_cs_timing_compensation cs (as_u32 (Z.shiftl (calib_delay hcycle delay_ns) (i * 8)))
        else timing_sweep polls cs gold_checksum rest freq
  end.

Definition run_timing_sweep (polls : nat) (cs : ChipSelect) (cs_cfg : FlashConfig) (gold_checksum : Z) :
    smc unit :=
  timing_sweep polls cs gold_checksum hclk_masks (spi_clock_mhz cs_cfg).

Definition timing_calibration (polls : nat) (cs : ChipSelect) : smc unit :=
  cs_cfg ← cs_config cs;
  done ← already_calibrated cs;
  if (done : bool) then configure_timing cs (spi_clock_mhz cs_cfg)
  else
    master ← master_idx;
    if negb (master =? 0) && negb (bool_decide (cs = Cs0)) then configure_timing cs (spi_clock_mhz cs_cfg)
    else
      ctrl_val ← read_cs_ctrl cs;
      write_cs_ctrl cs (Z.land ctrl_val (not_u32 SPI_CTRL_FREQ_MASK));;
      window ← flash_window_base cs;
      check_buf ← window_bytes window SPI_CALIB_LEN;
      enable ← lift (spi_calibration_enable check_buf);
      if negb enable then configure_timing cs (spi_clock_mhz cs_cfg)
      else
        gold_checksum ← spi_dma_checksum polls cs 0 0;
        run_timing_sweep polls cs cs_cfg gold_checksum;;
        configure_timing cs (spi_clock_mhz cs_cfg).

Definition spi_nor_read_init (polls : nat) (cs : ChipSelect) : smc unit :=
  cs_capacity ← smc_cs_capacity_bytes cs;
  let use_4b_addr := spi_nor_uses_4b_addr cs_capacity in
  let read_opcode := spi_nor_qread_cmd_for_capacity cs_capacity in
  let read_cmd :=
    Z.lor (Z.lor (Z.lor (data_io_bits Mode114) (Z.shiftl read_opcode 16)) (Z.shiftl 1 6))
      ASPEED_SPI_NORMAL_READ in
  write_cs_ctrl cs read_cmd;;
  width ← read_addr_width;
  write_addr_width (spi_nor_addr_width_reg width cs use_4b_addr);;
  set_normal_read_ctrl cs read_cmd;;
  if negb (bool_decide (cs = Cs0)) then
    cfg ← cs_config cs;
    configure_timing cs (spi_clock_mhz cfg)
  else timing_calibration polls cs.
End controller.

(** * Flash controller timing: the clock divider and the calibration point

    [spi_freq_div] picks the smallest divisor that keeps the clock within the
    limit; [get_mid_point_of_longest_one] picks a point inside a longest run of
    delays that worked.  On it, what the DMA engine's completion does to the
    state of the controller. *)
(** ** The divider *)

(** The register value for the divisor [d], and the divisors tried. *)
Definition div_word (d : nat) : Z :=
  Z.lor (Z.shiftl (Z.of_nat ((d - 1) / 16)) 24) (Z.shiftl (default 0 (div_arr !! ((d - 1) mod 16)%nat)) 8).
Definition fits (sysclk max : Z) (d : nat) : bool :=
  (max * Z.of_nat d <=? u32_MAX) && (sysclk <=? max * Z.of_nat d).

Definition div_step (d : nat) : nat * nat := (((d - 1) / 16)%nat, ((d - 1) mod 16)%nat).

Lemma div_steps_seq : div_steps = (0%nat, 0%nat) :: (div_step <$> seq 2 239).
Proof. vm_compute. reflexivity. Qed.

(** The divider is the smallest from [a] that fits; 0 when there is none. *)
Definition least_divider (sysclk max v : Z) (a n : nat) : Prop :=
  (∃ d, (a ≤ d < a + n)%nat ∧ v = div_word d ∧ fits sysclk max d = true ∧
     ∀ d', (a ≤ d' < d)%nat → fits sysclk max d' = false) ∨
  v = 0 ∧ ∀ d', (a ≤ d' < a + n)%nat → fits sysclk max d' = false.

Lemma find_div_least a n sysclk max :
  (2 ≤ a)%nat → least_divider sysclk max (find_div (div_step <$> seq a n) sysclk max) a n.
Proof.
  revert a. induction n as [|n IH]; intros a Ha; [right; split; [done|lia]|].
  cbn [seq fmap list_fmap find_div div_step]. unfold div_step at 1.
  pose proof (Nat.div_mod_eq (a - 1) 16) as Hd.
  assert ((((a - 1) / 16 =? 0)%nat && ((a - 1) mod 16 =? 0)%nat) = false) as ->.
  { apply not_true_iff_false. rewrite andb_true_iff, !Nat.eqb_eq. lia. }
  replace (Z.of_nat ((a - 1) mod 16) + 1 + Z.of_nat ((a - 1) / 16) * 16) with (Z.of_nat a) by lia.
  fold (fits sysclk max a). destruct (fits sysclk max a) eqn:Hfit.
  { left. exists a. split; [lia|]. split; [done|]. split; [done|]. lia. }
  destruct (IH (Datatypes.S a) ltac:(lia)) as [(d & Hr & Hv & Hf & Hl)|[Hv Hl]]; [left; exists d|right];
    (split; [lia || done|]); [split; [done|]; split; [done|]|];
    (intros d' Hd'; destruct (decide (d' = a)) as [->|]; [done|apply Hl; lia]).
Qed.

Lemma find_div_skip l sysclk max : find_div ((0%nat, 0%nat) :: l) sysclk max = find_div l sysclk max.
Proof. done. Qed.

Lemma spi_freq_div_least sysclk max :
  0 < max → ∃ v, spi_freq_div sysclk max = Ok v ∧ least_divider sysclk max v 2 239.
Proof.
  intros Hmax. unfold spi_freq_div. rewrite (proj2 (Z.eqb_neq max 0)) by lia.
  rewrite div_steps_seq. eexists. split; [done|].
  rewrite find_div_skip. apply find_div_least. lia.
Qed.

(** ** The calibration point *)

(** The [n] results from [s] are all 1. *)
Definition ones (buf : list Z) (s n : nat) : Prop := ∀ k, (k < n)%nat → buf !! (s + k)%nat = Some 1.

(** What the loop knows of the results before [i]: the run that ends there, and
    a longest run. *)
Record scanned (buf : list Z) (i start mid max cnt : nat) : Prop := {
  sc_le : (cnt ≤ i)%nat;
  sc_run : ones buf (i - cnt) cnt;
  sc_last : ∀ s n, (s + n = i)%nat → ones buf s n → (n ≤ cnt)%nat;
  sc_start : start = (i - cnt - 1)%nat ∨ start = 0%nat ∧ i = cnt;
  sc_best : ∀ s n, (s + n ≤ i)%nat → ones buf s n → (n ≤ max)%nat;
  sc_mid : (4 ≤ max)%nat → ∃ s, (s + max ≤ i)%nat ∧ ones buf s max ∧ (s ≤ mid < s + max)%nat;
}.

Lemma ones_step buf s n i v :
  (s + n = Datatypes.S i)%nat → buf !! i = Some v → ones buf s n →
  n = 0%nat ∨ v = 1 ∧ ∃ n', n = Datatypes.S n' ∧ (s + n' = i)%nat ∧ ones buf s n'.
Proof.
  intros E Hv Ho. destruct n as [|n']; [by left|]. right. specialize (Ho n') as Hl.
  replace (s + n')%nat with i in Hl by lia. split; [rewrite Hv in Hl; specialize (Hl ltac:(lia)); congruence|].
  exists n'. split; [done|]. split; [lia|]. intros k Hk. apply Ho. lia.
Qed.

Lemma scanned_step buf i start mid max cnt v :
  buf !! i = Some v → scanned buf i start mid max cnt →
  let cnt' := if v =? 1 then Datatypes.S cnt else 0%nat in
  let start' := if v =? 1 then start else i in
  if (max <? cnt')%nat then scanned buf (Datatypes.S i) start' (start' + cnt' / 2) cnt' cnt'
  else scanned buf (Datatypes.S i) start' mid max cnt'.
Proof.
  intros Hv [Hle Hrun Hlast Hstart Hbest Hmid] cnt' start'.
  assert (cnt' ≤ Datatypes.S i)%nat as Hle' by (unfold cnt'; destruct (v =? 1); lia).
  assert (ones buf (Datatypes.S i - cnt') cnt') as Hrun'.
  { unfold cnt'. destruct (Z.eqb_spec v 1) as [->|]; [|intros k Hk; lia]. intros k Hk.
    replace (Datatypes.S i - Datatypes.S cnt)%nat with (i - cnt)%nat by lia.
    destruct (decide (k < cnt)%nat) as [Hlt|Hge]; [by apply Hrun|]. by replace (i - cnt + k)%nat with i by lia. }
  assert (∀ s n, (s + n = Datatypes.S i)%nat → ones buf s n → (n ≤ cnt')%nat) as Hlast'.
  { intros s n E Ho. destruct (ones_step buf s n i v E Hv Ho) as [->|(-> & n' & -> & E' & Ho')]; [lia|].
    unfold cnt'. cbn. specialize (Hlast s n' E' Ho'). lia. }
  assert (start' = (Datatypes.S i - cnt' - 1)%nat ∨ start' = 0%nat ∧ Datatypes.S i = cnt') as Hstart'.
  { unfold start', cnt'. destruct (v =? 1); lia. }
  assert (∀ s n, (s + n ≤ Datatypes.S i)%nat → ones buf s n → (n ≤ Nat.max max cnt')%nat) as Hbest'.
  { intros s n E Ho. destruct (decide (s + n = Datatypes.S i)%nat) as [E'|].
    - specialize (Hlast' s n E' Ho). lia.
    - specialize (Hbest s n ltac:(lia) Ho). lia. }
  destruct (Nat.ltb_spec max cnt') as [Hlt|Hge]; constructor; try done.
  - intros s n E Ho. specialize (Hbest' s n E Ho). lia.
  - intros H4. exists (Datatypes.S i - cnt')%nat. split; [lia|]. split; [done|].
    assert (2 ≤ cnt' / 2 < cnt')%nat; [|lia].
    split; [apply (Nat.Div0.div_le_mono 4 cnt' 2 H4)|apply Nat.div_lt; lia].
  - intros s n E Ho. specialize (Hbest' s n E Ho). lia.
  - intros H4. destruct (Hmid H4) as (s & E & Ho & Hm). exists s. split; [lia|]. by split.
Qed.

Lemma mid_loop_scanned buf i rest start mid max cnt :
  drop i buf = rest → (i ≤ length buf)%nat → scanned buf i start mid max cnt →
  ∃ start' cnt', let '(mid', max') := mid_loop i rest start mid max cnt in
    scanned buf (length buf) start' mid' max' cnt'.
Proof.
  revert i start mid max cnt. induction rest as [|v rest IH]; intros i start mid max cnt Hd Hi Hs.
  - assert (i = length buf) as -> by (apply (f_equal length) in Hd; rewrite length_drop in Hd; cbn in Hd; lia).
    by exists start, cnt.
  - assert (buf !! i = Some v) as Hv by (by rewrite <- (Nat.add_0_r i), <- lookup_drop, Hd).
    pose proof (scanned_step buf i start mid max cnt v Hv Hs) as Hn. cbn zeta in Hn.
    apply lookup_lt_Some in Hv as Hlt. assert (drop (Datatypes.S i) buf = rest) as Hd'.
    { rewrite <- Nat.add_1_r, <- drop_drop, Hd. done. }
    cbn [mid_loop]. destruct (v =? 1); destruct (_ <? _)%nat; by apply IH.
Qed.

(** The calibration point lies in a longest run of results that are 1, and there
    is none exactly when no run has four. *)
Lemma mid_point_longest buf :
  let r := get_mid_point_of_longest_one buf in
  r = -1 ∧ (∀ s n, ones buf s n → (s + n ≤ length buf)%nat → (n < 4)%nat) ∨
  ∃ p s n, r = Z.of_nat p ∧ (4 ≤ n)%nat ∧ ones buf s n ∧ (s ≤ p < s + n)%nat ∧
    ∀ s' n', ones buf s' n' → (s' + n' ≤ length buf)%nat → (n' ≤ n)%nat.
Proof.
  intros r. assert (scanned buf 0 0 0 0 0) as H0 by (constructor; try done; intros; lia || (intros k Hk; lia)).
  destruct (mid_loop_scanned buf 0 buf 0 0 0 0 (drop_0 _) ltac:(lia) H0) as (st & c & Hs).
  unfold r, get_mid_point_of_longest_one. destruct (mid_loop 0 buf 0 0 0 0) as [mid mx].
  destruct Hs as [_ _ _ _ Hbest Hmid]. destruct (Nat.ltb_spec mx 4) as [Hlt|Hge].
  - left. split; [done|]. intros s n Ho Hle. specialize (Hbest s n Hle Ho). lia.
  - right. destruct (Hmid Hge) as (s & _ & Ho & Hm). exists mid, s, mx. split; [done|]. split; [done|].
    split; [done|]. split; [done|]. intros s' n' Ho' Hle. by apply (Hbest s' n').
Qed.

(** ** DMA *)

Section dma.
Context {H : Type} `{SmcHw H}.
Implicit Types m : Smc H.

(** While the controller is not idle, no transfer is started and nothing is
    written. *)
Lemma busy_refuses m polls cs cmd tx n mode o a len :
  sm_state m ≠ Idle →
  transceive_user cs cmd tx n mode m = Some (m, Err SmcControllerNotReady) ∧
  dma_read polls cs o a len m = Some (m, Err SmcControllerNotReady).
Proof.
  intros Hs. unfold transceive_user, dma_read, is_ready, reads, mbind, drv_bind.
  by rewrite bool_decide_eq_false_2.
Qed.

Definition dma_done (status : Z) : bool := has_flag status (Z.shiftl 1 11).
Definition dma_failed (status : Z) : bool := has_flag status (Z.shiftl 1 10).

Lemma status_bits status :
  has_flag status DMA_STATUS_RELEVANT_BITS =
  dma_done status || (dma_failed status || has_flag status (Z.shiftl 1 9)).
Proof.
  unfold dma_done, dma_failed, has_flag, DMA_STATUS_RELEVANT_BITS. rewrite !Z.land_lor_distr_r.
  apply eq_true_iff_eq. rewrite !orb_true_iff, !negb_true_iff, !Z.eqb_neq, !Z.lor_eq_0_iff.
  destruct (decide (Z.land status (Z.shiftl 1 11) = 0)), (decide (Z.land status (Z.shiftl 1 10) = 0)); tauto.
Qed.

(** A transfer in flight ends exactly when a status bit is set: in [Idle] when it is
    complete or was aborted, in [Faulted] on a write-protection event. *)
Lemma dma_completion_settles m :
  sm_state m = DmaInFlight →
  let status := (reg_read (sm_regs m) 0x008).2 in
  dwp poll_dma_completion (λ r m', match r with
    | Ok None => has_flag status DMA_STATUS_RELEVANT_BITS = false ∧ sm_state m' = DmaInFlight
    | Ok (Some (Ok _)) => dma_done status = true ∧ sm_state m' = Idle
    | Ok (Some (Err e)) => dma_done status = false ∧
        if dma_failed status then e = SmcDmaAborted ∧ sm_state m' = Idle
        else e = SmcWriteProtected ∧ sm_state m' = Faulted
    | Err _ => False
    end) m.
Proof.
  intros Hs status. unfold poll_dma_completion. dwp_step. dwp_step. rewrite bool_decide_eq_true_2 by done.
  apply dwp_bind. unfold dma_status, read_dma_status, hw_read, dwp at 1. subst status.
  destruct (reg_read (sm_regs m) 0x008) as [h status]. cbn [snd].
  destruct (has_flag status DMA_STATUS_RELEVANT_BITS) eqn:Hf; [|apply dwp_ret; by split].
  rewrite status_bits in Hf. apply dwp_bind, dwp_attempt. unfold complete_dma. dwp_step. dwp_step.
  cbn [sm_state with_regs]. rewrite bool_decide_eq_true_2 by done.
  unfold decode_with_context. fold (dma_done status) (dma_failed status).
  unfold clear_dma_status, clear_status, disable_dma, write_dma_ctrl, hw_write, set_state.
  destruct (dma_done status); [by repeat dwp_step|].
  destruct (dma_failed status); [by repeat dwp_step|].
  cbn [orb] in Hf. rewrite Hf. by repeat dwp_step.
Qed.
End dma.
