(* ===== verification/Otp.v ===== *)
(** * One-time programmable memory

    [target/ast10x0/peripherals/otp]: the fuses of the AST1060.  A data word at an
    even address starts as zeros and is burned to ones, at an odd address as ones
    burned to zeros; the configuration words, all at even addresses, hold the
    protections and six generations of strap bits.  Burning is one bit at a time,
    verified, and retried with a longer pulse.

    The secure-boot register block is the type class [Secure]; reading a register
    may let time pass, so it returns the hardware too.  Log messages and delays
    are left out. *)

From S2P Require Import Prelude Bytes RegMonad Spim.
From stdpp Require Import base tactics option list numbers strings.
Local Open Scope Z_scope.

(** ** Types *)

Inductive AspeedChipVersion :=
| Ast1030A0 | Ast1030A1 | Ast1035A1 | Ast1060A1 | Ast1060A2 | UnknownVersion.

Inductive AspeedOtpRegion := OtpData | OtpConfiguration | OtpStrap | OtpScuProtection.

Inductive OtpError :=
| OtpInvalidAddress | OtpInvalidBufSize | OtpMemoryLocked | OtpWriteFailed | OtpReadFailed
| OtpLockFailed | OtpVerificationFailed | OtpWriteExhausted | OtpNoSession | OtpRegionProtected
| OtpAlignmentError | OtpBoundaryError | OtpTimeout | OtpUnknownRevId | OtpUnknown.

Inductive OtpSoak := SoakDefault | NormalProg | SoakProg.

Record ProtectionStatus := mkProtection {
  ps_memory_locked : bool; ps_key_protected : bool; ps_strap_protected : bool;
  ps_config_protected : bool; ps_user_ecc_protected : bool; ps_security_protected : bool;
  ps_security_size : Z;
}.

Record StrapStatus := mkStrap {
  ss_value : bool; ss_options : list Z; ss_remaining_writes : Z; ss_writable_option : Z;
  ss_protected : bool;
}.

Record SessionInfo := mkSession {
  si_chip_version : AspeedChipVersion; si_version_name : string;
  si_protection_status : ProtectionStatus; si_tool_version : string;
  si_software_revision : Z; si_key_count : Z;
}.

Definition ID0_AST1060A1 : Z := 0xa0010000.
Definition ID1_AST1060A1 : Z := 0xa0010000.
Definition ID0_AST1060A2 : Z := 0xa0030000.
Definition ID1_AST1060A2 : Z := 0xa0030000.
Definition ID0_AST1060A2_ENG : Z := 0x80030000.
Definition ID1_AST1060A2_ENG : Z := 0x80030000.
Definition OTP_PASSWD : Z := 0x349fe38a.
Definition OTP_READ_CMD : Z := 0x23b1e361.
Definition OTP_WRITE_CMD : Z := 0x23b1e362.
Definition OTP_PROG_CMD : Z := 0x23b1e364.
Definition OTP_MEM_LIMIT_DATA : nat := 2048.
Definition OTP_TIMING_200US : Z := 0x04191388.
Definition OTP_TIMING_600US : Z := 0x04193a98.
Definition OTP_OP_RETRIES : nat := 20.
Definition OTP_CONF_OFFSET : Z := 0x800.
Definition OTP_MEM_LOCK_ENABLE : Z := Z.shiftl 1 31.
Definition OTP_KEY_PROT_ENABLE : Z := Z.shiftl 1 29.
Definition OTP_STRAP_PROT_ENABLE : Z := Z.shiftl 1 25.
Definition OTP_CONF_PROT_ENABLE : Z := Z.shiftl 1 24.
Definition OTP_USER_ECC_PROT_ENABLE : Z := Z.shiftl 1 23.
Definition OTP_SECURE_PROT_ENABLE : Z := Z.shiftl 1 22.
Definition OTP_SECURE_SIZE_BIT_POS : Z := 16.
Definition OTP_SECURE_SIZE_MASK : Z := 0x3f.

(** [SOAK_PROG_DEFAULT], [SOAK_PROG_NORMAL], [SOAK_PROG_SOAK]: address and data. *)
Definition SOAK_PROG_DEFAULT : list (Z * Z) := [(0x3000, 0); (0x5000, 0); (0x1000, 0)].
Definition SOAK_PROG_NORMAL : list (Z * Z) :=
  [(0x3000, 0x1320); (0x5000, 0x1008); (0x1000, 0x0024)].
Definition SOAK_PROG_SOAK : list (Z * Z) :=
  [(0x3000, 0x1320); (0x5000, 0x0007); (0x1000, 0x0100)].

Record RegionInfo := mkRegionInfo {
  ri_start : nat; ri_cdw_size : nat; ri_alignment : nat;
}.

(** [REGION_INFO[region as usize]]. *)
Definition REGION_INFO (region : AspeedOtpRegion) : RegionInfo :=
  match region with
  | OtpData => mkRegionInfo 0 OTP_MEM_LIMIT_DATA 4
  | OtpConfiguration => mkRegionInfo (Z.to_nat 0x800) 32 4
  | OtpStrap => mkRegionInfo (Z.to_nat 0xc00) 2 4
  | OtpScuProtection => mkRegionInfo (Z.to_nat 0xe08) 2 4
  end.

Definition total_capacity : nat :=
  (ri_cdw_size (REGION_INFO OtpData) + ri_cdw_size (REGION_INFO OtpConfiguration)) * 4.
Definition region_capacity (region : AspeedOtpRegion) : nat := ri_cdw_size (REGION_INFO region) * 4.
Definition region_alignment (region : AspeedOtpRegion) : nat := ri_alignment (REGION_INFO region).

(** ** Registers *)

Class Secure (H : Type) : Type := {
  sb_read : H → Z → H * Z;
  sb_write : H → Z → Z → H;
  scu_revid : H → Z → Z;
}.

Record OtpController (H : Type) := mkOtp { oc_sb : H; oc_locked : bool }.
Arguments mkOtp {H}.
Arguments oc_sb {H}.
Arguments oc_locked {H}.

Section otp.
Context {H : Type} `{Secure H}.

Definition otp (A : Type) : Type := drv (OtpController H) OtpError A.

Definition sb_rd (offset : Z) : otp Z := λ c,
  let '(h, v) := sb_read (oc_sb c) offset in Some (mkOtp h (oc_locked c), Ok v).
Definition sb_wr (offset value : Z) : otp unit :=
  writes (λ c, mkOtp (sb_write (oc_sb c) offset value) (oc_locked c)).

Definition chip_version : otp AspeedChipVersion :=
  reads (λ c,
    let revid0 := scu_revid (oc_sb c) 0x004 in
    let revid1 := scu_revid (oc_sb c) 0x014 in
    if (revid0 =? ID0_AST1060A1) && (revid1 =? ID1_AST1060A1) then Ast1060A1
    else if ((revid0 =? ID0_AST1060A2) && (revid1 =? ID1_AST1060A2))
            || ((revid0 =? ID0_AST1060A2_ENG) && (revid1 =? ID1_AST1060A2_ENG)) then Ast1060A2
    else UnknownVersion).

(** At most [tries] polls of the controller's (bit 2) and the memory's (bit 1)
    idle status. *)
Fixpoint wait_loop (tries : nat) : otp bool :=
  match tries with
  | O => mret false
  | S tries =>
      sts ← sb_rd 0x014;
      if Z.testbit sts 2 && Z.testbit sts 1 then mret true else wait_loop tries
  end.
Definition wait_complete : otp bool := wait_loop 1000.

(** ** Commands *)

Definition otp_write (otp_addr data : Z) : otp bool :=
  sb_wr 0x010 otp_addr;;
  sb_wr 0x020 data;;
  sb_wr 0x004 OTP_WRITE_CMD;;
  wait_complete.

Definition otp_soak (soak : OtpSoak) : otp unit :=
  match soak with
  | SoakDefault => drv_for SOAK_PROG_DEFAULT (λ '(a, d), otp_write a d;; mret ())
  | NormalProg =>
      drv_for SOAK_PROG_NORMAL (λ '(a, d), otp_write a d;; mret ());;
      sb_wr 0x008 OTP_TIMING_200US
  | SoakProg =>
      drv_for SOAK_PROG_SOAK (λ '(a, d), otp_write a d;; mret ());;
      sb_wr 0x008 OTP_TIMING_600US
  end;;
  wait_complete;;
  mret ().

(** [otp_read_data] into an array of two. *)
Definition read_pair (otp_addr : Z) : otp (Z * Z) :=
  sb_wr 0x010 otp_addr;;
  sb_wr 0x004 OTP_READ_CMD;;
  ok ← wait_complete;
  require ok OtpReadFailed;;
  d0 ← sb_rd 0x020;
  d1 ← sb_rd 0x024;
  mret (d0, d1).

Definition otp_read_data (otp_addr : Z) (buffer : list Z) : otp (list Z) :=
  require (2 <=? length buffer)%nat OtpReadFailed;;
  '(d0, d1) ← read_pair otp_addr;
  mret (d0 :: d1 :: drop 2 buffer).

Definition otp_read_conf (addr : Z) : otp Z :=
  sb_wr 0x010 addr;;
  sb_wr 0x004 OTP_READ_CMD;;
  ok ← wait_complete;
  require ok OtpReadFailed;;
  sb_rd 0x020.

(** The address of OTPCFG[reg_idx]. *)
Definition conf_addr (reg_idx : Z) : Z :=
  Z.lor (Z.lor OTP_CONF_OFFSET (reg_idx / 8 * 0x200)) (reg_idx mod 8 * 2).

Definition otp_read_conf_idx (reg_idx : Z) : otp Z := otp_read_conf (conf_addr reg_idx).

Definition otp_prog (otp_addr prog_bit : Z) : otp unit :=
  ok ← otp_write 0 prog_bit;
  require ok OtpWriteFailed;;
  sb_wr 0x010 otp_addr;;
  sb_wr 0x020 prog_bit;;
  sb_wr 0x004 OTP_PROG_CMD;;
  ok ← wait_complete;
  require ok OtpTimeout.

Definition otp_lock_reg : otp unit := sb_wr 0x000 1.
Definition otp_unlock_reg : otp unit := sb_wr 0x000 OTP_PASSWD.

(** ** One bit *)

Definition otp_prog_bit_helper (value address bit_offset : Z) : otp unit :=
  let prog_bit :=
    if Z.land address 1 =? 0 then
      if negb (value =? 0) then not_u32 (Z.shiftl 1 bit_offset) else 0
    else if value =? 0 then Z.shiftl 1 bit_offset else 0 in
  if negb (prog_bit =? 0) then otp_prog address prog_bit else mret ().

Definition verify_bit (value otp_addr bit_offset : Z) : otp unit :=
  let even := Z.land otp_addr 1 =? 0 in
  '(ret0, ret1) ← read_pair (if even then otp_addr else otp_addr - 1);
  let word := if even then ret0 else ret1 in
  require (Z.land (Z.shiftr word bit_offset) 1 =? value) OtpVerificationFailed.

(** The retries of [otp_prog_dc_b]: whether the bit was seen. *)
Fixpoint prog_bit_retry (n : nat) (value address bit_offset : Z) : otp bool :=
  match n with
  | O => mret false
  | S n =>
      v ← attempt (verify_bit value address bit_offset);
      match v with
      | Ok _ => mret true
      | Err _ =>
          otp_soak SoakProg;;
          otp_prog_bit_helper value address bit_offset;;
          v ← attempt (verify_bit value address bit_offset);
          match v with
          | Ok _ => otp_soak NormalProg;; prog_bit_retry n value address bit_offset
          | Err _ => mret false
          end
      end
  end.

Definition otp_prog_dc_b (value address bit_offset : Z) : otp unit :=
  otp_soak NormalProg;;
  otp_prog_bit_helper value address bit_offset;;
  pass ← prog_bit_retry OTP_OP_RETRIES value address bit_offset;
  require pass OtpTimeout.

(** ** One and two words *)

Definition bit_at (w : Z) (i : nat) : Z := Z.land (Z.shiftr w (Z.of_nat i)) 1.

Definition otp_prog_dw (value ignore address : Z) : otp unit :=
  drv_for (seq 0 32) (λ bit_pos,
    if bit_at ignore bit_pos =? 1 then mret ()
    else if Z.land address 1 =? 0 then
      if bit_at value bit_pos =? 1
      then otp_prog address (not_u32 (Z.shiftl 1 (Z.of_nat bit_pos))) else mret ()
    else if bit_at value bit_pos =? 1 then mret ()
    else otp_prog address (Z.shiftl 1 (Z.of_nat bit_pos))).

(** The verdict and the new [*compare]. *)
Definition verify_dw (address data ignore compare : Z) : otp (bool * Z) :=
  let otp_addr := Z.land address (not_u32 (Z.shiftl 1 15)) in
  let even := Z.land otp_addr 1 =? 0 in
  r ← attempt (read_pair (if even then otp_addr else otp_addr - 1));
  match r with
  | Err _ => mret (false, compare)
  | Ok (ret0, ret1) =>
      let mask := not_u32 ignore in
      mret
        (if even then
           if Z.land data mask =? Z.land ret0 mask then (true, 0) else (false, Z.lxor data ret0)
         else
           if Z.land data mask =? Z.land ret1 mask then (true, u32_MAX)
           else (false, not_u32 (Z.lxor data ret1)))
  end.

(** Slices of fewer than two words are refused. *)
Definition verify_2dw (address : Z) (value ignore : list Z) (num_dw : Z) (compare : list Z) :
    otp (bool * list Z) :=
  match value, ignore, compare with
  | v0 :: v1 :: _, g0 :: g1 :: _, c0 :: c1 :: rest =>
      let otp_addr := Z.land address (not_u32 (Z.shiftl 1 15)) in
      if num_dw =? 1 then
        '(ok, c0) ← verify_dw address v0 g0 c0;
        mret (ok, c0 :: c1 :: rest)
      else if num_dw =? 2 then
        r ← attempt (read_pair otp_addr);
        match r with
        | Err _ => mret (false, compare)
        | Ok (ret0, ret1) =>
            if (Z.land v0 (not_u32 g0) =? Z.land ret0 (not_u32 g0))
               && (Z.land v1 (not_u32 g1) =? Z.land ret1 (not_u32 g1))
            then mret (true, 0 :: u32_MAX :: rest)
            else mret (false, Z.lxor v0 ret0 :: not_u32 (Z.lxor v1 ret1) :: rest)
        end
      else mret (false, compare)
  | _, _, _ => mret (false, compare)
  end.

Definition is_program_data_valid (addr otp_data buffer_data : Z) : bool :=
  forallb (λ i,
    if Z.land addr 1 =? 0
    then negb ((bit_at otp_data i =? 1) && (bit_at buffer_data i =? 0))
    else negb ((bit_at otp_data i =? 0) && (bit_at buffer_data i =? 1))) (seq 0 32).

Definition verify_prog_words (address : Z) (buffer ignore_mask : list Z) (prog0 prog1 : bool)
    (compare : list Z) : otp (bool * list Z) :=
  match buffer, ignore_mask, compare with
  | b0 :: b1 :: _, g0 :: g1 :: _, c0 :: c1 :: rest =>
      match prog0, prog1 with
      | true, true => verify_2dw address buffer ignore_mask 2 compare
      | true, false => '(ok, c0) ← verify_dw address b0 g0 c0; mret (ok, c0 :: c1 :: rest)
      | false, true =>
          '(ok, c1) ← verify_dw (address + 1) b1 g1 c1; mret (ok, c0 :: c1 :: rest)
      | false, false => mret (true, compare)
      end
  | _, _, _ => mret (false, compare)
  end.

(** [compare[i]], an index below the length of an array of two. *)
Definition word (l : list Z) (i : nat) : Z := default 0 (l !! i).

(** The retries of [otp_prog_verify_2dw]. *)
Fixpoint prog_2dw_retry (n : nat) (address : Z) (buffer ignore_mask : list Z) (prog0 prog1 : bool)
    (compare : list Z) : otp bool :=
  match n with
  | O => mret false
  | S n =>
      '(ok, compare) ← verify_prog_words address buffer ignore_mask prog0 prog1 compare;
      if (ok : bool) then mret true
      else
        otp_soak SoakProg;;
        (if prog0 && negb (word compare 0 =? 0)
         then otp_prog_dw (word compare 0) (word ignore_mask 0) address else mret ());;
        (if prog1 && negb (word compare 1 =? u32_MAX)
         then otp_prog_dw (word compare 1) (word ignore_mask 1) (address + 1) else mret ());;
        '(ok, compare) ← verify_prog_words address buffer ignore_mask prog0 prog1 compare;
        if (ok : bool) then mret true
        else
          otp_soak NormalProg;;
          prog_2dw_retry n address buffer ignore_mask prog0 prog1 compare
  end.

Definition otp_prog_verify_2dw (address : Z) (otp_data buffer ignore : list Z) : otp unit :=
  match otp_data, buffer, ignore with
  | d0 :: d1 :: _, b0 :: b1 :: _, g0 :: g1 :: _ =>
      let data0_masked := Z.land d0 (not_u32 g0) in
      let buf0_masked := Z.land b0 (not_u32 g0) in
      let data1_masked := Z.land d1 (not_u32 g1) in
      let buf1_masked := Z.land b1 (not_u32 g1) in
      let g0 := if data0_masked =? buf0_masked then u32_MAX else g0 in
      let g1 := if data1_masked =? buf1_masked then u32_MAX else g1 in
      if (data0_masked =? buf0_masked) && (data1_masked =? buf1_masked) then mret ()
      else
        require (negb (negb (g0 =? u32_MAX)
                       && negb (is_program_data_valid address data0_masked buf0_masked)))
          OtpWriteFailed;;
        require (negb (negb (g1 =? u32_MAX)
                       && negb (is_program_data_valid (address + 1) data1_masked buf1_masked)))
          OtpWriteFailed;;
        let prog0 := negb (g0 =? u32_MAX) in
        let prog1 := negb (g1 =? u32_MAX) in
        otp_soak NormalProg;;
        (if prog0 then otp_prog_dw b0 g0 address else mret ());;
        (if prog1 then otp_prog_dw b1 g1 (address + 1) else mret ());;
        pass ← prog_2dw_retry OTP_OP_RETRIES address buffer [g0; g1] prog0 prog1 [0; 0];
        if (pass : bool) then mret ()
        else otp_soak SoakDefault;; raise OtpWriteFailed
  | _, _, _ => raise OtpInvalidBufSize
  end.

Fixpoint prog_dw_retry (n : nat) (addr data ignore compare : Z) : otp bool :=
  match n with
  | O => mret false
  | S n =>
      '(ok, compare) ← verify_dw addr data ignore compare;
      if (ok : bool) then mret true
      else
        otp_soak SoakProg;;
        r ← attempt (otp_prog_dw compare ignore addr);
        match r with
        | Err _ => mret false
        | Ok _ =>
            '(ok, compare) ← verify_dw addr data ignore compare;
            if (ok : bool) then mret true
            else otp_soak NormalProg;; prog_dw_retry n addr data ignore compare
        end
  end.

Definition otp_prog_verify_retry (addr data ignore : Z) : otp bool :=
  prog_dw_retry OTP_OP_RETRIES addr data ignore 0.

(** ** Locks and status *)

(** [self.otp_read_conf_idx(0).unwrap_or_default()]. *)
Definition read_conf0 : otp Z := r ← attempt (otp_read_conf_idx 0); mret (unwrap_or r 0).

Definition is_otp_locked : otp bool :=
  otp_conf ← read_conf0;
  mret (Z.land otp_conf OTP_MEM_LOCK_ENABLE =? OTP_MEM_LOCK_ENABLE).

Definition is_key_protected : otp bool :=
  otp_conf ← read_conf0;
  mret (Z.land otp_conf OTP_KEY_PROT_ENABLE =? OTP_KEY_PROT_ENABLE).

Definition set_locked : otp unit := writes (λ c, mkOtp (oc_sb c) true).

Definition otp_lock_mem : otp unit :=
  locked ← is_otp_locked;
  if (locked : bool) then set_locked
  else
    otp_unlock_reg;;
    otp_soak NormalProg;;
    otp_prog_dw OTP_MEM_LOCK_ENABLE 0 OTP_CONF_OFFSET;;
    otp_soak SoakDefault;;
    otp_lock_reg;;
    locked ← is_otp_locked;
    require locked OtpLockFailed;;
    set_locked.

Definition update_prot_info (session : SessionInfo) : otp SessionInfo :=
  version ← chip_version;
  otp_conf ← read_conf0;
  let enabled m := Z.land otp_conf m =? m in
  let secure_size := Z.shiftr otp_conf OTP_SECURE_SIZE_BIT_POS in
  let secure_size :=
    if negb (secure_size =? 0) then Z.shiftl (Z.land secure_size OTP_SECURE_SIZE_MASK) 5
    else secure_size in
  mret {|
    si_chip_version := version;
    si_version_name :=
      match version with
      | Ast1060A1 => "AST1060A1" | Ast1060A2 => "AST1060A2" | _ => "ASUnknown"
      end;
    si_protection_status := {|
      ps_memory_locked := enabled OTP_MEM_LOCK_ENABLE;
      ps_key_protected := ps_key_protected (si_protection_status session);
      ps_strap_protected := enabled OTP_STRAP_PROT_ENABLE;
      ps_config_protected := ps_config_protected (si_protection_status session);
      ps_user_ecc_protected := enabled OTP_USER_ECC_PROT_ENABLE;
      ps_security_protected := enabled OTP_SECURE_PROT_ENABLE;
      ps_security_size := secure_size |};
    si_tool_version := si_tool_version session;
    si_software_revision := si_software_revision session;
    si_key_count := si_key_count session |}.

Definition get_sw_revision : otp (Z * Z) :=
  a ← sb_rd 0x068;
  b ← sb_rd 0x06c;
  mret (a, b).

(** ** Straps *)

Definition strap_reset (s : StrapStatus) : StrapStatus := mkStrap false (ss_options s) 6 0xff false.

(** One option word's bit, counted into the status of its strap. *)
Definition strap_count (option bit_value : Z) (s : StrapStatus) : StrapStatus :=
  mkStrap
    (xorb (ss_value s) (negb (bit_value =? 0)))
    (<[Z.to_nat option := bit_value]> (ss_options s))
    (if bit_value =? 1 then as_u8 (ss_remaining_writes s - 1) else ss_remaining_writes s)
    (if (bit_value =? 0) && (ss_writable_option s =? 0xff) then option else ss_writable_option s)
    (ss_protected s).

(** Bit [j] of the two words of a row. *)
Definition row_bit (raw : Z * Z) (j : nat) : Z :=
  if (j <? 32)%nat then bit_at raw.1 j else bit_at raw.2 (j - 32).

(** [for j in 0..64 { os[j] .. }]. *)
Definition each_strap (f : nat → StrapStatus → StrapStatus) (os : list StrapStatus) :
    list StrapStatus :=
  imap (λ j s, if (j <? 64)%nat then f j s else s) os.

Fixpoint strap_rows (rows : list Z) (os : list StrapStatus) : otp (list StrapStatus) :=
  match rows with
  | [] => mret os
  | i :: rest =>
      let option := (i - 16) / 2 in
      raw0 ← otp_read_conf_idx i;
      raw1 ← otp_read_conf_idx (i + 1);
      strap_rows rest (each_strap (λ j, strap_count option (row_bit (raw0, raw1) j)) os)
  end.

Definition otp_strap_status (os : list StrapStatus) : otp (list StrapStatus) :=
  require (64 <=? length os)%nat OtpInvalidBufSize;;
  otp_soak SoakDefault;;
  os ← strap_rows [16; 18; 20; 22; 24; 26] (each_strap (λ _, strap_reset) os);
  raw0 ← otp_read_conf_idx 30;
  raw1 ← otp_read_conf_idx 31;
  mret (each_strap (λ j s,
    if row_bit (raw0, raw1) j =? 1
    then mkStrap (ss_value s) (ss_options s) (ss_remaining_writes s) (ss_writable_option s) true
    else s) os).

Definition strap_target_bit (strap : list Z) (start_bit i : nat) : Z :=
  let rel := (i - start_bit)%nat in
  let '(w, shift) := if (rel <? 32)%nat then (0%nat, rel) else (1%nat, (rel - 32)%nat) in
  bit_at (default 0 (strap !! w)) shift.

(** Whether strap [i] has to change. *)
Definition strap_differs (os : list StrapStatus) (strap : list Z) (start_bit i : nat) : bool :=
  match os !! i with
  | Some s => negb (strap_target_bit strap start_bit i =? Z.b2z (ss_value s))
  | None => false
  end.

Definition blank_strap : StrapStatus := mkStrap false (replicate 7 0) 6 0xff false.

Definition otp_prog_strap (start_bit : nat) (strap : list Z) : otp unit :=
  require (start_bit <=? 63)%nat OtpInvalidAddress;;
  os ← otp_strap_status (replicate 64 blank_strap);
  let todo := filter (λ i, strap_differs os strap start_bit i = true) (seq start_bit (64 - start_bit)) in
  let status i := default blank_strap (os !! i) in
  let count_prot := length (filter (λ i, ss_protected (status i) = true) todo) in
  let count_cant_write :=
    length (filter (λ i, ss_protected (status i) = false ∧ ss_remaining_writes (status i) = 0) todo) in
  require (count_prot =? 0)%nat OtpRegionProtected;;
  require (count_cant_write =? 0)%nat OtpWriteExhausted;;
  drv_for todo (λ i,
    let offset := Z.of_nat (i mod 32) in
    let slot :=
      if (i <? 32)%nat then ss_writable_option (status i) * 2 + 16
      else ss_writable_option (status i) * 2 + 17 in
    otp_prog_dc_b 1 (conf_addr slot) offset);;
  otp_soak SoakDefault.

(** ** Regions *)

(** The words read, and the error that stopped the loop; the buffer is the
    caller's whether or not the call succeeds. *)
Fixpoint read_data_pairs (i : nat) (buffer : list Z) : otp (list Z * result unit OtpError) :=
  match buffer with
  | _ :: _ :: rest =>
      r ← attempt (read_pair (Z.of_nat i));
      match r with
      | Ok (t0, t1) =>
          '(rest, result) ← read_data_pairs (i + 2) rest;
          mret (t0 :: t1 :: rest, result)
      | Err e => mret (buffer, Err e)
      end
  | _ => mret (buffer, Ok ())
  end.

(** [cdw_len + offset], a [usize] sum of 32 bits: it panics when it overflows. *)
Definition usize_sum_fits (cdw_len offset : nat) : bool := Z.of_nat cdw_len + Z.of_nat offset <=? u32_MAX.

Definition aspeed_otp_read_data (offset : nat) (buffer : list Z) :
    otp (list Z * result unit OtpError) :=
  guarded (usize_sum_fits (length buffer) offset) $
  if negb (length buffer + offset <=? OTP_MEM_LIMIT_DATA)%nat then mret (buffer, Err OtpBoundaryError)
  else if negb (offset mod 4 =? 0)%nat then mret (buffer, Err OtpAlignmentError)
  else if negb (length buffer mod 2 =? 0)%nat then mret (buffer, Err OtpInvalidBufSize)
  else read_data_pairs offset buffer.

(** [for i in offset..offset + len]. *)
Fixpoint read_conf_words (i : Z) (buffer : list Z) : otp (list Z * result unit OtpError) :=
  match buffer with
  | [] => mret ([], Ok ())
  | _ :: rest =>
      r ← attempt (otp_read_conf_idx i);
      match r with
      | Ok value =>
          '(rest, result) ← read_conf_words (i + 1) rest;
          mret (value :: rest, result)
      | Err e => mret (buffer, Err e)
      end
  end.

Definition aspeed_otp_read_conf (offset : nat) (buffer : list Z) :
    otp (list Z * result unit OtpError) :=
  guarded (usize_sum_fits (length buffer) offset) $
  if (32 <? length buffer + offset)%nat then mret (buffer, Err OtpBoundaryError)
  else
    otp_unlock_reg;;
    otp_soak SoakDefault;;
    out ← read_conf_words (Z.of_nat offset) buffer;
    otp_lock_reg;;
    mret out.

Definition aspeed_otp_read_scuprot (offset : nat) (buffer : list Z) :
    otp (list Z * result unit OtpError) :=
  guarded (usize_sum_fits (length buffer) offset) $
  if (2 <? length buffer + offset)%nat then mret (buffer, Err OtpBoundaryError)
  else
    otp_unlock_reg;;
    out ← read_conf_words (28 + Z.of_nat offset) buffer;
    otp_lock_reg;;
    mret out.

Fixpoint prog_data_pairs (i : nat) (data : list Z) : otp unit :=
  match data with
  | w0 :: w1 :: rest =>
      '(s0, s1) ← read_pair (Z.of_nat i);
      otp_prog_verify_2dw (Z.of_nat i) [s0; s1] [w0; w1] [0; 0];;
      prog_data_pairs (i + 2) rest
  | _ => mret ()
  end.

Definition otp_prog_data (offset : nat) (data : list Z) : otp unit :=
  guarded (usize_sum_fits (length data) offset) (mret ());;
  require (length data + offset <=? OTP_MEM_LIMIT_DATA)%nat OtpBoundaryError;;
  require (offset mod 4 =? 0)%nat OtpAlignmentError;;
  require (length data mod 2 =? 0)%nat OtpInvalidBufSize;;
  otp_unlock_reg;;
  result ← attempt (prog_data_pairs offset data);
  otp_soak SoakDefault;;
  otp_lock_reg;;
  lift result.

(** The loop of [otp_prog_conf]: [result] and [pass] when it ends. *)
Fixpoint prog_conf_words (i : nat) (conf : list Z) : otp (result unit OtpError * bool) :=
  match conf with
  | [] => mret (Ok (), true)
  | w :: rest =>
      r ← attempt (otp_read_conf_idx (Z.of_nat i));
      match r with
      | Err e => mret (Err e, true)
      | Ok otp_conf =>
          let addr :=
            Z.lor (Z.lor (Z.of_nat (ri_start (REGION_INFO OtpConfiguration))) (Z.of_nat (i / 8) * 0x200))
              (Z.of_nat (i mod 8) * 2) in
          if Z.land otp_conf (not_u32 0) =? Z.land w (not_u32 0) then prog_conf_words (S i) rest
          else
            otp_soak NormalProg;;
            r ← attempt (otp_prog_dw w 0 addr);
            match r with
            | Err e => mret (Err e, true)
            | Ok _ =>
                pass ← otp_prog_verify_retry addr w 0;
                if (pass : bool) then prog_conf_words (S i) rest else mret (Ok (), false)
            end
      end
  end.

Definition otp_prog_conf (start_conf : nat) (conf : list Z) : otp unit :=
  guarded (usize_sum_fits (length conf) start_conf) (mret ());;
  require (length conf + start_conf <=? 32)%nat OtpBoundaryError;;
  otp_unlock_reg;;
  otp_soak SoakDefault;;
  '(result, pass) ← prog_conf_words start_conf conf;
  otp_soak SoakDefault;;
  otp_lock_reg;;
  require pass OtpWriteFailed;;
  lift result.

(** The loop of [otp_prog_scu_protect]: [idx] counts from 0, [i] from [start]. *)
Fixpoint prog_scu_words (idx : nat) (start : nat) (scu_pro otp_scu : list Z) : otp bool :=
  match otp_scu with
  | [] => mret true
  | w :: rest =>
      let addr := Z.of_nat (ri_start (REGION_INFO OtpScuProtection)) + Z.of_nat (start + idx) * 2 in
      if Z.land (default 0 (scu_pro !! idx)) (not_u32 0) =? Z.land w (not_u32 0)
      then prog_scu_words (S idx) start scu_pro rest
      else
        otp_soak SoakDefault;;
        otp_prog_dw w 0 addr;;
        pass ← otp_prog_verify_retry addr w 0;
        if (pass : bool) then prog_scu_words (S idx) start scu_pro rest else mret false
  end.

Definition otp_prog_scu_protect (start : nat) (otp_scu : list Z) : otp unit :=
  guarded (usize_sum_fits (length otp_scu) start) (mret ());;
  require (start + length otp_scu <=? ri_cdw_size (REGION_INFO OtpScuProtection))%nat
    OtpBoundaryError;;
  scu_pro0 ← otp_read_conf_idx 28;
  scu_pro1 ← otp_read_conf_idx 29;
  otp_unlock_reg;;
  otp_soak SoakDefault;;
  pass ← prog_scu_words 0 start [scu_pro0; scu_pro1] otp_scu;
  otp_soak SoakDefault;;
  otp_lock_reg;;
  require pass OtpWriteFailed.

Definition is_region_protected (region : AspeedOtpRegion) : otp bool :=
  otp_unlock_reg;;
  otp_conf ← otp_read_conf_idx 0;
  otp_lock_reg;;
  let enabled m := Z.land otp_conf m =? m in
  mret
    match region with
    | OtpData => enabled OTP_USER_ECC_PROT_ENABLE && enabled OTP_SECURE_PROT_ENABLE
    | OtpConfiguration => enabled OTP_CONF_PROT_ENABLE
    | OtpStrap => enabled OTP_STRAP_PROT_ENABLE
    | OtpScuProtection => false
    end.

Definition enable_region_protection (region : AspeedOtpRegion) : otp unit :=
  p ← attempt (is_region_protected region);
  match p with
  | Ok true => mret ()
  | _ =>
      otp_prog_conf 0
        [match region with
         | OtpData => Z.lor OTP_USER_ECC_PROT_ENABLE OTP_SECURE_PROT_ENABLE
         | OtpConfiguration => OTP_CONF_PROT_ENABLE
         | OtpStrap => OTP_STRAP_PROT_ENABLE
         | OtpScuProtection => 0
         end]
  end.
End otp.
