(* ===== verification/OtpRun.v ===== *)
(** * How the fuses behave, and the driver's commands

    [SecureLaws] states what the driver relies on: a read command shows the two
    words at the selected address, a programming command can only burn the bits
    it selects, and may fail to.  On it, the effect of each command and of the
    programming of a word: bits move towards what was asked for and nothing else
    changes.

    The second part is a concrete block of fuses that discharges the laws. *)

From S2P Require Import Prelude Bytes RegMonad Spim SpimRun Soc SocRun Otp.
From stdpp Require Import base tactics option list numbers sets.
From stdpp Require Import base tactics option list numbers.
Local Open Scope Z_scope.

(** ** Fuses *)

(** The value a burned bit of the word at [a] has. *)
Definition burned (a : Z) : bool := Z.land a 1 =? 0.

(** Bits of a programming word that select a fuse: the zeros at an even address,
    the ones at an odd one. *)
Definition selects (a p n : Z) : bool := xorb (burned a) (Z.testbit p n).

(** [f'] is [f] with some of the bits [B] of the word at [a] burned. *)
Definition burns (a : Z) (B : Z → Prop) (f f' : Z → Z) : Prop :=
  (∀ b, b ≠ a → f' b = f b) ∧
  ∀ n, 0 ≤ n < 32 →
    Z.testbit (f' a) n = Z.testbit (f a) n ∨ (B n ∧ Z.testbit (f' a) n = burned a).

Class SecureLaws (H : Type) `{Secure H} : Type := {
  fuse : H → Z → Z;
  opened : H → bool;
  sel : H → Z;
  arg : H → Z;
  shown : H → option (Z * Z);
  ready : H → bool;
  fuse_range h a : in_u32 (fuse h a);
  rd_fuse h o : fuse (sb_read h o).1 = fuse h;
  rd_opened h o : opened (sb_read h o).1 = opened h;
  rd_sel h o : sel (sb_read h o).1 = sel h;
  rd_arg h o : arg (sb_read h o).1 = arg h;
  rd_shows h o : shown (sb_read h o).1 = shown h;
  rd_ready h o : ready h = true → ready (sb_read h o).1 = true;
  status_ready h :
    let '(h', v) := sb_read h 0x014 in
    Z.testbit v 2 = true → Z.testbit v 1 = true → ready h' = true;
  rd_shown h a b :
    shown h = Some (a, b) → ready h = true →
    (sb_read h 0x020).2 = a ∧ (sb_read h 0x024).2 = b;
  wr_fuse h o v : o ≠ 0x004 → fuse (sb_write h o v) = fuse h;
  wr_opened h o v : o ≠ 0x000 → o ≠ 0x004 → opened (sb_write h o v) = opened h;
  wr_key h v : opened (sb_write h 0x000 v) = (v =? OTP_PASSWD);
  wr_sel h v : sel (sb_write h 0x010 v) = v;
  wr_sel_frame h v : sel (sb_write h 0x020 v) = sel h;
  wr_arg h v : arg (sb_write h 0x020 v) = v;
  cmd_read h :
    let h' := sb_write h 0x004 OTP_READ_CMD in
    fuse h' = fuse h ∧ opened h' = opened h ∧
    shown h' = Some (fuse h (sel h), fuse h (sel h + 1));
  cmd_write h :
    let h' := sb_write h 0x004 OTP_WRITE_CMD in fuse h' = fuse h ∧ opened h' = opened h;
  cmd_prog h :
    opened h = true →
    let h' := sb_write h 0x004 OTP_PROG_CMD in
    opened h' = true ∧ burns (sel h) (λ n, selects (sel h) (arg h) n = true) (fuse h) (fuse h');
}.

(** Bits burned one after the other. *)
Lemma burns_refl a B f : burns a B f f.
Proof. split; auto. Qed.

Lemma burns_mono a (B B' : Z → Prop) f f' :
  (∀ n, 0 ≤ n < 32 → B n → B' n) → burns a B f f' → burns a B' f f'.
Proof. intros HB [Ho Hb]. split; [done|]. intros n Hn. destruct (Hb n Hn) as [?|[? ?]]; auto. Qed.

Lemma burns_trans a B f f1 f2 : burns a B f f1 → burns a B f1 f2 → burns a B f f2.
Proof.
  intros [Ho1 Hb1] [Ho2 Hb2]. split; [intros b Hne; by rewrite Ho2, Ho1|].
  intros n Hn. destruct (Hb2 n Hn) as [->|?]; auto.
Qed.

(** ** Commands *)

Section commands.
Context {D : Type} `{SecureLaws D}.
Implicit Types (c : OtpController D) (a v : Z).

Definition fz c : Z → Z := fuse (oc_sb c).

(** Nothing the driver relies on has changed, but for the pending command. *)
Record same c c' : Prop := {
  same_fuse : fz c' = fz c;
  same_opened : opened (oc_sb c') = opened (oc_sb c);
  same_sel : sel (oc_sb c') = sel (oc_sb c);
  same_arg : arg (oc_sb c') = arg (oc_sb c);
  same_shown : shown (oc_sb c') = shown (oc_sb c);
  same_locked : oc_locked c' = oc_locked c;
}.

Record kept c c' : Prop := {
  kept_fuse : fz c' = fz c;
  kept_opened : opened (oc_sb c') = opened (oc_sb c);
  kept_locked : oc_locked c' = oc_locked c;
}.

#[global] Instance same_preorder : PreOrder same.
Proof. split; [by constructor|]. intros ? ? ? [] []. constructor; congruence. Qed.
#[global] Instance kept_preorder : PreOrder kept.
Proof. split; [by constructor|]. intros ? ? ? [] []. constructor; congruence. Qed.

Lemma same_kept c c' : same c c' → kept c c'.
Proof. by intros []. Qed.

(** Every selected fuse burns at the first attempt. *)
Definition takes : Prop := ∀ h : D, opened h = true → ∀ n, 0 ≤ n < 32 →
  selects (sel h) (arg h) n = true →
  Z.testbit (fuse (sb_write h 0x004 OTP_PROG_CMD) (sel h)) n = burned (sel h).

(** Every command completes within the polls the driver makes. *)
Definition prompt : Prop := ∀ c, ∃ c', wait_complete c = Some (c', Ok true).

Lemma sb_rd_spec o c (Q : result Z OtpError → OtpController D → Prop) :
  (∀ c', same c c' → ready (oc_sb c) = true → ready (oc_sb c') = true →
     (∀ a b, shown (oc_sb c) = Some (a, b) →
        (o = 0x020 → Q (Ok a) c') ∧ (o = 0x024 → Q (Ok b) c'))) →
  ready (oc_sb c) = true → (∃ a b, shown (oc_sb c) = Some (a, b)) → o = 0x020 ∨ o = 0x024 →
  dwp (sb_rd o) Q c.
Proof.
  intros HQ Hr (a & b & Hs) Ho. unfold dwp, sb_rd.
  destruct (sb_read (oc_sb c) o) as [h v] eqn:E.
  assert (h = (sb_read (oc_sb c) o).1 ∧ v = (sb_read (oc_sb c) o).2) as [Hh Hv] by (by rewrite E).
  destruct (rd_shown (oc_sb c) a b Hs Hr) as [Ha Hb].
  destruct (HQ (mkOtp h (oc_locked c))) with (a := a) (b := b) as [H1 H2]; [|done|..|done|].
  { subst h. constructor; cbn [oc_sb oc_locked fz];
      [apply rd_fuse|apply rd_opened|apply rd_sel|apply rd_arg|apply rd_shows|done]. }
  { subst h. by apply rd_ready. }
  destruct Ho as [-> | ->].
  - rewrite Hv, Ha. by apply H1.
  - rewrite Hv, Hb. by apply H2.
Qed.

Lemma wait_loop_spec n c :
  dwp (wait_loop n) (λ r c', same c c' ∧ ∃ b, r = Ok b ∧ (b = true → ready (oc_sb c') = true)) c.
Proof.
  revert c. induction n as [|n IH]; intros c; cbn [wait_loop].
  { apply dwp_ret. split; [done|]. by exists false. }
  apply dwp_bind. unfold sb_rd at 1, dwp at 1.
  pose proof (status_ready (oc_sb c)) as Hst.
  destruct (sb_read (oc_sb c) 0x014) as [h v] eqn:E.
  assert (h = (sb_read (oc_sb c) 0x014).1) as Hh by (by rewrite E).
  assert (same c (mkOtp h (oc_locked c))) as Hs.
  { subst h. constructor; cbn [oc_sb oc_locked fz];
      [apply rd_fuse|apply rd_opened|apply rd_sel|apply rd_arg|apply rd_shows|done]. }
  destruct (Z.testbit v 2 && Z.testbit v 1) eqn:Ev.
  - apply andb_true_iff in Ev as [H2 H1]. apply dwp_ret. split; [done|]. exists true.
    split; [done|]. intros _. by apply Hst.
  - eapply dwp_mono; [apply IH|]. intros r c' [Hs' Hr]. split; [by etrans|done].
Qed.

Lemma wait_spec c :
  dwp wait_complete (λ r c', same c c' ∧ ∃ b, r = Ok b ∧ (b = true → ready (oc_sb c') = true) ∧
    (b = false → ¬ prompt)) c.
Proof.
  destruct (dwp_run _ _ _ (wait_loop_spec 1000 c)) as (c' & a & Hrun & Hs & b & -> & Hr).
  eapply dwp_intro; [exact Hrun|]. split; [done|]. exists b. split; [done|]. split; [done|].
  intros -> Hp. destruct (Hp c) as [c'' Hc]. unfold wait_complete in Hc. congruence.
Qed.

Lemma otp_write_spec a v c :
  dwp (otp_write a v) (λ r c', kept c c' ∧ ∃ b, r = Ok b ∧ (b = false → ¬ prompt)) c.
Proof.
  unfold otp_write, sb_wr. dwp_steps. eapply dwp_mono; [apply wait_spec|].
  intros r c' [[Hf Ho _ _ _ Hl] (b & -> & _ & Hb)]. split; [|by exists b].
  unfold fz in Hf. cbn [oc_sb oc_locked] in *.
  match type of Hf with context [sb_write ?h 0x004 _] => destruct (cmd_write h) as [E1 E2] end.
  constructor; [|by rewrite Ho, E2, !wr_opened|done].
  unfold fz. by rewrite Hf, E1, !wr_fuse.
Qed.

Lemma kept_wr o v c : o ≠ 0x000 → o ≠ 0x004 → kept c (mkOtp (sb_write (oc_sb c) o v) (oc_locked c)).
Proof. intros Hz H4. constructor; cbn [oc_sb oc_locked fz]; [by apply wr_fuse|by apply wr_opened|done]. Qed.

Lemma otp_soak_spec s c : dwp (otp_soak s) (λ r c', r = Ok () ∧ kept c c') c.
Proof.
  assert (∀ l c, dwp (drv_for l (λ '(a, d), otp_write a d;; mret ()))
    (λ r c', r = Ok () ∧ kept c c') c) as Hl.
  { intros l c0. apply (dwp_for (λ _ c', kept c0 c')); [done| |auto].
    intros d [a v] rest c1 _ Hk. apply dwp_bind. eapply dwp_mono; [apply otp_write_spec|].
    intros r c2 [Hk2 (b & -> & _)]. apply dwp_ret. by etrans. }
  assert (∀ c1, kept c c1 → dwp (wait_complete;; mret ()) (λ r c', r = Ok () ∧ kept c c') c1) as Hend.
  { intros c1 Hk. apply dwp_bind. eapply dwp_mono; [apply wait_spec|].
    intros r c2 [Hs%same_kept (b & -> & _)]. apply dwp_ret. split; [done|by etrans]. }
  unfold otp_soak. apply dwp_bind. destruct s.
  - eapply dwp_mono; [apply Hl|]. intros r c1 [-> Hk]. by apply Hend.
  - apply dwp_bind. eapply dwp_mono; [apply Hl|]. intros r c1 [-> Hk]. unfold sb_wr. dwp_step.
    apply Hend. etrans; [done|by apply kept_wr].
  - apply dwp_bind. eapply dwp_mono; [apply Hl|]. intros r c1 [-> Hk]. unfold sb_wr. dwp_step.
    apply Hend. etrans; [done|by apply kept_wr].
Qed.

(** The outcome of the read command at [a]. *)
Lemma read_cmd_spec {A} a (k : bool → otp A) Q c :
  (∀ c', kept c c' → shown (oc_sb c') = Some (fz c a, fz c (a + 1)) → ready (oc_sb c') = true →
     dwp (k true) Q c') →
  (∀ c', kept c c' → ¬ prompt → dwp (k false) Q c') →
  dwp (sb_wr 0x010 a;; sb_wr 0x004 OTP_READ_CMD;; ok ← wait_complete; k ok) Q c.
Proof.
  intros Ht Hf. unfold sb_wr. dwp_steps. eapply dwp_mono; [apply wait_spec|].
  intros r c' [[Hfz Ho _ _ Hsh Hl] (b & -> & Hr & Hb)]. unfold fz in Hfz.
  cbn [oc_sb oc_locked] in *.
  destruct (cmd_read (sb_write (oc_sb c) 0x010 a)) as (E1 & E2 & E3).
  assert (kept c c') as Hk.
  { constructor; [unfold fz; by rewrite Hfz, E1, wr_fuse|by rewrite Ho, E2, wr_opened|done]. }
  destruct b; [apply Ht|apply Hf]; auto.
  rewrite Hsh, E3, wr_sel, !wr_fuse by done. done.
Qed.

Lemma read_pair_spec a c :
  dwp (read_pair a) (λ r c', kept c c' ∧
    match r with Ok p => p = (fz c a, fz c (a + 1)) | Err e => e = OtpReadFailed ∧ ¬ prompt end) c.
Proof.
  apply read_cmd_spec.
  - intros c1 Hk Hs Hr. apply dwp_bind. cbn [require]. dwp_step. apply dwp_bind.
    apply sb_rd_spec; [|done|by eauto|by left]. intros c2 Hs2 _ Hr2 x y Hxy. split; [|done].
    intros _. rewrite Hs in Hxy. injection Hxy as <- <-. apply dwp_bind.
    apply sb_rd_spec; [|done|rewrite (same_shown _ _ Hs2); by eauto|by right].
    intros c3 Hs3 _ _ x y Hxy. split; [done|]. intros _.
    rewrite (same_shown _ _ Hs2), Hs in Hxy. injection Hxy as <- <-. apply dwp_ret.
    split; [|done]. etrans; [done|]. apply same_kept. by etrans.
  - intros c1 Hk Hp. apply dwp_bind. cbn [require]. dwp_step. by split.
Qed.

Lemma read_conf_spec a c :
  dwp (otp_read_conf a) (λ r c', kept c c' ∧
    match r with Ok v => v = fz c a | Err e => e = OtpReadFailed ∧ ¬ prompt end) c.
Proof.
  apply read_cmd_spec.
  - intros c1 Hk Hs Hr. apply dwp_bind. cbn [require]. dwp_step.
    apply sb_rd_spec; [|done|by eauto|by left]. intros c2 Hs2 _ Hr2 x y Hxy. split; [|done].
    intros _. rewrite Hs in Hxy. injection Hxy as <- <-.
    split; [|done]. etrans; [done|]. by apply same_kept.
  - intros c1 Hk Hp. apply dwp_bind. cbn [require]. dwp_step. by split.
Qed.

(** A programming command burns, at most, the bits it selects. *)
Lemma otp_prog_spec a p c :
  opened (oc_sb c) = true →
  dwp (otp_prog a p) (λ r c', opened (oc_sb c') = true ∧ oc_locked c' = oc_locked c ∧
    burns a (λ n, selects a p n = true) (fz c) (fz c') ∧
    match r with
    | Ok _ => takes → ∀ n, 0 ≤ n < 32 → selects a p n = true → Z.testbit (fz c' a) n = burned a
    | Err _ => ¬ prompt
    end) c.
Proof.
  intros Hop. apply dwp_bind. eapply dwp_mono; [apply otp_write_spec|].
  intros r c1 [Hk (b & -> & Hb)]. apply dwp_bind. destruct b; cbn [require]; dwp_step.
  2:{ destruct Hk as [Hf Ho Hl]. rewrite Hf, Ho. split; [done|]. split; [done|].
      split; [apply burns_refl|auto]. }
  destruct Hk as [Hf1 Ho1 Hl1]. unfold sb_wr. dwp_steps. eapply dwp_mono; [apply wait_spec|].
  intros r c' [[Hf Ho _ _ _ Hl] (b & -> & _ & Hb')]. unfold fz in Hf. cbn [oc_sb oc_locked] in *.
  set (h := sb_write (sb_write (oc_sb c1) 0x010 a) 0x020 p) in *.
  assert (opened h = true) as Hoh by (unfold h; rewrite !wr_opened by done; congruence).
  destruct (cmd_prog h Hoh) as [Hoh' Hburn].
  assert (sel h = a ∧ arg h = p ∧ fuse h = fz c) as (Hsel & Harg & Hfz).
  { unfold h. rewrite wr_sel_frame, wr_sel, wr_arg, !wr_fuse by done. by rewrite <- Hf1. }
  rewrite Hsel, Harg, Hfz in Hburn.
  assert (opened (oc_sb c') = true ∧ oc_locked c' = oc_locked c ∧
    burns a (λ n, selects a p n = true) (fz c) (fz c')) as (? & ? & ?).
  { split; [congruence|]. split; [congruence|]. unfold fz at 2. by rewrite Hf. }
  unfold require. destruct b; dwp_step; [|by auto]. split; [done|]. split; [done|].
  split; [done|]. intros Ht n Hn Hsn. unfold fz. rewrite Hf, <- Hsel.
  apply Ht; [done..|]. by rewrite Hsel, Harg.
Qed.
End commands.

(** * A concrete OTP block

    Fuses that take at the first pulse, behind registers as the driver uses
    them: the laws of [SecureLaws] have an instance.  With [slow] the status
    register answers from a script, so that a command may outlast the driver's
    patience. *)
Record Fuses (slow : bool) := mkFuses {
  fm : Z → Z; f_open : bool; f_sel : Z; f_arg : Z; f_data : option (Z * Z);
  f_script : list bool; f_ready : bool; f_rev : Z;
}.
Arguments mkFuses {slow}.
Arguments fm {slow}.
Arguments f_open {slow}.
Arguments f_sel {slow}.
Arguments f_arg {slow}.
Arguments f_data {slow}.
Arguments f_script {slow}.
Arguments f_ready {slow}.
Arguments f_rev {slow}.

Definition word_of (m : Z → Z) (a : Z) : Z := Z.land (m a) u32_MAX.

(** The word at [a] after the pulse [p]. *)
Definition pulse (a p w : Z) : Z := if burned a then Z.lor w (not_u32 p) else Z.land w (not_u32 p).

(** A poll of the status register. *)
Definition f_poll {slow} (h : Fuses slow) : Fuses slow * Z :=
  if slow then
    match f_script h with
    | s :: rest =>
        (mkFuses (fm h) (f_open h) (f_sel h) (f_arg h) (f_data h) rest (f_ready h || s) (f_rev h),
         if s then 6 else 0)
    | [] => (mkFuses (fm h) (f_open h) (f_sel h) (f_arg h) (f_data h) [] true (f_rev h), 6)
    end
  else (h, 6).

Definition f_read {slow} (h : Fuses slow) (o : Z) : Fuses slow * Z :=
  if o =? 0x014 then f_poll h
  else if o =? 0x020 then (h, default 0 (fst <$> f_data h))
  else if o =? 0x024 then (h, default 0 (snd <$> f_data h))
  else (h, 0).

Definition f_command {slow} (h : Fuses slow) (v : Z) : Fuses slow :=
  if v =? OTP_READ_CMD then
    mkFuses (fm h) (f_open h) (f_sel h) (f_arg h)
      (Some (word_of (fm h) (f_sel h), word_of (fm h) (f_sel h + 1))) (f_script h) false (f_rev h)
  else if (v =? OTP_PROG_CMD) && f_open h then
    mkFuses
      (λ a, if a =? f_sel h then pulse a (f_arg h) (word_of (fm h) a) else fm h a)
      (f_open h) (f_sel h) (f_arg h) None (f_script h) false (f_rev h)
  else mkFuses (fm h) (f_open h) (f_sel h) (f_arg h) None (f_script h) false (f_rev h).

Definition f_write {slow} (h : Fuses slow) (o v : Z) : Fuses slow :=
  if o =? 0x000 then
    mkFuses (fm h) (v =? OTP_PASSWD) (f_sel h) (f_arg h) (f_data h) (f_script h) (f_ready h) (f_rev h)
  else if o =? 0x010 then
    mkFuses (fm h) (f_open h) v (f_arg h) (f_data h) (f_script h) (f_ready h) (f_rev h)
  else if o =? 0x020 then
    mkFuses (fm h) (f_open h) (f_sel h) v None (f_script h) (f_ready h) (f_rev h)
  else if o =? 0x004 then f_command h v
  else h.

#[export] Instance fuses_secure slow : Secure (Fuses slow) := {|
  sb_read := f_read; sb_write := f_write; scu_revid h _ := f_rev h |}.

Lemma word_of_range m a : in_u32 (word_of m a).
Proof. unfold word_of. rewrite Z.land_comm. by apply in_u32_land. Qed.

Lemma testbit_word_of m a n : 0 ≤ n < 32 → Z.testbit (word_of m a) n = Z.testbit (m a) n.
Proof. intros Hn. unfold word_of. by rewrite Z.land_spec, testbit_u32_MAX, andb_true_r. Qed.

Lemma testbit_pulse a p w n :
  0 ≤ n < 32 → Z.testbit (pulse a p w) n = if selects a p n then burned a else Z.testbit w n.
Proof.
  intros Hn. unfold pulse, selects. destruct (burned a).
  - rewrite Z.lor_spec, testbit_not_u32 by done. by destruct (Z.testbit p n), (Z.testbit w n).
  - rewrite Z.land_spec, testbit_not_u32 by done. by destruct (Z.testbit p n), (Z.testbit w n).
Qed.

Ltac fuses_cases :=
  repeat match goal with
  | |- context [if ?b then _ else _] => destruct b eqn:?
  | |- context [match f_script ?h with _ => _ end] => destruct (f_script h) eqn:?
  end.

#[export] Program Instance fuses_laws slow : SecureLaws (Fuses slow) := {|
  fuse h := word_of (fm h); opened := f_open; sel := f_sel; arg := f_arg; shown := f_data;
  ready h := if slow then f_ready h else true |}.
Next Obligation. intros. apply word_of_range. Qed.
Next Obligation. intros. cbn; unfold f_read, f_poll. by fuses_cases. Qed.
Next Obligation. intros. cbn; unfold f_read, f_poll. by fuses_cases. Qed.
Next Obligation. intros. cbn; unfold f_read, f_poll. by fuses_cases. Qed.
Next Obligation. intros. cbn; unfold f_read, f_poll. by fuses_cases. Qed.
Next Obligation. intros. cbn; unfold f_read, f_poll. by fuses_cases. Qed.
Next Obligation.
  intros [] h o Hr; [|done]. cbn. unfold f_read, f_poll. fuses_cases; cbn; by rewrite ?Hr.
Qed.
Next Obligation.
  intros [] h; [|done]. cbn. unfold f_poll. destruct (f_script h) as [|[] rest]; cbn; try done.
  intros _ _. apply orb_true_r.
Qed.
Next Obligation. intros slow h a b Hs _. cbn. by rewrite Hs. Qed.
Next Obligation. intros slow h o v Ho. cbn. unfold f_write. fuses_cases; try done. lia. Qed.
Next Obligation. intros slow h o v Ho Ho'. cbn. unfold f_write. fuses_cases; try done; lia. Qed.
Next Obligation. done. Qed.
Next Obligation. done. Qed.
Next Obligation. done. Qed.
Next Obligation. done. Qed.
Next Obligation. done. Qed.
Next Obligation. done. Qed.
Next Obligation.
  intros slow h Ho. cbn. unfold f_write, f_command. cbn. rewrite Ho. cbn. split; [done|].
  split.
  - intros b Hb. unfold word_of at 1. cbn [fm]. by rewrite (proj2 (Z.eqb_neq _ _) Hb).
  - intros n Hn. rewrite testbit_word_of by done. cbn [fm].
    rewrite Z.eqb_refl, testbit_pulse by done. destruct (selects _ _ n); auto.
Qed.

Lemma fuses_take slow : takes (D := Fuses slow).
Proof.
  intros h Ho n Hn Hs. cbn in *. unfold f_write, f_command. cbn. rewrite Ho. cbn.
  rewrite testbit_word_of by done. cbn [fm]. by rewrite Z.eqb_refl, testbit_pulse, Hs.
Qed.

Lemma fuses_prompt : prompt (D := Fuses false).
Proof. intros [h l]. by eexists. Qed.

(** A blank part, and one some of whose fuses are burned. *)
Definition blank_words (a : Z) : Z := if burned a then 0 else u32_MAX.
Definition part {slow} (m : Z → Z) (script : list bool) : OtpController (Fuses slow) :=
  mkOtp (mkFuses m false 0 0 None script true ID0_AST1060A2) false.
