(* ===== verification/OtpProg.v ===== *)
(** * Programming words

    The data region: [otp_prog_data] leaves exactly the requested words when it
    succeeds, in every case only burns bits the request asks for, and succeeds on
    fuses that take whenever no bit would have to be restored. *)

From S2P Require Import Prelude Bytes RegMonad Spim SpimRun Soc SocRun Otp OtpRun.
From stdpp Require Import base tactics option list numbers sets.
Local Open Scope Z_scope.

Create HintDb otp.

(** ** Moves *)

(** Bits [n] of words [b] with [W b n] may have been burned; nothing else
    changed. *)
Definition moves (W : Z → Z → Prop) (f f' : Z → Z) : Prop :=
  ∀ b n, 0 ≤ n < 32 →
    Z.testbit (f' b) n = Z.testbit (f b) n ∨ (W b n ∧ Z.testbit (f' b) n = burned b).

(** The bits a request for [d] at [a], but for [ignore], burns. *)
Definition want (a d ignore : Z) (b n : Z) : Prop :=
  b = a ∧ Z.testbit d n = burned a ∧ Z.testbit ignore n = false.

Lemma moves_refl W f : moves W f f.
Proof. by left. Qed.

Lemma moves_mono (W W' : Z → Z → Prop) f f' :
  (∀ b n, W b n → W' b n) → moves W f f' → moves W' f f'.
Proof. intros HW Hm b n Hn. destruct (Hm b n Hn) as [?|[? ?]]; auto. Qed.

Lemma moves_trans W f f1 f2 : moves W f f1 → moves W f1 f2 → moves W f f2.
Proof. intros H1 H2 b n Hn. destruct (H2 b n Hn) as [->|?]; auto. Qed.

Lemma burns_moves a B f f' : burns a B f f' → moves (λ b n, b = a ∧ B n) f f'.
Proof.
  intros [Ho Hb] b n Hn. destruct (decide (b = a)) as [->|Hne]; [|left; by rewrite Ho].
  destruct (Hb n Hn) as [?|[? ?]]; auto.
Qed.

Lemma word_eq x y :
  in_u32 x → in_u32 y → (∀ n, 0 ≤ n < 32 → Z.testbit x n = Z.testbit y n) → x = y.
Proof.
  intros Hx Hy Hb. apply Z.bits_inj'. intros n Hn.
  destruct (decide (n < 32)); [by apply Hb|]. by rewrite !in_u32_high by (done || lia).
Qed.

(** A word no bit of which may be burned is unchanged. *)
Lemma moves_out W f f' b :
  moves W f f' → in_u32 (f b) → in_u32 (f' b) → (∀ n, 0 ≤ n < 32 → ¬ W b n) → f' b = f b.
Proof.
  intros Hm Hf Hf' Hout. apply word_eq; [done..|]. intros n Hn.
  destruct (Hm b n Hn) as [?|[Hw _]]; [done|]. by destruct (Hout n Hn).
Qed.

(** A bit of [cmp] to burn is one [d] asks for, or is burned already. *)
Definition covers (a d cmp : Z) (f : Z → Z) : Prop :=
  ∀ n, 0 ≤ n < 32 → Z.testbit cmp n = burned a →
    Z.testbit d n = burned a ∨ Z.testbit (f a) n = burned a.

Lemma covers_moves W a d cmp f f' : moves W f f' → covers a d cmp f → covers a d cmp f'.
Proof.
  intros Hm Hc n Hn Hcmp. destruct (Hc n Hn Hcmp) as [?|Hf]; [by left|right].
  destruct (Hm a n Hn) as [->|[_ ?]]; done.
Qed.

Lemma moves_retry a d g cmp f f' :
  covers a d cmp f → moves (want a cmp g) f f' → moves (want a d g) f f'.
Proof.
  intros Hcmp Hm b n Hn. destruct (Hm b n Hn) as [?|[(-> & Hc & Hg) Hb]]; [by left|].
  destruct (Hcmp n Hn Hc) as [Hd|Hf]; [|left; congruence]. right. by split.
Qed.

(** ** Bits of words *)

Lemma bit_at_testbit w i : bit_at w i = Z.b2z (Z.testbit w (Z.of_nat i)).
Proof.
  unfold bit_at. change 1 with (Z.ones 1). rewrite Z.land_ones by lia.
  rewrite <- Z.bit0_mod, Z.shiftr_spec, Z.add_0_l by lia. done.
Qed.

Lemma bit_at_1 w i : (bit_at w i =? 1) = Z.testbit w (Z.of_nat i).
Proof. rewrite bit_at_testbit. by destruct (Z.testbit _ _). Qed.

Lemma bit_at_0 w i : (bit_at w i =? 0) = negb (Z.testbit w (Z.of_nat i)).
Proof. rewrite bit_at_testbit. by destruct (Z.testbit _ _). Qed.

(** The programming word of bit [k] selects that bit alone. *)
Definition prog_word (a k : Z) : Z :=
  if burned a then not_u32 (Z.shiftl 1 k) else Z.shiftl 1 k.

Lemma selects_prog_word a k n :
  0 ≤ k → 0 ≤ n < 32 → selects a (prog_word a k) n = (n =? k).
Proof.
  intros Hk Hn. unfold selects, prog_word. destruct (burned a).
  - rewrite testbit_not_u32, testbit_shiftl_1 by lia. by destruct (n =? k).
  - rewrite testbit_shiftl_1 by lia. by destruct (n =? k).
Qed.

Lemma burned_succ a : burned a = true → burned (a + 1) = false.
Proof.
  unfold burned. change 1 with (Z.ones 1) at 1 3. rewrite !Z.land_ones by lia.
  rewrite Z.eqb_eq, Z.eqb_neq. change (2 ^ 1) with 2. intros Ha.
  rewrite Z.add_mod by lia. rewrite Ha. done.
Qed.

Lemma masked_eq d w g :
  in_u32 d → in_u32 w →
  (Z.land d (not_u32 g) =? Z.land w (not_u32 g)) = true ↔
  ∀ n, 0 ≤ n < 32 → Z.testbit g n = false → Z.testbit d n = Z.testbit w n.
Proof.
  intros Hd Hw. rewrite Z.eqb_eq. split.
  - intros E n Hn Hg.
    assert (Z.testbit (Z.land d (not_u32 g)) n = Z.testbit (Z.land w (not_u32 g)) n) as Hb by (by rewrite E).
    rewrite !Z.land_spec, testbit_not_u32, Hg in Hb by done. by rewrite !andb_true_r in Hb.
  - intros E. apply word_eq; [by apply in_u32_land..|]. intros n Hn.
    rewrite !Z.land_spec, testbit_not_u32 by done. destruct (Z.testbit g n) eqn:Hg.
    + by rewrite !andb_false_r.
    + by rewrite E.
Qed.

Lemma is_program_data_valid_spec a d b :
  is_program_data_valid a d b = true ↔
  ∀ n, 0 ≤ n < 32 → Z.testbit d n = burned a → Z.testbit b n = burned a.
Proof.
  unfold is_program_data_valid. rewrite forallb_forall. split.
  - intros Hall n Hn. specialize (Hall (Z.to_nat n)). rewrite in_seq in Hall.
    specialize (Hall ltac:(lia)). fold (burned a) in Hall.
    rewrite !bit_at_1, !bit_at_0, !Z2Nat.id in Hall by lia.
    destruct (burned a), (Z.testbit d n), (Z.testbit b n); done.
  - intros Hall i Hi. apply in_seq in Hi. specialize (Hall (Z.of_nat i) ltac:(lia)).
    fold (burned a). rewrite !bit_at_1, !bit_at_0.
    destruct (burned a), (Z.testbit d _), (Z.testbit b _); simpl in *; try done;
      by rewrite Hall.
Qed.

(** [d] and [w] agree but for the bits of [g]. *)
Definition agree (g d w : Z) : Prop :=
  ∀ n, 0 ≤ n < 32 → Z.testbit g n = false → Z.testbit d n = Z.testbit w n.

Lemma agree_eq d w : in_u32 d → in_u32 w → agree 0 d w ↔ w = d.
Proof.
  intros Hd Hw. split; [|by intros -> n]. intros Ha. apply word_eq; [done..|].
  intros n Hn. symmetry. apply Ha; [done|apply Z.testbit_0_l].
Qed.

(** No bit of [w] has to be restored to reach [d]. *)
Definition reachable (a g w d : Z) : Prop :=
  ∀ n, 0 ≤ n < 32 → Z.testbit g n = false → Z.testbit w n = burned a → Z.testbit d n = burned a.

(** ** Programming a word *)

Section words.
Context {D : Type} `{SecureLaws D}.
Implicit Types (c : OtpController D) (a v : Z).

(** The registers stay open, and fuses move as [W] allows. *)
Record advances (W : Z → Z → Prop) c c' : Prop := {
  adv_opened : opened (oc_sb c') = opened (oc_sb c);
  adv_locked : oc_locked c' = oc_locked c;
  adv_moves : moves W (fz c) (fz c');
}.

#[global] Instance advances_preorder W : PreOrder (advances W).
Proof.
  split; [intros c; split; [done..|apply moves_refl]|]. intros c1 c2 c3 [] []. split; [congruence..|].
  by eapply moves_trans.
Qed.

Lemma kept_advances W c c' : kept c c' → advances W c c'.
Proof. intros [Hf Ho Hl]. split; [done..|]. rewrite Hf. apply moves_refl. Qed.

Lemma advances_mono (W W' : Z → Z → Prop) c c' :
  (∀ b n, W b n → W' b n) → advances W c c' → advances W' c c'.
Proof. intros HW []. split; [done..|by eapply moves_mono]. Qed.

Lemma soak_then {A} s W (m : otp A) (Q : result A OtpError → OtpController D → Prop) c :
  (∀ c', kept c c' → advances W c c' → dwp m Q c') → dwp (otp_soak s;; m) Q c.
Proof.
  intros HQ. apply dwp_bind. eapply dwp_mono; [apply otp_soak_spec|]. intros r c' [-> Hk].
  apply HQ; [done|by apply kept_advances].
Qed.

(** One bit of a word burned. *)
Lemma prog_bit_advances a k c :
  opened (oc_sb c) = true → 0 ≤ k < 32 →
  dwp (otp_prog a (prog_word a k)) (λ r c', advances (λ b n, b = a ∧ n = k) c c' ∧
    match r with
    | Ok _ => takes → Z.testbit (fz c' a) k = burned a
    | Err _ => ¬ prompt
    end) c.
Proof.
  intros Hop Hk. eapply dwp_mono; [by apply otp_prog_spec|].
  intros r c' (Ho & Hl & Hb & Hr). split.
  - split; [congruence|done|]. apply burns_moves. eapply burns_mono, Hb.
    intros n Hn. cbn beta. rewrite selects_prog_word by lia. by intros ->%Z.eqb_eq.
  - destruct r; [|done]. intros Ht. apply Hr; [done..|].
    rewrite selects_prog_word by lia. by apply Z.eqb_eq.
Qed.

Lemma otp_prog_dw_spec v g a c :
  opened (oc_sb c) = true →
  dwp (otp_prog_dw v g a) (λ r c', advances (want a v g) c c' ∧
    match r with
    | Ok _ => takes → ∀ n, 0 ≤ n < 32 → want a v g a n → Z.testbit (fz c' a) n = burned a
    | Err _ => ¬ prompt
    end) c.
Proof.
  intros Hop. unfold otp_prog_dw.
  apply (dwp_for (λ l c', advances (want a v g) c c' ∧
    (takes → ∀ k, k ∈ l → want a v g a (Z.of_nat k) → Z.testbit (fz c' a) (Z.of_nat k) = burned a))).
  - split; [done|]. intros _ k Hk. by apply elem_of_nil in Hk.
  - intros l k rest c1 Hl [Hadv Htk]. apply seq_split_lt in Hl as Hlt.
    assert (∀ c2, advances (λ b n, b = a ∧ n = Z.of_nat k) c1 c2 →
      (want a v g a (Z.of_nat k) → takes → Z.testbit (fz c2 a) (Z.of_nat k) = burned a) →
      takes → ∀ j, j ∈ l ++ [k] → want a v g a (Z.of_nat j) →
      Z.testbit (fz c2 a) (Z.of_nat j) = burned a) as Hkeep.
    { intros c2 [_ _ Hm] Hnew Ht j Hj Hw. apply elem_of_app in Hj as [Hj|Hj].
      - destruct (Hm a (Z.of_nat j)) as [->|[_ ?]]; [|by apply Htk|done].
        enough (j < 32)%nat by lia. apply (elem_of_seq 0). rewrite Hl. apply elem_of_app. by left.
      - apply list_elem_of_singleton in Hj as ->. by apply Hnew. }
    assert (¬ want a v g a (Z.of_nat k) → advances (want a v g) c c1 ∧
      (takes → ∀ j, j ∈ l ++ [k] → want a v g a (Z.of_nat j) →
       Z.testbit (fz c1 a) (Z.of_nat j) = burned a)) as Hskip.
    { intros Hn. split; [done|]. apply Hkeep; [done|]. intros Hw. by destruct Hn. }
    assert (want a v g a (Z.of_nat k) → dwp (otp_prog a (prog_word a (Z.of_nat k)))
      (λ r c2, match r with
        | Ok _ => advances (want a v g) c c2 ∧
            (takes → ∀ j, j ∈ l ++ [k] → want a v g a (Z.of_nat j) →
             Z.testbit (fz c2 a) (Z.of_nat j) = burned a)
        | Err _ => advances (want a v g) c c2 ∧ ¬ prompt
        end) c1) as Hprog.
    { intros Hw. eapply dwp_mono; [apply prog_bit_advances; [|lia]|].
      - destruct Hadv. congruence.
      - intros r c2 [Hadv2 Hr]. assert (advances (want a v g) c c2).
        { etrans; [done|]. eapply advances_mono, Hadv2. by intros b n [-> ->]. }
        destruct r; (split; [done|]); [|done]. apply Hkeep; [done|]. intros _. exact Hr. }
    clear Hkeep. unfold want in Hprog at 1, Hskip at 1. unfold prog_word in Hprog.
    rewrite !bit_at_1. fold (burned a).
    destruct (Z.testbit g (Z.of_nat k)), (burned a), (Z.testbit v (Z.of_nat k));
      first [ apply Hprog; naive_solver
            | apply dwp_ret, Hskip; by intros (_ & ? & ?) ].
  - intros c' [Hadv Htk]. split; [done|]. intros Ht n Hn Hw.
    specialize (Htk Ht (Z.to_nat n)). rewrite Z2Nat.id in Htk by lia. apply Htk; [|done].
    apply elem_of_seq. lia.
Qed.

Lemma fz_range c a : in_u32 (fz c a).
Proof. apply fuse_range. Qed.

(** What a comparison of [d] with the word at [a] found. *)
Definition compared (a d g : Z) (f : Z → Z) (ok : bool) (cmp : Z) : Prop :=
  (ok = true ↔ agree g d (f a)) ∧
  ∀ n, 0 ≤ n < 32 → Z.testbit cmp n = burned a ↔ ok = false ∧ Z.testbit d n ≠ Z.testbit (f a) n.

Lemma compared_covers a d g f ok cmp : compared a d g f ok cmp → covers a d cmp f.
Proof.
  intros [_ Hc] n Hn Hcmp. apply Hc in Hcmp as [_ Hne]; [|done].
  destruct (Z.testbit d n), (Z.testbit (f a) n), (burned a); naive_solver.
Qed.

Lemma compare_even a d g w f :
  in_u32 d → f a = w → in_u32 w → burned a = true →
  compared a d g f
    (if Z.land d (not_u32 g) =? Z.land w (not_u32 g) then true else false)
    (if Z.land d (not_u32 g) =? Z.land w (not_u32 g) then 0 else Z.lxor d w).
Proof.
  intros Hd <- Hw Ha. pose proof (masked_eq d (f a) g Hd Hw) as Hm.
  destruct (_ =? _) eqn:E; (split; [unfold agree; rewrite <- Hm; by split|]); intros n Hn; rewrite Ha.
  - rewrite Z.testbit_0_l. naive_solver.
  - rewrite Z.lxor_spec. by destruct (Z.testbit d n), (Z.testbit (f a) n); naive_solver.
Qed.

Lemma compare_odd a d g w f :
  in_u32 d → f a = w → in_u32 w → burned a = false →
  compared a d g f
    (if Z.land d (not_u32 g) =? Z.land w (not_u32 g) then true else false)
    (if Z.land d (not_u32 g) =? Z.land w (not_u32 g) then u32_MAX else not_u32 (Z.lxor d w)).
Proof.
  intros Hd <- Hw Ha. pose proof (masked_eq d (f a) g Hd Hw) as Hm.
  destruct (_ =? _) eqn:E; (split; [unfold agree; rewrite <- Hm; by split|]); intros n Hn; rewrite Ha.
  - rewrite testbit_u32_MAX by lia. naive_solver.
  - rewrite testbit_not_u32, Z.lxor_spec by lia.
    by destruct (Z.testbit d n), (Z.testbit (f a) n); naive_solver.
Qed.

Lemma low_address a : 0 ≤ a < 2 ^ 15 → Z.land a (not_u32 (Z.shiftl 1 15)) = a.
Proof.
  intros Ha. apply Z.bits_inj'. intros n Hn. rewrite Z.land_spec.
  destruct (decide (n < 15)).
  - rewrite testbit_not_u32, testbit_shiftl_1 by lia.
    by rewrite (proj2 (Z.eqb_neq n 15)), andb_true_r by lia.
  - assert (Z.testbit a n = false) as ->; [|done].
    destruct (decide (a = 0)) as [->|]; [apply Z.testbit_0_l|].
    apply Z.bits_above_log2; [lia|]. apply Z.log2_lt_pow2; [lia|].
    eapply Z.lt_le_trans; [apply Ha|]. apply Z.pow_le_mono_r; lia.
Qed.

Lemma verify_dw_spec a d g cmp c :
  in_u32 d → 0 ≤ a < 2 ^ 15 →
  dwp (verify_dw a d g cmp) (λ r c', kept c c' ∧ ∃ ok cmp', r = Ok (ok, cmp') ∧
    (compared a d g (fz c') ok cmp' ∨ ok = false ∧ cmp' = cmp ∧ ¬ prompt)) c.
Proof.
  intros Hd Ha. unfold verify_dw. rewrite low_address by done. fold (burned a).
  apply dwp_bind, dwp_attempt. eapply dwp_mono; [apply read_pair_spec|].
  intros [[x y]|e] c' [Hk Hr].
  2:{ apply dwp_ret. split; [done|]. eexists _, _. split; [done|]. right. naive_solver. }
  injection Hr as -> ->. apply dwp_ret. split; [done|].
  rewrite <- (kept_fuse _ _ Hk). destruct (burned a) eqn:Eb.
  - destruct (_ =? _) eqn:E; eexists _, _; (split; [done|]); left;
      pose proof (compare_even a d g (fz c' a) (fz c') Hd eq_refl (fz_range _ _) Eb) as Hc;
      by rewrite E in Hc.
  - replace (a - 1 + 1) with a by lia.
    destruct (_ =? _) eqn:E; eexists _, _; (split; [done|]); left;
      pose proof (compare_odd a d g (fz c' a) (fz c') Hd eq_refl (fz_range _ _) Eb) as Hc;
      by rewrite E in Hc.
Qed.

(** Retrying a word moves it towards what was asked for, and reports success
    only when it is there. *)
Lemma prog_dw_retry_spec k a d g cmp c :
  in_u32 d → 0 ≤ a < 2 ^ 15 → opened (oc_sb c) = true → prompt ∨ covers a d cmp (fz c) →
  dwp (prog_dw_retry k a d g cmp) (λ r c', advances (want a d g) c c' ∧ ∃ ok, r = Ok ok ∧
    (ok = true → agree g d (fz c' a)) ∧
    (ok = false → prompt → agree g d (fz c a) → k = 0%nat)) c.
Proof.
  intros Hd Ha. revert c cmp. induction k as [|k IH]; intros c cmp Hop Hcov; cbn [prog_dw_retry].
  { apply dwp_ret. split; [done|]. by exists false. }
  apply dwp_bind. eapply dwp_mono; [by apply verify_dw_spec|].
  intros r c1 [Hk1 (ok & cmp1 & -> & Hcmp)]. pose proof (kept_advances (want a d g) _ _ Hk1) as Hadv1.
  destruct ok.
  { apply dwp_ret. split; [done|]. exists true. split; [done|]. split; [|done]. intros _.
    destruct Hcmp as [[Hc _]|[? _]]; [by apply Hc|done]. }
  assert (prompt → agree g d (fz c a) → S k = 0%nat) as Hno.
  { rewrite <- (kept_fuse _ _ Hk1). intros Hp Hag. destruct Hcmp as [[Hc _]|(_ & _ & Hn)]; [|done].
    by apply Hc in Hag. }
  assert (covers a d cmp1 (fz c1)) as Hcov1.
  { destruct Hcmp as [Hc|(_ & -> & Hn)]; [by eapply compared_covers|].
    rewrite (kept_fuse _ _ Hk1). by destruct Hcov. }
  apply (soak_then _ (want a d g)). intros c2 Hk2 Hadv2. apply dwp_bind, dwp_attempt.
  eapply dwp_mono; [apply otp_prog_dw_spec; destruct Hk1, Hk2; congruence|].
  intros r c3 [Hadv3 _]. rewrite <- (kept_fuse _ _ Hk2) in Hcov1.
  assert (advances (want a d g) c c3) as Hadv.
  { etrans; [done|]. etrans; [done|]. destruct Hadv3 as [?? Hm]. split; [done..|].
    by eapply moves_retry. }
  destruct r as [[]|e]; [|apply dwp_ret; split; [done|]; by exists false].
  apply dwp_bind. eapply dwp_mono; [by apply verify_dw_spec|].
  intros r c4 [Hk4 (ok & cmp4 & -> & Hcmp4)].
  assert (advances (want a d g) c c4) as Hadv4 by (etrans; [done|by apply kept_advances]).
  destruct ok.
  { apply dwp_ret. split; [done|]. exists true. split; [done|]. split; [|done]. intros _.
    destruct Hcmp4 as [[Hc _]|[? _]]; [by apply Hc|done]. }
  assert (covers a d cmp4 (fz c4)) as Hcov4.
  { destruct Hcmp4 as [Hc|(_ & -> & Hn)]; [by eapply compared_covers|].
    rewrite (kept_fuse _ _ Hk4). destruct Hadv3. by eapply covers_moves. }
  apply (soak_then _ (want a d g)). intros c5 Hk5 Hadv5. eapply dwp_mono; [apply IH|].
  - destruct Hk5, Hadv4. congruence.
  - right. by rewrite (kept_fuse _ _ Hk5).
  - intros r c6 [Hadv6 (ok & -> & Hok & _)]. split; [by do 2 (etrans; [done|])|].
    exists ok. split; [done|]. split; [done|]. intros _. exact Hno.
Qed.
End words.

(** ** Programming a pair of words *)

Lemma covers_xor_even a d f : burned a = true → covers a d (Z.lxor d (f a)) f.
Proof.
  intros Ha n Hn. rewrite Z.lxor_spec, Ha. destruct (Z.testbit d n), (Z.testbit (f a) n); auto.
Qed.

Lemma covers_xor_odd a d f : burned a = false → covers a d (not_u32 (Z.lxor d (f a))) f.
Proof.
  intros Ha n Hn. rewrite testbit_not_u32, Z.lxor_spec, Ha by done.
  destruct (Z.testbit d n), (Z.testbit (f a) n); auto.
Qed.

Lemma covers_none_even a d f : burned a = true → covers a d 0 f.
Proof. intros Ha n Hn. by rewrite Z.testbit_0_l, Ha. Qed.

Lemma covers_none_odd a d f : burned a = false → covers a d u32_MAX f.
Proof. intros Ha n Hn. by rewrite testbit_u32_MAX, Ha. Qed.

#[export] Hint Resolve covers_xor_even covers_xor_odd covers_none_even covers_none_odd : otp.

Section pairs.
Context {D : Type} `{SecureLaws D}.
Context (Hprompt : prompt (D := D)).
Context (a b0 b1 g0 g1 : Z) (prog0 prog1 : bool).
Context (Hb0 : in_u32 b0) (Hb1 : in_u32 b1).
Context (Ha : 0 ≤ a) (Ha1 : a + 1 < 2 ^ 15) (Heven : burned a = true).
Implicit Types c : OtpController D.

Definition wants (b n : Z) : Prop := want a b0 g0 b n ∨ want (a + 1) b1 g1 b n.

Definition matched (f : Z → Z) : Prop :=
  (prog0 = true → agree g0 b0 (f a)) ∧ (prog1 = true → agree g1 b1 (f (a + 1))).

Definition pending (f : Z → Z) (c0 c1 : Z) : Prop :=
  (prog0 = true → covers a b0 c0 f) ∧ (prog1 = true → covers (a + 1) b1 c1 f).

Lemma verify_prog_words_spec (c0 c1 : Z) c :
  dwp (verify_prog_words a [b0; b1] [g0; g1] prog0 prog1 [c0; c1]) (λ r c', kept c c' ∧
    ∃ ok x y, r = Ok (ok, [x; y]) ∧ (ok = true ↔ matched (fz c')) ∧
      pending (fz c') x y) c.
Proof.
  pose proof (burned_succ a Heven) as Hodd. unfold verify_prog_words, matched, pending.
  destruct prog0, prog1.
  - unfold verify_2dw. rewrite low_address by lia. change (2 =? 1) with false.
    change (2 =? 2) with true. cbn iota. apply dwp_bind, dwp_attempt.
    eapply dwp_mono; [apply read_pair_spec|].
    intros [[x y]|e] c' [Hk Hr]; [|by destruct Hr]. injection Hr as -> ->.
    rewrite <- (kept_fuse _ _ Hk). set (f := fz c').
    pose proof (masked_eq b0 (f a) g0 Hb0 (fz_range _ _)) as M0. fold (agree g0 b0 (f a)) in M0.
    pose proof (masked_eq b1 (f (a + 1)) g1 Hb1 (fz_range _ _)) as M1.
    fold (agree g1 b1 (f (a + 1))) in M1.
    destruct (_ =? _), (_ =? _); cbn [andb]; apply dwp_ret; (split; [done|]);
      eexists _, _, _; (split; [done|]); (split; [naive_solver|]); split; intros _; auto with otp.
  - apply dwp_bind. eapply dwp_mono; [apply verify_dw_spec; [done|lia]|].
    intros r c' [Hk (ok & c0' & -> & [Hc|(_ & _ & Hn)])]; [|done]. apply dwp_ret. split; [done|].
    eexists _, _, _. split; [done|]. split; [|split; [intros _; by eapply compared_covers|done]].
    destruct Hc as [Hc _]. naive_solver.
  - apply dwp_bind. eapply dwp_mono; [apply verify_dw_spec; [done|lia]|].
    intros r c' [Hk (ok & c1' & -> & [Hc|(_ & _ & Hn)])]; [|done]. apply dwp_ret. split; [done|].
    eexists _, _, _. split; [done|]. split; [|split; [done|intros _; by eapply compared_covers]].
    destruct Hc as [Hc _]. naive_solver.
  - apply dwp_ret. split; [done|]. eexists _, _, _. split; [done|]. by split.
Qed.

(** On fuses that take, what was to be burned is. *)
Definition done_at (b v g : Z) (f : Z → Z) : Prop :=
  takes (D := D) → ∀ n, 0 ≤ n < 32 → want b v g b n → Z.testbit (f b) n = burned b.

Lemma done_at_moves W b v g f f' : moves W f f' → done_at b v g f → done_at b v g f'.
Proof.
  intros Hm Hd Ht n Hn Hw. destruct (Hm b n Hn) as [->|[_ ?]]; [by apply Hd|done].
Qed.

(** One word of the pair, if it is to be programmed. *)
Lemma prog_one (p skip : bool) v d g b c :
  opened (oc_sb c) = true → (p = true → covers b d v (fz c)) →
  dwp (if p && skip then otp_prog_dw v g b else mret ())
    (λ r c', r = Ok () ∧ advances (want b d g) c c' ∧
       (p && skip = true → done_at b v g (fz c'))) c.
Proof.
  intros Hop Hcov. destruct (p && skip) eqn:E; [|by apply dwp_ret].
  apply andb_true_iff in E as [Hp _]. eapply dwp_mono; [by apply otp_prog_dw_spec|].
  intros [[]|e] c' [[Ho Hl Hm] Hr]; [|done]. split; [done|]. split; [|by intros _].
  split; [done..|]. eapply moves_retry; [|done]. by apply Hcov.
Qed.

Lemma pending_moves W f f' (c0 c1 : Z) : moves W f f' → pending f c0 c1 → pending f' c0 c1.
Proof. intros Hm [P0 P1]. split; intros Hp; eapply covers_moves; eauto. Qed.

Lemma prog_pair (s0 s1 : bool) v0 v1 c :
  opened (oc_sb c) = true → pending (fz c) v0 v1 →
  ∀ {A} (k : otp A) Q,
  (∀ c', advances wants c c' → (prog0 && s0 = true → done_at a v0 g0 (fz c')) →
     (prog1 && s1 = true → done_at (a + 1) v1 g1 (fz c')) → dwp k Q c') →
  dwp ((if prog0 && s0 then otp_prog_dw v0 g0 a else mret ());;
       (if prog1 && s1 then otp_prog_dw v1 g1 (a + 1) else mret ());; k) Q c.
Proof.
  intros Hop Hpe A k Q HQ. apply dwp_bind. eapply dwp_mono; [by apply prog_one, Hpe|].
  intros r c1 (-> & Hadv1 & Hd1). pose proof (adv_opened _ _ _ Hadv1) as Ho1.
  eapply pending_moves in Hpe; [|apply Hadv1].
  apply dwp_bind. eapply dwp_mono; [apply prog_one; [congruence|apply Hpe]|].
  intros r c2 (-> & Hadv2 & Hd2). apply HQ; [|intros Hp; eapply done_at_moves; [apply Hadv2|auto]|done].
  etrans; [eapply advances_mono, Hadv1; by left|eapply advances_mono, Hadv2; by right].
Qed.

Lemma prog_2dw_retry_spec k (c0 c1 : Z) c :
  opened (oc_sb c) = true →
  dwp (prog_2dw_retry k a [b0; b1] [g0; g1] prog0 prog1 [c0; c1]) (λ r c', advances wants c c' ∧
    ∃ ok, r = Ok ok ∧ (ok = true → matched (fz c')) ∧ (ok = false → matched (fz c) → k = 0%nat)) c.
Proof.
  revert c0 c1 c. induction k as [|k IH]; intros c0 c1 c Hop; cbn [prog_2dw_retry].
  { apply dwp_ret. split; [done|]. by exists false. }
  apply dwp_bind. eapply dwp_mono; [apply verify_prog_words_spec|].
  intros r cA [HkA (ok & x & y & -> & Hok & Hpe)]. destruct ok.
  { apply dwp_ret. split; [by apply kept_advances|]. exists true. naive_solver. }
  assert (¬ matched (fz c)) as Hno by (rewrite <- (kept_fuse _ _ HkA); naive_solver).
  apply (soak_then _ wants). intros cB HkB HadvB. rewrite <- (kept_fuse _ _ HkB) in Hpe.
  apply prog_pair; [destruct HkA, HkB; congruence|done|]. intros cC HadvC _ _.
  assert (advances wants c cC) as HC by (etrans; [by apply kept_advances|]; by etrans).
  apply dwp_bind. eapply dwp_mono; [apply verify_prog_words_spec|].
  intros r cD [HkD (ok & x' & y' & -> & Hok' & _)].
  assert (advances wants c cD) as HD by (etrans; [done|by apply kept_advances]). destruct ok.
  { apply dwp_ret. split; [done|]. exists true. naive_solver. }
  apply (soak_then _ wants). intros cE HkE HadvE. eapply dwp_mono; [apply IH|].
  - destruct HkE, HD. congruence.
  - intros r cF [HF (ok & -> & Hm & _)]. split; [by do 2 (etrans; [done|])|].
    exists ok. naive_solver.
Qed.

(** After the first pass over reachable words, nothing differs. *)
Lemma first_pass_agrees f f' b v g :
  takes (D := D) → reachable b g (f b) v → moves wants f f' → done_at b v g f' →
  (∀ n, wants b n → want b v g b n) → agree g v (f' b).
Proof.
  intros Ht Hre Hm Hd Hw n Hn Hg. destruct (decide (Z.testbit v n = burned b)) as [Hv|Hv].
  { rewrite Hv. symmetry. by apply Hd. }
  destruct (Hm b n Hn) as [Hf|[Hb Hf]]; [|by destruct (Hw n Hb) as (_ & ? & _)].
  rewrite Hf. specialize (Hre n Hn Hg).
  destruct (Z.testbit v n), (Z.testbit (f b) n), (burned b); naive_solver.
Qed.
End pairs.
