(* ===== verification/OtpData.v ===== *)
(** * The data region

    [otp_prog_data] leaves exactly the requested words when it succeeds, in every
    case only burns bits the request asks for, and succeeds on fuses that take
    whenever no bit would have to be restored. *)

From S2P Require Import Prelude Bytes RegMonad Spim SpimRun Soc SocRun Otp OtpRun OtpProg.
From stdpp Require Import base tactics option list numbers sets.
Local Open Scope Z_scope.

Lemma not_u32_0 : not_u32 0 = u32_MAX.
Proof. done. Qed.

Lemma masked_0 v : in_u32 v → Z.land v (not_u32 0) = v.
Proof. rewrite not_u32_0. apply land_u32. Qed.

Lemma valid_reachable a w d : is_program_data_valid a w d = true ↔ reachable a 0 w d.
Proof.
  rewrite is_program_data_valid_spec. unfold reachable. split; intros Hr n Hn.
  - intros _. by apply Hr.
  - apply Hr; [done|]. apply Z.testbit_0_l.
Qed.

Lemma reachable_self a g w : reachable a g w w.
Proof. by intros n. Qed.

Lemma want_all_ignored a d b n : 0 ≤ n < 32 → ¬ want a d u32_MAX b n.
Proof. intros Hn (_ & _ & Hg). by rewrite testbit_u32_MAX in Hg. Qed.

Section data.
Context {D : Type} `{SecureLaws D}.
Context (Hprompt : prompt (D := D)).
Implicit Types c : OtpController D.

(** The pair at [a] asked to hold [b0] and [b1]. *)
Definition pair_wants (a b0 b1 : Z) (b n : Z) : Prop := want a b0 0 b n ∨ want (a + 1) b1 0 b n.

Definition pair_reachable (a b0 b1 : Z) (f : Z → Z) : Prop :=
  reachable a 0 (f a) b0 ∧ reachable (a + 1) 0 (f (a + 1)) b1.

(** Programming and retrying a pair some word of which differs. *)
Lemma prog_differing_spec a b0 b1 g0 g1 p0 p1 c :
  in_u32 b0 → in_u32 b1 → 0 ≤ a → a + 1 < 2 ^ 15 → burned a = true → opened (oc_sb c) = true →
  (p0 = true ∧ g0 = 0 ∨ p0 = false ∧ g0 = u32_MAX ∧ fz c a = b0) →
  (p1 = true ∧ g1 = 0 ∨ p1 = false ∧ g1 = u32_MAX ∧ fz c (a + 1) = b1) →
  dwp (otp_soak NormalProg;;
       (if (p0 : bool) then otp_prog_dw b0 g0 a else mret ());;
       (if (p1 : bool) then otp_prog_dw b1 g1 (a + 1) else mret ());;
       pass ← prog_2dw_retry OTP_OP_RETRIES a [b0; b1] [g0; g1] p0 p1 [0; 0];
       if (pass : bool) then mret ()
       else otp_soak SoakDefault;; raise OtpWriteFailed)
    (λ r c', advances (pair_wants a b0 b1) c c' ∧
       match r with
       | Ok _ => fz c' a = b0 ∧ fz c' (a + 1) = b1
       | Err e => e = OtpWriteFailed ∧ (takes (D := D) → ¬ pair_reachable a b0 b1 (fz c))
       end) c.
Proof.
  intros Hb0 Hb1 Ha Ha1 Heven Hop Hp0 Hp1.
  apply (soak_then _ (wants a b0 b1 g0 g1)). intros c1 Hk1 Hadv1.
  rewrite <- (kept_fuse _ _ Hk1) in Hp0, Hp1 |- *. rewrite <- (kept_opened _ _ Hk1) in Hop.
  assert (∀ c', advances (wants a b0 b1 g0 g1) c c' → advances (pair_wants a b0 b1) c c') as Hmono.
  { intros c'. apply advances_mono. intros b n Hw. unfold pair_wants, want. rewrite Z.testbit_0_l.
    destruct Hw as [(? & ? & _)|(? & ? & _)]; auto. }
  pose proof (prog_pair Hprompt a b0 b1 g0 g1 p0 p1 true true b0 b1 c1 Hop) as Hpair.
  rewrite !andb_true_r in Hpair. apply Hpair; [by split; intros _ n _; left|].
  clear Hpair. intros c2 Hadv2 Hd0 Hd1. apply dwp_bind. eapply dwp_mono.
  { apply (prog_2dw_retry_spec Hprompt); try done. destruct Hadv2. congruence. }
  intros r c3 [Hadv3 (ok & -> & Hok & Hall)].
  assert (advances (wants a b0 b1 g0 g1) c1 c3) as Hadv13 by (by etrans).
  assert (advances (wants a b0 b1 g0 g1) c c3) as Hadv by (by etrans). destruct ok.
  - apply dwp_ret. split; [by apply Hmono|]. destruct (Hok eq_refl) as [M0 M1].
    split.
    + destruct Hp0 as [[-> ->]|(-> & -> & Hsame)]; [apply agree_eq; [done|apply fz_range|auto]|].
      rewrite <- Hsame. apply (moves_out (wants a b0 b1 u32_MAX g1)); [apply Hadv13|apply fz_range..|].
      intros n Hn [Hw|Hw]; [by eapply want_all_ignored|]. destruct Hw. lia.
    + destruct Hp1 as [[-> ->]|(-> & -> & Hsame)]; [apply agree_eq; [done|apply fz_range|auto]|].
      rewrite <- Hsame. apply (moves_out (wants a b0 b1 g0 u32_MAX)); [apply Hadv13|apply fz_range..|].
      intros n Hn [Hw|Hw]; [|by eapply want_all_ignored]. destruct Hw. lia.
  - apply (soak_then _ (wants a b0 b1 g0 g1)). intros c4 Hk4 Hadv4. dwp_step.
    split; [apply Hmono; by etrans|]. split; [done|]. intros Ht [R0 R1].
    enough (matched a b0 b1 g0 g1 p0 p1 (fz c2)) as Hm by (by specialize (Hall eq_refl Hm)).
    destruct Hadv2 as [_ _ Hm2].
    split; intros Hp.
    + destruct Hp0 as [[-> ->]|[? _]]; [|congruence].
      apply (first_pass_agrees a b0 b1 0 g1 (fz c1)); auto.
      intros n [Hw|[? _]]; [done|lia].
    + destruct Hp1 as [[-> ->]|[? _]]; [|congruence].
      apply (first_pass_agrees a b0 b1 g0 0 (fz c1)); auto.
      intros n [[? _]|Hw]; [lia|done].
Qed.

Lemma otp_prog_verify_2dw_spec a b0 b1 c :
  in_u32 b0 → in_u32 b1 → 0 ≤ a → a + 1 < 2 ^ 15 → burned a = true → opened (oc_sb c) = true →
  dwp (otp_prog_verify_2dw a [fz c a; fz c (a + 1)] [b0; b1] [0; 0])
    (λ r c', advances (pair_wants a b0 b1) c c' ∧
       match r with
       | Ok _ => fz c' a = b0 ∧ fz c' (a + 1) = b1
       | Err e => e = OtpWriteFailed ∧ (takes (D := D) → ¬ pair_reachable a b0 b1 (fz c))
       end) c.
Proof.
  intros Hb0 Hb1 Ha Ha1 Heven Hop. unfold otp_prog_verify_2dw.
  rewrite !masked_0 by (done || apply fz_range).
  assert (¬ pair_reachable a b0 b1 (fz c) →
    advances (pair_wants a b0 b1) c c ∧ OtpWriteFailed = OtpWriteFailed ∧
    (takes (D := D) → ¬ pair_reachable a b0 b1 (fz c))) as Hbad by done.
  unfold pair_reachable in Hbad at 1. rewrite <- !valid_reachable in Hbad.
  destruct (fz c a =? b0) eqn:E0, (fz c (a + 1) =? b1) eqn:E1; cbn [andb].
  { apply Z.eqb_eq in E0, E1. by apply dwp_ret. }
  all: change (u32_MAX =? u32_MAX) with true; change (0 =? u32_MAX) with false; cbn [negb andb];
    rewrite ?negb_involutive.
  all: dwp_step; apply dwp_require; [intros _|intros Hv; first [done|apply Hbad; intros [? ?]; congruence]].
  all: dwp_step; apply dwp_require; [intros _|intros Hv; first [done|apply Hbad; intros [? ?]; congruence]].
  all: rewrite ?Z.eqb_eq in E0; rewrite ?Z.eqb_eq in E1; apply prog_differing_spec; auto.
Qed.

(** ** The region *)

(** The bits a request for [data] from word [i] on burns. *)
Definition data_wants (i : Z) (data : list Z) (b n : Z) : Prop :=
  ∃ k w, data !! k = Some w ∧ b = i + Z.of_nat k ∧ want b w 0 b n.

(** No bit has to be restored. *)
Definition data_reachable (i : Z) (data : list Z) (f : Z → Z) : Prop :=
  ∀ k w, data !! k = Some w → reachable (i + Z.of_nat k) 0 (f (i + Z.of_nat k)) w.

(** The fuses with [data] from word [i] on. *)
Definition overlay (i : Z) (data : list Z) (f : Z → Z) (b : Z) : Z :=
  if (i <=? b) && (b <? i + Z.of_nat (length data)) then default 0 (data !! Z.to_nat (b - i)) else f b.

Lemma pair_data_wants i b0 b1 rest b n : pair_wants i b0 b1 b n → data_wants i (b0 :: b1 :: rest) b n.
Proof.
  intros [Hw|Hw]; [exists 0%nat, b0|exists 1%nat, b1]; (split; [done|]);
    destruct Hw as (-> & ? & ?); (split; [lia|]); by split.
Qed.

Lemma tail_data_wants i b0 b1 rest b n :
  data_wants (i + 2) rest b n → data_wants i (b0 :: b1 :: rest) b n.
Proof.
  intros (k & w & Hk & -> & Hw). exists (S (S k)), w. split; [done|]. split; [lia|done].
Qed.

Lemma data_wants_above i data b n : data_wants i data b n → i ≤ b < i + Z.of_nat (length data).
Proof. intros (k & w & Hk%lookup_lt_Some & -> & _). lia. Qed.

Lemma advances_out W c c' b :
  advances W c c' → (∀ n, 0 ≤ n < 32 → ¬ W b n) → fz c' b = fz c b.
Proof. intros [_ _ Hm]. apply (moves_out W); [done|apply fz_range..]. Qed.

Lemma burned_even i : burned (2 * i) = true.
Proof.
  unfold burned. change 1 with (Z.ones 1). rewrite Z.land_ones by lia.
  change (2 ^ 1) with 2. by rewrite Z.mul_comm, Z.mod_mul.
Qed.

Lemma prog_data_pairs_spec m i data c :
  length data = (2 * m)%nat → Forall in_u32 data → (2 * i + length data <= OTP_MEM_LIMIT_DATA)%nat →
  opened (oc_sb c) = true →
  dwp (prog_data_pairs (2 * i) data) (λ r c',
    advances (data_wants (Z.of_nat (2 * i)) data) c c' ∧
    match r with
    | Ok _ => ∀ k w, data !! k = Some w → fz c' (Z.of_nat (2 * i) + Z.of_nat k) = w
    | Err e => e = OtpWriteFailed ∧ (takes (D := D) → ¬ data_reachable (Z.of_nat (2 * i)) data (fz c))
    end) c.
Proof.
  revert i data c. induction m as [|m IH]; intros i data c Hlen Hall Hlim Hop.
  { destruct data; [|done]. by apply dwp_ret. }
  destruct data as [|b0 [|b1 rest]]; [done|simpl in Hlen; lia|]. cbn [prog_data_pairs].
  apply Forall_cons in Hall as [Hb0 Hall]. apply Forall_cons in Hall as [Hb1 Hall].
  cbn [length] in Hlen, Hlim. unfold OTP_MEM_LIMIT_DATA in Hlim.
  apply dwp_bind. eapply dwp_mono; [apply read_pair_spec|].
  intros [p|e] c1 [Hk1 Hr]; [subst p|by destruct Hr]. rewrite <- (kept_fuse _ _ Hk1).
  apply dwp_bind. eapply dwp_mono; [apply otp_prog_verify_2dw_spec; [done..|lia|lia| |]|].
  { rewrite Nat2Z.inj_mul. apply burned_even. }
  { destruct Hk1. congruence. }
  set (a := Z.of_nat (2 * i)). intros r c2 [Hadv2 Hr].
  assert (advances (data_wants a (b0 :: b1 :: rest)) c c2) as Hadv.
  { etrans; [by apply kept_advances|]. eapply advances_mono, Hadv2. apply pair_data_wants. }
  destruct r as [[]|e].
  2:{ split; [done|]. split; [apply Hr|]. intros Ht Hre. destruct Hr as [_ Hr]. apply Hr; [done|].
      split; [specialize (Hre 0%nat b0 eq_refl)|specialize (Hre 1%nat b1 eq_refl)];
        cbn [Z.of_nat] in Hre; rewrite ?Z.add_0_r in Hre; exact Hre. }
  destruct Hr as [Hv0 Hv1]. replace (2 * i + 2)%nat with (2 * S i)%nat by lia.
  eapply dwp_mono; [apply (IH (S i)); [lia|done|unfold OTP_MEM_LIMIT_DATA; lia|]|].
  { destruct Hadv2, Hk1. congruence. }
  replace (Z.of_nat (2 * S i)) with (a + 2) by lia. intros r c3 [Hadv3 Hr].
  assert (advances (data_wants a (b0 :: b1 :: rest)) c2 c3) as Hadv3'.
  { eapply advances_mono, Hadv3. apply tail_data_wants. }
  split; [by etrans|]. destruct r as [[]|e].
  - intros [|[|k]] w Hk.
    + injection Hk as <-. rewrite Z.add_0_r, <- Hv0. apply (advances_out _ _ _ _ Hadv3).
      intros n _ Hw%data_wants_above. lia.
    + injection Hk as <-. rewrite <- Hv1. change (Z.of_nat 1) with 1. apply (advances_out _ _ _ _ Hadv3).
      intros n _ Hw%data_wants_above. lia.
    + rewrite <- (Hr k w Hk). f_equal. lia.
  - destruct Hr as [-> Hr]. split; [done|]. intros Ht Hre. apply Hr; [done|]. intros k w Hk.
    rewrite (advances_out _ _ _ _ Hadv2); [|intros n _ [[? _]|[? _]]; lia].
    replace (a + 2 + Z.of_nat k) with (a + Z.of_nat (S (S k))) by lia.
    by apply Hre.
Qed.
End data.

(** What is wrong with the arguments of [otp_prog_data], if anything. *)
Definition data_args (offset : nat) (data : list Z) : option OtpError :=
  if negb (length data + offset <=? OTP_MEM_LIMIT_DATA)%nat then Some OtpBoundaryError
  else if negb (offset mod 4 =? 0)%nat then Some OtpAlignmentError
  else if negb (length data mod 2 =? 0)%nat then Some OtpInvalidBufSize else None.

Section region.
Context {D : Type} `{SecureLaws D}.
Implicit Types c : OtpController D.

Lemma overlay_words i data c c' :
  advances (data_wants i data) c c' →
  (∀ k w, data !! k = Some w → fz c' (i + Z.of_nat k) = w) →
  ∀ b, fz c' b = overlay i data (fz c) b.
Proof.
  intros Hadv Hw b. unfold overlay. case_match eqn:E.
  - apply andb_true_iff in E as [E1%Z.leb_le E2%Z.ltb_lt].
    destruct (lookup_lt_is_Some_2 data (Z.to_nat (b - i))) as [w Hk]; [lia|].
    rewrite Hk. etrans; [|apply (Hw _ _ Hk)]. f_equal. lia.
  - apply andb_false_iff in E. apply (advances_out _ _ _ _ Hadv).
    intros n _ Hd%data_wants_above. rewrite Z.leb_gt, Z.ltb_ge in E. lia.
Qed.

Lemma data_args_None offset data :
  data_args offset data = None →
  ∃ i m, offset = (2 * i)%nat ∧ length data = (2 * m)%nat ∧
         (2 * i + length data <= OTP_MEM_LIMIT_DATA)%nat.
Proof.
  unfold data_args. intros Ha.
  destruct (Nat.leb_spec (length data + offset) OTP_MEM_LIMIT_DATA) as [Hl|]; [|done].
  destruct (Nat.eqb_spec (offset mod 4) 0) as [Ho|]; [|done].
  destruct (Nat.eqb_spec (length data mod 2) 0) as [Hd|]; [|done].
  exists (2 * (offset / 4))%nat, (length data / 2)%nat.
  pose proof (Nat.div_mod_eq offset 4). pose proof (Nat.div_mod_eq (length data) 2). lia.
Qed.

Lemma data_programmed_spec offset data c :
  prompt (D := D) → Forall in_u32 data → Z.of_nat (length data) + Z.of_nat offset ≤ u32_MAX →
  dwp (otp_prog_data offset data) (λ r c',
    match data_args offset data with
    | Some e => r = Err e ∧ c' = c
    | None =>
        opened (oc_sb c') = false ∧
        moves (data_wants (Z.of_nat offset) data) (fz c) (fz c') ∧
        (r = Ok () ∨ r = Err OtpWriteFailed) ∧
        (r = Ok () → ∀ b, fz c' b = overlay (Z.of_nat offset) data (fz c) b) ∧
        (takes (D := D) → r = Ok () ↔ data_reachable (Z.of_nat offset) data (fz c))
    end) c.
Proof.
  intros Hp Hall Hfit%Z.leb_le. destruct (data_args offset data) as [e|] eqn:Ha.
  { revert Ha. unfold otp_prog_data, data_args. intros Ha. apply dwp_bind, dwp_guarded; [done|]. apply dwp_ret.
    do 3 (dwp_step; apply dwp_require; intros Hc; rewrite Hc in Ha; cbn [negb] in Ha; clear Hc; [|by simplify_eq]).
    done. }
  apply data_args_None in Ha as Hi. destruct Hi as (i & m & -> & Hm & Hlim).
  revert Ha. unfold otp_prog_data, data_args. intros Ha. apply dwp_bind, dwp_guarded; [done|]. apply dwp_ret.
  do 3 (dwp_step; apply dwp_require; intros Hc; rewrite Hc in Ha; cbn [negb] in Ha; clear Hc; [|done]).
  unfold otp_unlock_reg, sb_wr. dwp_step. dwp_step. dwp_step. apply dwp_attempt.
  eapply dwp_mono; [apply (prog_data_pairs_spec Hp m); [done..|]|].
  { cbn [oc_sb]. by rewrite wr_key. }
  intros r c1 [[Ho1 Hl1 Hm1] Hr]. set (c0 := mkOtp _ _) in *.
  assert (fz c0 = fz c) as E0 by (by apply wr_fuse).
  apply (soak_then _ (λ _ _, False)). intros c2 Hk2 _. unfold otp_lock_reg, sb_wr. dwp_steps.
  cbn [oc_sb]. split; [by rewrite wr_key|].
  assert (∀ l, fz (mkOtp (sb_write (oc_sb c2) 0 1) l) = fz c1) as ->.
  { intros l. rewrite <- (kept_fuse _ _ Hk2). unfold fz. by apply wr_fuse. }
  rewrite <- E0. split; [done|]. destruct r as [[]|e].
  - split; [by left|]. split.
    + intros _. apply overlay_words; [by split|done].
    + intros Ht. split; [|done]. intros _ k w Hk n Hn _ Hf. rewrite <- (Hr k w Hk).
      destruct (Hm1 (Z.of_nat (2 * i) + Z.of_nat k) n Hn) as [->|[_ ?]]; done.
  - destruct Hr as [-> Hr]. split; [by right|]. split; [done|]. naive_solver.
Qed.

(** C9: On hardware whose commands complete within the driver's polls ([prompt]),
    and as long as the end of the request is a [usize], [otp_prog_data] does not
    panic.  Arguments outside the region are refused with nothing written.  Otherwise
    only bits the request asks for may be burned, success means that the region
    holds exactly the request with every other word as before, the only error is
    a failed write, and the registers are closed again; on fuses that take it
    succeeds exactly when no burned bit would have to be restored. *)
Theorem data_programmed_or_refused offset data c :
  prompt (D := D) → Forall in_u32 data → Z.of_nat (length data) + Z.of_nat offset ≤ u32_MAX →
  dwp (otp_prog_data offset data) (λ r c',
    match data_args offset data with
    | Some e => r = Err e ∧ c' = c
    | None =>
        opened (oc_sb c') = false ∧
        moves (data_wants (Z.of_nat offset) data) (fz c) (fz c') ∧
        (r = Ok () ∨ r = Err OtpWriteFailed) ∧
        (r = Ok () → ∀ b, fz c' b = overlay (Z.of_nat offset) data (fz c) b) ∧
        (takes (D := D) → r = Ok () ↔ data_reachable (Z.of_nat offset) data (fz c))
    end) c.
Proof. apply data_programmed_spec. Qed.

(** ** Reading back *)

Definition words_at (i : Z) (n : nat) (f : Z → Z) : list Z := (λ k, f (i + Z.of_nat k)) <$> seq 0 n.

Lemma words_at_2 i n f : words_at i (S (S n)) f = f i :: f (i + 1) :: words_at (i + 2) n f.
Proof.
  unfold words_at. cbn [seq fmap list_fmap]. rewrite Z.add_0_r. do 2 f_equal.
  apply list_eq. intros k. rewrite !list_lookup_fmap.
  destruct (decide (k < n)%nat) as [Hk|Hk].
  - rewrite !lookup_seq_lt by done. cbn. do 2 f_equal. lia.
  - by rewrite !lookup_seq_ge by lia.
Qed.

Lemma read_data_pairs_spec m i buffer c :
  length buffer = (2 * m)%nat →
  dwp (read_data_pairs i buffer) (λ r c', kept c c' ∧
    match r with
    | Ok (out, Ok _) => out = words_at (Z.of_nat i) (length buffer) (fz c)
    | Ok (out, Err e) => length out = length buffer ∧ e = OtpReadFailed ∧ ¬ prompt (D := D)
    | Err _ => False
    end) c.
Proof.
  revert i buffer c. induction m as [|m IH]; intros i buffer c Hlen.
  { destruct buffer; [|done]. by apply dwp_ret. }
  destruct buffer as [|x [|y rest]]; [done|simpl in Hlen; lia|]. cbn [read_data_pairs].
  apply dwp_bind, dwp_attempt. eapply dwp_mono; [apply read_pair_spec|].
  intros [p|e] c1 [K1 Hr]; [subst p|apply dwp_ret; by destruct Hr]. apply dwp_bind.
  eapply dwp_mono; [apply (IH (i + 2)%nat); simpl in Hlen; lia|].
  intros [[out [[]|e]]|e] c2 [K2 Hr]; [| |done]; apply dwp_ret; (split; [by etrans|]).
  - rewrite Hr, (kept_fuse _ _ K1). cbn [length]. rewrite words_at_2. do 2 f_equal. f_equal. lia.
  - destruct Hr as (Hl & ? & ?). cbn [length]. by rewrite Hl.
Qed.

Lemma overlay_words_at i data f : words_at i (length data) (overlay i data f) = data.
Proof.
  unfold words_at. apply list_eq. intros k. rewrite list_lookup_fmap.
  destruct (decide (k < length data)%nat) as [Hk|Hk].
  - rewrite lookup_seq_lt by done. cbn. unfold overlay.
    rewrite (proj2 (Z.leb_le _ _)), (proj2 (Z.ltb_lt _ _)) by lia. cbn [andb].
    replace (Z.to_nat (i + Z.of_nat k - i)) with k by lia.
    by destruct (lookup_lt_is_Some_2 data k Hk) as [w ->].
  - rewrite lookup_seq_ge by lia. by rewrite (proj2 (lookup_ge_None _ _)) by lia.
Qed.

Lemma words_at_ext i n f f' : (∀ b, f b = f' b) → words_at i n f = words_at i n f'.
Proof. intros E. unfold words_at. apply list_fmap_ext. intros ? k _. apply E. Qed.
End region.

Section round_trip.
Context {D : Type} `{SecureLaws D}.

(** Data that was programmed reads back: on prompt hardware, programming a
    region and reading it into a buffer of the same length gives the data, or one
    of the two calls reports the error that stopped the programming. *)
Theorem data_round_trip offset data buffer (c : OtpController D) :
  prompt (D := D) → Forall in_u32 data → Z.of_nat (length data) + Z.of_nat offset ≤ u32_MAX → length buffer = length data →
  dwp (otp_prog_data offset data;; aspeed_otp_read_data offset buffer) (λ r c',
    r = Ok (data, Ok ()) ∨ r = Err OtpWriteFailed ∨ (∃ e, data_args offset data = Some e ∧ r = Err e)) c.
Proof.
  intros Hp Hall Hfit Hlen. apply dwp_bind.
  eapply dwp_mono; [by apply (data_programmed_spec offset data)|]. intros r c1 Hc.
  destruct (data_args offset data) as [e|] eqn:Ha; [destruct Hc as [-> _]; by eauto|].
  destruct Hc as (_ & _ & Hr & Hw & _). destruct Hr as [->| ->]; [|by auto].
  specialize (Hw eq_refl). unfold aspeed_otp_read_data. rewrite Hlen.
  apply dwp_guarded; [by apply Z.leb_le|].
  destruct (data_args_None _ _ Ha) as (i & m & -> & Hm & Hlim).
  revert Ha. unfold data_args. intros Ha.
  do 3 (case_match; [done|]).
  eapply dwp_mono; [apply (read_data_pairs_spec m); congruence|].
  intros [[out [[]|e]]|e] c2 [_ Hr]; [|by destruct Hr as (_ & _ & ?)|done].
  left. do 2 f_equal. rewrite Hr, Hlen.
  rewrite (words_at_ext _ _ _ _ Hw). apply overlay_words_at.
Qed.
End round_trip.

Lemma data_round_trip_witness :
  dwp (otp_prog_data 4 [1; 2];; aspeed_otp_read_data 4 [0; 0]) (λ r _,
    r = Ok ([1; 2], Ok ()) ∨ r = Err OtpWriteFailed ∨ ∃ e, data_args 4 [1; 2] = Some e ∧ r = Err e)
    (part (slow := false) blank_words []).
Proof.
  apply (data_round_trip (D := Fuses false)); [exact fuses_prompt|by repeat constructor|by vm_compute|reflexivity].
Defined.

(** Two words of a blank part. *)
Lemma data_programmed_or_refused_witness :
  dwp (otp_prog_data 4 [0x80000001; 0xfffffff0]) (λ r c',
    opened (oc_sb c') = false ∧ r = Ok () ∧ fz c' 4 = 0x80000001 ∧ fz c' 5 = 0xfffffff0)
    (part (slow := false) blank_words []).
Proof.
  eapply dwp_mono.
  { apply (data_programmed_or_refused (D := Fuses false) 4 [0x80000001; 0xfffffff0]);
      [exact fuses_prompt|by repeat constructor|by vm_compute]. }
  intros r c' Hc. change (data_args 4 _) with (@None OtpError) in Hc. cbn iota in Hc.
  destruct Hc as (Ho & _ & _ & Hw & Hiff).
  assert (r = Ok ()) as Hr.
  { apply (Hiff (fuses_take false)). intros [|[|k]] w Hk n Hn _ Hf; injection Hk as <- || done.
    - vm_compute in Hf. by destruct n.
    - exfalso. revert Hf. change (fz _ _) with u32_MAX. by rewrite testbit_u32_MAX. }
  split; [done|]. split; [done|]. by rewrite !(Hw Hr).
Defined.

(** A read that times out while a pair is verified leaves nothing to compare
    with: the retry burns every bit of the odd word.  The request was to burn one
    bit of word 1; word 1 ends as 0. *)
Example timeout_burns_whole_word :
  let script := replicate 7 true ++ replicate 1000 false in
  match otp_prog_data 0 [0; 0xfffffffe] (part (slow := true) blank_words script) with
  | Some (c', r) => fz c' 0 = 0 ∧ fz c' 1 = 0
  | None => False
  end.
Proof. vm_compute. by split. Qed.
