(* ===== verification/OtpConf.v ===== *)
(** * Configuration words, the lock, and protections

    [otp_prog_conf] and [otp_lock_mem] on any [SecureLaws] hardware, prompt or
    not: configuration words are at even addresses, where a comparison that was
    never made selects nothing.  Concrete runs show where the protection calls
    do not do what they are for. *)

From S2P Require Import Prelude Bytes RegMonad Spim SpimRun Soc SocRun Otp OtpRun OtpProg OtpData.
From stdpp Require Import base tactics option list numbers sets strings.
Local Open Scope Z_scope.

(** ** Addresses *)

Definition conf_addr_ok (i : nat) : bool :=
  let a := conf_addr (Z.of_nat i) in
  (a =? 0x800 + Z.of_nat i / 8 * 0x200 + Z.of_nat i mod 8 * 2) && (0 <=? a) && (a <? 2 ^ 15) && burned a.

Lemma conf_addr_all i :
  (i < 32)%nat →
  conf_addr (Z.of_nat i) = 0x800 + Z.of_nat i / 8 * 0x200 + Z.of_nat i mod 8 * 2 ∧
  0 ≤ conf_addr (Z.of_nat i) < 2 ^ 15 ∧ burned (conf_addr (Z.of_nat i)) = true.
Proof.
  intros Hi. assert (forallb conf_addr_ok (seq 0 32) = true) as Hall by by vm_compute.
  rewrite forallb_forall in Hall. specialize (Hall i). rewrite in_seq in Hall.
  specialize (Hall ltac:(lia)). unfold conf_addr_ok in Hall.
  apply andb_true_iff in Hall as [Hall Hb]. apply andb_true_iff in Hall as [Hall H2%Z.ltb_lt].
  apply andb_true_iff in Hall as [H1%Z.eqb_eq H3%Z.leb_le]. auto.
Qed.

Lemma conf_addr_inj i j :
  (i < 32)%nat → (j < 32)%nat → conf_addr (Z.of_nat i) = conf_addr (Z.of_nat j) → i = j.
Proof.
  intros Hi Hj E. destruct (conf_addr_all i Hi) as [Ei _], (conf_addr_all j Hj) as [Ej _].
  rewrite Ei, Ej in E.
  pose proof (Z.div_mod (Z.of_nat i) 8). pose proof (Z.div_mod (Z.of_nat j) 8).
  pose proof (Z.mod_pos_bound (Z.of_nat i) 8). pose proof (Z.mod_pos_bound (Z.of_nat j) 8). lia.
Qed.

Lemma conf_region_addr (i : nat) :
  Z.lor (Z.lor (Z.of_nat (ri_start (REGION_INFO OtpConfiguration))) (Z.of_nat (i / 8) * 0x200))
    (Z.of_nat (i mod 8) * 2) = conf_addr (Z.of_nat i).
Proof.
  assert (Z.of_nat (ri_start (REGION_INFO OtpConfiguration)) = OTP_CONF_OFFSET) as -> by by vm_compute.
  unfold conf_addr. by rewrite Nat2Z.inj_div, Nat2Z.inj_mod.
Qed.

Lemma mask_bit v k : 0 ≤ k → (Z.land v (Z.shiftl 1 k) =? Z.shiftl 1 k) = Z.testbit v k.
Proof.
  intros Hk. rewrite <- (has_flag_bit v k) by done. unfold has_flag.
  assert (Z.land v (Z.shiftl 1 k) = if Z.testbit v k then Z.shiftl 1 k else 0) as ->.
  { apply Z.bits_inj'. intros n Hn. rewrite Z.land_spec, testbit_shiftl_1 by done.
    destruct (Z.eqb_spec n k) as [->|Hne].
    - rewrite andb_true_r. destruct (Z.testbit v k); [|by rewrite Z.testbit_0_l].
      by rewrite testbit_shiftl_1, Z.eqb_refl by done.
    - rewrite andb_false_r. destruct (Z.testbit v k); [|by rewrite Z.testbit_0_l].
      by rewrite testbit_shiftl_1, (proj2 (Z.eqb_neq n k)) by done. }
  assert (Z.shiftl 1 k ≠ 0) as Hnz by (rewrite Z.shiftl_1_l; lia).
  destruct (Z.testbit v k).
  - by rewrite Z.eqb_refl, (proj2 (Z.eqb_neq _ _) Hnz).
  - by rewrite (proj2 (Z.eqb_neq _ _) (not_eq_sym Hnz)).
Qed.

(** ** Programming configuration words *)

Definition conf_wants (i : nat) (conf : list Z) (b n : Z) : Prop :=
  ∃ k w, conf !! k = Some w ∧ b = conf_addr (Z.of_nat (i + k)) ∧ want b w 0 b n.

Definition conf_reachable (i : nat) (conf : list Z) (f : Z → Z) : Prop :=
  ∀ k w, conf !! k = Some w →
    let b := conf_addr (Z.of_nat (i + k)) in reachable b 0 (f b) w.

Section conf.
Context {D : Type} `{SecureLaws D}.
Implicit Types c : OtpController D.

Lemma read_conf_idx_spec i c :
  dwp (otp_read_conf_idx i) (λ r c', kept c c' ∧
    match r with Ok v => v = fz c (conf_addr i) | Err e => e = OtpReadFailed ∧ ¬ prompt (D := D) end) c.
Proof. apply read_conf_spec. Qed.

(** A word programmed and then verified, at an even address. *)
Lemma prog_verified {A} s a w (kerr : OtpError → otp A) (kend : bool → otp A) Q c :
  in_u32 w → 0 ≤ a < 2 ^ 15 → burned a = true → opened (oc_sb c) = true →
  (∀ e c', advances (want a w 0) c c' → ¬ prompt (D := D) → dwp (kerr e) Q c') →
  (∀ pass c', advances (want a w 0) c c' → (pass = true → fz c' a = w) →
     (prompt (D := D) → takes (D := D) → reachable a 0 (fz c a) w → pass = true) →
     dwp (kend pass) Q c') →
  dwp (otp_soak s;; attempt (otp_prog_dw w 0 a) ≫= λ r,
       match r with
       | Err e => kerr e
       | Ok _ => otp_prog_verify_retry a w 0 ≫= kend
       end) Q c.
Proof.
  intros Hw Ha Heven Hop Herr Hend. apply (soak_then _ (want a w 0)). intros c1 Hk1 Hadv1.
  rewrite <- (kept_fuse _ _ Hk1) in Hend. rewrite <- (kept_opened _ _ Hk1) in Hop.
  apply dwp_bind, dwp_attempt. eapply dwp_mono; [by apply otp_prog_dw_spec|].
  intros r c2 [Hadv2 Hr]. assert (advances (want a w 0) c c2) as Hadv by (by etrans).
  destruct r as [[]|e]; [|by apply Herr].
  apply dwp_bind. eapply dwp_mono.
  { apply prog_dw_retry_spec; [done..|destruct Hadv2; congruence|]. right. by apply covers_none_even. }
  intros r c3 [Hadv3 (ok & -> & Hok & Hall)]. apply Hend; [by etrans|..].
  - intros Hp. apply agree_eq; [done|apply fz_range|auto].
  - intros Hp Ht Hre. destruct ok; [done|]. specialize (Hall eq_refl Hp).
    enough (agree 0 w (fz c2 a)) as Hag by (by specialize (Hall Hag)).
    intros n Hn Hg. destruct (decide (Z.testbit w n = burned a)) as [E|E].
    { rewrite E. symmetry. by apply Hr. }
    destruct Hadv2 as [_ _ Hm]. destruct (Hm a n Hn) as [Hf|[(_ & ? & _) _]]; [|done].
    rewrite Hf. specialize (Hre n Hn Hg).
    destruct (Z.testbit w n), (Z.testbit (fz c1 a) n), (burned a); naive_solver.
Qed.

Lemma conf_wants_later i w rest b n : conf_wants (S i) rest b n → conf_wants i (w :: rest) b n.
Proof.
  intros (k & v & Hk & -> & Hw). exists (S k), v. replace (i + S k)%nat with (S i + k)%nat by lia. auto.
Qed.

Lemma conf_wants_now i w rest b n :
  want (conf_addr (Z.of_nat i)) w 0 b n → conf_wants i (w :: rest) b n.
Proof.
  intros (-> & ? & ?). exists 0%nat, w. rewrite Nat.add_0_r. split; [done|]. split; [done|]. by split.
Qed.

Lemma conf_reachable_cons i w rest f :
  conf_reachable i (w :: rest) f ↔
  reachable (conf_addr (Z.of_nat i)) 0 (f (conf_addr (Z.of_nat i))) w ∧ conf_reachable (S i) rest f.
Proof.
  unfold conf_reachable. split.
  - intros Hr. split.
    + specialize (Hr 0%nat w eq_refl). by rewrite Nat.add_0_r in Hr.
    + intros k v Hk. specialize (Hr (S k) v Hk). by replace (i + S k)%nat with (S i + k)%nat in Hr by lia.
  - intros [Hw Hr] [|k] v Hk.
    + injection Hk as <-. by rewrite Nat.add_0_r.
    + replace (i + S k)%nat with (S i + k)%nat by lia. by apply Hr.
Qed.

(** Words already written stay, words still to come are untouched. *)
Lemma conf_wants_apart i rest j n :
  (i + length rest < 32)%nat → (j <= i)%nat → ¬ conf_wants (S i) rest (conf_addr (Z.of_nat j)) n.
Proof.
  intros Hlen Hj (k & v & Hk%lookup_lt_Some & E & _). apply conf_addr_inj in E; lia.
Qed.

Lemma reachable_frame (i : nat) (rest : list Z) (f f' : Z → Z) :
  (∀ k, (k < length rest)%nat → f' (conf_addr (Z.of_nat (S i + k))) = f (conf_addr (Z.of_nat (S i + k)))) →
  conf_reachable (S i) rest f → conf_reachable (S i) rest f'.
Proof. intros E Hr k w Hk. cbn zeta. rewrite E; [by apply Hr|by eapply lookup_lt_Some]. Qed.

Lemma prog_conf_words_spec i conf c :
  Forall in_u32 conf → (i + length conf <= 32)%nat → opened (oc_sb c) = true →
  dwp (prog_conf_words i conf) (λ r c', advances (conf_wants i conf) c c' ∧
    ∃ res pass, r = Ok (res, pass) ∧
      (res = Ok () → pass = true →
         ∀ k w, conf !! k = Some w → fz c' (conf_addr (Z.of_nat (i + k))) = w) ∧
      (prompt (D := D) → takes (D := D) → conf_reachable i conf (fz c) → res = Ok () ∧ pass = true)) c.
Proof.
  revert i c. induction conf as [|w rest IH]; intros i c Hall Hlen Hop; cbn [prog_conf_words].
  { apply dwp_ret. split; [done|]. by exists (Ok ()), true. }
  apply Forall_cons in Hall as [Hw Hall]. cbn [length] in Hlen.
  destruct (conf_addr_all i) as (_ & Hr & Heven); [lia|].
  apply dwp_bind, dwp_attempt. eapply dwp_mono; [apply read_conf_idx_spec|].
  intros r c1 [Hk1 Hread].
  assert (advances (conf_wants i (w :: rest)) c c1) as Hadv1 by (by apply kept_advances).
  destruct r as [v|e]; [subst v|].
  2:{ apply dwp_ret. split; [done|]. exists (Err e), true. split; [done|]. split; [done|].
      intros Hp. by destruct Hread. }
  rewrite conf_region_addr.
  set (a := conf_addr (Z.of_nat i)) in *. rewrite <- (kept_fuse _ _ Hk1).
  rewrite !masked_0 by (done || apply fz_range).
  (* the words that are left, once this one is in place *)
  assert (∀ c2, advances (want a w 0) c1 c2 → fz c2 a = w →
    dwp (prog_conf_words (S i) rest) (λ r c', advances (conf_wants i (w :: rest)) c c' ∧
      ∃ res pass, r = Ok (res, pass) ∧
      (res = Ok () → pass = true →
         ∀ k v, (w :: rest) !! k = Some v → fz c' (conf_addr (Z.of_nat (i + k))) = v) ∧
      (prompt (D := D) → takes (D := D) → conf_reachable i (w :: rest) (fz c1) →
         res = Ok () ∧ pass = true)) c2) as Hrest.
  { intros c2 Hadv2 Hv. eapply dwp_mono; [apply IH; [done|lia|destruct Hadv2, Hk1; congruence]|].
    intros r c3 [Hadv3 (res & pass & -> & Hok & Hall')]. split.
    { etrans; [done|]. etrans; [eapply advances_mono, Hadv2; apply conf_wants_now|].
      eapply advances_mono, Hadv3. apply conf_wants_later. }
    exists res, pass. split; [done|]. split.
    - intros Hres Hpass [|k] v Hk.
      + injection Hk as <-. rewrite Nat.add_0_r. fold a. rewrite <- Hv.
        apply (advances_out _ _ _ _ Hadv3). intros n _. apply conf_wants_apart; lia.
      + replace (i + S k)%nat with (S i + k)%nat by lia. by apply Hok.
    - intros Hp Ht [_ Hre]%conf_reachable_cons. apply Hall'; [done..|].
      eapply reachable_frame, Hre. intros k Hk. apply (advances_out _ _ _ _ Hadv2).
      intros n _ [E%conf_addr_inj _]; lia. }
  destruct (fz c1 a =? w) eqn:E.
  { apply Z.eqb_eq in E. by apply Hrest. }
  apply prog_verified; [done..|destruct Hk1; congruence| |].
  - intros e c2 Hadv2 Hnp. apply dwp_ret. split.
    + etrans; [done|]. eapply advances_mono, Hadv2. apply conf_wants_now.
    + exists (Err e), true. split; [done|]. split; [done|]. intros Hp. by destruct Hnp.
  - intros [] c2 Hadv2 Hv Hpass; [by apply Hrest; auto|]. apply dwp_ret. split.
    + etrans; [done|]. eapply advances_mono, Hadv2. apply conf_wants_now.
    + exists (Ok ()), false. split; [done|]. split; [done|].
      intros Hp Ht [Hre _]%conf_reachable_cons. split; [done|]. by apply Hpass.
Qed.

(** Closing the registers. *)
Lemma lock_reg_then {A} (m : otp A) (Q : result A OtpError → OtpController D → Prop) c :
  (∀ c', fz c' = fz c → opened (oc_sb c') = false → oc_locked c' = oc_locked c → dwp m Q c') →
  dwp (otp_lock_reg;; m) Q c.
Proof.
  intros HQ. unfold otp_lock_reg, sb_wr. dwp_step. dwp_step. apply HQ; cbn [oc_sb oc_locked].
  - unfold fz. by apply wr_fuse.
  - by rewrite wr_key.
  - done.
Qed.

Lemma unlock_reg_then {A} (m : otp A) (Q : result A OtpError → OtpController D → Prop) c :
  (∀ c', fz c' = fz c → opened (oc_sb c') = true → oc_locked c' = oc_locked c → dwp m Q c') →
  dwp (otp_unlock_reg;; m) Q c.
Proof.
  intros HQ. unfold otp_unlock_reg, sb_wr. dwp_step. dwp_step. apply HQ; cbn [oc_sb oc_locked].
  - unfold fz. by apply wr_fuse.
  - by rewrite wr_key.
  - done.
Qed.

(** [otp_prog_conf], on any hardware, as long as the end of the request is a
    [usize]: more words than there are is refused;
    otherwise the registers end closed, only bits the request asks for may be
    burned, success means that every requested word reads as asked, and prompt
    hardware whose fuses take accepts every request that restores no bit. *)
Theorem conf_programmed_or_refused start conf c :
  Forall in_u32 conf → Z.of_nat (length conf) + Z.of_nat start ≤ u32_MAX →
  dwp (otp_prog_conf start conf) (λ r c',
    if (length conf + start <=? 32)%nat then
      opened (oc_sb c') = false ∧ oc_locked c' = oc_locked c ∧
      moves (conf_wants start conf) (fz c) (fz c') ∧
      (r = Ok () → ∀ k w, conf !! k = Some w → fz c' (conf_addr (Z.of_nat (start + k))) = w) ∧
      (prompt (D := D) → takes (D := D) → r = Ok () ↔ conf_reachable start conf (fz c))
    else r = Err OtpBoundaryError ∧ c' = c) c.
Proof.
  intros Hall Hsum. unfold otp_prog_conf.
  dwp_step. apply dwp_guarded; [by apply Z.leb_le|]. dwp_step. dwp_step.
  apply dwp_require; intros Hlen; rewrite Hlen; [|done]. apply Nat.leb_le in Hlen.
  apply unlock_reg_then. intros c1 Hf1 Ho1 Hl1. apply (soak_then _ (λ _ _, False)). intros c2 Hk2 _.
  apply dwp_bind. eapply dwp_mono.
  { apply prog_conf_words_spec; [done|lia|]. destruct Hk2. congruence. }
  intros r c3 [Hadv (res & pass & -> & Hok & Hcomp)].
  assert (fz c2 = fz c) as E2 by (destruct Hk2; congruence). rewrite E2 in Hcomp.
  apply (soak_then _ (λ _ _, False)). intros c4 Hk4 _. apply lock_reg_then. intros c5 Hf5 Ho5 Hl5.
  assert (fz c5 = fz c3) as E5 by (destruct Hk4; congruence).
  assert (oc_locked c5 = oc_locked c) as El by (destruct Hk2, Hk4, Hadv; congruence).
  assert (moves (conf_wants start conf) (fz c) (fz c5)) as Hm.
  { rewrite E5, <- E2. apply Hadv. }
  assert ((∀ k w, conf !! k = Some w → fz c5 (conf_addr (Z.of_nat (start + k))) = w) →
    conf_reachable start conf (fz c)) as Hback.
  { intros Hv k w Hk b n Hn _ Hb. rewrite <- (Hv k w Hk).
    destruct (Hm (conf_addr (Z.of_nat (start + k))) n Hn) as [->|[_ ?]]; done. }
  rewrite <- E5 in Hok. dwp_step. apply dwp_require.
  - intros ->. dwp_step. split; [done|]. split; [done|]. split; [done|]. split; [by auto|].
    intros Hp Ht. split; [by intros ->; auto|]. intros Hre. by apply (Hcomp Hp Ht Hre).
  - intros ->. split; [done|]. split; [done|]. split; [done|]. split; [done|].
    intros Hp Ht. split; [done|]. intros Hre. by destruct (Hcomp Hp Ht Hre).
Qed.

(** ** Locking the memory *)

Definition lock_bit (b n : Z) : Prop := b = OTP_CONF_OFFSET ∧ n = 31.

Lemma lock_mask : OTP_MEM_LOCK_ENABLE = Z.shiftl 1 31.
Proof. done. Qed.

Lemma is_otp_locked_spec c :
  dwp is_otp_locked (λ r c', kept c c' ∧ ∃ b, r = Ok b ∧
    (b = true → Z.testbit (fz c OTP_CONF_OFFSET) 31 = true) ∧
    (prompt (D := D) → b = Z.testbit (fz c OTP_CONF_OFFSET) 31)) c.
Proof.
  unfold is_otp_locked, read_conf0. apply dwp_bind, dwp_bind, dwp_attempt.
  eapply dwp_mono; [apply read_conf_idx_spec|]. change (conf_addr 0) with OTP_CONF_OFFSET.
  intros [v|e] c' [Hk Hr]; dwp_step; dwp_step; (split; [done|]); eexists; (split; [done|]).
  - cbn [unwrap_or]. subst v. rewrite lock_mask, mask_bit by lia. auto.
  - by destruct Hr.
Qed.

Lemma lock_word_wants b n : 0 ≤ n < 32 → want OTP_CONF_OFFSET OTP_MEM_LOCK_ENABLE 0 b n ↔ lock_bit b n.
Proof.
  intros Hn. unfold want, lock_bit. rewrite lock_mask, testbit_shiftl_1, Z.testbit_0_l by lia.
  change (burned OTP_CONF_OFFSET) with true. rewrite Z.eqb_eq. naive_solver.
Qed.

(** [otp_lock_mem], on any hardware, burns at most the lock fuse.  It
    succeeds only with that fuse burned, and then records the memory as locked;
    when it fails the record is as it was.  A locked part is left alone, and prompt hardware whose
    fuses take is always locked. *)
Theorem memory_locked_for_good c :
  dwp otp_lock_mem (λ r c',
    moves lock_bit (fz c) (fz c') ∧
    (r = Ok () → Z.testbit (fz c' OTP_CONF_OFFSET) 31 = true ∧ oc_locked c' = true) ∧
    (r ≠ Ok () → oc_locked c' = oc_locked c) ∧
    (prompt (D := D) → Z.testbit (fz c OTP_CONF_OFFSET) 31 = true → r = Ok () ∧ fz c' = fz c) ∧
    (prompt (D := D) → takes (D := D) → r = Ok ())) c.
Proof.
  unfold otp_lock_mem. apply dwp_bind. eapply dwp_mono; [apply is_otp_locked_spec|].
  intros r c1 [Hk1 (b & -> & Hb & Hpb)]. destruct b.
  { unfold set_locked. dwp_step. change (fz (mkOtp (oc_sb c1) true)) with (fz c1).
    rewrite (kept_fuse _ _ Hk1). split; [apply moves_refl|]. split; [by auto|]. by split. }
  apply unlock_reg_then. intros c2 Hf2 Ho2 Hl2. apply (soak_then _ lock_bit). intros c3 Hk3 _.
  apply dwp_bind. eapply dwp_mono; [apply otp_prog_dw_spec; destruct Hk3; congruence|].
  intros r c4 [[Ho4 Hl4 Hm4] Hr].
  assert (fz c3 = fz c) as E3 by (destruct Hk1, Hk3; congruence).
  assert (oc_locked c4 = oc_locked c) as El by (destruct Hk1, Hk3; congruence).
  assert (moves lock_bit (fz c) (fz c4)) as Hm.
  { rewrite <- E3. intros x n Hn. destruct (Hm4 x n Hn) as [?|[Hw ?]]; [by left|right].
    split; [by apply lock_word_wants|done]. }
  assert (prompt (D := D) → Z.testbit (fz c OTP_CONF_OFFSET) 31 = true → False) as Hnot.
  { intros Hp Hset. specialize (Hpb Hp). congruence. }
  destruct r as [[]|e]; [|split; [done|]; split; [done|]; split; [done|]; split; [|done];
    intros Hp Hset; by destruct Hnot].
  apply (soak_then _ lock_bit). intros c5 Hk5 _. apply lock_reg_then. intros c6 Hf6 Ho6 Hl6.
  apply dwp_bind. eapply dwp_mono; [apply is_otp_locked_spec|].
  intros r c7 [Hk7 (b & -> & Hb7 & Hpb7)].
  assert (fz c7 = fz c4) as E7 by (destruct Hk5, Hk7; congruence).
  assert (fz c6 = fz c4) as E6 by (destruct Hk5, Hk7; congruence).
  dwp_step. apply dwp_require.
  - intros ->. unfold set_locked. dwp_step. change (fz (mkOtp (oc_sb c7) true)) with (fz c7).
    rewrite E7. split; [done|]. rewrite <- E6. split; [by auto|]. split; [done|]. split; [|done].
    intros Hp Hset. by destruct Hnot.
  - intros ->. rewrite E7. split; [done|]. split; [done|].
    split; [intros _; destruct Hk5, Hk7; congruence|]. split; [intros Hp Hset; by destruct Hnot|].
    intros Hp Ht. specialize (Hpb7 Hp). rewrite E6, Hr in Hpb7; [done|done|lia|].
    by apply lock_word_wants.
Qed.
End conf.

(** Two configuration words of a blank part; the second has a bit burned. *)
Lemma conf_programmed_or_refused_witness :
  dwp (otp_prog_conf 7 [0x11; 3]) (λ r c',
    opened (oc_sb c') = false ∧ (r = Ok () → fz c' 0x80e = 0x11 ∧ fz c' 0xa00 = 3))
    (part (slow := false) (λ a, if a =? 0xa00 then 2 else blank_words a) []).
Proof.
  eapply dwp_mono; [apply (conf_programmed_or_refused (D := Fuses false) 7 [0x11; 3]);
    [by repeat constructor|by vm_compute]|].
  intros r c' (Ho & _ & _ & Hw & _). split; [exact Ho|]. intros Hr. specialize (Hw Hr).
  split; [exact (Hw 0%nat _ eq_refl)|exact (Hw 1%nat _ eq_refl)].
Defined.

(** ** Protections that are not *)

(** A second protection: the fuse is burned, the call reports a failed write. *)
Example second_protection_reported_failed :
  match (enable_region_protection OtpConfiguration;; enable_region_protection OtpStrap)
          (part (slow := false) blank_words []) with
  | Some (c', r) => r = Err OtpWriteFailed ∧
      fz c' OTP_CONF_OFFSET = Z.lor OTP_CONF_PROT_ENABLE OTP_STRAP_PROT_ENABLE
  | None => False
  end.
Proof. by vm_compute. Qed.

(** A protection word for OTPCFG29 is compared with OTPCFG28: the call succeeds
    and nothing is written. *)
Example scu_protection_skipped :
  match otp_prog_scu_protect 1 [0xff]
          (part (slow := false) (λ a, if a =? conf_addr 28 then 0xff else blank_words a) []) with
  | Some (c', r) => r = Ok () ∧ fz c' (conf_addr 29) = 0
  | None => False
  end.
Proof. by vm_compute. Qed.

(** The protection of the keys and of the configuration is never reported. *)
Example protection_not_reported :
  match update_prot_info
          (mkSession UnknownVersion "" (mkProtection false false false false false false 0) "" 0 0)
          (part (slow := false) (λ a, if a =? OTP_CONF_OFFSET then u32_MAX else blank_words a) []) with
  | Some (_, Ok s) =>
      ps_memory_locked (si_protection_status s) = true ∧
      ps_key_protected (si_protection_status s) = false ∧
      ps_config_protected (si_protection_status s) = false
  | _ => False
  end.
Proof. by vm_compute. Qed.
