(* ===== verification/OtpStraps.v ===== *)
(** * Straps

    Sixty-four boot straps, each the exclusive or of six fuses that are burned in
    order, so that a strap can be flipped six times.  [otp_strap_status] reads
    where each strap stands, [otp_prog_strap] flips the ones that differ from a
    request, all or nothing as far as it can tell beforehand. *)

From S2P Require Import Prelude Bytes RegMonad Spim SpimRun Soc SocRun Otp OtpRun OtpProg OtpData OtpConf.
From stdpp Require Import base tactics option list numbers sets.
Local Open Scope Z_scope.

(** ** What the fuses say *)

(** The configuration word of option [k] of strap [j], and its fuse. *)
Definition opt_word (j k : nat) : nat := 16 + 2 * k + (if (j <? 32)%nat then 0 else 1).
Definition opt_addr (j k : nat) : Z := conf_addr (Z.of_nat (opt_word j k)).
Definition fuse_bit (f : Z → Z) (a : Z) (j : nat) : bool := Z.testbit (f a) (Z.of_nat (j mod 32)).
Definition opt_bit (f : Z → Z) (j k : nat) : bool := fuse_bit f (opt_addr j k) j.

Definition options : list nat := seq 0 6.
Definition strap_value (f : Z → Z) (j : nat) : bool := foldr xorb false (opt_bit f j <$> options).
Definition strap_burned (f : Z → Z) (j : nat) : nat := length (filter (λ k, opt_bit f j k = true) options).
Definition free_option (f : Z → Z) (j : nat) : option nat := find (λ k, negb (opt_bit f j k)) options.
Definition strap_protected (f : Z → Z) (j : nat) : bool := fuse_bit f (conf_addr (if (j <? 32)%nat then 30 else 31)) j.

(** The status of strap [j], which had status [s]. *)
Definition status_of (f : Z → Z) (j : nat) (s : StrapStatus) : StrapStatus :=
  mkStrap (strap_value f j)
    (foldl (λ os k, <[k := Z.b2z (opt_bit f j k)]> os) (ss_options s) options)
    (6 - Z.of_nat (strap_burned f j))
    (from_option Z.of_nat 0xff (free_option f j))
    (strap_protected f j).

(** ** Reading the straps *)

Lemma each_strap_lookup g os j :
  (j < 64)%nat → each_strap g os !! j = g j <$> os !! j.
Proof.
  intros Hj. unfold each_strap. rewrite list_lookup_imap. apply option_fmap_ext. intros s.
  by rewrite (proj2 (Nat.ltb_lt _ _) Hj).
Qed.

Lemma each_strap_length g os : length (each_strap g os) = length os.
Proof. apply length_imap. Qed.

Lemma each_strap_ext g h os :
  (∀ j s, (j < 64)%nat → g j s = h j s) → each_strap g os = each_strap h os.
Proof.
  intros E. apply imap_ext. intros j s _. destruct (Nat.ltb_spec j 64) as [Hj|]; [by apply E|done].
Qed.

Lemma each_strap_compose g h os :
  each_strap g (each_strap h os) = each_strap (λ j s, g j (h j s)) os.
Proof.
  unfold each_strap. apply list_eq. intros j. rewrite !list_lookup_imap.
  destruct (os !! j) as [s|]; [|done]. cbn [fmap option_fmap option_map].
  by destruct (j <? 64)%nat.
Qed.

Lemma row_bit_fuse f i j :
  (j < 64)%nat →
  row_bit (f (conf_addr i), f (conf_addr (i + 1))) j =
  Z.b2z (fuse_bit f (conf_addr (if (j <? 32)%nat then i else i + 1)) j).
Proof.
  intros Hj. unfold row_bit, fuse_bit. cbn [fst snd].
  destruct (Nat.ltb_spec j 32); rewrite bit_at_testbit.
  - by rewrite Nat.mod_small.
  - replace (j mod 32)%nat with (j - 32)%nat; [done|].
    replace j with (j - 32 + 1 * 32)%nat at 2 by lia. by rewrite Nat.Div0.mod_add, Nat.mod_small by lia.
Qed.

Lemma row_bit_option f k j :
  (j < 64)%nat →
  row_bit (f (conf_addr (16 + 2 * Z.of_nat k)), f (conf_addr (16 + 2 * Z.of_nat k + 1))) j =
  Z.b2z (opt_bit f j k).
Proof.
  intros Hj. rewrite row_bit_fuse by done. unfold opt_bit, opt_addr, opt_word.
  do 3 f_equal. by destruct (j <? 32)%nat; lia.
Qed.

(** The option words counted one after the other. *)
Definition count_options (f : Z → Z) (ks : list nat) (j : nat) (s : StrapStatus) : StrapStatus :=
  foldl (λ s k, strap_count (Z.of_nat k) (Z.b2z (opt_bit f j k)) s) s ks.

Definition row_protect (prot : bool) (s : StrapStatus) : StrapStatus :=
  if prot then mkStrap (ss_value s) (ss_options s) (ss_remaining_writes s) (ss_writable_option s) true
  else s.

Lemma count_options_status f j s :
  row_protect (strap_protected f j) (count_options f options j (strap_reset s)) = status_of f j s.
Proof.
  unfold count_options, status_of, strap_value, strap_burned, free_option, options. cbn.
  generalize (opt_bit f j 0) (opt_bit f j 1) (opt_bit f j 2) (opt_bit f j 3) (opt_bit f j 4)
    (opt_bit f j 5) (strap_protected f j). intros [] [] [] [] [] [] []; reflexivity.
Qed.

(** ** Which straps change *)

Definition strap_changes (f : Z → Z) (start : nat) (strap : list Z) (j : nat) : bool :=
  (j <? 64)%nat && negb (strap_target_bit strap start j =? Z.b2z (strap_value f j)).

Definition changing (f : Z → Z) (start : nat) (strap : list Z) : list nat :=
  filter (λ j, strap_changes f start strap j = true) (seq start (64 - start)).

(** What stands in the way of a request. *)
Definition preflight (f : Z → Z) (start : nat) (strap : list Z) : result unit OtpError :=
  if (63 <? start)%nat then Err OtpInvalidAddress
  else if existsb (strap_protected f) (changing f start strap) then Err OtpRegionProtected
  else if existsb (λ j, strap_burned f j =? 6)%nat (changing f start strap) then Err OtpWriteExhausted
  else Ok ().

(** The fuses a request burns: the free option of each strap that changes. *)
Definition strap_wants (f : Z → Z) (l : list nat) (b n : Z) : Prop :=
  ∃ j k, j ∈ l ∧ free_option f j = Some k ∧ b = opt_addr j k ∧ n = Z.of_nat (j mod 32).

Lemma elem_of_changing f start strap j :
  (start <= 63)%nat →
  j ∈ changing f start strap ↔ (start <= j < 64)%nat ∧ strap_changes f start strap j = true.
Proof. intros Hs. unfold changing. rewrite list_elem_of_filter, elem_of_seq. split; intros [? ?]; split; auto; lia. Qed.

Lemma count_none {A} (P : A → Prop) `{∀ x, Decision (P x)} (p : A → bool) (l : list A) :
  (∀ x, x ∈ l → P x ↔ p x = true) → (length (filter P l) =? 0)%nat = negb (existsb p l).
Proof.
  induction l as [|x l IH]; intros HP; [done|]. rewrite filter_cons. cbn [existsb].
  assert (∀ y, y ∈ l → P y ↔ p y = true) as Hl by (intros y Hy; apply HP; by right).
  specialize (HP x (list_elem_of_here _ _)).
  case_decide as Hx.
  - by rewrite (proj1 HP Hx).
  - destruct (p x); [by destruct Hx; apply HP|]. by rewrite IH.
Qed.

Lemma free_option_spec f j k :
  free_option f j = Some k → (k < 6)%nat ∧ opt_bit f j k = false.
Proof.
  unfold free_option. intros [Hin Hb]%find_some. split; [apply in_seq in Hin; lia|].
  by apply negb_true_iff.
Qed.

Lemma free_option_some f j : strap_burned f j ≠ 6%nat → ∃ k, free_option f j = Some k.
Proof.
  unfold free_option, strap_burned, options. cbn.
  generalize (opt_bit f j 0) (opt_bit f j 1) (opt_bit f j 2) (opt_bit f j 3) (opt_bit f j 4)
    (opt_bit f j 5). intros [] [] [] [] [] [] Hb; cbn in *; eauto. done.
Qed.

Lemma strap_burned_le f j : (strap_burned f j <= 6)%nat.
Proof. unfold strap_burned. etrans; [apply length_filter|done]. Qed.

Lemma strap_value_same f f' j :
  (∀ k, (k < 6)%nat → opt_bit f' j k = opt_bit f j k) → strap_value f' j = strap_value f j.
Proof.
  intros E. unfold strap_value. f_equal. apply list_fmap_ext. intros i k Hk.
  apply list_elem_of_lookup_2, elem_of_seq in Hk. apply E. lia.
Qed.

(** Burning the free option of a strap flips it. *)
Lemma strap_value_flips f f' j k :
  free_option f j = Some k → opt_bit f' j k = true →
  (∀ i, (i < 6)%nat → i ≠ k → opt_bit f' j i = opt_bit f j i) →
  strap_value f' j = negb (strap_value f j).
Proof.
  intros [Hk Hf]%free_option_spec Ht Hsame. unfold strap_value, options. cbn.
  do 6 (destruct k as [|k];
    [rewrite Ht, Hf, ?Hsame by lia;
     by repeat match goal with |- context [opt_bit f j ?i] => destruct (opt_bit f j i) end|]).
  lia.
Qed.

Lemma opt_word_lt j k : (k < 6)%nat → (opt_word j k < 32)%nat.
Proof. unfold opt_word. destruct (j <? 32)%nat; lia. Qed.

(** Different straps have different fuses. *)
Lemma opt_addr_inj j k j' k' :
  (j < 64)%nat → (j' < 64)%nat → (k < 6)%nat → (k' < 6)%nat →
  opt_addr j k = opt_addr j' k' → (j mod 32 = j' mod 32)%nat → j = j' ∧ k = k'.
Proof.
  intros Hj Hj' Hk Hk' E Hm. apply conf_addr_inj in E; [|by apply opt_word_lt..].
  unfold opt_word in E. pose proof (Nat.div_mod_eq j 32). pose proof (Nat.div_mod_eq j' 32).
  assert ((j / 32 < 2)%nat ∧ (j' / 32 < 2)%nat) as [? ?] by (split; apply Nat.Div0.div_lt_upper_bound; lia).
  assert ((j mod 32 < 32)%nat) by (by apply Nat.mod_upper_bound).
  destruct (Nat.ltb_spec j 32), (Nat.ltb_spec j' 32); lia.
Qed.

Section straps.
Context {D : Type} `{SecureLaws D}.
Implicit Types c : OtpController D.

(** Both words of a row. *)
Lemma read_row {A} i (k : Z → Z → otp A) (Q : result A OtpError → OtpController D → Prop) c :
  (∀ c', kept c c' → dwp (k (fz c (conf_addr i)) (fz c (conf_addr (i + 1)))) Q c') →
  (∀ c', kept c c' → ¬ prompt (D := D) → Q (Err OtpReadFailed) c') →
  dwp (raw0 ← otp_read_conf_idx i; raw1 ← otp_read_conf_idx (i + 1); k raw0 raw1) Q c.
Proof.
  intros Hk He. apply dwp_bind. eapply dwp_mono; [apply read_conf_idx_spec|].
  intros [v|e] c1 [K1 Hr]; [subst v|destruct Hr as [-> ?]; by apply He].
  apply dwp_bind. eapply dwp_mono; [apply read_conf_idx_spec|].
  intros [v|e] c2 [K2 Hr]; [subst v|destruct Hr as [-> ?]; apply He; [by etrans|done]].
  rewrite (kept_fuse _ _ K1). apply Hk. by etrans.
Qed.

Lemma strap_rows_spec ks os c :
  dwp (strap_rows ((λ k, 16 + 2 * Z.of_nat k) <$> ks) os) (λ r c', kept c c' ∧
    match r with
    | Ok os' => os' = each_strap (count_options (fz c) ks) os
    | Err e => e = OtpReadFailed ∧ ¬ prompt (D := D)
    end) c.
Proof.
  revert os c. induction ks as [|k ks IH]; intros os c; cbn [strap_rows fmap list_fmap].
  { apply dwp_ret. split; [done|]. apply list_eq. intros j. unfold each_strap.
    rewrite list_lookup_imap. destruct (os !! j); [|done]. cbn [fmap option_fmap option_map].
    by destruct (j <? 64)%nat. }
  apply read_row; [|by auto]. intros c1 K1.
  replace ((16 + 2 * Z.of_nat k - 16) / 2) with (Z.of_nat k)
    by (replace (16 + 2 * Z.of_nat k - 16) with (Z.of_nat k * 2) by lia; by rewrite Z.div_mul).
  eapply dwp_mono; [apply IH|]. intros r c2 [K2 Hr]. split; [by etrans|].
  destruct r as [os'|e]; [|done]. rewrite Hr, each_strap_compose, (kept_fuse _ _ K1).
  apply each_strap_ext. intros j s Hj. cbn [count_options foldl]. by rewrite row_bit_option.
Qed.

Lemma strap_status_spec os c :
  (64 <= length os)%nat →
  dwp (otp_strap_status os) (λ r c', kept c c' ∧
    match r with
    | Ok os' => os' = each_strap (status_of (fz c)) os
    | Err e => e = OtpReadFailed ∧ ¬ prompt (D := D)
    end) c.
Proof.
  intros Hlen. unfold otp_strap_status. rewrite (proj2 (Nat.leb_le _ _) Hlen). cbn [require]. dwp_step.
  dwp_step. apply (soak_then _ (λ _ _, False)). intros c1 K1 _. apply dwp_bind.
  change [16; 18; 20; 22; 24; 26] with ((λ k, 16 + 2 * Z.of_nat k) <$> options).
  eapply dwp_mono; [apply strap_rows_spec|]. intros [os'|e] c2 [K2 Hr]; [subst os'|split; [by etrans|done]].
  apply (read_row 30).
  2:{ intros c3 K3 Hn. split; [by do 2 (etrans; [done|])|done]. }
  intros c3 K3. apply dwp_ret. split; [by do 2 (etrans; [done|])|].
  rewrite !each_strap_compose, (kept_fuse _ _ K2), (kept_fuse _ _ K1). apply each_strap_ext.
  intros j s Hj. rewrite row_bit_fuse by done. rewrite <- count_options_status. unfold row_protect, strap_protected.
  change (30 + 1) with 31. by destruct (fuse_bit _ _ _).
Qed.

(** [otp_strap_status] reads the straps without burning anything: a slice of
    fewer than 64 entries is refused, otherwise each of the first 64 is the exclusive or of its six
    fuses, with the flips left, the first fuse not burned and the protection. *)
Theorem strap_status_reads_fuses os c :
  dwp (otp_strap_status os) (λ r c', kept c c' ∧
    match r with
    | Ok os' => length os' = length os ∧
        ∀ j, (j < 64)%nat → os' !! j = status_of (fz c) j <$> os !! j
    | Err e =>
        if (64 <=? length os)%nat then e = OtpReadFailed ∧ ¬ prompt (D := D) else e = OtpInvalidBufSize
    end) c.
Proof.
  destruct (64 <=? length os)%nat eqn:E.
  - eapply dwp_mono; [apply strap_status_spec; by apply Nat.leb_le|].
    intros [os'|e] c' [K Hr]; (split; [done|]); [subst os'|done].
    split; [apply each_strap_length|]. intros j Hj. by apply each_strap_lookup.
  - unfold otp_strap_status. rewrite E. dwp_step. done.
Qed.

(** ** Burning one fuse *)

Section one_bit.
Context (a : Z) (k : nat) (Heven : burned a = true) (Hk : (k < 32)%nat).

Definition this_bit (b n : Z) : Prop := b = a ∧ n = Z.of_nat k.
Definition is_set (f : Z → Z) : Prop := Z.testbit (f a) (Z.of_nat k) = true.

Lemma is_set_advances W c c' : advances W c c' → is_set (fz c) → is_set (fz c').
Proof.
  intros [_ _ Hm] Hs. unfold is_set. destruct (Hm a (Z.of_nat k)) as [->|[_ ->]]; [lia|done|done].
Qed.

Lemma verify_bit_spec c :
  dwp (verify_bit 1 a (Z.of_nat k)) (λ r c', kept c c' ∧
    match r with Ok _ => is_set (fz c) | Err _ => prompt (D := D) → ¬ is_set (fz c) end) c.
Proof.
  unfold verify_bit. fold (burned a). rewrite Heven. apply dwp_bind.
  eapply dwp_mono; [apply read_pair_spec|]. intros [[x y]|e] c' [K Hr].
  2:{ split; [done|]. by destruct Hr. }
  injection Hr as -> ->. fold (bit_at (fz c a) k). rewrite bit_at_1. unfold is_set.
  apply dwp_require; intros ->; by split.
Qed.

Lemma bit_helper_spec c :
  opened (oc_sb c) = true →
  dwp (otp_prog_bit_helper 1 a (Z.of_nat k)) (λ r c', advances this_bit c c' ∧
    match r with Ok _ => takes (D := D) → is_set (fz c') | Err _ => ¬ prompt (D := D) end) c.
Proof.
  intros Hop. unfold otp_prog_bit_helper. fold (burned a). rewrite Heven.
  change (negb (1 =? 0)) with true. cbn iota.
  assert (negb (not_u32 (Z.shiftl 1 (Z.of_nat k)) =? 0) = true) as ->.
  { apply negb_true_iff, Z.eqb_neq. intros E.
    assert (Z.testbit (not_u32 (Z.shiftl 1 (Z.of_nat k))) (if decide (k = 0%nat) then 1 else 0) = false)
      as Hb by (by rewrite E, Z.testbit_0_l).
    destruct (decide (k = 0%nat)); rewrite testbit_not_u32, testbit_shiftl_1 in Hb by lia;
      apply negb_false_iff, Z.eqb_eq in Hb; lia. }
  cbn iota. pose proof (prog_bit_advances a (Z.of_nat k) c Hop) as Hb.
  unfold prog_word in Hb. rewrite Heven in Hb. apply Hb. lia.
Qed.

Lemma prog_bit_retry_spec n c :
  opened (oc_sb c) = true →
  dwp (prog_bit_retry n 1 a (Z.of_nat k)) (λ r c', advances this_bit c c' ∧
    match r with
    | Ok ok => (ok = true → is_set (fz c')) ∧
        (prompt (D := D) → is_set (fz c) → (0 < n)%nat → ok = true)
    | Err _ => ¬ prompt (D := D)
    end) c.
Proof.
  revert c. induction n as [|n IH]; intros c Hop; cbn [prog_bit_retry].
  { apply dwp_ret. split; [done|]. split; [done|]. lia. }
  apply dwp_bind, dwp_attempt. eapply dwp_mono; [apply verify_bit_spec|].
  intros [[]|e] c1 [K1 Hv1]; pose proof (kept_advances this_bit _ _ K1) as A1.
  { apply dwp_ret. split; [done|]. split; [|done]. intros _. by eapply is_set_advances. }
  apply (soak_then _ this_bit). intros c2 K2 A2. apply dwp_bind.
  eapply dwp_mono; [apply bit_helper_spec; destruct K1, K2; congruence|]. intros r c3 [A3 Hr3].
  assert (advances this_bit c c3) as A13 by (by do 2 (etrans; [done|])).
  destruct r as [[]|e']; [|by split]. apply dwp_bind, dwp_attempt.
  eapply dwp_mono; [apply verify_bit_spec|]. intros [[]|e'] c4 [K4 Hv4];
    (assert (advances this_bit c c4) as A4 by (etrans; [done|by apply kept_advances])).
  - apply (soak_then _ this_bit). intros c5 K5 A5.
    eapply dwp_mono; [apply IH; destruct A4, K5; congruence|]. intros r c6 [A6 Hr6].
    split; [by do 2 (etrans; [done|])|]. destruct r as [ok|e']; [|done]. split; [apply Hr6|].
    intros Hp Hs. by destruct (Hv1 Hp).
  - apply dwp_ret. split; [done|]. split; [done|]. intros Hp Hs. by destruct (Hv1 Hp).
Qed.

Lemma prog_dc_b_spec c :
  opened (oc_sb c) = true →
  dwp (otp_prog_dc_b 1 a (Z.of_nat k)) (λ r c', advances this_bit c c' ∧
    match r with
    | Ok _ => is_set (fz c')
    | Err _ => prompt (D := D) → takes (D := D) → False
    end) c.
Proof.
  intros Hop. unfold otp_prog_dc_b. apply (soak_then _ this_bit). intros c1 K1 A1. apply dwp_bind.
  eapply dwp_mono; [apply bit_helper_spec; destruct K1; congruence|]. intros r c2 [A2 Hr2].
  assert (advances this_bit c c2) as A12 by (by etrans).
  destruct r as [[]|e]; [|split; [done|by intros ?]]. apply dwp_bind.
  eapply dwp_mono; [apply prog_bit_retry_spec; destruct A12; congruence|]. intros r c3 [A3 Hr3].
  assert (advances this_bit c c3) as A13 by (by etrans).
  destruct r as [ok|e]; [|split; [done|by intros ?]]. apply dwp_require; intros ->.
  - split; [done|]. by apply Hr3.
  - split; [done|]. intros Hp Ht. destruct Hr3 as [_ Hr3].
    assert (false = true) by (apply Hr3; [done|by apply Hr2|unfold OTP_OP_RETRIES; lia]). done.
Qed.
End one_bit.

(** ** Burning the straps that change *)

Definition strap_step (f : Z → Z) (i : nat) : otp unit :=
  let s := status_of f i blank_strap in
  otp_prog_dc_b 1
    (conf_addr (if (i <? 32)%nat then ss_writable_option s * 2 + 16 else ss_writable_option s * 2 + 17))
    (Z.of_nat (i mod 32)).

Lemma strap_step_spec f i k c :
  free_option f i = Some k → opened (oc_sb c) = true →
  dwp (strap_step f i) (λ r c', advances (strap_wants f [i]) c c' ∧
    match r with
    | Ok _ => opt_bit (fz c') i k = true
    | Err _ => prompt (D := D) → takes (D := D) → False
    end) c.
Proof.
  intros Hk Hop. unfold strap_step, status_of. cbn [ss_writable_option]. rewrite Hk. cbn [from_option].
  assert (conf_addr (if (i <? 32)%nat then Z.of_nat k * 2 + 16 else Z.of_nat k * 2 + 17) = opt_addr i k) as ->.
  { unfold opt_addr, opt_word. f_equal. destruct (i <? 32)%nat; lia. }
  apply free_option_spec in Hk as Hk6.
  destruct (conf_addr_all (opt_word i k)) as (_ & _ & Heven); [apply opt_word_lt, Hk6|].
  eapply dwp_mono; [apply prog_dc_b_spec; [exact Heven|by apply Nat.mod_upper_bound|done]|].
  intros r c' [Hadv Hr]. split; [|exact Hr]. eapply advances_mono, Hadv.
  intros b n [-> ->]. exists i, k. split; [by apply list_elem_of_singleton|done].
Qed.

Lemma strap_loop_spec f l c :
  opened (oc_sb c) = true → (∀ i, i ∈ l → ∃ k, free_option f i = Some k) → Forall (λ i, i < 64)%nat l →
  dwp (drv_for l (strap_step f)) (λ r c', advances (strap_wants f l) c c' ∧
    match r with
    | Ok _ => ∀ i k, i ∈ l → free_option f i = Some k → opt_bit (fz c') i k = true
    | Err _ => prompt (D := D) → takes (D := D) → False
    end) c.
Proof.
  intros Hop Hfree Hlt.
  apply (dwp_for (λ d c', advances (strap_wants f l) c c' ∧
    ∀ i k, i ∈ d → free_option f i = Some k → opt_bit (fz c') i k = true)).
  - split; [done|]. intros i k Hi. by apply elem_of_nil in Hi.
  - intros d i rest c1 Hl [A1 Hd]. assert (i ∈ l) as Hi by (rewrite Hl; apply elem_of_app; right; left).
    destruct (Hfree i Hi) as [k Hk].
    eapply dwp_mono; [apply (strap_step_spec f i k); [done|destruct A1; congruence]|].
    intros r c2 [A2 Hr].
    assert (advances (strap_wants f l) c c2) as A12.
    { etrans; [done|]. eapply advances_mono, A2.
      intros b n (j & k' & ->%list_elem_of_singleton & Hw). by exists i, k'. }
    destruct r as [[]|e]; [|done]. split; [done|]. intros j k' Hj Hk'.
    apply elem_of_app in Hj as [Hj| ->%list_elem_of_singleton]; [|congruence].
    destruct (conf_addr_all (opt_word j k')) as (_ & _ & Heven);
      [apply opt_word_lt, (free_option_spec f j k' Hk')|].
    apply (is_set_advances (opt_addr j k') (j mod 32)) with (W := strap_wants f [i]) (c := c1); auto.
    + by apply Nat.mod_upper_bound.
    + by apply Hd.
  - intros c' HI. exact HI.
Qed.

(** What a finished loop did to the straps. *)
Lemma burned_straps f l c' j :
  Forall (λ i, i < 64)%nat l → (j < 64)%nat →
  moves (strap_wants f l) f (fz c') →
  (∀ i, i ∈ l → ∃ k, free_option f i = Some k) →
  (∀ i k, i ∈ l → free_option f i = Some k → opt_bit (fz c') i k = true) →
  strap_value (fz c') j = if bool_decide (j ∈ l) then negb (strap_value f j) else strap_value f j.
Proof.
  intros Hl Hj Hm Hfree Hset.
  assert (∀ k, (k < 6)%nat → ¬ (j ∈ l ∧ free_option f j = Some k) → opt_bit (fz c') j k = opt_bit f j k) as Hsame.
  { intros k Hk Hno. unfold opt_bit, fuse_bit.
    destruct (Hm (opt_addr j k) (Z.of_nat (j mod 32))) as [?|[(i & k' & Hi & Hk' & Ea & En) _]]; [|done|].
    { assert (j mod 32 < 32)%nat by (by apply Nat.mod_upper_bound). lia. }
    rewrite Forall_forall in Hl. apply Hl in Hi as Hi64. apply free_option_spec in Hk' as Hk6.
    destruct (opt_addr_inj j k i k') as [-> ->]; [done|done|done|apply Hk6|done|lia|].
    by destruct Hno. }
  case_bool_decide as Hin.
  - destruct (Hfree j Hin) as [k Hk]. eapply strap_value_flips; [done|by apply Hset|].
    intros i Hi Hne. apply Hsame; [done|]. intros [_ ?]. congruence.
  - apply strap_value_same. intros k Hk. apply Hsame; [done|]. by intros [? _].
Qed.

Lemma drv_for_ext {A} (l : list A) (g h : A → otp unit) (c : OtpController D) :
  (∀ x, x ∈ l → g x = h x) → drv_for l g c = drv_for l h c.
Proof.
  revert c. induction l as [|x l IH]; intros c E; [done|]. cbn [drv_for]. unfold mbind, drv_bind.
  rewrite (E x) by left. destruct (h x c) as [[c' [[]|]]|]; [|done..].
  apply IH. intros y Hy. apply E. by right.
Qed.

Lemma blank_status f i :
  (i < 64)%nat →
  each_strap (status_of f) (replicate 64 blank_strap) !! i = Some (status_of f i blank_strap).
Proof. intros Hi. by rewrite each_strap_lookup, lookup_replicate_2. Qed.

Lemma strap_differs_changes f strap start i :
  strap_differs (each_strap (status_of f) (replicate 64 blank_strap)) strap start i =
  strap_changes f start strap i.
Proof.
  unfold strap_differs, strap_changes. destruct (Nat.ltb_spec i 64) as [Hi|Hi].
  - by rewrite blank_status.
  - by rewrite (proj2 (lookup_ge_None _ _)) by (by rewrite each_strap_length, length_replicate).
Qed.

(** The straps after a request that went through. *)
Definition straps_as_asked (f f' : Z → Z) (start : nat) (strap : list Z) : Prop :=
  ∀ j, (j < 64)%nat →
    strap_value f' j = if (start <=? j)%nat then strap_target_bit strap start j =? 1 else strap_value f j.

Lemma target_bool strap start j b :
  (strap_target_bit strap start j =? Z.b2z b) = Bool.eqb (strap_target_bit strap start j =? 1) b.
Proof.
  unfold strap_target_bit. destruct (_ <? _)%nat; cbn iota beta; rewrite bit_at_testbit;
    by destruct (Z.testbit _ _), b.
Qed.

Lemma burned_as_asked f c' start strap :
  (start <= 63)%nat → let l := changing f start strap in
  moves (strap_wants f l) f (fz c') →
  (∀ i, i ∈ l → ∃ k, free_option f i = Some k) →
  (∀ i k, i ∈ l → free_option f i = Some k → opt_bit (fz c') i k = true) →
  straps_as_asked f (fz c') start strap.
Proof.
  intros Hs l Hm Hfree Hset j Hj.
  rewrite (burned_straps f l c' j) by (done || (apply Forall_forall; intros i Hi%elem_of_changing; [lia|done])).
  assert (j ∈ l ↔ (start <= j)%nat ∧ (strap_target_bit strap start j =? 1) ≠ strap_value f j) as Hin.
  { unfold l. rewrite elem_of_changing by done. unfold strap_changes.
    rewrite (proj2 (Nat.ltb_lt _ _) Hj), target_bool. cbn [andb].
    rewrite negb_true_iff, eqb_false_iff. naive_solver lia. }
  case_bool_decide as E; destruct (Nat.leb_spec start j) as [Hle|Hgt].
  - apply Hin in E as [_ Hne]. by destruct (strap_target_bit _ _ _ =? 1), (strap_value f j).
  - apply Hin in E as [? _]. lia.
  - destruct (decide ((strap_target_bit strap start j =? 1) = strap_value f j)); [done|].
    by destruct E; apply Hin.
  - done.
Qed.

(** C10: With the OTP registers already open (the call does not open them itself),
    [otp_prog_strap] decides beforehand: a request that a protected or exhausted
    strap stands in the way of burns nothing.  Otherwise at most the free fuse of
    each strap that changes is burned; success means that every strap from
    [start_bit] on has the requested value (words the request lacks are zeros) and
    the straps below keep theirs, and prompt hardware whose fuses take always
    succeeds. *)
Theorem straps_flipped_or_refused start_bit strap c :
  opened (oc_sb c) = true →
  dwp (otp_prog_strap start_bit strap) (λ r c',
    match preflight (fz c) start_bit strap with
    | Err e => fz c' = fz c ∧ (r = Err e ∨ r = Err OtpReadFailed ∧ ¬ prompt (D := D))
    | Ok _ =>
        moves (strap_wants (fz c) (changing (fz c) start_bit strap)) (fz c) (fz c') ∧
        (r = Ok () → straps_as_asked (fz c) (fz c') start_bit strap) ∧
        (prompt (D := D) → takes (D := D) → r = Ok ())
    end) c.
Proof.
  intros Hop. unfold otp_prog_strap, preflight. set (f := fz c). rewrite (Nat.ltb_antisym start_bit 63).
  dwp_step. apply dwp_require; intros Hs; rewrite Hs; cbn [negb]; [|by auto]. apply Nat.leb_le in Hs.
  apply dwp_bind. eapply dwp_mono; [by apply strap_status_spec|]. intros [os|e] c1 [K1 Hr]; fold f in Hr.
  2:{ destruct Hr as [-> Hn]. rewrite (kept_fuse _ _ K1). fold f. destruct (existsb _ _); [by auto|].
      destruct (existsb _ _); [by auto|]. split; [apply moves_refl|]. split; [done|].
      intros Hp. by destruct Hn. }
  subst os. set (os := each_strap _ _).
  assert (filter (λ i, strap_differs os strap start_bit i = true) (seq start_bit (64 - start_bit)) =
    changing f start_bit strap) as ->.
  { apply list_filter_iff. intros i. unfold os. by rewrite strap_differs_changes. }
  set (l := changing f start_bit strap).
  assert (∀ i, i ∈ l → (i < 64)%nat ∧ default blank_strap (os !! i) = status_of f i blank_strap) as Hst.
  { intros i Hi%elem_of_changing; [|done]. split; [lia|]. unfold os. by rewrite blank_status by lia. }
  rewrite (count_none (λ i, ss_protected (default blank_strap (os !! i)) = true) (strap_protected f)) by (intros i Hi; rewrite (proj2 (Hst i Hi)); reflexivity).
  dwp_step. apply dwp_require; intros Hprot; [apply negb_true_iff in Hprot|apply negb_false_iff in Hprot];
    rewrite Hprot; [|rewrite (kept_fuse _ _ K1); by auto].
  rewrite (count_none _ (λ j, strap_burned f j =? 6)%nat).
  2:{ intros i Hi. rewrite (proj2 (Hst i Hi)), Nat.eqb_eq. cbn [status_of ss_protected ss_remaining_writes].
      pose proof (strap_burned_le f i).
      assert (strap_protected f i = false) as ->; [|lia]. apply not_true_iff_false. intros Hp.
      apply not_true_iff_false in Hprot. apply Hprot. apply existsb_exists. exists i.
      split; [by apply list_elem_of_In|done]. }
  dwp_step. apply dwp_require; intros Hfree; [apply negb_true_iff in Hfree|apply negb_false_iff in Hfree];
    rewrite Hfree; [|rewrite (kept_fuse _ _ K1); by auto].
  assert (∀ i, i ∈ l → ∃ k, free_option f i = Some k) as Hopt.
  { intros i Hi. apply free_option_some. intros E. apply not_true_iff_false in Hfree. apply Hfree.
    apply existsb_exists. exists i. split; [by apply list_elem_of_In|by apply Nat.eqb_eq]. }
  apply dwp_bind. unfold dwp at 1. rewrite (drv_for_ext l _ (strap_step f)).
  2:{ intros i Hi. unfold strap_step. by rewrite (proj2 (Hst i Hi)). }
  eapply dwp_mono; [apply (strap_loop_spec f l); [destruct K1; congruence|done|]|].
  { apply Forall_forall. intros i Hi. by apply Hst. }
  intros r c2 [A2 Hr]. assert (moves (strap_wants f l) f (fz c2)) as Hm.
  { destruct A2 as [_ _ Hm2]. by rewrite (kept_fuse _ _ K1) in Hm2. }
  destruct r as [[]|e]; [|split; [done|]; split; [done|]; intros Hp Ht; by destruct Hr].
  eapply dwp_mono; [apply otp_soak_spec|]. intros r c3 [-> K3].
  assert (fz c3 = fz c2) as E3 by apply K3. rewrite E3. split; [done|]. split; [|done]. intros _.
  by apply burned_as_asked.
Qed.
End straps.

(** A part with its registers open. *)
Definition open_part (m : Z → Z) : OtpController (Fuses false) :=
  mkOtp (mkFuses m true 0 0 None [] true ID0_AST1060A2) false.

(** Straps 30 and 32 of a part where strap 30 was set and cleared before. *)
Lemma straps_flipped_or_refused_witness :
  dwp (otp_prog_strap 30 [5]) (λ r c',
    r = Ok () ∧ strap_value (fz c') 30 = true ∧ strap_value (fz c') 31 = false ∧
    strap_value (fz c') 32 = true)
    (open_part (λ a, if (a =? opt_addr 30 0) || (a =? opt_addr 30 1) then Z.shiftl 1 30 else blank_words a)).
Proof.
  eapply dwp_mono; [apply (straps_flipped_or_refused (D := Fuses false) 30 [5]); reflexivity|].
  intros r c'. set (f := fz _). change (preflight f 30 [5]) with (Ok () : result unit OtpError).
  intros (_ & Hv & Hok). specialize (Hok fuses_prompt (fuses_take false)).
  split; [exact Hok|]. specialize (Hv Hok).
  split; [exact (Hv 30%nat ltac:(lia))|]. split; [exact (Hv 31%nat ltac:(lia))|exact (Hv 32%nat ltac:(lia))].
Defined.

(** ** What the callers have to know *)

(** The registers are not opened by the call: closed, it burns nothing and
    reports a timeout. *)
Example closed_registers_time_out :
  match otp_prog_strap 0 [1] (part (slow := false) blank_words []) with
  | Some (c', r) => r = Err OtpTimeout ∧ strap_value (fz c') 0 = false
  | None => False
  end.
Proof. by vm_compute. Qed.

(** A request of one word is a request for 64 straps: the missing word is 0, and
    strap 40 is cleared. *)
Example short_request_clears_upper_straps :
  let f a := if a =? opt_addr 40 0 then Z.shiftl 1 8 else blank_words a in
  match otp_prog_strap 0 [0] (open_part f) with
  | Some (c', r) => r = Ok () ∧ strap_value f 40 = true ∧ strap_value (fz c') 40 = false
  | None => False
  end.
Proof. by vm_compute. Qed.
