(* ===== verification/SmcRun.v ===== *)
(** * What the flash controllers do

    [SmcLaws] states what the driver relies on: a chip select is asserted while
    its control register is in user mode, accesses to its window then shift bytes
    on the SPI bus, and outside user mode they read the flash.  On it: start-up
    decodes each flash at its window, a user-mode transfer is one bus
    transaction, and a read of the window is a read of the flash. *)

From S2P Require Import Prelude Bytes RegMonad Spim SpimRun Soc SocRun Smc.
From stdpp Require Import base tactics option list numbers.
Local Open Scope Z_scope.

(** ** The bus *)

(** Chip select, a byte out, a byte in; and what a read of the flash array gives. *)
Class SpiBus (B : Type) : Type := {
  bus_select : B → ChipSelect → B;
  bus_deselect : B → B;
  bus_send : B → Z → B;
  bus_recv : B → B * Z;
  bus_mem : B → ChipSelect → Z → Z;
}.

Section bus.
Context {B : Type} `{SpiBus B}.

Definition sends (b : B) (l : list Z) : B := foldl bus_send b l.

Fixpoint recvs (b : B) (n : nat) : B * list Z :=
  match n with
  | O => (b, [])
  | S n => let '(b1, x) := bus_recv b in let '(b2, l) := recvs b1 n in (b2, x :: l)
  end.

(** One transaction: select, the bytes out, [n] bytes in, deselect. *)
Definition transact (b : B) (cs : ChipSelect) (tx : list Z) (n : nat) : B * list Z :=
  let '(b', out) := recvs (sends (bus_select b cs) tx) n in (bus_deselect b', out).

Lemma recvs_app b n k :
  recvs b (n + k) =
  let '(b1, l1) := recvs b n in let '(b2, l2) := recvs b1 k in (b2, l1 ++ l2).
Proof.
  revert b. induction n as [|n IH]; intros b; cbn [recvs Nat.add].
  - by destruct (recvs b k).
  - destruct (bus_recv b) as [b1 x]. rewrite IH. destruct (recvs b1 n) as [b2 l1].
    by destruct (recvs b2 k).
Qed.

Lemma recvs_length b n : length (recvs b n).2 = n.
Proof.
  revert b. induction n as [|n IH]; intros b; [done|]. cbn [recvs].
  destruct (bus_recv b) as [b1 x]. specialize (IH b1). destruct (recvs b1 n). cbn in *. by rewrite IH.
Qed.

Lemma transact_length b cs tx n : length (transact b cs tx n).2 = n.
Proof.
  unfold transact. pose proof (recvs_length (sends (bus_select b cs) tx) n) as Hl.
  by destruct (recvs _ n).
Qed.
End bus.

(** ** The controller *)

Definition user_active (ctrl : Z) : bool := Z.land ctrl 7 =? 3.
Definition other (cs : ChipSelect) : ChipSelect := match cs with Cs0 => Cs1 | Cs1 => Cs0 end.

(** The range a segment register decodes, from the start of the controller's
    window: units of 512 KiB on the FMC, of 1 MiB on SPI1 and SPI2. *)
Definition seg_start (id : SmcController) (v : Z) : Z :=
  match id with
  | Fmc => Z.shiftl (Z.land v 0x0ff8) 16
  | SmcSpi1 | SmcSpi2 => Z.shiftl (Z.land v 0xfff0) 16
  end.
Definition seg_end (id : SmcController) (v : Z) : Z :=
  match id with
  | Fmc => Z.lor (Z.land v 0x0ff80000) 0x7ffff + 1
  | SmcSpi1 | SmcSpi2 => Z.lor (Z.land v 0xfff00000) 0xfffff + 1
  end.
Definition decodes (id : SmcController) (v a : Z) : bool :=
  let o := a - flash_window_address id in (seg_start id v <=? o) && (o <? seg_end id v).

Class SmcLaws (H B : Type) `{SmcHw H, SpiBus B} : Type := {
  bus : H → B;
  ctrl : H → ChipSelect → Z;
  seg : H → ChipSelect → Z;
  unit_of : H → SmcController;
  recv_byte (b : B) : in_u8 (bus_recv b).2;
  rd_frame h o :
    let h' := (reg_read h o).1 in
    bus h' = bus h ∧ ctrl h' = ctrl h ∧ seg h' = seg h ∧ unit_of h' = unit_of h;
  rd_ctrl h cs : (reg_read h (cs_ctrl_reg cs)).2 = ctrl h cs;
  wr_frame h o v :
    o ≠ 0x010 → o ≠ 0x014 → o ≠ 0x030 → o ≠ 0x034 →
    let h' := reg_write h o v in
    bus h' = bus h ∧ ctrl h' = ctrl h ∧ seg h' = seg h ∧ unit_of h' = unit_of h;
  wr_seg h cs v :
    let h' := reg_write h (cs_segment_reg cs) v in
    bus h' = bus h ∧ ctrl h' = ctrl h ∧ seg h' cs = v ∧ seg h' (other cs) = seg h (other cs) ∧
    unit_of h' = unit_of h;
  wr_ctrl h cs v :
    let h' := reg_write h (cs_ctrl_reg cs) v in
    ctrl h' cs = v ∧ ctrl h' (other cs) = ctrl h (other cs) ∧ seg h' = seg h ∧ unit_of h' = unit_of h ∧
    bus h' = match user_active (ctrl h cs), user_active v with
             | false, true => bus_select (bus h) cs
             | true, false => bus_deselect (bus h)
             | _, _ => bus h
             end;
  user_write32 h cs a v :
    user_active (ctrl h cs) = true → user_active (ctrl h (other cs)) = false →
    decodes (unit_of h) (seg h cs) a = true →
    let h' := ahb_write32 h a v in
    bus h' = sends (bus h) (u32_to_le_bytes v) ∧ ctrl h' = ctrl h ∧ seg h' = seg h ∧ unit_of h' = unit_of h;
  user_write8 h cs a v :
    user_active (ctrl h cs) = true → user_active (ctrl h (other cs)) = false →
    decodes (unit_of h) (seg h cs) a = true →
    let h' := ahb_write8 h a v in
    bus h' = bus_send (bus h) v ∧ ctrl h' = ctrl h ∧ seg h' = seg h ∧ unit_of h' = unit_of h;
  user_read32 h cs a :
    user_active (ctrl h cs) = true → user_active (ctrl h (other cs)) = false →
    decodes (unit_of h) (seg h cs) a = true →
    let '(h', w) := ahb_read32 h a in
    (bus h', u32_to_le_bytes w) = recvs (bus h) 4 ∧ ctrl h' = ctrl h ∧ seg h' = seg h ∧ unit_of h' = unit_of h;
  user_read8 h cs a :
    user_active (ctrl h cs) = true → user_active (ctrl h (other cs)) = false →
    decodes (unit_of h) (seg h cs) a = true →
    let '(h', v) := ahb_read8 h a in
    (bus h', v) = bus_recv (bus h) ∧ ctrl h' = ctrl h ∧ seg h' = seg h ∧ unit_of h' = unit_of h;
  normal_read8 h cs a :
    user_active (ctrl h cs) = false → user_active (ctrl h (other cs)) = false →
    decodes (unit_of h) (seg h cs) a = true → decodes (unit_of h) (seg h (other cs)) a = false →
    let '(h', v) := ahb_read8 h a in
    v = bus_mem (bus h) cs (a - flash_window_address (unit_of h) - seg_start (unit_of h) (seg h cs)) ∧
    bus h' = bus h ∧ ctrl h' = ctrl h ∧ seg h' = seg h ∧ unit_of h' = unit_of h;
}.

(** ** A flash at its window *)

Section run.
Context {H B : Type} `{SmcLaws H B}.
Implicit Types (m : Smc H) (cs : ChipSelect).
Local Notation smc A := (Smc.smc (H := H) A).

Definition hw_bus m : B := bus (sm_regs m).

(** The same controller, decoding as before, with no chip select left asserted. *)
Record steady m m' : Prop := {
  st_id : sm_controller_id m' = sm_controller_id m;
  st_config : sm_config m' = sm_config m;
  st_state : sm_state m' = sm_state m;
  st_nr : sm_normal_read_ctrl m' = sm_normal_read_ctrl m;
  st_window : sm_flash_window_base m' = sm_flash_window_base m;
  st_seg : seg (sm_regs m') = seg (sm_regs m);
  st_unit : unit_of (sm_regs m') = unit_of (sm_regs m);
  st_quiet c : user_active (ctrl (sm_regs m) c) = false → user_active (ctrl (sm_regs m') c) = false;
}.

#[global] Instance steady_preorder : PreOrder steady.
Proof. split; [by constructor|]. intros ? ? ? [] []. constructor; try congruence; auto. Qed.

(** The flash of [cs] has [cap] bytes and is decoded at its window, alone. *)
Record attached cs (cap : Z) m : Prop := {
  at_unit : unit_of (sm_regs m) = sm_controller_id m;
  at_slot : is_Some (slot (sm_config m) cs);
  at_cap : cs_capacity_bytes (sm_config m) cs = Ok cap;
  at_range : 0 < cap ≤ SMC_WINDOW_SIZE_BYTES;
  at_start : seg_start (sm_controller_id m) (seg (sm_regs m) cs) =
    at_cs cs (sm_flash_window_base m) - flash_window_address (sm_controller_id m);
  at_end : seg_end (sm_controller_id m) (seg (sm_regs m) cs) =
    seg_start (sm_controller_id m) (seg (sm_regs m) cs) + cap;
  at_apart a : decodes (sm_controller_id m) (seg (sm_regs m) cs) a = true →
    decodes (sm_controller_id m) (seg (sm_regs m) (other cs)) a = false;
  at_quiet c : user_active (ctrl (sm_regs m) c) = false;
  at_nr : user_active (at_cs cs (sm_normal_read_ctrl m)) = false;
}.

Lemma attached_steady cs cap m m' : steady m m' → attached cs cap m → attached cs cap m'.
Proof.
  intros [] []. constructor.
  all: rewrite ?st_unit0, ?st_id0, ?st_config0, ?st_seg0, ?st_window0, ?st_nr0; auto.
Qed.

(** Addresses within the flash are decoded. *)
Lemma attached_decodes cs cap m o :
  attached cs cap m → 0 ≤ o < cap →
  decodes (unit_of (sm_regs m)) (seg (sm_regs m) cs) (at_cs cs (sm_flash_window_base m) + o) = true.
Proof.
  intros [] Ho. unfold decodes. rewrite at_unit0.
  apply andb_true_iff. rewrite Z.leb_le, Z.ltb_lt. lia.
Qed.

(** ** User mode *)

(** A transfer in progress on [cs]. *)
Record in_user cs m : Prop := {
  iu_active : user_active (ctrl (sm_regs m) cs) = true;
  iu_other : user_active (ctrl (sm_regs m) (other cs)) = false;
}.

(** [m'] is [m] but for the bus. *)
Record shifted m m' : Prop := {
  sh_rest : m' = with_regs (sm_regs m') m;
  sh_ctrl : ctrl (sm_regs m') = ctrl (sm_regs m);
  sh_seg : seg (sm_regs m') = seg (sm_regs m);
  sh_unit : unit_of (sm_regs m') = unit_of (sm_regs m);
}.

#[global] Instance shifted_preorder : PreOrder shifted.
Proof.
  split; [intros []; by constructor|]. intros m1 m2 m3 [E1 ? ? ?] [E2 ? ? ?].
  constructor; [rewrite E2, E1; done|congruence..].
Qed.

Lemma shifted_user cs m m' : shifted m m' → in_user cs m → in_user cs m'.
Proof. intros [_ E _ _] []. constructor; by rewrite E. Qed.

Definition decoded cs m (a : Z) : Prop := decodes (unit_of (sm_regs m)) (seg (sm_regs m) cs) a = true.

Lemma shifted_decoded cs m m' a : shifted m m' → decoded cs m a → decoded cs m' a.
Proof. intros [_ _ E1 E2]. unfold decoded. by rewrite E1, E2. Qed.

Lemma spi_write_data_spec cs a l m :
  in_user cs m → Forall in_u8 l → (∀ i, 0 ≤ i < Z.of_nat (length l) → decoded cs m (a + i)) →
  dwp (spi_write_data a l) (λ r m', r = Ok () ∧ shifted m m' ∧ hw_bus m' = sends (hw_bus m) l) m.
Proof.
  remember (length l) as n eqn:Hn. revert a l m Hn.
  induction (lt_wf n) as [n _ IH]. intros a l m -> Hu Hall Hdec.
  assert (∀ (w : nat) x l' (m1 : Smc H), l = x ++ l' → length x = w → (0 < w)%nat →
    shifted m m1 → hw_bus m1 = sends (hw_bus m) x →
    dwp (spi_write_data (a + Z.of_nat w) l')
      (λ r m', r = Ok () ∧ shifted m m' ∧ hw_bus m' = sends (hw_bus m) l) m1) as Hrest.
  { intros w x l' m1 -> Hw Hpos Hsh Hb. apply Forall_app in Hall as [_ Hall].
    rewrite length_app in Hdec. eapply dwp_mono.
    - apply (IH (length l')); [rewrite length_app; lia|done|by eapply shifted_user|done|].
      intros i Hi. rewrite <- Z.add_assoc. eapply shifted_decoded; [done|]. apply Hdec. lia.
    - intros r m' (-> & Hsh' & Hb'). split; [done|]. split; [by etrans|].
      rewrite Hb', Hb. unfold sends. by rewrite foldl_app. }
  assert (∀ b l', l = b :: l' →
    dwp (hw_write (λ h, ahb_write8 h a b);; spi_write_data (a + 1) l')
      (λ r m', r = Ok () ∧ shifted m m' ∧ hw_bus m' = sends (hw_bus m) l) m) as Hone.
  { intros b l' ->. unfold hw_write. dwp_step. dwp_step. cbn [length] in Hdec.
    specialize (Hdec 0 ltac:(lia)). rewrite Z.add_0_r in Hdec.
    destruct (user_write8 (sm_regs m) cs a b) as (E1 & E2 & E3 & E4); [apply Hu..|done|].
    apply (Hrest 1%nat [b]); [done..|lia|by constructor|done]. }
  destruct l as [|b0 [|b1 [|b2 [|b3 l]]]]; [by apply dwp_ret|exact (Hone _ _ eq_refl)..|].
  cbn [spi_write_data]. unfold hw_write. dwp_step. dwp_step. cbn [length] in Hdec.
  specialize (Hdec 0 ltac:(lia)). rewrite Z.add_0_r in Hdec.
  destruct (user_write32 (sm_regs m) cs a (u32_from_le_bytes b0 b1 b2 b3)) as (E1 & E2 & E3 & E4);
    [apply Hu..|done|].
  rewrite !List.Forall_cons_iff in Hall. destruct Hall as (? & ? & ? & ? & _).
  rewrite le_bytes_of_word in E1 by done.
  apply (Hrest 4%nat [b0; b1; b2; b3]); [done..|lia|by constructor|done].
Qed.

Lemma window_bytes_user cs a n m :
  in_user cs m → (∀ i, 0 ≤ i < Z.of_nat n → decoded cs m (a + i)) →
  dwp (window_bytes a n) (λ r m', shifted m m' ∧ ∃ l, r = Ok l ∧ (hw_bus m', l) = recvs (hw_bus m) n) m.
Proof.
  revert a m. induction n as [|n IH]; intros a m Hu Hdec; cbn [window_bytes].
  { apply dwp_ret. split; [done|]. by exists []. }
  apply dwp_bind. unfold hw_read at 1, dwp at 1.
  pose proof (user_read8 (sm_regs m) cs a (iu_active _ _ Hu) (iu_other _ _ Hu)) as Hr.
  specialize (Hdec 0) as Hd. rewrite Z.add_0_r in Hd. specialize (Hr (Hd ltac:(lia))).
  destruct (ahb_read8 (sm_regs m) a) as [h v]. destruct Hr as (Eb & E1 & E2 & E3).
  set (m1 := with_regs h m). assert (shifted m m1) as Hsh by by constructor.
  apply dwp_bind. eapply dwp_mono.
  { apply IH; [by eapply shifted_user|]. intros i Hi. rewrite <- Z.add_assoc.
    eapply shifted_decoded; [done|]. apply Hdec. lia. }
  intros r m2 (Hsh2 & l & -> & Hl). apply dwp_ret. split; [by etrans|]. exists (v :: l). split; [done|].
  cbn [recvs]. unfold hw_bus at 2. rewrite <- Eb. change (bus h) with (hw_bus m1). by rewrite <- Hl.
Qed.

Lemma spi_read_words_spec cs a n m :
  in_user cs m → (∀ i, 0 ≤ i < 4 * Z.of_nat n → decoded cs m (a + i)) →
  dwp (spi_read_words a n) (λ r m', shifted m m' ∧ ∃ l, r = Ok l ∧ (hw_bus m', l) = recvs (hw_bus m) (4 * n)) m.
Proof.
  revert a m. induction n as [|n IH]; intros a m Hu Hdec; cbn [spi_read_words].
  { apply dwp_ret. split; [done|]. by exists []. }
  apply dwp_bind. unfold hw_read at 1, dwp at 1.
  pose proof (user_read32 (sm_regs m) cs a (iu_active _ _ Hu) (iu_other _ _ Hu)) as Hr.
  specialize (Hdec 0) as Hd. rewrite Z.add_0_r in Hd. specialize (Hr (Hd ltac:(lia))).
  destruct (ahb_read32 (sm_regs m) a) as [h v]. destruct Hr as (Eb & E1 & E2 & E3).
  set (m1 := with_regs h m). assert (shifted m m1) as Hsh by by constructor.
  apply dwp_bind. eapply dwp_mono.
  { apply IH; [by eapply shifted_user|]. intros i Hi. rewrite <- Z.add_assoc.
    eapply shifted_decoded; [done|]. apply Hdec. lia. }
  intros r m2 (Hsh2 & l & -> & Hl). apply dwp_ret. split; [by etrans|]. eexists. split; [done|].
  replace (4 * S n)%nat with (4 + 4 * n)%nat by lia. rewrite recvs_app. unfold hw_bus at 2.
  rewrite <- Eb. change (bus h) with (hw_bus m1). by rewrite <- Hl.
Qed.

Lemma spi_read_data_spec cs a n m :
  in_user cs m → (∀ i, 0 ≤ i < Z.of_nat n → decoded cs m (a + i)) →
  dwp (spi_read_data a n) (λ r m', shifted m m' ∧ ∃ l, r = Ok l ∧ (hw_bus m', l) = recvs (hw_bus m) n) m.
Proof.
  intros Hu Hdec. pose proof (Nat.div_mod_eq n 4) as Hn. unfold spi_read_data.
  apply dwp_bind. eapply dwp_mono.
  { apply (spi_read_words_spec cs); [done|]. intros i Hi. apply Hdec. lia. }
  intros r m1 (Hsh1 & l1 & -> & Hl1). apply dwp_bind. eapply dwp_mono.
  { apply (window_bytes_user cs); [by eapply shifted_user|]. intros i Hi. rewrite <- Z.add_assoc.
    eapply shifted_decoded; [done|]. apply Hdec. lia. }
  intros r m2 (Hsh2 & l2 & -> & Hl2). apply dwp_ret. split; [by etrans|]. eexists. split; [done|].
  rewrite Hn at 1. rewrite recvs_app, <- Hl1, <- Hl2. done.
Qed.

(** The control words of a transfer. *)
Lemma user_active_bits v : user_active v = (Z.testbit v 0 && Z.testbit v 1 && negb (Z.testbit v 2)).
Proof.
  unfold user_active. assert (Z.land v 7 = Z.b2z (Z.testbit v 0) + 2 * Z.b2z (Z.testbit v 1) +
    4 * Z.b2z (Z.testbit v 2)) as ->.
  { change 7 with (Z.ones 3). rewrite Z.land_ones by lia.
    rewrite !Z.testbit_spec' by lia. change (2 ^ 0) with 1. change (2 ^ 1) with 2. change (2 ^ 2) with 4.
    change (2 ^ 3) with 8. rewrite Z.div_1_r.
    pose proof (Z.div_mod v 8). pose proof (Z.mod_pos_bound v 8).
    pose proof (Z.div_mod v 2). pose proof (Z.mod_pos_bound v 2).
    pose proof (Z.div_mod v 4). pose proof (Z.mod_pos_bound v 4).
    pose proof (Z.div_mod (v / 2) 2). pose proof (Z.mod_pos_bound (v / 2) 2).
    pose proof (Z.div_mod (v / 4) 2). pose proof (Z.mod_pos_bound (v / 4) 2).
    lia. }
  by destruct (Z.testbit v 0), (Z.testbit v 1), (Z.testbit v 2).
Qed.

(** [m'] is [m] but for the bus and the control register of [cs]. *)
Record framed cs m m' : Prop := {
  fr_rest : m' = with_regs (sm_regs m') m;
  fr_seg : seg (sm_regs m') = seg (sm_regs m);
  fr_unit : unit_of (sm_regs m') = unit_of (sm_regs m);
  fr_other : ctrl (sm_regs m') (other cs) = ctrl (sm_regs m) (other cs);
}.

#[global] Instance framed_preorder cs : PreOrder (framed cs).
Proof.
  split; [intros []; by constructor|]. intros m1 m2 m3 [E1 ? ? ?] [E2 ? ? ?].
  constructor; [rewrite E2, E1; done|congruence..].
Qed.

Lemma shifted_framed cs m m' : shifted m m' → framed cs m m'.
Proof. intros [? E ? ?]. constructor; [done..|by rewrite E]. Qed.

Lemma framed_decoded cs m m' a : framed cs m m' → decoded cs m a → decoded cs m' a.
Proof. intros [_ E1 E2 _]. unfold decoded. by rewrite E1, E2. Qed.

Lemma write_ctrl_then {A} cs v (k : smc A) Q m :
  (∀ m', framed cs m m' → ctrl (sm_regs m') cs = v →
     hw_bus m' = match user_active (ctrl (sm_regs m) cs), user_active v with
                 | false, true => bus_select (hw_bus m) cs
                 | true, false => bus_deselect (hw_bus m)
                 | _, _ => hw_bus m
                 end → dwp k Q m') →
  dwp (write_cs_ctrl cs v;; k) Q m.
Proof.
  intros HQ. unfold write_cs_ctrl, hw_write. dwp_step. dwp_step.
  destruct (wr_ctrl (sm_regs m) cs v) as (E1 & E2 & E3 & E4 & E5).
  apply HQ; [by constructor|done|done].
Qed.

(** The four control words of a transfer. *)
Lemma user_word_active v io :
  Z.testbit io 0 = false → Z.testbit io 1 = false → Z.testbit io 2 = false →
  user_active (Z.lor (Z.land (Z.lor (Z.land v (not_u32 7)) ASPEED_SPI_USER) SPI_CTRL_IO_MODE_MASK) io) = true.
Proof.
  intros I0 I1 I2. rewrite user_active_bits.
  rewrite !Z.lor_spec, !Z.land_spec, !Z.lor_spec, !Z.land_spec, !testbit_not_u32, I0, I1, I2 by lia.
  unfold SPI_CTRL_IO_MODE_MASK. rewrite !testbit_not_u32 by lia.
  change (Z.testbit 7 0) with true. change (Z.testbit 7 1) with true. change (Z.testbit 7 2) with true.
  cbn [negb]. rewrite !andb_false_r. done.
Qed.

Lemma user_base_active v : user_active (Z.lor (Z.land v (not_u32 7)) ASPEED_SPI_USER) = true.
Proof.
  rewrite user_active_bits, !Z.lor_spec, !Z.land_spec, !testbit_not_u32 by lia.
  change (Z.testbit 7 0) with true. change (Z.testbit 7 1) with true. change (Z.testbit 7 2) with true.
  cbn [negb]. rewrite !andb_false_r. done.
Qed.

Lemma user_base_inactive v : user_active (Z.lor v ASPEED_SPI_USER_INACTIVE) = false.
Proof.
  rewrite user_active_bits, !Z.lor_spec. change (Z.testbit ASPEED_SPI_USER_INACTIVE 2) with true.
  by rewrite orb_true_r, andb_false_r.
Qed.

Lemma io_bits_low mode i :
  0 ≤ i < 3 → Z.testbit (cmd_io_bits mode) i = false ∧ Z.testbit (addr_io_bits mode) i = false ∧
  Z.testbit (data_io_bits mode) i = false.
Proof.
  intros Hi. assert (i = 0 ∨ i = 1 ∨ i = 2) as [-> | [-> | ->]] by lia; by destruct mode.
Qed.

Lemma attached_frame cs cap m m' a :
  attached cs cap m → framed cs m m' → 0 ≤ a < cap →
  decoded cs m' (at_cs cs (sm_flash_window_base m) + a).
Proof. intros Hat Hf Ha. eapply framed_decoded; [done|]. by eapply attached_decodes. Qed.

(** One phase that sends. *)
Lemma send_phase {A} cs cap nr io l (k : smc A) Q m mi :
  attached cs cap m → framed cs m mi → user_active (ctrl (sm_regs mi) cs) = true →
  (∀ i, 0 ≤ i < 3 → Z.testbit io i = false) → Forall in_u8 l → Z.of_nat (length l) ≤ cap →
  (∀ m', framed cs m m' → user_active (ctrl (sm_regs m') cs) = true →
     hw_bus m' = sends (hw_bus mi) l → dwp k Q m') →
  dwp (write_cs_ctrl cs
         (Z.lor (Z.land (Z.lor (Z.land nr (not_u32 7)) ASPEED_SPI_USER) SPI_CTRL_IO_MODE_MASK) io);;
       spi_write_data (at_cs cs (sm_flash_window_base m)) l;; k) Q mi.
Proof.
  intros Hat Fi Ui Hio Hl Hlen HQ. apply write_ctrl_then. intros m1 F1 C1 B1.
  rewrite Ui, user_word_active in B1 by (apply Hio; lia). assert (framed cs m m1) as F by by etrans.
  assert (in_user cs m1) as U1.
  { constructor; [rewrite C1; apply user_word_active; apply Hio; lia|].
    rewrite (fr_other _ _ _ F). apply Hat. }
  apply dwp_bind. eapply dwp_mono.
  { apply (spi_write_data_spec cs); [done..|]. intros i Hi. apply (attached_frame cs cap m); [done..|lia]. }
  intros r m2 (-> & S2 & B2). apply HQ.
  - etrans; [done|by apply shifted_framed].
  - rewrite (sh_ctrl _ _ S2). apply U1.
  - by rewrite B2, B1.
Qed.

(** The last phase: bytes in, then the chip is deselected and the control register
    restored. *)
Lemma receive_phase cs cap io n m mi :
  attached cs cap m → framed cs m mi → user_active (ctrl (sm_regs mi) cs) = true →
  (∀ i, 0 ≤ i < 3 → Z.testbit io i = false) → Z.of_nat n ≤ cap →
  let ub := Z.lor (Z.land (at_cs cs (sm_normal_read_ctrl m)) (not_u32 7)) ASPEED_SPI_USER in
  dwp (write_cs_ctrl cs (Z.lor (Z.land ub SPI_CTRL_IO_MODE_MASK) io);;
       out ← spi_read_data (at_cs cs (sm_flash_window_base m)) n;
       write_cs_ctrl cs (Z.lor ub ASPEED_SPI_USER_INACTIVE);;
       nr ← normal_read_ctrl cs;
       write_cs_ctrl cs nr;;
       mret out)
    (λ r m', steady m m' ∧ ∃ out, r = Ok out ∧
       (hw_bus m', out) = let '(b, out) := recvs (hw_bus mi) n in (bus_deselect b, out)) mi.
Proof.
  intros Hat Fi Ui Hio Hlen ub. apply write_ctrl_then. intros m1 F1 C1 B1. unfold ub in B1.
  rewrite Ui, user_word_active in B1 by (apply Hio; lia). assert (framed cs m m1) as F by by etrans.
  assert (in_user cs m1) as U1.
  { constructor; [rewrite C1; apply user_word_active; apply Hio; lia|].
    rewrite (fr_other _ _ _ F). apply Hat. }
  apply dwp_bind. eapply dwp_mono.
  { apply (spi_read_data_spec cs); [done|]. intros i Hi. apply (attached_frame cs cap m); [done..|lia]. }
  intros r m2 (S2 & out & -> & B2). pose proof (shifted_framed cs _ _ S2) as F2.
  apply write_ctrl_then. intros m3 F3 C3 B3.
  rewrite (sh_ctrl _ _ S2), (iu_active _ _ U1), user_base_inactive in B3.
  assert (framed cs m m3) as F13 by (do 2 (etrans; [done|]); done).
  apply dwp_bind, dwp_reads. rewrite (fr_rest _ _ _ F13). cbn [sm_normal_read_ctrl with_regs].
  rewrite <- (fr_rest _ _ _ F13).
  apply write_ctrl_then. intros m4 F4 C4 B4. rewrite C3, user_base_inactive, (at_nr _ _ _ Hat) in B4.
  assert (framed cs m m4) as F14 by (by etrans). apply dwp_ret. split.
  - pose proof (fr_rest _ _ _ F14) as E. constructor; try (rewrite E; done); [apply F14..|].
    intros c Hc. destruct (decide (c = cs)) as [->|Hne]; [rewrite C4; apply Hat|].
    assert (c = other cs) as -> by (by destruct c, cs). by rewrite (fr_other _ _ _ F14).
  - exists out. split; [done|]. rewrite <- B1, <- B2. by rewrite B4, B3.
Qed.

(** A user-mode transfer is one bus transaction. *)
Lemma transceive_spec cs cap cmd tx n mode m :
  attached cs cap m → sm_state m = Idle → Forall in_u8 cmd → Forall in_u8 tx →
  Z.of_nat (length cmd) ≤ cap → Z.of_nat (length tx) ≤ cap → Z.of_nat n ≤ cap →
  dwp (transceive_user cs cmd tx n mode) (λ r m', steady m m' ∧ ∃ out, r = Ok out ∧
    (hw_bus m', out) = transact (hw_bus m) cs (cmd ++ tx) n) m.
Proof.
  intros Hat Hidle Hcmd Htx Lcmd Ltx Ln. unfold transceive_user, is_ready.
  dwp_step. dwp_step. rewrite bool_decide_eq_true_2 by done. dwp_step. apply dwp_require_true.
  dwp_step. dwp_step. rewrite bool_decide_eq_false_2.
  2:{ intros [-> E]. destruct (at_slot _ _ _ Hat) as [c Hc]. cbn [slot] in Hc. congruence. }
  dwp_step. apply dwp_require_true. apply dwp_bind, dwp_reads. apply dwp_bind, dwp_reads. cbn zeta.
  apply write_ctrl_then. intros m1 F1 C1 B1. rewrite user_base_inactive, (at_quiet _ _ _ Hat cs) in B1.
  apply write_ctrl_then. intros m2 F2 C2 B2. rewrite C1, user_base_inactive, user_base_active in B2.
  apply (send_phase cs cap); [done|by etrans|rewrite C2; apply user_base_active|apply io_bits_low|done..|].
  intros m3 F3 U3 B3.
  apply (send_phase cs cap); [done|done|done|apply io_bits_low|done|done|]. intros m4 F4 U4 B4.
  eapply dwp_mono; [apply (receive_phase cs cap); [done..|apply io_bits_low|done]|].
  intros r m5 (St & out & -> & B5). split; [done|]. exists out. split; [done|].
  rewrite B5, B4, B3, B2, B1. unfold transact, sends. by rewrite foldl_app.
Qed.

(** ** Reading the window *)

Definition flash_bytes (b : B) cs (a : Z) (n : nat) : list Z :=
  (λ i, bus_mem b cs (a + Z.of_nat i)) <$> seq 0 n.

Lemma flash_bytes_S b cs a n : flash_bytes b cs a (S n) = bus_mem b cs a :: flash_bytes b cs (a + 1) n.
Proof.
  unfold flash_bytes. cbn [seq fmap list_fmap]. rewrite Z.add_0_r. f_equal.
  apply list_eq. intros k. rewrite !list_lookup_fmap. destruct (decide (k < n)%nat) as [Hk|Hk].
  - rewrite !lookup_seq_lt by done. cbn. do 2 f_equal. lia.
  - by rewrite !lookup_seq_ge by lia.
Qed.

Lemma window_bytes_normal cs cap o n m :
  attached cs cap m → 0 ≤ o → o + Z.of_nat n ≤ cap →
  dwp (window_bytes (at_cs cs (sm_flash_window_base m) + o) n) (λ r m',
    steady m m' ∧ hw_bus m' = hw_bus m ∧ r = Ok (flash_bytes (hw_bus m) cs o n)) m.
Proof.
  revert o m. induction n as [|n IH]; intros o m Hat Ho Hn; cbn [window_bytes]; [by apply dwp_ret|].
  apply dwp_bind. unfold hw_read at 1, dwp at 1.
  assert (decoded cs m (at_cs cs (sm_flash_window_base m) + o)) as Hd
    by (eapply attached_decodes; [done|lia]).
  pose proof (normal_read8 (sm_regs m) cs _ (at_quiet _ _ _ Hat cs) (at_quiet _ _ _ Hat (other cs)) Hd) as Hr.
  rewrite (at_unit _ _ _ Hat) in Hr. unfold decoded in Hd. rewrite (at_unit _ _ _ Hat) in Hd.
  specialize (Hr (at_apart _ _ _ Hat _ Hd)). rewrite (at_start _ _ _ Hat) in Hr.
  destruct (ahb_read8 _ _) as [h v]. destruct Hr as (Ev & Eb & Ec & Es & Eu).
  set (m1 := with_regs h m). assert (steady m m1) as St.
  { constructor; try done; [by rewrite (at_unit _ _ _ Hat)|]. intros c. cbn. by rewrite Ec. }
  apply dwp_bind. change (sm_flash_window_base m) with (sm_flash_window_base m1). rewrite <- Z.add_assoc.
  eapply dwp_mono; [apply IH; [by eapply attached_steady|lia|lia]|].
  intros r m2 (St2 & Eb2 & ->). apply dwp_ret. split; [by etrans|]. split; [by rewrite Eb2|].
  rewrite flash_bytes_S. change (hw_bus m1) with (bus h). rewrite Eb, Ev. unfold hw_bus.
  do 3 f_equal. lia.
Qed.

Lemma smc_read_spec cs cap o n m :
  attached cs cap m → in_u32 o →
  dwp (smc_read cs o n) (λ r m', steady m m' ∧ hw_bus m' = hw_bus m ∧
    r = if o + Z.of_nat n <=? cap then Ok (flash_bytes (hw_bus m) cs o n) else Err SmcInvalidCapacity) m.
Proof.
  intros Hat Ho. unfold smc_read, cs_config. dwp_step. dwp_step. dwp_step.
  destruct (at_slot _ _ _ Hat) as [cfg Hcfg]. rewrite Hcfg. cbn [ok_or]. dwp_step. dwp_step.
  pose proof (at_cap _ _ _ Hat) as Hcap. unfold cs_capacity_bytes in Hcap. rewrite Hcfg in Hcap.
  rewrite Hcap. dwp_step. apply dwp_bind, dwp_reads. dwp_step. dwp_step.
  pose proof (at_range _ _ _ Hat) as Hrange. unfold SMC_WINDOW_SIZE_BYTES in Hrange.
  unfold validate_mapped_range, in_usize. unfold in_u32, u32_MAX in Ho.
  rewrite (proj2 (Z.leb_le 0 (o + Z.of_nat n))) by lia. cbn [andb].
  destruct (Z.leb_spec (o + Z.of_nat n) cap) as [Hle|Hgt].
  - rewrite (proj2 (Z.leb_le _ u32_MAX)) by (unfold u32_MAX; lia).
    rewrite (proj2 (Z.ltb_ge cap _)) by lia. by apply (window_bytes_normal cs cap); [|lia|].
  - destruct (_ <=? u32_MAX); [|done]. by rewrite (proj2 (Z.ltb_lt cap _)) by lia.
Qed.
End run.
