(* ===== verification/NorFlash.v ===== *)
(** * SPI NOR flash over the controllers

    [smc/fmc.rs], [smc/spi/spi.rs], [smc/device/flash.rs],
    [smc/device/block_device.rs].  The handles of the FMC and of SPI1/SPI2
    delegate every call to the controller they hold, so a flash is its
    parameters, and its calls act on that controller.

    The second part states what the flash's command set does ([NorLaws]) and proves
    that erasing, programming and updating are updates of an array of bytes. *)

From S2P Require Import Prelude Bytes RegMonad Spim SpimRun Soc SocRun Smc SmcRun.
From stdpp Require Import base tactics option list numbers.
From stdpp Require Import base tactics option list numbers sets.
Local Open Scope Z_scope.

(** ** Commands *)

(** [commands]. *)
Definition WRITE_ENABLE : Z := 0x06.
Definition ERASE_SECTOR_4K : Z := 0x20.
Definition ERASE_SECTOR_4K_4B : Z := 0x21.
Definition PAGE_PROGRAM : Z := 0x02.
Definition PAGE_PROGRAM_4B : Z := 0x12.
Definition READ_FAST : Z := 0x0b.
Definition READ_FAST_4B : Z := 0x0c.
Definition READ_STATUS : Z := 0x05.
Definition READ_ID : Z := 0x9f.

Definition STATUS_WIP : Z := 1.
Definition WRITE_COMPLETE_MAX_POLLS : nat := Z.to_nat 1000000.

(** [offset.to_be_bytes()]. *)
Definition be_bytes (offset : Z) : list Z :=
  [Z.land (Z.shiftr offset 24) 255; Z.land (Z.shiftr offset 16) 255;
   Z.land (Z.shiftr offset 8) 255; Z.land offset 255].

(** The bytes [buf[..len]]. *)
Definition encode_addr_cmd (opcode offset : Z) (width : AddressWidth) : list Z :=
  opcode :: match width with
            | AddrNone => []
            | ThreeByte => drop 1 (be_bytes offset)
            | FourByte => be_bytes offset
            end.

Inductive FlashAddressingPolicy := ThreeByteOnly | FourByteCommands.

Definition policy_addr_width (p : FlashAddressingPolicy) : AddressWidth :=
  match p with ThreeByteOnly => ThreeByte | FourByteCommands => FourByte end.

Record FlashCommandProfile := mkProfile {
  read_fast : Z; page_program : Z; erase_sector_4k : Z; read_status : Z; cp_write_enable : Z;
}.

Definition for_addressing (p : FlashAddressingPolicy) : FlashCommandProfile :=
  match p with
  | ThreeByteOnly => mkProfile READ_FAST PAGE_PROGRAM ERASE_SECTOR_4K READ_STATUS WRITE_ENABLE
  | FourByteCommands => mkProfile READ_FAST_4B PAGE_PROGRAM_4B ERASE_SECTOR_4K_4B READ_STATUS WRITE_ENABLE
  end.

Record JedecId := mkJedec { manufacturer : Z; memory_type : Z; capacity_code : Z }.
#[export] Instance JedecId_eq_dec : EqDecision JedecId.
Proof. solve_decision. Defined.

(** [JedecId::from_bytes], of an array of three. *)
Definition jedec_from_bytes (raw : list Z) : JedecId :=
  mkJedec (default 0 (raw !! 0%nat)) (default 0 (raw !! 1%nat)) (default 0 (raw !! 2%nat)).
Definition jedec_as_bytes (j : JedecId) : list Z := [manufacturer j; memory_type j; capacity_code j].

Definition expect_jedec_match (actual expected : JedecId) : result JedecId SmcError :=
  if bool_decide (actual = expected) then Ok actual else Err SmcHardwareError.

(** ** The flash *)

Record SpiNorFlash := mkNor {
  nf_cfg : FlashConfig; nf_cs : ChipSelect; nf_cmd_mode : TransferMode;
  nf_addressing_policy : FlashAddressingPolicy; nf_command_profile : FlashCommandProfile;
}.

Definition validate_capacity_cfg (cfg expected : FlashConfig) : result unit SmcError :=
  if bool_decide (cfg = expected) then Ok () else Err SmcInvalidCapacity.

Definition default_addressing_for_cfg (cfg : FlashConfig) : FlashAddressingPolicy :=
  if 16 <? capacity_mb cfg then FourByteCommands else ThreeByteOnly.

Definition with_cmd_mode (f : SpiNorFlash) (mode : TransferMode) : SpiNorFlash :=
  mkNor (nf_cfg f) (nf_cs f) mode (nf_addressing_policy f) (nf_command_profile f).
Definition with_addressing_policy (f : SpiNorFlash) (p : FlashAddressingPolicy) : SpiNorFlash :=
  mkNor (nf_cfg f) (nf_cs f) (nf_cmd_mode f) p (for_addressing p).
Definition nor_addr_width (f : SpiNorFlash) : AddressWidth := policy_addr_width (nf_addressing_policy f).

Section nor.
Context {H : Type} `{SmcHw H}.
Implicit Types f : SpiNorFlash.
Local Notation smc A := (Smc.smc (H := H) A).

(** [FmcUninit::new], [SpiUninit::new]. *)
Definition with_controller (id : SmcController) (c : SmcConfig) : SmcConfig :=
  mkSmcConfig id (sc_cs0 c) (sc_cs1 c) (sc_dma_enabled c) (sc_enable_interrupts c) (sc_topology c).
Definition fmc_new (h : H) (config : SmcConfig) : result (Smc H) SmcError :=
  smc_new h (with_controller Fmc config).
Definition spi_new (h : H) (controller_id : SmcController) (config : SmcConfig) :
    result (Smc H) SmcError :=
  match controller_id with
  | Fmc => Err SmcInvalidChipSelect
  | SmcSpi1 | SmcSpi2 => smc_new h (with_controller controller_id config)
  end.

(** [from_fmc_cs], [from_spi_cs]. *)
Definition nor_from_cs (cfg : FlashConfig) (cs : ChipSelect) : smc SpiNorFlash :=
  let addressing_policy := default_addressing_for_cfg cfg in
  expected ← cs_config cs;
  lift (validate_capacity_cfg cfg expected);;
  mret (mkNor cfg cs Mode111 addressing_policy (for_addressing addressing_policy)).

Definition nor_capacity_bytes f : smc Z := smc_cs_capacity_bytes (nf_cs f).

Definition device_to_controller_offset f (device_offset : Z) : smc Z :=
  cs_cap ← nor_capacity_bytes f;
  require (negb (cs_cap <=? device_offset)) SmcInvalidCapacity;;
  mret device_offset.

Definition validate_range f (offset len : Z) : smc unit :=
  end_ ← lift (in_usize (offset + len));
  cap ← nor_capacity_bytes f;
  require (negb (cap <? end_)) SmcInvalidCapacity.

Definition validate_sector_erase f (offset : Z) : smc unit :=
  let sector := sector_size (nf_cfg f) in
  require (negb ((sector =? 0) || negb (offset mod sector =? 0))) SmcInvalidCapacity;;
  validate_range f offset sector.

Definition validate_page_program f (offset : Z) (data : list Z) : smc unit :=
  let page := page_size (nf_cfg f) in
  let len := Z.of_nat (length data) in
  require (negb ((page =? 0) || (len =? 0) || (page <? len))) SmcInvalidCapacity;;
  require (offset mod page =? 0) SmcInvalidCapacity;;
  validate_range f offset len.

Definition issue_command f (cmd payload : list Z) : smc unit :=
  transceive_user (nf_cs f) cmd payload 0 (nf_cmd_mode f);; mret ().

Definition read_status_impl f : smc Z :=
  status ← transceive_user (nf_cs f) [read_status (nf_command_profile f)] [] 1 (nf_cmd_mode f);
  mret (default 0 (status !! 0%nat)).

Definition read_jedec_id_impl f : smc (list Z) :=
  transceive_user (nf_cs f) [READ_ID] [] 3 (nf_cmd_mode f).

Definition jedec f : smc JedecId := id ← read_jedec_id_impl f; mret (jedec_from_bytes id).
Definition expect_jedec f (expected : JedecId) : smc JedecId :=
  j ← jedec f; lift (expect_jedec_match j expected).

Definition write_enable f : smc unit := issue_command f [cp_write_enable (nf_command_profile f)] [].

Fixpoint wait_write_complete f (polls : nat) : smc unit :=
  match polls with
  | O => raise SmcTimeout
  | S polls =>
      sr ← read_status_impl f;
      if Z.land sr STATUS_WIP =? 0 then mret () else wait_write_complete f polls
  end.

Definition nor_read f (offset : Z) (len : nat) : smc (list Z) :=
  validate_range f offset (Z.of_nat len);;
  translated ← device_to_controller_offset f offset;
  smc_read (nf_cs f) translated len.

Definition erase_sector f (offset : Z) : smc unit :=
  validate_sector_erase f offset;;
  write_enable f;;
  issue_command f (encode_addr_cmd (erase_sector_4k (nf_command_profile f)) offset (nor_addr_width f)) [];;
  wait_write_complete f WRITE_COMPLETE_MAX_POLLS.

Definition program_page f (offset : Z) (data : list Z) : smc Z :=
  validate_page_program f offset data;;
  write_enable f;;
  issue_command f (encode_addr_cmd (page_program (nf_command_profile f)) offset (nor_addr_width f)) data;;
  wait_write_complete f WRITE_COMPLETE_MAX_POLLS;;
  mret (Z.of_nat (length data)).

(** [while cursor < expected.len()]; [step] is not 0, so a round per byte is
    enough. *)
Fixpoint compare_loop (rounds : nat) f (offset : Z) (cursor : nat) (expected : list Z) (step : nat) :
    smc bool :=
  match rounds with
  | O => mret true
  | S rounds =>
      if (cursor <? length expected)%nat then
        let n := Nat.min step (length expected - cursor) in
        chunk_offset ← lift (in_usize (offset + Z.of_nat cursor));
        scratch ← nor_read f chunk_offset n;
        if bool_decide (scratch = take n (drop cursor expected))
        then compare_loop rounds f offset (cursor + n) expected step
        else mret false
      else mret true
  end.

Definition compare_chunked f (offset : Z) (expected : list Z) (chunk : nat) : smc bool :=
  let step := Nat.min chunk 256 in
  require (negb (step =? 0)%nat) SmcInvalidCapacity;;
  compare_loop (S (length expected)) f offset 0 expected step.

Definition verify f (offset : Z) (expected : list Z) : smc bool :=
  validate_range f offset (Z.of_nat (length expected));;
  compare_chunked f offset expected 256.

Fixpoint nor_program_loop (rounds : nat) f (offset : Z) (written : nat) (data : list Z) (page : nat) :
    smc unit :=
  match rounds with
  | O => mret ()
  | S rounds =>
      if (written <? length data)%nat then
        let chunk_len := Nat.min page (length data - written) in
        chunk_offset ← lift (in_usize (offset + Z.of_nat written));
        program_page f chunk_offset (take chunk_len (drop written data));;
        nor_program_loop rounds f offset (written + chunk_len) data page
      else mret ()
  end.

Definition nor_program f (offset : Z) (data : list Z) : smc Z :=
  if (length data =? 0)%nat then mret 0
  else
    let page := page_size (nf_cfg f) in
    require (negb ((page =? 0) || negb (offset mod page =? 0))) SmcInvalidCapacity;;
    validate_range f offset (Z.of_nat (length data));;
    nor_program_loop (S (length data)) f offset 0 data (Z.to_nat page);;
    mret (Z.of_nat (length data)).

Fixpoint erase_loop (rounds : nat) f (current sector end_aligned : Z) : smc unit :=
  match rounds with
  | O => mret ()
  | S rounds =>
      if current <? end_aligned then
        erase_sector f current;; erase_loop rounds f (current + sector) sector end_aligned
      else mret ()
  end.

Definition erase_range f (offset len : Z) : smc unit :=
  if len =? 0 then mret ()
  else
    validate_range f offset len;;
    let sector := sector_size (nf_cfg f) in
    require (negb (sector =? 0)) SmcInvalidCapacity;;
    let start := offset / sector * sector in
    end_ ← lift (in_usize (offset + len));
    up ← lift (in_usize (end_ + (sector - 1)));
    let end_aligned := up / sector * sector in
    erase_loop (S (Z.to_nat ((end_aligned - start) / sector))) f start sector end_aligned.

Definition update_region f (offset : Z) (data : list Z) : smc Z :=
  if (length data =? 0)%nat then mret 0
  else
    erase_range f offset (Z.of_nat (length data));;
    written ← nor_program f offset data;
    same ← verify f offset data;
    require same SmcHardwareError;;
    mret written.

(** ** The block device *)

Record BlockDeviceInfo := mkBlockInfo {
  bi_capacity_bytes : Z; bi_page_size : Z; bi_sector_size : Z; bi_block_size : Z;
}.

Definition cfg_capacity_bytes (cfg : FlashConfig) : result Z SmcError :=
  in_usize (capacity_mb cfg * (1024 * 1024)).

Definition cfg_from_jedec (j : JedecId) : result FlashConfig SmcError :=
  if (manufacturer j =? 0xef) && (memory_type j =? 0x40) then
    if capacity_code j =? 0x17 then Ok winbond_w25q64
    else if capacity_code j =? 0x18 then Ok (mkFlashConfig 16 256 4096 65536 25)
    else if capacity_code j =? 0x19 then Ok winbond_w25q256
    else Err SmcDeviceNotSupported
  else Err SmcDeviceNotSupported.

(** [SpiNorBlockDevice]: the flash and the configuration the caller knows. *)
Record SpiNorBlockDevice := mkBlockDevice { bd_flash : SpiNorFlash; bd_cfg : FlashConfig }.

Definition from_flash f (cfg : FlashConfig) : smc SpiNorBlockDevice :=
  expected ← lift (cfg_capacity_bytes cfg);
  actual ← nor_capacity_bytes f;
  require (expected =? actual) SmcInvalidCapacity;;
  require (negb ((page_size cfg =? 0) || (sector_size cfg =? 0) || (block_size cfg =? 0)))
    SmcInvalidCapacity;;
  mret (mkBlockDevice f cfg).

Definition from_jedec_id f (j : JedecId) : smc SpiNorBlockDevice :=
  cfg ← lift (cfg_from_jedec j); from_flash f cfg.

Definition read_blocks (d : SpiNorBlockDevice) (address : Z) (len : nat) : smc (list Z) :=
  nor_read (bd_flash d) address len.

Definition write_blocks (d : SpiNorBlockDevice) (address : Z) (data : list Z) : smc Z :=
  if (length data =? 0)%nat then mret 0
  else
    require (address mod page_size (bd_cfg d) =? 0) SmcInvalidCapacity;;
    nor_program (bd_flash d) address data.

Definition erase_blocks (d : SpiNorBlockDevice) (address length : Z) : smc unit :=
  if length =? 0 then mret ()
  else
    let sector := sector_size (bd_cfg d) in
    require (negb (negb (address mod sector =? 0) || negb (length mod sector =? 0))) SmcInvalidCapacity;;
    erase_range (bd_flash d) address length.

Definition block_info (d : SpiNorBlockDevice) : result BlockDeviceInfo SmcError :=
  match cfg_capacity_bytes (bd_cfg d) with
  | Ok c => Ok (mkBlockInfo c (page_size (bd_cfg d)) (sector_size (bd_cfg d)) (block_size (bd_cfg d)))
  | Err e => Err e
  end.
End nor.

(** * SPI NOR flash: what erasing, programming and updating achieve

    [NorLaws] is what a data sheet promises of the command set: write enable,
    4 KiB sector erase, page program and the status register.  A command may fail
    to change the bytes it is meant to, but changes no others.  On it, and on
    controllers whose flash is attached, the flash calls as updates of an array
    of bytes. *)
Definition PAGE : Z := 256.
Definition SECTOR : Z := 4096.

(** The opcode and width of the erase and program commands. *)
Definition erase_cmd (op : Z) (w : AddressWidth) : bool :=
  match w with ThreeByte => op =? ERASE_SECTOR_4K | FourByte => op =? ERASE_SECTOR_4K_4B | _ => false end.
Definition program_cmd (op : Z) (w : AddressWidth) : bool :=
  match w with ThreeByte => op =? PAGE_PROGRAM | FourByte => op =? PAGE_PROGRAM_4B | _ => false end.
Definition addressable (w : AddressWidth) (a : Z) : Prop := 0 ≤ a < 2 ^ (8 * Z.of_nat (byte_count w)).

Class NorLaws (B : Type) `{SpiBus B} : Type := {
  array : B → ChipSelect → Z → Z;
  wel : B → ChipSelect → bool;
  busy : B → ChipSelect → bool;
  array_byte b cs a : in_u8 (array b cs a);
  nor_mem b cs a : busy b cs = false → bus_mem b cs a = array b cs a;
  nor_wren b cs :
    busy b cs = false →
    let b' := (transact b cs [WRITE_ENABLE] 0).1 in
    wel b' cs = true ∧ busy b' cs = false ∧ array b' = array b;
  nor_status b cs :
    let '(b', out) := transact b cs [READ_STATUS] 1 in
    ∃ s, out = [s] ∧ Z.testbit s 0 = busy b' cs ∧ array b' = array b;
  nor_id b cs :
    busy b cs = false →
    let b' := (transact b cs [READ_ID] 3).1 in busy b' cs = false ∧ array b' = array b;
  nor_erases b cs op w a :
    busy b cs = false → wel b cs = true → erase_cmd op w = true → addressable w a →
    let b' := (transact b cs (encode_addr_cmd op a w) 0).1 in
    array b' (other cs) = array b (other cs) ∧
    ∀ x, x / SECTOR ≠ a / SECTOR → array b' cs x = array b cs x;
  nor_programs b cs op w a data :
    busy b cs = false → wel b cs = true → program_cmd op w = true → addressable w a →
    0 < Z.of_nat (length data) → a mod PAGE + Z.of_nat (length data) ≤ PAGE →
    let b' := (transact b cs (encode_addr_cmd op a w ++ data) 0).1 in
    array b' (other cs) = array b (other cs) ∧
    ∀ x, ¬ (a ≤ x < a + Z.of_nat (length data)) → array b' cs x = array b cs x;
}.

(** ** Bytes of a command *)

Lemma in_u8_land v : in_u8 (Z.land v 255).
Proof.
  unfold in_u8, u8_MAX. change (Z.land v 255) with (Z.land v (Z.ones 8)). rewrite Z.land_ones by lia.
  pose proof (Z.mod_pos_bound v (2 ^ 8) ltac:(lia)). change (2 ^ 8) with 256 in *. lia.
Qed.

Lemma encode_bytes op a w : in_u8 op → Forall in_u8 (encode_addr_cmd op a w).
Proof.
  intros Ho. unfold encode_addr_cmd, be_bytes.
  destruct w; cbn [drop]; repeat constructor; try apply in_u8_land; apply Ho.
Qed.

Lemma encode_length op a w : length (encode_addr_cmd op a w) = S (byte_count w).
Proof. by destruct w. Qed.

(** ** Changes *)

Section nor.
Context {B : Type} `{NorLaws B}.
Implicit Types (b : B) (cs : ChipSelect).

(** Only bytes of [cs] in [P] may differ. *)
Record touched cs (P : Z → Prop) b b' : Prop := {
  t_other : array b' (other cs) = array b (other cs);
  t_out x : ¬ P x → array b' cs x = array b cs x;
}.

#[global] Instance touched_preorder cs P : PreOrder (touched cs P).
Proof.
  split; [by constructor|]. intros b1 b2 b3 [E1 O1] [E2 O2]. split; [congruence|].
  intros x Hx. by rewrite O2, O1.
Qed.

Lemma touched_mono cs (P P' : Z → Prop) b b' : (∀ x, P x → P' x) → touched cs P b b' → touched cs P' b b'.
Proof. intros HP [E O]. split; [done|]. intros x Hx. apply O. auto. Qed.

Lemma touched_same cs P b b' : array b' = array b → touched cs P b b'.
Proof. intros E. split; [by rewrite E|]. intros x _. by rewrite E. Qed.

(** Erase and program do what they are meant to. *)
Definition reliable : Prop :=
  (∀ b cs op w a, busy b cs = false → wel b cs = true → erase_cmd op w = true → addressable w a →
     ∀ x, x / SECTOR = a / SECTOR → array (transact b cs (encode_addr_cmd op a w) 0).1 cs x = 255) ∧
  (∀ b cs op w a data, busy b cs = false → wel b cs = true → program_cmd op w = true → addressable w a →
     0 < Z.of_nat (length data) → a mod PAGE + Z.of_nat (length data) ≤ PAGE →
     ∀ k v, data !! k = Some v →
       array (transact b cs (encode_addr_cmd op a w ++ data) 0).1 cs (a + Z.of_nat k) =
       Z.land (array b cs (a + Z.of_nat k)) v).

(** The bus after reading the status [k] times. *)
Definition polled b cs (k : nat) : B := Nat.iter k (λ b, (transact b cs [READ_STATUS] 1).1) b.

(** Within [k] polls the flash reports that it is done. *)
Definition patient (k : nat) b cs : Prop := ∃ i, (i < k)%nat ∧ busy (polled b cs (S i)) cs = false.
Definition nor_prompt : Prop := ∀ b cs, patient WRITE_COMPLETE_MAX_POLLS b cs.

Lemma polled_S b cs k : polled b cs (S k) = polled (transact b cs [READ_STATUS] 1).1 cs k.
Proof. unfold polled. by rewrite Nat.iter_succ_r. Qed.

Lemma patient_S k b cs :
  busy (transact b cs [READ_STATUS] 1).1 cs = true →
  patient (S k) b cs → patient k (transact b cs [READ_STATUS] 1).1 cs.
Proof.
  intros Hb ([|i] & Hi & Hbusy).
  - cbn in Hbusy. congruence.
  - exists i. split; [lia|]. by rewrite <- polled_S.
Qed.
End nor.

(** ** A flash on a controller *)

Section flash.
Context {H B : Type} `{SmcLaws H B} `{!NorLaws B}.
Implicit Types (m : Smc H) (f : SpiNorFlash).
Local Notation smc A := (Smc.smc (H := H) A).

(** The flash [f] of [cap] bytes: its chip select is attached, the controller is
    free, its geometry is that of the commands. *)
Record flash_on f (cap : Z) m : Prop := {
  fo_attached : attached (nf_cs f) cap m;
  fo_idle : sm_state m = Idle;
  fo_page : page_size (nf_cfg f) = PAGE;
  fo_sector : sector_size (nf_cfg f) = SECTOR;
  fo_profile : nf_command_profile f = for_addressing (nf_addressing_policy f);
  fo_width : cap ≤ 2 ^ (8 * Z.of_nat (byte_count (nor_addr_width f)));
}.

Definition settled f m : Prop := busy (hw_bus m) (nf_cs f) = false.

Lemma flash_on_steady f cap m m' : steady m m' → flash_on f cap m → flash_on f cap m'.
Proof. intros St []. constructor; [by eapply attached_steady|by rewrite (st_state _ _ St)|done..]. Qed.

(** Capacities are whole mebibytes. *)
Lemma flash_on_cap f cap m : flash_on f cap m → SECTOR < cap ≤ 2 ^ 28 ∧ cap mod SECTOR = 0.
Proof.
  intros [[? [c Hc] Hcap ? _ _ _ _ _]]. unfold cs_capacity_bytes, flash_capacity_bytes, in_usize in Hcap.
  rewrite Hc in Hcap. case_match; [|done]. injection Hcap as <-.
  unfold SMC_WINDOW_SIZE_BYTES in *. unfold SECTOR. change (2 ^ 28) with (256 * 1024 * 1024).
  split; [lia|]. change (1024 * 1024) with (256 * 4096). by rewrite Z.mul_assoc, Z.mod_mul.
Qed.

(** A flash built on an attached slot, in the state start-up leaves. *)
Lemma from_cs_on cfg cs cap m :
  attached cs cap m → sm_state m = Idle → page_size cfg = PAGE → sector_size cfg = SECTOR →
  dwp (nor_from_cs cfg cs) (λ r m', m' = m ∧ match r with
    | Ok f => nf_cs f = cs ∧ flash_on f cap m
    | Err e => e = SmcInvalidCapacity ∧ slot (sm_config m) cs ≠ Some cfg
    end) m.
Proof.
  intros Hat Hidle Hp Hs. unfold nor_from_cs, cs_config. dwp_steps.
  destruct (at_slot _ _ _ Hat) as [c Hc]. rewrite Hc. cbn [ok_or]. dwp_step. dwp_step.
  unfold validate_capacity_cfg. case_bool_decide as Heq; [|by split; [|split; [|intros [= ->]]]].
  subst c. dwp_step. split; [done|]. split; [done|]. constructor; try done.
  pose proof (at_cap _ _ _ Hat) as Hcap. pose proof (at_range _ _ _ Hat) as Hr.
  unfold cs_capacity_bytes, flash_capacity_bytes, in_usize in Hcap. rewrite Hc in Hcap.
  case_match; [|done]. injection Hcap as <-. unfold SMC_WINDOW_SIZE_BYTES in Hr.
  unfold nor_addr_width, default_addressing_for_cfg. cbn [nf_addressing_policy].
  destruct (Z.ltb_spec 16 (capacity_mb cfg)); cbn [policy_addr_width byte_count].
  - change (2 ^ (8 * Z.of_nat 4)) with (4096 * 1024 * 1024). lia.
  - change (2 ^ (8 * Z.of_nat 3)) with (16 * 1024 * 1024). lia.
Qed.

Lemma issue_command_spec f cap cmd payload m :
  flash_on f cap m → Forall in_u8 cmd → Forall in_u8 payload →
  (length cmd ≤ 5)%nat → (length payload ≤ 256)%nat →
  dwp (issue_command f cmd payload) (λ r m', steady m m' ∧ r = Ok () ∧
    hw_bus m' = (transact (hw_bus m) (nf_cs f) (cmd ++ payload) 0).1) m.
Proof.
  intros Hf Hc Hp Lc Lp. pose proof (flash_on_cap _ _ _ Hf) as [[Hcap _] _]. unfold SECTOR in Hcap.
  unfold issue_command. apply dwp_bind. eapply dwp_mono.
  { apply (transceive_spec _ cap); [apply Hf..|done|done|lia|lia|lia]. }
  intros r m' (St & out & -> & Hb). apply dwp_ret. split; [done|]. split; [done|]. by rewrite <- Hb.
Qed.

Lemma read_status_spec f cap m :
  flash_on f cap m →
  dwp (read_status_impl f) (λ r m', steady m m' ∧ ∃ s, r = Ok s ∧
    Z.testbit s 0 = busy (hw_bus m') (nf_cs f) ∧ array (hw_bus m') = array (hw_bus m) ∧
    hw_bus m' = (transact (hw_bus m) (nf_cs f) [READ_STATUS] 1).1) m.
Proof.
  intros Hf. pose proof (flash_on_cap _ _ _ Hf) as [[Hcap _] _]. unfold SECTOR in Hcap.
  assert (read_status (nf_command_profile f) = READ_STATUS) as E.
  { rewrite (fo_profile _ _ _ Hf). by destruct (nf_addressing_policy f). }
  unfold read_status_impl. rewrite E. apply dwp_bind. eapply dwp_mono.
  { apply (transceive_spec _ cap); [apply Hf..| |done|cbn; lia|cbn; lia|lia].
    constructor; [unfold in_u8, READ_STATUS, u8_MAX; lia|done]. }
  intros r m' (St & out & -> & Hb). apply dwp_ret. split; [done|].
  pose proof (nor_status (hw_bus m) (nf_cs f)) as Hs. cbn [app] in Hb. rewrite <- Hb in Hs.
  destruct Hs as (s & -> & Hbit & Ha). exists s. split; [done|]. split; [done|]. split; [done|].
  by rewrite <- Hb.
Qed.

Lemma wip_bit s : (Z.land s STATUS_WIP =? 0) = negb (Z.testbit s 0).
Proof.
  unfold STATUS_WIP. change 1 with (Z.ones 1). rewrite Z.land_ones by lia. change (2 ^ 1) with 2.
  rewrite Zmod_odd, Z.bit0_odd. by destruct (Z.odd s).
Qed.

Lemma wait_write_complete_spec f cap k m :
  flash_on f cap m →
  dwp (wait_write_complete f k) (λ r m', steady m m' ∧ array (hw_bus m') = array (hw_bus m) ∧
    match r with
    | Ok _ => settled f m'
    | Err e => e = SmcTimeout ∧ ¬ patient k (hw_bus m) (nf_cs f)
    end) m.
Proof.
  revert m. induction k as [|k IH]; intros m Hf; cbn [wait_write_complete].
  { apply dwp_raise. split; [done|]. split; [done|]. split; [done|]. intros (i & Hi & _). lia. }
  apply dwp_bind. eapply dwp_mono; [by apply (read_status_spec f cap)|].
  intros r m1 (St & s & -> & Hbit & Ha & Hb). cbn beta iota. rewrite wip_bit, Hbit.
  destruct (busy (hw_bus m1) (nf_cs f)) eqn:Hbusy; cbn [negb]; [|by apply dwp_ret].
  eapply dwp_mono; [apply IH; by eapply flash_on_steady|].
  intros r m2 (St2 & Ha2 & Hr). split; [by etrans|]. split; [congruence|].
  destruct r as [|e]; [done|]. destruct Hr as [-> Hp]. split; [done|]. intros Hpat. apply Hp.
  rewrite Hb. apply patient_S; [by rewrite <- Hb|done].
Qed.

(** Write enable, a command, and the wait: [R] is what the command does to the
    bytes. *)
Lemma write_op_spec f cap cmd payload (R : B → B → Prop) m :
  flash_on f cap m → settled f m → Forall in_u8 cmd → Forall in_u8 payload →
  (length cmd ≤ 5)%nat → (length payload ≤ 256)%nat →
  (∀ b, array b = array (hw_bus m) → busy b (nf_cs f) = false → wel b (nf_cs f) = true →
     R b (transact b (nf_cs f) (cmd ++ payload) 0).1) →
  dwp (write_enable f;; issue_command f cmd payload;; wait_write_complete f WRITE_COMPLETE_MAX_POLLS)
    (λ r m', steady m m' ∧
      (∃ b b', array b = array (hw_bus m) ∧ array b' = array (hw_bus m') ∧ R b b') ∧
      match r with Ok _ => settled f m' | Err e => e = SmcTimeout ∧ ¬ nor_prompt (B := B) end) m.
Proof.
  intros Hf Hset Hc Hp Lc Lp HR.
  assert (cp_write_enable (nf_command_profile f) = WRITE_ENABLE) as E.
  { rewrite (fo_profile _ _ _ Hf). by destruct (nf_addressing_policy f). }
  unfold write_enable. rewrite E. apply dwp_bind. eapply dwp_mono.
  { apply (issue_command_spec f cap); [done| |done|cbn; lia|cbn; lia].
    constructor; [unfold in_u8, WRITE_ENABLE, u8_MAX; lia|done]. }
  intros r m1 (St1 & -> & Hb1). cbn beta iota.
  destruct (nor_wren (hw_bus m) (nf_cs f) Hset) as (Hw & Hnb & Ha). cbn [app] in Hb1.
  rewrite <- Hb1 in Hw, Hnb, Ha.
  assert (flash_on f cap m1) as Hf1 by by eapply flash_on_steady.
  apply dwp_bind. eapply dwp_mono; [by apply (issue_command_spec f cap)|].
  intros r m2 (St2 & -> & Hb2). cbn beta iota. specialize (HR (hw_bus m1) Ha Hnb Hw).
  rewrite <- Hb2 in HR. eapply dwp_mono.
  { apply (wait_write_complete_spec f cap). by eapply flash_on_steady. }
  intros r m3 (St3 & Ha3 & Hr). split; [by do 2 (etrans; [done|])|]. split; [by exists (hw_bus m1), (hw_bus m2)|].
  destruct r as [|e]; [done|]. destruct Hr as [-> Hpat]. split; [done|]. intros Hprompt. apply Hpat, Hprompt.
Qed.
End flash.
