(* ===== verification/NorChip.v ===== *)
(** * SPI NOR flash: a controller with two flashes

    A concrete instance of [SmcHw], [SpiBus], [SmcLaws] and [NorLaws]: the
    control and segment registers, and two flashes that collect the bytes sent while
    they are selected and execute the command when they are deselected.  An erase or
    a program keeps a flash busy for two status reads. *)

From S2P Require Import Prelude Bytes RegMonad Spim SpimRun Soc SocRun Smc SmcRun NorFlash.
From stdpp Require Import base tactics option list numbers sets.
Local Open Scope Z_scope.

(** ** The flashes *)

Inductive phase := Ready | Last | Working.
Definition is_busy (p : phase) : bool := match p with Ready => false | _ => true end.
Definition tick (p : phase) : phase := match p with Working => Last | _ => Ready end.

Record nor_bus := mkNorBus {
  nb_mem : (Z → Z) * (Z → Z); nb_wel : bool * bool; nb_phase : phase * phase;
  nb_selected : option ChipSelect; nb_in : list Z;
}.

Definition addr3 (x y z : Z) : Z := x * 65536 + y * 256 + z.
Definition addr4 (w x y z : Z) : Z := w * 16777216 + addr3 x y z.

Definition erased (mem : Z → Z) (a : Z) : Z → Z := λ x, if x / SECTOR =? a / SECTOR then 255 else mem x.

(** Programming clears bits, and wraps around in the page. *)
Definition programmed (mem : Z → Z) (a : Z) (data : list Z) : Z → Z := λ x,
  if x / PAGE =? a / PAGE then
    match data !! Z.to_nat ((x - a) mod PAGE) with Some v => Z.land (mem x) v | None => mem x end
  else mem x.

Inductive nor_command := NcWriteEnable | NcStatus | NcErase (a : Z) | NcProgram (a : Z) (data : list Z) | NcOther.

Definition nor_decode (l : list Z) : nor_command :=
  match l with
  | [] => NcOther
  | op :: l =>
      if op =? WRITE_ENABLE then NcWriteEnable
      else if op =? READ_STATUS then NcStatus
      else if op =? ERASE_SECTOR_4K then match l with [x; y; z] => NcErase (addr3 x y z) | _ => NcOther end
      else if op =? ERASE_SECTOR_4K_4B then
        match l with [w; x; y; z] => NcErase (addr4 w x y z) | _ => NcOther end
      else if op =? PAGE_PROGRAM then
        match l with x :: y :: z :: data => NcProgram (addr3 x y z) data | _ => NcOther end
      else if op =? PAGE_PROGRAM_4B then
        match l with w :: x :: y :: z :: data => NcProgram (addr4 w x y z) data | _ => NcOther end
      else NcOther
  end.

(** A write needs the latch, clears it, and makes the flash busy. *)
Definition nor_write (cs : ChipSelect) (f : (Z → Z) → Z → Z) (b : nor_bus) : nor_bus :=
  if negb (is_busy (at_cs cs (nb_phase b))) && at_cs cs (nb_wel b) then
    mkNorBus (set_at_cs cs (f (at_cs cs (nb_mem b))) (nb_mem b)) (set_at_cs cs false (nb_wel b))
      (set_at_cs cs Working (nb_phase b)) (nb_selected b) (nb_in b)
  else b.

Definition nor_execute (cs : ChipSelect) (b : nor_bus) : nor_bus :=
  match nor_decode (nb_in b) with
  | NcWriteEnable => mkNorBus (nb_mem b) (set_at_cs cs true (nb_wel b)) (nb_phase b) (nb_selected b) (nb_in b)
  | NcStatus =>
      mkNorBus (nb_mem b) (nb_wel b) (set_at_cs cs (tick (at_cs cs (nb_phase b))) (nb_phase b))
        (nb_selected b) (nb_in b)
  | NcErase a => nor_write cs (λ mem, erased mem a) b
  | NcProgram a data => nor_write cs (λ mem, programmed mem a data) b
  | NcOther => b
  end.

Definition status_byte (b : nor_bus) : Z :=
  match nb_selected b, nor_decode (nb_in b) with
  | Some cs, NcStatus => Z.b2z (is_busy (tick (at_cs cs (nb_phase b))))
  | _, _ => 255
  end.

#[export] Instance nor_spi : SpiBus nor_bus := {
  bus_select b cs := mkNorBus (nb_mem b) (nb_wel b) (nb_phase b) (Some cs) [];
  bus_deselect b :=
    let b' := match nb_selected b with Some cs => nor_execute cs b | None => b end in
    mkNorBus (nb_mem b') (nb_wel b') (nb_phase b') None [];
  bus_send b v := mkNorBus (nb_mem b) (nb_wel b) (nb_phase b) (nb_selected b) (nb_in b ++ [v]);
  bus_recv b := (b, status_byte b);
  bus_mem b cs a := Z.land (at_cs cs (nb_mem b) a) 255;
}.

Lemma nor_sends b l :
  sends b l = mkNorBus (nb_mem b) (nb_wel b) (nb_phase b) (nb_selected b) (nb_in b ++ l).
Proof.
  revert b. induction l as [|x l IH]; intros b.
  - rewrite app_nil_r. by destruct b.
  - change (sends b (x :: l)) with (sends (bus_send b x) l). rewrite IH. cbn. by rewrite <- app_assoc.
Qed.

(** A command that sends only. *)
Lemma nor_transact b cs l :
  (transact b cs l 0).1 =
  let b' := nor_execute cs (mkNorBus (nb_mem b) (nb_wel b) (nb_phase b) (Some cs) l) in
  mkNorBus (nb_mem b') (nb_wel b') (nb_phase b') None [].
Proof. unfold transact. cbn [recvs]. rewrite nor_sends. done. Qed.

Lemma at_set_cs {A} cs (v : A) p : at_cs cs (set_at_cs cs v p) = v.
Proof. by destruct cs. Qed.
Lemma at_set_other {A} cs (v : A) p : at_cs (other cs) (set_at_cs cs v p) = at_cs (other cs) p.
Proof. by destruct cs. Qed.

(** The address of a command is the one that was encoded. *)
Lemma be_byte a k : 0 ≤ k → Z.land (Z.shiftr a k) 255 = a / 2 ^ k mod 256.
Proof. intros Hk. change 255 with (Z.ones 8). by rewrite Z.land_ones, Z.shiftr_div_pow2 by lia. Qed.

Lemma encoded_address3 a :
  addressable ThreeByte a →
  addr3 (Z.land (Z.shiftr a 16) 255) (Z.land (Z.shiftr a 8) 255) (Z.land a 255) = a.
Proof.
  unfold addr3. replace (Z.land a 255) with (Z.land (Z.shiftr a 0) 255) by by rewrite Z.shiftr_0_r.
  unfold addressable. change (2 ^ (8 * Z.of_nat (byte_count ThreeByte))) with 16777216.
  rewrite !be_byte by lia. change (2 ^ 16) with 65536. change (2 ^ 8) with 256. change (2 ^ 0) with 1.
  intros Ha. Z.to_euclidean_division_equations; lia.
Qed.

Lemma encoded_address4 a :
  addressable FourByte a →
  addr4 (Z.land (Z.shiftr a 24) 255) (Z.land (Z.shiftr a 16) 255) (Z.land (Z.shiftr a 8) 255)
     (Z.land a 255) = a.
Proof.
  unfold addr4, addr3. replace (Z.land a 255) with (Z.land (Z.shiftr a 0) 255) by by rewrite Z.shiftr_0_r.
  unfold addressable. change (2 ^ (8 * Z.of_nat (byte_count FourByte))) with 4294967296.
  rewrite !be_byte by lia. change (2 ^ 24) with 16777216. change (2 ^ 16) with 65536.
  change (2 ^ 8) with 256. change (2 ^ 0) with 1.
  intros Ha. Z.to_euclidean_division_equations; lia.
Qed.

Ltac decode_command :=
  cbv beta iota delta [nor_decode encode_addr_cmd be_bytes drop app Z.eqb Pos.eqb WRITE_ENABLE READ_STATUS
    ERASE_SECTOR_4K ERASE_SECTOR_4K_4B PAGE_PROGRAM PAGE_PROGRAM_4B].

Lemma erase_decodes op w a :
  erase_cmd op w = true → addressable w a → nor_decode (encode_addr_cmd op a w) = NcErase a.
Proof.
  destruct w; cbn [erase_cmd]; [done|..]; intros ->%Z.eqb_eq Ha; decode_command;
    [by rewrite encoded_address3|by rewrite encoded_address4].
Qed.

Lemma program_decodes op w a data :
  program_cmd op w = true → addressable w a →
  nor_decode (encode_addr_cmd op a w ++ data) = NcProgram a data.
Proof.
  destruct w; cbn [program_cmd]; [done|..]; intros ->%Z.eqb_eq Ha; decode_command;
    [by rewrite encoded_address3|by rewrite encoded_address4].
Qed.

(** A write command on an idle flash whose latch is set. *)
Lemma nor_write_command b cs l f :
  is_busy (at_cs cs (nb_phase b)) = false → at_cs cs (nb_wel b) = true →
  (∀ b', nb_in b' = l → nor_execute cs b' = nor_write cs f b') →
  nb_mem (transact b cs l 0).1 = set_at_cs cs (f (at_cs cs (nb_mem b))) (nb_mem b).
Proof.
  intros Hb Hw Hex. rewrite nor_transact, Hex by done. unfold nor_write. cbn [nb_phase nb_wel].
  by rewrite Hb, Hw.
Qed.

(** Where a program that fits in its page lands. *)
Lemma page_offset a x n :
  a mod PAGE + n ≤ PAGE → x / PAGE = a / PAGE → (x - a) mod PAGE < n ↔ a ≤ x < a + n.
Proof.
  unfold PAGE. intros Hfit Hx. pose proof (Z.div_mod x 256 ltac:(lia)). pose proof (Z.div_mod a 256 ltac:(lia)).
  pose proof (Z.mod_pos_bound x 256 ltac:(lia)). pose proof (Z.mod_pos_bound a 256 ltac:(lia)).
  destruct (decide (a ≤ x)) as [Hle|Hgt].
  - rewrite Z.mod_small by lia. lia.
  - rewrite <- (Z.mod_add _ 1), Z.mod_small by lia. lia.
Qed.

#[export] Program Instance nor_laws : NorLaws nor_bus := {
  array b cs a := Z.land (at_cs cs (nb_mem b) a) 255;
  wel b cs := at_cs cs (nb_wel b);
  busy b cs := is_busy (at_cs cs (nb_phase b));
}.
Next Obligation. intros. apply in_u8_land. Qed.
Next Obligation. done. Qed.
Next Obligation. intros b cs Hb. rewrite nor_transact. cbn. by rewrite at_set_cs. Qed.
Next Obligation.
  intros b cs. unfold transact. cbn [recvs bus_recv nor_spi]. rewrite nor_sends.
  exists (Z.b2z (is_busy (tick (at_cs cs (nb_phase b))))). split; [done|]. rewrite Z.b2z_bit0.
  cbn. by rewrite at_set_cs.
Qed.
Next Obligation. intros b cs Hb. unfold transact. cbn [recvs bus_recv nor_spi]. by rewrite nor_sends. Qed.
Next Obligation.
  intros b cs op w a Hb Hw Hop Ha. cbn beta zeta. rewrite (nor_write_command b cs _ (λ mem, erased mem a)); [|done..|].
  2:{ intros b' E. unfold nor_execute. rewrite E, erase_decodes by done. reflexivity. }
  rewrite at_set_other. split; [done|]. intros x Hx. rewrite at_set_cs. unfold erased.
  by rewrite (proj2 (Z.eqb_neq _ _)) by done.
Qed.
Next Obligation.
  intros b cs op w a data Hb Hw Hop Ha Hlen Hfit. cbn beta zeta. rewrite (nor_write_command b cs _ (λ mem, programmed mem a data)); [|done..|].
  2:{ intros b' E. unfold nor_execute. rewrite E, program_decodes by done. reflexivity. }
  rewrite at_set_other. split; [done|]. intros x Hx. rewrite at_set_cs. unfold programmed.
  destruct (Z.eqb_spec (x / PAGE) (a / PAGE)) as [E|]; [|done].
  rewrite lookup_ge_None_2; [done|]. rewrite <- (page_offset a x _ Hfit E) in Hx.
  pose proof (Z.mod_pos_bound (x - a) PAGE ltac:(done)). lia.
Qed.

Lemma nor_reliable : reliable (B := nor_bus).
Proof.
  split.
  - intros b cs op w a Hb Hw Hop Ha x Hx. cbn [array nor_laws]. rewrite (nor_write_command b cs _ (λ mem, erased mem a)); [|done..|].
    2:{ intros b' E. unfold nor_execute. rewrite E, erase_decodes by done. reflexivity. }
    rewrite at_set_cs. unfold erased. by rewrite (proj2 (Z.eqb_eq _ _)).
  - intros b cs op w a data Hb Hw Hop Ha Hlen Hfit k v Hk. cbn [array nor_laws].
    rewrite (nor_write_command b cs _ (λ mem, programmed mem a data)); [|done..|].
    2:{ intros b' E. unfold nor_execute. rewrite E, program_decodes by done. reflexivity. }
    rewrite at_set_cs. unfold programmed. apply lookup_lt_Some in Hk as Hk'.
    assert ((a + Z.of_nat k) / PAGE = a / PAGE) as E.
    { unfold PAGE in *. pose proof (Z.div_mod a 256 ltac:(lia)). pose proof (Z.mod_pos_bound a 256 ltac:(lia)).
      symmetry. apply (Z.div_unique_pos _ _ _ (a mod 256 + Z.of_nat k)); lia. }
    rewrite (proj2 (Z.eqb_eq _ _) E). replace (a + Z.of_nat k - a) with (Z.of_nat k) by lia.
    pose proof (Z.mod_pos_bound a PAGE ltac:(done)).
    rewrite Z.mod_small, Nat2Z.id, Hk by lia. rewrite <- !Z.land_assoc. f_equal. apply Z.land_comm.
Qed.

Lemma nor_is_prompt : nor_prompt (B := nor_bus).
Proof.
  intros b cs. exists 1%nat. split; [apply Nat2Z.inj_lt; unfold WRITE_COMPLETE_MAX_POLLS; rewrite Z2Nat.id; lia|].
  rewrite !polled_S. assert (∀ b', at_cs cs (nb_phase (transact b' cs [READ_STATUS] 1).1) =
    tick (at_cs cs (nb_phase b'))) as Htick.
  { intros b'. unfold transact. cbn [recvs bus_recv nor_spi]. rewrite nor_sends. cbn. by rewrite at_set_cs. }
  change (is_busy (at_cs cs (nb_phase (transact (transact b cs [READ_STATUS] 1).1 cs [READ_STATUS] 1).1)) = false).
  rewrite !Htick. by destruct (at_cs cs (nb_phase b)).
Qed.

(** ** The controller *)

Record nor_board := mkBoard {
  bd_bus : nor_bus; bd_ctrl : Z * Z; bd_seg : Z * Z; bd_unit : SmcController;
}.
Definition on_bus (b : nor_bus) (h : nor_board) : nor_board := mkBoard b (bd_ctrl h) (bd_seg h) (bd_unit h).

(** The chip select an access of [a] shifts on. *)
Definition shifting (h : nor_board) (a : Z) (cs : ChipSelect) : bool :=
  user_active (at_cs cs (bd_ctrl h)) && negb (user_active (at_cs (other cs) (bd_ctrl h))) &&
  decodes (bd_unit h) (at_cs cs (bd_seg h)) a.
Definition any_shifting (h : nor_board) (a : Z) : bool := shifting h a Cs0 || shifting h a Cs1.

Definition board_ctrl (h : nor_board) (cs : ChipSelect) (v : Z) : nor_board :=
  mkBoard
    (match user_active (at_cs cs (bd_ctrl h)), user_active v with
     | false, true => bus_select (bd_bus h) cs
     | true, false => bus_deselect (bd_bus h)
     | _, _ => bd_bus h
     end) (set_at_cs cs v (bd_ctrl h)) (bd_seg h) (bd_unit h).
Definition board_seg (h : nor_board) (cs : ChipSelect) (v : Z) : nor_board :=
  mkBoard (bd_bus h) (bd_ctrl h) (set_at_cs cs v (bd_seg h)) (bd_unit h).

Definition window_byte (h : nor_board) (cs : ChipSelect) (a : Z) : Z :=
  bus_mem (bd_bus h) cs (a - flash_window_address (bd_unit h) - seg_start (bd_unit h) (at_cs cs (bd_seg h))).

#[export] Instance nor_smc : SmcHw nor_board := {
  reg_read h o :=
    (h, if o =? 0x010 then (bd_ctrl h).1 else if o =? 0x014 then (bd_ctrl h).2
        else if o =? 0x030 then (bd_seg h).1 else if o =? 0x034 then (bd_seg h).2 else 0);
  reg_write h o v :=
    if o =? 0x010 then board_ctrl h Cs0 v else if o =? 0x014 then board_ctrl h Cs1 v
    else if o =? 0x030 then board_seg h Cs0 v else if o =? 0x034 then board_seg h Cs1 v else h;
  ahb_read8 h a :=
    if any_shifting h a then let '(b, v) := bus_recv (bd_bus h) in (on_bus b h, v)
    else (h, if decodes (bd_unit h) (bd_seg h).1 a then window_byte h Cs0 a else window_byte h Cs1 a);
  ahb_read32 h a :=
    if any_shifting h a then
      let '(b0, v0) := bus_recv (bd_bus h) in let '(b1, v1) := bus_recv b0 in
      let '(b2, v2) := bus_recv b1 in let '(b3, v3) := bus_recv b2 in
      (on_bus b3 h, u32_from_le_bytes v0 v1 v2 v3)
    else (h, 0);
  ahb_write8 h a v := if any_shifting h a then on_bus (bus_send (bd_bus h) v) h else h;
  ahb_write32 h a v := if any_shifting h a then on_bus (sends (bd_bus h) (u32_to_le_bytes v)) h else h;
  dma_kick v := Z.lor v 1;
}.

Lemma status_byte_u8 b : in_u8 (status_byte b).
Proof.
  unfold status_byte, in_u8, u8_MAX. destruct (nb_selected b) as [cs|]; [|lia].
  destruct (nor_decode (nb_in b)); try lia. destruct (is_busy _); cbn; lia.
Qed.

Lemma shifting_any h cs a :
  user_active (at_cs cs (bd_ctrl h)) = true → user_active (at_cs (other cs) (bd_ctrl h)) = false →
  decodes (bd_unit h) (at_cs cs (bd_seg h)) a = true → any_shifting h a = true.
Proof.
  intros Hu Ho Hd. unfold any_shifting. assert (shifting h a cs = true) as E.
  { unfold shifting. by rewrite Hu, Ho, Hd. }
  destruct cs; rewrite E; [done|apply orb_true_r].
Qed.

#[export] Program Instance nor_board_laws : SmcLaws nor_board nor_bus := {
  bus := bd_bus;
  ctrl h cs := at_cs cs (bd_ctrl h);
  seg h cs := at_cs cs (bd_seg h);
  unit_of := bd_unit;
}.
Next Obligation. intros. apply status_byte_u8. Qed.
Next Obligation. done. Qed.
Next Obligation. by intros h []. Qed.
Next Obligation.
  intros h o v H1 H2 H3 H4. cbn [reg_write nor_smc].
  by rewrite !(proj2 (Z.eqb_neq _ _)) by done.
Qed.
Next Obligation. by intros h [] v. Qed.
Next Obligation. by intros h [] v. Qed.
Next Obligation. intros h cs a v Hu Ho Hd. cbn [ahb_write32 nor_smc]. by rewrite (shifting_any h cs). Qed.
Next Obligation. intros h cs a v Hu Ho Hd. cbn [ahb_write8 nor_smc]. by rewrite (shifting_any h cs). Qed.
Next Obligation.
  intros h cs a Hu Ho Hd. cbn [ahb_read32 nor_smc]. rewrite (shifting_any h cs) by done.
  cbn [bus_recv nor_spi recvs]. rewrite le_bytes_of_word by apply status_byte_u8. done.
Qed.
Next Obligation. intros h cs a Hu Ho Hd. cbn [ahb_read8 nor_smc]. by rewrite (shifting_any h cs). Qed.
Next Obligation.
  intros h cs a Hu Ho Hd Hd'. cbn [ahb_read8 nor_smc].
  assert (any_shifting h a = false) as E.
  { unfold any_shifting, shifting. by destruct cs; cbn [at_cs other] in *; rewrite Hu, Ho. }
  rewrite E. split; [|done]. by destruct cs; cbn [at_cs other] in *; rewrite ?Hd, ?Hd'.
Qed.

(** ** Two flashes of 8 and 32 MiB on SPI1 *)

Definition demo_config : SmcConfig :=
  mkSmcConfig SmcSpi1 (Some winbond_w25q64) (Some winbond_w25q256) false false (NormalSpi 2).
Definition demo_board : nor_board :=
  mkBoard (mkNorBus (λ a, a, λ a, a) (false, false) (Ready, Ready) None []) (0, 0) (0, 0) SmcSpi1.

(** The controller before and after start-up, and the flash of the second chip select. *)
Definition demo_start : Smc nor_board := mkSmc demo_board SmcSpi1 demo_config Idle (0, 0) (0, 0).
Definition demo_smc : Smc nor_board :=
  match init demo_start with Some (m, _) => m | None => demo_start end.
Definition demo_flash : SpiNorFlash := mkNor winbond_w25q256 Cs1 Mode111 FourByteCommands
  (for_addressing FourByteCommands).
