(* ===== verification/SmcInit.v ===== *)
(** * Start-up of the flash controllers

    The segments [init] writes decode each flash exactly at its window, so a flash
    built on a configured slot is ready for its commands. *)

From S2P Require Import Prelude Bytes RegMonad Spim SpimRun Soc SocRun Smc SmcRun NorFlash NorChip.
From stdpp Require Import base tactics option list numbers.
Local Open Scope Z_scope.

(** ** Segments *)

Lemma testbit_mask j k n :
  0 ≤ j → 0 ≤ k → 0 ≤ n → Z.testbit (Z.shiftl (Z.ones k) j) n = (j <=? n) && (n <? j + k).
Proof.
  intros Hj Hk Hn. rewrite Z.shiftl_spec by done. destruct (Z.leb_spec j n) as [Hle|Hlt].
  - rewrite Z.testbit_ones by lia. rewrite (proj2 (Z.leb_le 0 (n - j))) by lia. cbn [andb].
    destruct (Z.ltb_spec n (j + k)); [apply Z.ltb_lt|apply Z.ltb_ge]; lia.
  - apply Z.testbit_neg_r. lia.
Qed.

Lemma aligned_bits u v n : 0 ≤ u → v mod 2 ^ u = 0 → 0 ≤ n < u → Z.testbit v n = false.
Proof.
  intros Hu Hv Hn. rewrite <- (Z.mod_pow2_bits_low v u n) by lia. rewrite Hv. apply Z.testbit_0_l.
Qed.

Lemma align_down_mask u v : 0 ≤ u → v mod 2 ^ u = 0 → Z.shiftl (Z.shiftr v u) u = v.
Proof.
  intros Hu Hv. rewrite Z.shiftl_mul_pow2, Z.shiftr_div_pow2 by done.
  pose proof (Z.div_mod v (2 ^ u) ltac:(lia)). lia.
Qed.

Lemma align_last u v : 0 < u → v mod 2 ^ u = 0 → Z.shiftl (Z.shiftr (v - 1) u) u = v - 2 ^ u.
Proof.
  intros Hu Hv. rewrite Z.shiftl_mul_pow2, Z.shiftr_div_pow2 by lia.
  assert (0 < 2 ^ u) by (apply Z.pow_pos_nonneg; lia). apply Z.mod_divide in Hv as [q ->]; [|lia].
  replace (q * 2 ^ u - 1) with ((q - 1) * 2 ^ u + (2 ^ u - 1)) by lia.
  rewrite Z.div_add_l, Z.div_small by lia. lia.
Qed.

Lemma lor_low u v : 0 ≤ u → v mod 2 ^ u = 0 → Z.lor v (Z.ones u) = v + Z.ones u.
Proof.
  intros Hu Hv. pose proof (Z.add_lor_land v (Z.ones u)) as E.
  rewrite Z.land_ones, Hv in E by done. lia.
Qed.

Lemma bits_between u k v n :
  0 ≤ u → 0 ≤ k → v mod 2 ^ u = 0 → 0 ≤ v < 2 ^ (u + k) → 0 ≤ n → ¬ (u ≤ n < u + k) →
  Z.testbit v n = false.
Proof.
  intros Hu Hk Hv Hr Hn Hout. destruct (decide (n < u)); [by apply (aligned_bits u)|].
  apply (high_bit v (u + k)); lia.
Qed.

(** The fields of a segment register: [k] bits of the start at bit [u - 16], [k]
    bits of the last unit at bit [u]. *)
Section segment.
Context (u k ML MH : Z) (Hu : 16 ≤ u) (Hk : 0 < k).
Context (Hlo : ∀ n, u - 16 ≤ n < u - 16 + k → Z.testbit ML n = true ∧ Z.testbit MH n = false).
Context (Hhi : ∀ n, u ≤ n < u + k → Z.testbit MH n = true ∧ Z.testbit ML n = false).

Lemma segment_start s e :
  s mod 2 ^ u = 0 → 0 ≤ s < 2 ^ (u + k) →
  Z.shiftl (Z.land (Z.lor (Z.land (Z.shiftr s 16) ML) (Z.land e MH)) (Z.shiftl (Z.ones k) (u - 16))) 16 = s.
Proof.
  intros Hs Hr. apply Z.bits_inj'. intros n Hn. rewrite Z.shiftl_spec by done.
  destruct (decide (u ≤ n < u + k)) as [Hin|Hout].
  - rewrite Z.land_spec, Z.lor_spec, !Z.land_spec, Z.shiftr_spec, testbit_mask by lia.
    destruct (Hlo (n - 16) ltac:(lia)) as [-> ->].
    rewrite (proj2 (Z.leb_le _ _)), (proj2 (Z.ltb_lt _ _)) by lia.
    rewrite andb_false_r, orb_false_r, !andb_true_r. f_equal. lia.
  - rewrite (bits_between u k s) by (done || lia). destruct (decide (n < 16)).
    + apply Z.testbit_neg_r. lia.
    + rewrite Z.land_spec, testbit_mask by lia.
      destruct (Z.leb_spec (u - 16) (n - 16)), (Z.ltb_spec (n - 16) (u - 16 + k)); cbn [andb];
        rewrite ?andb_false_r; try done. lia.
Qed.

Lemma segment_end s t :
  t mod 2 ^ u = 0 → 0 ≤ t < 2 ^ (u + k) →
  Z.lor (Z.land (Z.lor (Z.land s ML) (Z.land t MH)) (Z.shiftl (Z.ones k) u)) (Z.ones u) + 1 = t + 2 ^ u.
Proof.
  intros Ht Hr.
  assert (Z.land (Z.lor (Z.land s ML) (Z.land t MH)) (Z.shiftl (Z.ones k) u) = t) as ->.
  { apply Z.bits_inj'. intros n Hn. rewrite Z.land_spec, Z.lor_spec, !Z.land_spec, testbit_mask by lia.
    destruct (decide (u ≤ n < u + k)) as [Hin|Hout].
    - destruct (Hhi n Hin) as [-> ->]. rewrite (proj2 (Z.leb_le _ _)), (proj2 (Z.ltb_lt _ _)) by lia.
      by rewrite andb_false_r, !andb_true_r.
    - rewrite (bits_between u k t) by (done || lia).
      destruct (Z.leb_spec u n), (Z.ltb_spec n (u + k)); cbn [andb]; rewrite ?andb_false_r; try done. lia. }
  rewrite lor_low by (done || lia). rewrite Z.ones_equiv. lia.
Qed.
End segment.

Definition MIB : Z := 1024 * 1024.

Lemma mib_pow v u : v mod MIB = 0 → 0 ≤ u ≤ 20 → v mod 2 ^ u = 0.
Proof.
  intros Hv Hu. apply Z.mod_divide in Hv as [q ->]; [|done]. apply Z.mod_divide; [lia|].
  exists (q * 2 ^ (20 - u)). unfold MIB. change (1024 * 1024) with (2 ^ 20).
  rewrite <- Z.mul_assoc, <- Z.pow_add_r by lia. do 2 f_equal. lia.
Qed.

Lemma mask_bits (M : Z) (j w n : Z) :
  M = Z.shiftl (Z.ones w) j → 0 ≤ j → 0 ≤ w → 0 ≤ n → Z.testbit M n = (j <=? n) && (n <? j + w).
Proof. intros ->. apply testbit_mask. Qed.

(** A segment of whole megabytes within the window decodes as asked. *)
Lemma encode_decodes config s e :
  s mod MIB = 0 → e mod MIB = 0 → 0 ≤ s < e → e ≤ SMC_WINDOW_SIZE_BYTES →
  ∃ v, encode_segment config s e = Ok v ∧
    seg_start (sc_controller_id config) v = s ∧ seg_end (sc_controller_id config) v = e.
Proof.
  intros Hs He Hse Hmax. unfold SMC_WINDOW_SIZE_BYTES in Hmax.
  assert ((e =? 0) || (e <=? s) = false) as Hc.
  { apply orb_false_iff. rewrite Z.eqb_neq, Z.leb_gt. lia. }
  assert (0 < 2 ^ 19 ∧ 0 < 2 ^ 20 ∧ 2 ^ 20 ≤ e) as (_ & _ & He20).
  { split; [lia|]. split; [lia|]. apply Z.mod_divide in He as [q ->]; [|done]. unfold MIB in *. lia. }
  assert (∀ n, 3 ≤ n < 12 → Z.testbit 0x0ff8 n = true ∧ Z.testbit 0x0ff80000 n = false) as F1.
  { intros n Hn. rewrite (mask_bits _ 3 9), (mask_bits 0x0ff80000 19 9) by (done || lia).
    split; [apply andb_true_iff|apply andb_false_iff]; rewrite ?Z.leb_le, ?Z.ltb_lt, ?Z.leb_gt; lia. }
  assert (∀ n, 19 ≤ n < 28 → Z.testbit 0x0ff80000 n = true ∧ Z.testbit 0x0ff8 n = false) as F2.
  { intros n Hn. rewrite (mask_bits _ 19 9), (mask_bits 0x0ff8 3 9) by (done || lia).
    split; [apply andb_true_iff|apply andb_false_iff]; rewrite ?Z.leb_le, ?Z.ltb_lt, ?Z.ltb_ge; lia. }
  assert (∀ n, 4 ≤ n < 16 → Z.testbit 0xffff n = true ∧ Z.testbit 0xffff0000 n = false) as S1.
  { intros n Hn. rewrite (mask_bits _ 0 16), (mask_bits 0xffff0000 16 16) by (done || lia).
    split; [apply andb_true_iff|apply andb_false_iff]; rewrite ?Z.leb_le, ?Z.ltb_lt, ?Z.leb_gt; lia. }
  assert (∀ n, 20 ≤ n < 32 → Z.testbit 0xffff0000 n = true ∧ Z.testbit 0xffff n = false) as S2.
  { intros n Hn. rewrite (mask_bits _ 16 16), (mask_bits 0xffff 0 16) by (done || lia).
    split; [apply andb_true_iff|apply andb_false_iff]; rewrite ?Z.leb_le, ?Z.ltb_lt, ?Z.ltb_ge; lia. }
  unfold encode_segment, encode_fmc_segment, encode_spi_segment.
  destruct (sc_controller_id config); rewrite Hc; eexists; (split; [done|]); unfold seg_start, seg_end;
    rewrite align_down_mask, align_last by (lia || by apply mib_pow; [|lia]).
  1: split;
    [ apply (segment_start 19 9 0x0ff8 0x0ff80000); [lia|lia|exact F1|by apply mib_pow; [|lia]|lia]
    | etrans; [apply (segment_end 19 9 0x0ff8 0x0ff80000)|]; try lia; [exact F2|] ].
  2-3: split;
    [ apply (segment_start 20 12 0xffff 0xffff0000); [lia|lia|exact S1|by apply mib_pow; [|lia]|lia]
    | etrans; [apply (segment_end 20 12 0xffff 0xffff0000)|]; try lia; [exact S2|] ].
  all: rewrite Zminus_mod, Z_mod_same_full, Z.sub_0_r, Z.mod_mod by lia; by apply mib_pow; [|lia].
Qed.

(** ** Start-up *)

Section init.
Context {H B : Type} `{SmcLaws H B}.
Implicit Types (m : Smc H) (cs : ChipSelect).

Record rewired cs m m' : Prop := {
  rw_rest : m' = with_regs (sm_regs m') m;
  rw_bus : hw_bus m' = hw_bus m;
  rw_ctrl : ctrl (sm_regs m') = ctrl (sm_regs m);
  rw_unit : unit_of (sm_regs m') = unit_of (sm_regs m);
  rw_other : seg (sm_regs m') (other cs) = seg (sm_regs m) (other cs);
}.

Lemma segment_step cs config s sz m :
  s mod MIB = 0 → sz mod MIB = 0 → 0 ≤ s → 0 ≤ sz → s + sz ≤ SMC_WINDOW_SIZE_BYTES →
  dwp (if 0 <? sz then
         v ← lift (encode_segment config s (s + sz)); write_cs_segment cs v
       else mret ())
    (λ r m', r = Ok () ∧ rewired cs m m' ∧
       if 0 <? sz then
         seg_start (sc_controller_id config) (seg (sm_regs m') cs) = s ∧
         seg_end (sc_controller_id config) (seg (sm_regs m') cs) = s + sz
       else m' = m) m.
Proof.
  intros Hs Hsz Hs0 Hz0 Hmax. destruct (Z.ltb_spec 0 sz) as [Hpos|Hz].
  - destruct (encode_decodes config s (s + sz)) as (v & -> & Es & Ee); [done| |lia..|].
    { rewrite Z.add_mod, Hs, Hsz by done. done. }
    dwp_step. dwp_step. unfold write_cs_segment, hw_write. dwp_step. split; [done|].
    destruct (wr_seg (sm_regs m) cs v) as (E1 & E2 & E3 & E4 & E5).
    split; [by constructor|]. cbn [sm_regs with_regs]. by rewrite E3.
  - apply dwp_ret. split; [done|]. split; [by destruct m|done].
Qed.

Lemma capacity_mib config cap :
  flash_capacity_bytes config = Ok cap → cap mod MIB = 0 ∧ 0 ≤ cap ∧
  cap = match config with Some c => capacity_mb c * MIB | None => 0 end.
Proof.
  unfold flash_capacity_bytes. destruct config as [c|]; [|by intros [= <-]].
  unfold in_usize, MIB. destruct (_ && _) eqn:E; [|done]. intros [= <-].
  apply andb_true_iff in E as [E%Z.leb_le _]. split; [by rewrite Z.mod_mul|]. lia.
Qed.

Lemma total_capacity_Ok c0 c1 total :
  total_capacity_bytes c0 c1 = Ok total →
  ∃ s0 s1, flash_capacity_bytes c0 = Ok s0 ∧ flash_capacity_bytes c1 = Ok s1 ∧
    s0 + s1 ≤ SMC_WINDOW_SIZE_BYTES.
Proof.
  unfold total_capacity_bytes. destruct (flash_capacity_bytes c0) as [s0|]; [|done].
  destruct (flash_capacity_bytes c1) as [s1|]; [|done]. unfold in_usize.
  destruct (_ && _); [|done]. destruct (Z.ltb_spec SMC_WINDOW_SIZE_BYTES (s0 + s1)); [done|].
  intros _. eauto.
Qed.

Lemma setup_segments_spec m s0 s1 total :
  let config := sm_config m in
  flash_capacity_bytes (sc_cs0 config) = Ok s0 → flash_capacity_bytes (sc_cs1 config) = Ok s1 →
  total_capacity_bytes (sc_cs0 config) (sc_cs1 config) = Ok total → s0 + s1 ≤ SMC_WINDOW_SIZE_BYTES →
  dwp setup_segments (λ r m', r = Ok () ∧ m' = with_regs (sm_regs m') m ∧ hw_bus m' = hw_bus m ∧
    ctrl (sm_regs m') = ctrl (sm_regs m) ∧ unit_of (sm_regs m') = unit_of (sm_regs m) ∧
    (if 0 <? s0 then
       seg_start (sc_controller_id config) (seg (sm_regs m') Cs0) = 0 ∧
       seg_end (sc_controller_id config) (seg (sm_regs m') Cs0) = s0
     else seg (sm_regs m') Cs0 = seg (sm_regs m) Cs0) ∧
    (if 0 <? s1 then
       seg_start (sc_controller_id config) (seg (sm_regs m') Cs1) = s0 ∧
       seg_end (sc_controller_id config) (seg (sm_regs m') Cs1) = s0 + s1
     else seg (sm_regs m') Cs1 = seg (sm_regs m) Cs1)) m.
Proof.
  intros config E0 E1 Et Hmax. destruct (capacity_mib _ _ E0) as (M0 & P0 & _).
  destruct (capacity_mib _ _ E1) as (M1 & P1 & _). unfold setup_segments.
  dwp_step. dwp_step. fold config. rewrite E0, E1, Et. do 6 dwp_step.
  apply dwp_bind. eapply dwp_mono; [apply (segment_step Cs0 config 0 s0); [done..|lia]|].
  intros r m1 (-> & W1 & Q1). eapply dwp_mono; [apply (segment_step Cs1 config s0 s1); [done..|lia]|].
  intros r m2 (-> & W2 & Q2). destruct W1 as [R1 B1 C1 U1 O1], W2 as [R2 B2 C2 U2 O2]. cbn [other] in *.
  split; [done|]. split; [by rewrite R2, R1|]. split; [congruence|]. split; [congruence|].
  split; [congruence|]. split.
  - rewrite O2. destruct (0 <? s0); [done|by subst].
  - destruct (0 <? s1); [done|]. rewrite Q2. exact O1.
Qed.

(** A freshly reset controller of the kind [config] names: no chip select is in
    user mode, and a chip select that is not configured decodes nothing. *)
Record fresh (config : SmcConfig) (h : H) : Prop := {
  fresh_unit : unit_of h = sc_controller_id config;
  fresh_quiet c : user_active (ctrl h c) = false;
  fresh_vacant cs a : slot config cs = None → decodes (sc_controller_id config) (seg h cs) a = false;
  fresh_size cs c : slot config cs = Some c → 0 < capacity_mb c;
}.

Lemma decodes_range id v s e a :
  seg_start id v = s → seg_end id v = e →
  decodes id v a = true ↔ s ≤ a - flash_window_address id < e.
Proof. intros <- <-. unfold decodes. rewrite andb_true_iff, Z.leb_le, Z.ltb_lt. lia. Qed.

Lemma hw_read_ctrl_then {A} cs (k : Z → Smc.smc (H := H) A) Q m :
  (∀ m', m' = with_regs (sm_regs m') m → hw_bus m' = hw_bus m → ctrl (sm_regs m') = ctrl (sm_regs m) →
     seg (sm_regs m') = seg (sm_regs m) → unit_of (sm_regs m') = unit_of (sm_regs m) →
     dwp (k (ctrl (sm_regs m) cs)) Q m') →
  dwp (read_cs_ctrl cs ≫= k) Q m.
Proof.
  intros HQ. apply dwp_bind. unfold read_cs_ctrl, hw_read, dwp at 1.
  destruct (rd_frame (sm_regs m) (cs_ctrl_reg cs)) as (E1 & E2 & E3 & E4).
  pose proof (rd_ctrl (sm_regs m) cs) as Er.
  destruct (reg_read (sm_regs m) (cs_ctrl_reg cs)) as [h v]. cbn [fst snd] in *. subst v.
  by apply HQ.
Qed.

(** What [setup_segments] left in the segment register of [cs]: the flash of
    [sz] bytes from [s], or the register as it was. *)
Definition placed (config : SmcConfig) (h : H) (v : Z) (cs : ChipSelect) (s sz : Z) : Prop :=
  if 0 <? sz then seg_start (sc_controller_id config) v = s ∧ seg_end (sc_controller_id config) v = s + sz
  else v = seg h cs.

Lemma placed_decodes config h cs v s sz a :
  fresh config h → placed config h v cs s sz →
  flash_capacity_bytes (slot config cs) = Ok sz →
  decodes (sc_controller_id config) v a = true → s ≤ a - flash_window_address (sc_controller_id config) < s + sz.
Proof.
  intros Hf Hp Hcap Ha. apply capacity_mib in Hcap as (_ & _ & V). unfold placed in Hp.
  destruct (slot config cs) as [x|] eqn:Es.
  - pose proof (fresh_size _ _ Hf _ _ Es) as Hx.
    rewrite (proj2 (Z.ltb_lt 0 sz)) in Hp by (unfold MIB in V; lia).
    destruct Hp as [Qs Qe]. by apply (decodes_range _ _ _ _ _ Qs Qe).
  - exfalso. subst sz. cbn in Hp. subst v. by rewrite (fresh_vacant _ _ Hf cs a Es) in Ha.
Qed.

Lemma placed_attaches config h m s0 s1 :
  fresh config h → flash_capacity_bytes (sc_cs0 config) = Ok s0 → flash_capacity_bytes (sc_cs1 config) = Ok s1 →
  s0 + s1 ≤ SMC_WINDOW_SIZE_BYTES →
  placed config h (seg (sm_regs m) Cs0) Cs0 0 s0 → placed config h (seg (sm_regs m) Cs1) Cs1 s0 s1 →
  sm_config m = config → sm_controller_id m = sc_controller_id config → unit_of (sm_regs m) = unit_of h →
  ctrl (sm_regs m) = ctrl h → sm_normal_read_ctrl m = (ctrl h Cs0, ctrl h Cs1) →
  sm_flash_window_base m =
    (flash_window_address (sc_controller_id config), flash_window_address (sc_controller_id config) + s0) →
  ∀ cs cap, cs_capacity_bytes config cs = Ok cap → attached cs cap m.
Proof.
  intros Hf E0 E1 Hmax Q0 Q1 Ec Ei Eun Ectl Enr Ewin cs cap Hcap.
  destruct (capacity_mib _ _ E0) as (_ & P0 & _), (capacity_mib _ _ E1) as (_ & P1 & _).
  assert (0 < cap ∧ cap = at_cs cs (s0, s1) ∧ is_Some (slot config cs)) as (Hpos & -> & Hslot).
  { unfold cs_capacity_bytes in Hcap. destruct (slot config cs) as [c|] eqn:Es; [|done].
    pose proof (fresh_size _ _ Hf _ _ Es). split; [|split; [|by eexists]].
    - apply capacity_mib in Hcap as (_ & _ & ->). unfold MIB. lia.
    - destruct cs; cbn [slot at_cs fst snd] in *; congruence. }
  pose proof (λ a, placed_decodes config h Cs0 _ _ _ a Hf Q0 E0) as D0.
  pose proof (λ a, placed_decodes config h Cs1 _ _ _ a Hf Q1 E1) as D1.
  assert (seg_start (sc_controller_id config) (seg (sm_regs m) cs) = at_cs cs (0, s0) ∧
          seg_end (sc_controller_id config) (seg (sm_regs m) cs) = at_cs cs (0, s0) + at_cs cs (s0, s1)) as [Es Ee].
  { unfold placed in Q0, Q1. by destruct cs; cbn [at_cs fst snd] in *; rewrite (proj2 (Z.ltb_lt _ _) Hpos) in *. }
  constructor; rewrite ?Ec, ?Ei, ?Enr, ?Ewin; [rewrite Eun; apply Hf|done|exact Hcap|..].
  - destruct cs; cbn [at_cs fst snd] in *; lia.
  - rewrite Es. destruct cs; cbn [at_cs fst snd]; lia.
  - by rewrite Ee, Es.
  - intros a Ha. apply not_true_iff_false. intros Ho.
    destruct cs; cbn [other] in Ho; specialize (D0 a); specialize (D1 a);
      [specialize (D0 Ha); specialize (D1 Ho)|specialize (D0 Ho); specialize (D1 Ha)]; lia.
  - intros c. rewrite Ectl. apply Hf.
  - destruct cs; apply Hf.
Qed.

Lemma setup_refused m e :
  total_capacity_bytes (sc_cs0 (sm_config m)) (sc_cs1 (sm_config m)) = Err e →
  dwp setup_segments (λ r _, r = Err e) m.
Proof.
  intros Et. unfold setup_segments. do 4 dwp_step. unfold total_capacity_bytes in Et.
  destruct (flash_capacity_bytes (sc_cs0 (sm_config m))) eqn:E0; [|by simplify_eq].
  dwp_step. dwp_step. destruct (flash_capacity_bytes (sc_cs1 (sm_config m))) eqn:E1; [|by simplify_eq].
  dwp_step. dwp_step. unfold total_capacity_bytes. rewrite E0, E1, Et. done.
Qed.

(** [Smc::new] and [init] on a freshly reset controller: an empty or oversized
    configuration is refused; otherwise the controller is idle, the bus has not
    been touched, and every configured flash is decoded over its whole capacity
    at its window, apart from the other. *)
Lemma init_attaches config h m :
  fresh config h → smc_new h config = Ok m →
  dwp init (λ r m',
    match total_capacity_bytes (sc_cs0 config) (sc_cs1 config) with
    | Ok _ => r = Ok () ∧ sm_state m' = Idle ∧ hw_bus m' = bus h ∧ sm_config m' = config ∧
        ∀ cs cap, cs_capacity_bytes config cs = Ok cap → attached cs cap m'
    | Err e => r = Err e
    end) m.
Proof.
  intros Hf Hnew. assert (m = mkSmc h (sc_controller_id config) config Idle (0, 0) (0, 0)) as ->.
  { unfold smc_new in Hnew. by destruct (sc_cs0 config), (sc_cs1 config); simplify_eq. }
  unfold init. dwp_step. dwp_step. unfold write_config, hw_write. dwp_step. dwp_step. cbn [sm_config].
  destruct (wr_frame h 0x000 (config_bits config)) as (B1 & C1 & S1 & U1); [done..|].
  set (m1 := with_regs _ _). apply dwp_bind. destruct (total_capacity_bytes _ _) as [total|e] eqn:Et.
  2:{ eapply dwp_mono; [by apply setup_refused|]. by intros r m' ->. }
  destruct (total_capacity_Ok _ _ _ Et) as (s0 & s1 & E0 & E1 & Hmax).
  eapply dwp_mono; [by apply (setup_segments_spec m1 s0 s1 total)|].
  intros r m2 (-> & R2 & B2 & C2 & U2 & Q0 & Q1).
  apply hw_read_ctrl_then. intros m3 R3 B3 C3 S3 U3. apply hw_read_ctrl_then. intros m4 R4 B4 C4 S4 U4.
  dwp_step. split; [done|]. split; [done|]. split; [rewrite <- B1; change (hw_bus m4 = hw_bus m1); congruence|].
  split; [by rewrite R4, R3, R2|].
  change (sm_regs m1) with (reg_write h 0 (config_bits config)) in *.
  change (sc_controller_id (sm_config m1)) with (sc_controller_id config) in *.
  rewrite S1 in Q0, Q1. assert (seg (sm_regs m4) = seg (sm_regs m2)) as Eseg by congruence.
  assert (sm_config m4 = config ∧ sm_controller_id m4 = sc_controller_id config) as [Ec Ei]
    by (rewrite R4, R3, R2; done).
  apply (placed_attaches config h _ s0 s1);
    cbn [sm_regs sm_controller_id sm_config sm_normal_read_ctrl sm_flash_window_base]; try done; try congruence.
  - unfold placed. by rewrite Eseg.
  - unfold placed. by rewrite Eseg.
  - rewrite Ei, E0. done.
Qed.

(** bringing up a flash: [Smc::new], [init] and the constructor of the flash on
    a freshly reset controller.  Capacities that do not fit the window are refused;
    otherwise every configured slot becomes a flash that is decoded over its whole
    capacity, apart from the other, with commands wide enough for every address of
    it, and nothing has been sent to either flash. *)
Theorem flash_comes_up `{!NorLaws B} config h m cs cfg :
  fresh config h → smc_new h config = Ok m → slot config cs = Some cfg →
  page_size cfg = PAGE → sector_size cfg = SECTOR →
  dwp (init;; nor_from_cs cfg cs) (λ r m',
    match total_capacity_bytes (sc_cs0 config) (sc_cs1 config) with
    | Ok _ => ∃ f, r = Ok f ∧ nf_cs f = cs ∧ flash_on f (capacity_mb cfg * 1024 * 1024) m' ∧ hw_bus m' = bus h
    | Err e => r = Err e
    end) m.
Proof.
  intros Hf Hnew Hslot Hp Hs. apply dwp_bind.
  eapply dwp_mono; [by apply (init_attaches config h)|]. intros r m1 Hr.
  destruct (total_capacity_bytes _ _) as [total|e] eqn:Et; [|by subst r].
  destruct Hr as (-> & Hidle & Hb & Hc & Hat).
  assert (cs_capacity_bytes config cs = Ok (capacity_mb cfg * 1024 * 1024)) as Hcap.
  { destruct (total_capacity_Ok _ _ _ Et) as (s0 & s1 & E0 & E1 & _). unfold cs_capacity_bytes.
    rewrite Hslot. destruct cs; cbn [slot] in Hslot; rewrite Hslot in *; [rewrite E0|rewrite E1];
      [apply capacity_mib in E0 as (_ & _ & ->)|apply capacity_mib in E1 as (_ & _ & ->)];
      unfold MIB; f_equal; lia. }
  eapply dwp_mono; [by apply (from_cs_on cfg cs (capacity_mb cfg * 1024 * 1024)); [apply Hat|..]|].
  intros r m2 (-> & Hr). rewrite Hc in Hr. destruct r as [f|e].
  - destruct Hr as [Hcs Hfo]. by exists f.
  - by destruct Hr.
Qed.
End init.

Lemma demo_fresh : fresh demo_config demo_board.
Proof. split; [done|by intros []|by intros []|by intros [] c [= <-]]. Qed.

Lemma demo_attached : attached Cs1 (32 * 1024 * 1024) demo_smc.
Proof.
  pose proof (init_attaches demo_config demo_board demo_start demo_fresh eq_refl) as Hinit.
  apply dwp_run in Hinit as (m' & r & E & Hr). unfold demo_smc. rewrite E.
  destruct Hr as (_ & _ & _ & _ & Hat). by apply (Hat Cs1).
Qed.

Lemma flash_comes_up_witness :
  fresh demo_config demo_board ∧
  dwp (init;; nor_from_cs winbond_w25q256 Cs1)
    (λ r m', ∃ f, r = Ok f ∧ flash_on f (32 * 1024 * 1024) m') demo_start.
Proof.
  split; [exact demo_fresh|]. eapply dwp_mono.
  - apply (@flash_comes_up nor_board nor_bus _ _ _ _ demo_config demo_board demo_start Cs1 winbond_w25q256
      demo_fresh); reflexivity.
  - intros r m' (f & -> & _ & Hf & _). exists f. split; [reflexivity|exact Hf].
Defined.
