(* ===== verification/NorUpdate.v ===== *)
(** * SPI NOR flash: erase, program, read, verify and update

    Each call of the flash as an update of the array of bytes of its own chip
    select: which bytes it may change, what they hold when it succeeds, and when
    it must succeed. *)

From S2P Require Import Prelude Bytes RegMonad Spim SpimRun Soc SocRun Smc SmcRun SmcInit NorFlash NorChip.
From stdpp Require Import base tactics option list numbers sets.
Local Open Scope Z_scope.

Section update.
Context {H B : Type} `{SmcLaws H B} `{!NorLaws B}.
Implicit Types (m : Smc H) (f : SpiNorFlash) (data : list Z).
Local Notation smc A := (Smc.smc (H := H) A).
Local Notation prompt := (nor_prompt (B := B)).
Local Notation sound := (reliable (B := B)).

(** ** Guards *)

Lemma in_usize_ok v : 0 ≤ v ≤ u32_MAX → in_usize v = Ok v.
Proof.
  intros Hv. unfold in_usize. by rewrite (proj2 (Z.leb_le 0 v)), (proj2 (Z.leb_le v u32_MAX)) by lia.
Qed.

Lemma capacity_spec f cap m Q :
  flash_on f cap m → Q (Ok cap) m → dwp (nor_capacity_bytes f) Q m.
Proof.
  intros Hf HQ. unfold nor_capacity_bytes, smc_cs_capacity_bytes. dwp_steps.
  by rewrite (at_cap _ _ _ (fo_attached _ _ _ Hf)).
Qed.

Lemma validate_range_spec f cap o n m Q :
  flash_on f cap m → 0 ≤ o + n →
  (o + n ≤ cap → Q (Ok ()) m) → (cap < o + n → Q (Err SmcInvalidCapacity) m) →
  dwp (validate_range f o n) Q m.
Proof.
  intros Hf Hn Hok Herr. pose proof (flash_on_cap _ _ _ Hf) as [[_ Hcap] _].
  change (2 ^ 28) with (256 * 1024 * 1024) in Hcap. unfold validate_range. dwp_step. dwp_step.
  unfold in_usize. rewrite (proj2 (Z.leb_le 0 _)) by lia. cbn [andb].
  destruct (Z.leb_spec (o + n) u32_MAX) as [Hle|Hgt]; [|apply Herr; unfold u32_MAX in Hgt; lia].
  dwp_step. apply (capacity_spec f cap); [done|].
  apply dwp_require; rewrite ?negb_true_iff, ?negb_false_iff, ?Z.ltb_ge, ?Z.ltb_lt; done.
Qed.

(** The bytes of the sectors that meet [offset .. offset + len). *)
Definition sectors (offset len x : Z) : Prop :=
  offset / SECTOR ≤ x / SECTOR ≤ (offset + len - 1) / SECTOR.

Definition blank f m (P : Z → Prop) : Prop := ∀ x, P x → array (hw_bus m) (nf_cs f) x = 255.

(** What one operation leaves: only bytes in [P] changed; success means [Ok'],
    failure is a time-out of a slow flash. *)
Definition outcome {A} f (P : Z → Prop) (Ok' : A → Smc H → Prop) m (r : result A SmcError) m' : Prop :=
  steady m m' ∧ touched (nf_cs f) P (hw_bus m) (hw_bus m') ∧
  match r with Ok a => settled f m' ∧ Ok' a m' | Err e => e = SmcTimeout ∧ ¬ prompt end.

Lemma command_bytes f cap op a m :
  flash_on f cap m → in_u8 op →
  Forall in_u8 (encode_addr_cmd op a (nor_addr_width f)) ∧
  (length (encode_addr_cmd op a (nor_addr_width f)) ≤ 5)%nat.
Proof.
  intros Hf Ho. split; [by apply encode_bytes|]. rewrite encode_length.
  unfold nor_addr_width. destruct (nf_addressing_policy f); cbn; lia.
Qed.

Lemma flash_addressable f cap a m :
  flash_on f cap m → 0 ≤ a < cap → addressable (nor_addr_width f) a.
Proof. intros Hf Ha. pose proof (fo_width _ _ _ Hf). unfold addressable. lia. Qed.

(** ** Erase *)

Lemma erase_opcode f cap m :
  flash_on f cap m →
  erase_cmd (erase_sector_4k (nf_command_profile f)) (nor_addr_width f) = true ∧
  in_u8 (erase_sector_4k (nf_command_profile f)).
Proof.
  intros Hf. rewrite (fo_profile _ _ _ Hf). unfold nor_addr_width.
  by destruct (nf_addressing_policy f); (split; [done|]).
Qed.

Lemma erase_sector_spec f cap a m :
  flash_on f cap m → settled f m → 0 ≤ a → a mod SECTOR = 0 → a + SECTOR ≤ cap →
  dwp (erase_sector f a)
    (outcome f (λ x, x / SECTOR = a / SECTOR)
       (λ _ m', sound → blank f m' (λ x, x / SECTOR = a / SECTOR)) m) m.
Proof.
  intros Hf Hset Ha0 Ha Hend. unfold erase_sector. apply dwp_bind. unfold validate_sector_erase.
  rewrite (fo_sector _ _ _ Hf), (proj2 (Z.eqb_eq (a mod SECTOR) 0)) by done. cbn [Z.eqb orb negb SECTOR].
  apply dwp_bind, dwp_require_true. apply (validate_range_spec f cap); [done|unfold SECTOR in *; lia| |lia].
  intros _. cbn beta iota. destruct (erase_opcode f cap m Hf) as [Hop Hu8].
  destruct (command_bytes f cap _ a m Hf Hu8) as [Hbytes Hlen].
  assert (addressable (nor_addr_width f) a) as Haddr
    by (eapply flash_addressable; [done|unfold SECTOR in *; lia]).
  eapply dwp_mono.
  { apply (write_op_spec f cap _ [] (λ b b',
      touched (nf_cs f) (λ x, x / SECTOR = a / SECTOR) b b' ∧
      (sound → ∀ x, x / SECTOR = a / SECTOR → array b' (nf_cs f) x = 255)));
      [done..|cbn; lia|].
    intros b Eb Hb Hw. rewrite app_nil_r. split.
    - destruct (nor_erases b (nf_cs f) _ _ a Hb Hw Hop Haddr) as [Ho Hx]. by constructor.
    - intros [He _]. by apply He. }
  intros r m' (St & (b & b' & Eb & Eb' & Ht & Hs) & Hr). split; [done|]. split.
  - etrans; [by apply touched_same|]. etrans; [exact Ht|by apply touched_same].
  - destruct r as [u|e]; [|done]. split; [done|]. intros Hsound x Hx. rewrite <- Eb'. by apply Hs.
Qed.

Lemma sector_between a x : x / SECTOR = a / SECTOR ↔ a / SECTOR * SECTOR ≤ x < a / SECTOR * SECTOR + SECTOR.
Proof.
  unfold SECTOR. split.
  - intros <-. pose proof (Z.div_mod x 4096 ltac:(lia)). pose proof (Z.mod_pos_bound x 4096 ltac:(lia)). lia.
  - intros Hx. symmetry. apply (Z.div_unique_pos x 4096 (a / 4096) (x - a / 4096 * 4096)); lia.
Qed.

Lemma erase_loop_spec f cap rounds a e m :
  flash_on f cap m → settled f m → 0 ≤ a → a mod SECTOR = 0 → e mod SECTOR = 0 → e ≤ cap →
  (e - a) / SECTOR < Z.of_nat rounds →
  dwp (erase_loop rounds f a SECTOR e)
    (outcome f (λ x, a ≤ x < e) (λ _ m', sound → blank f m' (λ x, a ≤ x < e)) m) m.
Proof.
  revert a m. induction rounds as [|n IH]; intros a m Hf Hset Ha0 Ha He Hcap Hr; cbn [erase_loop].
  { apply dwp_ret. split; [done|]. split; [done|]. split; [done|]. intros _ x Hx.
    assert (0 ≤ (e - a) / SECTOR) by (unfold SECTOR; apply Z.div_pos; lia). lia. }
  destruct (Z.ltb_spec a e) as [Hlt|Hge].
  2:{ apply dwp_ret. split; [done|]. split; [done|]. split; [done|]. intros _ x Hx. lia. }
  assert (a + SECTOR ≤ e) as Hnext.
  { apply Z.mod_divide in Ha as [p ->]; [|done]. apply Z.mod_divide in He as [q ->]; [|done].
    unfold SECTOR in *. nia. }
  assert (∀ x, x / SECTOR = a / SECTOR ↔ a ≤ x < a + SECTOR) as Hsec.
  { intros x. rewrite sector_between. pose proof (Z.div_mod a SECTOR ltac:(done)). unfold SECTOR in *. lia. }
  apply dwp_bind. eapply dwp_mono; [apply (erase_sector_spec f cap); [done..|lia]|].
  intros r m1 (St & Ht & Hres).
  assert (touched (nf_cs f) (λ x, a ≤ x < e) (hw_bus m) (hw_bus m1)) as Ht1
    by (eapply touched_mono; [|done]; intros x; cbn; rewrite Hsec; lia).
  destruct r as [u|er]; [|done]. destruct Hres as [Hs1 Hb1].
  eapply dwp_mono.
  { apply IH; [by eapply flash_on_steady|done|unfold SECTOR in *; lia| |done|done|].
    - unfold SECTOR in *. by rewrite Z.add_mod, Ha by lia.
    - replace (e - (a + SECTOR)) with (e - a + (-1) * SECTOR) by lia. rewrite Z.div_add by done. lia. }
  intros r m2 (St2 & Ht2 & Hres). split; [by etrans|]. split.
  { etrans; [done|]. eapply touched_mono; [|done]. intros x; cbn. unfold SECTOR in *; lia. }
  destruct r as [u2|er]; [|done]. destruct Hres as [Hs2 Hb2]. split; [done|].
  intros Hsound x Hx. destruct (decide (a + SECTOR ≤ x)) as [Hhi|Hlo]; [by apply Hb2; [|lia]|].
  rewrite (t_out _ _ _ _ Ht2) by lia. apply Hb1; [done|]. apply Hsec. lia.
Qed.

(** ** Erasing a range *)

Lemma sectors_bounds offset len x :
  0 < len →
  sectors offset len x ↔
  offset / SECTOR * SECTOR ≤ x < (offset + len + (SECTOR - 1)) / SECTOR * SECTOR.
Proof.
  intros Hlen. unfold sectors.
  replace (offset + len + (SECTOR - 1)) with (offset + len - 1 + 1 * SECTOR) by lia.
  rewrite Z.div_add by done. unfold SECTOR.
  pose proof (Z.div_mod x 4096 ltac:(lia)). pose proof (Z.mod_pos_bound x 4096 ltac:(lia)). lia.
Qed.

Lemma erase_range_spec f cap offset len m :
  flash_on f cap m → settled f m → 0 ≤ offset → 0 < len → offset + len ≤ cap →
  dwp (erase_range f offset len)
    (outcome f (sectors offset len) (λ _ m', sound → blank f m' (sectors offset len)) m) m.
Proof.
  intros Hf Hset Ho Hlen Hend. pose proof (flash_on_cap _ _ _ Hf) as [[_ Hcap] Hmod].
  change (2 ^ 28) with (256 * 1024 * 1024) in Hcap. unfold erase_range.
  rewrite (proj2 (Z.eqb_neq len 0)) by lia. apply dwp_bind, (validate_range_spec f cap); [done|lia| |lia].
  intros _. cbn beta iota. rewrite (fo_sector _ _ _ Hf). cbn [negb Z.eqb SECTOR].
  apply dwp_bind, dwp_require_true. apply dwp_bind, dwp_lift.
  rewrite in_usize_ok by (unfold u32_MAX; lia). cbn beta iota. apply dwp_bind, dwp_lift.
  rewrite in_usize_ok by (unfold u32_MAX, SECTOR; lia). cbn beta iota.
  set (start := offset / SECTOR * SECTOR). set (e := (offset + len + (SECTOR - 1)) / SECTOR * SECTOR).
  assert (start mod SECTOR = 0) by (by apply Z.mod_mul). assert (e mod SECTOR = 0) by (by apply Z.mod_mul).
  assert (0 ≤ start) by (unfold start, SECTOR; pose proof (Z.div_pos offset 4096); lia).
  assert (e ≤ cap) as He.
  { apply Z.mod_divide in Hmod as [q Hq]; [|done]. unfold e.
    assert ((offset + len + (SECTOR - 1)) / SECTOR < q + 1); [|unfold SECTOR in *; nia].
    apply Z.div_lt_upper_bound; [done|]. unfold SECTOR in *. lia. }
  assert (start < e) as Hse.
  { pose proof (sectors_bounds offset len offset Hlen) as [Hb _].
    assert (start ≤ offset < e); [|lia]. apply Hb.
    unfold sectors, SECTOR. split; [lia|]. apply Z.div_le_mono; lia. }
  eapply dwp_mono.
  { apply (erase_loop_spec f cap); [done..|]. rewrite Nat2Z.inj_succ, Z2Nat.id; [lia|].
    apply Z.div_pos; [lia|done]. }
  intros r m' (St & Ht & Hr). split; [done|]. split.
  { eapply touched_mono; [|done]. intros x. cbn. unfold start, e. by rewrite sectors_bounds. }
  destruct r as [u|er]; [|done]. destruct Hr as [Hs Hb]. split; [done|]. intros Hsound x Hx.
  apply Hb; [done|]. by apply sectors_bounds.
Qed.

(** ** Program *)

(** The bytes [data] at [offset], over what was there. *)
Definition overlaid f m (offset : Z) data m' : Prop :=
  ∀ k v, data !! k = Some v →
    array (hw_bus m') (nf_cs f) (offset + Z.of_nat k) =
    Z.land (array (hw_bus m) (nf_cs f) (offset + Z.of_nat k)) v.

Definition span (offset : Z) data (x : Z) : Prop := offset ≤ x < offset + Z.of_nat (length data).

Lemma program_opcode f cap m :
  flash_on f cap m →
  program_cmd (page_program (nf_command_profile f)) (nor_addr_width f) = true ∧
  in_u8 (page_program (nf_command_profile f)).
Proof.
  intros Hf. rewrite (fo_profile _ _ _ Hf). unfold nor_addr_width.
  by destruct (nf_addressing_policy f); (split; [done|]).
Qed.

Lemma program_page_spec f cap a data m :
  flash_on f cap m → settled f m → 0 ≤ a → a mod PAGE = 0 → Forall in_u8 data →
  (0 < length data ≤ 256)%nat → a + Z.of_nat (length data) ≤ cap →
  dwp (program_page f a data)
    (outcome f (span a data) (λ n m', n = Z.of_nat (length data) ∧ (sound → overlaid f m a data m')) m) m.
Proof.
  intros Hf Hset Ha0 Ha Hd Hlen Hend. unfold program_page. apply dwp_bind. unfold validate_page_program.
  rewrite (fo_page _ _ _ Hf), (proj2 (Z.eqb_eq (a mod PAGE) 0)) by done.
  rewrite (proj2 (Z.eqb_neq (Z.of_nat (length data)) 0)), (proj2 (Z.ltb_ge PAGE _)) by (unfold PAGE; lia).
  cbn [Z.eqb orb negb PAGE]. apply dwp_bind, dwp_require_true. apply dwp_bind, dwp_require_true.
  apply (validate_range_spec f cap); [done|lia| |lia]. intros _. cbn beta iota.
  destruct (program_opcode f cap m Hf) as [Hop Hu8].
  destruct (command_bytes f cap _ a m Hf Hu8) as [Hbytes Hclen].
  assert (addressable (nor_addr_width f) a) as Haddr by (eapply flash_addressable; [done|lia]).
  apply dwp_seq3_then. eapply dwp_mono.
  { apply (write_op_spec f cap _ data (λ b b',
      touched (nf_cs f) (span a data) b b' ∧
      (sound → ∀ k v, data !! k = Some v → array b' (nf_cs f) (a + Z.of_nat k) =
         Z.land (array b (nf_cs f) (a + Z.of_nat k)) v))); [done..|lia|].
    intros b Eb Hb Hw. assert (a mod PAGE + Z.of_nat (length data) ≤ PAGE) by (rewrite Ha; unfold PAGE; lia).
    split.
    - destruct (nor_programs b (nf_cs f) _ _ a data Hb Hw Hop Haddr) as [Ho Hx]; [lia|done|]. by constructor.
    - intros [_ Hp]. apply Hp; [done..|lia|done]. }
  intros r m' (St & (b & b' & Eb & Eb' & Ht & Hs) & Hr).
  assert (touched (nf_cs f) (span a data) (hw_bus m) (hw_bus m')) as Htt.
  { etrans; [by apply touched_same|]. etrans; [exact Ht|by apply touched_same]. }
  destruct r as [u|e]; [|done]. apply dwp_ret. split; [done|]. split; [done|]. split; [done|]. split; [done|].
  intros Hsound k v Hk. rewrite <- Eb, <- Eb'. by apply Hs.
Qed.

Lemma nor_program_loop_spec f cap rounds offset w data m :
  flash_on f cap m → settled f m → 0 ≤ offset → offset mod PAGE = 0 → Forall in_u8 data →
  ((w < length data)%nat → Z.of_nat w mod PAGE = 0) → (length data - w < rounds)%nat →
  offset + Z.of_nat (length data) ≤ cap →
  dwp (nor_program_loop rounds f offset w data (Z.to_nat PAGE))
    (outcome f (λ x, offset + Z.of_nat w ≤ x < offset + Z.of_nat (length data))
       (λ _ m', sound → ∀ k v, (w ≤ k)%nat → data !! k = Some v →
          array (hw_bus m') (nf_cs f) (offset + Z.of_nat k) =
          Z.land (array (hw_bus m) (nf_cs f) (offset + Z.of_nat k)) v) m) m.
Proof.
  revert w m. induction rounds as [|n IH]; intros w m Hf Hset Ho0 Ho Hd Hw Hr Hend; [lia|].
  cbn [nor_program_loop]. destruct (Nat.ltb_spec w (length data)) as [Hlt|Hge].
  2:{ apply dwp_ret. split; [done|]. split; [done|]. split; [done|].
      intros _ k v Hk Hv. apply lookup_lt_Some in Hv. lia. }
  specialize (Hw Hlt). change (Z.to_nat PAGE) with 256%nat in *.
  set (c := Nat.min 256 (length data - w)). set (chunk := take c (drop w data)).
  assert (length chunk = c) as Hchunk by (unfold chunk; rewrite length_take, length_drop; lia).
  assert (0 < c ≤ 256 ∧ c ≤ length data - w)%nat as [Hc Hcd] by lia.
  pose proof (flash_on_cap _ _ _ Hf) as [[_ Hcap] _]. change (2 ^ 28) with (256 * 1024 * 1024) in Hcap.
  apply dwp_bind, dwp_lift. rewrite in_usize_ok by (unfold u32_MAX; lia). cbn beta iota.
  apply dwp_bind. eapply dwp_mono.
  { apply (program_page_spec f cap); [done|done|lia| | |by rewrite Hchunk|rewrite Hchunk; lia].
    - unfold PAGE in *. by rewrite Z.add_mod, Ho, Hw by lia.
    - apply Forall_take, Forall_drop, Hd. }
  intros r m1 (St1 & Ht1 & Hr1). unfold span in Ht1. rewrite Hchunk in Ht1.
  assert (touched (nf_cs f) (λ x, offset + Z.of_nat w ≤ x < offset + Z.of_nat (length data))
            (hw_bus m) (hw_bus m1)) as Ht1' by (eapply touched_mono; [|done]; intros x; cbn beta; lia).
  destruct r as [u|e]; [|done]. destruct Hr1 as (Hs1 & _ & Ho1). eapply dwp_mono.
  { apply (IH (w + c)%nat); [by eapply flash_on_steady|done|done|done|done| |lia|done].
    intros Hmore. replace c with 256%nat by lia. unfold PAGE in *.
    by rewrite Nat2Z.inj_add, Z.add_mod, Hw by lia. }
  intros r m2 (St2 & Ht2 & Hr2). split; [by etrans|]. split.
  { etrans; [done|]. eapply touched_mono; [|done]. intros x. cbn. lia. }
  destruct r as [u2|e2]; [|done]. destruct Hr2 as [Hs2 Hov2]. split; [done|].
  intros Hsound k v Hk Hv. destruct (decide (k < w + c)%nat) as [Hin|Hout].
  - rewrite (t_out _ _ _ _ Ht2) by lia. specialize (Ho1 Hsound (k - w)%nat v).
    replace (offset + Z.of_nat k) with (offset + Z.of_nat w + Z.of_nat (k - w)) by lia. apply Ho1.
    unfold chunk. rewrite lookup_take_lt, lookup_drop by lia. by replace (w + (k - w))%nat with k by lia.
  - rewrite (Hov2 Hsound k v) by (done || lia). by rewrite (t_out _ _ _ _ Ht1) by lia.
Qed.

(** [program]: refused unless page-aligned and within the flash. *)
Lemma nor_program_spec f cap offset data m :
  flash_on f cap m → settled f m → 0 ≤ offset → Forall in_u8 data → (0 < length data)%nat →
  dwp (nor_program f offset data) (λ r m',
    if bool_decide (offset mod PAGE = 0 ∧ offset + Z.of_nat (length data) ≤ cap)
    then outcome f (span offset data)
           (λ n m', n = Z.of_nat (length data) ∧ (sound → overlaid f m offset data m')) m r m'
    else m' = m ∧ r = Err SmcInvalidCapacity) m.
Proof.
  intros Hf Hset Ho Hd Hlen. unfold nor_program. destruct (Nat.eqb_spec (length data) 0) as [E|_]; [lia|].
  rewrite (fo_page _ _ _ Hf). apply dwp_bind, dwp_require; cbn [PAGE Z.eqb orb]; rewrite negb_involutive.
  2:{ intros Hal%Z.eqb_neq. rewrite bool_decide_eq_false_2; [done|]. by intros [? _]. }
  intros Hal%Z.eqb_eq. apply dwp_bind, (validate_range_spec f cap); [done|lia| |].
  2:{ intros Hout. rewrite bool_decide_eq_false_2; [done|]. lia. }
  intros Hin. rewrite bool_decide_eq_true_2 by done. apply dwp_bind. eapply dwp_mono.
  { apply (nor_program_loop_spec f cap); [done..|lia|done]. }
  intros r m' (St & Ht & Hr).
  assert (touched (nf_cs f) (span offset data) (hw_bus m) (hw_bus m')) as Ht'
    by (eapply touched_mono; [|done]; intros x; unfold span; lia).
  destruct r as [u|e]; [|done]. destruct Hr as [Hs Hov]. apply dwp_ret. split; [done|]. split; [done|].
  split; [done|]. split; [done|]. intros Hsound k v Hk. by apply Hov; [|lia|].
Qed.

(** ** Read and verify *)

(** The [n] bytes the flash holds at [a]. *)
Definition stored f m (a : Z) (n : nat) : list Z :=
  (λ i, array (hw_bus m) (nf_cs f) (a + Z.of_nat i)) <$> seq 0 n.

Lemma flash_bytes_stored f m a n : settled f m → flash_bytes (hw_bus m) (nf_cs f) a n = stored f m a n.
Proof. intros Hs. apply list_fmap_ext. intros i x _. by apply nor_mem. Qed.

Lemma stored_length f m a n : length (stored f m a n) = n.
Proof. unfold stored. by rewrite length_fmap, length_seq. Qed.

Lemma stored_lookup f m a n k :
  (k < n)%nat → stored f m a n !! k = Some (array (hw_bus m) (nf_cs f) (a + Z.of_nat k)).
Proof. intros Hk. unfold stored. rewrite list_lookup_fmap, lookup_seq_lt by done. done. Qed.

Lemma stored_app f m a n k : stored f m a (n + k) = stored f m a n ++ stored f m (a + Z.of_nat n) k.
Proof.
  unfold stored. rewrite seq_app, fmap_app. f_equal. apply list_eq. intros i. rewrite !list_lookup_fmap.
  destruct (decide (i < k)%nat) as [Hi|Hi]; [|by rewrite !lookup_seq_ge by lia].
  rewrite !lookup_seq_lt by done. cbn. do 2 f_equal. lia.
Qed.

Lemma nor_read_spec f cap o n m :
  flash_on f cap m → 0 ≤ o →
  dwp (nor_read f o n) (λ r m', steady m m' ∧ hw_bus m' = hw_bus m ∧
    r = if bool_decide (o + Z.of_nat n ≤ cap ∧ o < cap) then Ok (flash_bytes (hw_bus m) (nf_cs f) o n)
        else Err SmcInvalidCapacity) m.
Proof.
  intros Hf Ho. pose proof (flash_on_cap _ _ _ Hf) as [[_ Hcap] _].
  change (2 ^ 28) with (256 * 1024 * 1024) in Hcap. unfold nor_read.
  apply dwp_bind, (validate_range_spec f cap); [done|lia| |].
  2:{ intros Hout. rewrite bool_decide_eq_false_2 by lia. done. }
  intros Hin. cbn beta iota. unfold device_to_controller_offset. apply dwp_bind, dwp_bind.
  apply (capacity_spec f cap); [done|]. cbn beta iota. apply dwp_bind, dwp_require.
  2:{ intros Hge%negb_false_iff%Z.leb_le. rewrite bool_decide_eq_false_2 by lia. done. }
  intros Hlt%negb_true_iff%Z.leb_gt. apply dwp_ret. cbn beta iota. rewrite bool_decide_eq_true_2 by done.
  eapply dwp_mono; [apply (smc_read_spec _ cap); [apply Hf|unfold in_u32, u32_MAX; lia]|].
  intros r m' (St & Hb & ->). split; [done|]. split; [done|]. by rewrite (proj2 (Z.leb_le _ cap)) by lia.
Qed.

Lemma settled_bus f m m' : hw_bus m' = hw_bus m → settled f m → settled f m'.
Proof. unfold settled. by intros ->. Qed.

Lemma stored_bus f m m' a n : hw_bus m' = hw_bus m → stored f m' a n = stored f m a n.
Proof. unfold stored. by intros ->. Qed.

Lemma compare_loop_spec f cap rounds offset c data m :
  flash_on f cap m → settled f m → 0 ≤ offset → offset + Z.of_nat (length data) ≤ cap →
  (length data - c < rounds)%nat →
  dwp (compare_loop rounds f offset c data 256) (λ r m', steady m m' ∧ hw_bus m' = hw_bus m ∧
    r = Ok (bool_decide (stored f m (offset + Z.of_nat c) (length data - c) = drop c data))) m.
Proof.
  revert c m. induction rounds as [|n IH]; intros c m Hf Hset Ho Hend Hr; [lia|].
  cbn [compare_loop]. destruct (Nat.ltb_spec c (length data)) as [Hlt|Hge].
  2:{ apply dwp_ret. split; [done|]. split; [done|]. rewrite drop_ge, bool_decide_eq_true_2; [done| |done].
      replace (length data - c)%nat with 0%nat by lia. done. }
  set (k := Nat.min 256 (length data - c)).
  pose proof (flash_on_cap _ _ _ Hf) as [[_ Hcap] _]. change (2 ^ 28) with (256 * 1024 * 1024) in Hcap.
  apply dwp_bind, dwp_lift. rewrite in_usize_ok by (unfold u32_MAX; lia). cbn beta iota.
  apply dwp_bind. eapply dwp_mono; [apply (nor_read_spec f cap); [done|lia]|].
  intros r m1 (St1 & Hb1 & ->). rewrite bool_decide_eq_true_2 by lia. rewrite flash_bytes_stored by done.
  assert (stored f m (offset + Z.of_nat c) (length data - c) =
          stored f m (offset + Z.of_nat c) k ++
          stored f m (offset + Z.of_nat (c + k)) (length data - (c + k))) as Esplit.
  { replace (length data - c)%nat with (k + (length data - (c + k)))%nat at 1 by lia.
    rewrite stored_app. do 2 f_equal. lia. }
  assert (drop c data = take k (drop c data) ++ drop (c + k) data) as Edrop.
  { rewrite <- drop_drop. by rewrite take_drop. }
  case_bool_decide as Heq.
  - eapply dwp_mono; [apply IH; [by eapply flash_on_steady|by eapply settled_bus|done|done|lia]|].
    intros r m2 (St2 & Hb2 & ->). split; [by etrans|]. split; [congruence|].
    rewrite (stored_bus f m m1) by done. f_equal. apply bool_decide_ext.
    rewrite Esplit, Edrop, Heq. split; [by intros ->|apply app_inv_head].
  - apply dwp_ret. split; [done|]. split; [done|]. rewrite bool_decide_eq_false_2; [done|].
    rewrite Esplit, Edrop. intros [Hhd _]%app_inj_1; [done|].
    rewrite stored_length, length_take, length_drop. lia.
Qed.

(** [verify] compares the stored bytes and changes nothing. *)
Lemma verify_spec f cap offset data m :
  flash_on f cap m → settled f m → 0 ≤ offset → offset + Z.of_nat (length data) ≤ cap →
  dwp (verify f offset data) (λ r m', steady m m' ∧ hw_bus m' = hw_bus m ∧
    r = Ok (bool_decide (stored f m offset (length data) = data))) m.
Proof.
  intros Hf Hset Ho Hend. unfold verify. apply dwp_bind, (validate_range_spec f cap); [done|lia| |lia].
  intros _. unfold compare_chunked. cbn beta iota. change (Nat.min 256 256) with 256%nat.
  apply dwp_bind, dwp_require_true. eapply dwp_mono.
  { apply (compare_loop_spec f cap _ offset 0); [done..|lia]. }
  intros r m' (St & Hb & ->). split; [done|]. split; [done|].
  by rewrite Z.add_0_r, Nat.sub_0_r, drop_0.
Qed.

(** ** Update *)

Lemma erase_out_of_range f cap offset len m :
  flash_on f cap m → 0 ≤ offset → 0 < len → cap < offset + len →
  dwp (erase_range f offset len) (λ r m', m' = m ∧ r = Err SmcInvalidCapacity) m.
Proof.
  intros Hf Ho Hlen Hout. unfold erase_range. rewrite (proj2 (Z.eqb_neq len 0)) by lia.
  apply dwp_bind, (validate_range_spec f cap); [done|lia|lia|done].
Qed.

(** Blank bytes programmed with [data] hold it. *)
Lemma blank_overlaid f m m' offset data :
  Forall in_u8 data → blank f m (span offset data) → overlaid f m offset data m' →
  stored f m' offset (length data) = data.
Proof.
  intros Hd Hb Hov. apply list_eq_same_length with (n := length data); [done|by rewrite stored_length|].
  intros k x y Hk Hx Hy. rewrite stored_lookup in Hx by done. injection Hx as <-.
  rewrite (Hov k y Hy), Hb by (unfold span; lia).
  assert (in_u8 y) as Hu8 by (eapply Forall_lookup_1; done). unfold in_u8, u8_MAX in Hu8.
  rewrite Z.land_comm. change 255 with (Z.ones 8). rewrite Z.land_ones by lia. apply Z.mod_small. lia.
Qed.

Lemma span_sectors offset data x :
  0 ≤ offset → span offset data x → sectors offset (Z.of_nat (length data)) x.
Proof. unfold span, sectors, SECTOR. intros Ho Hx. split; apply Z.div_le_mono; lia. Qed.

(** C11: an update of a region never changes a byte outside the sectors of its own
    chip select that the region meets, and leaves the controller as it was.  When it
    succeeds the flash is idle and holds exactly the data.  A region that does not
    fit is refused with nothing changed; one that fits and starts on a page is
    always written, when erase and program work and finish in time. *)
Theorem update_region_writes f cap offset data m :
  flash_on f cap m → settled f m → in_u32 offset → Forall in_u8 data → data ≠ [] →
  dwp (update_region f offset data) (λ r m',
    steady m m' ∧
    touched (nf_cs f) (sectors offset (Z.of_nat (length data))) (hw_bus m) (hw_bus m') ∧
    match r with
    | Ok n => n = Z.of_nat (length data) ∧ settled f m' ∧ stored f m' offset (length data) = data
    | Err e =>
        (cap < offset + Z.of_nat (length data) → e = SmcInvalidCapacity ∧ m' = m) ∧
        ¬ (offset + Z.of_nat (length data) ≤ cap ∧ offset mod PAGE = 0 ∧ sound ∧ prompt)
    end) m.
Proof.
  intros Hf Hset Ho Hd Hne. unfold in_u32 in Ho.
  assert (0 < length data)%nat as Hlen by (destruct data; [done|cbn; lia]).
  unfold update_region. destruct (Nat.eqb_spec (length data) 0) as [E|_]; [lia|].
  destruct (decide (offset + Z.of_nat (length data) ≤ cap)) as [Hfit|Hout].
  2:{ apply dwp_bind. eapply dwp_mono; [apply (erase_out_of_range f cap); [done|lia..]|].
      intros r m' (-> & ->). split; [done|]. split; [done|]. split; [done|]. by intros [? _]. }
  apply dwp_bind. eapply dwp_mono; [apply (erase_range_spec f cap); [done|done|lia..]|].
  intros r m1 (St1 & Ht1 & Hr1).
  destruct r as [u|e]; [|split; [done|]; split; [done|]; split; [lia|]; by intros (_ & _ & _ & ?); apply Hr1].
  destruct Hr1 as [Hs1 Hb1]. assert (flash_on f cap m1) as Hf1 by by eapply flash_on_steady.
  apply dwp_bind. eapply dwp_mono; [apply (nor_program_spec f cap); [done|done|lia|done|done]|].
  intros r m2. case_bool_decide as Hal; cycle 1.
  { intros (-> & ->). split; [done|]. split; [done|]. split; [lia|]. intros (_ & ? & _). tauto. }
  intros (St2 & Ht2 & Hr2).
  assert (touched (nf_cs f) (sectors offset (Z.of_nat (length data))) (hw_bus m) (hw_bus m2)) as Ht12.
  { etrans; [done|]. eapply touched_mono; [|done]. intros x. apply span_sectors. lia. }
  assert (steady m m2) as St12 by by etrans.
  destruct r as [n|e]; [|split; [done|]; split; [done|]; split; [lia|]; by intros (_ & _ & _ & ?); apply Hr2].
  destruct Hr2 as (Hs2 & -> & Hov). apply dwp_bind. eapply dwp_mono.
  { apply (verify_spec f cap); [by eapply flash_on_steady|done|lia|lia]. }
  intros r m3 (St3 & Hb3 & ->). apply dwp_bind. rewrite <- Hb3 in Ht12.
  assert (steady m m3) as St13 by by etrans. apply dwp_require; intros Hsame; case_bool_decide as Hst; try done.
  - apply dwp_ret. split; [done|]. split; [done|]. split; [done|]. split; [by eapply settled_bus|].
    by rewrite (stored_bus f m2).
  - split; [done|]. split; [done|]. split; [lia|]. intros (_ & _ & Hsound & _). apply Hst.
    apply (blank_overlaid f m1); [done| |by apply Hov].
    intros x Hx. apply Hb1; [done|]. apply span_sectors; [lia|done].
Qed.

(** A region that does not start on a page is refused only after its sectors are
    erased. *)
Lemma misaligned_update_erases f cap offset data m :
  flash_on f cap m → settled f m → 0 ≤ offset → Forall in_u8 data → data ≠ [] →
  offset + Z.of_nat (length data) ≤ cap → offset mod PAGE ≠ 0 → sound → prompt →
  dwp (update_region f offset data) (λ r m',
    r = Err SmcInvalidCapacity ∧ blank f m' (sectors offset (Z.of_nat (length data)))) m.
Proof.
  intros Hf Hset Ho Hd Hne Hfit Hal Hsound Hprompt.
  assert (0 < length data)%nat as Hlen by (destruct data; [done|cbn; lia]).
  unfold update_region. destruct (Nat.eqb_spec (length data) 0) as [E|_]; [lia|].
  apply dwp_bind. eapply dwp_mono; [apply (erase_range_spec f cap); [done|done|lia..]|].
  intros r m1 (St1 & Ht1 & Hr1). destruct r as [u|e]; [|by destruct Hr1].
  destruct Hr1 as [Hs1 Hb1]. apply dwp_bind. eapply dwp_mono.
  { apply (nor_program_spec f cap); [by eapply flash_on_steady|done|lia|done|done]. }
  intros r m2. rewrite bool_decide_eq_false_2 by tauto. intros (-> & ->). split; [done|]. by apply Hb1.
Qed.

(** ** The block device *)

(** A device whose geometry is that of its flash. *)
Record device_on (d : SpiNorBlockDevice) (cap : Z) m : Prop := {
  do_flash : flash_on (bd_flash d) cap m;
  do_page : page_size (bd_cfg d) = PAGE;
  do_sector : sector_size (bd_cfg d) = SECTOR;
}.

(** The devices [cfg_from_jedec] knows have it. *)
Lemma from_jedec_on f j cap m :
  flash_on f cap m →
  dwp (from_jedec_id f j) (λ r m', m' = m ∧ match r with
    | Ok d => bd_flash d = f ∧ device_on d cap m ∧ cfg_capacity_bytes (bd_cfg d) = Ok cap
    | Err e => e = SmcDeviceNotSupported ∨ e = SmcInvalidCapacity
    end) m.
Proof.
  intros Hf. unfold from_jedec_id. apply dwp_bind, dwp_lift.
  assert (∀ cfg, cfg_from_jedec j = Ok cfg → page_size cfg = PAGE ∧ sector_size cfg = SECTOR ∧
            block_size cfg = 65536 ∧ ∃ c, cfg_capacity_bytes cfg = Ok c) as Hcfg.
  { intros cfg. unfold cfg_from_jedec. repeat case_match; intros [= <-]; repeat split; by eexists. }
  destruct (cfg_from_jedec j) as [cfg|e] eqn:Hj.
  2:{ split; [done|]. left. unfold cfg_from_jedec in Hj. by repeat case_match; simplify_eq. }
  destruct (Hcfg cfg eq_refl) as (Hp & Hs & Hb & c & Hc). unfold from_flash.
  apply dwp_bind, dwp_lift. rewrite Hc. cbn beta iota. apply dwp_bind, (capacity_spec f cap); [done|].
  cbn beta iota. apply dwp_bind, dwp_require; [|auto]. intros ->%Z.eqb_eq. rewrite Hp, Hs, Hb.
  apply dwp_bind, dwp_require_true. apply dwp_ret. by split.
Qed.

(** blocks written after they were erased are read back: over whole sectors
    within the device, erase, write and read give the data, unless the flash never
    reports that it is done. *)
Theorem blocks_round_trip d cap address data m :
  device_on d cap m → settled (bd_flash d) m → 0 ≤ address → Forall in_u8 data → data ≠ [] →
  address mod SECTOR = 0 → Z.of_nat (length data) mod SECTOR = 0 →
  address + Z.of_nat (length data) ≤ cap → sound →
  dwp (erase_blocks d address (Z.of_nat (length data));;
       written ← write_blocks d address data;
       back ← read_blocks d address (length data);
       mret (written, back))
    (λ r m', steady m m' ∧
      (r = Ok (Z.of_nat (length data), data) ∨ r = Err SmcTimeout ∧ ¬ prompt)) m.
Proof.
  intros [Hf Hp Hs] Hset Ha Hd Hne Hal Hlal Hfit Hsound.
  assert (0 < length data)%nat as Hlen by (destruct data; [done|cbn; lia]).
  assert (address mod PAGE = 0) as Hpal.
  { apply Z.mod_divide in Hal as [q ->]; [|done]. unfold SECTOR, PAGE. change 4096 with (16 * 256).
    by rewrite Z.mul_assoc, Z.mod_mul. }
  apply dwp_bind. unfold erase_blocks. rewrite (proj2 (Z.eqb_neq _ 0)) by lia. rewrite Hs, Hal, Hlal.
  apply dwp_bind, dwp_require_true. cbn beta iota.
  eapply dwp_mono; [apply (erase_range_spec _ cap); [done|done|lia..]|].
  intros r m1 (St1 & _ & Hr1). destruct r as [u|e]; [|destruct Hr1 as [-> ?]; by auto].
  destruct Hr1 as [Hs1 Hb1]. apply dwp_bind. unfold write_blocks.
  destruct (Nat.eqb_spec (length data) 0) as [E|_]; [lia|]. rewrite Hp, Hpal.
  apply dwp_bind, dwp_require_true. cbn beta iota. eapply dwp_mono.
  { apply (nor_program_spec _ cap); [by eapply flash_on_steady|done|lia|done|done]. }
  intros r m2. rewrite bool_decide_eq_true_2 by done. intros (St2 & _ & Hr2).
  assert (steady m m2) as St12 by by etrans. destruct r as [n|e]; [|destruct Hr2 as [-> ?]; by auto].
  destruct Hr2 as (Hs2 & -> & Hov). apply dwp_bind. eapply dwp_mono.
  { apply (nor_read_spec _ cap); [by eapply flash_on_steady|done]. }
  intros r m3 (St3 & _ & ->). rewrite bool_decide_eq_true_2 by lia. apply dwp_ret.
  split; [by etrans|]. left. rewrite flash_bytes_stored by done. do 2 f_equal.
  apply (blank_overlaid _ m1); [done| |by apply Hov].
  intros x Hx. apply Hb1; [done|]. apply span_sectors; [lia|done].
Qed.
End update.

(** ** On a controller with two flashes *)

Lemma demo_on : flash_on demo_flash (32 * 1024 * 1024) demo_smc.
Proof.
  constructor; [exact demo_attached|reflexivity..|apply Z.leb_le; reflexivity].
Qed.

(** A two-sector update that starts in the middle of a sector. *)
Definition demo_data : list Z := replicate 300 7.
Example demo_update :
  match update_region demo_flash 0x1000f00 demo_data demo_smc with
  | Some (m', r) =>
      r = Ok 300 ∧ stored demo_flash m' 0x1000f00 300 = demo_data ∧
      stored demo_flash m' 0x1000efe 3 = [255; 255; 7]
  | None => False
  end.
Proof. vm_compute. auto. Qed.

Lemma demo_bytes n : Forall in_u8 (replicate n 7).
Proof. apply Forall_replicate. by split. Qed.

Lemma update_region_writes_witness :
  flash_on demo_flash (32 * 1024 * 1024) demo_smc ∧ settled demo_flash demo_smc ∧
  dwp (update_region demo_flash 0x1000f00 demo_data) (λ r m', r = Ok 300 ∧
    stored demo_flash m' 0x1000f00 300 = demo_data) demo_smc.
Proof.
  split; [exact demo_on|]. split; [reflexivity|]. eapply dwp_mono.
  - apply (@update_region_writes nor_board nor_bus _ _ _ _ demo_flash (32 * 1024 * 1024) 0x1000f00 demo_data demo_smc);
      [exact demo_on|reflexivity|split; apply Z.leb_le; reflexivity|exact (demo_bytes 300)|discriminate].
  - intros r m' (_ & _ & Hr). destruct r as [n|e].
    + destruct Hr as (-> & _ & Hs). split; [reflexivity|exact Hs].
    + exfalso. apply (proj2 Hr). split; [apply Z.leb_le; reflexivity|]. split; [reflexivity|].
      split; [exact nor_reliable|exact nor_is_prompt].
Defined.

Definition demo_device : SpiNorBlockDevice := mkBlockDevice demo_flash winbond_w25q256.
Definition demo_sector : list Z := replicate 4096 7.

Lemma demo_sector_length : Z.of_nat (length demo_sector) = SECTOR.
Proof. unfold demo_sector. by rewrite length_replicate. Qed.

Lemma blocks_round_trip_witness :
  device_on demo_device (32 * 1024 * 1024) demo_smc ∧
  dwp (erase_blocks demo_device 0x1000000 (Z.of_nat (length demo_sector));;
       written ← write_blocks demo_device 0x1000000 demo_sector;
       back ← read_blocks demo_device 0x1000000 (length demo_sector);
       mret (written, back))
    (λ r m', r = Ok (SECTOR, demo_sector)) demo_smc.
Proof.
  assert (device_on demo_device (32 * 1024 * 1024) demo_smc) as Hd
    by (split; [exact demo_on|reflexivity|reflexivity]).
  split; [exact Hd|]. eapply dwp_mono.
  - apply (@blocks_round_trip nor_board nor_bus _ _ _ _ demo_device (32 * 1024 * 1024) 0x1000000 demo_sector demo_smc);
      [exact Hd|reflexivity|lia|exact (demo_bytes 4096)|discriminate|reflexivity
      |by rewrite demo_sector_length|rewrite demo_sector_length; unfold SECTOR; lia|exact nor_reliable].
  - intros r m' (_ & [-> | (_ & Hp)]); [by rewrite demo_sector_length|]. exfalso. exact (Hp nor_is_prompt).
Defined.
