(* ===== verification/SpiTxn.v ===== *)
(** * SPI transactions through a monitor

    [smc/spi/spi_transaction.rs]: a transfer of an SPI controller wrapped in the
    routing of the monitor it goes through.  The wrapper works on the control unit
    ([Soc]) and on the controller ([Smc]); the state of a transaction is what it
    has to undo, [None] once that was done. *)

From S2P Require Import Prelude Bytes RegMonad Spim SpimRun Soc SocRun Smc SmcRun NorFlash NorChip SmcInit.
From stdpp Require Import base tactics option list numbers sets.
Local Open Scope Z_scope.

Record SpiMuxState := mkMux {
  mx_spim_present : bool; mx_internal_mux_active : bool; mx_proprietary_state : option (list Z);
}.

Section txn.
Context {S H : Type} `{Soc S} `{SmcHw H}.
Local Notation smc A := (Smc.smc (H := H) A).

Definition txn (A : Type) : Type := drv (S * Smc H) SmcError A.

(** [SpiTransaction.previous_mux]. *)
Definition SpiTransaction : Type := option SpiMuxState.

Definition on_spi {A} (c : smc A) : txn A := λ t,
  match c t.2 with Some (m, r) => Some ((t.1, m), r) | None => None end.
Definition on_scu (f : S → S) : txn unit := writes (λ t, (f t.1, t.2)).
Definition try_scu (f : S → S * result unit ScuError) : txn unit := λ t,
  let '(s, r) := f t.1 in
  Some ((s, t.2), match r with Ok _ => Ok () | Err _ => Err SmcHardwareError end).
(** A call that may panic. *)
Definition ask_scu {A} (f : S → option (S * A)) : txn A := λ t,
  match f t.1 with Some (s, a) => Some ((s, t.2), Ok a) | None => None end.

Definition spim_source : txn SpiMonitorSource :=
  id ← reads (λ t, sm_controller_id t.2);
  match id with
  | SmcSpi1 => mret Spi1
  | SmcSpi2 => mret Spi2
  | Fmc => raise SmcInvalidChipSelect
  end.

Definition begin (spim : option SpiMonitorInstance) : txn SpiTransaction :=
  match spim with
  | None => mret (Some (mkMux false false None))
  | Some spim =>
      on_scu unlock_write_protection;;
      lift (match validate_spim_instance spim with Ok _ => Ok () | Err _ => Err SmcHardwareError end);;
      master ← on_spi master_idx;
      internal_mux_active ← (if negb (master =? 0) then
        source ← spim_source;
        try_scu (set_spim_internal_mux source (instance_u8 spim + 1));;
        mret true
      else mret false);
      proprietary_state ← ask_scu spim_proprietary_pre_config;
      mret (Some (mkMux true internal_mux_active proprietary_state))
  end.

(** [finish_restore], and [drop], which does the same. *)
Definition finish_restore (t : SpiTransaction) : txn unit :=
  match t with
  | Some state =>
      if mx_spim_present state then
        on_scu unlock_write_protection;;
        match mx_proprietary_state state with
        | Some ori => ask_scu (λ s, (λ s', (s', ())) <$> spim_proprietary_post_config ori s)
        | None => mret ()
        end;;
        (if mx_internal_mux_active state then on_scu clear_spim_internal_master_route else mret ())
      else mret ()
  | None => mret ()
  end.

Definition finish_result {A} (t : SpiTransaction) (result : result A SmcError) : txn A :=
  restore ← attempt (finish_restore t);
  match result, restore with
  | Ok value, Ok _ => mret value
  | Err err, _ => raise err
  | Ok _, Err err => raise err
  end.

Definition read_with_spim (spim : option SpiMonitorInstance) (cs : ChipSelect) (offset : Z) (len : nat) :
    txn (list Z) :=
  t ← begin spim;
  result ← attempt (on_spi (smc_read cs offset len));
  finish_result t result.

Definition transceive_user_with_spim (spim : option SpiMonitorInstance) (cs : ChipSelect)
    (cmd tx_payload : list Z) (rx : nat) (mode : TransferMode) : txn (list Z) :=
  t ← begin spim;
  result ← attempt (on_spi (transceive_user cs cmd tx_payload rx mode));
  finish_result t result.

(** A read that is refused drops the transaction. *)
Definition dma_read_with_spim (polls : nat) (spim : option SpiMonitorInstance) (cs : ChipSelect)
    (flash_offset dram_addr len : Z) : txn SpiTransaction :=
  t ← begin spim;
  r ← attempt (on_spi (dma_read polls cs flash_offset dram_addr len));
  match r with
  | Ok _ => mret t
  | Err e => finish_restore t;; raise e
  end.

(** [SpiTransaction::poll_dma_completion], with the transaction it leaves. *)
Definition txn_poll_dma_completion (t : SpiTransaction) :
    txn (option (result unit SmcError) * SpiTransaction) :=
  p ← on_spi poll_dma_completion;
  match p with
  | None => mret (None, t)
  | Some (Ok _) => finish_restore t;; mret (Some (Ok ()), None)
  | Some (Err e) => mret (Some (Err e), t)
  end.

Definition txn_handle_dma_irq (t : SpiTransaction) : txn (result SmcInterrupt SmcError * SpiTransaction) :=
  interrupt ← attempt (on_spi handle_dma_irq);
  match interrupt with
  | Ok i => finish_restore t;; mret (Ok i, None)
  | Err e => mret (Err e, t)
  end.

(** Dropping a transaction. *)
Definition txn_drop (t : SpiTransaction) : txn unit := finish_restore t.
End txn.

(** ** The routing of a transaction *)

Section restored.
Context {S H : Type} `{SocLaws S} `{SmcHw H}.
Implicit Types (s : S) (m : Smc H).

(** Whether the transaction sets the internal route, and what it writes there. *)
Definition routed m : bool := negb (topology_master_idx (sc_topology (sm_config m)) =? 0).
Definition source_bit (id : SmcController) : Z := match id with SmcSpi2 => 8 | _ => 0 end.
Definition route (spim : SpiMonitorInstance) m (v : Z) : Z :=
  if routed m
  then Z.lor (Z.lor (Z.land v (not_u32 15)) (source_bit (sm_controller_id m))) (instance_u8 spim + 1)
  else v.

(** The monitor whose pins are shared with the one in use. *)
Definition partner (spim : SpiMonitorInstance) m s : option nat :=
  ast1060_spim_op_idx (route spim m (rd s (scu 0x0f0))).

(** Bit [n] of [x] after a transaction: the internal route, if it was set, is
    released; the pins handed over, if any, have their function back with the
    chip select left an output driven high; nothing else has changed. *)
Definition released (spim : SpiMonitorInstance) m s (x : Reg) (n : Z) : bool :=
  if routed m && bool_decide (x = scu 0x0f0) && (n <? 4) then false
  else match partner spim m s with
       | Some i => taken_back (clk_pin i) s x n
       | None => Z.testbit (rd s x) n
       end.
Definition levels_known (spim : SpiMonitorInstance) m s (x : Reg) (n : Z) : Prop :=
  match partner spim m s with Some i => clock_known (clk_pin i) s x n | None => True end.

Lemma route_u32 spim m v : in_u32 v → in_u32 (route spim m v).
Proof.
  intros Hv. unfold route. destruct (routed m); [|done]. apply in_u32_lor; [apply in_u32_lor|].
  - by apply in_u32_land.
  - unfold in_u32, u32_MAX. destruct (sm_controller_id m); cbn; lia.
  - unfold in_u32, u32_MAX. destruct spim; cbn; lia.
Qed.

Lemma route_high spim m v n : 4 ≤ n < 32 → Z.testbit (route spim m v) n = Z.testbit v n.
Proof.
  intros Hn. unfold route. destruct (routed m); [|done].
  rewrite !Z.lor_spec, Z.land_spec, testbit_not_u32 by lia.
  assert (∀ k, 0 ≤ k < 16 → Z.testbit k n = false) as Hk by (intros k Hk; by apply (high_bit k 4); lia).
  rewrite (Hk 15), (Hk (source_bit _)), (Hk (instance_u8 spim + 1));
    [cbn [negb]; by rewrite andb_true_r, !orb_false_r|..].
  - destruct spim; cbn; lia.
  - destruct (sm_controller_id m); cbn; lia.
  - lia.
Qed.

Lemma set_mux_ok source o s :
  o ≤ 4 →
  set_spim_internal_mux source o s =
    (wr (unlock_write_protection s) (scu 0x0f0)
       (Z.lor (Z.lor (Z.land (rd s (scu 0x0f0)) (not_u32 15)) (match source with Spi2 => 8 | Spi1 => 0 end)) o),
     Ok ()).
Proof. intros Ho. unfold set_spim_internal_mux. by rewrite (proj2 (Z.ltb_ge 4 o)), rd_unlock by done. Qed.

Lemma begin_spec spim s m :
  sm_controller_id m ≠ Fmc →
  ∃ sB, (∀ x, x ≠ scu 0x000 → rd sB x = if bool_decide (x = scu 0x0f0) then route spim m (rd s x) else rd s x) ∧
    begin (Some spim) (s, m) =
      match spim_proprietary_pre_config sB with
      | Some (s1, prev) => Some ((s1, m), Ok (Some (mkMux true (routed m) prev)))
      | None => None
      end.
Proof.
  intros Hid. set (sA := unlock_write_protection s).
  assert (∀ x, x ≠ scu 0x000 → rd sA x = rd s x) as HA by (intros; by apply rd_unlock).
  exists (if routed m then wr (unlock_write_protection sA) (scu 0x0f0) (route spim m (rd s (scu 0x0f0))) else sA).
  split.
  - intros x Hx. destruct (routed m) eqn:Hr.
    + case_bool_decide as Hx'; [subst x|].
      * apply scu_storage; [apply unlocked_key|by left|]. apply route_u32, rd_range.
      * rewrite SocRun.rd_frame by (by apply affects_scu). rewrite rd_unlock by done. by apply HA.
    + rewrite HA by done. unfold route. rewrite Hr. by case_bool_decide.
  - unfold begin, on_scu, writes, mbind, drv_bind, lift. cbn [validate_spim_instance].
    destruct spim; cbn [validate_spim_instance]; unfold on_spi, master_idx, reads; cbn [fst snd].
    all: fold sA; destruct (routed m) eqn:Hr; unfold routed in Hr; rewrite Hr.
    all: try (unfold mret, drv_ret, ask_scu; cbn [fst snd];
              by destruct (spim_proprietary_pre_config sA) as [[? ?]|]).
    all: unfold spim_source, reads, mbind, drv_bind, mret, drv_ret, try_scu, ask_scu, raise; cbn [fst snd].
    all: destruct (sm_controller_id m) eqn:Eid; [done|..]; cbn [fst snd].
    all: rewrite set_mux_ok by (cbn; lia); unfold route, routed; rewrite Hr, Eid, HA by done; cbn [fst snd source_bit].
    all: by destruct (spim_proprietary_pre_config _) as [[? ?]|].
Qed.

(** What handing the pins over leaves is undone, whatever unlocked the control unit
    in between. *)
Lemma config_undone (sB : S) :
  ∃ s1 prev, spim_proprietary_pre_config sB = Some (s1, prev) ∧ rd s1 (scu 0x0f0) = rd sB (scu 0x0f0) ∧
    ∀ s', alike s1 s' → ∃ s3,
      match prev with Some ori => spim_proprietary_post_config ori s' | None => Some s' end = Some s3 ∧
      ∀ x n, x ≠ scu 0x000 → 0 ≤ n < 32 →
        match ast1060_spim_op_idx (rd sB (scu 0x0f0)) with
        | Some i => clock_known (clk_pin i) sB x n → Z.testbit (rd s3 x) n = taken_back (clk_pin i) sB x n
        | None => Z.testbit (rd s3 x) n = Z.testbit (rd sB x) n
        end.
Proof.
  destruct (ast1060_spim_op_idx (rd sB (scu 0x0f0))) as [idx|] eqn:Hidx.
  - destruct (pre_config_bits sB idx Hidx) as (s1 & ori & w & Hpre & E1 & Hw & Hwas & _).
    exists s1, (Some ori). split; [done|]. split; [by rewrite E1, hand_over_untouched, rd_unlock|]. intros s' Hal.
    destruct (post_config_bits sB s1 s' idx ori w Hidx E1 Hal Hw Hwas) as (s3 & Hpost & Hb).
    exists s3. split; [done|]. intros x n Hx Hn. by apply Hb.
  - exists (unlock_write_protection sB), None. split.
    + unfold spim_proprietary_pre_config. by rewrite rd_unlock, Hidx.
    + split; [by rewrite rd_unlock|]. intros s' Hal. exists s'. split; [done|]. intros x n Hx _. by rewrite (al_rd _ _ Hal), rd_unlock.
Qed.

Lemma clear_route_bits s x n :
  x ≠ scu 0x000 → 0 ≤ n < 32 →
  Z.testbit (rd (clear_spim_internal_master_route s) x) n =
    if bool_decide (x = scu 0x0f0) && (n <? 4) then false else Z.testbit (rd s x) n.
Proof.
  intros Hx Hn. unfold clear_spim_internal_master_route. case_bool_decide as Hx'; cbn [andb].
  - subst x. unfold modify. rewrite scu_storage, rd_unlock; [|done|apply unlocked_key|by left|].
    2:{ apply in_u32_land. by apply rd_range. }
    rewrite Z.land_spec, testbit_not_u32 by done. change 15 with (Z.ones 4). rewrite Z.testbit_ones by lia.
    rewrite (proj2 (Z.leb_le 0 n)) by lia. destruct (n <? 4); cbn [andb negb]; [apply andb_false_r|apply andb_true_r].
  - rewrite rd_modify_ne, rd_unlock by (done || by apply affects_scu). done.
Qed.

(** Undoing a transaction. *)
Lemma finish_restore_spec spim s m m' (sB s1 : S) prev :
  (∀ x, x ≠ scu 0x000 → rd sB x = if bool_decide (x = scu 0x0f0) then route spim m (rd s x) else rd s x) →
  (∀ s', alike s1 s' → ∃ s3,
      match prev with Some ori => spim_proprietary_post_config ori s' | None => Some s' end = Some s3 ∧
      ∀ x n, x ≠ scu 0x000 → 0 ≤ n < 32 →
        match ast1060_spim_op_idx (rd sB (scu 0x0f0)) with
        | Some i => clock_known (clk_pin i) sB x n → Z.testbit (rd s3 x) n = taken_back (clk_pin i) sB x n
        | None => Z.testbit (rd s3 x) n = Z.testbit (rd sB x) n
        end) →
  ∃ s4, finish_restore (H := H) (Some (mkMux true (routed m) prev)) (s1, m') = Some ((s4, m'), Ok ()) ∧
    ∀ x n, x ≠ scu 0x000 → 0 ≤ n < 32 → levels_known spim m s x n →
      Z.testbit (rd s4 x) n = released spim m s x n.
Proof.
  intros HB Hundo. destruct (Hundo (unlock_write_protection s1)) as (s3 & Hpost & Hbits).
  { apply alike_unlock. by split. }
  exists (if routed m then clear_spim_internal_master_route s3 else s3). split.
  - unfold finish_restore, on_scu, writes, mbind, drv_bind, ask_scu, mret, drv_ret.
    cbn [mx_spim_present mx_proprietary_state mx_internal_mux_active fst snd].
    destruct prev as [ori|]; cbn [fst snd]; [rewrite Hpost|injection Hpost as <-]; cbn [fmap option_fmap option_map fst snd];
      by destruct (routed m).
  - assert (∀ x n, x ≠ scu 0x000 → 0 ≤ n < 32 → levels_known spim m s x n →
      Z.testbit (rd s3 x) n = if bool_decide (x = scu 0x0f0) then Z.testbit (rd sB x) n else
        match partner spim m s with Some i => taken_back (clk_pin i) s x n | None => Z.testbit (rd s x) n end) as H3.
    { intros x n Hx Hn Hk. specialize (Hbits x n Hx Hn). unfold levels_known, partner in *.
      rewrite (HB (scu 0x0f0)), bool_decide_eq_true_2 in Hbits by done.
      destruct (ast1060_spim_op_idx (route spim m (rd s (scu 0x0f0)))) as [i|].
      - assert (clock_known (clk_pin i) sB x n) as Hc.
        { unfold clock_known in *. by rewrite (HB (gpio 0x024)), bool_decide_eq_false_2. }
        rewrite (Hbits Hc). unfold taken_back. rewrite (HB x) by done.
        destruct (decide (x = scu 0x0f0)) as [->|Ex]; [done|].
        by rewrite !(bool_decide_false (x = scu 0x0f0)).
      - rewrite Hbits. case_bool_decide as Ex; [done|]. rewrite (HB x) by done. by rewrite bool_decide_eq_false_2. }
    intros x n Hx Hn Hk. unfold released. destruct (routed m) eqn:Hr; cbn [andb].
    + rewrite clear_route_bits, H3 by done.
      destruct (decide (x = scu 0x0f0)) as [->|Ex]; [|by rewrite !(bool_decide_false (x = scu 0x0f0))].
      rewrite !bool_decide_true by done. cbn [andb]. destruct (Z.ltb_spec n 4); [done|].
      rewrite HB, bool_decide_eq_true_2, route_high by (done || lia). by destruct (partner spim m s).
    + rewrite H3 by done. destruct (decide (x = scu 0x0f0)) as [->|Ex]; [|by rewrite !(bool_decide_false (x = scu 0x0f0))].
      rewrite HB, !bool_decide_eq_true_2 by done. unfold route. rewrite Hr. by destruct (partner spim m s).
Qed.

(** A transaction as a whole, for any call [c] of the controller made in it. *)
Lemma transaction_released {A} spim s m (c : Smc.smc (H := H) A) m' r :
  sm_controller_id m ≠ Fmc → c m = Some (m', r) →
  ∃ s1 t s4, begin (Some spim) (s, m) = Some ((s1, m), Ok t) ∧
    rd s1 (scu 0x0f0) = route spim m (rd s (scu 0x0f0)) ∧
    (t ← begin (Some spim); result ← attempt (on_spi c); finish_result t result) (s, m) = Some ((s4, m'), r) ∧
    finish_restore (H := H) t (s1, m') = Some ((s4, m'), Ok ()) ∧
    ∀ x n, x ≠ scu 0x000 → 0 ≤ n < 32 → levels_known spim m s x n →
      Z.testbit (rd s4 x) n = released spim m s x n.
Proof.
  intros Hid Hc. destruct (begin_spec spim s m Hid) as (sB & HB & Hbegin).
  destruct (config_undone sB) as (s1 & prev & Hpre & Hroute & Hundo). rewrite Hpre in Hbegin.
  destruct (finish_restore_spec spim s m m' sB s1 prev HB Hundo) as (s4 & Hfin & Hbits).
  exists s1, (Some (mkMux true (routed m) prev)), s4. split; [exact Hbegin|].
  split; [by rewrite Hroute, HB, bool_decide_eq_true_2|].
  split; [|split; [exact Hfin|exact Hbits]].
  unfold mbind, drv_bind. rewrite Hbegin. unfold attempt at 1, on_spi. cbn [fst snd]. rewrite Hc.
  unfold finish_result, mbind, drv_bind, attempt. rewrite Hfin. by destruct r.
Qed.
End restored.

(** ** A transfer through a monitor *)

Section transfer.
Context {S H B : Type} `{SocLaws S} `{SmcLaws H B}.

(** C12: A user-mode transfer through a monitor.  With a topology whose [master_idx]
    is not 0 the internal route selects the controller and the monitor while it
    runs and is cleared afterwards; with [master_idx] 0 the route is left alone.
    The transfer is one transaction on the controller's bus, with the bytes that
    come back.  Afterwards the pins that were handed over have their SPI function
    back, the chip-select GPIO stays an output driven high, and every other bit of
    the control unit and of the GPIO banks is as before; the write-protection key
    register and the level of a clock pin that was an output are not claimed. *)
Theorem monitored_transfer (spim : SpiMonitorInstance) cs cap cmd tx n mode (s : S) (m : Smc H) :
  attached cs cap m → sm_state m = Idle → sm_controller_id m ≠ Fmc → Forall in_u8 cmd → Forall in_u8 tx →
  Z.of_nat (length cmd) ≤ cap → Z.of_nat (length tx) ≤ cap → Z.of_nat n ≤ cap →
  (∃ s1 t, begin (Some spim) (s, m) = Some ((s1, m), Ok t) ∧
     rd s1 (scu 0x0f0) = route spim m (rd s (scu 0x0f0))) ∧
  dwp (transceive_user_with_spim (Some spim) cs cmd tx n mode) (λ r t',
    steady m t'.2 ∧
    (∃ out, r = Ok out ∧ (hw_bus t'.2, out) = transact (hw_bus m) cs (cmd ++ tx) n) ∧
    ∀ x k, x ≠ scu 0x000 → 0 ≤ k < 32 → levels_known spim m s x k →
      Z.testbit (rd t'.1 x) k = released spim m s x k) (s, m).
Proof.
  intros Hat Hidle Hid Hcmd Htx Lc Lt Ln.
  pose proof (transceive_spec cs cap cmd tx n mode m Hat Hidle Hcmd Htx Lc Lt Ln) as Hx.
  apply dwp_run in Hx as (m' & r & Hrun & St & Hout).
  destruct (transaction_released spim s m _ m' r Hid Hrun) as (s1 & t & s4 & Hb & Hroute & Hwhole & _ & Hbits).
  split; [by exists s1, t|]. eapply dwp_intro; [exact Hwhole|]. by split.
Qed.
End transfer.

(** The status command to the flash of the second chip select through monitor 2. *)
Lemma monitored_transfer_witness :
  attached Cs1 (32 * 1024 * 1024) demo_smc ∧
  dwp (transceive_user_with_spim (Some Spim2) Cs1 [READ_STATUS] [] 1 Mode111) (λ r t',
    r = Ok [0] ∧ Z.testbit (rd t'.1 (scu 0x0f0)) 0 = false) (chip0, demo_smc).
Proof.
  split; [exact demo_attached|].
  destruct (@monitored_transfer Chip nor_board nor_bus _ _ _ _ _ Spim2 Cs1 (32 * 1024 * 1024) [READ_STATUS] [] 1
    Mode111 chip0 demo_smc) as [_ Hx];
    [exact demo_attached|reflexivity|discriminate|constructor; [by split|constructor]|constructor|cbn; lia..|].
  eapply dwp_mono; [exact Hx|]. intros r [s' m'] (_ & (out & -> & Hb) & Hbits). split.
  - change out with (hw_bus m', out).2. cbn [fst snd] in Hb. rewrite Hb. reflexivity.
  - cbn [fst]. rewrite Hbits; [reflexivity|discriminate|lia|]. vm_compute. discriminate.
Defined.
