(* ===== verification/AstI2c.v ===== *)
(** * The AST1060 I2C controller driver: master mode

    [target/ast10x0/peripherals/i2c]: [types.rs], [constants.rs], [error.rs],
    [timing.rs], [controller.rs], [transfer.rs], [dma.rs], [master.rs],
    [recovery.rs], [hal_impl.rs] and [global.rs].

    The registers, the pool buffer, the RAM the DMA engine shares with the CPU and
    the yield closure are the type class [I2cHw].  The positions of the fields and
    the reset values of the registers are the register crate's: [fget], [fput] and
    [reset_value].  The slice a read fills is part of the driver's state, [dst],
    because what was received before an error stays in it. *)

From S2P Require Import Prelude Bytes RegMonad Spim I2cWire I2cServer.
From stdpp Require Import base tactics option list numbers.
Local Open Scope Z_scope.

(** ** Types ([types.rs], [error.rs]) *)

Inductive AstI2cError :=
| AstOverrun | AstNoAcknowledge | AstTimeout | AstBusRecoveryFailed | AstBus | AstBusy | AstInvalid
| AstAbnormal | AstArbitrationLoss | AstSlaveError | AstInvalidAddress.
#[export] Instance AstI2cError_eq_dec : EqDecision AstI2cError.
Proof. solve_decision. Defined.

Inductive I2cXferMode := ByteMode | BufferMode | DmaMode.
#[export] Instance I2cXferMode_eq_dec : EqDecision I2cXferMode.
Proof. solve_decision. Defined.
Inductive I2cSpeed := SpeedStandard | SpeedFast | SpeedFastPlus.

Record ClockConfig := mkClockConfig {
  apb_clock_hz : Z; base_clk1_hz : Z; base_clk2_hz : Z; base_clk3_hz : Z; base_clk4_hz : Z;
}.
#[export] Instance ClockConfig_eq_dec : EqDecision ClockConfig.
Proof. solve_decision. Defined.

Record I2cConfig := mkI2cConfig {
  cfg_xfer_mode : I2cXferMode; cfg_speed : I2cSpeed; cfg_multi_master : bool;
  cfg_smbus_timeout : bool; cfg_smbus_alert : bool; cfg_clock_config : ClockConfig;
}.

(** [Controller::new]. *)
Definition I2cController_new (id : Z) : option Z := if id <? 14 then Some id else None.

Definition HPLL_FREQ : Z := 1000000000.

Definition ast1060_default : ClockConfig :=
  mkClockConfig 50000000 20000000 10000000 2770000 1000000.

(** [calc_base] of [from_hardware]; a product of more than 32 bits panics. *)
Definition calc_base (apb_clock_hz divisor : Z) : option Z :=
  if apb_clock_hz * 10 <=? u32_MAX then Some (apb_clock_hz * 10 / ((divisor + 2) * 10 / 2)) else None.

(** [ClockConfig::from_hardware], of the divider SCU310 selects and of I2CG10,
    whose bytes are the four base clock divisors. *)
Definition from_hardware (apb_divider i2cg10 : Z) : option ClockConfig :=
  let apb_clock_hz := HPLL_FREQ / ((apb_divider + 1) * 2) in
  let divisor k := Z.land (Z.shiftr i2cg10 (8 * k)) 255 in
  c1 ← calc_base apb_clock_hz (divisor 0);
  c2 ← calc_base apb_clock_hz (divisor 1);
  c3 ← calc_base apb_clock_hz (divisor 2);
  c4 ← calc_base apb_clock_hz (divisor 3);
  Some (mkClockConfig apb_clock_hz c1 c2 c3 c4).

(** [I2cConfig::default], of the clocks read from the hardware. *)
Definition I2cConfig_default (clocks : ClockConfig) : I2cConfig :=
  mkI2cConfig BufferMode SpeedFast false true false clocks.
Definition with_static_clocks : I2cConfig :=
  mkI2cConfig BufferMode SpeedFast false true false ast1060_default.

(** ** Constants ([constants.rs]) *)

Definition BUFFER_MODE_SIZE : nat := 32.
Definition DMA_MODE_MAX_SIZE : nat := Z.to_nat 4096.
Definition I2C_BUF_SIZE : Z := 0x20.
Definition DEFAULT_TIMEOUT_US : nat := Z.to_nat 1000000.
Definition ABORT_TIMEOUT_US : nat := Z.to_nat 10000.

Definition AST_I2CC_SLAVE_EN : Z := Z.shiftl 1 1.
Definition AST_I2CC_MASTER_EN : Z := Z.shiftl 1 0.
Definition AST_I2CC_SLAVE_PKT_SAVE_ADDR : Z := Z.shiftl 1 20.

Definition AST_I2CM_PKT_EN : Z := Z.shiftl 1 16.
Definition AST_I2CM_RX_DMA_EN : Z := Z.shiftl 1 9.
Definition AST_I2CM_TX_DMA_EN : Z := Z.shiftl 1 8.
Definition AST_I2CM_RX_BUFF_EN : Z := Z.shiftl 1 7.
Definition AST_I2CM_TX_BUFF_EN : Z := Z.shiftl 1 6.
Definition AST_I2CM_STOP_CMD : Z := Z.shiftl 1 5.
Definition AST_I2CM_RX_CMD_LAST : Z := Z.shiftl 1 4.
Definition AST_I2CM_RX_CMD : Z := Z.shiftl 1 3.
Definition AST_I2CM_TX_CMD : Z := Z.shiftl 1 1.
Definition AST_I2CM_START_CMD : Z := Z.shiftl 1 0.

Definition AST_I2CM_SCL_LOW_TO : Z := Z.shiftl 1 6.
Definition AST_I2CM_ABNORMAL : Z := Z.shiftl 1 5.
Definition AST_I2CM_NORMAL_STOP : Z := Z.shiftl 1 4.
Definition AST_I2CM_ARBIT_LOSS : Z := Z.shiftl 1 3.
Definition AST_I2CM_RX_DONE : Z := Z.shiftl 1 2.
Definition AST_I2CM_TX_NAK : Z := Z.shiftl 1 1.
Definition AST_I2CM_TX_ACK : Z := Z.shiftl 1 0.
Definition AST_I2CM_PKT_ERROR : Z := Z.shiftl 1 17.
Definition AST_I2CM_PKT_DONE : Z := Z.shiftl 1 16.
Definition AST_I2CM_BUS_RECOVER_FAIL : Z := Z.shiftl 1 15.
Definition AST_I2CM_SDA_DL_TO : Z := Z.shiftl 1 14.
Definition AST_I2CM_BUS_RECOVER : Z := Z.shiftl 1 13.

Definition ast_i2cm_pkt_addr (addr : Z) : Z := Z.shiftl (Z.land addr 0x7f) 24.

(** ** Timing ([timing.rs]) *)

Definition MAX_DIVIDER_RATIO : Z := 32.

Definition speed_hz (s : I2cSpeed) : Z :=
  match s with SpeedStandard => 100000 | SpeedFast => 400000 | SpeedFastPlus => 1000000 end.

(** [u32::saturating_sub]. *)
Definition saturating_sub (a b : Z) : Z := Z.max 0 (a - b).

Definition round_up (base_clk target_speed ratio : Z) : Z :=
  if (0 <? ratio) && (target_speed <? base_clk / ratio) then saturating_add u32_MAX ratio 1 else ratio.

(** The loop over the candidates. *)
Fixpoint try_candidates (candidates : list (Z * Z)) (target_speed : Z) : option (Z * Z) :=
  match candidates with
  | [] => None
  | (div, base_clk) :: rest =>
      if base_clk =? 0 then try_candidates rest target_speed
      else if base_clk / target_speed <=? MAX_DIVIDER_RATIO then
        let ratio := round_up base_clk target_speed (base_clk / target_speed) in
        Some (div, if ratio =? 0 then 1 else ratio)
      else try_candidates rest target_speed
  end.

(** The loop that shifts the ratio down.  It is given a number of iterations;
    [shift_down_total] shows 32 are enough. *)
Fixpoint shift_down (fuel : nat) (div ratio inc : Z) : option (Z * Z * Z) :=
  if MAX_DIVIDER_RATIO <? saturating_add u32_MAX ratio inc then
    match fuel with
    | O => None
    | S fuel =>
        shift_down fuel (saturating_add u32_MAX div 1) (Z.shiftr ratio 1) (Z.lor inc (Z.land ratio 1))
    end
  else Some (div, ratio, inc).

Definition calculate_divider (clocks : ClockConfig) (target_speed : Z) :
    option (result (Z * Z) AstI2cError) :=
  if target_speed =? 0 then Some (Err AstInvalid)
  else
    match try_candidates [(0, apb_clock_hz clocks); (1, base_clk1_hz clocks);
                          (2, base_clk2_hz clocks); (3, base_clk3_hz clocks)] target_speed with
    | Some dr => Some (Ok dr)
    | None =>
        if base_clk4_hz clocks =? 0 then Some (Err AstInvalid)
        else
          '(div, ratio, inc) ← shift_down 32 4 (base_clk4_hz clocks / target_speed) 0;
          let ratio := saturating_add u32_MAX ratio inc in
          let ratio := round_up (base_clk4_hz clocks) target_speed ratio in
          let ratio := Z.min ratio MAX_DIVIDER_RATIO in
          let ratio := if ratio =? 0 then 1 else ratio in
          Some (Ok (Z.land div 0xf, ratio))
    end.

Definition calculate_scl_low (divider_ratio : Z) : Z :=
  Z.min (saturating_sub (divider_ratio * 9 / 16) 1) 0xf.
Definition calculate_scl_high (divider_ratio scl_low : Z) : Z :=
  Z.min (saturating_sub (saturating_sub divider_ratio scl_low) 2) 0xf.

(** ** Registers *)

Inductive I2cReg :=
| I2cc00 | I2cc04 | I2cc08 | I2cc0c | I2cm10 | I2cm14 | I2cm18 | I2cm1c | I2cm30 | I2cm34
| I2cs20 | I2cs24 | I2cs28 | I2cs2c | I2cs38 | I2cs3c | I2cs40 | I2cs4c.
#[export] Instance I2cReg_eq_dec : EqDecision I2cReg.
Proof. solve_decision. Defined.

(** The fields the driver names, by register. *)
Inductive I2cField :=
(* I2CC00 *)
| FDisMultimaster | FBusAutorelease | FMasterFn | FSlaveFn
(* I2CC04 *)
| FBaseClkDivisor | FSclLow | FSclHigh | FSclHighMin | FTimeoutDivisor | FTimeoutTimer
(* I2CC08 *)
| FTxByteBuffer | FRxByteBuffer | FBusBusy | FSampledSda | FSampledScl
(* I2CC0C *)
| FTxDataByteCount | FRxPoolBufferSize | FActualRxdPoolBufferSize
(* I2CM10 *)
| FPktCmdDoneInt | FBusRecoverDoneInt | FSmbusAlertInt
(* I2CM18 *)
| FBusRecoverCmd
(* I2CM1C *)
| FDmatxBufLen | FDmatxBufLenWrEnbl | FDmarxBufLen | FDmarxBufLenWrEnbl
(* I2CM30, I2CM34 *)
| FDmaBufferBase | FDmaBufferBase1
(* I2CS28 *)
| FSlavePktOpMode
(* I2CS2C *)
| FSlaveDmarxBufLen | FSlaveDmarxBufLenWrEnbl
(* I2CS40 *)
| FSlaveDevAddr1 | FSlaveDevAddr1Enbl
(* I2CS4C *)
| FDmarxActualLen.
#[export] Instance I2cField_eq_dec : EqDecision I2cField.
Proof. solve_decision. Defined.

(** A read of a register may let time pass, as does the yield closure. *)
Class I2cHw (H : Type) : Type := {
  i2c_rd : H → I2cReg → H * Z;
  i2c_wr : H → I2cReg → Z → H;
  buff_rd : H → nat → H * Z;
  buff_wr : H → nat → Z → H;
  ram_rd : H → Z → Z;
  ram_wr : H → Z → Z → H;
  yield_for : H → Z → H;
  fget : I2cField → Z → Z;
  fput : I2cField → Z → Z → Z;
  reset_value : I2cReg → Z;
}.

(** ** The driver ([controller.rs]) *)

(** A DMA buffer is its physical address and its length. *)
Record Ast1060I2c (H : Type) := mkAst1060I2c {
  mmio : H; xfer_mode : I2cXferMode; multi_master : bool; smbus_alert : bool; bus_recover : bool;
  current_addr : Z; current_len : Z; current_xfer_cnt : Z; completion : bool;
  master_dma_buf : option (Z * nat); slave_dma_buf : option (Z * nat); dst : list Z;
}.
Arguments mkAst1060I2c {H}.
Arguments mmio {H}.
Arguments xfer_mode {H}.
Arguments multi_master {H}.
Arguments smbus_alert {H}.
Arguments bus_recover {H}.
Arguments current_addr {H}.
Arguments current_len {H}.
Arguments current_xfer_cnt {H}.
Arguments completion {H}.
Arguments master_dma_buf {H}.
Arguments slave_dma_buf {H}.
Arguments dst {H}.

Section driver.
Context {H : Type} `{I2cHw H}.

Definition i2c (A : Type) : Type := drv (Ast1060I2c H) AstI2cError A.

Definition set_mmio (h : H) (m : Ast1060I2c H) : Ast1060I2c H :=
  mkAst1060I2c h (xfer_mode m) (multi_master m) (smbus_alert m) (bus_recover m) (current_addr m)
    (current_len m) (current_xfer_cnt m) (completion m) (master_dma_buf m) (slave_dma_buf m) (dst m).
(** [current_addr], [current_len] and [current_xfer_cnt] at the start of a transfer. *)
Definition set_xfer (addr len : Z) (m : Ast1060I2c H) : Ast1060I2c H :=
  mkAst1060I2c (mmio m) (xfer_mode m) (multi_master m) (smbus_alert m) (bus_recover m) addr len 0
    (completion m) (master_dma_buf m) (slave_dma_buf m) (dst m).
Definition add_xfer_cnt (n : Z) (m : Ast1060I2c H) : Ast1060I2c H :=
  mkAst1060I2c (mmio m) (xfer_mode m) (multi_master m) (smbus_alert m) (bus_recover m) (current_addr m)
    (current_len m) (current_xfer_cnt m + n) (completion m) (master_dma_buf m) (slave_dma_buf m) (dst m).
Definition set_completion (c : bool) (m : Ast1060I2c H) : Ast1060I2c H :=
  mkAst1060I2c (mmio m) (xfer_mode m) (multi_master m) (smbus_alert m) (bus_recover m) (current_addr m)
    (current_len m) (current_xfer_cnt m) c (master_dma_buf m) (slave_dma_buf m) (dst m).
Definition set_dst (l : list Z) (m : Ast1060I2c H) : Ast1060I2c H :=
  mkAst1060I2c (mmio m) (xfer_mode m) (multi_master m) (smbus_alert m) (bus_recover m) (current_addr m)
    (current_len m) (current_xfer_cnt m) (completion m) (master_dma_buf m) (slave_dma_buf m) l.

(** Lending a slice to a call. *)
Definition lend (l : list Z) : i2c unit := writes (set_dst l).

(** Accesses through the façade ([regs()], [buff_regs()]). *)
Definition rd (r : I2cReg) : i2c Z := λ m,
  let '(h, v) := i2c_rd (mmio m) r in Some (set_mmio h m, Ok v).
Definition wr (r : I2cReg) (v : Z) : i2c unit := writes (λ m, set_mmio (i2c_wr (mmio m) r v) m).
Definition upd_reg (r : I2cReg) (f : Z → Z) : i2c unit := v ← rd r; wr r (f v).
Definition wr_fields (r : I2cReg) (f : Z → Z) : i2c unit := wr r (f (reset_value r)).
Definition set_bit (f : I2cField) : Z → Z := fput f 1.
Definition clear_bit (f : I2cField) : Z → Z := fput f 0.
Definition bit (f : I2cField) (v : Z) : bool := negb (fget f v =? 0).

Definition buffer_read (i : nat) : i2c Z := λ m,
  let '(h, v) := buff_rd (mmio m) i in Some (set_mmio h m, Ok v).
Definition buffer_write (i : nat) (v : Z) : i2c unit := writes (λ m, set_mmio (buff_wr (mmio m) i v) m).

(** A slice of RAM. *)
Definition ram_load (h : H) (a : Z) (n : nat) : list Z := (λ i, ram_rd h (a + Z.of_nat i)) <$> seq 0 n.
Fixpoint ram_store (h : H) (a : Z) (l : list Z) : H :=
  match l with [] => h | x :: l => ram_store (ram_wr h a x) (a + 1) l end.

Definition clear_interrupts (mask : Z) : i2c unit := wr I2cm14 mask.
Definition enable_interrupts (mask : Z) : i2c unit := wr I2cm10 mask.

(** [configure_timing] of [timing.rs]. *)
Definition i2c_configure_timing (config : I2cConfig) : i2c unit := λ m,
  match calculate_divider (cfg_clock_config config) (speed_hz (cfg_speed config)) with
  | None => None
  | Some (Err e) => raise e m
  | Some (Ok (div, divider_ratio)) =>
      let scl_low := calculate_scl_low divider_ratio in
      let scl_high := calculate_scl_high divider_ratio scl_low in
      let scl_high_min := saturating_sub scl_high 1 in
      let '(timeout_divisor, timeout_timer) := if cfg_smbus_timeout config then (2, 8) else (0, 0) in
      wr_fields I2cc04 (λ w,
        fput FTimeoutTimer timeout_timer (fput FTimeoutDivisor timeout_divisor
          (fput FSclHighMin scl_high_min (fput FSclHigh scl_high (fput FSclLow scl_low
            (fput FBaseClkDivisor (Z.land div 0xf) w)))))) m
  end.

Definition init_hardware (config : I2cConfig) : i2c unit :=
  wr I2cc00 0;;
  mm ← reads multi_master;
  (if negb mm then upd_reg I2cc00 (set_bit FDisMultimaster) else mret ());;
  upd_reg I2cc00 (λ w, set_bit FMasterFn (set_bit FBusAutorelease w));;
  i2c_configure_timing config;;
  wr I2cm14 0xffffffff;;
  upd_reg I2cm10 (λ w, set_bit FBusRecoverDoneInt (set_bit FPktCmdDoneInt w));;
  alert ← reads smbus_alert;
  if (alert : bool) then upd_reg I2cm10 (set_bit FSmbusAlertInt) else mret ().

Definition is_bus_busy : i2c bool :=
  status ← rd I2cm14;
  mret (has_flag status (Z.lor (Z.lor AST_I2CM_TX_CMD AST_I2CM_RX_CMD) AST_I2CM_START_CMD)).

(** [handle_interrupt] of [master.rs]. *)
Definition packet_error (status : Z) : i2c unit :=
  if has_flag status AST_I2CM_PKT_ERROR then
    if has_flag status AST_I2CM_TX_NAK then raise AstNoAcknowledge
    else if has_flag status AST_I2CM_ARBIT_LOSS then raise AstArbitrationLoss
    else if has_flag status AST_I2CM_ABNORMAL then raise AstAbnormal
    else raise AstBus
  else mret ().

Definition unstick_slave (status : Z) : i2c unit :=
  if Z.land status (Z.lor AST_I2CM_TX_ACK AST_I2CM_NORMAL_STOP) =? AST_I2CM_TX_ACK then
    v ← rd I2cs28;
    if bit FSlavePktOpMode v then
      slave_cmd ← rd I2cs28; wr I2cs28 0;; wr I2cs28 slave_cmd
    else mret ()
  else mret ().

Definition handle_interrupt : i2c unit :=
  status ← rd I2cm14;
  if has_flag status AST_I2CM_PKT_DONE then
    unstick_slave status;;
    writes (set_completion true);;
    clear_interrupts AST_I2CM_PKT_DONE;;
    packet_error status
  else if has_flag status (Z.lor AST_I2CM_TX_ACK AST_I2CM_RX_DONE) then
    writes (set_completion true);;
    clear_interrupts status
  else if has_flag status AST_I2CM_TX_NAK then clear_interrupts status;; raise AstNoAcknowledge
  else if has_flag status AST_I2CM_ABNORMAL then clear_interrupts status;; raise AstAbnormal
  else if has_flag status AST_I2CM_ARBIT_LOSS then clear_interrupts status;; raise AstArbitrationLoss
  else if has_flag status AST_I2CM_SCL_LOW_TO then clear_interrupts status;; raise AstTimeout
  else mret ().

Definition yield_ns (ns : Z) : i2c unit := writes (λ m, set_mmio (yield_for (mmio m) ns) m).

(** The loop of [wait_completion]. *)
Fixpoint completion_loop (timeout : nat) : i2c unit :=
  match timeout with
  | O => mret ()
  | S timeout =>
      c ← reads completion;
      if (c : bool) then mret () else handle_interrupt;; yield_ns 100000;; completion_loop timeout
  end.

Definition wait_completion (timeout_us : nat) : i2c unit :=
  writes (set_completion false);;
  completion_loop timeout_us;;
  c ← reads completion;
  require c AstTimeout.

(** ** Transfer helpers ([transfer.rs]) *)

(** [dword |= u32::from(byte) << (byte_pos * 8)] for the bytes there are. *)
Definition pack_dword (data : list Z) (idx : nat) : Z :=
  foldl (λ dword byte_pos,
    match data !! (idx + byte_pos)%nat with
    | Some byte => Z.lor dword (Z.shiftl byte (Z.of_nat byte_pos * 8))
    | None => dword
    end) 0 (seq 0 4).

Fixpoint copy_to_loop (fuel : nat) (data : list Z) (idx : nat) : i2c unit :=
  if (idx <? length data)%nat then
    match fuel with
    | O => λ _, None
    | S fuel =>
        let dword_idx := (idx / 4)%nat in
        require (dword_idx <? 8)%nat AstInvalid;;
        buffer_write dword_idx (pack_dword data idx);;
        copy_to_loop fuel data (idx + 4)
    end
  else mret ().
Definition copy_to_buffer (data : list Z) : i2c unit :=
  require (length data <=? BUFFER_MODE_SIZE)%nat AstInvalid;;
  copy_to_loop (length data) data 0.

Definition unpack_dword (data : list Z) (idx : nat) (dword : Z) : list Z :=
  foldl (λ data byte_pos,
    <[(idx + byte_pos)%nat := Z.land (Z.shiftr dword (Z.of_nat byte_pos * 8)) 0xff]> data)
    data (seq 0 4).

(** The slice it fills is returned. *)
Fixpoint copy_from_loop (fuel : nat) (data : list Z) (idx : nat) : i2c (list Z) :=
  if (idx <? length data)%nat then
    match fuel with
    | O => λ _, None
    | S fuel =>
        let dword_idx := (idx / 4)%nat in
        require (dword_idx <? 8)%nat AstInvalid;;
        dword ← buffer_read dword_idx;
        copy_from_loop fuel (unpack_dword data idx dword) (idx + 4)
    end
  else mret data.
Definition copy_from_buffer (data : list Z) : i2c (list Z) :=
  require (length data <=? BUFFER_MODE_SIZE)%nat AstInvalid;;
  copy_from_loop (length data) data 0.

(** [start_transfer], [start_byte_mode] and [start_buffer_mode]: kept in the
    source for later use. *)
Definition start_byte_mode (addr : Z) (is_read : bool) (len : nat) : i2c unit :=
  let cmd := Z.lor (Z.lor AST_I2CM_PKT_EN (ast_i2cm_pkt_addr addr)) AST_I2CM_START_CMD in
  let cmd :=
    if is_read then
      let cmd := Z.lor cmd AST_I2CM_RX_CMD in
      if (len =? 1)%nat then Z.lor cmd (Z.lor AST_I2CM_RX_CMD_LAST AST_I2CM_STOP_CMD) else cmd
    else
      let cmd := Z.lor cmd AST_I2CM_TX_CMD in
      if (len =? 1)%nat then Z.lor cmd AST_I2CM_STOP_CMD else cmd in
  wr I2cm18 cmd.

Definition start_buffer_mode (addr : Z) (is_read : bool) (len : nat) : i2c unit :=
  require (len <=? BUFFER_MODE_SIZE)%nat AstInvalid;;
  let size := as_u8 (Z.of_nat (len - 1)) in
  (if is_read then upd_reg I2cc0c (fput FRxPoolBufferSize size)
   else upd_reg I2cc0c (fput FTxDataByteCount size));;
  let cmd := Z.lor (Z.lor AST_I2CM_PKT_EN (ast_i2cm_pkt_addr addr)) AST_I2CM_START_CMD in
  let cmd :=
    if is_read then
      Z.lor cmd (Z.lor (Z.lor AST_I2CM_RX_CMD AST_I2CM_RX_BUFF_EN) AST_I2CM_RX_CMD_LAST)
    else Z.lor cmd (Z.lor AST_I2CM_TX_CMD AST_I2CM_TX_BUFF_EN) in
  wr I2cm18 (Z.lor cmd AST_I2CM_STOP_CMD).

Definition start_transfer (addr : Z) (is_read : bool) (len : nat) : i2c unit :=
  require (negb ((len =? 0)%nat || (255 <? len)%nat)) AstInvalid;;
  writes (set_xfer addr (Z.of_nat len));;
  writes (set_completion false);;
  clear_interrupts 0xffffffff;;
  mode ← reads xfer_mode;
  match mode with
  | ByteMode => start_byte_mode addr is_read len
  | BufferMode => start_buffer_mode addr is_read len
  | DmaMode => raise AstInvalid
  end.

(** ** DMA guard ([dma.rs]) *)

Definition arm_tx (phy_addr : Z) (len : nat) : i2c unit :=
  wr_fields I2cm1c (λ w, set_bit FDmatxBufLenWrEnbl (fput FDmatxBufLen (as_u16 (Z.of_nat (len - 1))) w));;
  wr_fields I2cm30 (fput FDmaBufferBase phy_addr).
Definition arm_rx (phy_addr : Z) (len : nat) : i2c unit :=
  upd_reg I2cm1c (λ w, set_bit FDmarxBufLenWrEnbl (fput FDmarxBufLen (as_u16 (Z.of_nat (len - 1))) w));;
  upd_reg I2cm34 (fput FDmaBufferBase1 phy_addr).

(** The bounded wait of [drop]. *)
Fixpoint abort_wait (timeout : nat) : i2c unit :=
  match timeout with
  | O => mret ()
  | S timeout => v ← rd I2cc08; if bit FBusBusy v then abort_wait timeout else mret ()
  end.

(** [Drop for ArmedDma]. *)
Definition dma_drop : i2c unit :=
  fun_ctrl ← rd I2cc00;
  wr I2cc00 0;;
  wr I2cc00 fun_ctrl;;
  abort_wait ABORT_TIMEOUT_US;;
  wr I2cm14 0xffffffff.

(** [match self.wait_completion(..)]: [commit] forgets the guard, an error drops
    it. *)
Definition wait_armed : i2c unit :=
  r ← attempt (wait_completion DEFAULT_TIMEOUT_US);
  match r with
  | Ok _ => mret ()
  | Err e => dma_drop;; raise e
  end.

(** ** Master operations ([master.rs]) *)

(** The command bits every mode adds. *)
Definition add_start (is_first : bool) (addr cmd : Z) : Z :=
  if is_first then Z.lor cmd (Z.lor (ast_i2cm_pkt_addr addr) AST_I2CM_START_CMD) else cmd.
Definition add_stop (stop : bool) (cmd : Z) : Z :=
  if stop then Z.lor cmd AST_I2CM_STOP_CMD else cmd.
Definition add_last (is_last : bool) (cmd : Z) : Z :=
  if is_last then Z.lor cmd (Z.lor AST_I2CM_RX_CMD_LAST AST_I2CM_STOP_CMD) else cmd.

Definition write_byte (addr : Z) (msg_len : nat) (stop : bool) (i : nat) (byte : Z) : i2c unit :=
  let is_first := (i =? 0)%nat in
  let is_last := (i =? msg_len - 1)%nat in
  upd_reg I2cc08 (fput FTxByteBuffer byte);;
  let cmd := Z.lor AST_I2CM_PKT_EN AST_I2CM_TX_CMD in
  let cmd := add_start is_first addr cmd in
  let cmd := add_stop (is_last && stop) cmd in
  wr I2cm18 cmd;;
  writes (set_completion false);;
  wait_completion DEFAULT_TIMEOUT_US;;
  status ← rd I2cm14;
  require (negb (has_flag status AST_I2CM_TX_NAK)) AstNoAcknowledge;;
  writes (add_xfer_cnt 1).

Definition write_byte_mode (addr : Z) (bytes : list Z) (stop : bool) : i2c unit :=
  let msg_len := length bytes in
  writes (set_xfer addr (as_u32 (Z.of_nat msg_len)));;
  writes (set_completion false);;
  clear_interrupts 0xffffffff;;
  drv_for (imap pair bytes) (λ ib, write_byte addr msg_len stop ib.1 ib.2).

Definition read_byte (addr : Z) (msg_len : nat) (i : nat) : i2c unit :=
  let is_first := (i =? 0)%nat in
  let is_last := (i =? msg_len - 1)%nat in
  let cmd := Z.lor AST_I2CM_PKT_EN AST_I2CM_RX_CMD in
  let cmd := add_start is_first addr cmd in
  let cmd := add_last is_last cmd in
  wr I2cm18 cmd;;
  writes (set_completion false);;
  wait_completion DEFAULT_TIMEOUT_US;;
  v ← rd I2cc08;
  writes (λ m, set_dst (<[i := fget FRxByteBuffer v]> (dst m)) m);;
  status ← rd I2cm14;
  require (negb (has_flag status AST_I2CM_TX_NAK)) AstNoAcknowledge;;
  writes (add_xfer_cnt 1).

Definition read_byte_mode (addr : Z) : i2c unit :=
  msg_len ← reads (λ m, length (dst m));
  writes (set_xfer addr (as_u32 (Z.of_nat msg_len)));;
  writes (set_completion false);;
  clear_interrupts 0xffffffff;;
  drv_for (seq 0 msg_len) (read_byte addr msg_len).

(** The status check of the buffer and DMA modes after a chunk. *)
Definition check_chunk : i2c unit :=
  status ← rd I2cm14;
  if has_flag status AST_I2CM_PKT_ERROR then
    if has_flag status AST_I2CM_TX_NAK then raise AstNoAcknowledge else raise AstAbnormal
  else mret ().

(** One iteration of the loop of [write_buffer_mode]: the chunk at [offset]. *)
Definition write_buffer_chunk (addr : Z) (bytes : list Z) (stop : bool) (offset chunk_len : nat) : i2c unit :=
  chunk ← lift (ok_or (slice_range bytes offset (offset + chunk_len)) AstInvalid);
  let is_first := (offset =? 0)%nat in
  let is_last := (length bytes <=? offset + chunk_len)%nat in
  copy_to_buffer chunk;;
  upd_reg I2cc0c (fput FTxDataByteCount (as_u8 (Z.of_nat (chunk_len - 1))));;
  clear_interrupts 0xffffffff;;
  writes (set_completion false);;
  let cmd := Z.lor (Z.lor AST_I2CM_PKT_EN AST_I2CM_TX_CMD) AST_I2CM_TX_BUFF_EN in
  let cmd := add_start is_first addr cmd in
  let cmd := add_stop (is_last && stop) cmd in
  wr I2cm18 cmd;;
  wait_completion DEFAULT_TIMEOUT_US;;
  check_chunk;;
  writes (add_xfer_cnt (Z.of_nat chunk_len)).

(** [while offset < total_len], each iteration a chunk of at most [max] bytes.
    The loop is given a number of iterations; [chunk_loop_total] shows that
    [total_len] are enough. *)
Fixpoint chunk_loop (max : nat) (body : nat → nat → i2c unit) (total_len fuel offset : nat) : i2c unit :=
  if (offset <? total_len)%nat then
    match fuel with
    | O => λ _, None
    | S fuel =>
        let chunk_len := Nat.min max (total_len - offset) in
        body offset chunk_len;; chunk_loop max body total_len fuel (offset + chunk_len)
    end
  else mret ().

Definition write_buffer_mode (addr : Z) (bytes : list Z) (stop : bool) : i2c unit :=
  let total_len := length bytes in
  writes (set_xfer addr (as_u32 (Z.of_nat total_len)));;
  chunk_loop BUFFER_MODE_SIZE (write_buffer_chunk addr bytes stop) total_len total_len 0.

(** [buffer.get_mut(offset..offset + chunk_len)], filled by [f]. *)
Definition fill_dst (offset chunk_len : nat) (f : list Z → i2c (list Z)) : i2c unit :=
  buffer ← reads dst;
  chunk ← lift (ok_or (slice_range buffer offset (offset + chunk_len)) AstInvalid);
  chunk ← f chunk;
  writes (set_dst (write_at offset chunk buffer)).

Definition read_buffer_chunk (addr : Z) (offset chunk_len : nat) : i2c unit :=
  total_len ← reads (λ m, length (dst m));
  let is_first := (offset =? 0)%nat in
  let is_last := (total_len <=? offset + chunk_len)%nat in
  upd_reg I2cc0c (fput FRxPoolBufferSize (as_u8 (Z.of_nat (chunk_len - 1))));;
  clear_interrupts 0xffffffff;;
  writes (set_completion false);;
  let cmd := Z.lor (Z.lor AST_I2CM_PKT_EN AST_I2CM_RX_CMD) AST_I2CM_RX_BUFF_EN in
  let cmd := add_start is_first addr cmd in
  let cmd := add_last is_last cmd in
  wr I2cm18 cmd;;
  wait_completion DEFAULT_TIMEOUT_US;;
  check_chunk;;
  fill_dst offset chunk_len copy_from_buffer;;
  writes (add_xfer_cnt (Z.of_nat chunk_len)).

Definition read_buffer_mode (addr : Z) : i2c unit :=
  total_len ← reads (λ m, length (dst m));
  writes (set_xfer addr (as_u32 (Z.of_nat total_len)));;
  chunk_loop BUFFER_MODE_SIZE (read_buffer_chunk addr) total_len total_len 0.

(** [self.master_dma_buf...ok_or(Invalid)?] with the check of its length. *)
Definition dma_buffer (chunk_len : nat) : i2c (Z * nat) :=
  o ← reads master_dma_buf;
  dma_buf ← lift (ok_or o AstInvalid);
  require (chunk_len <=? dma_buf.2)%nat AstInvalid;;
  mret dma_buf.

Definition write_dma_chunk (addr : Z) (bytes : list Z) (stop : bool) (offset chunk_len : nat) : i2c unit :=
  chunk ← lift (ok_or (slice_range bytes offset (offset + chunk_len)) AstInvalid);
  let is_first := (offset =? 0)%nat in
  let is_last := (length bytes <=? offset + chunk_len)%nat in
  dma_buf ← dma_buffer chunk_len;
  writes (λ m, set_mmio (ram_store (mmio m) dma_buf.1 chunk) m);;
  arm_tx dma_buf.1 chunk_len;;
  clear_interrupts 0xffffffff;;
  writes (set_completion false);;
  let cmd := Z.lor (Z.lor AST_I2CM_PKT_EN AST_I2CM_TX_CMD) AST_I2CM_TX_DMA_EN in
  let cmd := add_start is_first addr cmd in
  let cmd := add_stop (is_last && stop) cmd in
  wr I2cm18 cmd;;
  wait_armed;;
  check_chunk;;
  writes (add_xfer_cnt (Z.of_nat chunk_len)).

Definition write_dma_mode (addr : Z) (bytes : list Z) (stop : bool) : i2c unit :=
  let total_len := length bytes in
  writes (set_xfer addr (as_u32 (Z.of_nat total_len)));;
  chunk_loop DMA_MODE_MAX_SIZE (write_dma_chunk addr bytes stop) total_len total_len 0.

Definition read_dma_chunk (addr : Z) (offset chunk_len : nat) : i2c unit :=
  total_len ← reads (λ m, length (dst m));
  let is_first := (offset =? 0)%nat in
  let is_last := (total_len <=? offset + chunk_len)%nat in
  dma_buf ← dma_buffer chunk_len;
  arm_rx dma_buf.1 chunk_len;;
  clear_interrupts 0xffffffff;;
  writes (set_completion false);;
  let cmd := Z.lor (Z.lor AST_I2CM_PKT_EN AST_I2CM_RX_CMD) AST_I2CM_RX_DMA_EN in
  let cmd := add_start is_first addr cmd in
  let cmd := add_last is_last cmd in
  wr I2cm18 cmd;;
  wait_armed;;
  check_chunk;;
  fill_dst offset chunk_len (λ _, reads (λ m, ram_load (mmio m) dma_buf.1 chunk_len));;
  writes (add_xfer_cnt (Z.of_nat chunk_len)).

Definition read_dma_mode (addr : Z) : i2c unit :=
  total_len ← reads (λ m, length (dst m));
  writes (set_xfer addr (as_u32 (Z.of_nat total_len)));;
  chunk_loop DMA_MODE_MAX_SIZE (read_dma_chunk addr) total_len total_len 0.

Definition write_in_mode (mode : I2cXferMode) (addr : Z) (bytes : list Z) (stop : bool) : i2c unit :=
  match mode with
  | ByteMode => write_byte_mode addr bytes stop
  | BufferMode => write_buffer_mode addr bytes stop
  | DmaMode => write_dma_mode addr bytes stop
  end.
Definition read_in_mode (mode : I2cXferMode) (addr : Z) : i2c unit :=
  match mode with
  | ByteMode => read_byte_mode addr
  | BufferMode => read_buffer_mode addr
  | DmaMode => read_dma_mode addr
  end.

(** [write], [read] and [write_read]; a read fills [dst]. *)
Definition ast_write (addr : Z) (bytes : list Z) : i2c unit :=
  if (length bytes =? 0)%nat then mret ()
  else mode ← reads xfer_mode; write_in_mode mode addr bytes true.

Definition ast_read (addr : Z) : i2c unit :=
  buffer ← reads dst;
  if (length buffer =? 0)%nat then mret ()
  else mode ← reads xfer_mode; read_in_mode mode addr.

Definition ast_write_read (addr : Z) (bytes : list Z) : i2c unit :=
  mode ← reads xfer_mode;
  write_in_mode mode addr bytes false;;
  mode ← reads xfer_mode;
  read_in_mode mode addr.

(** ** Recovery ([recovery.rs]) *)

Fixpoint recover_loop (timeout : nat) : i2c unit :=
  match timeout with
  | O => raise AstTimeout
  | S timeout =>
      status ← rd I2cm14;
      if has_flag status AST_I2CM_BUS_RECOVER then
        clear_interrupts AST_I2CM_BUS_RECOVER;;
        require (negb (has_flag status AST_I2CM_BUS_RECOVER_FAIL)) AstBusRecoveryFailed
      else recover_loop timeout
  end.

Definition ast_recover_bus : i2c unit :=
  upd_reg I2cc00 (λ w, clear_bit FSlaveFn (clear_bit FMasterFn w));;
  upd_reg I2cc00 (set_bit FMasterFn);;
  clear_interrupts 0xffffffff;;
  line_status ← rd I2cc08;
  require (negb (bit FSampledSda line_status || negb (bit FSampledScl line_status))) AstBusRecoveryFailed;;
  upd_reg I2cm18 (set_bit FBusRecoverCmd);;
  recover_loop (Z.to_nat 100000).

Definition needs_recovery : i2c bool :=
  status ← rd I2cm14;
  mret (has_flag status AST_I2CM_SCL_LOW_TO || has_flag status AST_I2CM_SDA_DL_TO ||
        has_flag status AST_I2CM_ABNORMAL).

(** ** Constructors *)

Definition from_initialized (h : H) (config : I2cConfig) : Ast1060I2c H :=
  mkAst1060I2c h (cfg_xfer_mode config) (cfg_multi_master config) (cfg_smbus_alert config) true
    0 0 0 false None None [].
Definition from_initialized_with_dma (h : H) (config : I2cConfig) (master slave : Z * nat) : Ast1060I2c H :=
  mkAst1060I2c h (cfg_xfer_mode config) (cfg_multi_master config) (cfg_smbus_alert config) true
    0 0 0 false (Some master) (Some slave) [].

(** [new] and [new_with_dma]: the driver of a controller that was initialised. *)
Definition ast_new (h : H) (config : I2cConfig) : option (Ast1060I2c H * result unit AstI2cError) :=
  init_hardware config (from_initialized h config).
Definition new_with_dma (h : H) (config : I2cConfig) (master slave : Z * nat) :
    option (Ast1060I2c H * result unit AstI2cError) :=
  init_hardware config (from_initialized_with_dma h config master slave).

(** ** [embedded_hal] ([hal_impl.rs]) *)

(** [kind]. *)
Definition ast_kind (e : AstI2cError) : ErrorKind :=
  match e with
  | AstNoAcknowledge => KNoAcknowledge SrcUnknown
  | AstArbitrationLoss => KArbitrationLoss
  | AstBus | AstBusRecoveryFailed => KBus
  | AstOverrun => KOverrun
  | AstTimeout | AstBusy | AstInvalid | AstAbnormal | AstSlaveError | AstInvalidAddress => KOther
  end.

(** [transaction]: the operations as they are left. *)
Fixpoint ast_transaction (address : Z) (ops : list Operation) :
    drv (Ast1060I2c H) (AstI2cError * list Operation) (list Operation) := λ m,
  match ops with
  | [] => Some (m, Ok [])
  | OpRead buf :: rest =>
      match (lend buf;; ast_read address) m with
      | None => None
      | Some (m, Err e) => Some (m, Err (e, OpRead (dst m) :: rest))
      | Some (m, Ok _) =>
          let buf := dst m in
          match ast_transaction address rest m with
          | None => None
          | Some (m, Ok ops) => Some (m, Ok (OpRead buf :: ops))
          | Some (m, Err (e, ops)) => Some (m, Err (e, OpRead buf :: ops))
          end
      end
  | OpWrite data :: rest =>
      match ast_write address data m with
      | None => None
      | Some (m, Err e) => Some (m, Err (e, OpWrite data :: rest))
      | Some (m, Ok _) =>
          match ast_transaction address rest m with
          | None => None
          | Some (m, Ok ops) => Some (m, Ok (OpWrite data :: ops))
          | Some (m, Err (e, ops)) => Some (m, Err (e, OpWrite data :: ops))
          end
      end
  end.
End driver.

(** ** Global registers ([global.rs]) *)

Inductive I2cGlobalField := FClkDividerModeSel | FRegDefinitionSel | FSlavePktRxbufEmptyAction.

(** The values [init_i2c_global] writes to I2CG0C and I2CG10, of the register
    crate's bit setter and reset value. *)
Definition init_i2c_global (gset : I2cGlobalField → Z → Z) (g0c_reset : Z) : Z * Z :=
  (gset FSlavePktRxbufEmptyAction (gset FRegDefinitionSel (gset FClkDividerModeSel g0c_reset)),
   0x62220803).
