(* ===== verification/AstI2cSlave.v ===== *)
(** * The AST1060 I2C controller driver: slave mode and the server backend

    [target/ast10x0/peripherals/i2c]: [slave.rs] and [hal_slave_impl.rs];
    [target/ast10x0/backend/i2c/src/lib.rs]: the driver a server owns for a bus,
    which builds a transient [Ast1060I2c] for every call.

    [None] is a panic: the length register of an empty DMA buffer and the count of
    a full byte underflow and overflow. *)

From S2P Require Import Prelude Bytes RegMonad Spim I2cWire I2cServer I2cClient I2cRuntime AstI2c.
From stdpp Require Import base tactics option list numbers.
Local Open Scope Z_scope.

(** ** Slave-mode constants *)

Definition AST_I2CS_PKT_MODE_EN : Z := Z.shiftl 1 16.
Definition AST_I2CS_ACTIVE_ALL : Z := Z.shiftl 0x3 17.
Definition AST_I2CS_RX_DMA_EN : Z := Z.shiftl 1 9.
Definition AST_I2CS_RX_BUFF_EN : Z := Z.shiftl 1 7.
Definition AST_I2CS_TX_BUFF_EN : Z := Z.shiftl 1 6.
Definition AST_I2CS_TX_CMD : Z := Z.shiftl 1 2.
Definition AST_I2CS_SLAVE_MATCH : Z := Z.shiftl 1 7.
Definition AST_I2CS_STOP : Z := Z.shiftl 1 4.
Definition AST_I2CS_RX_DONE_NAK : Z := Z.shiftl 1 3.
Definition AST_I2CS_RX_DONE : Z := Z.shiftl 1 2.
Definition AST_I2CS_TX_NAK : Z := Z.shiftl 1 1.
Definition AST_I2CS_TX_ACK : Z := Z.shiftl 1 0.
Definition AST_I2CS_INACTIVE_TO : Z := Z.shiftl 1 15.
Definition AST_I2CS_PKT_DONE : Z := Z.shiftl 1 16.
Definition AST_I2CS_PKT_ERROR : Z := Z.shiftl 1 17.
Definition AST_I2CS_WAIT_TX_DMA : Z := Z.shiftl 1 25.
Definition AST_I2CS_WAIT_RX_DMA : Z := Z.shiftl 1 24.
Definition AST_I2CS_SLAVE_PENDING : Z := Z.shiftl 1 29.
Definition AST_I2CS_SLAVE_ADDR1_NAK : Z := Z.shiftl 1 20.

Definition SLAVE_FIFO_SIZE : nat := 32.
Definition SLAVE_BUFFER_SIZE : nat := Z.to_nat 256.

(** ** Types ([slave.rs]) *)

Record SlaveConfig := mkSlaveConfig { sl_address : Z; sl_packet_mode : bool; sl_buffer_mode : bool }.

Definition SlaveConfig_new (address : Z) : result SlaveConfig AstI2cError :=
  if 0x7f <? address then Err AstInvalidAddress else Ok (mkSlaveConfig address true true).

(** [SlaveEvent] of the driver. *)
Inductive AstSlaveEvent :=
| EvReadRequest | EvWriteRequest | EvDataReceived (len : nat) | EvDataSent (len : nat)
| EvDataReceivedAndSent (rx_len tx_len : nat) | EvStop.
#[export] Instance AstSlaveEvent_eq_dec : EqDecision AstSlaveEvent.
Proof. solve_decision. Defined.

(** [SlaveBuffer]. *)
Record SlaveBuffer := mkSlaveBuffer { sb_array : list Z; sb_len : nat }.
Definition SlaveBuffer_new : SlaveBuffer := mkSlaveBuffer (replicate SLAVE_BUFFER_SIZE 0) 0.
Definition sb_data (b : SlaveBuffer) : list Z := take (sb_len b) (sb_array b).
Definition sb_set_len (len : nat) (b : SlaveBuffer) : SlaveBuffer :=
  mkSlaveBuffer (sb_array b) (Nat.min len SLAVE_BUFFER_SIZE).
Definition sb_clear (b : SlaveBuffer) : SlaveBuffer := mkSlaveBuffer (sb_array b) 0.
Definition sb_write (data : list Z) (b : SlaveBuffer) : SlaveBuffer * nat :=
  let to_copy := Nat.min (length data) SLAVE_BUFFER_SIZE in
  (mkSlaveBuffer (write_at 0 (take to_copy data) (sb_array b)) to_copy, to_copy).

(** A status word of several flags. *)
Definition flags (l : list Z) : Z := foldr Z.lor 0 l.
Definition one_of (sts : Z) (l : list (list Z)) : bool := existsb (λ f, sts =? flags f) l.

(** ** Slave operations *)

Section slave.
Context {H : Type} `{I2cHw H}.
Notation i2c := (i2c (H:=H)).

Definition slave_rx_len : i2c nat :=
  mode ← reads xfer_mode;
  if bool_decide (mode = DmaMode) then v ← rd I2cs4c; mret (as_usize (fget FDmarxActualLen v))
  else v ← rd I2cc0c; mret (as_usize (fget FActualRxdPoolBufferSize v)).

(** [u16::try_from(dma_buf.len().min(4096) - 1).unwrap_or(u16::MAX)]. *)
Definition slave_dma_len (len : nat) : Z :=
  let n := Z.of_nat (Nat.min len DMA_MODE_MAX_SIZE - 1) in
  if n <=? u16_MAX then n else u16_MAX.

(** Pointing the hardware at the slave DMA buffer; [fresh] is the write of I2CS4C
    that [configure_slave] leaves out. *)
Definition point_slave_dma (fresh : bool) (dma_buf : Z * nat) : i2c unit :=
  guarded (0 <? dma_buf.2)%nat (
    (if fresh then wr I2cs4c 0 else mret ());;
    wr I2cs38 dma_buf.1;;
    wr I2cs3c dma_buf.1;;
    wr_fields I2cs2c (λ w,
      set_bit FSlaveDmarxBufLenWrEnbl (fput FSlaveDmarxBufLen (slave_dma_len dma_buf.2) w))).

Definition arm_rx_fifo : i2c unit := wr_fields I2cc0c (fput FRxPoolBufferSize (I2C_BUF_SIZE - 1)).

(** [cmd] is passed and returned. *)
Definition arm_receive (fresh : bool) (cmd : Z) : i2c Z :=
  mode ← reads xfer_mode;
  match mode with
  | DmaMode =>
      o ← reads slave_dma_buf;
      match (o : option (Z * nat)) with
      | Some dma_buf => point_slave_dma fresh dma_buf;; mret (Z.lor cmd AST_I2CS_RX_DMA_EN)
      | None => arm_rx_fifo;; mret (Z.lor cmd AST_I2CS_RX_BUFF_EN)
      end
  | BufferMode => arm_rx_fifo;; mret (Z.lor cmd AST_I2CS_RX_BUFF_EN)
  | ByteMode => mret (Z.land cmd (not_u32 AST_I2CS_PKT_MODE_EN))
  end.
Definition arm_slave_receive (cmd : Z) : i2c Z := arm_receive true cmd.

Definition enable_slave_interrupts : i2c unit :=
  mode ← reads xfer_mode;
  let mask := Z.lor AST_I2CS_PKT_DONE AST_I2CS_INACTIVE_TO in
  let mask :=
    if bool_decide (mode = BufferMode) || bool_decide (mode = DmaMode)
    then Z.lor mask (flags [AST_I2CM_ABNORMAL; AST_I2CM_NORMAL_STOP; AST_I2CM_RX_DONE; AST_I2CM_TX_ACK])
    else mask in
  wr I2cs20 mask.

Definition clear_slave_interrupts : i2c unit := wr I2cs24 0xffffffff;; _ ← rd I2cs24; mret ().

Definition ast_configure_slave (config : SlaveConfig) : i2c unit :=
  v ← rd I2cc00;
  let master_was_enabled := bit FMasterFn v in
  upd_reg I2cc00 (clear_bit FMasterFn);;
  wr_fields I2cs40 (λ w, fput FSlaveDevAddr1Enbl 1 (fput FSlaveDevAddr1 (sl_address config) w));;
  clear_slave_interrupts;;
  upd_reg I2cc00 (λ v, Z.lor (Z.lor v AST_I2CC_SLAVE_EN) AST_I2CC_SLAVE_PKT_SAVE_ADDR);;
  let cmd :=
    if sl_packet_mode config then Z.lor (Z.lor 0 AST_I2CS_PKT_MODE_EN) AST_I2CS_ACTIVE_ALL else 0 in
  cmd ← arm_receive false cmd;
  wr I2cs28 cmd;;
  enable_slave_interrupts;;
  if master_was_enabled then upd_reg I2cc00 (set_bit FMasterFn) else mret ().

Definition ast_enable_slave : i2c unit := upd_reg I2cc00 (set_bit FSlaveFn);; enable_slave_interrupts.

Definition ast_disable_slave : i2c unit :=
  wr I2cs20 0;;
  clear_slave_interrupts;;
  upd_reg I2cc00 (clear_bit FSlaveFn).

Definition slave_has_data : i2c bool := status ← rd I2cs24; mret (has_flag status AST_I2CS_RX_DONE).

Definition PACKET_CMD : Z := Z.lor AST_I2CS_ACTIVE_ALL AST_I2CS_PKT_MODE_EN.

(** [slave_read] into [dst]: how many bytes. *)
Definition slave_read_fifo : i2c nat :=
  v ← rd I2cc0c;
  let raw := as_usize (fget FActualRxdPoolBufferSize v) in
  buffer ← reads dst;
  let to_read := Nat.min (Nat.min raw (length buffer)) SLAVE_FIFO_SIZE in
  tmp ← copy_from_buffer (replicate to_read 0);
  writes (set_dst (write_at 0 tmp buffer));;
  wr I2cs28 (Z.lor PACKET_CMD AST_I2CS_RX_BUFF_EN);;
  mret to_read.

Definition slave_read_dma : i2c nat :=
  v ← rd I2cs4c;
  let hw_len := as_usize (fget FDmarxActualLen v) in
  buffer ← reads dst;
  let to_read := Nat.min hw_len (length buffer) in
  o ← reads slave_dma_buf;
  match (o : option (Z * nat)) with
  | Some dma_buf =>
      let src_len := Nat.min to_read dma_buf.2 in
      writes (λ m, set_dst (write_at 0 (ram_load (mmio m) dma_buf.1 src_len) buffer) m);;
      point_slave_dma true dma_buf;;
      wr I2cs28 (Z.lor PACKET_CMD AST_I2CS_RX_DMA_EN);;
      mret to_read
  | None =>
      wr I2cs28 (Z.lor PACKET_CMD AST_I2CS_RX_BUFF_EN);;
      mret to_read
  end.

Definition slave_read_byte : i2c nat :=
  v ← rd I2cc08;
  writes (λ m, set_dst (<[0%nat := fget FRxByteBuffer v]> (dst m)) m);;
  wr I2cs28 AST_I2CS_ACTIVE_ALL;;
  clear_slave_interrupts;;
  mret 1%nat.

Definition slave_read : i2c nat :=
  mode ← reads xfer_mode;
  match mode with
  | BufferMode => slave_read_fifo
  | DmaMode => slave_read_dma
  | ByteMode => slave_read_byte
  end.

Definition slave_write_fifo (data : list Z) (rx : Z) : i2c nat :=
  let to_write := Nat.min (length data) SLAVE_FIFO_SIZE in
  copy_to_buffer (take to_write data);;
  wr_fields I2cc0c (fput FTxDataByteCount (as_u8 (Z.of_nat (to_write - 1))));;
  wr I2cs28 (Z.lor PACKET_CMD (Z.lor AST_I2CS_TX_BUFF_EN rx));;
  mret to_write.

Definition slave_write (data : list Z) : i2c nat :=
  match data with
  | [] => mret 0%nat
  | d0 :: _ =>
      mode ← reads xfer_mode;
      match mode with
      | BufferMode => slave_write_fifo data AST_I2CS_RX_BUFF_EN
      | DmaMode => slave_write_fifo data AST_I2CS_RX_DMA_EN
      | ByteMode =>
          wr_fields I2cc08 (fput FTxByteBuffer d0);;
          wr I2cs28 (Z.lor AST_I2CS_ACTIVE_ALL AST_I2CS_TX_CMD);;
          clear_slave_interrupts;;
          mret 1%nat
      end
  end.

(** ** The slave interrupt *)

(** [usize::from(tx_data_byte_count().bits() + 1)], on a byte. *)
Definition tx_count : i2c nat :=
  v ← rd I2cc0c;
  let n := fget FTxDataByteCount v in
  guarded (n + 1 <=? u8_MAX) (mret (as_usize (n + 1))).

Definition slave_rearm : i2c (option AstSlaveEvent) :=
  cmd ← arm_slave_receive PACKET_CMD;
  wr I2cs28 cmd;;
  mret (Some EvStop).
Definition slave_received : i2c (option AstSlaveEvent) := n ← slave_rx_len; mret (Some (EvDataReceived n)).
Definition slave_sent : i2c (option AstSlaveEvent) := n ← tx_count; mret (Some (EvDataSent n)).

(** The chain of comparisons on a finished packet. *)
Definition packet_event (sts : Z) : i2c (option AstSlaveEvent) :=
  if one_of sts [[AST_I2CS_SLAVE_MATCH]; [AST_I2CS_SLAVE_MATCH; AST_I2CS_RX_DONE]]
  then mret (Some EvWriteRequest)
  else if one_of sts
    [[AST_I2CS_SLAVE_MATCH; AST_I2CS_WAIT_RX_DMA];
     [AST_I2CS_SLAVE_MATCH; AST_I2CS_RX_DONE; AST_I2CS_WAIT_RX_DMA]]
  then slave_received
  else if one_of sts [[AST_I2CS_SLAVE_MATCH; AST_I2CS_STOP]] then slave_rearm
  else if one_of sts
    [[AST_I2CS_RX_DONE; AST_I2CS_STOP];
     [AST_I2CS_RX_DONE; AST_I2CS_WAIT_RX_DMA];
     [AST_I2CS_RX_DONE; AST_I2CS_WAIT_RX_DMA; AST_I2CS_STOP];
     [AST_I2CS_RX_DONE_NAK; AST_I2CS_RX_DONE; AST_I2CS_STOP];
     [AST_I2CS_SLAVE_MATCH; AST_I2CS_RX_DONE; AST_I2CS_STOP];
     [AST_I2CS_SLAVE_MATCH; AST_I2CS_RX_DONE; AST_I2CS_WAIT_RX_DMA; AST_I2CS_STOP];
     [AST_I2CS_SLAVE_MATCH; AST_I2CS_RX_DONE_NAK; AST_I2CS_RX_DONE; AST_I2CS_STOP]]
  then slave_received
  else if one_of sts
    [[AST_I2CS_RX_DONE; AST_I2CS_WAIT_TX_DMA];
     [AST_I2CS_SLAVE_MATCH; AST_I2CS_RX_DONE; AST_I2CS_WAIT_TX_DMA]]
  then n ← slave_rx_len; k ← tx_count; mret (Some (EvDataReceivedAndSent n k))
  else if one_of sts [[AST_I2CS_SLAVE_MATCH; AST_I2CS_WAIT_TX_DMA]] then slave_sent
  else if one_of sts [[AST_I2CS_WAIT_TX_DMA]] then slave_sent
  else if one_of sts
    [[AST_I2CS_TX_NAK; AST_I2CS_STOP]; [AST_I2CS_STOP];
     [AST_I2CS_SLAVE_MATCH; AST_I2CS_TX_NAK; AST_I2CS_STOP]]
  then slave_rearm
  else mret None.

Definition take_rx_byte : i2c unit := _ ← rd I2cc08; mret ().

(** The chain of comparisons outside packet mode. *)
Definition byte_event (status : Z) : i2c (option AstSlaveEvent) :=
  if one_of status [[AST_I2CS_SLAVE_MATCH; AST_I2CS_RX_DONE; AST_I2CS_WAIT_RX_DMA]]
  then
    take_rx_byte;; wr I2cs28 AST_I2CS_ACTIVE_ALL;; wr I2cs24 status;; _ ← rd I2cs24;
    mret (Some EvWriteRequest)
  else if one_of status
    [[AST_I2CS_SLAVE_MATCH; AST_I2CS_RX_DONE; AST_I2CS_WAIT_RX_DMA; AST_I2CS_STOP; AST_I2CS_TX_NAK];
     [AST_I2CS_SLAVE_MATCH; AST_I2CS_RX_DONE; AST_I2CS_WAIT_RX_DMA; AST_I2CS_STOP]]
  then
    take_rx_byte;; wr I2cs28 AST_I2CS_ACTIVE_ALL;; wr I2cs24 status;;
    mret (Some EvWriteRequest)
  else if one_of status [[AST_I2CS_RX_DONE; AST_I2CS_WAIT_RX_DMA]] then mret (Some (EvDataReceived 1))
  else if one_of status [[AST_I2CS_SLAVE_MATCH; AST_I2CS_RX_DONE; AST_I2CS_WAIT_TX_DMA]]
  then take_rx_byte;; mret (Some (EvDataSent 1))
  else if one_of status [[AST_I2CS_TX_ACK; AST_I2CS_WAIT_TX_DMA]] then mret (Some (EvDataSent 1))
  else if one_of status
    [[AST_I2CS_STOP]; [AST_I2CS_STOP; AST_I2CS_TX_NAK];
     [AST_I2CS_SLAVE_MATCH; AST_I2CS_STOP; AST_I2CS_TX_NAK];
     [AST_I2CS_SLAVE_MATCH; AST_I2CS_WAIT_RX_DMA; AST_I2CS_STOP; AST_I2CS_TX_NAK]]
  then wr I2cs28 AST_I2CS_ACTIVE_ALL;; wr I2cs24 status;; mret (Some EvStop)
  else mret None.

(** The restart after an inactive timeout. *)
Definition restart_slave : i2c unit :=
  upd_reg I2cc00 (clear_bit FSlaveFn);;
  cmd ← arm_slave_receive PACKET_CMD;
  upd_reg I2cc00 (set_bit FSlaveFn);;
  wr I2cs28 cmd;;
  clear_slave_interrupts.

Definition handle_slave_interrupt : i2c (option AstSlaveEvent) :=
  status ← rd I2cs24;
  if status =? 0 then
    m14 ← rd I2cm14;
    (if negb (m14 =? 0) then wr I2cm14 m14 else mret ());;
    mret None
  else if has_flag status AST_I2CS_INACTIVE_TO then restart_slave;; mret None
  else if has_flag status AST_I2CS_PKT_ERROR then clear_slave_interrupts;; mret None
  else
    let status := Z.land status (not_u32 (Z.lor AST_I2CS_SLAVE_PENDING AST_I2CS_SLAVE_ADDR1_NAK)) in
    if has_flag status AST_I2CS_PKT_DONE then
      wr I2cs24 AST_I2CS_PKT_DONE;;
      packet_event (Z.land status (not_u32 (Z.lor AST_I2CS_PKT_DONE AST_I2CS_PKT_ERROR)))
    else byte_event status.

(** ** The slave traits ([hal_slave_impl.rs]) *)

Definition to_hal_event (ev : AstSlaveEvent) : I2cIsrEvent :=
  match ev with
  | EvReadRequest => SlaveRdReq
  | EvWriteRequest => SlaveWrReq
  | EvDataReceived _ | EvDataReceivedAndSent _ _ => SlaveWrRecvd
  | EvDataSent _ => SlaveRdProc
  | EvStop => SlaveStop
  end.

Definition event_rx_len (ev : AstSlaveEvent) : option nat :=
  match ev with
  | EvDataReceived len => Some len
  | EvDataReceivedAndSent rx_len _ => Some rx_len
  | _ => None
  end.

Definition ast_configure_slave_address (addr : Z) : i2c unit :=
  cfg ← lift (SlaveConfig_new addr);
  ast_configure_slave cfg.
Definition ast_is_slave_mode_enabled : i2c bool := v ← rd I2cc00; mret (bit FSlaveFn v).
Definition ast_slave_address : i2c (option Z) :=
  on ← ast_is_slave_mode_enabled;
  if (on : bool) then v ← rd I2cs40; mret (Some (fget FSlaveDevAddr1 v)) else mret None.

Definition ast_poll_slave_data : i2c (option nat) :=
  ev ← handle_slave_interrupt; mret ((ev : option AstSlaveEvent) ≫= event_rx_len).
Definition ast_clear_slave_buffer : i2c unit :=
  has ← slave_has_data;
  if (has : bool) then lend (replicate 32 0);; _ ← slave_read; mret () else mret ().
Definition ast_rx_buffer_count : i2c nat := has ← slave_has_data; mret (if (has : bool) then 1%nat else 0%nat).

Definition ast_try_next_slave_event : i2c (option (I2cIsrEvent * nat)) :=
  ev ← handle_slave_interrupt;
  mret ((λ e, (to_hal_event e, default 0%nat (event_rx_len e))) <$> (ev : option AstSlaveEvent)).
End slave.

(** ** The backend of the I2C server ([backend/i2c/src/lib.rs]) *)

Record Ast1060I2cBackend (H : Type) := mkBackend {
  bk_regs : H; bk_config : I2cConfig; bk_master_dma_buf : option (Z * nat);
  bk_slave_dma_buf : option (Z * nat); bk_slave_enabled : bool; bk_slave_addr : option Z;
}.
Arguments mkBackend {H}.
Arguments bk_regs {H}.
Arguments bk_config {H}.
Arguments bk_master_dma_buf {H}.
Arguments bk_slave_dma_buf {H}.
Arguments bk_slave_enabled {H}.
Arguments bk_slave_addr {H}.

Definition MAX_BUS : Z := 13.

Section backend.
Context {H : Type} `{I2cHw H}.
Notation backend := (Ast1060I2cBackend H).

Definition bk_set_regs (h : H) (b : backend) : backend :=
  mkBackend h (bk_config b) (bk_master_dma_buf b) (bk_slave_dma_buf b) (bk_slave_enabled b) (bk_slave_addr b).
Definition bk_set_enabled (e : bool) (b : backend) : backend :=
  mkBackend (bk_regs b) (bk_config b) (bk_master_dma_buf b) (bk_slave_dma_buf b) e (bk_slave_addr b).
Definition bk_set_addr (a : option Z) (b : backend) : backend :=
  mkBackend (bk_regs b) (bk_config b) (bk_master_dma_buf b) (bk_slave_dma_buf b) (bk_slave_enabled b) a.

Definition make_driver (b : backend) : Ast1060I2c H :=
  match bk_master_dma_buf b, bk_slave_dma_buf b with
  | Some m, Some s => from_initialized_with_dma (bk_regs b) (bk_config b) m s
  | _, _ => from_initialized (bk_regs b) (bk_config b)
  end.

(** [self.make_driver().call()]: the driver is dropped, the hardware stays. *)
Definition with_transient {E A} (call : drv (Ast1060I2c H) E A) : drv backend E A := λ b,
  match call (make_driver b) with
  | Some (m, r) => Some (bk_set_regs (mmio m) b, r)
  | None => None
  end.

(** A call that fills a slice, which comes back whatever the result. *)
Definition with_slice {E A} (call : drv (Ast1060I2c H) E A) (buffer : list Z) (b : backend) :
    option (backend * list Z * result A E) :=
  match call (set_dst buffer (make_driver b)) with
  | Some (m, r) => Some (bk_set_regs (mmio m) b, dst m, r)
  | None => None
  end.

Definition bk_write (address : Z) (bytes : list Z) : drv backend AstI2cError unit :=
  with_transient (ast_write address bytes).
Definition bk_read (address : Z) (buffer : list Z) (b : backend) := with_slice (ast_read address) buffer b.
Definition bk_write_read (address : Z) (bytes buffer : list Z) (b : backend) :=
  with_slice (ast_write_read address bytes) buffer b.
Definition bk_transaction (address : Z) (ops : list Operation) :
    drv backend (AstI2cError * list Operation) (list Operation) :=
  with_transient (ast_transaction address ops).

Definition bk_configure_slave_address (addr : Z) : drv backend AstI2cError unit :=
  with_transient (ast_configure_slave_address addr);;
  writes (bk_set_addr (Some addr)).
Definition bk_enable_slave_mode : drv backend AstI2cError unit :=
  with_transient ast_enable_slave;;
  writes (bk_set_enabled true).
Definition bk_disable_slave_mode : drv backend AstI2cError unit :=
  with_transient ast_disable_slave;;
  writes (bk_set_enabled false).
Definition bk_is_slave_mode_enabled (b : backend) : bool := bk_slave_enabled b.
Definition bk_slave_address (b : backend) : option Z := bk_slave_addr b.

Definition bk_read_slave_buffer (buffer : list Z) (b : backend) := with_slice slave_read buffer b.
Definition bk_write_slave_response (data : list Z) : drv backend AstI2cError unit :=
  with_transient (_ ← slave_write data; mret ()).
Definition bk_poll_slave_data : drv backend AstI2cError (option nat) := with_transient ast_poll_slave_data.
Definition bk_clear_slave_buffer : drv backend AstI2cError unit := with_transient ast_clear_slave_buffer.
Definition bk_recover_bus : drv backend AstI2cError unit := with_transient ast_recover_bus.
Definition bk_try_next_slave_event : drv backend AstI2cError (option (I2cIsrEvent * nat)) :=
  with_transient ast_try_next_slave_event.

(** [regs_for], of the controllers of the chip by their index. *)
Definition regs_for (ctl : Z → H) (bus : Z) : option H :=
  if (0 <=? bus) && (bus <=? MAX_BUS) then Some (ctl bus) else None.

Definition init_bus (ctl : Z → H) (bus : Z) (config : I2cConfig) : option (option H * result unit AstI2cError) :=
  match regs_for ctl bus with
  | None => Some (None, Err AstInvalid)
  | Some h =>
      match init_hardware config (from_initialized h config) with
      | Some (m, r) => Some (Some (mmio m), r)
      | None => None
      end
  end.
Definition open_bus (ctl : Z → H) (bus : Z) (config : I2cConfig) : result backend AstI2cError :=
  match regs_for ctl bus with
  | None => Err AstInvalid
  | Some h => Ok (mkBackend h config None None false None)
  end.
Definition open_bus_dma (ctl : Z → H) (bus : Z) (config : I2cConfig) (master slave : Z * nat) :
    result backend AstI2cError :=
  match regs_for ctl bus with
  | None => Err AstInvalid
  | Some h => Ok (mkBackend h config (Some master) (Some slave) false None)
  end.
End backend.
