(* ===== verification/AstI2cTiming.v ===== *)
(** * AST1060 I2C: the bus clock

    The divider [timing.rs] computes, and the SCL period it programs. *)

From S2P Require Import Prelude Bytes RegMonad Spim I2cWire I2cServer AstI2c.
From stdpp Require Import base tactics option list numbers.
Local Open Scope Z_scope.

(** ** The period *)

(** SCL is low for [scl_low + 1] cycles of the selected clock and high for
    [scl_high + 1]. *)
Definition scl_period (ratio : Z) : Z :=
  let low := calculate_scl_low ratio in low + 1 + (calculate_scl_high ratio low + 1).

(** The clock a divider selects: four base clocks, then the fifth one halved over
    and over. *)
Definition selected_clock (clocks : ClockConfig) (div : Z) : Z :=
  match div with
  | 0 => apb_clock_hz clocks
  | 1 => base_clk1_hz clocks
  | 2 => base_clk2_hz clocks
  | 3 => base_clk3_hz clocks
  | _ => base_clk4_hz clocks
  end.
Definition prescale (div : Z) : Z := 2 ^ Z.max 0 (div - 4).

Definition clocks_ok (c : ClockConfig) : Prop :=
  in_u32 (apb_clock_hz c) ∧ in_u32 (base_clk1_hz c) ∧ in_u32 (base_clk2_hz c) ∧
  in_u32 (base_clk3_hz c) ∧ in_u32 (base_clk4_hz c).

(** The programmed period is the ratio, up to the 32 cycles the fields hold. *)
Lemma scl_period_ratio r : 1 ≤ r ≤ 33 → Z.min r 32 ≤ scl_period r.
Proof.
  intros Hr. assert (∀ n, (n < 33)%nat → (Z.min (Z.of_nat n + 1) 32 <=? scl_period (Z.of_nat n + 1)) = true) as Hall.
  { intros n Hn. do 33 (destruct n as [|n]; [reflexivity|]). lia. }
  specialize (Hall (Z.to_nat (r - 1)) ltac:(lia)). rewrite Z2Nat.id in Hall by lia.
  replace (r - 1 + 1) with r in Hall by lia. by apply Z.leb_le.
Qed.

Lemma scl_period_exact r : 2 ≤ r ≤ 32 → scl_period r = r.
Proof.
  intros Hr. assert (∀ n, (n < 31)%nat → (scl_period (Z.of_nat n + 2) =? Z.of_nat n + 2) = true) as Hall.
  { intros n Hn. do 31 (destruct n as [|n]; [reflexivity|]). lia. }
  specialize (Hall (Z.to_nat (r - 2)) ltac:(lia)). rewrite Z2Nat.id in Hall by lia.
  replace (r - 2 + 2) with r in Hall by lia. by apply Z.eqb_eq.
Qed.

(** ** The candidates *)

(** SCL is at most 33/32 of the speed asked for. *)
Definition fast_enough (base speed ratio pre : Z) : Prop :=
  1 ≤ ratio ≤ 33 ∧ 32 * base ≤ 33 * speed * (scl_period ratio * pre).

Lemma round_up_fast base t q :
  0 ≤ base ≤ u32_MAX → 32 ≤ t → q = base / t → q ≤ 32 →
  let ratio := round_up base t q in fast_enough base t (if ratio =? 0 then 1 else ratio) 1.
Proof.
  intros Hb Ht Hq Hle ratio. assert (q * t ≤ base < (q + 1) * t ∧ 0 ≤ q) as (Hq1 & Hq0).
  { subst q. pose proof (Z.mod_pos_bound base t ltac:(lia)). pose proof (Z.div_mod base t ltac:(lia)).
    pose proof (Z.div_pos base t). lia. }
  subst ratio. unfold round_up, saturating_add. rewrite Z.min_r by (unfold u32_MAX; lia).
  unfold fast_enough. rewrite Z.mul_1_r. destruct (Z.ltb_spec 0 q) as [Hp|Hp]; cbn [andb].
  - destruct (Z.ltb_spec t (base / q)) as [Hup|Hup].
    + rewrite (proj2 (Z.eqb_neq (q + 1) 0)) by lia. split; [lia|].
      pose proof (scl_period_ratio (q + 1) ltac:(lia)). destruct (decide (q + 1 ≤ 32)).
      * rewrite Z.min_l in * by lia. nia.
      * rewrite Z.min_r in * by lia. nia.
    + rewrite (proj2 (Z.eqb_neq q 0)) by lia. split; [lia|].
      pose proof (scl_period_ratio q ltac:(lia)). rewrite Z.min_l in * by lia.
      assert (base < (t + 1) * q).
      { pose proof (Z.mod_pos_bound base q ltac:(lia)). pose proof (Z.div_mod base q ltac:(lia)). nia. }
      nia.
  - assert (q = 0) as -> by lia. cbn [Z.eqb]. split; [lia|]. change (scl_period 1) with 2. nia.
Qed.

Lemma try_candidates_fast cs t :
  32 ≤ t → Forall (λ db, 0 ≤ db.2 ≤ u32_MAX) cs →
  match try_candidates cs t with
  | Some (div, ratio) => ∃ base, (div, base) ∈ cs ∧ fast_enough base t ratio 1
  | None => True
  end.
Proof.
  intros Ht. induction cs as [|[d base] cs IH]; intros Hcs; cbn [try_candidates]; [done|].
  apply List.Forall_cons_iff in Hcs as [Hb Hcs]. specialize (IH Hcs).
  assert (match try_candidates cs t with
    | Some (div, ratio) => ∃ base0, (div, base0) ∈ (d, base) :: cs ∧ fast_enough base0 t ratio 1
    | None => True end) as Hrest.
  { destruct (try_candidates cs t) as [[d' r']|]; [|done]. destruct IH as (b' & ? & ?).
    exists b'. split; [by right|done]. }
  destruct (Z.eqb_spec base 0) as [|Hne]; [done|].
  destruct (Z.leb_spec (base / t) MAX_DIVIDER_RATIO) as [Hle|]; [|done]. cbn beta zeta iota.
  exists base. split; [left|]. by apply round_up_fast.
Qed.

(** ** The shift *)

(** The loop ends within [f] rounds when the ratio is at most [32 * 2^f], with the
    ratio divided and rounded up. *)
Lemma shift_down_total f fuel div ratio inc :
  (f ≤ fuel)%nat → 0 ≤ ratio → inc = 0 ∨ inc = 1 → ratio + inc ≤ 32 * 2 ^ Z.of_nat f → (f ≤ 26)%nat →
  0 ≤ div → div + Z.of_nat f ≤ u32_MAX →
  ∃ k ratio' inc', shift_down fuel div ratio inc = Some (div + Z.of_nat k, ratio', inc') ∧ (k ≤ f)%nat ∧
    0 ≤ ratio' ∧ (inc' = 0 ∨ inc' = 1) ∧ ratio' + inc' ≤ 32 ∧ ratio + inc ≤ (ratio' + inc') * 2 ^ Z.of_nat k ∧
    (k = 0%nat → ratio' = ratio ∧ inc' = inc).
Proof.
  revert fuel div ratio inc. induction f as [|f IH]; intros fuel div ratio inc Hf Hr Hi Hb Hf27 Hd0 Hd.
  - change (32 * 2 ^ Z.of_nat 0) with 32 in Hb. exists 0%nat, ratio, inc.
    destruct fuel; cbn [shift_down]; unfold saturating_add, MAX_DIVIDER_RATIO; rewrite Z.min_r by (unfold u32_MAX; lia);
      rewrite (proj2 (Z.ltb_ge 32 (ratio + inc))) by lia; rewrite Z.add_0_r; change (2 ^ Z.of_nat 0) with 1;
      split_and!; try done; lia.
  - destruct fuel as [|fuel]; [lia|]. cbn [shift_down]. unfold saturating_add at 1.
    assert (2 ^ Z.of_nat (S f) = 2 * 2 ^ Z.of_nat f) as Hp by (rewrite Nat2Z.inj_succ, Z.pow_succ_r by lia; lia).
    rewrite Hp in Hb.
    assert (2 ^ Z.of_nat f ≤ 2 ^ 25) as Hpf by (apply Z.pow_le_mono_r; lia). change (2 ^ 25) with 33554432 in Hpf.
    rewrite Z.min_r by (unfold u32_MAX; lia). unfold MAX_DIVIDER_RATIO.
    destruct (Z.ltb_spec 32 (ratio + inc)) as [Hgt|Hle].
    2:{ exists 0%nat, ratio, inc. rewrite Z.add_0_r. change (2 ^ Z.of_nat 0) with 1. split_and!; try done; lia. }
    rewrite Z.shiftr_div_pow2 by lia. change (2 ^ 1) with 2.
    assert (Z.land ratio 1 = ratio mod 2) as -> by (change 1 with (Z.ones 1); by rewrite Z.land_ones by lia).
    pose proof (Z.mod_pos_bound ratio 2 ltac:(lia)) as Hmod. pose proof (Z.div_mod ratio 2 ltac:(lia)) as Hdm.
    set (q := ratio / 2) in *. set (r0 := ratio mod 2) in *.
    assert (Z.lor inc r0 = Z.max inc r0) as El.
    { assert (r0 = 0 ∨ r0 = 1) as [->| ->] by lia; destruct Hi as [->| ->]; reflexivity. }
    unfold saturating_add. rewrite Z.min_r by lia. rewrite El.
    destruct (IH fuel (div + 1) q (Z.max inc r0)) as (k & ratio' & inc' & E & Hk & H1 & H2 & H3 & H4 & _); try lia.
    exists (S k), ratio', inc'. rewrite E.
    replace (div + 1 + Z.of_nat k) with (div + Z.of_nat (S k)) by lia.
    assert (2 ^ Z.of_nat (S k) = 2 * 2 ^ Z.of_nat k) as -> by (rewrite Nat2Z.inj_succ, Z.pow_succ_r by lia; lia).
    split_and!; try done; lia.
Qed.

Lemma fallback_fast base t :
  0 < base ≤ u32_MAX → 100000 ≤ t →
  ∃ k ratio inc, shift_down 32 4 (base / t) 0 = Some (4 + Z.of_nat k, ratio, inc) ∧ (k ≤ 11)%nat ∧
    let r := Z.min (round_up base t (saturating_add u32_MAX ratio inc)) MAX_DIVIDER_RATIO in
    fast_enough base t (if r =? 0 then 1 else r) (2 ^ Z.of_nat k).
Proof.
  intros Hb Ht. assert ((base / t) * t ≤ base < (base / t + 1) * t ∧ 0 ≤ base / t) as (Hq1 & Hq0).
  { pose proof (Z.mod_pos_bound base t ltac:(lia)). pose proof (Z.div_mod base t ltac:(lia)).
    pose proof (Z.div_pos base t). lia. }
  assert (base / t ≤ 42949) as Hq2 by (unfold u32_MAX in Hb; nia).
  destruct (shift_down_total 11 32 4 (base / t) 0) as (k & ratio & inc & E & Hk & H1 & H2 & H3 & H4 & H5);
    try (unfold u32_MAX; lia); try (change (32 * 2 ^ Z.of_nat 11) with 65536; lia).
  exists k, ratio, inc. split; [done|]. split; [done|]. cbv zeta.
  assert (saturating_add u32_MAX ratio inc = ratio + inc) as -> by (unfold saturating_add, u32_MAX; lia).
  set (c := ratio + inc) in *. rewrite Z.add_0_r in H4.
  set (p := 2 ^ Z.of_nat k) in *. assert (1 ≤ p) as Hp by (unfold p; assert (0 < 2 ^ Z.of_nat k) by (apply Z.pow_pos_nonneg; lia); lia).
  unfold MAX_DIVIDER_RATIO, fast_enough, round_up, saturating_add. rewrite (Z.min_r u32_MAX) by (unfold u32_MAX; lia).
  destruct (Z.ltb_spec 0 c) as [Hc|Hc]; cbn [andb].
  - destruct (Z.ltb_spec t (base / c)) as [Hup|Hup].
    + rewrite (proj2 (Z.eqb_neq (Z.min (c + 1) 32) 0)) by lia. split; [lia|].
      destruct (decide (c + 1 ≤ 32)).
      * rewrite Z.min_l by lia. pose proof (scl_period_ratio (c + 1) ltac:(lia)) as Hper. rewrite Z.min_l in Hper by lia.
        assert (base / t + 1 ≤ scl_period (c + 1) * p) by nia. nia.
      * rewrite Z.min_r by lia. change (scl_period 32) with 32. assert (c = 32) as Ec by lia. rewrite Ec in H4. nia.
    + rewrite Z.min_l by lia. rewrite (proj2 (Z.eqb_neq c 0)) by lia. split; [lia|].
      pose proof (scl_period_ratio c ltac:(lia)) as Hper. rewrite Z.min_l in Hper by lia.
      assert (base < (t + 1) * c).
      { pose proof (Z.mod_pos_bound base c ltac:(lia)). pose proof (Z.div_mod base c ltac:(lia)). nia. }
      assert (c ≤ scl_period c * p) by nia. nia.
  - assert (c = 0) as -> by lia. rewrite Z.min_l by lia. cbn [Z.eqb]. split; [lia|]. change (scl_period 1) with 2. nia.
Qed.

Lemma speed_range s : 100000 ≤ speed_hz s ≤ 1000000.
Proof. destruct s; cbn; lia. Qed.

Lemma low_div k : (k ≤ 11)%nat → Z.land (4 + Z.of_nat k) 0xf = 4 + Z.of_nat k.
Proof. intros Hk. change 0xf with (Z.ones 4). rewrite Z.land_ones by lia. apply Z.mod_small. lia. Qed.

Lemma selected_4 clocks k : selected_clock clocks (4 + Z.of_nat k) = base_clk4_hz clocks.
Proof. unfold selected_clock. destruct (4 + Z.of_nat k) as [|[[|[]|]|[]|]|] eqn:E; try done; lia. Qed.

(** For every clock tree and every bus speed the divider is found without
    running over (the loop ends), fails only when the clock it falls back on is
    not there, and programs an SCL that is at most 33/32 of the speed asked for. *)
Theorem scl_speed_bounded s clocks :
  clocks_ok clocks →
  ∃ r, calculate_divider clocks (speed_hz s) = Some r ∧
  match r with
  | Err e => e = AstInvalid ∧ base_clk4_hz clocks = 0
  | Ok (div, ratio) =>
      0 ≤ div ≤ 15 ∧ 1 ≤ ratio ≤ 33 ∧
      32 * selected_clock clocks div ≤ 33 * speed_hz s * (scl_period ratio * prescale div)
  end.
Proof.
  intros (C0 & C1 & C2 & C3 & C4). pose proof (speed_range s) as Ht. set (t := speed_hz s) in *.
  unfold calculate_divider. rewrite (proj2 (Z.eqb_neq t 0)) by lia. unfold in_u32 in *.
  set (cs := [(0, apb_clock_hz clocks); (1, base_clk1_hz clocks); (2, base_clk2_hz clocks); (3, base_clk3_hz clocks)]).
  pose proof (try_candidates_fast cs t ltac:(lia) ltac:(unfold cs; rewrite !List.Forall_cons_iff; cbn [snd]; auto)) as Hc.
  destruct (try_candidates cs t) as [[div ratio]|].
  - eexists. split; [done|]. destruct Hc as (base & Hin & Hr & Hf). unfold cs in Hin.
    rewrite !elem_of_cons in Hin. destruct Hin as [[= -> ->]|[[= -> ->]|[[= -> ->]|[[= -> ->]|Hin]]]];
      [..|by apply elem_of_nil in Hin]; cbn [selected_clock]; unfold prescale; cbn [Z.sub Z.max];
      (split; [lia|]); split; try done; rewrite Z.mul_1_r in *; lia.
  - destruct (Z.eqb_spec (base_clk4_hz clocks) 0) as [->|Hne]; [by eexists|].
    destruct (fallback_fast (base_clk4_hz clocks) t ltac:(lia) ltac:(lia)) as (k & ratio & inc & -> & Hk & Hr & Hf).
    cbn [mbind option_bind]. eexists. split; [done|]. cbn beta iota. rewrite low_div by done. rewrite selected_4.
    unfold prescale. replace (Z.max 0 (4 + Z.of_nat k - 4)) with (Z.of_nat k) by lia. split; [lia|]. done.
Qed.

Lemma scl_speed_bounded_witness :
  clocks_ok ast1060_default ∧
  ∃ r, calculate_divider ast1060_default (speed_hz SpeedFast) = Some r ∧
  match r with
  | Err e => e = AstInvalid ∧ base_clk4_hz ast1060_default = 0
  | Ok (div, ratio) =>
      0 ≤ div ≤ 15 ∧ 1 ≤ ratio ≤ 33 ∧
      32 * selected_clock ast1060_default div ≤ 33 * speed_hz SpeedFast * (scl_period ratio * prescale div)
  end.
Proof.
  assert (clocks_ok ast1060_default) as Hok by (unfold clocks_ok, in_u32, u32_MAX; cbn; lia).
  split; [exact Hok|]. exact (scl_speed_bounded SpeedFast ast1060_default Hok).
Defined.

(** ** Board clocks *)

(** I2CG10 as [init_i2c_global] leaves it, with a 50 MHz APB clock. *)
Example clocks_from_hardware :
  from_hardware 9 0x62220803 = Some (mkClockConfig 50000000 20000000 10000000 2777777 1000000).
Proof. reflexivity. Qed.

(** The three speeds on these clocks: exact, or just below. *)
Example board_dividers :
  (λ s, calculate_divider (mkClockConfig 50000000 20000000 10000000 2777777 1000000) (speed_hz s)) <$>
    [SpeedStandard; SpeedFast; SpeedFastPlus] = [Some (Ok (3, 28)); Some (Ok (2, 25)); Some (Ok (1, 20))].
Proof. reflexivity. Qed.

(** The fastest APB setting overflows the 32-bit product of [from_hardware]. *)
Example fastest_apb_panics i2cg10 : from_hardware 0 i2cg10 = None.
Proof. reflexivity. Qed.

(** A ratio of 33 does not fit the fields: the period is that of 32, and SCL is
    faster than asked for. *)
Example ratio_33_clamped :
  calculate_divider (mkClockConfig 0 0 13100000 0 0) (speed_hz SpeedFast) = Some (Ok (2, 33)) ∧
  scl_period 33 = 32 ∧ 400000 < 13100000 / 32.
Proof. by vm_compute. Qed.
