(* ===== verification/AstI2cRun.v ===== *)
(** * The AST1060 I2C driver on a bus

    What a packet command of the controller does to the bus ([I2cCtl],
    [I2cCtlLaws]), and the master operations against it: in every transfer mode a
    write is one START, the bytes, one STOP, and a read likewise, however many
    commands the driver splits it into. *)

From S2P Require Import Prelude Bytes RegMonad Spim SpimRun Soc SocRun I2cWire I2cServer AstI2c.
From stdpp Require Import base tactics option list numbers.
Local Open Scope Z_scope.

(** ** Bus transfers *)

(** Why a transfer ends early. *)
Inductive bus_fault := FaultNak | FaultArbitration | FaultAbnormal | FaultBus.

(** The bus conditions a master makes: START with an address and a direction
    ([true] reads), a byte to the target, a byte from it ([true]: the last one, not
    acknowledged), STOP. *)
Class I2cWires (B : Type) : Type := {
  bus_start : B → Z → bool → B * option bus_fault;
  bus_put : B → Z → B * option bus_fault;
  bus_get : B → bool → B * Z * option bus_fault;
  bus_stop : B → B;
}.

Definition byte_ok (x : Z) : Prop := 0 ≤ x < 256.

Section transfers.
Context {B : Type} `{I2cWires B}.

Definition begin_transfer (b : B) (start : option Z) (is_read : bool) : B * option bus_fault :=
  match start with Some a => bus_start b a is_read | None => (b, None) end.

Fixpoint put_all (b : B) (l : list Z) : B * option bus_fault :=
  match l with
  | [] => (b, None)
  | x :: l => match bus_put b x with (b, None) => put_all b l | (b, Some f) => (b, Some f) end
  end.

(** [n] bytes from the target; the last one is not acknowledged when [fin]. *)
Fixpoint get_all (b : B) (n : nat) (fin : bool) : B * list Z * option bus_fault :=
  match n with
  | O => (b, [], None)
  | S n =>
      match bus_get b (fin && (n =? 0)%nat) with
      | (b, x, None) => let '(b, l, f) := get_all b n fin in (b, x :: l, f)
      | (b, _, Some f) => (b, [], Some f)
      end
  end.

Definition finish (b : B) (stop : bool) : B := if stop then bus_stop b else b.

Definition transmit (b : B) (start : option Z) (l : list Z) (stop : bool) : B * option bus_fault :=
  match begin_transfer b start false with
  | (b, Some f) => (b, Some f)
  | (b, None) =>
      match put_all b l with (b, None) => (finish b stop, None) | (b, Some f) => (b, Some f) end
  end.

Definition receive (b : B) (start : option Z) (n : nat) (fin : bool) : B * list Z * option bus_fault :=
  match begin_transfer b start true with
  | (b, Some f) => (b, [], Some f)
  | (b, None) =>
      match get_all b n fin with (b, l, None) => (finish b fin, l, None) | (b, l, Some f) => (b, l, Some f) end
  end.

Lemma put_all_app b l1 l2 :
  put_all b (l1 ++ l2) = match put_all b l1 with (b, None) => put_all b l2 | (b, Some f) => (b, Some f) end.
Proof.
  revert b. induction l1 as [|x l1 IH]; intros b; [done|]. simpl. by destruct (bus_put b x) as [b' [f|]].
Qed.

(** Bytes before the last one of a transfer are the same whether the transfer goes
    on in the same command or not. *)
Lemma get_all_add b n k fin :
  (0 < k)%nat →
  get_all b (n + k) fin =
  match get_all b n false with
  | (b, l, None) => let '(b, l', f) := get_all b k fin in (b, l ++ l', f)
  | (b, l, Some f) => (b, l, Some f)
  end.
Proof.
  intros Hk. revert b. induction n as [|n IH]; intros b.
  - cbn [get_all Nat.add]. by destruct (get_all b k fin) as [[b' l] f].
  - cbn [Nat.add get_all]. replace (n + k =? 0)%nat with false by (symmetry; apply Nat.eqb_neq; lia).
    rewrite andb_false_r. cbn [andb]. destruct (bus_get b false) as [[b1 x] [f|]]; [done|].
    rewrite IH. destruct (get_all b1 n false) as [[b2 l] [f|]]; [done|].
    by destruct (get_all b2 k fin) as [[b3 l'] f].
Qed.

Lemma get_all_length b n fin : match get_all b n fin with (_, l, None) => length l = n | _ => True end.
Proof.
  revert b. induction n as [|n IH]; intros b; [done|]. cbn [get_all].
  destruct (bus_get b _) as [[b1 x] [f|]]; [done|]. specialize (IH b1).
  destruct (get_all b1 n fin) as [[b2 l] [f|]]; [done|]. simpl. lia.
Qed.

Lemma receive_length b st n fin : match receive b st n fin with (_, l, None) => length l = n | _ => True end.
Proof.
  unfold receive. destruct (begin_transfer b st true) as [b1 [f|]]; [done|].
  pose proof (get_all_length b1 n fin) as Hl. by destruct (get_all b1 n fin) as [[b2 l] [f|]].
Qed.

(** The first command of a transfer carries the START; what a later command finds
    is the transfer so far. *)
Definition sent_so_far (b : B) (a : Z) (l : list Z) (offset : nat) : B * option bus_fault :=
  if (offset =? 0)%nat then (b, None) else transmit b (Some a) (take offset l) false.
Definition got_so_far (b : B) (a : Z) (offset : nat) : B * list Z * option bus_fault :=
  if (offset =? 0)%nat then (b, [], None) else receive b (Some a) offset false.
Definition start_at (offset : nat) (a : Z) : option Z := if (offset =? 0)%nat then Some a else None.

Lemma transmit_continue b a l offset k stop b1 :
  sent_so_far b a l offset = (b1, None) →
  transmit b (Some a) (take (offset + k) l) stop =
  transmit b1 (start_at offset a) (take k (drop offset l)) stop.
Proof.
  unfold sent_so_far, start_at. destruct (Nat.eqb_spec offset 0) as [->|Hne].
  - intros [= ->]. by rewrite drop_0.
  - replace (take (offset + k) l) with (take offset l ++ take k (drop offset l)).
    2:{ rewrite take_drop_commute. rewrite <- (take_drop offset (take (offset + k) l)) at 2.
        by rewrite take_take, Nat.min_l by lia. }
    unfold transmit. cbn [begin_transfer].
    destruct (bus_start b a false) as [b2 [f|]]; [done|]. rewrite put_all_app.
    destruct (put_all b2 (take offset l)) as [b3 [f|]]; [done|]. cbn. by intros [= ->].
Qed.

Lemma receive_continue b a offset k fin b1 l1 :
  (0 < k)%nat → got_so_far b a offset = (b1, l1, None) →
  receive b (Some a) (offset + k) fin =
  let '(b2, l2, f) := receive b1 (start_at offset a) k fin in (b2, l1 ++ l2, f).
Proof.
  unfold got_so_far, start_at. intros Hk. destruct (Nat.eqb_spec offset 0) as [->|Hne].
  - intros [= -> <-]. cbn [Nat.add app]. by destruct (receive b1 (Some a) k fin) as [[b2 l2] f].
  - unfold receive. cbn [begin_transfer].
    destruct (bus_start b a true) as [b2 [f|]]; [done|]. rewrite get_all_add by done.
    destruct (get_all b2 offset false) as [[b3 l3] [f|]]; [done|]. cbn. intros [= -> ->].
    by destruct (get_all b1 k fin) as [[b4 l4] [f|]].
Qed.
End transfers.

(** ** The controller *)

(** What the controller's registers mean: the bus as it is once the running
    command is over, the number of status reads until that is reported, the status
    then reported, the received byte, the pool buffer, and the values the other
    registers hold. *)
Class I2cCtl (H B : Type) : Type := {
  ctl_bus : H → B;
  ctl_wait : H → nat;
  ctl_status : H → Z;
  ctl_rx : H → Z;
  ctl_pool : H → list Z;
  ctl_reg : H → I2cReg → Z;
  ctl_latency : nat;
}.

(** The largest value of a field the driver puts there. *)
Definition field_max (f : I2cField) : Z :=
  match f with
  | FTxByteBuffer => 255
  | FTxDataByteCount | FRxPoolBufferSize => 31
  | FDmatxBufLen | FDmarxBufLen => 4095
  | FDmaBufferBase | FDmaBufferBase1 => u32_MAX
  | FDmatxBufLenWrEnbl | FDmarxBufLenWrEnbl | FMasterFn | FSlaveFn => 1
  | _ => 0
  end.
(** The register of a field the laws speak of. *)
Definition field_reg (f : I2cField) : option I2cReg :=
  match f with
  | FMasterFn | FSlaveFn => Some I2cc00
  | FTxByteBuffer => Some I2cc08
  | FTxDataByteCount | FRxPoolBufferSize => Some I2cc0c
  | FDmatxBufLen | FDmarxBufLen | FDmatxBufLenWrEnbl | FDmarxBufLenWrEnbl => Some I2cm1c
  | FDmaBufferBase => Some I2cm30
  | FDmaBufferBase1 => Some I2cm34
  | _ => None
  end.

(** The registers that hold what was written; I2CC08 holds the byte to send. *)
Definition holds (r : I2cReg) : bool :=
  match r with
  | I2cc00 | I2cc04 | I2cc0c | I2cm10 | I2cm1c | I2cm30 | I2cm34 | I2cs28 => true
  | _ => false
  end.

Definition le_byte (v : Z) (k : nat) : Z := Z.land (Z.shiftr v (8 * Z.of_nat k)) 255.

(** The flags [handle_interrupt] acts on. *)
Definition ctl_silent (v : Z) : Prop :=
  Forall (λ f, has_flag v f = false)
    [AST_I2CM_PKT_DONE; Z.lor AST_I2CM_TX_ACK AST_I2CM_RX_DONE; AST_I2CM_TX_NAK; AST_I2CM_ABNORMAL;
     AST_I2CM_ARBIT_LOSS; AST_I2CM_SCL_LOW_TO].

(** The status of a finished packet. *)
Definition ctl_reports (v : Z) (f : option bus_fault) : Prop :=
  has_flag v AST_I2CM_PKT_DONE = true ∧
  has_flag v AST_I2CM_PKT_ERROR = match f with Some _ => true | None => false end ∧
  match f with
  | None => True
  | Some FaultNak => has_flag v AST_I2CM_TX_NAK = true
  | Some FaultArbitration =>
      has_flag v AST_I2CM_TX_NAK = false ∧ has_flag v AST_I2CM_ARBIT_LOSS = true
  | Some FaultAbnormal =>
      has_flag v AST_I2CM_TX_NAK = false ∧ has_flag v AST_I2CM_ARBIT_LOSS = false ∧
      has_flag v AST_I2CM_ABNORMAL = true
  | Some FaultBus =>
      has_flag v AST_I2CM_TX_NAK = false ∧ has_flag v AST_I2CM_ARBIT_LOSS = false ∧
      has_flag v AST_I2CM_ABNORMAL = false
  end.

(** The error of a fault. *)
Definition fault_error (f : bus_fault) : AstI2cError :=
  match f with
  | FaultNak => AstNoAcknowledge
  | FaultArbitration => AstArbitrationLoss
  | FaultAbnormal => AstAbnormal
  | FaultBus => AstBus
  end.
Definition fault_result (f : option bus_fault) : result unit AstI2cError :=
  match f with Some f => Err (fault_error f) | None => Ok () end.

Section controller.
Context {H B : Type} `{I2cHw H} `{I2cWires B} `{I2cCtl H B}.

Definition field (h : H) (r : I2cReg) (f : I2cField) : Z := fget f (ctl_reg h r).

(** The same registers, buffers and memory. *)
Definition same_data (h h' : H) : Prop :=
  ctl_rx h' = ctl_rx h ∧ ctl_pool h' = ctl_pool h ∧ (∀ a, ram_rd h' a = ram_rd h a) ∧
  (∀ r, ctl_reg h' r = ctl_reg h r).
(** Time passed at most. *)
Definition keeps (h h' : H) : Prop :=
  ctl_bus h' = ctl_bus h ∧ ctl_status h' = ctl_status h ∧ (ctl_wait h' ≤ ctl_wait h)%nat ∧ same_data h h'.

(** A command word, and the bytes it sends. *)
Definition cmd_start (cmd : Z) : option Z :=
  if has_flag cmd AST_I2CM_START_CMD then Some (Z.land (Z.shiftr cmd 24) 0x7f) else None.
Definition cmd_data (h : H) (cmd : Z) : list Z :=
  if has_flag cmd AST_I2CM_TX_DMA_EN then
    ram_load h (field h I2cm30 FDmaBufferBase) (S (Z.to_nat (field h I2cm1c FDmatxBufLen)))
  else if has_flag cmd AST_I2CM_TX_BUFF_EN then
    take (S (Z.to_nat (field h I2cc0c FTxDataByteCount))) (ctl_pool h)
  else [field h I2cc08 FTxByteBuffer].
Definition cmd_count (h : H) (cmd : Z) : nat :=
  if has_flag cmd AST_I2CM_RX_DMA_EN then S (Z.to_nat (field h I2cm1c FDmarxBufLen))
  else if has_flag cmd AST_I2CM_RX_BUFF_EN then S (Z.to_nat (field h I2cc0c FRxPoolBufferSize))
  else 1.
(** Where the bytes of a read are. *)
Definition cmd_received (h : H) (cmd : Z) (n : nat) : list Z :=
  if has_flag cmd AST_I2CM_RX_DMA_EN then ram_load h (field h I2cm34 FDmaBufferBase1) n
  else if has_flag cmd AST_I2CM_RX_BUFF_EN then take n (ctl_pool h)
  else [ctl_rx h].

(** The DMA lengths a command uses have been enabled for it. *)
Definition cmd_armed (h : H) (cmd : Z) : Prop :=
  (has_flag cmd AST_I2CM_TX_DMA_EN = true → field h I2cm1c FDmatxBufLenWrEnbl = 1) ∧
  (has_flag cmd AST_I2CM_RX_DMA_EN = true → field h I2cm1c FDmarxBufLenWrEnbl = 1).
End controller.

(** Packet mode as the comments of [constants.rs], [master.rs] and [dma.rs]
    describe it.  Clearing [PKT_DONE] clears the status of the packet.  A command
    is reported after at most [ctl_latency] status reads. *)
Class I2cCtlLaws (H B : Type) `{I2cHw H} `{I2cWires B} `{I2cCtl H B} : Prop := {
  fget_fput f v w : 0 ≤ v ≤ field_max f → fget f (fput f v w) = v;
  fget_other f g r v w : field_reg f = Some r → field_reg g = Some r → f ≠ g → fget g (fput f v w) = fget g w;
  rd_keeps h r : keeps h (i2c_rd h r).1;
  rd_holds h r : holds r = true → (i2c_rd h r).2 = ctl_reg h r;
  rd_rx h : fget FRxByteBuffer (i2c_rd h I2cc08).2 = ctl_rx h;
  rd_status h : ctl_wait h = 0%nat → (i2c_rd h I2cm14).2 = ctl_status h;
  rd_waiting h n : ctl_wait h = S n → ctl_silent (i2c_rd h I2cm14).2 ∧ (ctl_wait (i2c_rd h I2cm14).1 ≤ n)%nat;
  yield_keeps h ns : keeps h (yield_for h ns);
  wr_holds h r v : holds r || bool_decide (r = I2cc08) = true → ctl_wait h = 0%nat →
    let h' := i2c_wr h r v in
    ctl_wait h' = 0%nat ∧ ctl_bus h' = ctl_bus h ∧ ctl_status h' = ctl_status h ∧ ctl_rx h' = ctl_rx h ∧
    ctl_pool h' = ctl_pool h ∧ (∀ a, ram_rd h' a = ram_rd h a) ∧
    (∀ r', ctl_reg h' r' = if bool_decide (r' = r) then v else ctl_reg h r');
  wr_clear h mask : has_flag mask AST_I2CM_PKT_DONE = true → ctl_wait h = 0%nat →
    let h' := i2c_wr h I2cm14 mask in
    ctl_wait h' = 0%nat ∧ ctl_status h' = 0 ∧ ctl_bus h' = ctl_bus h ∧ same_data h h';
  wr_slave_status h v : keeps h (i2c_wr h I2cs24 v);
  buff_rd_pool h i : (i < 8)%nat →
    keeps h (buff_rd h i).1 ∧ ∀ k, (k < 4)%nat → le_byte (buff_rd h i).2 k = default 0 (ctl_pool h !! (4 * i + k)%nat);
  pool_length h : length (ctl_pool h) = 32%nat;
  buff_wr_pool h i v : (i < 8)%nat → ctl_wait h = 0%nat →
    let h' := buff_wr h i v in
    ctl_wait h' = 0%nat ∧ ctl_bus h' = ctl_bus h ∧ ctl_status h' = ctl_status h ∧
    ctl_pool h' = write_at (4 * i) (le_byte v <$> seq 0 4) (ctl_pool h) ∧ (∀ r, ctl_reg h' r = ctl_reg h r);
  ram_wr_ram h a v : ctl_wait h = 0%nat →
    let h' := ram_wr h a v in
    ctl_wait h' = 0%nat ∧ ctl_bus h' = ctl_bus h ∧ ctl_status h' = ctl_status h ∧
    (∀ r, ctl_reg h' r = ctl_reg h r) ∧ (∀ x, ram_rd h' x = if x =? a then v else ram_rd h x);
  wr_transmit h cmd : has_flag cmd AST_I2CM_PKT_EN = true → has_flag cmd AST_I2CM_TX_CMD = true →
    ctl_wait h = 0%nat → ctl_status h = 0 → cmd_armed h cmd →
    let h' := i2c_wr h I2cm18 cmd in
    let t := transmit (ctl_bus h) (cmd_start cmd) (cmd_data h cmd) (has_flag cmd AST_I2CM_STOP_CMD) in
    ctl_bus h' = t.1 ∧ ctl_reports (ctl_status h') t.2 ∧ (ctl_wait h' ≤ ctl_latency)%nat;
  wr_receive h cmd : has_flag cmd AST_I2CM_PKT_EN = true → has_flag cmd AST_I2CM_TX_CMD = false →
    has_flag cmd AST_I2CM_RX_CMD = true → ctl_wait h = 0%nat → ctl_status h = 0 → cmd_armed h cmd →
    let h' := i2c_wr h I2cm18 cmd in
    let t := receive (ctl_bus h) (cmd_start cmd) (cmd_count h cmd) (has_flag cmd AST_I2CM_STOP_CMD) in
    ctl_bus h' = t.1.1 ∧ ctl_reports (ctl_status h') t.2 ∧ (ctl_wait h' ≤ ctl_latency)%nat ∧
    (t.2 = None → cmd_received h' cmd (cmd_count h cmd) = t.1.2) ∧
    (∀ r, r ≠ I2cm18 → ctl_reg h' r = ctl_reg h r);
  latency_prompt : (ctl_latency < DEFAULT_TIMEOUT_US)%nat;
}.

Section run.
Context {H B : Type} `{I2cHw H} `{I2cWires B} `{I2cCtl H B} `{!I2cCtlLaws H B}.
Implicit Types m : Ast1060I2c H.

(** What no call changes but through [dst]. *)
Definition same_drv m m' : Prop :=
  xfer_mode m' = xfer_mode m ∧ master_dma_buf m' = master_dma_buf m ∧
  slave_dma_buf m' = slave_dma_buf m ∧ dst m' = dst m.

(** The command is over and its status is cleared. *)
Definition ctl_settles (h h' : H) : Prop :=
  ctl_wait h' = 0%nat ∧ ctl_status h' = 0 ∧ ctl_bus h' = ctl_bus h ∧ same_data h h'.

Lemma same_drv_refl m : same_drv m m.
Proof. done. Qed.
Lemma same_drv_trans m1 m2 m3 : same_drv m1 m2 → same_drv m2 m3 → same_drv m1 m3.
Proof. unfold same_drv. intuition congruence. Qed.

Lemma same_data_refl h : same_data (B:=B) h h.
Proof. by unfold same_data. Qed.
Lemma same_data_trans h1 h2 h3 : same_data (B:=B) h1 h2 → same_data (B:=B) h2 h3 → same_data (B:=B) h1 h3.
Proof.
  intros (E1 & E2 & E3 & E4) (F1 & F2 & F3 & F4). unfold same_data. repeat split; congruence.
Qed.
Lemma keeps_refl h : keeps (B:=B) h h.
Proof. unfold keeps. eauto using same_data_refl. Qed.
Lemma keeps_trans h1 h2 h3 : keeps (B:=B) h1 h2 → keeps (B:=B) h2 h3 → keeps (B:=B) h1 h3.
Proof.
  intros (E1 & E2 & E3 & E4) (F1 & F2 & F3 & F4). unfold keeps.
  split_and!; [congruence|congruence|lia|by eapply same_data_trans].
Qed.

Lemma dwp_rd r (Q : result Z AstI2cError → Ast1060I2c H → Prop) m :
  Q (Ok (i2c_rd (mmio m) r).2) (set_mmio (i2c_rd (mmio m) r).1 m) → dwp (rd r) Q m.
Proof. unfold dwp, rd. by destruct (i2c_rd (mmio m) r). Qed.

Lemma dwp_wr r v (Q : result unit AstI2cError → Ast1060I2c H → Prop) m :
  Q (Ok ()) (set_mmio (i2c_wr (mmio m) r v) m) → dwp (wr r v) Q m.
Proof. done. Qed.

(** Writing back what a register holds changes nothing. *)
Lemma wr_twice_keeps h r v :
  holds r = true → ctl_wait h = 0%nat → keeps (B:=B) h (i2c_wr (i2c_wr h r v) r (ctl_reg h r)).
Proof.
  intros Hr Hw. destruct (wr_holds h r v) as (W & E1 & E2 & E3 & E4 & E5 & E6); [by rewrite Hr|done|].
  destruct (wr_holds (i2c_wr h r v) r (ctl_reg h r)) as (W' & F1 & F2 & F3 & F4 & F5 & F6);
    [by rewrite Hr|done|].
  unfold keeps, same_data. split_and!; [congruence|congruence|lia|congruence|congruence| |].
  - intros a. by rewrite F5, E5.
  - intros r'. rewrite F6. case_bool_decide as Er; [by subst|]. rewrite E6. by rewrite bool_decide_eq_false_2.
Qed.

Lemma unstick_keeps v m :
  ctl_wait (mmio m) = 0%nat →
  dwp (unstick_slave v) (λ r m', r = Ok () ∧ keeps (B:=B) (mmio m) (mmio m') ∧ same_drv m m') m.
Proof.
  intros Hw. unfold unstick_slave. case_match; [|apply dwp_ret; eauto using keeps_refl, same_drv_refl].
  apply dwp_bind, dwp_rd. cbn beta iota. set (h1 := (i2c_rd (mmio m) I2cs28).1).
  assert (K1 : keeps (B:=B) (mmio m) h1) by apply rd_keeps.
  case_match; [|by apply dwp_ret].
  apply dwp_bind, dwp_rd. cbn beta iota. set (h2 := (i2c_rd _ I2cs28).1).
  assert (K2 : keeps (B:=B) h1 h2) by apply rd_keeps.
  apply dwp_bind, dwp_wr. apply dwp_wr. cbn [mmio set_mmio] in *. split; [done|]. split; [|done].
  rewrite (rd_holds (B:=B)) by done.
  assert (ctl_wait h1 = 0%nat) as W1 by (destruct K1 as (_ & _ & ? & _); lia).
  assert (ctl_wait h2 = 0%nat) as W2 by (destruct K2 as (_ & _ & ? & _); lia).
  replace (ctl_reg h1 I2cs28) with (ctl_reg h2 I2cs28) by apply K2.
  eapply keeps_trans; [exact K1|]. eapply keeps_trans; [exact K2|]. by apply wr_twice_keeps.
Qed.

Lemma packet_error_result v f m :
  ctl_reports v f → dwp (packet_error v) (λ r m', r = fault_result f ∧ m' = m) m.
Proof.
  intros (_ & He & Hf). unfold packet_error. rewrite He. destruct f as [[]|]; cbn beta iota in *; [..|by apply dwp_ret].
  - rewrite Hf. by apply dwp_raise.
  - destruct Hf as [-> ->]. by apply dwp_raise.
  - destruct Hf as (-> & -> & ->). by apply dwp_raise.
  - destruct Hf as (-> & -> & ->). by apply dwp_raise.
Qed.

(** The interrupt of a finished command. *)
Lemma handle_done m f :
  ctl_wait (mmio m) = 0%nat → ctl_reports (ctl_status (mmio m)) f →
  dwp handle_interrupt (λ r m', r = fault_result f ∧ completion m' = true ∧
    ctl_settles (mmio m) (mmio m') ∧ same_drv m m') m.
Proof.
  intros Hw Hf. unfold handle_interrupt. apply dwp_bind, dwp_rd. cbn beta iota.
  rewrite (rd_status (B:=B)) by done. destruct (rd_keeps (B:=B) (mmio m) I2cm14) as (K1 & K2 & K3 & K4).
  destruct Hf as [Hd Hf]. rewrite Hd. set (m1 := set_mmio _ m).
  apply dwp_bind. eapply dwp_mono; [apply (unstick_keeps _ m1); cbn [mmio m1 set_mmio]; lia|].
  intros r m2 (-> & (L1 & L2 & L3 & L4) & D1). cbn beta iota.
  apply dwp_bind, dwp_writes. cbn beta iota. apply dwp_bind, dwp_wr. cbn beta iota.
  eapply dwp_mono; [by apply packet_error_result; split|]. intros r m3 [-> ->]. cbn [completion mmio set_mmio set_completion].
  cbn [mmio m1 set_mmio] in *.
  destruct (wr_clear (mmio m2) AST_I2CM_PKT_DONE) as (W & S & Bu & D); [done|lia|].
  split; [done|]. split; [done|]. split; [|done].
  unfold ctl_settles. split_and!; [done|done|congruence|]. eauto using same_data_trans.
Qed.

(** A poll of a running command. *)
Lemma handle_waiting m n :
  ctl_wait (mmio m) = S n →
  dwp handle_interrupt (λ r m', r = Ok () ∧ completion m' = completion m ∧
    keeps (B:=B) (mmio m) (mmio m') ∧ (ctl_wait (mmio m') ≤ n)%nat ∧ same_drv m m') m.
Proof.
  intros Hw. destruct (rd_waiting (mmio m) n Hw) as [Hs Hn]. unfold ctl_silent in Hs.
  rewrite !List.Forall_cons_iff in Hs. destruct Hs as (E1 & E2 & E3 & E4 & E5 & E6 & _).
  unfold handle_interrupt. apply dwp_bind, dwp_rd. cbn beta iota.
  rewrite E1, E2, E3, E4, E5, E6. apply dwp_ret. split_and!; try done. apply rd_keeps.
Qed.

Lemma reports_keeps h h' f :
  keeps (B:=B) h h' → ctl_reports (ctl_status h) f → ctl_reports (ctl_status h') f.
Proof. by intros (_ & -> & _). Qed.

Lemma settles_keeps h1 h2 h3 : keeps (B:=B) h1 h2 → ctl_settles h2 h3 → ctl_settles h1 h3.
Proof.
  intros (E1 & E2 & E3 & E4) (F1 & F2 & F3 & F4). unfold ctl_settles.
  split_and!; [done|done|congruence|by eapply same_data_trans].
Qed.
Lemma settles_then_keeps h1 h2 h3 : ctl_settles h1 h2 → keeps (B:=B) h2 h3 → ctl_settles h1 h3.
Proof.
  intros (F1 & F2 & F3 & F4) (E1 & E2 & E3 & E4). unfold ctl_settles.
  split_and!; [lia|congruence|congruence|by eapply same_data_trans].
Qed.

(** The loop ends with the report of the command. *)
Lemma wait_loop_done n m f :
  (ctl_wait (mmio m) < n)%nat → completion m = false → ctl_reports (ctl_status (mmio m)) f →
  dwp (completion_loop n) (λ r m', r = fault_result f ∧ (r = Ok () → completion m' = true) ∧
    ctl_settles (mmio m) (mmio m') ∧ same_drv m m') m.
Proof.
  revert m. induction n as [|n IH]; intros m Hw Hc Hf; [lia|]. cbn [completion_loop].
  apply dwp_bind, dwp_reads. cbn beta iota. rewrite Hc.
  destruct (ctl_wait (mmio m)) as [|w] eqn:Ew; apply dwp_bind.
  - eapply dwp_mono; [by apply (handle_done m f)|]. intros r m1 (-> & Hc1 & Hs & Hd).
    destruct f as [e|]; cbn [fault_result]; [done|].
    apply dwp_bind, dwp_writes. cbn beta iota. set (m2 := set_mmio _ m1).
    destruct n as [|n]; cbn [completion_loop]; [apply dwp_ret|apply dwp_bind, dwp_reads; cbn beta iota; cbn [m2 completion set_mmio]; rewrite Hc1; apply dwp_ret].
    all: split_and!; try done; eapply settles_then_keeps; [exact Hs|apply yield_keeps].
  - eapply dwp_mono; [by apply (handle_waiting m w)|]. intros r m1 (-> & Hc1 & Hk & Hw1 & Hd).
    apply dwp_bind, dwp_writes. cbn beta iota. set (m2 := set_mmio _ m1).
    assert (K2 : keeps (B:=B) (mmio m1) (mmio m2)) by apply yield_keeps.
    assert (K : keeps (B:=B) (mmio m) (mmio m2)) by (by eapply keeps_trans).
    eapply dwp_mono; [apply (IH m2)|].
    + destruct K2 as (_ & _ & ? & _). lia.
    + cbn [m2 completion set_mmio]. congruence.
    + by eapply reports_keeps.
    + intros r m3 (-> & Hc3 & Hs & Hd3). split_and!; try done; [by eapply settles_keeps|].
      eapply same_drv_trans; [exact Hd|exact Hd3].
Qed.

Lemma wait_done m f :
  (ctl_wait (mmio m) ≤ ctl_latency)%nat → ctl_reports (ctl_status (mmio m)) f →
  dwp (wait_completion DEFAULT_TIMEOUT_US) (λ r m', r = fault_result f ∧
    ctl_settles (mmio m) (mmio m') ∧ same_drv m m') m.
Proof.
  intros Hw Hf. pose proof latency_prompt. unfold wait_completion.
  apply dwp_bind, dwp_writes. cbn beta iota. apply dwp_bind.
  eapply dwp_mono; [apply (wait_loop_done _ _ f); cbn [mmio set_completion]; [lia|done..]|].
  cbn [mmio set_completion]. intros r m' (-> & Hc & Hs & Hd). destruct f as [e|]; cbn [fault_result] in *; [done|].
  apply dwp_bind, dwp_reads. cbn beta iota. rewrite Hc by done. apply dwp_require_true. done.
Qed.

(** A register write with the controller at rest. *)
Lemma wr_idle h r v :
  holds r || bool_decide (r = I2cc08) = true → ctl_wait h = 0%nat →
  ctl_wait (i2c_wr h r v) = 0%nat ∧ ctl_bus (i2c_wr h r v) = ctl_bus h ∧
  ctl_status (i2c_wr h r v) = ctl_status h ∧ ctl_pool (i2c_wr h r v) = ctl_pool h ∧
  (∀ a, ram_rd (i2c_wr h r v) a = ram_rd h a) ∧ ctl_reg (i2c_wr h r v) r = v ∧
  (∀ r', r' ≠ r → ctl_reg (i2c_wr h r v) r' = ctl_reg h r').
Proof.
  intros Hr Hw. destruct (wr_holds h r v Hr Hw) as (W & E1 & E2 & E3 & E4 & E5 & E6).
  split_and!; try done; [by rewrite E6, bool_decide_eq_true_2|].
  intros r' Hne. by rewrite E6, bool_decide_eq_false_2.
Qed.
End run.
