(* ===== verification/AstI2cMaster.v ===== *)
(** * The AST1060 I2C master operations

    Every transfer mode performs the same transfer on the bus. *)

From S2P Require Import Prelude Bytes RegMonad Spim SpimRun Soc SocRun I2cWire I2cServer AstI2c AstI2cRun.
From stdpp Require Import base tactics option list numbers.
Local Open Scope Z_scope.

(** ** Command words *)

Lemma has_flag_lor_or x y f : has_flag (Z.lor x y) f = has_flag x f || has_flag y f.
Proof.
  unfold has_flag. rewrite Z.land_lor_distr_l. destruct (Z.eqb_spec (Z.land x f) 0) as [->|Hx]; [done|].
  destruct (Z.eqb_spec (Z.lor (Z.land x f) (Z.land y f)) 0) as [He|]; [|done].
  by apply Z.lor_eq_0_iff in He as [? _].
Qed.

Lemma pkt_addr_low addr f : 0 ≤ f < 2 ^ 24 → has_flag (ast_i2cm_pkt_addr addr) f = false.
Proof.
  intros Hf. unfold has_flag, ast_i2cm_pkt_addr. apply negb_false_iff, Z.eqb_eq.
  apply Z.bits_inj'. intros i Hi. rewrite Z.land_spec, Z.bits_0.
  destruct (Z.ltb_spec i 24) as [Hlt|Hge].
  - by rewrite Z.shiftl_spec_low.
  - rewrite (high_bit f 24) by lia. by rewrite andb_false_r.
Qed.

Lemma cmd_flag base fi addr s f :
  0 ≤ f < 2 ^ 24 →
  has_flag (add_stop s (add_start fi addr base)) f =
  has_flag base f || (fi && has_flag AST_I2CM_START_CMD f) || (s && has_flag AST_I2CM_STOP_CMD f).
Proof.
  intros Hf. unfold add_stop, add_start.
  destruct s, fi; rewrite ?has_flag_lor_or, ?pkt_addr_low by done; cbn [andb];
    by rewrite ?orb_false_r, ?orb_false_l, ?orb_assoc.
Qed.

(** The last command of a read carries both flags. *)
Lemma cmd_last_flag base fi addr s f :
  0 ≤ f < 2 ^ 24 →
  has_flag (add_last s (add_start fi addr base)) f =
  has_flag base f || (fi && has_flag AST_I2CM_START_CMD f) ||
    (s && (has_flag AST_I2CM_RX_CMD_LAST f || has_flag AST_I2CM_STOP_CMD f)).
Proof.
  intros Hf. unfold add_last, add_start.
  destruct s, fi; rewrite ?has_flag_lor_or, ?pkt_addr_low by done; cbn [andb];
    by rewrite ?orb_false_r, ?orb_false_l, ?orb_assoc.
Qed.

(** The address of a command. *)
Definition cmd_addr (cmd : Z) : Z := Z.land (Z.shiftr cmd 24) 0x7f.

Lemma cmd_addr_lor x y : cmd_addr (Z.lor x y) = Z.lor (cmd_addr x) (cmd_addr y).
Proof. unfold cmd_addr. by rewrite Z.shiftr_lor, Z.land_lor_distr_l. Qed.
Lemma cmd_addr_low c : 0 ≤ c < 2 ^ 24 → cmd_addr c = 0.
Proof. intros Hc. unfold cmd_addr. by rewrite Z.shiftr_div_pow2, Z.div_small by lia. Qed.
Lemma cmd_addr_pkt addr : cmd_addr (ast_i2cm_pkt_addr addr) = Z.land addr 0x7f.
Proof.
  unfold cmd_addr, ast_i2cm_pkt_addr. rewrite Z.shiftr_shiftl_l by lia. change (24 - 24) with 0.
  by rewrite Z.shiftl_0_r, <- Z.land_assoc.
Qed.

Lemma cmd_start_tx c fi addr s :
  0 ≤ c < 2 ^ 24 → has_flag c AST_I2CM_START_CMD = false →
  cmd_start (add_stop s (add_start fi addr c)) = if (fi : bool) then Some (Z.land addr 0x7f) else None.
Proof.
  intros Hc Hn. unfold cmd_start. rewrite cmd_flag, Hn by done.
  fold (cmd_addr (add_stop s (add_start fi addr c))).
  destruct fi, s; cbn [add_stop add_start orb andb]; try done; cbn beta iota;
    rewrite !cmd_addr_lor, cmd_addr_pkt, (cmd_addr_low c) by done; by rewrite !Z.lor_0_r.
Qed.

Lemma cmd_start_rx c fi addr s :
  0 ≤ c < 2 ^ 24 → has_flag c AST_I2CM_START_CMD = false →
  cmd_start (add_last s (add_start fi addr c)) = if (fi : bool) then Some (Z.land addr 0x7f) else None.
Proof.
  intros Hc Hn. unfold cmd_start. rewrite cmd_last_flag, Hn by done.
  fold (cmd_addr (add_last s (add_start fi addr c))).
  destruct fi, s; cbn [add_last add_start orb andb]; try done; cbn beta iota;
    rewrite !cmd_addr_lor, cmd_addr_pkt, (cmd_addr_low c) by done; by rewrite !Z.lor_0_r.
Qed.

(** ** The pool buffer *)

Lemma lookup_write_at i data buf j :
  (i + length data ≤ length buf)%nat →
  write_at i data buf !! j =
  if (i <=? j)%nat && (j <? i + length data)%nat then data !! (j - i)%nat else buf !! j.
Proof.
  intros Hl. unfold write_at. destruct (Nat.leb_spec i j) as [Hi|Hi]; cbn [andb].
  - rewrite lookup_app_r by (rewrite length_take; lia). rewrite length_take, Nat.min_l by lia.
    destruct (Nat.ltb_spec j (i + length data)) as [Hj|Hj].
    + by rewrite lookup_app_l by lia.
    + rewrite lookup_app_r by lia. rewrite lookup_drop. f_equal. lia.
  - rewrite lookup_app_l by (rewrite length_take; lia). by rewrite lookup_take_lt by lia.
Qed.

Lemma byte_shifted x k i :
  byte_ok x → 0 ≤ k → 0 ≤ i →
  Z.testbit (Z.shiftl x k) i = (k <=? i) && (i <? k + 8) && Z.testbit x (i - k).
Proof.
  intros Hx Hk Hi. rewrite Z.shiftl_spec by lia. destruct (Z.leb_spec k i); cbn [andb].
  - destruct (Z.ltb_spec i (k + 8)); [done|]. by rewrite (high_bit x 8) by (unfold byte_ok in Hx; lia).
  - by rewrite Z.testbit_neg_r by lia.
Qed.

Definition dword4 (b0 b1 b2 b3 : Z) : Z :=
  Z.lor (Z.lor (Z.lor (Z.lor 0 (Z.shiftl b0 0)) (Z.shiftl b1 8)) (Z.shiftl b2 16)) (Z.shiftl b3 24).

Lemma pack_dword_bytes data idx :
  let b k := default 0 (data !! (idx + k)%nat) in pack_dword data idx = dword4 (b 0%nat) (b 1%nat) (b 2%nat) (b 3%nat).
Proof.
  unfold pack_dword, dword4. cbn [seq foldl]. 
  change (Z.of_nat 0 * 8) with 0. change (Z.of_nat 1 * 8) with 8. change (Z.of_nat 2 * 8) with 16.
  change (Z.of_nat 3 * 8) with 24.
  destruct (data !! (idx + 0)%nat), (data !! (idx + 1)%nat), (data !! (idx + 2)%nat), (data !! (idx + 3)%nat);
    cbn [default from_option id]; by rewrite ?Z.shiftl_0_l, ?Z.lor_0_r.
Qed.

Lemma le_byte_dword4 b0 b1 b2 b3 k :
  byte_ok b0 → byte_ok b1 → byte_ok b2 → byte_ok b3 →
  (k < 4)%nat → Some (le_byte (dword4 b0 b1 b2 b3) k) = [b0; b1; b2; b3] !! k.
Proof.
  intros H0 H1 H2 H3 Hk. unfold le_byte, dword4. change 255 with (Z.ones 8).
  assert (∀ x y, 0 ≤ y → byte_ok x → (∀ i, 0 ≤ i < 8 → Z.testbit y i = Z.testbit x i) →
    Some (Z.land y (Z.ones 8)) = Some x) as Heq.
  { intros x y Hy Hx Hb. f_equal. apply Z.bits_inj'. intros i Hi.
    rewrite Z.land_spec, Z.testbit_ones by lia. destruct (Z.ltb_spec i 8).
    - rewrite Hb by lia. rewrite (proj2 (Z.leb_le 0 i)) by lia. cbn. apply andb_true_r.
    - rewrite (high_bit x 8) by (unfold byte_ok in Hx; lia). by rewrite andb_false_r, andb_false_r. }
  assert (0 ≤ Z.lor (Z.lor (Z.lor (Z.lor 0 (Z.shiftl b0 0)) (Z.shiftl b1 8)) (Z.shiftl b2 16)) (Z.shiftl b3 24)).
  { unfold byte_ok in *. rewrite !Z.lor_nonneg, !Z.shiftl_nonneg. lia. }
  do 4 (destruct k as [|k]; [cbn [lookup list_lookup]; apply Heq; [by apply Z.shiftr_nonneg|done|];
    intros i Hi; rewrite Z.shiftr_spec, !Z.lor_spec, Z.bits_0, !byte_shifted by (done || lia);
    bit_cases; by rewrite ?orb_false_l; f_equal; lia|]). lia.
Qed.

Lemma byte_ok_default data i : Forall byte_ok data → byte_ok (default 0 (data !! i)).
Proof.
  intros Hd. destruct (data !! i) eqn:E; cbn; [by eapply Forall_lookup_1|unfold byte_ok; lia].
Qed.

(** A packed word holds the bytes it was packed from. *)
Lemma le_byte_pack data idx k :
  Forall byte_ok data → (k < 4)%nat →
  le_byte (pack_dword data idx) k = default 0 (data !! (idx + k)%nat).
Proof.
  intros Hd Hk. rewrite pack_dword_bytes. cbv zeta. apply (inj Some).
  rewrite le_byte_dword4 by (done || by apply byte_ok_default).
  do 4 (destruct k as [|k]; [done|]). lia.
Qed.

Lemma unpack_dword_length data idx v : length (unpack_dword data idx v) = length data.
Proof. unfold unpack_dword. cbn [seq foldl]. by rewrite !length_insert. Qed.

Lemma unpack_dword_lookup data idx v j :
  unpack_dword data idx v !! j =
  if (idx <=? j)%nat && (j <? idx + 4)%nat && (j <? length data)%nat
  then Some (le_byte v (j - idx)) else data !! j.
Proof.
  unfold unpack_dword. cbn [seq foldl]. unfold le_byte.
  destruct (Nat.leb_spec idx j); cbn [andb].
  2:{ rewrite !list_lookup_insert_ne by lia. done. }
  destruct (Nat.ltb_spec j (idx + 4)); cbn [andb].
  2:{ rewrite !list_lookup_insert_ne by lia. done. }
  destruct (Nat.ltb_spec j (length data)) as [Hj|Hj].
  2:{ rewrite !lookup_ge_None_2; rewrite ?length_insert; try done. }
  assert (j = idx + 0 ∨ j = idx + 1 ∨ j = idx + 2 ∨ j = idx + 3)%nat as [E|[E|[E|E]]] by lia;
    subst j; repeat (rewrite list_lookup_insert_ne by lia);
    (rewrite list_lookup_insert_eq by (rewrite ?length_insert; lia)); f_equal; f_equal; f_equal; lia.
Qed.

Section copies.
Context {H B : Type} `{I2cHw H} `{I2cWires B} `{I2cCtl H B} `{!I2cCtlLaws H B}.
Implicit Types m : Ast1060I2c H.

(** The controller at rest, with the same registers and the same bus. *)
Definition rests (h h' : H) : Prop :=
  ctl_wait h' = 0%nat ∧ ctl_bus h' = ctl_bus h ∧ ∀ r, ctl_reg h' r = ctl_reg h r.

Lemma rests_refl h : ctl_wait h = 0%nat → rests h h.
Proof. done. Qed.
Lemma rests_trans h1 h2 h3 : rests h1 h2 → rests h2 h3 → rests h1 h3.
Proof. intros (E1 & E2 & E3) (F1 & F2 & F3). unfold rests. repeat split; congruence. Qed.
Lemma keeps_rests h h' : ctl_wait h = 0%nat → keeps (B:=B) h h' → rests h h'.
Proof. intros Hw (E1 & _ & E3 & _ & _ & _ & E4). unfold rests. repeat split; [lia|done|done]. Qed.

Lemma copy_to_loop_pool data fuel idx m :
  Forall byte_ok data → (length data ≤ 32)%nat → (idx mod 4 = 0)%nat → (length data ≤ idx + fuel)%nat →
  ctl_wait (mmio m) = 0%nat →
  (∀ j, (j < idx)%nat → (j < length data)%nat → ctl_pool (mmio m) !! j = data !! j) →
  dwp (copy_to_loop fuel data idx) (λ r m', r = Ok () ∧ rests (mmio m) (mmio m') ∧ same_drv m m' ∧
    ∀ j, (j < length data)%nat → ctl_pool (mmio m') !! j = data !! j) m.
Proof.
  intros Hd Hl. revert idx m. induction fuel as [|fuel IH]; intros idx m Hi Hf Hw Hp; cbn [copy_to_loop];
    (destruct (Nat.ltb_spec idx (length data));
      [|apply dwp_ret; split_and!; eauto using rests_refl, same_drv_refl; intros j Hj; apply Hp; lia]); [lia|].
  assert (idx / 4 < 8)%nat as Hq by (apply Nat.Div0.div_lt_upper_bound; lia).
  rewrite (proj2 (Nat.ltb_lt _ _) Hq). apply dwp_bind, dwp_require_true. cbn beta iota.
  apply dwp_bind, dwp_writes. cbn beta iota. set (m1 := set_mmio _ m).
  destruct (buff_wr_pool (B:=B) (mmio m) (idx / 4) (pack_dword data idx)) as (W & Eb & _ & Ep & Er); [done..|].
  assert (4 * (idx / 4) = idx)%nat as E4 by (pose proof (Nat.div_mod_eq idx 4); lia). rewrite E4 in Ep.
  pose proof (pool_length (B:=B) (mmio m)) as Hpl.
  eapply dwp_mono; [apply (IH (idx + 4)%nat m1)|].
  - rewrite Nat.Div0.add_mod, Hi. done.
  - lia.
  - done.
  - intros j Hj Hjl. cbn [mmio m1 set_mmio]. rewrite Ep.
    rewrite lookup_write_at by (rewrite length_fmap, length_seq, Hpl; lia).
    rewrite length_fmap, length_seq. destruct (Nat.leb_spec idx j); cbn [andb]; [|apply Hp; lia].
    rewrite (proj2 (Nat.ltb_lt j (idx + 4))) by lia. rewrite list_lookup_fmap, lookup_seq_lt by lia.
    cbn [fmap option_fmap option_map]. rewrite le_byte_pack by (done || lia).
    replace (idx + (0 + (j - idx)))%nat with j by lia.
    destruct (data !! j) eqn:E; [done|]. apply lookup_ge_None in E. lia.
  - intros r m' (-> & Hr & Hs & Hj). split_and!; [done| |done|done].
    eapply rests_trans; [|exact Hr]. done.
Qed.

Lemma copy_to_buffer_pool data m :
  Forall byte_ok data → (length data ≤ 32)%nat → ctl_wait (mmio m) = 0%nat →
  dwp (copy_to_buffer data) (λ r m', r = Ok () ∧ rests (mmio m) (mmio m') ∧ same_drv m m' ∧
    take (length data) (ctl_pool (mmio m')) = data) m.
Proof.
  intros Hd Hl Hw. unfold copy_to_buffer.
  rewrite (proj2 (Nat.leb_le _ BUFFER_MODE_SIZE) Hl). apply dwp_bind, dwp_require_true. cbn beta iota.
  eapply dwp_mono; [apply copy_to_loop_pool; try done; lia|]. intros r m' (-> & Hr & Hs & Hj).
  split_and!; try done. apply list_eq. intros j. pose proof (pool_length (B:=B) (mmio m')).
  destruct (decide (j < length data)%nat).
  - rewrite lookup_take_lt by lia. by apply Hj.
  - rewrite lookup_take_ge by lia. by rewrite lookup_ge_None_2 by lia.
Qed.

Lemma copy_from_loop_pool n fuel data idx m :
  length data = n → (n ≤ 32)%nat → (idx mod 4 = 0)%nat → (n ≤ idx + fuel)%nat →
  (∀ j, (j < idx)%nat → (j < n)%nat → data !! j = ctl_pool (mmio m) !! j) →
  dwp (copy_from_loop fuel data idx) (λ r m', keeps (B:=B) (mmio m) (mmio m') ∧ same_drv m m' ∧
    ∃ data', r = Ok data' ∧ length data' = n ∧ ∀ j, (j < n)%nat → data' !! j = ctl_pool (mmio m) !! j) m.
Proof.
  intros Hdl Hl. revert data idx m Hdl. induction fuel as [|fuel IH]; intros data idx m Hdl Hi Hf Hp;
    cbn [copy_from_loop]; rewrite Hdl;
    (destruct (Nat.ltb_spec idx n);
      [|apply dwp_ret; split_and!; [apply keeps_refl|done|]; exists data; split_and!; try done;
        intros j Hj; apply Hp; lia]); [lia|].
  assert (idx / 4 < 8)%nat as Hq by (apply Nat.Div0.div_lt_upper_bound; lia).
  rewrite (proj2 (Nat.ltb_lt _ _) Hq). apply dwp_bind, dwp_require_true. cbn beta iota.
  destruct (buff_rd_pool (B:=B) (mmio m) (idx / 4) Hq) as [K Hb].
  assert (4 * (idx / 4) = idx)%nat as E4 by (pose proof (Nat.div_mod_eq idx 4); lia). rewrite E4 in Hb.
  apply dwp_bind. unfold buffer_read at 1, dwp at 1.
  destruct (buff_rd (mmio m) (idx / 4)) as [h1 v] eqn:E. cbn [fst snd] in *.
  assert (ctl_pool h1 = ctl_pool (mmio m)) as Epool by apply K.
  pose proof (pool_length (B:=B) (mmio m)) as Hpl.
  eapply dwp_mono; [apply (IH (unpack_dword data idx v) (idx + 4)%nat (set_mmio h1 m))|].
  - by rewrite unpack_dword_length.
  - rewrite Nat.Div0.add_mod, Hi. done.
  - lia.
  - intros j Hj Hjn. cbn [mmio set_mmio]. rewrite Epool, unpack_dword_lookup, Hdl.
    rewrite (proj2 (Nat.ltb_lt j n)), (proj2 (Nat.ltb_lt j (idx + 4))) by lia. rewrite !andb_true_r.
    destruct (Nat.leb_spec idx j); [|apply Hp; lia]. rewrite Hb by lia.
    replace (idx + (j - idx))%nat with j by lia.
    destruct (ctl_pool (mmio m) !! j) eqn:Ej; [done|]. apply lookup_ge_None in Ej. lia.
  - cbn [mmio set_mmio]. rewrite Epool. intros r m' (Kr & Hs & Hd). split; [by eapply keeps_trans|]. done.
Qed.

Lemma copy_from_buffer_pool data m :
  (length data ≤ 32)%nat →
  dwp (copy_from_buffer data) (λ r m', keeps (B:=B) (mmio m) (mmio m') ∧ same_drv m m' ∧
    r = Ok (take (length data) (ctl_pool (mmio m)))) m.
Proof.
  intros Hl. unfold copy_from_buffer.
  rewrite (proj2 (Nat.leb_le _ BUFFER_MODE_SIZE) Hl). apply dwp_bind, dwp_require_true. cbn beta iota.
  eapply dwp_mono; [apply (copy_from_loop_pool (length data)); try done; lia|].
  intros r m' (K & Hs & data' & -> & Hdl & Hj). split_and!; try done. f_equal. apply list_eq. intros j.
  pose proof (pool_length (B:=B) (mmio m)). destruct (decide (j < length data)%nat).
  - rewrite lookup_take_lt by lia. by apply Hj.
  - rewrite lookup_take_ge by lia. by rewrite lookup_ge_None_2 by lia.
Qed.

(** ** The DMA buffer *)

Lemma ram_store_ram l a h :
  ctl_wait h = 0%nat →
  let h' := ram_store h a l in
  rests h h' ∧ ctl_status h' = ctl_status h ∧
  ∀ x, ram_rd h' x = if (a <=? x) && (x <? a + Z.of_nat (length l))
                     then default 0 (l !! Z.to_nat (x - a)) else ram_rd h x.
Proof.
  revert a h. induction l as [|v l IH]; intros a h Hw; cbn [ram_store].
  - split; [by apply rests_refl|]. split; [done|]. intros x. cbn [length].
    destruct (Z.leb_spec a x), (Z.ltb_spec x (a + Z.of_nat 0)); try done. lia.
  - destruct (ram_wr_ram (B:=B) h a v Hw) as (W & Eb & Es & Er & Em).
    destruct (IH (a + 1) (ram_wr h a v) W) as (R & St & M). split; [|split].
    + eapply rests_trans; [|exact R]. done.
    + by rewrite St.
    + intros x. rewrite M, Em. cbn [length].
      destruct (Z.leb_spec (a + 1) x), (Z.ltb_spec x (a + 1 + Z.of_nat (length l))); cbn [andb].
      * rewrite (proj2 (Z.leb_le a x)), (proj2 (Z.ltb_lt x (a + Z.of_nat (S (length l))))) by lia. cbn [andb].
        by replace (Z.to_nat (x - a)) with (S (Z.to_nat (x - (a + 1)))) by lia.
      * rewrite (proj2 (Z.ltb_ge x (a + Z.of_nat (S (length l))))) by lia. rewrite andb_false_r.
        by rewrite (proj2 (Z.eqb_neq x a)) by lia.
      * destruct (Z.eqb_spec x a) as [->|].
        -- rewrite Z.leb_refl, (proj2 (Z.ltb_lt a _)) by lia. cbn [andb]. by rewrite Z.sub_diag.
        -- by rewrite (proj2 (Z.leb_gt a x)) by lia.
      * lia.
Qed.

Lemma ram_load_store l a h :
  ctl_wait h = 0%nat → ram_load (ram_store h a l) a (length l) = l.
Proof.
  intros Hw. destruct (ram_store_ram l a h Hw) as (_ & _ & M). unfold ram_load. apply list_eq. intros i.
  rewrite list_lookup_fmap. destruct (decide (i < length l)%nat).
  - rewrite lookup_seq_lt by lia. cbn [fmap option_fmap option_map]. rewrite M.
    rewrite (proj2 (Z.leb_le a _)), (proj2 (Z.ltb_lt (a + _) _)) by lia. cbn [andb].
    replace (Z.to_nat (a + Z.of_nat (0 + i) - a)) with i by lia.
    destruct (l !! i) eqn:E; [done|]. apply lookup_ge_None in E. lia.
  - rewrite lookup_seq_ge by lia. by rewrite lookup_ge_None_2 by lia.
Qed.

Lemma ram_load_ext h h' a n : (∀ x, ram_rd h' x = ram_rd h x) → ram_load h' a n = ram_load h a n.
Proof. intros Hr. unfold ram_load. apply list_fmap_ext. intros. by rewrite Hr. Qed.

Lemma ram_load_length h a n : length (ram_load h a n) = n.
Proof. unfold ram_load. by rewrite length_fmap, length_seq. Qed.
End copies.
