(* ===== verification/AstI2cXfer.v ===== *)
(** * The AST1060 I2C transfers

    [write], [read], [write_read] and [transaction] of the driver, in byte, buffer
    and DMA mode, as transfers on the bus. *)

From S2P Require Import Prelude Bytes RegMonad Spim SpimRun Soc SocRun I2cWire I2cServer AstI2c AstI2cRun AstI2cMaster.
From stdpp Require Import base tactics option list numbers.
Local Open Scope Z_scope.

(** ** A transfer in several commands *)

Section steps.
Context {B : Type} `{I2cWires B}.

Lemma transmit_fault_prefix b a l n s stop b' f :
  transmit b (Some a) (take n l) s = (b', Some f) → transmit b (Some a) l stop = (b', Some f).
Proof.
  unfold transmit. cbn [begin_transfer]. destruct (bus_start b a false) as [b1 [f1|]]; [done|].
  rewrite <- (take_drop n l) at 2. rewrite put_all_app.
  by destruct (put_all b1 (take n l)) as [b2 [f2|]].
Qed.

Lemma transmit_step b a l stop offset k b1 :
  sent_so_far b a l offset = (b1, None) → (offset + k ≤ length l)%nat → (0 < k)%nat →
  let last := (length l <=? offset + k)%nat in
  let t := transmit b1 (start_at offset a) (take k (drop offset l)) (last && stop) in
  match t with
  | (b2, Some f) => transmit b (Some a) l stop = (b2, Some f)
  | (b2, None) =>
      if last then transmit b (Some a) l stop = (b2, None)
      else sent_so_far b a l (offset + k) = (b2, None)
  end.
Proof.
  intros Hs Hl Hk last t. pose proof (transmit_continue b a l offset k (last && stop) b1 Hs) as Hc.
  fold t in Hc. destruct t as [b2 [f|]].
  - by eapply transmit_fault_prefix.
  - destruct last eqn:E; subst last.
    + apply Nat.leb_le in E. by rewrite firstn_all2 in Hc by lia.
    + apply Nat.leb_gt in E. unfold sent_so_far. by destruct (Nat.eqb_spec (offset + k) 0); [lia|].
Qed.

Lemma receive_fault_prefix b a n k s fin b' l f :
  (0 < k)%nat → receive b (Some a) n s = (b', l, Some f) → (s = false) →
  receive b (Some a) (n + k) fin = (b', l, Some f).
Proof.
  intros Hk Hr ->. revert Hr. unfold receive. cbn [begin_transfer].
  destruct (bus_start b a true) as [b1 [f1|]]; [done|]. rewrite get_all_add by done.
  by destruct (get_all b1 n false) as [[b2 l2] [f2|]].
Qed.

(** [total] bytes in all, [k] of them from [offset]; the last command ends the
    transfer. *)
Lemma receive_step b a total offset k b1 l1 :
  got_so_far b a offset = (b1, l1, None) → (offset + k ≤ total)%nat → (0 < k)%nat →
  let last := (total <=? offset + k)%nat in
  let t := receive b1 (start_at offset a) k last in
  match t with
  | (b2, l2, Some f) => receive b (Some a) total true = (b2, l1 ++ l2, Some f)
  | (b2, l2, None) =>
      if last then receive b (Some a) total true = (b2, l1 ++ l2, None)
      else got_so_far b a (offset + k) = (b2, l1 ++ l2, None)
  end.
Proof.
  intros Hs Hl Hk last t. pose proof (receive_continue b a offset k last b1 l1 Hk Hs) as Hc.
  fold t in Hc. destruct last eqn:E; subst last.
  - apply Nat.leb_le in E. replace total with (offset + k)%nat by lia.
    destruct t as [[b2 l2] [f|]]; done.
  - apply Nat.leb_gt in E. destruct t as [[b2 l2] [f|]].
    + replace total with (offset + k + (total - (offset + k)))%nat by lia.
      by eapply receive_fault_prefix; [lia|exact Hc|].
    + unfold got_so_far. by destruct (Nat.eqb_spec (offset + k) 0); [lia|].
Qed.
End steps.

Section xfer.
Context {H B : Type} `{I2cHw H} `{I2cWires B} `{I2cCtl H B} `{!I2cCtlLaws H B}.
Implicit Types m : Ast1060I2c H.

(** At rest, on the bus of [h]. *)
Definition rests_on (b : B) (m : Ast1060I2c H) : Prop := ctl_wait (mmio m) = 0%nat ∧ ctl_bus (mmio m) = b.

Lemma check_chunk_quiet m :
  ctl_wait (mmio m) = 0%nat → ctl_status (mmio m) = 0 →
  dwp check_chunk (λ r m', r = Ok () ∧ keeps (B:=B) (mmio m) (mmio m') ∧ same_drv m m') m.
Proof.
  intros Hw Hs. unfold check_chunk. apply dwp_bind, dwp_rd. cbn beta iota.
  rewrite (rd_status (B:=B)), Hs by done. apply dwp_ret. split; [done|]. split; [apply rd_keeps|done].
Qed.

Lemma abort_wait_keeps n m :
  dwp (abort_wait n) (λ r m', r = Ok () ∧ keeps (B:=B) (mmio m) (mmio m') ∧ same_drv m m') m.
Proof.
  revert m. induction n as [|n IH]; intros m; cbn [abort_wait].
  - apply dwp_ret. eauto using keeps_refl, same_drv_refl.
  - apply dwp_bind, dwp_rd. cbn beta iota. set (m1 := set_mmio _ m).
    assert (K : keeps (B:=B) (mmio m) (mmio m1)) by apply rd_keeps.
    case_match; [|by apply dwp_ret]. eapply dwp_mono; [apply (IH m1)|].
    intros r m' (-> & K' & D). split; [done|]. split; [by eapply keeps_trans|done].
Qed.

(** Dropping the guard of a finished transfer. *)
Lemma dma_drop_settles m :
  ctl_wait (mmio m) = 0%nat →
  dwp dma_drop (λ r m', r = Ok () ∧ ctl_settles (mmio m) (mmio m') ∧ same_drv m m') m.
Proof.
  intros Hw. unfold dma_drop. apply dwp_bind, dwp_rd. cbn beta iota.
  rewrite (rd_holds (B:=B)) by done. set (h1 := (i2c_rd (mmio m) I2cc00).1).
  assert (K1 : keeps (B:=B) (mmio m) h1) by apply rd_keeps.
  assert (ctl_wait h1 = 0%nat) as W1 by (destruct K1 as (_ & _ & ? & _); lia).
  replace (ctl_reg (mmio m) I2cc00) with (ctl_reg h1 I2cc00) by apply K1.
  apply dwp_bind, dwp_wr. cbn beta iota. apply dwp_bind, dwp_wr. cbn beta iota. cbn [mmio set_mmio].
  pose proof (wr_twice_keeps (B:=B) h1 I2cc00 0 eq_refl W1) as K2.
  set (h2 := i2c_wr (i2c_wr h1 I2cc00 0) I2cc00 (ctl_reg h1 I2cc00)) in *.
  apply dwp_bind. eapply dwp_mono; [apply abort_wait_keeps|]. cbn [mmio set_mmio].
  intros r m3 (-> & K3 & D). apply dwp_wr. cbn [mmio set_mmio]. split; [done|]. split; [|done].
  destruct (keeps_trans _ _ _ (keeps_trans _ _ _ K1 K2) K3) as (Eb & _ & Ew & Ed).
  destruct (wr_clear (mmio m3) 0xffffffff) as (W & S' & Eb' & Ed'); [done|lia|].
  unfold ctl_settles. split_and!; [done|done|congruence|by eapply same_data_trans].
Qed.

Lemma settles_trans h1 h2 h3 : ctl_settles (B:=B) h1 h2 → ctl_settles (B:=B) h2 h3 → ctl_settles (B:=B) h1 h3.
Proof.
  intros (E1 & E2 & E3 & E4) (F1 & F2 & F3 & F4). unfold ctl_settles.
  split_and!; [done|done|congruence|by eapply same_data_trans].
Qed.

Lemma wait_armed_done m f :
  (ctl_wait (mmio m) ≤ ctl_latency)%nat → ctl_reports (ctl_status (mmio m)) f →
  dwp wait_armed (λ r m', r = fault_result f ∧ ctl_settles (mmio m) (mmio m') ∧ same_drv m m') m.
Proof.
  intros Hw Hf. unfold wait_armed. apply dwp_bind, dwp_attempt.
  eapply dwp_mono; [by apply wait_done|]. intros r m1 (-> & Hs & Hd). cbn beta iota.
  destruct f as [e|]; cbn [fault_result]; [|by apply dwp_ret].
  apply dwp_bind. eapply dwp_mono; [apply dma_drop_settles, Hs|].
  intros r m2 (-> & Hs2 & Hd2). apply dwp_raise. split_and!; [done| |].
  - by eapply settles_trans.
  - by eapply same_drv_trans.
Qed.

(** Every command of a transfer finds the status clear. *)
Lemma clear_all m :
  ctl_wait (mmio m) = 0%nat →
  dwp (clear_interrupts 0xffffffff) (λ r m', r = Ok () ∧ m' = set_mmio (mmio m') m ∧
    ctl_settles (mmio m) (mmio m')) m.
Proof.
  intros Hw. apply dwp_wr. cbn [mmio set_mmio].
  destruct (wr_clear (mmio m) 0xffffffff) as (W & S' & Eb' & Ed'); [done..|]. done.
Qed.

(** ** One command of a write *)

Lemma has_flag_0 f : has_flag 0 f = false.
Proof. unfold has_flag. by rewrite Z.land_0_l. Qed.

(** The bytes from [offset] went out, in one command. *)
Definition sent_chunk (a : Z) (bytes : list Z) (stop : bool) (offset k : nat) m
    (r : result unit AstI2cError) m' : Prop :=
  let t := transmit (ctl_bus (mmio m)) (start_at offset a) (take k (drop offset bytes))
             ((length bytes <=? offset + k)%nat && stop) in
  r = fault_result t.2 ∧ rests_on t.1 m' ∧ ctl_status (mmio m') = 0 ∧ same_drv m m'.

(** A command and the wait for it. *)
Lemma issue_transmit m cmd (wait : i2c unit) start data stop :
  wait = wait_completion DEFAULT_TIMEOUT_US ∨ wait = wait_armed →
  has_flag cmd AST_I2CM_PKT_EN = true → has_flag cmd AST_I2CM_TX_CMD = true →
  ctl_wait (mmio m) = 0%nat → ctl_status (mmio m) = 0 → cmd_armed (mmio m) cmd →
  cmd_start cmd = start → cmd_data (mmio m) cmd = data → has_flag cmd AST_I2CM_STOP_CMD = stop →
  dwp wait (λ r m', let t := transmit (ctl_bus (mmio m)) start data stop in
    r = fault_result t.2 ∧ rests_on t.1 m' ∧ ctl_status (mmio m') = 0 ∧ same_drv m m')
    (set_mmio (i2c_wr (mmio m) I2cm18 cmd) m).
Proof.
  intros Hwt Hp Ht Hw Hs Ha <- <- <-.
  destruct (wr_transmit (mmio m) cmd Hp Ht Hw Hs Ha) as (Eb & Er & Ew).
  set (t := transmit _ _ _ _) in *. set (m1 := set_mmio _ m).
  assert (dwp wait (λ r m', r = fault_result t.2 ∧ ctl_settles (B:=B) (mmio m1) (mmio m') ∧ same_drv m1 m') m1) as Hd.
  { destruct Hwt as [->| ->]; [by apply wait_done|by apply wait_armed_done]. }
  eapply dwp_mono; [exact Hd|]. intros r m' (-> & (S1 & S2 & S3 & _) & D). cbn beta.
  unfold rests_on. cbn [mmio m1 set_mmio] in S3. split_and!; try done. congruence.
Qed.

Lemma write_byte_sends addr bytes stop i byte m :
  bytes !! i = Some byte → byte_ok byte → ctl_wait (mmio m) = 0%nat → ctl_status (mmio m) = 0 →
  dwp (write_byte addr (length bytes) stop i byte) (sent_chunk (Z.land addr 0x7f) bytes stop i 1 m) m.
Proof.
  intros Hi Hb Hw Hs. pose proof (lookup_lt_Some _ _ _ Hi) as Hlt. unfold write_byte.
  apply dwp_bind. apply dwp_bind, dwp_rd. cbn beta iota.
  destruct (rd_keeps (B:=B) (mmio m) I2cc08) as (K1 & K2 & K3 & _). set (h1 := (i2c_rd (mmio m) I2cc08).1) in *.
  set (w := (i2c_rd (mmio m) I2cc08).2). apply dwp_wr. cbn [mmio set_mmio].
  destruct (wr_idle (B:=B) h1 I2cc08 (fput FTxByteBuffer byte w)) as (W & Eb & Es & _ & _ & Er & _); [done|lia|].
  set (h2 := i2c_wr h1 I2cc08 _) in *.
  apply dwp_bind, dwp_wr. cbn beta iota. apply dwp_bind, dwp_writes. cbn beta iota.
  set (cmd := add_stop _ _). apply dwp_bind.
  eapply dwp_mono; [apply (issue_transmit (set_completion false (set_mmio h2 m)) cmd _
    (start_at i (Z.land addr 0x7f)) [byte] ((length bytes <=? i + 1)%nat && stop))|].
  - by left.
  - unfold cmd. by rewrite cmd_flag.
  - unfold cmd. by rewrite cmd_flag.
  - done.
  - cbn [mmio set_completion set_mmio]. congruence.
  - by split; unfold cmd; rewrite cmd_flag by done; destruct (i =? 0)%nat, ((i =? length bytes - 1)%nat && stop).
  - unfold cmd. by rewrite cmd_start_tx.
  - unfold cmd_data, field. cbn [mmio set_completion set_mmio].
    unfold cmd. rewrite !cmd_flag by done. replace (ctl_reg h2 I2cc08) with (fput FTxByteBuffer byte w) by done.
    rewrite (fget_fput (B:=B)) by (unfold byte_ok in Hb; cbn; lia).
    by destruct (i =? 0)%nat, ((i =? length bytes - 1)%nat && stop).
  - unfold cmd. rewrite cmd_flag by done. replace (length bytes <=? i + 1)%nat with (i =? length bytes - 1)%nat.
    { by destruct (i =? 0)%nat, ((i =? length bytes - 1)%nat && stop). }
    apply eq_bool_prop_intro. rewrite !Is_true_true, Nat.eqb_eq, Nat.leb_le. lia.
  - cbn [mmio set_completion set_mmio]. unfold sent_chunk.
    rewrite (drop_S _ _ _ Hi). cbn [take].
    rewrite K1 in Eb. rewrite Eb. set (t := transmit _ _ _ _). intros r m3 (-> & [W3 B3] & S3 & D3). cbn beta iota.
    destruct t as [b2 [f|]]; cbn [fault_result fst snd] in *; [done|].
    apply dwp_bind, dwp_rd. cbn beta iota. rewrite (rd_status (B:=B)), S3 by done.
    destruct (rd_keeps (B:=B) (mmio m3) I2cm14) as (L1 & L2 & L3 & _).
    rewrite has_flag_0. apply dwp_bind, dwp_require_true. cbn beta iota. apply dwp_writes.
    unfold rests_on. cbn [mmio set_mmio add_xfer_cnt]. split_and!; try done; [lia|congruence..].
Qed.

Lemma slice_chunk bytes offset k :
  (offset + k ≤ length bytes)%nat →
  slice_range bytes offset (offset + k) = Some (take k (drop offset bytes)) ∧
  length (take k (drop offset bytes)) = k.
Proof.
  intros Hl. rewrite slice_range_Some by lia. replace (offset + k - offset)%nat with k by lia.
  split; [done|]. rewrite length_take, length_drop. lia.
Qed.

Lemma chunk_bytes bytes offset k : Forall byte_ok bytes → Forall byte_ok (take k (drop offset bytes)).
Proof. intros Hb. by apply Forall_take, Forall_drop. Qed.

(** After the wait: no error is latched, the count goes up. *)
Lemma finish_chunk a bytes stop offset k m m' n :
  sent_chunk a bytes stop offset k m (Ok ()) m' →
  dwp (check_chunk;; writes (add_xfer_cnt n)) (sent_chunk a bytes stop offset k m) m'.
Proof.
  intros (Hr & [W Eb] & St & D). apply dwp_bind. eapply dwp_mono; [by apply check_chunk_quiet|].
  intros r m2 (-> & (K1 & K2 & K3 & _) & D2). apply dwp_writes. unfold sent_chunk, rests_on.
  cbn [mmio add_xfer_cnt]. split_and!; [done|lia|congruence|congruence|].
  eapply same_drv_trans; [exact D|exact D2].
Qed.

Lemma write_buffer_chunk_sends addr bytes stop offset k m :
  (offset + k ≤ length bytes)%nat → (0 < k ≤ BUFFER_MODE_SIZE)%nat → Forall byte_ok bytes →
  ctl_wait (mmio m) = 0%nat →
  dwp (write_buffer_chunk addr bytes stop offset k) (sent_chunk (Z.land addr 0x7f) bytes stop offset k m) m.
Proof.
  intros Hl Hk Hb Hw. destruct (slice_chunk bytes offset k Hl) as [Hsl Hcl]. unfold BUFFER_MODE_SIZE in Hk.
  unfold write_buffer_chunk. rewrite Hsl. set (chunk := take k (drop offset bytes)) in *.
  apply dwp_bind, dwp_lift. cbn beta iota delta [ok_or].
  apply dwp_bind. eapply dwp_mono; [apply (copy_to_buffer_pool (B:=B)); [by apply chunk_bytes|lia|done]|].
  intros r m1 (-> & (W1 & B1 & R1) & D1 & P1). cbn beta iota. rewrite Hcl in P1.
  (* the count *)
  apply dwp_bind. apply dwp_bind, dwp_rd. cbn beta iota.
  destruct (rd_keeps (B:=B) (mmio m1) I2cc0c) as (K1 & K2 & K3 & _ & K4 & _ & K5).
  rewrite (rd_holds (B:=B)) by done. set (h2 := (i2c_rd (mmio m1) I2cc0c).1) in *.
  set (n := as_u8 (Z.of_nat (k - 1))). assert (n = Z.of_nat (k - 1)) as En.
  { apply as_u8_small. unfold in_u8, u8_MAX. lia. }
  apply dwp_wr. cbn [mmio set_mmio]. set (w := fput FTxDataByteCount n _).
  destruct (wr_idle (B:=B) h2 I2cc0c w) as (W3 & B3 & _ & P3 & _ & R3 & _); [done|lia|].
  set (h3 := i2c_wr h2 I2cc0c w) in *.
  apply dwp_bind. eapply dwp_mono; [by apply (clear_all)|]. cbn [mmio set_mmio].
  intros r m4 (-> & E4 & W4 & S4 & B4 & _ & P4 & _ & R4). cbn beta iota.
  apply dwp_bind, dwp_writes. cbn beta iota. apply dwp_bind, dwp_wr. cbn beta iota.
  set (cmd := add_stop _ _). apply dwp_bind. set (m5 := set_completion false m4).
  eapply dwp_mono; [apply (issue_transmit m5 cmd _
    (start_at offset (Z.land addr 0x7f)) chunk ((length bytes <=? offset + k)%nat && stop))|].
  - by left.
  - unfold cmd. by rewrite cmd_flag.
  - unfold cmd. by rewrite cmd_flag.
  - done.
  - done.
  - by split; unfold cmd; rewrite cmd_flag by done; destruct (offset =? 0)%nat, ((length bytes <=? offset + k)%nat && stop).
  - unfold cmd. by rewrite cmd_start_tx.
  - unfold cmd_data, field. change (mmio m5) with (mmio m4). unfold cmd. rewrite !cmd_flag by done.
    rewrite !R4, R3, P4, P3, K4. unfold w. rewrite (fget_fput (B:=B)) by (cbn; lia).
    rewrite En, Nat2Z.id. replace (S (k - 1)) with k by lia. rewrite P1.
    by destruct (offset =? 0)%nat, ((length bytes <=? offset + k)%nat && stop).
  - unfold cmd. rewrite cmd_flag by done. by destruct (offset =? 0)%nat, ((length bytes <=? offset + k)%nat && stop).
  - change (mmio m5) with (mmio m4). assert (ctl_bus (mmio m4) = ctl_bus (mmio m)) as -> by congruence.
    assert (D5 : same_drv m m5).
    { eapply same_drv_trans; [exact D1|]. unfold m5. rewrite E4. done. }
    intros r m6 (-> & W6 & S6 & D6). set (t := transmit _ _ _ _) in *.
    assert (sent_chunk (Z.land addr 0x7f) bytes stop offset k m (fault_result t.2) m6) as Hs.
    { split; [done|]. split; [done|]. split; [done|]. eapply same_drv_trans; [exact D5|exact D6]. }
    destruct t as [b2 [f|]]; cbn [fault_result snd] in *; [done|]. by apply finish_chunk.
Qed.

(** DMA mode has a buffer for the chunks of [n] bytes. *)
Definition dma_fits m (n : nat) : Prop :=
  xfer_mode m = DmaMode →
  ∃ a len, master_dma_buf m = Some (a, len) ∧ in_u32 a ∧ (Nat.min DMA_MODE_MAX_SIZE n ≤ len)%nat.

Lemma dma_buffer_found k a len m (Q : result (Z * nat) AstI2cError → Ast1060I2c H → Prop) :
  master_dma_buf m = Some (a, len) → (k ≤ len)%nat → Q (Ok (a, len)) m → dwp (dma_buffer k) Q m.
Proof.
  intros Hm Hk HQ. unfold dma_buffer. apply dwp_bind, dwp_reads. rewrite Hm. cbn beta iota.
  apply dwp_bind, dwp_lift. cbn beta iota delta [ok_or]. cbn [snd].
  rewrite (proj2 (Nat.leb_le k len) Hk). apply dwp_bind, dwp_require_true. by apply dwp_ret.
Qed.

Lemma dma_len_field k : (0 < k ≤ DMA_MODE_MAX_SIZE)%nat →
  as_u16 (Z.of_nat (k - 1)) = Z.of_nat (k - 1) ∧ 0 ≤ Z.of_nat (k - 1) ≤ 4095.
Proof. unfold DMA_MODE_MAX_SIZE. intros Hk. split; [apply as_u16_small; unfold in_u16, u16_MAX; lia|lia]. Qed.

Lemma arm_tx_fields a k m :
  (0 < k ≤ DMA_MODE_MAX_SIZE)%nat → in_u32 a → ctl_wait (mmio m) = 0%nat →
  dwp (arm_tx a k) (λ r m', r = Ok () ∧ m' = set_mmio (mmio m') m ∧ ctl_wait (mmio m') = 0%nat ∧
    ctl_bus (mmio m') = ctl_bus (mmio m) ∧ (∀ x, ram_rd (mmio m') x = ram_rd (mmio m) x) ∧
    field (mmio m') I2cm1c FDmatxBufLen = Z.of_nat (k - 1) ∧ field (mmio m') I2cm1c FDmatxBufLenWrEnbl = 1 ∧
    field (mmio m') I2cm30 FDmaBufferBase = a) m.
Proof.
  intros Hk Ha Hw. destruct (dma_len_field k Hk) as [El Hl]. unfold arm_tx. rewrite El.
  apply dwp_bind, dwp_wr. cbn beta iota. apply dwp_wr. cbn [mmio set_mmio]. unfold field.
  set (v := set_bit FDmatxBufLenWrEnbl _).
  destruct (wr_idle (B:=B) (mmio m) I2cm1c v) as (W1 & B1 & _ & _ & M1 & R1 & N1); [done..|].
  destruct (wr_idle (B:=B) (i2c_wr (mmio m) I2cm1c v) I2cm30 (fput FDmaBufferBase a (reset_value I2cm30)))
    as (W2 & B2 & _ & _ & M2 & R2 & N2); [done..|].
  split_and!; try done.
  - congruence.
  - intros x. by rewrite M2, M1.
  - rewrite N2, R1 by done. unfold v, set_bit. rewrite (fget_other (B:=B) _ _ I2cm1c) by done.
    by rewrite (fget_fput (B:=B)).
  - rewrite N2, R1 by done. unfold v, set_bit. by rewrite (fget_fput (B:=B)).
  - rewrite R2. by rewrite (fget_fput (B:=B)).
Qed.

Lemma write_dma_chunk_sends addr bytes stop offset k m a len :
  (offset + k ≤ length bytes)%nat → (0 < k ≤ DMA_MODE_MAX_SIZE)%nat →
  master_dma_buf m = Some (a, len) → in_u32 a → (k ≤ len)%nat → ctl_wait (mmio m) = 0%nat →
  dwp (write_dma_chunk addr bytes stop offset k) (sent_chunk (Z.land addr 0x7f) bytes stop offset k m) m.
Proof.
  intros Hl Hk Hm Ha Hlen Hw. destruct (slice_chunk bytes offset k Hl) as [Hsl Hcl].
  unfold write_dma_chunk. rewrite Hsl. set (chunk := take k (drop offset bytes)) in *.
  apply dwp_bind, dwp_lift. cbn beta iota delta [ok_or].
  apply dwp_bind. eapply dma_buffer_found; [exact Hm|done|]. cbn [fst].
  apply dwp_bind, dwp_writes. cbn beta iota. set (m1 := set_mmio _ m).
  pose proof (ram_load_store (B:=B) chunk a (mmio m) Hw) as P1. rewrite Hcl in P1.
  destruct (ram_store_ram (B:=B) chunk a (mmio m) Hw) as ((W1 & B1 & _) & _ & _).
  apply dwp_bind. eapply dwp_mono; [by apply (arm_tx_fields a k m1)|].
  intros r m2 (-> & E2 & W2 & B2 & M2 & F1 & F2 & F3). cbn beta iota.
  apply dwp_bind. eapply dwp_mono; [by apply (clear_all)|].
  intros r m3 (-> & E3 & W3 & S3 & B3 & _ & _ & M3 & R3). cbn beta iota.
  apply dwp_bind, dwp_writes. cbn beta iota. apply dwp_bind, dwp_wr. cbn beta iota.
  set (cmd := add_stop _ _). apply dwp_bind. set (m5 := set_completion false m3).
  eapply dwp_mono; [apply (issue_transmit m5 cmd _
    (start_at offset (Z.land addr 0x7f)) chunk ((length bytes <=? offset + k)%nat && stop))|].
  - by right.
  - unfold cmd. by rewrite cmd_flag.
  - unfold cmd. by rewrite cmd_flag.
  - done.
  - done.
  - unfold cmd_armed, field. change (mmio m5) with (mmio m3). rewrite R3. split; [done|].
    unfold cmd. rewrite cmd_flag by done. by destruct (offset =? 0)%nat, ((length bytes <=? offset + k)%nat && stop).
  - unfold cmd. by rewrite cmd_start_tx.
  - unfold cmd_data, field in *. change (mmio m5) with (mmio m3). unfold cmd. rewrite cmd_flag by done.
    rewrite !R3, F1, F3, Nat2Z.id. replace (S (k - 1)) with k by lia.
    rewrite (ram_load_ext (ram_store (mmio m) a chunk)) by (intros x; by rewrite M3, M2). by rewrite P1.
  - unfold cmd. rewrite cmd_flag by done. by destruct (offset =? 0)%nat, ((length bytes <=? offset + k)%nat && stop).
  - change (mmio m5) with (mmio m3). assert (ctl_bus (mmio m3) = ctl_bus (mmio m)) as -> by (cbn [mmio m1 set_mmio] in *; congruence).
    assert (D5 : same_drv m m5) by (unfold m5; rewrite E3, E2; done).
    intros r m6 (-> & W6 & S6 & D6). set (t := transmit _ _ _ _) in *.
    assert (sent_chunk (Z.land addr 0x7f) bytes stop offset k m (fault_result t.2) m6) as Hs.
    { split; [done|]. split; [done|]. split; [done|]. eapply same_drv_trans; [exact D5|exact D6]. }
    destruct t as [b2 [f|]]; cbn [fault_result snd] in *; [done|]. by apply finish_chunk.
Qed.

(** ** Writes *)

(** The whole write went out as one transfer. *)
Definition wrote (b : B) (a : Z) (bytes : list Z) (stop : bool) m (r : result unit AstI2cError) m' : Prop :=
  let t := transmit b (Some a) bytes stop in
  r = fault_result t.2 ∧ rests_on t.1 m' ∧ same_drv m m'.

Lemma chunk_loop_end max (body : nat → nat → i2c (H:=H) unit) total fuel offset :
  (total ≤ offset)%nat → chunk_loop max body total fuel offset = mret ().
Proof. intros Hl. destruct fuel; cbn [chunk_loop]; by rewrite (proj2 (Nat.ltb_ge offset total)) by lia. Qed.

Lemma write_chunks max (body : nat → nat → i2c unit) b a bytes stop m0 fuel offset m :
  (0 < max)%nat →
  (∀ offset k m, same_drv m0 m → (offset + k ≤ length bytes)%nat → (0 < k ≤ max)%nat →
     (k ≤ Nat.min max (length bytes))%nat → ctl_wait (mmio m) = 0%nat →
     dwp (body offset k) (sent_chunk a bytes stop offset k m) m) →
  (offset < length bytes)%nat → (length bytes ≤ offset + fuel)%nat → same_drv m0 m →
  ctl_wait (mmio m) = 0%nat → sent_so_far b a bytes offset = (ctl_bus (mmio m), None) →
  dwp (chunk_loop max body (length bytes) fuel offset) (wrote b a bytes stop m0) m.
Proof.
  intros Hmax Hbody. revert offset m. induction fuel as [|fuel IH]; intros offset m Ho Hf Hd Hw Hs; [lia|].
  cbn [chunk_loop]. rewrite (proj2 (Nat.ltb_lt _ _) Ho). set (k := Nat.min max (length bytes - offset)).
  assert (0 < k ≤ max ∧ offset + k ≤ length bytes ∧ k ≤ length bytes)%nat as (Hk1 & Hk2 & Hk3) by lia.
  apply dwp_bind. eapply dwp_mono; [apply (Hbody offset k m); try done; lia|].
  intros r m1 (-> & [W1 B1] & _ & D1).
  pose proof (transmit_step b a bytes stop offset k _ Hs Hk2 ltac:(lia)) as Hst. cbv zeta in Hst.
  set (t := transmit _ _ _ _) in *. destruct t as [b1 [f|]]; cbn [fault_result fst snd] in *.
  - unfold wrote. rewrite Hst. cbn. split; [done|]. split; [done|]. by eapply same_drv_trans.
  - destruct (Nat.leb_spec (length bytes) (offset + k)) as [Hlast|Hmore].
    + rewrite chunk_loop_end by done. apply dwp_ret. unfold wrote. rewrite Hst. cbn.
      split; [done|]. split; [done|]. by eapply same_drv_trans.
    + apply IH; try lia; [by eapply same_drv_trans|]. by rewrite B1.
Qed.

Lemma write_bytes addr b bytes stop m :
  bytes ≠ [] → Forall byte_ok bytes → rests_on b m → ctl_status (mmio m) = 0 →
  dwp (drv_for (imap pair bytes) (λ ib, write_byte addr (length bytes) stop ib.1 ib.2))
    (wrote b (Z.land addr 0x7f) bytes stop m) m.
Proof.
  intros Hne Hb [Hw Hbus] Hst. set (a := Z.land addr 0x7f).
  eapply (dwp_for (λ d m', same_drv m m' ∧ ctl_wait (mmio m') = 0%nat ∧ ctl_status (mmio m') = 0 ∧
    if (length bytes <=? length d)%nat then transmit b (Some a) bytes stop = (ctl_bus (mmio m'), None)
    else sent_so_far b a bytes (length d) = (ctl_bus (mmio m'), None))).
  - cbn [length]. rewrite (proj2 (Nat.leb_gt _ _)) by (destruct bytes; [done|cbn; lia]).
    split_and!; try done. unfold sent_so_far. cbn. congruence.
  - intros d [i x] rest m1 Himap (D1 & W1 & S1 & Hs).
    assert (length d = i ∧ bytes !! i = Some x) as [Hd Hi].
    { assert (imap pair bytes !! length d = Some (i, x)) as E.
      { rewrite Himap. rewrite lookup_app_r by done. by rewrite Nat.sub_diag. }
      rewrite list_lookup_imap in E. destruct (bytes !! length d) eqn:El; cbn in E; [|done].
      injection E as <- <-. done. }
    pose proof (lookup_lt_Some _ _ _ Hi) as Hlt. rewrite Hd in Hs. rewrite (proj2 (Nat.leb_gt _ _) Hlt) in Hs.
    cbn [fst snd]. eapply dwp_mono; [apply write_byte_sends; try done; by eapply Forall_lookup_1|].
    fold a. intros r m2 (-> & [W2 B2] & S2 & D2).
    pose proof (transmit_step b a bytes stop i 1 _ Hs ltac:(lia) ltac:(lia)) as Hts. cbv zeta in Hts.
    set (t := transmit _ _ _ _) in *. destruct t as [b1 [f|]]; cbn [fault_result fst snd] in *.
    + unfold wrote. rewrite Hts. cbn. split; [done|]. split; [done|]. by eapply same_drv_trans.
    + rewrite length_app, Hd. cbn [length]. split_and!; try done; [by eapply same_drv_trans|].
      rewrite B2. exact Hts.
  - intros m1 (D1 & W1 & S1 & Hs). rewrite length_imap, Nat.leb_refl in Hs.
    unfold wrote, rests_on. rewrite Hs. done.
Qed.

Lemma write_in_mode_wrote addr b bytes stop m :
  bytes ≠ [] → Forall byte_ok bytes → rests_on b m → dma_fits m (length bytes) →
  dwp (write_in_mode (xfer_mode m) addr bytes stop) (wrote b (Z.land addr 0x7f) bytes stop m) m.
Proof.
  intros Hne Hb [Hw Hbus] Hdma. assert (0 < length bytes)%nat as Hl by (destruct bytes; [done|cbn; lia]).
  destruct (xfer_mode m) eqn:Hmode; cbn [write_in_mode].
  - unfold write_byte_mode. apply dwp_bind, dwp_writes. cbn beta iota. apply dwp_bind, dwp_writes. cbn beta iota.
    apply dwp_bind. eapply dwp_mono; [by apply clear_all|]. cbn [mmio set_completion set_xfer].
    intros r m1 (-> & E1 & W1 & S1 & B1 & _). cbn beta iota.
    eapply dwp_mono; [apply (write_bytes addr b); try done; split; [done|congruence]|].
    intros r m2 (-> & O2 & D2). split; [done|]. split; [done|]. rewrite E1 in D2. exact D2.
  - unfold write_buffer_mode. apply dwp_bind, dwp_writes. cbn beta iota.
    eapply dwp_mono; [apply (write_chunks _ _ b (Z.land addr 0x7f) bytes stop (set_xfer addr (as_u32 (Z.of_nat (length bytes))) m));
      [unfold BUFFER_MODE_SIZE; lia| |lia|lia|done|done|unfold sent_so_far; cbn; congruence]|done].
    intros. apply write_buffer_chunk_sends; try done.
  - unfold write_dma_mode. apply dwp_bind, dwp_writes. cbn beta iota.
    destruct (Hdma Hmode) as (da & len & Hm & Ha & Hlen).
    eapply dwp_mono; [apply (write_chunks _ _ b (Z.land addr 0x7f) bytes stop (set_xfer addr (as_u32 (Z.of_nat (length bytes))) m));
      [unfold DMA_MODE_MAX_SIZE; lia| |lia|lia|done|done|unfold sent_so_far; cbn; congruence]|done].
    intros offset k m1 (E1 & E2 & _) ? ? ? ?. apply (write_dma_chunk_sends _ _ _ _ _ _ da len); try done; [|lia].
    rewrite E2. exact Hm.
Qed.
End xfer.
