(* ===== verification/AstI2cHal.v ===== *)
(** * AST1060 I2C: reads, and the [embedded_hal] operations

    Reads in every transfer mode, and with them [write], [read], [write_read] and
    [transaction] of the driver as transfers on the bus. *)

From S2P Require Import Prelude Bytes RegMonad Spim SpimRun Soc SocRun I2cWire I2cServer AstI2c AstI2cRun AstI2cMaster AstI2cXfer.
From stdpp Require Import base tactics option list numbers.
Local Open Scope Z_scope.

Lemma write_at_one i x (l : list Z) : (i < length l)%nat → write_at i [x] l = <[i := x]> l.
Proof.
  intros Hi. unfold write_at. cbn [length]. rewrite insert_take_drop by done.
  by replace (i + 1)%nat with (S i) by lia.
Qed.

Lemma write_at_next offset (l1 l2 l0 : list Z) :
  length l1 = offset → (offset + length l2 ≤ length l0)%nat →
  write_at offset l2 (l1 ++ drop offset l0) = (l1 ++ l2) ++ drop (offset + length l2) l0.
Proof.
  intros <- Hl. unfold write_at. rewrite take_app_length, drop_app_ge by lia.
  rewrite drop_drop. rewrite <- app_assoc. repeat f_equal. lia.
Qed.

Section reads.
Context {H B : Type} `{I2cHw H} `{I2cWires B} `{I2cCtl H B} `{!I2cCtlLaws H B}.
Implicit Types m : Ast1060I2c H.

Definition same_cfg m m' : Prop :=
  xfer_mode m' = xfer_mode m ∧ master_dma_buf m' = master_dma_buf m ∧ slave_dma_buf m' = slave_dma_buf m.

Lemma same_drv_cfg m m' : same_drv m m' → same_cfg m m' ∧ dst m' = dst m.
Proof. unfold same_drv, same_cfg. intuition. Qed.
Lemma same_cfg_trans m1 m2 m3 : same_cfg m1 m2 → same_cfg m2 m3 → same_cfg m1 m3.
Proof. unfold same_cfg. intuition congruence. Qed.

Lemma got_so_far_length (b : B) a offset b1 l1 : got_so_far b a offset = (b1, l1, None) → length l1 = offset.
Proof.
  unfold got_so_far. destruct (Nat.eqb_spec offset 0) as [->|_]; [by intros [= <- <-]|].
  intros Hr. pose proof (receive_length b (Some a) offset false) as Hl. by rewrite Hr in Hl.
Qed.

Lemma cmd_received_same h h' cmd n :
  same_data (B:=B) h h' → cmd_received (B:=B) h' cmd n = cmd_received (B:=B) h cmd n.
Proof.
  intros (E1 & E2 & E3 & E4). unfold cmd_received, field. rewrite E1, E2, !E4.
  by rewrite (ram_load_ext h h') by done.
Qed.

(** ** One command of a read *)

Lemma issue_receive m cmd (wait : i2c unit) start n fin :
  wait = wait_completion DEFAULT_TIMEOUT_US ∨ wait = wait_armed →
  has_flag cmd AST_I2CM_PKT_EN = true → has_flag cmd AST_I2CM_TX_CMD = false →
  has_flag cmd AST_I2CM_RX_CMD = true →
  ctl_wait (mmio m) = 0%nat → ctl_status (mmio m) = 0 → cmd_armed (mmio m) cmd →
  cmd_start cmd = start → cmd_count (mmio m) cmd = n → has_flag cmd AST_I2CM_STOP_CMD = fin →
  dwp wait (λ r m', let t := receive (ctl_bus (mmio m)) start n fin in
    r = fault_result t.2 ∧ rests_on t.1.1 m' ∧ ctl_status (mmio m') = 0 ∧ same_drv m m' ∧
    (∀ r, r ≠ I2cm18 → ctl_reg (mmio m') r = ctl_reg (mmio m) r) ∧
    (t.2 = None → cmd_received (mmio m') cmd n = t.1.2))
    (set_mmio (i2c_wr (mmio m) I2cm18 cmd) m).
Proof.
  intros Hwt Hp Ht Hrx Hw Hs Ha <- <- <-.
  destruct (wr_receive (mmio m) cmd Hp Ht Hrx Hw Hs Ha) as (Eb & Er & Ew & Ed & Eg).
  set (t := receive _ _ _ _) in *. set (m1 := set_mmio _ m).
  assert (dwp wait (λ r m', r = fault_result t.2 ∧ ctl_settles (B:=B) (mmio m1) (mmio m') ∧ same_drv m1 m') m1) as Hd.
  { destruct Hwt as [->| ->]; [by apply wait_done|by apply wait_armed_done]. }
  eapply dwp_mono; [exact Hd|]. intros r m' (-> & (S1 & S2 & S3 & S4) & D). cbn beta.
  unfold rests_on. cbn [mmio m1 set_mmio] in *. split_and!; try done; [congruence| |].
  - intros r Hr. destruct S4 as (_ & _ & _ & ->). by apply Eg.
  - intros Hn. rewrite (cmd_received_same _ _ _ _ S4). by apply Ed.
Qed.

(** [k] bytes from [offset] came in, in one command. *)
Definition got_chunk (a : Z) (offset k : nat) m (r : result unit AstI2cError) m' : Prop :=
  let t := receive (ctl_bus (mmio m)) (start_at offset a) k (length (dst m) <=? offset + k)%nat in
  r = fault_result t.2 ∧ rests_on t.1.1 m' ∧ ctl_status (mmio m') = 0 ∧ same_cfg m m' ∧
  length (dst m') = length (dst m) ∧ (t.2 = None → dst m' = write_at offset t.1.2 (dst m)).

Lemma read_byte_gets addr i m :
  (i < length (dst m))%nat → ctl_wait (mmio m) = 0%nat → ctl_status (mmio m) = 0 →
  dwp (read_byte addr (length (dst m)) i) (got_chunk (Z.land addr 0x7f) i 1 m) m.
Proof.
  intros Hi Hw Hs. unfold read_byte. set (cmd := add_last _ _).
  apply dwp_bind, dwp_wr. cbn beta iota. apply dwp_bind, dwp_writes. cbn beta iota. apply dwp_bind.
  eapply dwp_mono; [apply (issue_receive (set_completion false m) cmd _
    (start_at i (Z.land addr 0x7f)) 1 (length (dst m) <=? i + 1)%nat)|].
  - by left.
  - unfold cmd. by rewrite cmd_last_flag.
  - unfold cmd. rewrite cmd_last_flag by done. by destruct (i =? 0)%nat, (i =? length (dst m) - 1)%nat.
  - unfold cmd. by rewrite cmd_last_flag.
  - done.
  - done.
  - by split; unfold cmd; rewrite cmd_last_flag by done; destruct (i =? 0)%nat, (i =? length (dst m) - 1)%nat.
  - unfold cmd. by rewrite cmd_start_rx.
  - unfold cmd_count, cmd. rewrite !cmd_last_flag by done. by destruct (i =? 0)%nat, (i =? length (dst m) - 1)%nat.
  - unfold cmd. rewrite cmd_last_flag by done. replace (length (dst m) <=? i + 1)%nat with (i =? length (dst m) - 1)%nat.
    { by destruct (i =? 0)%nat, (i =? length (dst m) - 1)%nat. }
    apply eq_bool_prop_intro. rewrite !Is_true_true, Nat.eqb_eq, Nat.leb_le. lia.
  - change (mmio (set_completion false m)) with (mmio m). unfold got_chunk. set (t := receive _ _ _ _).
    intros r m1 (-> & [W1 B1] & S1 & [D1 Dd1]%same_drv_cfg & _ & Hgot). cbn beta iota.
    change (dst (set_completion false m)) with (dst m) in Dd1.
    destruct t as [[b1 l1] [f|]]; cbn [fault_result fst snd] in *; [split_and!; try done; congruence|].
    specialize (Hgot eq_refl). replace (cmd_received (mmio m1) cmd 1) with [ctl_rx (mmio m1)] in Hgot.
    2:{ unfold cmd_received, cmd. rewrite !cmd_last_flag by done. by destruct (i =? 0)%nat, (i =? length (dst m) - 1)%nat. }
    apply dwp_bind, dwp_rd. cbn beta iota. rewrite (rd_rx (B:=B)).
    destruct (rd_keeps (B:=B) (mmio m1) I2cc08) as (K1 & K2 & K3 & _). set (h2 := (i2c_rd (mmio m1) I2cc08).1) in *.
    apply dwp_bind, dwp_writes. cbn beta iota. apply dwp_bind, dwp_rd. cbn beta iota. cbn [mmio set_dst set_mmio].
    rewrite (rd_status (B:=B)) by lia. rewrite K2, S1, has_flag_0. apply dwp_bind, dwp_require_true. cbn beta iota.
    destruct (rd_keeps (B:=B) h2 I2cm14) as (L1 & L2 & L3 & _). apply dwp_writes.
    unfold rests_on. cbn [mmio set_dst set_mmio add_xfer_cnt dst]. rewrite Dd1, <- Hgot.
    split_and!; try done; [lia|congruence..|by rewrite length_insert|]. intros _. by rewrite write_at_one.
Qed.

Lemma fill_dst_got offset k (f : list Z → i2c (list Z)) l m (Q : result unit AstI2cError → Ast1060I2c H → Prop) :
  (offset + k ≤ length (dst m))%nat →
  dwp (f (take k (drop offset (dst m)))) (λ r m', r = Ok l ∧
    Q (Ok ()) (set_dst (write_at offset l (dst m)) m')) m →
  dwp (fill_dst offset k f) Q m.
Proof.
  intros Hl Hf. unfold fill_dst. apply dwp_bind, dwp_reads. cbn beta iota.
  destruct (slice_chunk (dst m) offset k Hl) as [-> _].
  apply dwp_bind, dwp_lift. cbn beta iota delta [ok_or]. apply dwp_bind.
  eapply dwp_mono; [exact Hf|]. intros r m' [-> HQ]. by apply dwp_writes.
Qed.

(** After the wait of a read: no error is latched, the bytes are copied out. *)
Lemma finish_read offset k (f : list Z → i2c (list Z)) l n m m1 (a : Z) :
  let t := receive (ctl_bus (mmio m)) (start_at offset a) k (length (dst m) <=? offset + k)%nat in
  t.2 = None → t.1.2 = l → (offset + k ≤ length (dst m))%nat →
  rests_on t.1.1 m1 → ctl_status (mmio m1) = 0 → same_cfg m m1 → dst m1 = dst m →
  (∀ m2, keeps (B:=B) (mmio m1) (mmio m2) → ctl_wait (mmio m2) = 0%nat →
    dwp (f (take k (drop offset (dst m)))) (λ r m', r = Ok l ∧ keeps (B:=B) (mmio m2) (mmio m') ∧ same_drv m2 m') m2) →
  dwp (check_chunk;; fill_dst offset k f;; writes (add_xfer_cnt n)) (got_chunk a offset k m) m1.
Proof.
  intros t Hn Hl Hle [W1 B1] S1 C1 D1 Hf.
  apply dwp_bind. eapply dwp_mono; [by apply check_chunk_quiet|].
  intros r m2 (-> & K2 & [C2 D2]%same_drv_cfg). cbn beta iota.
  assert (ctl_wait (mmio m2) = 0%nat) as W2 by (destruct K2 as (_ & _ & ? & _); lia).
  apply dwp_bind. eapply (fill_dst_got _ _ _ l); [by rewrite D2, D1|]. rewrite D2, D1.
  eapply dwp_mono; [by apply Hf|]. intros r m3 (-> & K3 & [C3 D3]%same_drv_cfg). split; [done|].
  apply dwp_writes. unfold got_chunk. fold t. unfold rests_on. cbn [mmio set_dst add_xfer_cnt dst].
  destruct (keeps_trans _ _ _ K2 K3) as (E1 & E2 & E3 & _).
  assert (length l = k) as Hlen.
  { pose proof (receive_length (ctl_bus (mmio m)) (start_at offset a) k (length (dst m) <=? offset + k)%nat) as Hr.
    fold t in Hr. destruct t as [[bt lt] [?|]]; cbn in *; [done|congruence]. }
  rewrite Hn, Hl. split_and!; try done; [lia|congruence|congruence| |].
  - exact (same_cfg_trans _ _ _ C1 (same_cfg_trans _ _ _ C2 C3)).
  - rewrite length_write_at; [done|lia].
Qed.

Lemma read_buffer_chunk_gets addr offset k m :
  (offset + k ≤ length (dst m))%nat → (0 < k ≤ BUFFER_MODE_SIZE)%nat → ctl_wait (mmio m) = 0%nat →
  dwp (read_buffer_chunk addr offset k) (got_chunk (Z.land addr 0x7f) offset k m) m.
Proof.
  intros Hl Hk Hw. unfold BUFFER_MODE_SIZE in Hk. unfold read_buffer_chunk. apply dwp_bind, dwp_reads. cbn beta iota.
  apply dwp_bind. apply dwp_bind, dwp_rd. cbn beta iota.
  destruct (rd_keeps (B:=B) (mmio m) I2cc0c) as (K1 & K2 & K3 & _).
  rewrite (rd_holds (B:=B)) by done. set (h2 := (i2c_rd (mmio m) I2cc0c).1) in *.
  set (n := as_u8 (Z.of_nat (k - 1))). assert (n = Z.of_nat (k - 1)) as En.
  { apply as_u8_small. unfold in_u8, u8_MAX. lia. }
  apply dwp_wr. cbn [mmio set_mmio]. set (w := fput FRxPoolBufferSize n _).
  destruct (wr_idle (B:=B) h2 I2cc0c w) as (W3 & B3 & _ & P3 & _ & R3 & _); [done|lia|].
  set (h3 := i2c_wr h2 I2cc0c w) in *.
  apply dwp_bind. eapply dwp_mono; [by apply clear_all|]. cbn [mmio set_mmio].
  intros r m4 (-> & E4 & W4 & S4 & B4 & _ & _ & _ & R4). cbn beta iota.
  apply dwp_bind, dwp_writes. cbn beta iota. apply dwp_bind, dwp_wr. cbn beta iota.
  set (cmd := add_last _ _). apply dwp_bind. set (m5 := set_completion false m4).
  assert (same_cfg m m5 ∧ dst m5 = dst m) as [C5 D5] by (unfold m5; rewrite E4; done).
  eapply dwp_mono; [apply (issue_receive m5 cmd _
    (start_at offset (Z.land addr 0x7f)) k (length (dst m) <=? offset + k)%nat)|].
  - by left.
  - unfold cmd. by rewrite cmd_last_flag.
  - unfold cmd. rewrite cmd_last_flag by done. by destruct (offset =? 0)%nat, (length (dst m) <=? offset + k)%nat.
  - unfold cmd. by rewrite cmd_last_flag.
  - done.
  - done.
  - by split; unfold cmd; rewrite cmd_last_flag by done; destruct (offset =? 0)%nat, (length (dst m) <=? offset + k)%nat.
  - unfold cmd. by rewrite cmd_start_rx.
  - unfold cmd_count, field. change (mmio m5) with (mmio m4). unfold cmd. rewrite !cmd_last_flag by done.
    rewrite !R4, R3. unfold w. rewrite (fget_fput (B:=B)) by (cbn; lia). rewrite En, Nat2Z.id.
    replace (S (k - 1)) with k by lia. by destruct (offset =? 0)%nat, (length (dst m) <=? offset + k)%nat.
  - unfold cmd. rewrite cmd_last_flag by done. by destruct (offset =? 0)%nat, (length (dst m) <=? offset + k)%nat.
  - change (mmio m5) with (mmio m4). assert (ctl_bus (mmio m4) = ctl_bus (mmio m)) as -> by congruence.
    intros r m6 (-> & O6 & S6 & [C6 D6]%same_drv_cfg & _ & Hgot).
    pose proof (finish_read offset k copy_from_buffer) as Hfin.
    specialize (λ l n, Hfin l n m m6 (Z.land addr 0x7f)). cbv zeta in Hfin.
    set (t := receive _ _ _ _) in *.
    assert (same_cfg m m6) as Cm by (by eapply same_cfg_trans). rewrite D5 in D6.
    destruct (t.2) as [f|] eqn:Et; cbn [fault_result].
    { unfold got_chunk. fold t. rewrite Et. split_and!; try done. congruence. }
    specialize (Hgot eq_refl). apply (Hfin t.1.2); try done. intros m7 K7 W7.
    eapply dwp_mono; [apply (copy_from_buffer_pool (B:=B)); rewrite length_take, length_drop; lia|].
    intros r m8 (K8 & D8 & ->). split_and!; try done. f_equal.
    rewrite length_take, length_drop, Nat.min_l by lia. rewrite <- Hgot.
    unfold cmd_received, cmd. rewrite !cmd_last_flag by done.
    replace (ctl_pool (mmio m7)) with (ctl_pool (mmio m6)) by (symmetry; apply K7).
    by destruct (offset =? 0)%nat, (length (dst m) <=? offset + k)%nat.
Qed.

Lemma arm_rx_fields a k m :
  (0 < k ≤ DMA_MODE_MAX_SIZE)%nat → in_u32 a → ctl_wait (mmio m) = 0%nat →
  dwp (arm_rx a k) (λ r m', r = Ok () ∧ m' = set_mmio (mmio m') m ∧ ctl_wait (mmio m') = 0%nat ∧
    ctl_bus (mmio m') = ctl_bus (mmio m) ∧
    field (mmio m') I2cm1c FDmarxBufLen = Z.of_nat (k - 1) ∧ field (mmio m') I2cm1c FDmarxBufLenWrEnbl = 1 ∧
    field (mmio m') I2cm34 FDmaBufferBase1 = a) m.
Proof.
  intros Hk Ha Hw. destruct (dma_len_field k Hk) as [El Hl]. unfold arm_rx. rewrite El.
  apply dwp_bind. apply dwp_bind, dwp_rd. cbn beta iota.
  destruct (rd_keeps (B:=B) (mmio m) I2cm1c) as (K1 & _ & K3 & _). set (h1 := (i2c_rd (mmio m) I2cm1c).1) in *.
  apply dwp_wr. cbn [mmio set_mmio]. set (v := set_bit FDmarxBufLenWrEnbl _).
  destruct (wr_idle (B:=B) h1 I2cm1c v) as (W1 & B1 & _ & _ & M1 & R1 & N1); [done|lia|].
  set (h2 := i2c_wr h1 I2cm1c v) in *. apply dwp_bind, dwp_rd. cbn beta iota.
  destruct (rd_keeps (B:=B) h2 I2cm34) as (L1 & _ & L3 & _ & _ & _ & L4). cbn [mmio set_mmio].
  set (h3 := (i2c_rd h2 I2cm34).1) in *. set (w := (i2c_rd h2 I2cm34).2).
  apply dwp_wr. cbn [mmio set_mmio]. unfold field.
  destruct (wr_idle (B:=B) h3 I2cm34 (fput FDmaBufferBase1 a w)) as (W2 & B2 & _ & _ & M2 & R2 & N2); [done|lia|].
  split_and!; try done.
  - congruence.
  - rewrite N2, L4, R1 by done. unfold v, set_bit. rewrite (fget_other (B:=B) _ _ I2cm1c) by done.
    by rewrite (fget_fput (B:=B)).
  - rewrite N2, L4, R1 by done. unfold v, set_bit. by rewrite (fget_fput (B:=B)).
  - rewrite R2. by rewrite (fget_fput (B:=B)).
Qed.

Lemma read_dma_chunk_gets addr offset k m a len :
  (offset + k ≤ length (dst m))%nat → (0 < k ≤ DMA_MODE_MAX_SIZE)%nat →
  master_dma_buf m = Some (a, len) → in_u32 a → (k ≤ len)%nat → ctl_wait (mmio m) = 0%nat →
  dwp (read_dma_chunk addr offset k) (got_chunk (Z.land addr 0x7f) offset k m) m.
Proof.
  intros Hl Hk Hm Ha Hlen Hw. unfold read_dma_chunk. apply dwp_bind, dwp_reads. cbn beta iota.
  apply dwp_bind. eapply dma_buffer_found; [exact Hm|done|]. cbn [fst].
  apply dwp_bind. eapply dwp_mono; [by apply (arm_rx_fields a k m)|].
  intros r m2 (-> & E2 & W2 & B2 & F1 & F2 & F3). cbn beta iota.
  apply dwp_bind. eapply dwp_mono; [by apply clear_all|].
  intros r m4 (-> & E4 & W4 & S4 & B4 & _ & _ & _ & R4). cbn beta iota.
  apply dwp_bind, dwp_writes. cbn beta iota. apply dwp_bind, dwp_wr. cbn beta iota.
  set (cmd := add_last _ _). apply dwp_bind. set (m5 := set_completion false m4).
  assert (same_cfg m m5 ∧ dst m5 = dst m) as [C5 D5] by (unfold m5; rewrite E4, E2; done).
  eapply dwp_mono; [apply (issue_receive m5 cmd _
    (start_at offset (Z.land addr 0x7f)) k (length (dst m) <=? offset + k)%nat)|].
  - by right.
  - unfold cmd. by rewrite cmd_last_flag.
  - unfold cmd. rewrite cmd_last_flag by done. by destruct (offset =? 0)%nat, (length (dst m) <=? offset + k)%nat.
  - unfold cmd. by rewrite cmd_last_flag.
  - done.
  - done.
  - unfold cmd_armed, field. change (mmio m5) with (mmio m4). rewrite R4. split; [|done].
    unfold cmd. rewrite cmd_last_flag by done. by destruct (offset =? 0)%nat, (length (dst m) <=? offset + k)%nat.
  - unfold cmd. by rewrite cmd_start_rx.
  - unfold cmd_count, field in *. change (mmio m5) with (mmio m4). unfold cmd. rewrite cmd_last_flag by done.
    rewrite !R4, F1, Nat2Z.id. by replace (S (k - 1)) with k by lia.
  - unfold cmd. rewrite cmd_last_flag by done. by destruct (offset =? 0)%nat, (length (dst m) <=? offset + k)%nat.
  - change (mmio m5) with (mmio m4). assert (ctl_bus (mmio m4) = ctl_bus (mmio m)) as -> by congruence.
    intros r m6 (-> & O6 & S6 & [C6 D6]%same_drv_cfg & Hreg & Hgot).
    pose proof (finish_read offset k (λ _, reads (λ m, ram_load (mmio m) a k))) as Hfin.
    specialize (λ l n, Hfin l n m m6 (Z.land addr 0x7f)). cbv zeta in Hfin.
    set (t := receive _ _ _ _) in *.
    assert (same_cfg m m6) as Cm by (by eapply same_cfg_trans). rewrite D5 in D6.
    destruct (t.2) as [f|] eqn:Et; cbn [fault_result].
    { unfold got_chunk. fold t. rewrite Et. split_and!; try done. congruence. }
    specialize (Hgot eq_refl). apply (Hfin t.1.2); try done. intros m7 K7 W7.
    apply dwp_reads. split; [|split; [apply keeps_refl|done]]. f_equal. rewrite <- Hgot.
    unfold cmd_received, field in *. rewrite Hreg by done. change (mmio m5) with (mmio m4).
    rewrite R4, F3. unfold cmd. rewrite cmd_last_flag by done. cbn [orb].
    change (has_flag _ AST_I2CM_RX_DMA_EN) with true at 1. cbn [orb].
    apply ram_load_ext. apply K7.
Qed.

(** ** Reads *)

(** The whole read came in as one transfer.  After an error the slice keeps its
    length; what was received before is in it. *)
Definition got (b : B) (a : Z) m (r : result unit AstI2cError) m' : Prop :=
  let t := receive b (Some a) (length (dst m)) true in
  r = fault_result t.2 ∧ rests_on t.1.1 m' ∧ same_cfg m m' ∧ length (dst m') = length (dst m) ∧
  (t.2 = None → dst m' = t.1.2).

(** The state between two commands of a read. *)
Definition read_progress (b : B) (a : Z) m0 (offset : nat) m : Prop :=
  same_cfg m0 m ∧ ctl_wait (mmio m) = 0%nat ∧
  ∃ l1, got_so_far b a offset = (ctl_bus (mmio m), l1, None) ∧ dst m = l1 ++ drop offset (dst m0).

Lemma reading_length b a m0 offset m :
  (offset ≤ length (dst m0))%nat → read_progress b a m0 offset m → length (dst m) = length (dst m0).
Proof.
  intros Ho (_ & _ & l1 & Hg & ->). rewrite length_app, length_drop, (got_so_far_length _ _ _ _ _ Hg). lia.
Qed.

(** A command of a read leads to the next one or to the end. *)
Lemma reading_step b a m0 offset k m r m1 :
  read_progress b a m0 offset m → (offset + k ≤ length (dst m0))%nat → (0 < k)%nat → got_chunk a offset k m r m1 →
  match r with
  | Err e => got b a m0 (Err e) m1
  | Ok _ => if (length (dst m0) <=? offset + k)%nat then got b a m0 (Ok ()) m1 else read_progress b a m0 (offset + k) m1
  end.
Proof.
  intros Hrd Hle Hk Hgc. assert (length (dst m) = length (dst m0)) as Hlen by (eapply reading_length; [|exact Hrd]; lia).
  destruct Hrd as (C0 & W0 & l1 & Hg & Hd). unfold got_chunk in Hgc. rewrite Hlen in Hgc.
  pose proof (got_so_far_length _ _ _ _ _ Hg) as Hl1.
  pose proof (receive_step b a (length (dst m0)) offset k _ l1 Hg Hle Hk) as Hst. cbv zeta in Hst, Hgc.
  pose proof (receive_length (ctl_bus (mmio m)) (start_at offset a) k (length (dst m0) <=? offset + k)%nat) as Hrl.
  set (t := receive _ _ _ _) in *. destruct Hgc as (-> & O1 & _ & C1 & Hdl & Hdst).
  assert (same_cfg m0 m1) as Cm by (by eapply same_cfg_trans).
  destruct t as [[b2 l2] [f|]]; cbn [fault_result fst snd] in *.
  - unfold got. rewrite Hst. cbn. split_and!; try done.
  - assert (dst m1 = (l1 ++ l2) ++ drop (offset + k) (dst m0)) as Hd1.
    { rewrite Hdst by done. rewrite Hd. rewrite write_at_next by lia. by rewrite Hrl. }
    destruct (Nat.leb_spec (length (dst m0)) (offset + k)).
    + unfold got. rewrite Hst. cbn. split_and!; try done. intros _. rewrite Hd1.
      by rewrite (drop_ge (dst m0)), app_nil_r by lia.
    + destruct O1 as [W1 B1]. unfold read_progress. rewrite B1. eauto.
Qed.

Lemma reading_start b a m : rests_on b m → read_progress b a m 0 m.
Proof. intros [Hw Hb]. split; [done|]. split; [done|]. exists []. unfold got_so_far. cbn. by rewrite Hb. Qed.

Lemma read_chunks max (body : nat → nat → i2c unit) b a m0 fuel offset m :
  (0 < max)%nat →
  (∀ offset k m, same_cfg m0 m → length (dst m) = length (dst m0) → (offset + k ≤ length (dst m0))%nat →
     (0 < k ≤ max)%nat → (k ≤ Nat.min max (length (dst m0)))%nat → ctl_wait (mmio m) = 0%nat →
     dwp (body offset k) (got_chunk a offset k m) m) →
  (offset < length (dst m0))%nat → (length (dst m0) ≤ offset + fuel)%nat → read_progress b a m0 offset m →
  dwp (chunk_loop max body (length (dst m0)) fuel offset) (got b a m0) m.
Proof.
  intros Hmax Hbody. revert offset m. induction fuel as [|fuel IH]; intros offset m Ho Hf Hrd; [lia|].
  cbn [chunk_loop]. rewrite (proj2 (Nat.ltb_lt _ _) Ho). set (k := Nat.min max (length (dst m0) - offset)).
  assert (0 < k ≤ max ∧ offset + k ≤ length (dst m0) ∧ k ≤ length (dst m0))%nat as (Hk1 & Hk2 & Hk3) by lia.
  apply dwp_bind. eapply dwp_mono.
  { apply (Hbody offset k m); try lia; try apply Hrd. eapply reading_length; [|exact Hrd]. lia. }
  intros r m1 Hgc. pose proof (reading_step _ _ _ _ _ _ _ _ Hrd Hk2 ltac:(lia) Hgc) as Hst.
  destruct r as [[]|e]; [|done]. destruct (Nat.leb_spec (length (dst m0)) (offset + k)).
  - rewrite chunk_loop_end by done. by apply dwp_ret.
  - by apply IH; [lia..|].
Qed.

Lemma read_bytes addr b m :
  dst m ≠ [] → rests_on b m → ctl_status (mmio m) = 0 →
  dwp (drv_for (seq 0 (length (dst m))) (read_byte addr (length (dst m)))) (got b (Z.land addr 0x7f) m) m.
Proof.
  intros Hne Hob Hst. set (a := Z.land addr 0x7f). set (n := length (dst m)).
  assert (0 < n)%nat as Hn by (unfold n; destruct (dst m); [done|cbn; lia]).
  eapply (dwp_for (λ d m', ctl_status (mmio m') = 0 ∧
    if (n <=? length d)%nat then got b a m (Ok ()) m' else read_progress b a m (length d) m')).
  - cbn [length]. rewrite (proj2 (Nat.leb_gt _ _)) by lia. split; [done|]. by apply reading_start.
  - intros d i rest m1 Hsq (S1 & Hrd).
    assert (length d = i ∧ (i < n)%nat) as [Hd Hi].
    { assert (seq 0 n !! length d = Some i) as E.
      { rewrite Hsq. rewrite lookup_app_r by done. by rewrite Nat.sub_diag. }
      apply lookup_seq in E as [-> ?]. done. }
    rewrite Hd in Hrd. rewrite (proj2 (Nat.leb_gt _ _) Hi) in Hrd.
    assert (length (dst m1) = n) as Hl1 by (eapply reading_length; [|exact Hrd]; lia).
    rewrite <- Hl1. eapply dwp_mono; [apply read_byte_gets; [by rewrite Hl1|apply Hrd|done]|]. fold a. rewrite Hl1.
    intros r m2 Hgc. pose proof (reading_step _ _ _ _ 1 _ _ _ Hrd ltac:(fold n; lia) ltac:(lia) Hgc) as Hstep.
    fold n in Hstep. destruct r as [[]|e]; [|done]. rewrite length_app, Hd. cbn [length].
    split; [apply Hgc|done].
  - intros m1 [_ Hg]. rewrite length_seq, Nat.leb_refl in Hg. done.
Qed.

Lemma read_in_mode_got addr b m :
  dst m ≠ [] → rests_on b m → dma_fits m (length (dst m)) →
  dwp (read_in_mode (xfer_mode m) addr) (got b (Z.land addr 0x7f) m) m.
Proof.
  intros Hne Hob Hdma. assert (0 < length (dst m))%nat as Hl by (destruct (dst m); [done|cbn; lia]).
  destruct (xfer_mode m) eqn:Hmode; cbn [read_in_mode].
  - unfold read_byte_mode. apply dwp_bind, dwp_reads. cbn beta iota. apply dwp_bind, dwp_writes. cbn beta iota.
    apply dwp_bind, dwp_writes. cbn beta iota. destruct Hob as [Hw Hb].
    apply dwp_bind. eapply dwp_mono; [by apply clear_all|]. cbn [mmio set_completion set_xfer].
    intros r m1 (-> & E1 & W1 & S1 & B1 & _). cbn beta iota.
    assert (dst m1 = dst m ∧ same_cfg m m1) as [D1 C1] by (rewrite E1; done). rewrite <- D1.
    eapply dwp_mono; [apply (read_bytes addr b); [by rewrite D1|split; [done|congruence]|done]|].
    unfold got. rewrite D1. intros r m2 (-> & O2 & C2 & L2). split; [done|]. split; [done|]. split; [|done].
    by eapply same_cfg_trans.
  - unfold read_buffer_mode. apply dwp_bind, dwp_reads. cbn beta iota. apply dwp_bind, dwp_writes. cbn beta iota.
    set (m0 := set_xfer _ _ m). change (length (dst m)) with (length (dst m0)).
    eapply dwp_mono; [apply (read_chunks _ _ b (Z.land addr 0x7f) m0);
      [unfold BUFFER_MODE_SIZE; lia| |done|lia|by apply reading_start]|done].
    intros offset k m1 C1 L1 ? ? ? ?. apply read_buffer_chunk_gets; try done. lia.
  - unfold read_dma_mode. apply dwp_bind, dwp_reads. cbn beta iota. apply dwp_bind, dwp_writes. cbn beta iota.
    set (m0 := set_xfer _ _ m). change (length (dst m)) with (length (dst m0)).
    destruct (Hdma Hmode) as (da & len & Hm & Ha & Hlen).
    eapply dwp_mono; [apply (read_chunks _ _ b (Z.land addr 0x7f) m0);
      [unfold DMA_MODE_MAX_SIZE; lia| |done|lia|by apply reading_start]|done].
    intros offset k m1 (C1 & C2 & _) L1 ? ? ? ?. apply (read_dma_chunk_gets _ _ _ _ da len); try done; [lia| |].
    + rewrite C2. exact Hm.
    + change (length (dst m0)) with (length (dst m)) in *. lia.
Qed.

(** ** The operations *)

(** A write, a read, and a write followed by a read, as transfers. *)
Definition wires_write (b : B) (a : Z) (bytes : list Z) : B * option bus_fault :=
  match bytes with [] => (b, None) | _ => transmit b (Some a) bytes true end.
Definition wires_read (b : B) (a : Z) (n : nat) : B * list Z * option bus_fault :=
  match n with O => (b, [], None) | _ => receive b (Some a) n true end.
Definition wires_write_read (b : B) (a : Z) (bytes : list Z) (n : nat) : B * list Z * option bus_fault :=
  match match bytes with [] => (b, None) | _ => transmit b (Some a) bytes false end with
  | (b, Some f) => (b, [], Some f)
  | (b, None) => wires_read b a n
  end.

Lemma ast_write_transfers addr b bytes m :
  rests_on b m → Forall byte_ok bytes → dma_fits m (length bytes) →
  dwp (ast_write addr bytes) (λ r m', let t := wires_write b (Z.land addr 0x7f) bytes in
    r = fault_result t.2 ∧ rests_on t.1 m' ∧ same_drv m m') m.
Proof.
  intros Hob Hb Hdma. unfold ast_write. destruct bytes as [|x l]; [by apply dwp_ret|]. cbn [length Nat.eqb wires_write].
  apply dwp_bind, dwp_reads. cbn beta iota. by apply write_in_mode_wrote.
Qed.

Lemma ast_read_transfers addr b m :
  rests_on b m → dma_fits m (length (dst m)) →
  dwp (ast_read addr) (λ r m', let t := wires_read b (Z.land addr 0x7f) (length (dst m)) in
    r = fault_result t.2 ∧ rests_on t.1.1 m' ∧ same_cfg m m' ∧ length (dst m') = length (dst m) ∧
    (t.2 = None → dst m' = t.1.2)) m.
Proof.
  intros Hob Hdma. unfold ast_read. apply dwp_bind, dwp_reads. cbn beta iota.
  destruct (dst m) as [|x l] eqn:Ed; cbn [length Nat.eqb wires_read].
  - apply dwp_ret. rewrite Ed. done.
  - apply dwp_bind, dwp_reads. cbn beta iota.
    eapply dwp_mono; [apply (read_in_mode_got addr b); rewrite ?Ed; done|].
    unfold got. rewrite Ed. done.
Qed.

(** An empty phase does nothing on the bus. *)
Lemma write_in_mode_empty mode addr b stop m :
  rests_on b m → dwp (write_in_mode mode addr [] stop) (λ r m', r = Ok () ∧ rests_on b m' ∧ same_drv m m') m.
Proof.
  intros [Hw Hb]. destruct mode; cbn [write_in_mode]; [|by apply dwp_bind, dwp_writes, dwp_ret..].
  unfold write_byte_mode. do 2 (apply dwp_bind, dwp_writes; cbn beta iota).
  apply dwp_bind. eapply dwp_mono; [by apply clear_all|]. cbn [mmio set_completion set_xfer].
  intros r m1 (-> & E1 & W1 & _ & B1 & _). apply dwp_ret. split; [done|]. split; [|by rewrite E1].
  split; [done|congruence].
Qed.

Lemma read_in_mode_empty mode addr b m :
  dst m = [] → rests_on b m →
  dwp (read_in_mode mode addr) (λ r m', r = Ok () ∧ rests_on b m' ∧ same_drv m m') m.
Proof.
  intros Hd [Hw Hb]. destruct mode; cbn [read_in_mode].
  2,3: apply dwp_bind, dwp_reads; rewrite Hd; by apply dwp_bind, dwp_writes, dwp_ret.
  unfold read_byte_mode. apply dwp_bind, dwp_reads. rewrite Hd. do 2 (apply dwp_bind, dwp_writes; cbn beta iota).
  apply dwp_bind. eapply dwp_mono; [by apply clear_all|]. cbn [mmio set_completion set_xfer].
  intros r m1 (-> & E1 & W1 & _ & B1 & _). apply dwp_ret. split; [done|]. split; [|by rewrite E1].
  split; [done|congruence].
Qed.

Lemma dma_fits_cfg m m' n : same_cfg m m' → dma_fits m n → dma_fits m' n.
Proof. intros (E1 & E2 & _) Hd. unfold dma_fits. by rewrite E1, E2. Qed.

(** A write and a read in the mode of the driver are the transfers [wires_write_read]
    names: the read starts on the bus the write left held. *)
Lemma ast_write_read_transfers addr b bytes m :
  rests_on b m → Forall byte_ok bytes → dma_fits m (length bytes) → dma_fits m (length (dst m)) →
  dwp (ast_write_read addr bytes) (λ r m',
    let t := wires_write_read b (Z.land addr 0x7f) bytes (length (dst m)) in
    r = fault_result t.2 ∧ rests_on t.1.1 m' ∧ same_cfg m m' ∧ length (dst m') = length (dst m) ∧
    (t.2 = None → dst m' = t.1.2)) m.
Proof.
  intros Hob Hb Hd1 Hd2. unfold ast_write_read, wires_write_read.
  apply dwp_bind, dwp_reads. cbn beta iota. set (a := Z.land addr 0x7f).
  set (t1 := match bytes with [] => _ | _ => _ end).
  apply dwp_bind, (dwp_mono _ (λ r m', r = fault_result t1.2 ∧ rests_on t1.1 m' ∧ same_drv m m')).
  { destruct bytes as [|x l]; [by apply write_in_mode_empty|]. by apply write_in_mode_wrote. }
  intros r m1 (-> & O1 & [C1 D1]%same_drv_cfg). destruct t1 as [b1 [f|]]; cbn [fault_result fst snd] in *.
  { split_and!; try done. by rewrite D1. }
  apply dwp_bind, dwp_reads. cbn beta iota. rewrite <- D1 in *. destruct (dst m1) as [|x l] eqn:Ed.
  - eapply dwp_mono; [by apply (read_in_mode_empty _ _ b1)|]. intros r m2 (-> & O2 & [C2 D2]%same_drv_cfg).
    cbn [length wires_read fst snd fault_result]. rewrite D2, Ed. split_and!; try done. by eapply same_cfg_trans.
  - eapply dwp_mono; [apply (read_in_mode_got addr b1); rewrite ?Ed; [done|done|by eapply dma_fits_cfg]|].
    unfold got. rewrite Ed. cbn [length wires_read]. intros r m2 (-> & O2 & C2 & L2 & Dst). split_and!; try done.
    by eapply same_cfg_trans.
Qed.

(** ** Transactions *)

(** The operations of a transaction, each its own transfer. *)
Fixpoint wires_ops (b : B) (a : Z) (ops : list Operation) : B * list Operation * option bus_fault :=
  match ops with
  | [] => (b, [], None)
  | OpWrite data :: rest =>
      match wires_write b a data with
      | (b, Some f) => (b, OpWrite data :: rest, Some f)
      | (b, None) => let '(b, ops, f) := wires_ops b a rest in (b, OpWrite data :: ops, f)
      end
  | OpRead buf :: rest =>
      match wires_read b a (length buf) with
      | (b, _, Some f) => (b, OpRead buf :: rest, Some f)
      | (b, l, None) => let '(b, ops, f) := wires_ops b a rest in (b, OpRead l :: ops, f)
      end
  end.

(** What an operation needs: bytes, and a DMA buffer that holds its chunks. *)
Definition op_fits m (o : Operation) : Prop :=
  match o with
  | OpWrite data => Forall byte_ok data ∧ dma_fits m (length data)
  | OpRead buf => dma_fits m (length buf)
  end.

Lemma op_fits_cfg m m' ops : same_cfg m m' → Forall (op_fits m) ops → Forall (op_fits m') ops.
Proof.
  intros Hc. apply Forall_impl. intros [data|buf]; unfold op_fits; intuition eauto using dma_fits_cfg.
Qed.

(** The outcome of a transaction. *)
Definition transacted (b : B) (a : Z) (ops : list Operation) m
    (r : result (list Operation) (AstI2cError * list Operation)) m' : Prop :=
  let t := wires_ops b a ops in
  rests_on t.1.1 m' ∧ same_cfg m m' ∧
  match t.2 with
  | None => r = Ok t.1.2
  | Some f => ∃ ops', r = Err (fault_error f, ops') ∧ Forall2 op_lent ops ops'
  end.

Lemma op_lent_refl ops : Forall2 op_lent ops ops.
Proof. induction ops as [|[]]; constructor; done. Qed.

Lemma transaction_transfers addr b ops m :
  rests_on b m → Forall (op_fits m) ops →
  dwp (ast_transaction addr ops) (transacted b (Z.land addr 0x7f) ops m) m.
Proof.
  set (a := Z.land addr 0x7f). revert b m. induction ops as [|[data|buf] rest IH]; intros b m Hob Hfit.
  - done.
  - apply List.Forall_cons_iff in Hfit as [[Hb Hd] Hrest]. unfold dwp. cbn [ast_transaction].
    pose proof (ast_write_transfers addr b data m Hob Hb Hd) as Hw. fold a in Hw. unfold dwp in Hw.
    destruct (ast_write addr data m) as [[m1 r]|]; [|done]. destruct Hw as (-> & O1 & [C1 _]%same_drv_cfg).
    unfold transacted. cbn [wires_ops].
    destruct (wires_write b a data) as [b1 [f|]]; cbn [fault_result fst snd] in *.
    { split_and!; try done. eexists. split; [done|]. apply op_lent_refl. }
    pose proof (IH b1 m1 O1 (op_fits_cfg _ _ _ C1 Hrest)) as Hr. unfold dwp, transacted in Hr.
    destruct (ast_transaction addr rest m1) as [[m2 r]|]; [|done].
    destruct (wires_ops b1 a rest) as [[b2 ops'] [f|]]; cbn [fst snd] in *; destruct Hr as (O2 & C2 & Hr).
    + destruct Hr as (ops2 & -> & Hl). split_and!; [done|by eapply same_cfg_trans|]. eexists. split; [done|]. by constructor.
    + subst r. split_and!; [done|by eapply same_cfg_trans|done].
  - apply List.Forall_cons_iff in Hfit as [Hd Hrest]. unfold dwp. cbn [ast_transaction].
    change ((lend buf;; ast_read addr) m) with (ast_read addr (set_dst buf m)).
    pose proof (ast_read_transfers addr b (set_dst buf m) Hob Hd) as Hw. fold a in Hw. unfold dwp in Hw.
    cbn [dst set_dst] in Hw.
    destruct (ast_read addr (set_dst buf m)) as [[m1 r]|]; [|done]. destruct Hw as (-> & O1 & C1 & L1 & Dst).
    unfold transacted. cbn [wires_ops].
    destruct (wires_read b a (length buf)) as [[b1 l1] [f|]]; cbn [fault_result fst snd] in *.
    { split_and!; try done. eexists. split; [done|]. constructor; [by cbn; lia|]. apply op_lent_refl. }
    pose proof (IH b1 m1 O1 (op_fits_cfg _ _ _ C1 Hrest)) as Hr. unfold dwp, transacted in Hr.
    destruct (ast_transaction addr rest m1) as [[m2 r]|]; [|done].
    destruct (wires_ops b1 a rest) as [[b2 ops'] [f|]]; cbn [fst snd] in *; destruct Hr as (O2 & C2 & Hr).
    + destruct Hr as (ops2 & -> & Hl). split_and!; [done|by eapply (same_cfg_trans _ m1)|]. eexists. split; [done|].
      constructor; [by cbn; lia|done].
    + subst r. rewrite Dst by done. split_and!; [done|by eapply (same_cfg_trans _ m1)|done].
Qed.
End reads.
