(* ===== verification/AstI2cDma.v ===== *)
(** * The AST1060 I2C driver: no DMA transfer outlives its call

    [dma.rs] ties a running DMA transfer to a guard whose [Drop] resets the
    controller.  Here nothing is assumed about the bus or about how long a command
    takes: the controller may never report the end of a transfer. *)

From S2P Require Import Prelude Bytes RegMonad Spim SpimRun Soc SocRun I2cWire I2cServer AstI2c AstI2cRun AstI2cMaster.
From stdpp Require Import base tactics option list numbers.
Local Open Scope Z_scope.

(** Whether the DMA engine may still access memory. *)
Class DmaEngine (H : Type) : Type := dma_live : H → bool.

(** The flags of a command that start the DMA engine. *)
Definition starts_dma (cmd : Z) : bool :=
  has_flag cmd AST_I2CM_TX_DMA_EN || has_flag cmd AST_I2CM_RX_DMA_EN.

(** Only a DMA command starts the engine; clearing I2CC00 stops it (the soft reset
    [dma.rs] cites); it has stopped when the end of the transfer is reported. *)
Class DmaEngineLaws (H : Type) `{I2cHw H} `{DmaEngine H} : Prop := {
  live_rd h r : dma_live h = false → dma_live (i2c_rd h r).1 = false;
  live_report h : ~ ctl_silent (i2c_rd h I2cm14).2 → dma_live (i2c_rd h I2cm14).1 = false;
  live_reset h : dma_live (i2c_wr h I2cc00 0) = false;
  live_wr h r v : r ≠ I2cm18 ∨ starts_dma v = false → dma_live h = false → dma_live (i2c_wr h r v) = false;
  live_buff_rd h i : dma_live h = false → dma_live (buff_rd h i).1 = false;
  live_buff_wr h i v : dma_live h = false → dma_live (buff_wr h i v) = false;
  live_ram_wr h a v : dma_live h = false → dma_live (ram_wr h a v) = false;
  live_yield h ns : dma_live h = false → dma_live (yield_for h ns) = false;
}.

Section dma.
Context {H : Type} `{I2cHw H} `{DmaEngine H} `{!DmaEngineLaws H}.
Implicit Types m : Ast1060I2c H.

Definition dma_quiet m : Prop := dma_live (mmio m) = false.

(** A call that, started with the engine stopped, returns with the engine stopped. *)
Definition stays_quiet {E A} (c : drv (Ast1060I2c H) E A) : Prop :=
  ∀ m, dma_quiet m → dwp c (λ _ m', dma_quiet m') m.

Lemma quiet_ret {E A} (a : A) : stays_quiet (E:=E) (mret a).
Proof. by intros m Hq. Qed.
Lemma quiet_raise {E A} (e : E) : stays_quiet (A:=A) (raise e).
Proof. by intros m Hq. Qed.
Lemma quiet_lift {E A} (r : result A E) : stays_quiet (lift r).
Proof. by intros m Hq. Qed.
Lemma quiet_reads {E A} (f : Ast1060I2c H → A) : stays_quiet (E:=E) (reads f).
Proof. by intros m Hq. Qed.
Lemma quiet_require {E} b (e : E) : stays_quiet (require b e).
Proof. intros m Hq. by apply dwp_require. Qed.
Lemma quiet_writes {E} (f : Ast1060I2c H → Ast1060I2c H) :
  (∀ m, dma_quiet m → dma_quiet (f m)) → stays_quiet (E:=E) (writes f).
Proof. intros Hf m Hq. apply dwp_writes. by apply Hf. Qed.
Lemma quiet_bind {E A C} (c : drv (Ast1060I2c H) E A) (f : A → drv (Ast1060I2c H) E C) :
  stays_quiet c → (∀ a, stays_quiet (f a)) → stays_quiet (c ≫= f).
Proof.
  intros Hc Hf m Hq. apply dwp_bind. eapply dwp_mono; [by apply Hc|]. intros [a|e] m' Hm'; [|done]. by apply Hf.
Qed.
Lemma quiet_rd r : stays_quiet (rd r).
Proof. intros m Hq. apply dwp_rd. by apply live_rd. Qed.
Lemma quiet_wr r v : r ≠ I2cm18 ∨ starts_dma v = false → stays_quiet (wr r v).
Proof. intros Hr m Hq. apply dwp_wr. by apply live_wr. Qed.
Lemma quiet_upd r f : r ≠ I2cm18 → stays_quiet (upd_reg r f).
Proof. intros Hr. apply quiet_bind; [apply quiet_rd|]. intros v. apply quiet_wr. by left. Qed.
Lemma quiet_for {E A} (l : list A) (f : A → drv (Ast1060I2c H) E unit) :
  (∀ x, stays_quiet (f x)) → stays_quiet (drv_for l f).
Proof. intros Hf. induction l as [|x l IH]; [apply quiet_ret|]. by apply quiet_bind. Qed.

Lemma quiet_ram_store h a l : dma_live h = false → dma_live (ram_store h a l) = false.
Proof. revert h a. induction l as [|x l IH]; intros h a Hh; [done|]. by apply IH, live_ram_wr. Qed.

Lemma quiet_buffer_write i v : stays_quiet (buffer_write i v).
Proof. apply quiet_writes. intros m Hq. by apply live_buff_wr. Qed.
Lemma quiet_buffer_read i : stays_quiet (buffer_read i).
Proof.
  intros m Hq. unfold dwp, buffer_read. pose proof (live_buff_rd (mmio m) i Hq) as Hl.
  by destruct (buff_rd (mmio m) i).
Qed.

Create HintDb dma_quiet.
#[local] Hint Resolve quiet_ret quiet_raise quiet_lift quiet_reads quiet_require quiet_rd quiet_upd
  quiet_buffer_write quiet_buffer_read : dma_quiet.
#[local] Hint Extern 1 (stays_quiet (wr _ _)) => apply quiet_wr; left; discriminate : dma_quiet.
#[local] Hint Extern 1 (stays_quiet (wr_fields _ _)) => apply quiet_wr; left; discriminate : dma_quiet.
#[local] Hint Extern 1 (stays_quiet (clear_interrupts _)) => apply quiet_wr; left; discriminate : dma_quiet.
#[local] Hint Extern 1 (stays_quiet (upd_reg _ _)) => apply quiet_upd; discriminate : dma_quiet.
#[local] Hint Extern 1 (stays_quiet (writes _)) => apply quiet_writes; intros ? ?; assumption : dma_quiet.
#[local] Hint Extern 2 (stays_quiet (_ ≫= _)) => apply quiet_bind; [|intros ?] : dma_quiet.
#[local] Hint Extern 3 (stays_quiet (if ?b then _ else _)) => destruct b : dma_quiet.
Ltac dma_quiet := auto 20 with dma_quiet.

(** ** Waiting *)

Lemma unstick_quiet v : stays_quiet (unstick_slave v).
Proof. unfold unstick_slave. dma_quiet. Qed.
Lemma packet_error_quiet v : stays_quiet (packet_error v).
Proof. unfold packet_error. dma_quiet. Qed.
Lemma yield_quiet ns : stays_quiet (yield_ns ns).
Proof. apply quiet_writes. intros m Hq. by apply live_yield. Qed.
#[local] Hint Resolve unstick_quiet packet_error_quiet yield_quiet : dma_quiet.

(** What [handle_interrupt] does with the status it read. *)
Definition on_status (status : Z) : i2c (H:=H) unit :=
  if has_flag status AST_I2CM_PKT_DONE then
    unstick_slave status;; writes (set_completion true);; clear_interrupts AST_I2CM_PKT_DONE;; packet_error status
  else if has_flag status (Z.lor AST_I2CM_TX_ACK AST_I2CM_RX_DONE) then
    writes (set_completion true);; clear_interrupts status
  else if has_flag status AST_I2CM_TX_NAK then clear_interrupts status;; raise AstNoAcknowledge
  else if has_flag status AST_I2CM_ABNORMAL then clear_interrupts status;; raise AstAbnormal
  else if has_flag status AST_I2CM_ARBIT_LOSS then clear_interrupts status;; raise AstArbitrationLoss
  else if has_flag status AST_I2CM_SCL_LOW_TO then clear_interrupts status;; raise AstTimeout
  else mret ().

Lemma on_status_quiet v : stays_quiet (on_status v).
Proof. unfold on_status. dma_quiet. Qed.
#[local] Hint Resolve on_status_quiet : dma_quiet.

Lemma handle_dma_quiet : stays_quiet handle_interrupt.
Proof. apply quiet_bind; [apply quiet_rd|]. apply on_status_quiet. Qed.
#[local] Hint Resolve handle_dma_quiet : dma_quiet.

(** A completed command has stopped the engine. *)
Definition done_quiet m : Prop := completion m = true → dma_quiet m.

Lemma handle_completes m :
  completion m = false → dwp handle_interrupt (λ _ m', done_quiet m') m.
Proof.
  intros Hc. change (dwp (rd I2cm14 ≫= on_status) (λ _ m', done_quiet m') m). apply dwp_bind, dwp_rd. cbn beta iota.
  set (v := (i2c_rd (mmio m) I2cm14).2). set (m1 := set_mmio _ m).
  destruct (decide (ctl_silent v)) as [Hs|Hs].
  - unfold ctl_silent in Hs. rewrite !List.Forall_cons_iff in Hs. destruct Hs as (E1 & E2 & E3 & E4 & E5 & E6 & _).
    unfold on_status. rewrite E1, E2, E3, E4, E5, E6. apply dwp_ret. unfold done_quiet. cbn [completion m1 set_mmio].
    by rewrite Hc.
  - eapply dwp_mono; [apply on_status_quiet|]; [by apply live_report|]. by intros r m' Hq _.
Qed.

Lemma wait_loop_quiet n : stays_quiet (completion_loop n).
Proof. induction n as [|n IH]; cbn [completion_loop]; dma_quiet. Qed.

Lemma wait_loop_completes n m :
  done_quiet m → dwp (completion_loop n) (λ r m', r = Ok () → done_quiet m') m.
Proof.
  revert m. induction n as [|n IH]; intros m Hd; cbn [completion_loop]; [by apply dwp_ret|].
  apply dwp_bind, dwp_reads. cbn beta iota. destruct (completion m) eqn:Hc; [by apply dwp_ret|].
  apply dwp_bind. eapply dwp_mono; [by apply handle_completes|]. intros [[]|e] m1 Hd1; [|done].
  apply dwp_bind, dwp_writes. cbn beta iota. apply IH. unfold done_quiet in *. cbn [completion set_mmio].
  intros Hc1. by apply live_yield, Hd1.
Qed.

Lemma wait_completes n m : dwp (wait_completion n) (λ r m', r = Ok () → dma_quiet m') m.
Proof.
  unfold wait_completion. apply dwp_bind, dwp_writes. cbn beta iota. apply dwp_bind.
  eapply dwp_mono; [by apply wait_loop_completes|]. intros [[]|e] m1 Hd; [|done]. specialize (Hd eq_refl).
  apply dwp_bind, dwp_reads. cbn beta iota. apply dwp_require; [|done]. intros Hc _. by apply Hd.
Qed.

Lemma wait_completion_quiet n : stays_quiet (wait_completion n).
Proof. unfold wait_completion. pose proof (wait_loop_quiet n). dma_quiet. Qed.
#[local] Hint Resolve wait_completion_quiet : dma_quiet.

Lemma abort_wait_quiet n : stays_quiet (abort_wait n).
Proof. induction n as [|n IH]; cbn [abort_wait]; dma_quiet. Qed.
#[local] Hint Resolve abort_wait_quiet : dma_quiet.

(** Dropping the guard stops the engine, whatever it was doing. *)
Lemma dma_drop_stops m : dwp dma_drop (λ r m', r = Ok () ∧ dma_quiet m') m.
Proof.
  unfold dma_drop. apply dwp_bind, dwp_rd. cbn beta iota. apply dwp_bind, dwp_wr. cbn beta iota.
  apply dwp_bind, dwp_wr. cbn beta iota. set (m1 := set_mmio _ (set_mmio _ _)).
  assert (dma_quiet m1) as Hq by (apply live_wr; [by left|]; apply live_reset).
  assert (∀ n m, dma_quiet m → dwp (abort_wait n) (λ r m', r = Ok () ∧ dma_quiet m') m) as Hab.
  { clear m1 Hq m. induction n as [|n IH]; intros m Hq; cbn [abort_wait]; [by apply dwp_ret|].
    apply dwp_bind, dwp_rd. cbn beta iota. case_match; [|apply dwp_ret; split; [done|]; by apply live_rd].
    apply IH. by apply live_rd. }
  apply dwp_bind. eapply dwp_mono; [by apply Hab|]. intros r m2 [-> Hq2]. apply dwp_wr. split; [done|].
  apply live_wr; [by left|done].
Qed.

Lemma wait_armed_stops m : dwp wait_armed (λ _ m', dma_quiet m') m.
Proof.
  unfold wait_armed. apply dwp_bind, dwp_attempt. eapply dwp_mono; [apply wait_completes|].
  intros [[]|e] m1 Hd; cbn beta iota; [apply dwp_ret; by apply Hd|].
  apply dwp_bind. eapply dwp_mono; [apply dma_drop_stops|]. intros r m2 [-> Hq]. by apply dwp_raise.
Qed.

(** Starting a command and waiting for it with the guard. *)
Lemma armed_quiet {A} cmd (k : unit → i2c A) :
  (∀ u, stays_quiet (k u)) → stays_quiet (wr I2cm18 cmd;; (wait_armed ≫= k)).
Proof.
  intros Hk m Hq. apply dwp_bind, dwp_wr. cbn beta iota. apply dwp_bind.
  eapply dwp_mono; [apply wait_armed_stops|]. intros [u|e] m' Hm'; [|done]. by apply Hk.
Qed.

(** ** Transfers *)

Lemma check_quiet : stays_quiet check_chunk.
Proof. unfold check_chunk. dma_quiet. Qed.
Lemma copy_to_quiet data : stays_quiet (copy_to_buffer data).
Proof.
  assert (∀ fuel idx, (length data ≤ idx + fuel)%nat → stays_quiet (copy_to_loop fuel data idx)) as Hl.
  { induction fuel as [|fuel IH]; intros idx Hf; cbn [copy_to_loop];
      (destruct (Nat.ltb_spec idx (length data)); [|dma_quiet]); [lia|].
    apply quiet_bind; [dma_quiet|intros _]. apply quiet_bind; [dma_quiet|intros _]. apply IH. lia. }
  unfold copy_to_buffer. apply quiet_bind; [dma_quiet|intros _]. apply Hl. lia.
Qed.
Lemma copy_from_quiet data : stays_quiet (copy_from_buffer data).
Proof.
  assert (∀ fuel d idx, (length d ≤ idx + fuel)%nat → stays_quiet (copy_from_loop fuel d idx)) as Hl.
  { induction fuel as [|fuel IH]; intros d idx Hf; cbn [copy_from_loop];
      (destruct (Nat.ltb_spec idx (length d)); [|dma_quiet]); [lia|].
    apply quiet_bind; [dma_quiet|intros _]. apply quiet_bind; [dma_quiet|intros v]. apply IH.
    rewrite unpack_dword_length. lia. }
  unfold copy_from_buffer. apply quiet_bind; [dma_quiet|intros _]. apply Hl. lia.
Qed.
Lemma fill_quiet offset k f : (∀ l, stays_quiet (f l)) → stays_quiet (fill_dst offset k f).
Proof. intros Hf. unfold fill_dst. dma_quiet. Qed.
Lemma dma_buffer_quiet k : stays_quiet (dma_buffer k).
Proof. unfold dma_buffer. dma_quiet. Qed.
Lemma arm_tx_quiet a k : stays_quiet (arm_tx a k).
Proof. unfold arm_tx. dma_quiet. Qed.
Lemma arm_rx_quiet a k : stays_quiet (arm_rx a k).
Proof. unfold arm_rx. dma_quiet. Qed.
#[local] Hint Resolve check_quiet copy_to_quiet copy_from_quiet fill_quiet dma_buffer_quiet arm_tx_quiet arm_rx_quiet : dma_quiet.

Lemma tx_no_dma fi addr s base :
  starts_dma base = false → starts_dma (add_stop s (add_start fi addr base)) = false.
Proof.
  unfold starts_dma. rewrite !cmd_flag by done. destruct fi, s; cbn [andb];
    intros [E1 E2]%orb_false_iff; by rewrite E1, E2.
Qed.
Lemma rx_no_dma fi addr s base :
  starts_dma base = false → starts_dma (add_last s (add_start fi addr base)) = false.
Proof.
  unfold starts_dma. rewrite !cmd_last_flag by done. destruct fi, s; cbn [andb];
    intros [E1 E2]%orb_false_iff; by rewrite E1, E2.
Qed.

Lemma write_dma_chunk_quiet addr bytes stop offset k : stays_quiet (write_dma_chunk addr bytes stop offset k).
Proof.
  unfold write_dma_chunk. apply quiet_bind; [dma_quiet|intros chunk]. apply quiet_bind; [dma_quiet|intros buf].
  apply quiet_bind; [apply quiet_writes; intros m Hq; by apply quiet_ram_store|intros _].
  do 3 (apply quiet_bind; [dma_quiet|intros _]). apply armed_quiet. intros _. dma_quiet.
Qed.
Lemma read_dma_chunk_quiet addr offset k : stays_quiet (read_dma_chunk addr offset k).
Proof.
  unfold read_dma_chunk. apply quiet_bind; [dma_quiet|intros n]. apply quiet_bind; [dma_quiet|intros buf].
  do 3 (apply quiet_bind; [dma_quiet|intros _]). apply armed_quiet. intros _. dma_quiet.
Qed.
Lemma write_buffer_chunk_quiet addr bytes stop offset k : stays_quiet (write_buffer_chunk addr bytes stop offset k).
Proof.
  unfold write_buffer_chunk. apply quiet_bind; [dma_quiet|intros chunk]. do 4 (apply quiet_bind; [dma_quiet|intros _]).
  apply quiet_bind; [|dma_quiet]. apply quiet_wr. right. by apply tx_no_dma.
Qed.
Lemma read_buffer_chunk_quiet addr offset k : stays_quiet (read_buffer_chunk addr offset k).
Proof.
  unfold read_buffer_chunk. apply quiet_bind; [dma_quiet|intros n]. do 3 (apply quiet_bind; [dma_quiet|intros _]).
  apply quiet_bind; [|dma_quiet]. apply quiet_wr. right. by apply rx_no_dma.
Qed.
Lemma write_byte_quiet addr n stop i x : stays_quiet (write_byte addr n stop i x).
Proof.
  unfold write_byte. apply quiet_bind; [dma_quiet|intros _].
  apply quiet_bind; [|dma_quiet]. apply quiet_wr. right. by apply tx_no_dma.
Qed.
Lemma read_byte_quiet addr n i : stays_quiet (read_byte addr n i).
Proof. unfold read_byte. apply quiet_bind; [|dma_quiet]. apply quiet_wr. right. by apply rx_no_dma. Qed.

(** The loops over chunks end. *)
Lemma chunk_loop_total max (body : nat → nat → i2c unit) total fuel offset :
  (0 < max)%nat → (total ≤ offset + fuel)%nat → (∀ o k, stays_quiet (body o k)) →
  stays_quiet (chunk_loop max body total fuel offset).
Proof.
  intros Hmax. revert offset. induction fuel as [|fuel IH]; intros offset Hf Hb; cbn [chunk_loop];
    (destruct (Nat.ltb_spec offset total); [|dma_quiet]); [lia|].
  apply quiet_bind; [apply Hb|intros _]. apply IH; [lia|done].
Qed.

Lemma write_in_mode_quiet mode addr bytes stop : stays_quiet (write_in_mode mode addr bytes stop).
Proof.
  destruct mode; cbn [write_in_mode].
  - unfold write_byte_mode. do 3 (apply quiet_bind; [dma_quiet|intros _]). apply quiet_for. intros [i x]. apply write_byte_quiet.
  - apply quiet_bind; [dma_quiet|intros _]. apply chunk_loop_total; [unfold BUFFER_MODE_SIZE; lia|lia|].
    intros. apply write_buffer_chunk_quiet.
  - apply quiet_bind; [dma_quiet|intros _]. apply chunk_loop_total; [unfold DMA_MODE_MAX_SIZE; lia|lia|].
    intros. apply write_dma_chunk_quiet.
Qed.
Lemma read_in_mode_quiet mode addr : stays_quiet (read_in_mode mode addr).
Proof.
  destruct mode; cbn [read_in_mode].
  - unfold read_byte_mode. apply quiet_bind; [dma_quiet|intros n]. do 3 (apply quiet_bind; [dma_quiet|intros _]).
    apply quiet_for. intros i. apply read_byte_quiet.
  - apply quiet_bind; [dma_quiet|intros n]. apply quiet_bind; [dma_quiet|intros _].
    apply chunk_loop_total; [unfold BUFFER_MODE_SIZE; lia|lia|]. intros. apply read_buffer_chunk_quiet.
  - apply quiet_bind; [dma_quiet|intros n]. apply quiet_bind; [dma_quiet|intros _].
    apply chunk_loop_total; [unfold DMA_MODE_MAX_SIZE; lia|lia|]. intros. apply read_dma_chunk_quiet.
Qed.
#[local] Hint Resolve write_in_mode_quiet read_in_mode_quiet : dma_quiet.

Lemma ast_write_quiet addr bytes : stays_quiet (ast_write addr bytes).
Proof. unfold ast_write. dma_quiet. Qed.
Lemma ast_read_quiet addr : stays_quiet (ast_read addr).
Proof. unfold ast_read. dma_quiet. Qed.
Lemma ast_write_read_quiet addr bytes : stays_quiet (ast_write_read addr bytes).
Proof. unfold ast_write_read. dma_quiet. Qed.

Lemma ast_transaction_quiet addr ops : stays_quiet (ast_transaction addr ops).
Proof.
  induction ops as [|[data|buf] rest IH]; intros m Hq; [done|..]; unfold dwp; cbn [ast_transaction].
  - pose proof (ast_write_quiet addr data m Hq) as Hw. unfold dwp in Hw.
    destruct (ast_write addr data m) as [[m1 [[]|e]]|]; [|done..].
    specialize (IH m1 Hw). unfold dwp in IH. by destruct (ast_transaction addr rest m1) as [[m2 [?|[]]]|].
  - change ((lend buf;; ast_read addr) m) with (ast_read addr (set_dst buf m)).
    pose proof (ast_read_quiet addr (set_dst buf m) Hq) as Hw. unfold dwp in Hw.
    destruct (ast_read addr (set_dst buf m)) as [[m1 [[]|e]]|]; [|done..].
    specialize (IH m1 Hw). unfold dwp in IH. by destruct (ast_transaction addr rest m1) as [[m2 [?|[]]]|].
Qed.

(** C14: Whatever the controller does, and whatever a transaction returns (a
    timeout included), the DMA engine has stopped when the call returns, so that
    nothing writes to the shared buffer afterwards; and the call does return. *)
Theorem dma_never_outlives_call addr ops m :
  dma_live (mmio m) = false →
  ∃ m' r, ast_transaction addr ops m = Some (m', r) ∧ dma_live (mmio m') = false.
Proof. intros Hq. exact (dwp_run _ _ _ (ast_transaction_quiet addr ops m Hq)). Qed.
End dma.

(** ** A controller that never answers *)

(** Its state is whether the engine runs. *)
#[export] Instance stuck_hw : I2cHw bool := {
  i2c_rd h _ := (h, 0); i2c_wr h r v := match r with I2cc00 => if v =? 0 then false else h | I2cm18 => h || starts_dma v | _ => h end;
  buff_rd h _ := (h, 0); buff_wr h _ _ := h; ram_rd _ _ := 0; ram_wr h _ _ := h; yield_for h _ := h;
  fget _ _ := 0; fput _ _ w := w; reset_value _ := 0;
}.
#[export] Instance stuck_dma : DmaEngine bool := λ h, h.
#[export] Instance stuck_dma_laws : DmaEngineLaws bool.
Proof.
  constructor; try done.
  - intros h Hs. destruct Hs. cbn. repeat constructor.
  - intros h r v Hr Hh. unfold dma_live, stuck_dma in *. subst h. destruct r; try done; cbn; [by destruct (v =? 0)|].
    by destruct Hr.
Qed.

Definition stuck_driver : Ast1060I2c bool :=
  from_initialized_with_dma false
    (mkI2cConfig DmaMode SpeedFast false true false ast1060_default) (0x1000, 64%nat) (0x2000, 64%nat).

(** The transfer runs when the wait for it begins. *)
Example stuck_engine_runs : dma_live (i2c_wr false I2cm18 (Z.lor AST_I2CM_PKT_EN AST_I2CM_TX_DMA_EN)) = true.
Proof. reflexivity. Qed.

Lemma dma_never_outlives_call_witness :
  ∃ m' r, ast_transaction 0x50 [OpWrite [1; 2; 3]; OpRead [0]] stuck_driver = Some (m', r) ∧ dma_live (mmio m') = false.
Proof. apply (@dma_never_outlives_call bool _ _ _ 0x50 [OpWrite [1; 2; 3]; OpRead [0]] stuck_driver). reflexivity. Defined.
