(* ===== verification/AstI2cChip.v ===== *)
(** * AST1060 I2C: a controller and a target

    A concrete instance of [I2cHw], [I2cCtl] and [I2cCtlLaws]: the registers, the
    pool buffer, the RAM, and a bus with one target, a row of registers behind a
    pointer.  A command is reported after two status reads. *)

From S2P Require Import Prelude Bytes RegMonad Spim SpimRun Soc SocRun I2cWire I2cServer AstI2c AstI2cRun AstI2cMaster.
From stdpp Require Import base tactics option list numbers.
Local Open Scope Z_scope.

(** ** Fields *)

(** Position and width. *)
Definition field_pos (f : I2cField) : Z * Z :=
  match f with
  | FMasterFn => (0, 1) | FSlaveFn => (1, 1) | FDisMultimaster => (15, 1) | FBusAutorelease => (17, 1)
  | FBaseClkDivisor => (0, 4) | FSclHigh => (16, 4) | FSclLow => (12, 4) | FSclHighMin => (20, 4)
  | FTimeoutDivisor => (8, 2) | FTimeoutTimer => (24, 5)
  | FTxByteBuffer => (0, 8) | FRxByteBuffer => (8, 8) | FBusBusy => (16, 1) | FSampledSda => (17, 1) | FSampledScl => (18, 1)
  | FTxDataByteCount => (8, 5) | FRxPoolBufferSize => (16, 5) | FActualRxdPoolBufferSize => (24, 6)
  | FPktCmdDoneInt => (16, 1) | FBusRecoverDoneInt => (13, 1) | FSmbusAlertInt => (12, 1)
  | FBusRecoverCmd => (13, 1)
  | FDmatxBufLen => (0, 12) | FDmatxBufLenWrEnbl => (15, 1) | FDmarxBufLen => (16, 12) | FDmarxBufLenWrEnbl => (31, 1)
  | FDmaBufferBase => (0, 32) | FDmaBufferBase1 => (0, 32)
  | FSlavePktOpMode => (16, 1)
  | FSlaveDmarxBufLen => (16, 12) | FSlaveDmarxBufLenWrEnbl => (31, 1)
  | FSlaveDevAddr1 => (0, 7) | FSlaveDevAddr1Enbl => (7, 1)
  | FDmarxActualLen => (16, 13)
  end.

Definition bits_get (pw : Z * Z) (v : Z) : Z := Z.land (Z.shiftr v pw.1) (Z.ones pw.2).
Definition bits_put (pw : Z * Z) (x v : Z) : Z :=
  Z.lor (Z.ldiff v (Z.shiftl (Z.ones pw.2) pw.1)) (Z.shiftl (Z.land x (Z.ones pw.2)) pw.1).

Lemma testbit_window p w i : 0 ≤ p → 0 ≤ w → 0 ≤ i →
  Z.testbit (Z.shiftl (Z.ones w) p) i = (p <=? i) && (i <? p + w).
Proof.
  intros Hp Hw Hi. rewrite Z.shiftl_spec by lia. destruct (Z.leb_spec p i); cbn [andb].
  - rewrite Z.testbit_ones by lia. rewrite (proj2 (Z.leb_le 0 (i - p))) by lia. cbn [andb].
    destruct (Z.ltb_spec (i - p) w), (Z.ltb_spec i (p + w)); lia || done.
  - by rewrite Z.testbit_neg_r by lia.
Qed.

Lemma testbit_put p w x v i : 0 ≤ p → 0 ≤ w → 0 ≤ i →
  Z.testbit (bits_put (p, w) x v) i =
  if (p <=? i) && (i <? p + w) then Z.testbit x (i - p) else Z.testbit v i.
Proof.
  intros Hp Hw Hi. unfold bits_put. cbn [fst snd].
  rewrite Z.lor_spec, Z.ldiff_spec, testbit_window, Z.shiftl_spec by lia.
  destruct (Z.leb_spec p i); cbn [andb negb].
  - rewrite Z.land_spec, Z.testbit_ones by lia. rewrite (proj2 (Z.leb_le 0 (i - p))) by lia. cbn [andb].
    destruct (Z.ltb_spec i (p + w)); cbn [negb].
    + rewrite (proj2 (Z.ltb_lt (i - p) w)) by lia. by rewrite andb_false_r, andb_true_r.
    + rewrite (proj2 (Z.ltb_ge (i - p) w)) by lia. by rewrite andb_true_r, andb_false_r, orb_false_r.
  - rewrite (Z.testbit_neg_r _ (i - p)) by lia. by rewrite andb_true_r, orb_false_r.
Qed.

Lemma get_put p w x v : 0 ≤ p → 0 ≤ w → 0 ≤ x < 2 ^ w → bits_get (p, w) (bits_put (p, w) x v) = x.
Proof.
  intros Hp Hw Hx. apply Z.bits_inj'. intros i Hi. unfold bits_get. cbn [fst snd].
  rewrite Z.land_spec, Z.shiftr_spec, Z.testbit_ones, testbit_put by lia.
  rewrite (proj2 (Z.leb_le 0 i)), (proj2 (Z.leb_le p (i + p))) by lia. cbn [andb].
  replace (i + p - p) with i by lia. destruct (Z.ltb_spec i w).
  - rewrite (proj2 (Z.ltb_lt (i + p) (p + w))) by lia. by rewrite andb_true_r.
  - rewrite andb_false_r. by rewrite (high_bit x w) by lia.
Qed.

Lemma get_put_other p w p' w' x v : 0 ≤ p → 0 ≤ w → 0 ≤ p' → 0 ≤ w' → p + w ≤ p' ∨ p' + w' ≤ p →
  bits_get (p', w') (bits_put (p, w) x v) = bits_get (p', w') v.
Proof.
  intros Hp Hw Hp' Hw' Hd. apply Z.bits_inj'. intros i Hi. unfold bits_get. cbn [fst snd].
  rewrite !Z.land_spec, !Z.shiftr_spec, !Z.testbit_ones, testbit_put by lia.
  destruct (Z.ltb_spec i w'); [|by rewrite !andb_false_r].
  assert ((p <=? i + p') && (i + p' <? p + w) = false) as ->; [|done].
  destruct (Z.leb_spec p (i + p')), (Z.ltb_spec (i + p') (p + w)); try done. lia.
Qed.

(** ** The target *)

(** Target 0x50 acknowledges its address; a byte it gets sets the pointer, a byte
    it sends is that of the register the pointer names.  [tg_log] is what happened
    on the bus. *)
Inductive wire_event := WStart (a : Z) (is_read : bool) | WPut (x : Z) | WGet (x : Z) (last : bool) | WStop.
Record target := mkTarget { tg_ptr : Z; tg_log : list wire_event }.

Definition tg_reg (i : Z) : Z := Z.land (7 * i + 1) 255.

#[export] Instance target_wires : I2cWires target := {
  bus_start b a is_read :=
    (mkTarget (tg_ptr b) (tg_log b ++ [WStart a is_read]), if a =? 0x50 then None else Some FaultNak);
  bus_put b x := (mkTarget x (tg_log b ++ [WPut x]), None);
  bus_get b last := (mkTarget (tg_ptr b + 1) (tg_log b ++ [WGet (tg_reg (tg_ptr b)) last]), tg_reg (tg_ptr b), None);
  bus_stop b := mkTarget (tg_ptr b) (tg_log b ++ [WStop]);
}.

(** ** The controller *)

Record chip := mkChip {
  ch_reg : I2cReg → Z; ch_pool : nat → Z; ch_ram : Z → Z; ch_rx : Z;
  ch_bus : target; ch_wait : nat; ch_status : Z;
}.

Definition chip_bytes (h : chip) (a : Z) (n : nat) : list Z := (λ i, ch_ram h (a + Z.of_nat i)) <$> seq 0 n.
Definition chip_field (h : chip) (r : I2cReg) (f : I2cField) : Z := bits_get (field_pos f) (ch_reg h r).
Definition chip_pool (h : chip) : list Z := (λ i, Z.land (ch_pool h i) 255) <$> seq 0 32.

Definition chip_data (h : chip) (cmd : Z) : list Z :=
  if has_flag cmd AST_I2CM_TX_DMA_EN then
    chip_bytes h (chip_field h I2cm30 FDmaBufferBase) (S (Z.to_nat (chip_field h I2cm1c FDmatxBufLen)))
  else if has_flag cmd AST_I2CM_TX_BUFF_EN then
    take (S (Z.to_nat (chip_field h I2cc0c FTxDataByteCount))) (chip_pool h)
  else [chip_field h I2cc08 FTxByteBuffer].
Definition chip_count (h : chip) (cmd : Z) : nat :=
  if has_flag cmd AST_I2CM_RX_DMA_EN then S (Z.to_nat (chip_field h I2cm1c FDmarxBufLen))
  else if has_flag cmd AST_I2CM_RX_BUFF_EN then S (Z.to_nat (chip_field h I2cc0c FRxPoolBufferSize))
  else 1%nat.

Definition chip_status (f : option bus_fault) : Z :=
  match f with
  | None => Z.lor AST_I2CM_PKT_DONE AST_I2CM_TX_ACK
  | Some FaultNak => Z.lor (Z.lor AST_I2CM_PKT_DONE AST_I2CM_PKT_ERROR) AST_I2CM_TX_NAK
  | Some FaultArbitration => Z.lor (Z.lor AST_I2CM_PKT_DONE AST_I2CM_PKT_ERROR) AST_I2CM_ARBIT_LOSS
  | Some FaultAbnormal => Z.lor (Z.lor AST_I2CM_PKT_DONE AST_I2CM_PKT_ERROR) AST_I2CM_ABNORMAL
  | Some FaultBus => Z.lor AST_I2CM_PKT_DONE AST_I2CM_PKT_ERROR
  end.

(** The bytes of a read, where the command wants them. *)
Definition chip_deliver (h : chip) (cmd : Z) (l : list Z) : chip :=
  if has_flag cmd AST_I2CM_RX_DMA_EN then
    let a := chip_field h I2cm34 FDmaBufferBase1 in
    mkChip (ch_reg h) (ch_pool h)
      (λ x, if (a <=? x) && (x <? a + Z.of_nat (length l)) then default 0 (l !! Z.to_nat (x - a)) else ch_ram h x)
      (ch_rx h) (ch_bus h) (ch_wait h) (ch_status h)
  else if has_flag cmd AST_I2CM_RX_BUFF_EN then
    mkChip (ch_reg h) (λ i, match l !! i with Some x => x | None => ch_pool h i end) (ch_ram h)
      (ch_rx h) (ch_bus h) (ch_wait h) (ch_status h)
  else
    mkChip (ch_reg h) (ch_pool h) (ch_ram h) (default 0 (head l)) (ch_bus h) (ch_wait h) (ch_status h).

Definition chip_run (h : chip) (b : target) (f : option bus_fault) : chip :=
  mkChip (ch_reg h) (ch_pool h) (ch_ram h) (ch_rx h) b 2 (chip_status f).

Definition chip_command (h : chip) (cmd : Z) : chip :=
  if has_flag cmd AST_I2CM_PKT_EN then
    if has_flag cmd AST_I2CM_TX_CMD then
      let '(b, f) := transmit (ch_bus h) (cmd_start cmd) (chip_data h cmd) (has_flag cmd AST_I2CM_STOP_CMD) in
      chip_run h b f
    else if has_flag cmd AST_I2CM_RX_CMD then
      let '(b, l, f) := receive (ch_bus h) (cmd_start cmd) (chip_count h cmd) (has_flag cmd AST_I2CM_STOP_CMD) in
      chip_run (match f with None => chip_deliver h cmd l | Some _ => h end) b f
    else h
  else h.

Definition chip_set (h : chip) (r : I2cReg) (v : Z) : chip :=
  mkChip (λ r', if bool_decide (r' = r) then v else ch_reg h r') (ch_pool h) (ch_ram h) (ch_rx h)
    (ch_bus h) (ch_wait h) (ch_status h).

#[export] Instance chip_hw : I2cHw chip := {
  i2c_rd h r :=
    match r with
    | I2cm14 =>
        match ch_wait h with
        | S n => (mkChip (ch_reg h) (ch_pool h) (ch_ram h) (ch_rx h) (ch_bus h) n (ch_status h), 0)
        | O => (h, ch_status h)
        end
    | I2cc08 => (h, bits_put (8, 8) (Z.land (ch_rx h) 255) 0)
    | _ => (h, ch_reg h r)
    end;
  i2c_wr h r v :=
    match r with
    | I2cm14 =>
        mkChip (ch_reg h) (ch_pool h) (ch_ram h) (ch_rx h) (ch_bus h) (ch_wait h)
          (if has_flag v AST_I2CM_PKT_DONE then 0 else Z.land (ch_status h) (not_u32 v))
    | I2cm18 => chip_command h v
    | I2cs24 => h
    | _ => chip_set h r v
    end;
  buff_rd h i :=
    (h, dword4 (Z.land (ch_pool h (4 * i)%nat) 255) (Z.land (ch_pool h (4 * i + 1)%nat) 255)
          (Z.land (ch_pool h (4 * i + 2)%nat) 255) (Z.land (ch_pool h (4 * i + 3)%nat) 255));
  buff_wr h i v :=
    mkChip (ch_reg h) (λ j, if (j / 4 =? i)%nat then le_byte v (j mod 4) else ch_pool h j) (ch_ram h) (ch_rx h)
      (ch_bus h) (ch_wait h) (ch_status h);
  ram_rd h a := ch_ram h a;
  ram_wr h a v :=
    mkChip (ch_reg h) (ch_pool h) (λ x, if x =? a then v else ch_ram h x) (ch_rx h) (ch_bus h) (ch_wait h) (ch_status h);
  yield_for h _ := h;
  fget f v := bits_get (field_pos f) v;
  fput f x v := bits_put (field_pos f) x v;
  reset_value _ := 0;
}.

#[export] Instance chip_ctl : I2cCtl chip target := {
  ctl_bus := ch_bus; ctl_wait := ch_wait; ctl_status := ch_status; ctl_rx h := Z.land (ch_rx h) 255;
  ctl_pool := chip_pool; ctl_reg := ch_reg; ctl_latency := 2;
}.

(** ** The laws *)

Lemma chip_keeps h : keeps (B:=target) h h.
Proof. by unfold keeps, same_data. Qed.

Lemma land_byte_ok x : byte_ok (Z.land x 255).
Proof. change 255 with (Z.ones 8). rewrite Z.land_ones by lia. apply Z.mod_pos_bound. lia. Qed.

Lemma chip_pool_lookup h j : (j < 32)%nat → chip_pool h !! j = Some (Z.land (ch_pool h j) 255).
Proof. intros Hj. unfold chip_pool. by rewrite list_lookup_fmap, lookup_seq_lt by lia. Qed.

Lemma chip_pool_length h : length (chip_pool h) = 32%nat.
Proof. unfold chip_pool. by rewrite length_fmap, length_seq. Qed.

Lemma chip_buff_rd h i k :
  (i < 8)%nat → (k < 4)%nat → le_byte (buff_rd h i).2 k = default 0 (chip_pool h !! (4 * i + k)%nat).
Proof.
  intros Hi Hk. rewrite chip_pool_lookup by lia. cbn [default from_option id]. cbn [buff_rd chip_hw snd].
  apply (inj Some). rewrite le_byte_dword4 by (done || apply land_byte_ok).
  do 4 (destruct k as [|k]; [cbn [lookup list_lookup]; repeat f_equal; lia|]). lia.
Qed.

Lemma land_255_idem x : Z.land (Z.land x 255) 255 = Z.land x 255.
Proof. by rewrite <- Z.land_assoc. Qed.

Lemma chip_buff_wr h i v :
  (i < 8)%nat → chip_pool (buff_wr h i v) = write_at (4 * i) (le_byte v <$> seq 0 4) (chip_pool h).
Proof.
  intros Hi. apply list_eq. intros j.
  rewrite lookup_write_at by (rewrite length_fmap, length_seq, chip_pool_length; lia).
  rewrite length_fmap, length_seq. destruct (decide (j < 32)%nat) as [Hj|Hj].
  2:{ rewrite lookup_ge_None_2 by (rewrite chip_pool_length; lia). rewrite (proj2 (Nat.ltb_ge j (4 * i + 4))) by lia.
      rewrite andb_false_r. by rewrite lookup_ge_None_2 by (rewrite chip_pool_length; lia). }
  rewrite !chip_pool_lookup by done. cbn [buff_wr chip_hw ch_pool].
  pose proof (Nat.div_mod_eq j 4) as Hdm. pose proof (Nat.mod_upper_bound j 4 ltac:(lia)) as Hm.
  destruct (Nat.eqb_spec (j / 4) i) as [E|E].
  - rewrite (proj2 (Nat.leb_le (4 * i) j)), (proj2 (Nat.ltb_lt j (4 * i + 4))) by lia. cbn [andb].
    rewrite list_lookup_fmap, lookup_seq_lt by lia. cbn [fmap option_fmap option_map].
    replace (0 + (j - 4 * i))%nat with (j mod 4)%nat by lia. unfold le_byte. by rewrite land_255_idem.
  - destruct (Nat.leb_spec (4 * i) j), (Nat.ltb_spec j (4 * i + 4)); cbn [andb]; try done. lia.
Qed.

Lemma status_reports f : ctl_reports (chip_status f) f.
Proof. destruct f as [[]|]; by vm_compute. Qed.

Lemma target_get_bytes b n fin : Forall byte_ok (get_all b n fin).1.2.
Proof.
  revert b. induction n as [|n IH]; intros b; [constructor|]. cbn [get_all bus_get target_wires].
  set (b' := mkTarget _ _). specialize (IH b'). destruct (get_all b' n fin) as [[b2 l] f]. cbn in *.
  constructor; [apply land_byte_ok|done].
Qed.

Lemma target_receive_bytes b st n fin : Forall byte_ok (receive b st n fin).1.2.
Proof.
  unfold receive. destruct (begin_transfer b st true) as [b1 [f|]]; [constructor|].
  pose proof (target_get_bytes b1 n fin) as Hb. by destruct (get_all b1 n fin) as [[b2 l] [f|]].
Qed.

Lemma byte_land x : byte_ok x → Z.land x 255 = x.
Proof. intros Hx. change 255 with (Z.ones 8). rewrite Z.land_ones by lia. apply Z.mod_small. done. Qed.

Lemma bits_get_bound pw v : 0 ≤ pw.2 → 0 ≤ bits_get pw v < 2 ^ pw.2.
Proof. intros Hw. unfold bits_get. rewrite Z.land_ones by lia. apply Z.mod_pos_bound. lia. Qed.

(** The bytes are found where the command says. *)
Lemma chip_delivered h cmd l b f :
  length l = chip_count h cmd → Forall byte_ok l →
  cmd_received (B:=target) (chip_run (chip_deliver h cmd l) b f) cmd (chip_count h cmd) = l.
Proof.
  intros Hl Hb. unfold cmd_received, chip_deliver, chip_run, field. rewrite <- Hl.
  destruct (has_flag cmd AST_I2CM_RX_DMA_EN) eqn:Ed.
  - unfold ram_load. cbn [ram_rd chip_hw ctl_reg chip_ctl ch_reg ch_ram fget].
    fold (chip_field h I2cm34 FDmaBufferBase1). set (a := chip_field h I2cm34 FDmaBufferBase1).
    apply list_eq. intros i. rewrite list_lookup_fmap. destruct (decide (i < length l)%nat).
    + rewrite lookup_seq_lt by lia. cbn [fmap option_fmap option_map].
      rewrite (proj2 (Z.leb_le a _)), (proj2 (Z.ltb_lt (a + _) _)) by lia. cbn [andb].
      replace (Z.to_nat (a + Z.of_nat (0 + i) - a)) with i by lia.
      destruct (l !! i) eqn:E; [done|]. apply lookup_ge_None in E. lia.
    + rewrite lookup_seq_ge by lia. by rewrite lookup_ge_None_2 by lia.
  - destruct (has_flag cmd AST_I2CM_RX_BUFF_EN) eqn:Eb.
    + cbn [ctl_pool chip_ctl]. assert (length l ≤ 32)%nat as H32.
      { unfold chip_count in Hl. rewrite Ed, Eb in Hl. unfold chip_field in Hl.
        pose proof (bits_get_bound (field_pos FRxPoolBufferSize) (ch_reg h I2cc0c) ltac:(cbn; lia)) as Hw.
        change (2 ^ (field_pos FRxPoolBufferSize).2) with 32 in Hw. lia. }
      apply list_eq. intros j. destruct (decide (j < length l)%nat).
      * rewrite lookup_take_lt by done. rewrite chip_pool_lookup by lia. cbn [ch_pool].
        destruct (l !! j) as [x|] eqn:E; [|apply lookup_ge_None in E; lia].
        f_equal. apply byte_land. by eapply Forall_lookup_1.
      * rewrite lookup_take_ge by lia. by rewrite lookup_ge_None_2 by lia.
    + unfold chip_count in Hl. rewrite Ed, Eb in Hl. destruct l as [|x [|]]; try done.
      cbn [ctl_rx chip_ctl ch_rx head default from_option id hd_error]. f_equal. apply byte_land.
      by apply List.Forall_cons_iff in Hb as [? _].
Qed.

#[export] Instance i2c_chip_laws : I2cCtlLaws chip target.
Proof.
  constructor.
  - intros f v w Hv. cbn [fget fput chip_hw]. rewrite (surjective_pairing (field_pos f)).
    apply get_put; destruct f; cbn in *; unfold u32_MAX in *; try lia; change (2 ^ 32) with 4294967296; lia.
  - intros f g r v w Hf Hg Hne. cbn [fget fput chip_hw].
    destruct f; cbn in Hf; try discriminate; injection Hf as <-; destruct g; cbn in Hg; try discriminate; try done;
      apply get_put_other; lia.
  - intros h r. destruct r; try apply chip_keeps. cbn [i2c_rd chip_hw].
    destruct (ch_wait h) eqn:E; [apply chip_keeps|]. unfold keeps, same_data. cbn. rewrite E. split_and!; try done. lia.
  - intros h r Hr. by destruct r.
  - intros h. cbn [fget chip_hw i2c_rd snd ctl_rx chip_ctl]. apply get_put; [lia..|]. apply land_byte_ok.
  - intros h Hw. cbn in *. by rewrite Hw.
  - intros h n Hw. cbn in *. rewrite Hw. cbn. split; [|lia]. repeat constructor.
  - intros h ns. apply chip_keeps.
  - intros h r v Hr Hw. destruct r; try done; cbn in *; by split_and!.
  - intros h mask Hm Hw. cbn in *. rewrite Hm. by unfold same_data.
  - intros h v. apply chip_keeps.
  - intros h i Hi. split; [apply chip_keeps|]. intros k Hk. by apply chip_buff_rd.
  - apply chip_pool_length.
  - intros h i v Hi Hw. split_and!; try done. by apply chip_buff_wr.
  - intros h a v Hw. done.
  - intros h cmd Hp Ht Hw Hs Ha. change (i2c_wr h I2cm18 cmd) with (chip_command h cmd). unfold chip_command. rewrite Hp, Ht.
    change (cmd_data h cmd) with (chip_data h cmd). change (ctl_bus h) with (ch_bus h).
    destruct (transmit _ _ _ _) as [b f]. cbn. split; [done|]. split; [apply status_reports|lia].
  - intros h cmd Hp Ht Hr Hw Hs Ha. change (i2c_wr h I2cm18 cmd) with (chip_command h cmd). unfold chip_command.
    rewrite Hp, Ht, Hr. change (cmd_count h cmd) with (chip_count h cmd). change (ctl_bus h) with (ch_bus h).
    pose proof (receive_length (ch_bus h) (cmd_start cmd) (chip_count h cmd) (has_flag cmd AST_I2CM_STOP_CMD)) as Hl.
    pose proof (target_receive_bytes (ch_bus h) (cmd_start cmd) (chip_count h cmd) (has_flag cmd AST_I2CM_STOP_CMD)) as Hb.
    destruct (receive _ _ _ _) as [[b l] f]. cbn [fst snd] in *. split; [done|]. split; [apply status_reports|].
    split; [done|]. split.
    + intros ->. by apply chip_delivered.
    + intros r Hne. destruct f; [done|]. unfold chip_deliver. by repeat case_match.
  - unfold ctl_latency, chip_ctl, DEFAULT_TIMEOUT_US. lia.
Qed.

(** ** A driver of it *)

Definition chip_reset : chip :=
  mkChip (λ _, 0) (λ _, 0) (λ _, 0) 0 (mkTarget 0 []) 0 0.
Definition chip_config (mode : I2cXferMode) : I2cConfig := mkI2cConfig mode SpeedFast false true false ast1060_default.
Definition chip_driver (mode : I2cXferMode) : Ast1060I2c chip :=
  from_initialized_with_dma chip_reset (chip_config mode) (0x1000, 64%nat) (0x2000, 64%nat).
