(* ===== verification/AstI2cServe.v ===== *)
(** * The I2C service on the AST1060

    The backend of [target/ast10x0/backend/i2c] as the driver of the I2C server
    ([I2cDriver]), and the path of a client's transaction from the IPC channel to
    the bus.

    The second part is the target side: what a remote master writes is what the
    server latches. *)

From S2P Require Import Prelude Bytes I2cWire I2cServer I2cClient I2cRuntime RegMonad Spim SpimRun Soc SocRun AstI2c AstI2cSlave AstI2cRun AstI2cMaster AstI2cXfer AstI2cHal AstI2cChip.
From stdpp Require Import base tactics option list numbers.
Local Open Scope Z_scope.

(** ** Slices keep their length, on any hardware *)

Section lengths.
Context {H : Type} `{I2cHw H}.
Implicit Types m : Ast1060I2c H.

Definition keeps_len {E A} (c : drv (Ast1060I2c H) E A) : Prop :=
  ∀ m, match c m with Some (m', _) => length (dst m') = length (dst m) | None => True end.

Lemma len_bind {E A C} (c : drv (Ast1060I2c H) E A) (f : A → drv (Ast1060I2c H) E C) :
  keeps_len c → (∀ a, keeps_len (f a)) → keeps_len (c ≫= f).
Proof.
  intros Hc Hf m. unfold mbind, drv_bind. specialize (Hc m). destruct (c m) as [[m1 [a|e]]|]; [|done..].
  specialize (Hf a m1). destruct (f a m1) as [[m2 r]|]; [|done]. congruence.
Qed.
Lemma len_writes {E} (f : Ast1060I2c H → Ast1060I2c H) :
  (∀ m, length (dst (f m)) = length (dst m)) → keeps_len (E:=E) (writes f).
Proof. intros Hf m. apply Hf. Qed.
Lemma len_rd r : keeps_len (rd r).
Proof. intros m. unfold rd. by destruct (i2c_rd (mmio m) r). Qed.
Lemma len_buffer_read i : keeps_len (buffer_read i).
Proof. intros m. unfold buffer_read. by destruct (buff_rd (mmio m) i). Qed.
Lemma len_require {E} b (e : E) : keeps_len (require b e).
Proof. intros m. by destruct b. Qed.
Lemma len_guarded {E A} b (c : drv (Ast1060I2c H) E A) : keeps_len c → keeps_len (guarded b c).
Proof. intros Hc m. unfold guarded. destruct b; [apply Hc|done]. Qed.
Lemma len_attempt {E A} (c : drv (Ast1060I2c H) E A) : keeps_len c → keeps_len (attempt c).
Proof. intros Hc m. unfold attempt. specialize (Hc m). by destruct (c m) as [[]|]. Qed.
Lemma len_ret {E A} (a : A) : keeps_len (E:=E) (mret a).
Proof. by intros m. Qed.
Lemma len_raise {E A} (e : E) : keeps_len (A:=A) (raise e).
Proof. by intros m. Qed.
Lemma len_lift {E A} (r : result A E) : keeps_len (lift r).
Proof. by intros m. Qed.
Lemma len_reads {E A} (f : Ast1060I2c H → A) : keeps_len (E:=E) (reads f).
Proof. by intros m. Qed.
Lemma len_for {E A} (l : list A) (f : A → drv (Ast1060I2c H) E unit) :
  (∀ x, keeps_len (f x)) → keeps_len (drv_for l f).
Proof. intros Hf. induction l as [|x l IH]; [apply len_ret|]. by apply len_bind. Qed.

Create HintDb lens.
#[local] Hint Resolve len_rd len_buffer_read len_require len_guarded len_attempt len_ret len_raise len_lift len_reads : lens.
#[local] Hint Extern 1 (keeps_len (wr _ _)) => apply len_writes; intros ?; reflexivity : lens.
#[local] Hint Extern 1 (keeps_len (wr_fields _ _)) => apply len_writes; intros ?; reflexivity : lens.
#[local] Hint Extern 1 (keeps_len (clear_interrupts _)) => apply len_writes; intros ?; reflexivity : lens.
#[local] Hint Extern 1 (keeps_len (buffer_write _ _)) => apply len_writes; intros ?; reflexivity : lens.
#[local] Hint Extern 1 (keeps_len (yield_ns _)) => apply len_writes; intros ?; reflexivity : lens.
#[local] Hint Extern 1 (keeps_len (upd_reg _ _)) => unfold upd_reg : lens.
#[local] Hint Extern 1 (keeps_len (writes _)) => apply len_writes; intros ?; reflexivity : lens.
#[local] Hint Extern 2 (keeps_len (_ ≫= _)) => apply len_bind; [|intros ?] : lens.
#[local] Hint Extern 3 (keeps_len (if ?b then _ else _)) => destruct b : lens.
Ltac lens := auto 30 with lens.

Lemma len_wait n : keeps_len (wait_completion n).
Proof.
  assert (keeps_len handle_interrupt) as Hh.
  { unfold handle_interrupt, unstick_slave, packet_error. lens. }
  assert (keeps_len (completion_loop n)) as Hl by (induction n as [|n IH]; cbn [completion_loop]; lens).
  unfold wait_completion. lens.
Qed.
#[local] Hint Resolve len_wait : lens.

Lemma len_wait_armed : keeps_len wait_armed.
Proof.
  assert (∀ n, keeps_len (abort_wait n)) as Ha by (induction n as [|n IH]; cbn [abort_wait]; lens).
  unfold wait_armed, dma_drop. apply len_bind; [lens|]. intros [[]|e]; lens.
Qed.

Lemma copy_from_length data m :
  match copy_from_buffer data m with
  | Some (m', Ok data') => length (dst m') = length (dst m) ∧ length data' = length data
  | Some (m', Err _) => length (dst m') = length (dst m)
  | None => True
  end.
Proof.
  assert (∀ fuel d idx m, length d = length data → match copy_from_loop fuel d idx m with
    | Some (m', Ok d') => length (dst m') = length (dst m) ∧ length d' = length data
    | Some (m', Err _) => length (dst m') = length (dst m) | None => True end) as Hl.
  { induction fuel as [|fuel IH]; intros d idx m0 Hd; cbn [copy_from_loop];
      destruct (idx <? length d)%nat; try done.
    unfold require, mbind, drv_bind, mret, drv_ret, raise. destruct (idx / 4 <? 8)%nat; cbn beta iota; [|done].
    unfold buffer_read. destruct (buff_rd (mmio m0) (idx / 4)) as [h v].
    apply (IH (unpack_dword d idx v) (idx + 4)%nat (set_mmio h m0)). by rewrite unpack_dword_length. }
  unfold copy_from_buffer, require, mbind, drv_bind, mret, drv_ret, raise. destruct (length data <=? BUFFER_MODE_SIZE)%nat; cbn beta iota; [|done]. by apply Hl.
Qed.

Lemma len_fill offset k (f : list Z → i2c (list Z)) :
  (∀ l m, match f l m with
    | Some (m', Ok l') => length (dst m') = length (dst m) ∧ (length l = k → length l' = k)
    | Some (m', Err _) => length (dst m') = length (dst m)
    | None => True end) →
  keeps_len (fill_dst offset k f).
Proof.
  intros Hf m. unfold fill_dst, mbind, drv_bind, reads, lift, writes. cbn beta iota.
  destruct (slice_range (dst m) offset (offset + k)) as [chunk|] eqn:Es; [|done]. cbn [ok_or].
  specialize (Hf chunk m). destruct (f chunk m) as [[m1 [l|e]]|]; [|done..]. destruct Hf as [Hl Hk].
  unfold slice_range in Es. case_match eqn:Hr; [|done]. injection Es as <-.
  cbn [dst set_dst]. apply length_write_at. rewrite Hk; [apply andb_prop in Hr as [?%Nat.leb_le ?%Nat.leb_le]; lia|].
  apply andb_prop in Hr as [?%Nat.leb_le ?%Nat.leb_le]. rewrite ?length_take, ?length_drop. lia.
Qed.

Lemma len_fill_pool offset k : keeps_len (fill_dst offset k copy_from_buffer).
Proof.
  apply len_fill. intros l m. pose proof (copy_from_length l m) as Hc.
  destruct (copy_from_buffer l m) as [[m' [l'|e]]|]; [|done..]. destruct Hc as [? ->]. done.
Qed.
Lemma len_fill_ram offset k a : keeps_len (fill_dst offset k (λ _, reads (λ m, ram_load (mmio m) a k))).
Proof. apply len_fill. intros l m. cbn. split; [done|]. intros _. unfold ram_load. by rewrite length_fmap, length_seq. Qed.
#[local] Hint Resolve len_fill_pool len_fill_ram len_wait_armed : lens.

Lemma len_chunk_loop max (body : nat → nat → i2c unit) total fuel offset :
  (∀ o k, keeps_len (body o k)) → keeps_len (chunk_loop max body total fuel offset).
Proof.
  intros Hb. revert offset. induction fuel as [|fuel IH]; intros offset; cbn [chunk_loop];
    destruct (offset <? total)%nat; try apply len_ret; [done|]. by apply len_bind.
Qed.

Lemma len_read_in_mode mode addr : keeps_len (read_in_mode mode addr).
Proof.
  destruct mode; cbn [read_in_mode].
  - unfold read_byte_mode. apply len_bind; [lens|intros n]. do 3 (apply len_bind; [lens|intros _]).
    apply len_for. intros i. unfold read_byte. do 3 (apply len_bind; [lens|intros _]). apply len_bind; [lens|intros v].
    apply len_bind; [apply len_writes; intros m; cbn [dst set_dst]; apply length_insert|]. lens.
  - unfold read_buffer_mode. apply len_bind; [lens|intros n]. apply len_bind; [lens|intros _].
    apply len_chunk_loop. intros o k. unfold read_buffer_chunk, check_chunk. lens.
  - unfold read_dma_mode. apply len_bind; [lens|intros n]. apply len_bind; [lens|intros _].
    apply len_chunk_loop. intros o k. unfold read_dma_chunk, check_chunk, dma_buffer, arm_rx. lens.
Qed.

Lemma len_ast_read addr : keeps_len (ast_read addr).
Proof. unfold ast_read. pose proof len_read_in_mode. lens. Qed.

Lemma len_slave_read : keeps_len slave_read.
Proof.
  apply len_bind; [lens|]. intros [].
  - unfold slave_read_byte, clear_slave_interrupts. apply len_bind; [lens|intros v].
    apply len_bind; [apply len_writes; intros m; cbn [dst set_dst]; apply length_insert|]. lens.
  - intros m. unfold slave_read_fifo, rd, reads, writes, wr, mbind, drv_bind. cbn beta iota.
    destruct (i2c_rd (mmio m) I2cc0c) as [h v]. cbn beta iota. cbn [dst set_mmio].
    set (n := Nat.min _ SLAVE_FIFO_SIZE). pose proof (copy_from_length (replicate n 0) (set_mmio h m)) as Hc.
    destruct (copy_from_buffer _ _) as [[m1 [tmp|e]]|]; [|done..]. destruct Hc as [_ Hl]. rewrite length_replicate in Hl.
    cbn. apply length_write_at. rewrite Hl. unfold n. lia.
  - unfold slave_read_dma. apply len_bind; [lens|intros v]. intros m. unfold mbind at 1, drv_bind at 1. cbn beta iota delta [reads].
    unfold mbind at 1, drv_bind at 1. cbn beta iota delta [reads]. destruct (slave_dma_buf m) as [[a len]|].
    2:{ apply (len_bind (wr I2cs28 _) (λ _, mret _)); lens. }
    set (n := Nat.min _ (length (dst m))). cbn [snd fst].
    assert (∀ m0, length (dst m0) = length (dst m) → match
      (point_slave_dma true (a, len);; wr I2cs28 (Z.lor PACKET_CMD AST_I2CS_RX_DMA_EN);; mret n) m0 with
      | Some (m', _) => length (dst m') = length (dst m) | None => True end) as Hrest.
    { intros m0 <-. assert (keeps_len (point_slave_dma true (a, len);; wr I2cs28 (Z.lor PACKET_CMD AST_I2CS_RX_DMA_EN);; mret n)) as Hk;
        [|apply Hk]. unfold point_slave_dma. lens. }
    apply Hrest. cbn [dst set_dst]. apply length_write_at. unfold ram_load. rewrite length_fmap, length_seq. unfold n. lia.
Qed.

(** The bytes [slave_read] reports are bytes of the slice. *)
Definition yields {E A} (P : A → Prop) (c : drv (Ast1060I2c H) E A) : Prop :=
  ∀ m, match c m with Some (_, Ok a) => P a | _ => True end.

Lemma yields_bind {E A C} (P : C → Prop) (c : drv (Ast1060I2c H) E A) (f : A → drv (Ast1060I2c H) E C) :
  (∀ a, yields P (f a)) → yields P (c ≫= f).
Proof.
  intros Hf m. unfold mbind, drv_bind. destruct (c m) as [[m1 [a|e]]|]; [|done..]. apply Hf.
Qed.
Lemma yields_ret {E A} (P : A → Prop) (a : A) : P a → yields (E:=E) P (mret a).
Proof. by intros HP m. Qed.
Lemma yields_rd_dst {A} r (P : A → Prop) (f : Z → list Z → i2c A) m :
  (∀ v, yields P (f v (dst m))) → match (v ← rd r; buffer ← reads dst; f v buffer) m with Some (_, Ok a) => P a | _ => True end.
Proof.
  intros Hf. unfold rd, reads, mbind, drv_bind. destruct (i2c_rd (mmio m) r) as [h v]. cbn beta iota. apply Hf.
Qed.

Lemma slave_read_count m : dst m ≠ [] →
  match slave_read m with Some (_, Ok n) => (n ≤ length (dst m))%nat | _ => True end.
Proof.
  intros Hne. assert (0 < length (dst m))%nat by (destruct (dst m); [done|cbn; lia]).
  unfold slave_read. unfold mbind at 1, drv_bind at 1. cbn beta iota delta [reads]. destruct (xfer_mode m).
  - apply (yields_bind (λ n, (n ≤ length (dst m))%nat) (rd I2cc08)). intros v. repeat (apply yields_bind; intros ?).
    apply yields_ret. lia.
  - apply (yields_rd_dst I2cc0c (λ n, (n ≤ length (dst m))%nat)
      (λ v buffer, let n := Nat.min (Nat.min (as_usize (fget FActualRxdPoolBufferSize v)) (length buffer)) SLAVE_FIFO_SIZE in
        tmp ← copy_from_buffer (replicate n 0); writes (set_dst (write_at 0 tmp buffer));;
        wr I2cs28 (Z.lor PACKET_CMD AST_I2CS_RX_BUFF_EN);; mret n)).
    intros v. cbv zeta. repeat (apply yields_bind; intros ?). apply yields_ret. lia.
  - pose (g := λ v (buffer : list Z), let to_read := Nat.min (as_usize (fget FDmarxActualLen v)) (length buffer) in
      o ← reads slave_dma_buf;
      match (o : option (Z * nat)) with
      | Some dma_buf =>
          let src_len := Nat.min to_read dma_buf.2 in
          writes (λ m, set_dst (write_at 0 (ram_load (mmio m) dma_buf.1 src_len) buffer) m);;
          point_slave_dma true dma_buf;; wr I2cs28 (Z.lor PACKET_CMD AST_I2CS_RX_DMA_EN);; mret to_read
      | None => wr I2cs28 (Z.lor PACKET_CMD AST_I2CS_RX_BUFF_EN);; mret to_read
      end : i2c nat).
    apply (yields_rd_dst I2cs4c (λ n, (n ≤ length (dst m))%nat) g). intros v. unfold g. cbv zeta.
    apply yields_bind. intros [buf|]; repeat (apply yields_bind; intros ?); apply yields_ret; lia.
Qed.

(** Whatever a transaction returns, the operations are those lent to it. *)
Lemma ast_transaction_lent addr ops m :
  match ast_transaction addr ops m with
  | Some (_, Ok ops') | Some (_, Err (_, ops')) => Forall2 op_lent ops ops'
  | None => True
  end.
Proof.
  revert m. induction ops as [|[data|buf] rest IH]; intros m; cbn [ast_transaction]; [constructor|..].
  - destruct (ast_write addr data m) as [[m1 [u|e]]|]; [|apply op_lent_refl|done]. specialize (IH m1).
    destruct (ast_transaction addr rest m1) as [[m2 [ops'|[e ops']]]|]; try done; by constructor.
  - change ((lend buf;; ast_read addr) m) with (ast_read addr (set_dst buf m)).
    pose proof (len_ast_read addr (set_dst buf m)) as Hl. cbn [dst set_dst] in Hl.
    destruct (ast_read addr (set_dst buf m)) as [[m1 [u|e]]|]; [| |done].
    + specialize (IH m1). destruct (ast_transaction addr rest m1) as [[m2 [ops'|[e ops']]]|]; try done;
        constructor; [by cbn; lia|done|by cbn; lia|done].
    + constructor; [by cbn; lia|]. apply op_lent_refl.
Qed.
End lengths.

(** ** The backend as the driver of the server *)

Section backend.
Context {H : Type} `{I2cHw H}.
Notation backend := (Ast1060I2cBackend H).

(** A call that panics takes the server down; what it would leave is immaterial. *)
Definition driver_answer {A} (b : backend) (o : option (backend * result A AstI2cError)) : backend * result A ErrorKind :=
  match o with
  | Some (b, r) => (b, map_err ast_kind r)
  | None => (b, Err KOther)
  end.

#[export] Instance backend_driver : I2cDriver backend := {|
  driver_bus := λ b a ops,
    match bk_transaction a ops b with
    | Some (b, Ok ops) => (b, ops, Ok ())
    | Some (b, Err (e, ops)) => (b, ops, Err (ast_kind e))
    | None => (b, ops, Err KOther)
    end;
  driver_slave := {|
    configure_slave_address := λ b a, driver_answer b (bk_configure_slave_address a b);
    enable_slave_mode := λ b, driver_answer b (bk_enable_slave_mode b);
    disable_slave_mode := λ b, driver_answer b (bk_disable_slave_mode b) |};
  read_slave_buffer := λ b buf,
    match bk_read_slave_buffer buf b with
    | Some (b, buf, r) => (b, buf, map_err ast_kind r)
    | None => (b, buf, Err KOther)
    end;
  write_slave_response := λ b data, driver_answer b (bk_write_slave_response data b);
  try_next_slave_event := λ b, driver_answer b (bk_try_next_slave_event b);
  recover_bus := λ b, driver_answer b (bk_recover_bus b);
|}.

#[export] Instance backend_laws : I2cDriverLaws backend.
Proof.
  constructor.
  - intros b a ops. unfold transaction, driver_bus, backend_driver, bk_transaction, with_transient.
    pose proof (ast_transaction_lent a ops (make_driver b)) as Hl.
    destruct (ast_transaction a ops (make_driver b)) as [[m [ops'|[e ops']]]|]; try done. apply op_lent_refl.
  - intros b buf. unfold read_slave_buffer, backend_driver, bk_read_slave_buffer, with_slice.
    pose proof (len_slave_read (set_dst buf (make_driver b))) as Hl.
    by destruct (slave_read (set_dst buf (make_driver b))) as [[m r]|].
  - intros b buf n Hne. unfold read_slave_buffer, backend_driver, bk_read_slave_buffer, with_slice.
    pose proof (slave_read_count (set_dst buf (make_driver b)) Hne) as Hl.
    destruct (slave_read (set_dst buf (make_driver b))) as [[m [k|e]]|]; cbn; intros [= <-]; done.
Qed.
End backend.

(** ** From the channel to the bus *)

Section served.
Context {H B : Type} `{I2cHw H} `{I2cWires B} `{I2cCtl H B} `{!I2cCtlLaws H B}.
Notation backend := (Ast1060I2cBackend H).

(** A transaction of the driver, in byte, buffer or DMA mode alike, is on the
    bus the sequence of its operations, each from its own START to its own STOP,
    up to the first that fails; it returns, with the bytes read or with the error
    of the failure, and leaves the controller at rest. *)
Theorem transaction_on_the_bus addr (b : B) ops (m : Ast1060I2c H) :
  rests_on b m → Forall (op_fits m) ops →
  ∃ m' r, ast_transaction addr ops m = Some (m', r) ∧ transacted b (Z.land addr 0x7f) ops m r m'.
Proof. intros Hob Hfit. exact (dwp_run _ _ _ (transaction_transfers addr b ops m Hob Hfit)). Qed.

(** The backend's transaction. *)
Lemma backend_transaction (d : backend) a ops :
  ctl_wait (bk_regs d) = 0%nat → Forall (op_fits (make_driver d)) ops →
  let t := wires_ops (ctl_bus (bk_regs d)) (Z.land a 0x7f) ops in
  ∃ h ops', transaction d a ops =
      (bk_set_regs h d, ops', match t.2 with None => Ok () | Some f => Err (ast_kind (fault_error f)) end) ∧
    ctl_wait h = 0%nat ∧ ctl_bus h = t.1.1 ∧ (t.2 = None → ops' = t.1.2).
Proof.
  intros Hw Hfit. set (b := ctl_bus (bk_regs d)).
  assert (mmio (make_driver d) = bk_regs d) as Em.
  { unfold make_driver. by destruct (bk_master_dma_buf d), (bk_slave_dma_buf d). }
  pose proof (transaction_transfers a b ops (make_driver d)) as Ht. unfold rests_on in Ht. rewrite Em in Ht.
  specialize (Ht ltac:(done) Hfit). unfold dwp, transacted in Ht. cbv zeta.
  unfold transaction, driver_bus, backend_driver, bk_transaction, with_transient.
  destruct (ast_transaction a ops (make_driver d)) as [[m r]|]; [|done].
  set (t := wires_ops b (Z.land a 0x7f) ops) in *. destruct Ht as ([Wt Bt] & _ & Hr). exists (mmio m).
  destruct t as [[b' ops'] [f|]]; cbn [fst snd] in *.
  - destruct Hr as (ops2 & -> & _). eexists. split; [done|]. done.
  - subst r. eexists. split; [done|]. done.
Qed.

(** Blank read buffers make no difference to the bus. *)
Lemma bus_ops_blank (b : B) a ops :
  let t := wires_ops b a ops in let t' := wires_ops b a (blank <$> ops) in
  t'.1.1 = t.1.1 ∧ t'.2 = t.2 ∧ (t.2 = None → t'.1.2 = t.1.2).
Proof.
  revert b. induction ops as [|[data|buf] rest IH]; intros b; [done|..]; rewrite fmap_cons; cbn [wires_ops blank].
  - destruct (wires_write b a data) as [b1 [f|]]; [done|]. specialize (IH b1). cbv zeta in *.
    destruct (wires_ops b1 a rest) as [[b2 o2] f2], (wires_ops b1 a (blank <$> rest)) as [[b3 o3] f3]; cbn [fst snd] in *.
    destruct IH as (-> & -> & IH). split_and!; try done. intros Hf. by rewrite IH.
  - rewrite length_replicate. destruct (wires_read b a (length buf)) as [[b1 l1] [f|]]; [done|]. specialize (IH b1).
    cbv zeta in *.
    destruct (wires_ops b1 a rest) as [[b2 o2] f2], (wires_ops b1 a (blank <$> rest)) as [[b3 o3] f3]; cbn [fst snd] in *.
    destruct IH as (-> & -> & IH). split_and!; try done. intros Hf. by rewrite IH.
Qed.

Lemma op_fits_blank (m : Ast1060I2c H) ops : Forall (op_fits m) ops → Forall (op_fits m) (blank <$> ops).
Proof.
  intros Hf. apply Forall_fmap. revert Hf. apply Forall_impl. intros [data|buf] Ho; [done|].
  unfold compose. cbn [blank op_fits] in *. by rewrite length_replicate.
Qed.

(** The faults after which the server recovers the bus. *)
Definition recovers (f : option bus_fault) : bool :=
  match f with Some FaultArbitration | Some FaultBus => true | _ => false end.

Lemma recovered_not (d : backend) f :
  recovers f = false →
  recovered d match f with None => Ok () | Some f => Err (ast_kind (fault_error f)) end = d.
Proof. by destruct f as [[]|]. Qed.

(** A client's transaction is on the bus the sequence of its operations, each
    from its own START to its own STOP. *)
Lemma client_transaction_on_wires (bus : BusState backend) sbuf addr ops :
  ctl_wait (bk_regs (driver bus)) = 0%nat → Forall (op_fits (make_driver (driver bus))) ops →
  in_u8 addr → (length ops ≤ MAX_OPS)%nat → (length (write_data ops) ≤ MAX_PAYLOAD_SIZE)%nat →
  (length (read_data ops) ≤ MAX_PAYLOAD_SIZE)%nat → length sbuf = MAX_BUF_SIZE →
  let t := wires_ops (ctl_bus (bk_regs (driver bus))) (Z.land addr 0x7f) ops in
  ∃ s', client_transact (mkServed bus sbuf) addr ops = Some (s',
      match t.2 with None => t.1.2 | Some _ => ops end,
      match t.2 with None => Ok () | Some f => Err (ServerError (kind_to_wire (ast_kind (fault_error f)))) end) ∧
    (recovers t.2 = false →
       ctl_bus (bk_regs (driver (sv_bus s'))) = t.1.1 ∧ ctl_wait (bk_regs (driver (sv_bus s'))) = 0%nat).
Proof.
  intros Hw Hfit Ha Hn Hwr Hrd Hs t.
  pose proof (served_transaction_recovers bus sbuf addr ops Ha Hn Hwr Hrd Hs) as Hserved.
  destruct (backend_transaction (driver bus) addr (blank <$> ops) Hw (op_fits_blank _ _ Hfit)) as (h & ops' & Ht & Wh & Bh & Hops).
  destruct (bus_ops_blank (ctl_bus (bk_regs (driver bus))) (Z.land addr 0x7f) ops) as (E1 & E2 & E3). fold t in E1, E2, E3.
  rewrite E2 in Ht, Hops. rewrite Ht in Hserved. cbn beta iota in Hserved.
  destruct Hserved as (sbuf' & _ & ->). destruct t as [[b' o'] [f|]]; cbn [fst snd] in *.
  - eexists. split; [done|]. intros Hrec. cbn [sv_bus driver with_driver].
    rewrite (recovered_not _ (Some f)) by done. cbn [bk_regs bk_set_regs]. split; [congruence|done].
  - rewrite Hops, E3 by done. eexists. split; [done|]. intros _. cbn. split; [congruence|done].
Qed.

(** The transfer of one operation: the bus afterwards, the operation with the
    bytes it read, the fault. *)
Definition wires_op (b : B) (a : Z) (o : Operation) : B * Operation * option bus_fault :=
  match o with
  | OpWrite data => let '(b', f) := wires_write b a data in (b', OpWrite data, f)
  | OpRead buf => let '(b', l, f) := wires_read b a (length buf) in (b', OpRead l, f)
  end.

Lemma wires_ops_one (b : B) a o :
  wires_ops b a [o] =
    let '(b', o', f) := wires_op b a o in (b', [match f with None => o' | Some _ => o end], f).
Proof.
  destruct o as [data|buf]; cbn [wires_ops wires_op].
  - by destruct (wires_write b a data) as [b' [f|]].
  - by destruct (wires_read b a (length buf)) as [[b' l] [f|]].
Qed.

(** C13: A read or a write a client asks for over its channel, as a transaction of
    one operation within the payload limit of a request, served by the backend of a
    controller at rest whose DMA buffer, if it uses one, holds its chunks, makes on
    the bus exactly the transfer the operation names, from START to STOP, in byte,
    buffer or DMA mode alike (an empty operation makes none); the client gets the
    bytes read or the error of the failed transfer; unless the failure is one the
    server answers with a bus recovery, the bus is then as the transfer left it and
    the controller at rest.  (Of a transaction of several operations each is such a
    transfer of its own, which is not what [hal_impl.rs] documents: the bus held
    between them.) *)
Theorem client_operation_reaches_wires (bus : BusState backend) sbuf addr o :
  ctl_wait (bk_regs (driver bus)) = 0%nat → op_fits (make_driver (driver bus)) o →
  in_u8 addr → (length (write_data [o]) ≤ MAX_PAYLOAD_SIZE)%nat →
  (length (read_data [o]) ≤ MAX_PAYLOAD_SIZE)%nat → length sbuf = MAX_BUF_SIZE →
  let '(b', o', f) := wires_op (ctl_bus (bk_regs (driver bus))) (Z.land addr 0x7f) o in
  ∃ s', client_transact (mkServed bus sbuf) addr [o] = Some (s',
      [match f with None => o' | Some _ => o end],
      match f with None => Ok () | Some f => Err (ServerError (kind_to_wire (ast_kind (fault_error f)))) end) ∧
    (recovers f = false →
       ctl_bus (bk_regs (driver (sv_bus s'))) = b' ∧ ctl_wait (bk_regs (driver (sv_bus s'))) = 0%nat).
Proof.
  intros Hw Hfit Ha Hwr Hrd Hs.
  destruct (client_transaction_on_wires bus sbuf addr [o]) as (s' & Hc & Hb);
    [done|by constructor|done|unfold MAX_OPS; cbn; lia|done..|].
  rewrite wires_ops_one in Hc, Hb.
  destruct (wires_op _ _ o) as [[b' o'] [f|]]; by exists s'.
Qed.

(** ** Recovery *)

Lemma upd_holds r f (m : Ast1060I2c H) (Q : result unit AstI2cError → Ast1060I2c H → Prop) :
  holds r = true → ctl_wait (mmio m) = 0%nat →
  (∀ h, ctl_wait h = 0%nat → ctl_bus h = ctl_bus (mmio m) → ctl_reg h r = f (ctl_reg (mmio m) r) →
    Q (Ok ()) (set_mmio h m)) →
  dwp (upd_reg r f) Q m.
Proof.
  intros Hr Hw HQ. apply dwp_bind, dwp_rd. cbn beta iota. rewrite (rd_holds (B:=B)) by done.
  destruct (rd_keeps (B:=B) (mmio m) r) as (K1 & _ & K3 & _). apply dwp_wr. cbn [mmio set_mmio].
  destruct (wr_idle (B:=B) (i2c_rd (mmio m) r).1 r (f (ctl_reg (mmio m) r))) as (W & Eb & _ & _ & _ & Er & _);
    [by rewrite Hr|lia|]. apply HQ; [done|congruence|done].
Qed.

(** [recover_bus] switches the slave function off and does not switch it on again,
    also where it finds nothing to recover: SDA not held low, or SCL held low. *)
Lemma recovery_drops_slave (m : Ast1060I2c H) :
  ctl_wait (mmio m) = 0%nat →
  (∀ h, bit FSampledSda (i2c_rd h I2cc08).2 || negb (bit FSampledScl (i2c_rd h I2cc08).2) = true) →
  dwp ast_recover_bus (λ r m', r = Err AstBusRecoveryFailed ∧ ctl_bus (mmio m') = ctl_bus (mmio m) ∧
    fget FSlaveFn (ctl_reg (mmio m') I2cc00) = 0) m.
Proof.
  intros Hw Hline. unfold ast_recover_bus. apply dwp_bind, upd_holds; [done..|].
  intros h1 W1 B1 R1. cbn beta iota. apply dwp_bind, upd_holds; [done..|]. cbn [mmio set_mmio].
  intros h2 W2 B2 R2. cbn beta iota. apply dwp_bind, dwp_wr. cbn beta iota. cbn [mmio set_mmio].
  destruct (wr_clear h2 0xffffffff) as (W3 & _ & B3 & _ & _ & _ & R3); [done..|].
  apply dwp_bind, dwp_rd. cbn beta iota. cbn [mmio set_mmio]. rewrite Hline.
  destruct (rd_keeps (B:=B) (i2c_wr h2 I2cm14 0xffffffff) I2cc08) as (B4 & _ & _ & _ & _ & _ & R4).
  apply dwp_bind, dwp_raise. cbn [mmio set_mmio]. split; [done|]. split; [congruence|].
  rewrite R4, R3, R2, R1. unfold set_bit, clear_bit. rewrite (fget_other (B:=B) _ _ I2cc00) by done.
  by rewrite (fget_fput (B:=B)).
Qed.

(** [is_bus_busy] looks for command bits in the status register: it answers no
    while a transfer runs. *)
Lemma running_bus_not_busy (m : Ast1060I2c H) n :
  ctl_wait (mmio m) = S n → dwp is_bus_busy (λ r _, r = Ok false) m.
Proof.
  intros Hw. destruct (rd_waiting (mmio m) n Hw) as [Hs _]. unfold ctl_silent in Hs.
  rewrite !List.Forall_cons_iff in Hs. destruct Hs as (_ & E2 & E3 & _ & E5 & _).
  unfold is_bus_busy. apply dwp_bind, dwp_rd. cbn beta iota. apply dwp_ret. f_equal.
  set (v := (i2c_rd (mmio m) I2cm14).2) in *. clearbody v.
  unfold has_flag in *. apply negb_false_iff, Z.eqb_eq. apply negb_false_iff, Z.eqb_eq in E2, E3, E5.
  rewrite Z.land_lor_distr_r in E2. apply Z.lor_eq_0_iff in E2 as [E2 _]. rewrite !Z.land_lor_distr_r.
  change AST_I2CM_TX_CMD with AST_I2CM_TX_NAK. change AST_I2CM_RX_CMD with AST_I2CM_ARBIT_LOSS.
  change AST_I2CM_START_CMD with AST_I2CM_TX_ACK. by rewrite E2, E3, E5.
Qed.
End served.

(** ** On the concrete controller *)

Definition chip_backend (mode : I2cXferMode) : Ast1060I2cBackend chip :=
  mkBackend chip_reset (chip_config mode) (Some (0x1000, 64%nat)) (Some (0x2000, 64%nat)) false None.

Lemma chip_dma_fits mode n : (n ≤ 64)%nat → dma_fits (chip_driver mode) n.
Proof.
  intros Hn _. exists 0x1000, 64%nat. split; [done|]. split; [by split|]. lia.
Qed.

Lemma chip_fits mode : Forall (op_fits (chip_driver mode)) [OpWrite [5]; OpRead [0; 0]].
Proof.
  rewrite !List.Forall_cons_iff. split; [split|split; [|constructor]].
  - constructor; [by split|constructor].
  - apply chip_dma_fits. cbn. lia.
  - apply chip_dma_fits. cbn. lia.
Qed.

Lemma transaction_on_the_bus_witness :
  ∃ m' r, ast_transaction 0x50 [OpWrite [5]; OpRead [0; 0]] (chip_driver DmaMode) = Some (m', r) ∧
    transacted (mkTarget 0 []) (Z.land 0x50 0x7f) [OpWrite [5]; OpRead [0; 0]] (chip_driver DmaMode) r m'.
Proof.
  apply (@transaction_on_the_bus chip target _ _ _ _ 0x50 (mkTarget 0 []) [OpWrite [5]; OpRead [0; 0]] (chip_driver DmaMode)).
  - split; reflexivity.
  - exact (chip_fits DmaMode).
Defined.

(** What that is on the wires: a STOP between the operations, although the
    transaction is documented to hold the bus. *)
Example transaction_releases_the_bus :
  wires_ops (mkTarget 0 []) 0x50 [OpWrite [5]; OpRead [0; 0]] =
    (mkTarget 7 [WStart 0x50 false; WPut 5; WStop; WStart 0x50 true; WGet 36 false; WGet 43 true; WStop],
     [OpWrite [5]; OpRead [36; 43]], None).
Proof. reflexivity. Qed.

(** [write_read] holds it, also when there is nothing to read. *)
Example write_read_holds_the_bus :
  wires_write_read (mkTarget 0 []) 0x50 [5] 2 =
    (mkTarget 7 [WStart 0x50 false; WPut 5; WStart 0x50 true; WGet 36 false; WGet 43 true; WStop], [36; 43], None) ∧
  wires_write_read (mkTarget 0 []) 0x50 [5] 0 = (mkTarget 5 [WStart 0x50 false; WPut 5], [], None).
Proof. done. Qed.

Lemma client_operation_reaches_wires_witness :
  ∃ s', client_transact (mkServed (Bus_new 3 9 (chip_backend BufferMode)) (replicate 512 0)) 0x50 [OpRead [0; 0]] =
      Some (s', [OpRead [1; 8]], Ok ()) ∧
    (recovers None = false →
      ctl_bus (bk_regs (driver (sv_bus s'))) = mkTarget 2 [WStart 0x50 true; WGet 1 false; WGet 8 true; WStop] ∧
      ctl_wait (bk_regs (driver (sv_bus s'))) = 0%nat).
Proof.
  pose proof (@client_operation_reaches_wires chip target _ _ _ _ (Bus_new 3 9 (chip_backend BufferMode)) (replicate 512 0)
    0x50 (OpRead [0; 0]) eq_refl (proj1 (proj1 (List.Forall_cons_iff _ _ _) (proj2 (proj1 (List.Forall_cons_iff _ _ _) (chip_fits BufferMode)))))) as Hr.
  cbv zeta in Hr.
  match type of Hr with context [wires_op ?b ?a ?o] =>
    let v := eval vm_compute in (wires_op b a o) in change (wires_op b a o) with v in Hr end.
  cbn beta iota in Hr. apply Hr.
  - split; discriminate.
  - vm_compute. lia.
  - vm_compute. lia.
  - reflexivity.
Defined.

(** After a recovery the backend still reports slave mode, which the hardware has
    left. *)
Example recovery_loses_slave_mode :
  match (bk_enable_slave_mode;; attempt bk_recover_bus) (chip_backend BufferMode) with
  | Some (b, _) => bk_is_slave_mode_enabled b = true ∧ chip_field (bk_regs b) I2cc00 FSlaveFn = 0
  | None => False
  end.
Proof. by vm_compute. Qed.

(** * The AST1060 as an I2C target

    A write of a remote master: the slave interrupt of the driver, the frame in the
    pool buffer, and the latch of the I2C server. *)
(** ** The application buffer *)

(** [SlaveBuffer]: what was written, up to its size. *)
Lemma slave_buffer_write data b :
  length (sb_array b) = SLAVE_BUFFER_SIZE →
  let '(b', n) := sb_write data b in
  length (sb_array b') = SLAVE_BUFFER_SIZE ∧ n = Nat.min (length data) SLAVE_BUFFER_SIZE ∧
  sb_data b' = take SLAVE_BUFFER_SIZE data.
Proof.
  intros Hl. unfold sb_write, sb_data. cbn [sb_array sb_len].
  assert (length (take (Nat.min (length data) SLAVE_BUFFER_SIZE) data) = Nat.min (length data) SLAVE_BUFFER_SIZE) as Ht
    by (rewrite length_take; lia).
  split; [rewrite length_write_at; [done|lia]|]. split; [done|].
  rewrite write_at_0. rewrite <- Ht at 1. rewrite take_app_length.
  destruct (decide (length data ≤ SLAVE_BUFFER_SIZE)%nat).
  - rewrite Nat.min_l by lia. by rewrite !take_ge by lia.
  - by rewrite Nat.min_r by lia.
Qed.

(** ** The interrupt *)

(** The statuses of a packet that report received bytes. *)
Definition receive_statuses : list (list Z) :=
  [[AST_I2CS_SLAVE_MATCH; AST_I2CS_WAIT_RX_DMA];
   [AST_I2CS_SLAVE_MATCH; AST_I2CS_RX_DONE; AST_I2CS_WAIT_RX_DMA];
   [AST_I2CS_RX_DONE; AST_I2CS_STOP];
   [AST_I2CS_RX_DONE; AST_I2CS_WAIT_RX_DMA];
   [AST_I2CS_RX_DONE; AST_I2CS_WAIT_RX_DMA; AST_I2CS_STOP];
   [AST_I2CS_RX_DONE_NAK; AST_I2CS_RX_DONE; AST_I2CS_STOP];
   [AST_I2CS_SLAVE_MATCH; AST_I2CS_RX_DONE; AST_I2CS_STOP];
   [AST_I2CS_SLAVE_MATCH; AST_I2CS_RX_DONE; AST_I2CS_WAIT_RX_DMA; AST_I2CS_STOP];
   [AST_I2CS_SLAVE_MATCH; AST_I2CS_RX_DONE_NAK; AST_I2CS_RX_DONE; AST_I2CS_STOP]].

Section target_mode.
Context {H B : Type} `{I2cHw H} `{I2cWires B} `{I2cCtl H B} `{!I2cCtlLaws H B}.
Implicit Types m : Ast1060I2c H.
Notation backend := (Ast1060I2cBackend H).

(** Every one of them reaches [slave_received]. *)
Lemma receive_dispatch sts :
  sts ∈ receive_statuses →
  let v := Z.lor AST_I2CS_PKT_DONE (flags sts) in
  v ≠ 0 ∧ has_flag v AST_I2CS_INACTIVE_TO = false ∧ has_flag v AST_I2CS_PKT_ERROR = false ∧
  let s := Z.land v (not_u32 (Z.lor AST_I2CS_SLAVE_PENDING AST_I2CS_SLAVE_ADDR1_NAK)) in
  has_flag s AST_I2CS_PKT_DONE = true ∧
  packet_event (H:=H) (Z.land s (not_u32 (Z.lor AST_I2CS_PKT_DONE AST_I2CS_PKT_ERROR))) = slave_received.
Proof.
  unfold receive_statuses. rewrite !elem_of_cons, elem_of_nil. intros Hin.
  repeat match type of Hin with _ ∨ _ => destruct Hin as [->|Hin] | False => done end; cbv zeta; (split; [by vm_compute|]); by split_and!.
Qed.

(** The event and the number of bytes in the pool buffer. *)
Lemma slave_interrupt_received m sts :
  xfer_mode m = BufferMode → sts ∈ receive_statuses →
  (i2c_rd (mmio m) I2cs24).2 = Z.lor AST_I2CS_PKT_DONE (flags sts) →
  dwp ast_try_next_slave_event (λ r m',
    r = Ok (Some (SlaveWrRecvd, as_usize (fget FActualRxdPoolBufferSize (ctl_reg (mmio m) I2cc0c)))) ∧
    keeps (B:=B) (mmio m) (mmio m') ∧ same_drv m m') m.
Proof.
  intros Hmode Hin Hst. destruct (receive_dispatch sts Hin) as (E1 & E2 & E3 & E4 & E5). cbv zeta in *.
  unfold ast_try_next_slave_event. apply dwp_bind. unfold handle_slave_interrupt. apply dwp_bind, dwp_rd. cbn beta iota.
  rewrite Hst. rewrite (proj2 (Z.eqb_neq _ 0) E1), E2, E3. cbv zeta. rewrite E4, E5.
  apply dwp_bind, dwp_wr. cbn beta iota. unfold slave_received, slave_rx_len. set (m1 := set_mmio _ _).
  assert (K1 : keeps (B:=B) (mmio m) (mmio m1)).
  { eapply keeps_trans; [apply (rd_keeps (mmio m) I2cs24)|]. apply wr_slave_status. }
  apply dwp_bind. apply dwp_bind, dwp_reads. cbn beta iota. change (xfer_mode m1) with (xfer_mode m). rewrite Hmode.
  rewrite bool_decide_eq_false_2 by done. apply dwp_bind, dwp_rd. cbn beta iota. rewrite (rd_holds (B:=B)) by done.
  apply dwp_ret, dwp_ret. cbn beta iota. apply dwp_ret. split_and!; [|eapply keeps_trans; [exact K1|apply rd_keeps]|done].
  destruct K1 as (_ & _ & _ & _ & _ & _ & ->). done.
Qed.

(** The frame, up to the size of the slice and of the buffer. *)
Lemma slave_read_frame m :
  xfer_mode m = BufferMode → ctl_wait (mmio m) = 0%nat →
  let raw := as_usize (fget FActualRxdPoolBufferSize (ctl_reg (mmio m) I2cc0c)) in
  let n := Nat.min (Nat.min raw (length (dst m))) SLAVE_FIFO_SIZE in
  dwp slave_read (λ r m', r = Ok n ∧ ctl_wait (mmio m') = 0%nat ∧ ctl_bus (mmio m') = ctl_bus (mmio m) ∧
    dst m' = write_at 0 (take n (ctl_pool (mmio m))) (dst m)) m.
Proof.
  intros Hmode Hw raw n. unfold slave_read. apply dwp_bind, dwp_reads. rewrite Hmode. cbn beta iota.
  unfold slave_read_fifo. apply dwp_bind, dwp_rd. cbn beta iota. rewrite (rd_holds (B:=B)) by done. fold raw.
  destruct (rd_keeps (B:=B) (mmio m) I2cc0c) as (K1 & K2 & K3 & _ & K5 & _). set (h1 := (i2c_rd (mmio m) I2cc0c).1) in *.
  apply dwp_bind, dwp_reads. cbn beta iota. cbn [dst set_mmio]. fold n.
  apply dwp_bind. eapply dwp_mono; [apply (copy_from_buffer_pool (B:=B)); rewrite length_replicate; unfold n, SLAVE_FIFO_SIZE; lia|].
  cbn [mmio set_mmio]. rewrite length_replicate, K5. intros r m1 ((L1 & _ & L3 & _) & D1 & ->). cbn beta iota.
  apply dwp_bind, dwp_writes. cbn beta iota. apply dwp_bind, dwp_wr. cbn beta iota. apply dwp_ret.
  cbn [mmio set_mmio set_dst dst].
  destruct (wr_idle (B:=B) (mmio m1) I2cs28 (Z.lor PACKET_CMD AST_I2CS_RX_BUFF_EN)) as (W2 & B2 & _); [done|lia|].
  split_and!; try done. congruence.
Qed.

(** C38: When a remote master has written a frame (the address byte first) into the
    receive buffer of a bus in buffer mode, with the controller at rest and
    notifications enabled, the interrupt, if its status word is one of the nine of
    [receive_statuses], puts the bytes the controller counted, at most the 32 the
    buffer holds and the rest cut off, into the latch of the server; the rest of
    the latch is as it was, and the client is signalled. *)
Theorem master_write_is_latched (bus : BusState backend) sts :
  cfg_xfer_mode (bk_config (driver bus)) = BufferMode → ctl_wait (bk_regs (driver bus)) = 0%nat →
  notif_enabled bus = true → bus_wf bus →
  sts ∈ receive_statuses → (i2c_rd (bk_regs (driver bus)) I2cs24).2 = Z.lor AST_I2CS_PKT_DONE (flags sts) →
  let n := Nat.min (as_usize (fget FActualRxdPoolBufferSize (ctl_reg (bk_regs (driver bus)) I2cc0c))) 32 in
  (0 < n)%nat →
  let '(bus', calls) := handle_irq bus in
  rx_len bus' = n ∧ take n (rx bus') = take n (ctl_pool (bk_regs (driver bus))) ∧ drop n (rx bus') = drop n (rx bus) ∧
  rx_event_kind bus' = DataReceived ∧ SetPeerUserSignal (channel bus) true ∈ calls.
Proof.
  intros Hmode Hw Hen [Hlen _] Hin Hst n Hn. set (d := driver bus) in *.
  assert (∀ d : backend, mmio (make_driver d) = bk_regs d ∧ xfer_mode (make_driver d) = cfg_xfer_mode (bk_config d)) as Emk.
  { intros d'. unfold make_driver. by destruct (bk_master_dma_buf d'), (bk_slave_dma_buf d'). }
  destruct (Emk d) as [Em Ex].
  pose proof (slave_interrupt_received (make_driver d) sts) as Hev. rewrite Em, Ex in Hev. specialize (Hev Hmode Hin Hst).
  unfold handle_irq, drain_irq. rewrite Hen. fold d.
  unfold try_next_slave_event, backend_driver, driver_answer, bk_try_next_slave_event, with_transient. unfold dwp in Hev.
  destruct (ast_try_next_slave_event (make_driver d)) as [[m1 r]|]; [|done]. destruct Hev as (-> & K & _). cbn [map_err].
  cbn [driver with_driver with_kind rx]. set (d1 := bk_set_regs (mmio m1) d).
  destruct (Emk d1) as [Em1 Ex1].
  pose proof (slave_read_frame (set_dst (rx bus) (make_driver d1))) as Hrd. cbn [mmio set_dst xfer_mode dst] in Hrd.
  rewrite Em1, Ex1 in Hrd. destruct K as (_ & _ & Kw & _ & Kp & _ & Kr).
  specialize (Hrd Hmode). cbn [d1 bk_regs bk_set_regs] in Hrd. specialize (Hrd ltac:(lia)). cbv zeta in Hrd.
  rewrite Kr, Kp in Hrd.
  assert (Nat.min (Nat.min (as_usize (fget FActualRxdPoolBufferSize (ctl_reg (bk_regs d) I2cc0c))) (length (rx bus))) SLAVE_FIFO_SIZE = n) as En.
  { unfold n, SLAVE_FIFO_SIZE. rewrite Hlen. unfold MAX_PAYLOAD_SIZE. lia. }
  rewrite En in Hrd. unfold dwp in Hrd.
  unfold read_slave_buffer, bk_read_slave_buffer, with_slice.
  destruct (slave_read (set_dst (rx bus) (make_driver d1))) as [[m2 r]|]; [|done].
  destruct Hrd as (-> & _ & _ & Hdst). cbn [map_err]. rewrite (proj2 (Nat.ltb_lt 0 n) Hn).
  cbn [rx_len rx rx_event_kind notif_enabled with_rx_len with_rx with_driver with_kind channel irq].
  rewrite Hen. rewrite (proj2 (Nat.ltb_lt 0 n) Hn). cbn [andb orb].
  pose proof (pool_length (B:=B) (bk_regs d)) as Hpl.
  assert (length (take n (ctl_pool (bk_regs d))) = n) as Htl by (rewrite length_take; lia).
  rewrite Hdst, write_at_0, Htl. split_and!; try done.
  - by rewrite take_app_length'.
  - by rewrite drop_app_length'.
  - right. left.
Qed.
End target_mode.

(** ** On the concrete controller *)

(** Three bytes in the pool buffer, reported with a STOP. *)
Definition chip_written : chip :=
  mkChip (λ r, match r with
               | I2cs24 => Z.lor AST_I2CS_PKT_DONE (flags [AST_I2CS_SLAVE_MATCH; AST_I2CS_RX_DONE; AST_I2CS_STOP])
               | I2cc0c => bits_put (field_pos FActualRxdPoolBufferSize) 3 0
               | _ => 0 end)
    (λ i, Z.of_nat i + 0x20) (λ _, 0) 0 (mkTarget 0 []) 0 0.
Definition written_bus : BusState (Ast1060I2cBackend chip) :=
  with_notif true (Bus_new 3 9 (mkBackend chip_written (chip_config BufferMode) None None true (Some 0x10))).

Lemma master_write_is_latched_witness :
  let '(bus', calls) := handle_irq written_bus in
  rx_len bus' = 3%nat ∧ take 3 (rx bus') = [0x20; 0x21; 0x22] ∧ drop 3 (rx bus') = drop 3 (rx written_bus) ∧
  rx_event_kind bus' = DataReceived ∧ SetPeerUserSignal 3 true ∈ calls.
Proof.
  pose proof (@master_write_is_latched chip target _ _ _ _ written_bus
    [AST_I2CS_SLAVE_MATCH; AST_I2CS_RX_DONE; AST_I2CS_STOP] eq_refl eq_refl eq_refl) as Hr. cbv zeta in Hr.
  change (Nat.min (as_usize _) 32) with 3%nat in Hr.
  change (take 3 (ctl_pool (bk_regs (driver written_bus)))) with [0x20; 0x21; 0x22] in Hr. apply Hr.
  - split; vm_compute; lia.
  - unfold receive_statuses. rewrite !elem_of_cons. tauto.
  - reflexivity.
  - lia.
Defined.
