(* ===== verification/Sha2.v ===== *)
(** * The SHA-2 and HMAC standards

    FIPS 180-4 (SHA-256, SHA-384, SHA-512) and RFC 2104 as executable functions on
    byte lists: what the hash engine and its driver are measured against.  The
    constants of the standard are computed from its definition of them, fractional
    parts of roots of primes, and not copied. *)

From S2P Require Import Prelude Bytes.
From stdpp Require Import base tactics list numbers.
Local Open Scope Z_scope.

Inductive Sha2 := Sha2_256 | Sha2_384 | Sha2_512.
#[export] Instance Sha2_eq_dec : EqDecision Sha2.
Proof. solve_decision. Defined.

(** ** Sizes *)

(** The word in bytes, the block, the digest and the length field of the padding. *)
Definition word_bytes (a : Sha2) : nat := match a with Sha2_256 => 4 | _ => 8 end.
Definition block_bytes (a : Sha2) : nat := match a with Sha2_256 => 64 | _ => 128 end.
Definition digest_bytes (a : Sha2) : nat :=
  match a with Sha2_256 => 32 | Sha2_384 => 48 | Sha2_512 => 64 end.
Definition state_bytes (a : Sha2) : nat := match a with Sha2_256 => 32 | _ => 64 end.
Definition length_bytes (a : Sha2) : nat := match a with Sha2_256 => 8 | _ => 16 end.
Definition width (a : Sha2) : Z := 8 * Z.of_nat (word_bytes a).

(** ** Bytes and words *)

Definition be_split (n : nat) (z : Z) : list Z :=
  (λ i, Z.land (Z.shiftr z (8 * Z.of_nat i)) 255) <$> rev (seq 0 n).
Definition be_word (l : list Z) : Z := foldl (λ acc b, 256 * acc + b) 0 l.

(** [l] in [k] pieces of [n]. *)
Fixpoint blocks (n k : nat) (l : list Z) : list (list Z) :=
  match k with
  | O => []
  | S k => take n l :: blocks n k (drop n l)
  end.

(** ** Constants *)

Definition is_prime (n : nat) : bool :=
  forallb (λ d, negb (n mod d =? 0)%nat) (seq 2 (Nat.sqrt n - 1)).
Definition primes : list Z :=
  Eval vm_compute in (Z.of_nat <$> List.filter is_prime (seq 2 408)).

(** The integer part of the cube root of a number below [8 ^ bits]. *)
Definition cbrt (bits : nat) (n : Z) : Z :=
  foldl (λ r i, let c := r + 2 ^ Z.of_nat i in if c * c * c <=? n then c else r) 0 (rev (seq 0 bits)).

(** The first [w] bits of the fractional parts. *)
Definition root2_frac (w p : Z) : Z := Z.sqrt (p * 2 ^ (2 * w)) mod 2 ^ w.
Definition root3_frac (w p : Z) : Z := cbrt (Z.to_nat w + 4) (p * 2 ^ (3 * w)) mod 2 ^ w.

Definition K256 : list Z := Eval vm_compute in (root3_frac 32 <$> take 64 primes).
Definition K512 : list Z := Eval vm_compute in (root3_frac 64 <$> take 80 primes).
Definition round_constants (a : Sha2) : list Z := match a with Sha2_256 => K256 | _ => K512 end.

(** The initial hash value: the first eight primes, the second eight for SHA-384. *)
Definition initial_words (a : Sha2) : list Z :=
  root2_frac (width a) <$> match a with Sha2_384 => take 8 (drop 8 primes) | _ => take 8 primes end.
Definition initial_state (a : Sha2) : list Z := initial_words a ≫= be_split (word_bytes a).

(** ** The compression function *)

Section compression.
Context (a : Sha2).

Definition wadd (x y : Z) : Z := Z.land (x + y) (Z.ones (width a)).
Definition rotr (n x : Z) : Z :=
  Z.lor (Z.shiftr x n) (Z.land (Z.shiftl x (width a - n)) (Z.ones (width a))).
Definition xor3 (x y z : Z) : Z := Z.lxor x (Z.lxor y z).

Definition big_sigma0 (x : Z) : Z :=
  match a with
  | Sha2_256 => xor3 (rotr 2 x) (rotr 13 x) (rotr 22 x)
  | _ => xor3 (rotr 28 x) (rotr 34 x) (rotr 39 x)
  end.
Definition big_sigma1 (x : Z) : Z :=
  match a with
  | Sha2_256 => xor3 (rotr 6 x) (rotr 11 x) (rotr 25 x)
  | _ => xor3 (rotr 14 x) (rotr 18 x) (rotr 41 x)
  end.
Definition small_sigma0 (x : Z) : Z :=
  match a with
  | Sha2_256 => xor3 (rotr 7 x) (rotr 18 x) (Z.shiftr x 3)
  | _ => xor3 (rotr 1 x) (rotr 8 x) (Z.shiftr x 7)
  end.
Definition small_sigma1 (x : Z) : Z :=
  match a with
  | Sha2_256 => xor3 (rotr 17 x) (rotr 19 x) (Z.shiftr x 10)
  | _ => xor3 (rotr 19 x) (rotr 61 x) (Z.shiftr x 6)
  end.

Definition choose (e f g : Z) : Z := Z.lxor (Z.land e f) (Z.land (Z.lxor e (Z.ones (width a))) g).
Definition majority (x y z : Z) : Z := xor3 (Z.land x y) (Z.land x z) (Z.land y z).

(** One round on the eight working variables. *)
Definition round (k w : Z) (v : list Z) : list Z :=
  match v with
  | [va; vb; vc; vd; ve; vf; vg; vh] =>
      let t1 := wadd vh (wadd (big_sigma1 ve) (wadd (choose ve vf vg) (wadd k w))) in
      let t2 := wadd (big_sigma0 va) (majority va vb vc) in
      [wadd t1 t2; va; vb; vc; wadd vd t1; ve; vf; vg]
  | _ => v
  end.

(** The message schedule as a window of sixteen words, the next one at its head. *)
Definition next_word (win : list Z) : Z :=
  match win with
  | [w0; w1; _; _; _; _; _; _; _; w9; _; _; _; _; w14; _] =>
      wadd (small_sigma1 w14) (wadd w9 (wadd (small_sigma0 w1) w0))
  | _ => 0
  end.
Fixpoint rounds (ks win v : list Z) : list Z :=
  match ks with
  | [] => v
  | k :: ks => rounds ks (tail win ++ [next_word win]) (round k (default 0 (head win)) v)
  end.

Definition compress (st block : list Z) : list Z :=
  let words := be_word <$> blocks (word_bytes a) 8 st in
  let win := be_word <$> blocks (word_bytes a) 16 block in
  zip_with wadd words (rounds (round_constants a) win words) ≫= be_split (word_bytes a).

(** ** Padding and the hash *)

Definition zero_count (len : nat) : nat :=
  let bs := block_bytes a in ((bs - (len + 1 + length_bytes a) mod bs) mod bs)%nat.
Definition padding (len : nat) : list Z :=
  0x80 :: replicate (zero_count len) 0 ++ be_split (length_bytes a) (8 * Z.of_nat len).

(** The state after the whole blocks of [l]. *)
Definition absorb (st l : list Z) : list Z :=
  foldl compress st (blocks (block_bytes a) (length l / block_bytes a) l).

Definition sha2 (msg : list Z) : list Z :=
  take (digest_bytes a) (absorb (initial_state a) (msg ++ padding (length msg))).

(** ** RFC 2104 *)

Definition hmac_key (key : list Z) : list Z :=
  let k := if (block_bytes a <? length key)%nat then sha2 key else key in
  k ++ replicate (block_bytes a - length k) 0.
Definition hmac (key msg : list Z) : list Z :=
  let k0 := hmac_key key in
  sha2 ((Z.lxor 0x5c <$> k0) ++ sha2 ((Z.lxor 0x36 <$> k0) ++ msg)).
End compression.

(** ** Lengths and concatenation *)

Lemma length_be_bytes n z : length (be_split n z) = n.
Proof. unfold be_split. by rewrite length_fmap, length_rev, length_seq. Qed.

Lemma length_blocks n k l : length (blocks n k l) = k.
Proof. revert l. induction k as [|k IH]; intros l; cbn; [done|]. by rewrite IH. Qed.

Lemma blocks_app n k j l l' :
  length l = (k * n)%nat → blocks n (k + j) (l ++ l') = blocks n k l ++ blocks n j l'.
Proof.
  revert l. induction k as [|k IH]; intros l Hl; cbn [blocks Nat.add app].
  { by apply nil_length_inv in Hl as ->. }
  rewrite take_app_le, drop_app_le by lia. f_equal. apply IH. rewrite length_drop. lia.
Qed.

Lemma blocks_one n l : length l = n → blocks n 1 l = [l].
Proof. intros Hl. cbn. by rewrite take_ge by lia. Qed.

Lemma length_bind_be l n : length (l ≫= be_split n) = (length l * n)%nat.
Proof. induction l as [|x l IH]; cbn; [done|]. by rewrite length_app, length_be_bytes, IH. Qed.

Section lengths.
Context (a : Sha2).

Lemma block_bytes_pos : (0 < block_bytes a)%nat.
Proof. destruct a; cbn; lia. Qed.
Lemma state_bytes_words : state_bytes a = (8 * word_bytes a)%nat.
Proof. by destruct a. Qed.
Lemma digest_le_state : (digest_bytes a ≤ state_bytes a ≤ 64)%nat.
Proof. destruct a; cbn; lia. Qed.

Lemma length_round k w v : length v = 8%nat → length (round a k w v) = 8%nat.
Proof. intros Hv. do 9 (destruct v as [|? v]; try done). Qed.
Lemma length_rounds ks win v : length v = 8%nat → length (rounds a ks win v) = 8%nat.
Proof. revert win v. induction ks as [|k ks IH]; intros win v Hv; cbn [rounds]; [done|]. by apply IH, length_round. Qed.

Lemma length_compress st block : length (compress a st block) = state_bytes a.
Proof.
  unfold compress. rewrite length_bind_be, length_zip_with, length_rounds, length_fmap, length_blocks.
  - rewrite state_bytes_words. lia.
  - by rewrite length_fmap, length_blocks.
Qed.
Lemma length_initial_state : length (initial_state a) = state_bytes a.
Proof. unfold initial_state, initial_words. rewrite length_bind_be, length_fmap. by destruct a. Qed.

Lemma length_foldl_compress bl st :
  length st = state_bytes a → length (foldl (compress a) st bl) = state_bytes a.
Proof. revert st. induction bl as [|b bl IH]; intros st Hs; cbn [foldl]; [done|]. apply IH, length_compress. Qed.
Lemma length_absorb st l : length st = state_bytes a → length (absorb a st l) = state_bytes a.
Proof. apply length_foldl_compress. Qed.
Lemma length_sha2 msg : length (sha2 a msg) = digest_bytes a.
Proof.
  unfold sha2. rewrite length_take, length_absorb by apply length_initial_state.
  pose proof digest_le_state. lia.
Qed.

(** Whole blocks can be absorbed piece by piece. *)
Lemma absorb_app st k l l' :
  length l = (k * block_bytes a)%nat → absorb a st (l ++ l') = absorb a (absorb a st l) l'.
Proof.
  intros Hl. pose proof block_bytes_pos. unfold absorb. rewrite length_app, Hl, Nat.div_mul by lia.
  rewrite (Nat.add_comm (_ * _)), Nat.div_add by lia. rewrite (Nat.add_comm (_ / _) k).
  by rewrite blocks_app, foldl_app by done.
Qed.
Lemma absorb_nil st : absorb a st [] = st.
Proof. unfold absorb. pose proof block_bytes_pos. cbn [length]. by rewrite Nat.div_0_l by lia. Qed.
Lemma absorb_one st l : length l = block_bytes a → absorb a st l = compress a st l.
Proof.
  intros Hl. unfold absorb. pose proof block_bytes_pos. rewrite Hl, Nat.div_same by lia.
  by rewrite (blocks_one _ _ Hl).
Qed.

Lemma length_padding len :
  length (padding a len) = (1 + zero_count a len + length_bytes a)%nat.
Proof. unfold padding. cbn. rewrite length_app, length_replicate, length_be_bytes. lia. Qed.

(** The padded message is made of whole blocks. *)
Lemma padded_whole len : ((len + length (padding a len)) mod block_bytes a = 0)%nat.
Proof.
  rewrite length_padding. unfold zero_count. pose proof block_bytes_pos as Hb.
  set (bs := block_bytes a) in *. set (t := (len + 1 + length_bytes a)%nat).
  replace (len + (1 + (bs - t mod bs) mod bs + length_bytes a))%nat
    with (t + (bs - t mod bs) mod bs)%nat by (unfold t; lia).
  rewrite Nat.Div0.add_mod_idemp_r. pose proof (Nat.div_mod_eq t bs). pose proof (Nat.mod_upper_bound t bs ltac:(lia)).
  replace (t + (bs - t mod bs))%nat with ((t / bs + 1) * bs)%nat by lia. apply Nat.Div0.mod_mul.
Qed.

Lemma length_hmac_key key : length (hmac_key a key) = block_bytes a.
Proof.
  unfold hmac_key. case_match eqn:E.
  - rewrite length_app, length_replicate, length_sha2. destruct a; cbn; lia.
  - apply Nat.ltb_ge in E. rewrite length_app, length_replicate. lia.
Qed.
End lengths.

(** ** Known answers *)

Definition ascii_bytes : list Z := [97; 98; 99].

Example sha256_abc :
  sha2 Sha2_256 ascii_bytes =
    be_split 32 0xba7816bf8f01cfea414140de5dae2223b00361a396177a9cb410ff61f20015ad.
Proof. vm_compute. reflexivity. Qed.
Example sha384_abc :
  sha2 Sha2_384 ascii_bytes =
    be_split 48 0xcb00753f45a35e8bb5a03d699ac65007272c32ab0eded1631a8b605a43ff5bed8086072ba1e7cc2358baeca134c825a7.
Proof. vm_compute. reflexivity. Qed.
Example sha512_abc :
  sha2 Sha2_512 ascii_bytes =
    be_split 64 0xddaf35a193617abacc417349ae20413112e6fa4e89a97ea20a9eeee64b55d39a2192992a274fc1a836ba3c23a3feebbd454d4423643ce80e2a9ac94fa54ca49f.
Proof. vm_compute. reflexivity. Qed.

(** RFC 4231, test case 2: the key "Jefe". *)
Example hmac_sha256_jefe :
  hmac Sha2_256 [74; 101; 102; 101]
    [119; 104; 97; 116; 32; 100; 111; 32; 121; 97; 32; 119; 97; 110; 116; 32; 102; 111; 114; 32; 110; 111;
     116; 104; 105; 110; 103; 63] =
    be_split 32 0x5bdcc146bf60754e6a042426089575c75a003f089d2739839dec58b964ec3843.
Proof. vm_compute. reflexivity. Qed.
