(* ===== verification/Hace.v ===== *)
(** * The AST10x0 hash and crypto engine

    [target/ast10x0/peripherals/hace]: [constants.rs], [context.rs], [error.rs],
    [registers.rs], [helpers.rs], [device.rs], [digest.rs] and [hmac.rs].

    The engine reads and writes memory by address.  The parts of the static
    [HashContext] it touches (descriptors, buffer, digest) are bytes of memory at
    the offsets of its [repr(C)] layout; the others, which only the CPU touches, are
    the record [HashContext].  [None] is a panic. *)

From S2P Require Import Prelude Bytes RegMonad Spim Soc Sha2.
From stdpp Require Import base tactics option list numbers.
Local Open Scope Z_scope.

(** ** Errors *)

Inductive HaceError := HaceBusy | HaceTimeout | HaceInvalidInput | HaceInternal.
#[export] Instance HaceError_eq_dec : EqDecision HaceError.
Proof. solve_decision. Defined.

Inductive DigestErrorKind :=
  | DigestInvalidInputLength | DigestUnsupportedAlgorithm | DigestInitializationError
  | DigestUpdateError | DigestFinalizationError | DigestBusy | DigestHardwareFailure
  | DigestPermissionDenied | DigestNotInitialized.
Inductive MacErrorKind :=
  | MacInvalidInputLength | MacUnsupportedAlgorithm | MacMemoryAllocationFailure
  | MacInitializationError | MacUpdateError | MacFinalizationError | MacBusy | MacHardwareFailure
  | MacInvalidOutputSize | MacPermissionDenied | MacNotInitialized | MacVerificationFailed.
Inductive CipherErrorKind :=
  | CipherInitializationError | CipherHardwareFailure | CipherPermissionDenied
  | CipherInvalidState | CipherInvalidInput | CipherUnsupportedAlgorithm | CipherKeyError
  | CipherBusy | CipherTimeout.
Definition digest_kind (e : HaceError) : DigestErrorKind :=
  match e with
  | HaceBusy => DigestHardwareFailure
  | HaceTimeout => DigestHardwareFailure
  | HaceInvalidInput => DigestInvalidInputLength
  | HaceInternal => DigestHardwareFailure
  end.
Definition mac_kind (e : HaceError) : MacErrorKind :=
  match e with
  | HaceBusy => MacBusy
  | HaceTimeout => MacHardwareFailure
  | HaceInvalidInput => MacInvalidInputLength
  | HaceInternal => MacHardwareFailure
  end.
Definition cipher_kind (e : HaceError) : CipherErrorKind :=
  match e with
  | HaceBusy => CipherBusy
  | HaceTimeout => CipherTimeout
  | HaceInvalidInput => CipherInvalidInput
  | HaceInternal => CipherHardwareFailure
  end.

(** ** Constants *)

Definition HACE_SHA_BE_EN : Z := Z.shiftl 1 3.
Definition HACE_CMD_ACC_MODE : Z := Z.shiftl 1 8.
Definition HACE_SG_EN : Z := Z.shiftl 1 18.
Definition HACE_SG_LAST : Z := Z.shiftl 1 31.
Definition HACE_ALGO_SHA256 : Z := Z.lor (Z.shiftl 1 4) (Z.shiftl 1 6).
Definition HACE_ALGO_SHA512 : Z := Z.lor (Z.shiftl 1 5) (Z.shiftl 1 6).
Definition HACE_ALGO_SHA384 : Z := Z.lor (Z.lor (Z.shiftl 1 5) (Z.shiftl 1 6)) (Z.shiftl 1 10).
Definition sha_cmd (algo : Z) : Z := Z.lor (Z.lor (Z.lor HACE_CMD_ACC_MODE HACE_SHA_BE_EN) HACE_SG_EN) algo.
Definition SHA256_HASH_CMD : Z := sha_cmd HACE_ALGO_SHA256.
Definition SHA384_HASH_CMD : Z := sha_cmd HACE_ALGO_SHA384.
Definition SHA512_HASH_CMD : Z := sha_cmd HACE_ALGO_SHA512.
Definition DEFAULT_POLL_BUDGET : Z := 1000000.
Definition POLL_YIELD_NS : Z := 1000.

Definition SHA256_DIGEST_SIZE : nat := 32.
Definition SHA384_DIGEST_SIZE : nat := 48.
Definition SHA512_DIGEST_SIZE : nat := 64.
Definition HACE_BLOCK_SIZE : nat := 64.
Definition HACE_BLOCK_SIZE_128 : nat := 128.
Definition HACE_BUFFER_SIZE : nat := 256.
Definition DIGEST_BUFFER_SIZE : nat := 64.

Definition SHA256_IV : list Z :=
  [0x67e6096a; 0x85ae67bb; 0x72f36e3c; 0x3af54fa5; 0x7f520e51; 0x8c68059b; 0xabd9831f; 0x19cde05b].
Definition SHA384_IV : list Z :=
  [0x5d9dbbcb; 0xd89e05c1; 0x2a299a62; 0x07d57c36; 0x5a015991; 0x17dd7030; 0xd8ec2f15; 0x39590ef7;
   0x67263367; 0x310bc0ff; 0x874ab48e; 0x11155868; 0x0d2e0cdb; 0xa78ff964; 0x1d48b547; 0xa44ffabe].
Definition SHA512_IV : list Z :=
  [0x67e6096a; 0x08c9bcf3; 0x85ae67bb; 0x3ba7ca84; 0x72f36e3c; 0x2bf894fe; 0x3af54fa5; 0xf1361d5f;
   0x7f520e51; 0xd182e6ad; 0x8c68059b; 0x1f6c3e2b; 0xabd9831f; 0x6bbd41fb; 0x19cde05b; 0x79217e13].

(** ** What an algorithm needs ([HaceDigestSpec]) *)

Definition HASH_CMD (a : Sha2) : Z :=
  match a with
  | Sha2_256 => SHA256_HASH_CMD
  | Sha2_384 => SHA384_HASH_CMD
  | Sha2_512 => SHA512_HASH_CMD
  end.
Definition BLOCK_SIZE (a : Sha2) : nat :=
  match a with
  | Sha2_256 => HACE_BLOCK_SIZE
  | Sha2_384 => HACE_BLOCK_SIZE_128
  | Sha2_512 => HACE_BLOCK_SIZE_128
  end.
Definition iv (a : Sha2) : list Z :=
  match a with
  | Sha2_256 => SHA256_IV
  | Sha2_384 => SHA384_IV
  | Sha2_512 => SHA512_IV
  end.
Definition DIGEST_SIZE (a : Sha2) : nat :=
  match a with
  | Sha2_256 => SHA256_DIGEST_SIZE
  | Sha2_384 => SHA384_DIGEST_SIZE
  | Sha2_512 => SHA512_DIGEST_SIZE
  end.

(** ** Hardware *)

Inductive HaceReg :=
  Hace00 | Hace04 | Hace08 | Hace0c | Hace10 | Hace1c | Hace20 | Hace24 | Hace28 | Hace2c | Hace30.
#[export] Instance HaceReg_eq_dec : EqDecision HaceReg.
Proof. solve_decision. Defined.

(** Registers (a read may let time pass), memory as the CPU reads and writes it, a
    byte at an address, where the linker put the two static contexts, and the
    positions of the completion flags of HACE1C in the register crate. *)
Class HaceHw (H : Type) : Type := {
  hace_rd : H → HaceReg → H * Z;
  hace_wr : H → HaceReg → Z → H;
  cpu_rd : H → Z → Z;
  cpu_wr : H → Z → Z → H;
  hash_ctx_at : Z;
  crypto_ctx_at : Z;
  hash_intflag : Z;
  crypto_intflag : Z;
}.

(** ** Contexts *)

(** The fields of [HashContext] that only the CPU reads and writes; [key],
    [key_len], [ipad], [opad] and [iv_size] are never accessed. *)
Record HashContext := mkHashContext {
  method : Z; block_size : Z; digcnt : Z * Z; bufcnt : Z;
}.

(** The static buffers of [hmac.rs], which the engine never reads. *)
Record HmacNcBufs := mkHmacNcBufs {
  nc_key : list Z; nc_ipad : list Z; nc_opad : list Z; nc_msg : list Z;
}.

Record HaceState (H : Type) := mkHaceState { hw : H; hctx : HashContext; nc : HmacNcBufs }.
Arguments mkHaceState {H}.
Arguments hw {H}.
Arguments hctx {H}.
Arguments nc {H}.

Definition set_hw {H} (f : H → H) (s : HaceState H) : HaceState H := mkHaceState (f (hw s)) (hctx s) (nc s).
Definition set_hctx {H} (f : HashContext → HashContext) (s : HaceState H) : HaceState H :=
  mkHaceState (hw s) (f (hctx s)) (nc s).
Definition set_nc {H} (f : HmacNcBufs → HmacNcBufs) (s : HaceState H) : HaceState H :=
  mkHaceState (hw s) (hctx s) (f (nc s)).
Definition set_method v (c : HashContext) := mkHashContext v (block_size c) (digcnt c) (bufcnt c).
Definition set_block_size v (c : HashContext) := mkHashContext (method c) v (digcnt c) (bufcnt c).
Definition set_digcnt v (c : HashContext) := mkHashContext (method c) (block_size c) v (bufcnt c).
Definition set_bufcnt v (c : HashContext) := mkHashContext (method c) (block_size c) (digcnt c) v.

(** A device: its completion budget, the yield closure and the cache hook. *)
Record HaceDevice (H : Type) := mkHaceDevice {
  poll_budget : Z; yield_fn : H → Z → H; cache_flush : H → H;
}.
Arguments mkHaceDevice {H}.
Arguments poll_budget {H}.
Arguments yield_fn {H}.
Arguments cache_flush {H}.

Definition ptr_to_u32 (ptr : Z) : result Z HaceError :=
  if ptr <=? u32_MAX then Ok ptr else Err HaceInvalidInput.

(** [bool] of a one-bit field. *)
Definition flag_is_set (pos v : Z) : bool := Z.testbit v pos.

Section driver.
Context {H : Type} `{HaceHw H} `{Soc H}.
Notation hace := (drv (HaceState H) HaceError).

(** ** Memory *)

Fixpoint store (h : H) (a : Z) (l : list Z) : H :=
  match l with
  | [] => h
  | v :: l => store (cpu_wr h a v) (a + 1) l
  end.
Definition cpu_load (h : H) (a : Z) (n : nat) : list Z := (λ i, cpu_rd h (a + Z.of_nat i)) <$> seq 0 n.

(** [HashContext] is [sg: [Sg; 2]], [digest: [u8; 64]], 420 bytes of scalars and
    unused arrays, [buffer: [u8; 256]]; an [Sg] is [len], then [addr]. *)
Definition sg_at : Z := hash_ctx_at.
Definition digest_at : Z := hash_ctx_at + 16.
Definition buffer_at : Z := hash_ctx_at + 500.

Definition put (a : Z) (l : list Z) : hace unit := writes (set_hw (λ h, store h a l)).
Definition put_sg (a addr len : Z) : hace unit :=
  put (a + 4) (u32_to_le_bytes addr);; put a (u32_to_le_bytes len).

(** ** Registers *)

Definition hreg_wr (r : HaceReg) (v : Z) : hace unit := writes (set_hw (λ h, hace_wr h r v)).
Definition hreg_rd (r : HaceReg) : hace Z := λ s, let '(h, v) := hace_rd (hw s) r in Some (set_hw (λ _, h) s, Ok v).

Definition clear_hash_intflag : hace unit := hreg_wr Hace1c (Z.shiftl 1 hash_intflag).
Definition hash_intflag_is_set : hace bool := v ← hreg_rd Hace1c; mret (flag_is_set hash_intflag v).
Definition hash_engine_is_busy : hace bool := v ← hreg_rd Hace1c; mret (flag_is_set 0 v).
Definition program_hash_operation (src_addr digest_addr data_len cmd : Z) : hace unit :=
  hreg_wr Hace20 src_addr;;
  hreg_wr Hace24 digest_addr;;
  hreg_wr Hace28 digest_addr;;
  hreg_wr Hace2c data_len;;
  hreg_wr Hace30 cmd.
Definition stop_hash_operation : hace unit := hreg_wr Hace30 0.

Definition clear_crypto_intflag : hace unit := hreg_wr Hace1c (Z.shiftl 1 crypto_intflag).
Definition crypto_intflag_is_set : hace bool := v ← hreg_rd Hace1c; mret (flag_is_set crypto_intflag v).
Definition read_hace1c : hace Z := hreg_rd Hace1c.
Definition program_crypto_operation (src_addr dst_addr ctx_base data_len cmd : Z) : hace unit :=
  hreg_wr Hace00 src_addr;;
  hreg_wr Hace04 dst_addr;;
  hreg_wr Hace08 ctx_base;;
  hreg_wr Hace0c data_len;;
  hreg_wr Hace10 cmd.

(** [for _ in 0..budget { if flag { return true } yield }]. *)
Fixpoint poll_done (done : hace bool) (yield : H → Z → H) (budget : nat) : hace bool :=
  match budget with
  | O => mret false
  | S budget =>
      b ← done;
      if b : bool then mret true
      else writes (set_hw (λ h, yield h POLL_YIELD_NS));; poll_done done yield budget
  end.
Definition poll_hash (dev : HaceDevice H) : hace bool :=
  poll_done hash_intflag_is_set (yield_fn dev) (Z.to_nat (poll_budget dev)).

(** ** The device *)

Definition fn_noop_flush (h : H) : H := h.
Definition new_with_yield (yield : H → Z → H) : HaceDevice H :=
  mkHaceDevice DEFAULT_POLL_BUDGET yield fn_noop_flush.

(** [while busy { spin_loop() }], given a number of status reads. *)
Fixpoint drain_engine (fuel : nat) : hace unit :=
  match fuel with
  | O => λ _, None
  | S fuel =>
      b ← hash_engine_is_busy;
      if b : bool then drain_engine fuel else mret ()
  end.

Definition new_global_with_yield (fuel : nat) (yield : H → Z → H) : hace (HaceDevice H) :=
  writes (set_hw unlock_write_protection);;
  writes (set_hw (ungate_clock_mask ClockLower (Z.shiftl 1 13)));;
  writes (set_hw (deassert_reset_mask ScuLower (Z.shiftl 1 4)));;
  stop_hash_operation;;
  drain_engine fuel;;
  clear_hash_intflag;;
  mret (mkHaceDevice DEFAULT_POLL_BUDGET yield dcache_invd_all).

Definition with_timeout_polls (dev : HaceDevice H) (timeout_polls : Z) : HaceDevice H :=
  mkHaceDevice timeout_polls (yield_fn dev) (cache_flush dev).

(** ** Helpers *)

(** [buffer.get_mut(i..j)], filled with [v] or with [l]; nothing out of range. *)
Definition buffer_fill (i j : nat) (v : Z) : hace unit :=
  if (i <=? j)%nat && (j <=? HACE_BUFFER_SIZE)%nat then put (buffer_at + Z.of_nat i) (replicate (j - i) v)
  else mret ().
Definition buffer_put (i : nat) (l : list Z) : hace unit :=
  if (i + length l <=? HACE_BUFFER_SIZE)%nat then put (buffer_at + Z.of_nat i) l else mret ().

(** [bufcnt += n as u32]. *)
Definition add_bufcnt (n : nat) : hace unit :=
  c ← reads hctx;
  guarded (bufcnt c + Z.of_nat n <=? u32_MAX) (writes (set_hctx (set_bufcnt (bufcnt c + Z.of_nat n)))).

Definition pad_len (bs index : nat) : nat :=
  if (bs =? 64)%nat then if (index <? 56)%nat then 56 - index else 64 + 56 - index
  else if (index <? 112)%nat then 112 - index else 128 + 112 - index.

Definition fill_padding (remaining : nat) : hace unit :=
  c ← reads hctx;
  let bs := as_usize (block_size c) in
  let cnt := as_usize (bufcnt c) in
  guarded (1 <=? bs)%nat (mret ());;
  let index := Nat.land (cnt + remaining) (bs - 1) in
  let padlen := pad_len bs index in
  buffer_put cnt [0x80];;
  buffer_fill (cnt + 1) (cnt + padlen) 0;;
  let low := be_split 8 (as_u64 (Z.shiftl (digcnt c).1 3)) in
  if (bs =? 64)%nat then
    buffer_put (cnt + padlen) low;;
    add_bufcnt (padlen + 8)
  else
    let high := be_split 8 (Z.lor (as_u64 (Z.shiftl (digcnt c).2 3)) (Z.shiftr (digcnt c).1 61)) in
    buffer_put (cnt + padlen) high;;
    buffer_put (cnt + padlen + 8) low;;
    add_bufcnt (padlen + 16).

(** [digest] is the slice of [len] bytes at the start of the digest buffer. *)
Definition load_iv (len : nat) (iv_words : list Z) : hace unit :=
  require (len =? length iv_words * 4)%nat HaceInvalidInput;;
  drv_for (imap pair iv_words) (λ '(i, word),
    let off := (i * 4)%nat in
    if (off + 4 <=? len)%nat then put (digest_at + Z.of_nat off) (u32_to_le_bytes word) else mret ()).

(** ** Digests *)

(** [HaceDigest::flush_block]. *)
Definition start_hash (len : Z) : hace unit :=
  buf_ptr ← lift (ptr_to_u32 buffer_at);
  put_sg sg_at buf_ptr (Z.lor len HACE_SG_LAST);;
  sg_addr ← lift (ptr_to_u32 sg_at);
  digest_addr ← lift (ptr_to_u32 digest_at);
  m ← reads (λ s, method (hctx s));
  clear_hash_intflag;;
  program_hash_operation sg_addr digest_addr len m.

Definition flush_block (dev : HaceDevice H) : hace unit :=
  n ← reads (λ s, bufcnt (hctx s));
  start_hash n;;
  done ← poll_hash dev;
  if done : bool then writes (set_hctx (set_bufcnt 0))
  else stop_hash_operation;; raise HaceTimeout.

Definition hash_init (a : Sha2) : hace unit :=
  writes (set_hctx (set_method (HASH_CMD a)));;
  let iv_bytes := (length (iv a) * 4)%nat in
  (if (iv_bytes <=? DIGEST_BUFFER_SIZE)%nat then load_iv iv_bytes (iv a) else raise HaceInvalidInput);;
  writes (set_hctx (set_block_size (Z.of_nat (BLOCK_SIZE a))));;
  writes (set_hctx (set_bufcnt 0));;
  writes (set_hctx (set_digcnt (0, 0))).

(** [digcnt[0].overflowing_add(n)], with the carry into [digcnt[1]]. *)
Definition count_input (n : Z) : hace unit :=
  c ← reads hctx;
  let sum := (digcnt c).1 + n in
  if sum <=? u64_MAX then writes (set_hctx (set_digcnt (sum, (digcnt c).2)))
  else guarded ((digcnt c).2 + 1 <=? u64_MAX)
    (writes (set_hctx (set_digcnt (as_u64 sum, (digcnt c).2 + 1)))).

(** [while offset < input.len()]: every turn takes a byte at least, so the length
    of the input is turns enough. *)
Fixpoint update_blocks (dev : HaceDevice H) (input : list Z) (bs fuel offset : nat) : hace unit :=
  if (offset <? length input)%nat then
    match fuel with
    | O => λ _, None
    | S fuel =>
        cnt ← reads (λ s, as_usize (bufcnt (hctx s)));
        let chunk_len := Nat.min (bs - cnt) (length input - offset) in
        require (negb (chunk_len =? 0)%nat) HaceInvalidInput;;
        require (cnt + chunk_len <=? HACE_BUFFER_SIZE)%nat HaceInvalidInput;;
        src ← lift (ok_or (slice_range input offset (offset + chunk_len)) HaceInvalidInput);
        put (buffer_at + Z.of_nat cnt) src;;
        add_bufcnt chunk_len;;
        c ← reads hctx;
        (if bufcnt c =? block_size c then flush_block dev else mret ());;
        update_blocks dev input bs fuel (offset + chunk_len)
    end
  else mret ().

Definition update (dev : HaceDevice H) (input : list Z) : hace unit :=
  require (Z.of_nat (length input) <=? u32_MAX) HaceInvalidInput;;
  count_input (Z.of_nat (length input));;
  bs ← reads (λ s, as_usize (block_size (hctx s)));
  update_blocks dev input bs (length input) 0.

(** [digest_from_context]: the words of the digest, each from four bytes in memory
    order. *)
Definition word_at (l : list Z) : Z :=
  match l with [b0; b1; b2; b3] => u32_from_le_bytes b0 b1 b2 b3 | _ => 0 end.
Definition digest_from_context (a : Sha2) (h : H) : list Z :=
  (λ i : nat, if (i * 4 + 4 <=? DIGEST_BUFFER_SIZE)%nat then word_at (cpu_load h (digest_at + Z.of_nat (i * 4)) 4) else 0)
    <$> seq 0 (DIGEST_SIZE a / 4).
(** [Digest::as_bytes]. *)
Definition digest_as_bytes (words : list Z) : list Z := words ≫= u32_to_le_bytes.

(** The clean-up of [finalize], which is [DigestCtrlReset::reset]. *)
Definition reset : hace unit :=
  writes (set_hctx (set_bufcnt 0));;
  writes (set_hctx (set_digcnt (0, 0)));;
  put buffer_at (replicate HACE_BUFFER_SIZE 0);;
  put digest_at (replicate DIGEST_BUFFER_SIZE 0);;
  stop_hash_operation.

Definition finalize (dev : HaceDevice H) (a : Sha2) : hace (list Z) :=
  fill_padding 0;;
  n ← reads (λ s, bufcnt (hctx s));
  start_hash n;;
  done ← poll_hash dev;
  if done : bool then
    writes (set_hw (cache_flush dev));;
    result ← reads (λ s, digest_from_context a (hw s));
    reset;;
    mret result
  else stop_hash_operation;; raise HaceTimeout.

(** ** HMAC *)

Definition HMAC_KEY_CAP : nat := 131.
Definition HMAC_MSG_CAP : nat := 1024.

(** [HmacKey]: the array and the length. *)
Definition HmacKey : Type := list Z * nat.
Definition from_slice (key : list Z) : result HmacKey HaceError :=
  if (HMAC_KEY_CAP <? length key)%nat then Err HaceInvalidInput
  else Ok (write_at 0 key (replicate HMAC_KEY_CAP 0), length key).
Definition key_as_slice (k : HmacKey) : list Z := default [] (slice_to k.1 k.2).

Definition spin (h : H) (_ : Z) : H := h.

(** The device every sub-hash binds. *)
Definition hmac_device (fuel : nat) (pb : Z) : hace (HaceDevice H) :=
  dev ← new_global_with_yield fuel spin;
  mret (with_timeout_polls dev pb).
Definition one_shot (fuel : nat) (a : Sha2) (pb : Z) (input : list Z) : hace (list Z) :=
  dev ← hmac_device fuel pb;
  hash_init a;;
  update dev input;;
  finalize dev a.

(** [dst.iter_mut().zip(src)] over the first bytes of an array that is long enough;
    nothing when it is not. *)
Definition copy_prefix (src dst : list Z) : list Z := default dst (copy_into 0 src dst).

(** [HaceHmacCtx]. *)
Record HaceHmacCtx := mkHaceHmacCtx { msg_len : nat; hmac_budget : Z }.

(** [ipad.iter_mut().zip(k0).take(b)], then zeroes. *)
Definition pad_block (b : nat) (x : Z) (k0 : list Z) : list Z :=
  ((λ s, Z.lxor s x) <$> take b k0) ++ replicate (128 - b) 0.

Definition hmac_init (fuel : nat) (a : Sha2) (pb : Z) (key : HmacKey) : hace HaceHmacCtx :=
  let k := key_as_slice key in
  let b := BLOCK_SIZE a in
  k0 ← (if (b <? length k)%nat then
          writes (set_nc (λ n, mkHmacNcBufs (copy_prefix k (nc_key n)) (nc_ipad n) (nc_opad n) (nc_msg n)));;
          buf ← reads (λ s, nc_key (nc s));
          kh ← one_shot fuel a pb (default [] (slice_to buf (length k)));
          mret (copy_prefix (digest_as_bytes kh) (replicate 128 0))
        else mret (copy_prefix k (replicate 128 0)));
  writes (set_nc (λ n, mkHmacNcBufs (nc_key n) (pad_block b 0x36 k0) (pad_block b 0x5c k0) (replicate HMAC_MSG_CAP 0)));;
  mret (mkHaceHmacCtx 0 pb).

Definition hmac_update (c : HaceHmacCtx) (input : list Z) : hace HaceHmacCtx :=
  let e := (msg_len c + length input)%nat in
  require (e <=? HMAC_MSG_CAP)%nat HaceInvalidInput;;
  writes (set_nc (λ n, mkHmacNcBufs (nc_key n) (nc_ipad n) (nc_opad n)
    (default (nc_msg n) (copy_into (msg_len c) input (nc_msg n)))));;
  mret (mkHaceHmacCtx e (hmac_budget c)).

Definition hmac_finalize (fuel : nat) (a : Sha2) (c : HaceHmacCtx) : hace (list Z) :=
  let b := BLOCK_SIZE a in
  dev ← hmac_device fuel (hmac_budget c);
  hash_init a;;
  ipad ← reads (λ s, nc_ipad (nc s));
  update dev (default [] (slice_to ipad b));;
  msg ← reads (λ s, nc_msg (nc s));
  m ← lift (ok_or (slice_to msg (msg_len c)) HaceInvalidInput);
  update dev m;;
  inner ← finalize dev a;
  dev ← hmac_device fuel (hmac_budget c);
  hash_init a;;
  opad ← reads (λ s, nc_opad (nc s));
  update dev (default [] (slice_to opad b));;
  update dev (digest_as_bytes inner);;
  finalize dev a.
End driver.
