(* ===== verification/HaceRun.v ===== *)
(** * The hash engine at work

    What the engine does ([HaceEngine], [HaceLaws]): a hash command, accumulating,
    absorbs the blocks its descriptor points to into the digest in memory, and is
    reported after a bounded number of status reads.  On it, the steps of the
    driver: storing to the context, starting a command, waiting for it. *)

From S2P Require Import Prelude Bytes RegMonad Spim Soc Sha2 Hace.
From stdpp Require Import base tactics option list numbers.
Local Open Scope Z_scope.

(** ** Memory as a function *)

Definition mload (f : Z → Z) (a : Z) (n : nat) : list Z := (λ i, f (a + Z.of_nat i)) <$> seq 0 n.
Definition mstore (f : Z → Z) (a : Z) (l : list Z) (x : Z) : Z :=
  if (a <=? x) && (x <? a + Z.of_nat (length l)) then default 0 (l !! Z.to_nat (x - a)) else f x.
Definition le32 (f : Z → Z) (a : Z) : Z := u32_from_le_bytes (f a) (f (a + 1)) (f (a + 2)) (f (a + 3)).

Lemma length_mload f a n : length (mload f a n) = n.
Proof. unfold mload. by rewrite length_fmap, length_seq. Qed.

Lemma mload_lookup f a n i : (i < n)%nat → mload f a n !! i = Some (f (a + Z.of_nat i)).
Proof. intros Hi. unfold mload. by rewrite list_lookup_fmap, lookup_seq_lt by done. Qed.

Lemma mload_ext f g a n :
  (∀ x, a ≤ x < a + Z.of_nat n → g x = f x) → mload g a n = mload f a n.
Proof.
  intros He. apply list_fmap_ext. intros i k Hk. apply lookup_seq in Hk. apply He. lia.
Qed.

Lemma mload_app f a n k : mload f a (n + k) = mload f a n ++ mload f (a + Z.of_nat n) k.
Proof.
  unfold mload. rewrite seq_app, fmap_app. f_equal. cbn [Nat.add].
  rewrite <- (Nat.add_0_r n) at 1. rewrite <- fmap_add_seq, <- list_fmap_compose.
  apply list_fmap_ext. intros i x _. cbn. f_equal. lia.
Qed.

Lemma mload_mstore f a l : mload (mstore f a l) a (length l) = l.
Proof.
  apply list_eq_same_length with (n := length l); [done|by rewrite length_mload|].
  intros i x y Hi Hx Hy. rewrite mload_lookup in Hx by done. injection Hx as <-.
  unfold mstore. rewrite (proj2 (Z.leb_le _ _)), (proj2 (Z.ltb_lt _ _)) by lia. cbn.
  replace (Z.to_nat (a + Z.of_nat i - a)) with i by lia. by rewrite Hy.
Qed.

Lemma mstore_out f a l x : x < a ∨ a + Z.of_nat (length l) ≤ x → mstore f a l x = f x.
Proof.
  intros Hx. unfold mstore. destruct (Z.leb_spec a x), (Z.ltb_spec x (a + Z.of_nat (length l))); cbn; try done. lia.
Qed.

Lemma mstore_in f g a l x : a ≤ x < a + Z.of_nat (length l) → mstore f a l x = mstore g a l x.
Proof. intros Hx. unfold mstore. by rewrite (proj2 (Z.leb_le _ _)), (proj2 (Z.ltb_lt _ _)) by lia. Qed.

Lemma mload_mstore_out f a l b n :
  b + Z.of_nat n ≤ a ∨ a + Z.of_nat (length l) ≤ b → mload (mstore f a l) b n = mload f b n.
Proof. intros Hd. apply mload_ext. intros x Hx. apply mstore_out. lia. Qed.

Lemma mstore_app f a l l' x :
  mstore (mstore f a l) (a + Z.of_nat (length l)) l' x = mstore f a (l ++ l') x.
Proof.
  unfold mstore. rewrite length_app.
  destruct (Z.leb_spec a x), (Z.ltb_spec x (a + Z.of_nat (length l))),
    (Z.leb_spec (a + Z.of_nat (length l)) x),
    (Z.ltb_spec x (a + Z.of_nat (length l) + Z.of_nat (length l'))),
    (Z.ltb_spec x (a + Z.of_nat (length l + length l')));
    try lia; cbn; try done.
  - by rewrite lookup_app_l by lia.
  - rewrite lookup_app_r by lia. f_equal. f_equal. lia.
Qed.

(** ** The engine *)

Record HashJob := mkHashJob { j_sg : Z; j_digest : Z; j_len : Z; j_cmd : Z }.
Record CryptoJob := mkCryptoJob { c_src : Z; c_dst : Z; c_ctx : Z; c_len : Z; c_cmd : Z }.

(** One command at a time.  [n] status reads from now the command is reported; the
    flags are the completion bits of HACE1C. *)
Inductive Engine :=
  | Idle (hash_done crypto_done : bool)
  | Hashing (n : nat) (j : HashJob) (crypto_done : bool)
  | Crypting (n : nat) (j : CryptoJob) (hash_done : bool)
  | Stopping (n : nat) (hash_done crypto_done : bool).

(** [e'] is [e], some time later, with nothing reported. *)
Definition eng_later (e e' : Engine) : Prop :=
  match e with
  | Idle _ _ => e' = e
  | Hashing n j cd => ∃ m, (m ≤ n)%nat ∧ e' = Hashing m j cd
  | Crypting n j hd => ∃ m, (m ≤ n)%nat ∧ e' = Crypting m j hd
  | Stopping n hd cd => ∃ m, (m ≤ n)%nat ∧ e' = Stopping m hd cd
  end.

(** Memory as the engine sees it, the engine, its registers, how long a command
    takes at most, the addresses that are not cached, and the block cipher. *)
Class HaceEngine (H : Type) : Type := {
  dma_rd : H → Z → Z;
  engine : H → Engine;
  hace_reg : H → HaceReg → Z;
  hace_latency : nat;
  noncacheable : Z → Prop;
  aes_block : bool → list Z → list Z → list Z;
}.

(** A hash command: one descriptor, the last, of whole blocks. *)
Definition hash_job_ok (a : Sha2) (f : Z → Z) (j : HashJob) : Prop :=
  j_cmd j = HASH_CMD a ∧ le32 f (j_sg j) = Z.lor (j_len j) HACE_SG_LAST ∧ 0 ≤ j_len j < 2 ^ 31 ∧
  (Z.to_nat (j_len j) mod block_bytes a = 0)%nat.
Definition hash_result (a : Sha2) (f : Z → Z) (j : HashJob) : list Z :=
  absorb a (mload f (j_digest j) (state_bytes a)) (mload f (le32 f (j_sg j + 4)) (Z.to_nat (j_len j))).

Section laws.
Context {H : Type} `{HaceHw H} `{Soc H} `{HaceEngine H}.

Definition same_mem (h h' : H) : Prop := ∀ x, dma_rd h' x = dma_rd h x.
Definition same_regs (h h' : H) : Prop := ∀ r, hace_reg h' r = hace_reg h r.

(** What a status read returns and does. *)
Definition status_read (h h' : H) (v : Z) : Prop :=
  match engine h with
  | Idle hd cd =>
      flag_is_set hash_intflag v = hd ∧ flag_is_set crypto_intflag v = cd ∧ flag_is_set 0 v = false ∧
      engine h' = engine h ∧ same_mem h h'
  | Hashing (S n) j cd =>
      flag_is_set hash_intflag v = false ∧ flag_is_set 0 v = true ∧
      eng_later (Hashing n j cd) (engine h') ∧ same_mem h h'
  | Hashing O j cd =>
      flag_is_set hash_intflag v = true ∧ engine h' = Idle true cd ∧
      ∀ a, hash_job_ok a (dma_rd h) j →
        ∀ x, dma_rd h' x = mstore (dma_rd h) (j_digest j) (hash_result a (dma_rd h) j) x
  | Crypting (S n) j hd =>
      flag_is_set crypto_intflag v = false ∧ eng_later (Crypting n j hd) (engine h') ∧ same_mem h h'
  | Crypting O j hd => flag_is_set crypto_intflag v = true ∧ engine h' = Idle hd true
  | Stopping (S n) hd cd =>
      flag_is_set 0 v = true ∧ eng_later (Stopping n hd cd) (engine h') ∧ same_mem h h'
  | Stopping O hd cd => flag_is_set 0 v = false ∧ engine h' = Idle hd cd ∧ same_mem h h'
  end.
End laws.

(** The context is in [.ram_nc], which is not cached; SCU accesses do not disturb
    the engine; lowering and raising the clean bit of SCUA58 leaves the CPU with
    what memory holds. *)
Class HaceLaws (H : Type) `{HaceHw H} `{Soc H} `{HaceEngine H} : Prop := {
  ctx_in_range : 0 ≤ hash_ctx_at ∧ hash_ctx_at + 768 ≤ u32_MAX;
  ctx_nc x : hash_ctx_at ≤ x < hash_ctx_at + 768 → noncacheable x;
  nc_coherent h x : noncacheable x → cpu_rd h x = dma_rd h x;
  cpu_wr_mem h a v x : noncacheable a → dma_rd (cpu_wr h a v) x = if x =? a then v else dma_rd h x;
  cpu_wr_ctl h a v : engine (cpu_wr h a v) = engine h ∧ same_regs h (cpu_wr h a v);
  scu_wr_ctl h r v : engine (wr h r v) = engine h ∧ same_regs h (wr h r v) ∧ same_mem h (wr h r v);
  scu_clean h v0 v1 x : Z.testbit v0 1 = false → Z.testbit v1 1 = true →
    cpu_rd (wr (wr h (scu 0xa58) v0) (scu 0xa58) v1) x = dma_rd h x;
  flags_apart : 0 < hash_intflag ∧ 0 < crypto_intflag ∧ hash_intflag ≠ crypto_intflag;
  rd_status_law h : status_read h (hace_rd h Hace1c).1 (hace_rd h Hace1c).2 ∧ same_regs h (hace_rd h Hace1c).1;
  wr_status h hd cd v : engine h = Idle hd cd → let h' := hace_wr h Hace1c v in
    engine h' = Idle (hd && negb (Z.testbit v hash_intflag)) (cd && negb (Z.testbit v crypto_intflag)) ∧
    same_mem h h' ∧ same_regs h h';
  wr_operand h hd cd r v : engine h = Idle hd cd → r ≠ Hace1c → r ≠ Hace30 → r ≠ Hace10 →
    let h' := hace_wr h r v in
    engine h' = engine h ∧ same_mem h h' ∧ ∀ r', hace_reg h' r' = if decide (r' = r) then v else hace_reg h r';
  wr_start h cd a : engine h = Idle false cd → hace_reg h Hace28 = hace_reg h Hace24 →
    let h' := hace_wr h Hace30 (HASH_CMD a) in
    same_mem h h' ∧ ∃ n, (n ≤ hace_latency)%nat ∧
      engine h' = Hashing n (mkHashJob (hace_reg h Hace20) (hace_reg h Hace24) (hace_reg h Hace2c) (HASH_CMD a)) cd;
  wr_stop h : let h' := hace_wr h Hace30 0 in
    same_mem h h' ∧
    match engine h with
    | Idle hd cd => engine h' = Idle hd cd
    | Hashing _ _ cd => ∃ m hd, (m ≤ hace_latency)%nat ∧ engine h' = Stopping m hd cd
    | Stopping n hd cd => ∃ m, (m ≤ n)%nat ∧ engine h' = Stopping m hd cd
    | Crypting n j hd => engine h' = Crypting n j hd
    end;
}.

Section run.
Context {H : Type} `{HaceHw H} `{Soc H} `{HaceEngine H} `{!HaceLaws H}.
Implicit Types s : HaceState H.

Definition mem s : Z → Z := dma_rd (hw s).

(** A device whose hooks leave the engine at work and which waits long enough. *)
Definition dev_ok (dev : HaceDevice H) : Prop :=
  (Z.of_nat hace_latency < poll_budget dev) ∧
  (∀ h ns, let h' := yield_fn dev h ns in eng_later (engine h) (engine h') ∧ same_mem h h' ∧ same_regs h h') ∧
  (∀ h, let h' := cache_flush dev h in engine h' = engine h ∧ same_mem h h' ∧ same_regs h h').

(** What a store keeps. *)
Definition keeps_ctl s s' : Prop :=
  engine (hw s') = engine (hw s) ∧ same_regs (hw s) (hw s') ∧ hctx s' = hctx s ∧ nc s' = nc s.

Lemma store_nc l a h :
  (∀ x, a ≤ x < a + Z.of_nat (length l) → noncacheable x) →
  engine (store h a l) = engine h ∧ same_regs h (store h a l) ∧
  ∀ x, dma_rd (store h a l) x = mstore (dma_rd h) a l x.
Proof.
  revert a h. induction l as [|v l IH]; intros a h Hnc; cbn [store].
  { split; [done|]. split; [by intros r|]. intros x. rewrite mstore_out; [done|]. cbn. lia. }
  cbn [length] in Hnc. destruct (IH (a + 1) (cpu_wr h a v) ltac:(intros; apply Hnc; lia)) as (E & R & M).
  destruct (cpu_wr_ctl h a v) as [E1 R1]. split; [by rewrite E|]. split; [intros r; by rewrite R, R1|].
  intros x. rewrite M. unfold mstore. cbn [length].
  destruct (Z.leb_spec (a + 1) x), (Z.ltb_spec x (a + 1 + Z.of_nat (length l))), (Z.leb_spec a x),
    (Z.ltb_spec x (a + Z.of_nat (S (length l)))); try lia; cbn [andb]; try (rewrite cpu_wr_mem by (apply Hnc; lia)).
  all: try (rewrite (proj2 (Z.eqb_neq _ _)) by lia; done).
  - replace (Z.to_nat (x - a)) with (S (Z.to_nat (x - (a + 1)))) by lia. done.
  - rewrite (proj2 (Z.eqb_eq _ _)) by lia. by replace (Z.to_nat (x - a)) with 0%nat by lia.
Qed.

Lemma put_nc a l (Q : result unit HaceError → HaceState H → Prop) s :
  hash_ctx_at ≤ a → a + Z.of_nat (length l) ≤ hash_ctx_at + 768 →
  (∀ s', keeps_ctl s s' → (∀ x, mem s' x = mstore (mem s) a l x) → Q (Ok ()) s') → dwp (put a l) Q s.
Proof.
  intros Ha Hl HQ. apply dwp_writes.
  destruct (store_nc l a (hw s)) as (E & R & M); [intros; apply ctx_nc; lia|]. by apply HQ.
Qed.

Lemma hreg_operand r v hd cd (Q : result unit HaceError → HaceState H → Prop) s :
  engine (hw s) = Idle hd cd → r ≠ Hace1c → r ≠ Hace30 → r ≠ Hace10 →
  (∀ s', engine (hw s') = Idle hd cd → same_mem (hw s) (hw s') → hctx s' = hctx s → nc s' = nc s →
     (∀ r', hace_reg (hw s') r' = if decide (r' = r) then v else hace_reg (hw s) r') → Q (Ok ()) s') →
  dwp (hreg_wr r v) Q s.
Proof.
  intros E N1 N2 N3 HQ. apply dwp_writes.
  destruct (wr_operand (hw s) hd cd r v E N1 N2 N3) as (E' & M & R). apply HQ; try done. by rewrite <- E.
Qed.

Lemma clear_hash_idle hd cd (Q : result unit HaceError → HaceState H → Prop) s :
  engine (hw s) = Idle hd cd →
  (∀ s', engine (hw s') = Idle false cd → same_mem (hw s) (hw s') → same_regs (hw s) (hw s') →
     hctx s' = hctx s → nc s' = nc s → Q (Ok ()) s') →
  dwp clear_hash_intflag Q s.
Proof.
  intros E HQ. apply dwp_writes.
  destruct (wr_status (hw s) hd cd (Z.shiftl 1 hash_intflag) E) as (E' & M & R).
  destruct flags_apart as (Fh & Fc & Fn).
  rewrite !Z.shiftl_spec in E' by lia. rewrite Z.sub_diag in E'. cbn [Z.testbit negb] in E'.
  rewrite andb_false_r in E'. apply HQ; try done. cbn [hw set_hw]. rewrite E'. f_equal.
  replace (Z.testbit 1 (crypto_intflag - hash_intflag)) with false; [by rewrite andb_true_r|].
  symmetry. destruct (Z.lt_total crypto_intflag hash_intflag) as [?|[?|?]]; [by apply Z.testbit_neg_r; lia|lia|].
  apply (high_bit 1 1); lia.
Qed.

(** [program_hash_operation] starts the command it describes. *)
Lemma program_starts a sg dg len cd (Q : result unit HaceError → HaceState H → Prop) s :
  engine (hw s) = Idle false cd →
  (∀ s' n, (n ≤ hace_latency)%nat → engine (hw s') = Hashing n (mkHashJob sg dg len (HASH_CMD a)) cd →
     same_mem (hw s) (hw s') → hctx s' = hctx s → nc s' = nc s → Q (Ok ()) s') →
  dwp (program_hash_operation sg dg len (HASH_CMD a)) Q s.
Proof.
  intros E HQ. unfold program_hash_operation.
  apply dwp_bind, (hreg_operand _ _ _ _ _ _ E); [done..|]. intros s1 E1 M1 C1 N1 R1.
  apply dwp_bind, (hreg_operand _ _ _ _ _ _ E1); [done..|]. intros s2 E2 M2 C2 N2 R2.
  apply dwp_bind, (hreg_operand _ _ _ _ _ _ E2); [done..|]. intros s3 E3 M3 C3 N3 R3.
  apply dwp_bind, (hreg_operand _ _ _ _ _ _ E3); [done..|]. intros s4 E4 M4 C4 N4 R4.
  apply dwp_writes.
  assert (hace_reg (hw s4) Hace20 = sg) as R20
    by (rewrite R4, decide_False, R3, decide_False, R2, decide_False, R1, decide_True by done; done).
  assert (hace_reg (hw s4) Hace24 = dg) as R24
    by (rewrite R4, decide_False, R3, decide_False, R2, decide_True by done; done).
  assert (hace_reg (hw s4) Hace28 = dg) as R28 by (rewrite R4, decide_False, R3, decide_True by done; done).
  assert (hace_reg (hw s4) Hace2c = len) as R2c by (rewrite R4, decide_True by done; done).
  destruct (wr_start (hw s4) cd a E4 ltac:(congruence)) as (M & n & Hn & E5).
  rewrite R20, R24, R2c in E5. apply (HQ _ n Hn); cbn [hw hctx nc set_hw]; congruence.
Qed.

Lemma le32_mstore f v a x : in_u32 v → x = a → le32 (mstore f a (u32_to_le_bytes v)) x = v.
Proof.
  intros Hv ->. unfold le32.
  assert (∀ i, (i < 4)%nat → mstore f a (u32_to_le_bytes v) (a + Z.of_nat i) = default 0 (u32_to_le_bytes v !! i)) as Hs.
  { intros i Hi. unfold mstore. rewrite (proj2 (Z.leb_le _ _)), (proj2 (Z.ltb_lt _ _)) by (cbn; lia). cbn [andb].
    by replace (Z.to_nat (a + Z.of_nat i - a)) with i by lia. }
  pose proof (Hs 0%nat ltac:(lia)) as S0. rewrite Z.add_0_r in S0.
  pose proof (Hs 1%nat ltac:(lia)) as S1. pose proof (Hs 2%nat ltac:(lia)) as S2. pose proof (Hs 3%nat ltac:(lia)) as S3.
  change (Z.of_nat 1) with 1 in S1. change (Z.of_nat 2) with 2 in S2. change (Z.of_nat 3) with 3 in S3.
  rewrite S0, S1, S2, S3.
  cbn [u32_to_le_bytes lookup list_lookup default]. by apply u32_le_roundtrip.
Qed.

Lemma le32_ext f g a : (∀ x, a ≤ x < a + 4 → g x = f x) → le32 g a = le32 f a.
Proof. intros He. unfold le32. by rewrite !He by lia. Qed.

(** A length with the mark of the last descriptor. *)
Lemma sg_len_range len : 0 ≤ len < 2 ^ 31 → in_u32 (Z.lor len HACE_SG_LAST).
Proof.
  intros Hlen. unfold in_u32, u32_MAX, HACE_SG_LAST. rewrite Z.shiftl_1_l. split.
  { apply Z.lor_nonneg. lia. }
  assert (Z.lor len (2 ^ 31) < 2 ^ 32) as Hb; [|lia].
  apply Z.log2_lt_cancel. rewrite Z.log2_lor, Z.log2_pow2, Z.log2_pow2 by lia.
  destruct (decide (len = 0)) as [->|]; [cbn; lia|].
  pose proof (proj1 (Z.log2_lt_pow2 len 31 ltac:(lia)) ltac:(lia)). lia.
Qed.

Lemma ptr_fits p : p ≤ u32_MAX → ptr_to_u32 p = Ok p.
Proof. intros Hp. unfold ptr_to_u32. by rewrite (proj2 (Z.leb_le _ _) Hp). Qed.

(** [start_hash]: the descriptor, then the command. *)
Lemma start_hash_spec a len hd cd (Q : result unit HaceError → HaceState H → Prop) s :
  engine (hw s) = Idle hd cd → method (hctx s) = HASH_CMD a → 0 ≤ len < 2 ^ 31 →
  (∀ s' n, (n ≤ hace_latency)%nat → engine (hw s') = Hashing n (mkHashJob sg_at digest_at len (HASH_CMD a)) cd →
     le32 (mem s') sg_at = Z.lor len HACE_SG_LAST → le32 (mem s') (sg_at + 4) = buffer_at →
     (∀ x, x < sg_at ∨ sg_at + 8 ≤ x → mem s' x = mem s x) → hctx s' = hctx s → nc s' = nc s → Q (Ok ()) s') →
  dwp (start_hash len) Q s.
Proof.
  intros E Hm Hlen HQ. unfold start_hash, sg_at, digest_at, buffer_at in *.
  pose proof ctx_in_range as [Hlo Hhi]. unfold u32_MAX in Hhi.
  set (b := hash_ctx_at) in *.
  rewrite !ptr_fits by (unfold u32_MAX; lia).
  apply dwp_bind, dwp_lift. cbn beta iota. unfold put_sg. apply dwp_bind, dwp_bind.
  apply put_nc; [subst b; lia|cbn; subst b; lia|]. intros s1 (E1 & R1 & C1 & N1) M1.
  apply put_nc; [subst b; lia|cbn; subst b; lia|]. intros s2 (E2 & R2 & C2 & N2) M2.
  apply dwp_bind, dwp_lift. cbn beta iota.
  apply dwp_bind, dwp_lift. cbn beta iota. apply dwp_bind, dwp_reads. cbn beta iota.
  rewrite C2, C1, Hm. rewrite E in E1. rewrite E1 in E2.
  apply dwp_bind, (clear_hash_idle _ _ _ _ E2). intros s3 E3 M3 R3 C3 N3.
  apply (program_starts a _ _ _ _ _ _ E3). intros s4 n Hn E4 M4 C4 N4.
  assert (∀ x, mem s4 x = mem s2 x) as M by (intros x; unfold mem; by rewrite M4, M3).
  apply (HQ s4 n Hn E4); try congruence.
  - rewrite (le32_ext (mstore (mem s1) b (u32_to_le_bytes (Z.lor len HACE_SG_LAST))));
      [|intros; by rewrite M, M2]. apply le32_mstore; [|done].
    by apply sg_len_range.
  - rewrite (le32_ext (mstore (mem s) (b + 4) (u32_to_le_bytes (b + 500)))).
    + apply le32_mstore; [|done]. unfold in_u32, u32_MAX. lia.
    + intros x Hx. rewrite M, M2, mstore_out by (cbn; lia). apply M1.
  - intros x Hx. rewrite M, M2, mstore_out, M1, mstore_out by (cbn; lia). done.
Qed.

(** ** Waiting *)

Lemma hash_flag_read (Q : result bool HaceError → HaceState H → Prop) s :
  (∀ s' v, status_read (hw s) (hw s') v → same_regs (hw s) (hw s') → hctx s' = hctx s → nc s' = nc s →
     Q (Ok (flag_is_set hash_intflag v)) s') →
  dwp hash_intflag_is_set Q s.
Proof.
  intros HQ. destruct (rd_status_law (hw s)) as [Hs Hr].
  unfold hash_intflag_is_set, hreg_rd, dwp, mbind, drv_bind.
  destruct (hace_rd (hw s) Hace1c) as [h' v]. by apply (HQ (set_hw (λ _, h') s) v).
Qed.

Lemma poll_finishes yield budget a n j cd (Q : result bool HaceError → HaceState H → Prop) s :
  (∀ h ns, eng_later (engine h) (engine (yield h ns)) ∧ same_mem h (yield h ns)) →
  engine (hw s) = Hashing n j cd → (n < budget)%nat → hash_job_ok a (mem s) j →
  (∀ s', engine (hw s') = Idle true cd → hctx s' = hctx s → nc s' = nc s →
     (∀ x, mem s' x = mstore (mem s) (j_digest j) (hash_result a (mem s) j) x) → Q (Ok true) s') →
  dwp (poll_done hash_intflag_is_set yield budget) Q s.
Proof.
  intros Hy. revert n s. induction budget as [|budget IH]; intros n s E Hn Hok HQ; [lia|].
  cbn [poll_done]. apply dwp_bind, hash_flag_read. intros s1 v Hs R1 C1 N1. unfold status_read in Hs. rewrite E in Hs.
  destruct n as [|n].
  { destruct Hs as (-> & E1 & M1). apply dwp_ret, HQ; try done. by apply M1. }
  destruct Hs as (-> & _ & (m & Hm & E1) & M1).
  apply dwp_bind, dwp_writes. cbn beta iota.
  destruct (Hy (hw s1) POLL_YIELD_NS) as [El M2]. rewrite E1 in El. destruct El as (m' & Hm' & E2).
  assert (∀ x, mem (set_hw (λ h, yield h POLL_YIELD_NS) s1) x = mem s x) as M by (intros x; unfold mem; cbn; by rewrite M2, M1).
  assert (hash_result a (mem (set_hw (λ h, yield h POLL_YIELD_NS) s1)) j = hash_result a (mem s) j) as Hr.
  { unfold hash_result. f_equal; [by apply mload_ext|]. rewrite (le32_ext (mem s)) by done. by apply mload_ext. }
  apply (IH m'); [done|lia| |].
  { destruct Hok as (? & Hle & ? & ?). split; [done|]. by rewrite (le32_ext (mem s)). }
  intros s' E' C' N' M'. apply HQ; [done|by rewrite C'|by rewrite N'|].
  intros x. rewrite M', Hr. unfold mstore. by case_match.
Qed.

Lemma poll_hash_finishes dev a n j cd (Q : result bool HaceError → HaceState H → Prop) s :
  dev_ok dev → engine (hw s) = Hashing n j cd → (n ≤ hace_latency)%nat → hash_job_ok a (mem s) j →
  (∀ s', engine (hw s') = Idle true cd → hctx s' = hctx s → nc s' = nc s →
     (∀ x, mem s' x = mstore (mem s) (j_digest j) (hash_result a (mem s) j) x) → Q (Ok true) s') →
  dwp (poll_hash dev) Q s.
Proof.
  intros (Hb & Hy & _) E Hn Hok HQ. apply (poll_finishes _ _ a n j cd); try done; [|lia].
  intros h ns. destruct (Hy h ns) as (? & ? & _). done.
Qed.

(** [start_hash] and the wait: the first [len] bytes of the buffer are absorbed into
    the digest, and nothing but the descriptor and the digest changes. *)
Lemma hash_buffer dev a len hd cd (Q : result bool HaceError → HaceState H → Prop) s :
  dev_ok dev → engine (hw s) = Idle hd cd → method (hctx s) = HASH_CMD a →
  (len mod block_bytes a = 0)%nat → (len ≤ 256)%nat →
  (∀ s', engine (hw s') = Idle true cd → hctx s' = hctx s → nc s' = nc s →
     mload (mem s') digest_at (state_bytes a) =
       absorb a (mload (mem s) digest_at (state_bytes a)) (mload (mem s) buffer_at len) →
     (∀ x, x < sg_at ∨ digest_at + 64 ≤ x → mem s' x = mem s x) → Q (Ok true) s') →
  dwp (start_hash (Z.of_nat len);; poll_hash dev) Q s.
Proof.
  intros Hd E Hm Hw Hl HQ. apply dwp_bind, (start_hash_spec a _ hd cd); [done..|lia|].
  intros s1 n Hn E1 L1 A1 M1 C1 N1.
  set (j := mkHashJob sg_at digest_at (Z.of_nat len) (HASH_CMD a)) in *.
  assert (hash_result a (mem s1) j =
            absorb a (mload (mem s) digest_at (state_bytes a)) (mload (mem s) buffer_at len)) as Hr.
  { unfold hash_result, j. cbn [j_digest j_sg j_len]. rewrite Nat2Z.id, A1.
    f_equal; apply mload_ext; intros x Hx; apply M1; unfold sg_at, digest_at, buffer_at in *; lia. }
  pose proof (digest_le_state a).
  assert (length (hash_result a (mem s1) j) = state_bytes a) as Hlen
    by (rewrite Hr; apply length_absorb, length_mload).
  apply (poll_hash_finishes dev a n j cd); [done..| |].
  { split; [done|]. cbn [j_sg j_len j]. rewrite Nat2Z.id. split_and!; [done|lia|lia|done]. }
  intros s2 E2 C2 N2 M2. cbn [j_digest j] in M2. fold j in M2. apply HQ; [done|congruence|congruence| |].
  - rewrite <- Hr, <- Hlen. rewrite (mload_ext (mstore (mem s1) digest_at (hash_result a (mem s1) j))).
    + apply mload_mstore.
    + intros x _. apply M2.
  - intros x Hx. rewrite M2, mstore_out by (rewrite Hlen; unfold sg_at, digest_at in *; lia).
    apply M1. unfold sg_at, digest_at in *. lia.
Qed.

(** ** Stopping, and binding the device *)

Lemma stop_idle hd cd (Q : result unit HaceError → HaceState H → Prop) s :
  engine (hw s) = Idle hd cd →
  (∀ s', engine (hw s') = Idle hd cd → same_mem (hw s) (hw s') → hctx s' = hctx s → nc s' = nc s → Q (Ok ()) s') →
  dwp stop_hash_operation Q s.
Proof.
  intros E HQ. apply dwp_writes. destruct (wr_stop (hw s)) as [M Hs]. rewrite E in Hs. by apply HQ.
Qed.

(** No cryptographic command is running. *)
Definition not_crypting s : Prop := match engine (hw s) with Crypting _ _ _ => False | _ => True end.

Lemma drain_finishes fuel (Q : result unit HaceError → HaceState H → Prop) s hd cd :
  engine (hw s) = Idle hd cd ∨ (∃ n, engine (hw s) = Stopping n hd cd ∧ (n < fuel)%nat) → (0 < fuel)%nat →
  (∀ s', engine (hw s') = Idle hd cd → same_mem (hw s) (hw s') → hctx s' = hctx s → nc s' = nc s → Q (Ok ()) s') →
  dwp (drain_engine fuel) Q s.
Proof.
  revert s. induction fuel as [|fuel IH]; intros s He Hf HQ; [lia|]. cbn [drain_engine].
  apply dwp_bind. destruct (rd_status_law (hw s)) as [Hs Hr].
  unfold hash_engine_is_busy, hreg_rd, dwp at 1, mbind, drv_bind. cbn beta iota.
  destruct (hace_rd (hw s) Hace1c) as [h' v]. cbn [fst snd] in Hs, Hr. cbn beta iota.
  unfold status_read in Hs. destruct He as [E|(n & E & Hn)]; rewrite E in Hs.
  { destruct Hs as (_ & _ & Hb & E' & M'). cbn beta iota delta [mret drv_ret]. rewrite Hb. by apply dwp_ret, HQ. }
  destruct n as [|n].
  { destruct Hs as (Hb & E' & M'). cbn beta iota delta [mret drv_ret]. rewrite Hb. by apply dwp_ret, HQ. }
  destruct Hs as (Hb & (m & Hm & E') & M'). cbn beta iota delta [mret drv_ret]. rewrite Hb. apply IH; [|lia|].
  { right. exists m. split; [done|lia]. }
  intros s' E2 M2 C2 N2. apply HQ; try done. intros x. by rewrite M2, M'.
Qed.

Lemma new_global_spec fuel yield (Q : result (HaceDevice H) HaceError → HaceState H → Prop) s :
  not_crypting s → (∀ n hd cd, engine (hw s) = Stopping n hd cd → (n < fuel)%nat) → (hace_latency < fuel)%nat →
  (∀ s' cd, engine (hw s') = Idle false cd → same_mem (hw s) (hw s') → hctx s' = hctx s → nc s' = nc s →
     Q (Ok (mkHaceDevice DEFAULT_POLL_BUDGET yield dcache_invd_all)) s') →
  dwp (new_global_with_yield fuel yield) Q s.
Proof.
  intros Hc Hst Hf HQ. unfold new_global_with_yield.
  apply dwp_bind, dwp_writes. cbn beta iota. apply dwp_bind, dwp_writes. cbn beta iota.
  apply dwp_bind, dwp_writes. cbn beta iota.
  set (s1 := set_hw _ (set_hw _ (set_hw _ s))).
  assert (engine (hw s1) = engine (hw s) ∧ same_mem (hw s) (hw s1)) as [E1 M1].
  { cbn. unfold deassert_reset_mask, ungate_clock_mask, unlock_write_protection.
    match goal with |- context [wr (wr (wr ?h ?r1 ?v1) ?r2 ?v2) ?r3 ?v3] =>
      destruct (scu_wr_ctl h r1 v1) as (A1 & _ & B1);
      destruct (scu_wr_ctl (wr h r1 v1) r2 v2) as (A2 & _ & B2);
      destruct (scu_wr_ctl (wr (wr h r1 v1) r2 v2) r3 v3) as (A3 & _ & B3) end.
    split; [by rewrite A3, A2, A1|]. intros x. by rewrite B3, B2, B1. }
  assert (hctx s1 = hctx s ∧ nc s1 = nc s) as [C1 N1] by done. clearbody s1.
  apply dwp_bind. unfold stop_hash_operation. apply dwp_writes. cbn beta iota.
  destruct (wr_stop (hw s1)) as [M2 E2]. set (s2 := set_hw _ s1).
  assert (∃ hd cd, engine (hw s2) = Idle hd cd ∨ (∃ n, engine (hw s2) = Stopping n hd cd ∧ (n < fuel)%nat)) as (hd & cd & E3).
  { rewrite E1 in E2. unfold not_crypting in Hc. destruct (engine (hw s)) as [hd cd|n j cd|n j hd|n hd cd] eqn:Es; [| |done|].
    - exists hd, cd. by left.
    - destruct E2 as (m & hd & Hm & E2). exists hd, cd. right. exists m. split; [done|lia].
    - destruct E2 as (m & Hm & E2). exists hd, cd. right. exists m. split; [done|].
      pose proof (Hst _ _ _ eq_refl). lia. }
  apply dwp_bind, (drain_finishes fuel _ s2 hd cd); [done|lia|].
  intros s3 E4 M3 C3 N3. apply dwp_bind, (clear_hash_idle _ _ _ _ E4). intros s4 E5 M4 R4 C4 N4.
  apply dwp_ret, (HQ s4 cd); [done| | |].
  - intros x. rewrite M4, M3. cbn. by rewrite M2, M1.
  - by rewrite C4, C3.
  - by rewrite N4, N3.
Qed.

(** The hooks of the device bound to the singleton. *)
Lemma invd_all_coherent h x : cpu_rd (dcache_invd_all h) x = dma_rd h x.
Proof.
  unfold dcache_invd_all. apply scu_clean.
  - unfold not_u32, DCACHE_CLEAN. rewrite Z.land_spec. apply andb_false_r.
  - rewrite Z.lor_spec. by rewrite orb_true_r.
Qed.
Lemma invd_all_keeps h :
  engine (dcache_invd_all h) = engine h ∧ same_mem h (dcache_invd_all h) ∧ same_regs h (dcache_invd_all h).
Proof.
  unfold dcache_invd_all. set (v0 := Z.land _ _). set (v1 := Z.lor _ _).
  destruct (scu_wr_ctl h (scu 0xa58) v0) as (A1 & R1 & B1).
  destruct (scu_wr_ctl (wr h (scu 0xa58) v0) (scu 0xa58) v1) as (A2 & R2 & B2).
  split_and!; [by rewrite A2, A1|intros x; by rewrite B2, B1|intros r; by rewrite R2, R1].
Qed.

Lemma global_dev_ok pb :
  Z.of_nat hace_latency < pb → dev_ok (mkHaceDevice pb spin dcache_invd_all).
Proof.
  intros Hp. split_and!; [done| |].
  - intros h ns. cbn. unfold spin. split_and!; [|by intros x|by intros r]. destruct (engine h); cbn; eauto.
  - intros h. apply invd_all_keeps.
Qed.
End run.
