(* ===== verification/HaceDigest.v ===== *)
(** * The digest driver computes SHA-2

    [digest.rs] on the engine of [HaceRun]: however a message is split into
    updates, what is staged in the buffer and what the engine has absorbed are the
    message so far; the padding is the standard's; the digest is the hash. *)

From S2P Require Import Prelude Bytes RegMonad Spim Soc Sha2 Hace HaceRun.
From stdpp Require Import base tactics option list numbers.
From Stdlib Require Import ZifyNat.
Local Open Scope Z_scope.

(** The initial values of [context.rs], as the CPU lays them out, are the
    standard's. *)
Lemma iv_standard a : iv a ≫= u32_to_le_bytes = initial_state a.
Proof. destruct a; vm_compute; reflexivity. Qed.

Lemma block_size_standard a : BLOCK_SIZE a = block_bytes a.
Proof. by destruct a. Qed.
Lemma digest_size_standard a : DIGEST_SIZE a = digest_bytes a.
Proof. by destruct a. Qed.

Lemma dwp_seq {R E A B} (m1 : drv R E unit) (m2 : drv R E A) (k : A → drv R E B) Q r :
  dwp (m1;; m2) (λ a r', match a with Ok a => dwp (k a) Q r' | Err e => Q (Err e) r' end) r →
  dwp (m1;; x ← m2; k x) Q r.
Proof.
  unfold dwp, mbind, drv_bind. destruct (m1 r) as [[r1 [[]|e]]|]; [|done..].
  by destruct (m2 r1) as [[r2 [b|e]]|].
Qed.

(** ** The length field *)

Lemma be_bytes_ext n x y :
  (∀ i, 0 ≤ i < 8 * Z.of_nat n → Z.testbit x i = Z.testbit y i) → be_split n x = be_split n y.
Proof.
  intros He. apply list_fmap_ext. intros j k Hk%list_elem_of_lookup_2%list_elem_of_In.
  rewrite <- in_rev in Hk. apply in_seq in Hk. apply Z.bits_inj'. intros i Hi.
  rewrite !Z.land_spec, !Z.shiftr_spec by lia. change 255 with (Z.ones 8).
  destruct (Z.ltb_spec i 8) as [Hlt|Hge].
  - by rewrite He by lia.
  - by rewrite Z.ones_spec_high, !andb_false_r by lia.
Qed.

Lemma be_bytes_split n k z : be_split (n + k) z = be_split n (Z.shiftr z (8 * Z.of_nat k)) ++ be_split k z.
Proof.
  unfold be_split. rewrite (Nat.add_comm n k), seq_app, rev_app_distr, fmap_app. f_equal. cbn [Nat.add].
  rewrite <- (Nat.add_0_r k) at 1. rewrite <- fmap_add_seq, <- map_rev, <- list_fmap_compose.
  apply list_fmap_ext. intros j i _. cbn [compose]. rewrite Z.shiftr_shiftr by lia. do 2 f_equal. lia.
Qed.

(** The two words [fill_padding] writes are the bit count. *)
Lemma low_word len : 0 ≤ len → be_split 8 (as_u64 (Z.shiftl (len mod 2 ^ 64) 3)) = be_split 8 (8 * len).
Proof.
  intros Hl. apply be_bytes_ext. intros i Hi. unfold as_u64. change 18446744073709551616 with (2 ^ 64).
  rewrite Z.mod_pow2_bits_low, Z.shiftl_spec by lia.
  replace (8 * len) with (Z.shiftl len 3) by (rewrite Z.shiftl_mul_pow2 by lia; lia). rewrite Z.shiftl_spec by lia.
  destruct (Z.ltb_spec i 3); [by rewrite !Z.testbit_neg_r by lia|]. by rewrite Z.mod_pow2_bits_low by lia.
Qed.
Lemma high_word len :
  0 ≤ len →
  be_split 8 (Z.lor (as_u64 (Z.shiftl (len / 2 ^ 64) 3)) (Z.shiftr (len mod 2 ^ 64) 61)) =
    be_split 8 (Z.shiftr (8 * len) 64).
Proof.
  intros Hl. apply be_bytes_ext. intros i Hi. unfold as_u64. change 18446744073709551616 with (2 ^ 64).
  replace (8 * len) with (Z.shiftl len 3) by (rewrite Z.shiftl_mul_pow2 by lia; lia).
  rewrite Z.lor_spec, Z.mod_pow2_bits_low, Z.shiftl_spec, !Z.shiftr_spec, Z.shiftl_spec by lia.
  rewrite <- Z.shiftr_div_pow2 by lia. destruct (Z.ltb_spec i 3).
  - rewrite Z.testbit_neg_r by lia. rewrite Z.mod_pow2_bits_low by lia. cbn. f_equal. lia.
  - rewrite Z.shiftr_spec, Z.mod_pow2_bits_high, orb_false_r by lia. f_equal. lia.
Qed.

Section digest.
Context {H : Type} `{HaceHw H} `{Soc H} `{HaceEngine H} `{!HaceLaws H}.
Implicit Types s : HaceState H.
Context (dev : HaceDevice H) (Hdev : dev_ok dev) (a : Sha2).

Local Notation bs := (block_bytes a).

(** The engine has absorbed the whole blocks of [msg], the buffer holds the rest. *)
Record staged (msg : list Z) s : Prop := mkStaged {
  st_method : method (hctx s) = HASH_CMD a;
  st_block : block_size (hctx s) = Z.of_nat bs;
  st_idle : ∃ hd cd, engine (hw s) = Idle hd cd;
  st_split : ∃ full tl, msg = full ++ tl ∧ (length full mod bs = 0)%nat ∧ (length tl < bs)%nat ∧
    bufcnt (hctx s) = Z.of_nat (length tl) ∧ mload (mem s) buffer_at (length tl) = tl ∧
    mload (mem s) digest_at (state_bytes a) = absorb a (initial_state a) full;
}.

Definition same_count s s' : Prop := digcnt (hctx s') = digcnt (hctx s) ∧ nc s' = nc s.

Lemma bs_range : (64 ≤ bs ≤ 128)%nat.
Proof. destruct a; cbn; lia. Qed.

(** Whole blocks at the front are absorbed first. *)
Lemma absorb_full st full l :
  (length full mod bs = 0)%nat → absorb a st (full ++ l) = absorb a (absorb a st full) l.
Proof.
  intros Hf. apply (absorb_app a st (length full / bs)). pose proof (Nat.div_mod_eq (length full) bs). lia.
Qed.

Lemma add_bufcnt_spec n (Q : result unit HaceError → HaceState H → Prop) s :
  bufcnt (hctx s) + Z.of_nat n ≤ u32_MAX →
  Q (Ok ()) (set_hctx (set_bufcnt (bufcnt (hctx s) + Z.of_nat n)) s) → dwp (add_bufcnt n) Q s.
Proof.
  intros Hn HQ. unfold add_bufcnt. apply dwp_bind, dwp_reads. cbn beta iota.
  apply dwp_guarded; [by apply Z.leb_le|]. by apply dwp_writes.
Qed.

Lemma flush_block_spec full block s :
  (length full mod bs = 0)%nat → length block = bs →
  method (hctx s) = HASH_CMD a → block_size (hctx s) = Z.of_nat bs → (∃ hd cd, engine (hw s) = Idle hd cd) →
  bufcnt (hctx s) = Z.of_nat bs → mload (mem s) buffer_at bs = block →
  mload (mem s) digest_at (state_bytes a) = absorb a (initial_state a) full →
  dwp (flush_block dev) (λ r s', r = Ok () ∧ staged (full ++ block) s' ∧ same_count s s') s.
Proof.
  intros Hf Hb Hm Hbs (hd & cd & E) Hc Hbuf Hdig. pose proof bs_range.
  unfold flush_block. apply dwp_bind, dwp_reads. cbn beta iota. rewrite Hc.
  apply dwp_seq, (hash_buffer dev a bs hd cd); [done..| |lia|].
  { apply Nat.Div0.mod_same. }
  intros s1 E1 C1 N1 D1 M1. cbn beta iota. apply dwp_writes. split; [done|].
  assert (length (full ++ block) mod bs = 0)%nat as Hfull.
  { rewrite length_app, Hb, <- Nat.Div0.add_mod_idemp_l, Hf, Nat.add_0_l. apply Nat.Div0.mod_same. }
  split; [|split; [cbn; by rewrite C1|done]].
  split; cbn [hctx hw set_hctx set_bufcnt method block_size bufcnt digcnt]; rewrite ?C1; try done; [by eexists _, _|].
  exists (full ++ block), []. rewrite app_nil_r. split_and!; try done; [cbn; lia|].
  change (mem (set_hctx (set_bufcnt 0) s1)) with (mem s1).
  rewrite D1, Hdig, Hbuf. symmetry. by apply absorb_full.
Qed.

Lemma update_blocks_spec input fuel offset msg s :
  staged msg s → (length input - offset ≤ fuel)%nat → (offset ≤ length input)%nat →
  dwp (update_blocks dev input bs fuel offset)
    (λ r s', r = Ok () ∧ staged (msg ++ drop offset input) s' ∧ same_count s s') s.
Proof.
  revert offset msg s. induction fuel as [|fuel IH]; intros offset msg s Hst Hfuel Hoff; cbn [update_blocks].
  { rewrite (proj2 (Nat.ltb_ge _ _)) by lia. apply dwp_ret. rewrite drop_ge, app_nil_r by lia. done. }
  destruct (Nat.ltb_spec offset (length input)) as [Hlt|Hge]; cycle 1.
  { apply dwp_ret. rewrite drop_ge, app_nil_r by lia. done. }
  pose proof bs_range. destruct Hst as [Hm Hbs Hi (full & tl & -> & Hf & Ht & Hc & Hbuf & Hdig)].
  apply dwp_bind, dwp_reads. cbn beta iota. rewrite Hc. unfold as_usize. rewrite Nat2Z.id.
  set (n := Nat.min (bs - length tl) (length input - offset)).
  assert (1 ≤ n)%nat by lia. rewrite (proj2 (Nat.eqb_neq n 0)) by lia.
  apply dwp_bind, dwp_require_true. cbn beta iota.
  rewrite (proj2 (Nat.leb_le (length tl + n) _)) by (unfold HACE_BUFFER_SIZE; lia).
  apply dwp_bind, dwp_require_true. cbn beta iota.
  rewrite slice_range_Some by lia. apply dwp_bind, dwp_lift. cbn beta iota delta [ok_or].
  replace (offset + n - offset)%nat with n by lia. set (src := take n (drop offset input)).
  assert (length src = n) as Hsrc by (unfold src; rewrite length_take, length_drop; lia).
  apply dwp_bind, put_nc; [unfold buffer_at; lia|unfold buffer_at; lia|].
  intros s1 (E1 & R1 & C1 & N1) M1.
  assert (mload (mem s1) buffer_at (length (tl ++ src)) = tl ++ src) as Hbuf1.
  { rewrite length_app, mload_app. f_equal.
    - rewrite <- Hbuf at 2. rewrite (mload_ext (mstore (mem s) (buffer_at + Z.of_nat (length tl)) src)) by (intros; apply M1).
      apply mload_mstore_out. lia.
    - rewrite (mload_ext (mstore (mem s) (buffer_at + Z.of_nat (length tl)) src)) by (intros; apply M1).
      apply mload_mstore. }
  assert (mload (mem s1) digest_at (state_bytes a) = absorb a (initial_state a) full) as Hdig1.
  { rewrite <- Hdig. pose proof (digest_le_state a). apply mload_ext. intros x Hx. rewrite M1. apply mstore_out.
    unfold digest_at, buffer_at in *. lia. }
  apply dwp_bind, add_bufcnt_spec; [rewrite C1, Hc; unfold u32_MAX; lia|]. cbn beta iota.
  rewrite C1, Hc. apply dwp_bind, dwp_reads. cbn beta iota.
  set (s2 := set_hctx _ s1). cbn [hctx s2 set_hctx set_bufcnt bufcnt block_size]. rewrite C1, Hbs.
  assert (full ++ tl ++ drop offset input = (full ++ tl ++ src) ++ drop (offset + n) input) as Happ.
  { rewrite <- !app_assoc. do 2 f_equal. unfold src. by rewrite <- drop_drop, take_drop. }
  rewrite <- (app_assoc full), Happ.
  assert (same_count s s2) as Hsc by (split; [cbn; by rewrite C1|done]).
  apply dwp_bind. eapply dwp_mono with (P := λ r s', r = Ok () ∧ staged (full ++ tl ++ src) s' ∧ same_count s2 s').
  - destruct (Z.eqb_spec (Z.of_nat (length tl) + Z.of_nat n) (Z.of_nat bs)) as [Heq|Hne].
    + apply flush_block_spec; cbn [s2 hctx set_hctx set_bufcnt method block_size bufcnt hw]; rewrite ?C1; try done.
      * rewrite length_app. lia.
      * by rewrite E1.
      * rewrite length_app, Hsrc in Hbuf1. by replace bs with (length tl + n)%nat by lia.
    + apply dwp_ret. split; [done|]. split; [|done].
      split; cbn [s2 hctx set_hctx set_bufcnt method block_size bufcnt hw]; rewrite ?C1; try done.
      { by rewrite E1. }
      exists full, (tl ++ src). split_and!; try done; rewrite ?length_app; lia.
  - intros r s3 (-> & Hst3 & [Hd3 Hn3]). cbn beta iota.
    eapply dwp_mono; [apply (IH (offset + n)%nat _ s3 Hst3); lia|].
    intros r s4 (-> & Hst4 & [Hd4 Hn4]). split; [done|]. split; [done|].
    destruct Hsc as [Hd Hn]. split; congruence.
Qed.

(** ** Counting *)

(** [digcnt] is the number of bytes, in two words. *)
Definition counted (n : Z) s : Prop := digcnt (hctx s) = (n mod 2 ^ 64, n / 2 ^ 64).

Lemma count_input_spec n k (Q : result unit HaceError → HaceState H → Prop) s :
  counted n s → 0 ≤ n → 0 ≤ k ≤ u32_MAX → n + k < 2 ^ 128 →
  Q (Ok ()) (set_hctx (set_digcnt ((n + k) mod 2 ^ 64, (n + k) / 2 ^ 64)) s) → dwp (count_input k) Q s.
Proof.
  unfold counted, u32_MAX. intros Hc Hn Hk Hmax HQ. unfold count_input. apply dwp_bind, dwp_reads. cbn beta iota.
  rewrite Hc. cbn [fst snd]. unfold u64_MAX. change 18446744073709551615 with (2 ^ 64 - 1).
  pose proof (Z.div_mod n (2 ^ 64) ltac:(lia)) as Hd. pose proof (Z.mod_pos_bound n (2 ^ 64) ltac:(lia)).
  set (q := n / 2 ^ 64) in *. set (m := n mod 2 ^ 64) in *.
  assert (0 ≤ q) by (apply Z.div_pos; lia).
  destruct (Z.leb_spec (m + k) (2 ^ 64 - 1)) as [Hle|Hgt].
  - apply dwp_writes. replace ((n + k) mod 2 ^ 64) with (m + k) in HQ
      by (apply (Z.mod_unique _ _ q); lia).
    by replace ((n + k) / 2 ^ 64) with q in HQ by (apply (Z.div_unique _ _ _ (m + k)); lia).
  - apply dwp_guarded.
    { apply Z.leb_le. change (2 ^ 128) with (2 ^ 64 * 2 ^ 64) in Hmax. nia. }
    apply dwp_writes. unfold as_u64. change 18446744073709551616 with (2 ^ 64).
    replace ((n + k) mod 2 ^ 64) with (m + k - 2 ^ 64) in HQ by (apply (Z.mod_unique _ _ (q + 1)); lia).
    replace ((n + k) / 2 ^ 64) with (q + 1) in HQ by (apply (Z.div_unique _ _ _ (m + k - 2 ^ 64)); lia).
    replace ((m + k) mod 2 ^ 64) with (m + k - 2 ^ 64); [done|]. apply (Z.mod_unique _ _ 1); lia.
Qed.

(** ** Updates *)

(** The driver is in the middle of a message. *)
Definition running (msg : list Z) s : Prop := staged msg s ∧ counted (Z.of_nat (length msg)) s.

Lemma update_spec input msg s :
  running msg s → Z.of_nat (length input) ≤ u32_MAX → Z.of_nat (length (msg ++ input)) < 2 ^ 128 →
  dwp (update dev input) (λ r s', r = Ok () ∧ running (msg ++ input) s' ∧ nc s' = nc s) s.
Proof.
  intros [Hst Hc] Hi Hmax. unfold update. rewrite (proj2 (Z.leb_le _ _) Hi).
  apply dwp_bind, dwp_require_true. cbn beta iota. rewrite length_app in Hmax.
  apply dwp_bind, (count_input_spec _ _ _ _ Hc); [lia..|].
  cbn beta iota. apply dwp_bind, dwp_reads. cbn beta iota. set (s1 := set_hctx _ s).
  assert (staged msg s1) as Hst1 by (destruct Hst; by split).
  rewrite (st_block _ _ Hst1). unfold as_usize. rewrite Nat2Z.id.
  eapply dwp_mono; [apply (update_blocks_spec input (length input) 0 msg s1 Hst1); lia|].
  intros r s' (-> & Hst' & Hd & Hn). split; [done|]. split; [|done]. split; [by rewrite drop_0 in Hst'|].
  unfold counted. rewrite Hd. cbn. rewrite length_app, Nat2Z.inj_add. done.
Qed.

(** ** The start of a message *)

Lemma load_words l i s (Q : result unit HaceError → HaceState H → Prop) :
  (i * 4 + length l * 4 ≤ length (iv a) * 4)%nat → (length (iv a) ≤ 16)%nat →
  (∀ s', keeps_ctl s s' → (∀ x, mem s' x = mstore (mem s) (digest_at + Z.of_nat (i * 4)) (l ≫= u32_to_le_bytes) x) →
     Q (Ok ()) s') →
  dwp (drv_for (imap (λ k w, ((i + k)%nat, w)) l) (λ '(i, word),
    let off := (i * 4)%nat in
    if (off + 4 <=? length (iv a) * 4)%nat then put (digest_at + Z.of_nat off) (u32_to_le_bytes word) else mret ())) Q s.
Proof.
  revert i s. induction l as [|w l IH]; intros i s Hl Hiv HQ; cbn [imap drv_for].
  { apply dwp_ret, HQ; [done|]. intros x. symmetry. apply mstore_out. cbn. lia. }
  cbn [length] in Hl. apply dwp_bind. cbv zeta. rewrite Nat.add_0_r, (proj2 (Nat.leb_le _ _)) by lia.
  apply put_nc; [unfold digest_at; lia|unfold digest_at; cbn; lia|]. intros s1 (E1 & R1 & C1 & N1) M1.
  erewrite (imap_ext _ (λ k w, ((S i + k)%nat, w))) by (intros; cbn; f_equal; lia).
  apply IH; [lia|done|]. intros s2 (E2 & R2 & C2 & N2) M2. apply HQ.
  { split_and!; [congruence|intros r; by rewrite R2, R1|congruence|congruence]. }
  intros x. rewrite M2. cbn [mbind list_bind]. rewrite <- mstore_app.
  replace (digest_at + Z.of_nat (S i * 4)) with (digest_at + Z.of_nat (i * 4) + Z.of_nat (length (u32_to_le_bytes w)))
    by (cbn [length u32_to_le_bytes]; lia).
  unfold mstore at 1 2. case_match; [done|apply M1].
Qed.

Lemma init_spec s :
  (∃ hd cd, engine (hw s) = Idle hd cd) →
  dwp (hash_init a) (λ r s', r = Ok () ∧ running [] s' ∧ nc s' = nc s) s.
Proof.
  intros Hi. unfold hash_init. apply dwp_bind, dwp_writes. cbn beta iota. set (s1 := set_hctx _ s).
  assert ((length (iv a) * 4)%nat = state_bytes a ∧ (length (iv a) ≤ 16)%nat) as [Hiv Hle]
    by (destruct a; cbn; split; [done|lia|done|lia|done|lia]).
  apply dwp_bind. rewrite (proj2 (Nat.leb_le _ _)) by (unfold DIGEST_BUFFER_SIZE; lia).
  unfold load_iv. rewrite Nat.eqb_refl. apply dwp_bind, dwp_require_true. cbn beta iota.
  apply (load_words (iv a) 0 s1); [lia|done|]. intros s2 (E2 & R2 & C2 & N2) M2. cbn beta iota.
  do 2 (apply dwp_bind, dwp_writes; cbn beta iota). apply dwp_writes. split; [done|]. split; [|done].
  rewrite iv_standard in M2. cbn [Nat.mul Z.of_nat] in M2. rewrite Z.add_0_r in M2.
  split; [|done]. split; cbn; rewrite ?C2, ?block_size_standard; try done.
  { by rewrite E2. }
  exists [], []. pose proof block_bytes_pos a. split_and!; try done; [apply Nat.Div0.mod_0_l|].
  rewrite absorb_nil, <- (length_initial_state a).
  rewrite <- (mload_mstore (mem s1) digest_at (initial_state a)) at 2. apply mload_ext. intros x _. apply M2.
Qed.

(** ** Padding *)

Lemma pad_len_standard len cnt full :
  len = (full + cnt)%nat → (full mod bs = 0)%nat → (cnt < bs)%nat →
  pad_len bs cnt = S (zero_count a len) ∧ (cnt + length (padding a len) ≤ 256)%nat ∧
  ((cnt + length (padding a len)) mod bs = 0)%nat.
Proof.
  intros -> Hf Hc. rewrite length_padding.
  assert (zero_count a (full + cnt) = zero_count a cnt) as ->.
  { unfold zero_count. replace (full + cnt + 1 + length_bytes a)%nat with (full + (cnt + 1 + length_bytes a))%nat by lia.
    by rewrite <- Nat.Div0.add_mod_idemp_l, Hf. }
  pose proof (padded_whole a cnt) as Hw. rewrite length_padding in Hw.
  split; [|split; [|done]]; unfold zero_count, pad_len in *; clear Hw.
  - destruct a; cbn [block_bytes length_bytes Nat.eqb] in *;
      match goal with |- context [(?x <? ?y)%nat] => destruct (Nat.ltb_spec x y) end;
      clear Hf; zify; Z.to_euclidean_division_equations; lia.
  - destruct a; cbn [block_bytes length_bytes] in *; clear Hf; zify; Z.to_euclidean_division_equations; lia.
Qed.

(** [l] has been appended to the buffer at [n]. *)
Definition appended (n : nat) (l : list Z) s s' : Prop :=
  keeps_ctl s s' ∧ ∀ x, mem s' x = mstore (mem s) (buffer_at + Z.of_nat n) l x.

Lemma appended_nil n s : appended n [] s s.
Proof. split; [done|]. intros x. rewrite mstore_out; [done|]. cbn. lia. Qed.

Lemma put_appends n l l' i s s' (Q : result unit HaceError → HaceState H → Prop) :
  appended n l s s' → i = (n + length l)%nat → (i + length l' ≤ 256)%nat →
  (∀ s'', appended n (l ++ l') s s'' → Q (Ok ()) s'') → dwp (put (buffer_at + Z.of_nat i) l') Q s'.
Proof.
  intros [(E & R & C & N) M] -> Hl HQ. apply put_nc; [unfold buffer_at; lia..|].
  intros s'' (E' & R' & C' & N') M'. apply HQ. split.
  { split_and!; [congruence|intros r; by rewrite R', R|congruence|congruence]. }
  intros x. rewrite M', <- mstore_app.
  replace (buffer_at + Z.of_nat (n + length l)) with (buffer_at + Z.of_nat n + Z.of_nat (length l)) by lia.
  unfold mstore at 1 2. case_match; [done|apply M].
Qed.

Lemma buffer_put_appends n l l' i s s' (Q : result unit HaceError → HaceState H → Prop) :
  appended n l s s' → i = (n + length l)%nat → (i + length l' ≤ 256)%nat →
  (∀ s'', appended n (l ++ l') s s'' → Q (Ok ()) s'') → dwp (buffer_put i l') Q s'.
Proof.
  intros Ha Hi Hl HQ. unfold buffer_put, HACE_BUFFER_SIZE. rewrite (proj2 (Nat.leb_le _ _) Hl).
  by eapply put_appends.
Qed.

Lemma buffer_fill_appends n l k i v s s' (Q : result unit HaceError → HaceState H → Prop) :
  appended n l s s' → i = (n + length l)%nat → (i + k ≤ 256)%nat →
  (∀ s'', appended n (l ++ replicate k v) s s'' → Q (Ok ()) s'') → dwp (buffer_fill i (i + k) v) Q s'.
Proof.
  intros Ha Hi Hl HQ. unfold buffer_fill, HACE_BUFFER_SIZE.
  rewrite (proj2 (Nat.leb_le i (i + k))), (proj2 (Nat.leb_le (i + k) 256)) by lia.
  replace (i + k - i)%nat with k by lia. eapply put_appends; [done|done| |done]. by rewrite length_replicate.
Qed.

Lemma land_block cnt : (cnt < bs)%nat → Nat.land (cnt + 0) (bs - 1) = cnt.
Proof.
  intros Hc. rewrite Nat.add_0_r. destruct a; cbn [block_bytes Nat.sub] in *.
  - change 63%nat with (Nat.ones 6). rewrite Nat.land_ones. by apply Nat.mod_small.
  - change 127%nat with (Nat.ones 7). rewrite Nat.land_ones. by apply Nat.mod_small.
  - change 127%nat with (Nat.ones 7). rewrite Nat.land_ones. by apply Nat.mod_small.
Qed.

(** [fill_padding] appends the standard's padding. *)
Lemma fill_padding_spec len full cnt s (Q : result unit HaceError → HaceState H → Prop) :
  counted (Z.of_nat len) s → block_size (hctx s) = Z.of_nat bs → bufcnt (hctx s) = Z.of_nat cnt →
  len = (full + cnt)%nat → (full mod bs = 0)%nat → (cnt < bs)%nat →
  (∀ s', appended cnt (padding a len) s s' →
     Q (Ok ()) (set_hctx (set_bufcnt (Z.of_nat (cnt + length (padding a len)))) s')) →
  dwp (fill_padding 0) Q s.
Proof.
  intros Hcnt Hbs Hb Hlen Hf Hc HQ. destruct (pad_len_standard len cnt full Hlen Hf Hc) as (Hpad & Hmax & _).
  pose proof bs_range. unfold fill_padding. apply dwp_bind, dwp_reads. cbn beta iota.
  rewrite Hbs, Hb, Hcnt. unfold as_usize. rewrite !Nat2Z.id. cbn [fst snd]. cbv zeta.
  apply dwp_bind, dwp_guarded; [apply Nat.leb_le; lia|]. apply dwp_ret. cbn beta iota.
  rewrite (land_block cnt Hc), Hpad. set (z := zero_count a len) in *.
  rewrite length_padding in Hmax. fold z in Hmax.
  rewrite low_word, high_word by lia.
  apply dwp_bind, (buffer_put_appends cnt [] _ _ s s); [apply appended_nil|cbn; lia|cbn; lia|]. intros s1 A1.
  replace (cnt + S z)%nat with (cnt + 1 + z)%nat by lia.
  cbn beta iota. apply dwp_bind, (buffer_fill_appends cnt _ z _ _ s s1 _ A1); [done|lia|]. intros s2 A2. cbn beta iota.
  cbn [app] in A2.
  assert (∀ s', appended cnt (padding a len) s s' →
    dwp (add_bufcnt (S z + length_bytes a)) Q s') as Hfin.
  { intros s' Ha. assert (hctx s' = hctx s) as C' by apply Ha.
    apply add_bufcnt_spec; rewrite C', Hb; [unfold u32_MAX; lia|].
    replace (Z.of_nat cnt + Z.of_nat (S z + length_bytes a)) with (Z.of_nat (cnt + length (padding a len)))
      by (rewrite length_padding; fold z; lia). by apply HQ. }
  destruct (Nat.eqb_spec bs 64) as [H64|H128].
  - apply dwp_bind, (buffer_put_appends cnt _ _ _ s s2 _ A2); [cbn; rewrite length_replicate; lia| |].
    { rewrite length_be_bytes. destruct a; cbn in *; lia. }
    intros s3 A3. cbn beta iota. rewrite <- (app_comm_cons) in A3.
    replace 8%nat with (length_bytes a) in A3 |- * by (by destruct a). by apply Hfin.
  - assert (length_bytes a = 16%nat) as H16 by (by destruct a).
    apply dwp_bind, (buffer_put_appends cnt _ _ _ s s2 _ A2); [cbn; rewrite length_replicate; lia| |].
    { rewrite length_be_bytes. lia. }
    intros s3 A3. cbn beta iota.
    apply dwp_bind, (buffer_put_appends cnt _ _ _ s s3 _ A3).
    { rewrite length_app, length_be_bytes. cbn [length]. rewrite length_replicate. lia. }
    { rewrite length_be_bytes. lia. }
    intros s4 A4. cbn beta iota. rewrite <- H16. apply Hfin.
    replace (padding a len) with (((0x80 :: replicate z 0) ++ be_split 8 (Z.shiftr (8 * Z.of_nat len) 64)) ++ be_split 8 (8 * Z.of_nat len)); [done|].
    unfold padding. rewrite H16. change 16%nat with (8 + 8)%nat. rewrite (be_bytes_split 8 8).
    change (8 * Z.of_nat 8) with 64. by rewrite <- app_assoc.
Qed.

(** ** The digest *)

Lemma be_bytes_range n z : Forall in_u8 (be_split n z).
Proof.
  unfold be_split. apply Forall_fmap, Forall_forall. intros i _. unfold compose, in_u8, u8_MAX.
  set (w := Z.shiftr _ _). replace (Z.land w 255) with (w mod 256).
  { pose proof (Z.mod_pos_bound w 256 ltac:(lia)). lia. }
  change 255 with (Z.ones 8). by rewrite Z.land_ones by lia.
Qed.
Lemma bind_be_range n l : Forall in_u8 (l ≫= be_split n).
Proof. induction l as [|x l IH]; cbn; [done|]. apply Forall_app. split; [apply be_bytes_range|done]. Qed.
Lemma foldl_compress_range st bl : Forall in_u8 st → Forall in_u8 (foldl (compress a) st bl).
Proof. revert st. induction bl as [|b bl IH]; intros st Hs; cbn [foldl]; [done|]. apply IH, bind_be_range. Qed.

Lemma words_bytes (f : Z → Z) b n :
  Forall in_u8 (mload f b (n * 4)) →
  ((λ i : nat, word_at (mload f (b + Z.of_nat (i * 4)) 4)) <$> seq 0 n) ≫= u32_to_le_bytes = mload f b (n * 4).
Proof.
  induction n as [|n IH]; intros Hb; [done|].
  replace (S n * 4)%nat with (n * 4 + 4)%nat in * by lia. rewrite mload_app in *. apply Forall_app in Hb as [Hb1 Hb2].
  rewrite seq_S, fmap_app, bind_app, IH by done. f_equal. cbn [fmap list_fmap mbind list_bind Nat.add app].
  rewrite app_nil_r. unfold mload, word_at in *. cbn [seq fmap list_fmap] in *.
  rewrite !List.Forall_cons_iff in Hb2. destruct Hb2 as (? & ? & ? & ? & _). by apply le_bytes_of_word.
Qed.

Lemma digest_read (h : H) :
  Forall in_u8 (mload (dma_rd h) digest_at (digest_bytes a)) →
  digest_as_bytes (digest_from_context a h) = mload (dma_rd h) digest_at (digest_bytes a).
Proof.
  intros Hr. unfold digest_as_bytes, digest_from_context. rewrite digest_size_standard.
  assert (digest_bytes a = digest_bytes a / 4 * 4)%nat as Hd by (by destruct a).
  rewrite Hd at 2. rewrite <- words_bytes by (by rewrite <- Hd). f_equal. apply list_fmap_ext.
  intros i k Hk. apply lookup_seq in Hk as [-> Hlt]. rewrite (proj2 (Nat.leb_le _ _)); cycle 1.
  { unfold DIGEST_BUFFER_SIZE. pose proof (digest_le_state a). lia. }
  f_equal. apply list_fmap_ext. intros j x Hx. apply lookup_seq in Hx. apply nc_coherent, ctx_nc.
  pose proof (digest_le_state a). unfold digest_at. lia.
Qed.

(** The driver's context holds nothing of a message. *)
Definition wiped s : Prop :=
  bufcnt (hctx s) = 0 ∧ digcnt (hctx s) = (0, 0) ∧
  mload (mem s) buffer_at HACE_BUFFER_SIZE = replicate HACE_BUFFER_SIZE 0 ∧
  mload (mem s) digest_at DIGEST_BUFFER_SIZE = replicate DIGEST_BUFFER_SIZE 0.

Lemma reset_spec hd cd s :
  engine (hw s) = Idle hd cd →
  dwp reset (λ r s', r = Ok () ∧ wiped s' ∧ engine (hw s') = Idle hd cd ∧ nc s' = nc s) s.
Proof.
  intros E. unfold reset. do 2 (apply dwp_bind, dwp_writes; cbn beta iota).
  apply dwp_bind, put_nc; [unfold buffer_at; lia|rewrite length_replicate; unfold buffer_at, HACE_BUFFER_SIZE; lia|].
  intros s1 (E1 & R1 & C1 & N1) M1. cbn beta iota.
  apply dwp_bind, put_nc; [unfold digest_at; lia|rewrite length_replicate; unfold digest_at, DIGEST_BUFFER_SIZE; lia|].
  intros s2 (E2 & R2 & C2 & N2) M2. cbn beta iota.
  apply (stop_idle hd cd). { rewrite E2, E1. done. }
  intros s3 E3 M3 C3 N3. split; [done|]. split; [|split; [done|by rewrite N3, N2, N1]].
  unfold wiped. rewrite C3, C2, C1. split; [done|]. split; [done|].
  assert (∀ x, mem s3 x = mstore (mem s1) digest_at (replicate DIGEST_BUFFER_SIZE 0) x) as M
    by (intros x; unfold mem at 1; by rewrite M3, <- M2). split.
  - rewrite (mload_ext _ _ _ _ (λ x _, M x)).
    rewrite mload_mstore_out by (rewrite length_replicate; unfold digest_at, buffer_at, DIGEST_BUFFER_SIZE; lia).
    rewrite (mload_ext _ _ _ _ (λ x _, M1 x)).
    rewrite <- (length_replicate HACE_BUFFER_SIZE 0) at 2. apply mload_mstore.
  - rewrite (mload_ext _ _ _ _ (λ x _, M x)).
    rewrite <- (length_replicate DIGEST_BUFFER_SIZE 0) at 2. apply mload_mstore.
Qed.

Lemma finalize_spec msg s :
  running msg s →
  dwp (finalize dev a) (λ r s', ∃ words, r = Ok words ∧ digest_as_bytes words = sha2 a msg ∧ wiped s' ∧
    (∃ hd cd, engine (hw s') = Idle hd cd) ∧ nc s' = nc s) s.
Proof.
  intros [[Hm Hbs (hd & cd & E) (full & tl & -> & Hf & Ht & Hc & Hbuf & Hdig)] Hcnt].
  set (len := length (full ++ tl)). assert (len = (length full + length tl)%nat) as Hlen by apply length_app.
  destruct (pad_len_standard len (length tl) (length full) Hlen Hf Ht) as (_ & Hmax & Hmod).
  unfold finalize. apply dwp_bind, (fill_padding_spec len (length full) (length tl)); [done..|].
  intros s1 [(E1 & R1 & C1 & N1) M1]. cbn beta iota. apply dwp_bind, dwp_reads. cbn beta iota.
  set (s2 := set_hctx _ s1). set (n := (length tl + length (padding a len))%nat) in *.
  change (bufcnt (hctx s2)) with (Z.of_nat n).
  apply dwp_seq, (hash_buffer dev a n hd cd); [done| |cbn; by rewrite C1|done|done|].
  { cbn. by rewrite E1. }
  intros s3 E3 C3 N3 D3 M3. cbn beta iota.
  assert (mload (mem s2) buffer_at n = tl ++ padding a len) as Hb2.
  { unfold n. rewrite mload_app, !(mload_ext _ (mem s2) _ _ (λ x _, M1 x)). f_equal; [|apply mload_mstore].
    rewrite mload_mstore_out by lia. done. }
  assert (mload (mem s2) digest_at (state_bytes a) = absorb a (initial_state a) full) as Hd2.
  { rewrite <- Hdig. pose proof (digest_le_state a). rewrite (mload_ext _ (mem s2) _ _ (λ x _, M1 x)).
    apply mload_mstore_out. unfold digest_at, buffer_at. lia. }
  rewrite Hb2, Hd2, <- absorb_full in D3 by done.
  apply dwp_bind, dwp_writes. cbn beta iota. destruct Hdev as (_ & _ & Hfl).
  destruct (Hfl (hw s3)) as (E4 & M4 & _). set (s4 := set_hw _ s3).
  apply dwp_bind, dwp_reads. cbn beta iota.
  assert (mload (mem s4) digest_at (digest_bytes a) = sha2 a (full ++ tl)) as Hsha.
  { unfold sha2. fold len. rewrite <- app_assoc, <- D3. rewrite (mload_ext (mem s3) (mem s4)) by (intros; apply M4).
    pose proof (digest_le_state a). replace (state_bytes a) with (digest_bytes a + (state_bytes a - digest_bytes a))%nat by lia.
    by rewrite mload_app, take_app_length' by (by rewrite length_mload). }
  apply dwp_bind. eapply dwp_mono; [apply (reset_spec true cd); change (engine (cache_flush dev (hw s3)) = Idle true cd); by rewrite E4|].
  intros r s5 (-> & W & E5 & N5). cbn beta iota. apply dwp_ret. eexists. split; [done|].
  split_and!; [|done|by eexists _, _|by rewrite N5; cbn; rewrite N3].
  rewrite digest_read; [done|]. change (dma_rd (hw s4)) with (mem s4). rewrite Hsha.
  apply Forall_take, foldl_compress_range, bind_be_range.
Qed.
End digest.
