(* ===== verification/HaceMac.v ===== *)
(** * Hashes and HMACs through the engine

    The theorems about [digest.rs] and [hmac.rs]: a message hashed in any number of
    pieces has its SHA-2 digest; the HMAC is RFC 2104's; no hash command is left
    running by a call that returns. *)

From S2P Require Import Prelude Bytes RegMonad Spim Soc Sha2 Hace HaceRun HaceDigest.
From stdpp Require Import base tactics option list numbers.
Local Open Scope Z_scope.

Section hmac.
Context {H : Type} `{HaceHw H} `{Soc H} `{HaceEngine H} `{!HaceLaws H}.
Implicit Types s : HaceState H.

Definition engine_idle s : Prop := ∃ hd cd, engine (hw s) = Idle hd cd.

(** A client of [DigestInit] and [DigestOp]. *)
Definition hash_message (dev : HaceDevice H) (a : Sha2) (pieces : list (list Z)) : drv (HaceState H) HaceError (list Z) :=
  hash_init a;; drv_for pieces (update dev);; finalize dev a.

(** The standard's bound on a message. *)
Definition max_message (a : Sha2) : Z := match a with Sha2_256 => 2 ^ 61 | _ => 2 ^ 125 end.

Lemma max_message_le a n : n < max_message a → n < 2 ^ 128.
Proof. destruct a; unfold max_message; lia. Qed.

Lemma updates_spec dev a pieces msg s :
  dev_ok dev → running a msg s → Forall (λ p, Z.of_nat (length p) ≤ u32_MAX) pieces →
  Z.of_nat (length (msg ++ concat pieces)) < 2 ^ 128 →
  dwp (drv_for pieces (update dev)) (λ r s', r = Ok () ∧ running a (msg ++ concat pieces) s' ∧ nc s' = nc s) s.
Proof.
  intros Hd. revert msg s. induction pieces as [|p pieces IH]; intros msg s Hr Hp Hmax; cbn [drv_for concat].
  { apply dwp_ret. by rewrite app_nil_r. }
  apply List.Forall_cons_iff in Hp as [Hp Hps]. cbn [concat] in Hmax. rewrite app_assoc in Hmax.
  apply dwp_bind. eapply dwp_mono; [apply (update_spec dev Hd a p msg s Hr Hp)|].
  { rewrite length_app in Hmax. lia. }
  intros r s1 (-> & Hr1 & N1). cbn beta iota. eapply dwp_mono; [by apply IH|].
  intros r s2 (-> & Hr2 & N2). rewrite app_assoc. split_and!; [done|done|congruence].
Qed.

Lemma hash_message_spec dev a pieces s :
  dev_ok dev → engine_idle s → Forall (λ p, Z.of_nat (length p) ≤ u32_MAX) pieces →
  Z.of_nat (length (concat pieces)) < 2 ^ 128 →
  dwp (hash_message dev a pieces) (λ r s', ∃ words, r = Ok words ∧
    digest_as_bytes words = sha2 a (concat pieces) ∧ wiped s' ∧ engine_idle s' ∧ nc s' = nc s) s.
Proof.
  intros Hd Hi Hp Hmax. unfold hash_message. apply dwp_bind.
  eapply dwp_mono; [by apply (init_spec a)|]. intros r s1 (-> & Hr1 & N1). cbn beta iota.
  apply dwp_bind. eapply dwp_mono; [by apply (updates_spec dev a pieces [])|].
  intros r s2 (-> & Hr2 & N2). cbn beta iota.
  eapply dwp_mono; [by apply (finalize_spec dev Hd)|].
  intros r s3 (words & -> & Hw & W & Hi3 & N3). exists words. split_and!; try done. congruence.
Qed.

(** ** The device of a sub-hash *)

Definition hmac_ready (fuel : nat) (pb : Z) : Prop :=
  (hace_latency < fuel)%nat ∧ Z.of_nat hace_latency < pb.

Lemma hmac_device_spec fuel pb (Q : result (HaceDevice H) HaceError → HaceState H → Prop) s :
  hmac_ready fuel pb → engine_idle s →
  (∀ dev s', dev_ok dev → engine_idle s' → nc s' = nc s → Q (Ok dev) s') →
  dwp (hmac_device fuel pb) Q s.
Proof.
  intros [Hf Hp] (hd & cd & E) HQ. unfold hmac_device. apply dwp_bind, new_global_spec; [| |done|].
  { unfold not_crypting. by rewrite E. }
  { intros n hd' cd' E'. congruence. }
  intros s' cd' E' M' C' N'. cbn beta iota. apply dwp_ret, HQ; [by apply global_dev_ok|by eexists _, _|done].
Qed.

Lemma one_shot_spec fuel pb a input s :
  hmac_ready fuel pb → engine_idle s → Z.of_nat (length input) ≤ u32_MAX →
  dwp (one_shot fuel a pb input) (λ r s', ∃ words, r = Ok words ∧ digest_as_bytes words = sha2 a input ∧
    engine_idle s' ∧ nc s' = nc s) s.
Proof.
  intros Hr Hi Hl. unfold one_shot. apply dwp_bind, (hmac_device_spec fuel pb _ s Hr Hi). intros dev s1 Hd Hi1 N1. cbn beta iota.
  apply dwp_bind. eapply dwp_mono; [by apply (init_spec a)|]. intros r s2 (-> & Hr2 & N2). cbn beta iota.
  apply dwp_bind. eapply dwp_mono; [apply (update_spec dev Hd a input [] s2 Hr2 Hl)|].
  { unfold u32_MAX in Hl. cbn [app]. lia. }
  intros r s3 (-> & Hr3 & N3). cbn beta iota. eapply dwp_mono; [by apply (finalize_spec dev Hd)|].
  intros r s4 (words & -> & Hw & _ & Hi4 & N4). exists words. split_and!; try done. congruence.
Qed.

(** ** The static buffers *)

Definition nc_wf (n : HmacNcBufs) : Prop :=
  length (nc_key n) = HMAC_KEY_CAP ∧ length (nc_ipad n) = 128%nat ∧ length (nc_opad n) = 128%nat ∧
  length (nc_msg n) = HMAC_MSG_CAP.

Lemma copy_prefix_zeros src n :
  (length src ≤ n)%nat → copy_prefix src (replicate n 0) = src ++ replicate (n - length src) 0.
Proof.
  intros Hl. unfold copy_prefix. rewrite copy_into_Some by (rewrite length_replicate; lia). cbn [from_option id].
  by rewrite write_at_0, drop_replicate.
Qed.

Lemma key_roundtrip key : (length key ≤ HMAC_KEY_CAP)%nat →
  ∃ k, from_slice key = Ok k ∧ key_as_slice k = key.
Proof.
  intros Hk. unfold from_slice. rewrite (proj2 (Nat.ltb_ge _ _) Hk). eexists. split; [done|].
  unfold key_as_slice. cbn [fst snd]. rewrite write_at_0, slice_to_app by done. done.
Qed.

Lemma pad_block_prefix a x k0 :
  length k0 = 128%nat → slice_to (pad_block (BLOCK_SIZE a) x k0) (BLOCK_SIZE a) = Some (Z.lxor x <$> take (BLOCK_SIZE a) k0).
Proof.
  intros Hk. unfold pad_block. rewrite slice_to_app.
  - f_equal. apply list_fmap_ext. intros. apply Z.lxor_comm.
  - rewrite length_fmap, length_take, Hk. by destruct a.
Qed.
Lemma length_pad_block a x k0 : length k0 = 128%nat → length (pad_block (BLOCK_SIZE a) x k0) = 128%nat.
Proof.
  intros Hk. unfold pad_block. rewrite length_app, length_fmap, length_take, length_replicate, Hk. by destruct a.
Qed.

(** What the static buffers hold in the middle of an HMAC. *)
Record hmac_running (a : Sha2) (key msg : list Z) (c : HaceHmacCtx) s : Prop := mkHmacRunning {
  hr_idle : engine_idle s;
  hr_len : msg_len c = length msg;
  hr_cap : (length msg ≤ HMAC_MSG_CAP)%nat;
  hr_wf : nc_wf (nc s);
  hr_ipad : slice_to (nc_ipad (nc s)) (BLOCK_SIZE a) = Some (Z.lxor 0x36 <$> hmac_key a key);
  hr_opad : slice_to (nc_opad (nc s)) (BLOCK_SIZE a) = Some (Z.lxor 0x5c <$> hmac_key a key);
  hr_msg : slice_to (nc_msg (nc s)) (length msg) = Some msg;
}.

Lemma hmac_start a key s k0 pb :
  engine_idle s → nc_wf (nc s) → length k0 = 128%nat → take (BLOCK_SIZE a) k0 = hmac_key a key →
  hmac_running a key [] (mkHaceHmacCtx 0 pb)
    (set_nc (λ n, mkHmacNcBufs (nc_key n) (pad_block (BLOCK_SIZE a) 0x36 k0) (pad_block (BLOCK_SIZE a) 0x5c k0)
      (replicate HMAC_MSG_CAP 0)) s).
Proof.
  intros Hi (W1 & W2 & W3 & W4) Hk Ht. split; cbn [nc set_nc nc_key nc_ipad nc_opad nc_msg]; try done.
  - cbn. lia.
  - unfold nc_wf. cbn [nc_key nc_ipad nc_opad nc_msg]. rewrite !length_pad_block, length_replicate by done. done.
  - by rewrite pad_block_prefix, Ht.
  - by rewrite pad_block_prefix, Ht.
Qed.

Lemma hmac_init_spec fuel pb a key k s :
  hmac_ready fuel pb → engine_idle s → nc_wf (nc s) → (length key ≤ HMAC_KEY_CAP)%nat → key_as_slice k = key →
  dwp (hmac_init fuel a pb k) (λ r s', ∃ c, r = Ok c ∧ hmac_budget c = pb ∧ hmac_running a key [] c s') s.
Proof.
  intros Hr Hi Hw Hkl Hk. unfold hmac_init. rewrite Hk. apply dwp_bind.
  pose proof (bs_range a) as Hbs. rewrite <- block_size_standard in Hbs.
  assert (hmac_key a key = (if (BLOCK_SIZE a <? length key)%nat then sha2 a key else key) ++
    replicate (BLOCK_SIZE a - length (if (BLOCK_SIZE a <? length key)%nat then sha2 a key else key)) 0) as Hhk
    by reflexivity.
  assert (∀ x : list Z, (length x ≤ BLOCK_SIZE a)%nat →
    take (BLOCK_SIZE a) (x ++ replicate (128 - length x) 0) = x ++ replicate (BLOCK_SIZE a - length x) 0) as Htake.
  { intros x Hx. rewrite take_app_ge by lia. f_equal. rewrite take_replicate. f_equal. lia. }
  destruct (Nat.ltb_spec (BLOCK_SIZE a) (length key)) as [Hlt|Hge].
  - apply dwp_bind, dwp_writes. cbn beta iota. apply dwp_bind, dwp_reads. cbn beta iota.
    cbn [nc set_nc nc_key]. destruct Hw as (W1 & W2 & W3 & W4).
    assert (copy_prefix key (nc_key (nc s)) = key ++ drop (length key) (nc_key (nc s))) as Hcp.
    { unfold copy_prefix. by rewrite copy_into_Some by (cbn; lia). }
    rewrite Hcp, slice_to_app by done. cbn [from_option id]. apply dwp_bind. eapply dwp_mono.
    { apply (one_shot_spec fuel pb); [done| |].
      - destruct Hi as (hd & cd & E). by eexists _, _.
      - unfold u32_MAX, HMAC_KEY_CAP in *. lia. }
    intros r s1 (words & -> & Hd & Hi1 & N1). cbn beta iota. apply dwp_ret.
    apply dwp_bind, dwp_writes. cbn beta iota. apply dwp_ret. eexists. split; [done|]. split; [done|].
    rewrite Hd. pose proof (length_sha2 a key) as Hs. pose proof (digest_le_state a).
    assert (length (sha2 a key) ≤ BLOCK_SIZE a)%nat as Hsb by (rewrite Hs; apply Nat.leb_le; by destruct a).
    rewrite copy_prefix_zeros by lia. apply hmac_start; [done| | |].
    + rewrite N1. cbn [nc set_nc nc_key]. unfold nc_wf. cbn [nc_key nc_ipad nc_opad nc_msg].
      split_and!; try done. rewrite Hcp, length_app, length_drop. unfold HMAC_KEY_CAP in *. lia.
    + rewrite length_app, length_replicate. lia.
    + by rewrite Hhk, Htake.
  - apply dwp_ret. cbn beta iota. apply dwp_bind, dwp_writes. cbn beta iota. apply dwp_ret. eexists. split; [done|].
    split; [done|]. rewrite copy_prefix_zeros by lia. apply hmac_start; [done|done| |].
    + rewrite length_app, length_replicate. lia.
    + by rewrite Hhk, Htake.
Qed.

Lemma hmac_update_spec a key msg c input s :
  hmac_running a key msg c s → (length msg + length input ≤ HMAC_MSG_CAP)%nat →
  dwp (hmac_update c input) (λ r s', ∃ c', r = Ok c' ∧ hmac_budget c' = hmac_budget c ∧
    hmac_running a key (msg ++ input) c' s') s.
Proof.
  intros [Hi Hl Hc (W1 & W2 & W3 & W4) Hip Hop Hm] Hcap. unfold hmac_update. rewrite Hl, (proj2 (Nat.leb_le _ _) Hcap).
  apply dwp_bind, dwp_require_true. cbn beta iota. apply dwp_bind, dwp_writes. cbn beta iota. apply dwp_ret.
  eexists. split; [done|]. split; [done|].
  assert (take (length msg) (nc_msg (nc s)) = msg) as Htk.
  { rewrite slice_to_Some in Hm by lia. by injection Hm. }
  split; cbn [nc set_nc nc_key nc_ipad nc_opad nc_msg msg_len]; try done; rewrite ?length_app; try done.
  - unfold nc_wf. cbn [nc_key nc_ipad nc_opad nc_msg]. rewrite copy_into_Some by lia. cbn [from_option id].
    by rewrite length_write_at by lia.
  - rewrite copy_into_Some by lia. cbn [from_option id]. rewrite slice_to_Some by (rewrite length_write_at; lia). f_equal. unfold write_at. rewrite Htk, app_assoc.
    by rewrite take_app_length' by (by rewrite length_app).
Qed.

(** Past its capacity, an update is refused and changes nothing. *)
Lemma hmac_update_refused c input s :
  (HMAC_MSG_CAP < msg_len c + length input)%nat → hmac_update c input s = Some (s, Err HaceInvalidInput).
Proof. intros Hc. unfold hmac_update. by rewrite (proj2 (Nat.leb_gt _ _) Hc). Qed.

Lemma hmac_finalize_spec fuel a key msg c s :
  hmac_ready fuel (hmac_budget c) → hmac_running a key msg c s →
  dwp (hmac_finalize fuel a c) (λ r s', ∃ words, r = Ok words ∧ digest_as_bytes words = hmac a key msg ∧
    engine_idle s' ∧ nc s' = nc s) s.
Proof.
  intros Hrdy [Hi Hl Hc Hw Hip Hop Hm]. unfold hmac_finalize. pose proof (bs_range a).
  assert (∀ x, length (Z.lxor x <$> hmac_key a key) = block_bytes a) as Hk by (intros x; by rewrite length_fmap, length_hmac_key).
  apply dwp_bind, (hmac_device_spec _ _ _ _ Hrdy Hi). intros dev s1 Hd1 Hi1 N1. cbn beta iota.
  apply dwp_bind. eapply dwp_mono; [by apply (init_spec a)|]. intros r s2 (-> & R2 & N2). cbn beta iota.
  apply dwp_bind, dwp_reads. cbn beta iota. rewrite N2, N1, Hip. cbn [from_option id].
  apply dwp_bind. eapply dwp_mono; [apply (update_spec dev Hd1 a _ [] s2 R2); rewrite ?app_nil_l, Hk; unfold u32_MAX; lia|].
  intros r s3 (-> & R3 & N3). cbn beta iota. apply dwp_bind, dwp_reads. cbn beta iota. rewrite N3, N2, N1, Hl, Hm.
  apply dwp_bind, dwp_lift. cbn beta iota delta [ok_or].
  apply dwp_bind. eapply dwp_mono; [apply (update_spec dev Hd1 a _ _ s3 R3)|].
  { unfold u32_MAX, HMAC_MSG_CAP in *. lia. }
  { rewrite app_nil_l, length_app, Hk. unfold HMAC_MSG_CAP in *. lia. }
  intros r s4 (-> & R4 & N4). cbn beta iota. apply dwp_bind.
  eapply dwp_mono; [by apply (finalize_spec dev Hd1)|]. intros r s5 (inner & -> & Hin & _ & Hi5 & N5). cbn beta iota.
  apply dwp_bind, (hmac_device_spec _ _ _ _ Hrdy Hi5). intros dev2 s6 Hd2 Hi6 N6. cbn beta iota.
  apply dwp_bind. eapply dwp_mono; [by apply (init_spec a)|]. intros r s7 (-> & R7 & N7). cbn beta iota.
  apply dwp_bind, dwp_reads. cbn beta iota.
  assert (nc s7 = nc s) as Hn7 by congruence. rewrite Hn7, Hop. cbn [from_option id].
  apply dwp_bind. eapply dwp_mono; [apply (update_spec dev2 Hd2 a _ [] s7 R7); rewrite ?app_nil_l, Hk; unfold u32_MAX; lia|].
  intros r s8 (-> & R8 & N8). cbn beta iota. apply dwp_bind. rewrite Hin.
  pose proof (length_sha2 a ([] ++ (Z.lxor 54 <$> hmac_key a key) ++ msg)) as Hsl. pose proof (digest_le_state a).
  eapply dwp_mono; [apply (update_spec dev2 Hd2 a _ _ s8 R8)|].
  { rewrite <- app_assoc, Hsl. unfold u32_MAX. lia. }
  { rewrite app_nil_l, length_app, Hk, <- app_assoc, Hsl. lia. }
  intros r s9 (-> & R9 & N9). cbn beta iota.
  eapply dwp_mono; [by apply (finalize_spec dev2 Hd2)|]. intros r s10 (words & -> & Hw10 & _ & Hi10 & N10).
  exists words. split; [done|]. split; [by rewrite Hw10, !app_nil_l|]. split; [done|]. congruence.
Qed.

(** A client of [MacInit] and [MacOp]. *)
Fixpoint hmac_updates (c : HaceHmacCtx) (pieces : list (list Z)) : drv (HaceState H) HaceError HaceHmacCtx :=
  match pieces with
  | [] => mret c
  | p :: pieces => c ← hmac_update c p; hmac_updates c pieces
  end.
Definition mac_message (fuel : nat) (a : Sha2) (pb : Z) (key : list Z) (pieces : list (list Z)) :
    drv (HaceState H) HaceError (list Z) :=
  k ← lift (from_slice key);
  c ← hmac_init fuel a pb k;
  c ← hmac_updates c pieces;
  hmac_finalize fuel a c.

Lemma hmac_updates_spec a key pieces msg c s :
  hmac_running a key msg c s →
  dwp (hmac_updates c pieces) (λ r s',
    if (length (msg ++ concat pieces) <=? HMAC_MSG_CAP)%nat then
      ∃ c', r = Ok c' ∧ hmac_budget c' = hmac_budget c ∧ hmac_running a key (msg ++ concat pieces) c' s'
    else r = Err HaceInvalidInput) s.
Proof.
  revert msg c s. induction pieces as [|p pieces IH]; intros msg c s Hr; cbn [hmac_updates concat].
  { apply dwp_ret. rewrite app_nil_r. destruct Hr. rewrite (proj2 (Nat.leb_le _ _)) by done. by eexists. }
  apply dwp_bind. destruct (Nat.le_gt_cases (length msg + length p) HMAC_MSG_CAP) as [Hle|Hgt].
  - eapply dwp_mono; [by apply (hmac_update_spec a key msg)|]. intros r s1 (c1 & -> & Hb & Hr1). cbn beta iota.
    eapply dwp_mono; [by apply IH|]. intros r s2. rewrite app_assoc. case_match; [|done].
    intros (c2 & -> & Hb2 & Hr2). exists c2. split_and!; [done|congruence|done].
  - eapply dwp_intro; [apply hmac_update_refused; by rewrite (hr_len _ _ _ _ _ Hr)|].
    cbn beta iota. rewrite (proj2 (Nat.leb_gt _ _)); [done|]. rewrite !length_app. lia.
Qed.

(** ** An engine that does not answer *)

(** Nothing is assumed of how long a command takes, nor of memory. *)
Definition patient (dev : HaceDevice H) : Prop :=
  (∀ h ns, eng_later (engine h) (engine (yield_fn dev h ns))) ∧ (∀ h, engine (cache_flush dev h) = engine h).

Definition not_hashing s : Prop := match engine (hw s) with Hashing _ _ _ => False | _ => True end.
Definition ready (a : Sha2) s : Prop := engine_idle s ∧ method (hctx s) = HASH_CMD a.

Lemma idle_not_hashing s : engine_idle s → not_hashing s.
Proof. intros (hd & cd & E). unfold not_hashing. by rewrite E. Qed.

(** A call that, if it returns, returns with no hash running, and when it succeeds with
    the engine idle. *)
Definition settles {A} (a : Sha2) (c : drv (HaceState H) HaceError A) : Prop :=
  ∀ s s' r, ready a s → c s = Some (s', r) → match r with Ok _ => ready a s' | Err _ => not_hashing s' end.

Section settles.
Context (a : Sha2) (dev : HaceDevice H) (Hdev : patient dev).

Lemma settles_ret {A} (x : A) : settles a (mret x).
Proof. intros s s' r Hi [= <- <-]. done. Qed.
Lemma settles_raise {A} (e : HaceError) : settles a (A:=A) (raise e).
Proof. intros s s' r [Hi _] [= <- <-]. by apply idle_not_hashing. Qed.
Lemma settles_lift {A} (x : result A HaceError) : settles a (lift x).
Proof. intros s s' r [Hi Hm] [= <- <-]. destruct x; [done|by apply idle_not_hashing]. Qed.
Lemma settles_reads {A} (f : HaceState H → A) : settles a (reads f).
Proof. intros s s' r Hi [= <- <-]. done. Qed.
Lemma settles_require b e : settles a (require b e).
Proof. destruct b; [apply settles_ret|apply settles_raise]. Qed.
Lemma settles_writes f :
  (∀ s, engine (hw (f s)) = engine (hw s) ∧ method (hctx (f s)) = method (hctx s)) → settles a (writes f).
Proof.
  intros Hf s s' r [(hd & cd & E) Hm] [= <- <-]. destruct (Hf s) as [E' M']. split; [|congruence].
  exists hd, cd. congruence.
Qed.
Lemma settles_guarded {A} b (c : drv (HaceState H) HaceError A) : settles a c → settles a (guarded b c).
Proof. intros Hc s s' r Hi. unfold guarded. destruct b; [by apply Hc|done]. Qed.
Lemma settles_none {A} : settles a (A:=A) (λ _, None).
Proof. by intros s s' r. Qed.
Lemma settles_bind {A B} (m : drv (HaceState H) HaceError A) (k : A → drv (HaceState H) HaceError B) :
  settles a m → (∀ x, settles a (k x)) → settles a (m ≫= k).
Proof.
  intros Hm Hk s s' r Hi. unfold mbind, drv_bind. destruct (m s) as [[s1 [x|e]]|] eqn:E; [| |done].
  - intros Ek. by apply (Hk x s1 s' r (Hm _ _ _ Hi E)).
  - intros [= <- <-]. by apply (Hm _ _ _ Hi E).
Qed.
Lemma settles_for {A} (l : list A) f : (∀ x, settles a (f x)) → settles a (drv_for l f).
Proof. intros Hf. induction l as [|x l IH]; cbn [drv_for]; [apply settles_ret|]. apply settles_bind; [apply Hf|done]. Qed.

Lemma store_engine h b l : engine (store h b l) = engine h.
Proof. revert h b. induction l as [|v l IH]; intros h b; cbn [store]; [done|]. rewrite IH. apply cpu_wr_ctl. Qed.
Lemma settles_put b l : settles a (put b l).
Proof. apply settles_writes. intros s. split; [|done]. apply store_engine. Qed.

Lemma poll_outcome n j cd budget s s' r :
  engine (hw s) = Hashing n j cd → poll_done hash_intflag_is_set (yield_fn dev) budget s = Some (s', r) →
  hctx s' = hctx s ∧
  ((r = Ok true ∧ engine (hw s') = Idle true cd) ∨ (r = Ok false ∧ ∃ m, engine (hw s') = Hashing m j cd)).
Proof.
  revert n s. induction budget as [|budget IH]; intros n s E; cbn [poll_done].
  { intros [= <- <-]. split; [done|]. right. eauto. }
  unfold mbind, drv_bind, hash_intflag_is_set, hreg_rd, mbind, drv_bind. destruct (rd_status_law (hw s)) as [Hs _].
  unfold status_read in Hs. rewrite E in Hs. destruct (hace_rd (hw s) Hace1c) as [h v]. cbn [fst snd] in Hs.
  cbn beta iota. cbn beta iota delta [mret drv_ret].
  destruct n as [|n].
  { destruct Hs as (-> & E' & _). intros [= <- <-]. split; [done|]. by left. }
  destruct Hs as (-> & _ & (m & Hm & E') & _). unfold writes. cbn beta iota.
  destruct Hdev as [Hy _]. pose proof (Hy h POLL_YIELD_NS) as Hl. rewrite E' in Hl. destruct Hl as (m' & _ & E2).
  intros Hp. by apply (IH m') in Hp.
Qed.

Lemma start_hash_outcome n s :
  ready a s →
  dwp (start_hash n) (λ r s', hctx s' = hctx s ∧
    match r with Ok _ => ∃ k j cd, engine (hw s') = Hashing k j cd | Err _ => not_hashing s' end) s.
Proof.
  intros [Hi Hm]. pose proof (idle_not_hashing s Hi) as Hn. destruct Hi as (hd & cd & E). unfold start_hash.
  apply dwp_bind, dwp_lift. destruct (ptr_to_u32 buffer_at) as [p|e]; [|done].
  apply dwp_bind. unfold put_sg, put. apply dwp_bind, dwp_writes, dwp_writes. cbn beta iota.
  set (s1 := set_hw _ (set_hw _ s)).
  assert (engine (hw s1) = Idle hd cd) as E1 by (unfold s1; cbn [hw set_hw]; by rewrite !store_engine).
  assert (not_hashing s1) as Hn1 by (unfold not_hashing; by rewrite E1).
  assert (hctx s1 = hctx s) as C1 by done. clearbody s1.
  apply dwp_bind, dwp_lift. destruct (ptr_to_u32 sg_at) as [p'|e]; [|done].
  apply dwp_bind, dwp_lift. destruct (ptr_to_u32 digest_at) as [p''|e]; [|done].
  apply dwp_bind, dwp_reads. cbn beta iota. rewrite C1, Hm.
  apply dwp_bind, (clear_hash_idle hd cd _ _ E1). intros s2 E2 M2 R2 C2 N2.
  apply (program_starts a _ _ _ cd _ _ E2). intros s3 k Hk E3 M3 C3 N3. split; [congruence|]. eauto.
Qed.

(** A command that is started and waited for is reported or stopped. *)
Lemma settles_command {A} n (k : bool → drv (HaceState H) HaceError A) :
  settles a (k true) →
  settles a (start_hash n;; done ← poll_hash dev;
             if done : bool then k true else stop_hash_operation;; raise HaceTimeout).
Proof.
  intros Hk s s' r Hi. pose proof (start_hash_outcome n s Hi) as Hs. unfold dwp in Hs. unfold mbind, drv_bind.
  destruct (start_hash n s) as [[s1 [[]|e]]|]; [|by intros [= <- <-]; apply Hs|done].
  destruct Hs as [C1 (m & j & cd & E1)].
  destruct (poll_hash dev s1) as [[s2 r2]|] eqn:Ep; [|done].
  destruct (poll_outcome _ _ _ _ _ _ _ E1 Ep) as [C2 [[-> E2]|[-> (m' & E2)]]].
  { apply Hk. split; [by eexists _, _|]. rewrite C2, C1. apply Hi. }
  unfold stop_hash_operation, hreg_wr, writes, raise. intros [= <- <-]. unfold not_hashing. cbn [hw set_hw].
  destruct (wr_stop (hw s2)) as [_ Hst]. rewrite E2 in Hst. destruct Hst as (x & hd & _ & ->). done.
Qed.

Ltac settle_step :=
  lazymatch goal with
  | |- settles _ (mbind _ _) => apply settles_bind; [|intros ?]
  | |- settles _ (mret _) => apply settles_ret
  | |- settles _ (raise _) => apply settles_raise
  | |- settles _ (reads _) => apply settles_reads
  | |- settles _ (lift _) => apply settles_lift
  | |- settles _ (require _ _) => apply settles_require
  | |- settles _ (put _ _) => apply settles_put
  | |- settles _ (guarded _ _) => apply settles_guarded
  | |- settles _ (writes _) => apply settles_writes; by intros ?
  | |- settles _ (if ?b then _ else _) => destruct b
  end.
Ltac settle := repeat settle_step.

Lemma settles_stop : settles a stop_hash_operation.
Proof.
  intros s s' r [(hd & cd & E) Hm] [= <- <-]. destruct (wr_stop (hw s)) as [_ Hs]. rewrite E in Hs.
  split; [by eexists _, _|done].
Qed.

Lemma settles_flush : settles a (flush_block dev).
Proof. unfold flush_block. apply settles_bind; [settle|]. intros n. apply (settles_command n (λ _, writes _)). settle. Qed.

Lemma settles_update input : settles a (update dev input).
Proof.
  unfold update, count_input. settle. cbv zeta. settle.
  match goal with |- settles _ (update_blocks _ _ ?b _ _) => generalize b end. intros bs.
  generalize (length input) at 1. intros fuel. generalize 0%nat.
  induction fuel as [|fuel IH]; intros offset; cbn [update_blocks];
    (destruct (_ <? _)%nat; [|apply settles_ret]); [apply settles_none|].
  settle; cbv zeta; settle; try apply IH; try apply settles_flush; unfold add_bufcnt; settle.
Qed.

Lemma settles_fill n : settles a (fill_padding n).
Proof.
  unfold fill_padding, buffer_put, buffer_fill, add_bufcnt. settle.
Qed.

Lemma settles_finalize : settles a (finalize dev a).
Proof.
  unfold finalize. apply settles_bind; [apply settles_fill|]. intros _. apply settles_bind; [settle|]. intros n.
  apply (settles_command n (λ _, _ ;; result ← _; reset;; mret result)).
  apply settles_bind.
  { apply settles_writes. intros s. split; [|done]. apply Hdev. }
  intros _. settle. unfold reset. settle. apply settles_stop.
Qed.
End settles.

Lemma init_method a s s' r :
  engine_idle s → hash_init a s = Some (s', r) → match r with Ok _ => ready a s' | Err _ => not_hashing s' end.
Proof.
  intros Hi He. pose proof (init_spec a s Hi) as Hs. unfold dwp in Hs. rewrite He in Hs.
  destruct Hs as (-> & [Hst _] & _). split; [apply Hst|]. by destruct Hst.
Qed.

End hmac.
