(* ===== verification/HaceAes.v ===== *)
(** * AES on the hash and crypto engine

    [target/ast10x0/peripherals/hace/aes.rs]: the one-shot transform, the ECB and
    CBC calls and the [CipherOp] skin, and what they compute: ECB and CBC of the
    engine's block cipher, a session chaining from call to call, the key gone from
    memory when a call returns. *)

From S2P Require Import Prelude Bytes RegMonad Spim Soc Sha2 Hace HaceRun.
From stdpp Require Import base tactics option list numbers.
Local Open Scope Z_scope.

(** ** Constants *)

Definition HACE_CMD_MBUS_REQ_SYNC_EN : Z := Z.shiftl 1 20.
Definition HACE_CMD_DES_SG_CTRL : Z := Z.shiftl 1 19.
Definition HACE_CMD_SRC_SG_CTRL : Z := Z.shiftl 1 18.
Definition HACE_CMD_AES_KEY_HW_EXP : Z := Z.shiftl 1 13.
Definition HACE_CMD_AES_SELECT : Z := 0.
Definition HACE_CMD_ENCRYPT : Z := Z.shiftl 1 7.
Definition HACE_CMD_ECB : Z := 0.
Definition HACE_CMD_CBC : Z := Z.shiftl 0x1 4.
Definition HACE_CMD_AES128 : Z := 0.
Definition HACE_CMD_AES256 : Z := Z.shiftl 0x2 2.
Definition AES_CMD_BASE : Z :=
  Z.lor (Z.lor (Z.lor (Z.lor HACE_CMD_DES_SG_CTRL HACE_CMD_SRC_SG_CTRL) HACE_CMD_MBUS_REQ_SYNC_EN)
    HACE_CMD_AES_KEY_HW_EXP) HACE_CMD_AES_SELECT.
Definition AES_BLOCK : nat := 16.

Definition keylen_bits (key : list Z) : result Z HaceError :=
  match length key with
  | 16%nat => Ok HACE_CMD_AES128
  | 32%nat => Ok HACE_CMD_AES256
  | _ => Err HaceInvalidInput
  end.

(** A slice of memory: its address and its length. *)
Record Slice := mkSlice { s_at : Z; s_len : nat }.

Inductive AesKey := Aes128 (k : list Z) | Aes256 (k : list Z).
Definition aes_key_as_slice (k : AesKey) : list Z := match k with Aes128 k => k | Aes256 k => k end.
Definition zeroize (k : AesKey) : AesKey :=
  match k with
  | Aes128 k => Aes128 (replicate (length k) 0)
  | Aes256 k => Aes256 (replicate (length k) 0)
  end.

(** [AesOp]: the key and the vector of a session. *)
Record AesOp := mkAesOp { op_key : AesKey; op_iv : list Z }.

Section driver.
Context {H : Type} `{HaceHw H} `{Soc H}.
Notation hace := (drv (HaceState H) HaceError).

(** [CryptoContext] is [ctx: [u8; 64]], then the two descriptors. *)
Definition crypto_src_at : Z := crypto_ctx_at + 64.
Definition crypto_dst_at : Z := crypto_ctx_at + 72.
Definition scrub : hace unit := put crypto_ctx_at (replicate 64 0).

(** The engine context: vector at 0, key at 16. *)
Definition set_context (key : list Z) (iv : option (list Z)) : hace unit :=
  scrub;;
  (match iv with Some v => put crypto_ctx_at v | None => mret () end);;
  (if (AES_BLOCK + length key <=? 64)%nat then put (crypto_ctx_at + Z.of_nat AES_BLOCK) key else mret ()).

(** The descriptors and the command. *)
Definition start_crypto (cmd len : Z) (input output : Slice) : hace unit :=
  in_ptr ← lift (ptr_to_u32 (s_at input));
  out_ptr ← lift (ptr_to_u32 (s_at output));
  put_sg crypto_src_at in_ptr (Z.lor len HACE_SG_LAST);;
  put_sg crypto_dst_at out_ptr (Z.lor len HACE_SG_LAST);;
  src_desc ← lift (ptr_to_u32 crypto_src_at);
  dst_desc ← lift (ptr_to_u32 crypto_dst_at);
  ctx_base ← lift (ptr_to_u32 crypto_ctx_at);
  clear_crypto_intflag;;
  program_crypto_operation src_desc dst_desc ctx_base len cmd.

Definition crypt (dev : HaceDevice H) (mode_bits : Z) (encrypt : bool) (key : list Z) (iv : option (list Z))
    (input output : Slice) : hace unit :=
  let len := s_len input in
  require (negb ((len =? 0)%nat || negb (len mod AES_BLOCK =? 0)%nat || (s_len output <? len)%nat)) HaceInvalidInput;;
  kbits ← lift (keylen_bits key);
  require (Z.of_nat len <=? u32_MAX) HaceInvalidInput;;
  set_context key iv;;
  let cmd := Z.lor (Z.lor (Z.lor AES_CMD_BASE kbits) mode_bits) (if encrypt then HACE_CMD_ENCRYPT else 0) in
  start_crypto cmd (Z.of_nat len) input output;;
  done ← poll_done crypto_intflag_is_set (yield_fn dev) (Z.to_nat (poll_budget dev));
  writes (set_hw (cache_flush dev));;
  scrub;;
  if done : bool then mret () else read_hace1c;; raise HaceTimeout.

Definition ecb_encrypt (dev : HaceDevice H) (key : list Z) (pt ct : Slice) : hace unit :=
  crypt dev HACE_CMD_ECB true key None pt ct.
Definition ecb_decrypt (dev : HaceDevice H) (key : list Z) (ct pt : Slice) : hace unit :=
  crypt dev HACE_CMD_ECB false key None ct pt.
Definition cbc_encrypt (dev : HaceDevice H) (key iv : list Z) (pt ct : Slice) : hace unit :=
  crypt dev HACE_CMD_CBC true key (Some iv) pt ct.
Definition cbc_decrypt (dev : HaceDevice H) (key iv : list Z) (ct pt : Slice) : hace unit :=
  crypt dev HACE_CMD_CBC false key (Some iv) ct pt.

(** [Drop for AesCipher]. *)
Definition aes_drop : hace unit := scrub.

(** [CipherInit::init]. *)
Definition aes_init (key : AesKey) (nonce : list Z) : AesOp := mkAesOp key nonce.

(** An operation of the skin: the array it is given is [N] bytes at [at_in], the one
    it returns is on its stack at [at_out].  [N % 16 == 0] is asserted when the
    program is compiled. *)
Definition skin_call (N : nat) (at_in at_out : Z) (body : Slice → Slice → hace unit) : hace (list Z) :=
  guarded (N mod AES_BLOCK =? 0)%nat (mret ());;
  put at_out (replicate N 0);;
  body (mkSlice at_in N) (mkSlice at_out N);;
  reads (λ s, cpu_load (hw s) at_out N).

Definition ecb_op_encrypt (dev : HaceDevice H) (N : nat) (op : AesOp) (at_in at_out : Z) : hace (list Z) :=
  skin_call N at_in at_out (ecb_encrypt dev (aes_key_as_slice (op_key op))).
Definition ecb_op_decrypt (dev : HaceDevice H) (N : nat) (op : AesOp) (at_in at_out : Z) : hace (list Z) :=
  skin_call N at_in at_out (ecb_decrypt dev (aes_key_as_slice (op_key op))).

(** The vector moves to the last block of ciphertext. *)
Definition advance_iv (N : nat) (op : AesOp) (ciphertext : list Z) : AesOp :=
  mkAesOp (op_key op) (default (op_iv op) (slice_range ciphertext (N - AES_BLOCK) N)).
Definition cbc_op_encrypt (dev : HaceDevice H) (N : nat) (op : AesOp) (at_in at_out : Z) : hace (AesOp * list Z) :=
  ct ← skin_call N at_in at_out (cbc_encrypt dev (aes_key_as_slice (op_key op)) (op_iv op));
  guarded (AES_BLOCK <=? N)%nat (mret (advance_iv N op ct, ct)).
Definition cbc_op_decrypt (dev : HaceDevice H) (N : nat) (op : AesOp) (at_in at_out : Z) : hace (AesOp * list Z) :=
  ciphertext ← reads (λ s, cpu_load (hw s) at_in N);
  pt ← skin_call N at_in at_out (cbc_decrypt dev (aes_key_as_slice (op_key op)) (op_iv op));
  guarded (AES_BLOCK <=? N)%nat (mret (advance_iv N op ciphertext, pt)).
End driver.

(** ** Modes of operation *)

Definition xor_block (x y : list Z) : list Z := zip_with Z.lxor x y.
Fixpoint cbc_enc (f : list Z → list Z) (v : list Z) (bl : list (list Z)) : list (list Z) :=
  match bl with
  | [] => []
  | b :: bl => let c := f (xor_block b v) in c :: cbc_enc f c bl
  end.
Fixpoint cbc_dec (f : list Z → list Z) (v : list Z) (bl : list (list Z)) : list (list Z) :=
  match bl with
  | [] => []
  | b :: bl => xor_block (f b) v :: cbc_dec f b bl
  end.

Inductive AesMode := AesEcb | AesCbc.
Definition mode_bits (m : AesMode) : Z := match m with AesEcb => HACE_CMD_ECB | AesCbc => HACE_CMD_CBC end.
Definition aes_blocks (f : list Z → list Z) (enc : bool) (m : AesMode) (v : list Z) (bl : list (list Z)) : list (list Z) :=
  match m, enc with
  | AesEcb, _ => f <$> bl
  | AesCbc, true => cbc_enc f v bl
  | AesCbc, false => cbc_dec f v bl
  end.
(** [data], whole blocks, transformed. *)
Definition aes_transform (f : list Z → list Z) (enc : bool) (m : AesMode) (v data : list Z) : list Z :=
  concat (aes_blocks f enc m v (blocks 16 (length data / 16) data)).

Definition aes_cmd (enc : bool) (m : AesMode) (keylen : nat) : Z :=
  Z.lor (Z.lor (Z.lor AES_CMD_BASE (if (keylen =? 16)%nat then HACE_CMD_AES128 else HACE_CMD_AES256)) (mode_bits m))
    (if enc then HACE_CMD_ENCRYPT else 0).

(** Payloads are read and written in ordinary SRAM, below the window of [.ram_nc];
    for one in the window the engine completes without writing any output. *)
Definition RAM_NC_BASE : Z := 0x000a0000.
Definition in_sram (at_ : Z) (len : nat) : Prop := 0 ≤ at_ ∧ at_ + Z.of_nat len ≤ RAM_NC_BASE.

(** A crypto command: descriptors of [len] bytes each, of whole blocks, that do not
    overlap, of payloads in ordinary SRAM. *)
Record crypto_job_ok (f : Z → Z) (j : CryptoJob) (enc : bool) (m : AesMode) (keylen len : nat) (src dst : Z) : Prop := {
  cj_cmd : c_cmd j = aes_cmd enc m keylen;
  cj_keylen : keylen = 16%nat ∨ keylen = 32%nat;
  cj_len : c_len j = Z.of_nat len ∧ (len mod 16 = 0)%nat ∧ Z.of_nat len < 2 ^ 31;
  cj_src : le32 f (c_src j + 4) = src ∧ le32 f (c_src j) = Z.lor (Z.of_nat len) HACE_SG_LAST;
  cj_dst : le32 f (c_dst j + 4) = dst ∧ le32 f (c_dst j) = Z.lor (Z.of_nat len) HACE_SG_LAST;
  cj_apart : src + Z.of_nat len ≤ dst ∨ dst + Z.of_nat len ≤ src;
  cj_sram : in_sram src len ∧ in_sram dst len;
}.

(** The crypto half of the engine.  [cpu_wr_*] are what a store does to a cached
    address. *)
Class AesLaws (H : Type) `{HaceHw H} `{Soc H} `{HaceEngine H} : Prop := {
  crypto_ctx_range : 0 ≤ crypto_ctx_at ∧ crypto_ctx_at + 80 ≤ u32_MAX;
  crypto_ctx_nc x : crypto_ctx_at ≤ x < crypto_ctx_at + 80 → noncacheable x;
  cpu_wr_cpu h a v x : cpu_rd (cpu_wr h a v) x = if x =? a then v else cpu_rd h x;
  cpu_wr_other h a v x : x ≠ a → dma_rd (cpu_wr h a v) x = dma_rd h x;
  aes_length e k b : length (aes_block e k b) = 16%nat;
  wr_crypto h hd cmd : engine h = Idle hd false →
    let h' := hace_wr h Hace10 cmd in
    same_mem h h' ∧ ∃ n, (n ≤ hace_latency)%nat ∧
      engine h' = Crypting n (mkCryptoJob (hace_reg h Hace00) (hace_reg h Hace04) (hace_reg h Hace08)
        (hace_reg h Hace0c) cmd) hd;
  crypto_done h j hd enc m keylen len src dst :
    engine h = Crypting 0 j hd → crypto_job_ok (dma_rd h) j enc m keylen len src dst →
    ∀ x, dma_rd (hace_rd h Hace1c).1 x =
      mstore (dma_rd h) dst (aes_transform (aes_block enc (mload (dma_rd h) (c_ctx j + 16) keylen)) enc m
        (mload (dma_rd h) (c_ctx j) 16) (mload (dma_rd h) src len)) x;
}.

(** ** The transform *)

Section run.
Context {H : Type} `{HaceHw H} `{Soc H} `{HaceEngine H} `{!HaceLaws H} `{!AesLaws H}.
Implicit Types s : HaceState H.

(** A device that waits long enough and whose cache hook makes the CPU read what
    memory holds. *)
Definition aes_dev_ok (dev : HaceDevice H) : Prop :=
  (Z.of_nat hace_latency < poll_budget dev) ∧
  (∀ h ns, let h' := yield_fn dev h ns in eng_later (engine h) (engine h') ∧ same_mem h h') ∧
  (∀ h, let h' := cache_flush dev h in
    engine h' = engine h ∧ same_mem h h' ∧ ∀ x, cpu_rd h' x = dma_rd h x).

Lemma global_aes_dev_ok yield pb :
  Z.of_nat hace_latency < pb →
  (∀ h ns, eng_later (engine h) (engine (yield h ns)) ∧ same_mem h (yield h ns)) →
  aes_dev_ok (mkHaceDevice pb yield dcache_invd_all).
Proof.
  intros Hp Hy. split_and!; [done|done|]. intros h. destruct (invd_all_keeps h) as (E & M & _).
  split_and!; [done|done|apply invd_all_coherent].
Qed.

Lemma put_crypto a l (Q : result unit HaceError → HaceState H → Prop) s :
  crypto_ctx_at ≤ a → a + Z.of_nat (length l) ≤ crypto_ctx_at + 80 →
  (∀ s', keeps_ctl s s' → (∀ x, mem s' x = mstore (mem s) a l x) → Q (Ok ()) s') → dwp (put a l) Q s.
Proof.
  intros Ha Hl HQ. apply dwp_writes.
  destruct (store_nc l a (hw s)) as (E & R & M); [intros; apply crypto_ctx_nc; lia|]. by apply HQ.
Qed.

Lemma put_sg_crypto a p len (Q : result unit HaceError → HaceState H → Prop) s :
  crypto_ctx_at ≤ a → a + 8 ≤ crypto_ctx_at + 80 → in_u32 p → in_u32 len →
  (∀ s', keeps_ctl s s' → le32 (mem s') a = len → le32 (mem s') (a + 4) = p →
     (∀ x, x < a ∨ a + 8 ≤ x → mem s' x = mem s x) → Q (Ok ()) s') → dwp (put_sg a p len) Q s.
Proof.
  intros Ha Hb Hp Hl HQ. unfold put_sg. apply dwp_bind, put_crypto; [lia|cbn; lia|]. intros s1 (E1 & R1 & C1 & N1) M1.
  apply put_crypto; [lia|cbn; lia|]. intros s2 (E2 & R2 & C2 & N2) M2. apply HQ.
  - split_and!; [congruence|intros r; by rewrite R2, R1|congruence|congruence].
  - rewrite (le32_ext (mstore (mem s1) a (u32_to_le_bytes len))) by (intros; apply M2). by apply le32_mstore.
  - rewrite (le32_ext (mstore (mem s) (a + 4) (u32_to_le_bytes p))); [by apply le32_mstore|].
    intros x Hx. rewrite M2, mstore_out by (cbn; lia). apply M1.
  - intros x Hx. rewrite M2, mstore_out, M1, mstore_out by (cbn; lia). done.
Qed.

Lemma clear_crypto_idle hd cd (Q : result unit HaceError → HaceState H → Prop) s :
  engine (hw s) = Idle hd cd →
  (∀ s', engine (hw s') = Idle hd false → same_mem (hw s) (hw s') → hctx s' = hctx s → nc s' = nc s → Q (Ok ()) s') →
  dwp clear_crypto_intflag Q s.
Proof.
  intros E HQ. apply dwp_writes.
  destruct (wr_status (hw s) hd cd (Z.shiftl 1 crypto_intflag) E) as (E' & M & R).
  destruct flags_apart as (Fh & Fc & Fn).
  rewrite !Z.shiftl_spec in E' by lia. rewrite Z.sub_diag in E'. cbn [Z.testbit negb] in E'.
  rewrite andb_false_r in E'. apply HQ; try done. cbn [hw set_hw]. rewrite E'. f_equal.
  replace (Z.testbit 1 (hash_intflag - crypto_intflag)) with false; [by rewrite andb_true_r|].
  symmetry. destruct (Z.lt_total hash_intflag crypto_intflag) as [?|[?|?]]; [by apply Z.testbit_neg_r; lia|lia|].
  apply (high_bit 1 1); lia.
Qed.

Lemma program_crypto sd dd cb len cmd hd (Q : result unit HaceError → HaceState H → Prop) s :
  engine (hw s) = Idle hd false →
  (∀ s' n, (n ≤ hace_latency)%nat → engine (hw s') = Crypting n (mkCryptoJob sd dd cb len cmd) hd →
     same_mem (hw s) (hw s') → hctx s' = hctx s → nc s' = nc s → Q (Ok ()) s') →
  dwp (program_crypto_operation sd dd cb len cmd) Q s.
Proof.
  intros E HQ. unfold program_crypto_operation.
  apply dwp_bind, (hreg_operand _ _ _ _ _ _ E); [done..|]. intros s1 E1 M1 C1 N1 R1.
  apply dwp_bind, (hreg_operand _ _ _ _ _ _ E1); [done..|]. intros s2 E2 M2 C2 N2 R2.
  apply dwp_bind, (hreg_operand _ _ _ _ _ _ E2); [done..|]. intros s3 E3 M3 C3 N3 R3.
  apply dwp_bind, (hreg_operand _ _ _ _ _ _ E3); [done..|]. intros s4 E4 M4 C4 N4 R4.
  apply dwp_writes. destruct (wr_crypto (hw s4) hd cmd E4) as (M & n & Hn & E5).
  assert (hace_reg (hw s4) Hace00 = sd) as R00
    by (rewrite R4, decide_False, R3, decide_False, R2, decide_False, R1, decide_True by done; done).
  assert (hace_reg (hw s4) Hace04 = dd) as R04
    by (rewrite R4, decide_False, R3, decide_False, R2, decide_True by done; done).
  assert (hace_reg (hw s4) Hace08 = cb) as R08 by (rewrite R4, decide_False, R3, decide_True by done; done).
  assert (hace_reg (hw s4) Hace0c = len) as R0c by (rewrite R4, decide_True by done; done).
  rewrite R00, R04, R08, R0c in E5. apply (HQ _ n Hn); cbn [hw hctx nc set_hw]; congruence.
Qed.

Lemma crypto_poll yield budget n j hd (Q : result bool HaceError → HaceState H → Prop) s :
  (∀ h ns, eng_later (engine h) (engine (yield h ns)) ∧ same_mem h (yield h ns)) →
  engine (hw s) = Crypting n j hd → (n < budget)%nat →
  (∀ s0 s', same_mem (hw s) (hw s0) → engine (hw s0) = Crypting 0 j hd → hw s' = (hace_rd (hw s0) Hace1c).1 →
     hctx s' = hctx s → nc s' = nc s → engine (hw s') = Idle hd true → Q (Ok true) s') →
  dwp (poll_done crypto_intflag_is_set yield budget) Q s.
Proof.
  intros Hy. revert n s. induction budget as [|budget IH]; intros n s E Hn HQ; [lia|].
  cbn [poll_done]. apply dwp_bind. destruct (rd_status_law (hw s)) as [Hs _]. unfold status_read in Hs. rewrite E in Hs.
  unfold crypto_intflag_is_set, hreg_rd, dwp at 1, mbind, drv_bind. cbn beta iota.
  destruct (hace_rd (hw s) Hace1c) as [h v] eqn:Er. cbn [fst snd] in Hs. cbn beta iota delta [mret drv_ret].
  destruct n as [|n].
  { destruct Hs as (-> & E'). apply dwp_ret, (HQ s); try done. by cbn; rewrite Er. }
  destruct Hs as (-> & (m & Hm & E1) & M1).
  apply dwp_bind, dwp_writes. cbn beta iota.
  destruct (Hy h POLL_YIELD_NS) as [El M2]. rewrite E1 in El. destruct El as (m' & Hm' & E2).
  apply (IH m'); [done|lia|]. intros s0 s' M0 E0 Hw C' N' E'. apply (HQ s0); try done.
  intros x. rewrite M0. cbn. by rewrite M2, M1.
Qed.

(** What the slices of a call satisfy: in ordinary SRAM as [aes.rs] asks of its
    callers, no overlap with one another or with the engine's context. *)
Record slices_ok (input output : Slice) : Prop := {
  so_in : in_sram (s_at input) (s_len input);
  so_out : in_sram (s_at output) (s_len output);
  so_apart : s_at input + Z.of_nat (s_len input) ≤ s_at output ∨ s_at output + Z.of_nat (s_len output) ≤ s_at input;
  so_in_ctx : s_at input + Z.of_nat (s_len input) ≤ crypto_ctx_at ∨ crypto_ctx_at + 80 ≤ s_at input;
  so_out_ctx : s_at output + Z.of_nat (s_len output) ≤ crypto_ctx_at ∨ crypto_ctx_at + 80 ≤ s_at output;
}.

(** Such addresses are those of a 32-bit machine. *)
Lemma in_sram_u32 at_ len : in_sram at_ len → 0 ≤ at_ ≤ u32_MAX.
Proof. unfold in_sram, RAM_NC_BASE, u32_MAX. lia. Qed.

Definition sizes_ok (input output : Slice) : bool :=
  negb ((s_len input =? 0)%nat || negb (s_len input mod AES_BLOCK =? 0)%nat || (s_len output <? s_len input)%nat).

(** The memory the engine finds: vector, key and descriptors. *)
Record prepared (key v : list Z) (len src dst : Z) s s' : Prop := {
  pr_iv : mload (mem s') crypto_ctx_at 16 = v;
  pr_key : mload (mem s') (crypto_ctx_at + 16) (length key) = key;
  pr_src : le32 (mem s') (crypto_src_at + 4) = src ∧ le32 (mem s') crypto_src_at = Z.lor len HACE_SG_LAST;
  pr_dst : le32 (mem s') (crypto_dst_at + 4) = dst ∧ le32 (mem s') crypto_dst_at = Z.lor len HACE_SG_LAST;
  pr_frame : ∀ x, x < crypto_ctx_at ∨ crypto_ctx_at + 80 ≤ x → mem s' x = mem s x;
}.

Definition iv_bytes (iv : option (list Z)) : list Z := default (replicate 16 0) iv.

Lemma set_context_spec iv key (Q : result unit HaceError → HaceState H → Prop) s :
  length (iv_bytes iv) = 16%nat → (length key ≤ 32)%nat →
  (∀ s', keeps_ctl s s' → mload (mem s') crypto_ctx_at 16 = iv_bytes iv →
     mload (mem s') (crypto_ctx_at + 16) (length key) = key →
     (∀ x, x < crypto_ctx_at ∨ crypto_ctx_at + 64 ≤ x → mem s' x = mem s x) → Q (Ok ()) s') →
  dwp (set_context key iv) Q s.
Proof.
  intros Hv Hk HQ. unfold set_context. rewrite (proj2 (Nat.leb_le (AES_BLOCK + length key) 64)) by (unfold AES_BLOCK; lia).
  unfold scrub. apply dwp_bind, put_crypto; [lia|rewrite length_replicate; lia|].
  intros s1 (E1 & R1 & C1 & N1) M1. cbn beta iota. apply dwp_bind.
  eapply dwp_mono with (P := λ r s2, r = Ok () ∧ keeps_ctl s s2 ∧ mload (mem s2) crypto_ctx_at 16 = iv_bytes iv ∧
    ∀ x, x < crypto_ctx_at ∨ crypto_ctx_at + 64 ≤ x → mem s2 x = mem s x).
  - destruct iv as [v|].
    + cbn [iv_bytes from_option id] in *. apply put_crypto; [lia|lia|]. intros s2 (E2 & R2 & C2 & N2) M2.
      split; [done|]. split; [split_and!; [congruence|intros r; by rewrite R2, R1|congruence|congruence]|]. split.
      * rewrite <- Hv, (mload_ext _ _ _ _ (λ x _, M2 x)). apply mload_mstore.
      * intros x Hx. rewrite M2, mstore_out, M1, mstore_out by (rewrite ?length_replicate; lia). done.
    + apply dwp_ret. split; [done|]. split; [done|]. split.
      * rewrite (mload_ext _ _ _ _ (λ x _, M1 x)). change (replicate 64 0) with (replicate 16 0 ++ replicate 48 0).
        rewrite (mload_ext (mstore (mstore (mem s) crypto_ctx_at (replicate 16 0)) (crypto_ctx_at + Z.of_nat 16) (replicate 48 0)));
          [|intros x _; symmetry; apply (mstore_app _ _ (replicate 16 0))].
        rewrite mload_mstore_out by lia. apply (mload_mstore (mem s) crypto_ctx_at (replicate 16 0)).
      * intros x Hx. rewrite M1, mstore_out by (rewrite length_replicate; lia). done.
  - intros r s2 (-> & (E2 & R2 & C2 & N2) & V2 & F2). cbn beta iota.
    apply put_crypto; [unfold AES_BLOCK; lia|unfold AES_BLOCK; lia|]. intros s3 (E3 & R3 & C3 & N3) M3. apply HQ.
    + split_and!; [congruence|intros r; by rewrite R3, R2|congruence|congruence].
    + rewrite (mload_ext _ _ _ _ (λ x _, M3 x)), mload_mstore_out by (unfold AES_BLOCK; lia). done.
    + rewrite (mload_ext _ _ _ _ (λ x _, M3 x)). apply mload_mstore.
    + intros x Hx. rewrite M3, mstore_out by (unfold AES_BLOCK; lia). by apply F2.
Qed.

Lemma blocks_length n k l : length l = (k * n)%nat → Forall (λ b, length b = n) (blocks n k l).
Proof.
  revert l. induction k as [|k IH]; intros l Hl; cbn [blocks]; constructor.
  - rewrite length_take. lia.
  - apply IH. rewrite length_drop. lia.
Qed.

Lemma length_concat_blocks n (ll : list (list Z)) : Forall (λ b, length b = n) ll → length (concat ll) = (length ll * n)%nat.
Proof. induction 1 as [|b ll Hb _ IH]; cbn; [done|]. rewrite length_app, Hb, IH. lia. Qed.

Lemma concat_blocks n k l : length l = (k * n)%nat → concat (blocks n k l) = l.
Proof.
  revert l. induction k as [|k IH]; intros l Hl; cbn [blocks concat]; [by apply nil_length_inv in Hl as ->|].
  rewrite IH by (rewrite length_drop; lia). apply take_drop.
Qed.

Lemma blocks_concat n (ll : list (list Z)) : Forall (λ b, length b = n) ll → blocks n (length ll) (concat ll) = ll.
Proof.
  induction 1 as [|b ll Hb _ IH]; cbn [length blocks concat]; [done|].
  by rewrite take_app_length', drop_app_length', IH by done.
Qed.

Lemma blocks_inj n (l1 l2 : list (list Z)) :
  Forall (λ b, length b = n) l1 → Forall (λ b, length b = n) l2 → length l1 = length l2 → concat l1 = concat l2 → l1 = l2.
Proof. intros F1 F2 Hl Hc. by rewrite <- (blocks_concat n l1), <- (blocks_concat n l2), Hl, Hc. Qed.

Lemma aes_blocks_shape f enc m v bl :
  (∀ b, length (f b) = 16%nat) → length v = 16%nat → Forall (λ b, length b = 16%nat) bl →
  length (aes_blocks f enc m v bl) = length bl ∧ Forall (λ b, length b = 16%nat) (aes_blocks f enc m v bl).
Proof.
  intros Hf Hv Hb. destruct m, enc; cbn [aes_blocks]; rewrite ?length_fmap.
  1,2: split; [done|]; apply Forall_fmap, Forall_forall; intros; apply Hf.
  - clear Hb. revert v Hv. induction bl as [|b bl IH]; intros v Hv; cbn [cbc_enc length]; [done|].
    destruct (IH (f (xor_block b v)) (Hf _)) as [-> HF]. split; [done|]. by constructor.
  - revert v Hv. induction Hb as [|b bl Hb Hbl IH]; intros v Hv; cbn [cbc_dec length]; [done|].
    destruct (IH b Hb) as [-> HF]. split; [done|]. constructor; [|done].
    unfold xor_block. rewrite length_zip_with, Hf, Hv. done.
Qed.

Lemma length_aes_transform f enc m v data :
  (∀ b, length (f b) = 16%nat) → length v = 16%nat → (length data mod 16 = 0)%nat →
  length (aes_transform f enc m v data) = length data.
Proof.
  intros Hf Hv Hd. unfold aes_transform.
  pose proof (Nat.div_mod_eq (length data) 16) as Hq.
  destruct (aes_blocks_shape f enc m v (blocks 16 (length data / 16) data) Hf Hv) as [Hl HF].
  { apply blocks_length. lia. }
  rewrite (length_concat_blocks 16), Hl, length_blocks by done. lia.
Qed.

Lemma keylen_bits_ok key :
  length key = 16%nat ∨ length key = 32%nat →
  keylen_bits key = Ok (if (length key =? 16)%nat then HACE_CMD_AES128 else HACE_CMD_AES256).
Proof. unfold keylen_bits. by intros [-> | ->]. Qed.

Lemma keylen_bits_bad key :
  length key ≠ 16%nat → length key ≠ 32%nat → keylen_bits key = Err HaceInvalidInput.
Proof.
  unfold keylen_bits. generalize (length key). intros n H16 H32.
  do 33 (destruct n as [|n]; [first [done | congruence]|]). done.
Qed.

Lemma crypt_refuses dev mb enc key iv input output s :
  sizes_ok input output = false ∨ (length key ≠ 16%nat ∧ length key ≠ 32%nat) →
  crypt dev mb enc key iv input output s = Some (s, Err HaceInvalidInput).
Proof.
  unfold crypt. fold (sizes_ok input output). intros [Hs|[H16 H32]]; [by rewrite Hs|].
  destruct (sizes_ok input output); [|done]. by rewrite keylen_bits_bad.
Qed.

(** The engine context is as the descriptors and the key say. *)
Lemma start_crypto_spec cmd key v len input output hd cd (Q : result unit HaceError → HaceState H → Prop) s :
  engine (hw s) = Idle hd cd → slices_ok input output → 0 ≤ len < 2 ^ 31 → (length key ≤ 32)%nat →
  mload (mem s) crypto_ctx_at 16 = v → mload (mem s) (crypto_ctx_at + 16) (length key) = key →
  (∀ s' n, (n ≤ hace_latency)%nat →
     engine (hw s') = Crypting n (mkCryptoJob crypto_src_at crypto_dst_at crypto_ctx_at len cmd) hd →
     prepared key v len (s_at input) (s_at output) s s' → hctx s' = hctx s → nc s' = nc s → Q (Ok ()) s') →
  dwp (start_crypto cmd len input output) Q s.
Proof.
  intros E [Hin%in_sram_u32 Hout%in_sram_u32 _ _ _] Hlen Hkl V1 K1 HQ. pose proof crypto_ctx_range as [Hlo Hhi]. unfold start_crypto.
  rewrite !ptr_fits by (unfold crypto_src_at, crypto_dst_at; lia).
  do 2 (apply dwp_bind, dwp_lift; cbn beta iota). unfold crypto_src_at, crypto_dst_at in *.
  apply dwp_bind, put_sg_crypto; [lia|lia|done|by apply sg_len_range|]. intros s2 (E2 & R2 & C2 & N2) L2 A2 F2. cbn beta iota.
  apply dwp_bind, put_sg_crypto; [lia|lia|done|by apply sg_len_range|]. intros s3 (E3 & R3 & C3 & N3) L3 A3 F3. cbn beta iota.
  do 3 (apply dwp_bind, dwp_lift; cbn beta iota).
  assert (engine (hw s3) = Idle hd cd) as E3' by congruence.
  apply dwp_bind, (clear_crypto_idle hd cd _ _ E3'). intros s4 E4 M4 C4 N4. cbn beta iota.
  apply (program_crypto _ _ _ _ _ hd _ _ E4). intros s5 n Hn E5 M5 C5 N5.
  assert (∀ x, mem s5 x = mem s3 x) as M35 by (intros x; unfold mem at 1; by rewrite M5, M4).
  apply (HQ s5 n Hn E5); [|congruence|congruence]. split; unfold crypto_src_at, crypto_dst_at.
  - rewrite <- V1. apply mload_ext. intros x Hx. rewrite M35, F3, F2 by lia. done.
  - rewrite <- K1 at 2. apply mload_ext. intros x Hx. rewrite M35, F3, F2 by lia. done.
  - by rewrite !(le32_ext (mem s2) (mem s5)) by (intros x Hx; rewrite M35; apply F3; lia).
  - by rewrite !(le32_ext (mem s3) (mem s5)) by (intros; apply M35).
  - intros x Hx. rewrite M35, F3, F2 by lia. done.
Qed.

(** The wait: the output holds the transform of the input. *)
Lemma crypto_poll_computes dev n m enc key v input output hd (Q : result bool HaceError → HaceState H → Prop) s s5 :
  aes_dev_ok dev → sizes_ok input output = true → slices_ok input output →
  length key = 16%nat ∨ length key = 32%nat → length v = 16%nat → Z.of_nat (s_len input) < 2 ^ 31 →
  (n ≤ hace_latency)%nat →
  engine (hw s5) = Crypting n (mkCryptoJob crypto_src_at crypto_dst_at crypto_ctx_at (Z.of_nat (s_len input))
    (aes_cmd enc m (length key))) hd →
  prepared key v (Z.of_nat (s_len input)) (s_at input) (s_at output) s s5 →
  (∀ s', engine (hw s') = Idle hd true → hctx s' = hctx s5 → nc s' = nc s5 →
     (∀ x, mem s' x = mstore (mem s5) (s_at output) (aes_transform (aes_block enc key) enc m v
        (mload (mem s) (s_at input) (s_len input))) x) → Q (Ok true) s') →
  dwp (poll_done crypto_intflag_is_set (yield_fn dev) (Z.to_nat (poll_budget dev))) Q s5.
Proof.
  intros (Hb & Hy & _) Hsz [Hin Hout Hap Hic Hoc] Hkl Hv Hlen Hn E5 [P1 P2 P3 P4 P5] HQ.
  unfold sizes_ok, AES_BLOCK in Hsz. apply negb_true_iff, orb_false_iff in Hsz as [Hsz Hol].
  apply orb_false_iff in Hsz as [_ Hmod]. apply negb_false_iff, Nat.eqb_eq in Hmod. apply Nat.ltb_ge in Hol.
  apply (crypto_poll _ _ n _ hd _ _ Hy E5); [lia|]. intros s0 s6 M0 E0 Hw6 C6 N6 E6. apply HQ; try done.
  intros x. unfold mem at 1. rewrite Hw6.
  rewrite (crypto_done (hw s0) _ hd enc m (length key) (s_len input) (s_at input) (s_at output) E0).
  - cbn [c_ctx]. rewrite !(mload_ext (mem s5) (dma_rd (hw s0))) by (intros; apply M0). rewrite P1, P2.
    rewrite (mload_ext (mem s) (mem s5)) by (intros y Hyr; apply P5; lia).
    unfold mstore. case_match; [done|]. apply M0.
  - split; cbn [c_cmd c_len c_src c_dst]; try done; [| |lia|unfold in_sram in *; lia];
      by rewrite !(le32_ext (mem s5) (dma_rd (hw s0))) by (intros; apply M0).
Qed.

Lemma store_cpu h a l x : x < a ∨ a + Z.of_nat (length l) ≤ x → cpu_rd (store h a l) x = cpu_rd h x.
Proof.
  revert h a. induction l as [|v l IH]; intros h a Hx; cbn [store length] in *; [done|].
  rewrite IH by lia. rewrite cpu_wr_cpu, (proj2 (Z.eqb_neq _ _)) by lia. done.
Qed.

Lemma crypt_computes dev m enc key iv input output hd cd s :
  aes_dev_ok dev → engine (hw s) = Idle hd cd → sizes_ok input output = true → slices_ok input output →
  length key = 16%nat ∨ length key = 32%nat → length (iv_bytes iv) = 16%nat → Z.of_nat (s_len input) < 2 ^ 31 →
  dwp (crypt dev (mode_bits m) enc key iv input output) (λ r s', r = Ok () ∧
    cpu_load (hw s') (s_at output) (s_len input) =
      aes_transform (aes_block enc key) enc m (iv_bytes iv) (mload (mem s) (s_at input) (s_len input)) ∧
    mload (mem s') crypto_ctx_at 64 = replicate 64 0 ∧
    (∀ x, x < crypto_ctx_at ∨ crypto_ctx_at + 80 ≤ x → x < s_at output ∨ s_at output + Z.of_nat (s_len input) ≤ x →
       mem s' x = mem s x) ∧
    (∃ hd cd, engine (hw s') = Idle hd cd) ∧ hctx s' = hctx s ∧ nc s' = nc s) s.
Proof.
  intros Hd E Hsz Hso Hkl Hiv Hlen. pose proof (crypto_ctx_range) as [Hlo Hhi].
  assert (s_len input ≤ s_len output ∧ s_len input mod 16 = 0)%nat as [Hol Hmod].
  { unfold sizes_ok in Hsz. apply negb_true_iff, orb_false_iff in Hsz as [Hsz Hol].
    apply orb_false_iff in Hsz as [_ Hmod]. by apply negb_false_iff, Nat.eqb_eq in Hmod; apply Nat.ltb_ge in Hol. }
  unfold crypt. cbv zeta. fold (sizes_ok input output). rewrite Hsz, (keylen_bits_ok key Hkl).
  apply dwp_bind, dwp_require_true. cbn beta iota. apply dwp_bind, dwp_lift. cbn beta iota.
  rewrite (proj2 (Z.leb_le (Z.of_nat (s_len input)) _)) by (unfold u32_MAX; lia).
  apply dwp_bind, dwp_require_true. cbn beta iota.
  apply dwp_bind, set_context_spec; [done|lia|]. intros s1 (E1 & R1 & C1 & N1) V1 K1 F1. cbn beta iota.
  rewrite E in E1. apply dwp_bind, (start_crypto_spec _ key (iv_bytes iv) _ _ _ hd cd); [done|done|lia|lia|done|done|].
  intros s5 n Hn E5 P5 C5 N5. cbn beta iota.
  apply dwp_bind, (crypto_poll_computes dev n m enc key (iv_bytes iv) input output hd _ s1 s5); [done..|].
  intros s6 E6 C6 N6 M6. cbn beta iota.
  rewrite (mload_ext (mem s) (mem s1)) in M6 by (intros x Hx; apply F1; destruct Hso; lia).
  set (res := aes_transform _ _ _ _ _) in *.
  assert (length res = s_len input) as Hres.
  { unfold res. rewrite length_aes_transform; rewrite ?length_mload; [done|intros; apply aes_length|done|done]. }
  apply dwp_bind, dwp_writes. cbn beta iota. destruct Hd as (_ & _ & Hfl).
  destruct (Hfl (hw s6)) as (E7 & M7 & Hcoh). set (s7 := set_hw _ s6).
  apply dwp_bind. unfold scrub. apply dwp_writes. cbn beta iota. apply dwp_ret.
  destruct (store_nc (replicate 64 0) crypto_ctx_at (hw s7)) as (E8 & _ & M8).
  { intros x Hx. rewrite length_replicate in Hx. apply crypto_ctx_nc. lia. }
  destruct P5 as [_ _ _ _ F5]. destruct Hso as [Hin Hout Hap Hic Hoc].
  split_and!; [done| | | | |by rewrite <- C1, <- C5, <- C6|by rewrite <- N1, <- N5, <- N6].
  - rewrite <- (mload_mstore (mem s5) (s_at output) res) at 1. rewrite Hres. unfold cpu_load, mload.
    apply list_fmap_ext. intros i k Hk. apply lookup_seq in Hk as [-> Hk]. cbn [hw set_hw].
    rewrite store_cpu by (rewrite length_replicate; lia). cbn [s7 hw set_hw]. by rewrite Hcoh, <- M6.
  - unfold mem. rewrite (mload_ext _ _ _ _ (λ x _, M8 x)).
    pose proof (mload_mstore (dma_rd (hw s7)) crypto_ctx_at (replicate 64 0)) as Hm. by rewrite length_replicate in Hm.
  - intros x Hx1 Hx2. unfold mem at 1. cbn [hw set_hw]. rewrite M8, mstore_out by (rewrite length_replicate; lia).
    cbn [s7 hw set_hw]. rewrite M7. change (dma_rd (hw s6) x) with (mem s6 x).
    rewrite M6, mstore_out by lia. rewrite F5, F1 by lia. done.
  - exists hd, true. cbn [hw set_hw]. rewrite E8. cbn [s7 hw set_hw]. by rewrite E7.
Qed.

(** ** Operations of the skin *)

Definition op_wf (op : AesOp) : Prop :=
  (length (aes_key_as_slice (op_key op)) = 16%nat ∨ length (aes_key_as_slice (op_key op)) = 32%nat) ∧
  length (op_iv op) = 16%nat.

(** Storing to ordinary memory. *)
Lemma put_any a l (Q : result unit HaceError → HaceState H → Prop) s :
  (∀ s', keeps_ctl s s' → (∀ x, x < a ∨ a + Z.of_nat (length l) ≤ x → mem s' x = mem s x) → Q (Ok ()) s') →
  dwp (put a l) Q s.
Proof.
  intros HQ. apply dwp_writes. apply HQ; cbn [hw hctx nc set_hw]; clear HQ.
  - split_and!; try done; cbn [hw hctx nc set_hw]; generalize (hw s); intros h; revert a h.
    + induction l as [|v l IH]; intros a h; cbn [store]; [done|]. rewrite IH. apply cpu_wr_ctl.
    + induction l as [|v l IH]; intros a h r; cbn [store]; [done|]. rewrite IH. apply cpu_wr_ctl.
  - unfold mem. cbn [hw set_hw]. generalize (hw s). intros h. revert a h.
    induction l as [|v l IH]; intros a h x Hx; cbn [store length] in *; [done|].
    rewrite IH by lia. apply cpu_wr_other. lia.
Qed.

(** A call of the skin, in any mode. *)
Lemma skin_computes dev N m enc key iv at_in at_out hd cd s :
  aes_dev_ok dev → engine (hw s) = Idle hd cd → (N mod 16 = 0)%nat → (0 < N)%nat → Z.of_nat N < 2 ^ 31 →
  slices_ok (mkSlice at_in N) (mkSlice at_out N) →
  length key = 16%nat ∨ length key = 32%nat → length (iv_bytes iv) = 16%nat →
  dwp (skin_call N at_in at_out (λ i o, crypt dev (mode_bits m) enc key iv i o)) (λ r s',
    r = Ok (aes_transform (aes_block enc key) enc m (iv_bytes iv) (mload (mem s) at_in N)) ∧
    (∃ hd cd, engine (hw s') = Idle hd cd) ∧ mload (mem s') crypto_ctx_at 64 = replicate 64 0) s.
Proof.
  intros Hd E Hmod Hpos Hlen Hso Hk Hv. unfold skin_call. apply dwp_bind, dwp_guarded; [by apply Nat.eqb_eq|].
  apply dwp_ret. cbn beta iota. apply dwp_bind, put_any. intros s1 (E1 & R1 & C1 & N1) F1. cbn beta iota.
  rewrite length_replicate in F1. rewrite E in E1. apply dwp_bind.
  eapply dwp_mono; [apply (crypt_computes dev m enc key iv _ _ hd cd s1); try done|].
  { unfold sizes_ok, AES_BLOCK. cbn [s_len]. rewrite (proj2 (Nat.eqb_neq N 0)), Hmod, Nat.ltb_irrefl by lia. done. }
  cbn [s_at s_len]. intros r s2 (-> & Hl & Hz & _ & Hi & _). cbn beta iota. apply dwp_reads. split; [|done].
  rewrite Hl, (mload_ext (mem s) (mem s1)); [done|]. intros x Hx. apply F1.
  destruct Hso as [_ _ Hap _ _]. cbn [s_at s_len] in Hap. lia.
Qed.

(** ** Chaining *)

Definition last_block (v : list Z) (bl : list (list Z)) : list Z := default v (list.last bl).

Lemma cbc_enc_app f v bl bl' :
  cbc_enc f v (bl ++ bl') = cbc_enc f v bl ++ cbc_enc f (last_block v (cbc_enc f v bl)) bl'.
Proof.
  revert v. induction bl as [|b bl IH]; intros v; cbn [app cbc_enc]; [done|]. rewrite IH. f_equal. f_equal.
  unfold last_block. rewrite last_cons. by destruct (list.last (cbc_enc f _ bl)).
Qed.
Lemma cbc_dec_app f v bl bl' : cbc_dec f v (bl ++ bl') = cbc_dec f v bl ++ cbc_dec f (last_block v bl) bl'.
Proof.
  revert v. induction bl as [|b bl IH]; intros v; cbn [app cbc_dec]; [done|]. rewrite IH. f_equal. f_equal.
  unfold last_block. rewrite last_cons. by destruct (list.last bl).
Qed.

Lemma xor_block_cancel b v : length b = length v → xor_block (xor_block b v) v = b.
Proof.
  unfold xor_block. revert v. induction b as [|x b IH]; intros [|y v] Hl; try done. cbn. rewrite IH by (by injection Hl).
  by rewrite Z.lxor_assoc, Z.lxor_nilpotent, Z.lxor_0_r.
Qed.

Lemma cbc_dec_enc f g v bl :
  (∀ b, length b = 16%nat → g (f b) = b) → (∀ b, length (f b) = 16%nat) →
  length v = 16%nat → Forall (λ b, length b = 16%nat) bl → cbc_dec g v (cbc_enc f v bl) = bl.
Proof.
  intros Hg Hf Hv Hb. revert v Hv. induction Hb as [|b bl Hb Hbl IH]; intros v Hv; cbn [cbc_enc cbc_dec]; [done|].
  rewrite Hg by (unfold xor_block; rewrite length_zip_with; lia). rewrite xor_block_cancel by lia. by rewrite IH.
Qed.

(** The last sixteen bytes of whole blocks are the last block. *)
Lemma last_bytes v (bl : list (list Z)) N :
  Forall (λ b, length b = 16%nat) bl → N = length (concat bl) → (16 ≤ N)%nat →
  default v (slice_range (concat bl) (N - 16) N) = last_block v bl.
Proof.
  intros Hb -> Hn. destruct bl as [|b bl _] using rev_ind; [cbn in Hn; lia|].
  apply Forall_app in Hb as [_ Hb]. apply List.Forall_cons_iff in Hb as [Hb _].
  rewrite concat_app. cbn [concat]. rewrite app_nil_r. rewrite slice_range_Some by (rewrite length_app in *; lia).
  unfold last_block. rewrite last_snoc. cbn [from_option id]. rewrite length_app, Hb.
  replace (length (concat bl) + 16 - 16)%nat with (length (concat bl)) by lia.
  rewrite drop_app_length. by rewrite take_ge by lia.
Qed.

(** ** Sessions *)

Definition cbc_op (dev : HaceDevice H) (N : nat) (enc : bool) (op : AesOp) (at_in at_out : Z) :
    drv (HaceState H) HaceError (AesOp * list Z) :=
  if enc then cbc_op_encrypt dev N op at_in at_out else cbc_op_decrypt dev N op at_in at_out.

(** The blocks of ciphertext of a call. *)
Definition cipher_blocks (enc : bool) (key v data : list Z) : list (list Z) :=
  let bl := blocks 16 (length data / 16) data in
  if enc then cbc_enc (aes_block true key) v bl else bl.

(** Memory as the caller of an operation leaves it: [data] is where the operation
    looks for it, for the engine and for the CPU. *)
Record call_ok (N : nat) (at_in at_out : Z) (data : list Z) s : Prop := {
  co_idle : ∃ hd cd, engine (hw s) = Idle hd cd;
  co_slices : slices_ok (mkSlice at_in N) (mkSlice at_out N);
  co_data : mload (mem s) at_in N = data;
  co_cpu : cpu_load (hw s) at_in N = data;
}.

Lemma cbc_op_computes dev N enc op at_in at_out data s :
  aes_dev_ok dev → op_wf op → (N mod 16 = 0)%nat → (0 < N)%nat → Z.of_nat N < 2 ^ 31 → call_ok N at_in at_out data s →
  dwp (cbc_op dev N enc op at_in at_out) (λ r s', (∃ hd cd, engine (hw s') = Idle hd cd) ∧
    let key := aes_key_as_slice (op_key op) in
    r = Ok (mkAesOp (op_key op) (last_block (op_iv op) (cipher_blocks enc key (op_iv op) data)),
            aes_transform (aes_block enc key) enc AesCbc (op_iv op) data)) s.
Proof.
  intros Hd [Hk Hv] Hmod Hpos Hlen [(hd & cd & E) Hso Hm Hc]. set (key := aes_key_as_slice (op_key op)) in *.
  assert (length data = N) as Hdl by (rewrite <- Hm; apply length_mload).
  pose proof (Nat.div_mod_eq N 16) as Hq.
  assert (Forall (λ b, length b = 16%nat) (blocks 16 (length data / 16) data)) as Hbl by (apply blocks_length; rewrite Hdl; lia).
  pose proof (skin_computes dev N AesCbc enc key (Some (op_iv op)) at_in at_out hd cd s Hd E Hmod Hpos Hlen Hso Hk Hv) as Hs.
  cbn [mode_bits iv_bytes from_option id] in Hs. rewrite Hm in Hs.
  destruct enc; cbn [cbc_op]; unfold cbc_op_encrypt, cbc_op_decrypt, cbc_encrypt, cbc_decrypt.
  - apply dwp_bind. eapply dwp_mono; [exact Hs|]. intros r s' (-> & Hi & _). cbn beta iota.
    apply dwp_guarded; [apply Nat.leb_le; unfold AES_BLOCK; lia|]. apply dwp_ret. split; [done|]. cbv zeta. f_equal. f_equal.
    unfold advance_iv, AES_BLOCK, aes_transform, cipher_blocks. f_equal. cbn [aes_blocks]. fold key.
    destruct (aes_blocks_shape (aes_block true key) true AesCbc (op_iv op) _ (aes_length true key) Hv Hbl) as [Hl HF].
    cbn [aes_blocks] in Hl, HF. apply last_bytes; [done| |lia].
    rewrite (length_concat_blocks 16), Hl, length_blocks, Hdl by done. lia.
  - apply dwp_bind, dwp_reads. cbn beta iota. rewrite Hc. apply dwp_bind. eapply dwp_mono; [exact Hs|].
    intros r s' (-> & Hi & _). cbn beta iota.
    apply dwp_guarded; [apply Nat.leb_le; unfold AES_BLOCK; lia|]. apply dwp_ret. split; [done|]. cbv zeta. f_equal. f_equal.
    unfold advance_iv, AES_BLOCK, cipher_blocks. f_equal.
    assert (concat (blocks 16 (length data / 16) data) = data) as Hcat.
    { apply concat_blocks. rewrite Hdl. lia. }
    rewrite <- Hcat at 1. apply last_bytes; [done|by rewrite Hcat|lia].
Qed.

(** A session: calls on one [AesOp], with whatever the caller does in between. *)
Inductive cbc_session (dev : HaceDevice H) (N : nat) (enc : bool) : AesOp → list (list Z) → list (list Z) → Prop :=
  | session_nil op : cbc_session dev N enc op [] []
  | session_call op op' at_in at_out data out ins outs s s' :
      call_ok N at_in at_out data s →
      cbc_op dev N enc op at_in at_out s = Some (s', Ok (op', out)) →
      cbc_session dev N enc op' ins outs →
      cbc_session dev N enc op (data :: ins) (out :: outs).

Section session.
Context (dev : HaceDevice H) (N : nat) (enc : bool) (Hdev : aes_dev_ok dev)
  (Hmod : (N mod 16 = 0)%nat) (Hpos : (0 < N)%nat) (Hlen : Z.of_nat N < 2 ^ 31).

Lemma cipher_blocks_shape key v data :
  length v = 16%nat → (length data mod 16 = 0)%nat → Forall (λ b, length b = 16%nat) (cipher_blocks enc key v data).
Proof.
  intros Hv Hd. pose proof (Nat.div_mod_eq (length data) 16). unfold cipher_blocks.
  assert (Forall (λ b, length b = 16%nat) (blocks 16 (length data / 16) data)) as Hbl by (apply blocks_length; lia).
  destruct enc; [|done].
  apply (aes_blocks_shape (aes_block true key) true AesCbc v); [intros; apply aes_length|done|done].
Qed.

Lemma last_block_length v bl :
  length v = 16%nat → Forall (λ b, length b = 16%nat) bl → length (last_block v bl) = 16%nat.
Proof.
  intros Hv Hb. unfold last_block. destruct (list.last bl) as [b|] eqn:E; [|done]. cbn.
  apply last_Some in E as [l ->]. apply Forall_app in Hb as [_ Hb]. by apply List.Forall_cons_iff in Hb as [? _].
Qed.

Lemma session_chains op ins outs :
  op_wf op → cbc_session dev N enc op ins outs →
  Forall (λ d, length d = N) ins ∧ length outs = length ins ∧ Forall (λ d, length d = N) outs ∧
  concat outs = aes_transform (aes_block enc (aes_key_as_slice (op_key op))) enc AesCbc (op_iv op) (concat ins).
Proof.
  intros Hw Hs. induction Hs as [op|op op' at_in at_out data out ins outs s s' Hc Hop Hs IH]; [by destruct enc|].
  pose proof (cbc_op_computes dev N enc op at_in at_out data s Hdev Hw Hmod Hpos Hlen Hc) as Hd. unfold dwp in Hd.
  rewrite Hop in Hd. destruct Hd as [_ Hd]. cbv zeta in Hd. injection Hd as -> ->.
  destruct Hw as [Hk Hv]. set (key := aes_key_as_slice (op_key op)) in *.
  assert (length data = N) as Hdl by (destruct Hc as [_ _ <- _]; apply length_mload).
  assert (length data mod 16 = 0)%nat as Hdm by (by rewrite Hdl).
  destruct IH as (H1' & H2' & H3' & H4').
  { split; [done|]. cbn [op_iv]. apply last_block_length; [done|by apply cipher_blocks_shape]. }
  cbn [op_key op_iv] in H4'. fold key in H4'. split; [by constructor|]. split; [cbn; by rewrite H2'|]. split.
  { constructor; [|done]. transitivity (length data); [|done]. apply length_aes_transform; [intros; apply aes_length|exact Hv|exact Hdm]. }
  cbn [concat]. rewrite H4'. unfold aes_transform. rewrite <- concat_app. f_equal.
  pose proof (Nat.div_mod_eq (length data) 16) as Hq. rewrite length_app.
  assert ((length data + length (concat ins)) / 16 = length data / 16 + length (concat ins) / 16)%nat as ->.
  { rewrite <- Nat.div_add_l by lia. f_equal. lia. }
  rewrite blocks_app by lia. unfold cipher_blocks. cbn [aes_blocks].
  destruct enc; [by rewrite cbc_enc_app|by rewrite cbc_dec_app].
Qed.
End session.

End run.
