(* ===== verification/HaceCorrect.v ===== *)
(** * A hash and crypto engine, and what its driver guarantees

    A concrete instance of [HaceHw], [Soc], [HaceEngine] and their laws: memory, a
    write-through cache in front of the part of it that is cached, the registers,
    and the engine, which reports a command after three status reads.  Its cipher
    adds the key to the block.

    The second part holds the theorems on the driver: digests, HMAC, the lifetime
    of a command, AES. *)

From S2P Require Import Prelude Bytes RegMonad Spim Soc Sha2 Hace HaceRun HaceDigest HaceMac HaceAes.
From stdpp Require Import base tactics option list numbers.
Local Open Scope Z_scope.

Record HaceChip := mkHaceChip {
  k_mem : Z → Z; k_cache : Z → Z; k_regs : HaceReg → Z; k_scu : Reg → Z; k_eng : Engine;
}.

Definition set_k_mem f (h : HaceChip) := mkHaceChip f (k_cache h) (k_regs h) (k_scu h) (k_eng h).
Definition set_k_eng e (h : HaceChip) := mkHaceChip (k_mem h) (k_cache h) (k_regs h) (k_scu h) e.

Definition upd (f : Z → Z) (a v x : Z) : Z := if x =? a then v else f x.
Definition chip_nc (x : Z) : bool := (0xa0000 <=? x) && (x <? 0xa0800).

Definition chip_cpu_rd (h : HaceChip) (x : Z) : Z := if chip_nc x then k_mem h x else k_cache h x.
Definition chip_cpu_wr (h : HaceChip) (a v : Z) : HaceChip :=
  mkHaceChip (upd (k_mem h) a v) (upd (k_cache h) a v) (k_regs h) (k_scu h) (k_eng h).

Definition status_word (hd cd busy : bool) : Z :=
  Z.b2z busy + (if hd then 2 ^ 9 else 0) + (if cd then 2 ^ 12 else 0).

Definition algo_of (cmd : Z) : option Sha2 := list_find (λ a, HASH_CMD a = cmd) [Sha2_256; Sha2_384; Sha2_512] ≫= λ p, Some p.2.
Definition hash_effect (f : Z → Z) (j : HashJob) : Z → Z :=
  match algo_of (j_cmd j) with
  | Some a => mstore f (j_digest j) (hash_result a f j)
  | None => f
  end.

Definition aes_variants : list (bool * AesMode * nat) :=
  [(true, AesEcb, 16%nat); (true, AesEcb, 32%nat); (true, AesCbc, 16%nat); (true, AesCbc, 32%nat);
   (false, AesEcb, 16%nat); (false, AesEcb, 32%nat); (false, AesCbc, 16%nat); (false, AesCbc, 32%nat)].
Definition variant_cmd (v : bool * AesMode * nat) : Z := aes_cmd v.1.1 v.1.2 v.2.

Definition add_cipher (enc : bool) (k b : list Z) : list Z :=
  resize 16 0 (zip_with (λ x y, if enc then x + y else x - y) b k).

Definition crypto_effect (f : Z → Z) (j : CryptoJob) : Z → Z :=
  match list_find (λ v, variant_cmd v = c_cmd j) aes_variants with
  | Some (_, (enc, m, keylen)) =>
      let src := le32 f (c_src j + 4) in
      let dst := le32 f (c_dst j + 4) in
      if (src + c_len j <=? RAM_NC_BASE) && (dst + c_len j <=? RAM_NC_BASE) then
        mstore f dst
          (aes_transform (add_cipher enc (mload f (c_ctx j + 16) keylen)) enc m (mload f (c_ctx j) 16)
            (mload f src (Z.to_nat (c_len j))))
      else f
  | None => f
  end.

Definition chip_status (h : HaceChip) : HaceChip * Z :=
  match k_eng h with
  | Idle hd cd => (h, status_word hd cd false)
  | Hashing (S n) j cd => (set_k_eng (Hashing n j cd) h, status_word false cd true)
  | Hashing O j cd => (set_k_eng (Idle true cd) (set_k_mem (hash_effect (k_mem h) j) h), status_word true cd false)
  | Crypting (S n) j hd => (set_k_eng (Crypting n j hd) h, status_word hd false false)
  | Crypting O j hd => (set_k_eng (Idle hd true) (set_k_mem (crypto_effect (k_mem h) j) h), status_word hd true false)
  | Stopping (S n) hd cd => (set_k_eng (Stopping n hd cd) h, status_word hd cd true)
  | Stopping O hd cd => (set_k_eng (Idle hd cd) h, status_word hd cd false)
  end.

Definition chip_hace_rd (h : HaceChip) (r : HaceReg) : HaceChip * Z :=
  match r with Hace1c => chip_status h | _ => (h, k_regs h r) end.

Definition chip_hace_wr (h : HaceChip) (r : HaceReg) (v : Z) : HaceChip :=
  match r with
  | Hace1c =>
      match k_eng h with
      | Idle hd cd => set_k_eng (Idle (hd && negb (Z.testbit v 9)) (cd && negb (Z.testbit v 12))) h
      | _ => h
      end
  | Hace30 =>
      if v =? 0 then
        match k_eng h with
        | Hashing _ _ cd => set_k_eng (Stopping 2 false cd) h
        | _ => h
        end
      else match k_eng h with
        | Idle false cd =>
            set_k_eng (Hashing 3 (mkHashJob (k_regs h Hace20) (k_regs h Hace24) (k_regs h Hace2c) v) cd) h
        | _ => h
        end
  | Hace10 =>
      match k_eng h with
      | Idle hd false =>
          set_k_eng (Crypting 3 (mkCryptoJob (k_regs h Hace00) (k_regs h Hace04) (k_regs h Hace08) (k_regs h Hace0c) v) hd) h
      | _ => h
      end
  | _ =>
      match k_eng h with
      | Idle _ _ =>
          mkHaceChip (k_mem h) (k_cache h) (λ r', if decide (r' = r) then v else k_regs h r') (k_scu h) (k_eng h)
      | _ => h
      end
  end.

(** Raising the clean bit refills the cache. *)
Definition chip_scu_wr (h : HaceChip) (r : Reg) (v : Z) : HaceChip :=
  let refill := bool_decide (r = scu 0xa58) && negb (Z.testbit (k_scu h r) 1) && Z.testbit v 1 in
  mkHaceChip (k_mem h) (if refill then k_mem h else k_cache h) (k_regs h)
    (λ r', if decide (r' = r) then v else k_scu h r') (k_eng h).

#[export] Instance chip_hace : HaceHw HaceChip := {
  hace_rd := chip_hace_rd; hace_wr := chip_hace_wr; cpu_rd := chip_cpu_rd; cpu_wr := chip_cpu_wr;
  hash_ctx_at := 0xa0000; crypto_ctx_at := 0xa0400; hash_intflag := 9; crypto_intflag := 12;
}.
#[export] Instance chip_scu : Soc HaceChip := {
  rd h r := k_scu h r; wr := chip_scu_wr; passthrough_field _ := 0; filter_field _ := 1; ext_mux_field _ := 2;
  misoin_field _ := 3; sgpiomaster_pins_on := id; sgpiomaster_on := id;
}.
#[export] Instance chip_engine : HaceEngine HaceChip := {
  dma_rd := k_mem; engine := k_eng; hace_reg := k_regs; hace_latency := 3;
  noncacheable x := chip_nc x = true; aes_block := add_cipher;
}.

(** ** Laws *)

Lemma status_word_bits hd cd busy :
  flag_is_set 9 (status_word hd cd busy) = hd ∧ flag_is_set 12 (status_word hd cd busy) = cd ∧
  flag_is_set 0 (status_word hd cd busy) = busy.
Proof. by destruct hd, cd, busy. Qed.

Lemma algo_of_cmd a : algo_of (HASH_CMD a) = Some a.
Proof. by destruct a. Qed.

Lemma variant_of_cmd enc m keylen :
  keylen = 16%nat ∨ keylen = 32%nat →
  ∃ i, list_find (λ v, variant_cmd v = aes_cmd enc m keylen) aes_variants = Some (i, (enc, m, keylen)).
Proof. intros [-> | ->]; destruct enc, m; eexists; vm_compute; reflexivity. Qed.

Lemma chip_status_law (h : HaceChip) : status_read h (hace_rd h Hace1c).1 (hace_rd h Hace1c).2.
Proof.
  unfold status_read. cbn [hace_rd chip_hace chip_hace_rd engine chip_engine hash_intflag crypto_intflag]. unfold chip_status.
  destruct (k_eng h) as [hd cd|[|n] j cd|[|n] j hd|[|n] hd cd] eqn:E; cbn [fst snd];
    match goal with |- context [status_word ?x ?y ?z] => destruct (status_word_bits x y z) as (B1 & B2 & B3) end;
    rewrite ?B1, ?B2, ?B3.
  - rewrite E. by split_and!.
  - split; [done|]. split; [done|]. intros a (Hc & _) x. cbn [dma_rd chip_engine k_mem set_k_mem set_k_eng].
    unfold hash_effect. by rewrite Hc, algo_of_cmd.
  - split_and!; [done|done|by exists n|by intros x].
  - done.
  - split_and!; [done|by exists n|by intros x].
  - split_and!; [done|done|by intros x].
  - split_and!; [done|by exists n|by intros x].
Qed.

#[export] Instance chip_laws : HaceLaws HaceChip.
Proof.
  split; cbn [hash_ctx_at chip_hace cpu_rd cpu_wr hace_wr hace_rd dma_rd engine hace_reg hace_latency noncacheable
    chip_engine hash_intflag crypto_intflag wr chip_scu]; unfold same_mem, same_regs;
    cbn [hash_ctx_at chip_hace cpu_rd cpu_wr hace_wr hace_rd dma_rd engine hace_reg hace_latency noncacheable
    chip_engine hash_intflag crypto_intflag wr chip_scu].
  - unfold u32_MAX. lia.
  - intros x Hx. unfold chip_nc. rewrite (proj2 (Z.leb_le _ _)), (proj2 (Z.ltb_lt _ _)) by lia. done.
  - intros h x Hx. unfold chip_cpu_rd. by rewrite Hx.
  - done.
  - done.
  - done.
  - intros h v0 v1 x B0 B1. unfold chip_cpu_rd, chip_scu_wr. cbn [k_mem k_cache k_scu].
    rewrite decide_True, bool_decide_eq_true_2, B0, B1 by done. cbn. by destruct (chip_nc x).
  - lia.
  - intros h. split; [exact (chip_status_law h)|]. intros r. unfold chip_hace_rd, chip_status.
    by destruct (k_eng h) as [| [] | [] | []].
  - intros h hd cd v E. unfold chip_hace_wr. by rewrite E.
  - intros h hd cd r v E N1 N2 N3. unfold chip_hace_wr. rewrite E. by destruct r.
  - intros h cd a E Hr. unfold chip_hace_wr. rewrite (proj2 (Z.eqb_neq _ _)) by (by destruct a). rewrite E.
    split; [done|]. exists 3%nat. by split.
  - intros h. unfold chip_hace_wr. cbn [Z.eqb]. destruct (k_eng h) as [hd cd|n j cd|n j hd|n hd cd] eqn:E; rewrite ?E.
    + done.
    + split; [done|]. exists 2%nat, false. split; [lia|done].
    + done.
    + split; [done|]. exists n. split; [lia|done].
Qed.

#[export] Instance chip_aes_laws : AesLaws HaceChip.
Proof.
  split; cbn [crypto_ctx_at chip_hace cpu_rd cpu_wr hace_wr hace_rd dma_rd engine hace_reg hace_latency noncacheable
    chip_engine aes_block].
  - unfold u32_MAX. lia.
  - intros x Hx. unfold chip_nc. rewrite (proj2 (Z.leb_le _ _)), (proj2 (Z.ltb_lt _ _)) by lia. done.
  - intros h a v x. unfold chip_cpu_rd, chip_cpu_wr, upd. cbn [k_mem k_cache]. by destruct (chip_nc x), (x =? a).
  - intros h a v x Hx. unfold chip_cpu_wr, upd. cbn [k_mem]. by rewrite (proj2 (Z.eqb_neq _ _) Hx).
  - intros e k b. unfold add_cipher. apply length_resize.
  - intros h hd cmd E. unfold chip_hace_wr. rewrite E. split; [done|]. exists 3%nat. by split.
  - intros h j hd enc m keylen len src dst E [Hc Hk (Hl & _) (Hs & _) (Hd & _) _ ([_ Hsr] & _ & Hdr)] x.
    cbn [chip_hace_rd]. unfold chip_status. rewrite E. cbn [fst k_mem set_k_mem set_k_eng]. unfold crypto_effect.
    rewrite Hc. destruct (variant_of_cmd enc m keylen Hk) as [i ->]. rewrite Hl, Nat2Z.id, Hs, Hd.
    by rewrite (proj2 (Z.leb_le _ _) Hsr), (proj2 (Z.leb_le _ _) Hdr).
Qed.

Lemma add_cipher_inverse k b :
  length k = 16%nat ∨ length k = 32%nat → length b = 16%nat → add_cipher false k (add_cipher true k b) = b.
Proof.
  intros Hk Hb. unfold add_cipher.
  assert (∀ (x : list Z), length x = 16%nat → resize 16 0 x = x) as Hr by (intros x <-; apply resize_all).
  rewrite (Hr (zip_with _ b k)) by (rewrite length_zip_with; lia).
  rewrite Hr by (rewrite !length_zip_with; lia). clear Hr.
  assert (length b ≤ length k)%nat as Hle by lia. clear Hk Hb. revert k Hle.
  induction b as [|x b IH]; intros [|y k] Hle; cbn in *; try done; try lia. rewrite IH by lia. f_equal. lia.
Qed.

(** * What the hash and crypto engine's driver guarantees

    SHA-2, HMAC and AES through the driver, and the engine after a call; each
    theorem also at the engine of [HaceChip]. *)
Section hashes.
Context {H : Type} `{HaceHw H} `{Soc H} `{HaceEngine H} `{!HaceLaws H}.
Implicit Types s : HaceState H.

(** C15: However a message is split into updates, the digest the driver returns is the
    SHA-2 hash of the message (FIPS 180-4), for all three algorithms, and the
    context is wiped; no call fails or panics as long as the engine answers within
    the poll budget. *)
Theorem digest_is_sha2 dev a pieces s :
  dev_ok dev → engine_idle s →
  Forall (λ p, Z.of_nat (length p) ≤ u32_MAX) pieces → Z.of_nat (length (concat pieces)) < max_message a →
  dwp (hash_message dev a pieces) (λ r s', ∃ words, r = Ok words ∧
    digest_as_bytes words = sha2 a (concat pieces) ∧ wiped s' ∧ engine_idle s') s.
Proof.
  intros Hd Hi Hp Hm. eapply dwp_mono; [by apply hash_message_spec; [..|apply (max_message_le a)]|].
  intros r s' (words & -> & Hw & W & Hi' & _). by exists words.
Qed.

(** C16: The HMAC the driver returns is RFC 2104's, with the key reduced exactly when
    it is longer than a block, however the message is split; a key of more than 131
    bytes or a message of more than 1024 is refused as invalid input. *)
Theorem hmac_is_rfc2104 fuel a pb key pieces s :
  hmac_ready fuel pb → engine_idle s → nc_wf (nc s) →
  dwp (mac_message fuel a pb key pieces) (λ r s',
    if (length key <=? HMAC_KEY_CAP)%nat && (length (concat pieces) <=? HMAC_MSG_CAP)%nat then
      ∃ words, r = Ok words ∧ digest_as_bytes words = hmac a key (concat pieces) ∧ engine_idle s'
    else r = Err HaceInvalidInput) s.
Proof.
  intros Hr Hi Hw. unfold mac_message. apply dwp_bind, dwp_lift.
  destruct (Nat.leb_spec (length key) HMAC_KEY_CAP) as [Hk|Hk]; cycle 1.
  { unfold from_slice. by rewrite (proj2 (Nat.ltb_lt _ _) Hk). }
  destruct (key_roundtrip key Hk) as (k & -> & Hs). cbn beta iota.
  apply dwp_bind. eapply dwp_mono; [by apply hmac_init_spec|]. intros r s1 (c & -> & Hb & Hr1). cbn beta iota.
  apply dwp_bind. eapply dwp_mono; [by apply (hmac_updates_spec a key pieces [])|]. intros r s2. cbn [app andb].
  case_match; [|by intros ->]. intros (c' & -> & Hb' & Hr2). cbn beta iota.
  eapply dwp_mono; [apply (hmac_finalize_spec fuel a key); [by rewrite Hb', Hb|done]|].
  intros r s3 (words & -> & Hd & Hi3 & _). by exists words.
Qed.

(** C17: Hashing a message never leaves a hash command running: whatever the engine
    does, and however small the poll budget, when the calls return, with a digest
    or with an error, the engine is idle or has been told to stop. *)
Theorem hash_never_outlives_call dev a pieces s s' r :
  patient dev → engine_idle s → hash_message dev a pieces s = Some (s', r) → not_hashing s'.
Proof.
  intros Hd Hi. unfold hash_message, mbind at 1, drv_bind at 1.
  destruct (hash_init a s) as [[s1 r1]|] eqn:E1; [|done]. pose proof (init_method a s s1 r1 Hi E1) as Hr.
  destruct r1 as [[]|e]; [|by intros [= <- <-]]. intros He.
  assert (settles a (drv_for pieces (update dev);; finalize dev a)) as Hs.
  { apply settles_bind; [apply settles_for; intros; by apply settles_update|]. intros _. by apply settles_finalize. }
  pose proof (Hs _ _ _ Hr He) as Hf. destruct r; [|done]. by apply idle_not_hashing, Hf.
Qed.
End hashes.

Section ciphers.
Context {H : Type} `{HaceHw H} `{Soc H} `{HaceEngine H} `{!HaceLaws H} `{!AesLaws H}.
Implicit Types s : HaceState H.

(** C39: A one-shot AES call with a poll budget above the engine's latency and with
    payloads in ordinary SRAM (below the window of [.ram_nc], where [aes.rs]
    documents that the engine writes no output) either refuses its sizes or its
    key, without touching the engine or memory, or leaves in the output, as the
    CPU reads it, exactly the ECB or CBC transform of the input, changes no other
    memory outside the engine's context, and leaves no key or vector in the
    context. *)
Theorem aes_computed_or_refused dev m enc key iv input output hd cd s :
  aes_dev_ok dev → engine (hw s) = Idle hd cd → slices_ok input output → length (iv_bytes iv) = 16%nat →
  Z.of_nat (s_len input) < 2 ^ 31 →
  dwp (crypt dev (mode_bits m) enc key iv input output) (λ r s',
    if sizes_ok input output && ((length key =? 16)%nat || (length key =? 32)%nat) then
      r = Ok () ∧
      cpu_load (hw s') (s_at output) (s_len input) =
        aes_transform (aes_block enc key) enc m (iv_bytes iv) (mload (mem s) (s_at input) (s_len input)) ∧
      mload (mem s') crypto_ctx_at 64 = replicate 64 0 ∧
      (∀ x, x < crypto_ctx_at ∨ crypto_ctx_at + 80 ≤ x → x < s_at output ∨ s_at output + Z.of_nat (s_len input) ≤ x →
         mem s' x = mem s x)
    else r = Err HaceInvalidInput ∧ s' = s) s.
Proof.
  intros Hd E Hso Hiv Hlen. destruct (sizes_ok input output) eqn:Hsz; cbn [andb]; cycle 1.
  { eapply dwp_intro; [apply crypt_refuses; by left|done]. }
  destruct (Nat.eqb_spec (length key) 16) as [H16|H16], (Nat.eqb_spec (length key) 32) as [H32|H32]; cbn [orb].
  1-3: eapply dwp_mono; [by apply (crypt_computes dev m enc key iv input output hd cd s); auto|];
    intros r s' (-> & ? & ? & ? & _); done.
  eapply dwp_intro; [apply crypt_refuses; by right|done].
Qed.

(** C40: Successive CBC calls on one operation, with payloads in ordinary SRAM
    (outside [.ram_nc]) and a poll budget above the engine's latency, are one CBC
    message: what is decrypted in a session with the key and vector it was
    encrypted with is the plaintext, however many calls it was split into. *)
Theorem cbc_session_roundtrip dev N op pts cts pts' :
  (∀ k b, length k = 16%nat ∨ length k = 32%nat → length b = 16%nat → aes_block false k (aes_block true k b) = b) →
  aes_dev_ok dev → op_wf op → (N mod 16 = 0)%nat → (0 < N)%nat → Z.of_nat N < 2 ^ 31 →
  cbc_session dev N true op pts cts → cbc_session dev N false op cts pts' →
  concat cts = aes_transform (aes_block true (aes_key_as_slice (op_key op))) true AesCbc (op_iv op) (concat pts) ∧
  pts' = pts.
Proof.
  intros Hinv Hd Hw Hmod Hpos Hlen He Hdec.
  destruct (session_chains dev N true Hd Hmod Hpos Hlen op pts cts Hw He) as (L1 & L2 & L3 & C1).
  destruct (session_chains dev N false Hd Hmod Hpos Hlen op cts pts' Hw Hdec) as (_ & L5 & L6 & C2).
  split; [done|]. destruct Hw as [Hk Hv].
  apply (blocks_inj N); [done|done|congruence|]. rewrite C2, C1.
  pose proof (length_concat_blocks N pts L1) as Hcl. unfold aes_transform. cbn [aes_blocks].
  set (k := (length (concat pts) / 16)%nat). assert (length (concat pts) = (k * 16)%nat) as Hk16.
  { pose proof (Nat.div_mod_eq N 16). unfold k. replace (length (concat pts)) with (length pts * (N / 16) * 16)%nat by lia.
    by rewrite Nat.div_mul by lia. }
  destruct (aes_blocks_shape (aes_block true (aes_key_as_slice (op_key op))) true AesCbc (op_iv op) (blocks 16 k (concat pts)))
    as [Hl HF]; [intros; apply aes_length|done|by apply blocks_length|]. cbn [aes_blocks] in Hl, HF.
  rewrite length_blocks in Hl.
  rewrite (length_concat_blocks 16) by done. rewrite Hl, Nat.div_mul by lia.
  pose proof (blocks_concat 16 _ HF) as Hbc. rewrite Hl in Hbc. rewrite Hbc.
  rewrite cbc_dec_enc; [by apply concat_blocks|intros; by apply Hinv|intros; apply aes_length|done|by apply blocks_length].
Qed.
End ciphers.

(** ** At a concrete engine *)

Definition ramp (x : Z) : Z := x mod 251.
Definition chip0 : HaceChip := mkHaceChip ramp ramp (λ _, 0) (λ _, 0) (Idle false false).
Definition machine (h : HaceChip) : HaceState HaceChip :=
  mkHaceState h (mkHashContext 0 0 (0, 0) 0)
    (mkHmacNcBufs (replicate 131 0) (replicate 128 0) (replicate 128 0) (replicate 1024 0)).
Definition chip_dev : HaceDevice HaceChip := mkHaceDevice 10 spin dcache_invd_all.

Lemma chip_dev_ok : dev_ok chip_dev.
Proof. apply global_dev_ok. cbn. lia. Qed.
Lemma chip_idle : engine_idle (machine chip0).
Proof. by exists false, false. Qed.

Lemma digest_is_sha2_witness :
  dev_ok chip_dev ∧ engine_idle (machine chip0) ∧
  dwp (hash_message chip_dev Sha2_256 [[97]; [98; 99]]) (λ r s', ∃ words, r = Ok words ∧
    digest_as_bytes words = sha2 Sha2_256 (concat [[97]; [98; 99]]) ∧ wiped s' ∧ engine_idle s') (machine chip0).
Proof.
  split; [exact chip_dev_ok|]. split; [exact chip_idle|].
  apply (digest_is_sha2 chip_dev Sha2_256 [[97]; [98; 99]] (machine chip0) chip_dev_ok chip_idle).
  - repeat constructor; cbn; unfold u32_MAX; lia.
  - cbn. lia.
Defined.

Lemma hmac_is_rfc2104_witness :
  dwp (mac_message 10 Sha2_256 10 [74; 101; 102; 101] [[119; 104]; [97; 116]]) (λ r s',
    if (length [74; 101; 102; 101] <=? HMAC_KEY_CAP)%nat && (length (concat [[119; 104]; [97; 116]]) <=? HMAC_MSG_CAP)%nat then
      ∃ words, r = Ok words ∧ digest_as_bytes words = hmac Sha2_256 [74; 101; 102; 101] (concat [[119; 104]; [97; 116]]) ∧
        engine_idle s'
    else r = Err HaceInvalidInput) (machine chip0).
Proof.
  apply (hmac_is_rfc2104 10 Sha2_256 10 [74; 101; 102; 101] [[119; 104]; [97; 116]] (machine chip0)).
  - split; cbn; lia.
  - exact chip_idle.
  - split_and!; reflexivity.
Defined.

(** A device that gives up at once. *)
Definition hasty_dev : HaceDevice HaceChip := mkHaceDevice 0 spin dcache_invd_all.

Lemma hash_never_outlives_call_witness :
  ∃ s', hash_message hasty_dev Sha2_256 [] (machine chip0) = Some (s', Err HaceTimeout) ∧ not_hashing s'.
Proof.
  eexists. split; [reflexivity|].
  eapply (hash_never_outlives_call hasty_dev Sha2_256 [] (machine chip0)); [|exact chip_idle|reflexivity].
  split.
  - intros h ns. cbn. unfold spin. destruct (k_eng h); cbn; eauto.
  - intros h. reflexivity.
Defined.

Definition msg_in : Slice := mkSlice 0x1000 16.
Definition msg_out : Slice := mkSlice 0x2000 16.
Definition toy_key : list Z := replicate 16 7.
Definition toy_iv : list Z := replicate 16 3.

Lemma chip_aes_dev_ok : aes_dev_ok chip_dev.
Proof.
  apply global_aes_dev_ok; [cbn; lia|]. intros h ns. cbn. unfold spin. split; [|by intros x].
  destruct (k_eng h); cbn; eauto.
Qed.

Lemma toy_slices : slices_ok msg_in msg_out.
Proof. split; unfold in_sram, RAM_NC_BASE; cbn; lia. Qed.

Lemma aes_computed_or_refused_witness :
  dwp (crypt chip_dev (mode_bits AesCbc) true toy_key (Some toy_iv) msg_in msg_out) (λ r s',
    if sizes_ok msg_in msg_out && ((length toy_key =? 16)%nat || (length toy_key =? 32)%nat) then
      r = Ok () ∧
      cpu_load (hw s') (s_at msg_out) (s_len msg_in) =
        aes_transform (aes_block true toy_key) true AesCbc (iv_bytes (Some toy_iv))
          (mload (mem (machine chip0)) (s_at msg_in) (s_len msg_in)) ∧
      mload (mem s') crypto_ctx_at 64 = replicate 64 0 ∧
      (∀ x, x < crypto_ctx_at ∨ crypto_ctx_at + 80 ≤ x → x < s_at msg_out ∨ s_at msg_out + Z.of_nat (s_len msg_in) ≤ x →
         mem s' x = mem (machine chip0) x)
    else r = Err HaceInvalidInput ∧ s' = machine chip0) (machine chip0).
Proof.
  apply (aes_computed_or_refused chip_dev AesCbc true toy_key (Some toy_iv) msg_in msg_out false false (machine chip0)).
  - exact chip_aes_dev_ok.
  - reflexivity.
  - exact toy_slices.
  - reflexivity.
  - reflexivity.
Defined.

(** The memory of a caller that has put [l] at the input. *)
Definition chip_with (l : list Z) : HaceChip :=
  mkHaceChip (mstore ramp 0x1000 l) (mstore ramp 0x1000 l) (λ _, 0) (λ _, 0) (Idle false false).

Lemma one_call enc op data :
  op_wf op → length data = 16%nat → ∃ out, cbc_session chip_dev 16 enc op [data] [out].
Proof.
  intros Hw Hl. assert (call_ok 16 0x1000 0x2000 data (machine (chip_with data))) as Hc.
  { assert (mload (mstore ramp 0x1000 data) 0x1000 16 = data) as Hm by (rewrite <- Hl; apply mload_mstore).
    split; [by exists false, false|exact toy_slices|exact Hm|]. rewrite <- Hm at 2. reflexivity. }
  pose proof (cbc_op_computes chip_dev 16 enc op 0x1000 0x2000 data _ chip_aes_dev_ok Hw eq_refl ltac:(lia) ltac:(lia) Hc) as Hd.
  apply dwp_run in Hd as (s' & r & Hrun & _ & ->). eexists. eapply session_call; [exact Hc|exact Hrun|]. apply session_nil.
Qed.

Lemma cbc_session_roundtrip_witness :
  ∃ ct pt, cbc_session chip_dev 16 true (aes_init (Aes128 toy_key) toy_iv) [replicate 16 65] [ct] ∧
    cbc_session chip_dev 16 false (aes_init (Aes128 toy_key) toy_iv) [ct] [pt] ∧ [pt] = [replicate 16 65].
Proof.
  assert (op_wf (aes_init (Aes128 toy_key) toy_iv)) as Hw by (split; [by left|reflexivity]).
  destruct (one_call true _ (replicate 16 65) Hw eq_refl) as [ct He].
  assert (length ct = 16%nat) as Hct.
  { destruct (session_chains chip_dev 16 true chip_aes_dev_ok eq_refl ltac:(lia) ltac:(lia) _ _ _ Hw He) as (_ & _ & Hf & _).
    by apply List.Forall_cons_iff in Hf as [? _]. }
  destruct (one_call false _ ct Hw Hct) as [pt Hd]. exists ct, pt. split; [exact He|]. split; [exact Hd|].
  apply (cbc_session_roundtrip chip_dev 16 (aes_init (Aes128 toy_key) toy_iv) [replicate 16 65] [ct] [pt]).
  - exact add_cipher_inverse.
  - exact chip_aes_dev_ok.
  - exact Hw.
  - reflexivity.
  - lia.
  - lia.
  - exact He.
  - exact Hd.
Defined.

(** ** What the driver does not do *)

(** A hash that times out is stopped; an AES command that times out is not: the call
    has returned, the key is gone from the context, and the engine still runs and
    will still write the caller's output. *)
Example aes_timeout_leaves_engine_running :
  ((λ p, (p.2, engine (hw p.1))) <$> crypt hasty_dev HACE_CMD_ECB true toy_key None msg_in msg_out (machine chip0)) =
    Some (Err HaceTimeout,
      Crypting 2 (mkCryptoJob crypto_src_at crypto_dst_at crypto_ctx_at 16 (aes_cmd true AesEcb 16)) false).
Proof. vm_compute. reflexivity. Qed.

(** [HaceDigest] can be finalized without [init]: the block size is zero and the
    padding underflows. *)
Example finalize_without_init_panics : finalize chip_dev Sha2_256 (machine chip0) = None.
Proof. reflexivity. Qed.
Example update_without_init_refused :
  snd <$> update chip_dev [1] (machine chip0) = Some (Err HaceInvalidInput).
Proof. vm_compute. reflexivity. Qed.

(** The key of an HMAC whose key was reduced stays in the staging buffer: [init] does
    not clear it, also not for the next key. *)
Example hmac_key_stays :
  (λ p, nc_key (nc p.1)) <$>
    (hmac_init 10 Sha2_256 10 (replicate 131 9, 131%nat);; hmac_init 10 Sha2_256 10 (replicate 131 5, 16%nat)) (machine chip0) =
    Some (replicate 131 9).
Proof. vm_compute. reflexivity. Qed.
