(* ===== verification/I3cConfig.v ===== *)
(** * The AST1060 I3C driver: constants and configuration

    [target/ast10x0/peripherals/i3c/constants.rs]: register bits, command and
    response fields, command codes, timing minima, limits.

    The second part is [config.rs]: the address book, the table of attached
    devices, the configuration of a bus. *)

From S2P Require Import Prelude Bytes.
From stdpp Require Import base tactics list numbers.
From stdpp Require Import base tactics option list numbers.
Local Open Scope Z_scope.

(** ** Fields *)

Definition bit (n : Z) : Z := Z.shiftl 1 n.
Definition bits (h l : Z) : Z := Z.shiftl (Z.shiftl 1 (h - l + 1) - 1) l.
Definition genmask (msb lsb : Z) : Z :=
  let width := msb - lsb + 1 in
  if 32 <=? width then u32_MAX else Z.shiftl (Z.shiftl 1 width - 1) lsb.

(** [u32::trailing_zeros]. *)
Fixpoint trailing_zeros_from (fuel : nat) (i z : Z) : Z :=
  match fuel with
  | O => i
  | S fuel => if Z.testbit z i then i else trailing_zeros_from fuel (i + 1) z
  end.
Definition trailing_zeros (z : Z) : Z := trailing_zeros_from 32 0 z.

Definition field_prep (mask val : Z) : Z := Z.land (Z.shiftl val (trailing_zeros mask)) mask.
Definition field_get (val mask shift : Z) : Z := Z.shiftr (Z.land val mask) shift.

(** ** Values *)

Definition I3C_MSG_WRITE : Z := 0x0.
Definition I3C_MSG_READ : Z := 0x1.
Definition I3C_MSG_STOP : Z := 0x2.
Definition I3C_BUS_I2C_STD_TLOW_MIN_NS : Z := 4700.
Definition I3C_BUS_I2C_STD_THIGH_MIN_NS : Z := 4000.
Definition I3C_BUS_I2C_STD_TR_MAX_NS : Z := 1000.
Definition I3C_BUS_I2C_STD_TF_MAX_NS : Z := 300.
Definition I3C_BUS_I2C_FM_TLOW_MIN_NS : Z := 1300.
Definition I3C_BUS_I2C_FM_THIGH_MIN_NS : Z := 600.
Definition I3C_BUS_I2C_FM_TR_MAX_NS : Z := 300.
Definition I3C_BUS_I2C_FM_TF_MAX_NS : Z := 300.
Definition I3C_BUS_I2C_FMP_TLOW_MIN_NS : Z := 500.
Definition I3C_BUS_I2C_FMP_THIGH_MIN_NS : Z := 260.
Definition I3C_BUS_I2C_FMP_TR_MAX_NS : Z := 120.
Definition I3C_BUS_I2C_FMP_TF_MAX_NS : Z := 120.
Definition I3C_BUS_THIGH_MAX_NS : Z := 41.
Definition NSEC_PER_SEC : Z := 1000000000.
Definition USEC_PER_SEC : Z := 1000000.
Definition SDA_TX_HOLD_MIN : Z := 1.
Definition SDA_TX_HOLD_MAX : Z := 7.
Definition SDA_TX_HOLD_MASK : Z := 0x00070000.
Definition SLV_DCR_MASK : Z := 0x0000ff00.
Definition SLV_EVENT_CTRL : Z := 0x38.
Definition SLV_EVENT_CTRL_MWL_UPD : Z := bit 7.
Definition SLV_EVENT_CTRL_MRL_UPD : Z := bit 6.
Definition SLV_EVENT_CTRL_HJ_REQ : Z := bit 3.
Definition SLV_EVENT_CTRL_SIR_EN : Z := bit 0.
Definition I3CG_REG1_SCL_IN_SW_MODE_VAL : Z := bit 23.
Definition I3CG_REG1_SDA_IN_SW_MODE_VAL : Z := bit 27.
Definition I3CG_REG1_SCL_IN_SW_MODE_EN : Z := bit 28.
Definition I3CG_REG1_SDA_IN_SW_MODE_EN : Z := bit 29.
Definition CM_TFR_STS_MASTER_HALT : Z := 0xf.
Definition CM_TFR_STS_TARGET_HALT : Z := 0x6.
Definition COMMAND_QUEUE_PORT : Z := 0x0c.
Definition COMMAND_PORT_PEC : Z := bit 31.
Definition COMMAND_PORT_TOC : Z := bit 30.
Definition COMMAND_PORT_READ_TRANSFER : Z := bit 28.
Definition COMMAND_PORT_SDAP : Z := bit 27.
Definition COMMAND_PORT_ROC : Z := bit 26.
Definition COMMAND_PORT_DBP : Z := bit 25.
Definition COMMAND_PORT_CP : Z := bit 15.
Definition COMMAND_PORT_SPEED : Z := bits 23 21.
Definition COMMAND_PORT_DEV_INDEX : Z := bits 20 16.
Definition COMMAND_PORT_CMD : Z := bits 14 7.
Definition COMMAND_PORT_TID : Z := bits 6 3.
Definition COMMAND_PORT_ARG_DB : Z := bits 15 8.
Definition COMMAND_PORT_ARG_DATA_LEN : Z := bits 31 16.
Definition COMMAND_PORT_ATTR : Z := bits 2 0.
Definition COMMAND_PORT_DEV_COUNT : Z := bits 25 21.
Definition TID_TARGET_IBI : Z := 0x1.
Definition TID_TARGET_RD_DATA : Z := 0x2.
Definition TID_TARGET_MASTER_WR : Z := 0x8.
Definition TID_TARGET_MASTER_DEF : Z := 0xf.
Definition COMMAND_ATTR_XFER_CMD : Z := 0.
Definition COMMAND_ATTR_XFER_ARG : Z := 1.
Definition COMMAND_ATTR_SHORT_ARG : Z := 2.
Definition COMMAND_ATTR_ADDR_ASSGN_CMD : Z := 3.
Definition COMMAND_ATTR_SLAVE_DATA_CMD : Z := 0.
Definition DEV_ADDR_TABLE_LEGACY_I2C_DEV : Z := bit 31.
Definition DEV_ADDR_TABLE_DYNAMIC_ADDR : Z := bits 23 16.
Definition DEV_ADDR_TABLE_MR_REJECT : Z := bit 14.
Definition DEV_ADDR_TABLE_SIR_REJECT : Z := bit 13.
Definition DEV_ADDR_TABLE_IBI_MDB : Z := bit 12.
Definition DEV_ADDR_TABLE_IBI_PEC : Z := bit 11.
Definition DEV_ADDR_TABLE_STATIC_ADDR : Z := bits 6 0.
Definition IBI_QUEUE_STATUS : Z := 0x18.
Definition IBIQ_STATUS_IBI_ID : Z := bits 15 8.
Definition IBIQ_STATUS_IBI_ID_SHIFT : Z := 8.
Definition IBIQ_STATUS_IBI_DATA_LEN : Z := bits 7 0.
Definition IBIQ_STATUS_IBI_DATA_LEN_SHIFT : Z := 0.
Definition RESET_CTRL_IBI_QUEUE : Z := bit 5.
Definition RESET_CTRL_RX_FIFO : Z := bit 4.
Definition RESET_CTRL_TX_FIFO : Z := bit 3.
Definition RESET_CTRL_RESP_QUEUE : Z := bit 2.
Definition RESET_CTRL_CMD_QUEUE : Z := bit 1.
Definition RESET_CTRL_SOFT : Z := bit 0.
Definition RESET_CTRL_XFER_QUEUES : Z :=
  Z.lor (Z.lor (Z.lor RESET_CTRL_RX_FIFO RESET_CTRL_TX_FIFO) RESET_CTRL_RESP_QUEUE) RESET_CTRL_CMD_QUEUE.
Definition RESET_CTRL_QUEUES : Z := Z.lor RESET_CTRL_IBI_QUEUE RESET_CTRL_XFER_QUEUES.
Definition RESET_CTRL_ALL : Z := Z.lor RESET_CTRL_QUEUES RESET_CTRL_SOFT.
Definition RESPONSE_QUEUE_PORT : Z := 0x10.
Definition RESPONSE_PORT_ERR_STATUS_SHIFT : Z := 28.
Definition RESPONSE_PORT_ERR_STATUS_MASK : Z := genmask 31 28.
Definition RESPONSE_PORT_TID_SHIFT : Z := 24.
Definition RESPONSE_PORT_TID_MASK : Z := genmask 27 24.
Definition RESPONSE_PORT_DATA_LEN_SHIFT : Z := 0.
Definition RESPONSE_PORT_DATA_LEN_MASK : Z := genmask 15 0.
Definition RESPONSE_NO_ERROR : Z := 0.
Definition RESPONSE_ERROR_CRC : Z := 1.
Definition RESPONSE_ERROR_PARITY : Z := 2.
Definition RESPONSE_ERROR_FRAME : Z := 3.
Definition RESPONSE_ERROR_IBA_NACK : Z := 4.
Definition RESPONSE_ERROR_ADDRESS_NACK : Z := 5.
Definition RESPONSE_ERROR_OVER_UNDER_FLOW : Z := 6.
Definition RESPONSE_ERROR_TRANSF_ABORT : Z := 8.
Definition RESPONSE_ERROR_I2C_W_NACK_ERR : Z := 9.
Definition RESPONSE_ERROR_EARLY_TERMINATE : Z := 10.
Definition RESPONSE_ERROR_PEC_ERR : Z := 12.
Definition INTR_STATUS : Z := 0x3c.
Definition INTR_STATUS_EN : Z := 0x40.
Definition INTR_SIGNAL_EN : Z := 0x44.
Definition INTR_FORCE : Z := 0x48.
Definition INTR_BUSOWNER_UPDATE_STAT : Z := bit 13.
Definition INTR_IBI_UPDATED_STAT : Z := bit 12.
Definition INTR_READ_REQ_RECV_STAT : Z := bit 11.
Definition INTR_DEFSLV_STAT : Z := bit 10.
Definition INTR_TRANSFER_ERR_STAT : Z := bit 9.
Definition INTR_DYN_ADDR_ASSGN_STAT : Z := bit 8.
Definition INTR_CCC_UPDATED_STAT : Z := bit 6.
Definition INTR_TRANSFER_ABORT_STAT : Z := bit 5.
Definition INTR_RESP_READY_STAT : Z := bit 4.
Definition INTR_CMD_QUEUE_READY_STAT : Z := bit 3.
Definition INTR_IBI_THLD_STAT : Z := bit 2.
Definition INTR_RX_THLD_STAT : Z := bit 1.
Definition INTR_TX_THLD_STAT : Z := bit 0.
Definition I3C_BCR_IBI_PAYLOAD_HAS_DATA_BYTE : Z := bit 2.
Definition I3C_BROADCAST_ADDR : Z := 0x7E.
Definition I3C_MAX_ADDR : Z := 0x7F.
Definition MAX_CMDS : nat := 32%nat.
Definition MAX_PRIV_XFER_CMDS : nat := 16%nat.
Definition MAX_XFER_DATA_LEN : Z := 0xffff.
Definition MAX_BUSES : nat := 4%nat.
Definition MAX_DEVICES_PER_BUS : nat := 8%nat.
Definition I3C_DEFAULT_STATIC_ADDR : Z := 0x74.
Definition I3C_OP_TIMEOUT_US : Z := USEC_PER_SEC.
Definition I3C_INIT_POLL_DELAY_NS : Z := 100000.
Definition I3C_POLL_MAX_ITERS : Z := 1000000.
Definition I3C_CTRL_POLL_DELAY_NS : Z := 10000.
Definition I3C_IBI_DATA_THRESHOLD_MAX : Z := 31.
Definition I3C_GLOBAL_RESET_DEASSERT_MASK : Z := 0x80.
Definition I3C_INTR_STATUS_ALL_BITS : Z := u32_MAX.
Definition I3C_BUS_FREE_TIMING_RESET : Z := 0xffff007c.
Definition I3C_AST10X0_MIPI_MANUF_ID : Z := 0x03f6.
Definition I3C_CCC_RSTDAA : Z := 0x06.
Definition I3C_CCC_ENTDAA : Z := 0x07.
Definition I3C_CCC_SETMWL_BC : Z := 0x09.
Definition I3C_CCC_SETMRL_BC : Z := 0x0A.
Definition I3C_CCC_SETHID : Z := 0x61.
Definition I3C_CCC_DEVCTRL : Z := 0x62.
Definition I3C_CCC_SETDASA : Z := 0x87.
Definition I3C_CCC_SETNEWDA : Z := 0x88.
Definition I3C_CCC_SETMWL : Z := 0x89.
Definition I3C_CCC_SETMRL : Z := 0x8A.
Definition I3C_CCC_GETMWL : Z := 0x8B.
Definition I3C_CCC_GETMRL : Z := 0x8C.
Definition I3C_CCC_GETPID : Z := 0x8D.
Definition I3C_CCC_GETBCR : Z := 0x8E.
Definition I3C_CCC_GETDCR : Z := 0x8F.
Definition I3C_CCC_GETSTATUS : Z := 0x90.
Definition I3C_CCC_GETMXDS : Z := 0x94.
Definition I3C_CCC_EVT_INTR : Z := Z.shiftl 1 0.
Definition I3C_CCC_EVT_CR : Z := Z.shiftl 1 1.
Definition I3C_CCC_EVT_HJ : Z := Z.shiftl 1 3.
Definition I3C_CCC_EVT_ALL : Z := Z.lor (Z.lor I3C_CCC_EVT_INTR I3C_CCC_EVT_CR) I3C_CCC_EVT_HJ.

(** * The AST1060 I3C driver: addresses, devices, configuration

    [target/ast10x0/peripherals/i3c]: [error.rs], [config.rs] and the device kinds of
    [types.rs].  DAT positions and device indices are [nat], addresses [Z]. *)
(** ** Errors ([error.rs]) *)

Inductive CccErrorKind := CccInvalidParam | CccNotFound | CccNoFreeSlot | CccInvalid.
Inductive I3cError :=
  | NoDatPos | NoMsgs | TooManyMsgs | InvalidArgs | I3cTimeout | NoSuchDev | Access | IoError | I3cInvalid
  | RespError | DaaNack | AddressNack | AddrInUse | AddrExhausted | NoFreeSlot | DevNotFound | DevAlreadyAttached
  | InvalidParam | CccError (kind : CccErrorKind) | I3cBusy | I3cOther.
#[export] Instance CccErrorKind_eq_dec : EqDecision CccErrorKind.
Proof. solve_decision. Defined.
#[export] Instance I3cError_eq_dec : EqDecision I3cError.
Proof. solve_decision. Defined.

(** The error after which a bus-side effect may or may not have happened. *)
Definition ambiguous (e : I3cError) : bool := match e with I3cTimeout | RespError => true | _ => false end.

(** ** The target's own configuration *)

Record I3cTargetConfig := mkI3cTargetConfig { flags : Z; tc_addr : option Z; tc_static_addr : option Z; mdb : Z }.
Definition I3cTargetConfig_new (fl : Z) (sa : option Z) (m : Z) : I3cTargetConfig := mkI3cTargetConfig fl None sa m.
Definition set_tc_addr (a : option Z) (t : I3cTargetConfig) : I3cTargetConfig :=
  mkI3cTargetConfig (flags t) a (tc_static_addr t) (mdb t).

(** ** The address book *)

(** Two bitmaps of 128 bits, as four words each. *)
Record AddrBook := mkAddrBook { in_use : list Z; reserved : list Z }.

Definition word_of (addr : Z) : nat := Z.to_nat (Z.land (Z.shiftr addr 5) 3).
Definition bit_get (bits : list Z) (addr : Z) : bool :=
  negb (Z.land (Z.shiftr (nth (word_of addr) bits 0) (Z.land addr 31)) 1 =? 0).
Definition bit_set (bits : list Z) (addr : Z) (val : bool) : list Z :=
  let mask := Z.shiftl 1 (Z.land addr 31) in
  let w := nth (word_of addr) bits 0 in
  <[word_of addr := if val then Z.lor w mask else Z.ldiff w mask]> bits.

Definition AddrBook_new : AddrBook := mkAddrBook (replicate 4 0) (replicate 4 0).
Definition is_free (b : AddrBook) (addr : Z) : bool :=
  (addr <? 128) && negb (bit_get (in_use b) addr) && negb (bit_get (reserved b) addr).
Definition is_reserved (b : AddrBook) (addr : Z) : bool := (128 <=? addr) || bit_get (reserved b) addr.

Definition reserve (a : Z) (b : AddrBook) : AddrBook := mkAddrBook (in_use b) (bit_set (reserved b) a true).
Definition reserve_defaults (b : AddrBook) : AddrBook :=
  let b := foldl (λ b a, reserve a b) b (seqZ 0 8) in
  let b := reserve 0x7E b in
  foldl (λ b i, let alt := Z.lxor 0x7E (Z.shiftl 1 i) in if alt <=? 0x7E then reserve alt b else b) b (seqZ 0 8).

(** [while addr < 0x7F]: a round per address. *)
Fixpoint alloc_scan (b : AddrBook) (fuel : nat) (addr : Z) : option Z :=
  match fuel with
  | O => None
  | S fuel => if is_free b addr then Some addr else alloc_scan b fuel (addr + 1)
  end.
Definition alloc_from (b : AddrBook) (start : Z) : option Z :=
  let addr := Z.max start 8 in alloc_scan b (Z.to_nat (0x7F - addr)) addr.

Definition mark_use (addr : Z) (used : bool) (b : AddrBook) : AddrBook :=
  if negb (addr =? 0) && (addr <? 128) then mkAddrBook (bit_set (in_use b) addr used) (reserved b) else b.
Definition reset_in_use (b : AddrBook) : AddrBook := mkAddrBook (replicate 4 0) (reserved b).

(** ** Devices *)

Inductive DevKind := KindI3c | KindI2c.
Inductive IbiState := IbiDisabled | IbiEnabled | IbiUnknown.
Inductive DaState := Unassigned | Verified | DaUnknown.
#[export] Instance DevKind_eq_dec : EqDecision DevKind.
Proof. solve_decision. Defined.
#[export] Instance IbiState_eq_dec : EqDecision IbiState.
Proof. solve_decision. Defined.
#[export] Instance DaState_eq_dec : EqDecision DaState.
Proof. solve_decision. Defined.

Record DeviceEntry := mkDeviceEntry {
  kind : DevKind; pid : option Z; static_addr : Z; dyn_addr : Z; desired_da : Z; bcr : Z; dcr : Z; maxrd : Z;
  maxwr : Z; mrl : Z; mwl : Z; max_ibi : Z; ibi_state : IbiState; dev_pos : option nat; da_state : DaState;
}.
#[export] Instance DeviceEntry_eq_dec : EqDecision DeviceEntry.
Proof. solve_decision. Defined.
Definition set_pid (v : option Z) (d : DeviceEntry) : DeviceEntry :=
  mkDeviceEntry (kind d) v (static_addr d) (dyn_addr d) (desired_da d) (bcr d) (dcr d) (maxrd d) (maxwr d)
    (mrl d) (mwl d) (max_ibi d) (ibi_state d) (dev_pos d) (da_state d) .
Definition set_dyn_addr (v : Z) (d : DeviceEntry) : DeviceEntry :=
  mkDeviceEntry (kind d) (pid d) (static_addr d) v (desired_da d) (bcr d) (dcr d) (maxrd d) (maxwr d) (mrl d)
    (mwl d) (max_ibi d) (ibi_state d) (dev_pos d) (da_state d) .
Definition set_desired_da (v : Z) (d : DeviceEntry) : DeviceEntry :=
  mkDeviceEntry (kind d) (pid d) (static_addr d) (dyn_addr d) v (bcr d) (dcr d) (maxrd d) (maxwr d) (mrl d)
    (mwl d) (max_ibi d) (ibi_state d) (dev_pos d) (da_state d) .
Definition set_bcr (v : Z) (d : DeviceEntry) : DeviceEntry :=
  mkDeviceEntry (kind d) (pid d) (static_addr d) (dyn_addr d) (desired_da d) v (dcr d) (maxrd d) (maxwr d)
    (mrl d) (mwl d) (max_ibi d) (ibi_state d) (dev_pos d) (da_state d) .
Definition set_dcr (v : Z) (d : DeviceEntry) : DeviceEntry :=
  mkDeviceEntry (kind d) (pid d) (static_addr d) (dyn_addr d) (desired_da d) (bcr d) v (maxrd d) (maxwr d)
    (mrl d) (mwl d) (max_ibi d) (ibi_state d) (dev_pos d) (da_state d) .
Definition set_maxrd (v : Z) (d : DeviceEntry) : DeviceEntry :=
  mkDeviceEntry (kind d) (pid d) (static_addr d) (dyn_addr d) (desired_da d) (bcr d) (dcr d) v (maxwr d)
    (mrl d) (mwl d) (max_ibi d) (ibi_state d) (dev_pos d) (da_state d) .
Definition set_maxwr (v : Z) (d : DeviceEntry) : DeviceEntry :=
  mkDeviceEntry (kind d) (pid d) (static_addr d) (dyn_addr d) (desired_da d) (bcr d) (dcr d) (maxrd d) v
    (mrl d) (mwl d) (max_ibi d) (ibi_state d) (dev_pos d) (da_state d) .
Definition set_mrl (v : Z) (d : DeviceEntry) : DeviceEntry :=
  mkDeviceEntry (kind d) (pid d) (static_addr d) (dyn_addr d) (desired_da d) (bcr d) (dcr d) (maxrd d)
    (maxwr d) v (mwl d) (max_ibi d) (ibi_state d) (dev_pos d) (da_state d) .
Definition set_mwl (v : Z) (d : DeviceEntry) : DeviceEntry :=
  mkDeviceEntry (kind d) (pid d) (static_addr d) (dyn_addr d) (desired_da d) (bcr d) (dcr d) (maxrd d)
    (maxwr d) (mrl d) v (max_ibi d) (ibi_state d) (dev_pos d) (da_state d) .
Definition set_max_ibi (v : Z) (d : DeviceEntry) : DeviceEntry :=
  mkDeviceEntry (kind d) (pid d) (static_addr d) (dyn_addr d) (desired_da d) (bcr d) (dcr d) (maxrd d)
    (maxwr d) (mrl d) (mwl d) v (ibi_state d) (dev_pos d) (da_state d) .
Definition set_ibi_state (v : IbiState) (d : DeviceEntry) : DeviceEntry :=
  mkDeviceEntry (kind d) (pid d) (static_addr d) (dyn_addr d) (desired_da d) (bcr d) (dcr d) (maxrd d)
    (maxwr d) (mrl d) (mwl d) (max_ibi d) v (dev_pos d) (da_state d) .
Definition set_dev_pos (v : option nat) (d : DeviceEntry) : DeviceEntry :=
  mkDeviceEntry (kind d) (pid d) (static_addr d) (dyn_addr d) (desired_da d) (bcr d) (dcr d) (maxrd d)
    (maxwr d) (mrl d) (mwl d) (max_ibi d) (ibi_state d) v (da_state d) .
Definition set_da_state (v : DaState) (d : DeviceEntry) : DeviceEntry :=
  mkDeviceEntry (kind d) (pid d) (static_addr d) (dyn_addr d) (desired_da d) (bcr d) (dcr d) (maxrd d)
    (maxwr d) (mrl d) (mwl d) (max_ibi d) (ibi_state d) (dev_pos d) v.

Definition new_i3c (p desired : Z) : DeviceEntry :=
  mkDeviceEntry KindI3c (Some p) 0 desired desired 0 0 0 0 0 0 0 IbiDisabled None Unassigned.
Definition new_i2c (sa : Z) : DeviceEntry :=
  mkDeviceEntry KindI2c None sa sa sa 0 0 0 0 0 0 0 IbiDisabled None Unassigned.

(** ** Attached devices *)

(** [Vec<DeviceEntry, 8>] and [[Option<u8>; 8]]. *)
Record Attached := mkAttached { devices : list DeviceEntry; by_pos : list (option nat) }.
Definition DEVICES_CAP : nat := 8%nat.
Definition set_devices (l : list DeviceEntry) (a : Attached) : Attached := mkAttached l (by_pos a).
Definition set_by_pos (l : list (option nat)) (a : Attached) : Attached := mkAttached (devices a) l.

Definition Attached_new : Attached := mkAttached [] (replicate 8 None).

Definition attach (dev : DeviceEntry) (a : Attached) : result (nat * Attached) I3cError :=
  let idx := length (devices a) in
  if (idx <? DEVICES_CAP)%nat then Ok (idx, set_devices (devices a ++ [dev]) a) else Err NoFreeSlot.

(** Positions above a removed index move down with their device. *)
Definition shift_index (removed : nat) (bp : option nat) : option nat :=
  match bp with
  | Some idx => Some (if (removed <? idx)%nat && (0 <? idx)%nat then (idx - 1)%nat else idx)
  | None => None
  end.
Definition detach (dev_idx : nat) (a : Attached) : Attached :=
  match devices a !! dev_idx with
  | None => a
  | Some dev =>
      let bp := match dev_pos dev with Some p => <[p := None]> (by_pos a) | None => by_pos a end in
      mkAttached (delete dev_idx (devices a)) (shift_index dev_idx <$> bp)
  end.
Definition detach_by_pos (pos : nat) (a : Attached) : Attached :=
  match by_pos a !! pos with Some (Some dev_idx) => detach dev_idx a | _ => a end.

Definition pos_of (a : Attached) (dev_idx : nat) : option nat :=
  if (dev_idx <=? 255)%nat then position (λ v, bool_decide (v = Some dev_idx)) (by_pos a) else None.
Definition find_dev_idx_by_addr (a : Attached) (da : Z) : option nat := position (λ d, dyn_addr d =? da) (devices a).
Definition pos_of_addr (a : Attached) (da : Z) : option nat := find_dev_idx_by_addr a da ≫= pos_of a.
Definition pos_of_pid (a : Attached) (p : Z) : option nat :=
  position (λ d, bool_decide (pid d = Some p)) (devices a) ≫= pos_of a.
Definition find_dev_idx_by_static_addr (a : Attached) (addr : Z) : option nat :=
  position (λ d, bool_decide (kind d = KindI2c) && (static_addr d =? addr)) (devices a).

(** [pos_of(idx).or_else(|| devices.get(idx).and_then(|d| d.pos))]. *)
Definition pos_or_own (a : Attached) (dev_idx : nat) : option nat :=
  match pos_of a dev_idx with Some p => Some p | None => devices a !! dev_idx ≫= dev_pos end.
Definition pos_of_static_addr (a : Attached) (addr : Z) : option nat :=
  find_dev_idx_by_static_addr a addr ≫= pos_or_own a.

Definition map_pos (pos idx : nat) (a : Attached) : bool * Attached :=
  if (pos <? length (by_pos a))%nat then (true, set_by_pos (<[pos := Some idx]> (by_pos a)) a) else (false, a).
Definition unmap_pos (pos : nat) (a : Attached) : Attached := set_by_pos (<[pos := None]> (by_pos a)) a.

(** ** The configuration *)

Record I3cConfig := mkI3cConfig {
  target_config : option I3cTargetConfig; addrbook : AddrBook; attached : Attached; core_clk_hz : option Z;
  core_period : Z; i2c_scl_hz : Z; i3c_scl_hz : Z; i3c_pp_scl_hi_period_ns : Z; i3c_pp_scl_lo_period_ns : Z;
  i3c_od_scl_hi_period_ns : Z; i3c_od_scl_lo_period_ns : Z; sda_tx_hold_ns : Z; is_secondary : bool;
  maxdevs : Z; free_pos : Z; need_da : Z; cfg_dcr : Z; sir_allowed_by_sw : bool;
}.
Definition set_target_config (v : option I3cTargetConfig) (c : I3cConfig) : I3cConfig :=
  mkI3cConfig v (addrbook c) (attached c) (core_clk_hz c) (core_period c) (i2c_scl_hz c) (i3c_scl_hz c)
    (i3c_pp_scl_hi_period_ns c) (i3c_pp_scl_lo_period_ns c) (i3c_od_scl_hi_period_ns c)
    (i3c_od_scl_lo_period_ns c) (sda_tx_hold_ns c) (is_secondary c) (maxdevs c) (free_pos c) (need_da c)
    (cfg_dcr c) (sir_allowed_by_sw c) .
Definition set_addrbook (v : AddrBook) (c : I3cConfig) : I3cConfig :=
  mkI3cConfig (target_config c) v (attached c) (core_clk_hz c) (core_period c) (i2c_scl_hz c) (i3c_scl_hz c)
    (i3c_pp_scl_hi_period_ns c) (i3c_pp_scl_lo_period_ns c) (i3c_od_scl_hi_period_ns c)
    (i3c_od_scl_lo_period_ns c) (sda_tx_hold_ns c) (is_secondary c) (maxdevs c) (free_pos c) (need_da c)
    (cfg_dcr c) (sir_allowed_by_sw c) .
Definition set_attached (v : Attached) (c : I3cConfig) : I3cConfig :=
  mkI3cConfig (target_config c) (addrbook c) v (core_clk_hz c) (core_period c) (i2c_scl_hz c) (i3c_scl_hz c)
    (i3c_pp_scl_hi_period_ns c) (i3c_pp_scl_lo_period_ns c) (i3c_od_scl_hi_period_ns c)
    (i3c_od_scl_lo_period_ns c) (sda_tx_hold_ns c) (is_secondary c) (maxdevs c) (free_pos c) (need_da c)
    (cfg_dcr c) (sir_allowed_by_sw c) .
Definition set_core_clk_hz (v : option Z) (c : I3cConfig) : I3cConfig :=
  mkI3cConfig (target_config c) (addrbook c) (attached c) v (core_period c) (i2c_scl_hz c) (i3c_scl_hz c)
    (i3c_pp_scl_hi_period_ns c) (i3c_pp_scl_lo_period_ns c) (i3c_od_scl_hi_period_ns c)
    (i3c_od_scl_lo_period_ns c) (sda_tx_hold_ns c) (is_secondary c) (maxdevs c) (free_pos c) (need_da c)
    (cfg_dcr c) (sir_allowed_by_sw c) .
Definition set_core_period (v : Z) (c : I3cConfig) : I3cConfig :=
  mkI3cConfig (target_config c) (addrbook c) (attached c) (core_clk_hz c) v (i2c_scl_hz c) (i3c_scl_hz c)
    (i3c_pp_scl_hi_period_ns c) (i3c_pp_scl_lo_period_ns c) (i3c_od_scl_hi_period_ns c)
    (i3c_od_scl_lo_period_ns c) (sda_tx_hold_ns c) (is_secondary c) (maxdevs c) (free_pos c) (need_da c)
    (cfg_dcr c) (sir_allowed_by_sw c) .
Definition set_i2c_scl_hz (v : Z) (c : I3cConfig) : I3cConfig :=
  mkI3cConfig (target_config c) (addrbook c) (attached c) (core_clk_hz c) (core_period c) v (i3c_scl_hz c)
    (i3c_pp_scl_hi_period_ns c) (i3c_pp_scl_lo_period_ns c) (i3c_od_scl_hi_period_ns c)
    (i3c_od_scl_lo_period_ns c) (sda_tx_hold_ns c) (is_secondary c) (maxdevs c) (free_pos c) (need_da c)
    (cfg_dcr c) (sir_allowed_by_sw c) .
Definition set_i3c_scl_hz (v : Z) (c : I3cConfig) : I3cConfig :=
  mkI3cConfig (target_config c) (addrbook c) (attached c) (core_clk_hz c) (core_period c) (i2c_scl_hz c) v
    (i3c_pp_scl_hi_period_ns c) (i3c_pp_scl_lo_period_ns c) (i3c_od_scl_hi_period_ns c)
    (i3c_od_scl_lo_period_ns c) (sda_tx_hold_ns c) (is_secondary c) (maxdevs c) (free_pos c) (need_da c)
    (cfg_dcr c) (sir_allowed_by_sw c) .
Definition set_i3c_pp_scl_hi_period_ns (v : Z) (c : I3cConfig) : I3cConfig :=
  mkI3cConfig (target_config c) (addrbook c) (attached c) (core_clk_hz c) (core_period c) (i2c_scl_hz c)
    (i3c_scl_hz c) v (i3c_pp_scl_lo_period_ns c) (i3c_od_scl_hi_period_ns c) (i3c_od_scl_lo_period_ns c)
    (sda_tx_hold_ns c) (is_secondary c) (maxdevs c) (free_pos c) (need_da c) (cfg_dcr c) (sir_allowed_by_sw c)
    .
Definition set_i3c_pp_scl_lo_period_ns (v : Z) (c : I3cConfig) : I3cConfig :=
  mkI3cConfig (target_config c) (addrbook c) (attached c) (core_clk_hz c) (core_period c) (i2c_scl_hz c)
    (i3c_scl_hz c) (i3c_pp_scl_hi_period_ns c) v (i3c_od_scl_hi_period_ns c) (i3c_od_scl_lo_period_ns c)
    (sda_tx_hold_ns c) (is_secondary c) (maxdevs c) (free_pos c) (need_da c) (cfg_dcr c) (sir_allowed_by_sw c)
    .
Definition set_i3c_od_scl_hi_period_ns (v : Z) (c : I3cConfig) : I3cConfig :=
  mkI3cConfig (target_config c) (addrbook c) (attached c) (core_clk_hz c) (core_period c) (i2c_scl_hz c)
    (i3c_scl_hz c) (i3c_pp_scl_hi_period_ns c) (i3c_pp_scl_lo_period_ns c) v (i3c_od_scl_lo_period_ns c)
    (sda_tx_hold_ns c) (is_secondary c) (maxdevs c) (free_pos c) (need_da c) (cfg_dcr c) (sir_allowed_by_sw c)
    .
Definition set_i3c_od_scl_lo_period_ns (v : Z) (c : I3cConfig) : I3cConfig :=
  mkI3cConfig (target_config c) (addrbook c) (attached c) (core_clk_hz c) (core_period c) (i2c_scl_hz c)
    (i3c_scl_hz c) (i3c_pp_scl_hi_period_ns c) (i3c_pp_scl_lo_period_ns c) (i3c_od_scl_hi_period_ns c) v
    (sda_tx_hold_ns c) (is_secondary c) (maxdevs c) (free_pos c) (need_da c) (cfg_dcr c) (sir_allowed_by_sw c)
    .
Definition set_sda_tx_hold_ns (v : Z) (c : I3cConfig) : I3cConfig :=
  mkI3cConfig (target_config c) (addrbook c) (attached c) (core_clk_hz c) (core_period c) (i2c_scl_hz c)
    (i3c_scl_hz c) (i3c_pp_scl_hi_period_ns c) (i3c_pp_scl_lo_period_ns c) (i3c_od_scl_hi_period_ns c)
    (i3c_od_scl_lo_period_ns c) v (is_secondary c) (maxdevs c) (free_pos c) (need_da c) (cfg_dcr c)
    (sir_allowed_by_sw c) .
Definition set_is_secondary (v : bool) (c : I3cConfig) : I3cConfig :=
  mkI3cConfig (target_config c) (addrbook c) (attached c) (core_clk_hz c) (core_period c) (i2c_scl_hz c)
    (i3c_scl_hz c) (i3c_pp_scl_hi_period_ns c) (i3c_pp_scl_lo_period_ns c) (i3c_od_scl_hi_period_ns c)
    (i3c_od_scl_lo_period_ns c) (sda_tx_hold_ns c) v (maxdevs c) (free_pos c) (need_da c) (cfg_dcr c)
    (sir_allowed_by_sw c) .
Definition set_maxdevs (v : Z) (c : I3cConfig) : I3cConfig :=
  mkI3cConfig (target_config c) (addrbook c) (attached c) (core_clk_hz c) (core_period c) (i2c_scl_hz c)
    (i3c_scl_hz c) (i3c_pp_scl_hi_period_ns c) (i3c_pp_scl_lo_period_ns c) (i3c_od_scl_hi_period_ns c)
    (i3c_od_scl_lo_period_ns c) (sda_tx_hold_ns c) (is_secondary c) v (free_pos c) (need_da c) (cfg_dcr c)
    (sir_allowed_by_sw c) .
Definition set_free_pos (v : Z) (c : I3cConfig) : I3cConfig :=
  mkI3cConfig (target_config c) (addrbook c) (attached c) (core_clk_hz c) (core_period c) (i2c_scl_hz c)
    (i3c_scl_hz c) (i3c_pp_scl_hi_period_ns c) (i3c_pp_scl_lo_period_ns c) (i3c_od_scl_hi_period_ns c)
    (i3c_od_scl_lo_period_ns c) (sda_tx_hold_ns c) (is_secondary c) (maxdevs c) v (need_da c) (cfg_dcr c)
    (sir_allowed_by_sw c) .
Definition set_need_da (v : Z) (c : I3cConfig) : I3cConfig :=
  mkI3cConfig (target_config c) (addrbook c) (attached c) (core_clk_hz c) (core_period c) (i2c_scl_hz c)
    (i3c_scl_hz c) (i3c_pp_scl_hi_period_ns c) (i3c_pp_scl_lo_period_ns c) (i3c_od_scl_hi_period_ns c)
    (i3c_od_scl_lo_period_ns c) (sda_tx_hold_ns c) (is_secondary c) (maxdevs c) (free_pos c) v (cfg_dcr c)
    (sir_allowed_by_sw c) .
Definition set_cfg_dcr (v : Z) (c : I3cConfig) : I3cConfig :=
  mkI3cConfig (target_config c) (addrbook c) (attached c) (core_clk_hz c) (core_period c) (i2c_scl_hz c)
    (i3c_scl_hz c) (i3c_pp_scl_hi_period_ns c) (i3c_pp_scl_lo_period_ns c) (i3c_od_scl_hi_period_ns c)
    (i3c_od_scl_lo_period_ns c) (sda_tx_hold_ns c) (is_secondary c) (maxdevs c) (free_pos c) (need_da c) v
    (sir_allowed_by_sw c) .
Definition set_sir_allowed_by_sw (v : bool) (c : I3cConfig) : I3cConfig :=
  mkI3cConfig (target_config c) (addrbook c) (attached c) (core_clk_hz c) (core_period c) (i2c_scl_hz c)
    (i3c_scl_hz c) (i3c_pp_scl_hi_period_ns c) (i3c_pp_scl_lo_period_ns c) (i3c_od_scl_hi_period_ns c)
    (i3c_od_scl_lo_period_ns c) (sda_tx_hold_ns c) (is_secondary c) (maxdevs c) (free_pos c) (need_da c)
    (cfg_dcr c) v.

Definition set_book (f : AddrBook → AddrBook) (c : I3cConfig) : I3cConfig := set_addrbook (f (addrbook c)) c.
(** [if let Some(dev) = devices.get_mut(i)]. *)
Definition upd_dev (i : nat) (f : DeviceEntry → DeviceEntry) (c : I3cConfig) : I3cConfig :=
  set_attached (set_devices (alter f i (devices (attached c))) (attached c)) c.

Definition I3cConfig_new : I3cConfig :=
  mkI3cConfig None (reserve_defaults AddrBook_new) Attached_new None 0 0 0 0 0 0 0 0 false 8 0 0 0 false.
Definition init_runtime_fields (c : I3cConfig) : I3cConfig :=
  set_attached Attached_new (set_addrbook (reserve_defaults AddrBook_new) c).

Definition pick_initial_da (sa desired : Z) (c : I3cConfig) : option (Z * I3cConfig) :=
  let b := addrbook c in
  addr ← if negb (desired =? 0) && is_free b desired then Some desired
         else if negb (sa =? 0) && is_free b sa then Some sa
         else alloc_from b 8;
  Some (addr, set_book (mark_use addr true) c).

Definition reassign_da (from to : Z) (c : I3cConfig) : result unit I3cError * I3cConfig :=
  match find_dev_idx_by_addr (attached c) from with
  | None => (Err DevNotFound, c)
  | Some idx =>
      if from =? to then (Ok (), c)
      else if negb (is_free (addrbook c) to) then (Err AddrInUse, c)
      else
        let c := set_book (mark_use from false) c in
        let c := set_book (mark_use to true) c in
        (Ok (), upd_dev idx (λ d, set_desired_da to (set_dyn_addr to d)) c)
  end.

Definition mark_da_unknown (dev_idx : nat) (candidate : option Z) (c : I3cConfig) : I3cConfig :=
  match devices (attached c) !! dev_idx with
  | None => c
  | Some dev =>
      if bool_decide (kind dev ≠ KindI3c) then c
      else
        let c := upd_dev dev_idx (set_da_state DaUnknown) c in
        let c := set_book (mark_use (dyn_addr dev) true) c in
        let c := set_book (mark_use (desired_da dev) true) c in
        match candidate with Some addr => set_book (mark_use addr true) c | None => c end
  end.

Definition mark_rstdaa_unknown (c : I3cConfig) : I3cConfig :=
  foldl (λ c i,
    match devices (attached c) !! i with
    | Some dev =>
        if bool_decide (kind dev ≠ KindI3c) then c
        else
          let c := upd_dev i (λ d, set_ibi_state IbiUnknown (set_da_state DaUnknown d)) c in
          set_book (mark_use (desired_da dev) true) (set_book (mark_use (dyn_addr dev) true) c)
    | None => c
    end) c (seq 0 (length (devices (attached c)))).

Definition commit_rstdaa (c : I3cConfig) : I3cConfig :=
  foldl (λ c i,
    match devices (attached c) !! i with
    | Some dev =>
        match kind dev with
        | KindI2c => set_book (mark_use (static_addr dev) true) c
        | KindI3c =>
            let c := upd_dev i (λ d, set_ibi_state IbiDisabled (set_da_state Unassigned d)) c in
            set_book (mark_use (desired_da dev) true) c
        end
    | None => c
    end) (set_book reset_in_use c) (seq 0 (length (devices (attached c)))).

(** ** Builders and clocks *)

Definition with_core_clk_hz (hz : Z) : I3cConfig → I3cConfig := set_core_clk_hz (Some hz).
Definition with_target_config (t : I3cTargetConfig) : I3cConfig → I3cConfig := set_target_config (Some t).

Definition I3C_MIN_CORE_CLK_SDR : Z := 12500000.
Definition I3C_MIN_CORE_CLK_HDR : Z := 25000000.
Definition I3C_MAX_CORE_CLK : Z := 400000000.
Definition I3C_MAX_SCL_HZ : Z := 12500000.
Definition I3C_MAX_I2C_SCL_HZ : Z := 1000000.

(** [u32::div_ceil], [saturating_mul], [saturating_sub]. *)
Definition u32_div_ceil (a b : Z) : Z := if a mod b =? 0 then a / b else a / b + 1.
Definition u32_saturating_mul (a b : Z) : Z := Z.min u32_MAX (a * b).
Definition u32_saturating_sub (a b : Z) : Z := Z.max 0 (a - b).

(** The four custom periods fit the 8-bit timing registers. *)
Definition periods_fit (period_ns : Z) (l : list Z) : bool :=
  forallb (λ ns, (ns =? 0) || (negb (u32_div_ceil ns period_ns =? 0) && (u32_div_ceil ns period_ns <=? u8_MAX))) l.

Definition validate_clock (c : I3cConfig) : result unit I3cError :=
  if I3C_MAX_SCL_HZ <? i3c_scl_hz c then Err InvalidParam
  else if I3C_MAX_I2C_SCL_HZ <? i2c_scl_hz c then Err InvalidParam
  else if negb (is_secondary c) && (i3c_scl_hz c =? 0) then Err InvalidParam
  else if match core_clk_hz c with
          | Some hz => (hz <? I3C_MIN_CORE_CLK_SDR) || (I3C_MAX_CORE_CLK <? hz) | None => false end then Err InvalidParam
  else
    let effective_core_hz := default I3C_MIN_CORE_CLK_SDR (core_clk_hz c) in
    if (0 <? i3c_scl_hz c) && (effective_core_hz <? u32_saturating_mul (i3c_scl_hz c) 4) then Err InvalidParam
    else if (0 <? i2c_scl_hz c) && (effective_core_hz <? u32_saturating_mul (i2c_scl_hz c) 4) then Err InvalidParam
    else if negb (eqb (i3c_od_scl_hi_period_ns c =? 0) (i3c_od_scl_lo_period_ns c =? 0))
         || negb (eqb (i3c_pp_scl_hi_period_ns c =? 0) (i3c_pp_scl_lo_period_ns c =? 0)) then Err InvalidParam
    else
      let period_ns := Z.max (u32_div_ceil NSEC_PER_SEC (Z.max effective_core_hz 1)) 1 in
      if periods_fit period_ns [i3c_od_scl_hi_period_ns c; i3c_od_scl_lo_period_ns c;
                                i3c_pp_scl_hi_period_ns c; i3c_pp_scl_lo_period_ns c]
      then Ok () else Err InvalidParam.
