(* ===== verification/I3cIbi.v ===== *)
(** * In-band interrupts: the work queues

    [target/ast10x0/peripherals/i3c/ibi.rs]: one ring of sixteen work items per bus,
    filled by the interrupt service routine and drained by one consumer.  A ring is
    a queue that keeps the newest items and tells the consumer, before anything
    else, that older ones were dropped. *)

From S2P Require Import Prelude Bytes.
From stdpp Require Import base tactics option list numbers.
From Stdlib Require Import ZifyNat.
Local Open Scope Z_scope.

Definition IBIQ_DEPTH : nat := 16%nat.
Definition IBI_DATA_MAX : nat := 16%nat.
Definition IBI_MWR_DATA_MAX : nat := 64%nat.

(** ** Work items *)

Inductive IbiWork :=
  | Overflow
  | HotJoin
  | Sirq (addr : Z) (len : Z) (data : list Z)
  | TargetDaAssignment
  | TargetMasterWrite (len : Z) (data : list Z).
#[export] Instance IbiWork_eq_dec : EqDecision IbiWork.
Proof. solve_decision. Defined.

(** ** The ring *)

Record IbiRing := mkIbiRing { buf : list (option IbiWork); head : nat; len : nat; overflowed : bool }.

Definition IbiRing_new : IbiRing := mkIbiRing (replicate IBIQ_DEPTH None) 0 0 false.

Definition push (work : IbiWork) (r : IbiRing) : bool * IbiRing :=
  let r := mkIbiRing (buf r) (head r mod IBIQ_DEPTH) (len r) (overflowed r) in
  let r := if (IBIQ_DEPTH <=? len r)%nat
           then mkIbiRing (buf r) ((head r + 1) mod IBIQ_DEPTH) (IBIQ_DEPTH - 1) true else r in
  let idx := ((head r + len r) mod IBIQ_DEPTH)%nat in
  match buf r !! idx with
  | None => (false, r)
  | Some _ => (true, mkIbiRing (<[idx := Some work]> (buf r)) (head r) (len r + 1) (overflowed r))
  end.

Definition pop (r : IbiRing) : option IbiWork * IbiRing :=
  if overflowed r then (Some Overflow, mkIbiRing (buf r) (head r) (len r) false)
  else
    let r := mkIbiRing (buf r) (head r mod IBIQ_DEPTH) (len r) (overflowed r) in
    if ((len r =? 0) || (IBIQ_DEPTH <? len r))%nat then (None, r)
    else
      (mjoin (buf r !! head r),
       mkIbiRing (<[head r := None]> (buf r)) ((head r + 1) mod IBIQ_DEPTH) (len r - 1) (overflowed r)).

(** ** The rings of the four buses, and their consumers *)

Record IbiPlane := mkIbiPlane { rings : list IbiRing; claimed : list bool }.

Definition IbiPlane_new : IbiPlane := mkIbiPlane (replicate 4 IbiRing_new) (replicate 4 false).

Definition ring_push (bus : nat) (work : IbiWork) (p : IbiPlane) : bool * IbiPlane :=
  match rings p !! bus with
  | None => (false, p)
  | Some r => let '(ok, r) := push work r in (ok, mkIbiPlane (<[bus := r]> (rings p)) (claimed p))
  end.
Definition ring_pop (bus : nat) (p : IbiPlane) : option IbiWork * IbiPlane :=
  match rings p !! bus with
  | None => (None, p)
  | Some r => let '(w, r) := pop r in (w, mkIbiPlane (<[bus := r]> (rings p)) (claimed p))
  end.

(** [while ring_pop(bus).is_some() {}], in [IBIQ_DEPTH] and two turns. *)
Fixpoint clear_loop (fuel : nat) (bus : nat) (p : IbiPlane) : IbiPlane :=
  match fuel with
  | O => p
  | S fuel => match ring_pop bus p with (Some _, p) => clear_loop fuel bus p | (None, p) => p end
  end.
Definition i3c_ibi_workq_clear (bus : nat) (p : IbiPlane) : IbiPlane := clear_loop (IBIQ_DEPTH + 2) bus p.

(** A consumer is its bus; [compare_exchange(false, true)] claims it. *)
Definition i3c_ibi_workq_consumer (bus : nat) (p : IbiPlane) : option nat * IbiPlane :=
  match claimed p !! bus with
  | Some false => (Some bus, mkIbiPlane (rings p) (<[bus := true]> (claimed p)))
  | _ => (None, p)
  end.
Definition consumer_drop (consumer : nat) (p : IbiPlane) : IbiPlane :=
  mkIbiPlane (rings p) (<[consumer := false]> (claimed p)).
Definition dequeue (consumer : nat) : IbiPlane → option IbiWork * IbiPlane := ring_pop consumer.

(** ** Producers *)

(** A zeroed array with a prefix copied in. *)
Definition padded (cap : nat) (data : list Z) : list Z := take cap data ++ replicate (cap - length data) 0.

Definition i3c_ibi_work_enqueue_target_da_assignment (bus : nat) : IbiPlane → bool * IbiPlane :=
  ring_push bus TargetDaAssignment.
Definition i3c_ibi_work_enqueue_hotjoin (bus : nat) : IbiPlane → bool * IbiPlane := ring_push bus HotJoin.
Definition i3c_ibi_work_enqueue_target_irq (bus : nat) (addr : Z) (data : list Z) : IbiPlane → bool * IbiPlane :=
  let n := (IBI_DATA_MAX `min` length data)%nat in
  ring_push bus (Sirq addr (Z.of_nat n) (padded IBI_DATA_MAX data)).
Definition i3c_ibi_work_enqueue_target_master_write (bus : nat) (data : list Z) : IbiPlane → bool * IbiPlane :=
  let n := (IBI_MWR_DATA_MAX `min` length data)%nat in
  ring_push bus (TargetMasterWrite (Z.of_nat n) (padded IBI_MWR_DATA_MAX data)).

(** ** The abstract queue *)

(** Sixteen items at most, oldest first; [lost] when some were dropped since the
    consumer was last told. *)
Record workq := mkWorkq { items : list IbiWork; lost : bool }.

Definition workq_empty : workq := mkWorkq [] false.
Definition enqueue (w : IbiWork) (q : workq) : workq :=
  if (IBIQ_DEPTH <=? length (items q))%nat then mkWorkq (tail (items q) ++ [w]) true
  else mkWorkq (items q ++ [w]) (lost q).
Definition take_item (q : workq) : option IbiWork * workq :=
  if lost q then (Some Overflow, mkWorkq (items q) false)
  else match items q with [] => (None, q) | w :: l => (Some w, mkWorkq l false) end.

(** The ring holds the queue from its head on. *)
Definition ring_holds (r : IbiRing) (q : workq) : Prop :=
  length (buf r) = IBIQ_DEPTH ∧ (head r < IBIQ_DEPTH)%nat ∧ len r = length (items q) ∧
  (length (items q) ≤ IBIQ_DEPTH)%nat ∧ overflowed r = lost q ∧
  ∀ k w, items q !! k = Some w → buf r !! ((head r + k) mod IBIQ_DEPTH)%nat = Some (Some w).

Lemma ring_holds_new : ring_holds IbiRing_new workq_empty.
Proof. unfold ring_holds. simpl. repeat split; try done; unfold IBIQ_DEPTH; lia. Qed.

Lemma slot_ne h k k' :
  (k < IBIQ_DEPTH)%nat → (k' < IBIQ_DEPTH)%nat → k ≠ k' → ((h + k) mod IBIQ_DEPTH ≠ (h + k') mod IBIQ_DEPTH)%nat.
Proof. unfold IBIQ_DEPTH. intros. zify; Z.to_euclidean_division_equations; lia. Qed.

Lemma push_holds r q w : ring_holds r q → ∃ r', push w r = (true, r') ∧ ring_holds r' (enqueue w q).
Proof.
  intros (Hb & Hh & Hl & Hc & Ho & Hi). unfold push, enqueue. cbn [buf head len overflowed].
  rewrite (Nat.mod_small (head r)) by done. rewrite Hl.
  destruct (Nat.leb_spec IBIQ_DEPTH (length (items q))) as [Hfull|Hroom]; cbn [buf head len overflowed].
  - assert (length (items q) = IBIQ_DEPTH) as Hlen by lia.
    destruct (items q) as [|x l] eqn:Hq; [done|]. cbn [tail] in *. simpl in Hlen.
    assert ((((head r + 1) mod IBIQ_DEPTH + (IBIQ_DEPTH - 1)) mod IBIQ_DEPTH)%nat = head r) as Hidx.
    { revert Hh. unfold IBIQ_DEPTH. intros. zify; Z.to_euclidean_division_equations; lia. }
    rewrite Hidx. destruct (lookup_lt_is_Some_2 (buf r) (head r) ltac:(lia)) as [o Hslot]. rewrite Hslot.
    eexists. split; [done|]. unfold ring_holds. cbn [buf head len overflowed items lost].
    rewrite length_insert, length_app. cbn [length]. repeat split; try done.
    + apply Nat.mod_upper_bound. done.
    + unfold IBIQ_DEPTH in *. lia.
    + unfold IBIQ_DEPTH in *. lia.
    + intros k v Hk. apply lookup_app_Some in Hk as [Hk|[Hge Hk]].
      * assert (k < length l)%nat by (by apply lookup_lt_Some in Hk).
        replace (((head r + 1) mod IBIQ_DEPTH + k) mod IBIQ_DEPTH)%nat with ((head r + S k) mod IBIQ_DEPTH)%nat.
        2:{ unfold IBIQ_DEPTH. zify; Z.to_euclidean_division_equations; lia. }
        rewrite list_lookup_insert_ne; [by apply Hi|].
        rewrite <- (Nat.mod_small (head r) IBIQ_DEPTH) at 1 by done. rewrite <- (Nat.add_0_r (head r)) at 1.
        apply slot_ne; lia.
      * apply list_lookup_singleton_Some in Hk as [Hk ->].
        replace k with (IBIQ_DEPTH - 1)%nat by lia. rewrite Hidx. apply list_lookup_insert_eq. lia.
  - set (idx := ((head r + length (items q)) mod IBIQ_DEPTH)%nat).
    destruct (lookup_lt_is_Some_2 (buf r) idx) as [o Hslot]. { rewrite Hb. by apply Nat.mod_upper_bound. }
    rewrite Hslot. eexists. split; [done|]. unfold ring_holds. cbn [buf head len overflowed items lost].
    rewrite length_insert, length_app. cbn [length]. repeat split; try done; try lia.
    intros k v Hk. apply lookup_app_Some in Hk as [Hk|[Hge Hk]].
    + assert (k < length (items q))%nat by (by apply lookup_lt_Some in Hk).
      rewrite list_lookup_insert_ne; [by apply Hi|]. apply not_eq_sym, slot_ne; lia.
    + apply list_lookup_singleton_Some in Hk as [Hk ->]. replace k with (length (items q)) by lia.
      apply list_lookup_insert_eq. rewrite Hb. by apply Nat.mod_upper_bound.
Qed.

Lemma pop_holds r q :
  ring_holds r q → ∃ r', pop r = ((take_item q).1, r') ∧ ring_holds r' (take_item q).2.
Proof.
  intros (Hb & Hh & Hl & Hc & Ho & Hi). unfold pop, take_item. rewrite Ho.
  destruct (lost q) eqn:Hlost; [eexists; split; [done|]; repeat split; done|].
  cbn [buf head len overflowed]. rewrite (Nat.mod_small (head r)) by done. rewrite Hl.
  destruct (items q) as [|w l] eqn:Hq; cbn [length] in *.
  - eexists. split; [done|]. unfold ring_holds. cbn [buf head len overflowed snd]. rewrite Hq. by repeat split.
  - replace ((S (length l) =? 0) || (IBIQ_DEPTH <? S (length l)))%nat with false.
    2:{ symmetry. apply orb_false_iff. split; [done|]. apply Nat.ltb_ge. lia. }
    specialize (Hi 0%nat w eq_refl) as Hw. rewrite Nat.add_0_r, Nat.mod_small in Hw by done.
    rewrite Hw. eexists. split; [done|]. unfold ring_holds. cbn [buf head len overflowed items lost snd].
    rewrite length_insert. repeat split; try done; try lia.
    intros k v Hk. assert (k < length l)%nat by (by apply lookup_lt_Some in Hk).
    replace (((head r + 1) mod IBIQ_DEPTH + k) mod IBIQ_DEPTH)%nat with ((head r + S k) mod IBIQ_DEPTH)%nat.
    2:{ unfold IBIQ_DEPTH. zify; Z.to_euclidean_division_equations; lia. }
    rewrite list_lookup_insert_ne; [by apply Hi|].
    rewrite <- (Nat.mod_small (head r) IBIQ_DEPTH) at 1 by done. rewrite <- (Nat.add_0_r (head r)) at 1.
    apply slot_ne; lia.
Qed.

(** ** The plane as four queues *)

Definition plane_holds (p : IbiPlane) (qs : list workq) : Prop :=
  length qs = 4%nat ∧ Forall2 ring_holds (rings p) qs.

Lemma plane_holds_new : plane_holds IbiPlane_new (replicate 4 workq_empty).
Proof. split; [done|]. repeat constructor; apply ring_holds_new. Qed.

Lemma ring_push_holds bus w p qs :
  plane_holds p qs → (bus < 4)%nat →
  ∃ p', ring_push bus w p = (true, p') ∧ claimed p' = claimed p ∧ plane_holds p' (alter (enqueue w) bus qs).
Proof.
  intros [H4 HF] Hb. destruct (lookup_lt_is_Some_2 qs bus ltac:(lia)) as [q Hq].
  destruct (Forall2_lookup_r _ _ _ _ _ HF Hq) as (r & Hr & Hrq).
  destruct (push_holds r q w Hrq) as (r' & Hp & Hr'). unfold ring_push. rewrite Hr, Hp.
  eexists. split; [done|]. split; [done|]. split; [by rewrite length_alter|]. cbn [rings].
  replace (alter (enqueue w) bus qs) with (<[bus := enqueue w q]> qs).
  2:{ apply list_eq. intros j. destruct (decide (j = bus)) as [->|].
      - rewrite list_lookup_alter_eq, Hq, list_lookup_insert_eq by lia. done.
      - by rewrite list_lookup_alter_ne, list_lookup_insert_ne by done. }
  by apply Forall2_insert.
Qed.

Lemma ring_pop_holds bus p qs q :
  plane_holds p qs → qs !! bus = Some q →
  ∃ p', ring_pop bus p = ((take_item q).1, p') ∧ claimed p' = claimed p ∧
        plane_holds p' (<[bus := (take_item q).2]> qs).
Proof.
  intros [H4 HF] Hq. destruct (Forall2_lookup_r _ _ _ _ _ HF Hq) as (r & Hr & Hrq).
  destruct (pop_holds r q Hrq) as (r' & Hp & Hr'). unfold ring_pop. rewrite Hr, Hp.
  eexists. split; [done|]. split; [done|]. split; [by rewrite length_insert|]. by apply Forall2_insert.
Qed.

(** Draining takes the overflow mark and the items. *)
Lemma clear_holds bus p qs q fuel :
  plane_holds p qs → qs !! bus = Some q → (length (items q) + (if lost q then 1 else 0) < fuel)%nat →
  plane_holds (clear_loop fuel bus p) (<[bus := workq_empty]> qs).
Proof.
  revert p qs q. induction fuel as [|fuel IH]; intros p qs q Hp Hq Hf; [lia|]. cbn [clear_loop].
  assert (bus < length qs)%nat by (by eapply lookup_lt_Some).
  destruct (ring_pop_holds bus p qs q Hp Hq) as (p' & -> & _ & Hp'). unfold take_item in *.
  destruct q as [l [|]]; cbn [lost items fst snd] in *; [|destruct l as [|w l]]; cbn [fst snd] in *.
  - eapply IH in Hp'; [|by rewrite list_lookup_insert_eq|cbn; lia]. by rewrite list_insert_insert_eq in Hp'.
  - done.
  - eapply IH in Hp'; [|by rewrite list_lookup_insert_eq|cbn [items lost length] in *; lia].
    by rewrite list_insert_insert_eq in Hp'.
Qed.

(** ** Runs *)

(** What the interrupt routine and the consumers do to the plane. *)
Inductive ibi_op := Produce (bus : nat) (w : IbiWork) | Consume (bus : nat).

Definition run_op (o : ibi_op) (p : IbiPlane) : option IbiWork * IbiPlane :=
  match o with Produce bus w => (None, (ring_push bus w p).2) | Consume bus => ring_pop bus p end.
Definition spec_op (o : ibi_op) (qs : list workq) : option IbiWork * list workq :=
  match o with
  | Produce bus w => (None, alter (enqueue w) bus qs)
  | Consume bus =>
      match qs !! bus with Some q => ((take_item q).1, <[bus := (take_item q).2]> qs) | None => (None, qs) end
  end.
Fixpoint run_all {A} (step : ibi_op → A → option IbiWork * A) (l : list ibi_op) (a : A) : list (option IbiWork) :=
  match l with [] => [] | o :: l => let '(w, a) := step o a in w :: run_all step l a end.

Lemma alter_beyond {A} (f : A → A) i (l : list A) : (length l ≤ i)%nat → alter f i l = l.
Proof.
  intros Hi. apply list_eq. intros j. destruct (decide (j = i)) as [->|].
  - rewrite list_lookup_alter_eq. by rewrite (lookup_ge_None_2 l i).
  - by rewrite list_lookup_alter_ne.
Qed.

Lemma run_op_holds o p qs :
  plane_holds p qs → (run_op o p).1 = (spec_op o qs).1 ∧ plane_holds (run_op o p).2 (spec_op o qs).2.
Proof.
  intros Hp. destruct o as [bus w|bus]; cbn [run_op spec_op fst snd].
  - destruct (decide (bus < 4)%nat) as [Hb|Hb].
    + destruct (ring_push_holds bus w p qs Hp Hb) as (p' & -> & _ & Hp'). done.
    + split; [done|]. destruct Hp as [H4 HF]. unfold ring_push.
      rewrite (lookup_ge_None_2 (rings p)) by (rewrite (Forall2_length HF); lia).
      rewrite alter_beyond by lia. done.
  - destruct (qs !! bus) as [q|] eqn:Hq.
    + destruct (ring_pop_holds bus p qs q Hp Hq) as (p' & -> & _ & Hp'). done.
    + destruct Hp as [H4 HF]. unfold ring_pop. apply lookup_ge_None_1 in Hq as Hge.
      rewrite (lookup_ge_None_2 (rings p)) by (rewrite (Forall2_length HF); lia). done.
Qed.

(** C20: The four rings are four bounded queues, whatever the order in which the
    interrupt routine fills them and the consumers drain them: every item comes out
    once, in order, on the bus it was put, except that a full queue drops its
    oldest item, and then the consumer is told of the loss before it is given
    anything else. *)
Theorem ibi_rings_are_queues l :
  run_all run_op l IbiPlane_new = run_all spec_op l (replicate 4 workq_empty).
Proof.
  cut (∀ p qs, plane_holds p qs → run_all run_op l p = run_all spec_op l qs).
  { intros Hc. apply Hc, plane_holds_new. }
  induction l as [|o l IH]; intros p qs Hp; [done|]. cbn [run_all].
  destruct (run_op_holds o p qs Hp) as [Ho Hp']. destruct (run_op o p) as [w p'], (spec_op o qs) as [w' qs'].
  cbn [fst snd] in *. rewrite Ho. f_equal. by apply IH.
Qed.

(** Twenty items into one ring and one into another: four are gone, and said to be. *)
Example overflow_reported :
  run_all run_op
    ((Produce 1 <$> ((λ i, Sirq (Z.of_nat i) 0 []) <$> seq 0 20)) ++ [Produce 2 HotJoin; Consume 1; Consume 1; Consume 2])
    IbiPlane_new
  = replicate 21 None ++ [Some Overflow; Some (Sirq 4 0 []); Some HotJoin].
Proof. vm_compute. reflexivity. Qed.

(** A consumer handle excludes a second one until it is dropped. *)
Lemma consumer_exclusive bus p :
  (bus < length (claimed p))%nat →
  let '(c, p') := i3c_ibi_workq_consumer bus p in
  i3c_ibi_workq_consumer bus p' = (None, p') ∧
  (c = Some bus → (i3c_ibi_workq_consumer bus (consumer_drop bus p')).1 = Some bus).
Proof.
  intros Hb. destruct (lookup_lt_is_Some_2 _ _ Hb) as [b Hc]. unfold i3c_ibi_workq_consumer at 1. rewrite Hc.
  destruct b; (split; [unfold i3c_ibi_workq_consumer|]).
  - by rewrite Hc.
  - done.
  - cbn [claimed]. by rewrite list_lookup_insert_eq.
  - intros _. unfold i3c_ibi_workq_consumer, consumer_drop. cbn [claimed].
    rewrite list_lookup_insert_eq by (by rewrite length_insert). done.
Qed.
