(* ===== verification/I3cRegs.v ===== *)
(** * The AST1060 I3C driver: transfers, shared state, registers

    [target/ast10x0/peripherals/i3c]: [types.rs], the payload types of [ccc.rs], the
    statics of [hardware.rs], and the state a controller call runs on.  A slice
    behind [&mut] is a list of bytes: what a call leaves in it is returned.

    The second part is [registers.rs], over the type class [I3cHw]. *)

From S2P Require Import Prelude Bytes RegMonad I3cConfig I3cIbi.
From stdpp Require Import base tactics option list numbers.
Local Open Scope Z_scope.

(** ** Transfers ([types.rs]) *)

Inductive SpeedI3c := Sdr0 | Sdr1 | Sdr2 | Sdr3 | Sdr4 | HdrTs | HdrDdr | I2cFmAsI3c.
Definition speed_i3c (s : SpeedI3c) : Z :=
  match s with Sdr0 => 0 | Sdr1 => 1 | Sdr2 => 2 | Sdr3 => 3 | Sdr4 => 4 | HdrTs => 5 | HdrDdr => 6 | I2cFmAsI3c => 7 end.
Inductive SpeedI2c := Fm | Fmp.
Definition speed_i2c (s : SpeedI2c) : Z := match s with Fm => 0 | Fmp => 1 end.

Inductive Tid := TargetIbi | TargetRdData | TargetMasterWr | TargetMasterDef.
Definition tid_code (t : Tid) : Z :=
  match t with TargetIbi => 0x1 | TargetRdData => 0x2 | TargetMasterWr => 0x8 | TargetMasterDef => 0xF end.

Record I3cCmd := mkI3cCmd {
  cmd_lo : Z; cmd_hi : Z; tx : option (list Z); rx : option (list Z); tx_len : Z; rx_len : Z; ret : Z;
}.
Definition I3cCmd_new : I3cCmd := mkI3cCmd 0 0 None None 0 0 0.

Record I3cMsg := mkI3cMsg {
  msg_buf : option (list Z); actual_len : Z; num_xfer : Z; msg_flags : Z; hdr_mode : Z; hdr_cmd_mode : Z;
}.
Definition I3cMsg_new : I3cMsg := mkI3cMsg None 0 0 0 0 0.
Definition is_read (m : I3cMsg) : bool := has_flag (msg_flags m) I3C_MSG_READ.
Definition has_stop (m : I3cMsg) : bool := has_flag (msg_flags m) I3C_MSG_STOP.
Definition set_actual_len (n : Z) (m : I3cMsg) : I3cMsg :=
  mkI3cMsg (msg_buf m) n (num_xfer m) (msg_flags m) (hdr_mode m) (hdr_cmd_mode m).

Record I3cXfer := mkI3cXfer { cmds : list I3cCmd; xret : Z }.
Definition I3cXfer_new (l : list I3cCmd) : I3cXfer := mkI3cXfer l 0.
Definition ncmds (x : I3cXfer) : nat := length (cmds x).

(** A write carries its bytes, a read the buffer it fills. *)
Inductive I2cOp := OpWrite (b : list Z) | OpRead (b : list Z).
Definition op_len (o : I2cOp) : nat := match o with OpWrite b | OpRead b => length b end.

(** A provisional ID. *)
Definition manuf_id (p : Z) : Z := as_u16 (Z.land (Z.shiftr p 33) 0x1FFF).
Definition has_random_lower32 (p : Z) : bool := negb (Z.land p (Z.shiftl 1 32) =? 0).

Inductive I3cIbiType := TargetIntr | ControllerRoleRequest | IbiHotJoin | WorkqueueCb.
Record I3cIbi := mkI3cIbi { ibi_type : I3cIbiType; payload : option (list Z) }.
Definition payload_len (i : I3cIbi) : Z :=
  match payload i with Some p => Z.of_nat (length p `min` 255) | None => 0 end.
Definition first_byte (i : I3cIbi) : option Z := payload i ≫= head.

(** ** Command codes ([ccc.rs]) *)

Record CccTargetPayload := mkCccTargetPayload { tp_addr : Z; rnw : bool; tp_data : option (list Z); tp_num_xfer : nat }.
Record Ccc := mkCcc { ccc_id : Z; ccc_data : option (list Z); ccc_num_xfer : nat }.
Record CccPayload := mkCccPayload { ccc : option Ccc; targets : option (list CccTargetPayload) }.

Definition data_len (d : option (list Z)) : nat := match d with Some l => length l | None => 0%nat end.

(** ** The statics shared with the interrupt routine ([hardware.rs]) *)

(** Status bits left to the thread, the address and the lengths the master set, a
    fault left to the thread, and two completions. *)
Record IsrEvents := mkIsrEvents {
  pending : Z; ev_dyn_addr : Z; slv_max_len : Z; slv_max_len_valid : bool; fault : bool;
  target_ibi_done : bool; target_data_done : bool;
}.
Definition IsrEvents_new : IsrEvents := mkIsrEvents 0 0 0 false false false false.
Definition set_pending v (e : IsrEvents) :=
  mkIsrEvents v (ev_dyn_addr e) (slv_max_len e) (slv_max_len_valid e) (fault e) (target_ibi_done e) (target_data_done e).
Definition set_ev_dyn_addr v (e : IsrEvents) :=
  mkIsrEvents (pending e) v (slv_max_len e) (slv_max_len_valid e) (fault e) (target_ibi_done e) (target_data_done e).
Definition set_slv_max_len v (e : IsrEvents) :=
  mkIsrEvents (pending e) (ev_dyn_addr e) v true (fault e) (target_ibi_done e) (target_data_done e).
Definition set_fault v (e : IsrEvents) :=
  mkIsrEvents (pending e) (ev_dyn_addr e) (slv_max_len e) (slv_max_len_valid e) v (target_ibi_done e) (target_data_done e).
Definition set_ibi_done v (e : IsrEvents) :=
  mkIsrEvents (pending e) (ev_dyn_addr e) (slv_max_len e) (slv_max_len_valid e) (fault e) v (target_data_done e).
Definition set_data_done v (e : IsrEvents) :=
  mkIsrEvents (pending e) (ev_dyn_addr e) (slv_max_len e) (slv_max_len_valid e) (fault e) (target_ibi_done e) v.

Definition dyn_addr_of (e : IsrEvents) : option Z :=
  if negb (Z.land (ev_dyn_addr e) 0x100 =? 0) then Some (Z.land (ev_dyn_addr e) 0x7f) else None.
Definition max_len (e : IsrEvents) : option (Z * Z) :=
  if slv_max_len_valid e then Some (as_u16 (Z.shiftr (slv_max_len e) 16), Z.land (slv_max_len e) 0xffff) else None.

(** What the interrupt routine of a bus needs: the bus, the role. *)
Record IsrCtx := mkIsrCtx { ctx_bus : nat; ctx_secondary : bool }.

Record I3cGlobals := mkI3cGlobals { ISR_EVENTS : list IsrEvents; IBI : IbiPlane; BUS_ISR : list (option IsrCtx) }.
Definition I3cGlobals_new : I3cGlobals :=
  mkI3cGlobals (replicate 4 IsrEvents_new) IbiPlane_new (replicate 4 None).

(** [ISR_EVENTS.get(bus).unwrap_or(&ISR_EVENTS[0])]. *)
Definition events_slot (bus : nat) : nat := if (bus <? 4)%nat then bus else 0%nat.
Definition isr_events (bus : nat) (g : I3cGlobals) : IsrEvents := nth (events_slot bus) (ISR_EVENTS g) IsrEvents_new.
Definition upd_events (bus : nat) (f : IsrEvents → IsrEvents) (g : I3cGlobals) : I3cGlobals :=
  mkI3cGlobals (alter f (events_slot bus) (ISR_EVENTS g)) (IBI g) (BUS_ISR g).
Definition set_IBI (p : IbiPlane) (g : I3cGlobals) : I3cGlobals := mkI3cGlobals (ISR_EVENTS g) p (BUS_ISR g).

Definition register_i3c_irq_handler (bus : nat) (ctx : IsrCtx) (g : I3cGlobals) : bool * I3cGlobals :=
  match BUS_ISR g !! bus with
  | Some None => (true, mkI3cGlobals (ISR_EVENTS g) (IBI g) (<[bus := Some ctx]> (BUS_ISR g)))
  | _ => (false, g)
  end.
Definition unregister_i3c_irq_handler (bus : nat) (g : I3cGlobals) : I3cGlobals :=
  mkI3cGlobals (ISR_EVENTS g) (IBI g) (<[bus := None]> (BUS_ISR g)).

(** ** A controller: its hardware driver, the configuration it borrows, the statics *)

Record I3cController (D : Type) := mkI3cController { hw : D; config : I3cConfig; glob : I3cGlobals }.
Arguments mkI3cController {D}.
Arguments hw {D}.
Arguments config {D}.
Arguments glob {D}.

Section state.
Context {D : Type}.
Notation ctl := (drv (I3cController D) I3cError).

Definition set_hw (f : D → D) (s : I3cController D) : I3cController D := mkI3cController (f (hw s)) (config s) (glob s).
Definition set_config (f : I3cConfig → I3cConfig) (s : I3cController D) : I3cController D :=
  mkI3cController (hw s) (f (config s)) (glob s).
Definition set_glob (f : I3cGlobals → I3cGlobals) (s : I3cController D) : I3cController D :=
  mkI3cController (hw s) (config s) (f (glob s)).

Definition get_cfg {A} (f : I3cConfig → A) : ctl A := reads (λ s, f (config s)).
Definition upd_cfg (f : I3cConfig → I3cConfig) : ctl unit := writes (set_config f).

(** ** Errors of a command code, and events *)

Definition ccc_enec (broadcast : bool) : Z := if broadcast then 0x00 else 0x80.
Definition ccc_disec (broadcast : bool) : Z := if broadcast then 0x01 else 0x81.
Definition ccc_rstact (broadcast : bool) : Z := if broadcast then 0x2a else 0x9a.

Definition map_ccc_err (e : I3cError) : I3cError :=
  match e with I3cTimeout | RespError | IoError | AddressNack => e | _ => CccError CccInvalid end.

(** [r.map_err(f)] of a call. *)
Definition mapping_err {A} (f : I3cError → I3cError) (m : ctl A) : ctl A := r ← attempt m; lift (map_err f r).

(** A direct command to one target, and a broadcast. *)
Definition direct (i : Z) (data : option (list Z)) (addr : Z) (r : bool) (d : list Z) : CccPayload :=
  mkCccPayload (Some (mkCcc i data 0)) (Some [mkCccTargetPayload addr r (Some d) 0]).
Definition broadcast (i : Z) (data : option (list Z)) : CccPayload := mkCccPayload (Some (mkCcc i data 0)) None.

(** [ccc_events_set], over any hardware that executes command codes. *)
Definition ccc_events_set (do_ccc : CccPayload → ctl CccPayload) (da : Z) (enable : bool) (events : Z) : ctl unit :=
  require (negb (da =? 0)) (CccError CccInvalidParam);;
  let i := if enable then ccc_enec false else ccc_disec false in
  mapping_err map_ccc_err (do_ccc (direct i None da false [events]));;
  mret ().
End state.

(** * The AST1060 I3C driver: register access

    [target/ast10x0/peripherals/i3c/registers.rs] over the type class [I3cHw]: the
    registers of one bus, its share of the global block and of the control unit.
    The layout of the fields is the peripheral access crate's, a parameter. *)
(** A register of the bus, of the global block, of the control unit, by offset. *)
Inductive I3cReg := I3cd (offset : Z) | I3cg (offset : Z) | Scu (offset : Z).
#[export] Instance I3cReg_eq_dec : EqDecision I3cReg.
Proof. solve_decision. Defined.

(** The fields the driver names, by register. *)
Inductive I3cField :=
(* I3CD000 *)
| FHotJoinAckNackCtrl | FEnblI3cctrl | FI3cbroadcastAddrInclude | FEnblAdaptionOfI2ci3cmode | FIbipayloaden
| FI3cresume | FI3cabort | FMdb
(* I3CD004, I3CD008 *)
| FDevStaticAddr | FStaticAddrValid | FDevDynamicAddr | FDynamicAddrValid | FSlvhjcap
(* I3CD01C, I3CD020 *)
| FIbidataThresholdValue | FResponseBufferThresholdValue | FRxBufferThresholdValue
(* I3CD034 *)
| FIbiqueueSwRst | FRxBufferSwRst | FTxBufferSwRst | FResponseQueueSwRst | FCmdQueueSwRst | FCoreSwRst
(* I3CD040 *)
| FTransfererrstaten | FRespreadystatintren | FCccupdatedstaten | FDynaddrassgnstaten | FIbiupdatedstaten
| FReadreqrecvstaten | FIbithldstaten
(* I3CD044 *)
| FTransfererrsignalen | FRespreadysignalintren | FCccupdatedsignalen | FDynaddrassgnsignalen | FIbiupdatedsignalen
| FReadreqrecvsignalen | FIbithldsignalen
(* I3CD04C, I3CD054, I3CD05C *)
| FRespbufblr | FIbistatuscnt | FCmtfrstatus | FDevaddrtabledepth
(* I3CD070, I3CD08C, I3CD0B0 *)
| FSlvmipimfgid | FSlvpiddcr | FSir | FDevOpMode
(* I3CD0B4 .. I3CD0C0, I3CD0D4 *)
| FI3codhcnt | FI3codlcnt | FI3cpphcnt | FI3cpplcnt | FI2cfmhcnt | FI2cfmlcnt | FI2cfmphcnt | FI2cfmplcnt | FI3cibifree
(* the address table *)
| FSirreject | FMrreject | FDevdynamicaddr
(* the global block *)
| FActmode | FInstid | FStaticaddr
(* the control unit *)
| FHwRevId | FRstI3cCtrl (bus : nat) | FRstI3cregdmactrl | FSysRstCtrlClearReg2 | FClkStopCtrlClearRegSet2.

(** A yield lets time pass; [irq_line]: the bus's interrupt reaches the core. *)
Class I3cHw (H : Type) : Type := {
  i3c_rd : H → I3cReg → H * Z;
  i3c_wr : H → I3cReg → Z → H;
  pause : H → Z → H;
  irq_line : H → bool;
  fget : I3cField → Z → Z;
  fput : I3cField → Z → Z → Z;
  reset_value : I3cReg → Z;
}.

(** The driver of one bus: its registers and the sticky fault. *)
Record Ast1060I3c (H : Type) := mkAst1060I3c { regs : H; bus : nat; xfer_faulted : bool }.
Arguments mkAst1060I3c {H}.
Arguments regs {H}.
Arguments bus {H}.
Arguments xfer_faulted {H}.

Section registers.
Context {H : Type} `{I3cHw H}.
Notation i3c := (drv (I3cController (Ast1060I3c H)) I3cError).

Definition set_regs (h : H) (d : Ast1060I3c H) : Ast1060I3c H := mkAst1060I3c h (bus d) (xfer_faulted d).

(** [I3cRegisters::new]: the bus is checked once. *)
Definition Ast1060I3c_new (h : H) (b : nat) : option (Ast1060I3c H) :=
  if (b <? MAX_BUSES)%nat then Some (mkAst1060I3c h b false) else None.

Definition get_bus : i3c nat := reads (λ s, bus (hw s)).
Definition rd (r : I3cReg) : i3c Z := λ s,
  let '(h, v) := i3c_rd (regs (hw s)) r in Some (set_hw (set_regs h) s, Ok v).
Definition wr (r : I3cReg) (v : Z) : i3c unit := writes (set_hw (λ d, set_regs (i3c_wr (regs d) r v) d)).
(** [modify], and [write] of named fields, the others at their reset value. *)
Definition modify (r : I3cReg) (f : Z → Z) : i3c unit := v ← rd r; wr r (f v).
Definition wr_fields (r : I3cReg) (f : Z → Z) : i3c unit := wr r (f (reset_value r)).
Definition set_bit (f : I3cField) : Z → Z := fput f 1.
Definition clear_bit (f : I3cField) : Z → Z := fput f 0.
Definition bit_is_set (f : I3cField) (v : Z) : bool := negb (fget f v =? 0).

(** ** Control unit *)

Definition core_reset_assert : i3c unit := b ← get_bus; modify (Scu 0x050) (set_bit (FRstI3cCtrl b)).
Definition core_reset_deassert : i3c unit :=
  b ← get_bus; modify (Scu 0x054) (fput FSysRstCtrlClearReg2 (Z.shiftl 1 (8 + Z.of_nat b))).
Definition global_reset_assert : i3c unit := modify (Scu 0x050) (set_bit FRstI3cregdmactrl).
Definition global_reset_deassert (mask : Z) : i3c unit := modify (Scu 0x054) (fput FSysRstCtrlClearReg2 mask).
Definition clock_on : i3c unit :=
  b ← get_bus; modify (Scu 0x094) (fput FClkStopCtrlClearRegSet2 (Z.shiftl 1 (8 + Z.of_nat b))).
Definition hw_rev_id : i3c Z := v ← rd (Scu 0x004); mret (fget FHwRevId v).

(** ** Global block *)

Definition i3cg_reg0 (b : nat) : I3cReg :=
  match b with 0%nat => I3cg 0x10 | 1%nat => I3cg 0x20 | 2%nat => I3cg 0x30 | _ => I3cg 0x40 end.
Definition i3cg_reg1 (b : nat) : I3cReg :=
  match b with 0%nat => I3cg 0x14 | 1%nat => I3cg 0x24 | 2%nat => I3cg 0x34 | _ => I3cg 0x44 end.
Definition i3cg_read_reg0 : i3c Z := b ← get_bus; rd (i3cg_reg0 b).
Definition i3cg_write_reg0 (v : Z) : i3c unit := b ← get_bus; wr (i3cg_reg0 b) v.
Definition i3cg_read_reg1 : i3c Z := b ← get_bus; rd (i3cg_reg1 b).
Definition i3cg_program_reg1 (sa : Z) : i3c unit :=
  b ← get_bus;
  wr_fields (i3cg_reg1 b) (λ w, fput FStaticaddr sa (fput FInstid (Z.of_nat b) (fput FActmode 1 w))).
Definition i3cg_reg1_set_bits (mask : Z) : i3c unit := b ← get_bus; modify (i3cg_reg1 b) (λ r, Z.lor r mask).
Definition i3cg_reg1_clear_bits (mask : Z) : i3c unit := b ← get_bus; modify (i3cg_reg1 b) (λ r, Z.ldiff r mask).
Definition i3cg_reg1_overwrite (v : Z) : i3c unit := b ← get_bus; modify (i3cg_reg1 b) (λ _, v).

(** ** Device control, address, capability *)

Definition set_hot_join_nack (on : bool) : i3c unit :=
  modify (I3cd 0x000) (if on then set_bit FHotJoinAckNackCtrl else clear_bit FHotJoinAckNackCtrl).
Definition controller_enabled : i3c bool := v ← rd (I3cd 0x000); mret (bit_is_set FEnblI3cctrl v).
Definition disable_controller : i3c unit := modify (I3cd 0x000) (clear_bit FEnblI3cctrl).
Definition enable_controller_primary : i3c unit :=
  modify (I3cd 0x000) (λ w, set_bit FEnblI3cctrl (set_bit FI3cbroadcastAddrInclude w)).
Definition enable_controller_secondary : i3c unit :=
  modify (I3cd 0x000) (λ w, set_bit FEnblI3cctrl (set_bit FIbipayloaden (clear_bit FEnblAdaptionOfI2ci3cmode w))).
Definition resume : i3c unit := modify (I3cd 0x000) (set_bit FI3cresume).
Definition abort : i3c unit := modify (I3cd 0x000) (set_bit FI3cabort).
Definition reg_set_ibi_mdb (m : Z) : i3c unit := modify (I3cd 0x000) (fput FMdb m).

Definition program_secondary_static_addr (a : Z) : i3c unit :=
  wr_fields (I3cd 0x004) (λ w, set_bit FStaticAddrValid (fput FDevStaticAddr a w)).
Definition program_primary_dynamic_addr (a : Z) : i3c unit :=
  wr_fields (I3cd 0x004) (λ w, set_bit FDynamicAddrValid (fput FDevDynamicAddr a w)).
Definition dynamic_addr : i3c Z := v ← rd (I3cd 0x004); mret (fget FDevDynamicAddr v).
Definition dynamic_addr_valid : i3c bool := v ← rd (I3cd 0x004); mret (bit_is_set FDynamicAddrValid v).
Definition hj_capable : i3c bool := v ← rd (I3cd 0x008); mret (bit_is_set FSlvhjcap v).

(** ** Ports *)

Definition push_cmd (v : Z) : i3c unit := wr (I3cd 0x00c) v.
Definition pop_response : i3c Z := rd (I3cd 0x010).

(** Whole little-endian words, and a last one padded with zeros. *)
Fixpoint tx_fifo_write (bytes : list Z) : i3c unit :=
  match bytes with
  | b0 :: b1 :: b2 :: b3 :: rest => wr (I3cd 0x014) (u32_from_le_bytes b0 b1 b2 b3);; tx_fifo_write rest
  | [] => mret ()
  | b0 :: rem => wr (I3cd 0x014) (u32_from_le_bytes b0 (nth 0 rem 0) (nth 1 rem 0) 0)
  end.

Fixpoint fifo_read (read_word : i3c Z) (n : nat) : i3c (list Z) :=
  match n with
  | S (S (S (S n))) => v ← read_word; rest ← fifo_read read_word n; mret (u32_to_le_bytes v ++ rest)
  | O => mret []
  | rem => v ← read_word; mret (take rem (u32_to_le_bytes v))
  end.
Fixpoint repeat_read (read_word : i3c Z) (nwords : nat) : i3c unit :=
  match nwords with O => mret () | S n => _ ← read_word; repeat_read read_word n end.
Definition fifo_drain (read_word : i3c Z) (n : nat) : i3c unit := repeat_read read_word (Nat.shiftr (n + 3) 2).

Definition rx_fifo_read (n : nat) : i3c (list Z) := fifo_read (rd (I3cd 0x014)) n.
Definition rx_fifo_drain (n : nat) : i3c unit := fifo_drain (rd (I3cd 0x014)) n.
Definition ibi_fifo_pop : i3c Z := rd (I3cd 0x018).
Definition ibi_fifo_read (n : nat) : i3c (list Z) := fifo_read (rd (I3cd 0x018)) n.
Definition ibi_fifo_drain (n : nat) : i3c unit := fifo_drain (rd (I3cd 0x018)) n.

(** ** Thresholds, reject masks, resets, events *)

Definition set_ibi_data_threshold (v : Z) : i3c unit := wr_fields (I3cd 0x01c) (fput FIbidataThresholdValue v).
Definition set_resp_buf_threshold (v : Z) : i3c unit := modify (I3cd 0x01c) (fput FResponseBufferThresholdValue v).
Definition set_rx_buf_threshold (v : Z) : i3c unit := modify (I3cd 0x020) (fput FRxBufferThresholdValue v).
Definition write_mr_reject (v : Z) : i3c unit := wr (I3cd 0x02c) v.
Definition read_sir_reject : i3c Z := rd (I3cd 0x030).
Definition write_sir_reject (v : Z) : i3c unit := wr (I3cd 0x030) v.
Definition assert_all_queue_resets : i3c unit :=
  wr_fields (I3cd 0x034) (λ w,
    set_bit FCoreSwRst (set_bit FCmdQueueSwRst (set_bit FResponseQueueSwRst
      (set_bit FTxBufferSwRst (set_bit FRxBufferSwRst (set_bit FIbiqueueSwRst w)))))).
Definition write_reset_ctrl (v : Z) : i3c unit := wr (I3cd 0x034) v.
Definition read_reset_ctrl : i3c Z := rd (I3cd 0x034).
Definition read_slv_event_ctrl : i3c Z := rd (I3cd 0x038).
Definition write_slv_event_ctrl (v : Z) : i3c unit := wr (I3cd 0x038) v.
Definition raise_hot_join_request : i3c unit := write_slv_event_ctrl SLV_EVENT_CTRL_HJ_REQ.

(** ** Interrupts *)

Definition read_intr_status : i3c Z := rd (I3cd 0x03c).
Definition clear_intr_status (mask : Z) : i3c unit := wr (I3cd 0x03c) mask.
Definition enable_master_irqs : i3c unit :=
  wr_fields (I3cd 0x040) (λ w, set_bit FRespreadystatintren (set_bit FTransfererrstaten w));;
  wr_fields (I3cd 0x044) (λ w, set_bit FRespreadysignalintren (set_bit FTransfererrsignalen w)).
Definition enable_target_irqs : i3c unit :=
  wr_fields (I3cd 0x040) (λ w,
    set_bit FReadreqrecvstaten (set_bit FIbiupdatedstaten (set_bit FDynaddrassgnstaten
      (set_bit FCccupdatedstaten (set_bit FRespreadystatintren (set_bit FTransfererrstaten w))))));;
  wr_fields (I3cd 0x044) (λ w,
    set_bit FReadreqrecvsignalen (set_bit FIbiupdatedsignalen (set_bit FDynaddrassgnsignalen
      (set_bit FCccupdatedsignalen (set_bit FRespreadysignalintren (set_bit FTransfererrsignalen w)))))).
Definition enable_ibi_thld_irq : i3c unit :=
  modify (I3cd 0x040) (set_bit FIbithldstaten);; modify (I3cd 0x044) (set_bit FIbithldsignalen).
Definition mask_master_xfer_irqs : i3c unit :=
  modify (I3cd 0x040) (λ w, clear_bit FRespreadystatintren (clear_bit FTransfererrstaten w));;
  modify (I3cd 0x044) (λ w, clear_bit FRespreadysignalintren (clear_bit FTransfererrsignalen w)).
Definition unmask_master_xfer_irqs : i3c unit :=
  modify (I3cd 0x040) (λ w, set_bit FRespreadystatintren (set_bit FTransfererrstaten w));;
  modify (I3cd 0x044) (λ w, set_bit FRespreadysignalintren (set_bit FTransfererrsignalen w)).

(** ** Status *)

Definition resp_buf_level : i3c nat := v ← rd (I3cd 0x04c); mret (Z.to_nat (fget FRespbufblr v)).
Definition ibi_status_count : i3c nat := v ← rd (I3cd 0x04c); mret (Z.to_nat (fget FIbistatuscnt v)).
Definition xfer_status : i3c Z := v ← rd (I3cd 0x054); mret (fget FCmtfrstatus v).
Definition dat_depth : i3c Z := v ← rd (I3cd 0x05c); mret (fget FDevaddrtabledepth v).

(** ** Identity, timing, misc *)

Definition set_pid_mfg_id (i : Z) : i3c unit :=
  wr_fields (I3cd 0x070) (λ w, clear_bit FSlvpiddcr (fput FSlvmipimfgid i w)).
Definition write_slv_pid_value (v : Z) : i3c unit := wr (I3cd 0x074) v.
Definition read_slv_char_ctrl : i3c Z := rd (I3cd 0x078).
Definition write_slv_char_ctrl (v : Z) : i3c unit := wr (I3cd 0x078) v.
Definition read_slv_max_len : i3c Z := rd (I3cd 0x07c).
Definition raise_sir : i3c unit := wr_fields (I3cd 0x08c) (set_bit FSir).
Definition set_dev_op_mode (mode : Z) : i3c unit := modify (I3cd 0x0b0) (fput FDevOpMode mode).
Definition set_i2c_fm_timing (hi lo : Z) : i3c unit :=
  wr_fields (I3cd 0x0bc) (λ w, fput FI2cfmlcnt lo (fput FI2cfmhcnt hi w)).
Definition set_i2c_fmp_timing (hi lo : Z) : i3c unit :=
  wr_fields (I3cd 0x0c0) (λ w, fput FI2cfmplcnt lo (fput FI2cfmphcnt hi w)).
Definition set_od_timing (hi lo : Z) : i3c unit :=
  wr_fields (I3cd 0x0b4) (λ w, fput FI3codlcnt lo (fput FI3codhcnt hi w)).
Definition set_pp_timing (hi lo : Z) : i3c unit :=
  wr_fields (I3cd 0x0b8) (λ w, fput FI3cpplcnt lo (fput FI3cpphcnt hi w)).
Definition read_sda_hold : i3c Z := rd (I3cd 0x0d0).
Definition write_sda_hold (v : Z) : i3c unit := wr (I3cd 0x0d0) v.
Definition write_bus_free_timing (v : Z) : i3c unit := wr (I3cd 0x0d4) v.
Definition ibi_free_cycles : i3c Z := v ← rd (I3cd 0x0d4); mret (fget FI3cibifree v).

(** ** The device address table *)

Definition dat_reg (pos : nat) : I3cReg :=
  match pos with
  | 0%nat => I3cd 0x280 | 1%nat => I3cd 0x284 | 2%nat => I3cd 0x288 | 3%nat => I3cd 0x28c
  | 4%nat => I3cd 0x290 | 5%nat => I3cd 0x294 | 6%nat => I3cd 0x298 | _ => I3cd 0x29c
  end.
Definition dat_read (pos : nat) : i3c Z := rd (dat_reg pos).
Definition dat_write_raw (pos : nat) (v : Z) : i3c unit := wr (dat_reg pos) v.
Definition dat_set_reject (pos : nat) : i3c unit :=
  wr_fields (dat_reg pos) (λ w, set_bit FMrreject (set_bit FSirreject w)).
Definition dat_program_addr (pos : nat) (addr_with_parity : Z) : i3c unit :=
  wr_fields (dat_reg pos) (λ w, fput FDevdynamicaddr addr_with_parity (set_bit FMrreject (set_bit FSirreject w))).
End registers.
