(* ===== verification/I3cDev.v ===== *)
(** * The AST1060 I3C driver: interrupt routine and hardware driver

    [target/ast10x0/peripherals/i3c/hardware.rs] over the registers of [I3cRegs].
    The interrupt routine runs where the driver yields: time passes, and when the
    line of the bus is up the registered context is served.  [poll] and [wait]
    loops have the source's budgets.  A call that fills buffers of its caller
    returns them with its result.

    The second part is the trait [HardwareInterface] as a type class, and the driver
    as its instance. *)

From S2P Require Import Prelude Bytes RegMonad I3cConfig I3cIbi I3cRegs.
From stdpp Require Import base tactics option list numbers.
Local Open Scope Z_scope.

Definition MASTER_XFER_STAT : Z := Z.lor (Z.lor INTR_RESP_READY_STAT INTR_TRANSFER_ERR_STAT) INTR_TRANSFER_ABORT_STAT.

(** The fields of a response. *)
Definition resp_tid (resp : Z) : nat := Z.to_nat (field_get resp RESPONSE_PORT_TID_MASK RESPONSE_PORT_TID_SHIFT).
Definition resp_len (resp : Z) : nat := Z.to_nat (field_get resp RESPONSE_PORT_DATA_LEN_MASK RESPONSE_PORT_DATA_LEN_SHIFT).
Definition resp_err (resp : Z) : Z := field_get resp RESPONSE_PORT_ERR_STATUS_MASK RESPONSE_PORT_ERR_STATUS_SHIFT.

Section driver.
Context {H : Type} `{I3cHw H}.
Notation i3c := (drv (I3cController (Ast1060I3c H)) I3cError).

(** ** Statics *)

Definition get_events : i3c IsrEvents := b ← get_bus; reads (λ s, isr_events b (glob s)).
Definition on_events (f : IsrEvents → IsrEvents) : i3c unit := b ← get_bus; writes (set_glob (upd_events b f)).
Definition take_pending : i3c Z := e ← get_events; on_events (set_pending 0);; mret (pending e).
Definition clear_pending : i3c unit := on_events (set_pending 0).
Definition take_fault : i3c bool := e ← get_events; on_events (set_fault false);; mret (fault e).
Definition events_reset : i3c unit := on_events (λ _, IsrEvents_new).

(** A change of the work queues, with its result. *)
Definition on_ibi {A} (f : IbiPlane → A * IbiPlane) : i3c A := λ s,
  let '(a, p) := f (IBI (glob s)) in Some (set_glob (set_IBI p) s, Ok a).
(** [if !enqueue(..) { events.fault.store(true) }]. *)
Definition enqueue_or_fault (f : IbiPlane → bool * IbiPlane) : i3c unit :=
  ok ← on_ibi f; if ok : bool then mret () else on_events (set_fault true).

Fixpoint times (n : nat) (m : i3c unit) : i3c unit := match n with O => mret () | S n => m;; times n m end.

(** ** The interrupt routine *)

Definition isr_target_response (b : nat) : i3c unit :=
  resp ← pop_response;
  let tid := resp_tid resp in
  let rx_len := resp_len resp in
  if negb (resp_err resp =? 0) then
    on_events (set_fault true);;
    if negb (rx_len =? 0)%nat then rx_fifo_drain rx_len else mret ()
  else
    (if negb (rx_len =? 0)%nat then
       let n := (rx_len `min` IBI_MWR_DATA_MAX)%nat in
       data ← rx_fifo_read n;
       (if (n <? rx_len)%nat then rx_fifo_drain (rx_len - n) else mret ());;
       enqueue_or_fault (i3c_ibi_work_enqueue_target_master_write b data)
     else mret ());;
    (if (tid =? Z.to_nat (tid_code TargetIbi))%nat then on_events (set_ibi_done true) else mret ());;
    if (tid =? Z.to_nat (tid_code TargetRdData))%nat then on_events (set_data_done true) else mret ().
Definition isr_target_responses (b : nat) : i3c unit := n ← resp_buf_level; times n (isr_target_response b).

Definition isr_master_ibi (b : nat) : i3c unit :=
  reg ← ibi_fifo_pop;
  let ibi_id := field_get reg IBIQ_STATUS_IBI_ID IBIQ_STATUS_IBI_ID_SHIFT in
  let ibi_data_len := Z.to_nat (field_get reg IBIQ_STATUS_IBI_DATA_LEN IBIQ_STATUS_IBI_DATA_LEN_SHIFT) in
  let ibi_addr := Z.land (Z.shiftr ibi_id 1) 0x7F in
  let rd_bit := negb (Z.land ibi_id 1 =? 0) in
  if negb (ibi_addr =? 2) && rd_bit then
    let n := (ibi_data_len `min` IBI_DATA_MAX)%nat in
    data ← ibi_fifo_read n;
    let consumed := ((n + 3) / 4 * 4)%nat in
    (if (consumed <? ibi_data_len)%nat then ibi_fifo_drain (ibi_data_len - consumed) else mret ());;
    enqueue_or_fault (i3c_ibi_work_enqueue_target_irq b ibi_addr data)
  else if (ibi_addr =? 2) && negb rd_bit then enqueue_or_fault (i3c_ibi_work_enqueue_hotjoin b)
  else ibi_fifo_drain ibi_data_len.
Definition isr_master_ibis (b : nat) : i3c unit := n ← ibi_status_count; times n (isr_master_ibi b).

Definition isr_secondary (b : nat) (status : Z) : i3c unit :=
  (if has_flag status INTR_DYN_ADDR_ASSGN_STAT then
     da ← dynamic_addr;
     on_events (set_ev_dyn_addr (Z.lor 0x100 da));;
     enqueue_or_fault (i3c_ibi_work_enqueue_target_da_assignment b)
   else mret ());;
  (if has_flag status INTR_RESP_READY_STAT then isr_target_responses b else mret ());;
  if has_flag status INTR_CCC_UPDATED_STAT then
    event ← read_slv_event_ctrl;
    (if has_flag event (Z.lor SLV_EVENT_CTRL_MRL_UPD SLV_EVENT_CTRL_MWL_UPD) then
       v ← read_slv_max_len; on_events (set_slv_max_len v)
     else mret ());;
    write_slv_event_ctrl event;;
    st ← xfer_status;
    if st =? CM_TFR_STS_TARGET_HALT then on_events (set_fault true) else mret ()
  else mret ().

Definition isr_primary (b : nat) (status : Z) : i3c unit :=
  (if has_flag status MASTER_XFER_STAT then
     mask_master_xfer_irqs;;
     on_events (λ e, set_pending (Z.lor (pending e) (Z.land status MASTER_XFER_STAT)) e)
   else mret ());;
  if has_flag status INTR_IBI_THLD_STAT then isr_master_ibis b else mret ().

Definition isr_service (ctx : IsrCtx) : i3c unit :=
  status ← read_intr_status;
  if status =? 0 then mret ()
  else
    b ← get_bus;
    (if ctx_secondary ctx then isr_secondary b status else isr_primary b status);;
    clear_intr_status status.

Definition dispatch_i3c_irq (b : nat) : i3c unit :=
  slot ← reads (λ s, BUS_ISR (glob s) !! b);
  match slot with Some (Some ctx) => isr_service ctx | _ => mret () end.

(** [(self.yield_fn)(ns)]. *)
Definition yield_ns (ns : Z) : i3c unit :=
  writes (set_hw (λ d, set_regs (pause (regs d) ns) d));;
  line ← reads (λ s, irq_line (regs (hw s)));
  if line : bool then b ← get_bus; dispatch_i3c_irq b else mret ().

(** ** Polls, halts, resets *)

Fixpoint poll_loop (read_reg : i3c Z) (condition : Z → bool) (delay_ns : Z) (max_iters : nat) : i3c (option Z) :=
  match max_iters with
  | O => mret None
  | S n =>
      v ← read_reg;
      if condition v then mret (Some v) else yield_ns delay_ns;; poll_loop read_reg condition delay_ns n
  end.
Definition poll_with_timeout (read_reg : i3c Z) (condition : Z → bool) (delay_ns max_iters : Z) : i3c (option Z) :=
  poll_loop read_reg condition delay_ns (Z.to_nat max_iters).
(** A poll whose failure is [Timeout]. *)
Definition poll_or_timeout (read_reg : i3c Z) (condition : Z → bool) (delay_ns : Z) : i3c unit :=
  r ← poll_with_timeout read_reg condition delay_ns I3C_POLL_MAX_ITERS;
  match r with Some _ => mret () | None => raise I3cTimeout end.

Definition ensure_xfer_ready : i3c unit := f ← reads (λ s, xfer_faulted (hw s)); require (negb f) IoError.
Definition set_xfer_faulted (v : bool) : i3c unit := writes (set_hw (λ d, mkAst1060I3c (regs d) (bus d) v)).
Definition mark_xfer_faulted : i3c unit := set_xfer_faulted true.

Definition halt_state (secondary : bool) : Z := if secondary then CM_TFR_STS_TARGET_HALT else CM_TFR_STS_MASTER_HALT.
Definition exit_halt : i3c unit :=
  secondary ← get_cfg is_secondary;
  state ← xfer_status;
  let expected := halt_state secondary in
  if negb (state =? expected) then mret ()
  else resume;; poll_or_timeout xfer_status (λ v, negb (v =? expected)) I3C_CTRL_POLL_DELAY_NS.
Definition enter_halt (by_sw : bool) : i3c unit :=
  secondary ← get_cfg is_secondary;
  (if by_sw then abort else mret ());;
  poll_or_timeout xfer_status (λ v, v =? halt_state secondary) I3C_CTRL_POLL_DELAY_NS.
Definition reset_ctrl (reset : Z) : i3c unit :=
  let reg := Z.land reset RESET_CTRL_ALL in
  if reg =? 0 then mret ()
  else write_reset_ctrl reg;; poll_or_timeout read_reset_ctrl (λ v, v =? 0) I3C_CTRL_POLL_DELAY_NS.

Definition is_ok {A E} (r : result A E) : bool := match r with Ok _ => true | Err _ => false end.
(** Halt, reset of the queues, resume: did all three work? *)
Definition recover_queues (by_sw : bool) (mask : Z) : i3c bool :=
  halt ← attempt (enter_halt by_sw);
  reset ← attempt (reset_ctrl mask);
  exit ← attempt exit_halt;
  mret (is_ok halt && is_ok reset && is_ok exit).
Definition recover_or_fault (by_sw : bool) (mask : Z) : i3c unit :=
  ok ← recover_queues by_sw mask; if ok : bool then mret () else set_xfer_faulted true.

Definition recover_timeout_xfer : i3c unit :=
  recover_or_fault true RESET_CTRL_XFER_QUEUES;;
  clear_intr_status MASTER_XFER_STAT;;
  clear_pending;;
  unmask_master_xfer_irqs.

(** ** Software mode *)

Definition toggle_scl_in (count : nat) : i3c unit :=
  times count (i3cg_reg1_clear_bits I3CG_REG1_SCL_IN_SW_MODE_VAL;; i3cg_reg1_set_bits I3CG_REG1_SCL_IN_SW_MODE_VAL).
Definition gen_internal_stop : i3c unit :=
  i3cg_reg1_clear_bits I3CG_REG1_SCL_IN_SW_MODE_VAL;;
  i3cg_reg1_clear_bits I3CG_REG1_SDA_IN_SW_MODE_VAL;;
  i3cg_reg1_set_bits I3CG_REG1_SCL_IN_SW_MODE_VAL;;
  i3cg_reg1_set_bits I3CG_REG1_SDA_IN_SW_MODE_VAL.
Definition enter_sw_mode : i3c unit :=
  reg ← i3cg_read_reg1;
  let reg := Z.lor reg (Z.lor I3CG_REG1_SCL_IN_SW_MODE_VAL I3CG_REG1_SDA_IN_SW_MODE_VAL) in
  i3cg_reg1_overwrite reg;;
  i3cg_reg1_overwrite (Z.lor reg (Z.lor I3CG_REG1_SCL_IN_SW_MODE_EN I3CG_REG1_SDA_IN_SW_MODE_EN)).
Definition exit_sw_mode : i3c unit :=
  reg ← i3cg_read_reg1;
  i3cg_reg1_overwrite (Z.ldiff reg (Z.lor I3CG_REG1_SCL_IN_SW_MODE_EN I3CG_REG1_SDA_IN_SW_MODE_EN)).

(** [b &= b - 1] clears the lowest set bit: at most eight turns. *)
Fixpoint parity_loop (fuel : nat) (b : Z) (parity : bool) : bool :=
  match fuel with
  | O => parity
  | S fuel => if b =? 0 then parity else parity_loop fuel (Z.land b (b - 1)) (negb parity)
  end.
Definition even_parity (byte : Z) : bool := negb (parity_loop 8 byte false).

(** ** Transfers *)

(** One response, scattered into the command its TID names. *)
Definition process_response (st : list I3cCmd * Z) : i3c (list I3cCmd * Z) :=
  let '(l, r) := st in
  resp ← pop_response;
  let tid := resp_tid resp in
  let n := resp_len resp in
  let err := resp_err resp in
  match l !! tid with
  | None => (if (0 <? n)%nat then rx_fifo_drain n else mret ());; mret (l, -1)
  | Some cmd =>
      let cmd := mkI3cCmd (cmd_lo cmd) (cmd_hi cmd) (tx cmd) (rx cmd) (tx_len cmd) (Z.of_nat n) err in
      let r := if negb (err =? 0) then err else r in
      if (n =? 0)%nat then mret (<[tid := cmd]> l, r)
      else if err =? 0 then
        match rx cmd with
        | Some b =>
            if (n <=? length b)%nat then
              data ← rx_fifo_read n;
              mret (<[tid := mkI3cCmd (cmd_lo cmd) (cmd_hi cmd) (tx cmd) (Some (data ++ drop n b)) (tx_len cmd) (Z.of_nat n) err]> l, r)
            else
              rx_fifo_drain n;;
              mret (<[tid := mkI3cCmd (cmd_lo cmd) (cmd_hi cmd) (tx cmd) (rx cmd) (tx_len cmd) 0 (-1)]> l, -1)
        | None =>
            rx_fifo_drain n;;
            mret (<[tid := mkI3cCmd (cmd_lo cmd) (cmd_hi cmd) (tx cmd) (rx cmd) (tx_len cmd) 0 (-1)]> l, -1)
        end
      else rx_fifo_drain n;; mret (<[tid := cmd]> l, r)
  end.
Fixpoint response_loop (nresp : nat) (st : list I3cCmd * Z) : i3c (list I3cCmd * Z) :=
  match nresp with O => mret st | S n => st ← process_response st; response_loop n st end.
Definition process_responses (xfer : I3cXfer) : i3c I3cXfer :=
  nresp ← resp_buf_level;
  st ← response_loop nresp (cmds xfer, 0);
  (if negb (st.2 =? 0) then recover_or_fault false RESET_CTRL_XFER_QUEUES else mret ());;
  mret (mkI3cXfer st.1 st.2).

(** A stale response and its data. *)
Definition drop_response : i3c unit :=
  resp ← pop_response;
  let n := resp_len resp in
  if (0 <? n)%nat then rx_fifo_drain n else mret ().
Definition write_tx (cmd : I3cCmd) : i3c unit :=
  match tx cmd with
  | Some b =>
      let n := (length b `min` Z.to_nat (tx_len cmd))%nat in
      if (0 <? n)%nat then tx_fifo_write (take n b) else mret ()
  | None => mret ()
  end.
Definition push_words (cmd : I3cCmd) : i3c unit := push_cmd (cmd_hi cmd);; push_cmd (cmd_lo cmd).
Definition start_xfer (xfer : I3cXfer) : i3c I3cXfer :=
  _ ← take_pending;
  nresp ← resp_buf_level;
  times nresp drop_response;;
  unmask_master_xfer_irqs;;
  drv_for (cmds xfer) write_tx;;
  let threshold := (length (cmds xfer) - 1)%nat in
  set_resp_buf_threshold (if (threshold <=? 255)%nat then Z.of_nat threshold else 0);;
  drv_for (cmds xfer) push_words;;
  mret (mkI3cXfer (cmds xfer) (-1)).

(** The transfer the interrupt routine flagged, or none in the time left. *)
Fixpoint wait_loop (polls : nat) (xfer : I3cXfer) : i3c (option I3cXfer) :=
  pend ← take_pending;
  if has_flag pend MASTER_XFER_STAT then
    xfer ← process_responses xfer;
    (if (xret xfer =? 0) && has_flag pend (Z.lor INTR_TRANSFER_ERR_STAT INTR_TRANSFER_ABORT_STAT) then
       recover_or_fault false RESET_CTRL_XFER_QUEUES;; unmask_master_xfer_irqs;; mret (Some (mkI3cXfer (cmds xfer) (-1)))
     else unmask_master_xfer_irqs;; mret (Some xfer))
  else
    match polls with
    | O => mret None
    | S polls => yield_ns 1000;; wait_loop polls xfer
    end.
Definition wait_xfer_complete (xfer : I3cXfer) (timeout_us : Z) : i3c (bool * I3cXfer) :=
  r ← wait_loop (Z.to_nat timeout_us) xfer;
  match r with
  | Some xfer => mret (true, xfer)
  | None => recover_timeout_xfer;; mret (false, xfer)
  end.

(** Start and wait: the transfer, or [None] on a timeout. *)
Definition run_xfer (l : list I3cCmd) : i3c (option I3cXfer) :=
  xfer ← start_xfer (I3cXfer_new l);
  r ← wait_xfer_complete xfer I3C_OP_TIMEOUT_US;
  mret (if r.1 : bool then Some r.2 else None).
End driver.

(** * The AST1060 I3C driver: the hardware interface

    The rest of [hardware.rs]: bring-up, clocks, command codes, address assignment,
    private and legacy transfers, in-band interrupts, the target role; and the traits
    as a type class ([HardwareInterface]) that the driver instantiates. *)
(** ** The traits *)

(** What [ccc.rs] and [controller.rs] call. *)
Class HardwareInterface (D : Type) : Type := {
  hi_init : drv (I3cController D) I3cError unit;
  hi_bus_num : D → nat;
  hi_isr_ctx : D → bool → IsrCtx;
  hi_set_ibi_mdb : Z → drv (I3cController D) I3cError unit;
  hi_reset_ctrl : Z → drv (I3cController D) I3cError unit;
  hi_ibi_enable : Z → drv (I3cController D) I3cError unit;
  hi_ibi_disable : Z → drv (I3cController D) I3cError unit;
  hi_detach_i3c_dev : nat → drv (I3cController D) I3cError unit;
  hi_attach_i3c_dev : nat → Z → drv (I3cController D) I3cError unit;
  hi_attach_i2c_dev : nat → Z → drv (I3cController D) I3cError unit;
  hi_i2c_priv_xfer : nat → list I2cOp → drv (I3cController D) I3cError (result unit I3cError * list I2cOp);
  hi_do_ccc : CccPayload → drv (I3cController D) I3cError CccPayload;
  hi_do_entdaa : nat → drv (I3cController D) I3cError unit;
  hi_priv_xfer : Z → list I3cMsg → drv (I3cController D) I3cError (result unit I3cError * list I3cMsg * list (option (list Z)));
  hi_mark_xfer_faulted : drv (I3cController D) I3cError unit;
  hi_enter_sw_mode : drv (I3cController D) I3cError unit;
  hi_exit_sw_mode : drv (I3cController D) I3cError unit;
  hi_toggle_scl_in : nat → drv (I3cController D) I3cError unit;
  hi_gen_internal_stop : drv (I3cController D) I3cError unit;
  hi_target_ibi_raise_hj : drv (I3cController D) I3cError unit;
  hi_target_pending_read_notify : list Z → I3cIbi → drv (I3cController D) I3cError unit;
}.

(** ** Clock counts *)

(** [u8::try_from(..).unwrap_or(u8::MAX)], and to [u16]. *)
Definition ns_to_cnt_u8 (period ns : Z) : Z :=
  let n := u32_div_ceil ns period in if n <=? u8_MAX then n else u8_MAX.
Definition ns_to_cnt_u16 (period ns : Z) : Z :=
  let n := u32_div_ceil ns period in if n <=? u16_MAX then n else u16_MAX.

Definition calc_i2c_clk (fscl_hz : Z) : Z * Z :=
  let period_ns := Z.max (u32_div_ceil 1000000000 (Z.max fscl_hz 1)) 1 in
  let '(lo_min, hi_min) :=
    if fscl_hz <=? 100000 then
      (I3C_BUS_I2C_STD_TLOW_MIN_NS + I3C_BUS_I2C_STD_TF_MAX_NS, I3C_BUS_I2C_STD_THIGH_MIN_NS + I3C_BUS_I2C_STD_TR_MAX_NS)
    else if fscl_hz <=? 400000 then
      (I3C_BUS_I2C_FM_TLOW_MIN_NS + I3C_BUS_I2C_FM_TF_MAX_NS, I3C_BUS_I2C_FM_THIGH_MIN_NS + I3C_BUS_I2C_FM_TR_MAX_NS)
    else
      (I3C_BUS_I2C_FMP_TLOW_MIN_NS + I3C_BUS_I2C_FMP_TF_MAX_NS, I3C_BUS_I2C_FMP_THIGH_MIN_NS + I3C_BUS_I2C_FMP_TR_MAX_NS) in
  let leftover := u32_saturating_sub period_ns (saturating_add u32_MAX lo_min hi_min) in
  (hi_min + u32_saturating_sub leftover (leftover / 2), lo_min + leftover / 2).

(** The push-pull periods of an I3C clock. *)
Definition pp_periods (i3c_hz : Z) : Z * Z :=
  let total_ns := u32_div_ceil NSEC_PER_SEC (Z.max i3c_hz 1) in
  let hi_ns := Z.min I3C_BUS_THIGH_MAX_NS (u32_saturating_sub total_ns 1) in
  (hi_ns, Z.max (u32_saturating_sub total_ns hi_ns) 1).

(** ** Commands *)

Definition i2c_cmd (pos : nat) (speed : Z) (nops i : nat) (o : I2cOp) : I3cCmd :=
  let n := Z.of_nat (op_len o) in
  let hi := Z.lor (field_prep COMMAND_PORT_ATTR COMMAND_ATTR_XFER_ARG) (field_prep COMMAND_PORT_ARG_DATA_LEN n) in
  let lo := Z.lor (Z.lor (Z.lor (field_prep COMMAND_PORT_TID (Z.of_nat i))
                                (field_prep COMMAND_PORT_DEV_INDEX (Z.of_nat pos)))
                         (field_prep COMMAND_PORT_SPEED speed)) COMMAND_PORT_ROC in
  let lo := match o with OpWrite _ => lo | OpRead _ => Z.lor lo COMMAND_PORT_READ_TRANSFER end in
  let lo := if (i + 1 =? nops)%nat then Z.lor lo COMMAND_PORT_TOC else lo in
  match o with
  | OpWrite b => mkI3cCmd lo hi (Some b) None n 0 0
  | OpRead b => mkI3cCmd lo hi None (Some b) 0 n 0
  end.

Definition priv_cmd (pos n_cmds i : nat) (m : I3cMsg) (b : list Z) : I3cCmd :=
  let n := Z.of_nat (length b) in
  let hi := Z.lor (field_prep COMMAND_PORT_ATTR COMMAND_ATTR_XFER_ARG) (field_prep COMMAND_PORT_ARG_DATA_LEN n) in
  let lo := Z.lor (Z.lor (field_prep COMMAND_PORT_TID (Z.of_nat i))
                         (field_prep COMMAND_PORT_DEV_INDEX (Z.of_nat pos))) COMMAND_PORT_ROC in
  let lo := if is_read m then Z.lor lo COMMAND_PORT_READ_TRANSFER else lo in
  let lo := if (i + 1 =? n_cmds)%nat then Z.lor lo COMMAND_PORT_TOC else lo in
  if is_read m then mkI3cCmd lo hi None (Some b) 0 n 0 else mkI3cCmd lo hi (Some b) None n 0 0.

(** The message after its buffer was taken. *)
Definition taken (m : I3cMsg) (b : list Z) : I3cMsg :=
  mkI3cMsg None (actual_len m) (if is_read m then num_xfer m else Z.of_nat (length b))
    (msg_flags m) (hdr_mode m) (hdr_cmd_mode m).

Definition msg_len_ok (m : I3cMsg) : bool :=
  match msg_buf m with
  | Some b => negb (length b =? 0)%nat && (Z.of_nat (length b) <=? MAX_XFER_DATA_LEN)
  | None => false
  end.

(** [priv_xfer_build_cmds]: all or nothing. *)
Definition priv_xfer_build_cmds (n_cmds : nat) (msgs : list I3cMsg) (pos : nat) : result (list I3cCmd * list I3cMsg) I3cError :=
  if negb (n_cmds =? length msgs)%nat then Err I3cInvalid
  else if (MAX_PRIV_XFER_CMDS <? n_cmds)%nat then Err TooManyMsgs
  else if negb (forallb msg_len_ok msgs) then Err I3cInvalid
  else Ok (imap (λ i m, priv_cmd pos n_cmds i m (default [] (msg_buf m))) msgs,
           (λ m, taken m (default [] (msg_buf m))) <$> msgs).

(** The read lengths of the commands, in their messages. *)
Definition report_len (m : I3cMsg) (c : I3cCmd) : I3cMsg := if is_read m then set_actual_len (rx_len c) m else m.
(** What the caller's buffer of a command holds. *)
Definition cmd_buffer (c : I3cCmd) : option (list Z) := match rx c with Some b => Some b | None => tx c end.

Definition op_result (o : I2cOp) (c : I3cCmd) : I2cOp :=
  match o with OpWrite b => OpWrite b | OpRead b => OpRead (default b (rx c)) end.
Definition short_read (o : I2cOp) (c : I3cCmd) : bool :=
  match o with
  | OpWrite _ => false
  | OpRead b => negb (length b =? 0)%nat && (ret c =? 0) && (rx_len c <? Z.of_nat (length b))
  end.

Definition allowed_for_unknown (i : Z) : bool :=
  bool_decide (i ∈ [I3C_CCC_GETPID; I3C_CCC_GETBCR; I3C_CCC_GETDCR; I3C_CCC_GETMWL; I3C_CCC_GETMRL;
                    I3C_CCC_GETSTATUS; I3C_CCC_GETMXDS; I3C_CCC_SETNEWDA]).

(** May a direct command go to the target at [addr]? *)
Definition target_allowed (a : Attached) (i addr : Z) : bool :=
  match da_state <$> find (λ d, bool_decide (kind d = KindI3c) && (dyn_addr d =? addr)) (devices a) with
  | Some Verified => true
  | Some DaUnknown => allowed_for_unknown i
  | _ => false
  end.

Definition ccc_cmd (i : Z) (defining : option Z) (bcast : bool) (pos : nat) (r : bool) (t rxb : option (list Z)) : I3cCmd :=
  let tl := Z.of_nat (data_len t) in
  let rl := Z.of_nat (data_len rxb) in
  let hi := field_prep COMMAND_PORT_ATTR COMMAND_ATTR_XFER_ARG in
  let lo := match defining with Some _ => COMMAND_PORT_DBP | None => 0 end in
  let hi := match defining with Some db => Z.lor hi (field_prep COMMAND_PORT_ARG_DB db) | None => hi end in
  let hi := Z.lor hi (field_prep COMMAND_PORT_ARG_DATA_LEN (if r then rl else tl)) in
  let lo := Z.lor lo (Z.lor (Z.lor (Z.lor (Z.lor (Z.lor (field_prep COMMAND_PORT_ATTR COMMAND_ATTR_XFER_CMD)
              (field_prep COMMAND_PORT_CMD i)) (field_prep COMMAND_PORT_READ_TRANSFER (if r then 1 else 0)))
              COMMAND_PORT_CP) COMMAND_PORT_ROC) COMMAND_PORT_TOC) in
  let lo := if bcast then lo else Z.lor lo (field_prep COMMAND_PORT_DEV_INDEX (Z.of_nat pos)) in
  let lo := if (i =? I3C_CCC_SETHID) || (i =? I3C_CCC_DEVCTRL)
            then Z.lor lo (field_prep COMMAND_PORT_SPEED (speed_i3c I2cFmAsI3c)) else lo in
  mkI3cCmd lo hi t rxb tl rl 0.

Definition entdaa_cmd (pos : nat) : I3cCmd :=
  mkI3cCmd (Z.lor (Z.lor (Z.lor (Z.lor (Z.lor (field_prep COMMAND_PORT_ATTR COMMAND_ATTR_ADDR_ASSGN_CMD)
              (field_prep COMMAND_PORT_CMD I3C_CCC_ENTDAA)) (field_prep COMMAND_PORT_DEV_COUNT 1))
              (field_prep COMMAND_PORT_DEV_INDEX (Z.of_nat pos))) COMMAND_PORT_ROC) COMMAND_PORT_TOC)
    (field_prep COMMAND_PORT_ATTR COMMAND_ATTR_XFER_ARG) None None 0 0 0.

(** The single slave-data command of the target role. *)
Definition slave_data_cmd (n : Z) (t : Tid) : Z :=
  Z.lor (Z.lor (field_prep COMMAND_PORT_ATTR COMMAND_ATTR_SLAVE_DATA_CMD) (field_prep COMMAND_PORT_ARG_DATA_LEN n))
        (field_prep COMMAND_PORT_TID (tid_code t)).

Section driver.
Context {H : Type} `{I3cHw H}.
Notation i3c := (drv (I3cController (Ast1060I3c H)) I3cError).

(** ** Bring-up *)

Definition i3c_disable (secondary : bool) : i3c unit :=
  en ← controller_enabled;
  if negb en then mret ()
  else
    (if secondary then enter_sw_mode else mret ());;
    disable_controller;;
    if secondary then toggle_scl_in 8;; gen_internal_stop;; exit_sw_mode else mret ().

(** The wait window is a [u32] product. *)
Definition i3c_enable : i3c unit :=
  c ← get_cfg id;
  if is_secondary c then
    write_slv_event_ctrl 0;;
    enter_sw_mode;;
    enable_controller_secondary;;
    wait_cnt ← ibi_free_cycles;
    guarded (wait_cnt * core_period c * 100 <=? u32_MAX) (yield_ns (wait_cnt * core_period c * 100));;
    toggle_scl_in 8;;
    en ← controller_enabled;
    (if en : bool then gen_internal_stop else mret ());;
    exit_sw_mode
  else enable_controller_primary.

Definition set_role (secondary : bool) : i3c unit := set_dev_op_mode (if secondary then 1 else 0).

Definition init_clock : i3c unit :=
  c ← get_cfg id;
  let clk_rate := Z.max (default I3C_MIN_CORE_CLK_SDR (core_clk_hz c)) 1 in
  upd_cfg (set_core_period (u32_div_ceil NSEC_PER_SEC clk_rate));;
  let period := Z.max (u32_div_ceil NSEC_PER_SEC clk_rate) 1 in
  let '(fm_hi_ns, fm_lo_ns) := calc_i2c_clk (i2c_scl_hz c) in
  set_i2c_fm_timing (ns_to_cnt_u16 period fm_hi_ns) (ns_to_cnt_u16 period fm_lo_ns);;
  let fmp_target_hz := if 400000 <? i2c_scl_hz c then i2c_scl_hz c else 1000000 in
  let '(fmp_hi_ns, fmp_lo_ns) := calc_i2c_clk fmp_target_hz in
  set_i2c_fmp_timing (ns_to_cnt_u8 period fmp_hi_ns) (ns_to_cnt_u16 period fmp_lo_ns);;
  let '(od_hi_ns, od_lo_ns) :=
    if negb (i3c_od_scl_hi_period_ns c =? 0) && negb (i3c_od_scl_lo_period_ns c =? 0)
    then (i3c_od_scl_hi_period_ns c, i3c_od_scl_lo_period_ns c) else (fmp_hi_ns, fmp_lo_ns) in
  set_od_timing (ns_to_cnt_u8 period od_hi_ns) (ns_to_cnt_u8 period od_lo_ns);;
  let '(pp_hi_ns, pp_lo_ns) :=
    if negb (i3c_pp_scl_hi_period_ns c =? 0) && negb (i3c_pp_scl_lo_period_ns c =? 0)
    then (i3c_pp_scl_hi_period_ns c, i3c_pp_scl_lo_period_ns c) else pp_periods (i3c_scl_hz c) in
  set_pp_timing (ns_to_cnt_u8 period pp_hi_ns) (ns_to_cnt_u8 period pp_lo_ns);;
  let hold_steps := Z.min (Z.max (u32_div_ceil (sda_tx_hold_ns c) period) SDA_TX_HOLD_MIN) SDA_TX_HOLD_MAX in
  reg ← read_sda_hold;
  write_sda_hold (Z.lor (Z.ldiff reg SDA_TX_HOLD_MASK) (Z.shiftl (Z.land hold_steps 0x7) 16));;
  write_bus_free_timing I3C_BUS_FREE_TIMING_RESET.

Definition init_pid : i3c unit :=
  c ← get_cfg id;
  b ← get_bus;
  set_pid_mfg_id I3C_AST10X0_MIPI_MANUF_ID;;
  rev ← hw_rev_id;
  write_slv_pid_value (Z.lor (Z.lor (as_u32 (Z.shiftl rev 16)) (Z.shiftl (Z.of_nat b) 12)) 0xa0000000);;
  reg ← read_slv_char_ctrl;
  write_slv_char_ctrl (Z.lor (Z.ldiff reg SLV_DCR_MASK) (Z.lor (as_u32 (Z.shiftl (cfg_dcr c) 8)) 0x66)).

(** [init] up to the poll of the queue resets, and after it. *)
Definition init_reset : i3c unit :=
  c ← get_cfg id;
  b ← get_bus;
  set_xfer_faulted true;;
  global_reset_deassert I3C_GLOBAL_RESET_DEASSERT_MASK;;
  i3cg_program_reg1 I3C_DEFAULT_STATIC_ADDR;;
  _ ← i3cg_read_reg1;
  i3cg_write_reg0 0x0;;
  _ ← i3cg_read_reg0;
  core_reset_assert;;
  clock_on;;
  core_reset_deassert;;
  i3c_disable (is_secondary c);;
  events_reset;;
  on_ibi (λ p, ((), i3c_ibi_workq_clear b p));;
  upd_cfg (λ c, match target_config c with Some t => set_target_config (Some (set_tc_addr None t)) c | None => c end);;
  assert_all_queue_resets;;
  poll_or_timeout read_reset_ctrl (λ v, v =? 0) I3C_INIT_POLL_DELAY_NS.
Definition init_program : i3c unit :=
  secondary ← get_cfg is_secondary;
  set_role secondary;;
  init_clock;;
  clear_intr_status I3C_INTR_STATUS_ALL_BITS;;
  (if secondary : bool then enable_target_irqs else enable_master_irqs);;
  upd_cfg (set_sir_allowed_by_sw false);;
  set_ibi_data_threshold I3C_IBI_DATA_THRESHOLD_MAX;;
  set_rx_buf_threshold 0;;
  init_pid;;
  depth ← dat_depth;
  let md := Z.min depth (Z.of_nat MAX_DEVICES_PER_BUS) in
  upd_cfg (set_maxdevs md);;
  upd_cfg (set_free_pos (if md =? 32 then u32_MAX else Z.shiftl 1 md - 1));;
  upd_cfg (set_need_da 0);;
  drv_for (seq 0 (Z.to_nat md)) dat_set_reject;;
  write_mr_reject I3C_INTR_STATUS_ALL_BITS;;
  write_sir_reject I3C_INTR_STATUS_ALL_BITS;;
  set_hot_join_nack true;;
  t ← get_cfg target_config;
  (if secondary : bool then program_secondary_static_addr (default 9 (t ≫= tc_static_addr))
   else program_primary_dynamic_addr 8);;
  i3c_enable;;
  (if negb secondary then enable_ibi_thld_irq else mret ());;
  set_hot_join_nack false;;
  set_xfer_faulted false.
Definition init : i3c unit := init_reset;; init_program.

(** ** The address table *)

Definition detach_i3c_dev (pos : nat) : i3c unit := dat_set_reject pos.
Definition attach_i3c_dev (pos : nat) (addr : Z) : i3c unit :=
  dat_program_addr pos (if even_parity addr then Z.lor addr (Z.shiftl 1 7) else addr).
Definition attach_i2c_dev (pos : nat) (sa : Z) : i3c unit :=
  dat_write_raw pos (Z.lor (Z.lor (Z.lor DEV_ADDR_TABLE_LEGACY_I2C_DEV DEV_ADDR_TABLE_SIR_REJECT) DEV_ADDR_TABLE_MR_REJECT)
                           (field_prep DEV_ADDR_TABLE_STATIC_ADDR sa)).

(** ** Transfers *)

(** A refusal that leaves the caller's buffers as they were. *)
Definition i2c_priv_xfer (pos : nat) (ops : list I2cOp) : i3c (result unit I3cError * list I2cOp) :=
  f ← reads (λ s, xfer_faulted (hw s));
  c ← get_cfg id;
  if f : bool then mret (Err IoError, ops)
  else if is_secondary c then mret (Err Access, ops)
  else if (length ops =? 0)%nat then mret (Ok (), ops)
  else if (MAX_PRIV_XFER_CMDS <? length ops)%nat then mret (Err TooManyMsgs, ops)
  else if negb (forallb (λ o, negb (op_len o =? 0)%nat && (Z.of_nat (op_len o) <=? MAX_XFER_DATA_LEN)) ops)
  then mret (Err I3cInvalid, ops)
  else
    let speed := speed_i2c (if 400000 <? i2c_scl_hz c then Fmp else Fm) in
    r ← run_xfer (imap (i2c_cmd pos speed (length ops)) ops);
    match r with
    | None => mret (Err I3cTimeout, ops)
    | Some x =>
        let out := zip_with op_result ops (cmds x) in
        if negb (xret x =? 0) then mret (Err RespError, out)
        else if existsb id (zip_with short_read ops (cmds x)) then mret (Err RespError, out)
        else mret (Ok (), out)
    end.

(** The status of a finished command code or address assignment. *)
Definition ccc_status (r : Z) (nack : I3cError) : i3c unit :=
  if r =? 0 then mret () else if r =? RESPONSE_ERROR_ADDRESS_NACK then raise nack else raise RespError.

(** A broadcast. *)
Definition do_ccc_broadcast (cc : Ccc) (tg : option (list CccTargetPayload)) : i3c CccPayload :=
  let t := if (0 <? data_len (ccc_data cc))%nat then ccc_data cc else None in
  r ← run_xfer [ccc_cmd (ccc_id cc) None true 0 false t None];
  match r with
  | None => raise I3cTimeout
  | Some x =>
      if xret x =? RESPONSE_ERROR_IBA_NACK then mret (mkCccPayload (Some cc) tg)
      else
        ccc_status (xret x) AddressNack;;
        mret (mkCccPayload (Some (mkCcc (ccc_id cc) (ccc_data cc)
                                    (match ccc_data cc with Some d => length d | None => ccc_num_xfer cc end))) tg)
  end.

(** A direct command to the first target of the payload. *)
Definition do_ccc_direct (cc : Ccc) (tg : option (list CccTargetPayload)) : i3c CccPayload :=
  let defining := match ccc_data cc with Some (db :: _) => Some db | _ => None end in
  match tg with
  | Some (tp :: rest) =>
      a ← get_cfg attached;
      require (target_allowed a (ccc_id cc) (tp_addr tp)) Access;;
      match pos_of_addr a (tp_addr tp) with
      | None => raise I3cInvalid
      | Some pos =>
          let n := data_len (tp_data tp) in
          require (if rnw tp then negb (n =? 0)%nat && (Z.of_nat n <=? MAX_XFER_DATA_LEN)
                   else Z.of_nat n <=? MAX_XFER_DATA_LEN) I3cInvalid;;
          r ← run_xfer [ccc_cmd (ccc_id cc) defining false pos (rnw tp)
                          (if rnw tp then None else tp_data tp) (if rnw tp then tp_data tp else None)];
          match r with
          | None => raise I3cTimeout
          | Some x =>
              let cmd := default I3cCmd_new (head (cmds x)) in
              let actual := Z.to_nat (rx_len cmd) in
              require (negb (rnw tp && (xret x =? 0) && (actual <? n)%nat)) RespError;;
              ccc_status (xret x) AddressNack;;
              let tp := if rnw tp then mkCccTargetPayload (tp_addr tp) true (rx cmd) actual
                        else mkCccTargetPayload (tp_addr tp) false (tp_data tp) n in
              mret (mkCccPayload (Some cc) (Some (tp :: rest)))
          end
      end
  | _ => raise I3cInvalid
  end.

Definition do_ccc (p : CccPayload) : i3c CccPayload :=
  ensure_xfer_ready;;
  secondary ← get_cfg is_secondary;
  require (negb secondary) Access;;
  match ccc p with
  | None => raise I3cInvalid
  | Some cc =>
      require (Z.of_nat (data_len (ccc_data cc)) <=? MAX_XFER_DATA_LEN) I3cInvalid;;
      if ccc_id cc <=? 0x7F then do_ccc_broadcast cc (targets p) else do_ccc_direct cc (targets p)
  end.

Definition do_entdaa (pos : nat) : i3c unit :=
  ensure_xfer_ready;;
  secondary ← get_cfg is_secondary;
  require (negb secondary) Access;;
  r ← run_xfer [entdaa_cmd pos];
  match r with
  | None => raise I3cTimeout
  | Some x => ccc_status (xret x) DaaNack
  end.

Definition priv_xfer (p : Z) (msgs : list I3cMsg) :
    i3c (result unit I3cError * list I3cMsg * list (option (list Z))) :=
  f ← reads (λ s, xfer_faulted (hw s));
  c ← get_cfg id;
  let refuse e := mret (Err e, msgs, msg_buf <$> msgs) in
  if f : bool then refuse IoError
  else if is_secondary c then refuse Access
  else
    match position (λ d, bool_decide (kind d = KindI3c) && bool_decide (pid d = Some p) && bool_decide (da_state d = Verified))
            (devices (attached c)) ≫= pos_of (attached c) with
    | None => refuse NoDatPos
    | Some pos =>
        if (MAX_CMDS <? length msgs)%nat then refuse TooManyMsgs
        else
          match priv_xfer_build_cmds (length msgs) msgs pos with
          | Err e => refuse e
          | Ok (l, msgs') =>
              r ← run_xfer l;
              match r with
              | None => mret (Err I3cTimeout, msgs', cmd_buffer <$> l)
              | Some x =>
                  mret (if xret x =? 0 then Ok () else Err RespError,
                        zip_with report_len msgs' (cmds x), cmd_buffer <$> cmds x)
              end
          end
    end.

(** ** In-band interrupts of a device *)

(** A device the controller may enable interrupts of: its slot and its entry. *)
Definition ibi_device (addr : Z) : i3c (nat * DeviceEntry) :=
  ensure_xfer_ready;;
  c ← get_cfg id;
  require (negb (is_secondary c)) Access;;
  dev_idx ← lift (ok_or (find_dev_idx_by_addr (attached c) addr) NoSuchDev);
  pos ← lift (ok_or (pos_or_own (attached c) dev_idx) NoDatPos);
  dev ← lift (ok_or (devices (attached c) !! dev_idx) NoSuchDev);
  require (bool_decide (kind dev = KindI3c) && bool_decide (da_state dev = Verified)) Access;;
  mret (pos, dev).

Definition ibi_enable (addr : Z) : i3c unit :=
  '(pos, dev) ← ibi_device addr;
  orig_reg ← dat_read pos;
  let reg := Z.ldiff orig_reg DEV_ADDR_TABLE_SIR_REJECT in
  let reg := if has_flag (bcr dev) I3C_BCR_IBI_PAYLOAD_HAS_DATA_BYTE
             then Z.lor reg (Z.lor DEV_ADDR_TABLE_IBI_MDB DEV_ADDR_TABLE_IBI_PEC) else reg in
  dat_write_raw pos reg;;
  orig_sir_reject ← read_sir_reject;
  write_sir_reject (Z.ldiff orig_sir_reject (bit (Z.of_nat pos)));;
  enable_ibi_thld_irq;;
  r ← attempt (ccc_events_set do_ccc (dyn_addr dev) true I3C_CCC_EVT_INTR);
  match r with
  | Ok _ => mret ()
  | Err e =>
      (if ambiguous e then mret () else dat_write_raw pos orig_reg;; write_sir_reject orig_sir_reject);;
      raise e
  end.

Definition ibi_disable (addr : Z) : i3c unit :=
  '(pos, dev) ← ibi_device addr;
  disec_result ← attempt (ccc_events_set do_ccc (dyn_addr dev) false I3C_CCC_EVT_INTR);
  reg ← dat_read pos;
  dat_write_raw pos (Z.ldiff (Z.lor reg DEV_ADDR_TABLE_SIR_REJECT) (Z.lor DEV_ADDR_TABLE_IBI_MDB DEV_ADDR_TABLE_IBI_PEC));;
  sir_reject ← read_sir_reject;
  write_sir_reject (Z.lor sir_reject (bit (Z.of_nat pos)));;
  lift disec_result.

(** ** The target role *)

Definition target_tx_write (b : list Z) : i3c unit :=
  ensure_xfer_ready;;
  secondary ← get_cfg is_secondary;
  require secondary Access;;
  require (Z.of_nat (length b) <=? MAX_XFER_DATA_LEN) I3cInvalid;;
  tx_fifo_write b;;
  push_cmd (slave_data_cmd (Z.of_nat (length b)) TargetRdData).

Definition target_ibi_raise_hj : i3c unit :=
  ensure_xfer_ready;;
  secondary ← get_cfg is_secondary;
  require secondary I3cInvalid;;
  cap ← hj_capable;
  require cap I3cInvalid;;
  valid ← dynamic_addr_valid;
  require (negb valid) Access;;
  raise_hot_join_request.

(** [Completion::wait_for_us]. *)
Fixpoint wait_for_us (done : IsrEvents → bool) (polls : nat) : i3c bool :=
  e ← get_events;
  if done e then mret true
  else match polls with O => mret false | S polls => yield_ns 1000;; wait_for_us done polls end.

Definition target_pending_read_notify (b : list Z) (notifier : I3cIbi) : i3c unit :=
  ensure_xfer_ready;;
  c ← get_cfg id;
  require (is_secondary c) Access;;
  fl ← take_fault;
  (if fl : bool then
     ok ← recover_queues false RESET_CTRL_QUEUES;
     if ok : bool then mret () else set_xfer_faulted true;; raise IoError
   else mret ());;
  reg ← read_slv_event_ctrl;
  require (sir_allowed_by_sw c && has_flag reg SLV_EVENT_CTRL_SIR_EN) Access;;
  m ← lift (ok_or (first_byte notifier) I3cInvalid);
  let p := default [] (payload notifier) in
  require ((Z.of_nat (length b) <=? MAX_XFER_DATA_LEN) && (Z.of_nat (length p) <=? MAX_XFER_DATA_LEN)) I3cInvalid;;
  reg_set_ibi_mdb m;;
  (if negb (length p =? 0)%nat then tx_fifo_write p else mret ());;
  on_events (set_ibi_done false);;
  push_cmd (slave_data_cmd (Z.of_nat (length p)) TargetIbi);;
  set_resp_buf_threshold 0;;
  on_events (set_data_done false);;
  target_tx_write b;;
  raise_sir;;
  sent ← wait_for_us target_ibi_done (Z.to_nat I3C_OP_TIMEOUT_US);
  if negb sent then
    r ← attempt init;
    (if is_ok r then mret () else set_xfer_faulted true);;
    raise IoError
  else
    fetched ← wait_for_us target_data_done (Z.to_nat I3C_OP_TIMEOUT_US);
    if negb fetched then
      i3c_disable (is_secondary c);;
      r ← attempt (reset_ctrl RESET_CTRL_QUEUES);
      (if is_ok r then i3c_enable else set_xfer_faulted true);;
      raise I3cTimeout
    else mret ().

(** ** The driver is a hardware interface *)

#[export] Instance Ast1060I3c_interface : HardwareInterface (Ast1060I3c H) := {
  hi_init := init;
  hi_bus_num := bus;
  hi_isr_ctx d secondary := mkIsrCtx (bus d) secondary;
  hi_set_ibi_mdb := reg_set_ibi_mdb;
  hi_reset_ctrl := reset_ctrl;
  hi_ibi_enable := ibi_enable;
  hi_ibi_disable := ibi_disable;
  hi_detach_i3c_dev := detach_i3c_dev;
  hi_attach_i3c_dev := attach_i3c_dev;
  hi_attach_i2c_dev := attach_i2c_dev;
  hi_i2c_priv_xfer := i2c_priv_xfer;
  hi_do_ccc := do_ccc;
  hi_do_entdaa := do_entdaa;
  hi_priv_xfer := priv_xfer;
  hi_mark_xfer_faulted := mark_xfer_faulted;
  hi_enter_sw_mode := enter_sw_mode;
  hi_exit_sw_mode := exit_sw_mode;
  hi_toggle_scl_in := toggle_scl_in;
  hi_gen_internal_stop := gen_internal_stop;
  hi_target_ibi_raise_hj := target_ibi_raise_hj;
  hi_target_pending_read_notify := target_pending_read_notify;
}.
End driver.
