(* ===== verification/I3cCtl.v ===== *)
(** * The AST1060 I3C driver: command codes and the controller

    [target/ast10x0/peripherals/i3c]: [ccc.rs] and [controller.rs], over any
    [HardwareInterface]. *)

From S2P Require Import Prelude Bytes RegMonad I3cConfig I3cIbi I3cRegs I3cDev.
From stdpp Require Import base tactics option list numbers.
Local Open Scope Z_scope.

(** [u16::to_be_bytes], [from_be_bytes]. *)
Definition u16_to_be (n : Z) : list Z := [Z.shiftr n 8; Z.land n 255].
Definition u16_from_be (l : list Z) : Z := Z.lor (Z.shiftl (nth 0 l 0) 8) (nth 1 l 0).

Inductive CccRstActDefByte := NoReset | PeriphralOnly | ResetWholeTarget | DebugNetworkAdapter | VirtualTargetDetect.
Definition rstact_byte (a : CccRstActDefByte) : Z :=
  match a with NoReset => 0 | PeriphralOnly => 1 | ResetWholeTarget => 2 | DebugNetworkAdapter => 3 | VirtualTargetDetect => 4 end.
Inductive GetStatusDefByte := TgtStat | Precr.
Definition defbyte (d : GetStatusDefByte) : Z := match d with TgtStat => 0x00 | Precr => 0x91 end.
Inductive GetStatusFormat := Fmt1 | Fmt2 (d : GetStatusDefByte).
Inductive GetStatusResp := RespFmt1 (status : Z) | RespFmt2 (kind : GetStatusDefByte) (raw_u16 : Z).

Definition bytes_to_pid (bytes : list Z) : Z := foldl (λ acc b, Z.lor (as_u64 (Z.shiftl acc 8)) b) 0 (take 6 bytes).

(** The optional third byte of SETMRL. *)
Definition mrl_payload (mrl : Z) (ibi_len : option Z) : list Z :=
  u16_to_be mrl ++ match ibi_len with Some n => [n] | None => [] end.
Definition set_mrl_ibi (m : Z) (ibi_len : option Z) (d : DeviceEntry) : DeviceEntry :=
  let d := set_mrl m d in match ibi_len with Some n => set_max_ibi n d | None => d end.

(** The IBI state after an ENEC, and after a DISEC. *)
Definition ibi_after_enec (r : result unit I3cError) (s : IbiState) : IbiState :=
  match r with Ok _ => IbiEnabled | Err e => if ambiguous e then IbiUnknown else s end.
Definition ibi_after_disec (r : result unit I3cError) (s : IbiState) : IbiState :=
  match r with Ok _ => IbiDisabled | Err (I3cTimeout | RespError | AddressNack) => IbiUnknown | Err _ => s end.
Definition upd_ibi (f : IbiState → IbiState) (d : DeviceEntry) : DeviceEntry := set_ibi_state (f (ibi_state d)) d.

(** ** CRC-8 of an interrupt's payload *)

Definition crc8_shift (x : Z) : Z :=
  if has_flag x 0x80 then Z.lxor (as_u8 (Z.shiftl x 1)) 0x07 else as_u8 (Z.shiftl x 1).
Definition crc8_ccitt (crc : Z) (data : list Z) : Z :=
  foldl (λ c b, Nat.iter 8 crc8_shift (Z.lxor c b)) crc data.

Section controller.
Context {D : Type} `{HardwareInterface D}.
Notation ctl := (drv (I3cController D) I3cError).

(** ** Command codes ([ccc.rs]) *)

(** [if let Some(idx) = find_dev_idx_by_addr(da)]. *)
Definition upd_dev_at (da : Z) (f : DeviceEntry → DeviceEntry) : ctl unit :=
  upd_cfg (λ c, match find_dev_idx_by_addr (attached c) da with Some i => upd_dev i f c | None => c end).
Definition upd_all_i3c (f : DeviceEntry → DeviceEntry) : ctl unit :=
  upd_cfg (λ c, set_attached (set_devices ((λ d, if bool_decide (kind d = KindI3c) then f d else d) <$> devices (attached c))
                                          (attached c)) c).

(** The data of the first target of an answered payload. *)
Definition answer (p : CccPayload) : list Z :=
  match targets p with Some (tp :: _) => default [] (tp_data tp) | _ => [] end.

Definition ccc_direct_write (i da : Z) (data : list Z) : ctl unit :=
  require (negb (da =? 0)) (CccError CccInvalidParam);;
  mapping_err map_ccc_err (hi_do_ccc (direct i None da false data));; mret ().
Definition ccc_direct_read (i da : Z) (n : nat) : ctl (list Z) :=
  require (negb (da =? 0)) (CccError CccInvalidParam);;
  p ← mapping_err map_ccc_err (hi_do_ccc (direct i None da true (replicate n 0))); mret (answer p).

Definition ccc_events_all_set (enable : bool) (events : Z) : ctl unit :=
  require (negb (has_flag events I3C_CCC_EVT_INTR)) Access;;
  mapping_err map_ccc_err (hi_do_ccc (broadcast (if enable then ccc_enec true else ccc_disec true) (Some [events])));; mret ().
Definition ccc_rstact_all (action : CccRstActDefByte) : ctl unit :=
  mapping_err map_ccc_err (hi_do_ccc (broadcast (ccc_rstact true) (Some [rstact_byte action])));; mret ().

Definition ccc_getbcr (da : Z) : ctl Z := b ← ccc_direct_read I3C_CCC_GETBCR da 1; mret (nth 0 b 0).
Definition ccc_getdcr (da : Z) : ctl Z := b ← ccc_direct_read I3C_CCC_GETDCR da 1; mret (nth 0 b 0).

Definition ccc_setnewda_bus_only (curr_da new_da : Z) : ctl unit :=
  require (negb ((curr_da =? 0) || (new_da =? 0) || (I3C_BROADCAST_ADDR <=? new_da))) (CccError CccInvalidParam);;
  mapping_err map_ccc_err (hi_do_ccc (direct I3C_CCC_SETNEWDA None curr_da false [as_u8 (Z.shiftl (Z.land new_da 0x7F) 1)]));;
  mret ().

Definition mark_setnewda_unknown (dev_idx : nat) (new_da : Z) : ctl unit :=
  upd_cfg (λ c, upd_dev dev_idx (set_ibi_state IbiUnknown) (mark_da_unknown dev_idx (Some new_da) c)).

(** The move made on the bus, in the table and in the books; the last step a failure
    of which faults the transfers. *)
Definition setnewda_commit (dev_idx pos : nat) (curr_da new_da : Z) : ctl unit :=
  r ← attempt (hi_attach_i3c_dev pos new_da);
  if negb (is_ok r) then
    mark_setnewda_unknown dev_idx new_da;; hi_mark_xfer_faulted;; raise (CccError CccInvalid)
  else
    moved ← get_cfg (reassign_da curr_da new_da);
    if is_ok moved.1 then upd_cfg (λ _, moved.2)
    else mark_setnewda_unknown dev_idx new_da;; hi_mark_xfer_faulted;; raise (CccError CccInvalid).

Definition ccc_setnewda (curr_da new_da : Z) : ctl unit :=
  c ← get_cfg id;
  dev_idx ← lift (ok_or (find_dev_idx_by_addr (attached c) curr_da) (CccError CccNotFound));
  dev ← lift (ok_or (devices (attached c) !! dev_idx) (CccError CccNotFound));
  require (bool_decide (kind dev = KindI3c) && bool_decide (da_state dev = Verified)) Access;;
  pos ← lift (ok_or (pos_of (attached c) dev_idx) (CccError CccNotFound));
  let ibi_was_enabled := bool_decide (ibi_state dev = IbiEnabled) in
  require ((new_da =? curr_da) || is_free (addrbook c) new_da) (CccError CccNoFreeSlot);;
  r ← attempt (ccc_setnewda_bus_only curr_da new_da);
  match r with
  | Err e => (if ambiguous e then mark_setnewda_unknown dev_idx new_da else mret ());; raise e
  | Ok _ =>
      setnewda_commit dev_idx pos curr_da new_da;;
      if ibi_was_enabled then
        r ← attempt (hi_ibi_enable new_da);
        upd_dev_at new_da (upd_ibi (λ _, ibi_after_enec r IbiDisabled));;
        lift (map_err map_ccc_err r)
      else mret ()
  end.

Definition ccc_setmwl (da mwl : Z) : ctl unit :=
  ccc_direct_write I3C_CCC_SETMWL da (u16_to_be mwl);; upd_dev_at da (set_mwl mwl).
Definition ccc_setmrl (da mrl : Z) (ibi_len : option Z) : ctl unit :=
  ccc_direct_write I3C_CCC_SETMRL da (mrl_payload mrl ibi_len);; upd_dev_at da (set_mrl_ibi mrl ibi_len).
Definition ccc_setmwl_all (mwl : Z) : ctl unit :=
  mapping_err map_ccc_err (hi_do_ccc (broadcast I3C_CCC_SETMWL_BC (Some (u16_to_be mwl))));; upd_all_i3c (set_mwl mwl).
Definition ccc_setmrl_all (mrl : Z) (ibi_len : option Z) : ctl unit :=
  mapping_err map_ccc_err (hi_do_ccc (broadcast I3C_CCC_SETMRL_BC (Some (mrl_payload mrl ibi_len))));;
  upd_all_i3c (set_mrl_ibi mrl ibi_len).
Definition ccc_getmwl (da : Z) : ctl Z :=
  b ← ccc_direct_read I3C_CCC_GETMWL da 2;
  let mwl := u16_from_be b in
  upd_dev_at da (set_mwl mwl);; mret mwl.
Definition ccc_getmrl (da : Z) : ctl (Z * option Z) :=
  a ← get_cfg attached;
  let has_ibi_byte := match find_dev_idx_by_addr a da ≫= (λ i, devices a !! i) with
                      | Some d => has_flag (bcr d) I3C_BCR_IBI_PAYLOAD_HAS_DATA_BYTE | None => false end in
  b ← ccc_direct_read I3C_CCC_GETMRL da (if has_ibi_byte then 3 else 2);
  let mrl := u16_from_be b in
  let ibi_len := if has_ibi_byte then Some (nth 2 b 0) else None in
  upd_dev_at da (set_mrl_ibi mrl ibi_len);; mret (mrl, ibi_len).
Definition ccc_getmxds (da : Z) : ctl (Z * Z) :=
  b ← ccc_direct_read I3C_CCC_GETMXDS da 2;
  upd_dev_at da (λ d, set_maxrd (nth 1 b 0) (set_maxwr (nth 0 b 0) d));; mret (nth 0 b 0, nth 1 b 0).

Definition ccc_getpid (da : Z) : ctl Z :=
  p ← mapping_err map_ccc_err (hi_do_ccc (direct I3C_CCC_GETPID None da true (replicate 6 0)));
  mret (bytes_to_pid (answer p)).
Definition ccc_getstatus (da : Z) (fmt : GetStatusFormat) : ctl GetStatusResp :=
  let data := match fmt with Fmt1 => None | Fmt2 k => Some [defbyte k] end in
  p ← mapping_err map_ccc_err (hi_do_ccc (direct I3C_CCC_GETSTATUS data da true (replicate 2 0)));
  let v := u16_from_be (answer p) in
  mret match fmt with Fmt1 => RespFmt1 v | Fmt2 k => RespFmt2 k v end.
Definition ccc_getstatus_fmt1 (da : Z) : ctl Z :=
  r ← ccc_getstatus da Fmt1;
  match r with RespFmt1 s => mret s | RespFmt2 _ _ => raise (CccError CccInvalid) end.

Definition ccc_rstdaa_all : ctl unit :=
  r ← attempt (mapping_err map_ccc_err (hi_do_ccc (broadcast I3C_CCC_RSTDAA None)));
  match r with
  | Ok _ => upd_cfg commit_rstdaa
  | Err e => (if ambiguous e then upd_cfg mark_rstdaa_unknown else mret ());; raise e
  end.

(** ** Lifecycle ([controller.rs]) *)

Definition start : ctl unit :=
  c ← get_cfg id;
  lift (validate_clock c);;
  require (match target_config c ≫= tc_static_addr with
           | Some a => negb ((I3C_BROADCAST_ADDR <=? a) || is_reserved (addrbook c) a) | None => true end) InvalidArgs;;
  d ← reads hw;
  let b := hi_bus_num d in
  claim ← reads (λ s, register_i3c_irq_handler b (hi_isr_ctx d (is_secondary c)) (glob s));
  if claim.1 : bool then
    writes (set_glob (λ _, claim.2));;
    r ← attempt hi_init;
    match r with
    | Ok _ => mret ()
    | Err e => writes (set_glob (unregister_i3c_irq_handler b));; raise e
    end
  else raise I3cBusy.

Definition ensure_primary : ctl unit := secondary ← get_cfg is_secondary; require (negb secondary) Access.

(** ** Devices *)

(** Both kinds of device are entered alike: the table, its index, the address. *)
Definition attach_entry (dev : DeviceEntry) (slot : nat) (addr : Z) : ctl unit :=
  a ← get_cfg attached;
  match attach dev a with
  | Err _ => hi_detach_i3c_dev slot;; raise NoFreeSlot
  | Ok (idx, a) =>
      upd_cfg (set_attached a);;
      if negb (idx <=? 255)%nat then
        upd_cfg (λ c, set_attached (detach idx (attached c)) c);; hi_detach_i3c_dev slot;; raise InvalidArgs
      else
        let '(ok, a) := map_pos slot idx a in
        if (ok : bool) then upd_cfg (set_attached a);; upd_cfg (set_book (mark_use addr true))
        else upd_cfg (λ c, set_attached (detach idx (attached c)) c);; hi_detach_i3c_dev slot;; raise NoDatPos
  end.

Definition slot_usable (c : I3cConfig) (slot : nat) : bool :=
  (slot <? MAX_DEVICES_PER_BUS)%nat && (Z.of_nat slot <? maxdevs c).
Definition slot_taken (a : Attached) (slot : nat) : bool := bool_decide (is_Some (mjoin (by_pos a !! slot))).
Definition addr_attached (a : Attached) (addr : Z) : bool := existsb (λ d, dyn_addr d =? addr) (devices a).
Definition pid_attached (a : Attached) (p : Z) : bool := existsb (λ d, bool_decide (pid d = Some p)) (devices a).

Definition ctl_attach_i3c_dev (p desired slot : Z) : ctl unit :=
  ensure_primary;;
  c ← get_cfg id;
  let n := Z.to_nat slot in
  require (negb ((desired =? 0) || (I3C_BROADCAST_ADDR <=? desired))) InvalidArgs;;
  require (p <? Z.shiftl 1 48) InvalidArgs;;
  require (slot_usable c n) InvalidArgs;;
  require (negb (slot_taken (attached c) n)) DevAlreadyAttached;;
  require (negb (is_reserved (addrbook c) desired)) InvalidArgs;;
  require (is_free (addrbook c) desired) AddrInUse;;
  require (negb (addr_attached (attached c) desired)) AddrInUse;;
  require (negb (pid_attached (attached c) p)) DevAlreadyAttached;;
  mapping_err (λ _, AddrInUse) (hi_attach_i3c_dev n desired);;
  attach_entry (set_dev_pos (Some n) (new_i3c p desired)) n desired.

Definition ctl_attach_i2c_dev (sa slot : Z) : ctl unit :=
  ensure_primary;;
  c ← get_cfg id;
  let n := Z.to_nat slot in
  require (negb ((sa =? 0) || (I3C_BROADCAST_ADDR <=? sa))) InvalidArgs;;
  require (slot_usable c n) InvalidArgs;;
  require (negb (slot_taken (attached c) n)) DevAlreadyAttached;;
  require (negb (i2c_scl_hz c =? 0)) InvalidParam;;
  require (is_free (addrbook c) sa) (if is_reserved (addrbook c) sa then InvalidArgs else AddrInUse);;
  require (negb (addr_attached (attached c) sa)) AddrInUse;;
  hi_attach_i2c_dev n sa;;
  attach_entry (set_dev_pos (Some n) (new_i2c sa)) n sa.

Definition ctl_detach_i3c_dev (pos : nat) : ctl unit :=
  ensure_primary;;
  c ← get_cfg id;
  if negb (slot_usable c pos) then mret ()
  else
    let dev := mjoin (by_pos (attached c) !! pos) ≫= (λ i, devices (attached c) !! i) in
    require (negb (bool_decide (da_state <$> dev = Some DaUnknown))) I3cBusy;;
    (match dev with
     | Some d => if negb (dyn_addr d =? 0) then upd_cfg (set_book (mark_use (dyn_addr d) false)) else mret ()
     | None => mret () end);;
    upd_cfg (λ c, set_attached (detach_by_pos pos (attached c)) c);;
    hi_detach_i3c_dev pos.

Definition ctl_detach_i3c_dev_by_idx (dev_idx : nat) : ctl unit :=
  ensure_primary;;
  c ← get_cfg id;
  match devices (attached c) !! dev_idx with
  | None => mret ()
  | Some d =>
      require (negb (bool_decide (da_state d = DaUnknown))) I3cBusy;;
      (if negb (dyn_addr d =? 0) then upd_cfg (set_book (mark_use (dyn_addr d) false)) else mret ());;
      (match dev_pos d with Some pos => hi_detach_i3c_dev pos | None => mret () end);;
      upd_cfg (λ c, set_attached (detach dev_idx (attached c)) c)
  end.

(** ** Legacy I2C *)

(** A refusal leaves the caller's buffers as they were. *)
Definition i2c_xfer (sa : Z) (ops : list I2cOp) : ctl (result unit I3cError * list I2cOp) :=
  c ← get_cfg id;
  if is_secondary c then mret (Err Access, ops)
  else match pos_of_static_addr (attached c) sa with
       | None => mret (Err NoSuchDev, ops)
       | Some pos => hi_i2c_priv_xfer pos ops
       end.
Definition i2c_write (sa : Z) (data : list Z) : ctl (result unit I3cError * list I2cOp) := i2c_xfer sa [OpWrite data].
Definition i2c_read (sa : Z) (out : list Z) : ctl (result unit I3cError * list I2cOp) := i2c_xfer sa [OpRead out].
Definition i2c_write_read (sa : Z) (data out : list Z) : ctl (result unit I3cError * list I2cOp) :=
  i2c_xfer sa [OpWrite data; OpRead out].

(** [embedded_hal::i2c::I2c::transaction]. *)
Definition transaction (sa : Z) (ops : list I2cOp) : ctl (result unit I3cError * list I2cOp) :=
  c ← get_cfg id;
  if is_secondary c then mret (Err Access, ops)
  else match pos_of_static_addr (attached c) sa with
       | None => mret (Err NoSuchDev, ops)
       | Some pos =>
           if (length ops =? 0)%nat then mret (Ok (), ops)
           else if (MAX_PRIV_XFER_CMDS <? length ops)%nat then mret (Err TooManyMsgs, ops)
           else if negb (forallb (λ o, negb (op_len o =? 0)%nat && (Z.of_nat (op_len o) <=? MAX_XFER_DATA_LEN)) ops)
           then mret (Err InvalidArgs, ops)
           else hi_i2c_priv_xfer pos ops
       end.

(** ** Recovery *)

Definition recover_bus (scl_toggles : nat) : ctl unit :=
  ensure_primary;; hi_enter_sw_mode;; hi_toggle_scl_in scl_toggles;; hi_gen_internal_stop;; hi_exit_sw_mode.
Definition recover_bus_full (reset_mask : Z) : ctl unit :=
  recover_bus 8;;
  r ← attempt (hi_reset_ctrl reset_mask);
  (if is_ok r then mret () else hi_mark_xfer_faulted);;
  lift r.

(** ** Accessors and in-band interrupts *)

Definition alloc_dynamic_address_from (start_addr : Z) : ctl (option Z) :=
  c ← get_cfg id; mret (if is_secondary c then None else alloc_from (addrbook c) start_addr).
Definition target_dynamic_address : ctl (option Z) :=
  s ← reads id;
  let addr := match dyn_addr_of (isr_events (hi_bus_num (hw s)) (glob s)) with
              | Some a => Some a | None => target_config (config s) ≫= tc_addr end in
  mret (match addr with
        | Some a => if negb (a =? 0) && negb (is_reserved (addrbook (config s)) a) then Some a else None
        | None => None end).
Definition target_max_lengths : ctl (option (Z * Z)) := reads (λ s, max_len (isr_events (hi_bus_num (hw s)) (glob s))).

Definition enable_ibi (addr m : Z) : ctl unit :=
  ensure_primary;;
  hi_set_ibi_mdb m;;
  r ← attempt (hi_ibi_enable addr);
  upd_dev_at addr (upd_ibi (ibi_after_enec r));;
  lift r.
Definition disable_ibi (addr : Z) : ctl unit :=
  ensure_primary;;
  r ← attempt (hi_ibi_disable addr);
  upd_dev_at addr (upd_ibi (ibi_after_disec r));;
  lift r.

Definition reattach (i : nat) : ctl unit :=
  c ← get_cfg id;
  match devices (attached c) !! i with
  | None => mret ()
  | Some dev =>
      match dev_pos dev with
      | None => mret ()
      | Some pos =>
          r ← attempt (match kind dev with
                       | KindI3c => hi_attach_i3c_dev pos (dyn_addr dev)
                       | KindI2c => hi_attach_i2c_dev pos (static_addr dev) end);
          (if is_ok r then mret () else hi_mark_xfer_faulted);;
          lift r
      end
  end.
Definition reinit : ctl unit :=
  hi_init;;
  upd_cfg (λ c, set_attached (set_devices (set_ibi_state IbiDisabled <$> devices (attached c)) (attached c)) c);;
  n ← get_cfg (λ c, length (devices (attached c)));
  drv_for (seq 0 n) reattach.

(** ** Private transfers *)

Definition priv_read (p : Z) (out : list Z) : ctl (result Z I3cError * list Z) :=
  c ← get_cfg id;
  if is_secondary c then mret (Err Access, out)
  else if u32_MAX <? Z.of_nat (length out) then mret (Err InvalidArgs, out)
  else
    r ← hi_priv_xfer p [mkI3cMsg (Some out) (Z.of_nat (length out)) 0 (Z.lor I3C_MSG_READ I3C_MSG_STOP) 0 0];
    let '(res, msgs, bufs) := r in
    mret (match res with Ok _ => Ok (default 0 (actual_len <$> head msgs)) | Err e => Err e end,
          default out (mjoin (head bufs))).
Definition priv_write (p : Z) (data : list Z) : ctl unit :=
  ensure_primary;;
  require (Z.of_nat (length data) <=? u32_MAX) InvalidArgs;;
  r ← hi_priv_xfer p [mkI3cMsg (Some data) (Z.of_nat (length data)) 0 (Z.lor I3C_MSG_WRITE I3C_MSG_STOP) 0 0];
  lift r.1.1.
Definition target_raise_hot_join : ctl unit := hi_target_ibi_raise_hj.

(** ** Address assignment *)

(** DCR is optional: an address NACK reads as zero. *)
Definition getdcr_or_zero (da : Z) : ctl Z :=
  r ← attempt (ccc_getdcr da);
  match r with Ok v => mret v | Err AddressNack => mret 0 | Err e => raise e end.

Definition assign_dynamic_address (addr : Z) : ctl Z :=
  ensure_primary;;
  a ← get_cfg attached;
  slot ← lift (ok_or (pos_of_addr a addr) AddrInUse);
  dev_idx ← lift (ok_or (find_dev_idx_by_addr a addr) I3cOther);
  let already_claimed := match devices a !! dev_idx with Some d => bool_decide (da_state d ≠ Unassigned) | None => false end in
  (if already_claimed then mret ()
   else
     r ← attempt (hi_do_entdaa slot);
     match r with
     | Ok _ => upd_cfg (mark_da_unknown dev_idx None)
     | Err e => (if ambiguous e then upd_cfg (mark_da_unknown dev_idx None) else mret ());; raise e
     end);;
  p ← ccc_getpid addr;
  old ← get_cfg (λ c, devices (attached c) !! dev_idx);
  old ← lift (ok_or old I3cOther);
  (match pid old with
   | Some op => if p =? op then mret () else upd_cfg (upd_dev dev_idx (set_da_state DaUnknown));; raise I3cOther
   | None => mret ()
   end);;
  b ← ccc_getbcr addr;
  d ← getdcr_or_zero addr;
  upd_cfg (upd_dev dev_idx (λ e, set_da_state Verified (set_dcr d (set_bcr b (set_pid (Some p) e)))));;
  dev ← get_cfg (λ c, devices (attached c) !! dev_idx);
  dev ← lift (ok_or dev I3cOther);
  r ← attempt (hi_ibi_enable (dyn_addr dev));
  upd_cfg (upd_dev dev_idx (upd_ibi (ibi_after_enec r)));;
  lift r;;
  mret (dyn_addr dev).

(** The slots that need a verified address. *)
Definition needs_da (d : DeviceEntry) : bool :=
  bool_decide (kind d = KindI3c) && bool_decide (is_Some (pid d)) && bool_decide (da_state d = Unassigned).
Definition daa_need (l : list DeviceEntry) : Z :=
  foldl (λ need d, match dev_pos d with
                   | Some p => if needs_da d then Z.lor need (Z.shiftl 1 (Z.of_nat p)) else need | None => need end) 0 l.

(** The state of [idx], when there is such an entry. *)
Definition set_state_of (idx : option nat) (st : DaState) : ctl unit :=
  upd_cfg (λ c, match idx with Some i => upd_dev i (set_da_state st) c | None => c end).
Definition mark_unknown_of (idx : option nat) (candidate : option Z) : ctl unit :=
  upd_cfg (λ c, match idx with Some i => mark_da_unknown i candidate c | None => c end).
Definition verify_entry (idx : nat) (b d : Z) : ctl unit :=
  upd_cfg (upd_dev idx (λ e, set_da_state Verified (set_dcr d (set_bcr b e)))).

(** The winner of the assignment for slot [pos] is the entry [idx]; [addr] is what
    it latched.  The new [need]. *)
Definition daa_known (pos idx : nat) (provisional : option nat) (addr need : Z) : ctl Z :=
  expected ← get_cfg (λ c, match devices (attached c) !! idx with Some d => desired_da d | None => addr end);
  if expected =? addr then
    b ← ccc_getbcr addr;
    d ← getdcr_or_zero addr;
    verify_entry idx b d;;
    mret (Z.ldiff need (Z.shiftl 1 (Z.of_nat pos)))
  else
    r ← attempt (ccc_setnewda_bus_only addr expected);
    match r with
    | Err e =>
        if negb (ambiguous e) then raise e
        else
          set_state_of (Some idx) DaUnknown;;
          b ← ccc_getbcr expected;
          d ← getdcr_or_zero expected;
          set_state_of provisional Unassigned;;
          verify_entry idx b d;;
          own ← get_cfg (λ c, pos_or_own (attached c) idx);
          mret (match own with Some p => Z.ldiff need (Z.shiftl 1 (Z.of_nat p)) | None => need end)
    | Ok _ =>
        set_state_of provisional Unassigned;;
        set_state_of (Some idx) DaUnknown;;
        b ← ccc_getbcr expected;
        d ← getdcr_or_zero expected;
        verify_entry idx b d;;
        own ← get_cfg (λ c, pos_or_own (attached c) idx);
        mret (match own with Some p => Z.ldiff need (Z.shiftl 1 (Z.of_nat p)) | None => need end)
    end.

(** An unsolicited winner is parked on a fresh address. *)
Definition daa_park (provisional : option nat) (addr : Z) : ctl unit :=
  b ← get_cfg addrbook;
  park ← lift (ok_or (alloc_from b 8) AddrExhausted);
  upd_cfg (set_book (mark_use park true));;
  r ← attempt (ccc_setnewda_bus_only addr park);
  match r with
  | Ok _ => set_state_of provisional Unassigned
  | Err e =>
      (if ambiguous e then mark_unknown_of provisional (Some park) else upd_cfg (set_book (mark_use park false)));;
      raise e
  end.

(** One turn of the walk on a slot that needs an address: [None] on the NACK that
    ends it, else the new [need], whether the slot is left, and how many devices were
    verified. *)
Definition daa_turn (pos : nat) (need : Z) : ctl (option (Z * bool * Z)) :=
  a ← get_cfg attached;
  match mjoin (by_pos a !! pos) ≫= (λ i, devices a !! i) with
  | None => mret (Some (Z.ldiff need (Z.shiftl 1 (Z.of_nat pos)), true, 0))
  | Some owner =>
      let addr := desired_da owner in
      let provisional := mjoin (by_pos a !! pos) in
      r ← attempt (hi_do_entdaa pos);
      match r with
      | Err DaaNack => mret None
      | Err e => (if ambiguous e then mark_unknown_of provisional None else mret ());; raise e
      | Ok _ =>
          mark_unknown_of provisional None;;
          r ← attempt (ccc_getpid addr);
          match r with
          | Err e => set_state_of provisional DaUnknown;; raise e
          | Ok p =>
              owner ← get_cfg (λ c, position (λ d, bool_decide (pid d = Some p)) (devices (attached c)));
              match owner with
              | Some idx => need ← daa_known pos idx provisional addr need; mret (Some (need, true, 1))
              | None => daa_park provisional addr;; mret (Some (need, false, 0))
              end
          end
      end
  end.

(** [while need != 0 && budget != 0]: what is left of [need], the devices verified,
    and whether a NACK ended the walk. *)
Fixpoint daa_loop (budget : nat) (ndevs pos : nat) (need verified : Z) : ctl (Z * Z * bool) :=
  match budget with
  | O => mret (need, verified, false)
  | S budget =>
      if need =? 0 then mret (need, verified, false)
      else if negb (Z.testbit need (Z.of_nat pos)) then daa_loop budget ndevs ((pos + 1) mod ndevs) need verified
      else
        r ← daa_turn pos need;
        match r with
        | None => mret (need, verified, true)
        | Some (need, advance, n) =>
            daa_loop budget ndevs (if advance : bool then (pos + 1) mod ndevs else pos)%nat need (verified + n)
        end
  end.

Definition bus_daa : ctl Z :=
  ensure_primary;;
  a ← get_cfg attached;
  let ndevs := length (by_pos a) in
  r ← daa_loop (8 * ndevs) ndevs 0 (daa_need (devices a)) 0;
  let '(need, verified, normal_nack) := r in
  if need =? 0 then mret verified else if normal_nack : bool then raise DaaNack else raise AddrExhausted.

Definition acknowledge_ibi (addr : Z) : ctl unit :=
  ensure_primary;;
  a ← get_cfg attached;
  dev_idx ← lift (ok_or (find_dev_idx_by_addr a addr) I3cOther);
  dev ← lift (ok_or (devices a !! dev_idx) I3cOther);
  require (bool_decide (is_Some (pid dev)) && bool_decide (da_state dev = Verified)) I3cOther.
Definition handle_hot_join : ctl unit := ensure_primary.
Definition set_bus_speed : ctl unit := ensure_primary.
Definition request_mastership : ctl unit := raise Access.

(** ** The target role *)

Definition target_init (own_addr : Z) : ctl unit :=
  upd_cfg (λ c,
    match target_config c with
    | Some t => match tc_addr t with None => set_target_config (Some (set_tc_addr (Some own_addr) t)) c | Some _ => c end
    | None => set_target_config (Some (set_tc_addr (Some own_addr) (I3cTargetConfig_new 0 (Some own_addr) 0xae))) c
    end).
Definition target_on_address_match (addr : Z) : ctl bool :=
  a ← target_dynamic_address; mret (bool_decide (a = Some addr)).
Definition target_on_dynamic_address_assigned : ctl unit :=
  da ← reads (λ s, dyn_addr_of (isr_events (hi_bus_num (hw s)) (glob s)));
  match da with
  | None => mret ()
  | Some da =>
      upd_cfg (λ c, match target_config c with Some t => set_target_config (Some (set_tc_addr (Some da) t)) c | None => c end);;
      upd_cfg (set_sir_allowed_by_sw true)
  end.
Definition target_wants_ibi : bool := true.
Definition target_get_ibi_payload (buffer : list Z) : ctl nat :=
  t ← get_cfg target_config;
  match t with
  | None => mret 0%nat
  | Some t =>
      match tc_addr t with
      | None => mret 0%nat
      | Some da =>
          let addr_rnw := Z.lor (as_u8 (Z.shiftl da 1)) 0x1 in
          let crc := crc8_ccitt (crc8_ccitt 0 [addr_rnw]) [mdb t] in
          hi_target_pending_read_notify buffer (mkI3cIbi TargetIntr (Some [mdb t; crc]));;
          mret (length buffer + 2)%nat
      end
  end.
End controller.
