(* ===== verification/I3cBook.v ===== *)
(** * I3C addresses and positions

    The address book as a set of addresses, the table of attached devices as a
    one-to-one map of positions, and the invariant of a configuration: no two
    devices share an address, a position or an identifier, every device's address
    is in use, none is reserved.  Every operation of [config.rs] keeps it. *)

From S2P Require Import Prelude Bytes I3cConfig.
From stdpp Require Import base tactics option list numbers.
Local Open Scope Z_scope.

(** ** Bitmaps *)

Definition addr_ok (a : Z) : Prop := 0 ≤ a < 128.

Lemma bit_get_testbit bits a : bit_get bits a = Z.testbit (nth (word_of a) bits 0) (Z.land a 31).
Proof.
  unfold bit_get.
  set (w := nth _ _ _). set (i := Z.land a 31).
  change 1 with (Z.ones 1). rewrite Z.land_ones by lia. change (2 ^ 1) with 2.
  rewrite <- Z.bit0_mod, Z.shiftr_spec by lia. replace (0 + i) with i by lia.
  by destruct (Z.testbit w i).
Qed.

Lemma word_of_div a : addr_ok a → word_of a = Z.to_nat (a / 32) ∧ Z.land a 31 = a mod 32.
Proof.
  intros [H0 H1]. unfold word_of. change 31 with (Z.ones 5). change 3 with (Z.ones 2).
  rewrite !Z.land_ones, Z.shiftr_div_pow2 by lia. change (2 ^ 5) with 32. change (2 ^ 2) with 4.
  split; [|done]. f_equal. apply Z.mod_small. split; [by apply Z.div_pos|]. apply Z.div_lt_upper_bound; lia.
Qed.

Lemma word_of_lt a : (word_of a < 4)%nat.
Proof.
  unfold word_of. change 3 with (Z.ones 2). rewrite Z.land_ones by lia. change (2 ^ 2) with 4.
  pose proof (Z.mod_pos_bound (Z.shiftr a 5) 4). lia.
Qed.

Lemma same_bit a a' : addr_ok a → addr_ok a' → word_of a = word_of a' → Z.land a 31 = Z.land a' 31 → a = a'.
Proof.
  intros Ha Ha'. destruct (word_of_div a Ha) as [-> ->], (word_of_div a' Ha') as [-> ->]. intros Hw Hb.
  assert (a / 32 = a' / 32).
  { apply Z2Nat.inj in Hw; [done|apply Z.div_pos; unfold addr_ok in *; lia..]. }
  rewrite (Z.div_mod a 32), (Z.div_mod a' 32) by lia. lia.
Qed.

Lemma length_bit_set bits a v : length (bit_set bits a v) = length bits.
Proof. unfold bit_set. by rewrite length_insert. Qed.

(** Setting a bit of the map changes that bit alone. *)
Lemma bit_get_set bits a v a' :
  length bits = 4%nat → addr_ok a → addr_ok a' →
  bit_get (bit_set bits a v) a' = if a =? a' then v else bit_get bits a'.
Proof.
  intros Hl Ha Ha'. rewrite !bit_get_testbit. unfold bit_set.
  assert (0 ≤ Z.land a 31 ∧ 0 ≤ Z.land a' 31) as [Hp Hp'].
  { rewrite !Z.land_nonneg. lia. }
  destruct (decide (word_of a = word_of a')) as [Hw|Hw].
  - rewrite <- Hw, (nth_lookup _ (word_of a)), list_lookup_insert_eq by (rewrite Hl; apply word_of_lt). cbn [from_option id].
    assert (Z.testbit (Z.shiftl 1 (Z.land a 31)) (Z.land a' 31) = (a =? a')) as Hm.
    { rewrite Z.shiftl_spec by done. destruct (Z.eqb_spec a a') as [->|Hne].
      - by rewrite Z.sub_diag.
      - destruct (decide (Z.land a 31 = Z.land a' 31)) as [He|He]; [by destruct Hne; apply same_bit|].
        destruct (Z.lt_ge_cases (Z.land a' 31) (Z.land a 31)); [by apply Z.testbit_neg_r; lia|].
        apply Z.bits_above_log2; [lia|]. simpl. lia. }
    destruct v; rewrite ?Z.lor_spec, ?Z.ldiff_spec, Hm; destruct (a =? a');
      rewrite ?orb_true_r, ?orb_false_r, ?andb_false_r, ?andb_true_r; done.
  - rewrite (nth_lookup (<[_ := _]> _)), list_lookup_insert_ne by done. rewrite <- nth_lookup.
    destruct (Z.eqb_spec a a') as [->|]; [done|]. done.
Qed.

(** ** The address book *)

(** The addresses no device may have: 0 to 7, the broadcast address, and those one
    bit away from it. *)
Definition default_reserved : list Z := reserved (reserve_defaults AddrBook_new).
Definition reserved_addr (a : Z) : bool :=
  (a <? 8) || (a =? 0x3E) || (a =? 0x5E) || (a =? 0x6E) || (a =? 0x76) || (a =? 0x7A) || (a =? 0x7C) || (a =? 0x7E).

Record book_ok (b : AddrBook) : Prop := {
  book_len : length (in_use b) = 4%nat;
  book_reserved : reserved b = default_reserved;
}.

Lemma default_reserved_spec a : addr_ok a → bit_get default_reserved a = reserved_addr a.
Proof.
  intros [H0 H1].
  assert (forallb (λ a, eqb (bit_get default_reserved a) (reserved_addr a)) (seqZ 0 128) = true) as Hall
    by (vm_compute; reflexivity).
  rewrite forallb_forall in Hall. apply eqb_prop, Hall, list_elem_of_In, elem_of_seqZ. lia.
Qed.

Definition used (b : AddrBook) (a : Z) : bool := bit_get (in_use b) a.

Lemma is_free_spec b a :
  book_ok b → 0 ≤ a → is_free b a = true ↔ a < 128 ∧ used b a = false ∧ reserved_addr a = false.
Proof.
  intros [_ Hr] H0. unfold is_free, used. rewrite Hr, !andb_true_iff, !negb_true_iff, Z.ltb_lt. split.
  - intros [[H1 Hu] Hd]. rewrite default_reserved_spec in Hd by (split; lia). done.
  - intros (H1 & Hu & Hd). by rewrite default_reserved_spec by (split; lia).
Qed.

Lemma is_reserved_spec b a :
  book_ok b → 0 ≤ a → is_reserved b a = false ↔ a < 128 ∧ reserved_addr a = false.
Proof.
  intros [_ Hr] H0. unfold is_reserved. rewrite Hr, orb_false_iff, Z.leb_gt. split; intros [H1 Hd]; (split; [done|]).
  - by rewrite default_reserved_spec in Hd by (split; lia).
  - by rewrite default_reserved_spec by (split; lia).
Qed.

Lemma mark_use_ok a v b : book_ok b → book_ok (mark_use a v b).
Proof. intros [Hl Hr]. unfold mark_use. case_match; [|done]. split; cbn; [by rewrite length_bit_set|done]. Qed.

Lemma used_mark_use b a v a' :
  book_ok b → 0 < a < 128 → addr_ok a' → used (mark_use a v b) a' = if a =? a' then v else used b a'.
Proof.
  intros [Hl _] Ha Ha'. unfold used, mark_use.
  replace (negb (a =? 0) && (a <? 128)) with true.
  2:{ symmetry. rewrite andb_true_iff, negb_true_iff, Z.eqb_neq, Z.ltb_lt. lia. }
  cbn [in_use]. apply bit_get_set; [done|split; lia|done].
Qed.

(** Zero and what is out of range are never marked. *)
Lemma mark_use_out b a v : 0 ≤ a → ¬ (0 < a < 128) → mark_use a v b = b.
Proof.
  intros H0 Hout. unfold mark_use. destruct (negb (a =? 0) && (a <? 128)) eqn:E; [|done].
  apply andb_true_iff in E as [E1%negb_true_iff%Z.eqb_neq E2%Z.ltb_lt]. lia.
Qed.

(** Marking an address in use leaves the others' marks, whatever it is. *)
Lemma used_mark_more b a a' : book_ok b → 0 ≤ a → addr_ok a' → used b a' = true → used (mark_use a true b) a' = true.
Proof.
  intros Hb H0 Ha' Hu. destruct (decide (0 < a < 128)).
  - rewrite used_mark_use by done. by destruct (a =? a').
  - by rewrite mark_use_out.
Qed.

Lemma reset_in_use_ok b : book_ok b → book_ok (reset_in_use b).
Proof. intros [_ Hr]. by split. Qed.

(** ** Allocation *)

Lemma alloc_scan_Some b fuel a x :
  alloc_scan b fuel a = Some x →
  a ≤ x < a + Z.of_nat fuel ∧ is_free b x = true ∧ ∀ y, a ≤ y < x → is_free b y = false.
Proof.
  revert a. induction fuel as [|fuel IH]; intros a; cbn [alloc_scan]; [done|].
  destruct (is_free b a) eqn:Hf.
  - intros [= ->]. repeat split; [lia|lia|done|]. intros; lia.
  - intros (H1 & H2 & H3)%IH. repeat split; [lia|lia|done|]. intros y Hy.
    destruct (decide (y = a)) as [->|]; [done|]. apply H3. lia.
Qed.

Lemma alloc_scan_None b fuel a y :
  alloc_scan b fuel a = None → a ≤ y < a + Z.of_nat fuel → is_free b y = false.
Proof.
  revert a. induction fuel as [|fuel IH]; intros a; cbn [alloc_scan]; [lia|].
  destruct (is_free b a) eqn:Hf; [done|]. intros HN Hy. destruct (decide (y = a)) as [->|]; [done|].
  apply (IH (a + 1)); [done|lia].
Qed.

(** The lowest free address from [start] on, or none when there is none. *)
Lemma alloc_from_spec b start :
  match alloc_from b start with
  | Some a => Z.max start 8 ≤ a < 0x7F ∧ is_free b a = true ∧ ∀ y, Z.max start 8 ≤ y < a → is_free b y = false
  | None => ∀ y, Z.max start 8 ≤ y < 0x7F → is_free b y = false
  end.
Proof.
  unfold alloc_from. case_match eqn:E.
  - apply alloc_scan_Some in E as (H1 & H2 & H3). split; [lia|]. by split.
  - intros y Hy. eapply alloc_scan_None; [done|]. lia.
Qed.

(** ** The table of attached devices *)

Record table_ok (a : Attached) : Prop := {
  table_cap : (length (devices a) ≤ 8)%nat;
  table_slots : length (by_pos a) = 8%nat;
  table_map : ∀ p i, by_pos a !! p = Some (Some i) ↔ ∃ d, devices a !! i = Some d ∧ dev_pos d = Some p;
  table_own : ∀ i d, devices a !! i = Some d → is_Some (dev_pos d);
}.

Lemma table_pos_lt a i d p : table_ok a → devices a !! i = Some d → dev_pos d = Some p → (p < 8)%nat.
Proof.
  intros Ht Hi Hp. assert (by_pos a !! p = Some (Some i)) as Hb by (apply Ht; eauto).
  apply lookup_lt_Some in Hb. by rewrite (table_slots _ Ht) in Hb.
Qed.

Lemma table_pos_inj a i j d e p :
  table_ok a → devices a !! i = Some d → devices a !! j = Some e → dev_pos d = Some p → dev_pos e = Some p → i = j.
Proof.
  intros Ht Hi Hj Hd He.
  assert (by_pos a !! p = Some (Some i)) as H1 by (apply Ht; eauto).
  assert (by_pos a !! p = Some (Some j)) as H2 by (apply Ht; eauto). congruence.
Qed.

(** The position of a device is the one in its entry. *)
Lemma pos_of_spec a i d :
  table_ok a → devices a !! i = Some d → pos_of a i = dev_pos d.
Proof.
  intros Ht Hi. destruct (table_own _ Ht _ _ Hi) as [p Hp]. rewrite Hp. unfold pos_of.
  assert (i < 8)%nat. { apply lookup_lt_Some in Hi. pose proof (table_cap _ Ht). lia. }
  rewrite (proj2 (Nat.leb_le i 255)) by lia.
  assert (by_pos a !! p = Some (Some i)) as Hb by (apply Ht; eauto).
  destruct (position _ (by_pos a)) as [q|] eqn:Hq.
  - apply position_Some in Hq as (v & Hv & He%bool_decide_eq_true & _). subst v.
    apply (table_map _ Ht) in Hv as (d' & Hd' & Hp'). simplify_eq. congruence.
  - rewrite position_None in Hq. specialize (Hq (Some i)). rewrite bool_decide_eq_false in Hq.
    by destruct Hq; [eapply list_elem_of_lookup_2|].
Qed.

Lemma pos_or_own_spec a i d : table_ok a → devices a !! i = Some d → pos_or_own a i = dev_pos d.
Proof.
  intros Ht Hi. unfold pos_or_own. rewrite (pos_of_spec _ _ _ Ht Hi), Hi. cbn. by destruct (dev_pos d).
Qed.

Lemma table_new : table_ok Attached_new.
Proof.
  split; cbn; [lia|done| |done]. intros p i. split; [|by intros (d & ? & _)].
  intros Hp. change (replicate 8 (@None nat) !! p = Some (Some i)) in Hp. by apply lookup_replicate in Hp as [? _].
Qed.

(** Entering a device at a free slot. *)
Lemma attach_table a d p :
  table_ok a → (length (devices a) < 8)%nat → by_pos a !! p = Some None → dev_pos d = Some p →
  table_ok (mkAttached (devices a ++ [d]) (<[p := Some (length (devices a))]> (by_pos a))).
Proof.
  intros Ht Hl Hp Hd. assert (p < length (by_pos a))%nat as Hpl by (by eapply lookup_lt_Some). split; cbn.
  - rewrite length_app. cbn. lia.
  - rewrite length_insert. apply Ht.
  - intros q i. destruct (decide (q = p)) as [->|Hne].
    + rewrite list_lookup_insert_eq by done. split.
      * intros [= <-]. exists d. split; [|done]. by rewrite lookup_app_r, Nat.sub_diag by lia.
      * intros (e & He & Hep). apply lookup_app_Some in He as [He|[Hge He]].
        -- assert (by_pos a !! p = Some (Some i)) as Hx by (apply Ht; eauto). congruence.
        -- apply list_lookup_singleton_Some in He as [He ->]. f_equal. f_equal. lia.
    + rewrite list_lookup_insert_ne by done. rewrite (table_map _ Ht). split; intros (e & He & Hep).
      * exists e. split; [|done]. by apply lookup_app_l_Some.
      * exists e. split; [|done]. apply lookup_app_Some in He as [He|[Hge He]]; [done|].
        apply list_lookup_singleton_Some in He as [He ->]. congruence.
  - intros i e He. apply lookup_app_Some in He as [He|[Hge He]]; [by eapply Ht|].
    apply list_lookup_singleton_Some in He as [He ->]. eauto.
Qed.

Lemma shift_index_Some i o j : shift_index i o = Some j → o ≠ Some i → o = Some (if (j <? i)%nat then j else S j).
Proof.
  destruct o as [k|]; [|done]. cbn [shift_index]. intros [= <-] Hne.
  destruct (Nat.ltb_spec i k); cbn [andb].
  - replace (0 <? k)%nat with true by (symmetry; apply Nat.ltb_lt; lia). f_equal.
    destruct (Nat.ltb_spec (k - 1) i); lia.
  - f_equal. destruct (Nat.ltb_spec k i); [done|]. assert (k = i) by lia. congruence.
Qed.

(** Removing a device moves the indices of the later ones, and only those. *)
Lemma detach_table a i : table_ok a → table_ok (detach i a).
Proof.
  intros Ht. unfold detach. destruct (devices a !! i) as [d|] eqn:Hi; [|done].
  destruct (table_own _ Ht _ _ Hi) as [p Hp]. rewrite Hp.
  pose proof (table_pos_lt _ _ _ _ Ht Hi Hp) as Hp8. pose proof (table_slots _ Ht) as H8.
  assert (by_pos a !! p = Some (Some i)) as Hbi by (apply Ht; eauto).
  split; cbn [devices by_pos].
  - rewrite length_delete by eauto. pose proof (table_cap _ Ht). lia.
  - by rewrite length_fmap, length_insert.
  - intros q j. rewrite list_lookup_fmap. destruct (decide (q = p)) as [->|Hne].
    + rewrite list_lookup_insert_eq by lia. cbn. split; [done|]. intros (e & He & Hep).
      rewrite list_lookup_delete in He. assert (∃ k, k ≠ i ∧ devices a !! k = Some e) as (k & Hk & He').
      { case_decide; eexists; (split; [|done]); lia. }
      assert (k = i) by (by eapply table_pos_inj). done.
    + rewrite list_lookup_insert_ne by done. split.
      * intros Hs. destruct (by_pos a !! q) as [o|] eqn:Hq; [|done]. cbn in Hs.
        injection Hs as Hs. apply shift_index_Some in Hs.
        2:{ intros ->. apply (table_map _ Ht) in Hq as (e & He & Hep). congruence. }
        subst o. apply (table_map _ Ht) in Hq as (e & He & Hep). exists e. split; [|done].
        rewrite list_lookup_delete. destruct (Nat.ltb_spec j i); case_decide; try lia; done.
      * intros (e & He & Hep). rewrite list_lookup_delete in He.
        assert (by_pos a !! q = Some (Some (if (j <? i)%nat then j else S j))) as Hq.
        { apply Ht. exists e. split; [|done]. destruct (Nat.ltb_spec j i); case_decide; try lia; done. }
        rewrite Hq. cbn [fmap option_fmap option_map shift_index]. do 2 f_equal. clear Hq.
        destruct (Nat.ltb_spec j i) as [Hj|Hj].
        -- by rewrite (proj2 (Nat.ltb_ge i j)) by lia.
        -- rewrite (proj2 (Nat.ltb_lt i (S j))) by lia. cbn [andb Nat.ltb Nat.leb]. lia.
  - intros j e He. rewrite list_lookup_delete in He. case_decide; by eapply Ht.
Qed.

(** ** The configuration *)

(** An entry against the book: its address is a usable one, in use, and the one the
    next assignment will offer. *)
Record dev_ok (b : AddrBook) (d : DeviceEntry) : Prop := {
  dev_range : 0 < dyn_addr d < 128;
  dev_usable : reserved_addr (dyn_addr d) = false;
  dev_used : used b (dyn_addr d) = true;
  dev_desired : desired_da d = dyn_addr d;
  dev_kind : match kind d with KindI3c => is_Some (pid d) | KindI2c => pid d = None ∧ static_addr d = dyn_addr d end;
}.

Record config_ok (c : I3cConfig) : Prop := {
  ok_book : book_ok (addrbook c);
  ok_table : table_ok (attached c);
  ok_dev : ∀ i d, devices (attached c) !! i = Some d → dev_ok (addrbook c) d;
  ok_addr : ∀ i j d e, devices (attached c) !! i = Some d → devices (attached c) !! j = Some e →
              dyn_addr d = dyn_addr e → i = j;
  ok_pid : ∀ i j d e p, devices (attached c) !! i = Some d → devices (attached c) !! j = Some e →
             pid d = Some p → pid e = Some p → i = j;
}.

Lemma config_ok_new : config_ok I3cConfig_new.
Proof. split; [done|apply table_new|..]; by intros. Qed.

(** The invariant is about the book and the table alone. *)
Lemma config_ok_frame c c' :
  attached c' = attached c → addrbook c' = addrbook c → config_ok c → config_ok c'.
Proof. intros Ha Hb [H1 H2 H3 H4 H5]. split; rewrite ?Ha, ?Hb; done. Qed.

(** Two devices never share an address; an attached address is not handed out. *)
Lemma attached_not_free c i d :
  config_ok c → devices (attached c) !! i = Some d → is_free (addrbook c) (dyn_addr d) = false.
Proof.
  intros Hc Hi. destruct (ok_dev _ Hc _ _ Hi) as [Hr _ Hu _ _]. unfold is_free.
  unfold used in Hu. rewrite Hu. cbn. by rewrite andb_false_r.
Qed.

Lemma find_by_addr_spec c i d :
  config_ok c → devices (attached c) !! i = Some d → find_dev_idx_by_addr (attached c) (dyn_addr d) = Some i.
Proof.
  intros Hc Hi. unfold find_dev_idx_by_addr.
  destruct (position _ _) as [j|] eqn:Hj.
  - apply position_Some in Hj as (e & He & Heq%Z.eqb_eq & _). f_equal. by eapply (ok_addr _ Hc).
  - rewrite position_None in Hj. specialize (Hj d). rewrite Z.eqb_refl in Hj.
    by discriminate Hj; eapply list_elem_of_lookup_2.
Qed.

Lemma find_by_addr_Some a da i :
  find_dev_idx_by_addr a da = Some i → ∃ d, devices a !! i = Some d ∧ dyn_addr d = da.
Proof. intros (d & Hd & He%Z.eqb_eq & _)%position_Some. eauto. Qed.

(** What an update of an entry must keep. *)
Definition same_identity (d d' : DeviceEntry) : Prop :=
  kind d' = kind d ∧ pid d' = pid d ∧ static_addr d' = static_addr d ∧ dyn_addr d' = dyn_addr d ∧
  desired_da d' = desired_da d ∧ dev_pos d' = dev_pos d.

Lemma same_identity_dev_ok b d d' : same_identity d d' → dev_ok b d → dev_ok b d'.
Proof. intros (Hk & Hp & Hs & Hd & Hw & _) [H1 H2 H3 H4 H5]. split; rewrite ?Hk, ?Hp, ?Hs, ?Hd, ?Hw; done. Qed.

(** A table whose entries keep their identity. *)
Lemma table_same a a' :
  table_ok a → by_pos a' = by_pos a → Forall2 same_identity (devices a) (devices a') → table_ok a'.
Proof.
  intros Ht Hb Hs. split; rewrite ?Hb, <- ?(Forall2_length Hs).
  - apply Ht.
  - apply Ht.
  - intros p i. rewrite (table_map _ Ht). split; intros (d & Hd & Hp).
    + destruct (Forall2_lookup_l _ _ _ _ _ Hs Hd) as (d' & Hd' & (_ & _ & _ & _ & _ & Hid)). exists d'. by rewrite Hid.
    + destruct (Forall2_lookup_r _ _ _ _ _ Hs Hd) as (d' & Hd' & (_ & _ & _ & _ & _ & Hid)). exists d'. by rewrite <- Hid.
  - intros i d' Hd'. destruct (Forall2_lookup_r _ _ _ _ _ Hs Hd') as (d & Hd & (_ & _ & _ & _ & _ & Hid)).
    rewrite Hid. by eapply Ht.
Qed.

(** So does a configuration whose book marks all of them. *)
Lemma config_same c c' :
  config_ok c → book_ok (addrbook c') → by_pos (attached c') = by_pos (attached c) →
  Forall2 same_identity (devices (attached c)) (devices (attached c')) →
  (∀ i d, devices (attached c) !! i = Some d → used (addrbook c') (dyn_addr d) = true) →
  config_ok c'.
Proof.
  intros Hc Hb Hp Hs Hu. split; [done|by eapply table_same; [apply Hc|..]|..].
  - intros i d' Hd'. destruct (Forall2_lookup_r _ _ _ _ _ Hs Hd') as (d & Hd & Hid).
    eapply same_identity_dev_ok; [done|]. destruct (ok_dev _ Hc _ _ Hd) as [H1 H2 H3 H4 H5]. split; eauto.
  - intros i j d' e' Hd' He' Heq.
    destruct (Forall2_lookup_r _ _ _ _ _ Hs Hd') as (d & Hd & (_ & _ & _ & Hx & _)).
    destruct (Forall2_lookup_r _ _ _ _ _ Hs He') as (e & He & (_ & _ & _ & Hy & _)).
    eapply (ok_addr _ Hc); [done..|]. congruence.
  - intros i j d' e' p Hd' He' Hq Hr.
    destruct (Forall2_lookup_r _ _ _ _ _ Hs Hd') as (d & Hd & (_ & Hx & _)).
    destruct (Forall2_lookup_r _ _ _ _ _ Hs He') as (e & He & (_ & Hy & _)).
    apply (ok_pid _ Hc i j d e p); congruence.
Qed.

#[export] Instance same_identity_refl : Reflexive same_identity.
Proof. by repeat split. Qed.
#[export] Instance same_identity_trans : Transitive same_identity.
Proof. intros d1 d2 d3 H1 H2. unfold same_identity in *. intuition congruence. Qed.

Lemma alter_same f i l : (∀ d, same_identity d (f d)) → Forall2 same_identity l (alter f i l).
Proof.
  intros Hf. apply Forall2_same_length_lookup. split; [by rewrite length_alter|].
  intros j d d' Hd Hd'. destruct (decide (j = i)) as [->|].
  - rewrite list_lookup_alter_eq, Hd in Hd'. by simplify_eq/=.
  - rewrite list_lookup_alter_ne in Hd' by done. by simplify_eq.
Qed.

Lemma upd_dev_ok i f c : config_ok c → (∀ d, same_identity d (f d)) → config_ok (upd_dev i f c).
Proof.
  intros Hc Hf. apply (config_same c); [done|apply Hc|done|by apply alter_same|].
  intros j d Hd. by eapply Hc.
Qed.

Lemma fmap_devices_ok f c :
  config_ok c → (∀ d, same_identity d (f d)) →
  config_ok (set_attached (set_devices (f <$> devices (attached c)) (attached c)) c).
Proof.
  intros Hc Hf. apply (config_same c); [done|apply Hc|done| |].
  - apply Forall2_fmap_r, Forall_Forall2_diag, Forall_true. exact Hf.
  - intros j d Hd. by eapply Hc.
Qed.

(** ** Marks *)

Lemma mark_use_more c a : config_ok c → 0 ≤ a → config_ok (set_book (mark_use a true) c).
Proof.
  intros Hc H0. split; cbn; [by apply mark_use_ok, Hc|apply Hc| |apply Hc|apply Hc].
  intros i d Hd. destruct (ok_dev _ Hc _ _ Hd) as [H1 H2 H3 H4 H5]. split; try done.
  apply used_mark_more; [apply Hc|done|split; lia|done].
Qed.

(** Freeing an address no device has. *)
Lemma mark_use_less c a :
  config_ok c → 0 ≤ a → (∀ i d, devices (attached c) !! i = Some d → dyn_addr d ≠ a) →
  config_ok (set_book (mark_use a false) c).
Proof.
  intros Hc H0 Hne. split; cbn; [by apply mark_use_ok, Hc|apply Hc| |apply Hc|apply Hc].
  intros i d Hd. destruct (ok_dev _ Hc _ _ Hd) as [H1 H2 H3 H4 H5]. split; try done.
  destruct (decide (0 < a < 128)).
  - rewrite used_mark_use by (done || apply Hc || (split; lia)).
    destruct (Z.eqb_spec a (dyn_addr d)); [|done]. by destruct (Hne _ _ Hd).
  - by rewrite mark_use_out.
Qed.

(** ** The operations of [config.rs] keep the invariant *)

Lemma attach_ok c d p :
  config_ok c → (length (devices (attached c)) < 8)%nat → by_pos (attached c) !! p = Some None → dev_pos d = Some p →
  0 < dyn_addr d < 128 → is_free (addrbook c) (dyn_addr d) = true → desired_da d = dyn_addr d →
  match kind d with KindI3c => is_Some (pid d) | KindI2c => pid d = None ∧ static_addr d = dyn_addr d end →
  (∀ i e, devices (attached c) !! i = Some e → is_Some (pid d) → pid e ≠ pid d) →
  config_ok (set_book (mark_use (dyn_addr d) true)
    (set_attached (mkAttached (devices (attached c) ++ [d])
                     (<[p := Some (length (devices (attached c)))]> (by_pos (attached c)))) c)).
Proof.
  intros Hc Hl Hp Hd Hr Hf Hw Hk Hpid.
  pose proof (proj1 (is_free_spec _ (dyn_addr d) (ok_book _ Hc) ltac:(lia)) Hf) as (_ & _ & Hres).
  split; cbn; [by apply mark_use_ok, Hc|by apply attach_table; try apply Hc| | |].
  - intros i e He. apply lookup_app_Some in He as [He|[Hge He]].
    + destruct (ok_dev _ Hc _ _ He) as [H1 H2 H3 H4 H5]. split; try done.
      apply used_mark_more; [apply Hc|lia|split; lia|done].
    + apply list_lookup_singleton_Some in He as [_ <-]. split; try done.
      rewrite used_mark_use by (done || apply Hc || (split; lia)). by rewrite Z.eqb_refl.
  - intros i j e1 e2 H1 H2 Heq.
    assert (∀ k e, devices (attached c) !! k = Some e → dyn_addr e ≠ dyn_addr d) as Hne.
    { intros k e He Hx. pose proof (attached_not_free _ _ _ Hc He) as Hn. rewrite Hx in Hn. congruence. }
    apply lookup_app_Some in H1 as [H1|[G1 H1]], H2 as [H2|[G2 H2]].
    + by eapply (ok_addr _ Hc).
    + apply list_lookup_singleton_Some in H2 as [_ <-]. by destruct (Hne _ _ H1).
    + apply list_lookup_singleton_Some in H1 as [_ <-]. by destruct (Hne _ _ H2).
    + apply list_lookup_singleton_Some in H1 as [? _], H2 as [? _]. lia.
  - intros i j e1 e2 q H1 H2 Hq1 Hq2.
    apply lookup_app_Some in H1 as [H1|[G1 H1]], H2 as [H2|[G2 H2]].
    + by eapply (ok_pid _ Hc).
    + apply list_lookup_singleton_Some in H2 as [_ <-]. destruct (Hpid _ _ H1); [eauto|congruence].
    + apply list_lookup_singleton_Some in H1 as [_ <-]. destruct (Hpid _ _ H2); [eauto|congruence].
    + apply list_lookup_singleton_Some in H1 as [? _], H2 as [? _]. lia.
Qed.

Lemma lookup_delete_elsewhere {A} (l : list A) i j x :
  delete i l !! j = Some x → ∃ k, l !! k = Some x ∧ k ≠ i ∧ k = (if decide (j < i)%nat then j else S j).
Proof. rewrite list_lookup_delete. intros He. eexists. split; [exact He|]. case_decide; split; lia || done. Qed.

(** A detached device releases its address, its position and nothing else. *)
Lemma detach_ok c i d :
  config_ok c → devices (attached c) !! i = Some d →
  config_ok (set_attached (detach i (attached c)) (set_book (mark_use (dyn_addr d) false) c)).
Proof.
  intros Hc Hi. destruct (ok_dev _ Hc _ _ Hi) as [Hr _ _ _ _].
  assert (devices (detach i (attached c)) = delete i (devices (attached c))) as Hdel by (unfold detach; by rewrite Hi).
  split; cbn; rewrite ?Hdel.
  - by apply mark_use_ok, Hc.
  - by apply detach_table, Hc.
  - intros j e (k & He & Hk & _)%lookup_delete_elsewhere. destruct (ok_dev _ Hc _ _ He) as [H1 H2 H3 H4 H5].
    split; try done. rewrite used_mark_use by (done || apply Hc || (split; lia)).
    destruct (Z.eqb_spec (dyn_addr d) (dyn_addr e)) as [Heq|]; [|done].
    destruct Hk. symmetry. by eapply (ok_addr _ Hc).
  - intros j1 j2 e1 e2 (k1 & H1 & N1 & E1)%lookup_delete_elsewhere (k2 & H2 & N2 & E2)%lookup_delete_elsewhere Heq.
    assert (k1 = k2) by (by eapply (ok_addr _ Hc)). repeat case_decide; lia.
  - intros j1 j2 e1 e2 p (k1 & H1 & N1 & E1)%lookup_delete_elsewhere (k2 & H2 & N2 & E2)%lookup_delete_elsewhere P1 P2.
    assert (k1 = k2) by (by eapply (ok_pid _ Hc)). repeat case_decide; lia.
Qed.

Lemma reassign_ok c from to :
  config_ok c → 0 < to → (∀ i d, devices (attached c) !! i = Some d → dyn_addr d = from → kind d = KindI3c) →
  config_ok (reassign_da from to c).2.
Proof.
  intros Hc H0 Hkind. unfold reassign_da. case_match eqn:Hf; [|done].
  case_match eqn:Heq; [done|]. apply Z.eqb_neq in Heq. case_match eqn:Hfree; [done|].
  apply negb_false_iff in Hfree. cbn [snd].
  apply find_by_addr_Some in Hf as (d & Hd & Hda). subst from.
  pose proof (proj1 (is_free_spec _ to (ok_book _ Hc) ltac:(lia)) Hfree) as (Hto & Huse & Hres).
  destruct (ok_dev _ Hc _ _ Hd) as [Hr _ _ Hw Hk].
  assert (∀ k e, devices (attached c) !! k = Some e → dyn_addr e ≠ to) as Hne.
  { intros k e He Hx. pose proof (attached_not_free _ _ _ Hc He) as Hn. rewrite Hx in Hn. congruence. }
  set (c1 := set_book (mark_use to true) (set_book (mark_use (dyn_addr d) false) c)).
  assert (∀ a, addr_ok a → used (addrbook c1) a = if to =? a then true else if dyn_addr d =? a then false else used (addrbook c) a) as Hu.
  { intros a Ha. cbn. rewrite used_mark_use by (done || (split; lia) || apply mark_use_ok, Hc).
    rewrite used_mark_use by (done || apply Hc). done. }
  assert (∀ j e, alter (λ d, set_desired_da to (set_dyn_addr to d)) n (devices (attached c)) !! j = Some e →
            ∃ e0, devices (attached c) !! j = Some e0 ∧
              e = if decide (j = n) then set_desired_da to (set_dyn_addr to e0) else e0) as Hl.
  { intros j e He. destruct (decide (j = n)) as [->|].
    - rewrite list_lookup_alter_eq in He. apply fmap_Some in He as (e0 & He0 & ->). eauto.
    - rewrite list_lookup_alter_ne in He by done. eauto. }
  split; cbn.
  - by apply mark_use_ok, mark_use_ok, Hc.
  - split; cbn; [rewrite length_alter; apply Hc|apply Hc| |].
    + intros p i. rewrite (table_map _ (ok_table _ Hc)). split; intros (e & He & Hp).
      * destruct (decide (i = n)) as [->|].
        -- exists (set_desired_da to (set_dyn_addr to e)). rewrite list_lookup_alter_eq, He. done.
        -- exists e. by rewrite list_lookup_alter_ne.
      * apply Hl in He as (e0 & He0 & ->). exists e0. split; [done|]. by case_decide.
    + intros i e He. apply Hl in He as (e0 & He0 & ->). apply (table_own _ (ok_table _ Hc)) in He0. by case_decide.
  - intros i e He. apply Hl in He as (e0 & He0 & ->). destruct (ok_dev _ Hc _ _ He0) as [H1 H2 H3 H4 H5].
    case_decide as Hin.
    + subst i. simplify_eq. split; cbn; [lia|done| |done|].
      * change (used (addrbook c1) to = true). rewrite Hu by (split; lia). by rewrite Z.eqb_refl.
      * by rewrite (Hkind _ _ Hd eq_refl) in *.
    + split; try done. change (used (addrbook c1) (dyn_addr e0) = true). rewrite Hu by (split; lia).
      destruct (Z.eqb_spec to (dyn_addr e0)); [done|]. destruct (Z.eqb_spec (dyn_addr d) (dyn_addr e0)) as [Hx|]; [|done].
      destruct Hin. symmetry. by eapply (ok_addr _ Hc).
  - intros i j e1 e2 H1 H2. apply Hl in H1 as (f1 & F1 & ->), H2 as (f2 & F2 & ->).
    case_decide as D1; case_decide as D2; cbn; intros Hx; [congruence|..].
    + by destruct (Hne _ _ F2).
    + by destruct (Hne _ _ F1).
    + by eapply (ok_addr _ Hc).
  - intros i j e1 e2 p H1 H2. apply Hl in H1 as (f1 & F1 & ->), H2 as (f2 & F2 & ->).
    intros P1 P2. eapply (ok_pid _ Hc); [done..| |]; [by destruct (decide (i = n))|by destruct (decide (j = n))].
Qed.

Lemma mark_da_unknown_ok c i candidate :
  config_ok c → match candidate with Some a => 0 ≤ a | None => True end → config_ok (mark_da_unknown i candidate c).
Proof.
  intros Hc Ha. unfold mark_da_unknown. destruct (devices (attached c) !! i) as [d|] eqn:Hi; [|done].
  case_bool_decide; [done|]. destruct (ok_dev _ Hc _ _ Hi) as [Hr _ _ Hw _].
  assert (config_ok (set_book (mark_use (desired_da d) true)
            (set_book (mark_use (dyn_addr d) true) (upd_dev i (set_da_state DaUnknown) c)))).
  { apply mark_use_more; [|lia]. apply mark_use_more; [|lia]. by apply upd_dev_ok. }
  destruct candidate; [|done]. by apply mark_use_more.
Qed.

(** A loop over the entries that changes no identity. *)
Lemma foldl_entries (P : I3cConfig → Prop) (f : I3cConfig → nat → I3cConfig) c l :
  P c → (∀ c i, P c → P (f c i)) → P (foldl f c l).
Proof. intros Hc Hf. revert c Hc. induction l as [|i l IH]; intros c Hc; [done|]. cbn. apply IH. by apply Hf. Qed.

Lemma mark_rstdaa_unknown_ok c : config_ok c → config_ok (mark_rstdaa_unknown c).
Proof.
  intros Hc. unfold mark_rstdaa_unknown. apply (foldl_entries config_ok); [done|]. clear c Hc. intros c i Hc.
  destruct (devices (attached c) !! i) as [d|] eqn:Hi; [|done]. case_bool_decide; [done|].
  destruct (ok_dev _ Hc _ _ Hi) as [Hr _ _ Hw _].
  apply mark_use_more; [|lia]. apply mark_use_more; [|lia]. by apply upd_dev_ok.
Qed.

(** The loop that marks the addresses again: [k] entries done. *)
Definition rebuilt (c : I3cConfig) (k : nat) (c' : I3cConfig) : Prop :=
  book_ok (addrbook c') ∧ by_pos (attached c') = by_pos (attached c) ∧
  Forall2 same_identity (devices (attached c)) (devices (attached c')) ∧
  ∀ i d, (i < k)%nat → devices (attached c) !! i = Some d → used (addrbook c') (dyn_addr d) = true.

Lemma rebuilt_step c c1 c2 k a :
  config_ok c → rebuilt c k c1 → by_pos (attached c2) = by_pos (attached c1) → addrbook c2 = mark_use a true (addrbook c1) →
  Forall2 same_identity (devices (attached c1)) (devices (attached c2)) → 0 < a < 128 →
  (∀ d, devices (attached c) !! k = Some d → dyn_addr d = a) → rebuilt c (S k) c2.
Proof.
  intros Hc (Hb & Hp & Hs & Hu) Hp2 Hb2 Hs2 Ha Hk. split_and!.
  - rewrite Hb2. by apply mark_use_ok.
  - congruence.
  - by etrans.
  - intros i d Hi Hd. destruct (ok_dev _ Hc _ _ Hd) as [Hr _ _ _ _]. rewrite Hb2.
    destruct (decide (i = k)) as [->|].
    + rewrite (Hk _ Hd), used_mark_use by (done || (split; lia)). by rewrite Z.eqb_refl.
    + apply used_mark_more; [done|lia|split; lia|]. apply Hu with i; [lia|done].
Qed.

Lemma commit_rstdaa_ok c : config_ok c → config_ok (commit_rstdaa c).
Proof.
  intros Hc. unfold commit_rstdaa. set (step := λ c i, _).
  cut (∀ n k c', (k + n = length (devices (attached c)))%nat → rebuilt c k c' →
         rebuilt c (length (devices (attached c))) (foldl step c' (seq k n))).
  { intros Hcut. destruct (Hcut (length (devices (attached c))) 0%nat (set_book reset_in_use c)) as (Hb & Hp & Hs & Hu); [done| |].
    - split_and!; [apply reset_in_use_ok, Hc|done|by apply Forall_Forall2_diag, Forall_true|]. lia.
    - apply (config_same c); try done. intros i d Hd. apply Hu with i; [by eapply lookup_lt_Some|done]. }
  induction n as [|n IH]; intros k c' Hn Hr; cbn [seq foldl].
  { by replace (length (devices (attached c))) with k by lia. }
  apply IH; [lia|]. destruct (lookup_lt_is_Some_2 (devices (attached c)) k ltac:(lia)) as [d Hd].
  destruct (ok_dev _ Hc _ _ Hd) as [Hrg _ _ Hw Hkd]. pose proof Hr as (_ & _ & Hs & _).
  destruct (Forall2_lookup_l _ _ _ _ _ Hs Hd) as (d' & Hd' & Hid). destruct Hid as (Hk' & _ & Hst & _ & Hds & _).
  unfold step. rewrite Hd'. destruct (kind d') eqn:Hkind.
  - apply (rebuilt_step c c' _ k (desired_da d')); try done; [by apply alter_same|lia|].
    intros e He. simplify_eq. congruence.
  - rewrite <- Hk' in Hkd. destruct Hkd as [_ Hsa].
    apply (rebuilt_step c c' _ k (static_addr d')); try done; [lia|].
    intros e He. simplify_eq. congruence.
Qed.

(** An address is picked from the free ones, and marked. *)
Lemma pick_initial_da_spec sa desired c :
  config_ok c → 0 ≤ sa → 0 ≤ desired →
  match pick_initial_da sa desired c with
  | Some (a, c') => config_ok c' ∧ is_free (addrbook c) a = true ∧ is_free (addrbook c') a = false ∧ 0 < a
  | None => alloc_from (addrbook c) 8 = None
  end.
Proof.
  intros Hc Hs Hd. unfold pick_initial_da.
  assert (∀ a, 0 < a → is_free (addrbook c) a = true →
    config_ok (set_book (mark_use a true) c) ∧ is_free (addrbook c) a = true ∧
    is_free (addrbook (set_book (mark_use a true) c)) a = false ∧ 0 < a) as Hpick.
  { intros a Ha Hf. split_and!; [by apply mark_use_more; [|lia]|done| |done].
    pose proof (proj1 (is_free_spec _ a (ok_book _ Hc) ltac:(lia)) Hf) as (Hr & _ & _).
    apply not_true_is_false. intros Hx. cbn in Hx. apply is_free_spec in Hx; [|by apply mark_use_ok, Hc|lia].
    destruct Hx as (_ & Hu & _). rewrite used_mark_use in Hu by (done || apply Hc || (split; lia)).
    by rewrite Z.eqb_refl in Hu. }
  destruct (negb (desired =? 0) && is_free (addrbook c) desired) eqn:E1.
  { apply andb_true_iff in E1 as [E1%negb_true_iff%Z.eqb_neq E2]. cbn. apply Hpick; [lia|done]. }
  destruct (negb (sa =? 0) && is_free (addrbook c) sa) eqn:E2.
  { apply andb_true_iff in E2 as [E2%negb_true_iff%Z.eqb_neq E3]. cbn. apply Hpick; [lia|done]. }
  pose proof (alloc_from_spec (addrbook c) 8) as Ha. destruct (alloc_from (addrbook c) 8) as [a|]; [|done].
  cbn. apply Hpick; [lia|apply Ha].
Qed.
