(* ===== verification/I3cInv.v ===== *)
(** * What the I3C hardware leaves alone

    The hardware side never touches the address book, the table of attached devices
    or the role, and sends a direct command only to an attached I3C device whose
    address is claimed ([InterfaceLaws]): what the controller relies on.  The driver
    of [I3cDev] has these laws on any hardware.

    The second part proves, against that interface alone, that every call of the
    controller keeps the invariant of the books. *)

From S2P Require Import Prelude Bytes RegMonad I3cConfig I3cIbi I3cRegs I3cDev I3cCtl I3cBook.
From stdpp Require Import base tactics option list numbers.
Local Open Scope Z_scope.

(** ** Calls that keep the books *)

Definition same_books (c c' : I3cConfig) : Prop :=
  attached c' = attached c ∧ addrbook c' = addrbook c ∧ is_secondary c' = is_secondary c.
#[export] Instance same_books_refl : Reflexive same_books.
Proof. done. Qed.
#[export] Instance same_books_trans : Transitive same_books.
Proof. unfold same_books. intros c1 c2 c3 H1 H2. intuition congruence. Qed.

Section framed.
Context {D : Type}.
Notation ctl := (drv (I3cController D) I3cError).

(** A call keeps the books, and panics only in the secondary role. *)
Definition framed_at (secondary : bool) {A} (m : ctl A) : Prop := ∀ s, is_secondary (config s) = secondary →
  match m s with Some (s', _) => same_books (config s) (config s') | None => secondary = true end.
Definition framed {A} (m : ctl A) : Prop := ∀ secondary, framed_at secondary m.

Lemma framed_run {A} (m : ctl A) s s' r : framed m → m s = Some (s', r) → same_books (config s) (config s').
Proof. intros Hm Hr. specialize (Hm _ s eq_refl). by rewrite Hr in Hm. Qed.

Lemma framed_at_bind b {A B} (m : ctl A) (f : A → ctl B) :
  framed_at b m → (∀ a, framed_at b (f a)) → framed_at b (m ≫= f).
Proof.
  intros Hm Hf s Hs. specialize (Hm s Hs). unfold mbind, drv_bind. destruct (m s) as [[s1 [a|e]]|]; [|done..].
  assert (is_secondary (config s1) = b) as Hs1 by (destruct Hm as (_ & _ & Hx); congruence).
  specialize (Hf a s1 Hs1). destruct (f a s1) as [[s2 r]|]; [by etrans|done].
Qed.
Lemma framed_here b {A} (m : ctl A) : framed m → framed_at b m.
Proof. done. Qed.
Lemma framed_at_guarded {A} c (m : ctl A) : framed m → framed_at true (guarded c m).
Proof. intros Hm s Hs. unfold guarded. destruct c; [by apply Hm|done]. Qed.

Lemma framed_ret {A} (a : A) : framed (mret a).
Proof. by intros b s Hs. Qed.
Lemma framed_raise {A} e : framed (raise e : ctl A).
Proof. by intros b s Hs. Qed.
Lemma framed_reads {A} (f : I3cController D → A) : framed (reads f).
Proof. by intros b s Hs. Qed.
Lemma framed_lift {A} (a : result A I3cError) : framed (lift a).
Proof. by intros b s Hs. Qed.
Lemma framed_writes f : (∀ s, same_books (config s) (config (f s))) → framed (writes f).
Proof. intros Hf b s Hs. apply Hf. Qed.
Lemma framed_require b e : framed (require b e).
Proof. unfold require. destruct b; [apply framed_ret|apply framed_raise]. Qed.
Lemma framed_bind {A B} (m : ctl A) (f : A → ctl B) : framed m → (∀ a, framed (f a)) → framed (m ≫= f).
Proof. intros Hm Hf b. apply framed_at_bind; [apply Hm|intros; apply Hf]. Qed.
Lemma framed_attempt {A} (m : ctl A) : framed m → framed (attempt m).
Proof. intros Hm b s Hs. specialize (Hm b s Hs). unfold attempt. by destruct (m s) as [[s1 a]|]. Qed.
Lemma framed_for {A} (l : list A) (f : A → ctl unit) : (∀ x, framed (f x)) → framed (drv_for l f).
Proof. intros Hf. induction l as [|x l IH]; [apply framed_ret|]. apply framed_bind; [apply Hf|done]. Qed.
Lemma framed_mapping_err {A} f (m : ctl A) : framed m → framed (mapping_err f m).
Proof. intros Hm. apply framed_bind; [by apply framed_attempt|intros; apply framed_lift]. Qed.
End framed.

Create HintDb framed.
#[export] Hint Constants Opaque : framed.
Create HintDb i3c_ops.
#[export] Hint Resolve framed_ret framed_raise framed_reads framed_lift framed_require : framed.

Ltac frame_step :=
  match goal with
  | |- framed (writes _) => apply framed_writes; intros; done
  | |- framed _ => solve [eauto with framed]
  | |- framed (mbind _ _) => apply framed_bind; [|intros]
  | |- framed (attempt _) => apply framed_attempt
  | |- framed (mapping_err _ _) => apply framed_mapping_err
  | |- framed (drv_for _ _) => apply framed_for; intros
  | |- framed (match ?x with _ => _ end) => destruct x
  | |- framed (let '(_, _) := ?x in _) => destruct x
  | |- framed _ => progress autounfold with i3c_ops
  end.
Ltac frame := repeat (cbv beta iota zeta; frame_step).

(** ** The laws *)

(** A direct command was answered: its target is attached, I3C, and claimed. *)
Definition ccc_target_claimed (c : I3cConfig) (p : CccPayload) : Prop :=
  ∀ cc tp rest, ccc p = Some cc → 0x7F < ccc_id cc → targets p = Some (tp :: rest) →
  ∃ i d, devices (attached c) !! i = Some d ∧ kind d = KindI3c ∧ dyn_addr d = tp_addr tp ∧ da_state d ≠ Unassigned.

Class InterfaceLaws (D : Type) `{HardwareInterface D} : Prop := {
  law_init : framed hi_init;
  law_set_ibi_mdb m : framed (hi_set_ibi_mdb m);
  law_reset_ctrl m : framed (hi_reset_ctrl m);
  law_ibi_enable a : framed (hi_ibi_enable a);
  law_ibi_disable a : framed (hi_ibi_disable a);
  law_detach p : framed (hi_detach_i3c_dev p);
  law_attach_i3c p a : framed (hi_attach_i3c_dev p a);
  law_attach_i2c p a : framed (hi_attach_i2c_dev p a);
  law_i2c_priv_xfer p ops : framed (hi_i2c_priv_xfer p ops);
  law_do_ccc p : framed (hi_do_ccc p);
  law_do_entdaa p : framed (hi_do_entdaa p);
  law_priv_xfer p msgs : framed (hi_priv_xfer p msgs);
  law_mark_xfer_faulted : framed hi_mark_xfer_faulted;
  law_enter_sw_mode : framed hi_enter_sw_mode;
  law_exit_sw_mode : framed hi_exit_sw_mode;
  law_toggle_scl_in n : framed (hi_toggle_scl_in n);
  law_gen_internal_stop : framed hi_gen_internal_stop;
  law_target_ibi_raise_hj : framed hi_target_ibi_raise_hj;
  law_target_pending_read_notify b n : framed (hi_target_pending_read_notify b n);
  (** [detach_i3c_dev] returns no result. *)
  law_detach_ok p s s' r : hi_detach_i3c_dev p s = Some (s', r) → r = Ok ();
  law_ccc_target p s s' p' : hi_do_ccc p s = Some (s', Ok p') → ccc_target_claimed (config s) p;
}.
#[export] Hint Resolve law_init law_set_ibi_mdb law_reset_ctrl law_ibi_enable law_ibi_disable law_detach law_attach_i3c
  law_attach_i2c law_i2c_priv_xfer law_do_ccc law_do_entdaa law_priv_xfer law_mark_xfer_faulted law_enter_sw_mode
  law_exit_sw_mode law_toggle_scl_in law_gen_internal_stop law_target_ibi_raise_hj law_target_pending_read_notify : framed.

(** ** The driver has them *)

Section driver.
Context {H : Type} `{I3cHw H}.
Notation i3c := (drv (I3cController (Ast1060I3c H)) I3cError).
Implicit Types m : i3c unit.

Lemma framed_get_bus : framed (get_bus : i3c nat).
Proof. apply framed_reads. Qed.
Lemma framed_rd r : framed (rd r : i3c Z).
Proof. intros b s Hs. unfold rd. by destruct (i3c_rd _ _) as [h v]. Qed.
Lemma framed_wr r v : framed (wr r v : i3c unit).
Proof. by apply framed_writes. Qed.
Lemma framed_on_ibi {A} (f : IbiPlane → A * IbiPlane) : framed (on_ibi f : i3c A).
Proof. intros b s Hs. unfold on_ibi. by destruct (f _). Qed.
#[local] Hint Resolve framed_get_bus framed_rd framed_wr framed_on_ibi : framed.

Lemma framed_times n m : framed m → framed (times n m).
Proof. intros Hm. induction n; cbn; frame. Qed.
Lemma framed_on_events f : framed (on_events f : i3c unit).
Proof. unfold on_events. frame. Qed.
Lemma framed_get_events : framed (get_events : i3c IsrEvents).
Proof. unfold get_events. frame. Qed.
Lemma framed_modify r f : framed (modify r f : i3c unit).
Proof. unfold modify. frame. Qed.
#[local] Hint Resolve framed_times framed_on_events framed_get_events framed_modify : framed.

Lemma framed_fifo_read (w : i3c Z) n : framed w → framed (fifo_read w n).
Proof.
  intros Hw. revert n. fix IH 1. intros [|[|[|[|n]]]]; cbn [fifo_read]; [frame..|].
  apply framed_bind; [done|intros]. apply framed_bind; [apply IH|intros; frame].
Qed.
Lemma framed_fifo_drain (w : i3c Z) n : framed w → framed (fifo_drain w n).
Proof. intros Hw. unfold fifo_drain. induction (Nat.shiftr _ _); cbn [repeat_read]; frame. Qed.
Lemma framed_tx_fifo_write l : framed (tx_fifo_write l : i3c unit).
Proof. revert l. fix IH 1. intros [|b0 [|b1 [|b2 [|b3 l]]]]; cbn [tx_fifo_write]; frame. Qed.
#[local] Hint Resolve framed_fifo_read framed_fifo_drain framed_tx_fifo_write : framed.
#[local] Hint Unfold
  wr_fields core_reset_assert core_reset_deassert global_reset_assert global_reset_deassert clock_on hw_rev_id
  i3cg_read_reg0 i3cg_write_reg0 i3cg_read_reg1 i3cg_program_reg1 i3cg_reg1_set_bits i3cg_reg1_clear_bits
  i3cg_reg1_overwrite set_hot_join_nack controller_enabled disable_controller enable_controller_primary
  enable_controller_secondary resume abort reg_set_ibi_mdb program_secondary_static_addr
  program_primary_dynamic_addr dynamic_addr dynamic_addr_valid hj_capable push_cmd pop_response
  rx_fifo_read rx_fifo_drain ibi_fifo_pop ibi_fifo_read ibi_fifo_drain set_ibi_data_threshold
  set_resp_buf_threshold set_rx_buf_threshold write_mr_reject read_sir_reject write_sir_reject
  assert_all_queue_resets write_reset_ctrl read_reset_ctrl read_slv_event_ctrl write_slv_event_ctrl
  raise_hot_join_request read_intr_status clear_intr_status enable_master_irqs enable_target_irqs
  enable_ibi_thld_irq mask_master_xfer_irqs unmask_master_xfer_irqs resp_buf_level ibi_status_count xfer_status
  dat_depth set_pid_mfg_id write_slv_pid_value read_slv_char_ctrl write_slv_char_ctrl read_slv_max_len raise_sir
  set_dev_op_mode set_i2c_fm_timing set_i2c_fmp_timing set_od_timing set_pp_timing read_sda_hold write_sda_hold
  write_bus_free_timing ibi_free_cycles dat_read dat_write_raw dat_set_reject dat_program_addr
  take_pending clear_pending take_fault events_reset enqueue_or_fault : i3c_ops.

(** The interrupt routine. *)
Lemma framed_isr_target_response b : framed (isr_target_response b : i3c unit).
Proof. unfold isr_target_response. frame. Qed.
Lemma framed_isr_master_ibi b : framed (isr_master_ibi b : i3c unit).
Proof. unfold isr_master_ibi. frame. Qed.
#[local] Hint Resolve framed_isr_target_response framed_isr_master_ibi : framed.
Lemma framed_isr_service ctx : framed (isr_service ctx : i3c unit).
Proof. unfold isr_service, isr_secondary, isr_primary, isr_target_responses, isr_master_ibis. frame. Qed.
#[local] Hint Resolve framed_isr_service : framed.
Lemma framed_yield ns : framed (yield_ns ns : i3c unit).
Proof. unfold yield_ns, dispatch_i3c_irq. frame. Qed.
#[local] Hint Resolve framed_yield : framed.

(** Polls, halts, resets. *)
Lemma framed_poll (w : i3c Z) cond delay : framed w → framed (poll_or_timeout w cond delay).
Proof.
  intros Hw. unfold poll_or_timeout, poll_with_timeout. apply framed_bind; [|intros; frame].
  induction (Z.to_nat _); cbn [poll_loop]; frame.
Qed.
#[local] Hint Resolve framed_poll : framed.
Lemma framed_xfer_status : framed (xfer_status : i3c Z).
Proof. frame. Qed.
Lemma framed_read_reset : framed (read_reset_ctrl : i3c Z).
Proof. frame. Qed.
#[local] Hint Resolve framed_xfer_status framed_read_reset : framed.
Lemma framed_reset_ctrl v : framed (reset_ctrl v : i3c unit).
Proof. unfold reset_ctrl. frame. Qed.
Lemma framed_set_xfer_faulted v : framed (set_xfer_faulted v : i3c unit).
Proof. by apply framed_writes. Qed.
#[local] Hint Resolve framed_reset_ctrl framed_set_xfer_faulted : framed.
Lemma framed_recover_queues by_sw v : framed (recover_queues by_sw v : i3c bool).
Proof. unfold recover_queues, enter_halt, exit_halt, get_cfg. frame. Qed.
#[local] Hint Resolve framed_recover_queues : framed.
Lemma framed_recover_or_fault by_sw v : framed (recover_or_fault by_sw v : i3c unit).
Proof. unfold recover_or_fault. frame. Qed.
#[local] Hint Resolve framed_recover_or_fault : framed.
Lemma framed_ensure : framed (ensure_xfer_ready : i3c unit).
Proof. unfold ensure_xfer_ready. frame. Qed.
#[local] Hint Resolve framed_ensure : framed.

(** Transfers. *)
Lemma framed_process_response st : framed (process_response st : i3c _).
Proof. unfold process_response. destruct st. frame. Qed.
#[local] Hint Resolve framed_process_response : framed.
Lemma framed_process_responses x : framed (process_responses x : i3c I3cXfer).
Proof.
  unfold process_responses. apply framed_bind; [frame|intros n]. apply framed_bind; [|intros; frame].
  generalize (cmds x, 0). induction n; intros st; cbn [response_loop]; frame.
Qed.
#[local] Hint Resolve framed_process_responses : framed.
Lemma framed_drop_response : framed (drop_response : i3c unit).
Proof. unfold drop_response. frame. Qed.
#[local] Hint Resolve framed_drop_response : framed.
Lemma framed_run_xfer l : framed (run_xfer l : i3c (option I3cXfer)).
Proof.
  unfold run_xfer. apply framed_bind; [|intros x].
  - unfold start_xfer, write_tx, push_words. frame.
  - unfold wait_xfer_complete. apply framed_bind; [|intros; frame].
    apply framed_bind; [|intros; unfold recover_timeout_xfer; frame].
    induction (Z.to_nat _); cbn [wait_loop]; frame.
Qed.
#[local] Hint Resolve framed_run_xfer : framed.

(** Bring-up, and the calls of the interface. *)
Lemma framed_sw_toggle n : framed (toggle_scl_in n : i3c unit).
Proof. unfold toggle_scl_in. apply framed_times. frame. Qed.
Lemma framed_sw_stop : framed (gen_internal_stop : i3c unit).
Proof. unfold gen_internal_stop. frame. Qed.
Lemma framed_sw_enter : framed (enter_sw_mode : i3c unit).
Proof. unfold enter_sw_mode. frame. Qed.
Lemma framed_sw_exit : framed (exit_sw_mode : i3c unit).
Proof. unfold exit_sw_mode. frame. Qed.
#[local] Hint Resolve framed_sw_toggle framed_sw_stop framed_sw_enter framed_sw_exit : framed.
Lemma framed_i3c_disable b : framed (i3c_disable b : i3c unit).
Proof. unfold i3c_disable. frame. Qed.
Lemma framed_i3c_enable : framed (i3c_enable : i3c unit).
Proof.
  intros b s Hs. unfold i3c_enable, get_cfg, mbind at 1, drv_bind at 1, reads, id. rewrite Hs.
  destruct b; [|revert s Hs; cut (framed (enable_controller_primary : i3c unit)); [intros Hf; apply Hf|frame]].
  generalize (core_period (config s)). intros p. revert s Hs.
  repeat (apply framed_at_bind; [first [apply framed_at_guarded; frame|apply (framed_here true); frame]|intros]).
  apply (framed_here true). frame.
Qed.
#[local] Hint Resolve framed_i3c_disable framed_i3c_enable : framed.
Lemma framed_init_reset : framed (init_reset : i3c unit).
Proof.
  unfold init_reset, get_cfg.
  assert (framed (upd_cfg (D := Ast1060I3c H) (λ c, match target_config c with
            | Some t => set_target_config (Some (set_tc_addr None t)) c | None => c end))).
  { apply framed_writes. intros s. cbn. by destruct (target_config _). }
  frame.
Qed.
Lemma framed_init_clock : framed (init_clock : i3c unit).
Proof. unfold init_clock, get_cfg, upd_cfg. frame. Qed.
Lemma framed_init_pid : framed (init_pid : i3c unit).
Proof. unfold init_pid, get_cfg. frame. Qed.
#[local] Hint Resolve framed_init_reset framed_init_clock framed_init_pid : framed.
Lemma framed_init : framed (init : i3c unit).
Proof. unfold init, init_program, set_role, get_cfg, upd_cfg. frame. Qed.
#[local] Hint Resolve framed_init : framed.

Lemma framed_do_ccc p : framed (do_ccc p : i3c CccPayload).
Proof. unfold do_ccc, do_ccc_broadcast, do_ccc_direct, ccc_status, get_cfg. frame. Qed.
#[local] Hint Resolve framed_do_ccc : framed.
Lemma framed_ibi_device a : framed (ibi_device a : i3c (nat * DeviceEntry)).
Proof. unfold ibi_device, get_cfg. frame. Qed.
#[local] Hint Resolve framed_ibi_device : framed.
Lemma framed_events_set a e v : framed (ccc_events_set do_ccc a e v : i3c unit).
Proof. unfold ccc_events_set. frame. Qed.
#[local] Hint Resolve framed_events_set : framed.
Lemma framed_wait_for_us f n : framed (wait_for_us f n : i3c bool).
Proof. induction n; cbn [wait_for_us]; frame. Qed.
#[local] Hint Resolve framed_wait_for_us : framed.
Lemma framed_target_tx_write b : framed (target_tx_write b : i3c unit).
Proof. unfold target_tx_write, get_cfg. frame. Qed.
#[local] Hint Resolve framed_target_tx_write : framed.

(** A call that got past a check passed it. *)
Lemma require_inv {S B} b (e : I3cError) (m : drv S I3cError B) s s' r :
  (require b e;; m) s = Some (s', Ok r) → b = true ∧ m s = Some (s', Ok r).
Proof. destruct b; [done|]. by cbn. Qed.

Lemma do_ccc_claimed p (s s' : I3cController (Ast1060I3c H)) p' :
  do_ccc p s = Some (s', Ok p') → ccc_target_claimed (config s) p.
Proof.
  intros Hd cc tp rest Hcc Hid Htg. revert Hd. unfold do_ccc, ensure_xfer_ready, get_cfg.
  unfold mbind at 1, drv_bind at 1. unfold mbind at 1, drv_bind at 1. cbn [reads].
  unfold require at 1. destruct (negb (xfer_faulted (hw s))); [|done]. cbn [mret drv_ret].
  unfold mbind at 1, drv_bind at 1. cbn [reads]. intros [_ Hd]%require_inv. rewrite Hcc in Hd.
  apply require_inv in Hd as [_ Hd]. rewrite (proj2 (Z.leb_gt _ _) Hid) in Hd.
  unfold do_ccc_direct in Hd. rewrite Htg in Hd. unfold get_cfg in Hd.
  unfold mbind at 1, drv_bind at 1 in Hd. cbn [reads] in Hd. apply require_inv in Hd as [Hal _].
  unfold target_allowed in Hal. destruct (find _ _) as [d|] eqn:Hf; [|done]. cbn in Hal.
  apply find_some in Hf as [Hin [Hk%bool_decide_eq_true Ha%Z.eqb_eq]%andb_true_iff].
  apply list_elem_of_In, list_elem_of_lookup in Hin as [i Hi]. exists i, d. split_and!; try done.
  intros Hu. by rewrite Hu in Hal.
Qed.

Lemma detach_returns p (s s' : I3cController (Ast1060I3c H)) r : detach_i3c_dev p s = Some (s', r) → r = Ok ().
Proof. by intros [= _ <-]. Qed.

#[export] Instance Ast1060I3c_laws : InterfaceLaws (Ast1060I3c H).
Proof.
  split; intros; cbn [hi_init hi_set_ibi_mdb hi_reset_ctrl hi_ibi_enable hi_ibi_disable hi_detach_i3c_dev
    hi_attach_i3c_dev hi_attach_i2c_dev hi_i2c_priv_xfer hi_do_ccc hi_do_entdaa hi_priv_xfer hi_mark_xfer_faulted
    hi_enter_sw_mode hi_exit_sw_mode hi_toggle_scl_in hi_gen_internal_stop hi_target_ibi_raise_hj
    hi_target_pending_read_notify Ast1060I3c_interface]; try solve [frame].
  all: try solve [unfold ibi_enable, ibi_disable, i2c_priv_xfer, do_entdaa, ccc_status, priv_xfer, target_ibi_raise_hj,
                    target_pending_read_notify, get_cfg; frame].
  - match goal with Hr : _ = Some _ |- _ => exact (detach_returns _ _ _ _ Hr) end.
  - by eapply do_ccc_claimed.
Qed.
End driver.

(** * The I3C controller keeps its books straight

    Every call of [ccc.rs] and [controller.rs] keeps the invariant of [I3cBook],
    whatever the hardware and the bus do, on any interface with the laws
    [InterfaceLaws]. *)
(** ** What holds if a call returns *)

Section pwp.
Context {S E : Type}.

Definition pwp {A} (m : drv S E A) (Q : result A E → S → Prop) (s : S) : Prop :=
  match m s with Some (s', a) => Q a s' | None => True end.

Lemma pwp_bind {A B} (m : drv S E A) (f : A → drv S E B) Q s :
  pwp m (λ a s', match a with Ok a => pwp (f a) Q s' | Err e => Q (Err e) s' end) s → pwp (m ≫= f) Q s.
Proof. unfold pwp, mbind, drv_bind. by destruct (m s) as [[s' [a|e]]|]. Qed.
Lemma pwp_mono {A} (m : drv S E A) (P Q : result A E → S → Prop) s :
  pwp m P s → (∀ a s', P a s' → Q a s') → pwp m Q s.
Proof. unfold pwp. destruct (m s) as [[s' a]|]; auto. Qed.
Lemma pwp_attempt {A} (m : drv S E A) Q s : pwp m (λ a, Q (Ok a)) s → pwp (attempt m) Q s.
Proof. unfold pwp, attempt. by destruct (m s) as [[s' a]|]. Qed.
Lemma pwp_require b (e : E) Q s : (b = true → Q (Ok ()) s) → (b = false → Q (Err e) s) → pwp (require b e) Q s.
Proof. destruct b; intros H1 H2; [by apply H1|by apply H2]. Qed.
Lemma pwp_get {A B} (f : S → A) (k : A → drv S E B) Q s : pwp (k (f s)) Q s → pwp (reads f ≫= k) Q s.
Proof. done. Qed.
Lemma pwp_ok_or {A B} (o : option A) (e : E) (k : A → drv S E B) Q s :
  (∀ x, o = Some x → pwp (k x) Q s) → (o = None → Q (Err e) s) → pwp (lift (ok_or o e) ≫= k) Q s.
Proof. destruct o; intros H1 H2; [by apply H1|by apply H2]. Qed.
Lemma pwp_check {B} b (e : E) (k : drv S E B) Q s :
  (b = true → pwp k Q s) → (b = false → Q (Err e) s) → pwp (require b e;; k) Q s.
Proof. destruct b; intros H1 H2; [by apply H1|by apply H2]. Qed.
Lemma pwp_run {A} (m : drv S E A) (Q : result A E → S → Prop) s : (∀ s' a, m s = Some (s', a) → Q a s') → pwp m Q s.
Proof. unfold pwp. destruct (m s) as [[s' a]|]; auto. Qed.
End pwp.

Section controller.
Context {D : Type} `{HardwareInterface D} `{!InterfaceLaws D}.
Notation ctl := (drv (I3cController D) I3cError).
Implicit Types s : I3cController D.

Definition inv s : Prop := config_ok (config s).
Definition keeps {A} (m : ctl A) : Prop := ∀ s, inv s → pwp m (λ _, inv) s.

(** ** Calls that keep it step by step *)

Lemma inv_books s s' : inv s → same_books (config s) (config s') → inv s'.
Proof. intros Hi (Ha & Hb & _). by eapply config_ok_frame. Qed.

Lemma keeps_framed {A} (m : ctl A) : framed m → keeps m.
Proof. intros Hm s Hi. apply pwp_run. intros s' a Hr. eapply inv_books; [done|]. by eapply framed_run. Qed.
Lemma keeps_bind {A B} (m : ctl A) (f : A → ctl B) : keeps m → (∀ a, keeps (f a)) → keeps (m ≫= f).
Proof.
  intros Hm Hf s Hi. apply pwp_bind. eapply pwp_mono; [by apply Hm|]. intros [a|e] s' Hs'; [by apply Hf|done].
Qed.
Lemma keeps_attempt {A} (m : ctl A) : keeps m → keeps (attempt m).
Proof. intros Hm s Hi. apply pwp_attempt. by apply Hm. Qed.
Lemma keeps_upd f : (∀ c, config_ok c → config_ok (f c)) → keeps (upd_cfg f).
Proof. intros Hf s Hi. by apply Hf. Qed.
Lemma keeps_upd_dev i f : (∀ d, same_identity d (f d)) → keeps (upd_cfg (upd_dev i f)).
Proof. intros Hf. apply keeps_upd. intros c Hc. by apply upd_dev_ok. Qed.
Lemma keeps_upd_dev_at da f : (∀ d, same_identity d (f d)) → keeps (upd_dev_at da f).
Proof. intros Hf. apply keeps_upd. intros c Hc. case_match; [by apply upd_dev_ok|done]. Qed.
Lemma keeps_upd_all f : (∀ d, same_identity d (f d)) → keeps (upd_all_i3c f).
Proof. intros Hf. apply keeps_upd. intros c Hc. apply fmap_devices_ok; [done|]. intros d. by case_bool_decide. Qed.
Lemma keeps_for {A} (l : list A) (f : A → ctl unit) : (∀ x, keeps (f x)) → keeps (drv_for l f).
Proof. intros Hf. induction l as [|x l IH]; [by apply keeps_framed, framed_ret|]. by apply keeps_bind. Qed.

Lemma same_set_mrl_ibi m o d : same_identity d (set_mrl_ibi m o d).
Proof. by destruct o. Qed.
Lemma same_upd_ibi f d : same_identity d (upd_ibi f d).
Proof. done. Qed.
End controller.

Create HintDb keeps.
#[export] Hint Constants Opaque : keeps.
Ltac keep_step :=
  match goal with
  | |- keeps (mbind _ _) => apply keeps_bind; [|intros]
  | |- keeps _ => solve [eauto with keeps]
  | |- keeps (attempt _) => apply keeps_attempt
  | |- keeps (upd_dev_at _ _) => apply keeps_upd_dev_at; first [apply same_set_mrl_ibi|done]
  | |- keeps (upd_all_i3c _) => apply keeps_upd_all; first [apply same_set_mrl_ibi|done]
  | |- keeps (upd_cfg (upd_dev _ _)) => apply keeps_upd_dev; done
  | |- keeps (match ?x with _ => _ end) => destruct x
  | |- keeps (let '(_, _) := ?x in _) => destruct x
  | |- keeps _ => apply keeps_framed; solve [frame]
  end.
Ltac keep := repeat (cbv beta iota zeta; keep_step).

Section calls.
Context {D : Type} `{HardwareInterface D} `{!InterfaceLaws D}.
Notation ctl := (drv (I3cController D) I3cError).
Implicit Types s : I3cController D.

(** ** Command codes *)

Lemma framed_direct_read i da n : framed (ccc_direct_read i da n : ctl (list Z)).
Proof. unfold ccc_direct_read. frame. Qed.
Lemma framed_direct_write i da l : framed (ccc_direct_write i da l : ctl unit).
Proof. unfold ccc_direct_write. frame. Qed.
#[local] Hint Resolve framed_direct_read framed_direct_write : framed.
Lemma framed_getbcr da : framed (ccc_getbcr da : ctl Z).
Proof. unfold ccc_getbcr. frame. Qed.
Lemma framed_getdcr da : framed (ccc_getdcr da : ctl Z).
Proof. unfold ccc_getdcr. frame. Qed.
#[local] Hint Resolve framed_getbcr framed_getdcr : framed.
Lemma framed_getdcr_or_zero da : framed (getdcr_or_zero da : ctl Z).
Proof. unfold getdcr_or_zero. frame. Qed.
Lemma framed_getpid da : framed (ccc_getpid da : ctl Z).
Proof. unfold ccc_getpid. frame. Qed.
Lemma framed_setnewda_bus c n : framed (ccc_setnewda_bus_only c n : ctl unit).
Proof. unfold ccc_setnewda_bus_only. frame. Qed.
#[local] Hint Resolve framed_getdcr_or_zero framed_getpid framed_setnewda_bus : framed.

Lemma keeps_setmwl da v : keeps (ccc_setmwl da v : ctl unit).
Proof. unfold ccc_setmwl. keep. Qed.
Lemma keeps_setmrl da v o : keeps (ccc_setmrl da v o : ctl unit).
Proof. unfold ccc_setmrl. keep. Qed.
Lemma keeps_setmwl_all v : keeps (ccc_setmwl_all v : ctl unit).
Proof. unfold ccc_setmwl_all. keep. Qed.
Lemma keeps_setmrl_all v o : keeps (ccc_setmrl_all v o : ctl unit).
Proof. unfold ccc_setmrl_all. keep. Qed.
Lemma keeps_getmwl da : keeps (ccc_getmwl da : ctl Z).
Proof. unfold ccc_getmwl. keep. Qed.
Lemma keeps_getmrl da : keeps (ccc_getmrl da : ctl (Z * option Z)).
Proof. unfold ccc_getmrl, get_cfg. keep. Qed.
Lemma keeps_getmxds da : keeps (ccc_getmxds da : ctl (Z * Z)).
Proof. unfold ccc_getmxds. keep. Qed.
Lemma keeps_rstdaa : keeps (ccc_rstdaa_all : ctl unit).
Proof.
  unfold ccc_rstdaa_all. apply keeps_bind; [keep|]. intros [p|e].
  - apply keeps_upd, commit_rstdaa_ok.
  - apply keeps_bind; [|intros; keep]. destruct (ambiguous e); [|keep]. apply keeps_upd, mark_rstdaa_unknown_ok.
Qed.

Lemma keeps_mark_setnewda i n : 0 ≤ n → keeps (mark_setnewda_unknown i n : ctl unit).
Proof.
  intros Hn. apply keeps_upd. intros c Hc. apply upd_dev_ok; [|done]. by apply mark_da_unknown_ok.
Qed.

(** A call on the same books, whatever it returns. *)
Lemma pwp_framed {A} (m : ctl A) (Q : result A I3cError → I3cController D → Prop) s :
  framed m → (∀ a s', same_books (config s) (config s') → Q a s') → pwp m Q s.
Proof. intros Hm HQ. apply pwp_run. intros s' a Hr. apply HQ. by eapply framed_run. Qed.

(** A move that was sent had usable addresses. *)
Lemma pwp_setnewda_bus c n (Q : result unit I3cError → I3cController D → Prop) s :
  (∀ s', same_books (config s) (config s') → c ≠ 0 → n ≠ 0 → n < I3C_BROADCAST_ADDR → Q (Ok ()) s') →
  (∀ s' e, same_books (config s) (config s') → Q (Err e) s') →
  pwp (ccc_setnewda_bus_only c n) Q s.
Proof.
  intros H1 H2. unfold ccc_setnewda_bus_only. apply pwp_bind, pwp_require; [|intros _; by apply H2].
  intros Hb. apply negb_true_iff in Hb. rewrite !orb_false_iff, !Z.eqb_neq, Z.leb_gt in Hb.
  destruct Hb as [[Hc Hn] Hlt]. apply pwp_bind, pwp_framed; [frame|]. intros [p|e] s' Hs'; [by apply H1|by apply H2].
Qed.

Lemma reassign_books c c' i d curr n :
  config_ok c → same_books c c' → devices (attached c) !! i = Some d → kind d = KindI3c → dyn_addr d = curr → 0 < n →
  config_ok (reassign_da curr n c').2.
Proof.
  intros Hc (Ha & Hb & _) Hi Hk Hd Hn. apply reassign_ok; [by eapply config_ok_frame|done|].
  rewrite Ha. intros j e Hj He. assert (j = i) as -> by (eapply (ok_addr _ Hc); [done..|congruence]). congruence.
Qed.

Lemma pwp_setnewda_commit s0 s i d pos curr n :
  inv s0 → same_books (config s0) (config s) → devices (attached (config s0)) !! i = Some d → kind d = KindI3c →
  dyn_addr d = curr → 0 < n → pwp (setnewda_commit i pos curr n) (λ _, inv) s.
Proof.
  intros H0 Hb Hi Hk Hd Hn. unfold setnewda_commit.
  assert (keeps (mark_setnewda_unknown i n;; hi_mark_xfer_faulted;; raise (CccError CccInvalid) : ctl unit)) as Hkeep.
  { apply keeps_bind; [apply keeps_mark_setnewda; lia|intros; keep]. }
  apply pwp_bind, pwp_attempt, pwp_framed; [frame|]. intros r s2 Hb2.
  assert (inv s2) as Hi2 by (eapply inv_books; [exact H0|by etrans]).
  destruct r as [[]|e]; cbn [is_ok negb]; [|by apply Hkeep].
  apply pwp_get. destruct (is_ok _); [|by apply Hkeep].
  exact (reassign_books _ _ i d curr n H0 (transitivity Hb Hb2) Hi Hk Hd Hn).
Qed.

Lemma keeps_setnewda curr n : 0 ≤ n → keeps (ccc_setnewda curr n : ctl unit).
Proof.
  intros Hn s Hs. unfold ccc_setnewda, get_cfg. apply pwp_get. apply pwp_ok_or; [|done].
  intros i (d & Hd & Hda)%find_by_addr_Some. unfold id in *. apply pwp_ok_or; [|done]. rewrite Hd. intros ? [= <-].
  apply pwp_check; [|done]. intros [Hk%bool_decide_eq_true _]%andb_true_iff.
  apply pwp_ok_or; [|done]. intros pos _. apply pwp_check; [|done]. intros _.
  apply pwp_bind, pwp_attempt, pwp_setnewda_bus.
  - intros s1 Hb1 _ Hn0 _. apply pwp_bind.
    eapply pwp_mono; [eapply pwp_setnewda_commit; [exact Hs|exact Hb1|exact Hd|done|done|lia]|].
    intros [[]|e] s2 Hs2; [|done].
    assert (keeps (if bool_decide (ibi_state d = IbiEnabled) then
                     r ← attempt (hi_ibi_enable n);
                     upd_dev_at n (upd_ibi (λ _, ibi_after_enec r IbiDisabled));; lift (map_err map_ccc_err r)
                   else mret () : ctl unit)) as Hkeep by keep.
    by apply Hkeep.
  - intros s1 e Hb1. assert (inv s1) as Hi1 by (by eapply inv_books).
    assert (keeps ((if ambiguous e then mark_setnewda_unknown i n else mret ());; raise e : ctl unit)) as Hkeep.
    { apply keeps_bind; [|intros; keep]. destruct (ambiguous e); [by apply keeps_mark_setnewda|keep]. }
    by apply Hkeep.
Qed.

(** ** Devices *)

Lemma slot_taken_false a n : slot_taken a n = false → (n < length (by_pos a))%nat → by_pos a !! n = Some None.
Proof.
  unfold slot_taken. intros Hs%bool_decide_eq_false Hn. destruct (lookup_lt_is_Some_2 _ _ Hn) as [[i|] Hi]; [|done].
  destruct Hs. rewrite Hi. cbn. eauto.
Qed.

(** Entering a device that passed the checks. *)
Lemma pwp_attach_entry s0 s d n :
  inv s0 → same_books (config s0) (config s) → slot_taken (attached (config s0)) n = false → (n < 8)%nat → dev_pos d = Some n →
  0 < dyn_addr d → is_free (addrbook (config s0)) (dyn_addr d) = true → desired_da d = dyn_addr d →
  match kind d with KindI3c => is_Some (pid d) | KindI2c => pid d = None ∧ static_addr d = dyn_addr d end →
  (∀ i e, devices (attached (config s0)) !! i = Some e → is_Some (pid d) → pid e ≠ pid d) →
  pwp (attach_entry d n (dyn_addr d)) (λ _, inv) s.
Proof.
  intros H0 (Ha & Hb & Hc) Hst Hn Hp Hda Hf Hw Hk Hpid.
  assert (inv s) as Hi by (by eapply inv_books).
  pose proof (table_slots _ (ok_table _ H0)) as Hs8. pose proof (slot_taken_false _ _ Hst ltac:(lia)) as Hfree.
  unfold attach_entry, get_cfg. apply pwp_get. unfold attach. rewrite Ha.
  destruct (Nat.ltb_spec (length (devices (attached (config s0)))) DEVICES_CAP) as [Hcap|Hcap].
  - unfold DEVICES_CAP in Hcap. apply pwp_bind. cbn [upd_cfg writes pwp].
    replace (length (devices (attached (config s0))) <=? 255)%nat with true by (symmetry; apply Nat.leb_le; lia).
    cbn [negb]. unfold map_pos. cbn [set_devices by_pos devices].
    replace (n <? length (by_pos (attached (config s0))))%nat with true by (symmetry; apply Nat.ltb_lt; lia).
    apply pwp_bind. cbn.
    pose proof (proj1 (is_free_spec _ (dyn_addr d) (ok_book _ H0) ltac:(lia)) Hf) as (Hr & _ & _).
    eapply config_ok_frame; [..|apply (attach_ok (config s0) d n); try done; lia]; cbn; [done|by rewrite Hb].
  - assert (keeps (hi_detach_i3c_dev n;; raise NoFreeSlot : ctl unit)) as Hkeep by keep. by apply Hkeep.
Qed.

Lemma slot_usable_lt c n : slot_usable c n = true → (n < 8)%nat.
Proof. unfold slot_usable. intros [H1%Nat.ltb_lt _]%andb_true_iff. exact H1. Qed.

Lemma keeps_attach_i3c p desired slot : 0 ≤ desired → keeps (ctl_attach_i3c_dev p desired slot : ctl unit).
Proof.
  intros Hd s Hs. unfold ctl_attach_i3c_dev, ensure_primary, get_cfg. apply pwp_bind, pwp_get, pwp_require; [|done]. intros _.
  apply pwp_get. apply pwp_check; [|done]. rewrite negb_true_iff, orb_false_iff, Z.eqb_neq. intros [Hd0 _].
  apply pwp_check; [|done]. intros _. apply pwp_check; [|done]. intros Hsl%slot_usable_lt.
  apply pwp_check; [|done]. intros Hst%negb_true_iff. apply pwp_check; [|done]. intros _.
  apply pwp_check; [|done]. intros Hf. apply pwp_check; [|done]. intros _. apply pwp_check; [|done]. intros Hpid%negb_true_iff.
  apply pwp_bind, pwp_framed; [frame|]. intros [[]|e] s1 Hb1; [|by eapply inv_books].
  apply (pwp_attach_entry s s1 (set_dev_pos (Some (Z.to_nat slot)) (new_i3c p desired))); cbn; try done; [lia|].
  intros i e Hi _ Hp. unfold pid_attached in Hpid. rewrite <- not_true_iff_false in Hpid. apply Hpid.
  apply existsb_exists. exists e. split; [by apply list_elem_of_In, list_elem_of_lookup_2 with i|by apply bool_decide_eq_true].
Qed.

Lemma keeps_attach_i2c sa slot : 0 ≤ sa → keeps (ctl_attach_i2c_dev sa slot : ctl unit).
Proof.
  intros Hd s Hs. unfold ctl_attach_i2c_dev, ensure_primary, get_cfg. apply pwp_bind, pwp_get, pwp_require; [|done]. intros _.
  apply pwp_get. apply pwp_check; [|done]. rewrite negb_true_iff, orb_false_iff, Z.eqb_neq. intros [Hd0 _].
  apply pwp_check; [|done]. intros Hsl%slot_usable_lt.
  apply pwp_check; [|done]. intros Hst%negb_true_iff. apply pwp_check; [|done]. intros _.
  apply pwp_check; [|done]. intros Hf. apply pwp_check; [|done]. intros _.
  apply pwp_bind, pwp_framed; [frame|]. intros [[]|e] s1 Hb1; [|by eapply inv_books].
  apply (pwp_attach_entry s s1 (set_dev_pos (Some (Z.to_nat slot)) (new_i2c sa))); cbn; try done; lia.
Qed.

Lemma keeps_detach_by_idx i : keeps (ctl_detach_i3c_dev_by_idx i : ctl unit).
Proof.
  intros s Hs. unfold ctl_detach_i3c_dev_by_idx, ensure_primary, get_cfg. apply pwp_bind, pwp_get, pwp_require; [|done]. intros _.
  apply pwp_get. unfold id. destruct (devices (attached (config s)) !! i) as [d|] eqn:Hi; [|done].
  apply pwp_check; [|done]. intros _. pose proof (dev_range _ _ (ok_dev _ Hs _ _ Hi)) as Hr.
  rewrite (proj2 (Z.eqb_neq _ 0)) by lia. cbn [negb]. apply pwp_bind. cbn [upd_cfg writes pwp].
  destruct (table_own _ (ok_table _ Hs) _ _ Hi) as [pos ->].
  apply pwp_bind, pwp_run. intros s1 r Hrun. pose proof (framed_run _ _ _ _ (law_detach _) Hrun) as (Ha & Hb & _).
  rewrite (law_detach_ok _ _ _ _ Hrun). cbn.
  eapply config_ok_frame; [..|exact (detach_ok _ _ _ Hs Hi)]; cbn; [by rewrite Ha|by rewrite Hb].
Qed.

Lemma keeps_detach pos : keeps (ctl_detach_i3c_dev pos : ctl unit).
Proof.
  intros s Hs. unfold ctl_detach_i3c_dev, ensure_primary, get_cfg. apply pwp_bind, pwp_get, pwp_require; [|done]. intros _.
  apply pwp_get. unfold id. destruct (slot_usable _ _); cbn [negb]; [|done].
  apply pwp_check; [|done]. intros _.
  destruct (mjoin (by_pos (attached (config s)) !! pos)) as [i|] eqn:Hi; cbn [mbind option_bind].
  - assert (by_pos (attached (config s)) !! pos = Some (Some i)) as Hp.
    { by destruct (by_pos _ !! pos) as [[]|]; simplify_eq/=. }
    destruct (proj1 (table_map _ (ok_table _ Hs) _ _) Hp) as (d & Hd & _). rewrite Hd.
    pose proof (dev_range _ _ (ok_dev _ Hs _ _ Hd)) as Hr.
    rewrite (proj2 (Z.eqb_neq _ 0)) by lia. cbn [negb]. apply pwp_bind. cbn [upd_cfg writes pwp].
    apply pwp_bind. cbn [upd_cfg writes pwp]. apply pwp_framed; [frame|]. intros a s1 (Ha & Hb & _).
    eapply config_ok_frame; [..|exact (detach_ok _ _ _ Hs Hd)]; rewrite ?Ha, ?Hb; cbn; [|done].
    unfold detach_by_pos. by rewrite Hp.
  - apply pwp_bind. cbn [mret drv_ret pwp]. apply pwp_bind. cbn [upd_cfg writes pwp].
    apply pwp_framed; [frame|]. intros a s1 Hb. eapply inv_books; [|exact Hb]. unfold inv. cbn. unfold detach_by_pos.
    destruct (by_pos (attached (config s)) !! pos) as [[k|]|]; [done|..]; by apply (config_ok_frame (config s)).
Qed.

(** ** In-band interrupts, bring-up *)

Lemma keeps_enable_ibi a m : keeps (enable_ibi a m : ctl unit).
Proof. unfold enable_ibi, ensure_primary, get_cfg. keep. Qed.
Lemma keeps_disable_ibi a : keeps (disable_ibi a : ctl unit).
Proof. unfold disable_ibi, ensure_primary, get_cfg. keep. Qed.
Lemma keeps_reattach i : keeps (reattach i : ctl unit).
Proof. unfold reattach, get_cfg. keep. Qed.
#[local] Hint Resolve keeps_reattach : keeps.
Lemma keeps_reinit : keeps (reinit : ctl unit).
Proof.
  unfold reinit, get_cfg. apply keeps_bind; [keep|intros _]. apply keeps_bind; [|intros _].
  - apply keeps_upd. intros c Hc. by apply fmap_devices_ok.
  - apply keeps_bind; [keep|intros n]. apply keeps_for. intros x. keep.
Qed.
Lemma keeps_start : keeps (start : ctl unit).
Proof. unfold start, get_cfg. keep. Qed.

(** ** Address assignment *)

Lemma keeps_mark_unknown i : keeps (upd_cfg (mark_da_unknown i None) : ctl unit).
Proof. apply keeps_upd. intros c Hc. by apply mark_da_unknown_ok. Qed.
Lemma keeps_mark_unknown_of o a :
  match a with Some a => 0 ≤ a | None => True end → keeps (mark_unknown_of o a : ctl unit).
Proof. intros Ha. apply keeps_upd. intros c Hc. destruct o; [by apply mark_da_unknown_ok|done]. Qed.
Lemma keeps_set_state_of o st : keeps (set_state_of o st : ctl unit).
Proof. apply keeps_upd. intros c Hc. destruct o; [by apply upd_dev_ok|done]. Qed.
Lemma keeps_verify_entry i b d : keeps (verify_entry i b d : ctl unit).
Proof. apply keeps_upd. intros c Hc. by apply upd_dev_ok. Qed.
#[local] Hint Resolve keeps_mark_unknown keeps_set_state_of keeps_verify_entry : keeps.

Lemma keeps_daa_known pos i pr a need : keeps (daa_known pos i pr a need : ctl Z).
Proof. unfold daa_known, get_cfg. keep. Qed.
#[local] Hint Resolve keeps_daa_known : keeps.

(** A parking address that was not used is released: no device has it. *)
Lemma keeps_daa_park pr a : keeps (daa_park pr a : ctl unit).
Proof.
  intros s Hs. unfold daa_park, get_cfg. apply pwp_get. apply pwp_ok_or; [|done]. intros park Hpark.
  pose proof (alloc_from_spec (addrbook (config s)) 8) as Ha. rewrite Hpark in Ha. destruct Ha as (Hr & Hf & _).
  apply pwp_bind. cbn [upd_cfg writes pwp].
  assert (inv (set_config (set_book (mark_use park true)) s)) as Hs1 by (apply mark_use_more; [done|lia]).
  apply pwp_bind, pwp_attempt, pwp_framed; [frame|]. intros r s1 Hb. assert (inv s1) as Hi1 by (by eapply inv_books).
  destruct r as [[]|e]; [by apply keeps_set_state_of|].
  apply pwp_bind. destruct (ambiguous e).
  - eapply pwp_mono; [apply keeps_mark_unknown_of; [|done]; lia|]. by intros [[]|] s2 Hs2.
  - cbn. apply mark_use_less; [done|lia|]. destruct Hb as (Hat & _ & _). cbn in Hat. rewrite Hat. intros i d Hd Hx.
    pose proof (attached_not_free _ _ _ Hs Hd) as Hn. rewrite Hx in Hn. congruence.
Qed.
#[local] Hint Resolve keeps_daa_park : keeps.

Lemma keeps_daa_turn pos need : keeps (daa_turn pos need : ctl _).
Proof.
  assert (∀ o, keeps (mark_unknown_of o None : ctl unit)) by (intros o; by apply keeps_mark_unknown_of).
  unfold daa_turn, get_cfg. keep.
Qed.
#[local] Hint Resolve keeps_daa_turn : keeps.
Lemma keeps_bus_daa : keeps (bus_daa : ctl Z).
Proof.
  unfold bus_daa, ensure_primary, get_cfg. apply keeps_bind; [keep|intros _]. apply keeps_bind; [keep|intros a].
  apply keeps_bind; [|intros; keep]. generalize (8 * length (by_pos a))%nat. intros fuel.
  generalize (daa_need (devices a)) 0 0%nat.
  induction fuel as [|fuel IH]; intros need v pos; cbn [daa_loop]; keep.
Qed.

(** What GETPID identified is the attached I3C device. *)
Lemma pwp_getpid a i d (Q : result Z I3cError → I3cController D → Prop) s :
  inv s → devices (attached (config s)) !! i = Some d → dyn_addr d = a →
  (∀ p s', same_books (config s) (config s') → kind d = KindI3c → Q (Ok p) s') →
  (∀ e s', same_books (config s) (config s') → Q (Err e) s') →
  pwp (ccc_getpid a) Q s.
Proof.
  intros Hs Hi Hd H1 H2. unfold ccc_getpid. apply pwp_bind. unfold mapping_err. apply pwp_bind, pwp_attempt, pwp_run.
  intros s1 r Hrun. pose proof (framed_run _ _ _ _ (law_do_ccc _) Hrun) as Hb. destruct r as [p|e]; [|by apply H2].
  destruct (law_ccc_target _ _ _ _ Hrun _ _ _ eq_refl ltac:(done) eq_refl) as (j & e & Hj & Hk & He & _).
  cbn in He. assert (j = i) as -> by (eapply (ok_addr _ Hs); [done..|congruence]). simplify_eq. by apply H1.
Qed.

Lemma keeps_assign a : keeps (assign_dynamic_address a : ctl Z).
Proof.
  intros s Hs. unfold assign_dynamic_address, ensure_primary, get_cfg.
  apply pwp_bind, pwp_get, pwp_require; [|done]. intros _. apply pwp_get. apply pwp_ok_or; [|done]. intros slot _.
  apply pwp_ok_or; [|done]. intros i (d & Hd & Hda)%find_by_addr_Some.
  (* the claim *)
  apply pwp_bind. eapply pwp_mono with (P := λ _ s1, inv s1 ∧
    ∃ d1, devices (attached (config s1)) !! i = Some d1 ∧ same_identity d d1).
  { rewrite Hd. case_bool_decide; [split; [done|by exists d]|].
    apply pwp_bind, pwp_attempt, pwp_framed; [frame|]. intros r s1 (Ha & Hb & Hsec).
    assert (inv s1) as Hi1 by (eapply inv_books; [exact Hs|done]).
    assert (inv (set_config (mark_da_unknown i None) s1)) by (by apply mark_da_unknown_ok).
    assert (∃ d1, devices (attached (mark_da_unknown i None (config s1))) !! i = Some d1 ∧ same_identity d d1).
    { unfold mark_da_unknown. rewrite Ha, Hd. case_bool_decide; [exists d; by rewrite Ha|]. cbn.
      rewrite list_lookup_alter_eq, Ha, Hd. cbn. eexists. split; [done|]. by repeat split. }
    destruct r as [[]|e]; [done|]. destruct (ambiguous e); [done|]. split; [done|]. exists d. by rewrite Ha. }
  intros [[]|e] s1 (Hi1 & d1 & Hd1 & Hid); [|done]. destruct Hid as (Hk & Hp & _ & Hy & _).
  apply pwp_bind, (pwp_getpid a i d1); [done..|congruence| |by intros e s2 Hb2; eapply inv_books].
  intros p s2 Hb2 Hk1. pose proof Hb2 as (Ha2 & _ & _). assert (inv s2) as Hi2 by (by eapply inv_books).
  apply pwp_get. apply pwp_ok_or; [|done]. intros d2 Hd2. rewrite Ha2, Hd1 in Hd2. injection Hd2 as <-.
  pose proof (dev_kind _ _ (ok_dev _ Hi1 _ _ Hd1)) as Hkd. rewrite Hk1 in Hkd. destruct Hkd as [op Hop]. rewrite Hop.
  destruct (Z.eqb_spec p op) as [->|Hne].
  2:{ apply pwp_bind. cbn. apply upd_dev_ok; [done|]. done. }
  apply pwp_bind. cbn [mret drv_ret pwp]. apply pwp_bind, pwp_framed; [frame|]. intros [b|e] s3 Hb3; [|by eapply inv_books].
  apply pwp_bind, pwp_framed; [frame|]. intros [dc|e] s4 Hb4; [|eapply inv_books; [exact Hi2|by etrans]].
  assert (attached (config s4) = attached (config s1)) as Ha4.
  { destruct Hb3 as (? & _), Hb4 as (? & _). congruence. }
  assert (inv s4) as Hi4 by (eapply inv_books; [exact Hi2|by etrans]).
  apply pwp_bind. cbn [upd_cfg writes pwp].
  assert (inv (set_config (upd_dev i (λ e, set_da_state Verified (set_dcr dc (set_bcr b (set_pid (Some op) e))))) s4)) as Hi5.
  { apply (config_same (config s4)); [done|apply Hi4|done| |by intros j e He; eapply Hi4].
    apply Forall2_same_length_lookup. cbn. split; [by rewrite length_alter|]. intros j e e' He He'.
    destruct (decide (j = i)) as [->|].
    - rewrite list_lookup_alter_eq in He'. rewrite He in He'. cbn in He'. simplify_eq.
      rewrite Ha4 in He. simplify_eq. by repeat split.
    - rewrite list_lookup_alter_ne in He' by done. by simplify_eq. }
  apply pwp_get. apply pwp_ok_or; [|done]. intros d5 _.
  assert (keeps (r ← attempt (hi_ibi_enable (dyn_addr d5));
                 upd_cfg (upd_dev i (upd_ibi (ibi_after_enec r)));; lift r;; mret (dyn_addr d5) : ctl Z)) as Hkeep by keep.
  by apply Hkeep.
Qed.
End calls.
