(* ===== verification/I3cBus.v ===== *)
(** * An I3C bus

    The protocol side of address assignment: targets with a provisional ID, their
    characteristics and a dynamic address, and what ENTDAA, SETNEWDA, RSTDAA and the
    read commands do to them; and the interface of a controller on such a bus
    ([DaaBus], [DaaLaws]): a command reaches the target its slot names.

    The second part is a controller block with such a bus on it, a concrete instance
    of [I3cHw]. *)

From S2P Require Import Prelude Bytes RegMonad I3cConfig I3cIbi I3cRegs I3cDev I3cCtl I3cBook I3cInv.
From stdpp Require Import base tactics option list numbers.
Local Open Scope Z_scope.

(** ** Targets *)

(** A target without a DCR does not acknowledge GETDCR. *)
Record target := mkTarget { tg_pid : Z; tg_bcr : Z; tg_dcr : option Z; tg_da : option Z }.
Definition set_da (a : option Z) (t : target) : target := mkTarget (tg_pid t) (tg_bcr t) (tg_dcr t) a.

Definition answers (a : Z) (t : target) : bool := bool_decide (tg_da t = Some a).
Definition at_addr (l : list target) (a : Z) : option nat := position (answers a) l.

(** Targets that take part in an assignment. *)
Definition waiting (t : target) : bool := bool_decide (tg_da t = None).

(** Arbitration as on the controller block below: the lowest provisional ID among
    the targets without an address wins. *)
Fixpoint winner (l : list target) : option nat :=
  match l with
  | [] => None
  | t :: l =>
      match tg_da t, winner l with
      | None, Some j =>
          match l !! j with Some u => if tg_pid u <? tg_pid t then Some (S j) else Some 0%nat | None => Some 0%nat end
      | None, None => Some 0%nat
      | Some _, o => S <$> o
      end
  end.

Definition bus_entdaa (a : Z) (l : list target) : option (list target) :=
  (λ i, alter (set_da (Some a)) i l) <$> winner l.
Definition bus_setnewda (a a' : Z) (l : list target) : option (list target) :=
  (λ i, alter (set_da (Some a')) i l) <$> at_addr l a.
Definition bus_rstdaa (l : list target) : list target := set_da None <$> l.

(** A provisional ID on the wire: six bytes, the highest first. *)
Definition pid_bytes (p : Z) : list Z := (λ e, Z.land (Z.shiftr p e) 255) <$> [40; 32; 24; 16; 8; 0].

(** The answer to a read command, or no acknowledgement. *)
Definition bus_read (i a : Z) (l : list target) : option (list Z) :=
  t ← at_addr l a ≫= (λ n, l !! n);
  if i =? I3C_CCC_GETPID then Some (pid_bytes (tg_pid t))
  else if i =? I3C_CCC_GETBCR then Some [tg_bcr t]
  else if i =? I3C_CCC_GETDCR then (λ d, [d]) <$> tg_dcr t
  else None.
Definition read_len (i : Z) : nat := if i =? I3C_CCC_GETPID then 6 else 1.

(** ** Lemmas on targets *)

Lemma alter_insert {A} (f : A → A) i (l : list A) x : l !! i = Some x → alter f i l = <[i := f x]> l.
Proof.
  intros Hi. apply list_eq. intros k. destruct (decide (k = i)) as [->|].
  - rewrite list_lookup_alter_eq, list_lookup_insert_eq, Hi; [done|by eapply lookup_lt_Some].
  - by rewrite list_lookup_alter_ne, list_lookup_insert_ne.
Qed.

Lemma winner_Some l i : winner l = Some i → ∃ t, l !! i = Some t ∧ tg_da t = None.
Proof.
  revert i. induction l as [|t l IH]; intros i; cbn [winner]; [done|].
  destruct (tg_da t) as [a|] eqn:Ht.
  - destruct (winner l) as [j|]; [|done]. intros [= <-]. destruct (IH j eq_refl) as (u & Hu & Hd). by exists u.
  - destruct (winner l) as [j|].
    + destruct (IH j eq_refl) as (u & Hu & Hd). rewrite Hu. destruct (_ <? _); intros [= <-]; [by exists u|by exists t].
    + intros [= <-]. by exists t.
Qed.

Lemma winner_is_Some l i t : l !! i = Some t → tg_da t = None → is_Some (winner l).
Proof.
  revert i. induction l as [|u l IH]; intros i Hi Ht; [done|]. cbn [winner]. destruct i as [|i].
  - cbn in Hi. simplify_eq. rewrite Ht. destruct (winner l) as [j|]; [|by eauto].
    destruct (l !! j) as [v|]; [destruct (_ <? _)|]; eauto.
  - destruct (IH i Hi Ht) as [j ->]. destruct (tg_da u); [by eauto|]. destruct (l !! j); [destruct (_ <? _)|]; eauto.
Qed.

Lemma waiting_lookup l j t : l !! j = Some t → tg_da t = None → existsb waiting l = true.
Proof.
  intros Hj Ht. apply existsb_exists. exists t. split.
  - apply list_elem_of_In. by eapply list_elem_of_lookup_2.
  - by apply bool_decide_eq_true.
Qed.

Lemma winner_None l : winner l = None → existsb waiting l = false.
Proof.
  intros Hw. apply not_true_iff_false. intros (t & Hin%list_elem_of_In & Ht%bool_decide_eq_true)%existsb_exists.
  apply list_elem_of_lookup_1 in Hin as [j Hj]. destruct (winner_is_Some _ _ _ Hj Ht) as [i Hi]. congruence.
Qed.

(** One byte more. *)
Lemma pid_push acc b : 0 ≤ acc < 2 ^ 40 → 0 ≤ b < 256 → Z.lor (as_u64 (Z.shiftl acc 8)) b = acc * 256 + b.
Proof.
  intros Ha Hb. rewrite Z.shiftl_mul_pow2 by lia. unfold as_u64. change (2 ^ 8) with 256. rewrite Z.mod_small by lia.
  symmetry. apply Z.add_nocarry_lor. apply Z.bits_inj'. intros k Hk. rewrite Z.land_spec, Z.bits_0.
  destruct (decide (k < 8)).
  - change 256 with (2 ^ 8). rewrite Z.mul_pow2_bits_low by lia. done.
  - replace b with (b mod 2 ^ 8) by (apply Z.mod_small; lia). rewrite Z.mod_pow2_bits_high by lia. apply andb_false_r.
Qed.

Lemma pid_step p e e' :
  0 ≤ p < 2 ^ 48 → 0 ≤ e → e' = e + 8 → Z.lor (as_u64 (Z.shiftl (p / 2 ^ e') 8)) (Z.land (Z.shiftr p e) 255) = p / 2 ^ e.
Proof.
  intros Hp He ->. change 255 with (Z.ones 8). rewrite Z.land_ones, Z.shiftr_div_pow2 by lia.
  rewrite Z.pow_add_r, <- Z.div_div by lia. change (2 ^ 8) with 256.
  assert (0 ≤ p / 2 ^ e < 2 ^ 48).
  { split; [apply Z.div_pos; lia|]. apply Z.le_lt_trans with p; [|lia]. apply Z.div_le_upper_bound; nia. }
  rewrite pid_push; [lia| |lia]. split; [apply Z.div_pos; lia|]. apply Z.div_lt_upper_bound; lia.
Qed.

Lemma pid_bytes_roundtrip p : 0 ≤ p < 2 ^ 48 → bytes_to_pid (pid_bytes p) = p.
Proof.
  intros Hp. unfold bytes_to_pid, pid_bytes. cbn [fmap list_fmap take foldl].
  replace (Z.shiftl 0 8) with (Z.shiftl (p / 2 ^ 48) 8) by (by rewrite Z.div_small by lia).
  rewrite (pid_step p 40 48), (pid_step p 32 40), (pid_step p 24 32), (pid_step p 16 24), (pid_step p 8 16), (pid_step p 0 8) by lia.
  apply Z.div_1_r.
Qed.

Lemma pid_bytes_byte p : Forall (λ b, 0 ≤ b < 256) (pid_bytes p).
Proof.
  unfold pid_bytes. apply Forall_fmap, Forall_forall. intros i _. unfold compose. change 255 with (Z.ones 8).
  rewrite Z.land_ones by lia. apply Z.mod_pos_bound. lia.
Qed.

(** ** A controller on a bus *)

(** The targets wired to a controller, the addresses its table names, and the states
    in which its transfers work. *)
Class DaaBus (D : Type) : Type := {
  on_bus : D → list target;
  dat_addr : D → nat → Z;
  usable : D → I3cGlobals → Prop;
}.

(** A device whose address may have been taken, and its slot. *)
Definition claimed (c : I3cConfig) (a : Z) (pos : nat) : Prop :=
  ∃ i d, devices (attached c) !! i = Some d ∧ kind d = KindI3c ∧ dyn_addr d = a ∧ da_state d ≠ Unassigned ∧ dev_pos d = Some pos.

Section laws.
Context {D : Type} `{HardwareInterface D} `{DaaBus D}.
Notation ctl := (drv (I3cController D) I3cError).
Implicit Types s : I3cController D.

(** A call that touches the bus alone: its result, and the targets it leaves. *)
Definition leaves {A} (m : ctl A) s (r : result A I3cError) (l : list target) : Prop :=
  ∃ h g, m s = Some (mkI3cController h (config s) g, r) ∧ usable h g ∧ on_bus h = l ∧
         ∀ p, dat_addr h p = dat_addr (hw s) p.

(** The controller is ready to address a claimed device. *)
Record addresses s (a : Z) (pos : nat) : Prop := {
  addr_usable : usable (hw s) (glob s);
  addr_primary : is_secondary (config s) = false;
  addr_config : config_ok (config s);
  addr_claimed : claimed (config s) a pos;
  addr_dat : dat_addr (hw s) pos = a;
}.
End laws.

(** What the bus protocol makes of the commands of address assignment.  A turn of
    ENTDAA gives the slot's address to one of the targets that wait, whichever wins
    the arbitration, and is refused when none does. *)
Class DaaLaws (D : Type) `{HardwareInterface D} `{DaaBus D} : Prop := {
  law_entdaa s pos :
    usable (hw s) (glob s) → is_secondary (config s) = false → (pos < 8)%nat →
    if existsb waiting (on_bus (hw s)) then
      ∃ j t, on_bus (hw s) !! j = Some t ∧ tg_da t = None ∧
        leaves (hi_do_entdaa pos) s (Ok ()) (<[j := set_da (Some (dat_addr (hw s) pos)) t]> (on_bus (hw s)))
    else leaves (hi_do_entdaa pos) s (Err DaaNack) (on_bus (hw s));
  law_read s i a pos :
    addresses s a pos → i ∈ [I3C_CCC_GETPID; I3C_CCC_GETBCR; I3C_CCC_GETDCR] →
    match bus_read i a (on_bus (hw s)) with
    | Some b => ∃ p, answer p = b ∧ leaves (hi_do_ccc (direct i None a true (replicate (read_len i) 0))) s (Ok p) (on_bus (hw s))
    | None => leaves (hi_do_ccc (direct i None a true (replicate (read_len i) 0))) s (Err AddressNack) (on_bus (hw s))
    end;
  law_setnewda s a a' pos :
    addresses s a pos → 0 < a' < I3C_BROADCAST_ADDR →
    match bus_setnewda a a' (on_bus (hw s)) with
    | Some l => ∃ p, leaves (hi_do_ccc (direct I3C_CCC_SETNEWDA None a false [as_u8 (Z.shiftl (Z.land a' 0x7F) 1)])) s (Ok p) l
    | None =>
        leaves (hi_do_ccc (direct I3C_CCC_SETNEWDA None a false [as_u8 (Z.shiftl (Z.land a' 0x7F) 1)])) s (Err AddressNack)
          (on_bus (hw s))
    end;
}.

(** * An I3C controller block

    A concrete instance of [I3cHw]: the queues of the transfer engine, its interrupt
    and halt states, plain registers, and a bus of targets.  A command runs when
    time passes; a refused one halts the engine until it is resumed.  The layout of
    the fields is one the driver works with: the transfer interrupts, the response
    level, the halt state and the table entries are where [constants.rs] has them. *)
(** ** Fields *)

(** The lowest bit of a field and its width. *)
Definition field_at (f : I3cField) : Z * Z :=
  match f with
  | FI3cbroadcastAddrInclude => (0, 1) | FHotJoinAckNackCtrl => (8, 1) | FEnblAdaptionOfI2ci3cmode => (27, 1)
  | FIbipayloaden => (9, 1) | FI3cabort => (29, 1) | FI3cresume => (30, 1) | FEnblI3cctrl => (31, 1) | FMdb => (16, 8)
  | FDevStaticAddr => (0, 7) | FStaticAddrValid => (15, 1) | FDevDynamicAddr => (16, 7) | FDynamicAddrValid => (31, 1)
  | FSlvhjcap => (0, 1)
  | FResponseBufferThresholdValue => (8, 8) | FIbidataThresholdValue => (16, 8) | FRxBufferThresholdValue => (8, 3)
  | FCoreSwRst => (0, 1) | FCmdQueueSwRst => (1, 1) | FResponseQueueSwRst => (2, 1) | FTxBufferSwRst => (3, 1)
  | FRxBufferSwRst => (4, 1) | FIbiqueueSwRst => (5, 1)
  | FIbithldstaten | FIbithldsignalen => (2, 1)
  | FRespreadystatintren | FRespreadysignalintren => (4, 1)
  | FCccupdatedstaten | FCccupdatedsignalen => (6, 1)
  | FDynaddrassgnstaten | FDynaddrassgnsignalen => (8, 1)
  | FTransfererrstaten | FTransfererrsignalen => (9, 1)
  | FReadreqrecvstaten | FReadreqrecvsignalen => (11, 1)
  | FIbiupdatedstaten | FIbiupdatedsignalen => (12, 1)
  | FRespbufblr => (8, 8) | FIbistatuscnt => (24, 5) | FCmtfrstatus => (8, 6) | FDevaddrtabledepth => (16, 16)
  | FSlvmipimfgid => (1, 15) | FSlvpiddcr => (0, 1) | FSir => (0, 1) | FDevOpMode => (0, 2)
  | FI3codlcnt | FI3cpplcnt => (0, 8) | FI3codhcnt | FI3cpphcnt => (16, 8)
  | FI2cfmlcnt | FI2cfmplcnt => (0, 16) | FI2cfmhcnt => (16, 16) | FI2cfmphcnt => (16, 8) | FI3cibifree => (16, 16)
  | FSirreject => (13, 1) | FMrreject => (14, 1) | FDevdynamicaddr => (16, 8)
  | FActmode => (0, 1) | FInstid => (12, 4) | FStaticaddr => (16, 8)
  | FHwRevId => (16, 8) | FRstI3cCtrl b => (8 + Z.of_nat b, 1) | FRstI3cregdmactrl => (7, 1)
  | FSysRstCtrlClearReg2 | FClkStopCtrlClearRegSet2 => (0, 32)
  end.

Definition field_value (f : I3cField) (v : Z) : Z := let '(lo, w) := field_at f in Z.land (Z.shiftr v lo) (Z.ones w).
Definition field_update (f : I3cField) (x v : Z) : Z :=
  let '(lo, w) := field_at f in
  Z.lor (Z.ldiff v (Z.shiftl (Z.ones w) lo)) (Z.shiftl (Z.land x (Z.ones w)) lo).

(** ** State *)

Record I3cChip := mkI3cChip {
  store : I3cReg → Z;            (* registers that only hold what was written *)
  arg_word : option Z;           (* the first word of a command *)
  commands : list (Z * Z);       (* argument and command words *)
  tx_words : list Z; rx_words : list Z; responses : list Z;
  status : Z; halted : bool;
  wired : list target;
}.

Definition set_reg (f : I3cReg → Z) (r : I3cReg) (v : Z) : I3cReg → Z := λ r', if decide (r' = r) then v else f r'.
Definition set_store st (h : I3cChip) :=
  mkI3cChip st (arg_word h) (commands h) (tx_words h) (rx_words h) (responses h) (status h) (halted h) (wired h).
Definition set_status v (h : I3cChip) :=
  mkI3cChip (store h) (arg_word h) (commands h) (tx_words h) (rx_words h) (responses h) v (halted h) (wired h).

(** The address a table entry names: seven bits, the eighth is their parity. *)
Definition entry_addr (h : I3cChip) (pos : nat) : Z := Z.land (field_value FDevdynamicaddr (store h (dat_reg pos))) 0x7f.

(** ** Commands *)

Definition cmd_attr (w : Z) : Z := Z.land w 7.
Definition cmd_code (w : Z) : Z := Z.land (Z.shiftr w 7) 255.
Definition cmd_index (w : Z) : nat := Z.to_nat (Z.land (Z.shiftr w 16) 31).
Definition cmd_reads (w : Z) : bool := Z.testbit w 28.
Definition cmd_is_code (w : Z) : bool := Z.testbit w 15.

(** Bytes as the words of a queue. *)
Fixpoint pack (l : list Z) : list Z :=
  match l with
  | b0 :: b1 :: b2 :: b3 :: l => u32_from_le_bytes b0 b1 b2 b3 :: pack l
  | [] => []
  | b0 :: rem => [u32_from_le_bytes b0 (nth 0 rem 0) (nth 1 rem 0) 0]
  end.

(** What a command to the target at [a] does on the bus: the data read and the
    targets after it, or no acknowledgement. *)
Definition on_wire (w a : Z) (tx : list Z) (l : list target) : option (list Z * list target) :=
  if cmd_attr w =? COMMAND_ATTR_ADDR_ASSGN_CMD then (λ l', ([], l')) <$> bus_entdaa a l
  else if negb (cmd_is_code w) then None
  else if cmd_code w <=? 0x7F then Some ([], if cmd_code w =? I3C_CCC_RSTDAA then bus_rstdaa l else l)
  else if cmd_reads w then (λ b, (b, l)) <$> bus_read (cmd_code w) a l
  else if cmd_code w =? I3C_CCC_SETNEWDA then
    (λ l', ([], l')) <$> bus_setnewda a (Z.shiftr (Z.land (nth 0 tx 0) 255) 1) l
  else (λ _, ([], l)) <$> at_addr l a.

Definition response (err : Z) (n : nat) : Z := Z.lor (Z.shiftl err 28) (Z.of_nat n).
Definition execute (h : I3cChip) : I3cChip :=
  match commands h with
  | (_, w) :: rest =>
      if halted h then h
      else match on_wire w (entry_addr h (cmd_index w)) (tx_words h) (wired h) with
           | Some (b, l) =>
               mkI3cChip (store h) (arg_word h) rest [] (rx_words h ++ pack b) (responses h ++ [response 0 (length b)])
                 (Z.lor (status h) INTR_RESP_READY_STAT) false l
           | None =>
               mkI3cChip (store h) (arg_word h) rest [] (rx_words h)
                 (responses h ++ [response RESPONSE_ERROR_ADDRESS_NACK 0])
                 (Z.lor (status h) (Z.lor INTR_RESP_READY_STAT INTR_TRANSFER_ERR_STAT)) true (wired h)
           end
  | [] => h
  end.

(** ** Access *)

Definition chip_rd (h : I3cChip) (r : I3cReg) : I3cChip * Z :=
  match r with
  | I3cd 0x010 =>
      (mkI3cChip (store h) (arg_word h) (commands h) (tx_words h) (rx_words h) (tail (responses h)) (status h) (halted h) (wired h),
       nth 0 (responses h) 0)
  | I3cd 0x014 =>
      (mkI3cChip (store h) (arg_word h) (commands h) (tx_words h) (tail (rx_words h)) (responses h) (status h) (halted h) (wired h),
       nth 0 (rx_words h) 0)
  | I3cd 0x034 => (h, 0)
  | I3cd 0x03c => (h, status h)
  | I3cd 0x04c => (h, Z.shiftl (Z.land (Z.of_nat (length (responses h))) 255) 8)
  | I3cd 0x054 => (h, if halted h then Z.shiftl CM_TFR_STS_MASTER_HALT 8 else 0)
  | I3cd 0x05c => (h, Z.shiftl 8 16)
  | _ => (h, store h r)
  end.

Definition chip_wr (h : I3cChip) (r : I3cReg) (v : Z) : I3cChip :=
  match r with
  | I3cd 0x000 =>
      mkI3cChip (set_reg (store h) r (Z.clearbit v 30)) (arg_word h) (commands h) (tx_words h) (rx_words h) (responses h)
        (status h) (halted h && negb (Z.testbit v 30)) (wired h)
  | I3cd 0x00c =>
      match arg_word h with
      | None => mkI3cChip (store h) (Some v) (commands h) (tx_words h) (rx_words h) (responses h) (status h) (halted h) (wired h)
      | Some a =>
          mkI3cChip (store h) None (commands h ++ [(a, v)]) (tx_words h) (rx_words h) (responses h) (status h) (halted h) (wired h)
      end
  | I3cd 0x014 =>
      mkI3cChip (store h) (arg_word h) (commands h) (tx_words h ++ [v]) (rx_words h) (responses h) (status h) (halted h) (wired h)
  | I3cd 0x034 => mkI3cChip (store h) None [] [] [] [] (status h) (halted h) (wired h)
  | I3cd 0x03c => set_status (Z.ldiff (status h) v) h
  | _ => set_store (set_reg (store h) r v) h
  end.

#[export] Instance I3cChip_hw : I3cHw I3cChip := {
  i3c_rd := chip_rd;
  i3c_wr := chip_wr;
  pause h _ := execute h;
  irq_line h := has_flag (status h) (store h (I3cd 0x044));
  fget := field_value;
  fput := field_update;
  reset_value _ := 0;
}.

Definition I3cChip_new (l : list target) : I3cChip := mkI3cChip (λ _, 0) None [] [] [] [] 0 false l.
