(* ===== verification/I3cCorrect.v ===== *)
(** * The I3C controller under any calls

    Every public call of the controller as data ([i3c_call]), and the theorem on
    every history of calls: the books stay straight, the role is kept, and a
    primary controller never panics, whatever the hardware answers. *)

From S2P Require Import Prelude Bytes RegMonad I3cConfig I3cBook I3cIbi I3cRegs I3cDev I3cInv I3cCtl I3cBus.
From stdpp Require Import base tactics option list numbers.
Local Open Scope Z_scope.

(** ** The role *)

Section steady.
Context {D : Type}.
Notation ctl := (drv (I3cController D) I3cError).

(** A call keeps the role, and panics only in the secondary one. *)
Definition steady {A} (m : ctl A) : Prop := ∀ s,
  match m s with Some (s', _) => is_secondary (config s') = is_secondary (config s) | None => is_secondary (config s) = true end.

Lemma steady_framed {A} (m : ctl A) : framed m → steady m.
Proof. intros Hm s. specialize (Hm _ s eq_refl). destruct (m s) as [[s' a]|]; [apply Hm|done]. Qed.
Lemma steady_bind {A B} (m : ctl A) (f : A → ctl B) : steady m → (∀ a, steady (f a)) → steady (m ≫= f).
Proof.
  intros Hm Hf s. specialize (Hm s). unfold mbind, drv_bind. destruct (m s) as [[s1 [a|e]]|]; [|done..].
  specialize (Hf a s1). rewrite Hm in Hf. by destruct (f a s1) as [[s2 r]|].
Qed.
Lemma steady_attempt {A} (m : ctl A) : steady m → steady (attempt m).
Proof. intros Hm s. specialize (Hm s). unfold attempt. by destruct (m s) as [[s1 a]|]. Qed.
Lemma steady_upd f : (∀ c, is_secondary (f c) = is_secondary c) → steady (upd_cfg f).
Proof. intros Hf s. apply Hf. Qed.
Lemma steady_for {A} (l : list A) (f : A → ctl unit) : (∀ x, steady (f x)) → steady (drv_for l f).
Proof. intros Hf. induction l as [|x l IH]; [done|]. by apply steady_bind. Qed.
End steady.

Lemma role_foldl (f : I3cConfig → nat → I3cConfig) l c :
  (∀ c i, is_secondary (f c i) = is_secondary c) → is_secondary (foldl f c l) = is_secondary c.
Proof. intros Hf. revert c. induction l as [|i l IH]; intros c; [done|]. cbn. by rewrite IH, Hf. Qed.
Lemma role_mark_unknown i o c : is_secondary (mark_da_unknown i o c) = is_secondary c.
Proof. unfold mark_da_unknown. repeat case_match; done. Qed.
Lemma role_commit_rstdaa c : is_secondary (commit_rstdaa c) = is_secondary c.
Proof. unfold commit_rstdaa. rewrite role_foldl; [done|]. intros c' i. repeat case_match; done. Qed.
Lemma role_mark_rstdaa c : is_secondary (mark_rstdaa_unknown c) = is_secondary c.
Proof. unfold mark_rstdaa_unknown. rewrite role_foldl; [done|]. intros c' i. repeat case_match; done. Qed.
Lemma role_reassign a a' c : is_secondary (reassign_da a a' c).2 = is_secondary c.
Proof. unfold reassign_da. repeat case_match; done. Qed.

Create HintDb steady.
#[export] Hint Constants Opaque : steady.
#[export] Hint Rewrite role_mark_unknown role_commit_rstdaa role_mark_rstdaa role_reassign : role.
Ltac steady_step :=
  match goal with
  | |- steady (mbind _ _) => apply steady_bind; [|intros]
  | |- steady _ => solve [eauto with steady]
  | |- steady (attempt _) => apply steady_attempt
  | |- steady (drv_for _ _) => apply steady_for; intros
  | |- steady (upd_cfg _) => apply steady_upd; intros; repeat case_match; cbn; autorewrite with role; done
  | |- steady (match ?x with _ => _ end) => destruct x
  | |- steady _ => apply steady_framed; solve [frame]
  end.
Ltac steady := repeat (cbv beta iota zeta; steady_step).

(** ** The calls *)

Inductive i3c_call :=
| CallStart | CallReinit
| CallAttachI3c (pid desired slot : Z) | CallAttachI2c (sa slot : Z) | CallDetach (pos : nat) | CallDetachIdx (i : nat)
| CallI2cWrite (sa : Z) (data : list Z) | CallI2cRead (sa : Z) (out : list Z) | CallI2cWriteRead (sa : Z) (data out : list Z)
| CallTransaction (sa : Z) (ops : list I2cOp)
| CallRecover (toggles : nat) | CallRecoverFull (mask : Z)
| CallEnableIbi (addr mdb : Z) | CallDisableIbi (addr : Z) | CallAcknowledgeIbi (addr : Z)
| CallPrivRead (pid : Z) (out : list Z) | CallPrivWrite (pid : Z) (data : list Z)
| CallAssign (addr : Z) | CallBusDaa
| CallRaiseHotJoin | CallTargetInit (own : Z) | CallOnDynamicAddress | CallGetIbiPayload (buffer : list Z)
| CallEventsAll (enable : bool) (events : Z) | CallRstact (action : CccRstActDefByte)
| CallGetBcr (da : Z) | CallSetNewDa (curr new : Z) | CallGetPid (da : Z) | CallGetStatus (da : Z) (fmt : GetStatusFormat)
| CallSetMwl (da mwl : Z) | CallSetMrl (da mrl : Z) (ibi_len : option Z)
| CallSetMwlAll (mwl : Z) | CallSetMrlAll (mrl : Z) (ibi_len : option Z)
| CallGetMwl (da : Z) | CallGetMrl (da : Z) | CallGetMxds (da : Z) | CallRstDaa.

(** The addresses are [u8]. *)
Definition call_args (c : i3c_call) : Prop :=
  match c with
  | CallAttachI3c _ a _ | CallAttachI2c a _ | CallSetNewDa _ a => 0 ≤ a
  | _ => True
  end.

Section calls.
Context {D : Type} `{HardwareInterface D} `{!InterfaceLaws D}.
Notation ctl := (drv (I3cController D) I3cError).

Definition void {A} (m : ctl A) : ctl unit := m;; mret ().
Definition call (c : i3c_call) : ctl unit :=
  match c with
  | CallStart => start
  | CallReinit => reinit
  | CallAttachI3c p a n => ctl_attach_i3c_dev p a n
  | CallAttachI2c a n => ctl_attach_i2c_dev a n
  | CallDetach p => ctl_detach_i3c_dev p
  | CallDetachIdx i => ctl_detach_i3c_dev_by_idx i
  | CallI2cWrite a b => void (i2c_write a b)
  | CallI2cRead a b => void (i2c_read a b)
  | CallI2cWriteRead a b o => void (i2c_write_read a b o)
  | CallTransaction a ops => void (transaction a ops)
  | CallRecover n => recover_bus n
  | CallRecoverFull m => recover_bus_full m
  | CallEnableIbi a m => enable_ibi a m
  | CallDisableIbi a => disable_ibi a
  | CallAcknowledgeIbi a => acknowledge_ibi a
  | CallPrivRead p b => void (priv_read p b)
  | CallPrivWrite p b => priv_write p b
  | CallAssign a => void (assign_dynamic_address a)
  | CallBusDaa => void bus_daa
  | CallRaiseHotJoin => target_raise_hot_join
  | CallTargetInit a => target_init a
  | CallOnDynamicAddress => target_on_dynamic_address_assigned
  | CallGetIbiPayload b => void (target_get_ibi_payload b)
  | CallEventsAll e v => ccc_events_all_set e v
  | CallRstact a => ccc_rstact_all a
  | CallGetBcr a => void (ccc_getbcr a)
  | CallSetNewDa a b => ccc_setnewda a b
  | CallGetPid a => void (ccc_getpid a)
  | CallGetStatus a f => void (ccc_getstatus a f)
  | CallSetMwl a v => ccc_setmwl a v
  | CallSetMrl a v o => ccc_setmrl a v o
  | CallSetMwlAll v => ccc_setmwl_all v
  | CallSetMrlAll v o => ccc_setmrl_all v o
  | CallGetMwl a => void (ccc_getmwl a)
  | CallGetMrl a => void (ccc_getmrl a)
  | CallGetMxds a => void (ccc_getmxds a)
  | CallRstDaa => ccc_rstdaa_all
  end.

(** A history: a failed call does not end it. *)
Definition calls (l : list i3c_call) : ctl unit := drv_for l (λ c, attempt (call c);; mret ()).

(** ** Every call keeps the role *)

#[local] Hint Resolve framed_direct_read framed_direct_write framed_getbcr framed_getdcr framed_getdcr_or_zero framed_getpid
  framed_setnewda_bus : framed.

Lemma steady_void {A} (m : ctl A) : steady m → steady (void m).
Proof. intros Hm. unfold void. by apply steady_bind. Qed.
Lemma steady_mark_setnewda i n : steady (mark_setnewda_unknown i n : ctl unit).
Proof. unfold mark_setnewda_unknown. steady. Qed.
Lemma steady_upd_dev_at a f : steady (upd_dev_at a f : ctl unit).
Proof. unfold upd_dev_at. steady. Qed.
Lemma steady_upd_all f : steady (upd_all_i3c f : ctl unit).
Proof. unfold upd_all_i3c. steady. Qed.
#[local] Hint Resolve steady_mark_setnewda steady_upd_dev_at steady_upd_all : steady.
Lemma steady_commit i p a b : steady (setnewda_commit i p a b : ctl unit).
Proof.
  unfold setnewda_commit. apply steady_bind; [steady|intros r]. destruct (negb _); [steady|].
  intros s. unfold get_cfg, mbind at 1, drv_bind at 1. cbn [reads]. destruct (is_ok _); [apply role_reassign|].
  revert s. change (steady (mark_setnewda_unknown i b;; hi_mark_xfer_faulted;; raise (CccError CccInvalid) : ctl unit)).
  steady.
Qed.
Lemma steady_attach_entry d n a : steady (attach_entry d n a : ctl unit).
Proof. unfold attach_entry, get_cfg. steady. Qed.
Lemma steady_set_state o st : steady (set_state_of o st : ctl unit).
Proof. unfold set_state_of. steady. Qed.
Lemma steady_mark_of o a : steady (mark_unknown_of o a : ctl unit).
Proof. unfold mark_unknown_of. steady. Qed.
Lemma steady_verify i b d : steady (verify_entry i b d : ctl unit).
Proof. unfold verify_entry. steady. Qed.
#[local] Hint Resolve steady_commit steady_attach_entry steady_set_state steady_mark_of steady_verify : steady.
Lemma steady_turn pos need : steady (daa_turn pos need : ctl _).
Proof. unfold daa_turn, daa_known, daa_park, get_cfg. steady. Qed.
#[local] Hint Resolve steady_turn : steady.
Lemma steady_bus_daa : steady (bus_daa : ctl Z).
Proof.
  unfold bus_daa, ensure_primary, get_cfg. apply steady_bind; [steady|intros _]. apply steady_bind; [steady|intros a].
  apply steady_bind; [|intros; steady]. generalize (8 * length (by_pos a))%nat. intros fuel.
  generalize (daa_need (devices a)) 0 0%nat.
  induction fuel as [|fuel IH]; intros need v pos; cbn [daa_loop]; steady.
Qed.
#[local] Hint Resolve steady_bus_daa : steady.
Lemma steady_start : steady (start : ctl unit).
Proof. unfold start, get_cfg. steady. Qed.
Lemma steady_reinit : steady (reinit : ctl unit).
Proof. unfold reinit, reattach, get_cfg. steady. Qed.
Lemma steady_target_init a : steady (target_init a : ctl unit).
Proof. unfold target_init. steady. Qed.
Lemma steady_assign a : steady (assign_dynamic_address a : ctl Z).
Proof. unfold assign_dynamic_address, ensure_primary, get_cfg. steady. Qed.
#[local] Hint Resolve steady_start steady_reinit steady_target_init steady_assign : steady.

Lemma steady_call c : steady (call c : ctl unit).
Proof.
  destruct c; cbn [call]; try apply steady_void;
    unfold ctl_attach_i3c_dev, ctl_attach_i2c_dev, ctl_detach_i3c_dev, ctl_detach_i3c_dev_by_idx, i2c_write, i2c_read,
      i2c_write_read, i2c_xfer, transaction, recover_bus_full, recover_bus, enable_ibi, disable_ibi, acknowledge_ibi,
      priv_read, priv_write, target_raise_hot_join, target_on_dynamic_address_assigned, target_get_ibi_payload,
      ccc_events_all_set, ccc_rstact_all, ccc_setnewda, ccc_setmwl, ccc_setmrl, ccc_setmwl_all, ccc_setmrl_all,
      ccc_getmwl, ccc_getmrl, ccc_getmxds, ccc_rstdaa_all, ccc_getstatus, ccc_getbcr, ccc_getpid, ccc_direct_read,
      ccc_direct_write, ensure_primary, get_cfg; steady.
Qed.

(** ** Every call keeps the books *)

Lemma keeps_target_cfg f :
  (∀ c, attached (f c) = attached c ∧ addrbook (f c) = addrbook c) → keeps (upd_cfg f : ctl unit).
Proof. intros Hf. apply keeps_upd. intros c Hc. eapply config_ok_frame; [..|done]; apply Hf. Qed.
Lemma keeps_target_init a : keeps (target_init a : ctl unit).
Proof. apply keeps_target_cfg. intros c. repeat case_match; done. Qed.
Lemma keeps_on_dynamic_address : keeps (target_on_dynamic_address_assigned : ctl unit).
Proof.
  unfold target_on_dynamic_address_assigned. apply keeps_bind; [keep|intros [da|]; [|keep]].
  apply keeps_bind; [|intros _]; apply keeps_target_cfg; [|done]. intros c. by case_match.
Qed.
#[local] Hint Resolve keeps_setmwl keeps_setmrl keeps_setmwl_all keeps_setmrl_all keeps_getmwl keeps_getmrl keeps_getmxds
  keeps_rstdaa keeps_setnewda keeps_attach_i3c keeps_attach_i2c keeps_detach keeps_detach_by_idx keeps_enable_ibi
  keeps_disable_ibi keeps_reinit keeps_start keeps_bus_daa keeps_assign keeps_target_init keeps_on_dynamic_address : keeps.

Lemma keeps_call c : call_args c → keeps (call c : ctl unit).
Proof.
  destruct c; cbn [call call_args]; intros Ha; unfold void;
    unfold i2c_write, i2c_read, i2c_write_read, i2c_xfer, transaction, recover_bus_full, recover_bus, acknowledge_ibi,
      priv_read, priv_write, target_raise_hot_join, target_get_ibi_payload, ccc_events_all_set, ccc_rstact_all,
      ccc_getstatus, ensure_primary, get_cfg; keep.
Qed.

(** The states of a history. *)
Lemma calls_run l (s : I3cController D) :
  Forall call_args l → inv s →
  match calls l s with
  | Some (s', r) => r = Ok () ∧ inv s' ∧ is_secondary (config s') = is_secondary (config s)
  | None => is_secondary (config s) = true
  end.
Proof.
  intros Hl. revert s. induction Hl as [|c l Hc Hl IH]; intros s Hs; [done|].
  unfold calls. cbn [drv_for]. fold (calls l).
  pose proof (keeps_call c Hc s Hs) as Hk. pose proof (steady_call c s) as Hr.
  unfold mbind, drv_bind, attempt, mret, drv_ret. unfold pwp in Hk. destruct (call c s) as [[s1 r]|]; [|done].
  specialize (IH s1 Hk). rewrite Hr in IH. exact IH.
Qed.
End calls.

(** C18: on any hardware, whatever the registers read, whichever interrupts arrive and
    whichever calls fail, every history of controller calls keeps the address books: no two
    attached devices share a dynamic address, a slot or a provisional ID, every attached
    address is a usable one that is marked in use, so that it is never handed out again, and
    the slot index names exactly the attached devices.  The role is kept, and a primary
    controller never panics. *)
Theorem i3c_books_kept {H} `{I3cHw H} (l : list i3c_call) (s : I3cController (Ast1060I3c H)) :
  Forall call_args l → config_ok (config s) →
  match calls l s with
  | Some (s', r) => r = Ok () ∧ config_ok (config s') ∧ is_secondary (config s') = is_secondary (config s)
  | None => is_secondary (config s) = true
  end.
Proof. apply calls_run. Qed.

(** A controller on a bus with three targets, two of them its own. *)
Definition demo_bus : list target :=
  [mkTarget 5 0x6 (Some 0x44) None; mkTarget 3 0x2 None None; mkTarget 1 0 None None].
Definition demo_config : I3cConfig := set_i3c_scl_hz 12500000 (with_core_clk_hz 200000000 I3cConfig_new).
Definition demo_controller : I3cController (Ast1060I3c I3cChip) :=
  mkI3cController (mkAst1060I3c (I3cChip_new demo_bus) 1 false) demo_config I3cGlobals_new.
Definition demo_calls : list i3c_call :=
  [CallStart; CallAttachI3c 5 0x10 0; CallAttachI3c 3 0x11 1; CallAttachI3c 5 0x12 2; CallBusDaa; CallSetNewDa 0x11 0x20;
   CallDetach 0; CallRstDaa; CallAttachI2c 0x20 4].

Lemma demo_config_ok : config_ok demo_config.
Proof. apply (config_ok_frame I3cConfig_new); [done..|apply config_ok_new]. Qed.

(** The devices and the used addresses of a history. *)
Definition books_after (l : list i3c_call) (s : I3cController (Ast1060I3c I3cChip)) :=
  (λ '(s, _), ((λ d, (pid d, dyn_addr d, da_state d)) <$> devices (attached (config s)),
               in_use (addrbook (config s)), tg_da <$> wired (regs (hw s)))) <$> calls l s.

(** An unknown target is parked at the first free address, and the book does not
    reserve the controller's own: here both are at 8. *)
Example parked_at_the_controller :
  (λ '(s, _), (tg_da <$> wired (regs (hw s)), Z.land (Z.shiftr (store (regs (hw s)) (I3cd 0x004)) 16) 0x7f)) <$>
    calls [CallStart; CallAttachI3c 5 0x10 0; CallAttachI3c 3 0x11 1; CallBusDaa] demo_controller =
    Some ([Some 0x10; Some 0x11; Some 8], 8).
Proof. vm_compute. reflexivity. Qed.

Lemma i3c_books_kept_witness :
  books_after demo_calls demo_controller =
    Some ([(Some 3, 0x20, Unassigned)], [0; 1; 0; 0], [None; None; None]) ∧
  match calls demo_calls demo_controller with
  | Some (s', r) => r = Ok () ∧ config_ok (config s') ∧ is_secondary (config s') = false
  | None => false = true
  end.
Proof.
  split; [vm_compute; reflexivity|].
  apply (i3c_books_kept demo_calls demo_controller); [|exact demo_config_ok].
  repeat constructor; cbn; lia.
Defined.
