(* ===== verification/I3cEngine.v ===== *)
(** * The I3C driver on the controller block

    Register by register: a command the driver issues on a quiet block of [I3cBus]
    is executed once, its response is handed over by the interrupt routine, and the
    block is quiet again, also after a command that was not acknowledged.  With it
    the driver has the laws of address assignment ([DaaLaws]). *)

From S2P Require Import Prelude Bytes RegMonad I3cConfig I3cIbi I3cRegs I3cDev I3cCtl I3cBook I3cInv I3cBus.
From stdpp Require Import base tactics option list numbers.
Local Open Scope Z_scope.

Notation i3c := (drv (I3cController (Ast1060I3c I3cChip)) I3cError).
Notation ctl := (I3cController (Ast1060I3c I3cChip)).

(** ** Runs *)

Lemma bind_run {S E A B} (m : drv S E A) (f : A → drv S E B) s s' a :
  m s = Some (s', Ok a) → (m ≫= f) s = f a s'.
Proof. unfold mbind, drv_bind. by intros ->. Qed.
Lemma attempt_run {S E A} (m : drv S E A) s s' r : m s = Some (s', r) → attempt m s = Some (s', Ok r).
Proof. unfold attempt. by intros ->. Qed.

(** ** States *)

(** The chip of a controller, and its globals. *)
Definition chip (s : ctl) : I3cChip := regs (hw s).
Definition with_chip (h : I3cChip) (s : ctl) : ctl := set_hw (set_regs h) s.

Definition reg_update (r : I3cReg) (f : Z → Z) (h : I3cChip) : I3cChip := set_store (set_reg (store h) r (f (store h r))) h.

Definition unmask (f4 f9 : I3cField) (w : Z) : Z := set_bit f4 (set_bit f9 w).
Definition mask (f4 f9 : I3cField) (w : Z) : Z := clear_bit f4 (clear_bit f9 w).

(** The registers after the transfer interrupts were unmasked, and masked. *)
Definition unmasked (h : I3cChip) : I3cChip :=
  reg_update (I3cd 0x044) (unmask FRespreadysignalintren FTransfererrsignalen)
    (reg_update (I3cd 0x040) (unmask FRespreadystatintren FTransfererrstaten) h).
Definition masked (h : I3cChip) : I3cChip :=
  reg_update (I3cd 0x044) (mask FRespreadysignalintren FTransfererrsignalen)
    (reg_update (I3cd 0x040) (mask FRespreadystatintren FTransfererrstaten) h).

Lemma unmask_run (s : ctl) : unmask_master_xfer_irqs s = Some (with_chip (unmasked (chip s)) s, Ok ()).
Proof. done. Qed.
Lemma mask_run (s : ctl) : mask_master_xfer_irqs s = Some (with_chip (masked (chip s)) s, Ok ()).
Proof. done. Qed.

Definition idle (st : I3cReg → Z) (l : list target) : I3cChip := mkI3cChip st None [] [] [] [] 0 false l.
Definition add_tx (ws : list Z) (h : I3cChip) : I3cChip :=
  mkI3cChip (store h) (arg_word h) (commands h) (tx_words h ++ ws) (rx_words h) (responses h) (status h) (halted h) (wired h).

Lemma tx_fifo_run l (s : ctl) : tx_fifo_write l s = Some (with_chip (add_tx (pack l) (chip s)) s, Ok ()).
Proof.
  revert l s. fix IH 1. intros [|b0 [|b1 [|b2 [|b3 l]]]] s; cbn [tx_fifo_write pack]; try done.
  - destruct s as [[[] ? ?] ? ?]. cbn. unfold add_tx, with_chip. cbn. by rewrite app_nil_r.
  - erewrite bind_run by done. rewrite IH. destruct s as [[[] ? ?] ? ?]. unfold add_tx, with_chip, chip. cbn.
    by rewrite <- app_assoc.
Qed.

(** ** Events *)

Definition isr_ready (b : nat) (g : I3cGlobals) : Prop :=
  (b < 4)%nat ∧ length (ISR_EVENTS g) = 4%nat ∧ BUS_ISR g !! b = Some (Some (mkIsrCtx b false)).

Lemma isr_ready_upd b f g : isr_ready b g → isr_ready b (upd_events b f g).
Proof. intros (H1 & H2 & H3). split_and!; [done| |done]. cbn. by rewrite length_alter. Qed.
Lemma isr_events_upd b f g : isr_ready b g → isr_events b (upd_events b f g) = f (isr_events b g).
Proof.
  intros (H1 & H2 & _). unfold isr_events, upd_events. cbn [ISR_EVENTS].
  assert (events_slot b = b) as -> by (unfold events_slot; by rewrite (proj2 (Nat.ltb_lt _ _) H1)).
  destruct (lookup_lt_is_Some_2 (ISR_EVENTS g) b ltac:(lia)) as [e He].
  rewrite (nth_lookup_Some _ _ _ e He). apply nth_lookup_Some. by rewrite list_lookup_alter_eq, He.
Qed.

Definition with_events (f : IsrEvents → IsrEvents) (s : ctl) : ctl := set_glob (upd_events (bus (hw s)) f) s.
Definition events (s : ctl) : IsrEvents := isr_events (bus (hw s)) (glob s).

Lemma take_pending_run (s : ctl) : take_pending s = Some (with_events (set_pending 0) s, Ok (pending (events s))).
Proof. done. Qed.

(** ** Starting *)

Definition queued_store (st : I3cReg → Z) : I3cReg → Z :=
  store (reg_update (I3cd 0x01c) (fput FResponseBufferThresholdValue 0) (unmasked (idle st []))).
Definition queued (c : I3cCmd) (st : I3cReg → Z) (l : list target) : I3cChip :=
  mkI3cChip (queued_store st) None [(cmd_hi c, cmd_lo c)] (pack (default [] (tx c))) [] [] 0 false l.

Lemma write_tx_run c (s : ctl) :
  tx_len c = Z.of_nat (length (default [] (tx c))) →
  write_tx c s = Some (with_chip (add_tx (pack (default [] (tx c))) (chip s)) s, Ok ()).
Proof.
  intros Htx. unfold write_tx. destruct (tx c) as [t|]; cbn [default from_option id] in *.
  - rewrite Htx, Nat2Z.id, Nat.min_id, firstn_all. destruct t as [|b t]; [|exact (tx_fifo_run (b :: t) s)].
    destruct s as [[[] ? ?] ? ?]. unfold add_tx, with_chip, chip. cbn. by rewrite app_nil_r.
  - destruct s as [[[] ? ?] ? ?]. unfold add_tx, with_chip, chip. cbn. by rewrite app_nil_r.
Qed.

Lemma start_run c (s : ctl) st l :
  chip s = idle st l → tx_len c = Z.of_nat (length (default [] (tx c))) →
  start_xfer (I3cXfer_new [c]) s =
    Some (with_chip (queued c st l) (with_events (set_pending 0) s), Ok (mkI3cXfer [c] (-1))).
Proof.
  destruct s as [[h b ft] cf g]. unfold chip. cbn [regs hw]. intros -> Htx. unfold start_xfer.
  rewrite (bind_run _ _ _ _ _ (take_pending_run _)).
  erewrite bind_run by reflexivity. cbn [times Z.to_nat].
  erewrite bind_run by reflexivity. erewrite bind_run by apply unmask_run.
  cbn [cmds I3cXfer_new drv_for].
  erewrite bind_run by (erewrite bind_run by (by apply write_tx_run); reflexivity).
  reflexivity.
Qed.

(** ** Executing *)

(** The block after its one command was executed. *)
Definition executed (o : option (list Z * list target)) (st : I3cReg → Z) (l : list target) : I3cChip :=
  match o with
  | Some (b, l') => mkI3cChip st None [] [] (pack b) [response 0 (length b)] INTR_RESP_READY_STAT false l'
  | None =>
      mkI3cChip st None [] [] [] [response RESPONSE_ERROR_ADDRESS_NACK 0]
        (Z.lor INTR_RESP_READY_STAT INTR_TRANSFER_ERR_STAT) true l
  end.
Definition outcome (c : I3cCmd) (st : I3cReg → Z) (l : list target) : option (list Z * list target) :=
  on_wire (cmd_lo c) (entry_addr (idle st l) (cmd_index (cmd_lo c))) (pack (default [] (tx c))) l.

Lemma entry_store h h' pos : store h' (dat_reg pos) = store h (dat_reg pos) → entry_addr h' pos = entry_addr h pos.
Proof. unfold entry_addr. by intros ->. Qed.
Lemma dat_reg_plain (st : I3cReg → Z) o v pos : o < 0x280 → set_reg st (I3cd o) v (dat_reg pos) = st (dat_reg pos).
Proof.
  intros Ho. unfold set_reg.
  assert (∃ x, dat_reg pos = I3cd x ∧ 0x280 ≤ x) as (x & -> & Hx).
  { do 7 (destruct pos as [|pos]; [by eexists|]). by eexists. }
  rewrite decide_False; [done|]. intros [= ->]. lia.
Qed.

Lemma queued_store_dat st pos : queued_store st (dat_reg pos) = st (dat_reg pos).
Proof. unfold queued_store. cbn. by rewrite !dat_reg_plain by lia. Qed.

Lemma execute_queued c st l : execute (queued c st l) = executed (outcome c st l) (queued_store st) l.
Proof.
  unfold execute, queued. cbn [commands halted tx_words wired].
  rewrite (entry_store (idle st l)) by apply queued_store_dat. fold (outcome c st l).
  by destruct (outcome c st l) as [[b l']|].
Qed.

(** ** The interrupt *)

Lemma line_up v st : Z.testbit v 4 = true → has_flag v (queued_store st (I3cd 0x044)) = true.
Proof.
  intros Hv. unfold has_flag. apply negb_true_iff, Z.eqb_neq. intros Hz.
  assert (Z.testbit (Z.land v (queued_store st (I3cd 0x044))) 4 = false) as Hf by (rewrite Hz; apply Z.bits_0).
  rewrite Z.land_spec, Hv in Hf. cbn [andb] in Hf. revert Hf.
  change (queued_store st (I3cd 0x044)) with (unmask FRespreadysignalintren FTransfererrsignalen (st (I3cd 0x044))).
  unfold unmask, set_bit. cbn [fput I3cChip_hw]. unfold field_update. cbn [field_at].
  rewrite Z.lor_spec, Z.ldiff_spec. change (Z.testbit (Z.shiftl (Z.land 1 (Z.ones 1)) 4) 4) with true. by rewrite orb_true_r.
Qed.

Definition raised (v : Z) : Prop := v = INTR_RESP_READY_STAT ∨ v = Z.lor INTR_RESP_READY_STAT INTR_TRANSFER_ERR_STAT.

Lemma service_run (s : ctl) :
  raised (status (chip s)) →
  isr_service (mkIsrCtx (bus (hw s)) false) s =
    Some (with_chip (set_status 0 (masked (chip s)))
            (with_events (λ e, set_pending (Z.lor (pending e) (status (chip s))) e) s), Ok ()).
Proof.
  destruct s as [[[st aw co tw rw re v ha l] b ft] cf g]. cbn. by intros [-> | ->].
Qed.

Lemma yield_run ns (s : ctl) h :
  execute (chip s) = h → raised (status h) → irq_line h = true → isr_ready (bus (hw s)) (glob s) →
  yield_ns ns s =
    Some (with_chip (set_status 0 (masked h)) (with_events (λ e, set_pending (Z.lor (pending e) (status h)) e) s), Ok ()).
Proof.
  intros He Hv Hl (_ & _ & Hb). unfold yield_ns.
  erewrite bind_run by reflexivity. erewrite bind_run by reflexivity. cbn [hw set_hw regs set_regs pause I3cChip_hw].
  fold (chip s). rewrite He, Hl. erewrite bind_run by reflexivity. unfold dispatch_i3c_irq.
  erewrite bind_run by reflexivity. cbn [glob set_hw hw set_regs bus]. rewrite Hb.
  change (set_hw _ s) with (with_chip (execute (chip s)) s). rewrite He. exact (service_run (with_chip h s) Hv).
Qed.

(** ** Responses *)

Definition set_rx (ws : list Z) (h : I3cChip) : I3cChip :=
  mkI3cChip (store h) (arg_word h) (commands h) (tx_words h) ws (responses h) (status h) (halted h) (wired h).

Lemma rx_fifo_run b ws (s : ctl) :
  Forall in_u8 b → rx_words (chip s) = pack b ++ ws → rx_fifo_read (length b) s = Some (with_chip (set_rx ws (chip s)) s, Ok b).
Proof.
  assert (in_u8 0) by (unfold in_u8, u8_MAX; lia).
  cut (∀ n b (s : ctl), (length b ≤ n)%nat → Forall in_u8 b → rx_words (chip s) = pack b ++ ws →
    rx_fifo_read (length b) s = Some (with_chip (set_rx ws (chip s)) s, Ok b)); [intros Hc; by apply (Hc (length b))|].
  clear b s. induction n as [|n IH]; intros [|b0 [|b1 [|b2 [|b3 b]]]] s Hn Hb Hw; cbn [length] in *; try lia;
    repeat (apply Forall_cons_1 in Hb as [? Hb]).
  1, 2: cbn [pack app] in Hw; rewrite <- Hw; by destruct s as [[[st aw co tw rw re v ha l] bu ft] cf g].
  1-3: destruct s as [[[st aw co tw rw re v ha l] bu ft] cf g]; cbn in Hw; rewrite Hw; unfold rx_fifo_read; cbn [fifo_read]; erewrite bind_run by reflexivity;
    cbn [nth rx_words regs hw]; by rewrite le_bytes_of_word by done.
  cbn [pack app] in Hw. unfold rx_fifo_read. cbn [fifo_read]. erewrite bind_run by reflexivity. fold (rx_fifo_read (length b)).
  erewrite bind_run; [|apply IH; [lia|done|change (tail (rx_words (chip s)) = pack b ++ ws); by rewrite Hw]].
  destruct s as [[[st aw co tw rw re v ha l] bu ft] cf g]. cbn in Hw. rewrite Hw. cbn [nth rx_words regs hw chip]. by rewrite le_bytes_of_word by done.
Qed.

Lemma response_ok n : (n < 16)%nat → resp_tid (response 0 n) = 0%nat ∧ resp_len (response 0 n) = n ∧ resp_err (response 0 n) = 0.
Proof. intros Hn. do 16 (destruct n as [|n]; [done|]). lia. Qed.

(** The command with the data it read. *)
Definition filled (c : I3cCmd) (b : list Z) : I3cCmd :=
  mkI3cCmd (cmd_lo c) (cmd_hi c) (tx c) (if b is [] then rx c else Some b) (tx_len c) (Z.of_nat (length b)) 0.

Lemma response_data c b r (s : ctl) st l :
  chip s = mkI3cChip st None [] [] (pack b) [response 0 (length b)] 0 false l →
  Forall in_u8 b → (length b < 16)%nat → (b = [] ∨ length <$> rx c = Some (length b)) →
  process_response ([c], r) s = Some (with_chip (idle st l) s, Ok ([filled c b], r)).
Proof.
  intros Hs Hb Hn Hrx. destruct (response_ok _ Hn) as (Ht & Hl & He).
  destruct s as [[h bu ft] cf g]. unfold chip in Hs. cbn [regs hw] in Hs. subst h. unfold process_response.
  erewrite bind_run by reflexivity. cbv beta zeta. cbn [nth responses regs hw]. rewrite Ht, Hl, He. cbn [lookup list_lookup].
  destruct b as [|b0 b]; [reflexivity|]. destruct Hrx as [?|Hrx]; [done|].
  destruct (rx c) as [buf|] eqn:Hc; [|done]. injection Hrx as Hlen. cbn [rx].
  change ((length (b0 :: b) =? 0)%nat) with false. cbn [Z.eqb negb]. rewrite Hlen. change (length (b0 :: b) <=? length (b0 :: b))%nat with (length b <=? length b)%nat.
  rewrite Nat.leb_refl. erewrite bind_run; [|apply (rx_fifo_run (b0 :: b) []); [done|by rewrite app_nil_r]].
  rewrite drop_ge by (cbn [length] in *; lia). rewrite app_nil_r. reflexivity.
Qed.

Lemma process_ok c b r0 (s : ctl) st l :
  chip s = mkI3cChip st None [] [] (pack b) [response 0 (length b)] 0 false l →
  Forall in_u8 b → (length b < 16)%nat → (b = [] ∨ length <$> rx c = Some (length b)) →
  process_responses (mkI3cXfer [c] r0) s = Some (with_chip (idle st l) s, Ok (mkI3cXfer [filled c b] 0)).
Proof.
  intros Hs Hb Hn Hrx. unfold process_responses.
  erewrite (bind_run _ _ s s 1%nat); cycle 1.
  { destruct s as [[h bu ft] cf g]. unfold chip in Hs. cbn [regs hw] in Hs. by subst h. }
  cbn [response_loop cmds]. erewrite bind_run; cycle 1.
  { erewrite bind_run by (by apply response_data). reflexivity. }
  reflexivity.
Qed.

(** ** Recovery *)

Lemma poll_hit (m : i3c Z) cond d (s s' : ctl) v :
  m s = Some (s', Ok v) → cond v = true → poll_or_timeout m cond d s = Some (s', Ok ()).
Proof.
  intros Hm Hc. unfold poll_or_timeout, poll_with_timeout.
  assert (∃ n, Z.to_nat I3C_POLL_MAX_ITERS = S n) as [n ->].
  { exists (Z.to_nat (I3C_POLL_MAX_ITERS - 1)). unfold I3C_POLL_MAX_ITERS. lia. }
  rewrite (bind_run _ _ s s' (Some v)); [reflexivity|]. cbn [poll_loop]. by rewrite (bind_run _ _ _ _ _ Hm), Hc.
Qed.

Definition resumed (st : I3cReg → Z) : I3cReg → Z :=
  set_reg st (I3cd 0x000) (Z.clearbit (set_bit FI3cresume (st (I3cd 0x000))) 30).

Lemma resume_bit w : Z.testbit (set_bit FI3cresume w) 30 = true.
Proof.
  unfold set_bit. cbn [fput I3cChip_hw]. unfold field_update. cbn [field_at].
  rewrite Z.lor_spec. change (Z.testbit (Z.shiftl (Z.land 1 (Z.ones 1)) 30) 30) with true. apply orb_true_r.
Qed.

Lemma reset_queues :
  reset_ctrl RESET_CTRL_XFER_QUEUES =
    (write_reset_ctrl RESET_CTRL_XFER_QUEUES;; poll_or_timeout read_reset_ctrl (λ v, v =? 0) I3C_CTRL_POLL_DELAY_NS : i3c unit).
Proof. reflexivity. Qed.

Lemma resume_run (s : ctl) st ha l :
  chip s = mkI3cChip st None [] [] [] [] 0 ha l → resume s = Some (with_chip (idle (resumed st) l) s, Ok ()).
Proof.
  destruct s as [[h bu ft] cf g]. unfold chip. cbn [regs hw]. intros ->.
  change (resume _) with
    (Some (mkI3cController (mkAst1060I3c (mkI3cChip (resumed st) None [] [] [] [] 0
       (ha && negb (Z.testbit (set_bit FI3cresume (st (I3cd 0x000))) 30)) l) bu ft) cf g, Ok ()) : option (ctl * result unit I3cError)).
  rewrite resume_bit. by rewrite andb_false_r.
Qed.

(** A halted engine is reset and resumed. *)
Lemma recover_run (s : ctl) st re l :
  chip s = mkI3cChip st None [] [] [] re 0 true l → is_secondary (config s) = false →
  recover_or_fault false RESET_CTRL_XFER_QUEUES s = Some (with_chip (idle (resumed st) l) s, Ok ()).
Proof.
  destruct s as [[h bu ft] cf g]. unfold chip. cbn [regs hw config]. intros -> Hsec. unfold recover_or_fault, recover_queues.
  erewrite bind_run; cycle 1.
  { erewrite bind_run; cycle 1.
    { apply attempt_run. unfold enter_halt. erewrite bind_run by reflexivity. cbn [config]. rewrite Hsec.
      erewrite bind_run by reflexivity. by eapply poll_hit. }
    erewrite bind_run; cycle 1.
    { apply attempt_run. rewrite reset_queues. erewrite bind_run by reflexivity. by eapply poll_hit. }
    erewrite bind_run; cycle 1.
    { apply attempt_run. unfold exit_halt. erewrite bind_run by reflexivity.
      erewrite (bind_run xfer_status _ _ _ CM_TFR_STS_MASTER_HALT) by reflexivity. cbn [config set_hw]. rewrite Hsec. cbn [halt_state].
      rewrite Z.eqb_refl. cbn [negb]. erewrite bind_run by (by eapply resume_run).
      eapply poll_hit; reflexivity. }
    reflexivity. }
  reflexivity.
Qed.

(** ** A whole transfer *)

(** The command a target did not acknowledge. *)
Definition refused (c : I3cCmd) : I3cCmd :=
  mkI3cCmd (cmd_lo c) (cmd_hi c) (tx c) (rx c) (tx_len c) 0 RESPONSE_ERROR_ADDRESS_NACK.

Lemma response_nack c r (s : ctl) st l :
  chip s = mkI3cChip st None [] [] [] [response RESPONSE_ERROR_ADDRESS_NACK 0] 0 true l →
  process_response ([c], r) s =
    Some (with_chip (mkI3cChip st None [] [] [] [] 0 true l) s, Ok ([refused c], RESPONSE_ERROR_ADDRESS_NACK)).
Proof.
  destruct s as [[h bu ft] cf g]. unfold chip. cbn [regs hw config]. intros ->. reflexivity.
Qed.

Lemma process_nack c r0 (s : ctl) st l :
  chip s = mkI3cChip st None [] [] [] [response RESPONSE_ERROR_ADDRESS_NACK 0] 0 true l → is_secondary (config s) = false →
  process_responses (mkI3cXfer [c] r0) s =
    Some (with_chip (idle (resumed st) l) s, Ok (mkI3cXfer [refused c] RESPONSE_ERROR_ADDRESS_NACK)).
Proof.
  intros Hs Hsec. unfold process_responses. erewrite (bind_run _ _ s s 1%nat); cycle 1.
  { destruct s as [[h bu ft] cf g]. unfold chip in Hs. cbn [regs hw] in Hs. by subst h. }
  cbn [response_loop cmds]. erewrite bind_run by (erewrite bind_run by (by eapply response_nack); reflexivity).
  cbn [snd]. change (negb (RESPONSE_ERROR_ADDRESS_NACK =? 0)) with true.
  erewrite bind_run by (by eapply recover_run). by destruct s as [[h bu ft] cf g].
Qed.

(** The state a transfer leaves: the chip quiet, its table as it was. *)
Definition settled (s : ctl) (l : list target) (s' : ctl) : Prop :=
  ∃ st, s' = mkI3cController (mkAst1060I3c (idle st l) (bus (hw s)) (xfer_faulted (hw s))) (config s) (glob s') ∧
        isr_ready (bus (hw s)) (glob s') ∧ ∀ p, st (dat_reg p) = store (chip s) (dat_reg p).

(** What the driver reports of a command, given what happened on the wire. *)
Definition reported (c : I3cCmd) (o : option (list Z * list target)) : I3cXfer :=
  match o with
  | Some (b, _) => mkI3cXfer [filled c b] 0
  | None => mkI3cXfer [refused c] RESPONSE_ERROR_ADDRESS_NACK
  end.
Definition wire_after (o : option (list Z * list target)) (l : list target) : list target :=
  match o with Some (_, l') => l' | None => l end.
Definition data_fits (c : I3cCmd) (o : option (list Z * list target)) : Prop :=
  match o with
  | Some (b, _) => Forall in_u8 b ∧ (length b < 16)%nat ∧ (b = [] ∨ length <$> rx c = Some (length b))
  | None => True
  end.

Lemma wait_unfold polls x (s : ctl) :
  wait_loop polls x s = (
    pend ← take_pending;
    if has_flag pend MASTER_XFER_STAT then
      xfer ← process_responses x;
      (if (xret xfer =? 0) && has_flag pend (Z.lor INTR_TRANSFER_ERR_STAT INTR_TRANSFER_ABORT_STAT) then
         recover_or_fault false RESET_CTRL_XFER_QUEUES;; unmask_master_xfer_irqs;; mret (Some (mkI3cXfer (cmds xfer) (-1)))
       else unmask_master_xfer_irqs;; mret (Some xfer))
    else match polls with O => mret None | S polls => yield_ns 1000;; wait_loop polls x end : i3c (option I3cXfer)) s.
Proof. by destruct polls. Qed.

(** The response is there when the interrupt was served. *)
Lemma wait_served polls c r0 o (s : ctl) st l :
  chip s = set_status 0 (masked (executed o st l)) → isr_ready (bus (hw s)) (glob s) → is_secondary (config s) = false →
  pending (events s) = status (executed o st l) → data_fits c o →
  ∃ s', wait_loop polls (mkI3cXfer [c] r0) s = Some (s', Ok (Some (reported c o))) ∧
        settled (with_chip (set_store st (chip s)) s) (wire_after o l) s'.
Proof.
  intros Hs Hr Hsec Hp Hd.
  rewrite wait_unfold, (bind_run _ _ _ _ _ (take_pending_run _)), Hp.
  destruct o as [[b l']|]; cbn [executed status].
  - change (has_flag INTR_RESP_READY_STAT MASTER_XFER_STAT) with true. destruct Hd as (H1 & H2 & H3).
    erewrite bind_run by (eapply process_ok; [exact Hs|done..]). cbn [xret].
    change ((0 =? 0) && has_flag INTR_RESP_READY_STAT (Z.lor INTR_TRANSFER_ERR_STAT INTR_TRANSFER_ABORT_STAT)) with false. cbv iota.
    erewrite bind_run by apply unmask_run. eexists. split; [reflexivity|].
    destruct s as [[h bu ft] cf g]. cbn in Hs. subst h. eexists. split; [reflexivity|]. split; [by apply isr_ready_upd|].
    intros p. cbn. by rewrite !dat_reg_plain by lia.
  - change (has_flag _ MASTER_XFER_STAT) with true. cbv iota.
    erewrite bind_run by (eapply process_nack; [exact Hs|done]). cbn [xret].
    change (RESPONSE_ERROR_ADDRESS_NACK =? 0) with false. cbn [andb].
    erewrite bind_run by apply unmask_run. eexists. split; [reflexivity|].
    destruct s as [[h bu ft] cf g]. cbn in Hs. subst h. eexists. split; [reflexivity|]. split; [by apply isr_ready_upd|].
    intros p. cbn. unfold resumed. by rewrite !dat_reg_plain by lia.
Qed.

Lemma executed_raised o st l : raised (status (executed o st l)).
Proof. destruct o as [[]|]; [by left|by right]. Qed.

Lemma events_with f (s : ctl) : isr_ready (bus (hw s)) (glob s) → events (with_events f s) = f (events s).
Proof. apply isr_events_upd. Qed.

(** A command on a quiet chip is executed once, and the chip is quiet again. *)
Lemma run_xfer_runs c (s : ctl) st l :
  chip s = idle st l → isr_ready (bus (hw s)) (glob s) → is_secondary (config s) = false →
  tx_len c = Z.of_nat (length (default [] (tx c))) → data_fits c (outcome c st l) →
  ∃ s', run_xfer [c] s = Some (s', Ok (Some (reported c (outcome c st l)))) ∧ settled s (wire_after (outcome c st l) l) s'.
Proof.
  intros Hs Hr Hsec Htx Hd. set (o := outcome c st l) in *.
  unfold run_xfer. rewrite (bind_run _ _ _ _ _ (start_run c s st l Hs Htx)).
  set (s1 := with_chip _ _).
  assert (isr_ready (bus (hw s1)) (glob s1)) as Hr1 by (by apply isr_ready_upd).
  assert (pending (events s1) = 0) as Hp1.
  { change (events s1) with (events (with_events (set_pending 0) s)). by rewrite events_with. }
  assert (chip s1 = queued c st l) as Hc1 by done.
  unfold wait_xfer_complete.
  assert (∃ n, Z.to_nat I3C_OP_TIMEOUT_US = S n) as [n ->].
  { exists (Z.to_nat (I3C_OP_TIMEOUT_US - 1)). unfold I3C_OP_TIMEOUT_US, USEC_PER_SEC. lia. }
  set (s2 := with_events (set_pending 0) s1).
  set (h := executed o (queued_store st) l).
  set (s3 := with_chip (set_status 0 (masked h)) (with_events (λ e, set_pending (Z.lor (pending e) (status h)) e) s2)).
  assert (yield_ns 1000 s2 = Some (s3, Ok ())) as Hy.
  { apply yield_run; [|apply executed_raised| |by apply isr_ready_upd].
    - change (chip s2) with (chip s1). rewrite Hc1. apply execute_queued.
    - unfold h. assert (Z.testbit (status (executed o (queued_store st) l)) 4 = true) as Hb by (by destruct o as [[]|]).
      pose proof (line_up _ st Hb) as Hl. by destruct o as [[]|]. }
  assert (isr_ready (bus (hw s2)) (glob s2)) as Hr2 by (by apply isr_ready_upd).
  destruct (wait_served n c (-1) o s3 (queued_store st) l) as (s' & Hw & Hset); [done|by apply isr_ready_upd|done| |done|].
  { change (events s3) with (events (with_events (λ e, set_pending (Z.lor (pending e) (status h)) e) s2)).
    rewrite events_with by done. cbn [pending set_pending]. unfold s2. rewrite events_with by done. cbn [pending set_pending].
    by rewrite Z.lor_0_l. }
  exists s'. split.
  - erewrite bind_run; cycle 1.
    { erewrite bind_run; cycle 1.
      { rewrite wait_unfold, (bind_run _ _ _ _ _ (take_pending_run _)), Hp1. change (has_flag 0 MASTER_XFER_STAT) with false.
        cbv iota. fold s2. rewrite (bind_run _ _ _ _ _ Hy). exact Hw. }
      reflexivity. }
    reflexivity.
  - destruct Hset as (st' & He & Hr' & Hst). exists st'. split; [exact He|]. split; [exact Hr'|].
    intros p. rewrite Hst, Hs. cbn. apply queued_store_dat.
Qed.

(** ** The laws of address assignment *)

Definition target_ok (t : target) : Prop := in_u8 (tg_bcr t) ∧ from_option in_u8 True (tg_dcr t).
Definition chip_usable (d : Ast1060I3c I3cChip) (g : I3cGlobals) : Prop :=
  (∃ st l, regs d = idle st l ∧ Forall target_ok l) ∧ isr_ready (bus d) g ∧ xfer_faulted d = false.

#[export] Instance I3cChip_daa : DaaBus (Ast1060I3c I3cChip) := {
  on_bus d := wired (regs d);
  dat_addr d := entry_addr (regs d);
  usable := chip_usable;
}.

Lemma settled_leaves {A} (m : i3c A) (s s' : ctl) r l :
  m s = Some (s', r) → settled s l s' → xfer_faulted (hw s) = false → Forall target_ok l → leaves m s r l.
Proof.
  intros Hm (st & He & Hr & Hst) Hf Hl. eexists _, _. split; [rewrite Hm; do 2 f_equal; exact He|]. split_and!.
  - split; [by exists st, l|]. by split.
  - done.
  - intros p. cbn. by apply entry_store.
Qed.

Lemma targets_ok_alter f i l : (∀ t, target_ok t → target_ok (f t)) → Forall target_ok l → Forall target_ok (alter f i l).
Proof. intros Hf Hl. apply Forall_alter; [done|]. intros. by apply Hf. Qed.
Lemma targets_ok_entdaa a l l' : Forall target_ok l → bus_entdaa a l = Some l' → Forall target_ok l'.
Proof. unfold bus_entdaa. destruct (winner l); [|done]. intros Hl [= <-]. by apply targets_ok_alter. Qed.
Lemma targets_ok_setnewda a a' l l' : Forall target_ok l → bus_setnewda a a' l = Some l' → Forall target_ok l'.
Proof. unfold bus_setnewda. destruct (at_addr l a); [|done]. intros Hl [= <-]. by apply targets_ok_alter. Qed.

Lemma entdaa_word pos : (pos < 8)%nat →
  cmd_attr (cmd_lo (entdaa_cmd pos)) = COMMAND_ATTR_ADDR_ASSGN_CMD ∧ cmd_index (cmd_lo (entdaa_cmd pos)) = pos.
Proof. intros Hp. do 8 (destruct pos as [|pos]; [by vm_compute|]). lia. Qed.

Lemma chip_entdaa (s : ctl) pos :
  chip_usable (hw s) (glob s) → is_secondary (config s) = false → (pos < 8)%nat →
  match bus_entdaa (entry_addr (chip s) pos) (wired (chip s)) with
  | Some l => leaves (do_entdaa pos) s (Ok ()) l
  | None => leaves (do_entdaa pos) s (Err DaaNack) (wired (chip s))
  end.
Proof.
  intros ((st & l & Hs & Hl) & Hr & Hf) Hsec Hp. fold (chip s) in Hs. rewrite Hs.
  destruct (entdaa_word pos Hp) as [Ha Hi].
  assert (outcome (entdaa_cmd pos) st l = (λ l', ([], l')) <$> bus_entdaa (entry_addr (idle st l) pos) l) as Ho.
  { unfold outcome, on_wire. by rewrite Ha, Hi. }
  destruct (run_xfer_runs (entdaa_cmd pos) s st l) as (s' & Hrun & Hset); [done..| |].
  { rewrite Ho. destruct (bus_entdaa _ l); cbn; [|done]. split_and!; [done|lia|by left]. }
  assert (do_entdaa pos s = ccc_status (xret (reported (entdaa_cmd pos) (outcome (entdaa_cmd pos) st l))) DaaNack s') as Hdo.
  { unfold do_entdaa, ensure_xfer_ready.
    erewrite bind_run; cycle 1.
    { erewrite bind_run by reflexivity. rewrite Hf. reflexivity. }
    erewrite bind_run by reflexivity. rewrite Hsec. erewrite bind_run by reflexivity.
    by rewrite (bind_run _ _ _ _ _ Hrun). }
  rewrite Ho in *. change (wired (idle st l)) with l. destruct (bus_entdaa (entry_addr (idle st l) pos) l) as [l'|] eqn:Hb.
  - eapply settled_leaves; [rewrite Hdo; reflexivity|done|done|by eapply targets_ok_entdaa].
  - eapply settled_leaves; [rewrite Hdo; reflexivity|done..].
Qed.

(** *** Direct commands *)

Lemma ccc_word i pos r t b :
  i ∈ [I3C_CCC_GETPID; I3C_CCC_GETBCR; I3C_CCC_GETDCR; I3C_CCC_SETNEWDA] → (pos < 8)%nat →
  let w := cmd_lo (ccc_cmd i None false pos r t b) in
  cmd_attr w = COMMAND_ATTR_XFER_CMD ∧ cmd_index w = pos ∧ cmd_code w = i ∧ cmd_is_code w = true ∧ cmd_reads w = r.
Proof.
  intros Hi Hp. rewrite !elem_of_cons in Hi.
  destruct Hi as [-> | [-> | [-> | [-> | Hi]]]]; [..|by apply elem_of_nil in Hi];
    destruct r; (do 8 (destruct pos as [|pos]; [by vm_compute|])); lia.
Qed.

(** A device that may be addressed is let through, at its slot. *)
Lemma claimed_allowed c a pos i :
  config_ok c → claimed c a pos → allowed_for_unknown i = true →
  target_allowed (attached c) i a = true ∧ pos_of_addr (attached c) a = Some pos ∧ (pos < 8)%nat.
Proof.
  intros Hc (k & d & Hd & Hk & Ha & Hst & Hp) Hi. split; [|split].
  - unfold target_allowed. destruct (find _ (devices (attached c))) as [e|] eqn:Hf; cbn [fmap option_fmap option_map].
    + apply find_some in Hf as [He%list_elem_of_In [_ Hea%Z.eqb_eq]%andb_true_iff].
      apply list_elem_of_lookup_1 in He as [j Hj]. assert (j = k) as -> by (eapply (ok_addr _ Hc); [done..|congruence]).
      simplify_eq. by destruct (da_state d).
    + assert (In d (devices (attached c))) as Hin by (apply list_elem_of_In; by eapply list_elem_of_lookup_2).
      pose proof (find_none _ _ Hf _ Hin) as Hn. cbv beta in Hn. rewrite bool_decide_eq_true_2, Ha, Z.eqb_refl in Hn by done. done.
  - unfold pos_of_addr. rewrite <- Ha, (find_by_addr_spec _ _ _ Hc Hd). cbn. by rewrite (pos_of_spec _ _ _ (ok_table _ Hc) Hd).
  - by eapply table_pos_lt; [apply Hc| |].
Qed.

(** The command a direct call issues, and the driver's path to it. *)
Definition direct_cmd (i : Z) (pos : nat) (r : bool) (d : list Z) : I3cCmd :=
  ccc_cmd i None false pos r (if r then None else Some d) (if r then Some d else None).
Definition direct_outcome (i a : Z) (r : bool) (d : list Z) (l : list target) : option (list Z * list target) :=
  if r then (λ b, (b, l)) <$> bus_read i a l
  else if i =? I3C_CCC_SETNEWDA then (λ l', ([], l')) <$> bus_setnewda a (Z.shiftr (Z.land (nth 0 (pack d) 0) 255) 1) l
  else (λ _, ([], l)) <$> at_addr l a.

Lemma direct_wire i a pos (r : bool) d st l :
  i ∈ [I3C_CCC_GETPID; I3C_CCC_GETBCR; I3C_CCC_GETDCR; I3C_CCC_SETNEWDA] → (pos < 8)%nat → entry_addr (idle st l) pos = a →
  outcome (direct_cmd i pos r d) st l = direct_outcome i a r d l.
Proof.
  intros Hi Hp Ha. destruct (ccc_word i pos r (if r then None else Some d) (if r then Some d else None) Hi Hp) as (H1 & H2 & H3 & H4 & H5).
  unfold outcome, direct_cmd, on_wire. rewrite H1, H2, H3, H4, H5, Ha.
  change (COMMAND_ATTR_XFER_CMD =? COMMAND_ATTR_ADDR_ASSGN_CMD) with false. cbn [negb].
  assert (i <=? 0x7F = false) as ->.
  { rewrite !elem_of_cons in Hi. by destruct Hi as [-> | [-> | [-> | [-> | Hi%elem_of_nil]]]]. }
  by destruct r.
Qed.

Lemma chip_direct (s : ctl) i a pos (r : bool) d :
  addresses s a pos → i ∈ [I3C_CCC_GETPID; I3C_CCC_GETBCR; I3C_CCC_GETDCR; I3C_CCC_SETNEWDA] →
  (0 < length d < 16)%nat → data_fits (direct_cmd i pos r d) (direct_outcome i a r d (wired (chip s))) →
  ∃ s', settled s (wire_after (direct_outcome i a r d (wired (chip s))) (wired (chip s))) s' ∧
    do_ccc (direct i None a r d) s =
      (let x := reported (direct_cmd i pos r d) (direct_outcome i a r d (wired (chip s))) in
       let cmd := default I3cCmd_new (head (cmds x)) in
       let actual := Z.to_nat (rx_len cmd) in
       require (negb (r && (xret x =? 0) && (actual <? length d)%nat)) RespError;;
       ccc_status (xret x) AddressNack;;
       mret (mkCccPayload (Some (mkCcc i None 0))
               (Some [if r then mkCccTargetPayload a true (rx cmd) actual
                      else mkCccTargetPayload a false (Some d) (length d)])) : i3c CccPayload) s'.
Proof.
  intros [((st & l & Hs & Hl) & Hr & Hf) Hsec Hc Hcl Hda] Hi Hd Hfit.
  assert (allowed_for_unknown i = true) as Hal.
  { rewrite !elem_of_cons in Hi. by destruct Hi as [-> | [-> | [-> | [-> | Hi%elem_of_nil]]]]. }
  assert (i <=? 0x7F = false) as Hbc.
  { rewrite !elem_of_cons in Hi. by destruct Hi as [-> | [-> | [-> | [-> | Hi%elem_of_nil]]]]. }
  destruct (claimed_allowed _ _ _ i Hc Hcl Hal) as (Ht & Hpos & Hp8). fold (chip s) in Hs.
  change (entry_addr (chip s) pos = a) in Hda. rewrite Hs in *. change (wired (idle st l)) with l in *.
  rewrite <- (direct_wire i a pos r d st l Hi Hp8 Hda) in *.
  destruct (run_xfer_runs (direct_cmd i pos r d) s st l) as (s' & Hrun & Hset); [done|done|done|by destruct r|done|].
  exists s'. split; [done|]. match goal with |- _ = ?x => set (rhs := x) end.
  unfold do_ccc, ensure_xfer_ready. unfold xfer_faulted in Hf.
  erewrite bind_run; cycle 1.
  { erewrite bind_run by reflexivity. unfold xfer_faulted. rewrite Hf. reflexivity. }
  erewrite bind_run by reflexivity. rewrite Hsec. erewrite bind_run by reflexivity.
  unfold direct. cbn [ccc ccc_data ccc_id]. erewrite bind_run by reflexivity. rewrite Hbc. unfold do_ccc_direct. cbn [targets].
  erewrite bind_run by reflexivity. cbn [tp_addr ccc_id]. rewrite Ht. erewrite bind_run by reflexivity. rewrite Hpos.
  cbn [tp_data rnw data_len ccc_data].
  assert ((if r then negb (length d =? 0)%nat && (Z.of_nat (length d) <=? MAX_XFER_DATA_LEN)
           else Z.of_nat (length d) <=? MAX_XFER_DATA_LEN) = true) as ->.
  { assert (Z.of_nat (length d) <=? MAX_XFER_DATA_LEN = true) as -> by (apply Z.leb_le; unfold MAX_XFER_DATA_LEN; lia).
    rewrite (proj2 (Nat.eqb_neq _ 0)) by lia. by destruct r. }
  erewrite bind_run by reflexivity.
  fold (direct_cmd i pos r d). rewrite (bind_run _ _ _ _ _ Hrun). unfold rhs. by destruct r.
Qed.

(** What a target sends fits the buffer of the call. *)
Lemma bus_read_bytes i a l b : Forall target_ok l → bus_read i a l = Some b → Forall in_u8 b ∧ length b = read_len i.
Proof.
  intros Hl. unfold bus_read, read_len. destruct (at_addr l a ≫= λ n, l !! n) as [t|] eqn:Ht; [|done]. cbn [mbind option_bind].
  assert (target_ok t) as [Hb Hd].
  { destruct (at_addr l a) as [n|]; [|done]. by eapply Forall_lookup_1. }
  destruct (i =? I3C_CCC_GETPID).
  { intros [= <-]. split; [|done]. pose proof (pid_bytes_byte (tg_pid t)) as Hp. rewrite Forall_forall in Hp |- *.
    intros x Hx%Hp. unfold in_u8, u8_MAX. lia. }
  destruct (i =? I3C_CCC_GETBCR); [intros [= <-]; by split; [constructor|]|].
  destruct (i =? I3C_CCC_GETDCR); [|done]. destruct (tg_dcr t) as [x|]; [|done]. intros [= <-]. by split; [constructor|].
Qed.

Lemma chip_read (s : ctl) i a pos :
  addresses s a pos → i ∈ [I3C_CCC_GETPID; I3C_CCC_GETBCR; I3C_CCC_GETDCR] →
  match bus_read i a (wired (chip s)) with
  | Some b => ∃ p, answer p = b ∧ leaves (do_ccc (direct i None a true (replicate (read_len i) 0))) s (Ok p) (wired (chip s))
  | None => leaves (do_ccc (direct i None a true (replicate (read_len i) 0))) s (Err AddressNack) (wired (chip s))
  end.
Proof.
  intros Had Hi. pose proof Had as [((st & l & Hs & Hl) & Hr & Hf) Hsec Hc Hcl Hda]. fold (chip s) in Hs.
  assert (Forall target_ok (wired (chip s))) as Hl' by (by rewrite Hs).
  assert (0 < read_len i < 16)%nat by (unfold read_len; destruct (_ =? _); lia).
  destruct (chip_direct s i a pos true (replicate (read_len i) 0) Had) as (s' & Hset & Hrun).
  - rewrite !elem_of_cons in *. tauto.
  - by rewrite length_replicate.
  - cbn [direct_outcome]. destruct (bus_read i a (wired (chip s))) as [b|] eqn:Hb; cbn; [|done].
    apply bus_read_bytes in Hb as [H1 H2]; [|done]. rewrite length_replicate, H2. by split_and!; [|lia|right].
  - cbn [direct_outcome] in Hset, Hrun. destruct (bus_read i a (wired (chip s))) as [b|] eqn:Hb; cbn [fmap option_fmap option_map] in *.
    + apply bus_read_bytes in Hb as [_ H2]; [|done]. eexists. split.
      2:{ eapply settled_leaves; [rewrite Hrun|done..]. cbn [reported xret cmds list.head hd_error default from_option id filled rx_len andb].
          rewrite Nat2Z.id, length_replicate, H2, Nat.ltb_irrefl. reflexivity. }
      cbn. destruct b as [|x b]; [cbn in H2; lia|done].
    + eapply settled_leaves; [rewrite Hrun; reflexivity|done..].
Qed.

(** The new address on the wire: its seven bits above the parity. *)
Lemma newda_byte a : 0 < a < I3C_BROADCAST_ADDR →
  Z.shiftr (Z.land (nth 0 (pack [as_u8 (Z.shiftl (Z.land a 0x7F) 1)]) 0) 255) 1 = a.
Proof.
  unfold I3C_BROADCAST_ADDR. intros Ha.
  assert (forallb (λ a, Z.shiftr (Z.land (nth 0 (pack [as_u8 (Z.shiftl (Z.land a 0x7F) 1)]) 0) 255) 1 =? a) (seqZ 0 126) = true)
    as Hall by (vm_compute; reflexivity).
  rewrite forallb_forall in Hall. apply Z.eqb_eq, Hall, list_elem_of_In, elem_of_seqZ. lia.
Qed.

Lemma chip_setnewda (s : ctl) a a' pos :
  addresses s a pos → 0 < a' < I3C_BROADCAST_ADDR →
  match bus_setnewda a a' (wired (chip s)) with
  | Some l => ∃ p, leaves (do_ccc (direct I3C_CCC_SETNEWDA None a false [as_u8 (Z.shiftl (Z.land a' 0x7F) 1)])) s (Ok p) l
  | None =>
      leaves (do_ccc (direct I3C_CCC_SETNEWDA None a false [as_u8 (Z.shiftl (Z.land a' 0x7F) 1)])) s (Err AddressNack)
        (wired (chip s))
  end.
Proof.
  intros Had Ha'. pose proof Had as [((st & l & Hs & Hl) & Hr & Hf) Hsec Hc Hcl Hda]. fold (chip s) in Hs.
  assert (Forall target_ok (wired (chip s))) as Hl' by (by rewrite Hs).
  set (d := [as_u8 (Z.shiftl (Z.land a' 0x7F) 1)]).
  assert (direct_outcome I3C_CCC_SETNEWDA a false d (wired (chip s)) = (λ l', ([], l')) <$> bus_setnewda a a' (wired (chip s))) as Ho.
  { unfold direct_outcome. rewrite Z.eqb_refl. unfold d. by rewrite newda_byte. }
  destruct (chip_direct s I3C_CCC_SETNEWDA a pos false d Had) as (s' & Hset & Hrun).
  - rewrite !elem_of_cons. tauto.
  - cbn. lia.
  - rewrite Ho. destruct (bus_setnewda a a' (wired (chip s))); cbn; [|done]. split_and!; [done|lia|by left].
  - rewrite Ho in *. destruct (bus_setnewda a a' (wired (chip s))) as [l'|] eqn:Hb; cbn [fmap option_fmap option_map] in *.
    + eexists. eapply settled_leaves; [rewrite Hrun; reflexivity|done|done|by eapply targets_ok_setnewda].
    + eapply settled_leaves; [rewrite Hrun; reflexivity|done..].
Qed.

#[export] Instance I3cChip_laws : DaaLaws (Ast1060I3c I3cChip).
Proof.
  split; [|exact chip_read|exact chip_setnewda]. intros s pos Hu Hsec Hp.
  change (on_bus (hw s)) with (wired (chip s)). change (dat_addr (hw s) pos) with (entry_addr (chip s) pos).
  pose proof (chip_entdaa s pos Hu Hsec Hp) as Hx. unfold bus_entdaa in Hx.
  destruct (winner (wired (chip s))) as [j|] eqn:Hw; cbn [fmap option_fmap option_map] in Hx.
  - destruct (winner_Some _ _ Hw) as (t & Hj & Ht). rewrite (alter_insert _ _ _ _ Hj) in Hx.
    rewrite (waiting_lookup _ _ _ Hj Ht). by exists j, t.
  - by rewrite (winner_None _ Hw).
Qed.
