(* ===== verification/I3cDaa.v ===== *)
(** * Dynamic address assignment works

    On a bus where every device that waits for an address is there to answer, and
    every other target that joins is a stranger for whom an address is free, [bus_daa]
    gives each waiting device its own address within the source's budget of rounds,
    parks the strangers that win before, and leaves no two targets at one address.  Proved against
    the laws of [I3cBus], which the driver on the controller block has. *)

From S2P Require Import Prelude Bytes RegMonad I3cConfig I3cIbi I3cRegs I3cDev I3cCtl I3cBook I3cInv I3cBus I3cCorrect I3cEngine.
From stdpp Require Import base tactics option list numbers.
Local Open Scope Z_scope.

(** ** Counting *)

Fixpoint count {A} (p : A → bool) (l : list A) : nat :=
  match l with [] => 0 | x :: l => (if p x then 1 else 0) + count p l end.

Lemma count_insert {A} (p : A → bool) l i x y :
  l !! i = Some x → (count p (<[i := y]> l) + (if p x then 1 else 0) = count p l + (if p y then 1 else 0))%nat.
Proof.
  revert i. induction l as [|z l IH]; intros [|i] Hi; [done..| |].
  - cbn in Hi. simplify_eq. cbn. destruct (p x), (p y); lia.
  - cbn in Hi. specialize (IH _ Hi). change (<[S i := y]> (z :: l)) with (z :: <[i := y]> l). cbn [count].
    destruct (p x), (p y), (p z); lia.
Qed.
Lemma count_ext {A} (p q : A → bool) l : (∀ x, x ∈ l → p x = q x) → count p l = count q l.
Proof.
  induction l as [|x l IH]; intros He; [done|]. cbn. rewrite (He x) by left. by rewrite IH by (intros; apply He; by right).
Qed.
Lemma count_zero {A} (p : A → bool) l : count p l = 0%nat → ∀ x, x ∈ l → p x = false.
Proof.
  induction l as [|y l IH]; cbn; [by intros _ x ?%elem_of_nil|]. intros Hz x [->|Hx]%elem_of_cons; [by destruct (p y)|].
  apply IH; [destruct (p y); lia|done].
Qed.
Lemma count_pos {A} (p : A → bool) l x : x ∈ l → p x = true → (0 < count p l)%nat.
Proof. intros Hx Hp. destruct (count p l) eqn:E; [|lia]. by rewrite (count_zero p l E x Hx) in Hp. Qed.
Lemma count_except {A} `{EqDecision A} (p : A → bool) l a :
  NoDup l → a ∈ l → p a = true → count p l = S (count (λ x, p x && negb (bool_decide (x = a))) l).
Proof.
  induction 1 as [|y l Hy Hnd IH]; [by intros ?%elem_of_nil|]. intros [->|Ha]%elem_of_cons Hp; cbn.
  - rewrite Hp, bool_decide_eq_true_2 by done. cbn. f_equal. apply count_ext. intros x Hx.
    rewrite bool_decide_eq_false_2; [by rewrite andb_true_r|]. by intros ->.
  - rewrite IH by done. rewrite (bool_decide_eq_false_2 (y = a)) by (by intros ->). rewrite andb_true_r. lia.
Qed.

(** ** The targets of a bus *)

Lemma at_addr_unique l j t a :
  l !! j = Some t → tg_da t = Some a → (∀ k u, l !! k = Some u → tg_da u = Some a → k = j) → at_addr l a = Some j.
Proof.
  intros Hj Ht Hu. unfold at_addr. destruct (position (answers a) l) as [k|] eqn:Hk.
  - apply position_Some in Hk as (u & Hl & Ha%bool_decide_eq_true & _). f_equal. by eapply Hu.
  - rewrite position_None in Hk. specialize (Hk t). unfold answers in Hk. rewrite bool_decide_eq_true_2 in Hk by done.
    by discriminate Hk; eapply list_elem_of_lookup_2.
Qed.

Section commands.
Context {D : Type} `{HardwareInterface D} `{!DaaBus D} `{!DaaLaws D}.
Notation ctl := (drv (I3cController D) I3cError).
Implicit Types s : I3cController D.

(** ** The commands of the walk *)

(** A state with the targets [l] wired to it and the table [f]. *)
Definition wired_to s (l : list target) (f : nat → Z) : Prop :=
  usable (hw s) (glob s) ∧ on_bus (hw s) = l ∧ ∀ p, dat_addr (hw s) p = f p.

Lemma dwp_leaves {A} (m : ctl A) s r l Q f :
  leaves m s r l → (∀ p, dat_addr (hw s) p = f p) →
  (∀ s', config s' = config s → wired_to s' l f → Q r s') → dwp m Q s.
Proof.
  intros (h & g & Hm & Hu & Hl & Hd) Hf HQ. eapply dwp_intro; [done|]. apply HQ; [done|]. split; [done|]. split; [done|].
  intros p. cbn. by rewrite Hd.
Qed.

Lemma dwp_mapping_err {A} fe (m : ctl A) Q s : dwp m (λ r s', Q (map_err fe r) s') s → dwp (mapping_err fe m) Q s.
Proof. intros Hm. unfold mapping_err. apply dwp_bind, dwp_attempt. eapply dwp_mono; [exact Hm|]. intros a s' HQ. by apply dwp_lift. Qed.

(** The target at an address a device claims. *)
Record reaches s (a : Z) (pos : nat) (l : list target) (f : nat → Z) (j : nat) (t : target) : Prop := {
  re_wired : wired_to s l f;
  re_primary : is_secondary (config s) = false;
  re_config : config_ok (config s);
  re_claimed : claimed (config s) a pos;
  re_dat : f pos = a;
  re_at : at_addr l a = Some j;
  re_target : l !! j = Some t;
}.

Lemma reaches_addresses s a pos l f j t : reaches s a pos l f j t → addresses s a pos.
Proof. intros [(Hu & Hl & Hf) Hp Hc Hcl Hd Ha Ht]. split; try done. by rewrite Hf. Qed.
Lemma claimed_pos c a pos : config_ok c → claimed c a pos → 0 < a.
Proof. intros Hc (i & d & Hd & _ & <- & _). apply (ok_dev _ Hc _ _ Hd). Qed.

Lemma dwp_read s i a pos l f j t b Q :
  reaches s a pos l f j t → i ∈ [I3C_CCC_GETPID; I3C_CCC_GETBCR; I3C_CCC_GETDCR] → bus_read i a l = Some b →
  (∀ p s', answer p = b → config s' = config s → wired_to s' l f → Q (Ok p) s') →
  dwp (hi_do_ccc (direct i None a true (replicate (read_len i) 0))) Q s.
Proof.
  intros Hr Hi Hb HQ. pose proof (law_read _ i a pos (reaches_addresses _ _ _ _ _ _ _ Hr) Hi) as Hlaw.
  destruct (re_wired _ _ _ _ _ _ _ Hr) as (_ & Hl & Hf). rewrite Hl, Hb in Hlaw. destruct Hlaw as (p & Hp & Hlv).
  eapply dwp_leaves; [done|done|]. intros s' Hs' Hw. by apply HQ.
Qed.

Lemma dwp_getpid s a pos l f j t Q :
  reaches s a pos l f j t → 0 ≤ tg_pid t < 2 ^ 48 →
  (∀ s', config s' = config s → wired_to s' l f → Q (Ok (tg_pid t)) s') → dwp (ccc_getpid a) Q s.
Proof.
  intros Hr Hp HQ. unfold ccc_getpid. apply dwp_bind, dwp_mapping_err.
  eapply (dwp_read s I3C_CCC_GETPID); [done|by left| |].
  - unfold bus_read. rewrite (re_at _ _ _ _ _ _ _ Hr). cbn [mbind option_bind]. by rewrite (re_target _ _ _ _ _ _ _ Hr).
  - intros p s' Ha Hs' Hw. apply dwp_ret. rewrite Ha, pid_bytes_roundtrip by done. by apply HQ.
Qed.

Lemma dwp_getbcr s a pos l f j t Q :
  reaches s a pos l f j t → (∀ s', config s' = config s → wired_to s' l f → Q (Ok (tg_bcr t)) s') → dwp (ccc_getbcr a) Q s.
Proof.
  intros Hr HQ. pose proof (claimed_pos _ _ _ (re_config _ _ _ _ _ _ _ Hr) (re_claimed _ _ _ _ _ _ _ Hr)).
  unfold ccc_getbcr, ccc_direct_read. rewrite (proj2 (Z.eqb_neq a 0)) by lia.
  apply dwp_bind, dwp_bind, dwp_require_true, dwp_bind, dwp_mapping_err.
  eapply (dwp_read s I3C_CCC_GETBCR); [done|by right; left| |].
  - unfold bus_read. rewrite (re_at _ _ _ _ _ _ _ Hr). cbn [mbind option_bind]. by rewrite (re_target _ _ _ _ _ _ _ Hr).
  - intros p s' Ha Hs' Hw. apply dwp_ret, dwp_ret. rewrite Ha. by apply HQ.
Qed.

Lemma dwp_getdcr s a pos l f j t Q :
  reaches s a pos l f j t → (∀ s', config s' = config s → wired_to s' l f → Q (Ok (default 0 (tg_dcr t))) s') →
  dwp (getdcr_or_zero a) Q s.
Proof.
  intros Hr HQ. pose proof (claimed_pos _ _ _ (re_config _ _ _ _ _ _ _ Hr) (re_claimed _ _ _ _ _ _ _ Hr)).
  unfold getdcr_or_zero, ccc_getdcr, ccc_direct_read. rewrite (proj2 (Z.eqb_neq a 0)) by lia.
  apply dwp_bind, dwp_attempt, dwp_bind, dwp_bind, dwp_require_true, dwp_bind, dwp_mapping_err.
  pose proof (law_read _ I3C_CCC_GETDCR a pos (reaches_addresses _ _ _ _ _ _ _ Hr) ltac:(by right; right; left)) as Hlaw.
  destruct (re_wired _ _ _ _ _ _ _ Hr) as (_ & Hl & Hf).
  assert (bus_read I3C_CCC_GETDCR a l = (λ d, [d]) <$> tg_dcr t) as Hb.
  { unfold bus_read. rewrite (re_at _ _ _ _ _ _ _ Hr). cbn [mbind option_bind]. by rewrite (re_target _ _ _ _ _ _ _ Hr). }
  rewrite Hl, Hb in Hlaw. destruct (tg_dcr t) as [x|]; cbn [fmap option_fmap option_map] in Hlaw.
  - destruct Hlaw as (p & Hp & Hlv). eapply dwp_leaves; [done|done|]. intros s' Hs' Hw. cbn [map_err].
    apply dwp_ret, dwp_ret, dwp_ret. rewrite Hp. by apply HQ.
  - eapply dwp_leaves; [done|done|]. intros s' Hs' Hw. cbn [map_err map_ccc_err]. apply dwp_ret. by apply HQ.
Qed.

Lemma dwp_setnewda s a a' pos l f j t Q :
  reaches s a pos l f j t → 0 < a' < I3C_BROADCAST_ADDR →
  (∀ s', config s' = config s → wired_to s' (<[j := set_da (Some a') t]> l) f → Q (Ok ()) s') →
  dwp (ccc_setnewda_bus_only a a') Q s.
Proof.
  intros Hr Ha' HQ. pose proof (claimed_pos _ _ _ (re_config _ _ _ _ _ _ _ Hr) (re_claimed _ _ _ _ _ _ _ Hr)).
  unfold ccc_setnewda_bus_only. rewrite (proj2 (Z.eqb_neq a 0)), (proj2 (Z.eqb_neq a' 0)), (proj2 (Z.leb_gt _ a')) by lia.
  apply dwp_bind, dwp_require_true, dwp_bind, dwp_mapping_err.
  pose proof (law_setnewda _ a a' pos (reaches_addresses _ _ _ _ _ _ _ Hr) Ha') as Hlaw.
  destruct (re_wired _ _ _ _ _ _ _ Hr) as (_ & Hl & Hf). unfold bus_setnewda in Hlaw.
  rewrite Hl, (re_at _ _ _ _ _ _ _ Hr) in Hlaw. cbn [fmap option_fmap option_map] in Hlaw. destruct Hlaw as (p & Hlv).
  rewrite (alter_insert _ _ _ _ (re_target _ _ _ _ _ _ _ Hr)) in Hlv.
  eapply dwp_leaves; [done|done|]. intros s' Hs' Hw. apply dwp_ret. by apply HQ.
Qed.
End commands.

(** ** The bus a walk starts from *)

(** A target that waits for an address and that no device of the table is. *)
Definition stranger (a : Attached) (t : target) : bool :=
  bool_decide (tg_da t = None) && negb (pid_attached a (tg_pid t)).
Definition strangers (c : I3cConfig) (l : list target) : nat := count (stranger (attached c)) l.
Definition wanting (c : I3cConfig) : nat := count needs_da (devices (attached c)).
Definition free_addrs (b : AddrBook) : nat := count (is_free b) (seqZ 8 119).

Record seats (c : I3cConfig) (l : list target) : Prop := {
  st_config : config_ok c;
  st_low i d : devices (attached c) !! i = Some d → kind d = KindI3c → dyn_addr d < I3C_BROADCAST_ADDR;
  st_pid j t : l !! j = Some t → 0 ≤ tg_pid t < 2 ^ 48;
  st_pids j k t u : l !! j = Some t → l !! k = Some u → tg_pid t = tg_pid u → j = k;
  st_addrs j k t u a : l !! j = Some t → l !! k = Some u → tg_da t = Some a → tg_da u = Some a → j = k;
  st_held j t a : l !! j = Some t → tg_da t = Some a → addr_ok a ∧ used (addrbook c) a = true;
  st_vacant i d j t : devices (attached c) !! i = Some d → needs_da d = true → l !! j = Some t → tg_da t ≠ Some (dyn_addr d);
  st_present i d : devices (attached c) !! i = Some d → needs_da d = true →
    ∃ j t, l !! j = Some t ∧ pid d = Some (tg_pid t) ∧ tg_da t = None;
  st_join j t i d : l !! j = Some t → tg_da t = None → devices (attached c) !! i = Some d → pid d = Some (tg_pid t) →
    needs_da d = true;
  st_free : (strangers c l ≤ free_addrs (addrbook c))%nat;
}.

(** The table of the controller names the devices' addresses. *)
Definition tabled (c : I3cConfig) (f : nat → Z) : Prop :=
  ∀ i d p, devices (attached c) !! i = Some d → kind d = KindI3c → dev_pos d = Some p → f p = dyn_addr d.

(** What a turn makes of the books. *)
Record rebooked (c c' : I3cConfig) (ds : list DeviceEntry) (u : Z → bool) : Prop := {
  rb_devices : devices (attached c') = ds;
  rb_pos : by_pos (attached c') = by_pos (attached c);
  rb_role : is_secondary c' = is_secondary c;
  rb_book : book_ok (addrbook c');
  rb_used x : addr_ok x → used (addrbook c') x = u x;
}.

Lemma needs_da_spec d : needs_da d = true ↔ kind d = KindI3c ∧ is_Some (pid d) ∧ da_state d = Unassigned.
Proof. unfold needs_da. rewrite !andb_true_iff, !bool_decide_eq_true. tauto. Qed.

Lemma rebooked_upd c c' ds u i g : rebooked c c' ds u → rebooked c (upd_dev i g c') (alter g i ds) u.
Proof. intros [H1 H2 H3 H4 H5]. split; try done. cbn. by rewrite H1. Qed.

Lemma rebooked_mark c c' ds u a :
  0 ≤ a → rebooked c c' ds u → rebooked c (set_book (mark_use a true) c') ds (λ x, (bool_decide (0 < a ∧ x = a)) || u x).
Proof.
  intros H0 [H1 H2 H3 H4 H5]. split; try done; [by apply mark_use_ok|]. intros x Hx. cbn.
  destruct (decide (0 < a < 128)) as [Ha|Ha].
  - rewrite used_mark_use, H5 by done. destruct (Z.eqb_spec a x) as [->|]; [by rewrite bool_decide_eq_true_2 by lia|].
    by rewrite bool_decide_eq_false_2 by lia.
  - rewrite mark_use_out, H5 by done. rewrite bool_decide_eq_false_2; [done|]. unfold addr_ok in Hx. lia.
Qed.
Lemma rebooked_ext c c' ds u u' : rebooked c c' ds u → (∀ x, addr_ok x → u x = u' x) → rebooked c c' ds u'.
Proof. intros [H1 H2 H3 H4 H5] Hu. split; try done. intros x Hx. by rewrite H5, Hu. Qed.

Lemma unknown_books c i d :
  config_ok c → devices (attached c) !! i = Some d → kind d = KindI3c →
  rebooked c (mark_da_unknown i None c) (<[i := set_da_state DaUnknown d]> (devices (attached c))) (used (addrbook c)).
Proof.
  intros Hc Hi Hk. destruct (ok_dev _ Hc _ _ Hi) as [Hr _ Hu Hw _]. unfold mark_da_unknown. rewrite Hi, bool_decide_eq_false_2 by (by intros []).
  rewrite Hw. eapply rebooked_ext.
  - apply rebooked_mark; [lia|]. apply rebooked_mark; [lia|]. rewrite <- (alter_insert _ _ _ _ Hi). apply rebooked_upd.
    split; [done..|apply Hc|]. by intros.
  - intros x Hx. cbn. case_bool_decide as E; [|done]. cbn. destruct E as [_ ->]. by rewrite Hu.
Qed.

(** ** One turn *)

(** An entry whose target was identified and read. *)
Definition verified (d : DeviceEntry) (t : target) : DeviceEntry :=
  set_da_state Verified (set_dcr (default 0 (tg_dcr t)) (set_bcr (tg_bcr t) d)).

Lemma set_unassigned d v : da_state d = Unassigned → set_da_state Unassigned (set_da_state v d) = d.
Proof. destruct d. cbn. by intros ->. Qed.

Section turn.
Context {D : Type} `{HardwareInterface D} `{!DaaBus D} `{!DaaLaws D}.
Notation ctl := (drv (I3cController D) I3cError).
Implicit Types s : I3cController D.

Lemma dwp_set_state s i st (Q : result unit I3cError → I3cController D → Prop) :
  Q (Ok ()) (set_config (upd_dev i (set_da_state st)) s) → dwp (set_state_of (Some i) st : ctl unit) Q s.
Proof. by intros. Qed.
Lemma dwp_cfg {A} (g : I3cConfig → A) (Q : result A I3cError → I3cController D → Prop) s :
  Q (Ok (g (config s))) s → dwp (get_cfg g : ctl A) Q s.
Proof. by intros. Qed.

(** The target that latched a seat is reached through the entry of the seat, once
    that is marked as claimed. *)
Lemma reaches_seat s c l f i d pos j t :
  seats c l → tabled c f → devices (attached c) !! i = Some d → needs_da d = true → dev_pos d = Some pos →
  devices (attached (config s)) !! i = Some (set_da_state DaUnknown d) → config_ok (config s) → is_secondary (config s) = false →
  l !! j = Some t → wired_to s (<[j := set_da (Some (dyn_addr d)) t]> l) f →
  reaches s (dyn_addr d) pos (<[j := set_da (Some (dyn_addr d)) t]> l) f j (set_da (Some (dyn_addr d)) t).
Proof.
  intros Hs Hf Hi Hn Hpos Hsi Hc Hsec Hj Hw. pose proof Hn as (Hk & _ & _)%needs_da_spec.
  pose proof (lookup_lt_Some _ _ _ Hj) as Hjl. split; try done.
  - by exists i, (set_da_state DaUnknown d).
  - exact (Hf _ _ _ Hi Hk Hpos).
  - eapply at_addr_unique; [by rewrite list_lookup_insert_eq|done|].
    intros k u Hu Hda. apply list_lookup_insert_Some in Hu as [(-> & _)|(Hne & Hu)]; [done|].
    by destruct (st_vacant _ _ Hs _ _ _ _ Hi Hn Hu).
  - by rewrite list_lookup_insert_eq.
Qed.

(** Reading the characteristics of a seated target and entering them. *)
Lemma dwp_verify {A} s c l f i d pos j t ds (k : ctl A) Q :
  seats c l → tabled c f → devices (attached c) !! i = Some d → needs_da d = true → dev_pos d = Some pos →
  rebooked c (config s) (<[i := set_da_state DaUnknown d]> ds) (used (addrbook c)) → (i < length ds)%nat →
  config_ok (config s) → is_secondary c = false → l !! j = Some t → wired_to s (<[j := set_da (Some (dyn_addr d)) t]> l) f →
  (∀ s', rebooked c (config s') (<[i := verified d t]> ds) (used (addrbook c)) → config_ok (config s') →
     wired_to s' (<[j := set_da (Some (dyn_addr d)) t]> l) f → dwp k Q s') →
  dwp (b ← ccc_getbcr (dyn_addr d); x ← getdcr_or_zero (dyn_addr d); verify_entry i b x;; k) Q s.
Proof.
  intros Hs Hf Hi Hn Hpos Hrb Hil Hc Hsec Hj Hw HQ.
  assert (∀ s', config s' = config s → wired_to s' (<[j := set_da (Some (dyn_addr d)) t]> l) f →
    reaches s' (dyn_addr d) pos (<[j := set_da (Some (dyn_addr d)) t]> l) f j (set_da (Some (dyn_addr d)) t)) as Hre.
  { intros s' Hc' Hw'. apply (reaches_seat s' c l f i); rewrite ?Hc'; try done.
    - by rewrite (rb_devices _ _ _ _ Hrb), list_lookup_insert_eq.
    - by rewrite (rb_role _ _ _ _ Hrb). }
  apply dwp_bind. eapply dwp_getbcr; [by apply Hre|]. intros s1 Hc1 Hw1. apply dwp_bind.
  eapply dwp_getdcr; [by apply Hre|]. intros s2 Hc2 Hw2. apply dwp_bind, dwp_writes.
  rewrite Hc1 in Hc2. apply HQ; [| |done]; cbn [config set_config]; rewrite Hc2; [|by apply upd_dev_ok].
  cbn [tg_bcr tg_dcr set_da].
  pose proof (rebooked_upd _ _ _ _ i (λ e, set_da_state Verified (set_dcr (default 0 (tg_dcr t)) (set_bcr (tg_bcr t) e))) Hrb) as Hx.
  erewrite alter_insert in Hx by (by rewrite list_lookup_insert_eq). rewrite list_insert_insert_eq in Hx. exact Hx.
Qed.

(** The winner is the device of the slot. *)
Lemma dwp_known_same s c l f i d pos need j t Q :
  seats c l → tabled c f → devices (attached c) !! i = Some d → needs_da d = true → dev_pos d = Some pos →
  rebooked c (config s) (<[i := set_da_state DaUnknown d]> (devices (attached c))) (used (addrbook c)) →
  config_ok (config s) → is_secondary c = false → l !! j = Some t → wired_to s (<[j := set_da (Some (dyn_addr d)) t]> l) f →
  (∀ s', rebooked c (config s') (<[i := verified d t]> (devices (attached c))) (used (addrbook c)) →
     wired_to s' (<[j := set_da (Some (dyn_addr d)) t]> l) f → Q (Ok (Z.ldiff need (Z.shiftl 1 (Z.of_nat pos)))) s') →
  dwp (daa_known pos i (Some i) (dyn_addr d) need : ctl Z) Q s.
Proof.
  intros Hs Hf Hi Hn Hpos Hrb Hc Hsec Hj Hw HQ. pose proof (lookup_lt_Some _ _ _ Hi) as Hil.
  pose proof (dev_desired _ _ (ok_dev _ (st_config _ _ Hs) _ _ Hi)) as Hw0.
  unfold daa_known. apply dwp_bind, dwp_cfg.
  rewrite (rb_devices _ _ _ _ Hrb), list_lookup_insert_eq by done. cbn [desired_da set_da_state]. rewrite Hw0, Z.eqb_refl.
  eapply dwp_verify; [done..|]. intros s' Hrb' _ Hw'. apply dwp_ret. by apply HQ.
Qed.

(** The winner is the device of another slot, and is moved to its seat. *)
Lemma dwp_known_other s c l f i d pos idx e p need j t Q :
  seats c l → tabled c f → devices (attached c) !! i = Some d → needs_da d = true → dev_pos d = Some pos →
  devices (attached c) !! idx = Some e → needs_da e = true → dev_pos e = Some p → idx ≠ i →
  rebooked c (config s) (<[i := set_da_state DaUnknown d]> (devices (attached c))) (used (addrbook c)) →
  config_ok (config s) → is_secondary c = false → l !! j = Some t → wired_to s (<[j := set_da (Some (dyn_addr d)) t]> l) f →
  (∀ s', rebooked c (config s') (<[idx := verified e t]> (devices (attached c))) (used (addrbook c)) →
     wired_to s' (<[j := set_da (Some (dyn_addr e)) t]> l) f → Q (Ok (Z.ldiff need (Z.shiftl 1 (Z.of_nat p)))) s') →
  dwp (daa_known pos idx (Some i) (dyn_addr d) need : ctl Z) Q s.
Proof.
  intros Hs Hf Hi Hn Hpos Hidx Hne Hpe Hni Hrb Hc Hsec Hj Hw HQ.
  pose proof (lookup_lt_Some _ _ _ Hi) as Hil. pose proof (lookup_lt_Some _ _ _ Hidx) as Hel.
  pose proof (proj1 (needs_da_spec d) Hn) as (Hkd & _ & Hsd). pose proof (proj1 (needs_da_spec e) Hne) as (Hke & _ & _).
  pose proof (ok_dev _ (st_config _ _ Hs) _ _ Hidx) as [Hre _ _ Hwe _]. pose proof (st_low _ _ Hs _ _ Hidx Hke) as Hlow.
  unfold daa_known. apply dwp_bind, dwp_cfg.
  rewrite (rb_devices _ _ _ _ Hrb), list_lookup_insert_ne, Hidx, Hwe by done.
  assert (dyn_addr e =? dyn_addr d = false) as ->.
  { apply Z.eqb_neq. intros Heq. by destruct Hni; eapply (ok_addr _ (st_config _ _ Hs)). }
  apply dwp_bind, dwp_attempt. eapply dwp_setnewda.
  { apply (reaches_seat s c l f i d pos j t); try done.
    - by rewrite (rb_devices _ _ _ _ Hrb), list_lookup_insert_eq.
    - by rewrite (rb_role _ _ _ _ Hrb). }
  { lia. }
  intros s1 Hc1 Hw1. rewrite list_insert_insert_eq in Hw1. apply dwp_bind, dwp_set_state, dwp_bind, dwp_set_state.
  set (s2 := set_config _ (set_config _ s1)).
  assert (rebooked c (config s2) (<[idx := set_da_state DaUnknown e]> (devices (attached c))) (used (addrbook c))) as Hrb2.
  { unfold s2. cbn [config set_config]. rewrite Hc1. rewrite <- (alter_insert _ _ _ _ Hidx). apply rebooked_upd.
    pose proof (rebooked_upd _ _ _ _ i (set_da_state Unassigned) Hrb) as Hx.
    erewrite alter_insert in Hx by (by rewrite list_lookup_insert_eq).
    by rewrite list_insert_insert_eq, set_unassigned, list_insert_id in Hx. }
  assert (config_ok (config s2)) as Hc2 by (unfold s2; cbn [config set_config]; rewrite Hc1; by repeat (apply upd_dev_ok; [|done])).
  eapply (dwp_verify s2 c l f idx e p j t); [done..|]. intros s' Hrb' Hc' Hw'. apply dwp_bind, dwp_cfg, dwp_ret.
  assert (pos_or_own (attached (config s')) idx = Some p) as ->.
  { rewrite (pos_or_own_spec _ _ (verified e t) (ok_table _ Hc')); [done|]. by rewrite (rb_devices _ _ _ _ Hrb'), list_lookup_insert_eq. }
  by apply HQ.
Qed.
(** A stranger is moved to a free address. *)
Lemma dwp_park s c l f i d pos j t (Q : result unit I3cError → I3cController D → Prop) :
  seats c l → tabled c f → devices (attached c) !! i = Some d → needs_da d = true → dev_pos d = Some pos →
  rebooked c (config s) (<[i := set_da_state DaUnknown d]> (devices (attached c))) (used (addrbook c)) →
  config_ok (config s) → is_secondary c = false → l !! j = Some t → stranger (attached c) t = true →
  wired_to s (<[j := set_da (Some (dyn_addr d)) t]> l) f →
  (∀ s' park, 8 ≤ park < I3C_BROADCAST_ADDR → is_free (addrbook c) park = true →
     rebooked c (config s') (devices (attached c)) (λ x, bool_decide (x = park) || used (addrbook c) x) →
     wired_to s' (<[j := set_da (Some park) t]> l) f → Q (Ok ()) s') →
  dwp (daa_park (Some i) (dyn_addr d)) Q s.
Proof.
  intros Hs Hf Hi Hn Hpos Hrb Hc Hsec Hj Hst Hw HQ. pose proof (lookup_lt_Some _ _ _ Hi) as Hil.
  pose proof (proj1 (needs_da_spec d) Hn) as (Hkd & _ & Hsd).
  assert (∀ x, 0 ≤ x < 128 → is_free (addrbook (config s)) x = is_free (addrbook c) x) as Hfree.
  { intros x Hx. apply eq_true_iff_eq. rewrite !is_free_spec by (apply Hc || apply Hs || lia). by rewrite (rb_used _ _ _ _ Hrb). }
  pose proof (alloc_from_spec (addrbook (config s)) 8) as Ha.
  destruct (alloc_from (addrbook (config s)) 8) as [park|] eqn:Hp.
  2:{ exfalso. assert (0 < strangers c l)%nat as H1.
      { eapply count_pos; [by eapply list_elem_of_lookup_2|done]. }
      pose proof (st_free _ _ Hs) as H2. assert (free_addrs (addrbook c) = 0%nat); [|lia].
      unfold free_addrs. rewrite (count_ext _ (λ _, false)).
      - by induction (seqZ 8 119).
      - intros x Hx%elem_of_seqZ. rewrite <- Hfree by lia. apply Ha. lia. }
  destruct Ha as (Hr & Hpf & _). rewrite Hfree in Hpf by lia.
  assert (8 ≤ park < I3C_BROADCAST_ADDR) as Hpr.
  { apply is_free_spec in Hpf as (_ & _ & Hres); [|apply Hs|lia]. unfold I3C_BROADCAST_ADDR.
    assert (park ≠ 0x7E); [|lia]. by intros ->. }
  unfold daa_park. apply dwp_bind, dwp_cfg. apply dwp_bind, dwp_lift. rewrite Hp. cbn [ok_or]. apply dwp_bind, dwp_writes.
  set (s1 := set_config _ s).
  pose proof (rebooked_mark _ _ _ _ park ltac:(lia) Hrb) as Hrb1. change (set_book _ (config s)) with (config s1) in Hrb1.
  apply dwp_bind, dwp_attempt. eapply dwp_setnewda; [|unfold I3C_BROADCAST_ADDR in *; lia|].
  { apply (reaches_seat s1 c l f i d pos j t); try done.
    - by rewrite (rb_devices _ _ _ _ Hrb1), list_lookup_insert_eq.
    - apply mark_use_more; [done|lia].
    - by rewrite (rb_role _ _ _ _ Hrb1). }
  intros s2 Hc2 Hw2. rewrite list_insert_insert_eq in Hw2. apply dwp_set_state.
  apply (HQ _ park); [done|done| |done]. cbn [config set_config]. rewrite Hc2.
  pose proof (rebooked_upd _ _ _ _ i (set_da_state Unassigned) Hrb1) as Hx.
  erewrite alter_insert in Hx by (by rewrite list_lookup_insert_eq).
  rewrite list_insert_insert_eq, set_unassigned, list_insert_id in Hx by done.
  eapply rebooked_ext; [exact Hx|]. intros x _. cbv beta. f_equal. apply bool_decide_ext. lia.
Qed.

(** ** A turn of the walk *)

Lemma dwp_turn s l f i d pos need (Q : result (option (Z * bool * Z)) I3cError → I3cController D → Prop) :
  let c := config s in
  seats c l → tabled c f → wired_to s l f → is_secondary c = false →
  devices (attached c) !! i = Some d → needs_da d = true → dev_pos d = Some pos →
  (∀ s' j t idx e p,
     l !! j = Some t → tg_da t = None → devices (attached c) !! idx = Some e → needs_da e = true → pid e = Some (tg_pid t) →
     dev_pos e = Some p →
     rebooked c (config s') (<[idx := verified e t]> (devices (attached c))) (used (addrbook c)) →
     wired_to s' (<[j := set_da (Some (dyn_addr e)) t]> l) f →
     Q (Ok (Some (Z.ldiff need (Z.shiftl 1 (Z.of_nat p)), true, 1))) s') →
  (∀ s' j t park,
     l !! j = Some t → stranger (attached c) t = true → 8 ≤ park < I3C_BROADCAST_ADDR → is_free (addrbook c) park = true →
     rebooked c (config s') (devices (attached c)) (λ x, bool_decide (x = park) || used (addrbook c) x) →
     wired_to s' (<[j := set_da (Some park) t]> l) f →
     Q (Ok (Some (need, false, 0))) s') →
  dwp (daa_turn pos need) Q s.
Proof.
  intros c Hs Hf Hw Hsec Hi Hn Hpos HQ1 HQ2. pose proof (st_config _ _ Hs) as Hc.
  pose proof (lookup_lt_Some _ _ _ Hi) as Hil. pose proof (proj1 (needs_da_spec d) Hn) as (Hkd & _ & Hsd).
  assert (by_pos (attached c) !! pos = Some (Some i)) as Hb by (apply Hc; eauto).
  pose proof (dev_desired _ _ (ok_dev _ Hc _ _ Hi)) as Hwd.
  unfold daa_turn. apply dwp_bind, dwp_cfg. fold c. rewrite Hb. cbn [mjoin option_join mbind option_bind]. rewrite Hi, Hwd.
  destruct Hw as (Hu & Hl & Hd).
  pose proof (law_entdaa s pos Hu Hsec ltac:(by eapply table_pos_lt; [apply Hc| |])) as Hlaw.
  rewrite Hl, Hd, (Hf _ _ _ Hi Hkd Hpos) in Hlaw.
  destruct (st_present _ _ Hs _ _ Hi Hn) as (j0 & t0 & Hj0 & _ & Ht0).
  rewrite (waiting_lookup _ _ _ Hj0 Ht0) in Hlaw. destruct Hlaw as (j & t & Hj & Ht & Hlaw).
  apply dwp_bind, dwp_attempt. eapply dwp_leaves; [exact Hlaw|exact Hd|]. intros s1 Hc1 Hw1. fold c in Hc1.
  apply dwp_bind, dwp_writes. set (s2 := set_config _ s1).
  assert (rebooked c (config s2) (<[i := set_da_state DaUnknown d]> (devices (attached c))) (used (addrbook c))) as Hrb.
  { unfold s2. cbn [config set_config]. rewrite Hc1. by apply unknown_books. }
  assert (config_ok (config s2)) as Hc2.
  { unfold s2. cbn [config set_config]. rewrite Hc1. by apply mark_da_unknown_ok. }
  apply dwp_bind, dwp_attempt. eapply (dwp_getpid s2 _ pos _ f j (set_da (Some (dyn_addr d)) t)); [|exact (st_pid _ _ Hs _ _ Hj)|].
  { apply (reaches_seat s2 c l f i d pos j t); try done.
    - by rewrite (rb_devices _ _ _ _ Hrb), list_lookup_insert_eq.
    - by rewrite (rb_role _ _ _ _ Hrb). }
  intros s3 Hc3 Hw3. change (tg_pid (set_da (Some (dyn_addr d)) t)) with (tg_pid t). rewrite <- Hc3 in Hrb, Hc2.
  apply dwp_bind, dwp_cfg. rewrite (rb_devices _ _ _ _ Hrb).
  destruct (position _ (<[i := _]> (devices (attached c)))) as [idx|] eqn:Hix.
  - apply position_Some in Hix as (e & He & Hpe%bool_decide_eq_true & _).
    apply dwp_bind. apply list_lookup_insert_Some in He as [(-> & <- & _)|(Hne & He)].
    + eapply (dwp_known_same _ _ _ _ _ _ _ _ j t); [done..|]. intros s4 Hrb4 Hw4. apply dwp_ret. by eapply (HQ1 s4 j t idx d).
    + pose proof (st_join _ _ Hs _ _ _ _ Hj Ht He Hpe) as Hen. destruct (table_own _ (ok_table _ Hc) _ _ He) as [p Hp].
      eapply (dwp_known_other _ _ _ _ _ _ _ _ _ _ _ j t); [done..|]. intros s4 Hrb4 Hw4. apply dwp_ret. by eapply (HQ1 s4 j t idx e).
  - rewrite position_None in Hix. apply dwp_bind.
    assert (stranger (attached c) t = true) as Hstr.
    { unfold stranger. rewrite bool_decide_eq_true_2 by done. cbn [andb]. apply negb_true_iff, not_true_iff_false.
      unfold pid_attached. intros (e & Hin%list_elem_of_In & Hpe%bool_decide_eq_true)%existsb_exists.
      apply list_elem_of_lookup_1 in Hin as [k Hk]. destruct (decide (k = i)) as [->|Hne].
      - simplify_eq. specialize (Hix (set_da_state DaUnknown d)). cbn [pid set_da_state] in Hix.
        rewrite bool_decide_eq_true_2 in Hix by done. discriminate Hix.
        eapply (list_elem_of_lookup_2 _ i). by rewrite list_lookup_insert_eq.
      - specialize (Hix e). rewrite bool_decide_eq_true_2 in Hix by done. discriminate Hix.
        eapply (list_elem_of_lookup_2 _ k). by rewrite list_lookup_insert_ne. }
    eapply (dwp_park _ _ _ _ _ _ _ j t); [done..|]. intros s4 park Hp Hpf Hrb4 Hw4. apply dwp_ret. by apply (HQ2 s4 j t park).
Qed.
End turn.

(** ** What a turn keeps *)

Lemma rebooked_config c c' ds u :
  config_ok c → rebooked c c' ds u → Forall2 same_identity (devices (attached c)) ds →
  (∀ x, addr_ok x → used (addrbook c) x = true → u x = true) → config_ok c'.
Proof.
  intros Hc [H1 H2 H3 H4 H5] Hs Hu. apply (config_same c); [done|done|done|by rewrite H1|]. intros i d Hd.
  destruct (ok_dev _ Hc _ _ Hd) as [Hr _ Hud _ _]. rewrite H5 by (split; lia). apply Hu; [split; lia|done].
Qed.

Lemma pid_attached_same a a' p :
  Forall2 same_identity (devices a) (devices a') → pid_attached a' p = pid_attached a p.
Proof.
  unfold pid_attached. induction 1 as [|d d' l l' (_ & Hp & _) _ IH]; [done|]. cbn [existsb]. by rewrite IH, Hp.
Qed.

Lemma strangers_same c c' l :
  Forall2 same_identity (devices (attached c)) (devices (attached c')) → strangers c' l = strangers c l.
Proof. intros Hs. apply count_ext. intros t _. unfold stranger. by rewrite (pid_attached_same _ _ _ Hs). Qed.

Lemma known_not_stranger c i d t :
  devices (attached c) !! i = Some d → pid d = Some (tg_pid t) → stranger (attached c) t = false.
Proof.
  intros Hi Hp. unfold stranger. replace (pid_attached (attached c) (tg_pid t)) with true; [by rewrite andb_false_r|].
  symmetry. apply existsb_exists. exists d. split; [apply list_elem_of_In; by eapply list_elem_of_lookup_2|by apply bool_decide_eq_true].
Qed.

(** Seating the target [t] of the entry [e]. *)
Section seat.
Variables (c c' : I3cConfig) (l : list target) (j idx : nat) (t : target) (e : DeviceEntry).
Hypotheses (Hs : seats c l) (Hj : l !! j = Some t) (He : devices (attached c) !! idx = Some e)
  (Hn : needs_da e = true) (Hp : pid e = Some (tg_pid t))
  (Hrb : rebooked c c' (<[idx := verified e t]> (devices (attached c))) (used (addrbook c))).

Lemma seat_same : Forall2 same_identity (devices (attached c)) (devices (attached c')).
Proof.
  rewrite (rb_devices _ _ _ _ Hrb), <- (alter_insert (λ d, verified d t) _ _ _ He). apply alter_same. by intros d.
Qed.

Lemma seat_device i d : devices (attached c') !! i = Some d → (i = idx ∧ d = verified e t) ∨ (i ≠ idx ∧ devices (attached c) !! i = Some d).
Proof.
  rewrite (rb_devices _ _ _ _ Hrb). intros [(-> & <- & _)|(Hne & Hi)]%list_lookup_insert_Some; [by left|]. right. by split; [intros ->|].
Qed.
Lemma seat_needs i d : devices (attached c') !! i = Some d → needs_da d = true → i ≠ idx ∧ devices (attached c) !! i = Some d.
Proof. intros [(-> & ->)|Hi]%seat_device Hd; [|done]. by apply needs_da_spec in Hd as (_ & _ & ?). Qed.

Lemma seat_counts : strangers c' (<[j := set_da (Some (dyn_addr e)) t]> l) = strangers c l ∧ S (wanting c') = wanting c.
Proof.
  split.
  - rewrite (strangers_same _ _ _ seat_same). unfold strangers.
    pose proof (count_insert (stranger (attached c)) l j t (set_da (Some (dyn_addr e)) t) Hj) as Hx.
    rewrite (known_not_stranger _ _ _ _ He Hp) in Hx. cbn [stranger tg_da set_da] in Hx.
    unfold stranger at 3 in Hx. rewrite bool_decide_eq_false_2 in Hx by done. cbn [andb] in Hx. lia.
  - unfold wanting. rewrite (rb_devices _ _ _ _ Hrb).
    pose proof (count_insert needs_da (devices (attached c)) idx e (verified e t) He) as Hx. rewrite Hn in Hx.
    assert (needs_da (verified e t) = false) as Hv.
    { apply not_true_iff_false. by intros (_ & _ & ?)%needs_da_spec. }
    rewrite Hv in Hx. lia.
Qed.

Lemma seat_free : free_addrs (addrbook c') = free_addrs (addrbook c).
Proof.
  apply count_ext. intros x Hx%elem_of_seqZ. apply eq_true_iff_eq.
  rewrite !is_free_spec by (apply Hs || apply Hrb || lia). by rewrite (rb_used _ _ _ _ Hrb) by (split; lia).
Qed.

Lemma seat_seats : seats c' (<[j := set_da (Some (dyn_addr e)) t]> l).
Proof.
  pose proof (st_config _ _ Hs) as Hc. destruct (ok_dev _ Hc _ _ He) as [Hr _ Hu _ _].
  split.
  - eapply rebooked_config; [done|done| |done]. rewrite <- (rb_devices _ _ _ _ Hrb). apply seat_same.
  - intros i d [(-> & ->)|(_ & Hi)]%seat_device; [exact (st_low _ _ Hs _ _ He)|by eapply st_low].
  - intros k u [(-> & <- & _)|(_ & Hk)]%list_lookup_insert_Some; [exact (st_pid _ _ Hs _ _ Hj)|by eapply st_pid].
  - intros k k' u u' [(-> & <- & _)|(_ & Hk)]%list_lookup_insert_Some [(-> & <- & _)|(_ & Hk')]%list_lookup_insert_Some Hpp;
      [done|exact (st_pids _ _ Hs _ _ _ _ Hj Hk' Hpp)|exact (st_pids _ _ Hs _ _ _ _ Hk Hj Hpp)|exact (st_pids _ _ Hs _ _ _ _ Hk Hk' Hpp)].
  - intros k k' u u' a [(-> & <- & _)|(_ & Hk)]%list_lookup_insert_Some [(-> & <- & _)|(_ & Hk')]%list_lookup_insert_Some Ha Ha';
      [done| | |by eapply st_addrs]; cbn in Ha, Ha'; simplify_eq.
    + by destruct (st_vacant _ _ Hs _ _ _ _ He Hn Hk').
    + by destruct (st_vacant _ _ Hs _ _ _ _ He Hn Hk).
  - intros k u a [(-> & <- & _)|(_ & Hk)]%list_lookup_insert_Some Ha.
    + cbn in Ha. simplify_eq. assert (addr_ok (dyn_addr e)) by (split; lia). by rewrite (rb_used _ _ _ _ Hrb).
    + destruct (st_held _ _ Hs _ _ _ Hk Ha) as [Hao Hua]. by rewrite (rb_used _ _ _ _ Hrb).
  - intros i d k u Hi Hd [(-> & <- & _)|(_ & Hk)]%list_lookup_insert_Some Ha; destruct (seat_needs _ _ Hi Hd) as [Hne Hi'].
    + cbn in Ha. apply Hne. symmetry. eapply (ok_addr _ Hc); [done..|congruence].
    + by destruct (st_vacant _ _ Hs _ _ _ _ Hi' Hd Hk).
  - intros i d Hi Hd. destruct (seat_needs _ _ Hi Hd) as [Hne Hi'].
    destruct (st_present _ _ Hs _ _ Hi' Hd) as (k & u & Hk & Hpu & Hu0). exists k, u. split; [|done].
    rewrite list_lookup_insert_ne; [done|]. intros ->. simplify_eq. by destruct Hne; eapply (ok_pid _ Hc).
  - intros k u i d [(-> & <- & _)|(Hne & Hk)]%list_lookup_insert_Some Hu0 Hi Hpd; [done|].
    apply seat_device in Hi as [(-> & ->)|(_ & Hi)]; [|exact (st_join _ _ Hs _ _ _ _ Hk Hu0 Hi Hpd)].
    destruct Hne. eapply (st_pids _ _ Hs); [done..|]. cbn in Hpd. congruence.
  - rewrite (proj1 seat_counts), seat_free. apply Hs.
Qed.
End seat.

(** Parking the stranger [t]. *)
Section park.
Variables (c c' : I3cConfig) (l : list target) (j : nat) (t : target) (park : Z).
Hypotheses (Hs : seats c l) (Hj : l !! j = Some t) (Ht : stranger (attached c) t = true)
  (Hr : 8 ≤ park < I3C_BROADCAST_ADDR) (Hf : is_free (addrbook c) park = true)
  (Hrb : rebooked c c' (devices (attached c)) (λ x, bool_decide (x = park) || used (addrbook c) x)).

Lemma park_ok : addr_ok park.
Proof. unfold I3C_BROADCAST_ADDR in Hr. split; lia. Qed.
Lemma park_unused : used (addrbook c) park = false.
Proof. by apply is_free_spec in Hf as (_ & ? & _); [|apply Hs|lia]. Qed.
Lemma park_used x : addr_ok x → used (addrbook c) x = true → used (addrbook c') x = true.
Proof. intros Hx Hu. rewrite (rb_used _ _ _ _ Hrb) by done. cbv beta. by rewrite Hu, orb_true_r. Qed.

Lemma park_strangers : S (strangers c' (<[j := set_da (Some park) t]> l)) = strangers c l.
Proof.
  unfold strangers, stranger, pid_attached. rewrite (rb_devices _ _ _ _ Hrb).
  pose proof (count_insert (stranger (attached c)) l j t (set_da (Some park) t) Hj) as Hx. rewrite Ht in Hx.
  unfold stranger at 3 in Hx. cbn [tg_da set_da] in Hx. rewrite bool_decide_eq_false_2 in Hx by done. cbn [andb] in Hx.
  unfold stranger, pid_attached in Hx. lia.
Qed.

Lemma park_free : free_addrs (addrbook c) = S (free_addrs (addrbook c')).
Proof.
  unfold free_addrs. rewrite (count_except _ _ park); [|apply NoDup_seqZ| |done].
  - f_equal. apply count_ext. intros x Hx%elem_of_seqZ. apply eq_true_iff_eq. rewrite andb_true_iff, negb_true_iff.
    rewrite !is_free_spec by (apply Hs || apply Hrb || lia). rewrite (rb_used _ _ _ _ Hrb) by (split; lia). cbv beta.
    rewrite orb_false_iff. tauto.
  - apply elem_of_seqZ. unfold I3C_BROADCAST_ADDR in Hr. lia.
Qed.

Lemma park_seats : seats c' (<[j := set_da (Some park) t]> l).
Proof.
  pose proof (st_config _ _ Hs) as Hc. pose proof (rb_devices _ _ _ _ Hrb) as Hd. pose proof park_unused as Hun.
  apply andb_true_iff in Ht as Hx. destruct Hx as [Ht0%bool_decide_eq_true Hunk%negb_true_iff].
  assert (∀ i d, devices (attached c) !! i = Some d → pid d ≠ Some (tg_pid t)) as Hst.
  { intros i d Hi Hp. pose proof (known_not_stranger _ _ _ _ Hi Hp). congruence. }
  split; rewrite ?Hd.
  - eapply rebooked_config; [done|done|by apply Forall_Forall2_diag, Forall_true|]. intros x _ Hu. cbv beta. by rewrite Hu, orb_true_r.
  - apply Hs.
  - intros k u [(-> & <- & _)|(_ & Hk)]%list_lookup_insert_Some; [exact (st_pid _ _ Hs _ _ Hj)|by eapply st_pid].
  - intros k k' u u' [(-> & <- & _)|(_ & Hk)]%list_lookup_insert_Some [(-> & <- & _)|(_ & Hk')]%list_lookup_insert_Some Hpp;
      [done|exact (st_pids _ _ Hs _ _ _ _ Hj Hk' Hpp)|exact (st_pids _ _ Hs _ _ _ _ Hk Hj Hpp)|exact (st_pids _ _ Hs _ _ _ _ Hk Hk' Hpp)].
  - intros k k' u u' a [(-> & <- & _)|(_ & Hk)]%list_lookup_insert_Some [(-> & <- & _)|(_ & Hk')]%list_lookup_insert_Some Ha Ha';
      [done| | |by eapply st_addrs]; cbn in Ha, Ha'; simplify_eq.
    + destruct (st_held _ _ Hs _ _ _ Hk' Ha') as [_ Hu']. congruence.
    + destruct (st_held _ _ Hs _ _ _ Hk Ha) as [_ Hu']. congruence.
  - intros k u a [(-> & <- & _)|(_ & Hk)]%list_lookup_insert_Some Ha.
    + cbn in Ha. injection Ha as <-. split; [apply park_ok|]. rewrite (rb_used _ _ _ _ Hrb) by apply park_ok. cbv beta.
      by rewrite bool_decide_eq_true_2.
    + destruct (st_held _ _ Hs _ _ _ Hk Ha) as [Hao Hua]. split; [done|]. by apply park_used.
  - intros i d k u Hi Hn [(-> & <- & _)|(_ & Hk)]%list_lookup_insert_Some Ha; [|by destruct (st_vacant _ _ Hs _ _ _ _ Hi Hn Hk)].
    cbn in Ha. simplify_eq. pose proof (dev_used _ _ (ok_dev _ Hc _ _ Hi)). congruence.
  - intros i d Hi Hn. destruct (st_present _ _ Hs _ _ Hi Hn) as (k & u & Hk & Hpu & Hu0). exists k, u. split; [|done].
    rewrite list_lookup_insert_ne; [done|]. intros ->. simplify_eq. by destruct (Hst _ _ Hi).
  - intros k u i d [(-> & <- & _)|(_ & Hk)]%list_lookup_insert_Some Hu0 Hi Hpd; [done|]. exact (st_join _ _ Hs _ _ _ _ Hk Hu0 Hi Hpd).
  - pose proof park_strangers. pose proof park_free. pose proof (st_free _ _ Hs). lia.
Qed.
End park.

(** ** The walk *)

(** The slots of the devices that wait. *)
Definition needed (c : I3cConfig) (need : Z) : Prop :=
  ∀ p, Z.testbit need (Z.of_nat p) = true ↔ ∃ i d, devices (attached c) !! i = Some d ∧ needs_da d = true ∧ dev_pos d = Some p.

(** What a walk has done: entries and targets that were settled are as they were, and
    no other identity changed. *)
Record walked (c : I3cConfig) (l : list target) (c' : I3cConfig) (l' : list target) : Prop := {
  wk_entries : Forall2 same_identity (devices (attached c)) (devices (attached c'));
  wk_settled i d : devices (attached c) !! i = Some d → needs_da d = false → devices (attached c') !! i = Some d;
  wk_pids : tg_pid <$> l' = tg_pid <$> l;
  wk_held j t : l !! j = Some t → is_Some (tg_da t) → l' !! j = Some t;
  wk_seated i d : devices (attached c) !! i = Some d → needs_da d = true → needs_da <$> devices (attached c') !! i = Some false →
    ∃ j t d', devices (attached c') !! i = Some d' ∧ da_state d' = Verified ∧
              l' !! j = Some t ∧ pid d = Some (tg_pid t) ∧ tg_da t = Some (dyn_addr d);
}.

Lemma walked_refl c l : walked c l c l.
Proof.
  split; try done.
  intros i d Hi Hn. rewrite Hi. cbn. by rewrite Hn.
Qed.

Lemma walked_trans c l c1 l1 c2 l2 : walked c l c1 l1 → walked c1 l1 c2 l2 → walked c l c2 l2.
Proof.
  intros [H1 H2 H3 H4 H5] [K1 K2 K3 K4 K5]. split.
  - by etrans.
  - auto.
  - congruence.
  - intros j t Hj Ht. by apply K4; [apply H4|].
  - intros i d Hi Hn Hn'. destruct (Forall2_lookup_l _ _ _ _ _ H1 Hi) as (d1 & Hi1 & (_ & Hp & _ & Ha & _)).
    destruct (needs_da d1) eqn:Hn1.
    + destruct (K5 i d1 Hi1 Hn1 Hn') as (j & t & d' & ? & ? & ? & ? & ?). exists j, t, d'. by rewrite <- Hp, <- Ha.
    + destruct (H5 i d Hi Hn) as (j & t & d' & Hd' & Hv & Hj & Hpt & Hda); [by rewrite Hi1; cbn; rewrite Hn1|].
      rewrite Hi1 in Hd'. injection Hd' as <-. exists j, t, d1. split_and!; [auto|done|apply K4; [done|by rewrite Hda]|done|done].
Qed.

(** A seat taken, and a stranger parked, are walks. *)
Lemma seat_walked c c' l j t idx e :
  l !! j = Some t → tg_da t = None → devices (attached c) !! idx = Some e → needs_da e = true → pid e = Some (tg_pid t) →
  rebooked c c' (<[idx := verified e t]> (devices (attached c))) (used (addrbook c)) →
  walked c l c' (<[j := set_da (Some (dyn_addr e)) t]> l).
Proof.
  intros Hj Ht He Hn Hp Hrb. pose proof (lookup_lt_Some _ _ _ Hj). pose proof (lookup_lt_Some _ _ _ He). split.
  - by eapply seat_same.
  - intros i d Hi Hd. rewrite (rb_devices _ _ _ _ Hrb), list_lookup_insert_ne; [done|]. intros ->. congruence.
  - rewrite list_fmap_insert. apply list_insert_id. by rewrite list_lookup_fmap, Hj.
  - intros k u Hk [a Hu]. rewrite list_lookup_insert_ne; [done|]. intros ->. congruence.
  - intros i d Hi Hd Hd'. destruct (decide (i = idx)) as [->|Hne].
    + rewrite He in Hi. injection Hi as <-. exists j, (set_da (Some (dyn_addr e)) t), (verified e t).
      rewrite (rb_devices _ _ _ _ Hrb), !list_lookup_insert_eq by done. by split_and!.
    + rewrite (rb_devices _ _ _ _ Hrb), list_lookup_insert_ne, Hi in Hd' by done. cbn in Hd'. congruence.
Qed.

Lemma park_walked c c' l j t park u :
  l !! j = Some t → stranger (attached c) t = true → rebooked c c' (devices (attached c)) u →
  walked c l c' (<[j := set_da (Some park) t]> l).
Proof.
  intros Hj [Ht%bool_decide_eq_true _]%andb_true_iff Hrb. split; rewrite ?(rb_devices _ _ _ _ Hrb); try done.
  - rewrite list_fmap_insert. apply list_insert_id. by rewrite list_lookup_fmap, Hj.
  - intros k v Hk [a Hu]. rewrite list_lookup_insert_ne; [done|]. intros ->. congruence.
  - intros i d Hi Hn. rewrite Hi. cbn. by rewrite Hn.
Qed.

Lemma rebooked_tabled c c' ds u f :
  tabled c f → rebooked c c' ds u → Forall2 same_identity (devices (attached c)) ds → tabled c' f.
Proof.
  intros Hf Hrb Hs i d p Hi Hk Hp. rewrite (rb_devices _ _ _ _ Hrb) in Hi.
  destruct (Forall2_lookup_r _ _ _ _ _ Hs Hi) as (d0 & Hi0 & (Hk0 & _ & _ & Ha0 & _ & Hp0)). rewrite Ha0.
  eapply Hf; [done|congruence..].
Qed.

Lemma testbit_clear need p q : Z.testbit (Z.ldiff need (Z.shiftl 1 (Z.of_nat p))) (Z.of_nat q) = Z.testbit need (Z.of_nat q) && negb (bool_decide (q = p)).
Proof.
  rewrite Z.ldiff_spec. f_equal. f_equal. rewrite Z.shiftl_1_l, Z.pow2_bits_eqb by lia.
  case_bool_decide as E; [subst; apply Z.eqb_refl|]. apply Z.eqb_neq. lia.
Qed.

(** The seat taken is no longer needed, the others are. *)
Lemma seat_needed c c' t idx e p need :
  config_ok c → needed c need → devices (attached c) !! idx = Some e → dev_pos e = Some p →
  rebooked c c' (<[idx := verified e t]> (devices (attached c))) (used (addrbook c)) →
  needed c' (Z.ldiff need (Z.shiftl 1 (Z.of_nat p))).
Proof.
  intros Hc Hn He Hp Hrb q. rewrite testbit_clear, andb_true_iff, negb_true_iff, bool_decide_eq_false. unfold needed in Hn.
  rewrite Hn. split.
  - intros [(i & d & Hi & Hd & Hq) Hne]. exists i, d. split; [|done].
    rewrite (rb_devices _ _ _ _ Hrb), list_lookup_insert_ne; [done|]. intros ->. congruence.
  - intros (i & d & Hi & Hd & Hq). destruct (seat_needs c c' idx t e He Hrb _ _ Hi Hd) as [Hne Hi'].
    split; [eauto|]. intros ->. apply Hne. eapply table_pos_inj; [apply Hc|done..].
Qed.

Lemma need_fold l n p :
  Z.testbit (foldl (λ need d, match dev_pos d with
                   | Some p => if needs_da d then Z.lor need (Z.shiftl 1 (Z.of_nat p)) else need | None => need end) n l) (Z.of_nat p) = true ↔
  Z.testbit n (Z.of_nat p) = true ∨ ∃ d, d ∈ l ∧ needs_da d = true ∧ dev_pos d = Some p.
Proof.
  revert n. induction l as [|d l IH]; intros n; cbn [foldl].
  - split; [by left|]. intros [Hn|(d & Hd%elem_of_nil & _)]; done.
  - rewrite IH. clear IH.
    assert (Z.testbit (match dev_pos d with
              | Some p => if needs_da d then Z.lor n (Z.shiftl 1 (Z.of_nat p)) else n | None => n end) (Z.of_nat p) = true ↔
            Z.testbit n (Z.of_nat p) = true ∨ (needs_da d = true ∧ dev_pos d = Some p)) as ->.
    { destruct (dev_pos d) as [q|]; [|naive_solver]. destruct (needs_da d); [|naive_solver].
      rewrite Z.lor_spec, orb_true_iff, Z.shiftl_1_l, Z.pow2_bits_eqb, Z.eqb_eq by lia. split; [|naive_solver].
      intros [?|E]; [by left|right]. split; [done|]. f_equal. lia. }
    split; [|intros [?|(e & [->|He]%elem_of_cons & Hn)]; [tauto|tauto|right; by exists e]].
    intros [[?|?]|(e & He & Hn)]; [tauto|right; exists d; split; [left|done]|right; exists e; split; [by right|done]].
Qed.

Lemma daa_need_spec c : needed c (daa_need (devices (attached c))).
Proof.
  intros p. unfold daa_need. rewrite need_fold, Z.bits_0. split.
  - intros [?|(d & [i Hi]%list_elem_of_lookup_1 & Hd)]; [done|]. by exists i, d.
  - intros (i & d & Hi & Hd). right. exists d. split; [by eapply list_elem_of_lookup_2|done].
Qed.

Lemma wanting_zero c i d : wanting c = 0%nat → devices (attached c) !! i = Some d → needs_da d = false.
Proof. intros Hz Hi. eapply count_zero; [exact Hz|]. by eapply list_elem_of_lookup_2. Qed.
Lemma needed_zero c need : needed c need → wanting c = 0%nat → need = 0.
Proof.
  intros Hn Hz. apply Z.bits_inj'. intros k Hk. rewrite Z.bits_0, <- (Z2Nat.id k) by done.
  apply not_true_iff_false. intros (i & d & Hi & Hd & _)%Hn. by rewrite (wanting_zero _ _ _ Hz Hi) in Hd.
Qed.

(** Some slot is needed, within a round of any position. *)
Lemma needed_near c need pos :
  config_ok c → needed c need → wanting c ≠ 0%nat → (pos < 8)%nat →
  ∃ k, (k < 8)%nat ∧ Z.testbit need (Z.of_nat ((pos + k) mod 8)) = true.
Proof.
  intros Hc Hn Hw Hpos.
  assert (∃ i d, devices (attached c) !! i = Some d ∧ needs_da d = true) as (i & d & Hi & Hd).
  { unfold wanting in Hw. clear Hn Hc. induction (devices (attached c)) as [|d l IH]; [done|]. cbn [count] in Hw.
    destruct (needs_da d) eqn:E; [by exists 0%nat, d|]. destruct IH as (i & e & Hi & He); [lia|]. by exists (S i), e. }
  destruct (table_own _ (ok_table _ Hc) _ _ Hi) as [p Hp]. pose proof (table_pos_lt _ _ _ _ (ok_table _ Hc) Hi Hp) as Hp8.
  assert (Z.testbit need (Z.of_nat p) = true) as Ht by (apply Hn; eauto).
  exists (if (pos <=? p)%nat then p - pos else p + 8 - pos)%nat. destruct (Nat.leb_spec pos p); (split; [lia|]).
  - replace (pos + (p - pos))%nat with p by lia. by rewrite Nat.mod_small.
  - replace (pos + (p + 8 - pos))%nat with (p + 1 * 8)%nat by lia. by rewrite Nat.Div0.mod_add, Nat.mod_small.
Qed.

Section walk.
Context {D : Type} `{HardwareInterface D} `{!DaaBus D} `{!DaaLaws D}.
Notation ctl := (drv (I3cController D) I3cError).
Implicit Types s : I3cController D.

(** Enough turns are left from [pos] on. *)
Definition enough (c : I3cConfig) (l : list target) (need : Z) (pos budget : nat) : Prop :=
  wanting c ≠ 0%nat →
  ∃ k, (k < 8)%nat ∧ Z.testbit need (Z.of_nat ((pos + k) mod 8)) = true ∧
       (8 * (wanting c - 1) + k + 1 + strangers c l ≤ budget)%nat.

Lemma dwp_daa_loop budget s l f pos need v (Q : result (Z * Z * bool) I3cError → I3cController D → Prop) :
  seats (config s) l → tabled (config s) f → wired_to s l f → is_secondary (config s) = false → needed (config s) need →
  (pos < 8)%nat → enough (config s) l need pos budget →
  (∀ s' l', seats (config s') l' → wired_to s' l' f → walked (config s) l (config s') l' → wanting (config s') = 0%nat →
     Q (Ok (0, v + Z.of_nat (wanting (config s)), false)) s') →
  dwp (daa_loop budget 8 pos need v : ctl _) Q s.
Proof.
  revert s l pos need v. induction budget as [|budget IH]; intros s l pos need v Hs Hf Hw Hsec Hn Hpos Hb HQ;
    (destruct (decide (wanting (config s) = 0%nat)) as [Hz|Hz];
       [rewrite (needed_zero _ _ Hn Hz); cbn [daa_loop Z.eqb]; apply dwp_ret;
        specialize (HQ s l Hs Hw (walked_refl _ _) Hz); by rewrite Hz, Z.add_0_r in HQ|]);
    destruct (Hb Hz) as (k & Hk & Hbit & Hle); [lia|].
  cbn [daa_loop]. assert (need =? 0 = false) as ->.
  { apply Z.eqb_neq. intros ->. by rewrite Z.bits_0 in Hbit. }
  destruct (Z.testbit need (Z.of_nat pos)) eqn:Hp; cbn [negb].
  - apply Hn in Hp as (i & d & Hi & Hd & Hdp). apply dwp_bind.
    eapply (dwp_turn s l f i d pos); [done..| |].
    + intros s' j t idx e p Hj Ht He Hne Hpe Hep Hrb Hw'.
      pose proof (seat_seats _ _ _ _ _ _ _ Hs Hj He Hne Hpe Hrb) as Hs'.
      destruct (seat_counts _ _ _ _ _ _ _ Hj He Hne Hpe Hrb) as [Hst Hwt].
      assert (needed (config s') (Z.ldiff need (Z.shiftl 1 (Z.of_nat p)))) as Hn' by (eapply seat_needed; [apply Hs|done..]).
      eapply (IH s'); [done| |done| |done|apply Nat.mod_upper_bound; lia| |].
      * eapply rebooked_tabled; [done..|]. rewrite <- (rb_devices _ _ _ _ Hrb). by eapply seat_same.
      * by rewrite (rb_role _ _ _ _ Hrb).
      * intros Hz'. destruct (needed_near _ _ ((pos + 1) mod 8)%nat (st_config _ _ Hs') Hn' Hz') as (k' & Hk' & Hbit');
          [apply Nat.mod_upper_bound; lia|]. exists k'. split_and!; [done|done|]. lia.
      * intros s2 l2 Hs2 Hw2 Hwk Hz2.
        replace (v + 1 + Z.of_nat (wanting (config s'))) with (v + Z.of_nat (wanting (config s))) by lia.
        eapply HQ; [done..| |done]. eapply walked_trans; [|done]. by eapply seat_walked.
    + intros s' j t park Hj Hst Hr Hfr Hrb Hw'.
      pose proof (park_seats _ _ _ _ _ _ Hs Hj Hst Hr Hfr Hrb) as Hs'.
      pose proof (park_strangers _ _ _ _ _ _ Hj Hst Hrb) as Hcount.
      assert (wanting (config s') = wanting (config s)) as Hwt by (unfold wanting; by rewrite (rb_devices _ _ _ _ Hrb)).
      eapply (IH s'); [done| |done| | |done| |].
      * eapply rebooked_tabled; [done..|]. done.
      * by rewrite (rb_role _ _ _ _ Hrb).
      * intros q. unfold needed in Hn. rewrite Hn. by rewrite (rb_devices _ _ _ _ Hrb).
      * intros _. exists 0%nat. rewrite Nat.add_0_r, Nat.mod_small by done. split_and!; [lia|apply Hn; eauto|]. lia.
      * intros s2 l2 Hs2 Hw2 Hwk Hz2. rewrite Z.add_0_r, Hwt. eapply HQ; [done..| |done].
        eapply walked_trans; [|done]. by eapply park_walked.
  - destruct k as [|k]; [rewrite Nat.add_0_r, Nat.mod_small in Hbit by done; congruence|].
    eapply (IH s); [done..|apply Nat.mod_upper_bound; lia| |done].
    intros _. exists k. split_and!; [lia| |lia].
    rewrite Nat.Div0.add_mod_idemp_l. by replace (pos + 1 + k)%nat with (pos + S k)%nat by lia.
Qed.
End walk.

(** C19: dynamic address assignment succeeds.  On a primary controller that is ready, whose
    address table names its devices, on a bus whose targets have provisional IDs and
    addresses of their own, the addresses marked in the books, where every attached I3C
    device without an address has its target waiting and its address vacant, where the
    other targets that wait are unknown to the controller and leave enough free
    addresses, [bus_daa] returns the number of devices that waited, whichever of the
    waiting targets wins each round, as long as eight rounds a device and one a stranger
    fit its budget of 64.  Every device that waited is then verified and its own target
    holds its address; devices and targets that were settled are as they were; no two
    targets share an address, and the books are straight. *)
Theorem bus_daa_assigns {D} `{HardwareInterface D} `{!DaaBus D} `{!DaaLaws D} (s : I3cController D) :
  usable (hw s) (glob s) → is_secondary (config s) = false → seats (config s) (on_bus (hw s)) →
  tabled (config s) (dat_addr (hw s)) → (8 * wanting (config s) + strangers (config s) (on_bus (hw s)) ≤ 64)%nat →
  ∃ s', bus_daa s = Some (s', Ok (Z.of_nat (wanting (config s)))) ∧ config_ok (config s') ∧
    (∀ i d, devices (attached (config s)) !! i = Some d → needs_da d = true →
       ∃ d' j t, devices (attached (config s')) !! i = Some d' ∧ same_identity d d' ∧ da_state d' = Verified ∧
                 on_bus (hw s') !! j = Some t ∧ pid d = Some (tg_pid t) ∧ tg_da t = Some (dyn_addr d)) ∧
    (∀ i d, devices (attached (config s)) !! i = Some d → needs_da d = false → devices (attached (config s')) !! i = Some d) ∧
    (∀ j t, on_bus (hw s) !! j = Some t → is_Some (tg_da t) → on_bus (hw s') !! j = Some t) ∧
    (∀ j k t u a, on_bus (hw s') !! j = Some t → on_bus (hw s') !! k = Some u → tg_da t = Some a → tg_da u = Some a → j = k).
Proof.
  intros Hu Hsec Hs Hf Hb. pose proof (table_slots _ (ok_table _ (st_config _ _ Hs))) as H8.
  pose proof (daa_need_spec (config s)) as Hn.
  cut (dwp bus_daa (λ r s', r = Ok (Z.of_nat (wanting (config s))) ∧ seats (config s') (on_bus (hw s')) ∧
         walked (config s) (on_bus (hw s)) (config s') (on_bus (hw s')) ∧ wanting (config s') = 0%nat) s).
  { intros (s' & r & Hr & -> & Hs' & Hw & Hz)%dwp_run. exists s'. split_and!; [done|apply Hs'| |apply Hw|apply Hw|apply Hs'].
    intros i d Hi Hd. destruct (Forall2_lookup_l _ _ _ _ _ (wk_entries _ _ _ _ Hw) Hi) as (d' & Hi' & Hid).
    destruct (wk_seated _ _ _ _ Hw i d Hi Hd) as (j & t & e & He & Hv & Hj & Hp & Ha).
    { rewrite Hi'. cbn. by rewrite (wanting_zero _ _ _ Hz Hi'). }
    rewrite Hi' in He. injection He as <-. by exists d', j, t. }
  unfold bus_daa, ensure_primary. apply dwp_bind, dwp_bind, dwp_cfg. rewrite Hsec. apply dwp_require_true.
  apply dwp_bind, dwp_cfg. rewrite H8. apply dwp_bind.
  eapply (dwp_daa_loop _ s (on_bus (hw s)) (dat_addr (hw s)) 0); [done|done|by split|done|done|lia| |].
  - intros Hz. destruct (needed_near _ _ 0 (st_config _ _ Hs) Hn Hz) as (k & Hk & Hbit); [lia|]. exists k. split_and!; [done..|lia].
  - intros s' l' Hs' (Hu' & Hl' & _) Hw Hz. cbn [Z.eqb]. apply dwp_ret. rewrite Hl', Z.add_0_l. by split_and!.
Qed.

(** ** On the controller block *)

(** The demonstration controller started, with its two devices attached. *)
Definition demo_ready : I3cController (Ast1060I3c I3cChip) :=
  match calls [CallStart; CallAttachI3c 5 0x10 0; CallAttachI3c 3 0x11 1] demo_controller with
  | Some (s, _) => s
  | None => demo_controller
  end.

Lemma idle_eta h l :
  arg_word h = None → commands h = [] → tx_words h = [] → rx_words h = [] → responses h = [] → status h = 0 → halted h = false →
  wired h = l → h = idle (store h) l.
Proof. destruct h. cbn. by intros -> -> -> -> -> -> -> ->. Qed.

Lemma demo_usable : usable (hw demo_ready) (glob demo_ready).
Proof.
  split; [|split; [|vm_compute; reflexivity]].
  - exists (store (regs (hw demo_ready))), demo_bus. split; [apply idle_eta; vm_compute; reflexivity|].
    repeat constructor; cbn; unfold in_u8, u8_MAX; lia.
  - split_and!; [|vm_compute; reflexivity..]. apply Nat.ltb_lt. vm_compute. reflexivity.
Qed.

Lemma demo_devices :
  devices (attached (config demo_ready)) = [set_dev_pos (Some 0%nat) (new_i3c 5 0x10); set_dev_pos (Some 1%nat) (new_i3c 3 0x11)].
Proof. vm_compute. reflexivity. Qed.
Lemma demo_on_bus : on_bus (hw demo_ready) = demo_bus.
Proof. vm_compute. reflexivity. Qed.

Lemma demo_books : config_ok (config demo_ready).
Proof.
  pose proof (calls_run [CallStart; CallAttachI3c 5 0x10 0; CallAttachI3c 3 0x11 1] demo_controller) as Hr.
  unfold demo_ready. destruct (calls _ demo_controller) as [[s r]|].
  - apply Hr; [repeat constructor; cbn; lia|exact demo_config_ok].
  - exact demo_config_ok.
Qed.

(** Cases of the entries and the targets. *)
Ltac demo_cases :=
  repeat match goal with
  | |- ∀ _, _ => intro
  | H : devices _ !! ?i = Some _ |- _ => rewrite demo_devices in H
  | H : [_; _] !! ?i = Some _ |- _ => destruct i as [|[|i]]; cbn in H; [..|done]; injection H as <-
  | H : demo_bus !! ?i = Some _ |- _ => destruct i as [|[|[|i]]]; cbn in H; [..|done]; injection H as <-
  end; cbn in *; try (done || lia || congruence).

Lemma demo_seats : seats (config demo_ready) demo_bus.
Proof.
  split; [exact demo_books|demo_cases..| | |]; [|demo_cases|].
  - demo_cases; [by exists 0%nat, (mkTarget 5 0x6 (Some 0x44) None)|by exists 1%nat, (mkTarget 3 0x2 None None)].
  - apply Nat.leb_le. vm_compute. reflexivity.
Qed.

Lemma demo_tabled : tabled (config demo_ready) (dat_addr (hw demo_ready)).
Proof. intros i d p. rewrite demo_devices. destruct i as [|[|i]]; cbn [lookup list_lookup]; [..|done]; intros [= <-] _ [= <-]; vm_compute; reflexivity. Qed.

(** Both devices are assigned; the stranger, which wins first, is parked. *)
Lemma bus_daa_assigns_witness :
  (λ '(s, r), (r, tg_da <$> on_bus (hw s))) <$> bus_daa demo_ready = Some (Ok 2, [Some 0x10; Some 0x11; Some 8]) ∧
  ∃ s', bus_daa demo_ready = Some (s', Ok 2) ∧ config_ok (config s') ∧
    ∃ d' j t, devices (attached (config s')) !! 0%nat = Some d' ∧ da_state d' = Verified ∧
              on_bus (hw s') !! j = Some t ∧ tg_pid t = 5 ∧ tg_da t = Some 0x10.
Proof.
  split; [vm_compute; reflexivity|].
  destruct (bus_daa_assigns demo_ready) as (s' & Hr & Hc & Hd & _).
  - exact demo_usable.
  - vm_compute. reflexivity.
  - rewrite demo_on_bus. exact demo_seats.
  - exact demo_tabled.
  - apply Nat.leb_le. vm_compute. reflexivity.
  - exists s'. split; [|split; [exact Hc|]].
    { replace 2 with (Z.of_nat (wanting (config demo_ready))) by (vm_compute; reflexivity). exact Hr. }
    destruct (Hd 0%nat (set_dev_pos (Some 0%nat) (new_i3c 5 0x10))) as (d' & j & t & H1 & _ & H3 & H4 & H5 & H6).
    { rewrite demo_devices. reflexivity. }
    { reflexivity. }
    exists d', j, t. split_and!; [done..| |done]. by injection H5.
Defined.
